(* ===== verification/_CoqProject ===== *)
-Q . S2P
Prelude.v
Memory.v
Crc64.v
Abi.v
KernelParser.v
KernelFacts.v
KernelProps.v
Builder.v
BuilderFacts.v
BuilderProps.v
Handoff.v
Capsule.v
CapsuleFacts.v
CapsuleBuild.v
CapsuleProps.v
Profile0.v
AuthEnvelope.v
ElfPlan.v
ElfMoves.v
UefiExit.v
Import.v
ImportFacts.v
ImportProps.v
ImportEmit.v
ImportBodies.v
ImportLimine.v
ImportLimineProps.v
ImportUefi.v
ImportUefiProps.v
ImportMultiboot.v
ImportMultibootFacts.v
ImportMultibootProps.v
Boot.v
Bridge.v
BridgeFacts.v
BridgeToV1.v
BridgeFromV1.v
BridgeProps.v
Tcg2.v
Sha256.v
Tcg2Props.v
Security.v
SecurityFacts.v
SecurityPublish.v
SecurityLive.v
SecurityProps.v
Port.v
PortFacts.v
PortParts.v
PortOpen.v
PortSpec.v
PortLinux01.v
PortTina.v
PortTinaProps.v
PortMinix.v
PortMinixProps.v
PortJosh.v
PortJoshProps.v
PortProps.v
Paging.v
PagingFacts.v
PagingTables.v
PagingMap.v
PagingBoot.v
PagingProps.v
Loader.v
LoaderMain.v
LoaderMap.v
LoaderHandoff.v
LoaderFind.v
LoaderLaws.v
LoaderGrants.v
LoaderRead.v
LoaderSegments.v
LoaderServices.v
LoaderKernel.v
LoaderBoot.v
LoaderSample.v
LoaderLeak.v
LoaderProps.v
