(* ===== verification/Prelude.v ===== *)
(** * BearBoot: a verification library for the Bear Boot Protocol

    BearBoot defines a boot protocol (BBP): a boot loader describes the machine
    to a kernel with a chain of self-delimiting, checksummed tags in memory
    (version 1) or with one self-contained capsule (version 2).  The library
    models the C implementation and proves it correct; definitions keep the
    names of the C functions, and the comment at the top of each file names the
    source it translates.

    ** How the parts interact

    An importer (bootloader/bbp_import*.c) validates a snapshot of what some
    boot environment reported, plans every allocation, and only then calls the
    builder (bootloader/bbp_build.c), which appends tags to an arena and finally
    seals the chain and an INFO structure.  The kernel (kernel/bbp_kernel.c)
    trusts nothing: it validates INFO and walks the chain inside a window.  The
    capsule (v2/bbp_v2.c) is the other wire format, with its own builder and
    parser; profile 0 and the authentication envelope are layers above its
    parser.  The bridge (bridge/bbp_bridge.c) converts between the two.  The UEFI
    loader (bootloader/efi_main.c) is a producer of its own: it reads a kernel
    file through the firmware, plans it with the ELF planner, loads and checks
    it, builds page tables, leaves boot services with the ExitBootServices loop,
    describes the final memory map with the builder and jumps.  The security
    collector (experimental/firmware/uefi) measures boot components into a TPM and publishes a SECURITY tag, with the
    hash and wire helpers of its tcg2 directory.  A port (under ports/) runs in a
    kernel that another protocol has booted: its adapter builds tags for that
    kernel's boot data with the same builder and opens them with the same
    parser, and its glue reads values back from them.

    ** Conventions

    Memory is a finite map from addresses to bytes; [None] is a fault (an access
    outside the mapped addresses), so a theorem that a function returns [Some]
    says that it neither faults nor diverges.  Machine integers are [Z] with
    [wrap w] wherever C may wrap.  NULL is address 0, or [None] for a pointer to
    a structure that is a Rocq value.  Guarded early returns are written with
    the notations [check] and [reject] below.  Code outside the repository
    (firmware, MAC verifier, rollback policy, digest, address mapping) is a
    function argument.

    ** Files

    - [Prelude]: notations, tactics, words and list lemmas; [Memory]: loads,
      stores, byte loops and framing.
    - [Crc64] (include/bbp/bbp_crc64.h): the checksum, bit by bit; it is the
      catalogue CRC-64/XZ, composes over chunks, detects bursts.
    - [Abi] (include/bbp/bbp.h): packed layouts as field lists; the static
      assertions, natural alignment and distinct tag identifiers as lemmas.
    - [KernelParser], [KernelFacts], [KernelProps] (kernel/bbp_kernel.c, .h):
      initialisers, tag walk, lookup, iteration, evidence, blobs, arrays.  No
      handoff, however hostile, makes them fault or loop; lookup and iteration
      refine the abstract walk [tag_walk]; a damaged tag is never returned.
    - [Builder], [BuilderFacts], [BuilderProps] (bootloader/bbp_build.c, .h):
      the arena builder, its representation invariant [builder_rep], the
      transition system [bstep] of client calls, fail-closed finalization after
      any refused call.
    - [Handoff]: the class [ValidHandoff] between producers and the kernel, and
      the end-to-end theorem from builder calls to lookup.
    - [Capsule], [CapsuleFacts], [CapsuleBuild], [CapsuleProps] (v2/bbp_v2.c,
      include/bbp/bbp_v2.h): the parser decides the declarative predicate
      [wf_capsule]; building and parsing are inverse; the digest is canonical.
    - [Profile0] (v2/bbp_v2_profile.c), [AuthEnvelope] (v2/bbp_v2_auth.c and
      experimental/rollback/bbp_boot_state.c): semantic validation, the order of
      authentication, parsing and policy, rollback protection over boot
      attempts.
    - [ElfPlan] (bootloader/uefi/elf64_loader.c): the bounded load planner;
      [ElfMoves]: its plan depends on the bytes of the file only;
      [UefiExit] (bootloader/uefi/uefi_exit.c): the ExitBootServices loop as a
      refinement of a protocol automaton, for any firmware.
    - [Import], [ImportFacts], [ImportProps] (bootloader/bbp_import.c, .h): the
      importers' common layer; accepted strings are UTF-8 text, an accepted
      framebuffer holds its pixels.  [ImportEmit]: a plan that succeeds predicts
      every builder call ([emits]); [ImportBodies]: tag bodies the importers
      share.
    - [ImportLimine](Props), [ImportUefi](Props), [ImportMultiboot](Facts,
      Props): the three importers.  Each never faults, is failure-atomic, and on
      success appends exactly the tags that describe the validated snapshot.
    - [Boot]: the class [Importer] that the three discharge, and the theorem
      that imported tags reach the kernel.
    - [Bridge], [BridgeFacts], [BridgeToV1], [BridgeFromV1], [BridgeProps]
      (bridge/bbp_bridge.c, include/bbp/bbp_bridge.h): both conversions; each
      succeeds exactly on convertible inputs, and a converted chain comes back
      with every byte but links and checksums.
    - [Tcg2], [Sha256], [Tcg2Props] (experimental/firmware/uefi/tcg2): streaming
      SHA-256 against FIPS 180-4, register extension, the PCR_Read exchange.
    - [Security], [SecurityFacts], [SecurityPublish], [SecurityLive],
      [SecurityProps] (experimental/firmware/uefi/bbp_security_collector.c):
      the collector, with the firmware's callbacks as parameters; it publishes
      all or nothing, and does publish when the firmware cooperates.
    - [Port] (include/bbp/bbp_osif.h and the statements the four adapters
      share), [PortFacts] ([builds]: an emitter realises its items or marks the
      builder failed), [PortParts] (the tags), [PortOpen] (two mappings of one
      arena; from the emitter to the kernel's context), [PortSpec] (the class
      [Port] and what follows from it).
    - [PortLinux01], [PortTina](Props), [PortMinix](Props), [PortJosh](Props)
      (ports/linux01, tinalinux, minix, josh): OS interface, adapter and glue of
      each port, and the instance of [Port]; [PortProps]: the adapters deliver
      exactly the boot data, and the boots and consumers of each kernel (the
      seed josh is given consists of words of the hardware generator).
    - [Paging] (the page tables of bootloader/efi_main.c, and [walk], the
      processor's translation), [PagingFacts] (entries and keys of tables),
      [PagingTables] (the tables in memory represent a map of entries),
      [PagingMap] (one page), [PagingBoot] (the first 4 GiB), [PagingProps]: the
      tables translate every address as [boot_address_space] says.
    - [Loader], [LoaderMain] (the rest of bootloader/efi_main.c and
      bootloader/uefi/uefi_min.h): a state monad over firmware, memory and a log
      of resources, with one function per firmware service as a parameter.
      [LoaderMap], [LoaderHandoff]: the memory map the kernel gets.
      [LoaderFind]: the header and its contract are decided exactly.
    - [LoaderLaws]: the class [Firmware], what UEFI documents of its services
      (a failing AllocatePool leaves any pointer, AllocatePages may return page
      0), and [runs], total correctness of loader programs.  [LoaderGrants]: the
      class [Obliging] of a firmware that grants what it is asked for.
      [LoaderRead], [LoaderSegments], [LoaderServices], [LoaderKernel]: each part
      of the loader against these laws; [LoaderBoot]: the whole program ends,
      jumps only into a machine that keeps the protocol's promise, and on an
      obliging firmware does jump unless the file is to blame.  [LoaderSample]: a
      kernel file and an obliging firmware that boots it.
    - [LoaderLeak]: for any firmware, with no law at all, what the loader
      released and still holds is what it obtained and what failing calls left in
      its variables; after an error it holds nothing, at the jump exactly the
      resources its registers name and the segments of the file's plan.
      [LoaderProps]: the properties of reading the kernel and of the whole.

    ** Bounds and fuel

    Loops over counts recurse on the count.  The tag walk takes [BBP_MAX_TAGS]
    steps because the source does.  [seal_chain] of finalization takes a fuel
    argument, and every theorem about it requires only more fuel than tags; the
    string scan takes as much fuel as there are mapped bytes.  The UTF-8 loops
    consume at least one byte per step and get the number of content bytes as
    fuel; the Multiboot2 loops consume at least eight bytes per step and get the
    block size.  [read_loop] of the UEFI loader makes progress with every read
    and gets the size of the file.  None of these bounds restricts an input: the theorems state
    that a result is returned.

    In the ports the arena is 64 KiB, and the bounds on entries, processors and
    command lines in the boot theorems are what is certain to fit; the generic
    theorem has no such bound and says what happens when the tags do not fit.

    ** Not modelled

    - In bootloader/efi_main.c: the serial port and the debug-exit port (port
      I/O; a failure is its reason), and the instructions of the jump itself (the
      result of the program is the four registers it loads).
    - In ports/*: the serial port, the panic hooks and the time-stamp clock
      (port I/O and inline assembly), and what the glue prints itself.  The
      linux-0.01 port is modelled with 64-bit pointers, as its standalone build
      has them.
    - examples/, sdk/: demonstration programs and an umbrella include. *)

From Stdlib Require Export ZArith Lia.
From Stdlib Require Export Init.Byte.
From Stdlib Require Import Strings.Byte.
From stdpp Require Export base numbers list option gmap.

#[global] Open Scope Z_scope.

(** ** Early returns

    The C functions are chains of guarded early returns.  [check c else e; k]
    is [if (!c) return e; k] and [reject c with e; k] is [if (c) return e; k]. *)

Declare Scope bbp_scope.
Delimit Scope bbp_scope with bbp.
#[global] Open Scope bbp_scope.

Notation "'check' c 'else' e ; k" := (if c then k else e)
  (at level 100, c at next level, e at next level, k at level 200,
   format "'[v' 'check'  c  'else'  e ; '/' k ']'") : bbp_scope.
Notation "'reject' c 'with' e ; k" := (if c then e else k)
  (at level 100, c at next level, e at next level, k at level 200,
   format "'[v' 'reject'  c  'with'  e ; '/' k ']'") : bbp_scope.

(** ** Machine words

    An unsigned C integer of width [w] is a [Z] in [[0, 2^w)]; conversions and
    arithmetic that may wrap apply [wrap]. *)

Definition wrap (w z : Z) : Z := z mod 2 ^ w.
Abbreviation wrap8 := (wrap 8).
Abbreviation wrap16 := (wrap 16).
Abbreviation wrap32 := (wrap 32).
Abbreviation wrap64 := (wrap 64).

Definition UINT64_MAX : Z := 2 ^ 64 - 1.
Definition UINT32_MAX : Z := 2 ^ 32 - 1.
Definition UINT16_MAX : Z := 2 ^ 16 - 1.
(** [(size_t)-1] and [(uintptr_t)-1] on the 64-bit targets BBP supports. *)
Definition SIZE_MAX : Z := 2 ^ 64 - 1.

(** C truth values *)
Definition c_bool (b : bool) : Z := if b then 1 else 0.

Definition in_word (w z : Z) : Prop := 0 <= z < 2 ^ w.

Create HintDb bbp discriminated.
#[export] Hint Constants Opaque : bbp.
#[export] Hint Variables Opaque : bbp.

Lemma wrap_range w z : 0 <= w -> in_word w (wrap w z).
Proof. intros. apply Z.mod_pos_bound. lia. Qed.

Lemma wrap_small w z : in_word w z -> wrap w z = z.
Proof. intros H. by apply Z.mod_small. Qed.

Lemma in_word_mono w w' z : 0 <= w <= w' -> in_word w z -> in_word w' z.
Proof.
  unfold in_word. intros Hw Hz.
  assert (2 ^ w <= 2 ^ w') by (apply Z.pow_le_mono_r; lia). lia.
Qed.

(** Bits above the width of a word are zero, and this characterises words. *)
Lemma in_word_testbit w z i : in_word w z -> w <= i -> Z.testbit z i = false.
Proof.
  intros [Hz0 Hz] Hi. destruct (decide (z = 0)) as [->|Hne]; [apply Z.bits_0|].
  apply Z.bits_above_log2; [done|].
  assert (Z.log2 z < w) by (apply Z.log2_lt_pow2; lia). lia.
Qed.

Lemma testbit_in_word w z :
  0 <= w -> 0 <= z -> (forall i, w <= i -> Z.testbit z i = false) -> in_word w z.
Proof.
  intros Hw Hz Hbits. split; [done|].
  destruct (decide (z = 0)) as [->|Hne]; [lia|].
  apply Z.log2_lt_pow2; [lia|].
  destruct (Z.lt_ge_cases (Z.log2 z) w) as [|Hge]; [done|].
  specialize (Hbits _ Hge). rewrite Z.bit_log2 in Hbits; [done|lia].
Qed.

Lemma lxor_in_word w a b : 0 <= w -> in_word w a -> in_word w b -> in_word w (Z.lxor a b).
Proof.
  intros Hw Ha Hb. apply testbit_in_word; [done| |].
  - apply Z.lxor_nonneg. destruct Ha, Hb. lia.
  - intros i Hi. rewrite Z.lxor_spec.
    rewrite !(in_word_testbit w) by done. done.
Qed.

Lemma land_in_word_l w a b : 0 <= w -> in_word w a -> in_word w (Z.land a b).
Proof.
  intros Hw Ha. apply testbit_in_word; [done| |].
  - apply Z.land_nonneg. destruct Ha. lia.
  - intros i Hi. rewrite Z.land_spec, (in_word_testbit w a) by done. done.
Qed.

Lemma lor_in_word w a b : 0 <= w -> in_word w a -> in_word w b -> in_word w (Z.lor a b).
Proof.
  intros Hw Ha Hb. apply testbit_in_word; [done| |].
  - apply Z.lor_nonneg. destruct Ha, Hb. lia.
  - intros i Hi. rewrite Z.lor_spec.
    rewrite !(in_word_testbit w) by done. done.
Qed.

Lemma shiftr_in_word w a n : 0 <= w -> 0 <= n -> in_word w a -> in_word w (Z.shiftr a n).
Proof.
  intros Hw Hn Ha. apply testbit_in_word; [done| |].
  - apply Z.shiftr_nonneg. destruct Ha. lia.
  - intros i Hi. rewrite Z.shiftr_spec by lia.
    apply (in_word_testbit w); [done|lia].
Qed.

#[export] Hint Resolve wrap_range lxor_in_word land_in_word_l lor_in_word
  shiftr_in_word : bbp.

(** ** Alignment

    [x & 7] is the remainder modulo 8 and [(x + m) & ~m] rounds up. *)

Lemma land_7 x : Z.land x 7 = x mod 8.
Proof. change 7 with (Z.ones 3). by rewrite Z.land_ones by lia. Qed.

Lemma land_ones_pow2 x k : 0 <= k -> Z.land x (2 ^ k - 1) = x mod 2 ^ k.
Proof.
  intros. replace (2 ^ k - 1) with (Z.ones k) by (rewrite Z.ones_equiv; lia).
  by rewrite Z.land_ones by lia.
Qed.

(** Testing one bit with a mask. *)
Lemma land_bit e k : 0 <= k -> (Z.land e (2 ^ k) =? 0) = negb (Z.testbit e k).
Proof.
  intros Hk. destruct (Z.eqb_spec (Z.land e (2 ^ k)) 0) as [E|E].
  - apply (f_equal (fun z => Z.testbit z k)) in E.
    rewrite Z.land_spec, Z.pow2_bits_true, andb_true_r, Z.bits_0 in E by done. by rewrite E.
  - destruct (Z.testbit e k) eqn:Hb; [done|]. exfalso. apply E. apply Z.bits_inj_iff'.
    intros i Hi. rewrite Z.land_spec, Z.bits_0. destruct (decide (i = k)) as [->|Hne]; [by rewrite Hb|].
    rewrite Z.pow2_bits_false by done. apply andb_false_r.
Qed.

(** Masking with the complement of [2^k - 1], computed at 64 bits. *)
Lemma land_wrap_lnot x k :
  0 <= k <= 64 -> in_word 64 x ->
  Z.land x (wrap64 (Z.lnot (2 ^ k - 1))) = x - x mod 2 ^ k.
Proof.
  intros Hk Hx.
  assert (x - x mod 2 ^ k = Z.ldiff x (Z.ones k)) as ->.
  { rewrite Z.ldiff_ones_r, Z.shiftr_div_pow2, Z.shiftl_mul_pow2 by lia.
    pose proof (Z.div_mod x (2 ^ k)). lia. }
  apply Z.bits_inj_iff'. intros i Hi. unfold wrap.
  rewrite Z.land_spec, Z.ldiff_spec, <- Z.land_ones, Z.land_spec by lia.
  replace (2 ^ k - 1) with (Z.ones k) by (rewrite Z.ones_equiv; lia).
  rewrite Z.lnot_spec by lia.
  destruct (decide (i < 64)) as [Hlt|Hge].
  - rewrite (Z.ones_spec_low 64) by lia. by rewrite andb_true_r.
  - rewrite (in_word_testbit 64 x) by (done || lia). done.
Qed.

(** Rounding up to the next multiple of [a]. *)
Definition round_up (a x : Z) : Z := (x + (a - 1)) - (x + (a - 1)) mod a.

Lemma round_up_bounds a x : 0 < a -> x <= round_up a x < x + a.
Proof.
  intros. unfold round_up. pose proof (Z.mod_pos_bound (x + (a - 1)) a). lia.
Qed.

Lemma round_up_mod a x : 0 < a -> round_up a x mod a = 0.
Proof.
  intros. unfold round_up. rewrite Zminus_mod, Zmod_mod, Z.sub_diag.
  by rewrite Zmod_0_l.
Qed.

Lemma round_up_id a x : 0 < a -> x mod a = 0 -> round_up a x = x.
Proof.
  intros Ha Hx. unfold round_up.
  apply Z.mod_divide in Hx as [q ->]; [|lia].
  rewrite Z.add_comm, Z.mod_add by lia. rewrite Z.mod_small by lia. lia.
Qed.

(** [(x + 7u) & ~(size_t)7u] *)
Definition align8_up (x : Z) : Z := Z.land (wrap64 (x + 7)) (wrap64 (Z.lnot 7)).

Lemma align8_up_eq x : 0 <= x <= SIZE_MAX - 7 -> align8_up x = round_up 8 x.
Proof.
  intros Hx. unfold align8_up, SIZE_MAX in *.
  rewrite (wrap_small 64 (x + 7)) by (unfold in_word; lia).
  change 7 with (2 ^ 3 - 1) at 2. rewrite land_wrap_lnot by (unfold in_word; lia).
  done.
Qed.

(** ** Bytes *)

Definition byte_Z (b : byte) : Z := Z.of_N (Byte.to_N b).

(** [(uint8_t)z] *)
Definition Z_byte (z : Z) : byte :=
  match Byte.of_N (Z.to_N (z mod 256)) with Some b => b | None => x00 end.

#[global] Instance byte_eq_dec : EqDecision byte := Byte.byte_eq_dec.

Lemma byte_Z_range b : 0 <= byte_Z b < 256.
Proof. unfold byte_Z. pose proof (Byte.to_N_bounded b). lia. Qed.

Lemma byte_Z_word b : in_word 8 (byte_Z b).
Proof. apply byte_Z_range. Qed.

Lemma byte_Z_of z : byte_Z (Z_byte z) = z mod 256.
Proof.
  unfold byte_Z, Z_byte. pose proof (Z.mod_pos_bound z 256).
  destruct (Byte.of_N _) eqn:E.
  - apply Byte.to_of_N in E. lia.
  - apply Byte.of_N_None_iff in E. lia.
Qed.

Lemma Z_byte_of b : Z_byte (byte_Z b) = b.
Proof.
  unfold Z_byte, byte_Z. pose proof (Byte.to_N_bounded b).
  rewrite Z.mod_small by lia. by rewrite N2Z.id, Byte.of_to_N.
Qed.

Lemma byte_Z_inj b1 b2 : byte_Z b1 = byte_Z b2 -> b1 = b2.
Proof. intros H. by rewrite <- (Z_byte_of b1), H, Z_byte_of. Qed.

(** ** Little-endian codecs *)

Fixpoint le_decode (bs : list byte) : Z :=
  match bs with
  | [] => 0
  | b :: bs => byte_Z b + 256 * le_decode bs
  end.

Fixpoint le_encode (n : nat) (z : Z) : list byte :=
  match n with
  | O => []
  | S n => Z_byte z :: le_encode n (z / 256)
  end.

Lemma length_le_encode n z : length (le_encode n z) = n.
Proof. revert z. induction n; intros; simpl; [done|]. by rewrite IHn. Qed.

Lemma le_decode_range bs : 0 <= le_decode bs < 256 ^ Z.of_nat (length bs).
Proof.
  induction bs as [|b bs IH]; [simpl; lia|].
  cbn [le_decode length]. rewrite Nat2Z.inj_succ, Z.pow_succ_r by lia.
  pose proof (byte_Z_range b). nia.
Qed.

Lemma le_decode_word bs n :
  length bs = n -> in_word (8 * Z.of_nat n) (le_decode bs).
Proof.
  intros <-. unfold in_word. rewrite Z.pow_mul_r by lia. apply le_decode_range.
Qed.

Lemma le_decode_encode n z :
  le_decode (le_encode n z) = z mod 256 ^ Z.of_nat n.
Proof.
  revert z. induction n as [|n IH]; intros z; [by rewrite Z.mod_1_r|].
  cbn [le_decode le_encode]. rewrite IH, byte_Z_of.
  rewrite Nat2Z.inj_succ, Z.pow_succ_r by lia.
  rewrite Z.rem_mul_r by lia. lia.
Qed.

Lemma le_encode_decode bs : le_encode (length bs) (le_decode bs) = bs.
Proof.
  induction bs as [|b bs IH]; [done|]. cbn [le_decode le_encode length].
  pose proof (byte_Z_range b).
  f_equal.
  - apply byte_Z_inj. rewrite byte_Z_of.
    rewrite Z.mul_comm, Z_mod_plus_full. by apply Z.mod_small.
  - rewrite Z.mul_comm, Z.div_add, Z.div_small, Z.add_0_l by lia. done.
Qed.

Lemma le_decode_inj bs1 bs2 :
  length bs1 = length bs2 -> le_decode bs1 = le_decode bs2 -> bs1 = bs2.
Proof.
  intros Hlen H. rewrite <- (le_encode_decode bs1), Hlen, H.
  apply le_encode_decode.
Qed.

Lemma le_decode_app bs1 bs2 :
  le_decode (bs1 ++ bs2) =
  le_decode bs1 + 256 ^ Z.of_nat (length bs1) * le_decode bs2.
Proof.
  induction bs1 as [|b bs1 IH]; [simpl; lia|].
  cbn [app le_decode length]. rewrite IH, Nat2Z.inj_succ, Z.pow_succ_r by lia. lia.
Qed.

Lemma le_decode_encode_small n z :
  in_word (8 * Z.of_nat n) z -> le_decode (le_encode n z) = z.
Proof.
  intros H. rewrite le_decode_encode. apply Z.mod_small.
  unfold in_word in H. rewrite Z.pow_mul_r in H by lia. done.
Qed.

Lemma le_decode_zeros n : le_decode (replicate n x00) = 0.
Proof. induction n; simpl; [done|]. by rewrite IHn. Qed.

#[export] Hint Resolve byte_Z_range byte_Z_word : bbp.

(** ** Automation *)

(** Split a boolean guard hypothesis or goal into propositions on [Z]. *)
Ltac bool_to_prop :=
  repeat match goal with
  | H : context [ _ && _ = true ] |- _ => rewrite andb_true_iff in H
  | H : context [ _ || _ = false ] |- _ => rewrite orb_false_iff in H
  | H : context [ _ || _ = true ] |- _ => rewrite orb_true_iff in H
  | H : context [ _ && _ = false ] |- _ => rewrite andb_false_iff in H
  | H : negb _ = true |- _ => rewrite negb_true_iff in H
  | H : negb _ = false |- _ => rewrite negb_false_iff in H
  | H : (_ <? _) = true |- _ => apply Z.ltb_lt in H
  | H : (_ <? _) = false |- _ => apply Z.ltb_ge in H
  | H : (_ <=? _) = true |- _ => apply Z.leb_le in H
  | H : (_ <=? _) = false |- _ => apply Z.leb_gt in H
  | H : (_ =? _) = true |- _ => apply Z.eqb_eq in H
  | H : (_ =? _) = false |- _ => apply Z.eqb_neq in H
  | H : _ /\ _ |- _ => destruct H
  end.

(** Walk down a chain of early returns: every guard is decided, branches
    that contradict the expected outcome are closed. *)
Ltac step_guard :=
  match goal with
  | H : (if ?c then _ else _) = _ |- _ => destruct c eqn:?; simplify_eq
  end.
Ltac guards := repeat step_guard; bool_to_prop.
