(* ===== verification/Memory.v ===== *)
(** * Byte-addressed memory

    The programs read and write raw memory through pointers.  A memory is a
    finite map from addresses to bytes: the addresses in its domain are the
    mapped ones, and a load or store anywhere else is a fault ([None]).  The
    file holds the loads, stores and byte loops ([memcmp], [memcpy],
    [memzero], ...) of the C sources and the framing lemmas every component
    uses. *)

From S2P Require Import Prelude.

Abbreviation mem := (gmap Z byte).

(** ** Loads and stores *)

Fixpoint load_bytes (m : mem) (a : Z) (n : nat) : option (list byte) :=
  match n with
  | O => Some []
  | S n =>
      b ← m !! a;
      bs ← load_bytes m (a + 1) n;
      Some (b :: bs)
  end.

(** A little-endian integer load of [n] bytes. *)
Definition load_le (m : mem) (a : Z) (n : nat) : option Z :=
  bs ← load_bytes m a n; Some (le_decode bs).
Definition load16 (m : mem) (a : Z) : option Z := load_le m a 2.
Definition load32 (m : mem) (a : Z) : option Z := load_le m a 4.
Definition load64 (m : mem) (a : Z) : option Z := load_le m a 8.

Definition store8 (m : mem) (a : Z) (b : byte) : option mem :=
  _ ← m !! a; Some (<[a := b]> m).

Fixpoint store_bytes (m : mem) (a : Z) (bs : list byte) : option mem :=
  match bs with
  | [] => Some m
  | b :: bs => m' ← store8 m a b; store_bytes m' (a + 1) bs
  end.

Definition store16 (m : mem) (a v : Z) : option mem := store_bytes m a (le_encode 2 v).
Definition store32 (m : mem) (a v : Z) : option mem := store_bytes m a (le_encode 4 v).
Definition store64 (m : mem) (a v : Z) : option mem := store_bytes m a (le_encode 8 v).

(** ** Byte loops of the C sources *)

(** [while (n--) *b++ = 0;] *)
Fixpoint mem_zero (m : mem) (p : Z) (n : nat) : option mem :=
  match n with
  | O => Some m
  | S n => m' ← store8 m p x00; mem_zero m' (p + 1) n
  end.

(** [while (n--) *dd++ = *ss++;] *)
Fixpoint mem_copy (m : mem) (d s : Z) (n : nat) : option mem :=
  match n with
  | O => Some m
  | S n => b ← m !! s; m' ← store8 m d b; mem_copy m' (d + 1) (s + 1) n
  end.

(** [while (size--) if ( *p++ != 0) return 0; return 1;] *)
Fixpoint bytes_are_zero (m : mem) (p : Z) (n : nat) : option bool :=
  match n with
  | O => Some true
  | S n =>
      b ← m !! p;
      reject negb (byte_Z b =? 0) with Some false;
      bytes_are_zero m (p + 1) n
  end.

(** Comparison of memory with a constant byte array, stopping at the first
    difference. *)
Fixpoint bytes_equal (m : mem) (a : Z) (bs : list byte) : option bool :=
  match bs with
  | [] => Some true
  | c :: bs =>
      b ← m !! a;
      reject negb (byte_Z b =? byte_Z c) with Some false;
      bytes_equal m (a + 1) bs
  end.

(** ** Predicates *)

(** Every byte of [[a, a + n)] is mapped. *)
Definition mapped (m : mem) (a n : Z) : Prop :=
  forall x, a <= x < a + n -> is_Some (m !! x).

(** The memory holds [bs] at [a]. *)
Definition bytes_at (m : mem) (a : Z) (bs : list byte) : Prop :=
  forall i b, bs !! i = Some b -> m !! (a + Z.of_nat i) = Some b.

Definition zlen {A} (l : list A) : Z := Z.of_nat (length l).

(** Lengths in [Z]. *)
Lemma zlen_app {A} (xs ys : list A) : zlen (xs ++ ys) = zlen xs + zlen ys.
Proof. unfold zlen. rewrite length_app. lia. Qed.

Lemma zlen_nil {A} : zlen (@nil A) = 0.
Proof. reflexivity. Qed.

Lemma zlen_le_encode n v : zlen (le_encode n v) = Z.of_nat n.
Proof. unfold zlen. by rewrite length_le_encode. Qed.

Lemma zlen_replicate {A} n (x : A) : zlen (replicate n x) = Z.of_nat n.
Proof. unfold zlen. by rewrite length_replicate. Qed.

Lemma zlen_nonneg {A} (l : list A) : 0 <= zlen l.
Proof. unfold zlen. lia. Qed.

Lemma zlen_cons {A} (x : A) l : zlen (x :: l) = 1 + zlen l.
Proof. unfold zlen. cbn [length]. lia. Qed.

Create Rewrite HintDb zlen.
#[export] Hint Rewrite @zlen_app zlen_le_encode @zlen_replicate @zlen_nil @zlen_cons : zlen.

(** Two half-open address ranges do not meet. *)
Definition disjoint_range (a n b k : Z) : Prop :=
  forall x, a <= x < a + n -> b <= x < b + k -> False.

(** Two memories agree on a range. *)
Definition same_on (m m' : mem) (a n : Z) : Prop :=
  forall x, a <= x < a + n -> m' !! x = m !! x.

(** ** Loads *)

Lemma bytes_at_nil m a : bytes_at m a [].
Proof. intros i b H. by rewrite lookup_nil in H. Qed.

Lemma bytes_at_cons m a b bs :
  bytes_at m a (b :: bs) <-> m !! a = Some b /\ bytes_at m (a + 1) bs.
Proof.
  split.
  - intros H. split.
    + rewrite <- (H 0%nat b) by done. f_equal. lia.
    + intros i c Hi. rewrite <- (H (S i) c) by done. f_equal. lia.
  - intros [Hb Hbs] [|i] c Hi; simpl in Hi.
    + simplify_eq. by rewrite Z.add_0_r.
    + rewrite <- (Hbs i c Hi). f_equal. lia.
Qed.

Lemma bytes_at_app m a xs ys :
  bytes_at m a (xs ++ ys) <-> bytes_at m a xs /\ bytes_at m (a + zlen xs) ys.
Proof.
  revert a. induction xs as [|x xs IH]; intros a; cbn [app].
  - unfold zlen. simpl. rewrite Z.add_0_r. pose proof (bytes_at_nil m a). tauto.
  - rewrite !bytes_at_cons, IH. unfold zlen. cbn [length].
    rewrite Nat2Z.inj_succ.
    replace (a + 1 + Z.of_nat (length xs)) with (a + Z.succ (Z.of_nat (length xs))) by lia.
    tauto.
Qed.

Lemma load_bytes_at m a n bs :
  load_bytes m a n = Some bs <-> length bs = n /\ bytes_at m a bs.
Proof.
  revert a bs. induction n as [|n IH]; intros a bs; simpl.
  - split; [intros [= <-]; split; [done|apply bytes_at_nil]|].
    intros [H _]. by apply nil_length_inv in H as ->.
  - rewrite bind_Some. setoid_rewrite bind_Some. split.
    + intros (b & Hb & bs' & Hbs & [= <-]). apply IH in Hbs as [<- Hat].
      split; [done|]. by apply bytes_at_cons.
    + intros [Hlen Hat]. destruct bs as [|b bs]; [done|].
      apply bytes_at_cons in Hat as [Hb Hbs]. exists b. split; [done|].
      exists bs. split; [|done]. apply IH. split; [by injection Hlen|done].
Qed.

Lemma bytes_at_load m a bs : bytes_at m a bs -> load_bytes m a (length bs) = Some bs.
Proof. intros. by apply load_bytes_at. Qed.

Lemma load_bytes_length m a n bs : load_bytes m a n = Some bs -> length bs = n.
Proof. intros H. by apply load_bytes_at in H as [? _]. Qed.

Lemma load_bytes_app m a n k :
  load_bytes m a (n + k) =
  (xs ← load_bytes m a n; ys ← load_bytes m (a + Z.of_nat n) k; Some (xs ++ ys)).
Proof.
  revert a. induction n as [|n IH]; intros a.
  - simpl. rewrite Z.add_0_r. by destruct (load_bytes m a k).
  - cbn [Nat.add load_bytes]. destruct (m !! a) as [b|]; [simpl|done].
    rewrite IH. replace (a + 1 + Z.of_nat n) with (a + Z.of_nat (S n)) by lia.
    destruct (load_bytes m (a + 1) n); [simpl|done].
    by destruct (load_bytes m _ k).
Qed.

Lemma mapped_load m a n : mapped m a (Z.of_nat n) -> is_Some (load_bytes m a n).
Proof.
  revert a. induction n as [|n IH]; intros a Hm; [by eexists|].
  cbn [load_bytes]. destruct (Hm a) as [b ->]; [lia|].
  destruct (IH (a + 1)) as [bs Hbs]; [intros x Hx; apply Hm; lia|].
  simpl. rewrite Hbs. by eexists.
Qed.

Lemma mapped_sub m a n b k :
  mapped m a n -> a <= b -> b + k <= a + n -> mapped m b k.
Proof. intros H ? ? x Hx. apply H. lia. Qed.

Lemma mapped_load_le m a n :
  mapped m a (Z.of_nat n) -> exists v, load_le m a n = Some v /\ in_word (8 * Z.of_nat n) v.
Proof.
  intros Hm. destruct (mapped_load _ _ _ Hm) as [bs Hbs]. unfold load_le. rewrite Hbs.
  exists (le_decode bs). split; [done|].
  apply le_decode_word. by apply load_bytes_at in Hbs as [? _].
Qed.

Lemma load_le_word m a n v : load_le m a n = Some v -> in_word (8 * Z.of_nat n) v.
Proof.
  unfold load_le. rewrite bind_Some. intros (bs & Hbs & [= <-]).
  apply le_decode_word. by eapply load_bytes_length.
Qed.

Lemma load16_word m a v : load16 m a = Some v -> in_word 16 v.
Proof. apply (load_le_word m a 2). Qed.
Lemma load32_word m a v : load32 m a = Some v -> in_word 32 v.
Proof. apply (load_le_word m a 4). Qed.
Lemma load64_word m a v : load64 m a = Some v -> in_word 64 v.
Proof. apply (load_le_word m a 8). Qed.

Lemma bytes_at_load_le m a n v :
  in_word (8 * Z.of_nat n) v -> bytes_at m a (le_encode n v) -> load_le m a n = Some v.
Proof.
  intros Hv Hat. unfold load_le.
  rewrite <- (length_le_encode n v) at 1. rewrite (bytes_at_load _ _ _ Hat). simpl.
  by rewrite le_decode_encode_small.
Qed.

Lemma load_le_bytes_at m a n v :
  load_le m a n = Some v -> bytes_at m a (le_encode n v).
Proof.
  unfold load_le. rewrite bind_Some. intros (bs & Hbs & [= <-]).
  apply load_bytes_at in Hbs as [<- Hat]. by rewrite le_encode_decode.
Qed.

Lemma bytes_at_mapped m a bs : bytes_at m a bs -> mapped m a (zlen bs).
Proof.
  intros Hat x Hx. unfold zlen in Hx.
  destruct (lookup_lt_is_Some_2 bs (Z.to_nat (x - a))) as [b Hb]; [lia|].
  exists b. rewrite <- (Hat _ _ Hb). f_equal. lia.
Qed.

Lemma bytes_at_inj m a xs ys :
  length xs = length ys -> bytes_at m a xs -> bytes_at m a ys -> xs = ys.
Proof.
  intros Hlen Hx Hy. apply bytes_at_load in Hx, Hy. rewrite Hlen in Hx. congruence.
Qed.

Lemma load_mapped m a n bs : load_bytes m a n = Some bs -> mapped m a (Z.of_nat n).
Proof. intros H. apply load_bytes_at in H as [<- Hat]. by apply bytes_at_mapped. Qed.

(** Parts of a loaded structure. *)
Lemma load_bytes_take_drop m a n bs i :
  load_bytes m a n = Some bs -> (i <= n)%nat ->
  load_bytes m a i = Some (take i bs) /\
  load_bytes m (a + Z.of_nat i) (n - i) = Some (drop i bs).
Proof.
  intros Hld Hi. replace n with (i + (n - i))%nat in Hld by lia.
  rewrite load_bytes_app in Hld.
  apply bind_Some in Hld as (xs & Hxs & Hld). apply bind_Some in Hld as (ys & Hys & [= <-]).
  pose proof (load_bytes_length _ _ _ _ Hxs) as Hl.
  rewrite Hxs, Hys. split; f_equal.
  - by rewrite take_app_length'.
  - by rewrite drop_app_length'.
Qed.

Lemma load_le_of_bytes m a n bs i k :
  load_bytes m a n = Some bs -> (i + k <= n)%nat ->
  load_le m (a + Z.of_nat i) k = Some (le_decode (take k (drop i bs))).
Proof.
  intros Hld Hi. destruct (load_bytes_take_drop _ _ _ _ i Hld) as [_ Hd]; [lia|].
  destruct (load_bytes_take_drop _ _ _ _ k Hd) as [Ht _]; [lia|].
  unfold load_le. by rewrite Ht.
Qed.

Lemma load64_of_bytes m a n bs i :
  load_bytes m a n = Some bs -> (i + 8 <= n)%nat ->
  load64 m (a + Z.of_nat i) = Some (le_decode (take 8 (drop i bs))).
Proof. apply load_le_of_bytes. Qed.

(** A memory that holds exactly [bs] at [base]. *)
Definition mem_of (base : Z) (bs : list byte) : mem :=
  list_to_map (zip (seqZ base (zlen bs)) bs).

Lemma bytes_at_mem_of a p : bytes_at (mem_of a p) a p.
Proof.
  intros i b Hi. unfold mem_of. pose proof (lookup_lt_Some _ _ _ Hi).
  apply elem_of_list_to_map_1.
  - rewrite fst_zip by (rewrite length_seqZ; unfold zlen; lia). apply NoDup_seqZ.
  - apply list_elem_of_lookup. exists i. rewrite lookup_zip_with, Hi.
    rewrite lookup_seqZ_lt by (unfold zlen; lia). done.
Qed.

(** ** Stores *)

Lemma store8_Some m a b m' :
  store8 m a b = Some m' <-> is_Some (m !! a) /\ m' = <[a := b]> m.
Proof.
  unfold store8. rewrite bind_Some. split.
  - intros (c & Hc & [= <-]). split; [by eexists|done].
  - intros [[c Hc] ->]. by exists c.
Qed.

Lemma store_bytes_lookup m a bs m' x :
  store_bytes m a bs = Some m' ->
  m' !! x = if decide (a <= x < a + zlen bs) then bs !! Z.to_nat (x - a) else m !! x.
Proof.
  revert m a. induction bs as [|b bs IH]; intros m a Hst; cbn [store_bytes] in Hst.
  - simplify_eq. unfold zlen. simpl. rewrite decide_False by lia. done.
  - apply bind_Some in Hst as (m1 & Hm1 & Hst). apply store8_Some in Hm1 as [_ ->].
    rewrite (IH _ _ Hst). unfold zlen. cbn [length].
    destruct (decide (a = x)) as [->|Hne].
    + rewrite decide_False by lia. rewrite decide_True by lia.
      rewrite lookup_insert_eq, Z.sub_diag. done.
    + rewrite lookup_insert_ne by done.
      destruct (decide (a + 1 <= x < a + 1 + Z.of_nat (length bs))).
      * rewrite decide_True by lia.
        replace (Z.to_nat (x - a)) with (S (Z.to_nat (x - (a + 1)))) by lia. done.
      * rewrite decide_False by lia. done.
Qed.

Lemma store_bytes_mapped m a bs :
  mapped m a (zlen bs) -> exists m', store_bytes m a bs = Some m'.
Proof.
  revert m a. induction bs as [|b bs IH]; intros m a Hm; [by eexists|].
  cbn [store_bytes]. unfold zlen in Hm. cbn [length] in Hm.
  destruct (Hm a) as [c Hc]; [lia|]. unfold store8. rewrite Hc. simpl.
  apply IH. intros x Hx. unfold zlen in Hx.
  destruct (decide (a = x)) as [->|Hne]; [lia|].
  rewrite lookup_insert_ne by done. apply Hm. lia.
Qed.

Lemma store_bytes_Some_mapped m a bs m' :
  store_bytes m a bs = Some m' -> mapped m a (zlen bs).
Proof.
  revert m a. induction bs as [|b bs IH]; intros m a Hst x Hx;
    unfold zlen in Hx; cbn [length] in Hx; [lia|].
  cbn [store_bytes] in Hst. apply bind_Some in Hst as (m1 & Hm1 & Hst).
  apply store8_Some in Hm1 as [Hc ->].
  destruct (decide (a = x)) as [->|Hne]; [done|].
  specialize (IH _ _ Hst x). rewrite lookup_insert_ne in IH by done. apply IH.
  unfold zlen. lia.
Qed.

Lemma store_bytes_at m a bs m' : store_bytes m a bs = Some m' -> bytes_at m' a bs.
Proof.
  intros Hst i b Hi. pose proof (lookup_lt_Some _ _ _ Hi) as Hlt.
  rewrite (store_bytes_lookup _ _ _ _ _ Hst). rewrite decide_True by (unfold zlen; lia).
  rewrite <- Hi. f_equal. lia.
Qed.

Lemma store_bytes_same_on m a bs m' c n :
  store_bytes m a bs = Some m' -> disjoint_range a (zlen bs) c n -> same_on m m' c n.
Proof.
  intros Hst Hd x Hx. rewrite (store_bytes_lookup _ _ _ _ _ Hst).
  rewrite decide_False; [done|]. intros Ha. by eapply Hd.
Qed.

(** Stores never change which addresses are mapped. *)
Definition same_dom (m m' : mem) : Prop := forall x, is_Some (m !! x) <-> is_Some (m' !! x).

#[global] Instance same_dom_equiv : Equivalence same_dom.
Proof.
  split; unfold same_dom.
  - done.
  - intros m1 m2 H x. by rewrite (H x).
  - intros m1 m2 m3 H1 H2 x. by rewrite (H1 x).
Qed.

#[global] Instance mapped_proper : Proper (same_dom ==> eq ==> eq ==> iff) mapped.
Proof.
  intros m1 m2 H a ? <- n ? <-. unfold mapped.
  split; intros Hm x Hx; apply H, Hm, Hx.
Qed.

Lemma store_bytes_same_dom m a bs m' : store_bytes m a bs = Some m' -> same_dom m m'.
Proof.
  revert m a. induction bs as [|b bs IH]; intros m a Hst; cbn [store_bytes] in Hst.
  - by simplify_eq.
  - apply bind_Some in Hst as (m1 & Hm1 & Hst). apply store8_Some in Hm1 as [Hc ->].
    etrans; [|by eapply IH]. intros x.
    destruct (decide (a = x)) as [->|Hne].
    + rewrite lookup_insert_eq. split; [by eexists|done].
    + by rewrite lookup_insert_ne.
Qed.

Lemma store_bytes_app m a xs ys :
  store_bytes m a (xs ++ ys) =
  (m1 ← store_bytes m a xs; store_bytes m1 (a + zlen xs) ys).
Proof.
  revert m a. induction xs as [|x xs IH]; intros m a.
  - unfold zlen. cbn. by rewrite Z.add_0_r.
  - cbn [app store_bytes]. destruct (store8 m a x) as [m1|]; [simpl|done].
    rewrite IH. unfold zlen. cbn [length].
    by replace (a + 1 + Z.of_nat (length xs)) with (a + Z.of_nat (S (length xs))) by lia.
Qed.

Lemma store_bytes_bind_app {A} m a xs ys b (K : mem -> option A) :
  b = a + zlen xs ->
  (m ← store_bytes m a (xs ++ ys); K m) =
  (m ← store_bytes m a xs; m ← store_bytes m b ys; K m).
Proof.
  intros ->. rewrite store_bytes_app. by destruct (store_bytes m a xs).
Qed.

(** ** Framing *)

Lemma same_on_refl m a n : same_on m m a n.
Proof. done. Qed.

Lemma same_on_trans m1 m2 m3 a n :
  same_on m1 m2 a n -> same_on m2 m3 a n -> same_on m1 m3 a n.
Proof. intros H1 H2 x Hx. by rewrite H2, H1. Qed.

Lemma same_on_sub m m' a n b k :
  same_on m m' a n -> a <= b -> b + k <= a + n -> same_on m m' b k.
Proof. intros H ? ? x Hx. apply H. lia. Qed.

Lemma bytes_at_same_on m m' a bs :
  same_on m m' a (zlen bs) -> bytes_at m a bs -> bytes_at m' a bs.
Proof.
  intros Hs Hat i b Hi. pose proof (lookup_lt_Some _ _ _ Hi).
  rewrite Hs by (unfold zlen; lia). by apply Hat.
Qed.

Lemma load_bytes_same_on m m' a n :
  same_on m m' a (Z.of_nat n) -> load_bytes m' a n = load_bytes m a n.
Proof.
  revert a. induction n as [|n IH]; intros a Hs; [done|]. cbn [load_bytes].
  rewrite Hs by lia. rewrite IH; [done|]. intros x Hx. apply Hs. lia.
Qed.

Lemma load_le_same_on m m' a n :
  same_on m m' a (Z.of_nat n) -> load_le m' a n = load_le m a n.
Proof. intros Hs. unfold load_le. by rewrite (load_bytes_same_on m m'). Qed.

Lemma disjoint_range_sym a n b k : disjoint_range a n b k -> disjoint_range b k a n.
Proof. intros H x ? ?. by eapply H. Qed.

Lemma disjoint_range_intro a n b k : a + n <= b \/ b + k <= a -> disjoint_range a n b k.
Proof. intros [H|H] x ? ?; lia. Qed.

Lemma bytes_at_store m a bs m' c xs :
  store_bytes m a bs = Some m' ->
  c + zlen xs <= a \/ a + zlen bs <= c ->
  bytes_at m c xs -> bytes_at m' c xs.
Proof.
  intros Hst Hd. apply bytes_at_same_on. eapply store_bytes_same_on; [done|].
  apply disjoint_range_intro. lia.
Qed.

Lemma bytes_at_take m a bs n : bytes_at m a bs -> bytes_at m a (take n bs).
Proof. intros H. rewrite <- (take_drop n bs) in H. by apply bytes_at_app in H as [? _]. Qed.

Lemma bytes_at_drop m a bs n :
  (n <= length bs)%nat -> bytes_at m a bs -> bytes_at m (a + Z.of_nat n) (drop n bs).
Proof.
  intros Hn H. rewrite <- (take_drop n bs) in H. apply bytes_at_app in H as [_ H].
  unfold zlen in H. by rewrite length_take_le in H by lia.
Qed.

(** Overwriting part of a structure in place. *)
Lemma store_bytes_splice m a bs off xs m' :
  bytes_at m a bs -> (off + length xs <= length bs)%nat ->
  store_bytes m (a + Z.of_nat off) xs = Some m' ->
  bytes_at m' a (take off bs ++ xs ++ drop (off + length xs) bs).
Proof.
  intros Hat Hlen Hst.
  assert (zlen (take off bs) = Z.of_nat off) as Hz
    by (unfold zlen; rewrite length_take_le by lia; done).
  rewrite !bytes_at_app, Hz. split_and!.
  - apply (bytes_at_store _ _ _ _ _ _ Hst); [lia|]. by apply bytes_at_take.
  - by apply store_bytes_at in Hst.
  - eapply (bytes_at_store _ _ _ _ _ _ Hst); [unfold zlen; lia|].
    unfold zlen. rewrite <- Z.add_assoc, <- Nat2Z.inj_add. by apply bytes_at_drop.
Qed.

(** At most the range [[a, a + n)] changed, and no address appeared or
    disappeared. *)
Definition frame (a n : Z) (m m' : mem) : Prop :=
  same_dom m m' /\ forall x, ~ (a <= x < a + n) -> m' !! x = m !! x.

Lemma frame_refl a n m : frame a n m m.
Proof. by split. Qed.

Lemma frame_trans a n m1 m2 m3 : frame a n m1 m2 -> frame a n m2 m3 -> frame a n m1 m3.
Proof.
  intros [D1 F1] [D2 F2]. split; [by etrans|]. intros x Hx. by rewrite F2, F1.
Qed.

Lemma frame_weaken a n b k m m' :
  frame a n m m' -> b <= a -> a + n <= b + k -> frame b k m m'.
Proof. intros [D F] ? ?. split; [done|]. intros x Hx. apply F. lia. Qed.

Lemma frame_store m a bs m' : store_bytes m a bs = Some m' -> frame a (zlen bs) m m'.
Proof.
  intros H. split; [by eapply store_bytes_same_dom|]. intros x Hx.
  rewrite (store_bytes_lookup _ _ _ _ _ H). by rewrite decide_False.
Qed.

Lemma frame_bytes_at a n m m' b bs :
  frame a n m m' -> b + zlen bs <= a \/ a + n <= b -> bytes_at m b bs -> bytes_at m' b bs.
Proof.
  intros [_ F] Hd. apply bytes_at_same_on. intros x Hx. apply F. lia.
Qed.

Lemma frame_load a n m m' b k :
  frame a n m m' -> b + Z.of_nat k <= a \/ a + n <= b ->
  load_bytes m' b k = load_bytes m b k.
Proof. intros [_ F] Hd. apply load_bytes_same_on. intros x Hx. apply F. lia. Qed.

Lemma frame_mapped a n m m' b k : frame a n m m' -> mapped m b k -> mapped m' b k.
Proof. intros [D _]. by rewrite D. Qed.

(** Storing into a run of zeros. *)
Lemma store_in_zeros m a xs k ys zs :
  bytes_at m a (xs ++ replicate k x00 ++ ys) -> (length zs <= k)%nat ->
  exists m', store_bytes m (a + zlen xs) zs = Some m' /\
    bytes_at m' a (xs ++ zs ++ replicate (k - length zs) x00 ++ ys).
Proof.
  intros Hat Hk. destruct (store_bytes_mapped m (a + zlen xs) zs) as [m' Hm'].
  { eapply mapped_sub; [by apply bytes_at_mapped| |]; unfold zlen;
      rewrite ?length_app, ?length_replicate; lia. }
  exists m'. split; [done|].
  pose proof (store_bytes_splice m a _ (length xs) zs m' Hat) as H.
  rewrite !length_app, length_replicate in H. specialize (H ltac:(lia) Hm').
  rewrite take_app_length in H. rewrite <- drop_drop, drop_app_length in H.
  rewrite drop_app_le in H by (rewrite length_replicate; lia).
  by rewrite drop_replicate in H.
Qed.

(** ** The byte loops as bulk operations *)

Lemma mem_copy_same_dom m d s n m' : mem_copy m d s n = Some m' -> same_dom m m'.
Proof.
  revert m d s. induction n as [|n IH]; intros m d s H; cbn [mem_copy] in H; [by simplify_eq|].
  apply bind_Some in H as (b & Hb & H). apply bind_Some in H as (m1 & Hm1 & H).
  etrans; [|by eapply IH]. apply (store_bytes_same_dom m d [b]). cbn. by rewrite Hm1.
Qed.

Lemma mem_copy_frame m d s n m' x :
  mem_copy m d s n = Some m' -> ~ (d <= x < d + Z.of_nat n) -> m' !! x = m !! x.
Proof.
  revert m d s. induction n as [|n IH]; intros m d s H Hx; cbn [mem_copy] in H; [by simplify_eq|].
  apply bind_Some in H as (b & Hb & H). apply bind_Some in H as (m1 & Hm1 & H).
  rewrite (IH _ _ _ H) by lia. apply store8_Some in Hm1 as [_ ->].
  apply lookup_insert_ne. lia.
Qed.

Lemma mem_zero_store m p n : mem_zero m p n = store_bytes m p (replicate n x00).
Proof.
  revert m p. induction n as [|n IH]; intros m p; [done|].
  cbn [mem_zero replicate store_bytes]. destruct (store8 m p x00); [simpl|done]. apply IH.
Qed.

Lemma mem_copy_store m d s n bs :
  load_bytes m s n = Some bs -> disjoint_range d (Z.of_nat n) s (Z.of_nat n) ->
  mem_copy m d s n = store_bytes m d bs.
Proof.
  revert m d s bs. induction n as [|n IH]; intros m d s bs Hld Hd; cbn [load_bytes] in Hld.
  - by simplify_eq.
  - apply bind_Some in Hld as (b & Hb & Hld). apply bind_Some in Hld as (bs' & Hbs & [= <-]).
    cbn [mem_copy store_bytes]. rewrite Hb. simpl.
    destruct (store8 m d b) as [m1|] eqn:Hm1; [simpl|done].
    apply IH; [|intros x ? ?; apply (Hd x); lia].
    rewrite <- Hbs. apply load_bytes_same_on. intros x Hx.
    apply store8_Some in Hm1 as [_ ->]. rewrite lookup_insert_ne; [done|].
    intros ->. apply (Hd x); lia.
Qed.

Lemma bytes_are_zero_spec m p n bs :
  load_bytes m p n = Some bs ->
  bytes_are_zero m p n = Some (bool_decide (Forall (fun b => b = x00) bs)).
Proof.
  revert p bs. induction n as [|n IH]; intros p bs Hld; cbn [load_bytes] in Hld.
  - simplify_eq. done.
  - apply bind_Some in Hld as (b & Hb & Hld). apply bind_Some in Hld as (bs' & Hbs & [= <-]).
    cbn [bytes_are_zero]. rewrite Hb. simpl.
    destruct (byte_Z b =? 0) eqn:E; simpl; bool_to_prop.
    + assert (b = x00) as -> by (apply byte_Z_inj; done).
      rewrite (IH _ _ Hbs). f_equal. apply bool_decide_ext. rewrite Forall_cons. tauto.
    + f_equal. symmetry. apply bool_decide_eq_false. rewrite Forall_cons.
      intros [-> _]. done.
Qed.

Lemma bytes_equal_spec m a bs xs :
  load_bytes m a (length bs) = Some xs -> bytes_equal m a bs = Some (bool_decide (xs = bs)).
Proof.
  revert a xs. induction bs as [|c bs IH]; intros a xs Hld; cbn [load_bytes length] in Hld.
  - simplify_eq. done.
  - apply bind_Some in Hld as (b & Hb & Hld). apply bind_Some in Hld as (bs' & Hbs & [= <-]).
    cbn [bytes_equal]. rewrite Hb. simpl.
    destruct (byte_Z b =? byte_Z c) eqn:E; simpl; bool_to_prop.
    + apply byte_Z_inj in E as ->. rewrite (IH _ _ Hbs). f_equal.
      apply bool_decide_ext. split; congruence.
    + f_equal. symmetry. apply bool_decide_eq_false. congruence.
Qed.

Lemma bytes_equal_true m a bs : bytes_equal m a bs = Some true <-> bytes_at m a bs.
Proof.
  revert a. induction bs as [|c bs IH]; intros a; cbn [bytes_equal].
  - split; [intros _; apply bytes_at_nil|done].
  - rewrite bytes_at_cons, bind_Some. split.
    + intros (b & Hb & H). destruct (byte_Z b =? byte_Z c) eqn:E; simpl in H; [|done].
      bool_to_prop. apply byte_Z_inj in E as ->. split; [done|]. by apply IH.
    + intros [Hc Hbs]. exists c. split; [done|]. rewrite Z.eqb_refl. simpl. by apply IH.
Qed.

#[export] Hint Resolve load16_word load32_word load64_word : bbp.

(** [a | (b << k)] adds when [a] has no bits at or above [k]. *)
Lemma lor_shiftl_add a b k :
  0 <= k -> in_word k a -> Z.lor a (Z.shiftl b k) = a + b * 2 ^ k.
Proof.
  intros Hk Ha. rewrite <- Z.shiftl_mul_pow2 by done.
  assert (Z.land a (Z.shiftl b k) = 0) as Hd.
  { apply Z.bits_inj_iff'. intros i Hi. rewrite Z.land_spec, Z.bits_0.
    destruct (Z.lt_ge_cases i k).
    - rewrite Z.shiftl_spec_low by done. apply andb_false_r.
    - by rewrite (in_word_testbit k a). }
  rewrite Z.add_nocarry_lxor, Z.lxor_lor by done. done.
Qed.

Lemma wrap_shiftl_byte w b k :
  0 <= k -> k + 8 <= w -> wrap w (Z.shiftl (byte_Z b) k) = Z.shiftl (byte_Z b) k.
Proof.
  intros Hk Hw. apply wrap_small. unfold in_word. rewrite Z.shiftl_mul_pow2 by lia.
  pose proof (byte_Z_range b).
  assert (2 ^ (k + 8) <= 2 ^ w) by (apply Z.pow_le_mono_r; lia).
  rewrite Z.pow_add_r in * by lia. pose proof (Z.pow_pos_nonneg 2 k). nia.
Qed.

(** ** Words assembled byte by byte *)

Lemma bytewise32_load m p :
  (p0 ← m !! p; p1 ← m !! (p + 1); p2 ← m !! (p + 2); p3 ← m !! (p + 3);
   Some (Z.lor (Z.lor (Z.lor (byte_Z p0) (wrap32 (Z.shiftl (byte_Z p1) 8)))
     (wrap32 (Z.shiftl (byte_Z p2) 16))) (wrap32 (Z.shiftl (byte_Z p3) 24)))) = load32 m p.
Proof.
  unfold load32, load_le. cbn [load_bytes].
  replace (p + 1 + 1) with (p + 2) by lia. replace (p + 2 + 1) with (p + 3) by lia.
  destruct (m !! p) as [b0|]; [cbn [mbind option_bind]|done].
  destruct (m !! (p + 1)) as [b1|]; [cbn [mbind option_bind]|done].
  destruct (m !! (p + 2)) as [b2|]; [cbn [mbind option_bind]|done].
  destruct (m !! (p + 3)) as [b3|]; [cbn [mbind option_bind le_decode]|done].
  pose proof (byte_Z_range b0). pose proof (byte_Z_range b1).
  pose proof (byte_Z_range b2). pose proof (byte_Z_range b3).
  rewrite !(wrap_shiftl_byte 32) by lia.
  rewrite (lor_shiftl_add _ _ 8) by (unfold in_word; lia).
  rewrite (lor_shiftl_add _ _ 16) by (unfold in_word; lia).
  rewrite (lor_shiftl_add _ _ 24) by (unfold in_word; lia). f_equal. lia.
Qed.

Lemma halves64_load m p :
  (lo ← load32 m p; hi ← load32 m (p + 4); Some (Z.lor lo (wrap64 (Z.shiftl hi 32)))) = load64 m p.
Proof.
  unfold load32, load64, load_le.
  change 8%nat with (4 + 4)%nat. rewrite (load_bytes_app m p 4 4). change (Z.of_nat 4) with 4.
  destruct (load_bytes m p 4) as [lo|] eqn:El; [cbn [mbind option_bind]|done].
  destruct (load_bytes m (p + 4) 4) as [hi|] eqn:Eh; [cbn [mbind option_bind]|done].
  apply load_bytes_length in El, Eh.
  pose proof (le_decode_word lo 4 El) as Hl. pose proof (le_decode_word hi 4 Eh) as Hh.
  unfold in_word in *. rewrite wrap_small.
  2: { unfold in_word. rewrite Z.shiftl_mul_pow2 by lia. lia. }
  rewrite lor_shiftl_add by (unfold in_word; lia).
  rewrite le_decode_app, El. f_equal. lia.
Qed.

(** Invert a run of monadic loads. *)
Ltac bind_inv :=
  repeat match goal with
  | H : mbind _ _ = Some _ |- _ =>
      apply bind_Some in H; let x := fresh "v" in let Hx := fresh "Hv" in
      destruct H as (x & Hx & H)
  end.
