(* ===== verification/Crc64.v ===== *)
(** * CRC-64/XZ (include/bbp/bbp_crc64.h)

    The incremental CRC of the header, bit by bit as the code computes it, its
    list-level meaning [crc64_list], and the facts the protocol relies on: the
    checksum is the catalogue CRC with the documented parameters (polynomial
    0x42F0E1EBA9EA3693, reflected in and out, all-ones init and xorout),
    incremental use equals one-shot use, and every error burst of at most
    64 bits is detected. *)

From S2P Require Import Prelude Memory.

Definition BBP_CRC64_POLY_REFLECTED : Z := 0xC96C5795D7870F42.
Definition BBP_CRC64_INIT : Z := 0xFFFFFFFFFFFFFFFF.

Definition bbp_crc64_init : Z := BBP_CRC64_INIT.

(** One iteration of the inner loop: [mask = -(crc & 1);
    crc = (crc >> 1) ^ (POLY & mask)]. *)
Definition crc64_bit (crc : Z) : Z :=
  let mask := wrap64 (- Z.land crc 1) in
  Z.lxor (Z.shiftr crc 1) (Z.land BBP_CRC64_POLY_REFLECTED mask).

(** One iteration of the outer loop: [crc ^= p[i]] and eight bit steps. *)
Definition crc64_byte (crc : Z) (b : byte) : Z :=
  Nat.iter 8 crc64_bit (Z.lxor crc (byte_Z b)).

(** The whole loop over [len] bytes at [p]. *)
Fixpoint bbp_crc64_update (m : mem) (crc p : Z) (len : nat) {struct len} : option Z :=
  match len with
  | O => Some crc
  | S len => b ← m !! p; bbp_crc64_update m (crc64_byte crc b) (p + 1) len
  end.

Definition bbp_crc64_final (crc : Z) : Z := Z.lxor crc 0xFFFFFFFFFFFFFFFF.

Definition bbp_crc64 (m : mem) (data : Z) (len : nat) : option Z :=
  c ← bbp_crc64_update m bbp_crc64_init data len; Some (bbp_crc64_final c).

(** ** List-level meaning *)

Definition crc64_list (crc : Z) (bs : list byte) : Z := fold_left crc64_byte bs crc.
Definition crc64_of (bs : list byte) : Z :=
  bbp_crc64_final (crc64_list bbp_crc64_init bs).

(** The checksum of a structure with its 8-byte checksum field at [off] taken
    as zero, and a structure that carries its own checksum there. *)
Definition crc64_skip_of (bs : list byte) (off : nat) : Z :=
  crc64_of (take off bs ++ replicate 8 x00 ++ drop (off + 8) bs).
Definition sealed (bs : list byte) (off : nat) : Prop :=
  le_decode (take 8 (drop off bs)) = crc64_skip_of bs off.

#[global] Instance sealed_dec bs off : Decision (sealed bs off).
Proof. unfold sealed. apply _. Defined.

(** Store the checksum into the field. *)
Definition seal_at (bs : list byte) (off : nat) : list byte :=
  take off bs ++ le_encode 8 (crc64_skip_of bs off) ++ drop (off + 8) bs.

Lemma bbp_crc64_update_spec m crc p n :
  bbp_crc64_update m crc p n = (bs ← load_bytes m p n; Some (crc64_list crc bs)).
Proof.
  revert crc p. induction n as [|n IH]; intros crc p; [done|].
  cbn [bbp_crc64_update load_bytes]. destruct (m !! p); [simpl|done].
  rewrite IH. by destruct (load_bytes m (p + 1) n).
Qed.

Lemma bbp_crc64_spec m p n :
  bbp_crc64 m p n = (bs ← load_bytes m p n; Some (crc64_of bs)).
Proof.
  unfold bbp_crc64. rewrite bbp_crc64_update_spec. by destruct (load_bytes m p n).
Qed.

Lemma crc64_list_app c xs ys : crc64_list c (xs ++ ys) = crc64_list (crc64_list c xs) ys.
Proof. apply fold_left_app. Qed.

Lemma crc64_list_nil c : crc64_list c [] = c.
Proof. reflexivity. Qed.

Lemma crc64_list_cons c b bs : crc64_list c (b :: bs) = crc64_list (crc64_byte c b) bs.
Proof. reflexivity. Qed.

(** ** The bit step *)

Lemma crc64_bit_eq c :
  crc64_bit c =
  Z.lxor (Z.shiftr c 1) (if Z.testbit c 0 then BBP_CRC64_POLY_REFLECTED else 0).
Proof.
  unfold crc64_bit. f_equal.
  change 1 with (Z.ones 1). rewrite Z.land_ones by lia.
  change (2 ^ 1) with 2. rewrite <- Z.bit0_mod. by destruct (Z.testbit c 0).
Qed.

Lemma crc64_bit_lxor a b : crc64_bit (Z.lxor a b) = Z.lxor (crc64_bit a) (crc64_bit b).
Proof.
  rewrite !crc64_bit_eq, Z.shiftr_lxor, Z.lxor_spec.
  destruct (Z.testbit a 0), (Z.testbit b 0); simpl xorb;
    rewrite ?Z.lxor_0_r, ?Z.lxor_assoc; f_equal;
    rewrite ?(Z.lxor_comm _ (Z.lxor _ _)), ?Z.lxor_assoc,
      ?Z.lxor_nilpotent, ?Z.lxor_0_r; try done; apply Z.lxor_comm.
Qed.

Lemma crc64_bit_word c : in_word 64 c -> in_word 64 (crc64_bit c).
Proof.
  intros Hc. rewrite crc64_bit_eq. apply lxor_in_word; [lia| |].
  - apply shiftr_in_word; (done || lia).
  - by destruct (Z.testbit c 0).
Qed.

Lemma crc64_bit_double x : crc64_bit (2 * x) = x.
Proof.
  rewrite crc64_bit_eq, Z.testbit_even_0, Z.lxor_0_r.
  rewrite Z.shiftr_div_pow2, Z.mul_comm by lia. apply Z.div_mul. lia.
Qed.

Lemma crc64_bit_zero c : in_word 64 c -> crc64_bit c = 0 -> c = 0.
Proof.
  intros Hc H. rewrite crc64_bit_eq in H. apply Z.lxor_eq in H.
  rewrite Z.shiftr_div_pow2 in H by lia. change (2 ^ 1) with 2 in H.
  pose proof (Z.div_mod c 2). unfold in_word in Hc.
  destruct (Z.testbit c 0) eqn:E.
  - unfold BBP_CRC64_POLY_REFLECTED in H. pose proof (Z.mod_pos_bound c 2). lia.
  - pose proof (Z.bit0_mod c) as Hm. rewrite E in Hm. simpl in Hm. lia.
Qed.

Lemma iter_bit_word n c : in_word 64 c -> in_word 64 (Nat.iter n crc64_bit c).
Proof. intros Hc. induction n; simpl; [done|by apply crc64_bit_word]. Qed.

Lemma iter_bit_lxor n a b :
  Nat.iter n crc64_bit (Z.lxor a b) = Z.lxor (Nat.iter n crc64_bit a) (Nat.iter n crc64_bit b).
Proof. induction n as [|n IH]; [done|]. rewrite ?Nat.iter_succ. rewrite IH. apply crc64_bit_lxor. Qed.

Lemma iter_bit_zero n c : in_word 64 c -> Nat.iter n crc64_bit c = 0 -> c = 0.
Proof.
  intros Hc. induction n as [|n IH]; [done|]. rewrite ?Nat.iter_succ. intros H.
  apply IH. by apply crc64_bit_zero; [apply iter_bit_word|].
Qed.

Lemma iter_bit_inj n a b :
  in_word 64 a -> in_word 64 b ->
  Nat.iter n crc64_bit a = Nat.iter n crc64_bit b -> a = b.
Proof.
  intros Ha Hb H. apply Z.lxor_eq. apply (iter_bit_zero n).
  - apply lxor_in_word; (done || lia).
  - rewrite iter_bit_lxor, H. apply Z.lxor_nilpotent.
Qed.

Lemma iter_bit_shift n x : Nat.iter n crc64_bit (2 ^ Z.of_nat n * x) = x.
Proof.
  revert x. induction n as [|n IH]; intros x; [simpl; lia|].
  rewrite Nat2Z.inj_succ, Z.pow_succ_r by lia.
  rewrite Nat.iter_succ_r.
  replace (2 * 2 ^ Z.of_nat n * x) with (2 * (2 ^ Z.of_nat n * x)) by lia.
  by rewrite crc64_bit_double, IH.
Qed.

(** ** Closed form: the CRC state after [bs] is [8 * |bs|] bit steps from the
    initial state xored with the message read as a little-endian number. *)

Lemma byte_lxor_shift b x : Z.lxor (byte_Z b) (256 * x) = byte_Z b + 256 * x.
Proof.
  symmetry. apply Z.add_nocarry_lxor.
  apply Z.bits_inj'. intros i Hi. rewrite Z.land_spec, Z.bits_0.
  destruct (decide (i < 8)) as [Hlt|Hge].
  - change 256 with (2 ^ 8). rewrite (Z.mul_comm (2 ^ 8)), Z.mul_pow2_bits_low by lia.
    apply andb_false_r.
  - rewrite (in_word_testbit 8) by (try lia; apply byte_Z_word). done.
Qed.

Lemma crc64_list_closed c bs :
  crc64_list c bs = Nat.iter (8 * length bs) crc64_bit (Z.lxor c (le_decode bs)).
Proof.
  revert c. induction bs as [|b bs IH]; intros c.
  - cbn. by rewrite Z.lxor_0_r.
  - rewrite crc64_list_cons, IH. unfold crc64_byte. cbn [le_decode length].
    replace (8 * S (length bs))%nat with (8 * length bs + 8)%nat by lia.
    rewrite Nat.iter_add. f_equal.
    rewrite <- byte_lxor_shift, <- Z.lxor_assoc, (iter_bit_lxor 8 (Z.lxor c _)).
    f_equal. symmetry. apply (iter_bit_shift 8).
Qed.

Lemma crc64_byte_word c b : in_word 64 c -> in_word 64 (crc64_byte c b).
Proof.
  intros Hc. apply iter_bit_word. apply lxor_in_word; [lia|done|].
  apply (in_word_mono 8); [lia|apply byte_Z_word].
Qed.

Lemma crc64_list_word c bs : in_word 64 c -> in_word 64 (crc64_list c bs).
Proof.
  intros Hc. revert c Hc. induction bs as [|b bs IH]; intros c Hc; [done|].
  rewrite crc64_list_cons. apply IH. by apply crc64_byte_word.
Qed.

Lemma crc64_of_word bs : in_word 64 (crc64_of bs).
Proof.
  apply lxor_in_word; [lia| |done]. by apply crc64_list_word.
Qed.

(** The three-part computation every [crc_skip] helper performs, on a
    structure that is fully readable. *)
Lemma crc_skip_loaded m base len off bs :
  0 <= off -> off + 8 <= len -> load_bytes m base (Z.to_nat len) = Some bs ->
  (c ← bbp_crc64_update m bbp_crc64_init base (Z.to_nat off);
   let c := crc64_list c (replicate 8 x00) in
   c ← bbp_crc64_update m c (base + off + 8) (Z.to_nat (len - off - 8));
   Some (bbp_crc64_final c)) = Some (crc64_skip_of bs (Z.to_nat off)).
Proof.
  intros Ho Hl Hld.
  destruct (load_bytes_take_drop _ _ _ _ (Z.to_nat off) Hld) as [Ht Hd]; [lia|].
  destruct (load_bytes_take_drop _ _ _ _ 8 Hd) as [_ Hd8]; [lia|].
  replace (base + Z.of_nat (Z.to_nat off) + Z.of_nat 8) with (base + off + 8) in Hd8 by lia.
  replace (Z.to_nat len - Z.to_nat off - 8)%nat with (Z.to_nat (len - off - 8)) in Hd8 by lia.
  rewrite bbp_crc64_update_spec, Ht. cbn [mbind option_bind].
  rewrite bbp_crc64_update_spec, Hd8. cbn [mbind option_bind].
  rewrite drop_drop. unfold crc64_skip_of, crc64_of. by rewrite !crc64_list_app.
Qed.

Lemma length_seal_at bs off : (off + 8 <= length bs)%nat -> length (seal_at bs off) = length bs.
Proof.
  intros H. unfold seal_at. rewrite !length_app, length_take, length_le_encode, length_drop. lia.
Qed.

Lemma seal_at_outside bs off :
  (off + 8 <= length bs)%nat ->
  take off (seal_at bs off) = take off bs /\ drop (off + 8) (seal_at bs off) = drop (off + 8) bs.
Proof.
  intros H. unfold seal_at. split.
  - by rewrite take_app_length' by (rewrite length_take; lia).
  - rewrite app_assoc. apply drop_app_length'.
    rewrite length_app, length_take, length_le_encode. lia.
Qed.

(** Sealing produces a sealed structure. *)
Lemma sealed_seal_at bs off : (off + 8 <= length bs)%nat -> sealed (seal_at bs off) off.
Proof.
  intros H. destruct (seal_at_outside bs off H) as [Ht Hd].
  unfold sealed, crc64_skip_of at 1. rewrite Ht, Hd. fold (crc64_skip_of bs off).
  unfold seal_at. rewrite drop_app_length' by (rewrite length_take; lia).
  rewrite take_app_length' by (by rewrite length_le_encode).
  apply le_decode_encode_small. apply crc64_of_word.
Qed.

Lemma crc64_list_inj_state c1 c2 bs :
  in_word 64 c1 -> in_word 64 c2 -> crc64_list c1 bs = crc64_list c2 bs -> c1 = c2.
Proof.
  rewrite !crc64_list_closed, !iter_bit_lxor. intros H1 H2 H.
  apply (iter_bit_inj (8 * length bs)); [done|done|].
  apply (f_equal (fun z => Z.lxor z (Nat.iter (8 * length bs) crc64_bit (le_decode bs)))) in H.
  by rewrite !Z.lxor_assoc, Z.lxor_nilpotent, !Z.lxor_0_r in H.
Qed.

Lemma bbp_crc64_final_inj a b : bbp_crc64_final a = bbp_crc64_final b -> a = b.
Proof.
  unfold bbp_crc64_final. intros H.
  apply (f_equal (fun z => Z.lxor z 0xFFFFFFFFFFFFFFFF)) in H.
  by rewrite !Z.lxor_assoc, Z.lxor_nilpotent, !Z.lxor_0_r in H.
Qed.

(** Messages that differ only inside a window of at most eight bytes have
    different checksums. *)
Lemma crc64_burst_inj pre xs ys post :
  length xs = length ys -> (length xs <= 8)%nat ->
  crc64_of (pre ++ xs ++ post) = crc64_of (pre ++ ys ++ post) -> xs = ys.
Proof.
  intros Hlen H8 H. apply bbp_crc64_final_inj in H. rewrite !crc64_list_app in H.
  set (c := crc64_list bbp_crc64_init pre) in *.
  assert (in_word 64 c) as Hc by (by apply crc64_list_word).
  apply crc64_list_inj_state in H; [|by apply crc64_list_word..].
  rewrite !crc64_list_closed, Hlen in H.
  assert (forall zs, length zs = length ys -> in_word 64 (Z.lxor c (le_decode zs))) as Hw.
  { intros zs Hz. apply lxor_in_word; [lia|done|].
    apply (in_word_mono (8 * Z.of_nat (length ys))); [lia|]. by apply le_decode_word. }
  apply iter_bit_inj in H; [|by apply Hw..].
  apply le_decode_inj; [done|].
  apply (f_equal (Z.lxor c)) in H.
  by rewrite <- !Z.lxor_assoc, Z.lxor_nilpotent, !Z.lxor_0_l in H.
Qed.

(** Two sealed structures that differ only inside a window of at most eight
    bytes that does not touch the checksum field are equal. *)
Lemma sealed_burst pre xs ys post off :
  length xs = length ys -> (length xs <= 8)%nat ->
  (length pre + length xs <= off \/ off + 8 <= length pre)%nat ->
  sealed (pre ++ xs ++ post) off -> sealed (pre ++ ys ++ post) off -> xs = ys.
Proof.
  intros Hlen H8 Hwin. unfold sealed, crc64_skip_of. intros H1 H2.
  destruct Hwin as [Hlt|Hge].
  - rewrite <- (take_drop (off - length pre - length xs) post) in H1, H2.
    set (q := take _ post) in *. set (r := drop _ post) in *.
    assert (forall zs, length zs = length xs ->
      take off (pre ++ zs ++ q ++ r) = pre ++ zs ++ take (off - length pre - length zs) (q ++ r) /\
      forall k, drop (off + k) (pre ++ zs ++ q ++ r) =
        drop (off + k - length pre - length zs) (q ++ r)) as Hsplit.
    { intros zs Hz. split.
      - rewrite (take_app_ge pre), (take_app_ge zs) by lia. done.
      - intros k. rewrite (drop_app_ge pre), (drop_app_ge zs) by lia. done. }
    destruct (Hsplit xs eq_refl) as [Hx Hxd]. destruct (Hsplit ys (eq_sym Hlen)) as [Hy Hyd].
    pose proof (Hxd 0%nat) as Hx0. pose proof (Hyd 0%nat) as Hy0. rewrite Nat.add_0_r in Hx0, Hy0.
    rewrite Hx, Hxd, Hx0 in H1. rewrite Hy, Hyd, Hy0 in H2. rewrite <- Hlen in H2.
    rewrite H1 in H2. rewrite <- !app_assoc in H2. by apply crc64_burst_inj in H2.
  - assert (forall zs, take 8 (drop off (pre ++ zs)) = take 8 (drop off pre) /\
      take off (pre ++ zs) = take off pre /\
      drop (off + 8) (pre ++ zs) = drop (off + 8) pre ++ zs) as Hsplit.
    { intros zs. split_and!.
      - rewrite drop_app_le, take_app_le by (rewrite ?length_drop; lia). done.
      - by rewrite take_app_le by lia.
      - by rewrite drop_app_le by lia. }
    destruct (Hsplit (xs ++ post)) as (Hx1 & Hx2 & Hx3).
    destruct (Hsplit (ys ++ post)) as (Hy1 & Hy2 & Hy3).
    rewrite Hx1, Hx2, Hx3 in H1. rewrite Hy1, Hy2, Hy3 in H2. rewrite H1 in H2.
    rewrite !app_assoc in H2. rewrite <- !(app_assoc _ _ post) in H2.
    by apply crc64_burst_inj in H2.
Qed.

(** ** The catalogue model

    The header documents the checksum by the parameters of the CRC catalogue:
    width 64, polynomial 0x42F0E1EBA9EA3693, reflected input and output,
    all-ones initial value and final xor.  This is that model: it shifts left,
    most significant bit first. *)

Module Catalogue.

Definition poly : Z := 0x42F0E1EBA9EA3693.

Fixpoint reflect (n : nat) (x : Z) : Z :=
  match n with
  | O => 0
  | S n => (if Z.testbit x 0 then 2 ^ Z.of_nat n else 0) + reflect n (x / 2)
  end.

Definition msb_bit (s : Z) : Z :=
  let t := wrap64 (Z.shiftl s 1) in
  if Z.testbit s 63 then Z.lxor t poly else t.

Definition msb_byte (s : Z) (b : byte) : Z :=
  Nat.iter 8 msb_bit (Z.lxor s (Z.shiftl (reflect 8 (byte_Z b)) 56)).

Definition crc (bs : list byte) : Z :=
  Z.lxor (reflect 64 (fold_left msb_byte bs (2 ^ 64 - 1))) (2 ^ 64 - 1).

Lemma reflect_bits n x i :
  Z.testbit (reflect n x) i =
  bool_decide (0 <= i < Z.of_nat n) && Z.testbit x (Z.of_nat n - 1 - i).
Proof.
  revert x i. induction n as [|n IH]; intros x i.
  { cbn [reflect]. rewrite Z.bits_0, bool_decide_eq_false_2 by lia. done. }
  cbn [reflect].
  assert (in_word (Z.of_nat n) (reflect n (x / 2))) as Hw.
  { clear. generalize (x / 2). induction n as [|n IH]; intros y; cbn [reflect].
    - unfold in_word. simpl. lia.
    - specialize (IH (y / 2)). unfold in_word in *.
      rewrite Nat2Z.inj_succ, Z.pow_succ_r by lia. destruct (Z.testbit y 0); lia. }
  assert (reflect (S n) x = Z.lor (if Z.testbit x 0 then 2 ^ Z.of_nat n else 0)
                                  (reflect n (x / 2))) as Hlor.
  { cbn [reflect]. destruct (Z.testbit x 0); [|by rewrite Z.lor_0_l, Z.add_0_l].
    rewrite <- Z.lxor_lor, Z.add_nocarry_lxor; [done| |];
      (apply Z.bits_inj'; intros j Hj; rewrite Z.land_spec, Z.bits_0;
       rewrite Z.pow2_bits_eqb by lia; destruct (Z.eqb_spec (Z.of_nat n) j) as [<-|];
       [rewrite (in_word_testbit (Z.of_nat n)) by (done || lia); done|done]). }
  cbn [reflect] in Hlor. rewrite Hlor, Z.lor_spec, IH.
  destruct (decide (i < 0)) as [Hneg|Hpos].
  { rewrite !bool_decide_eq_false_2 by lia. rewrite Z.testbit_neg_r by lia. done. }
  replace (Z.of_nat (S n) - 1 - i) with (Z.of_nat n - i) by lia.
  assert (Z.testbit (if Z.testbit x 0 then 2 ^ Z.of_nat n else 0) i =
          Z.testbit x 0 && (i =? Z.of_nat n)) as ->.
  { destruct (Z.testbit x 0); [|by rewrite Z.bits_0].
    rewrite Z.pow2_bits_eqb by lia. simpl. apply Z.eqb_sym. }
  destruct (Z.eqb_spec i (Z.of_nat n)) as [->|Hne].
  - rewrite bool_decide_eq_false_2, bool_decide_eq_true_2 by lia.
    rewrite Z.sub_diag. by rewrite andb_true_r, orb_false_r.
  - rewrite andb_false_r. cbn [orb]. destruct (decide (i < Z.of_nat n)).
    + rewrite !bool_decide_eq_true_2 by lia. simpl.
      change (x / 2) with (x / 2 ^ 1). rewrite Z.div_pow2_bits by lia. f_equal. lia.
    + rewrite !bool_decide_eq_false_2 by lia. done.
Qed.

Lemma reflect_lxor n a b : reflect n (Z.lxor a b) = Z.lxor (reflect n a) (reflect n b).
Proof.
  apply Z.bits_inj'. intros i Hi. rewrite !Z.lxor_spec, !reflect_bits, Z.lxor_spec.
  by destruct (bool_decide _).
Qed.

Lemma reflect_involutive n x : in_word (Z.of_nat n) x -> reflect n (reflect n x) = x.
Proof.
  intros Hx. apply Z.bits_inj'. intros i Hi. rewrite !reflect_bits.
  case_bool_decide as Hr.
  - rewrite bool_decide_eq_true_2 by lia. simpl. f_equal. lia.
  - rewrite (in_word_testbit (Z.of_nat n) x i) by (done || lia). done.
Qed.

(** One reflected step of the code is one left-shifting step of the model. *)
Lemma reflect_bit s :
  in_word 64 s -> reflect 64 (crc64_bit s) = msb_bit (reflect 64 s).
Proof.
  intros Hs. rewrite crc64_bit_eq, reflect_lxor. unfold msb_bit.
  rewrite (reflect_bits 64 s 63). change (Z.of_nat 64 - 1 - 63) with 0.
  change (bool_decide (0 <= 63 < Z.of_nat 64)) with true. rewrite andb_true_l.
  assert (reflect 64 (Z.shiftr s 1) = wrap64 (Z.shiftl (reflect 64 s) 1)) as ->.
  { apply Z.bits_inj'. intros i Hi. unfold wrap.
    rewrite <- Z.land_ones, Z.land_spec, Z.shiftl_spec, !reflect_bits by lia.
    destruct (decide (i < 64)) as [Hlt|Hge].
    - rewrite Z.ones_spec_low, andb_true_r by lia.
      rewrite bool_decide_eq_true_2 by lia. rewrite Z.shiftr_spec by lia. simpl.
      destruct (decide (i = 0)) as [->|].
      + rewrite (in_word_testbit 64) by (done || lia). done.
      + rewrite bool_decide_eq_true_2 by lia. simpl. f_equal. lia.
    - rewrite bool_decide_eq_false_2 by lia. rewrite Z.ones_spec_high by lia.
      by rewrite andb_false_r. }
  assert (reflect 64 BBP_CRC64_POLY_REFLECTED = poly) as Hpoly by (vm_compute; reflexivity).
  destruct (Z.testbit s 0); [by rewrite Hpoly|].
  change (reflect 64 0) with 0. apply Z.lxor_0_r.
Qed.

Lemma reflect_iter_bit n s :
  in_word 64 s -> reflect 64 (Nat.iter n crc64_bit s) = Nat.iter n msb_bit (reflect 64 s).
Proof.
  intros Hs. induction n as [|n IH]; [done|]. rewrite !Nat.iter_succ, <- IH.
  apply reflect_bit. by apply iter_bit_word.
Qed.

Lemma reflect_byte b : reflect 64 (byte_Z b) = Z.shiftl (reflect 8 (byte_Z b)) 56.
Proof. destruct b; vm_compute; reflexivity. Qed.

Lemma reflect_crc64_byte c b :
  in_word 64 c -> reflect 64 (crc64_byte c b) = msb_byte (reflect 64 c) b.
Proof.
  intros Hc. unfold crc64_byte, msb_byte. rewrite reflect_iter_bit.
  - by rewrite reflect_lxor, reflect_byte.
  - apply lxor_in_word; [lia|done|]. apply (in_word_mono 8); [lia|apply byte_Z_word].
Qed.

Lemma fold_transport (r : Z -> Z) (f : Z -> byte -> Z) :
  (forall c b, in_word 64 c -> r (crc64_byte c b) = f (r c) b) ->
  forall bs c, in_word 64 c -> r (crc64_list c bs) = fold_left f bs (r c).
Proof.
  intros Hr. induction bs as [|b bs IH]; intros c Hc; cbn [fold_left]; [done|].
  rewrite crc64_list_cons, IH by (by apply crc64_byte_word). by rewrite Hr.
Qed.

Lemma reflect_crc64_list c bs :
  in_word 64 c -> reflect 64 (crc64_list c bs) = fold_left msb_byte bs (reflect 64 c).
Proof. exact (fold_transport (reflect 64) msb_byte reflect_crc64_byte bs c). Qed.

End Catalogue.

(** ** Properties *)

(** C40: the shift-right table-free loop of the header computes, on every byte
    string, the CRC of the catalogue model with the documented parameters:
    polynomial 0x42F0E1EBA9EA3693, reflected input and output, all-ones
    initial value and final xor. *)
Theorem crc64_is_catalogue_crc (m : mem) (p : Z) (bs : list byte) :
  bytes_at m p bs ->
  bbp_crc64 m p (length bs) = Some (Catalogue.crc bs).
Proof.
  intros Hat. rewrite bbp_crc64_spec, (bytes_at_load _ _ _ Hat). simpl. f_equal.
  unfold crc64_of, Catalogue.crc, bbp_crc64_final. f_equal.
  rewrite <- (Catalogue.reflect_involutive 64 (crc64_list bbp_crc64_init bs))
    by (by apply crc64_list_word).
  by rewrite Catalogue.reflect_crc64_list.
Qed.

Definition check_string : list byte := [x31; x32; x33; x34; x35; x36; x37; x38; x39].
Definition check_memory : mem := list_to_map (zip (seqZ 4096 9) check_string).

(** The published check value: the CRC of the nine bytes "123456789". *)
Lemma crc64_is_catalogue_crc_witness :
  bbp_crc64 check_memory 4096 9 = Some 0x995DC9BBDF1939FA.
Proof.
  change 9%nat with (length check_string).
  rewrite (crc64_is_catalogue_crc check_memory 4096 check_string).
  - vm_compute. reflexivity.
  - apply (load_bytes_at check_memory 4096 9 check_string). vm_compute. reflexivity.
Defined.

(** Two messages of the same length that differ only inside one window of
    at most eight consecutive bytes have different checksums, wherever the
    window lies; so every error burst of up to 64 bits is detected. *)
Lemma crc64_detects_bursts (m1 m2 : mem) (p1 p2 : Z) (pre xs ys post : list byte) :
  length xs = length ys -> (length xs <= 8)%nat ->
  bytes_at m1 p1 (pre ++ xs ++ post) -> bytes_at m2 p2 (pre ++ ys ++ post) ->
  bbp_crc64 m1 p1 (length (pre ++ xs ++ post)) =
  bbp_crc64 m2 p2 (length (pre ++ ys ++ post)) -> xs = ys.
Proof.
  intros Hlen H8 H1 H2. rewrite !bbp_crc64_spec, !bytes_at_load by done. simpl.
  intros [= H]. by eapply crc64_burst_inj.
Qed.

(** Incremental use equals one-shot use: folding two adjacent ranges one
    after the other gives the checksum of the whole range. *)
Lemma crc64_incremental (m : mem) (p : Z) (n k : nat) :
  (c ← bbp_crc64_update m bbp_crc64_init p n;
   c ← bbp_crc64_update m c (p + Z.of_nat n) k;
   Some (bbp_crc64_final c)) = bbp_crc64 m p (n + k).
Proof.
  rewrite bbp_crc64_spec, load_bytes_app, bbp_crc64_update_spec.
  destruct (load_bytes m p n) as [xs|]; [simpl|done].
  rewrite bbp_crc64_update_spec.
  destruct (load_bytes m (p + Z.of_nat n) k) as [ys|]; [simpl|done].
  by rewrite <- crc64_list_app.
Qed.
