(* ===== verification/Abi.v ===== *)
(** * The frozen wire ABI (include/bbp/bbp.h)

    The packed structures of the header as field lists, from which sizes and
    field offsets are computed; the tag identifiers and limits; and the
    [_Static_assert]s of the header as theorems. *)

From stdpp Require Import strings.
From S2P Require Import Prelude.

(** ** C layouts *)

Inductive ctype :=
  | U8 | U16 | U32 | U64
  | Array (t : ctype) (n : nat)
  | Struct (fields : list (string * ctype)).

(** [sizeof] of a packed type: no padding between fields. *)
Fixpoint sizeof (t : ctype) : Z :=
  match t with
  | U8 => 1 | U16 => 2 | U32 => 4 | U64 => 8
  | Array t n => Z.of_nat n * sizeof t
  | Struct fs => foldr (fun f acc => sizeof f.2 + acc) 0 fs
  end.

(** The alignment an unpacked declaration would have. *)
Fixpoint alignof (t : ctype) : Z :=
  match t with
  | U8 => 1 | U16 => 2 | U32 => 4 | U64 => 8
  | Array t _ => alignof t
  | Struct fs => foldr (fun f acc => Z.max (alignof f.2) acc) 1 fs
  end.

Fixpoint field_offset (fs : list (string * ctype)) (name : string) (at_ : Z) : option Z :=
  match fs with
  | [] => None
  | (n, t) :: fs =>
      if String.eqb n name then Some at_ else field_offset fs name (at_ + sizeof t)
  end.
Definition offsetof (t : ctype) (name : string) : option Z :=
  match t with Struct fs => field_offset fs name 0 | _ => None end.

(** Every field, at any depth, lies at a multiple of its natural alignment
    when the whole object lies at [base]. *)
Fixpoint naturally_aligned (base : Z) (t : ctype) : bool :=
  match t with
  | U8 | U16 | U32 | U64 => base mod alignof t =? 0
  | Array t n =>
      naturally_aligned base t && ((n <=? 1)%nat || (sizeof t mod alignof t =? 0))
  | Struct fs =>
      (fix go (fs : list (string * ctype)) (base : Z) : bool :=
         match fs with
         | [] => true
         | (_, t) :: fs => naturally_aligned base t && go fs (base + sizeof t)
         end) fs base
  end.

Open Scope string_scope.

Definition bbp_phys_t : ctype := U64.
Definition bbp_virt_t : ctype := U64.
Definition bbp_uuid_t : ctype := Array U64 2.

(** ** Constants *)

Definition BBP_VERSION_MAJOR : Z := 1.
Definition BBP_VERSION_MINOR : Z := 1.
Definition BBP_MAGIC_LEN : nat := 16.

(** ["BEAR_BOOT"] and ["BEAR_INFO"], zero-padded to 16 bytes. *)
Definition BBP_HEADER_MAGIC : list byte :=
  [x42; x45; x41; x52; x5f; x42; x4f; x4f; x54; x00; x00; x00; x00; x00; x00; x00].
Definition BBP_INFO_MAGIC : list byte :=
  [x42; x45; x41; x52; x5f; x49; x4e; x46; x4f; x00; x00; x00; x00; x00; x00; x00].

Definition BBP_ARCH_X86_64 : Z := 1.
Definition BBP_ARCH_AARCH64 : Z := 2.
Definition BBP_ARCH_RISCV64 : Z := 3.
Definition BBP_ARCH_LOONGARCH : Z := 4.
Definition BBP_PAGING_NONE : Z := 0.
Definition BBP_PAGING_4LEVEL : Z := 1.
Definition BBP_PAGING_5LEVEL : Z := 2.

Definition BBP_TAG_ID (cat id : Z) : Z := Z.lor (wrap64 (Z.shiftl cat 48)) id.

Definition BBP_CAT_CORE : Z := 0x0001.
Definition BBP_CAT_MEMORY : Z := 0x0002.
Definition BBP_CAT_DEVICE : Z := 0x0003.
Definition BBP_CAT_SECURITY : Z := 0x0004.
Definition BBP_CAT_PLATFORM : Z := 0x0005.
Definition BBP_CAT_DEBUG : Z := 0x0006.
Definition BBP_CAT_VENDOR : Z := 0xFFFF.

Definition BBP_TAG_SMP : Z := BBP_TAG_ID BBP_CAT_CORE 0x0001.
Definition BBP_TAG_MODULES : Z := BBP_TAG_ID BBP_CAT_CORE 0x0002.
Definition BBP_TAG_CMDLINE : Z := BBP_TAG_ID BBP_CAT_CORE 0x0003.
Definition BBP_TAG_MEMORY_MAP : Z := BBP_TAG_ID BBP_CAT_MEMORY 0x0001.
Definition BBP_TAG_HHDM : Z := BBP_TAG_ID BBP_CAT_MEMORY 0x0002.
Definition BBP_TAG_KERNEL_ADDRESS : Z := BBP_TAG_ID BBP_CAT_MEMORY 0x0003.
Definition BBP_TAG_FRAMEBUFFER : Z := BBP_TAG_ID BBP_CAT_DEVICE 0x0001.
Definition BBP_TAG_PCIE : Z := BBP_TAG_ID BBP_CAT_DEVICE 0x0002.
Definition BBP_TAG_SECURITY : Z := BBP_TAG_ID BBP_CAT_SECURITY 0x0001.
Definition BBP_TAG_ACPI : Z := BBP_TAG_ID BBP_CAT_PLATFORM 0x0001.
Definition BBP_TAG_DEVICETREE : Z := BBP_TAG_ID BBP_CAT_PLATFORM 0x0002.
Definition BBP_TAG_EFI : Z := BBP_TAG_ID BBP_CAT_PLATFORM 0x0003.
Definition BBP_TAG_HYPERVISOR : Z := BBP_TAG_ID BBP_CAT_PLATFORM 0x0004.
Definition BBP_TAG_SMBIOS : Z := BBP_TAG_ID BBP_CAT_PLATFORM 0x0005.
Definition BBP_TAG_METRICS : Z := BBP_TAG_ID BBP_CAT_DEBUG 0x0001.

Definition BBP_TF_NONE : Z := 0.

Definition BBP_MEM_USABLE : Z := 0x0001.
Definition BBP_MEM_RESERVED : Z := 0x0002.
Definition BBP_MEM_ACPI_RECLAIMABLE : Z := 0x0003.
Definition BBP_MEM_ACPI_NVS : Z := 0x0004.
Definition BBP_MEM_BAD_MEMORY : Z := 0x0005.
Definition BBP_MEM_BOOTLOADER_RECLAIM : Z := 0x0006.
Definition BBP_MEM_KERNEL_AND_MODULES : Z := 0x0007.
Definition BBP_MEM_FRAMEBUFFER : Z := 0x0008.
Definition BBP_MEM_PERSISTENT : Z := 0x0010.
Definition BBP_MEM_DEVICE_IO : Z := 0x0011.
Definition BBP_MEM_PCI_ECAM : Z := 0x0012.
Definition BBP_MEM_USABLE_WITH_GUARD : Z := 0x0013.
Definition BBP_MEM_HOTPLUGGABLE : Z := 0x0014.
Definition BBP_MEM_SOFT_RESERVED : Z := 0x0015.

Definition BBP_MEM_ATTR_READABLE : Z := Z.shiftl 1 0.
Definition BBP_MEM_ATTR_WRITABLE : Z := Z.shiftl 1 1.
Definition BBP_MEM_ATTR_EXECUTABLE : Z := Z.shiftl 1 2.
Definition BBP_MEM_ATTR_CACHED : Z := Z.shiftl 1 3.
Definition BBP_MEM_ATTR_WRITE_COMBINE : Z := Z.shiftl 1 4.
Definition BBP_MEM_ATTR_UNCACHED : Z := Z.shiftl 1 5.
Definition BBP_MEM_ATTR_ENCRYPTED : Z := Z.shiftl 1 6.

Definition BBP_FB_RGB888 : Z := 0x0001.
Definition BBP_FB_RGBA8888 : Z := 0x0002.
Definition BBP_FB_BGRA8888 : Z := 0x0003.
Definition BBP_FB_RGB565 : Z := 0x0004.
Definition BBP_FB_RGBA1010102 : Z := 0x0010.
Definition BBP_FB_RGBX_FP16 : Z := 0x0011.
Definition BBP_FB_PLANAR_YUV : Z := 0x0012.

Definition BBP_FB_FLAG_DOUBLE_BUFFERED : Z := Z.shiftl 1 0.
Definition BBP_FB_FLAG_ROTATED_90 : Z := Z.shiftl 1 1.
Definition BBP_FB_FLAG_ROTATED_180 : Z := Z.shiftl 1 2.
Definition BBP_FB_FLAG_ROTATED_270 : Z := Z.shiftl 1 3.

(** ** Structures *)

Definition bbp_tag_request : ctype := Struct
  [("tag_id", U64); ("flags", U64); ("reserved", U64)].

Definition bbp_header : ctype := Struct
  [("magic", Array U8 16); ("version_major", U16); ("version_minor", U16);
   ("header_size", U32); ("flags", U64); ("entry_point", bbp_phys_t);
   ("paging_mode", U64); ("kernel_virtual_base", bbp_virt_t);
   ("request_count", U32); ("reserved0", U32); ("requests", bbp_phys_t);
   ("kernel_uuid", bbp_uuid_t); ("kernel_name", Array U8 64); ("checksum", U64)].

Definition bbp_info : ctype := Struct
  [("magic", Array U8 16); ("version_major", U16); ("version_minor", U16);
   ("info_size", U32); ("bootloader_name", Array U8 32);
   ("bootloader_version", Array U8 16); ("bootloader_uuid", bbp_uuid_t);
   ("bootloader_start_ts", U64); ("kernel_load_ts", U64); ("handoff_ts", U64);
   ("architecture", U16); ("cpu_count", U16); ("tag_count", U32);
   ("first_tag", bbp_phys_t); ("next_context", bbp_phys_t); ("checksum", U64)].

Definition bbp_tag_header : ctype := Struct
  [("tag_id", U64); ("tag_size", U32); ("tag_version", U16); ("flags", U16);
   ("next_tag", bbp_phys_t); ("checksum", U64)].

Definition bbp_memory_entry : ctype := Struct
  [("base", bbp_phys_t); ("length", U64); ("type", U32); ("attributes", U32);
   ("numa_node", U32); ("reserved", U32)].

Definition bbp_tag_memory_map : ctype := Struct
  [("header", bbp_tag_header); ("entry_count", U32); ("entry_size", U32)].

Definition bbp_tag_hhdm : ctype := Struct
  [("header", bbp_tag_header); ("offset", bbp_virt_t)].

Definition bbp_tag_kernel_address : ctype := Struct
  [("header", bbp_tag_header); ("physical_base", bbp_phys_t);
   ("virtual_base", bbp_virt_t)].

Definition bbp_display_info : ctype := Struct
  [("width", U16); ("height", U16); ("refresh_rate", U16); ("color_depth", U16);
   ("pixel_format", U32); ("physical_width_mm", U16); ("physical_height_mm", U16);
   ("dpi_x", U16); ("dpi_y", U16); ("hdr_capabilities", U16); ("color_space", U16);
   ("max_luminance", U8); ("min_luminance", U8); ("reserved", U16);
   ("edid_size", U32); ("edid_data", bbp_phys_t); ("edid_crc", U64)].

Definition bbp_tag_framebuffer : ctype := Struct
  [("header", bbp_tag_header); ("address", bbp_phys_t); ("display_count", U16);
   ("flags", U16); ("pitch", U32); ("total_size", U64);
   ("cursor_buffer", bbp_phys_t); ("cursor_width", U32); ("cursor_height", U32)].

Definition bbp_cpu_info : ctype := Struct
  [("processor_id", U32); ("apic_id", U32); ("state", U16); ("flags", U16);
   ("package_id", U16); ("core_id", U16); ("thread_id", U16); ("numa_node", U16);
   ("capabilities", U32); ("clock_frequency", U64); ("wakeup_vector", bbp_phys_t);
   ("extra_argument", U64)].

Definition bbp_tag_smp : ctype := Struct
  [("header", bbp_tag_header); ("cpu_count", U32); ("bsp_id", U32); ("flags", U64)].

Definition bbp_measurement : ctype := Struct
  [("pcr_index", U32); ("algorithm", U32); ("hash", Array U8 64);
   ("hash_length", U32); ("reserved", U32); ("component_name", Array U8 64)].

Definition bbp_secure_boot_info : ctype := Struct
  [("mode", U8); ("signature_verified", U8); ("pk_present", U8); ("kek_present", U8);
   ("db_present", U8); ("dbx_present", U8); ("reserved", U16)].

Definition bbp_tag_security : ctype := Struct
  [("header", bbp_tag_header); ("tpm_base_address", bbp_phys_t);
   ("tpm_version", U16); ("tpm_interface", U16); ("tpm_flags", U32);
   ("secure_boot", bbp_secure_boot_info);
   ("measurement_count", U32); ("reserved0", U32); ("measurements", bbp_phys_t);
   ("public_key_count", U32); ("reserved1", U32); ("public_keys", bbp_phys_t);
   ("entropy_size", U32); ("reserved2", U32); ("entropy_data", bbp_phys_t);
   ("measurements_crc", U64); ("public_keys_crc", U64); ("entropy_crc", U64)].

Definition bbp_tag_acpi : ctype := Struct
  [("header", bbp_tag_header); ("rsdp_address", bbp_phys_t);
   ("xsdt_address", bbp_phys_t); ("oem_id", U32); ("acpi_version", U16);
   ("flags", U16)].

Definition bbp_module_entry : ctype := Struct
  [("base_address", bbp_phys_t); ("size", U64); ("name", Array U8 64);
   ("type", U32); ("flags", U32); ("metadata_size", U32); ("reserved0", U32);
   ("metadata", bbp_phys_t); ("hash_algorithm", U32); ("reserved1", U32);
   ("hash", Array U8 64)].

Definition bbp_tag_modules : ctype := Struct
  [("header", bbp_tag_header); ("module_count", U32); ("reserved", U32)].

Definition bbp_tag_cmdline : ctype := Struct
  [("header", bbp_tag_header); ("string", bbp_phys_t); ("length", U32);
   ("flags", U32); ("string_crc", U64)].

Definition bbp_boot_phase : ctype := Struct
  [("name", Array U8 32); ("start_ns", U64); ("end_ns", U64); ("peak_memory", U64)].

Definition bbp_tag_metrics : ctype := Struct
  [("header", bbp_tag_header); ("total_boot_time_ns", U64); ("phase_count", U32);
   ("flags", U32); ("bytes_loaded", U64); ("decompression_ratio", U64);
   ("io_operations", U32); ("pages_allocated", U32)].

Definition bbp_tag_devicetree : ctype := Struct
  [("header", bbp_tag_header); ("dtb_address", bbp_phys_t); ("dtb_size", U32);
   ("flags", U32); ("overlay_count", U32); ("reserved", U32);
   ("overlays", bbp_phys_t); ("dtb_crc", U64); ("overlays_crc", U64)].

Definition bbp_pcie_bar : ctype := Struct
  [("base", bbp_phys_t); ("size", U64); ("flags", U32); ("reserved", U32)].

Definition bbp_pcie_device : ctype := Struct
  [("segment", U16); ("bus", U8); ("device", U8); ("function", U8);
   ("reserved0", U8); ("vendor_id", U16); ("device_id", U16);
   ("class_code", Array U8 3); ("revision", U8); ("reserved1", U16);
   ("bar_count", U32); ("reserved2", U32); ("bars", Array bbp_pcie_bar 6)].

Definition bbp_tag_pcie : ctype := Struct
  [("header", bbp_tag_header); ("ecam_base", bbp_phys_t); ("device_count", U32);
   ("flags", U32)].

Definition bbp_tag_efi : ctype := Struct
  [("header", bbp_tag_header); ("system_table", bbp_phys_t);
   ("memory_map", bbp_phys_t); ("memory_map_size", U32); ("descriptor_size", U32);
   ("descriptor_version", U32); ("reserved", U32)].

Definition bbp_tag_hypervisor : ctype := Struct
  [("header", bbp_tag_header); ("present", U8); ("reserved0", Array U8 7);
   ("vendor", Array U8 16); ("max_leaf", U32); ("reserved1", U32)].

Definition bbp_tag_smbios : ctype := Struct
  [("header", bbp_tag_header); ("entry_32bit", bbp_phys_t);
   ("entry_64bit", bbp_phys_t)].

Close Scope string_scope.

(** ** Sizes and offsets the programs use

    Closed numbers, so that arithmetic sees them; [abi_sizes] and
    [abi_offsets] tie them to the layouts above. *)

Definition SIZEOF_INFO : Z := 144.
Definition SIZEOF_TAG_HEADER : Z := 32.
Definition SIZEOF_HEADER : Z := 160.
Definition SIZEOF_TAG_HHDM : Z := 40.

(** Every canonical tag with its fixed part and, for a variable-length tag,
    the element of its trailing array (SPEC.md, section 9). *)
Definition tag_table : list (Z * ctype * option ctype) :=
  [ (BBP_TAG_SMP, bbp_tag_smp, Some bbp_cpu_info);
    (BBP_TAG_MODULES, bbp_tag_modules, Some bbp_module_entry);
    (BBP_TAG_CMDLINE, bbp_tag_cmdline, None);
    (BBP_TAG_MEMORY_MAP, bbp_tag_memory_map, Some bbp_memory_entry);
    (BBP_TAG_HHDM, bbp_tag_hhdm, None);
    (BBP_TAG_KERNEL_ADDRESS, bbp_tag_kernel_address, None);
    (BBP_TAG_FRAMEBUFFER, bbp_tag_framebuffer, Some bbp_display_info);
    (BBP_TAG_PCIE, bbp_tag_pcie, Some bbp_pcie_device);
    (BBP_TAG_SECURITY, bbp_tag_security, None);
    (BBP_TAG_ACPI, bbp_tag_acpi, None);
    (BBP_TAG_DEVICETREE, bbp_tag_devicetree, None);
    (BBP_TAG_EFI, bbp_tag_efi, None);
    (BBP_TAG_HYPERVISOR, bbp_tag_hypervisor, None);
    (BBP_TAG_SMBIOS, bbp_tag_smbios, None);
    (BBP_TAG_METRICS, bbp_tag_metrics, Some bbp_boot_phase) ].

(** Structures referenced from outside a tag's own bytes. *)
Definition detached_structs : list ctype :=
  [bbp_tag_request; bbp_header; bbp_info; bbp_measurement].

Definition trailing (t : option ctype) : list ctype :=
  match t with Some e => [e] | None => [] end.

Definition all_structs : list ctype :=
  detached_structs ++ (tag_table ≫= fun r => r.1.2 :: trailing r.2).

(** ** Properties *)

(** Every [_Static_assert] on the size of an ABI structure holds of the
    packed layout. *)
Theorem abi_sizes :
  map sizeof
    [bbp_tag_request; bbp_header; bbp_info; bbp_tag_header; bbp_memory_entry;
     bbp_tag_memory_map; bbp_tag_hhdm; bbp_tag_kernel_address; bbp_display_info;
     bbp_tag_framebuffer; bbp_cpu_info; bbp_tag_smp; bbp_measurement;
     bbp_secure_boot_info; bbp_tag_security; bbp_tag_acpi; bbp_module_entry;
     bbp_tag_modules; bbp_tag_cmdline; bbp_boot_phase; bbp_tag_metrics;
     bbp_tag_devicetree; bbp_pcie_bar; bbp_pcie_device; bbp_tag_pcie; bbp_tag_efi;
     bbp_tag_hypervisor; bbp_tag_smbios] =
    [24; SIZEOF_HEADER; SIZEOF_INFO; SIZEOF_TAG_HEADER; 32; 40; SIZEOF_TAG_HHDM; 48; 48;
     72; 48; 48; 144; 8; 128; 56; 176; 40; 56; 56; 72; 80; 24; 168; 48; 64; 64; 48] /\
  (forall s n, In (s, n)
     [("requests", 64); ("kernel_uuid", 72); ("kernel_name", 88); ("checksum", 152)]%string ->
     offsetof bbp_header s = Some n) /\
  (forall s n, In (s, n)
     [("version_major", 16); ("info_size", 20); ("tag_count", 116); ("first_tag", 120);
      ("next_context", 128); ("checksum", 136)]%string ->
     offsetof bbp_info s = Some n) /\
  (forall s n, In (s, n)
     [("tag_id", 0); ("tag_size", 8); ("tag_version", 12); ("flags", 14);
      ("next_tag", 16); ("checksum", 24)]%string ->
     offsetof bbp_tag_header s = Some n).
Proof.
  split; [vm_compute; reflexivity|].
  repeat split; intros s n Hin; repeat destruct Hin as [[= <- <-]|Hin]; try reflexivity; done.
Qed.

(** ABI rule 2: although every structure is packed, each field of each
    structure lies at its natural alignment, and every tag and trailing-array
    element has a size that is a multiple of 8; so an 8-aligned tag keeps all
    of its fields, and all the elements of its trailing array, aligned. *)
Lemma abi_naturally_aligned :
  forallb (naturally_aligned 0) all_structs = true /\
  forallb (fun t => sizeof t mod 8 =? 0) all_structs = true.
Proof. split; vm_compute; reflexivity. Qed.

(** The canonical tag identifiers are pairwise distinct 64-bit values
    whose top 16 bits are the category they were built from. *)
Lemma tag_ids_distinct :
  NoDup (map (fun r => r.1.1) tag_table) /\
  (forall cat id, in_word 16 cat -> in_word 48 id ->
     in_word 64 (BBP_TAG_ID cat id) /\ Z.shiftr (BBP_TAG_ID cat id) 48 = cat /\
     Z.land (BBP_TAG_ID cat id) (2 ^ 48 - 1) = id).
Proof.
  split.
  - refine (bool_decide_unpack _ _). vm_compute. exact I.
  - intros cat id Hc Hi. unfold BBP_TAG_ID, in_word in *.
    rewrite Z.shiftl_mul_pow2 by lia.
    rewrite (wrap_small 64) by (unfold in_word; lia).
    rewrite <- Z.shiftl_mul_pow2 by lia.
    assert (in_word 64 (Z.lor (Z.shiftl cat 48) id)) as Hw.
    { apply lor_in_word; [lia| |apply (in_word_mono 48); [lia|done]].
      unfold in_word. rewrite Z.shiftl_mul_pow2 by lia. lia. }
    split; [done|]. split.
    + rewrite Z.shiftr_lor, Z.shiftr_shiftl_l, Z.shiftl_0_r by lia.
      rewrite (Z.shiftr_div_pow2 id), Z.div_small by lia. apply Z.lor_0_r.
    + rewrite land_ones_pow2 by lia. rewrite <- Z.land_ones by lia.
      rewrite Z.land_lor_distr_l, !Z.land_ones by lia.
      rewrite Z.shiftl_mul_pow2, Z.mod_mul, Z.lor_0_l by lia. by apply Z.mod_small.
Qed.
