(* ===== verification/KernelParser.v ===== *)
(** * The kernel-side parser (kernel/bbp_kernel.c, kernel/bbp_kernel.h)

    The defensive consumer of a handoff: validation of the INFO structure and
    of the kernel header, the bounded tag walk, tag lookup, iteration, boot
    evidence, out-of-line blobs and trailing arrays.  Every memory access is a
    load of [Memory] that faults outside the mapped addresses; a null pointer
    is address 0, and a pointer to a context structure that may be NULL is an
    [option]. *)

From stdpp Require Import strings.
From S2P Require Import Prelude Memory Crc64 Abi.

(** ** Types *)

Inductive bbp_status_t :=
  | BBP_OK
  | BBP_ERR_NULL
  | BBP_ERR_MAGIC
  | BBP_ERR_VERSION
  | BBP_ERR_SIZE
  | BBP_ERR_CHECKSUM
  | BBP_ERR_TAG_CHECKSUM.

#[global] Instance bbp_status_eq_dec : EqDecision bbp_status_t.
Proof. solve_decision. Defined.

Record bbp_kctx := Kctx {
  k_info : Z;
  hhdm_offset : Z;
  verify_tag_crc : Z;
  walk_lo : Z;
  walk_hi : Z;
}.

(** ** Limits *)

Definition BBP_MAX_TAGS : nat := 1024.
Definition BBP_MAX_TAG_SIZE : Z := 16 * 1024 * 1024.
Definition BBP_MAX_PHYS : Z := Z.shiftl 1 48.
Definition BBP_MAX_BLOB : Z := 64 * 1024 * 1024.
Definition BBP_MAX_INFO_SIZE : Z := 64 * 1024 * 1024.

(** ** Helpers *)

Definition bbp_phys_to_virt (k : bbp_kctx) (p : Z) : Z :=
  if p =? 0 then 0 else wrap64 (p + hhdm_offset k).

(** The parser's own [memcmp] against a constant array: the difference at the
    first mismatch, 0 when all bytes agree. *)
Fixpoint bbp_memcmp (m : mem) (a : Z) (bs : list byte) : option Z :=
  match bs with
  | [] => Some 0
  | y :: bs =>
      x ← m !! a;
      reject negb (byte_Z x =? byte_Z y) with Some (byte_Z x - byte_Z y);
      bbp_memcmp m (a + 1) bs
  end.

Definition bbp_crc_skip (m : mem) (base len off : Z) : option Z :=
  reject len <? off + 8 with Some UINT64_MAX;
  c ← bbp_crc64_update m bbp_crc64_init base (Z.to_nat off);
  let c := crc64_list c (replicate 8 x00) in
  c ← bbp_crc64_update m c (base + off + 8) (Z.to_nat (len - off - 8));
  Some (bbp_crc64_final c).

Definition bbp_tag_len_ok (tag_size : Z) : bool :=
  (SIZEOF_TAG_HEADER <=? tag_size) && (tag_size <=? BBP_MAX_TAG_SIZE).

Definition bbp_tag_ptr_ok (p : Z) : bool := negb (p =? 0) && (Z.land p 7 =? 0).

Definition bbp_address_region_ok (k : bbp_kctx) (phys len : Z) : bool :=
  reject (phys =? 0) || (len =? 0) with false;
  reject BBP_MAX_PHYS <? len with false;
  reject BBP_MAX_PHYS - len <? phys with false;
  let base := phys in
  let off := hhdm_offset k in
  reject SIZE_MAX - off <? base with false;
  let v := base + off in
  reject SIZE_MAX - len <? v with false;
  true.

Definition bbp_tag_region_ok (k : bbp_kctx) (phys len : Z) : bool :=
  check bbp_address_region_ok k phys len else false;
  if walk_lo k <? walk_hi k then
    reject (phys <? walk_lo k) || (walk_hi k <=? phys) with false;
    reject walk_hi k - phys <? len with false;
    true
  else true.

(** ** Header and blob validation *)

Definition bbp_verify_header (m : mem) (hdr : Z) : option bbp_status_t :=
  reject hdr =? 0 with Some BBP_ERR_NULL;
  d ← bbp_memcmp m hdr BBP_HEADER_MAGIC;
  reject negb (d =? 0) with Some BBP_ERR_MAGIC;
  major ← load16 m (hdr + 16);
  reject negb (major =? BBP_VERSION_MAJOR) with Some BBP_ERR_VERSION;
  size ← load32 m (hdr + 20);
  reject negb (size =? SIZEOF_HEADER) with Some BBP_ERR_SIZE;
  got ← bbp_crc_skip m hdr SIZEOF_HEADER 152;
  sum ← load64 m (hdr + 152);
  reject negb (got =? sum) with Some BBP_ERR_CHECKSUM;
  Some BBP_OK.

Definition bbp_verify_blob (m : mem) (k : option bbp_kctx)
    (phys len expected_crc allow_unchecked : Z) : option bbp_status_t :=
  match k with
  | None => Some BBP_ERR_NULL
  | Some k =>
      reject (phys =? 0) || (len =? 0) with Some BBP_ERR_NULL;
      reject BBP_MAX_BLOB <? len with Some BBP_ERR_SIZE;
      check bbp_address_region_ok k phys len else Some BBP_ERR_SIZE;
      if expected_crc =? 0 then
        Some (if negb (allow_unchecked =? 0) then BBP_OK else BBP_ERR_TAG_CHECKSUM)
      else
        let p := bbp_phys_to_virt k phys in
        got ← bbp_crc64 m p (Z.to_nat len);
        Some (if got =? expected_crc then BBP_OK else BBP_ERR_TAG_CHECKSUM)
  end.

(** ** The tag walk *)

(** [Some (Some tag)] sets [*out_tag] and returns 1; [Some None] returns 0. *)
Definition bbp_tag_at (m : mem) (k : bbp_kctx) (cur : Z) : option (option Z) :=
  check bbp_tag_ptr_ok cur else Some None;
  check bbp_tag_region_ok k cur SIZEOF_TAG_HEADER else Some None;
  let tag := bbp_phys_to_virt k cur in
  tag_size ← load32 m (tag + 8);
  check bbp_tag_len_ok tag_size else Some None;
  check bbp_tag_region_ok k cur tag_size else Some None;
  Some (Some tag).

Definition bbp_tag_crc_ok (m : mem) (tag : Z) : option bool :=
  tag_size ← load32 m (tag + 8);
  got ← bbp_crc_skip m tag tag_size 24;
  sum ← load64 m (tag + 24);
  Some (got =? sum).

(** [k->verify_tag_crc && !bbp_tag_crc_ok(tag)] *)
Definition skip_tag (m : mem) (k : bbp_kctx) (tag : Z) : option bool :=
  if verify_tag_crc k =? 0 then Some false
  else ok ← bbp_tag_crc_ok m tag; Some (negb ok).

(** [while (cur && steps++ < BBP_MAX_TAGS)]: [steps] counts down the
    iterations left. *)
Fixpoint find_loop (m : mem) (k : bbp_kctx) (tag_id cur : Z) (steps : nat) : option Z :=
  match steps with
  | O => Some 0
  | S steps =>
      reject cur =? 0 with Some 0;
      t ← bbp_tag_at m k cur;
      match t with
      | None => Some 0
      | Some tag =>
          id ← load64 m tag;
          if id =? tag_id then
            skip ← skip_tag m k tag;
            if skip : bool then
              next ← load64 m (tag + 16);
              find_loop m k tag_id next steps
            else Some tag
          else
            next ← load64 m (tag + 16);
            find_loop m k tag_id next steps
      end
  end.

Definition bbp_find_tag (m : mem) (k : option bbp_kctx) (tag_id : Z) : option Z :=
  match k with
  | None => Some 0
  | Some k =>
      reject k_info k =? 0 with Some 0;
      cur ← load64 m (k_info k + 120);
      find_loop m k tag_id cur BBP_MAX_TAGS
  end.

(** The callback gets the user state and a tag pointer and returns the new
    state and a stop flag; it may fault. *)
Fixpoint each_loop {U} (m : mem) (k : bbp_kctx) (cb : U -> Z -> option (U * Z))
    (user : U) (cur n : Z) (steps : nat) {struct steps} : option (U * Z) :=
  match steps with
  | O => Some (user, n)
  | S steps =>
      reject cur =? 0 with Some (user, n);
      t ← bbp_tag_at m k cur;
      match t with
      | None => Some (user, n)
      | Some tag =>
          skip ← skip_tag m k tag;
          if skip : bool then
            next ← load64 m (tag + 16);
            each_loop m k cb user next n steps
          else
            let n := wrap32 (n + 1) in
            '(user, stop) ← cb user tag;
            if negb (stop =? 0) then Some (user, n)
            else
              next ← load64 m (tag + 16);
              each_loop m k cb user next n steps
      end
  end.

Definition bbp_for_each_tag {U} (m : mem) (k : option bbp_kctx)
    (cb : option (U -> Z -> option (U * Z))) (user : U) : option (U * Z) :=
  match k, cb with
  | Some k, Some cb =>
      reject k_info k =? 0 with Some (user, 0);
      cur ← load64 m (k_info k + 120);
      each_loop m k cb user cur 0 BBP_MAX_TAGS
  | _, _ => Some (user, 0)
  end.

(** ** Boot evidence *)

Definition evidence_domain : list byte :=
  [x42; x42; x50; x2d; x45; x56; x49; x44; x45; x4e; x43; x45; x00; x01; x00; x00].

(** [w->update(w->state, tag, tag->tag_size); return 0;] *)
Definition bbp_evidence_cb {S} (m : mem) (update : S -> list byte -> S)
    (state : S) (tag : Z) : option (S * Z) :=
  size ← load32 m (tag + 8);
  data ← load_bytes m tag (Z.to_nat size);
  Some (update state data, 0).

Definition bbp_evidence {S} (m : mem) (k : option bbp_kctx)
    (update : option (S -> list byte -> S)) (state : S) : option (S * Z) :=
  match k, update with
  | Some k', Some update =>
      reject k_info k' =? 0 with Some (state, 0);
      let state := update state evidence_domain in
      info ← load_bytes m (k_info k') (Z.to_nat SIZEOF_INFO);
      let state := update state info in
      bbp_for_each_tag m k (Some (bbp_evidence_cb m update)) state
  | _, _ => Some (state, 0)
  end.

(** ** Initialisation

    [out] is [None] for a NULL context pointer; the result carries the
    context the pointer refers to afterwards. *)

Definition bbp_init_win (m : mem) (out : option bbp_kctx) (info hhdm_hint lo hi : Z)
    : option (option bbp_kctx * bbp_status_t) :=
  match out with
  | None => Some (None, BBP_ERR_NULL)
  | Some _ =>
      reject info =? 0 with Some (out, BBP_ERR_NULL);
      let k := Kctx info hhdm_hint 1 lo hi in
      let out := Some k in
      d ← bbp_memcmp m info BBP_INFO_MAGIC;
      reject negb (d =? 0) with Some (out, BBP_ERR_MAGIC);
      major ← load16 m (info + 16);
      reject negb (major =? BBP_VERSION_MAJOR) with Some (out, BBP_ERR_VERSION);
      size ← load32 m (info + 20);
      reject (size <? SIZEOF_INFO) || (BBP_MAX_INFO_SIZE <? size)
        with Some (out, BBP_ERR_SIZE);
      want ← load64 m (info + 136);
      got ← bbp_crc_skip m info SIZEOF_INFO 136;
      reject negb (want =? got) with Some (out, BBP_ERR_CHECKSUM);
      t ← bbp_find_tag m out BBP_TAG_HHDM;
      if (hhdm_hint =? 0) && negb (t =? 0) then
        tag_size ← load32 m (t + 8);
        if SIZEOF_TAG_HHDM <=? tag_size then
          offset ← load64 m (t + 32);
          Some (Some (Kctx info offset 1 lo hi), BBP_OK)
        else Some (out, BBP_OK)
      else Some (out, BBP_OK)
  end.

Definition bbp_init_ex (m : mem) (out : option bbp_kctx) (info hhdm_hint : Z) :=
  bbp_init_win m out info hhdm_hint 0 0.

Definition bbp_init (m : mem) (out : option bbp_kctx) (info : Z) :=
  bbp_init_ex m out info 0.

(** The uninitialised local [candidate] is an arbitrary context. *)
Definition bbp_init_bounded (m : mem) (candidate : bbp_kctx) (out : option bbp_kctx)
    (info hhdm_hint arena_phys arena_bytes : Z)
    : option (option bbp_kctx * bbp_status_t) :=
  match out with
  | None => Some (None, BBP_ERR_NULL)
  | Some _ =>
      reject info =? 0 with Some (out, BBP_ERR_NULL);
      reject (arena_phys =? 0) || (arena_bytes =? 0) with Some (out, BBP_ERR_SIZE);
      reject BBP_MAX_PHYS <? arena_bytes with Some (out, BBP_ERR_SIZE);
      reject BBP_MAX_PHYS - arena_bytes <? arena_phys with Some (out, BBP_ERR_SIZE);
      '(candidate, st) ← bbp_init_win m (Some candidate) info hhdm_hint arena_phys
                           (arena_phys + arena_bytes);
      Some (if bool_decide (st = BBP_OK) then candidate else out, st)
  end.

Definition bbp_set_walk_window (k : option bbp_kctx) (lo hi : Z)
    : option bbp_kctx * bbp_status_t :=
  match k with
  | None => (None, BBP_ERR_NULL)
  | Some k => (Some (Kctx (k_info k) (hhdm_offset k) (verify_tag_crc k) lo hi), BBP_OK)
  end.

(** ** Trailing data of a tag *)

Definition bbp_tag_payload (tag fixed_size : Z) : Z := tag + fixed_size.

(** Returns the array base and the usable count written to [*out_count]. *)
Definition bbp_tag_array (m : mem) (tag fixed_size elem_size claimed : Z)
    : option (Z * Z) :=
  fit ← (if negb (elem_size =? 0) then
           tag_size ← load32 m (tag + 8);
           if fixed_size <? tag_size then
             let room := tag_size - fixed_size in
             let n := room / elem_size in
             Some (if UINT32_MAX <? n then UINT32_MAX else wrap32 n)
           else Some 0
         else Some 0);
  Some (tag + fixed_size, if claimed <? fit then claimed else fit).

Definition bbp_strstatus (s : bbp_status_t) : string :=
  match s with
  | BBP_OK => "ok"
  | BBP_ERR_NULL => "null info pointer"
  | BBP_ERR_MAGIC => "bad magic (not BEAR_INFO/BEAR_BOOT)"
  | BBP_ERR_VERSION => "incompatible protocol major version"
  | BBP_ERR_SIZE => "implausible info_size"
  | BBP_ERR_CHECKSUM => "info CRC64 mismatch"
  | BBP_ERR_TAG_CHECKSUM => "tag CRC64 mismatch"
  end.
