(* ===== verification/KernelFacts.v ===== *)
(** * Facts about the kernel-side parser

    The address checks as inequalities, the framing a successful
    [bbp_tag_at] establishes, the abstract tag walk that lookup, iteration and
    evidence refine, and the parser's safety and functional properties. *)

From S2P Require Import Prelude Memory Crc64 Abi KernelParser.

Ltac kconsts :=
  unfold BBP_MAX_PHYS, BBP_MAX_TAG_SIZE, BBP_MAX_BLOB, BBP_MAX_INFO_SIZE, SIZE_MAX,
    UINT64_MAX, UINT32_MAX, SIZEOF_TAG_HEADER, SIZEOF_INFO, SIZEOF_HEADER,
    SIZEOF_TAG_HHDM, in_word in *;
  change (Z.shiftl 1 48) with (2 ^ 48) in *.

(** ** Helpers as pure facts *)

Lemma bbp_memcmp_zero m a bs : bbp_memcmp m a bs = Some 0 <-> bytes_at m a bs.
Proof.
  revert a. induction bs as [|c bs IH]; intros a; cbn [bbp_memcmp].
  - split; [intros _; apply bytes_at_nil|done].
  - rewrite bytes_at_cons, bind_Some. split.
    + intros (b & Hb & H). destruct (byte_Z b =? byte_Z c) eqn:E; simpl in H; bool_to_prop.
      * apply byte_Z_inj in E as ->. split; [done|]. by apply IH.
      * injection H. lia.
    + intros [Hc Hbs]. exists c. split; [done|]. rewrite Z.eqb_refl. simpl. by apply IH.
Qed.

Lemma bbp_memcmp_mapped m a bs : mapped m a (zlen bs) -> is_Some (bbp_memcmp m a bs).
Proof.
  revert a. induction bs as [|c bs IH]; intros a Hm; [by eexists|].
  unfold zlen in Hm. cbn [bbp_memcmp length] in *. destruct (Hm a) as [b ->]; [lia|].
  simpl. destruct (byte_Z b =? byte_Z c); simpl; [|by eexists].
  apply IH. intros x Hx. apply Hm. unfold zlen in Hx. lia.
Qed.

(** The skipping checksum of a fully loaded structure. *)
Lemma bbp_crc_skip_of m base len off bs :
  0 <= off -> off + 8 <= len -> load_bytes m base (Z.to_nat len) = Some bs ->
  bbp_crc_skip m base len off = Some (crc64_skip_of bs (Z.to_nat off)).
Proof.
  intros Ho Hl Hld. unfold bbp_crc_skip. replace (len <? off + 8) with false by lia.
  by apply crc_skip_loaded.
Qed.

(** ** Address checks *)

Lemma bbp_address_region_ok_spec k phys len :
  0 <= phys -> 0 <= len ->
  bbp_address_region_ok k phys len = true <->
  0 < phys /\ 0 < len /\ phys + len <= BBP_MAX_PHYS /\
  phys + hhdm_offset k + len < 2 ^ 64 /\ phys + hhdm_offset k < 2 ^ 64.
Proof.
  intros Hp Hl. unfold bbp_address_region_ok. kconsts. split.
  - intros H. guards. repeat split; lia.
  - intros (? & ? & ? & ? & ?).
    repeat match goal with
    | |- (if ?c then _ else _) = true => replace c with false by (symmetry; lia)
    end. done.
Qed.

Definition windowed (k : bbp_kctx) : Prop := walk_lo k < walk_hi k.

Lemma bbp_tag_region_ok_spec k phys len :
  0 <= phys -> 0 <= len ->
  bbp_tag_region_ok k phys len = true <->
  bbp_address_region_ok k phys len = true /\
  (windowed k -> walk_lo k <= phys /\ phys < walk_hi k /\ phys + len <= walk_hi k).
Proof.
  intros Hp Hl. unfold bbp_tag_region_ok, windowed.
  destruct (bbp_address_region_ok k phys len); [|naive_solver].
  destruct (walk_lo k <? walk_hi k) eqn:E; bool_to_prop; [|naive_solver lia].
  split.
  - intros H. guards. split; [done|]. intros _. lia.
  - intros [_ H]. specialize (H E).
    replace ((phys <? walk_lo k) || (walk_hi k <=? phys)) with false by lia.
    by replace (walk_hi k - phys <? len) with false by lia.
Qed.

(** ** Framing

    What [bbp_tag_at] guarantees of the physical address [cur] and the virtual
    address [tag] it returns. *)

Record framed (m : mem) (k : bbp_kctx) (cur tag size : Z) : Prop := Framed {
  fr_size : load32 m (tag + 8) = Some size;
  fr_bounds : 32 <= size <= BBP_MAX_TAG_SIZE;
  fr_virt : tag = cur + hhdm_offset k;
  fr_align : cur mod 8 = 0;
  fr_phys : 0 < cur /\ cur + size <= BBP_MAX_PHYS;
  fr_nowrap : tag + size < 2 ^ 64;
  fr_window : windowed k -> walk_lo k <= cur /\ cur + size <= walk_hi k;
}.

Definition kctx_wf (k : bbp_kctx) : Prop := in_word 64 (hhdm_offset k).

Lemma phys_to_virt_ok k cur len :
  kctx_wf k -> 0 <= cur -> 0 <= len ->
  bbp_address_region_ok k cur len = true ->
  bbp_phys_to_virt k cur = cur + hhdm_offset k.
Proof.
  intros Hk Hc Hl H. apply bbp_address_region_ok_spec in H as (? & ? & ? & ? & ?); [|done..].
  unfold bbp_phys_to_virt, kctx_wf in *. kconsts.
  replace (cur =? 0) with false by lia. apply wrap_small. unfold in_word. lia.
Qed.

Lemma bbp_tag_at_framed m k cur tag :
  kctx_wf k -> 0 <= cur -> bbp_tag_at m k cur = Some (Some tag) ->
  exists size, framed m k cur tag size.
Proof.
  intros Hk Hc H. unfold bbp_tag_at in H.
  destruct (bbp_tag_ptr_ok cur) eqn:Hptr; [|done].
  destruct (bbp_tag_region_ok k cur SIZEOF_TAG_HEADER) eqn:Hreg; [|done].
  apply bind_Some in H as (size & Hsize & H).
  destruct (bbp_tag_len_ok size) eqn:Hlen; [|done].
  destruct (bbp_tag_region_ok k cur size) eqn:Hreg'; [|done]. injection H as <-.
  pose proof (load32_word _ _ _ Hsize) as Hw.
  unfold bbp_tag_ptr_ok in Hptr. unfold bbp_tag_len_ok in Hlen. bool_to_prop.
  rewrite land_7 in *.
  apply bbp_tag_region_ok_spec in Hreg as [Hr0 _]; [|kconsts; lia..].
  rewrite (phys_to_virt_ok _ _ SIZEOF_TAG_HEADER) in * by (done || kconsts; lia).
  apply bbp_tag_region_ok_spec in Hreg' as [Hr Hwin]; [|kconsts; lia..].
  apply bbp_address_region_ok_spec in Hr as (? & ? & ? & ? & ?); [|kconsts; lia..].
  exists size. split; try done; kconsts; try lia; try (intros Hx; specialize (Hwin Hx); lia).
Qed.

(** Conversely, a well-framed tag is accepted. *)
Lemma framed_tag_at m k cur tag size :
  kctx_wf k -> framed m k cur tag size -> bbp_tag_at m k cur = Some (Some tag).
Proof.
  intros Hk [Hsize Hb -> Hal Hph Hnw Hwin]. unfold bbp_tag_at.
  assert (forall n, 0 < n <= size -> bbp_tag_region_ok k cur n = true) as Hreg.
  { intros n Hn. apply bbp_tag_region_ok_spec; [lia..|]. unfold kctx_wf in Hk. split.
    - apply bbp_address_region_ok_spec; kconsts; lia.
    - intros Hx. specialize (Hwin Hx). lia. }
  replace (bbp_tag_ptr_ok cur) with true
    by (unfold bbp_tag_ptr_ok; rewrite land_7; lia).
  rewrite Hreg by (kconsts; lia).
  rewrite (phys_to_virt_ok _ _ 1) by
    (done || lia || (specialize (Hreg 1 ltac:(lia));
     apply bbp_tag_region_ok_spec in Hreg; [tauto|lia|lia])).
  rewrite Hsize. simpl.
  replace (bbp_tag_len_ok size) with true by (unfold bbp_tag_len_ok; kconsts; lia).
  by rewrite Hreg by lia.
Qed.

(** ** The abstract walk

    The virtual addresses of the tags a walk visits, in chain order. *)

Fixpoint walk_loop (m : mem) (k : bbp_kctx) (cur : Z) (steps : nat) : option (list Z) :=
  match steps with
  | O => Some []
  | S steps =>
      reject cur =? 0 with Some [];
      t ← bbp_tag_at m k cur;
      match t with
      | None => Some []
      | Some tag =>
          next ← load64 m (tag + 16);
          rest ← walk_loop m k next steps;
          Some (tag :: rest)
      end
  end.

Definition tag_walk (m : mem) (k : bbp_kctx) : option (list Z) :=
  cur ← load64 m (k_info k + 120); walk_loop m k cur BBP_MAX_TAGS.

(** A tag the integrity policy of the context lets through. *)
Definition accepted (m : mem) (k : bbp_kctx) (tag : Z) : bool :=
  bool_decide (skip_tag m k tag = Some false).
Definition has_id (m : mem) (id tag : Z) : bool := bool_decide (load64 m tag = Some id).

(** Deliver tags to a callback until it asks to stop. *)
Fixpoint deliver {U} (cb : U -> Z -> option (U * Z)) (ts : list Z) (u : U) (n : Z)
    : option (U * Z) :=
  match ts with
  | [] => Some (u, n)
  | t :: ts =>
      '(u, stop) ← cb u t;
      if negb (stop =? 0) then Some (u, n + 1) else deliver cb ts u (n + 1)
  end.

Lemma walk_loop_length m k cur steps ts :
  walk_loop m k cur steps = Some ts -> (length ts <= steps)%nat.
Proof.
  revert cur ts. induction steps as [|steps IH]; intros cur ts; cbn [walk_loop].
  - intros [= <-]. simpl. lia.
  - destruct (cur =? 0); [intros [= <-]; simpl; lia|]. intros H.
    apply bind_Some in H as ([tag|] & Ht & H); [|simplify_eq; simpl; lia].
    bind_inv. simplify_eq. simpl. apply IH in Hv0. lia.
Qed.

(** Every tag of a walk is framed. *)
Lemma walk_loop_framed m k cur steps ts :
  kctx_wf k -> 0 <= cur -> walk_loop m k cur steps = Some ts ->
  Forall (fun t => exists c size, framed m k c t size) ts.
Proof.
  intros Hk. revert cur ts. induction steps as [|steps IH]; intros cur ts Hc; cbn [walk_loop].
  - by intros [= <-].
  - destruct (cur =? 0); [by intros [= <-]|]. intros H.
    apply bind_Some in H as ([tag|] & Ht & H); [|by simplify_eq].
    bind_inv. simplify_eq. constructor.
    + apply bbp_tag_at_framed in Ht as [size Hf]; [|done..]. by exists cur, size.
    + apply IH in Hv0; [done|]. apply load64_word in Hv. kconsts. lia.
Qed.

(** ** What the consumer must promise: a mapped walk window *)

Class WindowMapped (m : mem) (k : bbp_kctx) : Prop := {
  wm_wf : kctx_wf k;
  wm_window : windowed k;
  wm_mapped : forall p, walk_lo k <= p < walk_hi k -> p + hhdm_offset k < 2 ^ 64 ->
                is_Some (m !! (p + hhdm_offset k));
}.

Section safety.
Context (m : mem) (k : bbp_kctx) {Hwm : WindowMapped m k}.

Lemma framed_mapped cur tag size : framed m k cur tag size -> mapped m tag size.
Proof.
  intros [Hsize Hb -> Hal Hph Hnw Hwin] x Hx. specialize (Hwin wm_window).
  replace x with ((x - hhdm_offset k) + hhdm_offset k) by lia.
  apply wm_mapped; lia.
Qed.

Lemma bbp_tag_at_total cur : 0 <= cur -> is_Some (bbp_tag_at m k cur).
Proof.
  intros Hc. pose proof wm_wf as Hk. unfold bbp_tag_at.
  destruct (bbp_tag_ptr_ok cur); [|by eexists].
  destruct (bbp_tag_region_ok k cur SIZEOF_TAG_HEADER) eqn:Hreg; [|by eexists].
  apply bbp_tag_region_ok_spec in Hreg as [Hr Hwin]; [|kconsts; lia..].
  rewrite (phys_to_virt_ok _ _ SIZEOF_TAG_HEADER) by (done || kconsts; lia).
  apply bbp_address_region_ok_spec in Hr as (? & ? & ? & ? & ?); [|kconsts; lia..].
  specialize (Hwin wm_window).
  destruct (mapped_load_le m (cur + hhdm_offset k + 8) 4) as (size & Hsize & _).
  { intros x Hx. kconsts.
    replace x with ((x - hhdm_offset k) + hhdm_offset k) by lia. apply wm_mapped; lia. }
  unfold load32. rewrite Hsize. simpl.
  destruct (bbp_tag_len_ok size), (bbp_tag_region_ok k cur size); by eexists.
Qed.

End safety.

Lemma framed_load64 m k cur tag size i :
  framed m k cur tag size -> mapped m tag size -> 0 <= i <= 24 ->
  exists v, load64 m (tag + i) = Some v /\ in_word 64 v.
Proof.
  intros [] Hm Hi. apply (mapped_load_le m (tag + i) 8). eapply mapped_sub; [done|lia|lia].
Qed.

(** The checksum test of a mapped, framed tag is total and means [sealed]. *)
Lemma bbp_tag_crc_ok_spec m tag size bs :
  load32 m (tag + 8) = Some size -> 32 <= size ->
  load_bytes m tag (Z.to_nat size) = Some bs ->
  bbp_tag_crc_ok m tag = Some (bool_decide (sealed bs 24)).
Proof.
  intros Hsize Hb Hbs. unfold bbp_tag_crc_ok. rewrite Hsize. cbn [mbind option_bind].
  rewrite (bbp_crc_skip_of _ _ _ _ bs) by (done || lia). cbn [mbind option_bind].
  pose proof (load64_of_bytes _ _ _ _ 24 Hbs ltac:(lia)) as Hsum.
  change (Z.of_nat 24) with 24 in Hsum. rewrite Hsum. cbn [mbind option_bind]. f_equal.
  change (Z.to_nat 24) with 24%nat. unfold sealed.
  destruct (Z.eqb_spec (crc64_skip_of bs 24) (le_decode (take 8 (drop 24 bs)))) as [He|He];
    [rewrite bool_decide_eq_true_2; congruence|].
  rewrite bool_decide_eq_false_2; [done|]. congruence.
Qed.

Lemma skip_tag_total m k cur tag size :
  framed m k cur tag size -> mapped m tag size -> is_Some (skip_tag m k tag).
Proof.
  intros [Hsize Hb _ _ _ _ _] Hm. unfold skip_tag.
  destruct (verify_tag_crc k =? 0); [by eexists|].
  destruct (mapped_load m tag (Z.to_nat size)) as [bs Hbs].
  { by rewrite Z2Nat.id by lia. }
  rewrite (bbp_tag_crc_ok_spec _ _ _ _ Hsize) by (done || lia). by eexists.
Qed.

(** The tags of a walk can all be inspected without a fault. *)
Definition inspectable (m : mem) (k : bbp_kctx) (t : Z) : Prop :=
  is_Some (skip_tag m k t) /\ is_Some (load64 m t).

Section walks.
Context (m : mem) (k : bbp_kctx) {Hwm : WindowMapped m k}.

Lemma walk_loop_total cur steps :
  0 <= cur ->
  exists ts, walk_loop m k cur steps = Some ts /\ Forall (inspectable m k) ts.
Proof.
  revert cur. induction steps as [|steps IH]; intros cur Hc; cbn [walk_loop].
  { by exists []. }
  destruct (cur =? 0); [by exists []|].
  destruct (bbp_tag_at_total m k cur Hc) as [[tag|] Ht]; rewrite Ht; [|by exists []].
  apply bbp_tag_at_framed in Ht as [size Hf]; [|apply wm_wf|done].
  pose proof (framed_mapped m k _ _ _ Hf) as Hm.
  destruct (framed_load64 _ _ _ _ _ 16 Hf Hm) as (next & Hn & Hnw); [lia|].
  simpl. rewrite Hn. simpl. destruct (IH next) as (ts & Hts & Hall); [kconsts; lia|].
  rewrite Hts. exists (tag :: ts). split; [done|]. constructor; [|done]. split.
  - by eapply skip_tag_total.
  - destruct (framed_load64 _ _ _ _ _ 0 Hf Hm) as (id & Hid & _); [lia|].
    rewrite Z.add_0_r in Hid. by exists id.
Qed.

End walks.

(** ** Refinement: lookup and iteration follow the abstract walk *)

Lemma find_loop_spec m k id cur steps ts :
  walk_loop m k cur steps = Some ts -> Forall (inspectable m k) ts ->
  find_loop m k id cur steps =
  Some (default 0 (List.find (fun t => has_id m id t && accepted m k t) ts)).
Proof.
  revert cur ts. induction steps as [|steps IH]; intros cur ts Hw Hall;
    cbn [walk_loop find_loop] in *; [by simplify_eq|].
  destruct (cur =? 0); [by simplify_eq|].
  apply bind_Some in Hw as ([tag|] & Ht & Hw); rewrite Ht; simpl; [|by simplify_eq].
  bind_inv. simplify_eq. apply Forall_cons in Hall as [[[sk Hsk] [tid Hid]] Hall].
  rewrite Hid, Hv. cbn [mbind option_bind List.find]. unfold has_id, accepted.
  rewrite Hid, Hsk. cbn [mbind option_bind].
  destruct (Z.eqb_spec tid id) as [->|Hne].
  - rewrite (bool_decide_eq_true_2 (Some id = Some id)) by done.
    destruct sk; cbn [andb].
    + rewrite bool_decide_eq_false_2 by done. by apply IH.
    + by rewrite bool_decide_eq_true_2.
  - rewrite bool_decide_eq_false_2 by congruence. by apply IH.
Qed.

Lemma each_loop_spec {U} m k (cb : U -> Z -> option (U * Z)) u cur n steps ts :
  walk_loop m k cur steps = Some ts -> Forall (inspectable m k) ts ->
  0 <= n -> n + Z.of_nat steps < 2 ^ 32 ->
  each_loop m k cb u cur n steps = deliver cb (List.filter (accepted m k) ts) u n.
Proof.
  revert u cur n ts. induction steps as [|steps IH]; intros u cur n ts Hw Hall Hn Hs;
    cbn [walk_loop each_loop] in *; [by simplify_eq|].
  destruct (cur =? 0); [by simplify_eq|].
  apply bind_Some in Hw as ([tag|] & Ht & Hw); rewrite Ht; simpl; [|by simplify_eq].
  bind_inv. simplify_eq. apply Forall_cons in Hall as [[[sk Hsk] _] Hall].
  rewrite Hsk, Hv. cbn [mbind option_bind List.filter]. unfold accepted at 1. rewrite Hsk.
  destruct sk.
  - rewrite bool_decide_eq_false_2 by done. apply IH; (done || lia).
  - rewrite bool_decide_eq_true_2 by done. cbn [deliver].
    rewrite (wrap_small 32) by (unfold in_word; lia).
    destruct (cb u tag) as [[u' stop]|]; cbn [mbind option_bind]; [|done].
    destruct (stop =? 0); cbn [negb]; [|done]. apply IH; (done || lia).
Qed.

(** The tags a context delivers, without fault. *)
Lemma tag_walk_total m k :
  WindowMapped m k -> mapped m (k_info k) SIZEOF_INFO ->
  exists ts, tag_walk m k = Some ts /\ Forall (inspectable m k) ts.
Proof.
  intros Hwm Hi. unfold tag_walk.
  destruct (mapped_load_le m (k_info k + 120) 8) as (cur & Hc & Hcw).
  { eapply mapped_sub; [done|kconsts; lia..]. }
  unfold load64. rewrite Hc. cbn [mbind option_bind]. apply walk_loop_total; [done|].
  kconsts. lia.
Qed.

Lemma bbp_find_tag_spec m k id ts :
  k_info k <> 0 -> tag_walk m k = Some ts -> Forall (inspectable m k) ts ->
  bbp_find_tag m (Some k) id =
  Some (default 0 (List.find (fun t => has_id m id t && accepted m k t) ts)).
Proof.
  intros Hi Hw Hall. unfold bbp_find_tag, tag_walk in *.
  replace (k_info k =? 0) with false by lia. bind_inv. rewrite Hv. cbn [mbind option_bind].
  by apply find_loop_spec.
Qed.

Lemma bbp_for_each_tag_spec {U} m k (cb : U -> Z -> option (U * Z)) u ts :
  k_info k <> 0 -> tag_walk m k = Some ts -> Forall (inspectable m k) ts ->
  bbp_for_each_tag m (Some k) (Some cb) u = deliver cb (List.filter (accepted m k) ts) u 0.
Proof.
  intros Hi Hw Hall. unfold bbp_for_each_tag, tag_walk in *.
  replace (k_info k =? 0) with false by lia. bind_inv. rewrite Hv. cbn [mbind option_bind].
  apply each_loop_spec; (done || unfold BBP_MAX_TAGS; lia).
Qed.

Lemma tag_walk_framed m k ts :
  kctx_wf k -> tag_walk m k = Some ts ->
  Forall (fun t => exists c size, framed m k c t size) ts /\ (length ts <= 1024)%nat.
Proof.
  intros Hk Hw. unfold tag_walk in Hw. bind_inv. split.
  - eapply walk_loop_framed; [done| |done]. apply load64_word in Hv. kconsts. lia.
  - by eapply walk_loop_length.
Qed.

(** Lookup is sound whatever the memory holds: a returned tag is framed, has
    the identifier asked for, and passed the checksum policy. *)
Lemma find_loop_sound m k id cur steps t :
  kctx_wf k -> 0 <= cur -> find_loop m k id cur steps = Some t -> t <> 0 ->
  (exists c size, framed m k c t size) /\ load64 m t = Some id /\
  skip_tag m k t = Some false.
Proof.
  intros Hk. revert cur. induction steps as [|steps IH]; intros cur Hc Hf Ht;
    cbn [find_loop] in Hf; [by simplify_eq|].
  destruct (cur =? 0); [by simplify_eq|].
  apply bind_Some in Hf as ([tag|] & Hta & Hf); [|by simplify_eq].
  apply bind_Some in Hf as (tid & Hid & Hf).
  destruct (Z.eqb_spec tid id) as [->|Hne].
  - apply bind_Some in Hf as ([|] & Hsk & Hf).
    + bind_inv. eapply IH; [|done|done]. apply load64_word in Hv. kconsts. lia.
    + injection Hf as <-. apply bbp_tag_at_framed in Hta as [size Hfr]; [|done..].
      split; [by exists cur, size|done].
  - bind_inv. eapply IH; [|done|done]. apply load64_word in Hv. kconsts. lia.
Qed.

(** ** Initialisation against a byte-level specification *)

Definition field (bs : list byte) (off n : nat) : Z := le_decode (take n (drop off bs)).

(** The verdict on the 144 bytes of an INFO structure. *)
Definition info_status (bs : list byte) : bbp_status_t :=
  check bool_decide (take 16 bs = BBP_INFO_MAGIC) else BBP_ERR_MAGIC;
  check field bs 16 2 =? BBP_VERSION_MAJOR else BBP_ERR_VERSION;
  check (SIZEOF_INFO <=? field bs 20 4) && (field bs 20 4 <=? BBP_MAX_INFO_SIZE)
    else BBP_ERR_SIZE;
  check bool_decide (sealed bs 136) else BBP_ERR_CHECKSUM;
  BBP_OK.

(** The verdict on the 160 bytes of a kernel header. *)
Definition header_status (bs : list byte) : bbp_status_t :=
  check bool_decide (take 16 bs = BBP_HEADER_MAGIC) else BBP_ERR_MAGIC;
  check field bs 16 2 =? BBP_VERSION_MAJOR else BBP_ERR_VERSION;
  check field bs 20 4 =? SIZEOF_HEADER else BBP_ERR_SIZE;
  check bool_decide (sealed bs 152) else BBP_ERR_CHECKSUM;
  BBP_OK.

(** The direct-map offset a context keeps: a nonzero hint is authoritative,
    otherwise the first acceptable, complete HHDM tag supplies it. *)
Definition hhdm_choice (m : mem) (k : bbp_kctx) (ts : list Z) : Z :=
  match List.find (fun t => has_id m BBP_TAG_HHDM t && accepted m k t) ts with
  | Some t =>
      match load32 m (t + 8), load64 m (t + 32) with
      | Some size, Some off =>
          if (hhdm_offset k =? 0) && (SIZEOF_TAG_HHDM <=? size) then off else hhdm_offset k
      | _, _ => hhdm_offset k
      end
  | None => hhdm_offset k
  end.

Lemma bbp_memcmp_load m a bs xs :
  load_bytes m a (length bs) = Some xs ->
  exists d, bbp_memcmp m a bs = Some d /\ (d =? 0) = bool_decide (xs = bs).
Proof.
  intros Hld. destruct (bbp_memcmp_mapped m a bs) as [d Hd].
  { apply load_bytes_at in Hld as [Hl Hat]. apply bytes_at_mapped in Hat.
    unfold zlen in *. by rewrite Hl in Hat. }
  exists d. split; [done|].
  destruct (Z.eqb_spec d 0) as [->|Hne].
  - symmetry. apply bool_decide_eq_true_2. apply bbp_memcmp_zero in Hd.
    apply load_bytes_at in Hld as [? ?]. by eapply bytes_at_inj.
  - symmetry. apply bool_decide_eq_false_2. intros ->. apply Hne.
    apply load_bytes_at in Hld as [_ Hat]. apply bbp_memcmp_zero in Hat. congruence.
Qed.

(** A checksum comparison in either operand order decides [sealed]. *)
Lemma sealed_eqb bs off :
  bool_decide (sealed bs off) = (field bs off 8 =? crc64_skip_of bs off).
Proof.
  unfold sealed, field. destruct (Z.eqb_spec (le_decode (take 8 (drop off bs)))
    (crc64_skip_of bs off)) as [He|He].
  - by rewrite bool_decide_eq_true_2.
  - by rewrite bool_decide_eq_false_2.
Qed.

Lemma bbp_verify_header_spec m hdr bs :
  hdr <> 0 -> load_bytes m hdr 160 = Some bs ->
  bbp_verify_header m hdr = Some (header_status bs).
Proof.
  intros Hh Hld. unfold bbp_verify_header, header_status.
  replace (hdr =? 0) with false by lia.
  destruct (load_bytes_take_drop _ _ _ _ 16 Hld ltac:(lia)) as [Ht _].
  destruct (bbp_memcmp_load m hdr BBP_HEADER_MAGIC _ Ht) as (d & Hd & Hdz).
  rewrite Hd. cbn [mbind option_bind]. rewrite Hdz.
  destruct (bool_decide _); cbn [negb]; [|done].
  unfold load16, load32, load64, field.
  change (hdr + 16) with (hdr + Z.of_nat 16). change (hdr + 20) with (hdr + Z.of_nat 20).
  change (hdr + 152) with (hdr + Z.of_nat 152).
  rewrite !(load_le_of_bytes _ _ _ _ _ _ Hld) by lia. cbn [mbind option_bind].
  destruct (_ =? BBP_VERSION_MAJOR); cbn [negb]; [|done].
  destruct (_ =? SIZEOF_HEADER); cbn [negb]; [|done].
  rewrite (bbp_crc_skip_of _ _ _ _ bs) by (first [exact Hld | kconsts; lia]). cbn [mbind option_bind].
  rewrite sealed_eqb, Z.eqb_sym. unfold field. change (Z.to_nat 152) with 152%nat.
  by destruct (_ =? crc64_skip_of _ _).
Qed.

Lemma framed_field64 m k c t size i :
  WindowMapped m k -> framed m k c t size -> 0 <= i -> i + 8 <= size ->
  exists v, load64 m (t + i) = Some v /\ in_word 64 v.
Proof.
  intros Hwm Hf Hi Hs. apply (mapped_load_le m (t + i) 8).
  eapply mapped_sub; [by eapply framed_mapped|lia|lia].
Qed.

(** The tail of [bbp_init_win]: the early HHDM lookup never faults and picks
    [hhdm_choice]. *)
Lemma init_hhdm_tail m k ts :
  WindowMapped m k -> k_info k <> 0 ->
  tag_walk m k = Some ts -> Forall (inspectable m k) ts ->
  (t ← bbp_find_tag m (Some k) BBP_TAG_HHDM;
   if (hhdm_offset k =? 0) && negb (t =? 0) then
     tag_size ← load32 m (t + 8);
     if SIZEOF_TAG_HHDM <=? tag_size then
       offset ← load64 m (t + 32);
       Some (Some (Kctx (k_info k) offset (verify_tag_crc k) (walk_lo k) (walk_hi k)), BBP_OK)
     else Some (Some k, BBP_OK)
   else Some (Some k, BBP_OK)) =
  Some (Some (Kctx (k_info k) (hhdm_choice m k ts) (verify_tag_crc k)
                (walk_lo k) (walk_hi k)), BBP_OK) /\ in_word 64 (hhdm_choice m k ts).
Proof.
  intros Hwm Hi Hw Hall. rewrite (bbp_find_tag_spec _ _ _ ts) by done.
  cbn [mbind option_bind]. pose proof (wm_wf (m:=m) (k:=k)) as Hk.
  destruct k as [info hh ver lo hi]. cbn [k_info hhdm_offset verify_tag_crc walk_lo walk_hi].
  unfold hhdm_choice. cbn [hhdm_offset]. unfold kctx_wf in Hk. cbn in Hk.
  destruct (List.find _ ts) as [t|] eqn:Hfind; cbn [default from_option id];
    [|rewrite andb_false_r; done].
  apply find_some in Hfind as [Hin _].
  destruct (tag_walk_framed _ _ _ (wm_wf (m:=m)) Hw) as [Hfr _].
  rewrite List.Forall_forall in Hfr. destruct (Hfr t Hin) as (c & size & Hf).
  pose proof (fr_size _ _ _ _ _ Hf) as Hsize. rewrite Hsize. cbn [mbind option_bind].
  assert (t <> 0) as Ht.
  { destruct Hf as [_ _ -> _ [Hc _] _ _]. unfold in_word in Hk. cbn [hhdm_offset]. lia. }
  replace (negb (t =? 0)) with true by lia. rewrite andb_true_r.
  destruct (SIZEOF_TAG_HHDM <=? size) eqn:Hsz.
  - destruct (framed_field64 _ _ _ _ _ 32 Hwm Hf) as (off & Hoff & Hoffw);
      [lia|kconsts; lia|]. rewrite Hoff. cbn [mbind option_bind].
    rewrite andb_true_r. by destruct (hh =? 0).
  - rewrite andb_false_r. destruct (load64 m (t + 32)); by destruct (hh =? 0).
Qed.

Lemma bbp_init_win_spec m k0 info hint lo hi bs :
  let k := Kctx info hint 1 lo hi in
  info <> 0 -> load_bytes m info 144 = Some bs -> WindowMapped m k ->
  exists ts, tag_walk m k = Some ts /\
    bbp_init_win m (Some k0) info hint lo hi =
    Some (Some (Kctx info (if bool_decide (info_status bs = BBP_OK)
                           then hhdm_choice m k ts else hint) 1 lo hi), info_status bs) /\
    in_word 64 (hhdm_choice m k ts).
Proof.
  intros k Hi Hld Hwm.
  assert (mapped m info SIZEOF_INFO) as Hmi.
  { apply load_bytes_at in Hld as [Hl Hat]. apply bytes_at_mapped in Hat.
    unfold zlen in Hat. by rewrite Hl in Hat. }
  destruct (tag_walk_total m k Hwm Hmi) as (ts & Hw & Hall). exists ts. split; [done|].
  destruct (init_hhdm_tail m k ts Hwm Hi Hw Hall) as [Htail Hword]. split; [|done].
  unfold bbp_init_win. fold k. replace (info =? 0) with false by lia.
  destruct (load_bytes_take_drop _ _ _ _ 16 Hld ltac:(lia)) as [Ht _].
  destruct (bbp_memcmp_load m info BBP_INFO_MAGIC _ Ht) as (d & Hd & Hdz).
  rewrite Hd. cbn [mbind option_bind]. rewrite Hdz. unfold info_status.
  destruct (bool_decide (take 16 bs = _)); cbn [negb]; [|done].
  unfold load16, load32, load64, field in *.
  change (info + 16) with (info + Z.of_nat 16). change (info + 20) with (info + Z.of_nat 20).
  change (info + 136) with (info + Z.of_nat 136).
  rewrite !(load_le_of_bytes _ _ _ _ _ _ Hld) by lia. cbn [mbind option_bind].
  destruct (_ =? BBP_VERSION_MAJOR); cbn [negb]; [|done].
  set (sz := le_decode (take 4 (drop 20 bs))).
  replace ((sz <? SIZEOF_INFO) || (BBP_MAX_INFO_SIZE <? sz)) with
    (negb ((SIZEOF_INFO <=? sz) && (sz <=? BBP_MAX_INFO_SIZE)))
    by (rewrite !Z.leb_antisym, negb_andb, !negb_involutive; done).
  destruct ((SIZEOF_INFO <=? sz) && _); cbn [negb]; [|done].
  rewrite (bbp_crc_skip_of _ _ _ _ bs) by (first [exact Hld | kconsts; lia]). cbn [mbind option_bind].
  rewrite sealed_eqb. unfold field. change (Z.to_nat 136) with 136%nat.
  destruct (_ =? crc64_skip_of _ _); cbn [negb]; [exact Htail|done].
Qed.
