(* ===== verification/KernelProps.v ===== *)
(** * Properties of the kernel-side parser

    Safety against hostile handoffs, the functional meaning of every entry
    point, and a concrete handoff image on which they are instantiated. *)

From S2P Require Import Prelude Memory Crc64 Abi KernelParser KernelFacts.

(** ** Evidence as a byte stream *)

Definition tag_image (m : mem) (t : Z) : list byte :=
  default [] (size ← load32 m (t + 8); load_bytes m t (Z.to_nat size)).

(** The canonical stream of SPEC.md, section 10.4. *)
Definition evidence_stream (info : list byte) (tags : list (list byte)) : list (list byte) :=
  evidence_domain :: info :: tags.

Lemma deliver_evidence {S} m (update : S -> list byte -> S) ts s n :
  Forall (fun t => exists size, load32 m (t + 8) = Some size /\
                     is_Some (load_bytes m t (Z.to_nat size))) ts ->
  deliver (bbp_evidence_cb m update) ts s n =
  Some (fold_left update (map (tag_image m) ts) s, n + zlen ts).
Proof.
  revert s n. induction ts as [|t ts IH]; intros s n Hall.
  { unfold zlen. simpl. by rewrite Z.add_0_r. }
  apply Forall_cons in Hall as [(size & Hsize & data & Hdata) Hall].
  assert (tag_image m t = data) as Himg
    by (unfold tag_image; rewrite Hsize; simpl; by rewrite Hdata).
  assert (bbp_evidence_cb m update s t = Some (update s data, 0)) as Hcb
    by (unfold bbp_evidence_cb; rewrite Hsize; simpl; by rewrite Hdata).
  cbn [deliver map fold_left]. rewrite Hcb. cbn [mbind option_bind Z.eqb negb].
  rewrite IH, Himg by done. unfold zlen. cbn [length]. do 2 f_equal. lia.
Qed.

Lemma mapped_window m k :
  kctx_wf k -> windowed k ->
  mapped m (walk_lo k + hhdm_offset k) (walk_hi k - walk_lo k) -> WindowMapped m k.
Proof. intros Hk Hw Hm. split; [done|done|]. intros p Hp _. apply Hm. lia. Qed.

Lemma walk_images m k ts :
  WindowMapped m k -> tag_walk m k = Some ts ->
  Forall (fun t => exists size, load32 m (t + 8) = Some size /\
                     is_Some (load_bytes m t (Z.to_nat size))) ts.
Proof.
  intros Hwm Hw. destruct (tag_walk_framed _ _ _ (wm_wf (m:=m)) Hw) as [Hfr _].
  eapply Forall_impl; [exact Hfr|]. intros t (c & size & Hf). exists size.
  split; [by apply (fr_size _ _ _ _ _ Hf)|]. apply mapped_load.
  pose proof (fr_bounds _ _ _ _ _ Hf).
  rewrite Z2Nat.id by lia. by eapply framed_mapped.
Qed.

(** A tag returned by lookup under checksum verification carries its CRC. *)
Lemma find_tag_sealed (m : mem) (k : bbp_kctx) (id t : Z) (bs : list byte) (size : Z) :
  kctx_wf k -> verify_tag_crc k <> 0 -> bbp_find_tag m (Some k) id = Some t -> t <> 0 ->
  load32 m (t + 8) = Some size -> load_bytes m t (Z.to_nat size) = Some bs ->
  load64 m t = Some id /\ sealed bs 24 /\ (exists c, framed m k c t size).
Proof.
  intros Hk Hv Hf Ht Hsize Hbs. unfold bbp_find_tag in Hf.
  destruct (k_info k =? 0); [by simplify_eq|]. bind_inv.
  apply find_loop_sound in Hf as ((c & size' & Hfr) & Hid & Hsk);
    [|done| |done].
  - pose proof (fr_size _ _ _ _ _ Hfr) as Hs. rewrite Hsize in Hs. injection Hs as <-.
    split_and!; [done| |by exists c].
    unfold skip_tag in Hsk. replace (verify_tag_crc k =? 0) with false in Hsk by lia.
    rewrite (bbp_tag_crc_ok_spec m t size bs) in Hsk;
      [|done|by apply (fr_bounds _ _ _ _ _ Hfr)|done].
    cbn [mbind option_bind] in Hsk. injection Hsk as Hsk.
    apply negb_false_iff, bool_decide_eq_true in Hsk. done.
  - apply load64_word in Hv0. kconsts. lia.
Qed.

(** ** A concrete handoff

    An INFO structure at 4096 and two tags (HHDM, KERNEL_ADDRESS) at 8192. *)

Module Sample.

Definition tag_bytes (id size next : Z) (body : list byte) : list byte :=
  seal_at (le_encode 8 id ++ le_encode 4 size ++ le_encode 2 1 ++ le_encode 2 0 ++
           le_encode 8 next ++ replicate 8 x00 ++ body) 24.

Definition tags : list byte :=
  Eval vm_compute in
  tag_bytes BBP_TAG_HHDM 40 8232 (le_encode 8 0) ++
  tag_bytes BBP_TAG_KERNEL_ADDRESS 48 0 (le_encode 8 0x100000 ++ le_encode 8 0xffff800000100000).

Definition info : list byte :=
  Eval vm_compute in
  seal_at (BBP_INFO_MAGIC ++ le_encode 2 1 ++ le_encode 2 1 ++ le_encode 4 232 ++
           replicate 92 x00 ++ le_encode 4 2 ++ le_encode 8 8192 ++ replicate 16 x00) 136.

Definition memory : mem := mem_of 4096 info ∪ mem_of 8192 tags.

Definition ctx : bbp_kctx := Kctx 4096 0 1 8192 8280.
Definition blank : bbp_kctx := Kctx 0 0 0 0 0.

Lemma load_info : load_bytes memory 4096 144 = Some info.
Proof. vm_compute. reflexivity. Qed.

Lemma load_tags : load_bytes memory 8192 88 = Some tags.
Proof. vm_compute. reflexivity. Qed.

Lemma info_mapped : mapped memory 4096 144.
Proof. exact (load_mapped _ _ _ _ load_info). Qed.

Lemma tags_mapped : mapped memory 8192 88.
Proof. exact (load_mapped _ _ _ _ load_tags). Qed.

#[global] Instance window : WindowMapped memory ctx.
Proof.
  apply mapped_window; [by split|by vm_compute|]. exact tags_mapped.
Qed.

End Sample.

(** ** Safety *)

(** C4: the bounded initialiser never faults, whatever bytes the producer
    left in memory: if the INFO structure and the declared arena are mapped
    under the caller's direct-map offset, it always returns a status.  On
    failure the caller's context is untouched; on success the published
    context is confined to exactly the declared arena, keeps a nonzero hint
    unchanged, and verifies tag checksums. *)
Theorem bounded_init_never_faults (m : mem) (cand : bbp_kctx) (out : option bbp_kctx)
    (info hint arena bytes : Z) :
  in_word 64 hint -> in_word 64 arena -> in_word 64 bytes ->
  mapped m info SIZEOF_INFO ->
  (forall p, arena <= p < arena + bytes -> p + hint < 2 ^ 64 -> is_Some (m !! (p + hint))) ->
  exists out' st,
    bbp_init_bounded m cand out info hint arena bytes = Some (out', st) /\
    (st <> BBP_OK -> out' = out) /\
    (st = BBP_OK -> exists off,
       out' = Some (Kctx info off 1 arena (arena + bytes)) /\
       (hint <> 0 -> off = hint) /\ in_word 64 off /\
       0 < arena /\ 0 < bytes /\ arena + bytes <= BBP_MAX_PHYS).
Proof.
  intros Hh Ha Hb Hinfo Hmap. unfold bbp_init_bounded.
  destruct out as [k0|]; [|by exists None, BBP_ERR_NULL].
  repeat match goal with
  | |- exists _ _, (if ?c then _ else _) = _ /\ _ =>
      destruct c eqn:?; [by do 2 eexists; split_and!|]
  end.
  bool_to_prop. set (k := Kctx info hint 1 arena (arena + bytes)).
  assert (WindowMapped m k) as Hwm.
  { split; [done| |]; unfold k, windowed; cbn; [kconsts; lia|]. exact Hmap. }
  destruct (mapped_load m info 144) as [bs Hbs]; [done|].
  destruct (bbp_init_win_spec m cand info hint arena (arena + bytes) bs) as (ts & Hw & -> & Hoff);
    [done..|].
  cbn [mbind option_bind]. do 2 eexists. split; [done|]. split.
  - intros Hst. by rewrite bool_decide_eq_false_2.
  - intros Hst. rewrite !bool_decide_eq_true_2 by done. eexists. split; [done|].
    split; [|kconsts; lia].
    intros Hne. unfold hhdm_choice. cbn [hhdm_offset].
    replace (hint =? 0) with false by lia. cbn [andb].
    repeat case_match; done.
Qed.

Lemma bounded_init_never_faults_witness :
  exists out' st,
    bbp_init_bounded Sample.memory Sample.blank (Some Sample.blank) 4096 0 8192 88 = Some (out', st).
Proof.
  destruct (bounded_init_never_faults Sample.memory Sample.blank (Some Sample.blank) 4096 0 8192 88)
    as (out' & st & H & _).
  - split; vm_compute; [discriminate|reflexivity].
  - split; vm_compute; [discriminate|reflexivity].
  - split; vm_compute; [discriminate|reflexivity].
  - exact Sample.info_mapped.
  - intros p Hp _. rewrite Z.add_0_r. apply Sample.tags_mapped. lia.
  - exists out', st. exact H.
Defined.

(** C5: with a mapped window, tag lookup never faults and never hangs, and
    returns exactly the first tag, in chain order, that carries the requested
    identifier and passes the checksum policy (NULL when there is none); the
    walk it follows has at most 1024 tags, each 8-aligned, of plausible size
    and entirely inside the window, even on a cyclic or corrupt chain. *)
Theorem find_tag_first_valid (m : mem) (k : bbp_kctx) (id : Z) :
  WindowMapped m k -> k_info k <> 0 -> mapped m (k_info k) SIZEOF_INFO ->
  exists ts,
    tag_walk m k = Some ts /\ (length ts <= 1024)%nat /\
    Forall (fun t => exists c size, framed m k c t size /\
              walk_lo k <= c /\ c + size <= walk_hi k) ts /\
    bbp_find_tag m (Some k) id =
    Some (default 0 (List.find (fun t => has_id m id t && accepted m k t) ts)).
Proof.
  intros Hwm Hi Hmi. destruct (tag_walk_total m k Hwm Hmi) as (ts & Hw & Hall).
  destruct (tag_walk_framed _ _ _ (wm_wf (m:=m)) Hw) as [Hfr Hlen].
  exists ts. split_and!; [done|done| |by apply bbp_find_tag_spec].
  eapply Forall_impl; [exact Hfr|]. intros t (c & size & Hf). exists c, size.
  split; [done|]. apply (fr_window _ _ _ _ _ Hf). apply (wm_window (m:=m)).
Qed.

Lemma find_tag_first_valid_witness :
  exists ts, tag_walk Sample.memory Sample.ctx = Some ts /\
    bbp_find_tag Sample.memory (Some Sample.ctx) BBP_TAG_KERNEL_ADDRESS = Some 8232.
Proof.
  destruct (find_tag_first_valid Sample.memory Sample.ctx BBP_TAG_KERNEL_ADDRESS)
    as (ts & Hw & _ & _ & Hf).
  - exact Sample.window.
  - vm_compute. discriminate.
  - exact Sample.info_mapped.
  - exists ts. split; [exact Hw|]. vm_compute. reflexivity.
Defined.

(** C6: a tag that was intact and is then damaged inside any window of up to
    eight bytes that leaves its size and checksum fields alone is never again
    returned by lookup, under any identifier. *)
Theorem damaged_tag_never_returned (m m' : mem) (k : bbp_kctx) (t size id : Z)
    (pre xs ys post : list byte) :
  kctx_wf k -> verify_tag_crc k <> 0 -> t <> 0 ->
  length xs = length ys -> (length xs <= 8)%nat ->
  (length pre + length xs <= 24 \/ 32 <= length pre)%nat ->
  bytes_at m t (pre ++ xs ++ post) -> sealed (pre ++ xs ++ post) 24 ->
  load32 m' (t + 8) = Some size -> Z.to_nat size = length (pre ++ ys ++ post) ->
  bytes_at m' t (pre ++ ys ++ post) -> xs <> ys ->
  bbp_find_tag m' (Some k) id <> Some t.
Proof.
  intros Hk Hv Ht Hlen H8 Hwin Hat Hseal Hsize Hn Hat' Hne Hf.
  apply bytes_at_load in Hat'. rewrite <- Hn in Hat'.
  destruct (find_tag_sealed _ _ _ _ _ _ Hk Hv Hf Ht Hsize Hat') as (_ & Hseal' & _).
  apply Hne. by apply (sealed_burst pre xs ys post 24).
Qed.

Lemma damaged_tag_never_returned_witness :
  bbp_find_tag (<[8224 := xff]> Sample.memory) (Some Sample.ctx) BBP_TAG_HHDM <> Some 8192.
Proof.
  apply (damaged_tag_never_returned Sample.memory (<[8224 := xff]> Sample.memory) Sample.ctx
           8192 40 BBP_TAG_HHDM (take 32 Sample.tags) [x00] [xff] (take 7 (drop 33 Sample.tags))).
  - split; vm_compute; [discriminate|reflexivity].
  - vm_compute. discriminate.
  - discriminate.
  - reflexivity.
  - simpl. lia.
  - right. vm_compute. lia.
  - apply (load_bytes_at _ _ 40). vm_compute. reflexivity.
  - vm_compute. reflexivity.
  - vm_compute. reflexivity.
  - vm_compute. reflexivity.
  - apply (load_bytes_at _ _ 40). vm_compute. reflexivity.
  - discriminate.
Defined.

(** ** Iteration and evidence *)

(** Iteration delivers exactly the accepted tags of the walk to the
    callback, in chain order and each once, stops when the callback asks to,
    and returns the number of deliveries, which is at most 1024. *)
Lemma for_each_delivers_accepted {U} (m : mem) (k : bbp_kctx)
    (cb : U -> Z -> option (U * Z)) (u : U) :
  WindowMapped m k -> k_info k <> 0 -> mapped m (k_info k) SIZEOF_INFO ->
  exists ts, tag_walk m k = Some ts /\ (length ts <= 1024)%nat /\
    bbp_for_each_tag m (Some k) (Some cb) u =
    deliver cb (List.filter (accepted m k) ts) u 0.
Proof.
  intros Hwm Hi Hmi. destruct (tag_walk_total m k Hwm Hmi) as (ts & Hw & Hall).
  destruct (tag_walk_framed _ _ _ (wm_wf (m:=m)) Hw) as [_ Hlen].
  exists ts. split_and!; [done|done|by apply bbp_for_each_tag_spec].
Qed.

(** C39: boot evidence feeds the hash with the canonical stream and nothing
    else: the 16 domain bytes, exactly the 144 bytes of INFO, then the exact
    bytes of every accepted tag in chain order; the result is the number of
    tags fed.  Equal handoffs therefore give equal digests, and rejected tags
    never enter the digest. *)
Theorem evidence_is_canonical_stream {S} (m : mem) (k : bbp_kctx)
    (update : S -> list byte -> S) (s : S) (info : list byte) :
  WindowMapped m k -> k_info k <> 0 ->
  load_bytes m (k_info k) (Z.to_nat SIZEOF_INFO) = Some info ->
  exists ts, tag_walk m k = Some ts /\
    bbp_evidence m (Some k) (Some update) s =
    Some (fold_left update
            (evidence_stream info (map (tag_image m) (List.filter (accepted m k) ts))) s,
          zlen (List.filter (accepted m k) ts)).
Proof.
  intros Hwm Hi Hinfo.
  assert (mapped m (k_info k) SIZEOF_INFO) as Hmi.
  { apply (load_mapped m (k_info k) 144 info). exact Hinfo. }
  destruct (tag_walk_total m k Hwm Hmi) as (ts & Hw & Hall).
  exists ts. split; [done|]. unfold bbp_evidence.
  replace (k_info k =? 0) with false by lia. rewrite Hinfo. cbn [mbind option_bind].
  rewrite (bbp_for_each_tag_spec _ _ _ _ ts) by done.
  rewrite deliver_evidence; [done|].
  apply List.Forall_forall. intros t Ht. apply filter_In in Ht as [Ht _].
  pose proof (walk_images m k ts Hwm Hw) as Himg. rewrite List.Forall_forall in Himg. by apply Himg.
Qed.

Lemma evidence_is_canonical_stream_witness :
  bbp_evidence Sample.memory (Some Sample.ctx) (Some (fun s d => s ++ d)) [] =
  Some (evidence_domain ++ Sample.info ++ Sample.tags, 2).
Proof.
  destruct (evidence_is_canonical_stream Sample.memory Sample.ctx
              (fun s d => s ++ d) [] Sample.info) as (ts & Hw & H).
  - exact Sample.window.
  - vm_compute. discriminate.
  - vm_compute. reflexivity.
  - rewrite H. vm_compute in Hw. injection Hw as <-. vm_compute. reflexivity.
Defined.

(** ** Initialisation, headers, blobs, arrays *)

(** The windowed initialiser returns, for every content of INFO, exactly
    the verdict of the byte-level specification, in the documented order
    (magic, major version, plausible size, checksum), and the offset it
    keeps is the caller's nonzero hint or, with hint 0, the one of the first
    acceptable complete HHDM tag. *)
Lemma init_win_verdict (m : mem) (k0 : bbp_kctx) (info hint lo hi : Z) (bs : list byte) :
  info <> 0 -> load_bytes m info 144 = Some bs ->
  WindowMapped m (Kctx info hint 1 lo hi) ->
  exists off, bbp_init_win m (Some k0) info hint lo hi =
    Some (Some (Kctx info off 1 lo hi), info_status bs) /\
    (hint <> 0 -> off = hint) /\
    (info_status bs = BBP_OK -> exists ts, tag_walk m (Kctx info hint 1 lo hi) = Some ts /\
       off = hhdm_choice m (Kctx info hint 1 lo hi) ts).
Proof.
  intros Hi Hld Hwm.
  destruct (bbp_init_win_spec m k0 info hint lo hi bs Hi Hld Hwm) as (ts & Hw & -> & _).
  eexists. split; [done|]. split.
  - intros Hne. case_bool_decide; [|done]. unfold hhdm_choice. cbn [hhdm_offset].
    replace (hint =? 0) with false by lia. cbn [andb]. by repeat case_match.
  - intros Hst. exists ts. split; [done|]. by rewrite bool_decide_eq_true_2.
Qed.

(** Header validation accepts a 160-byte kernel header exactly when its
    magic, major version, size and checksum are right, and otherwise reports
    the first of these that is wrong. *)
Lemma verify_header_verdict (m : mem) (hdr : Z) (bs : list byte) :
  hdr <> 0 -> load_bytes m hdr 160 = Some bs ->
  bbp_verify_header m hdr = Some (header_status bs) /\
  (header_status bs = BBP_OK <->
   take 16 bs = BBP_HEADER_MAGIC /\ field bs 16 2 = 1 /\ field bs 20 4 = 160 /\
   sealed bs 152).
Proof.
  intros Hh Hld. split; [exact (bbp_verify_header_spec m hdr bs Hh Hld)|].
  clear Hld Hh. unfold header_status. change SIZEOF_HEADER with 160.
  change BBP_VERSION_MAJOR with 1.
  destruct (decide (take 16 bs = BBP_HEADER_MAGIC)) as [Hm|Hm];
    [rewrite bool_decide_eq_true_2 by exact Hm|rewrite bool_decide_eq_false_2 by exact Hm; naive_solver].
  destruct (Z.eqb_spec (field bs 16 2) 1) as [H1|H1]; [|naive_solver].
  destruct (Z.eqb_spec (field bs 20 4) 160) as [H2|H2]; [|naive_solver].
  destruct (decide (sealed bs 152)) as [H3|H3];
    [rewrite bool_decide_eq_true_2 by exact H3|rewrite bool_decide_eq_false_2 by exact H3];
    naive_solver.
Qed.

Definition sample_header : list byte :=
  Eval vm_compute in
  seal_at (BBP_HEADER_MAGIC ++ le_encode 2 1 ++ le_encode 2 1 ++ le_encode 4 160 ++
                  replicate 136 x00) 152.

Lemma verify_header_verdict_witness :
  bbp_verify_header (mem_of 4096 sample_header) 4096 = Some BBP_OK.
Proof.
  destruct (verify_header_verdict (mem_of 4096 sample_header) 4096 sample_header)
    as [-> _].
  - discriminate.
  - vm_compute. reflexivity.
  - vm_compute. reflexivity.
Defined.

(** Blob verification succeeds exactly when the reference is non-null, at
    most 64 MiB, translatable without wrap-around below 2^48, and its bytes
    have the expected CRC; a zero expected CRC passes only on explicit
    opt-in. *)
Lemma verify_blob_verdict (m : mem) (k : bbp_kctx) (phys len crc allow : Z) (bs : list byte) :
  kctx_wf k -> in_word 64 phys -> in_word 64 len ->
  (bbp_address_region_ok k phys len = true ->
   load_bytes m (phys + hhdm_offset k) (Z.to_nat len) = Some bs) ->
  exists st, bbp_verify_blob m (Some k) phys len crc allow = Some st /\
    (st = BBP_OK <->
     0 < phys /\ 0 < len <= BBP_MAX_BLOB /\ phys + len <= BBP_MAX_PHYS /\
     phys + hhdm_offset k + len < 2 ^ 64 /\
     (if crc =? 0 then allow <> 0 else crc64_of bs = crc)).
Proof.
  intros Hk Hp Hl Hld. unfold bbp_verify_blob, kctx_wf in *.
  destruct ((phys =? 0) || (len =? 0)) eqn:Hnz.
  { eexists. split; [done|]. split; [done|]. kconsts. bool_to_prop. lia. }
  destruct (BBP_MAX_BLOB <? len) eqn:Hbig.
  { eexists. split; [done|]. split; [done|]. bool_to_prop. lia. }
  destruct (bbp_address_region_ok k phys len) eqn:Hreg.
  - pose proof Hreg as Hr.
    apply bbp_address_region_ok_spec in Hr as (? & ? & ? & ? & ?); [|kconsts; lia..].
    bool_to_prop. destruct (crc =? 0) eqn:Hcrc.
    + eexists. split; [done|]. destruct (Z.eqb_spec allow 0) as [->|]; cbn [negb];
        split; intros; repeat split; try lia; try done; tauto.
    + rewrite (phys_to_virt_ok _ _ len) by (done || kconsts; lia).
      rewrite bbp_crc64_spec, (Hld eq_refl). cbn [mbind option_bind].
      eexists. split; [done|]. destruct (Z.eqb_spec (crc64_of bs) crc);
        split; intros; repeat split; try lia; try done; tauto.
  - eexists. split; [done|]. split; [done|]. intros (? & ? & ? & ? & _).
    enough (bbp_address_region_ok k phys len = true) by congruence.
    apply bbp_address_region_ok_spec; kconsts; lia.
Qed.

Definition sample_blob_crc : Z := Eval vm_compute in crc64_of Sample.tags.

Lemma sample_blob_crc_eq : crc64_of Sample.tags = sample_blob_crc.
Proof. vm_compute. reflexivity. Qed.

Lemma verify_blob_verdict_witness :
  exists st, bbp_verify_blob Sample.memory (Some Sample.ctx) 8192 88 sample_blob_crc 0 = Some st /\
    st = BBP_OK.
Proof.
  destruct (verify_blob_verdict Sample.memory Sample.ctx 8192 88 sample_blob_crc 0
              Sample.tags) as (st & H & Hok).
  - split; vm_compute; [discriminate|reflexivity].
  - split; vm_compute; [discriminate|reflexivity].
  - split; vm_compute; [discriminate|reflexivity].
  - intros _. exact Sample.load_tags.
  - exists st. split; [exact H|]. apply Hok. rewrite sample_blob_crc_eq.
    split_and!; vm_compute; first [reflexivity | discriminate].
Defined.

(** The trailing-array accessor never promises more elements than fit in
    the tag's declared size, never more than the producer claimed, and clamps
    no further than necessary. *)
Lemma tag_array_in_bounds (m : mem) (tag fixed elem claimed size : Z) :
  load32 m (tag + 8) = Some size -> 0 <= fixed -> 0 <= elem -> in_word 32 claimed ->
  exists count,
    bbp_tag_array m tag fixed elem claimed = Some (bbp_tag_payload tag fixed, count) /\
    0 <= count <= claimed /\
    (0 < count -> fixed + count * elem <= size) /\
    (0 < elem -> fixed <= size -> count < claimed -> size < fixed + (count + 1) * elem).
Proof.
  intros Hsize Hf He Hc. pose proof (load32_word _ _ _ Hsize) as Hw.
  unfold bbp_tag_array, bbp_tag_payload.
  destruct (Z.eqb_spec elem 0) as [->|Hne]; cbn [negb mbind option_bind].
  { eexists. split; [done|]. kconsts. destruct (claimed <? 0) eqn:E; bool_to_prop; lia. }
  rewrite Hsize. cbn [mbind option_bind].
  destruct (fixed <? size) eqn:Hlt; cbn [mbind option_bind]; bool_to_prop.
  - set (n := (size - fixed) / elem).
    assert (0 <= n <= size - fixed) as Hn.
    { split; [apply Z.div_pos; lia|]. apply Z.div_le_upper_bound; nia. }
    pose proof (Z.mul_div_le (size - fixed) elem ltac:(lia)) as Hlo.
    pose proof (Z.mul_succ_div_gt (size - fixed) elem ltac:(lia)) as Hhi. fold n in Hlo, Hhi.
    kconsts. replace (2 ^ 32 - 1 <? n) with false by lia.
    rewrite (wrap_small 32) by (unfold in_word; lia).
    eexists. split; [done|]. destruct (claimed <? n) eqn:E; bool_to_prop;
      repeat split; intros; nia.
  - eexists. split; [done|]. kconsts. destruct (claimed <? 0) eqn:E; bool_to_prop;
      repeat split; intros; nia.
Qed.

Lemma tag_array_in_bounds_witness :
  exists count, bbp_tag_array Sample.memory 8232 32 8 1000 = Some (8264, count) /\ count <= 1000.
Proof.
  destruct (tag_array_in_bounds Sample.memory 8232 32 8 1000 48) as (count & H & Hc & _).
  - vm_compute. reflexivity.
  - lia.
  - lia.
  - split; vm_compute; [discriminate|reflexivity].
  - exists count. split; [exact H|lia].
Defined.

(** The value [bbp_crc_skip] returns for a length that cannot hold the checksum
    is also the checksum of some bytes. *)
Lemma all_ones_is_a_crc :
  crc64_of (replicate 8 xff) = UINT64_MAX /\
  forall m base off, bbp_crc_skip m base (off + 7) off = Some (crc64_of (replicate 8 xff)).
Proof.
  split; [vm_compute; reflexivity|]. intros m base off. unfold bbp_crc_skip.
  replace (off + 7 <? off + 8) with true by lia. vm_compute. reflexivity.
Qed.
