(* ===== verification/Builder.v ===== *)
(** * The producer-side tag builder (bootloader/bbp_build.c, bbp_build.h)

    An arena in memory from which tags, strings and blobs are bump-allocated;
    [bbp_builder_finalize] seals every tag and the INFO structure.  The state
    is the builder record plus the memory; every operation returns both, and
    [None] is a fault (a load or store outside the mapped memory, or, for the
    sealing loop, a chain longer than the fuel it is given). *)

From S2P Require Import Prelude Memory Crc64 Abi.

Record bbp_builder := Builder {
  arena : Z;        (** virtual base of the scratch memory, 0 for NULL *)
  arena_phys : Z;
  capacity : Z;
  used : Z;
  last : Z;         (** last appended tag, 0 for NULL *)
  first_phys : Z;
  tag_count : Z;
  overflow : Z;
}.

Definition BBP_BUILDER_MAX_TAG : Z := 16 * 1024 * 1024.
Definition BBP_BUILDER_MAX_INFO : Z := 64 * 1024 * 1024.
Definition BBP_BUILDER_MAX_PHYS : Z := Z.shiftl 1 48.
Definition BBP_BUILDER_MAX_TAGS : Z := 1024.
Definition BBP_BUILDER_SIZE_MAX : Z := SIZE_MAX.
Definition BBP_BUILDER_U32_MAX : Z := UINT32_MAX.

Definition set_overflow (b : bbp_builder) : bbp_builder :=
  Builder (arena b) (arena_phys b) (capacity b) (used b) (last b) (first_phys b)
    (tag_count b) 1.
Definition set_used (b : bbp_builder) (u : Z) : bbp_builder :=
  Builder (arena b) (arena_phys b) (capacity b) u (last b) (first_phys b)
    (tag_count b) (overflow b).

(** The builder's own checksum helper: no guard on [len], so [len - off - 8]
    is taken at 64 bits. *)
Definition bbp_crc_skip (m : mem) (base len off : Z) : option Z :=
  c ← bbp_crc64_update m bbp_crc64_init base (Z.to_nat off);
  let c := crc64_list c (replicate 8 x00) in
  c ← bbp_crc64_update m c (base + off + 8) (Z.to_nat (wrap64 (len - off - 8)));
  Some (bbp_crc64_final c).

Definition bbp_builder_init (m : mem) (b : option bbp_builder) (arena_p phys cap : Z)
    : option (mem * option bbp_builder) :=
  match b with
  | None => Some (m, None)
  | Some _ =>
      let b := Builder arena_p phys cap 0 0 0 0 0 in
      '(m, b) ← (if negb (arena_p =? 0) then
                   m ← mem_zero m arena_p (Z.to_nat cap); Some (m, b)
                 else Some (m, if negb (cap =? 0) then set_overflow b else b));
      let bad := negb (arena_p =? 0)
                 && ((phys =? 0) || negb (Z.land phys 7 =? 0)
                     || (BBP_BUILDER_MAX_PHYS <=? phys)) in
      Some (m, Some (if bad then set_overflow b else b))
  end.

(** [Some (p, phys)] is a non-NULL result with its physical address. *)
Definition arena_bump (b : bbp_builder) (len : Z) : bbp_builder * option (Z * Z) :=
  reject (arena b =? 0) || negb (overflow b =? 0) || (BBP_BUILDER_SIZE_MAX - 7 <? used b)
    with (set_overflow b, None);
  let start := align8_up (used b) in
  reject (capacity b <? start) || (capacity b - start <? len) with (set_overflow b, None);
  reject (BBP_BUILDER_MAX_PHYS <? arena_phys b)
         || (BBP_BUILDER_MAX_PHYS - arena_phys b <? start) with (set_overflow b, None);
  let phys := arena_phys b + start in
  reject BBP_BUILDER_MAX_PHYS - phys <? len with (set_overflow b, None);
  (set_used b (start + len), Some (arena b + start, phys)).

(** Returns the memory, the builder and the tag pointer (0 for NULL). *)
Definition bbp_alloc_tag (m : mem) (b : option bbp_builder)
    (tag_id tag_version total_size : Z) : option (mem * option bbp_builder * Z) :=
  match b with
  | None => Some (m, None, 0)
  | Some b =>
      reject (total_size <? SIZEOF_TAG_HEADER) || (BBP_BUILDER_MAX_TAG <? total_size)
             || (BBP_BUILDER_U32_MAX <? total_size) || (BBP_BUILDER_MAX_TAGS <=? tag_count b)
        with Some (m, Some (set_overflow b), 0);
      match arena_bump b total_size with
      | (b, None) => Some (m, Some b, 0)
      | (b, Some (tag, phys)) =>
          m ← store64 m tag tag_id;
          m ← store32 m (tag + 8) (wrap32 total_size);
          m ← store16 m (tag + 12) tag_version;
          m ← store16 m (tag + 14) BBP_TF_NONE;
          m ← store64 m (tag + 16) 0;
          m ← store64 m (tag + 24) 0;
          '(m, first) ← (if negb (last b =? 0) then
                           m ← store64 m (last b + 16) phys; Some (m, first_phys b)
                         else Some (m, phys));
          Some (m, Some (Builder (arena b) (arena_phys b) (capacity b) (used b) tag first
                           (wrap32 (tag_count b + 1)) (overflow b)), tag)
      end
  end.

Definition bbp_seal_tag (m : mem) (tag : Z) : option mem :=
  size ← load32 m (tag + 8);
  c ← bbp_crc_skip m tag size 24;
  store64 m (tag + 24) c.

Definition builder_phys_to_virt (b : bbp_builder) (p : Z) : Z :=
  arena b + wrap64 (p - arena_phys b).

(** [while (len < source_bytes && s[len]) len++;] with [fuel] bounding the
    iterations: [strdup_fuel] exceeds the number of mapped bytes, hence the
    number of iterations before the loop stops or faults. *)
Fixpoint scan_nul (m : mem) (s source_bytes len : Z) (fuel : nat) : option Z :=
  match fuel with
  | O => None
  | S fuel =>
      check len <? source_bytes else Some len;
      c ← m !! (s + len);
      reject byte_Z c =? 0 with Some len;
      scan_nul m s source_bytes (len + 1) fuel
  end.
Definition strdup_fuel (m : mem) : nat := S (S (size m)).

(** Returns the memory, the builder, the physical address and [*out_len]. *)
Definition bbp_arena_strdup_n (m : mem) (b : option bbp_builder) (s source_bytes : Z)
    : option (mem * option bbp_builder * Z * Z) :=
  match b with
  | None => Some (m, None, 0, 0)
  | Some b =>
      reject (s =? 0) || (source_bytes =? 0) with Some (m, Some (set_overflow b), 0, 0);
      len ← scan_nul m s source_bytes 0 (strdup_fuel m);
      reject (len =? source_bytes) || (BBP_BUILDER_U32_MAX <? len)
        with Some (m, Some (set_overflow b), 0, 0);
      match arena_bump b (len + 1) with
      | (b, None) => Some (m, Some b, 0, 0)
      | (b, Some (p, phys)) =>
          m ← mem_copy m p s (Z.to_nat len);
          m ← store8 m (p + len) x00;
          Some (m, Some b, phys, wrap32 len)
      end
  end.

Definition bbp_arena_strdup (m : mem) (b : option bbp_builder) (s : Z) :=
  bbp_arena_strdup_n m b s BBP_BUILDER_SIZE_MAX.

Definition bbp_arena_blob (m : mem) (b : option bbp_builder) (data len : Z)
    : option (mem * option bbp_builder * Z) :=
  match b with
  | None => Some (m, None, 0)
  | Some b =>
      reject (data =? 0) && negb (len =? 0) with Some (m, Some (set_overflow b), 0);
      reject len =? 0 with Some (m, Some b, 0);
      match arena_bump b len with
      | (b, None) => Some (m, Some b, 0)
      | (b, Some (p, phys)) =>
          m ← mem_copy m p data (Z.to_nat len);
          Some (m, Some b, phys)
      end
  end.

(** [while (cur) { seal; cur = h->next_tag; }] *)
Fixpoint seal_chain (m : mem) (b : bbp_builder) (cur : Z) (fuel : nat) {struct fuel}
    : option mem :=
  match fuel with
  | O => None
  | S fuel =>
      reject cur =? 0 with Some m;
      let h := builder_phys_to_virt b cur in
      m ← bbp_seal_tag m h;
      next ← load64 m (h + 16);
      seal_chain m b next fuel
  end.

Definition seal_info (m : mem) (b : bbp_builder) (info : Z) : option mem :=
  m ← store16 m (info + 16) BBP_VERSION_MAJOR;
  m ← store16 m (info + 18) BBP_VERSION_MINOR;
  m ← mem_zero m info 16;
  m ← store_bytes m info (take 9 BBP_INFO_MAGIC);
  m ← store32 m (info + 116) (tag_count b);
  m ← store64 m (info + 120) (first_phys b);
  m ← store32 m (info + 20) (wrap32 (SIZEOF_INFO + used b));
  m ← store64 m (info + 136) 0;
  c ← bbp_crc_skip m info SIZEOF_INFO 136;
  store64 m (info + 136) c.

Definition bbp_builder_finalize (m : mem) (b : option bbp_builder) (info info_phys : Z)
    (fuel : nat) : option (mem * option bbp_builder * Z) :=
  match b with
  | None => Some (m, None, 0)
  | Some b =>
      reject info =? 0 with Some (m, Some b, 0);
      reject negb (overflow b =? 0) || (BBP_BUILDER_MAX_TAGS <? tag_count b)
             || (capacity b <? used b)
             || (BBP_BUILDER_MAX_INFO - SIZEOF_INFO <? used b)
        with Some (m, Some (set_overflow b), 0);
      m ← seal_chain m b (first_phys b) fuel;
      m ← seal_info m b info;
      Some (m, Some b, info_phys)
  end.

Definition bbp_header_crc (m : mem) (hdr : Z) : option Z :=
  bbp_crc_skip m hdr SIZEOF_HEADER 152.
