(* ===== verification/BuilderFacts.v ===== *)
(** * Facts about the tag builder

    The representation invariant [builder_rep] (which tags the arena holds and
    how they are chained), its preservation by every operation, and the effect
    of finalization: every tag sealed, the INFO structure valid, everything
    else untouched. *)

From S2P Require Import Prelude Memory Crc64 Abi Builder.

Ltac bconsts :=
  unfold BBP_BUILDER_MAX_TAG, BBP_BUILDER_MAX_INFO, BBP_BUILDER_MAX_PHYS,
    BBP_BUILDER_MAX_TAGS, BBP_BUILDER_SIZE_MAX, BBP_BUILDER_U32_MAX, SIZE_MAX,
    UINT32_MAX, SIZEOF_TAG_HEADER, SIZEOF_INFO, in_word in *;
  change (Z.shiftl 1 48) with (2 ^ 48) in *.

(** ** The abstract contents of an arena *)

Record tagrec := Tag { t_off : Z; t_id : Z; t_ver : Z; t_size : Z }.

(** Tags are 8-aligned, of legal size, in increasing disjoint positions. *)
Fixpoint tags_ok (lo hi : Z) (ts : list tagrec) : Prop :=
  match ts with
  | [] => lo <= hi
  | t :: ts =>
      lo <= t_off t /\ t_off t mod 8 = 0 /\ 32 <= t_size t <= 2 ^ 24 /\
      in_word 64 (t_id t) /\ in_word 16 (t_ver t) /\ tags_ok (t_off t + t_size t) hi ts
  end.

Definition next_phys (b : bbp_builder) (ts : list tagrec) : Z :=
  match ts with [] => 0 | t :: _ => arena_phys b + t_off t end.

(** The first 24 bytes of a tag: everything but the checksum. *)
Definition hdr_bytes (t : tagrec) (next : Z) : list byte :=
  le_encode 8 (t_id t) ++ le_encode 4 (t_size t) ++ le_encode 2 (t_ver t) ++
  le_encode 2 0 ++ le_encode 8 next.

Fixpoint linked (m : mem) (b : bbp_builder) (ts : list tagrec) : Prop :=
  match ts with
  | [] => True
  | t :: ts => bytes_at m (arena b + t_off t) (hdr_bytes t (next_phys b ts)) /\ linked m b ts
  end.

Definition last_ptr (b : bbp_builder) (ts : list tagrec) : Z :=
  match list.last ts with None => 0 | Some t => arena b + t_off t end.

Record builder_rep (m : mem) (b : bbp_builder) (ts : list tagrec) : Prop := Rep {
  br_arena : 0 < arena b /\ arena b + capacity b <= 2 ^ 64;
  br_phys : 0 < arena_phys b < 2 ^ 48 /\ arena_phys b mod 8 = 0;
  br_used : 0 <= used b <= capacity b /\ arena_phys b + used b <= 2 ^ 48;
  br_mapped : mapped m (arena b) (capacity b);
  br_ok : overflow b = 0;
  br_count : tag_count b = zlen ts /\ tag_count b <= 1024;
  br_tags : tags_ok 0 (used b) ts;
  br_linked : linked m b ts;
  br_first : first_phys b = next_phys b ts;
  br_last : last b = last_ptr b ts;
}.

(** ** Lists of tags *)

Lemma zlen_hdr_bytes t n : zlen (hdr_bytes t n) = 24.
Proof. unfold zlen, hdr_bytes. by rewrite !length_app, !length_le_encode. Qed.

Lemma tags_ok_le lo hi ts : tags_ok lo hi ts -> lo <= hi.
Proof.
  revert lo. induction ts as [|t ts IH]; intros lo H; cbn [tags_ok] in H; [done|].
  destruct H as (? & ? & ? & ? & ? & H). apply IH in H. lia.
Qed.

Lemma tags_ok_weaken lo lo' hi hi' ts :
  lo' <= lo -> hi <= hi' -> tags_ok lo hi ts -> tags_ok lo' hi' ts.
Proof.
  revert lo lo'. induction ts as [|t ts IH]; intros lo lo' H1 H2; cbn [tags_ok]; [lia|].
  intros (? & ? & ? & ? & ? & H). split_and!; try done; try lia.
  by eapply IH; [|done|done].
Qed.

Lemma tags_ok_snoc lo hi hi' ts t :
  tags_ok lo hi ts -> hi <= t_off t -> t_off t mod 8 = 0 -> 32 <= t_size t <= 2 ^ 24 ->
  in_word 64 (t_id t) -> in_word 16 (t_ver t) -> t_off t + t_size t <= hi' ->
  tags_ok lo hi' (ts ++ [t]).
Proof.
  revert lo. induction ts as [|u ts IH]; intros lo H; intros; cbn [tags_ok app] in *.
  - split_and!; try done; lia.
  - destruct H as (? & ? & ? & ? & ? & H). split_and!; try done; try lia. by apply IH.
Qed.

Lemma tags_ok_in lo hi ts t :
  tags_ok lo hi ts -> In t ts ->
  lo <= t_off t /\ t_off t + t_size t <= hi /\ t_off t mod 8 = 0 /\ 32 <= t_size t <= 2 ^ 24 /\
  in_word 64 (t_id t) /\ in_word 16 (t_ver t).
Proof.
  revert lo. induction ts as [|u ts IH]; intros lo H Hin; cbn [tags_ok] in H; [done|].
  destruct H as (? & ? & ? & ? & ? & H). destruct Hin as [->|Hin].
  - pose proof (tags_ok_le _ _ _ H). split_and!; (done || lia).
  - destruct (IH _ H Hin) as (? & ? & ? & ? & ? & ?). split_and!; (done || lia).
Qed.

(** Two tags of an arena are the same or apart. *)
Lemma tags_ok_apart lo hi ts t u :
  tags_ok lo hi ts -> In t ts -> In u ts ->
  t = u \/ t_off t + t_size t <= t_off u \/ t_off u + t_size u <= t_off t.
Proof.
  revert lo. induction ts as [|v ts IH]; intros lo Hok Hin Hu; [done|]. cbn [tags_ok] in Hok.
  destruct Hok as (? & ? & ? & ? & ? & Hok).
  destruct Hin as [->|Hin], Hu as [->|Hu]; [by left|..|by eapply IH].
  - destruct (tags_ok_in _ _ _ _ Hok Hu). lia.
  - destruct (tags_ok_in _ _ _ _ Hok Hin). lia.
Qed.

(** ** Framing of chains *)

(** A chain depends only on the first 24 bytes of its tags. *)
Lemma linked_frame m m' b lo hi ts :
  tags_ok lo hi ts -> linked m b ts ->
  (forall t, In t ts -> same_on m m' (arena b + t_off t) 24) ->
  linked m' b ts.
Proof.
  revert lo. induction ts as [|t ts IH]; intros lo Hok Hl Hs; [done|].
  cbn [tags_ok linked] in *. destruct Hok as (? & ? & ? & ? & ? & Hok), Hl as [Hh Hl].
  split.
  - eapply bytes_at_same_on; [|done]. rewrite zlen_hdr_bytes. apply Hs. by left.
  - eapply IH; [done|done|]. intros u Hu. apply Hs. by right.
Qed.

Lemma linked_same_on m m' b lo hi ts :
  tags_ok lo hi ts -> linked m b ts -> same_on m m' (arena b + lo) (hi - lo) -> linked m' b ts.
Proof.
  intros Hok Hl Hs. eapply linked_frame; [done|done|]. intros t Hin.
  destruct (tags_ok_in _ _ _ _ Hok Hin) as (? & ? & ? & ? & ? & ?).
  eapply same_on_sub; [done|lia|lia].
Qed.

(** A chain is about the arena and its physical base only. *)
Lemma linked_builder m b b' ts :
  arena b' = arena b -> arena_phys b' = arena_phys b -> linked m b ts -> linked m b' ts.
Proof.
  intros Ha Hp. induction ts as [|t ts IH]; [done|]. cbn [linked]. intros [Hh Hl].
  rewrite Ha. split; [|by apply IH].
  assert (next_phys b' ts = next_phys b ts) as -> by (destruct ts; cbn; congruence). done.
Qed.

(** Appending a freshly written tag and patching the previous tag's link. *)
Lemma linked_snoc m m' b lo hi ts t u :
  tags_ok lo hi (ts ++ [u]) -> hi <= t_off t -> in_word 64 (arena_phys b + t_off t) ->
  linked m b (ts ++ [u]) -> bytes_at m (arena b + t_off t) (hdr_bytes t 0) ->
  store64 m (arena b + t_off u + 16) (arena_phys b + t_off t) = Some m' ->
  linked m' b (ts ++ [u] ++ [t]).
Proof.
  intros Hok Hhi Hw Hl Ht Hst.
  assert (forall a bs, bytes_at m a bs ->
    a + zlen bs <= arena b + t_off u + 16 \/ arena b + t_off u + 24 <= a ->
    bytes_at m' a bs) as Hframe.
  { intros a bs Hat Hd. apply (bytes_at_store _ _ _ _ _ _ Hst); [|done].
    unfold zlen at 2. rewrite length_le_encode. lia. }
  revert lo Hok Hl. induction ts as [|v ts IH]; intros lo Hok Hl; cbn [app tags_ok linked] in *.
  - destruct Hok as (? & ? & ? & ? & ? & Hle), Hl as [Hu _]. cbn [next_phys] in *.
    split_and!; [|apply Hframe; [done|lia]|done].
    unfold hdr_bytes in *. rewrite !app_assoc in *. apply bytes_at_app in Hu as [Hu _].
    apply bytes_at_app. split.
    + apply Hframe; [done|]. unfold zlen. rewrite !length_app, !length_le_encode. lia.
    + apply store_bytes_at in Hst. unfold zlen. rewrite !length_app, !length_le_encode.
      exact Hst.
  - destruct Hok as (? & ? & ? & ? & ? & Hok), Hl as [Hv Hl]. split.
    + assert (next_phys b (ts ++ [u; t]) = next_phys b (ts ++ [u])) as ->
        by (destruct ts; done).
      apply Hframe; [done|]. rewrite zlen_hdr_bytes.
      assert (In u (ts ++ [u])) as Hin by (apply in_or_app; right; by left).
      destruct (tags_ok_in _ _ _ _ Hok Hin). lia.
    + eapply IH; done.
Qed.

(** The six header stores of [bbp_alloc_tag] as one. *)
Lemma store_header {A} m tag t (K : mem -> option A) :
  (m ← store64 m tag (t_id t);
   m ← store32 m (tag + 8) (t_size t);
   m ← store16 m (tag + 12) (t_ver t);
   m ← store16 m (tag + 14) BBP_TF_NONE;
   m ← store64 m (tag + 16) 0;
   m ← store64 m (tag + 24) 0;
   K m) =
  (m ← store_bytes m tag (hdr_bytes t 0 ++ le_encode 8 0); K m).
Proof.
  unfold hdr_bytes, store64, store32, store16, BBP_TF_NONE. rewrite <- !app_assoc.
  assert (forall n v, zlen (le_encode n v) = Z.of_nat n) as Hz
    by (intros; unfold zlen; by rewrite length_le_encode).
  rewrite (store_bytes_bind_app _ _ _ _ (tag + 8)) by (rewrite Hz; lia).
  destruct (store_bytes m tag _) as [m1|]; cbn [mbind option_bind]; [|done].
  rewrite (store_bytes_bind_app _ _ _ _ (tag + 12)) by (rewrite Hz; lia).
  destruct (store_bytes m1 _ _) as [m2|]; cbn [mbind option_bind]; [|done].
  rewrite (store_bytes_bind_app _ _ _ _ (tag + 14)) by (rewrite Hz; lia).
  destruct (store_bytes m2 _ _) as [m3|]; cbn [mbind option_bind]; [|done].
  rewrite (store_bytes_bind_app _ _ _ _ (tag + 16)) by (rewrite Hz; lia).
  destruct (store_bytes m3 _ _) as [m4|]; cbn [mbind option_bind]; [|done].
  by rewrite (store_bytes_bind_app _ _ _ _ (tag + 24)) by (rewrite Hz; lia).
Qed.

(** ** The bump allocator *)

(** Every outcome of [arena_bump] on a sound builder. *)
Lemma arena_bump_spec m b ts len b' r :
  builder_rep m b ts -> 0 <= len -> arena_bump b len = (b', r) ->
  match r with
  | None => b' = set_overflow b
  | Some (p, phys) =>
      let start := round_up 8 (used b) in
      p = arena b + start /\ phys = arena_phys b + start /\ start mod 8 = 0 /\
      used b <= start /\ start + len <= capacity b /\
      arena_phys b + start + len <= 2 ^ 48 /\ b' = set_used b (start + len)
  end.
Proof.
  intros Hrep Hlen H. destruct Hrep as [[? ?] [? ?] [? ?] _ Hov _ _ _ _ _].
  unfold arena_bump in H.
  destruct (_ || _ || _) eqn:Hg in H; [by simplify_eq|]. bool_to_prop.
  rewrite align8_up_eq in H by (bconsts; lia).
  pose proof (round_up_bounds 8 (used b) ltac:(lia)).
  pose proof (round_up_mod 8 (used b) ltac:(lia)).
  repeat match type of H with
  | (if ?c then _ else _) = _ => destruct c eqn:?; [by simplify_eq|]
  end.
  bool_to_prop. simplify_eq. bconsts. split_and!; (done || lia).
Qed.

(** Growing the used part over fresh bytes keeps the representation, as long
    as the bytes below the old end are left alone. *)
Lemma rep_grow m m' b ts u :
  builder_rep m b ts -> used b <= u <= capacity b -> arena_phys b + u <= 2 ^ 48 ->
  same_dom m m' -> same_on m m' (arena b) (used b) ->
  builder_rep m' (set_used b u) ts.
Proof.
  intros [? ? ? Hm ? ? Htags Hl ? ?] Hu Hp Hd Hs. split; cbn; try done; try lia.
  - by rewrite <- Hd.
  - eapply tags_ok_weaken; [| |done]; lia.
  - apply (linked_builder m' b); [done|done|].
    eapply linked_same_on; [done|done|]. by rewrite Z.add_0_r, Z.sub_0_r.
Qed.

Lemma last_ptr_snoc b ts t : last_ptr b (ts ++ [t]) = arena b + t_off t.
Proof. unfold last_ptr. by rewrite last_snoc. Qed.

(** ** Appending a tag *)

Lemma bbp_alloc_tag_spec m b ts id ver size m' b' p :
  builder_rep m b ts -> in_word 64 id -> in_word 16 ver -> 0 <= size ->
  bbp_alloc_tag m (Some b) id ver size = Some (m', Some b', p) ->
  (p = 0 /\ m' = m /\ b' = set_overflow b) \/
  (let t := Tag (round_up 8 (used b)) id ver size in
   p = arena b + t_off t /\ builder_rep m' b' (ts ++ [t]) /\
   arena b' = arena b /\ arena_phys b' = arena_phys b /\ capacity b' = capacity b /\
   used b' = t_off t + size /\
   same_dom m m' /\
   (forall x, ~ (p <= x < p + 32) -> (last b <> 0 -> ~ (last b + 16 <= x < last b + 24)) -> m' !! x = m !! x)).
Proof.
  intros Hrep Hid Hver Hsz H. unfold bbp_alloc_tag in H.
  destruct (_ || _ || _ || _) eqn:Hg in H; [left; by simplify_eq|].
  destruct (arena_bump b size) as [b1 r] eqn:Hb.
  pose proof (arena_bump_spec _ _ _ _ _ _ Hrep Hsz Hb) as Hr.
  destruct r as [[q phys]|]; [|left; by simplify_eq].
  right. cbn zeta in *. set (t := Tag (round_up 8 (used b)) id ver size).
  destruct Hr as (-> & -> & Hal & Hst & Hcap & Hph & ->).
  change (round_up 8 (used b)) with (t_off t) in Hal, Hst, Hcap, Hph, H |- *.
  pose proof Hrep as [[? ?] [? ?] [? ?] Hm Hov [Hcnt Hcnt'] Htags Hl Hfirst Hlast].
  assert (in_word 64 (arena_phys b + t_off t)) as Hpw by (bconsts; lia).
  bool_to_prop. rewrite (wrap_small 32 size) in H by (bconsts; lia).
  rewrite (store_header m (arena b + t_off t) t) in H.
  apply bind_Some in H as (m1 & Hm1 & H). cbn [last first_phys set_used] in H.
  assert (zlen (hdr_bytes t 0 ++ le_encode 8 0) = 32) as Hz by done.
  assert (bytes_at m1 (arena b + t_off t) (hdr_bytes t 0)) as Hhdr.
  { apply store_bytes_at, bytes_at_app in Hm1 as [? _]. done. }
  assert (same_on m m1 (arena b) (used b)) as Hs1.
  { eapply store_bytes_same_on; [done|]. apply disjoint_range_intro. lia. }
  pose proof (store_bytes_same_dom _ _ _ _ Hm1) as Hd1.
  assert (builder_rep m1 (set_used b (t_off t + size)) ts) as Hrep1.
  { eapply rep_grow; [done|lia|lia|done|done]. }
  assert (tags_ok 0 (t_off t + size) (ts ++ [t])) as Htags'.
  { eapply tags_ok_snoc; [exact Htags|exact Hst|exact Hal| |exact Hid|exact Hver|];
      change (t_size t) with size; bconsts; lia. }
  clearbody t.
  assert (wrap32 (tag_count b + 1) = zlen (ts ++ [t])) as Hcw.
  { rewrite wrap_small by (unfold zlen in *; bconsts; lia). unfold zlen in *. rewrite length_app. cbn. lia. }
  assert (zlen (ts ++ [t]) <= 1024) as Hlen1024.
  { rewrite <- Hcw, wrap_small by (unfold zlen in *; bconsts; lia). bconsts. lia. }
  assert (mapped m1 (arena b) (capacity b)) as Hm1' by (by rewrite <- Hd1).
  destruct (decide (ts = [])) as [->|Hne].
  - rewrite Hlast in H. cbn in H. injection H as <- <- <-.
    split_and!; try done.
    + split; cbn [arena arena_phys capacity used last first_phys tag_count overflow app set_used];
        rewrite ?Hcw; try done; try lia.
    + intros x Hx _. rewrite (store_bytes_lookup _ _ _ _ _ Hm1), Hz.
      by rewrite decide_False.
  - destruct (exists_last Hne) as (ts0 & u & ->). rewrite last_ptr_snoc in Hlast.
    assert (In u (ts0 ++ [u])) as Hin by (apply in_or_app; right; by left).
    destruct (tags_ok_in _ _ _ _ Htags Hin) as (? & ? & ? & ? & ? & ?).
    rewrite Hlast in H. replace (arena b + t_off u =? 0) with false in H by lia.
    cbn [negb] in H. apply bind_Some in H as ([m2 f] & Hm2 & H).
    apply bind_Some in Hm2 as (m2' & Hm2 & [= -> <-]). injection H as <- <- <-.
    pose proof (store_bytes_same_dom _ _ _ _ Hm2) as Hd2.
    assert (mapped m2 (arena b) (capacity b)) as Hm2' by (by rewrite <- Hd2).
    split_and!; try done.
    + split; cbn [arena arena_phys capacity used last first_phys tag_count overflow set_used];
        rewrite ?Hcw, ?last_ptr_snoc; try done; try lia.
      * rewrite <- app_assoc. eapply (linked_builder m2 b); [done|done|].
        destruct Hrep1 as [_ _ _ _ _ _ _ Hl1 _ _].
        eapply linked_snoc; [exact Htags|done|done| |exact Hhdr|exact Hm2].
        by apply (linked_builder m1 (set_used b (t_off t + size))).
      * rewrite Hfirst. by destruct ts0.
    + by etrans.
    + intros x Hx Hx'. specialize (Hx' ltac:(lia)). rewrite (store_bytes_lookup _ _ _ _ _ Hm2).
      rewrite decide_False by (unfold zlen; rewrite length_le_encode; lia).
      rewrite (store_bytes_lookup _ _ _ _ _ Hm1), Hz. by rewrite decide_False.
Qed.

(** ** Strings and blobs *)

Lemma bbp_arena_blob_spec m b ts data len m' b' phys :
  builder_rep m b ts -> 0 <= len ->
  bbp_arena_blob m (Some b) data len = Some (m', Some b', phys) ->
  (phys = 0 /\ m' = m /\ (b' = b \/ b' = set_overflow b)) \/
  (builder_rep m' b' ts /\ phys = arena_phys b + round_up 8 (used b) /\
   b' = set_used b (round_up 8 (used b) + len) /\ same_dom m m' /\
   (forall x, ~ (arena b + round_up 8 (used b) <= x < arena b + used b') -> m' !! x = m !! x)).
Proof.
  intros Hrep Hlen H. unfold bbp_arena_blob in H.
  destruct (_ && _) in H; [left; simplify_eq; tauto|].
  destruct (len =? 0) eqn:E; [left; simplify_eq; tauto|]. bool_to_prop.
  destruct (arena_bump b len) as [b1 r] eqn:Hb.
  pose proof (arena_bump_spec _ _ _ _ _ _ Hrep Hlen Hb) as Hr.
  destruct r as [[q ph]|]; [|left; simplify_eq; tauto]. right.
  destruct Hr as (-> & -> & Hal & Hst & Hcap & Hph & ->).
  apply bind_Some in H as (m1 & Hm1 & [= <- <- <-]).
  pose proof (mem_copy_same_dom _ _ _ _ _ Hm1) as Hd.
  assert (forall x, ~ (arena b + round_up 8 (used b) <= x <
                       arena b + (round_up 8 (used b) + len)) -> m1 !! x = m !! x) as Hfr.
  { intros x Hx. apply (mem_copy_frame _ _ _ _ _ _ Hm1). lia. }
  split_and!; try done.
  eapply rep_grow; [done|lia|lia|done|]. intros x Hx. apply Hfr. lia.
Qed.

Lemma scan_nul_range m s n len fuel r :
  0 <= len <= n -> scan_nul m s n len fuel = Some r -> len <= r <= n.
Proof.
  revert len. induction fuel as [|fuel IH]; intros len Hl H; cbn [scan_nul] in H; [done|].
  destruct (len <? n) eqn:E; bool_to_prop; [|simplify_eq; lia].
  apply bind_Some in H as (c & Hc & H). destruct (byte_Z c =? 0); [simplify_eq; lia|].
  apply IH in H; lia.
Qed.

(** The scan of a NUL-terminated string finds its terminator; the fuel, one
    more than the number of mapped bytes, always suffices. *)
Lemma scan_nul_string m s n cs :
  bytes_at m s (cs ++ [x00]) -> ~ In x00 cs -> zlen cs < n ->
  scan_nul m s n 0 (strdup_fuel m) = Some (zlen cs).
Proof.
  intros Hat Hnz Hn.
  assert (zlen cs <= Z.of_nat (size m)) as Hsize.
  { assert (list_to_set (C := gset Z) (seqZ s (zlen cs)) ⊆ dom m) as Hsub.
    { intros x Hx. apply elem_of_list_to_set, elem_of_seqZ in Hx. apply elem_of_dom.
      apply bytes_at_mapped in Hat. apply Hat. unfold zlen in *. rewrite length_app. lia. }
    apply subseteq_size in Hsub. rewrite size_list_to_set in Hsub by apply NoDup_seqZ.
    rewrite length_seqZ in Hsub. rewrite size_dom in Hsub. lia. }
  assert (forall k fuel, (k <= length cs)%nat -> (length cs - k < fuel)%nat ->
    scan_nul m s n (Z.of_nat k) fuel = Some (zlen cs)) as Hgen.
  { intros k fuel. revert k. induction fuel as [|fuel IH]; intros k Hk Hf; [lia|].
    cbn [scan_nul]. unfold zlen in Hn. replace (Z.of_nat k <? n) with true by lia.
    destruct (decide (k = length cs)) as [->|Hne].
    - rewrite (Hat (length cs) x00) by (by rewrite lookup_app_r, Nat.sub_diag). done.
    - destruct (lookup_lt_is_Some_2 cs k ltac:(lia)) as [c Hc].
      rewrite (Hat k c) by (by rewrite lookup_app_l by lia). cbn [mbind option_bind].
      assert (c <> x00) as Hcz.
      { intros ->. apply Hnz. apply list_elem_of_In. by eapply list_elem_of_lookup_2. }
      replace (byte_Z c =? 0) with false
        by (symmetry; apply Z.eqb_neq; intros Hz; apply Hcz; by apply byte_Z_inj).
      replace (Z.of_nat k + 1) with (Z.of_nat (S k)) by lia. apply IH; lia. }
  apply (Hgen 0%nat); unfold strdup_fuel, zlen in *; lia.
Qed.

Lemma bbp_arena_strdup_n_spec m b ts s n m' b' phys len :
  builder_rep m b ts -> 0 <= n ->
  bbp_arena_strdup_n m (Some b) s n = Some (m', Some b', phys, len) ->
  (phys = 0 /\ m' = m /\ b' = set_overflow b) \/
  (builder_rep m' b' ts /\ phys = arena_phys b + round_up 8 (used b) /\
   b' = set_used b (round_up 8 (used b) + (len + 1)) /\ same_dom m m' /\
   (forall x, ~ (arena b + round_up 8 (used b) <= x < arena b + used b') -> m' !! x = m !! x)).
Proof.
  intros Hrep Hn H. unfold bbp_arena_strdup_n in H.
  destruct (_ || _) eqn:Hg in H; [left; by simplify_eq|].
  apply bind_Some in H as (l & Hl & H). apply scan_nul_range in Hl; [|lia].
  destruct (_ || _) eqn:Hg2 in H; [left; by simplify_eq|]. bool_to_prop.
  destruct (arena_bump b (l + 1)) as [b1 r] eqn:Hb.
  pose proof (arena_bump_spec _ _ _ (l + 1) _ _ Hrep ltac:(lia) Hb) as Hr.
  destruct r as [[q ph]|]; [|left; by simplify_eq]. right.
  destruct Hr as (-> & -> & Hal & Hst & Hcap & Hph & ->).
  apply bind_Some in H as (m1 & Hm1 & H). apply bind_Some in H as (m2 & Hm2 & [= <- <- <- <-]).
  rewrite wrap_small by (bconsts; lia).
  pose proof (mem_copy_same_dom _ _ _ _ _ Hm1) as Hd1.
  assert (store_bytes m1 (arena b + round_up 8 (used b) + l) [x00] = Some m2) as Hst2
    by (cbn; by rewrite Hm2).
  pose proof (store_bytes_same_dom _ _ _ _ Hst2) as Hd2.
  assert (same_dom m m2) as Hd by (by etrans).
  assert (forall x, ~ (arena b + round_up 8 (used b) <= x <
                       arena b + (round_up 8 (used b) + (l + 1))) -> m2 !! x = m !! x) as Hfr.
  { intros x Hx. rewrite (store_bytes_lookup _ _ _ _ _ Hst2).
    rewrite decide_False by (unfold zlen; cbn; lia).
    apply (mem_copy_frame _ _ _ _ _ _ Hm1). lia. }
  split_and!; try done.
  eapply rep_grow; [done|lia|lia|done|]. intros x Hx. apply Hfr. lia.
Qed.

(** ** Client writes: a tag's body may be overwritten at will *)

Lemma rep_body_write m b ts t a bs m' :
  builder_rep m b ts -> In t ts ->
  arena b + t_off t + 24 <= a -> a + zlen bs <= arena b + t_off t + t_size t ->
  store_bytes m a bs = Some m' -> builder_rep m' b ts.
Proof.
  intros Hrep Hin Hlo Hhi Hst.
  destruct Hrep as [? ? ? Hm ? ? Htags Hl ? ?]. split; try done.
  - by rewrite <- (store_bytes_same_dom _ _ _ _ Hst).
  - eapply linked_frame; [done|done|]. intros u Hu.
    eapply store_bytes_same_on; [done|].
    pose proof (tags_ok_apart _ _ _ _ _ Htags Hin Hu) as Hdis.
    destruct (tags_ok_in _ _ _ _ Htags Hu) as (? & ? & ? & ? & ? & ?).
    apply disjoint_range_intro. destruct Hdis as [->|Hdis]; lia.
Qed.

(** ** Initialisation *)

Lemma bbp_builder_init_rep m b0 a phys cap m' b :
  0 < a -> 0 <= cap -> a + cap <= 2 ^ 64 -> 0 <= phys ->
  bbp_builder_init m (Some b0) a phys cap = Some (m', Some b) ->
  (overflow b <> 0 /\ (phys = 0 \/ phys mod 8 <> 0 \/ 2 ^ 48 <= phys)) \/
  (b = Builder a phys cap 0 0 0 0 0 /\ builder_rep m' b [] /\ same_dom m m' /\
   store_bytes m a (replicate (Z.to_nat cap) x00) = Some m').
Proof.
  intros Ha Hc Hcap Hp H. unfold bbp_builder_init in H.
  replace (a =? 0) with false in H by lia. cbn [negb] in H. cbn zeta in H.
  apply bind_Some in H as ([m1 b1] & Hm1 & [= <- <-]).
  apply bind_Some in Hm1 as (m2 & Hm2 & [= -> <-]). rewrite mem_zero_store in Hm2.
  rewrite land_7. destruct ((phys =? 0) || _ || _) eqn:Hbad; cbn [andb].
  - left. split; [done|]. bool_to_prop. bconsts. lia.
  - right. bool_to_prop. bconsts.
    pose proof (store_bytes_Some_mapped _ _ _ _ Hm2) as Hmap.
    pose proof (store_bytes_same_dom _ _ _ _ Hm2) as Hd.
    unfold zlen in Hmap. rewrite length_replicate, Z2Nat.id in Hmap by lia.
    split_and!; try done.
    split; cbn; try done; try lia. by rewrite <- Hd.
Qed.

(** ** Sealing *)

Lemma builder_crc_skip_of m base len off bs :
  0 <= off -> off + 8 <= len < 2 ^ 64 -> load_bytes m base (Z.to_nat len) = Some bs ->
  bbp_crc_skip m base len off = Some (crc64_skip_of bs (Z.to_nat off)).
Proof.
  intros Ho Hl Hld. unfold bbp_crc_skip. rewrite wrap_small by (unfold in_word; lia).
  apply crc_skip_loaded; (done || lia).
Qed.

(** Storing the checksum computed over a structure seals it in place. *)
Lemma store_seal m a bs off m' :
  bytes_at m a bs -> (off + 8 <= length bs)%nat ->
  store64 m (a + Z.of_nat off) (crc64_skip_of bs off) = Some m' ->
  bytes_at m' a (seal_at bs off) /\ same_dom m m' /\
  (forall x, ~ (a + Z.of_nat off <= x < a + Z.of_nat off + 8) -> m' !! x = m !! x).
Proof.
  intros Hat Hlen Hst. unfold seal_at. split_and!.
  - pose proof (store_bytes_splice _ _ _ _ _ _ Hat ltac:(by rewrite length_le_encode) Hst) as H.
    by rewrite length_le_encode in H.
  - by eapply store_bytes_same_dom.
  - intros x Hx. rewrite (store_bytes_lookup _ _ _ _ _ Hst). unfold zlen.
    rewrite length_le_encode. by rewrite decide_False.
Qed.

Lemma bbp_seal_tag_spec m tag size :
  load32 m (tag + 8) = Some size -> 32 <= size -> mapped m tag size ->
  exists m' bs, bbp_seal_tag m tag = Some m' /\ same_dom m m' /\
    load_bytes m' tag (Z.to_nat size) = Some bs /\ sealed bs 24 /\
    (forall x, ~ (tag + 24 <= x < tag + 32) -> m' !! x = m !! x).
Proof.
  intros Hsize Hlo Hm.
  destruct (mapped_load m tag (Z.to_nat size)) as [bs Hbs]; [by rewrite Z2Nat.id by lia|].
  pose proof (load_bytes_length _ _ _ _ Hbs) as Hlen.
  apply load32_word in Hsize as Hw. unfold in_word in Hw.
  destruct (store_bytes_mapped m (tag + 24) (le_encode 8 (crc64_skip_of bs 24))) as [m' Hm'].
  { unfold zlen. rewrite length_le_encode. eapply mapped_sub; [done|lia|lia]. }
  assert (bytes_at m tag bs) as Hat by (by apply load_bytes_at in Hbs as [_ ?]).
  destruct (store_seal m tag bs 24 m' Hat ltac:(lia) Hm') as (Hs & Hd & Hf).
  exists m', (seal_at bs 24). split_and!; [|done| | |].
  - unfold bbp_seal_tag. rewrite Hsize. cbn [mbind option_bind].
    rewrite (builder_crc_skip_of _ _ _ _ bs) by (done || lia). exact Hm'.
  - apply bytes_at_load in Hs. by rewrite length_seal_at, Hlen in Hs by lia.
  - apply sealed_seal_at. lia.
  - intros x Hx. apply Hf. lia.
Qed.

Lemma hdr_size m a t next :
  in_word 32 (t_size t) -> bytes_at m a (hdr_bytes t next) -> load32 m (a + 8) = Some (t_size t).
Proof.
  intros Hw Hat. unfold hdr_bytes in Hat. rewrite !bytes_at_app in Hat.
  destruct Hat as (_ & Hsz & _). unfold zlen in Hsz. rewrite length_le_encode in Hsz.
  by apply bytes_at_load_le.
Qed.

Lemma hdr_id m a t next :
  in_word 64 (t_id t) -> bytes_at m a (hdr_bytes t next) -> load64 m a = Some (t_id t).
Proof.
  intros Hw Hat. unfold hdr_bytes in Hat. rewrite bytes_at_app in Hat.
  destruct Hat as [Hid _]. by apply bytes_at_load_le.
Qed.

Lemma hdr_next m a t next :
  in_word 64 next -> bytes_at m a (hdr_bytes t next) -> load64 m (a + 16) = Some next.
Proof.
  intros Hw Hat. unfold hdr_bytes in Hat. rewrite !bytes_at_app in Hat.
  destruct Hat as (_ & _ & _ & _ & Hn). unfold zlen in Hn. rewrite !length_le_encode in Hn.
  apply bytes_at_load_le; [done|]. replace (a + 16) with (a + 8 + 4 + 2 + 2) by lia. exact Hn.
Qed.

Lemma next_phys_word b lo hi ts :
  0 <= lo -> 0 <= arena_phys b -> arena_phys b + hi < 2 ^ 64 -> tags_ok lo hi ts ->
  in_word 64 (next_phys b ts).
Proof.
  intros Hlo Hp Hhi Hok. destruct ts as [|t ts]; cbn; [by split|]. cbn [tags_ok] in Hok.
  destruct Hok as (? & ? & ? & ? & ? & Hok). apply tags_ok_le in Hok. unfold in_word. lia.
Qed.

Definition tag_sealed (m : mem) (b : bbp_builder) (t : tagrec) : Prop :=
  exists bs, load_bytes m (arena b + t_off t) (Z.to_nat (t_size t)) = Some bs /\ sealed bs 24.

(** The checksum fields of a chain: the only bytes sealing may change. *)
Definition in_checksum (b : bbp_builder) (ts : list tagrec) (x : Z) : Prop :=
  exists t, In t ts /\ arena b + t_off t + 24 <= x < arena b + t_off t + 32.

Lemma seal_chain_spec m b lo hi ts fuel :
  tags_ok lo hi ts -> 0 <= lo -> hi <= capacity b ->
  0 < arena_phys b -> arena_phys b + hi < 2 ^ 64 ->
  mapped m (arena b) (capacity b) -> linked m b ts -> (length ts < fuel)%nat ->
  exists m', seal_chain m b (next_phys b ts) fuel = Some m' /\ same_dom m m' /\
    linked m' b ts /\ Forall (tag_sealed m' b) ts /\
    (forall x, ~ in_checksum b ts x -> m' !! x = m !! x).
Proof.
  intros Hok Hlo Hhi Hp Hph. revert m lo fuel Hlo Hok.
  induction ts as [|t ts IH]; intros m lo fuel Hlo Hok Hm Hl Hfuel;
    (destruct fuel as [|fuel]; [cbn in Hfuel; lia|]).
  { exists m. by split_and!. }
  cbn [tags_ok linked length] in *.
  destruct Hok as (? & Hal & Hsz & Hid & Hver & Hok), Hl as [Hh Hl].
  pose proof (tags_ok_le _ _ _ Hok) as Hle.
  assert (in_word 64 (next_phys b ts)) as Hnw by (eapply next_phys_word; [| |exact Hph|exact Hok]; lia).
  assert (load32 m (arena b + t_off t + 8) = Some (t_size t)) as Hsize
    by (eapply hdr_size; [unfold in_word; lia|done]).
  destruct (bbp_seal_tag_spec m (arena b + t_off t) (t_size t)) as
    (m1 & bs & Hs1 & Hd1 & Hbs & Hsealed & Hf1); [done|lia|eapply mapped_sub; [done|lia..]|].
  assert (linked m1 b ts) as Hl1.
  { eapply linked_frame; [done|done|]. intros u Hu x Hx. apply Hf1.
    destruct (tags_ok_in _ _ _ _ Hok Hu). lia. }
  assert (bytes_at m1 (arena b + t_off t) (hdr_bytes t (next_phys b ts))) as Hh1.
  { eapply bytes_at_same_on; [|done]. rewrite zlen_hdr_bytes. intros x Hx. apply Hf1. lia. }
  destruct (IH m1 (t_off t + t_size t) fuel) as (m2 & Hs2 & Hd2 & Hl2 & Hall & Hf2);
    [lia|done|by rewrite <- Hd1|done|lia|].
  assert (same_on m1 m2 (arena b + t_off t) (t_size t)) as Hsame.
  { intros x Hx. apply Hf2. intros (u & Hu & Hxu).
    destruct (tags_ok_in _ _ _ _ Hok Hu). lia. }
  exists m2. split_and!.
  - cbn [seal_chain next_phys]. replace (arena_phys b + t_off t =? 0) with false by lia.
    unfold builder_phys_to_virt.
    rewrite wrap_small by (unfold in_word; lia).
    replace (arena_phys b + t_off t - arena_phys b) with (t_off t) by lia.
    rewrite Hs1. cbn [mbind option_bind]. rewrite (hdr_next _ _ _ _ Hnw Hh1). exact Hs2.
  - by etrans.
  - eapply bytes_at_same_on; [|exact Hh1]. rewrite zlen_hdr_bytes.
    eapply same_on_sub; [done|lia|lia].
  - done.
  - constructor; [|done]. exists bs. split; [|done]. rewrite <- Hbs.
    apply load_bytes_same_on. by rewrite Z2Nat.id by lia.
  - intros x Hx. rewrite Hf2, Hf1; [done| |].
    + intros Hr. apply Hx. exists t. split; [by left|lia].
    + intros (u & Hu & Hxu). apply Hx. exists u. split; [by right|done].
Qed.

(** The INFO structure after sealing. *)
Lemma seal_info_spec m b info :
  mapped m info SIZEOF_INFO -> in_word 32 (tag_count b) -> in_word 64 (first_phys b) ->
  0 <= used b <= BBP_BUILDER_MAX_INFO - SIZEOF_INFO ->
  exists m' bs, seal_info m b info = Some m' /\ same_dom m m' /\
    load_bytes m' info 144 = Some bs /\ sealed bs 136 /\
    take 16 bs = BBP_INFO_MAGIC /\ load16 m' (info + 16) = Some 1 /\
    load32 m' (info + 20) = Some (SIZEOF_INFO + used b) /\
    load32 m' (info + 116) = Some (tag_count b) /\
    load64 m' (info + 120) = Some (first_phys b) /\
    (forall x, ~ (info <= x < info + 144) -> m' !! x = m !! x) /\
    same_on m m' (info + 24) 92 /\ same_on m m' (info + 128) 8.
Proof.
  intros Hm Hcnt Hfirst Hused. unfold SIZEOF_INFO in Hm.
  assert (forall m1 off bs, same_dom m m1 -> 0 <= off -> off + zlen bs <= 144 ->
    exists m2, store_bytes m1 (info + off) bs = Some m2 /\ same_dom m m2 /\
      bytes_at m2 (info + off) bs /\
      (forall x, ~ (info + off <= x < info + off + zlen bs) -> m2 !! x = m1 !! x)) as Hstore.
  { intros m1 off bs Hd Ho Hlen. destruct (store_bytes_mapped m1 (info + off) bs) as [m2 Hst].
    { rewrite <- Hd. eapply mapped_sub; [done|lia|lia]. }
    exists m2. split_and!; [done| |by eapply store_bytes_at|].
    - etrans; [done|]. by eapply store_bytes_same_dom.
    - intros x Hx. rewrite (store_bytes_lookup _ _ _ _ _ Hst). by rewrite decide_False. }
  assert (forall n v, zlen (le_encode n v) = Z.of_nat n) as Hz
    by (intros; unfold zlen; by rewrite length_le_encode).
  destruct (Hstore m 16 (le_encode 2 1)) as (m1 & H1 & D1 & A1 & F1); [done|rewrite ?Hz; lia..|].
  destruct (Hstore m1 18 (le_encode 2 1)) as (m2 & H2 & D2 & A2 & F2); [done|rewrite ?Hz; lia..|].
  destruct (Hstore m2 0 (replicate 16 x00)) as (m3 & H3 & D3 & A3 & F3); [done|by cbn..|].
  destruct (Hstore m3 0 (take 9 BBP_INFO_MAGIC)) as (m4 & H4 & D4 & A4 & F4); [done|by cbn..|].
  destruct (Hstore m4 116 (le_encode 4 (tag_count b))) as (m5 & H5 & D5 & A5 & F5);
    [done|rewrite ?Hz; lia..|].
  destruct (Hstore m5 120 (le_encode 8 (first_phys b))) as (m6 & H6 & D6 & A6 & F6);
    [done|rewrite ?Hz; lia..|].
  destruct (Hstore m6 20 (le_encode 4 (wrap32 (SIZEOF_INFO + used b)))) as (m7 & H7 & D7 & A7 & F7);
    [done|rewrite ?Hz; lia..|].
  destruct (Hstore m7 136 (le_encode 8 0)) as (m8 & H8 & D8 & A8 & F8); [done|rewrite ?Hz; lia..|].
  destruct (mapped_load m8 info 144) as [bs Hbs]; [by rewrite <- D8|].
  pose proof (load_bytes_length _ _ _ _ Hbs) as Hlen.
  destruct (Hstore m8 136 (le_encode 8 (crc64_skip_of bs 136))) as (m9 & H9 & D9 & A9 & F9);
    [done|rewrite ?Hz; lia..|].
  assert (bytes_at m8 info bs) as Hat by (by apply load_bytes_at in Hbs as [_ ?]).
  destruct (store_seal m8 info bs 136 m9 Hat ltac:(lia) H9) as (Hs & _ & _).
  rewrite Z.add_0_r in *. rewrite !Hz in *. change (zlen (replicate 16 x00)) with 16 in *.
  change (zlen (take 9 BBP_INFO_MAGIC)) with 9 in *.
  assert (forall x, info + 9 <= x < info + 16 -> m9 !! x = Some x00) as Hpad.
  { intros x Hx. rewrite F9, F8, F7, F6, F5, F4 by lia.
    rewrite <- (A3 (Z.to_nat (x - info)) x00) by (apply lookup_replicate_2; lia). f_equal. lia. }
  assert (bytes_at m9 info BBP_INFO_MAGIC) as Hmag.
  { change BBP_INFO_MAGIC with (take 9 BBP_INFO_MAGIC ++ replicate 7 x00).
    apply bytes_at_app. change (zlen (take 9 BBP_INFO_MAGIC)) with 9. split.
    - eapply bytes_at_same_on; [|exact A4]. intros x Hx. change (zlen _) with 9 in Hx.
      by rewrite F9, F8, F7, F6, F5 by lia.
    - intros i c Hi. apply lookup_replicate in Hi as [-> Hi]. apply Hpad. lia. }
  exists m9, (seal_at bs 136). split_and!.
  - unfold seal_info, BBP_VERSION_MAJOR, store16, store32, store64. rewrite H1. cbn [mbind option_bind].
    unfold BBP_VERSION_MINOR. rewrite H2. cbn [mbind option_bind].
    rewrite mem_zero_store, H3. cbn [mbind option_bind]. rewrite H4. cbn [mbind option_bind].
    rewrite H5. cbn [mbind option_bind]. rewrite H6. cbn [mbind option_bind].
    rewrite H7. cbn [mbind option_bind]. rewrite H8. cbn [mbind option_bind].
    rewrite (builder_crc_skip_of _ _ _ _ bs) by (first [exact Hbs | bconsts; lia]). exact H9.
  - done.
  - apply bytes_at_load in Hs. by rewrite length_seal_at, Hlen in Hs by lia.
  - apply sealed_seal_at. lia.
  - pose proof (bytes_at_take _ _ _ 16 Hs) as Ht.
    eapply bytes_at_inj; [|exact Ht|exact Hmag].
    rewrite length_take, length_seal_at by lia. rewrite Hlen. done.
  - apply (bytes_at_load_le m9 (info + 16) 2 1); [done|]. eapply bytes_at_same_on; [|exact A1].
    rewrite Hz. intros x Hx. by rewrite F9, F8, F7, F6, F5, F4, F3, F2 by lia.
  - rewrite wrap_small in A7 by (bconsts; lia).
    apply (bytes_at_load_le m9 (info + 20) 4); [bconsts; lia|].
    eapply bytes_at_same_on; [|exact A7]. rewrite Hz. intros x Hx. by rewrite F9, F8 by lia.
  - apply (bytes_at_load_le m9 (info + 116) 4); [done|].
    eapply bytes_at_same_on; [|exact A5]. rewrite Hz. intros x Hx.
    by rewrite F9, F8, F7, F6 by lia.
  - apply (bytes_at_load_le m9 (info + 120) 8); [done|].
    eapply bytes_at_same_on; [|exact A6]. rewrite Hz. intros x Hx. by rewrite F9, F8, F7 by lia.
  - intros x Hx. by rewrite F9, F8, F7, F6, F5, F4, F3, F2, F1 by lia.
  - intros x Hx. by rewrite F9, F8, F7, F6, F5, F4, F3, F2, F1 by lia.
  - intros x Hx. by rewrite F9, F8, F7, F6, F5, F4, F3, F2, F1 by lia.
Qed.
