(* ===== verification/BuilderProps.v ===== *)
(** * Properties of the tag builder

    The builder as a transition system over its API calls and its client's
    writes, the invariant of its reachable states, and fail-closed behaviour:
    once any call has failed, finalization produces nothing. *)

From stdpp Require Import relations.
From S2P Require Import Prelude Memory Crc64 Abi Builder BuilderFacts.

(** ** The transition system

    A state is the memory, the builder and the tags appended so far. *)

Definition bstate : Type := mem * bbp_builder * list tagrec.

Definition appended (b : bbp_builder) (p id ver size : Z) (ts : list tagrec) : list tagrec :=
  if p =? 0 then ts else ts ++ [Tag (p - arena b) id ver size].

Inductive bstep : bstate -> bstate -> Prop :=
  | step_tag m b ts id ver size m' b' p :
      in_word 64 id -> in_word 16 ver -> in_word 64 size ->
      bbp_alloc_tag m (Some b) id ver size = Some (m', Some b', p) ->
      bstep (m, b, ts) (m', b', appended b p id ver size ts)
  | step_blob m b ts data len m' b' phys :
      in_word 64 len ->
      bbp_arena_blob m (Some b) data len = Some (m', Some b', phys) ->
      bstep (m, b, ts) (m', b', ts)
  | step_string m b ts s n m' b' phys len :
      in_word 64 n ->
      bbp_arena_strdup_n m (Some b) s n = Some (m', Some b', phys, len) ->
      bstep (m, b, ts) (m', b', ts)
  | step_seal m b ts t m' :
      In t ts -> bbp_seal_tag m (arena b + t_off t) = Some m' ->
      bstep (m, b, ts) (m', b, ts)
  | step_body m b ts t a bs m' :
      In t ts -> arena b + t_off t + 32 <= a ->
      a + zlen bs <= arena b + t_off t + t_size t ->
      store_bytes m a bs = Some m' ->
      bstep (m, b, ts) (m', b, ts)
  | step_env m b ts m' :
      same_dom m m' -> same_on m m' (arena b) (capacity b) ->
      bstep (m, b, ts) (m', b, ts).

(** Sound, or marked as failed. *)
Definition binv (s : bstate) : Prop :=
  let '(m, b, ts) := s in overflow b <> 0 \/ builder_rep m b ts.

Lemma arena_bump_overflow b len :
  overflow b <> 0 -> arena_bump b len = (set_overflow b, None).
Proof.
  intros H. unfold arena_bump. replace (overflow b =? 0) with false by lia.
  by rewrite orb_true_r.
Qed.

(** Failure is sticky. *)
Lemma bstep_overflow m b ts m' b' ts' :
  bstep (m, b, ts) (m', b', ts') -> overflow b <> 0 -> overflow b' <> 0.
Proof.
  intros Hst Ho. inversion Hst as [? ? ? ? ? ? ? ? ? _ _ _ H | ? ? ? ? ? ? ? ? _ H
    | ? ? ? ? ? ? ? ? ? _ H | | |]; subst; try done.
  - unfold bbp_alloc_tag in H. rewrite arena_bump_overflow in H by done.
    destruct (_ || _ || _ || _) in H; by simplify_eq.
  - unfold bbp_arena_blob in H. rewrite arena_bump_overflow in H by done.
    destruct (_ && _) in H; [by simplify_eq|]. destruct (len =? 0) in H; by simplify_eq.
  - unfold bbp_arena_strdup_n in H. destruct (_ || _) in H; [by simplify_eq|].
    apply bind_Some in H as (l & _ & H). rewrite arena_bump_overflow in H by done.
    destruct (_ || _) in H; by simplify_eq.
Qed.

Lemma reachable_overflow s s' : rtc bstep s s' -> overflow s.1.2 <> 0 -> overflow s'.1.2 <> 0.
Proof.
  induction 1 as [|[[x1 x2] x3] [[y1 y2] y3] z Hst _ IH]; [done|].
  intros Hx. apply IH. by eapply bstep_overflow.
Qed.

Lemma finalize_overflow m b info info_phys fuel : overflow b <> 0 ->
  exists b'', bbp_builder_finalize m (Some b) info info_phys fuel = Some (m, Some b'', 0).
Proof.
  intros Ho. unfold bbp_builder_finalize. destruct (info =? 0); [by eexists|].
  replace (overflow b =? 0) with false by lia. by eexists.
Qed.

Lemma rep_env m m' b ts :
  builder_rep m b ts -> same_dom m m' -> same_on m m' (arena b) (capacity b) ->
  builder_rep m' b ts.
Proof.
  intros [? ? [? ?] Hm ? ? Htags Hl ? ?] Hd Hs. split; try done.
  - by rewrite <- Hd.
  - eapply linked_same_on; [done|done|]. rewrite Z.add_0_r, Z.sub_0_r.
    eapply same_on_sub; [done|lia|lia].
Qed.

Lemma rep_seal m b ts t m' :
  builder_rep m b ts -> In t ts -> bbp_seal_tag m (arena b + t_off t) = Some m' ->
  builder_rep m' b ts.
Proof.
  intros Hrep Hin Hs. unfold bbp_seal_tag in Hs. bind_inv.
  pose proof (br_tags _ _ _ Hrep) as Htags.
  destruct (tags_ok_in _ _ _ _ Htags Hin) as (? & ? & ? & ? & ? & ?).
  eapply (rep_body_write m b ts t); [done|done|reflexivity| |exact Hs].
  unfold zlen. rewrite length_le_encode. lia.
Qed.

(** One step preserves the invariant. *)
Lemma bstep_inv s s' : bstep s s' -> binv s -> binv s'.
Proof.
  destruct s as [[m b] ts], s' as [[m' b'] ts']. intros Hst.
  cbn [binv]. intros [Ho|Hrep].
  { left. by eapply bstep_overflow. }
  inversion Hst as [? ? ? id ver size ? ? p Hid Hver Hsz H | ? ? ? ? ? ? ? ? [Hlen _] H
    | ? ? ? ? ? ? ? ? ? [Hn _] H | ? ? ? t ? Hin Hs | ? ? ? t ? ? ? Hin Hlo Hhi Hs | ? ? ? ? Hd Hs];
    subst.
  - pose proof (br_arena _ _ _ Hrep). pose proof (br_used _ _ _ Hrep).
    apply (bbp_alloc_tag_spec _ _ _ _ _ _ _ _ _ Hrep Hid Hver ltac:(by destruct Hsz)) in H
      as [(-> & -> & ->)|(-> & Hrep' & _)]; [by left|]. right. cbn [t_off] in *.
    pose proof (round_up_bounds 8 (used b) ltac:(lia)).
    unfold appended. replace (arena b + _ =? 0) with false by lia.
    by replace (arena b + round_up 8 (used b) - arena b) with (round_up 8 (used b)) by lia.
  - apply (bbp_arena_blob_spec _ _ _ _ _ _ _ _ Hrep Hlen) in H
      as [(_ & -> & [-> | ->])|(Hrep' & _)]; [by right|by left|by right].
  - apply (bbp_arena_strdup_n_spec _ _ _ _ _ _ _ _ _ Hrep Hn) in H
      as [(_ & -> & ->)|(Hrep' & _)]; [by left|by right].
  - right. by eapply rep_seal.
  - right. eapply rep_body_write; [done|done| |done|done]. lia.
  - right. by eapply rep_env.
Qed.

Lemma reachable_inv s s' : rtc bstep s s' -> binv s -> binv s'.
Proof. induction 1; eauto using bstep_inv. Qed.

(** ** Refused calls *)

(** A call that reports failure to its client.  An empty blob has no address
    and is no failure. *)
Inductive refused_call (m : mem) (b : bbp_builder) : mem -> bbp_builder -> Prop :=
  | tag_refused id ver size m' b' :
      in_word 64 id -> in_word 16 ver -> in_word 64 size ->
      bbp_alloc_tag m (Some b) id ver size = Some (m', Some b', 0) -> refused_call m b m' b'
  | blob_refused data len m' b' :
      in_word 64 len -> len <> 0 ->
      bbp_arena_blob m (Some b) data len = Some (m', Some b', 0) -> refused_call m b m' b'
  | string_refused s n m' b' len :
      in_word 64 n ->
      bbp_arena_strdup_n m (Some b) s n = Some (m', Some b', 0, len) -> refused_call m b m' b'.

(** A builder that has failed does not allocate. *)
Lemma failed_refuses m b m' b' : refused_call m b m' b' -> overflow b <> 0 -> m' = m /\ overflow b' <> 0.
Proof.
  intros [id ver size m1 b1 _ _ _ H|data len m1 b1 _ Hl H|s n m1 b1 len _ H] Ho.
  - unfold bbp_alloc_tag in H. rewrite arena_bump_overflow in H by done. destruct (_ || _ || _ || _) in H; by simplify_eq.
  - unfold bbp_arena_blob in H. rewrite arena_bump_overflow, (proj2 (Z.eqb_neq len 0) Hl) in H by done.
    destruct (_ && _) in H; by simplify_eq.
  - unfold bbp_arena_strdup_n in H. destruct (_ || _) in H; [by simplify_eq|].
    apply bind_Some in H as (l & _ & H). rewrite arena_bump_overflow in H by done.
    destruct (_ || _) in H; by simplify_eq.
Qed.

(** A refused call leaves memory alone and marks the builder. *)
Lemma refused_call_marks m b ts m' b' :
  refused_call m b m' b' -> binv (m, b, ts) -> m' = m /\ overflow b' <> 0.
Proof.
  intros Hc [Ho|Hrep]; [by eapply failed_refuses|].
  pose proof Hrep as [[Ha _] [[Hp _] _] [[Hu _] _] _ _ _ _ _ _ _]. pose proof (round_up_bounds 8 (used b) ltac:(lia)) as Hr.
  destruct Hc as [id ver size m1 b1 Hid Hver [Hsz _] H|data len m1 b1 [Hlen _] Hl H|s n m1 b1 len [Hn _] H].
  - apply (bbp_alloc_tag_spec _ _ ts) in H as [(_ & -> & ->)|(E & _)]; try done. cbn [t_off] in E. lia.
  - unfold bbp_arena_blob in H. destruct (_ && _) in H; [by simplify_eq|].
    rewrite (proj2 (Z.eqb_neq len 0) Hl) in H. destruct (arena_bump b len) as [b2 r] eqn:Hb.
    apply (arena_bump_spec m b ts) in Hb; [|done|done].
    destruct r as [[q ph]|]; [|by simplify_eq]. destruct Hb as (_ & -> & _).
    apply bind_Some in H as (m2 & _ & H). injection H as _ _ E. lia.
  - apply (bbp_arena_strdup_n_spec _ _ ts) in H as [(_ & -> & ->)|(_ & E & _)]; try done. lia.
Qed.

(** ** Initial states *)

(** What the loader guarantees of the scratch memory it hands over. *)
Definition arena_given (a phys cap : Z) : Prop :=
  0 < a /\ 0 <= cap /\ a + cap <= 2 ^ 64 /\ 0 <= phys.

Lemma init_inv m b0 a phys cap m' b :
  arena_given a phys cap ->
  bbp_builder_init m (Some b0) a phys cap = Some (m', Some b) -> binv (m', b, []).
Proof.
  intros (Ha & Hc & Hcap & Hp) H.
  apply bbp_builder_init_rep in H as [[H _]|(_ & H & _)]; [by left|by right|done..].
Qed.

Lemma builder_reachable m0 b0 a phys cap m1 b1 m b ts :
  arena_given a phys cap ->
  bbp_builder_init m0 (Some b0) a phys cap = Some (m1, Some b1) ->
  rtc bstep (m1, b1, []) (m, b, ts) -> overflow b = 0 -> builder_rep m b ts.
Proof.
  intros Hg Hi Hr Ho. destruct (reachable_inv _ _ Hr (init_inv _ _ _ _ _ _ _ Hg Hi)); [lia|done].
Qed.

(** ** A concrete run *)

Module Run.

(** A 144-byte arena at 8192 (identity-mapped) and an INFO slot at 4096. *)
Definition mem0 : mem := mem_of 4096 (replicate 144 xcc) ∪ mem_of 8192 (replicate 144 xcc).
Definition b0 : bbp_builder := Builder 0 0 0 0 0 0 0 0.

Definition result : Type := option (mem * option bbp_builder * Z).
Definition mem_in (r : result) : mem := match r with Some (m, _, _) => m | _ => ∅ end.
Definition bld_in (r : result) : bbp_builder := match r with Some (_, Some b, _) => b | _ => b0 end.
Definition returned (r : result) (p : Z) : bool :=
  match r with Some (_, Some _, q) => q =? p | _ => false end.

Lemma returned_eq r p : returned r p = true -> r = Some (mem_in r, Some (bld_in r), p).
Proof.
  destruct r as [[[m [b|]] q]|]; cbn; try done. intros H. apply Z.eqb_eq in H. by subst.
Qed.

Definition st1 : result :=
  '(m, b) ← bbp_builder_init mem0 (Some b0) 8192 8192 144; Some (m, b, 0).
Definition m1 : mem := mem_in st1.
Definition b1 : bbp_builder := bld_in st1.
Definition st2 : result := bbp_alloc_tag m1 (Some b1) BBP_TAG_HHDM 1 40.
Definition m2 : mem := mem_in st2.
Definition b2 : bbp_builder := bld_in st2.
Definition st3 : result := bbp_alloc_tag m2 (Some b2) BBP_TAG_KERNEL_ADDRESS 1 48.
Definition m3 : mem := mem_in st3.
Definition b3 : bbp_builder := bld_in st3.

Definition tag1 : tagrec := Tag 0 BBP_TAG_HHDM 1 40.
Definition tag2 : tagrec := Tag 40 BBP_TAG_KERNEL_ADDRESS 1 48.
Definition tags : list tagrec := [tag1; tag2].

Lemma init_ok : bbp_builder_init mem0 (Some b0) 8192 8192 144 = Some (m1, Some b1).
Proof.
  assert (st1 = Some (m1, Some b1, 0)) as H by (apply returned_eq; vm_compute; reflexivity).
  unfold st1 in H at 1.
  destruct (bbp_builder_init mem0 (Some b0) 8192 8192 144) as [[m b]|]; cbn in H; congruence.
Qed.

Lemma alloc1_ok : bbp_alloc_tag m1 (Some b1) BBP_TAG_HHDM 1 40 = Some (m2, Some b2, 8192).
Proof. apply returned_eq. vm_compute. reflexivity. Qed.

Lemma alloc2_ok :
  bbp_alloc_tag m2 (Some b2) BBP_TAG_KERNEL_ADDRESS 1 48 = Some (m3, Some b3, 8232).
Proof. apply returned_eq. vm_compute. reflexivity. Qed.

Lemma tag1_at : appended b1 8192 BBP_TAG_HHDM 1 40 [] = [tag1].
Proof. vm_compute. reflexivity. Qed.

Lemma tag2_at : appended b2 8232 BBP_TAG_KERNEL_ADDRESS 1 48 [tag1] = tags.
Proof. vm_compute. reflexivity. Qed.

Lemma step1 : bstep (m1, b1, []) (m2, b2, [tag1]).
Proof.
  rewrite <- tag1_at. apply step_tag; [split; vm_compute; done..|exact alloc1_ok].
Qed.

Lemma step2 : bstep (m2, b2, [tag1]) (m3, b3, tags).
Proof.
  rewrite <- tag2_at. apply step_tag; [split; vm_compute; done..|exact alloc2_ok].
Qed.

Lemma steps : rtc bstep (m1, b1, []) (m3, b3, tags).
Proof. eapply rtc_l; [exact step1|]. eapply rtc_l; [exact step2|]. apply rtc_refl. Qed.

Lemma given : arena_given 8192 8192 144.
Proof. unfold arena_given. lia. Qed.

Lemma no_overflow2 : overflow b2 = 0.
Proof. vm_compute. reflexivity. Qed.

Lemma no_overflow3 : overflow b3 = 0.
Proof. vm_compute. reflexivity. Qed.

Lemma rep2 : builder_rep m2 b2 [tag1].
Proof.
  exact (builder_reachable _ _ _ _ _ _ _ _ _ _ given init_ok (rtc_once _ _ step1) no_overflow2).
Qed.

Lemma rep3 : builder_rep m3 b3 tags.
Proof. exact (builder_reachable _ _ _ _ _ _ _ _ _ _ given init_ok steps no_overflow3). Qed.

Lemma alloc3_refused :
  bbp_alloc_tag m3 (Some b3) BBP_TAG_HHDM 1 64 = Some (m3, Some (set_overflow b3), 0).
Proof. reflexivity. Qed.

Lemma alloc4_refused :
  bbp_alloc_tag m3 (Some (set_overflow b3)) BBP_TAG_HHDM 1 40 =
    Some (m3, Some (set_overflow (set_overflow b3)), 0).
Proof. reflexivity. Qed.

Lemma step5 : bstep (m3, set_overflow b3, tags) (m3, set_overflow (set_overflow b3), tags).
Proof.
  assert (appended (set_overflow b3) 0 BBP_TAG_HHDM 1 40 tags = tags) as E by reflexivity.
  rewrite <- E at 2. apply step_tag; [split; vm_compute; done..|exact alloc4_refused].
Qed.

End Run.

(** ** Properties *)

(** C7: in every state reachable from initialisation by any interleaving of
    tag, string and blob allocations, early sealing, writes into tag bodies
    and unrelated writes, the builder is either marked failed or sound: its
    tags are in the arena, 8-aligned, of legal size, pairwise disjoint and
    correctly chained with the right headers, and the counters and end
    pointers agree with them. *)
Theorem builder_invariant (m0 : mem) (b0 : bbp_builder) (a phys cap : Z)
    (m1 : mem) (b1 : bbp_builder) (m : mem) (b : bbp_builder) (ts : list tagrec) :
  arena_given a phys cap ->
  bbp_builder_init m0 (Some b0) a phys cap = Some (m1, Some b1) ->
  rtc bstep (m1, b1, []) (m, b, ts) ->
  overflow b <> 0 \/ builder_rep m b ts.
Proof.
  intros Hg Hi Hr. exact (reachable_inv _ _ Hr (init_inv _ _ _ _ _ _ _ Hg Hi)).
Qed.

Lemma builder_invariant_witness :
  overflow Run.b3 <> 0 \/ builder_rep Run.m3 Run.b3 Run.tags.
Proof.
  exact (builder_invariant Run.mem0 Run.b0 8192 8192 144 Run.m1 Run.b1 Run.m3 Run.b3 Run.tags
           Run.given Run.init_ok Run.steps).
Defined.



(** An allocation either succeeds with a fresh, 8-aligned extent that
    lies inside the arena and below 2^48, after everything allocated before,
    or leaves memory alone and marks the builder failed; a size that would
    wrap the address arithmetic can only fail. *)
Lemma alloc_tag_outcomes (m : mem) (b : bbp_builder) (ts : list tagrec)
    (id ver size : Z) (m' : mem) (b' : bbp_builder) (p : Z) :
  builder_rep m b ts -> in_word 64 id -> in_word 16 ver -> in_word 64 size ->
  bbp_alloc_tag m (Some b) id ver size = Some (m', Some b', p) ->
  (p = 0 /\ m' = m /\ overflow b' <> 0) \/
  (p = arena b + round_up 8 (used b) /\ (p - arena b) mod 8 = 0 /\
   arena b + used b <= p /\ p + size <= arena b + capacity b /\
   arena_phys b + (p - arena b) + size <= 2 ^ 48 /\
   32 <= size <= 2 ^ 24 /\ tag_count b' = tag_count b + 1 /\
   builder_rep m' b' (ts ++ [Tag (p - arena b) id ver size]) /\
   (forall x, ~ (p <= x < p + 32) -> ~ (last b + 16 <= x < last b + 24) -> m' !! x = m !! x)).
Proof.
  intros Hrep Hid Hver Hsz H.
  apply (bbp_alloc_tag_spec _ _ _ _ _ _ _ _ _ Hrep Hid Hver ltac:(by destruct Hsz)) in H
    as [(-> & -> & ->)|(-> & Hrep' & Ha & Hp & Hc & Hu & _ & Hf)]; [by left|].
  right. cbn [t_off] in *.
  pose proof (round_up_bounds 8 (used b) ltac:(lia)).
  replace (arena b + round_up 8 (used b) - arena b) with (round_up 8 (used b)) by lia.
  pose proof (br_used _ _ _ Hrep') as [? ?]. pose proof (br_tags _ _ _ Hrep') as Htags.
  pose proof (proj1 (br_count _ _ _ Hrep)). pose proof (proj1 (br_count _ _ _ Hrep')).
  destruct (tags_ok_in _ _ _ (Tag (round_up 8 (used b)) id ver size) Htags)
    as (_ & _ & ? & ? & _); [apply in_or_app; right; by left|]. cbn [t_off t_size] in *.
  unfold zlen in *. rewrite length_app in *. cbn [length] in *.
  split_and!; try done; try lia. intros x Hx Hl. by apply Hf.
Qed.

Lemma alloc_tag_outcomes_witness :
  (8232 = 0 /\ Run.m3 = Run.m2 /\ overflow Run.b3 <> 0) \/ (8232 - arena Run.b2) mod 8 = 0.
Proof.
  destruct (alloc_tag_outcomes Run.m2 Run.b2 [Run.tag1] BBP_TAG_KERNEL_ADDRESS 1 48
              Run.m3 Run.b3 8232) as [H|H].
  - exact Run.rep2.
  - split; vm_compute; [discriminate|reflexivity].
  - split; vm_compute; [discriminate|reflexivity].
  - split; vm_compute; [discriminate|reflexivity].
  - exact Run.alloc2_ok.
  - left. exact H.
  - right. exact (proj1 (proj2 H)).
Defined.
