(* ===== verification/Handoff.v ===== *)
(** * The handoff: what a producer promises and a consumer relies on

    [ValidHandoff] is the interface between producers and the kernel-side
    parser: a valid INFO structure and a finite chain of sealed tags.  The
    consumer's guarantees are proved against the interface; the builder
    discharges it. *)

From stdpp Require Import relations.
From S2P Require Import Prelude Memory Crc64 Abi KernelParser KernelFacts Builder BuilderFacts BuilderProps.

(** ** The interface *)

Class ValidHandoff (m : mem) (k : bbp_kctx) (ts : list Z) : Prop := {
  vh_info_ptr : k_info k <> 0;
  vh_wf : kctx_wf k;
  vh_info : exists bs, load_bytes m (k_info k) 144 = Some bs /\ info_status bs = BBP_OK;
  vh_walk : tag_walk m k = Some ts;
  vh_sealed : Forall (fun t => bbp_tag_crc_ok m t = Some true) ts;
  vh_ids : Forall (fun t => is_Some (load64 m t)) ts;
}.

Section consumer.
Context (m : mem) (k : bbp_kctx) (ts : list Z) {Hvh : ValidHandoff m k ts}.

Lemma vh_accepted t : In t ts -> skip_tag m k t = Some false.
Proof.
  intros Hin. unfold skip_tag. destruct (verify_tag_crc k =? 0); [done|].
  pose proof vh_sealed as H. rewrite List.Forall_forall in H. by rewrite (H t Hin).
Qed.

Lemma vh_inspectable : Forall (inspectable m k) ts.
Proof.
  apply List.Forall_forall. intros t Hin. split.
  - rewrite vh_accepted by done. by eexists.
  - pose proof vh_ids as H. rewrite List.Forall_forall in H. by apply H.
Qed.

(** Lookup in a valid handoff returns the first tag with the identifier. *)
Lemma vh_find id :
  bbp_find_tag m (Some k) id = Some (default 0 (List.find (has_id m id) ts)).
Proof.
  rewrite (bbp_find_tag_spec _ _ _ ts);
    [|apply vh_info_ptr|apply vh_walk|apply vh_inspectable].
  do 2 f_equal. assert (forall t, In t ts -> accepted m k t = true) as Hacc.
  { intros t Hin. apply bool_decide_eq_true_2. by apply vh_accepted. }
  clear Hvh. induction ts as [|t l IH]; [done|]. cbn [List.find].
  rewrite (Hacc t) by (by left). rewrite andb_true_r. destruct (has_id m id t); [done|].
  apply IH. intros u Hu. apply Hacc. by right.
Qed.

(** Iteration in a valid handoff delivers every tag. *)
Lemma vh_each {U} (cb : U -> Z -> option (U * Z)) u :
  bbp_for_each_tag m (Some k) (Some cb) u = deliver cb ts u 0.
Proof.
  rewrite (bbp_for_each_tag_spec _ _ _ _ ts);
    [|apply vh_info_ptr|apply vh_walk|apply vh_inspectable].
  f_equal. assert (forall t, In t ts -> accepted m k t = true) as Hacc.
  { intros t Hin. apply bool_decide_eq_true_2. by apply vh_accepted. }
  clear Hvh. induction ts as [|t l IH]; [done|]. cbn [List.filter].
  rewrite (Hacc t) by (by left). f_equal. apply IH. intros v Hv. apply Hacc. by right.
Qed.

End consumer.

(** ** The builder discharges the interface *)

Definition tag_ptr (b : bbp_builder) (t : tagrec) : Z := arena b + t_off t.

Section producer.
Context (b : bbp_builder) (info h bytes : Z).
Context (Hh : arena b = arena_phys b + h) (Hh0 : 0 <= h).
Context (Hphys : 0 < arena_phys b) (Hal : arena_phys b mod 8 = 0).
Context (Hmax : arena_phys b + bytes <= 2 ^ 48) (Hvmax : arena b + bytes < 2 ^ 64).

Let k : bbp_kctx := Kctx info h 1 (arena_phys b) (arena_phys b + bytes).

Lemma handoff_kctx_wf : 0 < bytes -> kctx_wf k.
Proof. unfold kctx_wf, in_word. cbn. lia. Qed.

(** Every chained, in-window tag is framed for the parser. *)
Lemma chained_framed m t next :
  0 <= t_off t -> t_off t + t_size t <= bytes -> t_off t mod 8 = 0 ->
  32 <= t_size t <= 2 ^ 24 -> bytes_at m (tag_ptr b t) (hdr_bytes t next) ->
  framed m k (arena_phys b + t_off t) (tag_ptr b t) (t_size t).
Proof.
  intros Ho Hs Hm Hsz Hat. unfold tag_ptr in *. split.
  - eapply hdr_size; [unfold in_word; lia|done].
  - kconsts. lia.
  - cbn. lia.
  - rewrite Zplus_mod, Hal, Hm. done.
  - kconsts. lia.
  - lia.
  - intros _. cbn. lia.
Qed.

Lemma chained_walk m lo ts steps :
  tags_ok lo bytes ts -> 0 <= lo -> linked m b ts -> (length ts <= steps)%nat ->
  walk_loop m k (next_phys b ts) steps = Some (map (tag_ptr b) ts).
Proof.
  revert lo steps. induction ts as [|t ts IH]; intros lo steps Hok Hlo Hl Hsteps.
  { destruct steps; done. }
  destruct steps as [|steps]; [cbn in Hsteps; lia|].
  cbn [tags_ok linked length] in *.
  destruct Hok as (? & Hm & Hsz & Hid & Hver & Hok), Hl as [Hat Hl].
  pose proof (tags_ok_le _ _ _ Hok).
  assert (kctx_wf k) as Hwf by (apply handoff_kctx_wf; lia).
  cbn [walk_loop next_phys map]. replace (arena_phys b + t_off t =? 0) with false by lia.
  rewrite (framed_tag_at _ _ _ (tag_ptr b t) (t_size t)); [|done|].
  - cbn [mbind option_bind]. rewrite (hdr_next m (tag_ptr b t) t (next_phys b ts)); [| |done].
    + cbn [mbind option_bind]. rewrite (IH (t_off t + t_size t)); [done|done|lia|done|lia].
    + eapply next_phys_word; [|lia| |exact Hok]; lia.
  - eapply chained_framed; [lia|lia|done|done|exact Hat].
Qed.

End producer.

(** An INFO structure with the right fields is accepted. *)
Lemma info_fields_ok m info bs size :
  load_bytes m info 144 = Some bs -> sealed bs 136 -> take 16 bs = BBP_INFO_MAGIC ->
  load16 m (info + 16) = Some 1 -> load32 m (info + 20) = Some size ->
  SIZEOF_INFO <= size <= BBP_MAX_INFO_SIZE -> info_status bs = BBP_OK.
Proof.
  intros Hbs Hsl Hmag Hmaj Hsz Hr. unfold info_status, field.
  rewrite bool_decide_eq_true_2 by done.
  change (info + 16) with (info + Z.of_nat 16) in Hmaj.
  change (info + 20) with (info + Z.of_nat 20) in Hsz. unfold load16, load32 in *.
  rewrite (load_le_of_bytes _ _ _ _ _ _ Hbs) in Hmaj by lia.
  rewrite (load_le_of_bytes _ _ _ _ _ _ Hbs) in Hsz by lia.
  injection Hmaj as ->. injection Hsz as ->. cbn [Z.eqb Pos.eqb BBP_VERSION_MAJOR].
  replace ((SIZEOF_INFO <=? size) && (size <=? BBP_MAX_INFO_SIZE)) with true by lia.
  by rewrite bool_decide_eq_true_2.
Qed.

(** A sealed tag of a chain passes the parser's checksum test. *)
Lemma sealed_crc_ok m b ts t bs :
  linked m b ts -> In t ts ->
  load_bytes m (tag_ptr b t) (Z.to_nat (t_size t)) = Some bs -> sealed bs 24 ->
  32 <= t_size t <= 2 ^ 24 -> bbp_tag_crc_ok m (tag_ptr b t) = Some true.
Proof.
  intros Hl Hin Hld Hsl Hsz.
  assert (exists next, bytes_at m (tag_ptr b t) (hdr_bytes t next)) as [next Hhd].
  { clear -Hl Hin. induction ts as [|u ts IH]; [done|]. destruct Hl as [Hu Hl].
    destruct Hin as [->|Hin]; [by eexists|by apply IH]. }
  rewrite (bbp_tag_crc_ok_spec _ _ (t_size t) bs);
    [|eapply hdr_size; [unfold in_word; lia|done]|lia|done].
  by rewrite bool_decide_eq_true_2.
Qed.

(** What finalization leaves in memory: the chain with every tag sealed, and an
    acceptable INFO structure that points at it. *)
Record sealed_arena (m : mem) (b : bbp_builder) (ts : list tagrec) (info : Z) : Prop := SealedArena {
  sa_linked : linked m b ts;
  sa_sealed : Forall (tag_sealed m b) ts;
  sa_info : exists bs, load_bytes m info 144 = Some bs /\ info_status bs = BBP_OK;
  sa_first : load64 m (info + 120) = Some (next_phys b ts);
  sa_mapped : mapped m (arena b) (capacity b);
}.

(** The outcome of finalizing a sound builder. *)
Lemma finalize_sealed m b ts info info_phys fuel :
  builder_rep m b ts -> 0 < info -> mapped m info SIZEOF_INFO ->
  disjoint_range info SIZEOF_INFO (arena b) (capacity b) ->
  used b <= BBP_BUILDER_MAX_INFO - SIZEOF_INFO -> (length ts < fuel)%nat ->
  exists m',
    bbp_builder_finalize m (Some b) info info_phys fuel = Some (m', Some b, info_phys) /\
    same_dom m m' /\ sealed_arena m' b ts info /\
    (forall x, ~ (info <= x < info + SIZEOF_INFO) -> ~ in_checksum b ts x -> m' !! x = m !! x).
Proof.
  intros Hrep Hinfo Hmi Hdis Hus Hfuel.
  pose proof Hrep as [[? ?] [[? ?] Hal] [? ?] Hm Hov [Hcnt Hcnt'] Htags Hl Hfirst Hlast].
  destruct (seal_chain_spec m b 0 (used b) ts fuel) as (m1 & Hs1 & Hd1 & Hl1 & Hall & Hf1);
    [done|lia|lia|lia|lia|done|done|done|].
  rewrite <- Hfirst in Hs1.
  destruct (seal_info_spec m1 b info) as
    (m2 & bs & Hs2 & Hd2 & Hbs & Hsl & Hmag & Hmaj & Hsz & _ & Hft & Hf2 & _).
  { by rewrite <- Hd1. }
  { unfold zlen in *. unfold in_word. lia. }
  { rewrite Hfirst. eapply next_phys_word; [| | |exact Htags]; lia. }
  { lia. }
  assert (same_on m1 m2 (arena b) (capacity b)) as Hf2'.
  { intros x Hx. apply Hf2. intros Hx'. apply (Hdis x); [unfold SIZEOF_INFO; lia|done]. }
  exists m2. split; [|split; [by etrans|split]].
  - unfold bbp_builder_finalize. replace (info =? 0) with false by lia.
    rewrite Hov. cbn [Z.eqb negb orb].
    replace (BBP_BUILDER_MAX_TAGS <? tag_count b) with false by (bconsts; lia).
    replace (capacity b <? used b) with false by lia.
    replace (BBP_BUILDER_MAX_INFO - SIZEOF_INFO <? used b) with false by lia.
    cbn [orb]. rewrite Hs1. cbn [mbind option_bind]. by rewrite Hs2.
  - split.
    + eapply linked_same_on; [exact Htags|exact Hl1|]. eapply same_on_sub; [exact Hf2'|lia|lia].
    + apply List.Forall_forall. intros t Hin. rewrite List.Forall_forall in Hall.
      destruct (Hall t Hin) as (tb & Htb & Hsd). exists tb. split; [|done].
      destruct (tags_ok_in _ _ _ _ Htags Hin) as (? & ? & ? & ? & ? & ?).
      rewrite <- Htb. apply load_bytes_same_on. eapply same_on_sub; [exact Hf2'|lia|lia].
    + exists bs. split; [done|].
      eapply info_fields_ok; [done|done|done|done|exact Hsz|bconsts; kconsts; lia].
    + by rewrite <- Hfirst.
    + by rewrite <- Hd2, <- Hd1.
  - intros x Hx Hc. rewrite Hf2 by (unfold SIZEOF_INFO in Hx; lia). by apply Hf1.
Qed.

(** A sealed arena seen through a direct map is a valid handoff. *)
Lemma sealed_valid m b ts info h bytes :
  sealed_arena m b ts info -> tags_ok 0 (used b) ts -> (length ts <= 1024)%nat -> 0 < info ->
  arena b = arena_phys b + h -> 0 <= h -> 0 < arena_phys b -> arena_phys b mod 8 = 0 ->
  0 < bytes -> used b <= bytes <= capacity b ->
  arena_phys b + bytes <= 2 ^ 48 -> arena b + bytes < 2 ^ 64 ->
  ValidHandoff m (Kctx info h 1 (arena_phys b) (arena_phys b + bytes)) (map (tag_ptr b) ts).
Proof.
  intros [Hl Hall Hi Hft Hm] Htags Hlen Hinfo Hh Hh0 Hp Hal Hb0 Hb Hmax Hvmax.
  assert (tags_ok 0 bytes ts) as Htb by (eapply tags_ok_weaken; [| |exact Htags]; lia).
  split; cbn [k_info].
  - lia.
  - apply (handoff_kctx_wf b info h bytes); lia.
  - done.
  - unfold tag_walk. cbn [k_info]. rewrite Hft. cbn [mbind option_bind].
    eapply chained_walk; [done|done|lia|done|done|exact Hvmax|exact Htb|lia|done|].
    unfold BBP_MAX_TAGS. lia.
  - apply List.Forall_forall. intros p Hin. apply in_map_iff in Hin as (t & <- & Hin).
    rewrite List.Forall_forall in Hall. destruct (Hall t Hin) as (tb & Htbs & Htsl).
    destruct (tags_ok_in _ _ _ _ Htags Hin) as (? & ? & ? & ? & ? & ?).
    eapply (sealed_crc_ok m b ts t tb); [done|done|done|done|lia].
  - apply List.Forall_forall. intros p Hin. apply in_map_iff in Hin as (t & <- & Hin).
    destruct (tags_ok_in _ _ _ _ Htags Hin) as (? & ? & ? & ? & ? & ?).
    destruct (mapped_load_le m (tag_ptr b t) 8) as (v & Hv & _); [|by exists v].
    unfold tag_ptr. eapply mapped_sub; [exact Hm|lia|lia].
Qed.

(** The outcome of finalizing a sound builder, as a valid handoff. *)
Lemma finalize_handoff m b ts info info_phys fuel h bytes :
  builder_rep m b ts -> 0 < info -> mapped m info SIZEOF_INFO ->
  disjoint_range info SIZEOF_INFO (arena b) (capacity b) ->
  arena b = arena_phys b + h -> 0 <= h ->
  used b <= BBP_BUILDER_MAX_INFO - SIZEOF_INFO ->
  0 < bytes -> used b <= bytes <= capacity b ->
  arena_phys b + bytes <= 2 ^ 48 -> arena b + bytes < 2 ^ 64 -> (length ts < fuel)%nat ->
  exists m',
    bbp_builder_finalize m (Some b) info info_phys fuel = Some (m', Some b, info_phys) /\
    same_dom m m' /\
    ValidHandoff m' (Kctx info h 1 (arena_phys b) (arena_phys b + bytes)) (map (tag_ptr b) ts) /\
    linked m' b ts /\
    (forall x, arena b <= x < arena b + capacity b -> ~ in_checksum b ts x -> m' !! x = m !! x).
Proof.
  intros Hrep Hinfo Hmi Hdis Hh Hh0 Hus Hb0 Hb Hmax Hvmax Hfuel.
  destruct (finalize_sealed m b ts info info_phys fuel) as (m' & E & D & Hs & F); [done..|].
  pose proof Hrep as [[? ?] [[? ?] Hal] _ _ _ [Hcnt Hcnt'] Htags _ _ _].
  exists m'. split; [done|]. split; [done|]. split; [|split; [apply Hs|]].
  - apply sealed_valid; try done. unfold zlen in Hcnt. lia.
  - intros x Hx Hc. apply F; [|done]. intros Hi. by apply (Hdis x).
Qed.

(** The bounded initialiser accepts a valid handoff; a direct-map hint is kept. *)
Lemma init_bounded_accepts m cand k0 info h lo bytes ts :
  ValidHandoff m (Kctx info h 1 lo (lo + bytes)) ts ->
  0 < lo -> 0 < bytes -> lo + bytes <= 2 ^ 48 -> mapped m (lo + h) bytes ->
  exists off,
    bbp_init_bounded m cand (Some k0) info h lo bytes =
      Some (Some (Kctx info off 1 lo (lo + bytes)), BBP_OK) /\ (h <> 0 -> off = h).
Proof.
  intros Hvh Hlo Hb Hmax Hm. set (k := Kctx info h 1 lo (lo + bytes)) in *.
  pose proof (vh_info_ptr (ValidHandoff := Hvh)) as Hi. cbn in Hi.
  assert (WindowMapped m k) as Hwm.
  { split; [apply vh_wf|cbn; unfold windowed; cbn; lia|]. cbn. intros p Hp _. apply Hm. lia. }
  destruct (vh_info (ValidHandoff := Hvh)) as (bs & Hbs & Hst).
  destruct (bbp_init_win_spec m cand info h lo (lo + bytes) bs) as (ws & _ & Hw & _); [lia|done|done|].
  rewrite Hst, bool_decide_eq_true_2 in Hw by done. eexists. split.
  - unfold bbp_init_bounded. replace (info =? 0) with false by lia.
    replace ((lo =? 0) || (bytes =? 0)) with false by lia.
    replace (BBP_MAX_PHYS <? bytes) with false by (kconsts; lia).
    replace (BBP_MAX_PHYS - bytes <? lo) with false by (kconsts; lia).
    rewrite Hw. cbn [mbind option_bind]. by rewrite bool_decide_eq_true_2.
  - intros Hne. unfold hhdm_choice. cbn [hhdm_offset]. replace (h =? 0) with false by lia.
    cbn [andb]. by repeat case_match.
Qed.

(** ** Properties *)

Lemma has_id_hdr m b lo hi ts id :
  tags_ok lo hi ts -> linked m b ts ->
  List.find (has_id m id) (map (tag_ptr b) ts) =
  option_map (tag_ptr b) (List.find (fun t => t_id t =? id) ts).
Proof.
  revert lo. induction ts as [|t ts IH]; intros lo Hok Hl; [done|].
  cbn [tags_ok linked map List.find] in *.
  destruct Hok as (? & ? & ? & Hid & ? & Hok), Hl as [Hat Hl].
  fold (tag_ptr b t) in Hat. unfold has_id at 1. rewrite (hdr_id _ _ _ _ Hid Hat).
  destruct (Z.eqb_spec (t_id t) id) as [->|Hne].
  - by rewrite bool_decide_eq_true_2.
  - rewrite bool_decide_eq_false_2 by congruence. by eapply IH.
Qed.

(** C1: end-to-end handoff.  Start from initialisation and make any sequence
    of builder calls and body writes that did not fail; finalization then
    terminates, the bounded initialiser of the kernel accepts the result, and
    lookup under the direct-map offset returns, for every identifier, exactly
    the first tag appended with it (NULL if there is none), at the address
    the builder gave it; no byte the producer wrote into a tag body was
    changed by sealing. *)
Theorem handoff_roundtrip (m0 : mem) (b0 : bbp_builder) (a phys cap : Z)
    (m1 : mem) (b1 : bbp_builder) (m : mem) (b : bbp_builder) (ts : list tagrec)
    (info info_phys h bytes : Z) (fuel : nat) (cand k0 : bbp_kctx) :
  arena_given a phys cap ->
  bbp_builder_init m0 (Some b0) a phys cap = Some (m1, Some b1) ->
  rtc bstep (m1, b1, []) (m, b, ts) -> overflow b = 0 ->
  0 < info -> mapped m info SIZEOF_INFO ->
  disjoint_range info SIZEOF_INFO (arena b) (capacity b) ->
  arena b = arena_phys b + h -> 0 <= h ->
  used b <= BBP_BUILDER_MAX_INFO - SIZEOF_INFO ->
  0 < bytes -> used b <= bytes <= capacity b ->
  arena_phys b + bytes <= 2 ^ 48 -> arena b + bytes < 2 ^ 64 -> (length ts < fuel)%nat ->
  exists m' off,
    bbp_builder_finalize m (Some b) info info_phys fuel = Some (m', Some b, info_phys) /\
    bbp_init_bounded m' cand (Some k0) info h (arena_phys b) bytes =
      Some (Some (Kctx info off 1 (arena_phys b) (arena_phys b + bytes)), BBP_OK) /\
    (forall id, bbp_find_tag m' (Some (Kctx info h 1 (arena_phys b) (arena_phys b + bytes))) id =
      Some (default 0 (option_map (tag_ptr b) (List.find (fun t => t_id t =? id) ts)))) /\
    (forall t, In t ts -> same_on m m' (tag_ptr b t + 32) (t_size t - 32)).
Proof.
  intros Hg Hi Hr Ho Hinfo Hmi Hdis Hh Hh0 Hus Hb0 Hb Hmax Hvmax Hfuel.
  pose proof (builder_reachable _ _ _ _ _ _ _ _ _ _ Hg Hi Hr Ho) as Hrep.
  destruct (finalize_handoff m b ts info info_phys fuel h bytes) as
    (m' & Hfin & Hd & Hvh & Hl & Hf); [done..|].
  set (k := Kctx info h 1 (arena_phys b) (arena_phys b + bytes)) in *.
  pose proof Hrep as [[? ?] [[? ?] ?] [? ?] Hm _ _ Htags _ _ _].
  destruct (init_bounded_accepts m' cand k0 info h (arena_phys b) bytes (map (tag_ptr b) ts))
    as (off & Hinit & _); [done|lia|lia|lia| |].
  { rewrite <- Hd. eapply mapped_sub; [exact Hm|lia|lia]. }
  exists m', off. split_and!; [done|done| |].
  - intros id. rewrite (vh_find m' k (map (tag_ptr b) ts)). do 2 f_equal. by eapply has_id_hdr.
  - intros t Hin x Hx. unfold tag_ptr in Hx.
    destruct (tags_ok_in _ _ _ _ Htags Hin) as (? & ? & ? & ? & ? & ?).
    apply Hf; [lia|]. intros (u & Hu & Hxu).
    destruct (tags_ok_apart _ _ _ _ _ Htags Hin Hu) as [->|]; [lia|].
    destruct (tags_ok_in _ _ _ _ Htags Hu) as (? & ? & ? & ? & ? & ?). lia.
Qed.

Lemma run3_base : arena Run.b3 = 8192 /\ arena_phys Run.b3 = 8192 /\
  capacity Run.b3 = 144 /\ used Run.b3 = 88.
Proof. vm_compute. done. Qed.

Lemma run3_info_mapped : mapped Run.m3 4096 144.
Proof.
  destruct (load_bytes Run.m3 4096 144) as [bs|] eqn:E.
  - exact (load_mapped _ _ _ _ E).
  - exfalso. assert (bool_decide (is_Some (load_bytes Run.m3 4096 144)) = true) as H
      by (vm_compute; reflexivity).
    rewrite E in H. discriminate.
Qed.

Lemma handoff_roundtrip_witness :
  exists m' off,
    bbp_builder_finalize Run.m3 (Some Run.b3) 4096 4096 3 = Some (m', Some Run.b3, 4096) /\
    bbp_init_bounded m' (Kctx 0 0 0 0 0) (Some (Kctx 0 0 0 0 0)) 4096 0 8192 88 =
      Some (Some (Kctx 4096 off 1 8192 8280), BBP_OK) /\
    bbp_find_tag m' (Some (Kctx 4096 0 1 8192 8280)) BBP_TAG_KERNEL_ADDRESS = Some 8232.
Proof.
  destruct run3_base as (Ha & Hp & Hc & Hu).
  destruct (handoff_roundtrip Run.mem0 Run.b0 8192 8192 144 Run.m1 Run.b1 Run.m3 Run.b3 Run.tags
              4096 4096 0 88 3 (Kctx 0 0 0 0 0) (Kctx 0 0 0 0 0)) as (m' & off & H1 & H2 & H3 & _).
  - exact Run.given.
  - exact Run.init_ok.
  - exact Run.steps.
  - exact Run.no_overflow3.
  - lia.
  - exact run3_info_mapped.
  - rewrite Ha, Hc. apply disjoint_range_intro. unfold SIZEOF_INFO. lia.
  - rewrite Ha, Hp. reflexivity.
  - lia.
  - rewrite Hu. vm_compute. discriminate.
  - lia.
  - rewrite Hu, Hc. lia.
  - rewrite Hp. lia.
  - rewrite Ha. lia.
  - vm_compute. lia.
  - rewrite Hp in H2, H3. exists m', off. split; [exact H1|]. split; [exact H2|].
    specialize (H3 BBP_TAG_KERNEL_ADDRESS). unfold tag_ptr in H3. rewrite Ha in H3. exact H3.
Defined.
