(* ===== verification/Capsule.v ===== *)
(** * The version 2 capsule (v2/bbp_v2.c, include/bbp/bbp_v2.h)

    The self-contained capsule format: little-endian accessors, the parser,
    the directory accessor, the builder and the digest.  A capsule is read in
    place from [Memory]; the caller's structures ([bbp_v2_view],
    [bbp_v2_entry_view], the array of build entries) are Rocq values, and a
    pointer to one of them that may be NULL is an [option]. *)

From stdpp Require Import strings.
From S2P Require Import Prelude Memory Crc64 Abi.

(** ** Constants and structures *)


Definition BBP_V2_VERSION_MAJOR : Z := 2.
Definition BBP_V2_VERSION_MINOR : Z := 0.
Definition BBP_V2_MAGIC_BYTES : list byte := [x42; x42; x50; x32; x43; x41; x50; x00].
Definition BBP_V2_HEADER_SIZE : Z := 64.
Definition BBP_V2_DIRENT_SIZE : Z := 48.
Definition BBP_V2_MAX_ENTRIES : Z := 1024.
Definition BBP_V2_MAX_ALIGNMENT : Z := 4096.
Definition BBP_V2_MAX_EXTENT : Z := 64 * 1024 * 1024.
Definition BBP_V2_MAX_CRC_WORK : Z := 96 * 1024 * 1024.
Definition BBP_V2_EF_EXTERNAL_PHYS : Z := Z.shiftl 1 0.
Definition BBP_V2_EF_V1_WIRE : Z := Z.shiftl 1 1.

Inductive bbp_v2_status_t :=
  | BBP_V2_OK
  | BBP_V2_ERR_NULL
  | BBP_V2_ERR_MAGIC
  | BBP_V2_ERR_VERSION
  | BBP_V2_ERR_FORMAT
  | BBP_V2_ERR_EXTENT
  | BBP_V2_ERR_OVERFLOW
  | BBP_V2_ERR_COUNT
  | BBP_V2_ERR_ALIGNMENT
  | BBP_V2_ERR_OVERLAP
  | BBP_V2_ERR_PADDING
  | BBP_V2_ERR_CRC
  | BBP_V2_ERR_WORK
  | BBP_V2_ERR_CAPACITY
  | BBP_V2_ERR_POLICY
  | BBP_V2_ERR_SOURCE.

#[global] Instance bbp_v2_status_eq_dec : EqDecision bbp_v2_status_t.
Proof. solve_decision. Defined.

Definition bbp_v2_header : ctype := Struct (
  [("magic", Array U8 8); ("version_major", U16); ("version_minor", U16);
   ("header_size", U16); ("directory_entry_size", U16); ("flags", U32);
   ("entry_count", U32); ("total_size", U64); ("directory_offset", U64);
   ("checksum", U64); ("reserved0", U64); ("reserved1", U64)])%string.

Definition bbp_v2_directory_entry : ctype := Struct (
  [("type", U64); ("flags", U32); ("version", U16); ("reserved0", U16);
   ("offset", U64); ("size", U64); ("checksum", U64); ("alignment", U32);
   ("reserved1", U32)])%string.

Record bbp_v2_view := V2View {
  v_data : Z;
  v_total_size : Z;
  v_directory_offset : Z;
  v_flags : Z;
  v_entry_count : Z;
}.

Record bbp_v2_entry_view := V2EntryView {
  ev_type : Z;
  ev_flags : Z;
  ev_version : Z;
  ev_alignment : Z;
  ev_offset : Z;
  ev_size : Z;
  ev_checksum : Z;
  ev_data : Z;
}.

Record bbp_v2_build_entry := V2BuildEntry {
  be_type : Z;
  be_flags : Z;
  be_version : Z;
  be_alignment : Z;
  be_data : Z;
  be_size : Z;
}.

(** ** Little-endian accessors *)

Definition get16 (m : mem) (p : Z) : option Z :=
  p0 ← m !! p;
  p1 ← m !! (p + 1);
  Some (wrap16 (Z.lor (byte_Z p0) (wrap16 (Z.shiftl (byte_Z p1) 8)))).

Definition get32 (m : mem) (p : Z) : option Z :=
  p0 ← m !! p;
  p1 ← m !! (p + 1);
  p2 ← m !! (p + 2);
  p3 ← m !! (p + 3);
  Some (Z.lor (Z.lor (Z.lor (byte_Z p0) (wrap32 (Z.shiftl (byte_Z p1) 8)))
    (wrap32 (Z.shiftl (byte_Z p2) 16))) (wrap32 (Z.shiftl (byte_Z p3) 24))).

(** [for (i = 0; i < 8; i++) value |= (uint64_t)p[i] << (8u * i)], with [n]
    iterations left. *)
Fixpoint get64_loop (m : mem) (p i value : Z) (n : nat) : option Z :=
  match n with
  | O => Some value
  | S n =>
      b ← m !! (p + i);
      get64_loop m p (i + 1) (Z.lor value (wrap64 (Z.shiftl (byte_Z b) (8 * i)))) n
  end.
Definition get64 (m : mem) (p : Z) : option Z := get64_loop m p 0 0 8.

(** [for (i = 0; i < n; i++) p[i] = (uint8_t)(value >> (8u * i))] *)
Fixpoint put_loop (m : mem) (p i value : Z) (n : nat) : option mem :=
  match n with
  | O => Some m
  | S n =>
      m ← store8 m (p + i) (Z_byte (Z.shiftr value (8 * i)));
      put_loop m p (i + 1) value n
  end.
Definition put16 (m : mem) (p value : Z) : option mem := put_loop m p 0 value 2.
Definition put32 (m : mem) (p value : Z) : option mem := put_loop m p 0 value 4.
Definition put64 (m : mem) (p value : Z) : option mem := put_loop m p 0 value 8.

Definition bytes_zero (m : mem) (data : Z) (size : nat) : option mem := mem_zero m data size.
Definition bytes_copy (m : mem) (destination source : Z) (size : nat) : option mem :=
  mem_copy m destination source size.

Definition power_of_two (value : Z) : bool :=
  negb (value =? 0) && (Z.land value (wrap32 (value - 1)) =? 0).

Definition span_overlaps (a a_s b b_s : Z) : bool :=
  (a <? wrap64 (b + b_s)) && (b <? wrap64 (a + a_s)).

Definition directory_entry (capsule directory_offset index : Z) : Z :=
  capsule + directory_offset + index * BBP_V2_DIRENT_SIZE.

Definition crc_with_zero_checksum (m : mem) (capsule extent : Z) : option Z :=
  let crc := bbp_crc64_init in
  crc ← bbp_crc64_update m crc capsule 40;
  let crc := crc64_list crc (replicate 8 x00) in
  crc ← bbp_crc64_update m crc (capsule + 48) (Z.to_nat (extent - 48));
  Some (bbp_crc64_final crc).

(** ** Padding *)

(** The inner selection loop: the span with the least start at or after
    [cursor], seen so far in [best_start] and [best_size]. *)
Fixpoint select_span (m : mem) (capsule directory_offset cursor : Z)
    (i best_start best_size : Z) (n : nat) : option (Z * Z) :=
  match n with
  | O => Some (best_start, best_size)
  | S n =>
      let entry := directory_entry capsule directory_offset i in
      start ← get64 m (entry + 16);
      if (cursor <=? start) && (start <? best_start) then
        size ← get64 m (entry + 24);
        select_span m capsule directory_offset cursor (i + 1) start size n
      else select_span m capsule directory_offset cursor (i + 1) best_start best_size n
  end.

(** One step of the outer loop up to the selection. *)
Definition next_span (m : mem) (capsule extent directory_offset entry_count cursor : Z) :
    option (Z * Z) :=
  let '(best_start, best_size) :=
    if cursor =? 0 then (0, BBP_V2_HEADER_SIZE) else (extent, 0) in
  let '(best_start, best_size) :=
    if negb (entry_count =? 0) && (cursor <=? directory_offset) &&
       (directory_offset <? best_start)
    then (directory_offset, entry_count * BBP_V2_DIRENT_SIZE)
    else (best_start, best_size) in
  select_span m capsule directory_offset cursor 0 best_start best_size
    (Z.to_nat entry_count).

(** The remaining steps of the outer loop and the check of the tail. *)
Fixpoint padding_loop (m : mem) (capsule extent directory_offset entry_count cursor : Z)
    (steps : nat) : option bbp_v2_status_t :=
  match steps with
  | O =>
      if cursor <? extent then
        z ← bytes_are_zero m (capsule + cursor) (Z.to_nat (extent - cursor));
        Some (if z : bool then BBP_V2_OK else BBP_V2_ERR_PADDING)
      else Some BBP_V2_OK
  | S steps =>
      '(best_start, best_size) ←
        next_span m capsule extent directory_offset entry_count cursor;
      reject best_size =? 0 with Some BBP_V2_ERR_FORMAT;
      z ← (if cursor <? best_start
           then bytes_are_zero m (capsule + cursor) (Z.to_nat (best_start - cursor))
           else Some true);
      check (z : bool) else Some BBP_V2_ERR_PADDING;
      padding_loop m capsule extent directory_offset entry_count
        (wrap64 (best_start + best_size)) steps
  end.

Definition validate_padding (m : mem) (capsule extent directory_offset entry_count : Z) :
    option bbp_v2_status_t :=
  let span_count := wrap32 (entry_count + 1 + (if negb (entry_count =? 0) then 1 else 0)) in
  padding_loop m capsule extent directory_offset entry_count 0 (Z.to_nat span_count).

(** ** The parser

    A loop that may return early yields [inl status] for the early return and
    [inr v] when it falls through. *)

(** [for (j = 0; j < i; j++)]: does an earlier entry overlap? *)
Fixpoint overlaps_prior (m : mem) (capsule directory_offset offset size j : Z) (n : nat) :
    option bool :=
  match n with
  | O => Some false
  | S n =>
      let prior := directory_entry capsule directory_offset j in
      po ← get64 m (prior + 16);
      ps ← get64 m (prior + 24);
      reject span_overlaps offset size po ps with Some true;
      overlaps_prior m capsule directory_offset offset size (j + 1) n
  end.

(** The body of the first loop over the directory; the result is the new
    [crc_work]. *)
Definition parse_entry (m : mem) (capsule total_size directory_offset directory_size : Z)
    (i crc_work : Z) : option (bbp_v2_status_t + Z) :=
  let entry := directory_entry capsule directory_offset i in
  offset ← get64 m (entry + 16);
  size ← get64 m (entry + 24);
  alignment ← get32 m (entry + 40);
  r0 ← get16 m (entry + 14);
  reject negb (r0 =? 0) with Some (inl BBP_V2_ERR_FORMAT);
  r1 ← get32 m (entry + 44);
  reject negb (r1 =? 0) with Some (inl BBP_V2_ERR_FORMAT);
  reject negb (power_of_two alignment) || (BBP_V2_MAX_ALIGNMENT <? alignment) ||
    negb (Z.land offset (wrap32 (alignment - 1)) =? 0) with Some (inl BBP_V2_ERR_ALIGNMENT);
  reject size =? 0 with Some (inl BBP_V2_ERR_FORMAT);
  reject (total_size <? offset) || (total_size - offset <? size)
    with Some (inl BBP_V2_ERR_OVERFLOW);
  reject span_overlaps offset size 0 BBP_V2_HEADER_SIZE ||
    span_overlaps offset size directory_offset directory_size
    with Some (inl BBP_V2_ERR_OVERLAP);
  o ← overlaps_prior m capsule directory_offset offset size 0 (Z.to_nat i);
  reject (o : bool) with Some (inl BBP_V2_ERR_OVERLAP);
  reject wrap64 (BBP_V2_MAX_CRC_WORK - crc_work) <? size with Some (inl BBP_V2_ERR_WORK);
  Some (inr (wrap64 (crc_work + size))).

Fixpoint parse_entries (m : mem) (capsule total_size directory_offset directory_size : Z)
    (i crc_work : Z) (n : nat) : option (bbp_v2_status_t + Z) :=
  match n with
  | O => Some (inr crc_work)
  | S n =>
      r ← parse_entry m capsule total_size directory_offset directory_size i crc_work;
      match r with
      | inl status => Some (inl status)
      | inr crc_work =>
          parse_entries m capsule total_size directory_offset directory_size (i + 1) crc_work n
      end
  end.

(** The second loop: every payload has the CRC its entry states. *)
Fixpoint payload_crcs (m : mem) (capsule directory_offset i : Z) (n : nat) : option bool :=
  match n with
  | O => Some true
  | S n =>
      let entry := directory_entry capsule directory_offset i in
      offset ← get64 m (entry + 16);
      size ← get64 m (entry + 24);
      got ← bbp_crc64 m (capsule + offset) (Z.to_nat size);
      sum ← get64 m (entry + 32);
      reject negb (got =? sum) with Some false;
      payload_crcs m capsule directory_offset (i + 1) n
  end.

(** The result is the status and the value of [*out] afterwards. *)
Definition bbp_v2_parse (m : mem) (capsule extent : Z) (out : option bbp_v2_view) :
    option (bbp_v2_status_t * option bbp_v2_view) :=
  let fail status := Some (status, out) in
  match out with
  | None => fail BBP_V2_ERR_NULL
  | Some _ =>
  reject capsule =? 0 with fail BBP_V2_ERR_NULL;
  reject (extent <? BBP_V2_HEADER_SIZE) || (BBP_V2_MAX_EXTENT <? extent)
    with fail BBP_V2_ERR_EXTENT;
  e ← bytes_equal m capsule BBP_V2_MAGIC_BYTES;
  check (e : bool) else fail BBP_V2_ERR_MAGIC;
  major ← get16 m (capsule + 8);
  reject negb (major =? BBP_V2_VERSION_MAJOR) with fail BBP_V2_ERR_VERSION;
  minor ← get16 m (capsule + 10);
  reject negb (minor =? BBP_V2_VERSION_MINOR) with fail BBP_V2_ERR_VERSION;
  hs ← get16 m (capsule + 12);
  reject negb (hs =? BBP_V2_HEADER_SIZE) with fail BBP_V2_ERR_FORMAT;
  ds ← get16 m (capsule + 14);
  reject negb (ds =? BBP_V2_DIRENT_SIZE) with fail BBP_V2_ERR_FORMAT;
  flags ← get32 m (capsule + 16);
  reject negb (flags =? 0) with fail BBP_V2_ERR_FORMAT;
  r0 ← get64 m (capsule + 48);
  reject negb (r0 =? 0) with fail BBP_V2_ERR_FORMAT;
  r1 ← get64 m (capsule + 56);
  reject negb (r1 =? 0) with fail BBP_V2_ERR_FORMAT;
  total_size ← get64 m (capsule + 24);
  reject negb (total_size =? extent) || (BBP_V2_MAX_EXTENT <? total_size)
    with fail BBP_V2_ERR_EXTENT;
  entry_count ← get32 m (capsule + 20);
  reject BBP_V2_MAX_ENTRIES <? entry_count with fail BBP_V2_ERR_COUNT;
  directory_offset ← get64 m (capsule + 32);
  reject negb (Z.land directory_offset 7 =? 0) with fail BBP_V2_ERR_ALIGNMENT;
  reject (entry_count =? 0) &&
    (negb (directory_offset =? BBP_V2_HEADER_SIZE) || negb (total_size =? BBP_V2_HEADER_SIZE))
    with fail BBP_V2_ERR_FORMAT;
  let directory_size := entry_count * BBP_V2_DIRENT_SIZE in
  reject (directory_offset <? BBP_V2_HEADER_SIZE) || (total_size <? directory_offset) ||
    (total_size - directory_offset <? directory_size) with fail BBP_V2_ERR_OVERFLOW;
  r ← parse_entries m capsule total_size directory_offset directory_size 0 total_size
        (Z.to_nat entry_count);
  match r with
  | inl status => fail status
  | inr _ =>
  status ← validate_padding m capsule extent directory_offset entry_count;
  reject negb (bool_decide (status = BBP_V2_OK)) with fail status;
  got ← crc_with_zero_checksum m capsule extent;
  sum ← get64 m (capsule + 40);
  reject negb (got =? sum) with fail BBP_V2_ERR_CRC;
  ok ← payload_crcs m capsule directory_offset 0 (Z.to_nat entry_count);
  check (ok : bool) else fail BBP_V2_ERR_CRC;
  flags ← get32 m (capsule + 16);
  Some (BBP_V2_OK, Some (V2View capsule extent directory_offset flags entry_count))
  end end.

(** ** The directory accessor *)

Definition bbp_v2_get_entry (m : mem) (view : option bbp_v2_view) (index : Z)
    (out : option bbp_v2_entry_view) :
    option (bbp_v2_status_t * option bbp_v2_entry_view) :=
  let fail status := Some (status, out) in
  match view, out with
  | Some view, Some _ =>
  reject v_data view =? 0 with fail BBP_V2_ERR_NULL;
  reject (BBP_V2_MAX_ENTRIES <? v_entry_count view) || (v_entry_count view <=? index)
    with fail BBP_V2_ERR_COUNT;
  let directory_size := v_entry_count view * BBP_V2_DIRENT_SIZE in
  reject (v_total_size view <? BBP_V2_HEADER_SIZE) ||
    (BBP_V2_MAX_EXTENT <? v_total_size view) ||
    (v_directory_offset view <? BBP_V2_HEADER_SIZE) ||
    (v_total_size view <? v_directory_offset view) ||
    (v_total_size view - v_directory_offset view <? directory_size)
    with fail BBP_V2_ERR_EXTENT;
  let entry := directory_entry (v_data view) (v_directory_offset view) index in
  offset ← get64 m (entry + 16);
  size ← get64 m (entry + 24);
  reject (v_total_size view <? offset) || (v_total_size view - offset <? size)
    with fail BBP_V2_ERR_EXTENT;
  type ← get64 m entry;
  flags ← get32 m (entry + 8);
  version ← get16 m (entry + 12);
  checksum ← get64 m (entry + 32);
  alignment ← get32 m (entry + 40);
  Some (BBP_V2_OK, Some (V2EntryView type flags version alignment offset size checksum
                           (v_data view + offset)))
  | _, _ => fail BBP_V2_ERR_NULL
  end.

(** ** The builder *)

(** [Some out] is a return of 1 with [*out] set, [None] a return of 0. *)
Definition align_up (value alignment : Z) : option Z :=
  let mask := wrap64 (alignment - 1) in
  reject SIZE_MAX - mask <? value with None;
  Some (Z.land (wrap64 (value + mask)) (wrap64 (Z.lnot mask))).

Definition memory_ranges_overlap (a a_size b b_size : Z) : bool :=
  reject (SIZE_MAX - a <? a_size) || (SIZE_MAX - b <? b_size) with true;
  (a <? wrap64 (b + b_size)) && (b <? wrap64 (a + a_size)).

(** The sizing loop: the position after the last payload and the payload
    bytes in total. *)
Definition size_entry (e : bbp_v2_build_entry) (cursor payload_work : Z) :
    bbp_v2_status_t + (Z * Z) :=
  reject (be_data e =? 0) || (be_size e =? 0) with inl BBP_V2_ERR_NULL;
  reject negb (power_of_two (be_alignment e)) || (BBP_V2_MAX_ALIGNMENT <? be_alignment e)
    with inl BBP_V2_ERR_ALIGNMENT;
  match align_up cursor (be_alignment e) with
  | None => inl BBP_V2_ERR_OVERFLOW
  | Some cursor =>
      reject SIZE_MAX - cursor <? be_size e with inl BBP_V2_ERR_OVERFLOW;
      let cursor := wrap64 (cursor + be_size e) in
      reject wrap64 (BBP_V2_MAX_CRC_WORK - payload_work) <? be_size e
        with inl BBP_V2_ERR_WORK;
      let payload_work := wrap64 (payload_work + be_size e) in
      reject BBP_V2_MAX_EXTENT <? cursor with inl BBP_V2_ERR_EXTENT;
      inr (cursor, payload_work)
  end.

Fixpoint size_loop (entries : list bbp_v2_build_entry) (i : nat) (cursor payload_work : Z)
    (n : nat) : option (bbp_v2_status_t + (Z * Z)) :=
  match n with
  | O => Some (inr (cursor, payload_work))
  | S n =>
      e ← entries !! i;
      match size_entry e cursor payload_work with
      | inl status => Some (inl status)
      | inr (cursor, payload_work) => size_loop entries (S i) cursor payload_work n
      end
  end.

Fixpoint source_overlaps (entries : list bbp_v2_build_entry) (output total : Z) (i n : nat) :
    option bool :=
  match n with
  | O => Some false
  | S n =>
      e ← entries !! i;
      reject memory_ranges_overlap output total (be_data e) (be_size e) with Some true;
      source_overlaps entries output total (S i) n
  end.

(** The directory entry of a payload that lies at [cursor]. *)
Definition write_dirent (m : mem) (output entry cursor : Z) (e : bbp_v2_build_entry) :
    option mem :=
  m ← put64 m entry (be_type e);
  m ← put32 m (entry + 8) (be_flags e);
  m ← put16 m (entry + 12) (be_version e);
  m ← put64 m (entry + 16) cursor;
  m ← put64 m (entry + 24) (be_size e);
  crc ← bbp_crc64 m (output + cursor) (Z.to_nat (be_size e));
  m ← put64 m (entry + 32) crc;
  put32 m (entry + 40) (be_alignment e).

(** One iteration of the writing loop: the payload, then its directory
    entry; the result is the memory and the new cursor.  [align_up] succeeded
    in the sizing loop, and where it fails [*out] keeps its value. *)
Definition write_entry (m : mem) (output : Z) (e : bbp_v2_build_entry) (i cursor : Z) :
    option (mem * Z) :=
  let entry := output + BBP_V2_HEADER_SIZE + i * BBP_V2_DIRENT_SIZE in
  let cursor := default cursor (align_up cursor (be_alignment e)) in
  m ← bytes_copy m (output + cursor) (be_data e) (Z.to_nat (be_size e));
  m ← write_dirent m output entry cursor e;
  Some (m, wrap64 (cursor + be_size e)).

Fixpoint write_loop (m : mem) (output : Z) (entries : list bbp_v2_build_entry) (i : nat)
    (cursor : Z) (n : nat) : option (mem * Z) :=
  match n with
  | O => Some (m, cursor)
  | S n =>
      e ← entries !! i;
      '(m, cursor) ← write_entry m output e (Z.of_nat i) cursor;
      write_loop m output entries (S i) cursor n
  end.

Definition write_header (m : mem) (output entry_count total : Z) : option mem :=
  m ← store_bytes m output BBP_V2_MAGIC_BYTES;
  m ← put16 m (output + 8) BBP_V2_VERSION_MAJOR;
  m ← put16 m (output + 10) BBP_V2_VERSION_MINOR;
  m ← put16 m (output + 12) BBP_V2_HEADER_SIZE;
  m ← put16 m (output + 14) BBP_V2_DIRENT_SIZE;
  m ← put32 m (output + 16) 0;
  m ← put32 m (output + 20) entry_count;
  m ← put64 m (output + 24) total;
  put64 m (output + 32) BBP_V2_HEADER_SIZE.

(** The result is the status, the value of [*written] afterwards and the
    memory. *)
Definition bbp_v2_build (m : mem) (output capacity : Z)
    (entries : option (list bbp_v2_build_entry)) (entry_count : Z) (written : option Z) :
    option (bbp_v2_status_t * option Z * mem) :=
  let written := (fun _ => 0) <$> written in
  let fail status := Some (status, written, m) in
  match written with
  | None => fail BBP_V2_ERR_NULL
  | Some _ =>
  reject (output =? 0) || (negb (entry_count =? 0) && bool_decide (entries = None))
    with fail BBP_V2_ERR_NULL;
  reject BBP_V2_MAX_ENTRIES <? entry_count with fail BBP_V2_ERR_COUNT;
  let entries := default [] entries in
  let cursor := BBP_V2_HEADER_SIZE + entry_count * BBP_V2_DIRENT_SIZE in
  r ← size_loop entries 0 cursor 0 (Z.to_nat entry_count);
  match r with
  | inl status => fail status
  | inr (total, payload_work) =>
  reject wrap64 (BBP_V2_MAX_CRC_WORK - payload_work) <? total with fail BBP_V2_ERR_WORK;
  reject capacity <? total with fail BBP_V2_ERR_CAPACITY;
  o ← source_overlaps entries output total 0 (Z.to_nat entry_count);
  reject (o : bool) with fail BBP_V2_ERR_SOURCE;
  m ← bytes_zero m output (Z.to_nat total);
  m ← write_header m output entry_count total;
  '(m, _) ← write_loop m output entries 0 cursor (Z.to_nat entry_count);
  crc ← crc_with_zero_checksum m output total;
  m ← put64 m (output + 40) crc;
  Some (BBP_V2_OK, Some total, m)
  end end.

(** ** The digest *)

Definition digest_domain : list byte :=
  [x42; x42; x50; x2d; x56; x32; x2d; x44; x49; x47; x45; x53; x54; x00; x00; x01].

(** [envelope] and [frame] are local buffers of 16 and 32 bytes, zeroed and
    then filled with [put16], [put32] and [put64]. *)
Definition digest_envelope (flags entry_count : Z) : list byte :=
  le_encode 2 BBP_V2_VERSION_MAJOR ++ le_encode 2 BBP_V2_VERSION_MINOR ++
  le_encode 4 flags ++ le_encode 4 entry_count ++ replicate 4 x00.

Definition digest_frame (e : bbp_v2_entry_view) : list byte :=
  le_encode 8 (ev_type e) ++ le_encode 4 (ev_flags e) ++ le_encode 2 (ev_version e) ++
  replicate 2 x00 ++ le_encode 8 (ev_size e) ++ replicate 8 x00.

(** The status of [bbp_v2_get_entry] is discarded; were it an error, [entry]
    would be read uninitialised, which is a fault here. *)
Fixpoint digest_loop {S} (m : mem) (checked : bbp_v2_view) (update : S -> list byte -> S)
    (state : S) (i : Z) (n : nat) : option S :=
  match n with
  | O => Some state
  | Datatypes.S n =>
      r ← bbp_v2_get_entry m (Some checked) i (Some (V2EntryView 0 0 0 0 0 0 0 0));
      match r with
      | (BBP_V2_OK, Some entry) =>
          let state := update state (digest_frame entry) in
          payload ← load_bytes m (ev_data entry) (Z.to_nat (ev_size entry));
          digest_loop m checked update (update state payload) (i + 1) n
      | _ => None
      end
  end.

(** The result is the status and the digest state afterwards. *)
Definition bbp_v2_digest {S} (m : mem) (view : option bbp_v2_view)
    (update : option (S -> list byte -> S)) (state : S) : option (bbp_v2_status_t * S) :=
  match view, update with
  | Some view, Some update =>
  reject v_data view =? 0 with Some (BBP_V2_ERR_NULL, state);
  '(status, checked) ← bbp_v2_parse m (v_data view) (v_total_size view)
                         (Some (V2View 0 0 0 0 0));
  reject negb (bool_decide (status = BBP_V2_OK)) with Some (status, state);
  match checked with
  | None => None
  | Some checked =>
      let state := update state digest_domain in
      let state := update state (digest_envelope (v_flags checked) (v_entry_count checked)) in
      state ← digest_loop m checked update state 0 (Z.to_nat (v_entry_count checked));
      Some (BBP_V2_OK, state)
  end
  | _, _ => Some (BBP_V2_ERR_NULL, state)
  end.

Definition bbp_v2_strstatus (status : bbp_v2_status_t) : string :=
  match status with
  | BBP_V2_OK => "ok"
  | BBP_V2_ERR_NULL => "null argument"
  | BBP_V2_ERR_MAGIC => "bad magic"
  | BBP_V2_ERR_VERSION => "unsupported version"
  | BBP_V2_ERR_FORMAT => "invalid reserved or framing field"
  | BBP_V2_ERR_EXTENT => "invalid total extent"
  | BBP_V2_ERR_OVERFLOW => "integer overflow or out-of-bounds span"
  | BBP_V2_ERR_COUNT => "entry count limit"
  | BBP_V2_ERR_ALIGNMENT => "invalid alignment"
  | BBP_V2_ERR_OVERLAP => "overlapping spans"
  | BBP_V2_ERR_PADDING => "nonzero padding"
  | BBP_V2_ERR_CRC => "CRC-64/XZ mismatch"
  | BBP_V2_ERR_WORK => "validation work limit"
  | BBP_V2_ERR_CAPACITY => "output capacity"
  | BBP_V2_ERR_POLICY => "bridge policy"
  | BBP_V2_ERR_SOURCE => "invalid or overlapping source"
  end.
