(* ===== verification/CapsuleFacts.v ===== *)
(** * Facts about the version 2 capsule

    The shift-and-or accessors are little-endian loads and stores; a parsed
    capsule is described by the fields of its byte list, its spans and the
    declarative predicate [wf_capsule]; the selection loop of the padding
    check visits every span exactly once. *)


From S2P Require Import Prelude Memory Crc64 Capsule.

Ltac vconsts :=
  unfold BBP_V2_HEADER_SIZE, BBP_V2_DIRENT_SIZE, BBP_V2_MAX_ENTRIES,
    BBP_V2_MAX_ALIGNMENT, BBP_V2_MAX_EXTENT, BBP_V2_MAX_CRC_WORK, SIZE_MAX in *.

(** ** The accessors *)

Lemma get64_loop_spec m p i value n :
  (Z.of_nat n + i <= 8) -> 0 <= i -> in_word (8 * i) value ->
  get64_loop m p i value n =
  (bs ← load_bytes m (p + i) n; Some (value + 2 ^ (8 * i) * le_decode bs)).
Proof.
  revert i value. induction n as [|n IH]; intros i value Hn Hi Hv.
  - cbn. f_equal. lia.
  - cbn [get64_loop load_bytes]. destruct (m !! (p + i)) as [b|]; [|done].
    cbn [mbind option_bind]. pose proof (byte_Z_range b) as Hb.
    assert (2 ^ (8 * i) * 256 = 2 ^ (8 * (i + 1))) as Hpow.
    { replace (8 * (i + 1)) with (8 * i + 8) by lia. rewrite Z.pow_add_r by lia. done. }
    assert (2 ^ (8 * (i + 1)) <= 2 ^ 64) by (apply Z.pow_le_mono_r; lia).
    unfold in_word in Hv.
    rewrite (wrap_small 64) by (unfold in_word; rewrite Z.shiftl_mul_pow2 by lia; nia).
    rewrite lor_shiftl_add by (unfold in_word; lia).
    rewrite IH; [|lia|lia|unfold in_word; nia].
    replace (p + i + 1) with (p + (i + 1)) by lia.
    destruct (load_bytes m (p + (i + 1)) n); [|done]. cbn [mbind option_bind le_decode].
    f_equal. nia.
Qed.

Lemma get64_load m p : get64 m p = load64 m p.
Proof.
  unfold get64, load64, load_le. rewrite get64_loop_spec by (done || unfold in_word; lia).
  rewrite Z.add_0_r. destruct (load_bytes m p 8); [|done]. cbn [mbind option_bind].
  f_equal. lia.
Qed.

Lemma get16_load m p : get16 m p = load16 m p.
Proof.
  unfold get16, load16, load_le. cbn [load_bytes].
  destruct (m !! p) as [b0|]; [cbn [mbind option_bind]|done].
  destruct (m !! (p + 1)) as [b1|]; [cbn [mbind option_bind le_decode]|done].
  pose proof (byte_Z_range b0). pose proof (byte_Z_range b1).
  rewrite (wrap_shiftl_byte 16) by lia.
  rewrite lor_shiftl_add by (unfold in_word; lia).
  rewrite wrap_small by (unfold in_word; lia). f_equal. lia.
Qed.

Lemma get32_load m p : get32 m p = load32 m p.
Proof. apply bytewise32_load. Qed.

Lemma put_loop_store m p i value n :
  0 <= i -> put_loop m p i value n = store_bytes m (p + i) (le_encode n (Z.shiftr value (8 * i))).
Proof.
  revert m i. induction n as [|n IH]; intros m i Hi; [done|].
  cbn [put_loop le_encode store_bytes].
  destruct (store8 m (p + i) _) as [m'|]; [cbn [mbind option_bind]|done].
  rewrite IH by lia. f_equal; [lia|]. f_equal.
  change 256 with (2 ^ 8). rewrite <- Z.shiftr_div_pow2, Z.shiftr_shiftr by lia.
  f_equal. lia.
Qed.

Lemma put_store m p value n : put_loop m p 0 value n = store_bytes m p (le_encode n value).
Proof. rewrite put_loop_store by lia. by rewrite Z.add_0_r, Z.shiftr_0_r. Qed.

Lemma put16_store m p v : put16 m p v = store16 m p v.
Proof. apply put_store. Qed.
Lemma put32_store m p v : put32 m p v = store32 m p v.
Proof. apply put_store. Qed.
Lemma put64_store m p v : put64 m p v = store64 m p v.
Proof. apply put_store. Qed.

(** ** The declarative description of a capsule *)

(** The little-endian integer of [n] bytes at offset [i] of a byte string. *)
Definition fld (n : nat) (bs : list byte) (i : Z) : Z :=
  le_decode (take n (drop (Z.to_nat i) bs)).

(** The part of a byte string at [off] of length [n]. *)
Definition slice (bs : list byte) (off n : Z) : list byte :=
  take (Z.to_nat n) (drop (Z.to_nat off) bs).

Definition entry_pos (dir i : Z) : Z := dir + i * BBP_V2_DIRENT_SIZE.
Definition e_type (bs : list byte) (dir i : Z) : Z := fld 8 bs (entry_pos dir i).
Definition e_flags (bs : list byte) (dir i : Z) : Z := fld 4 bs (entry_pos dir i + 8).
Definition e_version (bs : list byte) (dir i : Z) : Z := fld 2 bs (entry_pos dir i + 12).
Definition e_reserved0 (bs : list byte) (dir i : Z) : Z := fld 2 bs (entry_pos dir i + 14).
Definition e_offset (bs : list byte) (dir i : Z) : Z := fld 8 bs (entry_pos dir i + 16).
Definition e_size (bs : list byte) (dir i : Z) : Z := fld 8 bs (entry_pos dir i + 24).
Definition e_checksum (bs : list byte) (dir i : Z) : Z := fld 8 bs (entry_pos dir i + 32).
Definition e_alignment (bs : list byte) (dir i : Z) : Z := fld 4 bs (entry_pos dir i + 40).
Definition e_reserved1 (bs : list byte) (dir i : Z) : Z := fld 4 bs (entry_pos dir i + 44).

Definition c_count (bs : list byte) : Z := fld 4 bs 20.
Definition c_dir (bs : list byte) : Z := fld 8 bs 32.

(** A span is a start and a size; two spans are apart when neither reaches
    into the other. *)
Definition apart (s t : Z * Z) : Prop := s.1 + s.2 <= t.1 \/ t.1 + t.2 <= s.1.
Definition in_span (s : Z * Z) (x : Z) : Prop := s.1 <= x < s.1 + s.2.

Definition entry_span (bs : list byte) (dir i : Z) : Z * Z :=
  (e_offset bs dir i, e_size bs dir i).
Definition entry_spans (bs : list byte) (dir n : Z) : list (Z * Z) :=
  map (entry_span bs dir) (seqZ 0 n).
Definition directory_span (dir n : Z) : list (Z * Z) :=
  if n =? 0 then [] else [(dir, n * BBP_V2_DIRENT_SIZE)].

(** The header, the directory and the payloads. *)
Definition capsule_spans (bs : list byte) (dir n : Z) : list (Z * Z) :=
  (0, BBP_V2_HEADER_SIZE) :: directory_span dir n ++ entry_spans bs dir n.

Definition is_alignment (a : Z) : Prop := exists k, 0 <= k <= 12 /\ a = 2 ^ k.

Record entry_ok (bs : list byte) (dir i : Z) : Prop := EntryOk {
  eo_reserved : e_reserved0 bs dir i = 0 /\ e_reserved1 bs dir i = 0;
  eo_alignment : is_alignment (e_alignment bs dir i);
  eo_aligned : e_offset bs dir i mod e_alignment bs dir i = 0;
  eo_nonempty : 0 < e_size bs dir i;
  eo_inside : e_offset bs dir i + e_size bs dir i <= zlen bs;
}.

(** The payload bytes of the entries [i .. i + n - 1]. *)
Definition payload_sum (bs : list byte) (dir i n : Z) : Z :=
  foldr Z.add 0 (map (e_size bs dir) (seqZ i n)).

Record wf_header (bs : list byte) : Prop := WfHeader {
  wh_extent : BBP_V2_HEADER_SIZE <= zlen bs <= BBP_V2_MAX_EXTENT;
  wh_magic : take 8 bs = BBP_V2_MAGIC_BYTES;
  wh_version : fld 2 bs 8 = BBP_V2_VERSION_MAJOR /\ fld 2 bs 10 = BBP_V2_VERSION_MINOR;
  wh_sizes : fld 2 bs 12 = BBP_V2_HEADER_SIZE /\ fld 2 bs 14 = BBP_V2_DIRENT_SIZE;
  wh_reserved : fld 4 bs 16 = 0 /\ fld 8 bs 48 = 0 /\ fld 8 bs 56 = 0;
  wh_total : fld 8 bs 24 = zlen bs;
  wh_count : c_count bs <= BBP_V2_MAX_ENTRIES;
  wh_dir_aligned : c_dir bs mod 8 = 0;
  wh_empty : c_count bs = 0 ->
    c_dir bs = BBP_V2_HEADER_SIZE /\ zlen bs = BBP_V2_HEADER_SIZE;
  wh_dir_inside : BBP_V2_HEADER_SIZE <= c_dir bs /\
    c_dir bs + c_count bs * BBP_V2_DIRENT_SIZE <= zlen bs;
}.

Record wf_capsule (bs : list byte) : Prop := WfCapsule {
  wf_hdr : wf_header bs;
  wf_entries : forall i, 0 <= i < c_count bs -> entry_ok bs (c_dir bs) i;
  wf_apart : ForallOrdPairs apart (capsule_spans bs (c_dir bs) (c_count bs));
  wf_work : zlen bs + payload_sum bs (c_dir bs) 0 (c_count bs) <= BBP_V2_MAX_CRC_WORK;
  wf_padding : forall x, 0 <= x < zlen bs ->
    Forall (fun s => ~ in_span s x) (capsule_spans bs (c_dir bs) (c_count bs)) ->
    bs !! Z.to_nat x = Some x00;
  wf_sealed : sealed bs 40;
  wf_payloads : forall i, 0 <= i < c_count bs ->
    crc64_of (slice bs (e_offset bs (c_dir bs) i) (e_size bs (c_dir bs) i)) =
    e_checksum bs (c_dir bs) i;
}.

(** ** Reading fields *)

Lemma fld_load m a bs i n :
  bytes_at m a bs -> 0 <= i -> i + Z.of_nat n <= zlen bs ->
  load_le m (a + i) n = Some (fld n bs i).
Proof.
  intros Hat Hi Hn. unfold zlen in Hn.
  replace i with (Z.of_nat (Z.to_nat i)) at 1 by lia.
  apply (load_le_of_bytes _ _ (length bs)); [by apply bytes_at_load|lia].
Qed.

Lemma slice_load m a bs off n :
  bytes_at m a bs -> 0 <= off -> 0 <= n -> off + n <= zlen bs ->
  load_bytes m (a + off) (Z.to_nat n) = Some (slice bs off n).
Proof.
  intros Hat Hoff Hn Hle. unfold zlen in Hle. apply load_bytes_at. unfold slice. split.
  - rewrite length_take_le; [done|]. rewrite length_drop. lia.
  - apply bytes_at_take. rewrite <- (Z2Nat.id off) at 1 by done.
    apply bytes_at_drop; [lia|done].
Qed.

Lemma fld_word n bs i :
  0 <= i -> i + Z.of_nat n <= zlen bs -> in_word (8 * Z.of_nat n) (fld n bs i).
Proof.
  intros Hi Hn. unfold zlen in Hn. apply le_decode_word.
  rewrite length_take_le; [done|]. rewrite length_drop. lia.
Qed.

(** A field is never negative. *)
Lemma fld_nonneg n bs i : 0 <= fld n bs i.
Proof. apply le_decode_range. Qed.

Lemma payload_sum_0 bs dir i : payload_sum bs dir i 0 = 0.
Proof. reflexivity. Qed.

Lemma payload_sum_succ bs dir i k :
  payload_sum bs dir i (Z.of_nat (S k)) =
  e_size bs dir i + payload_sum bs dir (i + 1) (Z.of_nat k).
Proof.
  unfold payload_sum. rewrite seqZ_cons by lia.
  replace (Z.pred (Z.of_nat (S k))) with (Z.of_nat k) by lia.
  by replace (Z.succ i) with (i + 1) by lia.
Qed.

Lemma payload_sum_nonneg bs dir i k : 0 <= payload_sum bs dir i k.
Proof.
  unfold payload_sum. induction (seqZ i k) as [|x l IHl]; cbn [map foldr]; [lia|].
  pose proof (fld_nonneg 8 bs (entry_pos dir x + 24) : 0 <= e_size bs dir x). lia.
Qed.

Lemma slice_lookup bs off n i :
  0 <= off -> 0 <= i < n -> slice bs off n !! Z.to_nat i = bs !! Z.to_nat (off + i).
Proof.
  intros Hoff Hi. unfold slice. rewrite lookup_take_lt by lia. rewrite lookup_drop.
  f_equal. lia.
Qed.

Lemma length_slice bs off n :
  0 <= off -> 0 <= n -> off + n <= zlen bs -> zlen (slice bs off n) = n.
Proof.
  intros. unfold zlen, slice in *. rewrite length_take_le; [lia|]. rewrite length_drop. lia.
Qed.

(** The zero check of a range, in terms of the byte string. *)
Lemma zero_range m a bs off n :
  bytes_at m a bs -> 0 <= off -> 0 <= n -> off + n <= zlen bs ->
  exists z, bytes_are_zero m (a + off) (Z.to_nat n) = Some z /\
    (z = true <-> forall x, off <= x < off + n -> bs !! Z.to_nat x = Some x00).
Proof.
  intros Hat Hoff Hn Hle. erewrite bytes_are_zero_spec by (by apply slice_load).
  eexists. split; [reflexivity|]. rewrite bool_decide_eq_true, Forall_lookup.
  pose proof (length_slice bs off n Hoff Hn Hle) as Hlen. unfold zlen in *. split.
  - intros Hall x Hx. destruct (lookup_lt_is_Some_2 bs (Z.to_nat x)) as [b Hb]; [lia|].
    rewrite Hb. f_equal. apply (Hall (Z.to_nat (x - off))).
    rewrite slice_lookup by lia. rewrite <- Hb. f_equal. lia.
  - intros Hall i b Hb. pose proof (lookup_lt_Some _ _ _ Hb).
    rewrite <- (Nat2Z.id i), slice_lookup, Hall in Hb by lia. congruence.
Qed.

(** ** Powers of two *)

Lemma land_pred_pow2 v : 0 < v -> Z.land v (v - 1) = 0 <-> v = 2 ^ Z.log2 v.
Proof.
  intros Hv. pose proof (Z.log2_spec v Hv) as Hl. pose proof (Z.log2_nonneg v). split.
  - intros H0. destruct (decide (v = 2 ^ Z.log2 v)) as [|Hne]; [done|].
    assert (Z.log2 (v - 1) = Z.log2 v) as Hl1 by (apply Z.log2_unique; lia).
    assert (Z.testbit (Z.land v (v - 1)) (Z.log2 v) = true) as Hb.
    { rewrite Z.land_spec, Z.bit_log2 by done. rewrite <- Hl1, Z.bit_log2; [done|].
      assert (2 ^ 0 <= 2 ^ Z.log2 v) by (apply Z.pow_le_mono_r; lia). lia. }
    by rewrite H0, Z.bits_0 in Hb.
  - intros ->. rewrite land_ones_pow2 by apply Z.log2_nonneg. apply Z.mod_same. lia.
Qed.

Lemma power_of_two_spec v :
  in_word 32 v -> power_of_two v = true <-> exists k, 0 <= k /\ v = 2 ^ k.
Proof.
  intros Hv. unfold power_of_two, in_word in *. rewrite andb_true_iff, negb_true_iff.
  rewrite Z.eqb_neq, Z.eqb_eq. split.
  - intros [Hne Hl]. rewrite wrap_small in Hl by (unfold in_word; lia).
    exists (Z.log2 v). split; [apply Z.log2_nonneg|]. apply land_pred_pow2; [lia|done].
  - intros (k & Hk & ->). pose proof (Z.pow_pos_nonneg 2 k). split; [lia|].
    rewrite wrap_small by (unfold in_word; lia). apply land_pred_pow2; [lia|].
    by rewrite Z.log2_pow2.
Qed.

Lemma alignment_guard a :
  in_word 32 a ->
  power_of_two a && (a <=? BBP_V2_MAX_ALIGNMENT) = true <-> is_alignment a.
Proof.
  intros Ha. rewrite andb_true_iff, power_of_two_spec, Z.leb_le by done. vconsts.
  change 4096 with (2 ^ 12). split.
  - intros [(k & Hk & ->) Hle]. exists k. split; [|done].
    split; [done|]. apply Z.pow_le_mono_r_iff in Hle; lia.
  - intros (k & Hk & ->). split; [exists k; lia|]. apply Z.pow_le_mono_r; lia.
Qed.

Lemma alignment_mask off a :
  is_alignment a -> Z.land off (wrap32 (a - 1)) = off mod a.
Proof.
  intros (k & Hk & ->). assert (2 ^ k <= 2 ^ 12) by (apply Z.pow_le_mono_r; lia).
  pose proof (Z.pow_pos_nonneg 2 k).
  rewrite wrap_small by (unfold in_word; lia). apply land_ones_pow2. lia.
Qed.

Lemma alignment_reject off a :
  in_word 32 a ->
  negb (power_of_two a) || (BBP_V2_MAX_ALIGNMENT <? a) ||
    negb (Z.land off (wrap32 (a - 1)) =? 0) = false <->
  is_alignment a /\ off mod a = 0.
Proof.
  intros Ha. rewrite orb_false_iff, <- (alignment_guard a Ha).
  rewrite andb_true_iff, orb_false_iff, negb_false_iff, negb_false_iff, Z.ltb_ge.
  rewrite Z.leb_le, Z.eqb_eq. split; intros [Hp Hm]; (split; [done|]);
    rewrite alignment_mask in *; try done; apply alignment_guard; try done;
    rewrite andb_true_iff, Z.leb_le; done.
Qed.

(** ** Spans *)

Lemma apart_sym s t : apart s t -> apart t s.
Proof. unfold apart. lia. Qed.

Lemma span_overlaps_spec a n b k :
  0 <= a -> 0 <= n -> 0 <= b -> 0 <= k -> a + n < 2 ^ 64 -> b + k < 2 ^ 64 ->
  span_overlaps a n b k = false <-> apart (a, n) (b, k).
Proof.
  intros. unfold span_overlaps, apart. cbn [fst snd].
  rewrite !wrap_small by (unfold in_word; lia).
  rewrite andb_false_iff, !Z.ltb_ge. lia.
Qed.

(** The span the selection loop keeps: the first one of least start at or
    after [cursor], and [best] when there is none before its start. *)
Definition select (cursor : Z) (spans : list (Z * Z)) (best : Z * Z) : Z * Z :=
  fold_left (fun b s => if (cursor <=? s.1) && (s.1 <? b.1) then s else b) spans best.

Lemma select_spec cursor spans best :
  let r := select cursor spans best in
  (r = best \/ (r ∈ spans /\ cursor <= r.1 < best.1)) /\ r.1 <= best.1 /\
  (forall s, s ∈ spans -> cursor <= s.1 -> r.1 <= s.1).
Proof.
  revert best. induction spans as [|s spans IH]; intros best; cbn zeta in *.
  - split; [by left|]. split; [done|]. intros s Hs. by apply not_elem_of_nil in Hs.
  - cbn [select fold_left]. destruct ((cursor <=? s.1) && (s.1 <? best.1)) eqn:E.
    + bool_to_prop. destruct (IH s) as (Hr & Hle & Hmin). fold (select cursor spans s) in *.
      split; [|split; [lia|]].
      * right. destruct Hr as [-> | [Hin ?]]; [split; [left|lia]|].
        split; [by right|lia].
      * intros t Ht Hc. apply elem_of_cons in Ht as [-> | Ht]; [lia|]. by apply Hmin.
    + destruct (IH best) as (Hr & Hle & Hmin). fold (select cursor spans best) in *.
      split; [|split; [done|]].
      * destruct Hr as [-> | [Hin ?]]; [by left|right]. split; [by right|done].
      * intros t Ht Hc. apply elem_of_cons in Ht as [-> | Ht]; [|by apply Hmin].
        bool_to_prop. destruct E; bool_to_prop; lia.
Qed.

(** The spans that start at or after [cursor]. *)
Definition ahead (cursor : Z) (spans : list (Z * Z)) : list (Z * Z) :=
  filter (fun s => cursor <= s.1) spans.

Lemma ahead_all cursor spans : Forall (fun s => cursor <= s.1) spans -> ahead cursor spans = spans.
Proof.
  induction 1 as [|s spans Hs _ IH]; [done|]. unfold ahead in *.
  rewrite filter_cons, decide_True by done. by rewrite IH.
Qed.

Lemma ordpairs_split {A} (R : A -> A -> Prop) l1 x l2 :
  (forall a b, R a b -> R b a) -> ForallOrdPairs R (l1 ++ x :: l2) ->
  forall y, y ∈ l1 ++ l2 -> R x y.
Proof.
  intros Hsym H y Hy. induction l1 as [|a l1 IH]; cbn [app] in *.
  - inversion H as [|? ? Hf _]; subst. rewrite Forall_forall in Hf. by apply Hf.
  - inversion H as [|? ? Hf Hp]; subst. apply elem_of_cons in Hy as [-> | Hy]; [|by apply IH].
    rewrite Forall_forall in Hf. apply Hsym, Hf. apply elem_of_app. right. left.
Qed.

(** Moving the cursor past the nearest span takes exactly that span out of
    those ahead. *)
Lemma ahead_next cursor spans s :
  ForallOrdPairs apart spans -> Forall (fun s => 0 < s.2) spans ->
  s ∈ spans -> cursor <= s.1 -> (forall t, t ∈ spans -> cursor <= t.1 -> s.1 <= t.1) ->
  length (ahead cursor spans) = S (length (ahead (s.1 + s.2) spans)).
Proof.
  intros Hap Hpos Hs Hc Hmin. apply list_elem_of_split in Hs as (l1 & l2 & ->).
  pose proof (ordpairs_split _ _ _ _ apart_sym Hap) as Hrest.
  rewrite Forall_forall in Hpos.
  assert (0 < s.2) by (apply Hpos; apply elem_of_app; right; left).
  assert (forall l, (forall t, t ∈ l -> t ∈ l1 ++ l2) ->
            length (ahead cursor l) = length (ahead (s.1 + s.2) l)) as Heq.
  { induction l as [|t l IH]; intros Hl; [done|]. unfold ahead in *.
    specialize (IH ltac:(intros u Hu; apply Hl; by right)).
    assert (t ∈ l1 ++ l2) as Ht by (apply Hl; left).
    assert (t ∈ l1 ++ s :: l2) as Ht'.
    { apply elem_of_app in Ht as []; apply elem_of_app; [by left|right; by right]. }
    specialize (Hrest t Ht). specialize (Hmin t Ht'). specialize (Hpos t Ht').
    unfold apart in Hrest. rewrite !filter_cons.
    destruct (decide (cursor <= t.1)), (decide (s.1 + s.2 <= t.1)); cbn [length]; lia. }
  unfold ahead in *. rewrite !filter_app, !filter_cons, !length_app.
  rewrite decide_True by lia. rewrite decide_False by lia. cbn [length].
  rewrite (Heq l1), (Heq l2); [lia| |]; intros t Ht; apply elem_of_app; auto.
Qed.

(** ** The loops of the parser *)

(** An entry is well formed and apart from the header, the directory and the
    entries before it. *)
Definition entry_placed (bs : list byte) (dir n i : Z) : Prop :=
  entry_ok bs dir i /\
  apart (entry_span bs dir i) (0, BBP_V2_HEADER_SIZE) /\
  apart (entry_span bs dir i) (dir, n * BBP_V2_DIRENT_SIZE) /\
  (forall j, 0 <= j < i -> apart (entry_span bs dir i) (entry_span bs dir j)).

(** A verdict: the call returns, and it falls through with a value that
    satisfies [Q] exactly when [P] holds. *)
Definition verdict {A} (o : option (bbp_v2_status_t + A)) (P : Prop) (Q : A -> Prop) : Prop :=
  exists r, o = Some r /\
    match r with inl st => st <> BBP_V2_OK /\ ~ P | inr v => P /\ Q v end.

Ltac rejected := eexists; split; [reflexivity|]; split; [discriminate|].

Section Loops.
Context (m : mem) (capsule : Z) (bs : list byte) (dir n : Z).
Context (Hat : bytes_at m capsule bs).
Context (Hext : zlen bs <= BBP_V2_MAX_EXTENT).
Context (Hn : 0 <= n) (Hdir : BBP_V2_HEADER_SIZE <= dir)
  (Hdirn : dir + n * BBP_V2_DIRENT_SIZE <= zlen bs).

Lemma field_load i off k :
  0 <= i < n -> 0 <= off -> off + Z.of_nat k <= BBP_V2_DIRENT_SIZE ->
  load_le m (directory_entry capsule dir i + off) k = Some (fld k bs (entry_pos dir i + off)).
Proof using Hat Hdir Hdirn.
  intros Hi Hoff Hk. unfold directory_entry, entry_pos. vconsts.
  replace (capsule + dir + i * 48 + off) with (capsule + (dir + i * 48 + off)) by lia.
  apply fld_load; [done|nia|nia].
Qed.

Lemma get_entry_fields i :
  0 <= i < n ->
  let e := directory_entry capsule dir i in
  get64 m e = Some (e_type bs dir i) /\ get32 m (e + 8) = Some (e_flags bs dir i) /\
  get16 m (e + 12) = Some (e_version bs dir i) /\
  get16 m (e + 14) = Some (e_reserved0 bs dir i) /\
  get64 m (e + 16) = Some (e_offset bs dir i) /\ get64 m (e + 24) = Some (e_size bs dir i) /\
  get64 m (e + 32) = Some (e_checksum bs dir i) /\
  get32 m (e + 40) = Some (e_alignment bs dir i) /\
  get32 m (e + 44) = Some (e_reserved1 bs dir i).
Proof using Hat Hdir Hdirn.
  intros Hi e. rewrite !get64_load, !get32_load, !get16_load.
  split_and!; try (apply field_load; vconsts; lia).
  pose proof (field_load i 0 8 Hi) as H. rewrite !Z.add_0_r in H.
  apply H; vconsts; lia.
Qed.

Lemma entry_field_words i :
  0 <= i < n -> in_word 64 (e_offset bs dir i) /\ in_word 64 (e_size bs dir i) /\
  in_word 32 (e_alignment bs dir i).
Proof using Hdir Hdirn.
  intros Hi. vconsts. split_and!;
    [apply (fld_word 8)|apply (fld_word 8)|apply (fld_word 4)];
    unfold entry_pos; vconsts; nia.
Qed.

Lemma overlaps_prior_spec offset size j k :
  0 <= offset -> 0 <= size -> offset + size <= zlen bs ->
  0 <= j -> j + Z.of_nat k <= n ->
  (forall l, 0 <= l < j + Z.of_nat k -> entry_ok bs dir l) ->
  exists o, overlaps_prior m capsule dir offset size j k = Some o /\
    (o = false <-> forall l, j <= l < j + Z.of_nat k -> apart (offset, size) (entry_span bs dir l)).
Proof using Hat Hdir Hdirn Hext.
  intros Ho Hs Hos. revert j. induction k as [|k IH]; intros j Hj Hk Hok.
  - exists false. split; [done|]. split; [intros _ l Hl; lia|done].
  - cbn [overlaps_prior]. destruct (get_entry_fields j) as (_&_&_&_&Eo&Es&_); [lia|].
    rewrite Eo, Es. cbn [mbind option_bind].
    destruct (Hok j) as [_ _ _ Hne Hin]; [lia|].
    pose proof (fld_nonneg 8 bs (entry_pos dir j + 16)) as Hoj.
    change (0 <= e_offset bs dir j) in Hoj.
    pose proof (span_overlaps_spec offset size (e_offset bs dir j) (e_size bs dir j)) as Hov.
    vconsts. specialize (Hov Ho Hs Hoj ltac:(lia) ltac:(lia) ltac:(lia)).
    destruct (span_overlaps offset size _ _).
    + exists true. split; [done|]. split; [done|]. intros H.
      destruct Hov as [_ Hov]. apply Hov, H. lia.
    + destruct (IH (j + 1)) as (o & -> & Hiff); [lia|lia|intros l Hl; apply Hok; lia|].
      exists o. split; [done|]. rewrite Hiff. split.
      * intros H l Hl. destruct (decide (l = j)) as [->|]; [by apply Hov|apply H; lia].
      * intros H l Hl. apply H. lia.
Qed.

Lemma parse_entry_spec i w :
  0 <= i < n -> 0 <= w <= BBP_V2_MAX_CRC_WORK ->
  (forall j, 0 <= j < i -> entry_ok bs dir j) ->
  verdict (parse_entry m capsule (zlen bs) dir (n * BBP_V2_DIRENT_SIZE) i w)
    (entry_placed bs dir n i /\ w + e_size bs dir i <= BBP_V2_MAX_CRC_WORK)
    (fun w' => w' = w + e_size bs dir i).
Proof using Hat Hdir Hdirn Hext.
  intros Hi Hw Hprior. unfold parse_entry, verdict, entry_placed.
  destruct (get_entry_fields i Hi) as (_&_&_&E0&Eo&Es&_&Ea&E1).
  rewrite E0, Eo, Es, Ea, E1. cbn [mbind option_bind].
  destruct (entry_field_words i Hi) as (Wo & Ws & Wa).
  unfold in_word in Wo, Ws.
  destruct (e_reserved0 bs dir i =? 0) eqn:R0; cbn [negb];
    [|rejected; intros [[[[? _]] _] _]; lia].
  destruct (e_reserved1 bs dir i =? 0) eqn:R1; cbn [negb];
    [|rejected; intros [[[[_ ?]] _] _]; lia].
  pose proof (alignment_reject (e_offset bs dir i) _ Wa) as Hal.
  destruct (_ || _ || negb (Z.land _ _ =? 0)) eqn:A0 in Hal |- *.
  { rejected. intros [[[_ ? ? _ _] _] _]. assert (true = false) by (by apply Hal). done. }
  destruct Hal as [Hal _]. destruct (Hal eq_refl) as [Hal1 Hal2].
  destruct (e_size bs dir i =? 0) eqn:Z0;
    [rejected; intros [[[_ _ _ ? _] _] _]; lia|].
  destruct (_ || (zlen bs - _ <? _)) eqn:B0;
    [rejected; intros [[[_ _ _ _ ?] _] _]; bool_to_prop; lia|].
  bool_to_prop. vconsts.
  destruct (span_overlaps _ _ 0 64) eqn:G0; cbn [orb].
  { rejected. intros ((_ & Hh & _) & _).
    apply span_overlaps_spec in Hh; try lia. congruence. }
  apply span_overlaps_spec in G0; [|lia..].
  destruct (span_overlaps _ _ dir (n * 48)) eqn:D0; cbn [orb].
  { rejected. intros ((_ & _ & Hh & _) & _).
    apply span_overlaps_spec in Hh; try lia. congruence. }
  apply span_overlaps_spec in D0; [|lia..].
  destruct (overlaps_prior_spec (e_offset bs dir i) (e_size bs dir i) 0 (Z.to_nat i))
    as (o & -> & Ho); [lia|lia|lia|lia|lia|intros l Hl; apply Hprior; lia|].
  cbn [mbind option_bind]. rewrite Z.add_0_l, Z2Nat.id in Ho by lia.
  destruct o.
  { rejected. intros ((_ & _ & _ & Hh) & _).
    apply Ho in Hh. done. }
  rewrite wrap_small by (unfold in_word; lia).
  destruct (_ <? e_size bs dir i) eqn:W0; bool_to_prop.
  { rejected. intros (_ & Hh). lia. }
  eexists; split; [done|]. rewrite wrap_small by (unfold in_word; lia).
  split; [|done]. split_and!; try done; [|by apply Ho|lia].
  constructor; (done || lia).
Qed.

Lemma parse_entries_spec i w k :
  0 <= i -> i + Z.of_nat k = n -> 0 <= w <= BBP_V2_MAX_CRC_WORK ->
  (forall j, 0 <= j < i -> entry_ok bs dir j) ->
  verdict (parse_entries m capsule (zlen bs) dir (n * BBP_V2_DIRENT_SIZE) i w k)
    ((forall l, i <= l < n -> entry_placed bs dir n l) /\
     w + payload_sum bs dir i (Z.of_nat k) <= BBP_V2_MAX_CRC_WORK)
    (fun _ => True).
Proof using Hat Hdir Hdirn Hext.
  revert i w. induction k as [|k IH]; intros i w Hi Hk Hw Hprior.
  - eexists. split; [reflexivity|]. split; [|done]. split; [intros l Hl; lia|].
    rewrite payload_sum_0. lia.
  - cbn [parse_entries]. rewrite payload_sum_succ.
    pose proof (payload_sum_nonneg bs dir (i + 1) (Z.of_nat k)) as Hsum.
    destruct (parse_entry_spec i w) as (r & -> & Hr); [lia|done|done|].
    cbn [mbind option_bind]. destruct r as [st|w'].
    + destruct Hr as [Hst Hno]. eexists. split; [reflexivity|]. split; [done|].
      intros [Hall Hsize]. apply Hno. split; [apply Hall; lia|lia].
    + destruct Hr as [[Hplaced Hsize] ->].
      pose proof (fld_nonneg 8 bs (entry_pos dir i + 24)) as Hs0.
      change (0 <= e_size bs dir i) in Hs0.
      destruct (IH (i + 1) (w + e_size bs dir i)) as (r & Er & Hr); [lia..| |].
      { intros j Hj. destruct (decide (j = i)) as [->|]; [apply Hplaced|apply Hprior; lia]. }
      exists r. split; [done|].
      destruct r as [st|v].
      * destruct Hr as [Hst Hno]. split; [done|]. intros [Hall Hsz]. apply Hno.
        split; [intros l Hl; apply Hall; lia|lia].
      * destruct Hr as [[Hall Hsz] _]. split; [|done]. split; [|lia].
        intros l Hl. destruct (decide (l = i)) as [->|]; [done|apply Hall; lia].
Qed.

Lemma select_span_spec cursor i best k :
  0 <= i -> i + Z.of_nat k <= n ->
  select_span m capsule dir cursor i best.1 best.2 k =
  Some (select cursor (map (entry_span bs dir) (seqZ i (Z.of_nat k))) best).
Proof using Hat Hdir Hdirn.
  revert i best. induction k as [|k IH]; intros i best Hi Hk.
  - cbn. by destruct best.
  - rewrite seqZ_cons by lia. replace (Z.pred (Z.of_nat (S k))) with (Z.of_nat k) by lia.
    replace (Z.succ i) with (i + 1) by lia.
    cbn [select_span map select fold_left entry_span fst snd].
    destruct (get_entry_fields i) as (_&_&_&_&Eo&Es&_); [lia|].
    rewrite Eo, Es. cbn [mbind option_bind].
    destruct (_ && _).
    + apply (IH (i + 1) (entry_span bs dir i)); lia.
    + apply IH; lia.
Qed.

Lemma next_span_spec cursor :
  0 <= cursor -> 0 < zlen bs ->
  next_span m capsule (zlen bs) dir n cursor =
  Some (select cursor (capsule_spans bs dir n) (zlen bs, 0)).
Proof using Hat Hn Hdir Hdirn.
  intros Hc Hb. unfold next_span, capsule_spans, directory_span, entry_spans.
  cbn [select fold_left fst snd].
  replace ((cursor <=? 0) && (0 <? zlen bs)) with (cursor =? 0)
    by (destruct (cursor =? 0) eqn:?, (cursor <=? 0) eqn:?, (0 <? zlen bs) eqn:?;
        bool_to_prop; try done; lia).
  set (b0 := if cursor =? 0 then (0, BBP_V2_HEADER_SIZE) else (zlen bs, 0)).
  destruct b0 as [s0 z0]. destruct (n =? 0) eqn:E; cbn [negb andb app fold_left fst snd].
  - etrans; [apply (select_span_spec cursor 0 (s0, z0)); lia|]. by rewrite Z2Nat.id.
  - destruct (_ && _).
    + etrans; [apply (select_span_spec cursor 0 (dir, n * BBP_V2_DIRENT_SIZE)); lia|].
      by rewrite Z2Nat.id.
    + etrans; [apply (select_span_spec cursor 0 (s0, z0)); lia|]. by rewrite Z2Nat.id.
Qed.

Definition uncovered_zero (from : Z) : Prop :=
  forall x, from <= x < zlen bs ->
    Forall (fun s => ~ in_span s x) (capsule_spans bs dir n) ->
    bs !! Z.to_nat x = Some x00.

Definition spans_inside : Prop :=
  Forall (fun s => 0 < s.2 /\ 0 <= s.1 /\ s.1 + s.2 <= zlen bs) (capsule_spans bs dir n).

(** Every span that starts before the cursor ends there. *)
Definition behind (cursor : Z) : Prop :=
  Forall (fun s => s.1 < cursor -> s.1 + s.2 <= cursor) (capsule_spans bs dir n).

(** Once the gap before the nearest span is known to be zero, what is left
    to check starts after that span. *)
Lemma uncovered_zero_step cursor s :
  ForallOrdPairs apart (capsule_spans bs dir n) -> spans_inside ->
  0 <= cursor -> s ∈ capsule_spans bs dir n -> cursor <= s.1 ->
  (forall t, t ∈ capsule_spans bs dir n -> cursor <= t.1 -> s.1 <= t.1) ->
  behind cursor ->
  uncovered_zero cursor <->
  (forall x, cursor <= x < s.1 -> bs !! Z.to_nat x = Some x00) /\
  uncovered_zero (s.1 + s.2).
Proof.
  intros Hap Hin Hc Hs Hcs Hmin Hbehind. unfold spans_inside, behind in *.
  rewrite Forall_forall in Hin, Hbehind. pose proof (Hin s Hs) as (Hs0 & Hs1 & Hs2).
  unfold uncovered_zero. split.
  - intros H. split; intros x Hx; [|intros; apply H; [lia|done]].
    apply H; [lia|]. apply Forall_forall. intros t Ht. unfold in_span.
    pose proof (Hin t Ht). specialize (Hmin t Ht). specialize (Hbehind t Ht).
    destruct (Z.lt_ge_cases t.1 cursor); lia.
  - intros [Hgap Htail] x Hx Hunc.
    destruct (Z.lt_ge_cases x s.1); [apply Hgap; lia|].
    destruct (Z.lt_ge_cases x (s.1 + s.2)); [|apply Htail; [lia|done]].
    rewrite Forall_forall in Hunc. destruct (Hunc s Hs). unfold in_span. lia.
Qed.

(** The zero check of a gap, which is skipped when the gap is empty. *)
Lemma gap_check cursor stop :
  0 <= cursor -> stop <= zlen bs ->
  exists z, (if cursor <? stop
             then bytes_are_zero m (capsule + cursor) (Z.to_nat (stop - cursor))
             else Some true) = Some z /\
    (z = true <-> forall x, cursor <= x < stop -> bs !! Z.to_nat x = Some x00).
Proof using Hat.
  intros Hc Hstop. destruct (cursor <? stop) eqn:E; bool_to_prop.
  - destruct (zero_range m capsule bs cursor (stop - cursor)) as (z & -> & Hz);
      [done|lia|lia|lia|]. replace (cursor + (stop - cursor)) with stop in Hz by lia.
    by exists z.
  - exists true. split; [done|]. split; [intros _ x Hx; lia|done].
Qed.

(** While spans are ahead, the selection finds the nearest one. *)
Lemma select_nearest cursor :
  spans_inside -> ahead cursor (capsule_spans bs dir n) <> [] ->
  let r := select cursor (capsule_spans bs dir n) (zlen bs, 0) in
  r ∈ capsule_spans bs dir n /\ cursor <= r.1 /\
  (forall t, t ∈ capsule_spans bs dir n -> cursor <= t.1 -> r.1 <= t.1).
Proof.
  intros Hin Hne r. destruct (select_spec cursor (capsule_spans bs dir n) (zlen bs, 0))
    as (Hr & Hle & Hmin). fold r in Hr, Hle, Hmin.
  split; [|split; [|done]]; (destruct Hr as [Hr | [? ?]]; [|done || lia]).
  all: exfalso; destruct (ahead cursor _) as [|t l] eqn:Ea; [done|].
  all: assert (t ∈ ahead cursor (capsule_spans bs dir n)) as Ht by (rewrite Ea; left).
  all: unfold ahead in Ht; apply list_elem_of_filter in Ht as [Htc Ht].
  all: specialize (Hmin t Ht Htc); rewrite Hr in Hmin; cbn in Hmin.
  all: unfold spans_inside in Hin; rewrite Forall_forall in Hin; specialize (Hin t Ht); lia.
Qed.

Lemma behind_next cursor r :
  ForallOrdPairs apart (capsule_spans bs dir n) -> spans_inside -> behind cursor ->
  r ∈ capsule_spans bs dir n -> cursor <= r.1 ->
  (forall t, t ∈ capsule_spans bs dir n -> cursor <= t.1 -> r.1 <= t.1) ->
  behind (r.1 + r.2).
Proof.
  intros Hap Hin Hbehind Hr Hc Hmin. unfold behind, spans_inside in *.
  rewrite Forall_forall in *. intros t Ht Hlt. pose proof (Hin t Ht). pose proof (Hin r Hr).
  specialize (Hmin t Ht). specialize (Hbehind t Ht).
  assert (t = r \/ apart r t) as [-> | Ha]; [|lia|unfold apart in Ha; lia].
  apply list_elem_of_split in Hr as (l1 & l2 & Hsp). rewrite Hsp in Hap, Ht.
  pose proof (ordpairs_split _ _ _ _ apart_sym Hap t) as Hrest.
  rewrite elem_of_app in Hrest. apply elem_of_app in Ht as [Ht | Ht]; [by auto|].
  apply elem_of_cons in Ht as [-> | Ht]; by auto.
Qed.

Lemma padding_tail cursor :
  behind cursor -> ahead cursor (capsule_spans bs dir n) = [] ->
  uncovered_zero cursor <->
  (forall x, cursor <= x < zlen bs -> bs !! Z.to_nat x = Some x00).
Proof.
  intros Hbehind Hnil. unfold uncovered_zero. split; intros H x Hx; [|intros _; by apply H].
  apply H; [done|]. apply Forall_forall. intros t Ht Hsp. unfold in_span in Hsp.
  unfold behind in Hbehind. rewrite Forall_forall in Hbehind. specialize (Hbehind t Ht).
  destruct (Z.lt_ge_cases t.1 cursor); [lia|].
  assert (t ∈ ahead cursor (capsule_spans bs dir n)) as Hf by (by apply list_elem_of_filter).
  rewrite Hnil in Hf. by apply not_elem_of_nil in Hf.
Qed.

Lemma padding_loop_spec cursor steps :
  ForallOrdPairs apart (capsule_spans bs dir n) -> spans_inside ->
  0 <= cursor <= zlen bs -> behind cursor ->
  length (ahead cursor (capsule_spans bs dir n)) = steps ->
  exists st, padding_loop m capsule (zlen bs) dir n cursor steps = Some st /\
    (st = BBP_V2_OK \/ st = BBP_V2_ERR_PADDING) /\
    (st = BBP_V2_OK <-> uncovered_zero cursor).
Proof using Hat Hext Hn Hdir Hdirn.
  intros Hap Hin. revert cursor. induction steps as [|steps IH]; intros cursor Hc Hbehind Hlen.
  - apply length_zero_iff_nil in Hlen. setoid_rewrite (padding_tail cursor Hbehind Hlen).
    cbn [padding_loop]. destruct (gap_check cursor (zlen bs)) as (z & Ez & Hz); [lia|lia|].
    setoid_rewrite <- Hz. destruct (cursor <? zlen bs).
    + rewrite Ez. cbn [mbind option_bind]. eexists. split; [reflexivity|].
      destruct z; split; auto; done.
    + injection Ez as <-. eexists. split; [reflexivity|]. split; [by left|done].
  - cbn [padding_loop]. rewrite next_span_spec by (vconsts; lia). cbn [mbind option_bind].
    destruct (select_nearest cursor Hin) as (Hrin & Hrc & Hmin);
      [by intros E; rewrite E in Hlen|].
    set (r := select cursor _ _) in *.
    pose proof Hin as Hin'. unfold spans_inside in Hin'. rewrite Forall_forall in Hin'.
    destruct (Hin' r Hrin) as (Hr0 & Hr1 & Hr2).
    setoid_rewrite (uncovered_zero_step cursor r Hap Hin); try (done || lia).
    rewrite (surjective_pairing r). cbn [fst snd].
    replace (r.2 =? 0) with false by (symmetry; apply Z.eqb_neq; lia).
    destruct (gap_check cursor r.1) as (z & -> & Hz); [lia|lia|].
    cbn [mbind option_bind]. destruct z.
    + vconsts. rewrite wrap_small by (unfold in_word; lia).
      destruct (IH (r.1 + r.2)) as (st & -> & Hst & Hiff);
        [lia|by eapply behind_next| |].
      * rewrite (ahead_next cursor _ r) in Hlen; [lia|done| |done|lia|done].
        apply Forall_forall. intros t Ht. apply Hin', Ht.
      * eexists. split; [reflexivity|]. split; [done|]. rewrite Hiff.
        split; [intros H; split; [by apply Hz|done]|by intros [_ H]].
    + eexists. split; [reflexivity|]. split; [by right|]. split; [done|].
      intros [H _]. apply Hz in H. done.
Qed.
End Loops.

(** ** The whole parser *)

Lemma ordpairs_map_seqZ {A} (R : A -> A -> Prop) (f : Z -> A) i k :
  ForallOrdPairs R (map f (seqZ i (Z.of_nat k))) <->
  forall a b, i <= a < b -> b < i + Z.of_nat k -> R (f a) (f b).
Proof.
  revert i. induction k as [|k IH]; intros i.
  - cbn. split; [intros _ a b; lia|constructor].
  - rewrite seqZ_cons by lia. replace (Z.pred (Z.of_nat (S k))) with (Z.of_nat k) by lia.
    cbn [map]. split.
    + intros H a b Hab Hb. inversion H as [|? ? Hf Hp]; subst.
      destruct (decide (a = i)) as [->|]; [|apply (proj1 (IH (Z.succ i)) Hp); lia].
      rewrite Forall_forall in Hf. apply Hf, list_elem_of_fmap. exists b.
      split; [done|]. apply elem_of_seqZ. lia.
    + intros H. constructor; [|apply IH; intros; apply H; lia].
      apply Forall_forall. intros y Hy. apply list_elem_of_fmap in Hy as (b & -> & Hb).
      apply elem_of_seqZ in Hb. apply H; lia.
Qed.

Lemma elem_of_entry_spans bs dir n s :
  s ∈ entry_spans bs dir n <-> exists i, 0 <= i < n /\ s = entry_span bs dir i.
Proof.
  unfold entry_spans. rewrite list_elem_of_fmap. setoid_rewrite elem_of_seqZ.
  split; intros (i & H1 & H2); exists i; (split; [lia || done|done || lia]).
Qed.

(** Entry by entry, as the parser checks it, the spans are pairwise apart. *)
Lemma spans_apart_iff bs dir n :
  BBP_V2_HEADER_SIZE <= dir -> 0 <= n ->
  ForallOrdPairs apart (capsule_spans bs dir n) <->
  forall i, 0 <= i < n ->
    apart (entry_span bs dir i) (0, BBP_V2_HEADER_SIZE) /\
    apart (entry_span bs dir i) (dir, n * BBP_V2_DIRENT_SIZE) /\
    (forall j, 0 <= j < i -> apart (entry_span bs dir i) (entry_span bs dir j)).
Proof.
  intros Hdir Hn. rewrite <- (Z2Nat.id n) in * by done. set (k := Z.to_nat n) in *.
  unfold capsule_spans. split.
  - intros H i Hi. inversion H as [|? ? Hf Hp]; subst. rewrite Forall_app in Hf.
    destruct Hf as [_ Hf]. rewrite Forall_forall in Hf.
    assert (entry_span bs dir i ∈ entry_spans bs dir (Z.of_nat k)) as Hin
      by (apply elem_of_entry_spans; eauto).
    split; [by apply apart_sym, Hf|]. unfold directory_span in Hp.
    replace (Z.of_nat k =? 0) with false in Hp by (symmetry; apply Z.eqb_neq; lia).
    cbn [app] in Hp. inversion Hp as [|? ? Hf' Hp']; subst. rewrite Forall_forall in Hf'.
    split; [by apply apart_sym, Hf'|]. intros j Hj. apply apart_sym.
    unfold entry_spans in Hp'. by apply (proj1 (ordpairs_map_seqZ _ _ 0 k) Hp'); lia.
  - intros H. constructor.
    { rewrite Forall_app. split.
      - unfold directory_span. destruct (_ =? 0); constructor; [left; done|constructor].
      - apply Forall_forall. intros s Hs. apply elem_of_entry_spans in Hs as (i & Hi & ->).
        by apply apart_sym, H. }
    assert (ForallOrdPairs apart (entry_spans bs dir (Z.of_nat k))) as He.
    { apply ordpairs_map_seqZ. intros a b Hab Hb. apply apart_sym, H; lia. }
    unfold directory_span. destruct (_ =? 0); [done|]. constructor; [|done].
    apply Forall_forall. intros s Hs. apply elem_of_entry_spans in Hs as (i & Hi & ->).
    by apply apart_sym, H.
Qed.

Lemma length_capsule_spans bs dir n :
  0 <= n -> zlen (capsule_spans bs dir n) = n + 1 + (if negb (n =? 0) then 1 else 0).
Proof.
  intros Hn. unfold capsule_spans, entry_spans, directory_span, zlen. cbn [length].
  rewrite length_app, length_map, length_seqZ. destruct (n =? 0) eqn:E; cbn [length negb]; lia.
Qed.

(** The outcome of a parse: the status is OK exactly under [P], and [*out]
    becomes [v] then and keeps [o] otherwise. *)
Definition parses (r : option (bbp_v2_status_t * option bbp_v2_view)) (P : Prop)
    (o v : bbp_v2_view) : Prop :=
  exists st, r = Some (st, Some (if bool_decide (st = BBP_V2_OK) then v else o)) /\
    (st = BBP_V2_OK <-> P).

Lemma refused st P o v :
  st <> BBP_V2_OK -> ~ P -> parses (Some (st, Some o)) P o v.
Proof. intros Hst HP. exists st. by rewrite bool_decide_eq_false_2. Qed.

(** A header check that fails, seen from the declarative side. *)
Ltac refuse H :=
  apply refused; [discriminate|];
  let Hwf := fresh in intros Hwf; destruct Hwf as [H _ _ _ _ _ _].

Section Parser.
Context (m : mem) (capsule : Z) (bs : list byte).
Context (Hat : bytes_at m capsule bs).

Lemma spans_inside_intro dir n :
  BBP_V2_HEADER_SIZE <= zlen bs -> BBP_V2_HEADER_SIZE <= dir -> 0 <= n ->
  dir + n * BBP_V2_DIRENT_SIZE <= zlen bs ->
  (forall i, 0 <= i < n -> entry_ok bs dir i) -> spans_inside bs dir n.
Proof.
  intros Hb Hdir Hn Hdn Hok. unfold spans_inside, capsule_spans, directory_span. vconsts.
  constructor; [cbn; lia|]. rewrite Forall_app. split.
  - destruct (n =? 0) eqn:E; constructor; [cbn; lia|constructor].
  - apply Forall_forall. intros s Hs. apply elem_of_entry_spans in Hs as (i & Hi & ->).
    destruct (Hok i Hi) as [_ _ _ ? ?]. cbn. pose proof (fld_nonneg 8 bs (entry_pos dir i + 16)).
    unfold e_offset in *. lia.
Qed.

Lemma validate_padding_spec dir n :
  BBP_V2_HEADER_SIZE <= zlen bs <= BBP_V2_MAX_EXTENT -> BBP_V2_HEADER_SIZE <= dir ->
  0 <= n <= BBP_V2_MAX_ENTRIES -> dir + n * BBP_V2_DIRENT_SIZE <= zlen bs ->
  (forall i, 0 <= i < n -> entry_placed bs dir n i) ->
  exists st, validate_padding m capsule (zlen bs) dir n = Some st /\
    (st = BBP_V2_OK \/ st = BBP_V2_ERR_PADDING) /\
    (st = BBP_V2_OK <-> uncovered_zero bs dir n 0).
Proof using Hat.
  intros Hb Hdir Hn Hdn Hpl. unfold validate_padding.
  assert (spans_inside bs dir n) as Hin
    by (apply spans_inside_intro; try lia; intros i Hi; by apply Hpl).
  apply padding_loop_spec; try (done || vconsts; lia).
  - apply spans_apart_iff; [done|lia|]. intros i Hi. apply Hpl, Hi.
  - apply Forall_forall. intros s Hs. unfold spans_inside in Hin.
    rewrite Forall_forall in Hin. specialize (Hin s Hs). lia.
  - pose proof (length_capsule_spans bs dir n ltac:(lia)) as Hl. vconsts.
    rewrite wrap_small by (unfold in_word; destruct (negb _); lia).
    rewrite <- Hl. unfold zlen. rewrite Nat2Z.id. f_equal. apply ahead_all.
    eapply Forall_impl; [exact Hin|]. cbn. lia.
Qed.

Lemma crc_with_zero_checksum_spec :
  48 <= zlen bs ->
  crc_with_zero_checksum m capsule (zlen bs) = Some (crc64_skip_of bs 40).
Proof using Hat.
  intros Hb. pose proof (crc_skip_loaded m capsule (zlen bs) 40 bs) as H.
  unfold crc_with_zero_checksum. replace (capsule + 48) with (capsule + 40 + 8) by lia.
  replace (zlen bs - 48) with (zlen bs - 40 - 8) by lia.
  apply H; [lia|lia|]. unfold zlen. rewrite Nat2Z.id. by apply bytes_at_load.
Qed.

Lemma payload_crcs_spec dir n i k :
  BBP_V2_HEADER_SIZE <= dir -> dir + n * BBP_V2_DIRENT_SIZE <= zlen bs ->
  (forall i, 0 <= i < n -> entry_ok bs dir i) -> 0 <= i -> i + Z.of_nat k = n ->
  exists b, payload_crcs m capsule dir i k = Some b /\
    (b = true <-> forall l, i <= l < n ->
       crc64_of (slice bs (e_offset bs dir l) (e_size bs dir l)) = e_checksum bs dir l).
Proof using Hat.
  intros Hdir Hdn Hok. revert i. induction k as [|k IH]; intros i Hi Hk.
  - exists true. split; [done|]. split; [intros _ l Hl; lia|done].
  - cbn [payload_crcs].
    destruct (get_entry_fields m capsule bs dir n Hat Hdir Hdn i)
      as (_&_&_&_&Eo&Es&Ec&_); [lia|].
    rewrite Eo, Es, Ec. cbn [mbind option_bind].
    destruct (Hok i) as [_ _ _ Hne Hin]; [lia|].
    rewrite bbp_crc64_spec, (slice_load m capsule bs);
      [|done|apply fld_nonneg|lia|done]. cbn [mbind option_bind].
    destruct (crc64_of _ =? e_checksum bs dir i) eqn:E; cbn [negb]; bool_to_prop.
    + destruct (IH (i + 1)) as (b & -> & Hb); [lia|lia|]. exists b. split; [done|].
      rewrite Hb. split; intros H l Hl; [|apply H; lia].
      destruct (decide (l = i)) as [->|]; [done|apply H; lia].
    + exists false. split; [done|]. split; [done|]. intros H. destruct E. apply H. lia.
Qed.

Lemma header_fields :
  BBP_V2_HEADER_SIZE <= zlen bs ->
  get16 m (capsule + 8) = Some (fld 2 bs 8) /\ get16 m (capsule + 10) = Some (fld 2 bs 10) /\
  get16 m (capsule + 12) = Some (fld 2 bs 12) /\ get16 m (capsule + 14) = Some (fld 2 bs 14) /\
  get32 m (capsule + 16) = Some (fld 4 bs 16) /\ get32 m (capsule + 20) = Some (c_count bs) /\
  get64 m (capsule + 24) = Some (fld 8 bs 24) /\ get64 m (capsule + 32) = Some (c_dir bs) /\
  get64 m (capsule + 40) = Some (fld 8 bs 40) /\
  get64 m (capsule + 48) = Some (fld 8 bs 48) /\ get64 m (capsule + 56) = Some (fld 8 bs 56).
Proof using Hat.
  intros Hb. vconsts. rewrite !get64_load, !get32_load, !get16_load.
  split_and!; apply fld_load; (done || lia).
Qed.

Definition view_of : bbp_v2_view := V2View capsule (zlen bs) (c_dir bs) 0 (c_count bs).

(** The checks after the header. *)
Lemma parse_body_spec o :
  wf_header bs ->
  parses (r ← parse_entries m capsule (zlen bs) (c_dir bs)
                (c_count bs * BBP_V2_DIRENT_SIZE) 0 (zlen bs) (Z.to_nat (c_count bs));
          match r with
          | inl status => Some (status, Some o)
          | inr _ =>
          status ← validate_padding m capsule (zlen bs) (c_dir bs) (c_count bs);
          reject negb (bool_decide (status = BBP_V2_OK)) with Some (status, Some o);
          got ← crc_with_zero_checksum m capsule (zlen bs);
          sum ← get64 m (capsule + 40);
          reject negb (got =? sum) with Some (BBP_V2_ERR_CRC, Some o);
          ok ← payload_crcs m capsule (c_dir bs) 0 (Z.to_nat (c_count bs));
          check (ok : bool) else Some (BBP_V2_ERR_CRC, Some o);
          Some (BBP_V2_OK, Some (V2View capsule (zlen bs) (c_dir bs) (fld 4 bs 16)
                                   (c_count bs)))
          end)
    (wf_capsule bs) o view_of.
Proof using Hat.
  intros Hh. pose proof Hh as [He _ _ _ [Hfl _] _ Hcnt _ _ [Hd1 Hd2]].
  destruct (header_fields ltac:(lia)) as (_&_&_&_&_&_&_&_&E40&_).
  pose proof (fld_nonneg 4 bs 20 : 0 <= c_count bs) as Hn.
  destruct (parse_entries_spec m capsule bs (c_dir bs) (c_count bs) Hat ltac:(lia) Hd1 Hd2
              0 (zlen bs) (Z.to_nat (c_count bs))) as (r & -> & Hr);
    [lia|lia|vconsts; lia|intros j Hj; lia|].
  rewrite Z2Nat.id in Hr by done. cbn [mbind option_bind]. destruct r as [st|w].
  { destruct Hr as [Hst Hno]. apply refused; [done|]. intros Hwf. destruct Hno. split; [|apply Hwf].
    intros l Hl. split; [by apply Hwf|].
    apply (spans_apart_iff bs (c_dir bs) (c_count bs)); [done|done|apply Hwf|done]. }
  destruct Hr as [[Hpl Hwork] _].
  assert (forall i, 0 <= i < c_count bs -> entry_ok bs (c_dir bs) i) as Hok
    by (intros i Hi; by apply Hpl).
  destruct (validate_padding_spec (c_dir bs) (c_count bs)) as (st & -> & Hst & Hpad);
    [done|done|lia|done|done|]. cbn [mbind option_bind].
  destruct (decide (st = BBP_V2_OK)) as [->|Hne]; cycle 1.
  { rewrite bool_decide_eq_false_2 by done. cbn [negb]. apply refused; [done|].
    intros Hwf. destruct Hne, Hpad as [_ Hpad]. apply Hpad. intros x. apply Hwf. }
  rewrite bool_decide_eq_true_2 by done. cbn [negb].
  rewrite crc_with_zero_checksum_spec, E40 by (vconsts; lia). cbn [mbind option_bind].
  destruct (crc64_skip_of bs 40 =? fld 8 bs 40) eqn:Ecrc; cbn [negb]; bool_to_prop; cycle 1.
  { apply refused; [done|]. intros [_ _ _ _ _ Hs _].
    by destruct Ecrc. }
  destruct (payload_crcs_spec (c_dir bs) (c_count bs) 0 (Z.to_nat (c_count bs)))
    as (ok & -> & Hokc); [done|done|done|lia|lia|]. cbn [mbind option_bind].
  destruct ok; cycle 1.
  { apply refused; [done|]. intros Hwf.
    assert (false = true); [|done]. apply Hokc, Hwf. }
  rewrite Hfl.
  exists BBP_V2_OK. split; [done|]. split; [|done]. intros _. constructor; try done.
  - apply spans_apart_iff; [done|done|]. intros i Hi. by apply Hpl.
  - by apply Hpad.
  - by apply Hokc.
Qed.

Lemma bbp_v2_parse_spec o :
  capsule <> 0 ->
  parses (bbp_v2_parse m capsule (zlen bs) (Some o)) (wf_capsule bs) o view_of.
Proof using Hat.
  intros Hc. unfold bbp_v2_parse. replace (capsule =? 0) with false by lia.
  destruct (_ || (BBP_V2_MAX_EXTENT <? zlen bs)) eqn:G1; [refuse Hh; destruct Hh; bool_to_prop; lia|].
  apply orb_false_iff in G1 as [G1 G1']. apply Z.ltb_ge in G1, G1'.
  destruct (header_fields G1) as (E8&E10&E12&E14&E16&E20&E24&E32&_&E48&E56).
  rewrite (bytes_equal_spec m capsule _ (take 8 bs)).
  2: { apply load_bytes_at. split; [|by apply bytes_at_take].
       rewrite length_take_le; [done|]. vconsts. unfold zlen in *. cbn. lia. }
  cbn [mbind option_bind]. destruct (bool_decide (take 8 bs = _)) eqn:G2; cycle 1.
  { refuse Hh. apply bool_decide_eq_false in G2. destruct Hh. done. }
  apply bool_decide_eq_true in G2.
  rewrite E8, E10, E12, E14, E16, E20, E24, E32, E48, E56. cbn [mbind option_bind].
  destruct (fld 2 bs 8 =? _) eqn:G3; cbn [negb]; [|refuse Hh; destruct Hh; lia].
  destruct (fld 2 bs 10 =? _) eqn:G4; cbn [negb]; [|refuse Hh; destruct Hh; lia].
  destruct (fld 2 bs 12 =? _) eqn:G5; cbn [negb]; [|refuse Hh; destruct Hh; lia].
  destruct (fld 2 bs 14 =? _) eqn:G6; cbn [negb]; [|refuse Hh; destruct Hh; lia].
  destruct (fld 4 bs 16 =? _) eqn:G7; cbn [negb]; [|refuse Hh; destruct Hh; lia].
  destruct (fld 8 bs 48 =? _) eqn:G8; cbn [negb]; [|refuse Hh; destruct Hh; lia].
  destruct (fld 8 bs 56 =? _) eqn:G9; cbn [negb]; [|refuse Hh; destruct Hh; lia].
  destruct (fld 8 bs 24 =? _) eqn:G10; cbn [negb orb]; [|refuse Hh; destruct Hh; lia].
  apply Z.eqb_eq in G3, G4, G5, G6, G7, G8, G9, G10. rewrite G10.
  replace (BBP_V2_MAX_EXTENT <? zlen bs) with false by lia.
  destruct (BBP_V2_MAX_ENTRIES <? c_count bs) eqn:G11; [refuse Hh; destruct Hh; lia|].
  destruct (Z.land (c_dir bs) 7 =? 0) eqn:G12; cbn [negb]; rewrite land_7 in G12;
    [|refuse Hh; destruct Hh; lia].
  destruct (_ && _) eqn:G13.
  { refuse Hh. destruct Hh. apply andb_true_iff in G13 as [G13 G13'].
    apply Z.eqb_eq in G13. apply orb_true_iff in G13'. lia. }
  pose proof (fld_nonneg 4 bs 20 : 0 <= c_count bs) as Hn.
  destruct (_ || (_ <? _ * _)) eqn:G14.
  { refuse Hh. destruct Hh. bool_to_prop. destruct G14 as [[G|G]|G]; vconsts; lia. }
  apply parse_body_spec. bool_to_prop. constructor; try done; try lia.
Qed.
End Parser.
