(* ===== verification/CapsuleBuild.v ===== *)
(** * The image the capsule builder writes

    The layout of a built capsule as a byte list, the proof that every image
    of a consistent layout is a well-formed capsule, and the proof that
    [bbp_v2_build] writes exactly that image. *)

From S2P Require Import Prelude Memory Crc64 Capsule CapsuleFacts.

(** ** Layouts *)

(** An entry with its position in the capsule and its payload. *)
Record placed := Placed {
  p_entry : bbp_v2_build_entry;
  p_pos : Z;
  p_payload : list byte;
}.

Definition p_end (p : placed) : Z := p_pos p + zlen (p_payload p).

(** The caller's fields are C integers. *)
Record entry_typed (e : bbp_v2_build_entry) : Prop := EntryTyped {
  et_type : in_word 64 (be_type e);
  et_flags : in_word 32 (be_flags e);
  et_version : in_word 16 (be_version e);
  et_alignment : in_word 32 (be_alignment e);
  et_data : in_word 64 (be_data e);
  et_size : in_word 64 (be_size e);
}.

(** Payloads follow each other from [c] on, aligned and nonempty. *)
Fixpoint laid_out (c : Z) (pls : list placed) : Prop :=
  match pls with
  | [] => True
  | p :: pls =>
      entry_typed (p_entry p) /\ is_alignment (be_alignment (p_entry p)) /\
      c <= p_pos p /\ p_pos p mod be_alignment (p_entry p) = 0 /\
      be_size (p_entry p) = zlen (p_payload p) /\ 0 < zlen (p_payload p) /\
      laid_out (p_end p) pls
  end.

Fixpoint layout_end (c : Z) (pls : list placed) : Z :=
  match pls with [] => c | p :: pls => layout_end (p_end p) pls end.

(** The fields of a directory entry in order. *)
Definition dirent_pieces (p : placed) : list (list byte) :=
  [le_encode 8 (be_type (p_entry p)); le_encode 4 (be_flags (p_entry p));
   le_encode 2 (be_version (p_entry p)); replicate 2 x00;
   le_encode 8 (p_pos p); le_encode 8 (be_size (p_entry p));
   le_encode 8 (crc64_of (p_payload p)); le_encode 4 (be_alignment (p_entry p));
   replicate 4 x00].
Definition dirent_bytes (p : placed) : list byte := concat (dirent_pieces p).

Definition directory_bytes (pls : list placed) : list byte := concat (map dirent_bytes pls).

(** The payload area from [c] on: zero padding and payloads in turn. *)
Fixpoint body_bytes (c : Z) (pls : list placed) : list byte :=
  match pls with
  | [] => []
  | p :: pls =>
      replicate (Z.to_nat (p_pos p - c)) x00 ++ p_payload p ++ body_bytes (p_end p) pls
  end.

(** The header: the fields the builder writes, and zeros for the checksum and
    the reserved words. *)
Definition header_pieces (n total : Z) : list (list byte) :=
  [BBP_V2_MAGIC_BYTES; le_encode 2 BBP_V2_VERSION_MAJOR; le_encode 2 BBP_V2_VERSION_MINOR;
   le_encode 2 BBP_V2_HEADER_SIZE; le_encode 2 BBP_V2_DIRENT_SIZE; le_encode 4 0;
   le_encode 4 n; le_encode 8 total; le_encode 8 BBP_V2_HEADER_SIZE;
   replicate 8 x00; replicate 8 x00; replicate 8 x00].
Definition header_bytes (n total : Z) : list byte := concat (header_pieces n total).

Definition body_start (n : Z) : Z := BBP_V2_HEADER_SIZE + n * BBP_V2_DIRENT_SIZE.

Definition payload_len (pls : list placed) : Z :=
  foldr (fun p s => zlen (p_payload p) + s) 0 pls.

Definition image_total (pls : list placed) : Z := layout_end (body_start (zlen pls)) pls.

(** The capsule before and after its checksum is stored. *)
Definition unsealed_image (pls : list placed) : list byte :=
  header_bytes (zlen pls) (image_total pls) ++
  directory_bytes pls ++ body_bytes (body_start (zlen pls)) pls.
Definition capsule_image (pls : list placed) : list byte := seal_at (unsealed_image pls) 40.

(** ** Fields of a byte string given piece by piece *)

Lemma fld_piece bs xs ys n v i :
  bs = xs ++ le_encode n v ++ ys -> i = zlen xs -> in_word (8 * Z.of_nat n) v ->
  fld n bs i = v.
Proof.
  intros -> -> Hv. unfold fld, zlen. rewrite Nat2Z.id, drop_app_length.
  rewrite take_app_length' by (by rewrite length_le_encode).
  by apply le_decode_encode_small.
Qed.

Lemma slice_piece bs xs p ys off n :
  bs = xs ++ p ++ ys -> off = zlen xs -> n = zlen p -> slice bs off n = p.
Proof.
  intros -> -> ->. unfold slice, zlen. rewrite !Nat2Z.id, drop_app_length.
  by apply take_app_length'.
Qed.

(** Slices and fields outside the checksum do not see the seal. *)
Lemma slice_seal bs off n :
  (48 <= length bs)%nat -> 0 <= off -> 0 <= n -> off + n <= 40 \/ 48 <= off ->
  slice (seal_at bs 40) off n = slice bs off n.
Proof.
  intros Hlen Hoff Hn Hd. destruct (seal_at_outside bs 40) as [Ht Hdr]; [lia|].
  unfold slice. destruct Hd as [Hd|Hd].
  - rewrite !take_drop_commute. replace (Z.to_nat off + Z.to_nat n)%nat
      with ((Z.to_nat off + Z.to_nat n) `min` 40)%nat by lia.
    by rewrite <- !take_take, Ht.
  - replace (Z.to_nat off) with (40 + 8 + (Z.to_nat off - 48))%nat by lia.
    by rewrite <- !(drop_drop _ (Z.to_nat off - 48) (40 + 8)), Hdr.
Qed.

Lemma fld_seal bs n i :
  (48 <= length bs)%nat -> 0 <= i -> i + Z.of_nat n <= 40 \/ 48 <= i ->
  fld n (seal_at bs 40) i = fld n bs i.
Proof.
  intros Hlen Hi Hd. pose proof (slice_seal bs i (Z.of_nat n) Hlen Hi ltac:(lia) Hd) as H.
  unfold slice in H. rewrite Nat2Z.id in H. unfold fld. by rewrite H.
Qed.

Lemma lookup_seal bs x :
  (48 <= length bs)%nat -> 48 <= x -> seal_at bs 40 !! Z.to_nat x = bs !! Z.to_nat x.
Proof.
  intros Hlen Hx. destruct (seal_at_outside bs 40) as [_ Hd]; [lia|].
  replace (Z.to_nat x) with (40 + 8 + (Z.to_nat x - 48))%nat by lia.
  by rewrite <- !lookup_drop, Hd.
Qed.

(** ** Lengths *)

Lemma zlen_header_bytes n total : zlen (header_bytes n total) = 64.
Proof. reflexivity. Qed.

Lemma zlen_dirent_bytes p : zlen (dirent_bytes p) = 48.
Proof. reflexivity. Qed.

Lemma zlen_directory_bytes pls : zlen (directory_bytes pls) = zlen pls * 48.
Proof.
  unfold directory_bytes. induction pls as [|p pls IH]; [done|].
  cbn [map concat]. rewrite zlen_app, zlen_dirent_bytes, IH, zlen_cons. lia.
Qed.

Lemma layout_end_ge c pls : laid_out c pls -> c <= layout_end c pls.
Proof.
  revert c. induction pls as [|p pls IH]; intros c H; cbn [layout_end]; [lia|].
  destruct H as (_ & _ & ? & _ & _ & ? & H). specialize (IH _ H). unfold p_end in *. lia.
Qed.

Lemma zlen_body_bytes c pls : laid_out c pls -> zlen (body_bytes c pls) = layout_end c pls - c.
Proof.
  revert c. induction pls as [|p pls IH]; intros c H; cbn [body_bytes layout_end].
  - unfold zlen. cbn. lia.
  - destruct H as (_ & _ & ? & _ & _ & ? & H).
    rewrite !zlen_app, zlen_replicate, (IH _ H). unfold p_end. lia.
Qed.

Lemma zlen_unsealed pls :
  laid_out (body_start (zlen pls)) pls ->
  zlen (unsealed_image pls) = image_total pls.
Proof.
  intros H. unfold unsealed_image.
  rewrite !zlen_app, zlen_header_bytes, zlen_directory_bytes, zlen_body_bytes by done.
  unfold image_total, body_start. vconsts. lia.
Qed.

(** ** Where the pieces are *)

Lemma directory_split pls i p :
  pls !! i = Some p ->
  exists xs ys, directory_bytes pls = xs ++ dirent_bytes p ++ ys /\ zlen xs = Z.of_nat i * 48.
Proof.
  revert i. unfold directory_bytes.
  induction pls as [|q pls IH]; intros [|i] H; cbn [lookup list_lookup] in H; try done.
  - injection H as ->. exists [], (concat (map dirent_bytes pls)). done.
  - destruct (IH i H) as (xs & ys & E & Hl). cbn [map concat]. rewrite E.
    exists (dirent_bytes q ++ xs), ys. rewrite <- app_assoc. split; [done|].
    rewrite zlen_app, zlen_dirent_bytes. lia.
Qed.

Lemma body_split c pls i p :
  laid_out c pls -> pls !! i = Some p ->
  exists xs ys, body_bytes c pls = xs ++ p_payload p ++ ys /\ c + zlen xs = p_pos p.
Proof.
  revert c i. induction pls as [|q pls IH]; intros c [|i] Hlo H;
    cbn [lookup list_lookup] in H; try done; cbn [body_bytes laid_out] in *.
  - injection H as ->. eexists _, _. split; [reflexivity|]. rewrite zlen_replicate. lia.
  - destruct Hlo as (_ & _ & ? & _ & _ & ? & Hlo).
    destruct (IH _ i Hlo H) as (xs & ys & E & Hl). rewrite E.
    exists (replicate (Z.to_nat (p_pos q - c)) x00 ++ p_payload q ++ xs), ys.
    rewrite <- !app_assoc. split; [done|]. rewrite !zlen_app, zlen_replicate.
    unfold p_end in Hl. lia.
Qed.

Lemma laid_out_at c pls i p :
  laid_out c pls -> pls !! i = Some p ->
  entry_typed (p_entry p) /\ is_alignment (be_alignment (p_entry p)) /\ c <= p_pos p /\
  p_pos p mod be_alignment (p_entry p) = 0 /\ be_size (p_entry p) = zlen (p_payload p) /\
  0 < zlen (p_payload p) /\ p_end p <= layout_end c pls.
Proof.
  revert c i. induction pls as [|q pls IH]; intros c [|i] Hlo H;
    cbn [lookup list_lookup] in H; try done; cbn [laid_out layout_end] in *.
  - injection H as ->. destruct Hlo as (?&?&?&?&?&?&Hlo). split_and!; try done.
    by apply layout_end_ge.
  - destruct Hlo as (_ & _ & ? & _ & _ & ? & Hlo).
    destruct (IH _ i Hlo H) as (?&?&?&?&?&?&?). unfold p_end in *. split_and!; try done; lia.
Qed.

Lemma laid_out_order c pls i j p q :
  laid_out c pls -> (i < j)%nat -> pls !! i = Some p -> pls !! j = Some q ->
  p_end p <= p_pos q.
Proof.
  revert c i j. induction pls as [|r pls IH]; intros c i j Hlo Hij Hp Hq; [done|].
  destruct j as [|j]; [lia|]. cbn [laid_out] in Hlo.
  destruct Hlo as (_ & _ & _ & _ & _ & _ & Hlo).
  destruct i as [|i]; cbn [lookup list_lookup] in Hp, Hq.
  - injection Hp as ->. by destruct (laid_out_at _ _ _ _ Hlo Hq) as (_&_&?&_).
  - by apply (IH _ i j Hlo); [lia| |].
Qed.

(** Between the payloads the body is zero. *)
Lemma body_zero c pls x :
  laid_out c pls -> c <= x < layout_end c pls ->
  (forall i p, pls !! i = Some p -> ~ in_span (p_pos p, zlen (p_payload p)) x) ->
  body_bytes c pls !! Z.to_nat (x - c) = Some x00.
Proof.
  revert c. induction pls as [|p pls IH]; intros c Hlo Hx Hout;
    cbn [layout_end body_bytes laid_out] in *; [lia|].
  destruct Hlo as (_ & _ & ? & _ & _ & ? & Hlo).
  destruct (Z.lt_ge_cases x (p_pos p)).
  - rewrite lookup_app_l by (rewrite length_replicate; lia).
    apply lookup_replicate_2. lia.
  - destruct (Z.lt_ge_cases x (p_end p)).
    + destruct (Hout 0%nat p eq_refl). unfold in_span, p_end in *. cbn [fst snd]. lia.
    + rewrite lookup_app_r by (rewrite length_replicate; lia).
      rewrite lookup_app_r by (rewrite length_replicate; unfold p_end, zlen in *; lia).
      rewrite length_replicate. rewrite <- (IH (p_end p)); [f_equal|done|lia|].
      * unfold p_end, zlen in *. lia.
      * intros i q Hq. apply (Hout (S i) q Hq).
Qed.

(** ** An image is a well-formed capsule *)

Section Image.
Context (pls : list placed).
Context (Hlo : laid_out (body_start (zlen pls)) pls).
Context (Hn : zlen pls <= BBP_V2_MAX_ENTRIES) (Htotal : image_total pls <= BBP_V2_MAX_EXTENT).

Lemma total_ge : 64 + zlen pls * 48 <= image_total pls.
Proof using Hlo. apply layout_end_ge in Hlo. unfold image_total, body_start in *. vconsts. lia. Qed.

Lemma unsealed_len : (48 <= length (unsealed_image pls))%nat.
Proof using Hlo.
  pose proof (zlen_unsealed pls Hlo) as H. pose proof total_ge. pose proof (zlen_nonneg pls).
  unfold zlen at 1 in H. lia.
Qed.

Lemma zlen_image : zlen (capsule_image pls) = image_total pls.
Proof using Hlo.
  pose proof unsealed_len. unfold capsule_image, zlen. rewrite length_seal_at by lia.
  apply (zlen_unsealed pls Hlo).
Qed.

(** A field of the image given where the unsealed image has it. *)
Lemma image_fld k i v xs ys :
  unsealed_image pls = xs ++ le_encode k v ++ ys -> i = zlen xs ->
  in_word (8 * Z.of_nat k) v -> i + Z.of_nat k <= 40 \/ 48 <= i -> fld k (capsule_image pls) i = v.
Proof using Hlo.
  intros E Ei Hv Hd. pose proof (zlen_nonneg xs). unfold capsule_image.
  rewrite fld_seal; [by eapply fld_piece|apply unsealed_len|lia|done].
Qed.

(** Locate the [i]th field of the header; a zero piece is the field 0. *)
Ltac header_piece i :=
  eapply (image_fld _ _ _ (concat (take i (header_pieces (zlen pls) (image_total pls)))));
  [unfold unsealed_image, header_bytes;
   cbn [header_pieces take concat]; rewrite <- ?app_assoc; reflexivity
  |reflexivity|..]; unfold in_word, BBP_V2_VERSION_MAJOR, BBP_V2_VERSION_MINOR; vconsts; lia.

Lemma image_header :
  fld 2 (capsule_image pls) 8 = BBP_V2_VERSION_MAJOR /\
  fld 2 (capsule_image pls) 10 = BBP_V2_VERSION_MINOR /\
  fld 2 (capsule_image pls) 12 = BBP_V2_HEADER_SIZE /\
  fld 2 (capsule_image pls) 14 = BBP_V2_DIRENT_SIZE /\
  fld 4 (capsule_image pls) 16 = 0 /\
  c_count (capsule_image pls) = zlen pls /\
  fld 8 (capsule_image pls) 24 = image_total pls /\
  c_dir (capsule_image pls) = BBP_V2_HEADER_SIZE /\
  fld 8 (capsule_image pls) 48 = 0 /\ fld 8 (capsule_image pls) 56 = 0.
Proof using Hlo Hn Htotal.
  pose proof (zlen_nonneg pls). pose proof total_ge.
  split_and!.
  - header_piece 1%nat.
  - header_piece 2%nat.
  - header_piece 3%nat.
  - header_piece 4%nat.
  - header_piece 5%nat.
  - header_piece 6%nat.
  - header_piece 7%nat.
  - header_piece 8%nat.
  - header_piece 10%nat.
  - header_piece 11%nat.
Qed.

(** Locate the [i]th field of the directory entry that starts after [xs]. *)
Ltac entry_piece xs p i :=
  eapply (image_fld _ _ _ (header_bytes (zlen pls) (image_total pls) ++ xs ++
                             concat (take i (dirent_pieces p))));
  [unfold unsealed_image, dirent_bytes;
   match goal with H : directory_bytes pls = _ |- _ => rewrite H end;
   cbn [dirent_pieces dirent_bytes take concat]; rewrite <- ?app_assoc; reflexivity
  |rewrite !zlen_app, zlen_header_bytes;
   cbn [dirent_pieces take concat]; rewrite ?zlen_app, ?zlen_le_encode, ?zlen_replicate, ?zlen_nil;
   unfold entry_pos; vconsts; lia|..].

Lemma image_entry i p :
  pls !! i = Some p ->
  e_type (capsule_image pls) 64 (Z.of_nat i) = be_type (p_entry p) /\
  e_flags (capsule_image pls) 64 (Z.of_nat i) = be_flags (p_entry p) /\
  e_version (capsule_image pls) 64 (Z.of_nat i) = be_version (p_entry p) /\
  e_reserved0 (capsule_image pls) 64 (Z.of_nat i) = 0 /\
  e_offset (capsule_image pls) 64 (Z.of_nat i) = p_pos p /\
  e_size (capsule_image pls) 64 (Z.of_nat i) = zlen (p_payload p) /\
  e_checksum (capsule_image pls) 64 (Z.of_nat i) = crc64_of (p_payload p) /\
  e_alignment (capsule_image pls) 64 (Z.of_nat i) = be_alignment (p_entry p) /\
  e_reserved1 (capsule_image pls) 64 (Z.of_nat i) = 0.
Proof using Hlo Hn Htotal.
  intros Hp. destruct (directory_split _ _ _ Hp) as (xs & ys & Hd & Hxs).
  unfold dirent_bytes in Hd.
  destruct (laid_out_at _ _ _ _ Hlo Hp) as ([] & Hal & Hpos & Hmod & Hsize & Hne & Hend).
  pose proof (zlen_nonneg pls). unfold body_start in Hpos. fold (image_total pls) in Hend.
  unfold p_end in Hend. rewrite <- Hsize in *.
  unfold e_type, e_flags, e_version, e_reserved0, e_offset, e_size, e_checksum, e_alignment,
    e_reserved1.
  split_and!.
  - entry_piece xs p 0%nat; [done|unfold entry_pos; vconsts; lia].
  - entry_piece xs p 1%nat; [done|unfold entry_pos; vconsts; lia].
  - entry_piece xs p 2%nat; [done|unfold entry_pos; vconsts; lia].
  - entry_piece xs p 3%nat; [unfold in_word; lia|unfold entry_pos; vconsts; lia].
  - entry_piece xs p 4%nat; [unfold in_word; vconsts; lia|unfold entry_pos; vconsts; lia].
  - entry_piece xs p 5%nat; [done|unfold entry_pos; vconsts; lia].
  - entry_piece xs p 6%nat; [apply crc64_of_word|unfold entry_pos; vconsts; lia].
  - entry_piece xs p 7%nat; [done|unfold entry_pos; vconsts; lia].
  - entry_piece xs p 8%nat; [unfold in_word; lia|unfold entry_pos; vconsts; lia].
Qed.

Lemma image_entry_lookup i :
  0 <= i < zlen pls -> exists p, pls !! Z.to_nat i = Some p /\ Z.of_nat (Z.to_nat i) = i.
Proof.
  intros Hi. unfold zlen in Hi. destruct (lookup_lt_is_Some_2 pls (Z.to_nat i)) as [p Hp]; [lia|].
  exists p. split; [done|lia].
Qed.

Lemma image_span i p :
  pls !! i = Some p ->
  entry_span (capsule_image pls) 64 (Z.of_nat i) = (p_pos p, zlen (p_payload p)).
Proof using Hlo Hn Htotal.
  intros Hp. destruct (image_entry i p Hp) as (_&_&_&_&Eo&Es&_).
  unfold entry_span. by rewrite Eo, Es.
Qed.

Lemma image_payload i p :
  pls !! i = Some p ->
  slice (capsule_image pls) (p_pos p) (zlen (p_payload p)) = p_payload p.
Proof using Hlo.
  intros Hp. destruct (laid_out_at _ _ _ _ Hlo Hp) as (_&_&Hpos&_&_&?&_).
  pose proof (zlen_nonneg pls). unfold body_start in Hpos. vconsts.
  unfold capsule_image. rewrite slice_seal; [|apply unsealed_len|lia|lia|lia].
  destruct (body_split _ _ _ _ Hlo Hp) as (xs & ys & Hb & Hxs).
  eapply (slice_piece _ (header_bytes (zlen pls) (image_total pls) ++ directory_bytes pls ++ xs));
    [|rewrite !zlen_app, zlen_header_bytes, zlen_directory_bytes|done].
  - unfold unsealed_image. rewrite Hb, <- !app_assoc. reflexivity.
  - unfold body_start in Hxs. vconsts. lia.
Qed.

Lemma image_entry_ok i : 0 <= i < zlen pls -> entry_ok (capsule_image pls) 64 i.
Proof using Hlo Hn Htotal.
  intros Hi. destruct (image_entry_lookup i Hi) as (p & Hp & Ei).
  destruct (image_entry _ p Hp) as (_&_&_&Er0&Eo&Es&_&Ea&Er1). rewrite Ei in *.
  destruct (laid_out_at _ _ _ _ Hlo Hp) as (_ & Hal & Hpos & Hmod & _ & Hne & Hend).
  constructor; rewrite ?Eo, ?Es, ?Ea; try done. by rewrite zlen_image.
Qed.

Lemma image_apart : ForallOrdPairs apart (capsule_spans (capsule_image pls) 64 (zlen pls)).
Proof using Hlo Hn Htotal.
  apply spans_apart_iff; [done|apply zlen_nonneg|]. intros i Hi.
  destruct (image_entry_lookup i Hi) as (p & Hp & Ei).
  pose proof (image_span _ p Hp) as Es. rewrite Ei in Es. rewrite Es.
  destruct (laid_out_at _ _ _ _ Hlo Hp) as (_&_&Hpos&_). unfold body_start in Hpos.
  unfold apart. cbn [fst snd]. vconsts. split_and!; [lia|lia|]. intros j Hj.
  destruct (image_entry_lookup j) as (q & Hq & Ej); [lia|].
  pose proof (image_span _ q Hq) as Esq. rewrite Ej in Esq. rewrite Esq. cbn [fst snd].
  assert (p_end q <= p_pos p) by (eapply (laid_out_order _ _ (Z.to_nat j) (Z.to_nat i)); [exact Hlo|lia|done|done]).
  unfold p_end in *. lia.
Qed.

Lemma image_padding x :
  0 <= x < image_total pls ->
  Forall (fun s => ~ in_span s x) (capsule_spans (capsule_image pls) 64 (zlen pls)) ->
  capsule_image pls !! Z.to_nat x = Some x00.
Proof using Hlo Hn Htotal.
  intros Hx Hout. unfold capsule_spans in Hout. rewrite Forall_cons, Forall_app in Hout.
  destruct Hout as (Hh & Hd & He). unfold in_span in Hh. cbn [fst snd] in Hh. vconsts.
  unfold capsule_image. rewrite lookup_seal; [|apply unsealed_len|lia].
  assert (64 + zlen pls * 48 <= x) as Hxb.
  { unfold directory_span in Hd. destruct (zlen pls =? 0) eqn:E; bool_to_prop; [lia|].
    rewrite Forall_singleton in Hd. unfold in_span in Hd. cbn [fst snd] in Hd. vconsts. lia. }
  unfold unsealed_image. pose proof (zlen_nonneg pls).
  assert (length (header_bytes (zlen pls) (image_total pls)) = 64%nat) as Hhl by reflexivity.
  pose proof (zlen_directory_bytes pls
              : Z.of_nat (length (directory_bytes pls)) = zlen pls * 48) as Hdl.
  rewrite !lookup_app_r by lia.
  replace (Z.to_nat x - length (header_bytes (zlen pls) (image_total pls)) -
           length (directory_bytes pls))%nat
    with (Z.to_nat (x - body_start (zlen pls))) by (unfold body_start; vconsts; lia).
  apply body_zero; [done|unfold image_total, body_start in *; vconsts; lia|].
  intros i p Hp. rewrite <- (image_span i p Hp). rewrite Forall_forall in He. apply He.
  apply elem_of_entry_spans. exists (Z.of_nat i). split; [|done].
  apply lookup_lt_Some in Hp. unfold zlen. lia.
Qed.

Lemma image_payload_sum k i :
  (i + k)%nat = length pls ->
  payload_sum (capsule_image pls) 64 (Z.of_nat i) (Z.of_nat k) = payload_len (drop i pls).
Proof using Hlo Hn Htotal.
  revert i. induction k as [|k IH]; intros i Hik.
  - rewrite payload_sum_0, drop_ge by lia. done.
  - destruct (lookup_lt_is_Some_2 pls i) as [p Hp]; [lia|].
    rewrite payload_sum_succ, (drop_S _ _ _ Hp). cbn [payload_len foldr].
    destruct (image_entry i p Hp) as (_&_&_&_&_&Es&_). rewrite Es.
    replace (Z.of_nat i + 1) with (Z.of_nat (S i)) by lia. rewrite IH by lia. done.
Qed.

Lemma image_wf :
  image_total pls + payload_len pls <= BBP_V2_MAX_CRC_WORK -> wf_capsule (capsule_image pls).
Proof using Hlo Hn Htotal.
  intros Hwork. destruct image_header as (?&?&?&?&?&Ec&?&Ed&?&?).
  pose proof total_ge. pose proof (zlen_nonneg pls).
  assert (64 <= zlen (capsule_image pls)) as Hge by (rewrite zlen_image; lia).
  split; rewrite ?Ec, ?Ed.
  - constructor; rewrite ?zlen_image, ?Ec, ?Ed; try done; vconsts; try (done || lia).
    intros Hz. split; [done|]. unfold zlen in Hz.
    assert (pls = []) as -> by (apply nil_length_inv; lia). done.
  - apply image_entry_ok.
  - apply image_apart.
  - rewrite zlen_image. etrans; [|exact Hwork]. apply Z.eq_le_incl. f_equal.
    by apply (image_payload_sum (length pls) 0).
  - intros x Hx. rewrite zlen_image in Hx. by apply image_padding.
  - apply sealed_seal_at. pose proof unsealed_len. lia.
  - intros i Hi. destruct (image_entry_lookup i Hi) as (p & Hp & Ei).
    destruct (image_entry _ p Hp) as (_&_&_&_&Eo&Es&Ek&_). rewrite Ei in *.
    vconsts. rewrite Eo, Es, Ek. by rewrite (image_payload _ p Hp).
Qed.
End Image.

(** ** Sizing *)

(** What the sizing loop asks of one entry. *)
Definition entry_valid (e : bbp_v2_build_entry) : Prop :=
  be_data e <> 0 /\ 0 < be_size e /\ is_alignment (be_alignment e).

(** Each entry goes to the next multiple of its alignment. *)
Fixpoint place (c : Z) (es : list bbp_v2_build_entry) (ps : list (list byte)) : list placed :=
  match es, ps with
  | e :: es, p :: ps =>
      let pos := round_up (be_alignment e) c in
      Placed e pos p :: place (pos + zlen p) es ps
  | _, _ => []
  end.

Definition sized (e : bbp_v2_build_entry) (p : list byte) : Prop := be_size e = zlen p.

Lemma length_place c es ps : Forall2 sized es ps -> zlen (place c es ps) = zlen es.
Proof.
  intros H. revert c. induction H as [|e p es ps _ _ IH]; intros c; [done|].
  cbn [place]. by rewrite !zlen_cons, IH.
Qed.

Lemma place_lookup c es ps i p :
  place c es ps !! i = Some p ->
  es !! i = Some (p_entry p) /\ ps !! i = Some (p_payload p).
Proof.
  revert c ps i. induction es as [|e es IH]; intros c [|q ps] i H; try done.
  destruct i as [|i]; cbn [place lookup list_lookup] in *.
  - by injection H as <-.
  - by eapply IH.
Qed.

Lemma is_alignment_bounds a : is_alignment a -> 0 < a <= 4096.
Proof.
  intros (k & Hk & ->). split; [apply Z.pow_pos_nonneg; lia|].
  change 4096 with (2 ^ 12). apply Z.pow_le_mono_r; lia.
Qed.

Lemma place_laid_out c es ps :
  Forall2 sized es ps -> Forall entry_typed es -> Forall entry_valid es ->
  laid_out c (place c es ps).
Proof.
  intros H. revert c. induction H as [|e p es ps Hs _ IH]; intros c Ht Hv; [done|].
  apply Forall_cons in Ht as [Ht Hts], Hv as [(Hv1 & Hv2 & Hv3) Hvs].
  unfold sized in Hs. pose proof (is_alignment_bounds _ Hv3).
  pose proof (round_up_bounds (be_alignment e) c).
  cbn [place laid_out]. unfold p_end. cbn. split_and!; try done; try lia.
  - apply round_up_mod. lia.
  - by apply IH.
Qed.

Lemma align_up_spec c a :
  is_alignment a -> 0 <= c <= BBP_V2_MAX_EXTENT -> align_up c a = Some (round_up a c).
Proof.
  intros Ha Hc. pose proof (is_alignment_bounds a Ha). destruct Ha as (k & Hk & ->).
  unfold align_up. vconsts. rewrite (wrap_small 64 (2 ^ k - 1)) by (unfold in_word; lia).
  replace (_ <? c) with false by lia. f_equal.
  rewrite (wrap_small 64 (c + _)) by (unfold in_word; lia).
  rewrite land_wrap_lnot by (unfold in_word; lia). done.
Qed.

Definition sizable (c w : Z) (es : list bbp_v2_build_entry) (ps : list (list byte)) : Prop :=
  Forall entry_valid es /\ layout_end c (place c es ps) <= BBP_V2_MAX_EXTENT /\
  w + payload_len (place c es ps) <= BBP_V2_MAX_CRC_WORK.

Lemma payload_len_nonneg pls : 0 <= payload_len pls.
Proof.
  induction pls as [|p pls IH]; cbn [payload_len foldr]; [lia|].
  pose proof (zlen_nonneg (p_payload p)). unfold payload_len in IH. lia.
Qed.

Lemma entry_valid_dec e :
  entry_typed e -> { entry_valid e } + { ~ entry_valid e }.
Proof.
  intros []. unfold entry_valid.
  destruct (decide (be_data e = 0)); [right; tauto|].
  destruct (decide (0 < be_size e)); [|right; tauto].
  destruct (power_of_two (be_alignment e) && (be_alignment e <=? BBP_V2_MAX_ALIGNMENT)) eqn:E.
  - left. split_and!; try done. by apply alignment_guard.
  - right. intros (_ & _ & H). apply alignment_guard in H; congruence.
Qed.

Lemma size_entry_spec e c w p :
  entry_typed e -> sized e p -> 0 <= c <= BBP_V2_MAX_EXTENT -> 0 <= w <= BBP_V2_MAX_CRC_WORK ->
  let c' := round_up (be_alignment e) c + zlen p in
  match size_entry e c w with
  | inl st => st <> BBP_V2_OK /\
      ~ (entry_valid e /\ c' <= BBP_V2_MAX_EXTENT /\ w + zlen p <= BBP_V2_MAX_CRC_WORK)
  | inr (c1, w1) => c1 = c' /\ w1 = w + zlen p /\ entry_valid e /\
      c' <= BBP_V2_MAX_EXTENT /\ w + zlen p <= BBP_V2_MAX_CRC_WORK
  end.
Proof.
  intros Ht Hs Hc Hw c'. unfold size_entry, sized in *. destruct Ht.
  unfold in_word in *. rewrite Hs in *.
  destruct (_ || (zlen p =? 0)) eqn:E0.
  { split; [done|]. intros [(? & ? & ?) _]. bool_to_prop. lia. }
  pose proof (alignment_guard (be_alignment e) et_alignment0) as Hal.
  destruct (negb _ || _) eqn:E1.
  { split; [done|]. intros [(_ & _ & H) _]. apply Hal in H. bool_to_prop. destruct E1; bool_to_prop.
    - congruence.
    - lia. }
  assert (is_alignment (be_alignment e)) as Ha.
  { apply Hal. bool_to_prop. apply andb_true_iff. split; [done|by apply Z.leb_le]. }
  rewrite align_up_spec by done. pose proof (is_alignment_bounds _ Ha).
  pose proof (round_up_bounds (be_alignment e) c ltac:(lia)). fold c'.
  destruct (SIZE_MAX - _ <? _) eqn:E2; bool_to_prop.
  { split; [done|]. unfold c'. vconsts. lia. }
  vconsts. fold c'. rewrite !wrap_small by (unfold in_word, c'; lia).
  destruct (_ - w <? zlen p) eqn:E3; bool_to_prop; [split; [done|lia]|].
  destruct (_ <? c') eqn:E4; bool_to_prop; [split; [done|lia]|].
  rewrite wrap_small by (unfold in_word; lia). unfold entry_valid. split_and!; (lia || done).
Qed.

Lemma drop_cons_inv {A} (all : list A) i x l :
  drop i all = x :: l -> all !! i = Some x /\ drop (S i) all = l.
Proof.
  intros H. split.
  - by rewrite <- (Nat.add_0_r i), <- lookup_drop, H.
  - by rewrite <- (Nat.add_1_r i), <- drop_drop, H.
Qed.

Lemma size_loop_spec all es ps i c w :
  drop i all = es -> Forall2 sized es ps -> Forall entry_typed es ->
  0 <= c <= BBP_V2_MAX_EXTENT -> 0 <= w <= BBP_V2_MAX_CRC_WORK ->
  exists r, size_loop all i c w (length es) = Some r /\
    match r with
    | inl st => st <> BBP_V2_OK /\ ~ sizable c w es ps
    | inr (total, work) => sizable c w es ps /\ total = layout_end c (place c es ps) /\
        work = w + payload_len (place c es ps)
    end.
Proof.
  intros Hdrop Hf. revert i c w Hdrop. induction Hf as [|e p es ps Hs Hf IH];
    intros i c w Hdrop Ht Hc Hw; cbn [length size_loop].
  - eexists. split; [reflexivity|]. cbn. split_and!; try lia. split_and!; [done|cbn; lia|cbn; lia].
  - apply Forall_cons in Ht as [Ht Hts].
    destruct (drop_cons_inv _ _ _ _ Hdrop) as [Hi Hdrop']. rewrite Hi. cbn [mbind option_bind].
    pose proof (size_entry_spec e c w p Ht Hs Hc Hw) as Hse. cbn zeta in Hse.
    unfold sizable. cbn [place layout_end payload_len foldr p_payload].
    unfold p_end. cbn [p_pos p_payload].
    set (c' := round_up (be_alignment e) c + zlen p) in *.
    pose proof (payload_len_nonneg (place c' es ps)) as Hpl. unfold payload_len in Hpl.
    destruct (size_entry e c w) as [st|[c1 w1]].
    + destruct Hse as [Hst Hno]. eexists. split; [reflexivity|]. split; [done|].
      intros (Hvv & Hend & Hwork). apply Forall_cons in Hvv as [Hv Hvs]. apply Hno. split; [done|].
      pose proof (layout_end_ge c' _ (place_laid_out c' es ps Hf Hts Hvs)). lia.
    + destruct Hse as (-> & -> & Hv & Hc' & Hw'). pose proof (zlen_nonneg p).
      assert (0 <= c') by (destruct Hv as (_ & _ & Ha); apply is_alignment_bounds in Ha;
        pose proof (round_up_bounds (be_alignment e) c); unfold c'; lia).
      destruct (IH (S i) c' (w + zlen p) Hdrop' Hts) as (r & -> & Hr); [lia|lia|].
      exists r. split; [done|]. unfold sizable, payload_len in Hr.
      destruct r as [st|[total work]].
      * destruct Hr as [Hst Hno]. split; [done|]. intros (Hvv & Hend & Hwork).
        apply Forall_cons in Hvv as [_ Hvs]. apply Hno. split_and!; [done|done|lia].
      * destruct Hr as ((Hvs & Hend & Hwork) & -> & ->).
        split_and!; [by constructor|done|lia|done|lia].
Qed.

(** ** Writing fields one after the other into zeros *)

(** [xs] has been written at [a] and [k] zeros follow. *)
Definition filled (m : mem) (a : Z) (xs : list byte) (k : nat) : Prop :=
  bytes_at m a (xs ++ replicate k x00).

Lemma filled_store m a b xs k zs :
  filled m a xs (length zs + k) -> b = a + zlen xs ->
  exists m', store_bytes m b zs = Some m' /\ frame b (zlen zs) m m' /\ filled m' a (xs ++ zs) k.
Proof.
  intros Hf ->. unfold filled in *. rewrite <- (app_nil_r (replicate _ x00)) in Hf.
  destruct (store_in_zeros m a xs _ [] zs Hf) as (m' & Hst & Hat); [lia|].
  exists m'. split_and!; [done|by apply frame_store|].
  rewrite app_nil_r in Hat. rewrite <- app_assoc.
  by replace (length zs + k - length zs)%nat with k in Hat by lia.
Qed.

Lemma filled_put n m a b xs k v :
  filled m a xs (n + k) -> b = a + zlen xs ->
  exists m', put_loop m b 0 v n = Some m' /\ frame b (Z.of_nat n) m m' /\
    filled m' a (xs ++ le_encode n v) k.
Proof.
  intros Hf Hb. rewrite put_store.
  destruct (filled_store m a b xs k (le_encode n v)) as (m' & Hst & Hfr & Hfl);
    [by rewrite length_le_encode|done|].
  rewrite zlen_le_encode in Hfr. eauto.
Qed.

Lemma filled_skip n m a xs k : filled m a xs (n + k) -> filled m a (xs ++ replicate n x00) k.
Proof. unfold filled. by rewrite replicate_add, app_assoc. Qed.

(** Run the next [put] of [n] bytes, where [k] zeros stay. *)
Ltac put_next n k :=
  match goal with
  | F : filled ?m ?a ?xs _ |- context [put_loop ?m ?b 0 ?v _] =>
      let m' := fresh "m" in let E := fresh "E" in let Fr := fresh "Fr" in
      destruct (filled_put n m a b xs k v F) as (m' & E & Fr & ?);
      [rewrite ?zlen_app, ?zlen_le_encode, ?zlen_replicate, ?zlen_nil; try reflexivity; lia|];
      rewrite E; cbn [mbind option_bind]; clear E F
  end.

Lemma write_dirent_spec m output entry e pos p :
  sized e p -> filled m entry [] 48 -> bytes_at m (output + pos) p ->
  output + pos + zlen p <= entry \/ entry + 48 <= output + pos ->
  exists m', write_dirent m output entry pos e = Some m' /\ frame entry 48 m m' /\
    bytes_at m' entry (dirent_bytes (Placed e pos p)).
Proof.
  intros Hs Hz Hp Hd. unfold write_dirent, put64, put32, put16, sized in *.
  put_next 8%nat 40%nat. put_next 4%nat 36%nat. put_next 2%nat 34%nat.
  apply (filled_skip 2 _ _ _ 32) in H.
  put_next 8%nat 24%nat. put_next 8%nat 16%nat.
  assert (frame entry 48 m m4) as Hfr.
  { repeat first [eassumption | eapply frame_trans; [eapply frame_weaken; [eassumption|lia|lia]|]].
    apply frame_refl. }
  rewrite bbp_crc64_spec, Hs. unfold zlen at 1. rewrite Nat2Z.id.
  rewrite (bytes_at_load m4 _ p) by (eapply frame_bytes_at; [exact Hfr|lia|done]).
  cbn [mbind option_bind].
  put_next 8%nat 8%nat.
  match goal with F : filled _ _ _ 8 |- _ => 
      destruct (filled_put 4 _ _ (entry + 40) _ 4 (be_alignment e) F) as (m6 & E6 & Fr6 & F6) end.
  { rewrite !zlen_app, !zlen_le_encode, !zlen_replicate. reflexivity. }
  rewrite E6. exists m6. split; [done|]. split.
  - eapply frame_trans; [exact Hfr|].
    eapply frame_trans; (eapply frame_weaken; [eassumption|lia|lia]).
  - unfold dirent_bytes. cbn [dirent_pieces concat p_entry p_pos p_payload].
    unfold filled in F6. rewrite <- !app_assoc in F6. cbn [app] in F6.
    rewrite ?app_nil_r in *. by rewrite Hs in *.
Qed.

Lemma write_header_spec m output n total k :
  filled m output [] (64 + k) ->
  exists m', write_header m output n total = Some m' /\ frame output 64 m m' /\
    filled m' output (header_bytes n total) k.
Proof.
  intros Hz. unfold write_header, put64, put32, put16.
  destruct (filled_store m output output [] (56 + k) BBP_V2_MAGIC_BYTES) as (m0 & E0 & Fr0 & F0);
    [exact Hz|unfold zlen; cbn; lia|]. rewrite E0. cbn [mbind option_bind]. clear Hz E0.
  change (zlen BBP_V2_MAGIC_BYTES) with 8 in Fr0.
  assert (zlen ([] ++ BBP_V2_MAGIC_BYTES) = 8) as Hm by reflexivity.
  put_next 2%nat (54 + k)%nat. put_next 2%nat (52 + k)%nat.
  put_next 2%nat (50 + k)%nat. put_next 2%nat (48 + k)%nat.
  put_next 4%nat (44 + k)%nat. put_next 4%nat (40 + k)%nat.
  put_next 8%nat (32 + k)%nat.
  match goal with F : filled _ _ _ (32 + k) |- _ =>
      destruct (filled_put 8 _ _ (output + 32) _ (24 + k) BBP_V2_HEADER_SIZE F)
        as (m9 & E9 & Fr9 & F9) end.
  { rewrite !zlen_app, !zlen_le_encode. reflexivity. }
  rewrite E9. exists m9. split; [done|]. split.
  - repeat first [eapply frame_weaken; [exact Fr9|lia|lia]
                 |eapply frame_trans; [eapply frame_weaken; [eassumption|lia|lia]|]].
  - unfold filled in *. unfold header_bytes. cbn [header_pieces concat].
    rewrite <- !app_assoc in *. cbn [app] in *.
    replace (24 + k)%nat with (8 + (8 + (8 + k)))%nat in F9 by lia.
    rewrite !replicate_add in F9. done.
Qed.

(** The capsule while entries are being written: [A] is the header and the
    directory so far, [B] the body so far. *)
Definition in_progress (m : mem) (output : Z) (A B : list byte) (k r : nat) : Prop :=
  bytes_at m output (A ++ replicate (48 * k) x00 ++ B ++ replicate r x00).

Lemma write_entry_spec m output e i A B k r p pos c total :
  in_progress m output A B (S k) r ->
  entry_valid e -> sized e p -> load_bytes m (be_data e) (length p) = Some p ->
  zlen A = 64 + i * 48 -> c = zlen A + 48 * Z.of_nat (S k) + zlen B ->
  total = c + Z.of_nat r -> pos = round_up (be_alignment e) c -> pos + zlen p <= total ->
  total <= BBP_V2_MAX_EXTENT ->
  be_data e + be_size e <= output \/ output + total <= be_data e ->
  exists m' r', write_entry m output e i c = Some (m', pos + zlen p) /\
    frame output total m m' /\ Z.of_nat r' = total - (pos + zlen p) /\
    in_progress m' output (A ++ dirent_bytes (Placed e pos p))
      (B ++ replicate (Z.to_nat (pos - c)) x00 ++ p) k r'.
Proof.
  intros Hat (_ & Hsz & Hal) Hs Hld HA Hc Htotal Hpos Hfit Htot Hsrc.
  unfold sized in Hs. pose proof (is_alignment_bounds _ Hal).
  assert (c <= pos) as Hcp by (pose proof (round_up_bounds (be_alignment e) c); lia).
  pose proof (zlen_nonneg A). pose proof (zlen_nonneg B). pose proof (zlen_nonneg p).
  unfold write_entry. rewrite align_up_spec by (done || lia). cbn [default id]. unfold id. rewrite <- Hpos.
  vconsts. rewrite Hs in *. rewrite wrap_small by (unfold in_word; lia).
  (* the payload goes into the zeros after the body *)
  set (pad := Z.to_nat (pos - c)). set (r' := Z.to_nat (total - (pos + zlen p))).
  assert (r = (pad + (length p + r'))%nat) as Hr by (unfold pad, r', zlen in *; lia).
  unfold in_progress in *. rewrite Hr, replicate_add in Hat.
  destruct (filled_store m output (output + pos)
              (A ++ replicate (48 * S k) x00 ++ B ++ replicate pad x00) r' p)
    as (m1 & E1 & Fr1 & F1).
  { unfold filled. by rewrite <- !app_assoc. }
  { rewrite !zlen_app, !zlen_replicate. unfold pad. lia. }
  replace (Z.to_nat (zlen p)) with (length p) by (unfold zlen; lia). unfold bytes_copy.
  rewrite (mem_copy_store _ _ _ _ _ Hld), E1 by (intros x Hx1 Hx2; unfold zlen in *; lia).
  cbn [mbind option_bind].
  (* its directory entry goes into the zeros after the directory *)
  unfold filled in F1. replace (48 * S k)%nat with (48 + 48 * k)%nat in F1 by lia.
  rewrite replicate_add in F1. rewrite <- !app_assoc, !bytes_at_app, !zlen_replicate in F1.
  destruct F1 as (FA & FD & FD' & FB & FP & Fp & FR).
  destruct (write_dirent_spec m1 output (output + 64 + i * 48) e pos p) as (m2 & E2 & Fr2 & F2).
  { done. }
  { unfold filled. cbn [app]. by replace (output + 64 + i * 48) with (output + zlen A) by lia. }
  { match type of Fp with bytes_at _ ?a _ => replace (output + pos) with a by (unfold pad; lia) end.
    done. }
  { lia. }
  rewrite E2. cbn [mbind option_bind]. exists m2, r'. split; [done|].
  split; [eapply frame_trans; (eapply frame_weaken; [eassumption| |]); lia|].
  split; [unfold r'; lia|].
  rewrite <- !app_assoc, !bytes_at_app, !zlen_replicate, zlen_dirent_bytes.
  replace (output + 64 + i * 48) with (output + zlen A) in * by lia.
  split_and!; try done; (eapply frame_bytes_at; [exact Fr2| |eassumption]);
    rewrite ?zlen_replicate; lia.
Qed.

(** A payload the builder can read: its bytes are [p], outside the output. *)
Definition source_ok (m : mem) (output total : Z) (e : bbp_v2_build_entry) (p : list byte) : Prop :=
  load_bytes m (be_data e) (length p) = Some p /\
  (be_data e + be_size e <= output \/ output + total <= be_data e).

Lemma source_ok_frame m m' output total e p :
  sized e p -> frame output total m m' -> source_ok m output total e p ->
  source_ok m' output total e p.
Proof.
  intros Hs Hfr [Hld Hd]. split; [|done]. rewrite <- Hld. eapply frame_load; [exact Hfr|].
  unfold sized, zlen in Hs. lia.
Qed.

Lemma sources_frame m m' output total es ps :
  Forall2 sized es ps -> frame output total m m' ->
  Forall2 (source_ok m output total) es ps -> Forall2 (source_ok m' output total) es ps.
Proof.
  intros Hf Hfr Hsrc. induction Hf as [|e p es ps Hs Hf IH]; [constructor|].
  apply Forall2_cons in Hsrc as [H Hsrc]. constructor; [by eapply source_ok_frame|by apply IH].
Qed.

Lemma write_loop_spec output total es ps :
  Forall2 sized es ps -> Forall entry_typed es -> Forall entry_valid es ->
  total <= BBP_V2_MAX_EXTENT ->
  forall m all i A B r c,
  drop i all = es -> Forall2 (source_ok m output total) es ps ->
  in_progress m output A B (length es) r ->
  zlen A = 64 + Z.of_nat i * 48 -> c = zlen A + 48 * Z.of_nat (length es) + zlen B ->
  total = c + Z.of_nat r -> layout_end c (place c es ps) = total ->
  exists m', write_loop m output all i c (length es) = Some (m', total) /\
    frame output total m m' /\
    bytes_at m' output (A ++ directory_bytes (place c es ps) ++ B ++ body_bytes c (place c es ps)).
Proof.
  intros Hf. induction Hf as [|e p es ps Hs Hf IH];
    intros Ht Hv Htot m all i A B r c Hdrop Hsrc Hat HA Hc Htotal Hend; cbn [length write_loop].
  - cbn [place layout_end directory_bytes body_bytes map concat] in *. subst c.
    exists m. split; [by rewrite Hend|]. split; [apply frame_refl|]. unfold in_progress in Hat.
    assert (r = 0%nat) as -> by lia. exact Hat.
  - apply Forall_cons in Ht as [Ht Hts], Hv as [Hv Hvs].
    apply Forall2_cons in Hsrc as [[Hld Hd] Hsrc].
    destruct (drop_cons_inv _ _ _ _ Hdrop) as [Hi Hdrop'].
    rewrite Hi. cbn [mbind option_bind place layout_end].
    cbn [place layout_end] in Hend. unfold p_end in *. cbn [p_pos p_payload] in *.
    set (pos := round_up (be_alignment e) c) in *.
    pose proof (layout_end_ge _ _ (place_laid_out (pos + zlen p) es ps Hf Hts Hvs)) as Hge.
    destruct (write_entry_spec m output e (Z.of_nat i) A B (length es) r p pos c total)
      as (m1 & r1 & E1 & Fr1 & Hr1 & F1); try done; [lia|].
    rewrite E1. cbn [mbind option_bind].
    assert (c <= pos) as Hcp.
    { destruct Hv as (_ & _ & Ha). apply is_alignment_bounds in Ha.
      pose proof (round_up_bounds (be_alignment e) c). unfold pos. lia. }
    pose proof (sources_frame _ _ _ _ _ _ Hf Fr1 Hsrc) as Hsrc1.
    destruct (IH Hts Hvs Htot m1 all (S i) _ _ r1 (pos + zlen p) Hdrop' Hsrc1 F1)
      as (m2 & E2 & Fr2 & F2); [| |lia|done|].
    { rewrite zlen_app, zlen_dirent_bytes. lia. }
    { rewrite !zlen_app, zlen_dirent_bytes, zlen_replicate. cbn [length] in Hc. lia. }
    exists m2. split; [done|]. split; [by eapply frame_trans|].
    unfold directory_bytes in *. cbn [map concat body_bytes]. unfold p_end. cbn [p_pos p_payload].
    repeat rewrite <- app_assoc in F2. by rewrite <- !app_assoc.
Qed.

(** ** The whole builder *)

(** The source ranges are apart from the output and do not wrap. *)
Definition source_apart (output total : Z) (e : bbp_v2_build_entry) : Prop :=
  output + total <= SIZE_MAX /\ be_data e + be_size e <= SIZE_MAX /\
  (be_data e + be_size e <= output \/ output + total <= be_data e).

Lemma memory_ranges_overlap_spec a n b k :
  0 <= a -> 0 <= n -> 0 <= b -> 0 <= k ->
  memory_ranges_overlap a n b k = false <->
  a + n <= SIZE_MAX /\ b + k <= SIZE_MAX /\ (b + k <= a \/ a + n <= b).
Proof.
  intros. unfold memory_ranges_overlap. vconsts.
  destruct (_ || _) eqn:E; bool_to_prop; [split; [done|lia]|].
  rewrite !wrap_small by (unfold in_word; lia). rewrite andb_false_iff, !Z.ltb_ge. lia.
Qed.

Lemma source_overlaps_spec output total all es i :
  drop i all = es -> Forall entry_typed es -> 0 <= output -> 0 <= total ->
  exists o, source_overlaps all output total i (length es) = Some o /\
    (o = false <-> Forall (source_apart output total) es).
Proof.
  intros Hdrop Ht Ho Htot. revert i Hdrop. induction Ht as [|e es Ht _ IH]; intros i Hdrop.
  - exists false. split; [done|]. split; [constructor|done].
  - destruct (drop_cons_inv _ _ _ _ Hdrop) as [Hi Hdrop'].
    cbn [length source_overlaps]. rewrite Hi. cbn [mbind option_bind]. destruct Ht.
    pose proof (memory_ranges_overlap_spec output total (be_data e) (be_size e)) as Hov.
    unfold in_word in *. specialize (Hov Ho Htot ltac:(lia) ltac:(lia)).
    destruct (memory_ranges_overlap _ _ _ _).
    + exists true. split; [done|]. split; [done|]. intros Hall.
      apply Forall_cons in Hall as [H _]. by apply Hov in H.
    + destruct (IH (S i) Hdrop') as (o & -> & Hiff). exists o. split; [done|].
      rewrite Hiff, Forall_cons. split; [|tauto]. intros H. split; [by apply Hov|done].
Qed.

(** The inputs on which a capsule is built. *)
Definition buildable (output capacity : Z) (es : list bbp_v2_build_entry)
    (ps : list (list byte)) : Prop :=
  let pls := place (body_start (zlen es)) es ps in
  zlen es <= BBP_V2_MAX_ENTRIES /\ Forall entry_valid es /\
  image_total pls <= BBP_V2_MAX_EXTENT /\ image_total pls <= capacity /\
  image_total pls + payload_len pls <= BBP_V2_MAX_CRC_WORK /\
  Forall (source_apart output (image_total pls)) es.

Definition build_image (es : list bbp_v2_build_entry) (ps : list (list byte)) : list byte :=
  capsule_image (place (body_start (zlen es)) es ps).

(** Storing the checksum of the capsule seals it. *)
Lemma seal_capsule m output bs :
  48 <= zlen bs -> bytes_at m output bs ->
  exists crc m', crc_with_zero_checksum m output (zlen bs) = Some crc /\
    put64 m (output + 40) crc = Some m' /\ frame output (zlen bs) m m' /\
    bytes_at m' output (seal_at bs 40).
Proof.
  intros Hlen Hat. exists (crc64_skip_of bs 40).
  rewrite put64_store, (crc_with_zero_checksum_spec _ _ _ Hat) by done. unfold store64.
  destruct (store_bytes_mapped m (output + 40) (le_encode 8 (crc64_skip_of bs 40))) as [m' E].
  { rewrite zlen_le_encode. eapply mapped_sub; [by apply bytes_at_mapped|lia|lia]. }
  exists m'. split_and!; try done.
  - eapply frame_weaken; [by apply frame_store|lia|]. rewrite zlen_le_encode. lia.
  - unfold seal_at. unfold zlen in Hlen.
    pose proof (store_bytes_splice m output bs 40 (le_encode 8 (crc64_skip_of bs 40)) m' Hat) as H.
    rewrite length_le_encode in H. apply H; [lia|exact E].
Qed.

Section Build.
Context (m : mem) (output capacity : Z) (es : list bbp_v2_build_entry) (ps : list (list byte)).
Let pls := place (body_start (zlen es)) es ps.
Context (Hsized : Forall2 sized es ps) (Htyped : Forall entry_typed es).
Context (Hcount : zlen es <= BBP_V2_MAX_ENTRIES).

Lemma body_start_small : 0 <= body_start (zlen es) <= BBP_V2_MAX_EXTENT.
Proof using Hcount. pose proof (zlen_nonneg es). unfold body_start. vconsts. lia. Qed.

Lemma zlen_pls : zlen pls = zlen es.
Proof using Hsized. by apply length_place. Qed.

Lemma pls_laid_out : Forall entry_valid es -> laid_out (body_start (zlen pls)) pls.
Proof using Hsized Htyped. intros Hv. rewrite zlen_pls. by apply place_laid_out. Qed.

(** The write phase: from a checked request to the finished image. *)
Lemma build_write_spec :
  Forall entry_valid es -> image_total pls <= BBP_V2_MAX_EXTENT ->
  mapped m output (image_total pls) ->
  Forall2 (source_ok m output (image_total pls)) es ps ->
  exists m',
    (m ← bytes_zero m output (Z.to_nat (image_total pls));
     m ← write_header m output (zlen es) (image_total pls);
     '(m, _) ← write_loop m output es 0 (body_start (zlen es)) (length es);
     crc ← crc_with_zero_checksum m output (image_total pls);
     m ← put64 m (output + 40) crc;
     Some (BBP_V2_OK, Some (image_total pls), m)) =
    Some (BBP_V2_OK, Some (image_total pls), m') /\
    frame output (image_total pls) m m' /\ bytes_at m' output (capsule_image pls).
Proof using Hsized Htyped.
  intros Hv Htot Hmap Hsrc. pose proof (pls_laid_out Hv) as Hlo.
  pose proof (total_ge pls Hlo) as Hge. pose proof (zlen_nonneg es). pose proof zlen_pls as Hl.
  rewrite Hl in *. set (total := image_total pls) in *.
  unfold bytes_zero. rewrite mem_zero_store.
  destruct (store_bytes_mapped m output (replicate (Z.to_nat total) x00)) as [m1 E1];
    [rewrite zlen_replicate, Z2Nat.id by lia; done|].
  rewrite E1. cbn [mbind option_bind].
  pose proof (frame_store _ _ _ _ E1) as Fr1. rewrite zlen_replicate, Z2Nat.id in Fr1 by lia.
  set (k := (48 * length es)%nat). set (r := Z.to_nat (total - 64 - 48 * zlen es)).
  destruct (write_header_spec m1 output (zlen es) total (k + r)) as (m2 & E2 & Fr2 & F2).
  { unfold filled. cbn [app]. replace (64 + (k + r))%nat with (Z.to_nat total)
      by (unfold k, r, zlen in *; lia). by apply store_bytes_at in E1. }
  rewrite E2. cbn [mbind option_bind].
  assert (frame output total m m2) as Fr12.
  { eapply frame_trans; [exact Fr1|]. eapply frame_weaken; [exact Fr2|lia|lia]. }
  destruct (write_loop_spec output total es ps Hsized Htyped Hv Htot m2 es 0
              (header_bytes (zlen es) total) [] r (body_start (zlen es)))
    as (m3 & E3 & Fr3 & F3).
  { by rewrite drop_0. }
  { by eapply sources_frame. }
  { unfold in_progress. cbn [app]. rewrite <- replicate_add. exact F2. }
  { apply zlen_header_bytes. }
  { rewrite zlen_header_bytes. unfold body_start, zlen. vconsts. cbn [length]. lia. }
  { unfold body_start, r. vconsts. lia. }
  { unfold total, image_total. by rewrite Hl. }
  cbn [app] in F3. fold pls in F3. rewrite E3. cbn [mbind option_bind].
  assert (bytes_at m3 output (unsealed_image pls)) as F3'.
  { unfold unsealed_image. rewrite Hl. exact F3. }
  pose proof (zlen_unsealed pls) as Hzu. rewrite Hl in Hzu. specialize (Hzu Hlo).
  destruct (seal_capsule m3 output (unsealed_image pls)) as (crc & m4 & Ec & E4 & Fr4 & F4);
    [rewrite Hzu; fold total; lia|done|].
  rewrite Hzu in Ec, Fr4. fold total in Ec, Fr4. rewrite Ec. cbn [mbind option_bind].
  rewrite E4. exists m4. split; [done|]. split; [|exact F4].
  eapply frame_trans; [exact Fr12|]. by eapply frame_trans.
Qed.
End Build.

(** The outcome of a build: OK exactly for buildable requests, then with the
    image in place and nothing else changed; otherwise nothing is written. *)
Definition builds (m : mem) (output capacity : Z) (es : list bbp_v2_build_entry)
    (ps : list (list byte)) (r : option (bbp_v2_status_t * option Z * mem)) : Prop :=
  exists st w m', r = Some (st, Some w, m') /\
    (st = BBP_V2_OK <-> buildable output capacity es ps) /\
    (st = BBP_V2_OK -> w = zlen (build_image es ps) /\
       frame output (zlen (build_image es ps)) m m' /\ bytes_at m' output (build_image es ps)) /\
    (st <> BBP_V2_OK -> w = 0 /\ m' = m).

Lemma build_fails m output capacity es ps st :
  st <> BBP_V2_OK -> ~ buildable output capacity es ps ->
  builds m output capacity es ps (Some (st, Some 0, m)).
Proof. intros Hst Hno. exists st, 0, m. split; [done|]. split; [by split|]. by split. Qed.

Lemma bbp_v2_build_spec m output capacity es ps w0 :
  0 < output -> mapped m output capacity ->
  Forall2 sized es ps -> Forall entry_typed es ->
  (Forall entry_valid es ->
   Forall2 (fun e p => load_bytes m (be_data e) (length p) = Some p) es ps) ->
  builds m output capacity es ps
    (bbp_v2_build m output capacity (Some es) (zlen es) (Some w0)).
Proof.
  intros Hout Hmap Hsized Htyped Hload. unfold bbp_v2_build.
  cbn [fmap option_fmap option_map default from_option id]. cbv zeta.
  replace (output =? 0) with false by lia. rewrite bool_decide_eq_false_2 by done.
  rewrite andb_false_r. cbn [orb].
  pose proof (zlen_nonneg es) as Hn0.
  destruct (BBP_V2_MAX_ENTRIES <? zlen es) eqn:G0; bool_to_prop.
  { apply build_fails; [done|]. intros (H & _). lia. }
  fold (body_start (zlen es)). pose proof (body_start_small es G0) as Hbs.
  replace (Z.to_nat (zlen es)) with (length es) by (unfold zlen; lia).
  destruct (size_loop_spec es es ps 0 (body_start (zlen es)) 0) as (r & -> & Hr);
    [by rewrite drop_0|done|done|done|vconsts; lia|]. cbn [mbind option_bind].
  pose proof (zlen_pls es ps Hsized) as Hl. unfold sizable in Hr. set (pls := place (body_start (zlen es)) es ps) in *.
  assert (image_total pls = layout_end (body_start (zlen es)) pls) as Htot
    by (unfold image_total; by rewrite Hl).
  rewrite <- Htot, Z.add_0_l in Hr. pose proof (payload_len_nonneg pls) as Hpl.
  destruct r as [st|[total work]].
  { destruct Hr as [Hst Hno]. apply build_fails; [done|]. intros (_ & Hv & He & _ & Hw & _).
    fold pls in He, Hw. apply Hno. split; [done|]. split; [done|].
    pose proof (total_ge pls (pls_laid_out es ps Hsized Htyped Hv)). lia. }
  destruct Hr as ((Hv & He & Hw) & -> & ->).
  vconsts. rewrite wrap_small by (unfold in_word; lia).
  destruct (_ <? image_total pls) eqn:G1; bool_to_prop.
  { apply build_fails; [done|]. intros (_ & _ & _ & _ & Hbad & _). fold pls in Hbad. vconsts. lia. }
  destruct (capacity <? image_total pls) eqn:G2; bool_to_prop.
  { apply build_fails; [done|]. intros (_ & _ & _ & Hbad & _). fold pls in Hbad. lia. }
  pose proof (total_ge pls (pls_laid_out es ps Hsized Htyped Hv)) as Hge.
  destruct (source_overlaps_spec output (image_total pls) es es 0) as (o & -> & Ho);
    [by rewrite drop_0|done|lia|lia|]. cbn [mbind option_bind].
  destruct o.
  { apply build_fails; [done|]. intros (_ & _ & _ & _ & _ & Hbad). by apply Ho in Hbad. }
  assert (Forall (source_apart output (image_total pls)) es) as Hap by (by apply Ho).
  destruct (build_write_spec m output es ps Hsized Htyped Hv) as (m' & E & Fr & F); try done.
  { by eapply mapped_sub; [exact Hmap|lia|fold pls; lia]. }
  { apply Forall2_same_length_lookup_2; [by eapply Forall2_length|]. intros i e p Hi Hp.
    split; [by eapply (Forall2_lookup_lr _ _ _ i) in Hload|].
    rewrite Forall_lookup in Hap. apply (Hap i e Hi). }
  fold pls in E, Fr, F. rewrite E.
  pose proof (zlen_image pls (pls_laid_out es ps Hsized Htyped Hv)) as Hzi.
  exists BBP_V2_OK, (image_total pls), m'. unfold build_image. fold pls. rewrite Hzi.
  split; [done|]. split; [|by split]. split; [intros _|done].
  unfold buildable. fold pls. vconsts. split_and!; try done; lia.
Qed.
