(* ===== verification/CapsuleProps.v ===== *)
(** * Properties of the version 2 capsule

    The parser decides exactly the declarative predicate [wf_capsule] without
    ever reading outside the extent; directory accesses stay inside it;
    building and parsing are inverse; the digest is the canonical stream of
    the entries. *)

From stdpp Require Import strings.
From S2P Require Import Prelude Memory Crc64 Abi Capsule CapsuleFacts CapsuleBuild.

(** ** The directory accessor *)

(** The view of the [i]th entry of a capsule [bs] at [capsule]. *)
Definition entry_view (capsule : Z) (bs : list byte) (dir i : Z) : bbp_v2_entry_view :=
  V2EntryView (e_type bs dir i) (e_flags bs dir i) (e_version bs dir i) (e_alignment bs dir i)
    (e_offset bs dir i) (e_size bs dir i) (e_checksum bs dir i)
    (capsule + e_offset bs dir i).

(** A view a caller may hold: C integers, and its extent is mapped. *)
Record view_ok (m : mem) (v : bbp_v2_view) : Prop := ViewOk {
  vo_data : in_word 64 (v_data v);
  vo_total : in_word 64 (v_total_size v);
  vo_dir : in_word 64 (v_directory_offset v);
  vo_count : in_word 32 (v_entry_count v);
  vo_mapped : mapped m (v_data v) (v_total_size v);
}.

Lemma view_bytes m v :
  view_ok m v -> exists bs, bytes_at m (v_data v) bs /\ zlen bs = v_total_size v.
Proof.
  intros [_ [Ht _] _ _ Hm]. rewrite <- (Z2Nat.id (v_total_size v)) in Hm by done.
  apply mapped_load in Hm as [bs Hbs]. apply load_bytes_at in Hbs as [Hl Hat].
  exists bs. split; [done|]. unfold zlen. lia.
Qed.

Lemma bbp_v2_get_entry_spec m v bs i o :
  bytes_at m (v_data v) bs -> zlen bs = v_total_size v -> v_data v <> 0 ->
  0 <= i < v_entry_count v -> v_entry_count v <= BBP_V2_MAX_ENTRIES ->
  BBP_V2_HEADER_SIZE <= v_total_size v <= BBP_V2_MAX_EXTENT ->
  BBP_V2_HEADER_SIZE <= v_directory_offset v ->
  v_directory_offset v + v_entry_count v * BBP_V2_DIRENT_SIZE <= v_total_size v ->
  bbp_v2_get_entry m (Some v) i (Some o) =
  Some (if decide (e_offset bs (v_directory_offset v) i + e_size bs (v_directory_offset v) i
                   <= v_total_size v)
        then (BBP_V2_OK, Some (entry_view (v_data v) bs (v_directory_offset v) i))
        else (BBP_V2_ERR_EXTENT, Some o)).
Proof.
  intros Hat Hlen Hd Hi Hn Ht Hdir Hdn. unfold bbp_v2_get_entry. vconsts.
  replace (v_data v =? 0) with false by lia.
  replace (_ || (v_entry_count v <=? i)) with false by lia.
  match goal with |- (if ?c then _ else _) = _ => replace c with false by lia end.
  destruct (get_entry_fields m (v_data v) bs (v_directory_offset v) (v_entry_count v))
    with (i := i) as (E0&E8&E12&_&E16&E24&E32&E40&_); vconsts; try done; [lia|].
  rewrite E0, E8, E12, E16, E24, E32, E40. cbn [mbind option_bind].
  pose proof (fld_nonneg 8 bs (entry_pos (v_directory_offset v) i + 24)
    : 0 <= e_size bs (v_directory_offset v) i).
  destruct (decide _) as [Hin|Hin].
  - replace (_ || _) with false by lia. done.
  - replace (_ || _) with true by lia. done.
Qed.

(** ** The digest *)

Definition digest_stream (bs : list byte) (dir n : Z) : list (list byte) :=
  digest_domain :: digest_envelope 0 n ::
  concat (map (fun i => [digest_frame (entry_view 0 bs dir i);
                         slice bs (e_offset bs dir i) (e_size bs dir i)]) (seqZ 0 n)).

Lemma digest_loop_spec {S} m capsule bs (update : S -> list byte -> S) i k s :
  bytes_at m capsule bs -> capsule <> 0 -> wf_capsule bs ->
  0 <= i -> i + Z.of_nat k = c_count bs ->
  digest_loop m (view_of capsule bs) update s i k =
  Some (fold_left update
    (concat (map (fun i => [digest_frame (entry_view 0 bs (c_dir bs) i);
                            slice bs (e_offset bs (c_dir bs) i) (e_size bs (c_dir bs) i)])
                 (seqZ i (Z.of_nat k)))) s).
Proof.
  intros Hat Hc Hwf. pose proof (wf_hdr _ Hwf) as [He _ _ _ _ _ Hn _ _ [Hd1 Hd2]].
  revert i s. induction k as [|k IH]; intros i s Hi Hk; [done|].
  cbn [digest_loop].
  rewrite (bbp_v2_get_entry_spec m (view_of capsule bs) bs i); cbn [view_of v_data v_total_size
    v_directory_offset v_entry_count]; try (done || lia).
  destruct (wf_entries _ Hwf i) as [_ _ _ Hne Hin]; [lia|].
  rewrite decide_True by done. cbn [mbind option_bind].
  unfold entry_view at 1 2. cbn [ev_data ev_size].
  rewrite (slice_load m capsule bs) by (done || apply fld_nonneg || lia).
  cbn [mbind option_bind]. rewrite IH by lia. f_equal.
  rewrite (seqZ_cons i) by lia. replace (Z.pred (Z.of_nat (Datatypes.S k))) with (Z.of_nat k) by lia.
  replace (Z.succ i) with (i + 1) by lia. cbn [map concat app fold_left]. reflexivity.
Qed.

(** The logical contents of a request or of a parsed entry. *)
Definition carries (m : mem) (ev : bbp_v2_entry_view) (e : bbp_v2_build_entry) (p : list byte) : Prop :=
  ev_type ev = be_type e /\ ev_flags ev = be_flags e /\ ev_version ev = be_version e /\
  ev_alignment ev = be_alignment e /\ ev_size ev = zlen p /\
  load_bytes m (ev_data ev) (length p) = Some p.

Lemma built_entry m output es ps v i e p eo :
  output <> 0 -> Forall2 sized es ps -> Forall entry_typed es -> Forall entry_valid es ->
  zlen es <= BBP_V2_MAX_ENTRIES -> zlen (build_image es ps) <= BBP_V2_MAX_EXTENT ->
  bytes_at m output (build_image es ps) ->
  v = V2View output (zlen (build_image es ps)) BBP_V2_HEADER_SIZE 0 (zlen es) ->
  es !! i = Some e -> ps !! i = Some p ->
  exists ev, bbp_v2_get_entry m (Some v) (Z.of_nat i) (Some eo) = Some (BBP_V2_OK, Some ev) /\
    carries m ev e p.
Proof.
  intros Ho Hs Ht Hv Hn Htot Hat -> He Hp. unfold build_image in *.
  set (pls := place (body_start (zlen es)) es ps) in *.
  pose proof (pls_laid_out es ps Hs Ht Hv) as Hlo. fold pls in Hlo.
  pose proof (zlen_pls es ps Hs) as Hl. fold pls in Hl.
  assert (zlen pls <= BBP_V2_MAX_ENTRIES) as Hn' by lia.
  rewrite zlen_image in * by done. pose proof (total_ge pls Hlo). pose proof (zlen_nonneg pls).
  destruct (lookup_lt_is_Some_2 pls i) as [q Hq].
  { apply lookup_lt_Some in He. unfold zlen in *. lia. }
  destruct (place_lookup _ _ _ _ _ Hq) as [Hqe Hqp].
  assert (e = p_entry q /\ p = p_payload q) as [-> ->] by (split; congruence).
  destruct (image_entry pls Hlo Hn' Htot i q Hq) as (E0&E8&E12&_&Eo&Es&_&Ea&_).
  destruct (laid_out_at _ _ _ _ Hlo Hq) as (_&_&?&_&_&?&Hend). unfold p_end in Hend.
  rewrite (bbp_v2_get_entry_spec m _ (capsule_image pls)); cbn [v_data v_total_size
    v_directory_offset v_entry_count]; try done; try (rewrite ?zlen_image by done; vconsts; lia).
  2: { apply lookup_lt_Some in He. unfold zlen. lia. }
  vconsts. unfold image_total in *. rewrite Eo, Es, decide_True by done.
  eexists. split; [reflexivity|]. unfold carries, entry_view.
  cbn [ev_type ev_flags ev_version ev_alignment ev_size ev_data v_data v_directory_offset].
  rewrite Eo. split_and!; try done.
  rewrite <- (image_payload pls Hlo i q Hq) at 2.
  replace (length (p_payload q)) with (Z.to_nat (zlen (p_payload q))) by (unfold zlen; lia).
  apply slice_load; [done|unfold body_start in *; vconsts; lia|lia|].
  rewrite zlen_image by done. done.
Qed.

(** An image in memory parses, and its entries are the ones it was made of. *)
Lemma image_parses m output capacity es ps o :
  0 < output -> Forall2 sized es ps -> Forall entry_typed es -> buildable output capacity es ps ->
  bytes_at m output (build_image es ps) ->
  wf_capsule (build_image es ps) /\ zlen (build_image es ps) <= capacity /\
  exists v, bbp_v2_parse m output (zlen (build_image es ps)) (Some o) = Some (BBP_V2_OK, Some v) /\
    v_entry_count v = zlen es /\
    forall i e p eo, es !! i = Some e -> ps !! i = Some p ->
      exists ev, bbp_v2_get_entry m (Some v) (Z.of_nat i) (Some eo) =
                 Some (BBP_V2_OK, Some ev) /\ carries m ev e p.
Proof.
  intros Hout Hs Ht (Hn & Hv & Htot & Hcap & Hw & _) Hat.
  pose proof (pls_laid_out es ps Hs Ht Hv) as Hlo. pose proof (zlen_pls es ps Hs) as Hl.
  unfold build_image in *. set (pls := place (body_start (zlen es)) es ps) in *.
  pose proof (zlen_image pls Hlo) as Hzi. rewrite <- Hl in Hn.
  assert (wf_capsule (capsule_image pls)) as Hwf by (by apply image_wf).
  split; [done|]. split; [lia|].
  destruct (bbp_v2_parse_spec m output _ Hat o) as (st' & Ep & Hst'); [lia|].
  assert (st' = BBP_V2_OK) as -> by (by apply Hst').
  rewrite bool_decide_eq_true_2 in Ep by done.
  destruct (image_header pls Hlo Hn Htot) as (_&_&_&_&_&Ec&_&Ed&_).
  eexists. split; [exact Ep|]. unfold view_of. cbn [v_entry_count]. split; [lia|].
  intros i e p eo He Hp. eapply (built_entry m output es ps); try done; try lia.
  - unfold build_image. fold pls. lia.
  - unfold build_image. fold pls. by rewrite Ec, Ed, Hl.
Qed.

(** A small request: two payloads with alignments 8 and 16. *)
Module Request.

Definition payload1 : list byte := [x01; x02; x03].
Definition payload2 : list byte := [xff; xfe].
Definition entry1 : bbp_v2_build_entry := V2BuildEntry 0x0001000000000002 0 1 8 8192 3.
Definition entry2 : bbp_v2_build_entry := V2BuildEntry 0x0002000000000001 2 1 16 12288 2.
Definition entries : list bbp_v2_build_entry := [entry1; entry2].
Definition payloads : list (list byte) := [payload1; payload2].
Definition memory : mem :=
  mem_of 4096 (replicate 256 xaa) ∪ (mem_of 8192 payload1 ∪ mem_of 12288 payload2).

Lemma output_mapped : mapped memory 4096 256.
Proof.
  apply (load_mapped _ _ 256 (replicate 256 xaa)). vm_compute. reflexivity.
Qed.

Lemma entries_sized : Forall2 sized entries payloads.
Proof. repeat constructor. Qed.

Lemma entries_typed : Forall entry_typed entries.
Proof. repeat constructor; discriminate. Qed.

Lemma entries_loaded :
  Forall2 (fun e p => load_bytes memory (be_data e) (length p) = Some p) entries payloads.
Proof. repeat constructor; vm_compute; reflexivity. Qed.

Lemma entries_valid : Forall entry_valid entries.
Proof.
  constructor; [|constructor; [|constructor]]; (split_and!; [done|done|]).
  - by exists 3.
  - by exists 4.
Qed.

Lemma entries_buildable : buildable 4096 256 entries payloads.
Proof.
  split; [by apply Z.leb_le|]. split; [exact entries_valid|].
  split; [apply Z.leb_le; vm_compute; reflexivity|].
  split; [apply Z.leb_le; vm_compute; reflexivity|].
  split; [apply Z.leb_le; vm_compute; reflexivity|].
  constructor; [|constructor; [|constructor]]; (split_and!; [done|done|]); right;
    apply Z.leb_le; vm_compute; reflexivity.
Qed.

Definition image : list byte := Eval vm_compute in build_image entries payloads.
Lemma image_eq : build_image entries payloads = image.
Proof. vm_compute. reflexivity. Qed.

Lemma image_ok : wf_capsule image.
Proof.
  rewrite <- image_eq. destruct entries_buildable as (Hn & Hv & Ht & _ & Hw & _).
  apply image_wf; try done. apply (pls_laid_out _ _ entries_sized entries_typed Hv).
Qed.

End Request.

(** ** Theorems *)

(** C13: the capsule parser never faults and always returns when the stated
    extent is mapped, whatever bytes it holds; it answers OK exactly for the
    byte strings that satisfy [wf_capsule] (framing, alignment, containment,
    pairwise disjoint spans, bounded work, zero padding everywhere outside
    header, directory and payloads, header and payload checksums); on OK the
    view describes the capsule, and on any error [*out] is untouched. *)
Theorem v2_parse_decides_wf (m : mem) (capsule : Z) (bs : list byte) (o : bbp_v2_view) :
  capsule <> 0 -> bytes_at m capsule bs ->
  exists st out, bbp_v2_parse m capsule (zlen bs) (Some o) = Some (st, Some out) /\
    (st = BBP_V2_OK <-> wf_capsule bs) /\
    (st = BBP_V2_OK -> out = V2View capsule (zlen bs) (c_dir bs) 0 (c_count bs)) /\
    (st <> BBP_V2_OK -> out = o).
Proof.
  intros Hc Hat. destruct (bbp_v2_parse_spec m capsule bs Hat o Hc) as (st & E & Hiff).
  exists st, (if bool_decide (st = BBP_V2_OK) then view_of capsule bs else o).
  split_and!; [done|done| |]; intros Hst;
    [by rewrite bool_decide_eq_true_2|by rewrite bool_decide_eq_false_2].
Qed.

Lemma v2_parse_decides_wf_witness :
  exists out,
    bbp_v2_parse (mem_of 4096 Request.image) 4096 (zlen Request.image) (Some (V2View 0 0 0 0 0)) =
    Some (BBP_V2_OK, Some out).
Proof.
  destruct (v2_parse_decides_wf (mem_of 4096 Request.image) 4096 Request.image (V2View 0 0 0 0 0))
    as (st & out & E & Hiff & _).
  - discriminate.
  - apply load_bytes_at with (n := length Request.image). vm_compute. reflexivity.
  - exists out. rewrite E. f_equal. f_equal. apply Hiff. exact Request.image_ok.
Defined.

(** Reading a directory entry through any view whose extent is mapped,
    even one the parser never produced, does not fault; an entry it returns
    has its payload inside the extent of the view. *)
Lemma v2_get_entry_confined (m : mem) (v : bbp_v2_view) (i : Z) (o : bbp_v2_entry_view) :
  view_ok m v -> in_word 32 i ->
  exists st out, bbp_v2_get_entry m (Some v) i (Some o) = Some (st, Some out) /\
    (st <> BBP_V2_OK -> out = o) /\
    (st = BBP_V2_OK -> i < v_entry_count v /\ ev_data out = v_data v + ev_offset out /\
       0 <= ev_offset out /\ 0 <= ev_size out /\ ev_offset out + ev_size out <= v_total_size v).
Proof.
  intros Hv [Hi0 _]. destruct (view_bytes m v Hv) as (bs & Hat & Hlen).
  destruct Hv as [_ [Ht _] [Hd _] [Hn _] _].
  assert (forall st, st <> BBP_V2_OK -> exists st' out,
    Some (st, Some o) = Some (st', Some out) /\ (st' <> BBP_V2_OK -> out = o) /\
    (st' = BBP_V2_OK -> i < v_entry_count v /\ ev_data out = v_data v + ev_offset out /\
       0 <= ev_offset out /\ 0 <= ev_size out /\ ev_offset out + ev_size out <= v_total_size v))
    as Hfail by (intros st Hst; by exists st, o).
  destruct (decide (v_data v <> 0 /\ i < v_entry_count v /\ v_entry_count v <= BBP_V2_MAX_ENTRIES /\
    BBP_V2_HEADER_SIZE <= v_total_size v <= BBP_V2_MAX_EXTENT /\
    BBP_V2_HEADER_SIZE <= v_directory_offset v /\
    v_directory_offset v + v_entry_count v * BBP_V2_DIRENT_SIZE <= v_total_size v)) as [H|H].
  - destruct H as (?&?&?&?&?&?). rewrite (bbp_v2_get_entry_spec m v bs i o) by (done || lia).
    destruct (decide _) as [Hin|Hin]; [|by apply Hfail].
    do 2 eexists. split; [reflexivity|]. split; [done|]. intros _.
    unfold entry_view. cbn [ev_data ev_offset ev_size].
    split_and!; [done|done|apply fld_nonneg|apply fld_nonneg|done].
  - unfold bbp_v2_get_entry. vconsts.
    destruct (v_data v =? 0) eqn:G0; [by apply Hfail|].
    destruct (_ || (v_entry_count v <=? i)) eqn:G1; [by apply Hfail|].
    match goal with |- exists _ _, (if ?c then _ else _) = _ /\ _ => destruct c eqn:G2 end;
      [by apply Hfail|].
    destruct H. bool_to_prop. lia.
Qed.

Lemma v2_get_entry_confined_witness :
  exists ev, bbp_v2_get_entry (mem_of 4096 Request.image)
    (Some (V2View 4096 (zlen Request.image) 64 0 2)) 1 (Some (V2EntryView 0 0 0 0 0 0 0 0)) =
    Some (BBP_V2_OK, Some ev) /\ ev_offset ev + ev_size ev <= zlen Request.image.
Proof.
  destruct (v2_get_entry_confined (mem_of 4096 Request.image)
    (V2View 4096 (zlen Request.image) 64 0 2) 1 (V2EntryView 0 0 0 0 0 0 0 0))
    as (st & ev & E & _ & Hok).
  - constructor; try (split; vm_compute; [discriminate|reflexivity]).
    apply (load_mapped _ _ _ Request.image). vm_compute. reflexivity.
  - split; vm_compute; [discriminate|reflexivity].
  - assert (st = BBP_V2_OK) as Hst by (vm_compute in E; congruence).
    exists ev. rewrite E, Hst. split; [reflexivity|]. apply Hok, Hst.
Defined.

(** C12: the builder returns on every request without faulting, answers OK
    exactly for the buildable ones (valid entries, extent, work and capacity
    limits, sources apart from the output) and writes nothing otherwise; what
    it builds is accepted by the parser, and the directory accessor returns
    every entry in order with its type, flags, version, alignment and payload
    bytes intact.  Only the capsule's own bytes change. *)
Theorem v2_build_parse_roundtrip (m : mem) (output capacity : Z)
    (es : list bbp_v2_build_entry) (ps : list (list byte)) (w0 : Z) (o : bbp_v2_view) :
  0 < output -> mapped m output capacity ->
  Forall2 sized es ps -> Forall entry_typed es ->
  (Forall entry_valid es ->
   Forall2 (fun e p => load_bytes m (be_data e) (length p) = Some p) es ps) ->
  exists st w m',
    bbp_v2_build m output capacity (Some es) (zlen es) (Some w0) = Some (st, Some w, m') /\
    (st = BBP_V2_OK <-> buildable output capacity es ps) /\
    (st <> BBP_V2_OK -> w = 0 /\ m' = m) /\
    (st = BBP_V2_OK -> frame output w m m' /\ w <= capacity /\
       exists v, bbp_v2_parse m' output w (Some o) = Some (BBP_V2_OK, Some v) /\
         v_entry_count v = zlen es /\
         forall i e p eo, es !! i = Some e -> ps !! i = Some p ->
           exists ev, bbp_v2_get_entry m' (Some v) (Z.of_nat i) (Some eo) =
                      Some (BBP_V2_OK, Some ev) /\ carries m' ev e p).
Proof.
  intros Hout Hmap Hs Ht Hld.
  destruct (bbp_v2_build_spec m output capacity es ps w0 Hout Hmap Hs Ht Hld)
    as (st & w & m' & E & Hiff & Hok & Hbad).
  exists st, w, m'. split_and!; try done. intros Hst.
  destruct (Hok Hst) as (-> & Hfr & Hat). apply Hiff in Hst.
  by destruct (image_parses m' output capacity es ps o Hout Hs Ht Hst Hat) as (_ & ? & ?).
Qed.

Lemma v2_build_parse_roundtrip_witness :
  exists w m' v ev,
    bbp_v2_build Request.memory 4096 256 (Some Request.entries) 2 (Some 7) =
      Some (BBP_V2_OK, Some w, m') /\
    bbp_v2_parse m' 4096 w (Some (V2View 0 0 0 0 0)) = Some (BBP_V2_OK, Some v) /\
    bbp_v2_get_entry m' (Some v) 1 (Some (V2EntryView 0 0 0 0 0 0 0 0)) =
      Some (BBP_V2_OK, Some ev) /\
    carries m' ev Request.entry2 Request.payload2.
Proof.
  destruct (v2_build_parse_roundtrip Request.memory 4096 256 Request.entries Request.payloads 7
              (V2View 0 0 0 0 0)) as (st & w & m' & E & Hiff & _ & Hok).
  - reflexivity.
  - exact Request.output_mapped.
  - exact Request.entries_sized.
  - exact Request.entries_typed.
  - intros _. exact Request.entries_loaded.
  - pose proof (proj2 Hiff Request.entries_buildable) as Hst.
    destruct (Hok Hst) as (_ & _ & v & Ev & _ & Hget).
    destruct (Hget 1%nat Request.entry2 Request.payload2 (V2EntryView 0 0 0 0 0 0 0 0)
                eq_refl eq_refl) as (ev & Ee & Hc).
    exists w, m', v, ev. rewrite Hst in E. split; [exact E|]. split; [exact Ev|].
    split; [exact Ee|exact Hc].
Defined.

(** C14: the digest hashes, in order and nothing else, the domain separator, the
    envelope (version, flags, entry count) and, entry by entry in directory
    order, the frame (type, flags, version, size) and the payload; offsets,
    alignment, padding and checksums do not enter it.  A capsule that does not
    parse leaves the digest state as it was. *)
Theorem v2_digest_canonical {S : Type} (m : mem) (v : bbp_v2_view) (bs : list byte)
    (update : S -> list byte -> S) (state : S) :
  v_data v <> 0 -> bytes_at m (v_data v) bs -> zlen bs = v_total_size v ->
  exists st state', bbp_v2_digest m (Some v) (Some update) state = Some (st, state') /\
    (st = BBP_V2_OK <-> wf_capsule bs) /\ (st <> BBP_V2_OK -> state' = state) /\
    (st = BBP_V2_OK ->
     state' = fold_left update (digest_stream bs (c_dir bs) (c_count bs)) state).
Proof.
  intros Hd Hat Hlen. unfold bbp_v2_digest. replace (v_data v =? 0) with false by lia.
  rewrite <- Hlen.
  destruct (bbp_v2_parse_spec m (v_data v) bs Hat (V2View 0 0 0 0 0) Hd) as (st & -> & Hiff).
  cbn [mbind option_bind]. destruct (decide (st = BBP_V2_OK)) as [->|Hst].
  - rewrite !bool_decide_eq_true_2 by done. cbn [negb].
    pose proof (proj1 Hiff eq_refl) as Hwf.
    pose proof (fld_nonneg 4 bs 20 : 0 <= c_count bs) as Hn.
    change (v_flags (view_of (v_data v) bs)) with 0.
    change (v_entry_count (view_of (v_data v) bs)) with (c_count bs).
    rewrite digest_loop_spec by (done || lia). cbn [mbind option_bind].
    rewrite Z2Nat.id by done. do 2 eexists. split; [reflexivity|]. by split_and!.
  - rewrite bool_decide_eq_false_2 by done. cbn [negb]. exists st, state. by split_and!.
Qed.

Lemma v2_digest_canonical_witness :
  bbp_v2_digest (mem_of 4096 Request.image)
    (Some (V2View 4096 (zlen Request.image) 0 0 0)) (Some (fun s p => s ++ [p])) [] =
  Some (BBP_V2_OK, fold_left (fun s p => s ++ [p]) (digest_stream Request.image 64 2) []).
Proof.
  destruct (v2_digest_canonical (mem_of 4096 Request.image)
    (V2View 4096 (zlen Request.image) 0 0 0) Request.image (fun s p => s ++ [p]) [])
    as (st & state' & E & Hiff & _ & Hok).
  - discriminate.
  - apply load_bytes_at with (n := length Request.image). vm_compute. reflexivity.
  - reflexivity.
  - pose proof (proj2 Hiff Request.image_ok) as Hst. rewrite E, Hst, (Hok Hst).
    vm_compute. reflexivity.
Defined.

(** The version 2 structures have exactly the sizes and field offsets the
    header asserts, which are the literal offsets the parser and the builder
    use. *)
Lemma v2_layout :
  sizeof bbp_v2_header = BBP_V2_HEADER_SIZE /\
  sizeof bbp_v2_directory_entry = BBP_V2_DIRENT_SIZE /\
  map (offsetof bbp_v2_header)
    ["magic"; "version_major"; "version_minor"; "header_size"; "directory_entry_size"; "flags";
     "entry_count"; "total_size"; "directory_offset"; "checksum"; "reserved0"; "reserved1"]%string =
  map Some [0; 8; 10; 12; 14; 16; 20; 24; 32; 40; 48; 56] /\
  map (offsetof bbp_v2_directory_entry)
    ["type"; "flags"; "version"; "reserved0"; "offset"; "size"; "checksum"; "alignment";
     "reserved1"]%string =
  map Some [0; 8; 12; 14; 16; 24; 32; 40; 44].
Proof. vm_compute. done. Qed.
