(* ===== verification/Profile0.v ===== *)
(** * Profile 0 of the version 2 capsule (v2/bbp_v2_profile.c)

    The semantic validation of the four mandatory entries (boot identity,
    memory map, kernel address, devicetree), and the theorem that it accepts
    exactly the capsules in which each occurs once and is well formed. *)

From S2P Require Import Prelude Memory Crc64 Capsule CapsuleFacts CapsuleBuild CapsuleProps.

(** ** Constants and structures *)

Definition BBP_V2_P0_BOOT_IDENTITY : Z := 0x4242503200000001.
Definition BBP_V2_P0_MEMORY_MAP : Z := 0x4242503200000002.
Definition BBP_V2_P0_KERNEL_ADDRESS : Z := 0x4242503200000003.
Definition BBP_V2_P0_DEVICETREE : Z := 0x4242503200000004.
Definition BBP_V2_P0_VERSION : Z := 1.
Definition SIZEOF_P0_IDENTITY : Z := 16.
Definition SIZEOF_P0_MEMORY_HEADER : Z := 8.
Definition SIZEOF_P0_KERNEL_ADDRESS : Z := 16.
Definition SIZEOF_P0_DEVICETREE_HEADER : Z := 8.

Record bbp_v2_p0_view := P0View {
  p0_architecture : Z;
  p0_cpu_count : Z;
  p0_memory_entry_count : Z;
  p0_kernel_physical_base : Z;
  p0_kernel_virtual_base : Z;
  p0_dtb : Z;
  p0_dtb_size : Z;
}.

(** ** Accessors *)

Definition get16 (m : mem) (p : Z) : option Z :=
  p0 ← m !! p;
  p1 ← m !! (p + 1);
  Some (Z.lor (byte_Z p0) (Z.shiftl (byte_Z p1) 8)).

Definition get32 (m : mem) (p : Z) : option Z :=
  p0 ← m !! p;
  p1 ← m !! (p + 1);
  p2 ← m !! (p + 2);
  p3 ← m !! (p + 3);
  Some (Z.lor (Z.lor (Z.lor (byte_Z p0) (wrap32 (Z.shiftl (byte_Z p1) 8)))
    (wrap32 (Z.shiftl (byte_Z p2) 16))) (wrap32 (Z.shiftl (byte_Z p3) 24))).

Definition get64 (m : mem) (p : Z) : option Z :=
  lo ← get32 m p;
  hi ← get32 m (p + 4);
  Some (Z.lor lo (wrap64 (Z.shiftl hi 32))).

(** ** Validation *)

Definition p0_bit (type : Z) : Z :=
  if type =? BBP_V2_P0_BOOT_IDENTITY then 1
  else if type =? BBP_V2_P0_MEMORY_MAP then 2
  else if type =? BBP_V2_P0_KERNEL_ADDRESS then 4
  else if type =? BBP_V2_P0_DEVICETREE then 8
  else 0.

(** The loop over the memory map: every record is acceptable. *)
Fixpoint p0_memory_loop (m : mem) (data j : Z) (n : nat) : option bool :=
  match n with
  | O => Some true
  | S n =>
      let memory := data + 8 + j * 32 in
      base ← get64 m memory;
      length ← get64 m (memory + 8);
      reject (length =? 0) || (UINT64_MAX - length <? base) with Some false;
      type ← get32 m (memory + 16);
      reject type =? 0 with Some false;
      reserved ← get32 m (memory + 28);
      reject negb (reserved =? 0) with Some false;
      p0_memory_loop m data (j + 1) n
  end.

(** The four branches of the loop body; [None] inside is the format error. *)
Definition p0_identity (m : mem) (entry : bbp_v2_entry_view) (result : bbp_v2_p0_view) :
    option (option bbp_v2_p0_view) :=
  let data := ev_data entry in
  reject negb (ev_size entry =? SIZEOF_P0_IDENTITY) with Some None;
  r0 ← get16 m (data + 2);
  reject negb (r0 =? 0) with Some None;
  r1 ← get32 m (data + 8);
  reject negb (r1 =? 0) with Some None;
  r2 ← get32 m (data + 12);
  reject negb (r2 =? 0) with Some None;
  architecture ← get16 m data;
  cpu_count ← get32 m (data + 4);
  reject (architecture =? 0) || (4 <? architecture) || (cpu_count =? 0) with Some None;
  Some (Some (P0View architecture cpu_count (p0_memory_entry_count result)
    (p0_kernel_physical_base result) (p0_kernel_virtual_base result)
    (p0_dtb result) (p0_dtb_size result))).

Definition p0_memory_map (m : mem) (entry : bbp_v2_entry_view) (result : bbp_v2_p0_view) :
    option (option bbp_v2_p0_view) :=
  let data := ev_data entry in
  reject ev_size entry <? SIZEOF_P0_MEMORY_HEADER with Some None;
  count ← get32 m data;
  reject (count =? 0) || (4096 <? count) with Some None;
  entry_size ← get32 m (data + 4);
  reject negb (entry_size =? 32) with Some None;
  reject negb (count * 32 =? ev_size entry - 8) with Some None;
  ok ← p0_memory_loop m data 0 (Z.to_nat count);
  check (ok : bool) else Some None;
  Some (Some (P0View (p0_architecture result) (p0_cpu_count result) count
    (p0_kernel_physical_base result) (p0_kernel_virtual_base result)
    (p0_dtb result) (p0_dtb_size result))).

Definition p0_kernel_address (m : mem) (entry : bbp_v2_entry_view) (result : bbp_v2_p0_view) :
    option (option bbp_v2_p0_view) :=
  let data := ev_data entry in
  reject negb (ev_size entry =? SIZEOF_P0_KERNEL_ADDRESS) with Some None;
  physical ← get64 m data;
  virtual ← get64 m (data + 8);
  reject physical =? 0 with Some None;
  Some (Some (P0View (p0_architecture result) (p0_cpu_count result)
    (p0_memory_entry_count result) physical virtual (p0_dtb result) (p0_dtb_size result))).

Definition p0_devicetree (m : mem) (entry : bbp_v2_entry_view) (result : bbp_v2_p0_view) :
    option (option bbp_v2_p0_view) :=
  let data := ev_data entry in
  reject ev_size entry <=? SIZEOF_P0_DEVICETREE_HEADER with Some None;
  flags ← get32 m data;
  reject negb (flags =? 0) with Some None;
  size ← get32 m (data + 4);
  reject negb (size =? ev_size entry - 8) with Some None;
  Some (Some (P0View (p0_architecture result) (p0_cpu_count result)
    (p0_memory_entry_count result) (p0_kernel_physical_base result)
    (p0_kernel_virtual_base result) (data + 8) size)).

Definition p0_payload (m : mem) (bit : Z) (entry : bbp_v2_entry_view)
    (result : bbp_v2_p0_view) : option (option bbp_v2_p0_view) :=
  if bit =? 1 then p0_identity m entry result
  else if bit =? 2 then p0_memory_map m entry result
  else if bit =? 4 then p0_kernel_address m entry result
  else p0_devicetree m entry result.

(** The loop: [inl status] is an early return, [inr (seen, result)] the state
    after the last entry. *)
Fixpoint p0_loop (m : mem) (capsule : bbp_v2_view) (i seen : Z) (result : bbp_v2_p0_view)
    (n : nat) : option (bbp_v2_status_t + (Z * bbp_v2_p0_view)) :=
  match n with
  | O => Some (inr (seen, result))
  | S n =>
      r ← bbp_v2_get_entry m (Some capsule) i (Some (V2EntryView 0 0 0 0 0 0 0 0));
      match r with
      | (BBP_V2_OK, Some entry) =>
          let bit := p0_bit (ev_type entry) in
          if bit =? 0 then p0_loop m capsule (i + 1) seen result n
          else
            reject negb (Z.land seen bit =? 0) ||
              negb (ev_version entry =? BBP_V2_P0_VERSION) || negb (ev_flags entry =? 0)
              with Some (inl BBP_V2_ERR_FORMAT);
            let seen := Z.lor seen bit in
            p ← p0_payload m bit entry result;
            match p with
            | None => Some (inl BBP_V2_ERR_FORMAT)
            | Some result => p0_loop m capsule (i + 1) seen result n
            end
      | (status, _) => Some (inl status)
      end
  end.

Definition bbp_v2_p0_validate (m : mem) (capsule : option bbp_v2_view)
    (out : option bbp_v2_p0_view) : option (bbp_v2_status_t * option bbp_v2_p0_view) :=
  match capsule, out with
  | Some capsule, Some _ =>
      r ← p0_loop m capsule 0 0 (P0View 0 0 0 0 0 0 0) (Z.to_nat (v_entry_count capsule));
      match r with
      | inl status => Some (status, out)
      | inr (seen, result) =>
          reject negb (seen =? 15) with Some (BBP_V2_ERR_FORMAT, out);
          Some (BBP_V2_OK, Some result)
      end
  | _, _ => Some (BBP_V2_ERR_NULL, out)
  end.

(** ** What the profile asks for *)

Definition identity_ok (p : list byte) : Prop :=
  zlen p = SIZEOF_P0_IDENTITY /\ fld 2 p 2 = 0 /\ fld 4 p 8 = 0 /\ fld 4 p 12 = 0 /\
  1 <= fld 2 p 0 <= 4 /\ fld 4 p 4 <> 0.

Definition region_ok (p : list byte) (j : Z) : Prop :=
  let at_ := 8 + j * 32 in
  0 < fld 8 p (at_ + 8) /\ fld 8 p at_ + fld 8 p (at_ + 8) <= UINT64_MAX /\
  fld 4 p (at_ + 16) <> 0 /\ fld 4 p (at_ + 28) = 0.

Definition memory_map_ok (p : list byte) : Prop :=
  let count := fld 4 p 0 in
  1 <= count <= 4096 /\ fld 4 p 4 = 32 /\ zlen p = 8 + count * 32 /\
  forall j, 0 <= j < count -> region_ok p j.

Definition kernel_address_ok (p : list byte) : Prop :=
  zlen p = SIZEOF_P0_KERNEL_ADDRESS /\ fld 8 p 0 <> 0.

Definition devicetree_ok (p : list byte) : Prop :=
  SIZEOF_P0_DEVICETREE_HEADER < zlen p /\ fld 4 p 0 = 0 /\ fld 4 p 4 = zlen p - 8.

Definition payload_ok (bit : Z) (p : list byte) : Prop :=
  if bit =? 1 then identity_ok p
  else if bit =? 2 then memory_map_ok p
  else if bit =? 4 then kernel_address_ok p
  else devicetree_ok p.

(** What the view reports about a payload [p] at [data]. *)
Definition reports (data bit : Z) (p : list byte) (r : bbp_v2_p0_view) : Prop :=
  if bit =? 1 then p0_architecture r = fld 2 p 0 /\ p0_cpu_count r = fld 4 p 4
  else if bit =? 2 then p0_memory_entry_count r = fld 4 p 0
  else if bit =? 4 then
    p0_kernel_physical_base r = fld 8 p 0 /\ p0_kernel_virtual_base r = fld 8 p 8
  else p0_dtb r = data + 8 /\ p0_dtb_size r = zlen p - 8.

(** ** Accessors are loads *)

Lemma p0_get16_load m p : get16 m p = load16 m p.
Proof.
  rewrite <- get16_load. unfold get16, Capsule.get16.
  destruct (m !! p) as [b0|]; [cbn [mbind option_bind]|done].
  destruct (m !! (p + 1)) as [b1|]; [cbn [mbind option_bind]|done].
  pose proof (byte_Z_range b0). pose proof (byte_Z_range b1).
  rewrite (wrap_shiftl_byte 16) by lia. rewrite lor_shiftl_add by (unfold in_word; lia).
  by rewrite wrap_small by (unfold in_word; lia).
Qed.

Lemma p0_get32_load m p : get32 m p = load32 m p.
Proof. apply get32_load. Qed.

Lemma p0_get64_load m p : get64 m p = load64 m p.
Proof. unfold get64. rewrite !p0_get32_load. apply halves64_load. Qed.

Section Payloads.
Context (m : mem) (entry : bbp_v2_entry_view) (p : list byte) (result : bbp_v2_p0_view).
Context (Hat : bytes_at m (ev_data entry) p) (Hsize : ev_size entry = zlen p).

(** A branch of the loop body decides [payload_ok], and its result reports
    the payload and keeps what the other entries reported. *)
Definition branch (bit : Z) (o : option (option bbp_v2_p0_view)) : Prop :=
  exists r, o = Some r /\
    match r with
    | None => ~ payload_ok bit p
    | Some r => payload_ok bit p /\ reports (ev_data entry) bit p r /\
        forall bit' data' p', In bit' [1; 2; 4; 8] -> bit' <> bit ->
          reports data' bit' p' result -> reports data' bit' p' r
    end.

Lemma fld0_load n : Z.of_nat n <= zlen p -> load_le m (ev_data entry) n = Some (fld n p 0).
Proof using Hat.
  intros Hn. rewrite <- (Z.add_0_r (ev_data entry)). by apply fld_load.
Qed.

Ltac keep_others :=
  let bit' := fresh in let Hin := fresh in let Hne := fresh in
  intros bit' data' p' Hin Hne;
  cbn in Hin; destruct Hin as [<- | [<- | [<- | [<- | []]]]]; done.

Ltac p0_no := exists None; split; [reflexivity|]; cbn iota.

Lemma p0_identity_spec : branch 1 (p0_identity m entry result).
Proof using Hat Hsize.
  unfold branch. change (payload_ok 1 p) with (identity_ok p).
  unfold p0_identity, identity_ok, SIZEOF_P0_IDENTITY. rewrite Hsize.
  destruct (zlen p =? 16) eqn:G0; cbn [negb]; bool_to_prop; [|p0_no; tauto].
  rewrite !p0_get16_load, !p0_get32_load. unfold load16, load32.
  rewrite !(fld_load _ _ _ _ _ Hat), fld0_load by lia. cbn [mbind option_bind].
  destruct (fld 2 p 2 =? 0) eqn:G1; cbn [negb]; bool_to_prop; [|p0_no; tauto].
  destruct (fld 4 p 8 =? 0) eqn:G2; cbn [negb]; bool_to_prop; [|p0_no; tauto].
  destruct (fld 4 p 12 =? 0) eqn:G3; cbn [negb]; bool_to_prop; [|p0_no; tauto].
  pose proof (fld_nonneg 2 p 0).
  destruct (_ || _) eqn:G4; bool_to_prop; (eexists; split; [done|]).
  - intros (_&_&_&_&?&?). destruct G4 as [[?|?]|?]; lia.
  - split; [split_and!; (done || lia)|]. split; [done|]. keep_others.
Qed.

Lemma p0_memory_loop_spec j n :
  0 <= j -> 8 + (j + Z.of_nat n) * 32 <= zlen p ->
  exists b, p0_memory_loop m (ev_data entry) j n = Some b /\
    (b = true <-> forall l, j <= l < j + Z.of_nat n -> region_ok p l).
Proof using Hat.
  revert j. induction n as [|n IH]; intros j Hj Hn.
  - exists true. split; [done|]. split; [intros _ l Hl; lia|done].
  - cbn [p0_memory_loop]. rewrite !p0_get64_load, !p0_get32_load. unfold load64, load32.
    rewrite <- !Z.add_assoc, !(fld_load _ _ _ _ _ Hat) by lia. cbn [mbind option_bind].
    rewrite !Z.add_assoc.
    assert (~ region_ok p j -> exists b, Some false = Some b /\
      (b = true <-> forall l, j <= l < j + Z.of_nat (S n) -> region_ok p l)) as Hno.
    { intros H. exists false. split; [done|]. split; [done|]. intros Hall.
      destruct H. apply Hall. lia. }
    unfold region_ok in Hno at 1.
    pose proof (fld_nonneg 8 p (8 + j * 32 + 8)).
    destruct (_ || _) eqn:G0; [apply Hno; bool_to_prop; destruct G0; lia|].
    destruct (fld 4 p (8 + j * 32 + 16) =? 0) eqn:G1; [apply Hno; lia|].
    destruct (fld 4 p (8 + j * 32 + 28) =? 0) eqn:G2; cbn [negb]; [|apply Hno; lia].
    destruct (IH (j + 1)) as (b & -> & Hb); [lia|lia|]. exists b. split; [done|].
    rewrite Hb. split; intros Hall l Hl; [|apply Hall; lia].
    destruct (decide (l = j)) as [->|]; [|apply Hall; lia].
    unfold region_ok. bool_to_prop. lia.
Qed.

Lemma p0_memory_map_spec : branch 2 (p0_memory_map m entry result).
Proof using Hat Hsize.
  unfold branch. change (payload_ok 2 p) with (memory_map_ok p).
  unfold p0_memory_map, memory_map_ok, SIZEOF_P0_MEMORY_HEADER. rewrite Hsize.
  pose proof (fld_nonneg 4 p 0).
  destruct (zlen p <? 8) eqn:G0; bool_to_prop; [p0_no; lia|].
  rewrite !p0_get32_load. unfold load32.
  rewrite (fld_load _ _ _ _ _ Hat), fld0_load by lia. cbn [mbind option_bind].
  destruct (_ || _) eqn:G1; [p0_no; bool_to_prop; destruct G1; lia|].
  destruct (fld 4 p 4 =? 32) eqn:G2; cbn [negb]; bool_to_prop; [|p0_no; tauto].
  destruct (_ * 32 =? zlen p - 8) eqn:G3; cbn [negb]; bool_to_prop; [|p0_no; lia].
  destruct (p0_memory_loop_spec 0 (Z.to_nat (fld 4 p 0))) as (b & -> & Hb); [lia|lia|].
  rewrite Z.add_0_l, Z2Nat.id in Hb by done. cbn [mbind option_bind]. destruct b.
  - eexists. split; [reflexivity|]. split; [|split; [done|keep_others]].
    split_and!; (done || lia || by apply Hb).
  - p0_no. intros (_ & _ & _ & Hall). apply Hb in Hall. done.
Qed.

Lemma p0_kernel_address_spec : branch 4 (p0_kernel_address m entry result).
Proof using Hat Hsize.
  unfold branch. change (payload_ok 4 p) with (kernel_address_ok p).
  unfold p0_kernel_address, kernel_address_ok, SIZEOF_P0_KERNEL_ADDRESS. rewrite Hsize.
  destruct (zlen p =? 16) eqn:G0; cbn [negb]; bool_to_prop; [|p0_no; tauto].
  rewrite !p0_get64_load. unfold load64.
  rewrite (fld_load _ _ _ _ _ Hat), fld0_load by lia. cbn [mbind option_bind].
  destruct (fld 8 p 0 =? 0) eqn:G1; bool_to_prop; [p0_no; tauto|].
  eexists. split; [reflexivity|]. split; [done|]. split; [done|keep_others].
Qed.

Lemma p0_devicetree_spec : branch 8 (p0_devicetree m entry result).
Proof using Hat Hsize.
  unfold branch. change (payload_ok 8 p) with (devicetree_ok p).
  unfold p0_devicetree, devicetree_ok, SIZEOF_P0_DEVICETREE_HEADER. rewrite Hsize.
  destruct (zlen p <=? 8) eqn:G0; bool_to_prop; [p0_no; lia|].
  rewrite !p0_get32_load. unfold load32.
  rewrite (fld_load _ _ _ _ _ Hat), fld0_load by lia. cbn [mbind option_bind].
  destruct (fld 4 p 0 =? 0) eqn:G1; cbn [negb]; bool_to_prop; [|p0_no; tauto].
  destruct (fld 4 p 4 =? zlen p - 8) eqn:G2; cbn [negb]; bool_to_prop; [|p0_no; tauto].
  eexists. split; [reflexivity|]. split; [done|]. split; [|keep_others].
  by unfold reports.
Qed.

Lemma p0_payload_spec bit :
  In bit [1; 2; 4; 8] -> branch bit (p0_payload m bit entry result).
Proof using Hat Hsize.
  cbn. intros [<- | [<- | [<- | [<- | []]]]].
  - exact p0_identity_spec.
  - exact p0_memory_map_spec.
  - exact p0_kernel_address_spec.
  - exact p0_devicetree_spec.
Qed.
End Payloads.

(** ** The loop over the directory *)

Definition e_bit (bs : list byte) (i : Z) : Z := p0_bit (e_type bs (c_dir bs) i).
Definition e_payload (bs : list byte) (i : Z) : list byte :=
  slice bs (e_offset bs (c_dir bs) i) (e_size bs (c_dir bs) i).

(** The first [k] entries: those of the profile have version 1, no flags and
    a well-formed payload, and none occurs twice. *)
Definition p0_prefix_ok (bs : list byte) (k : Z) : Prop :=
  (forall i, 0 <= i < k -> e_bit bs i <> 0 ->
     e_version bs (c_dir bs) i = BBP_V2_P0_VERSION /\ e_flags bs (c_dir bs) i = 0 /\
     payload_ok (e_bit bs i) (e_payload bs i)) /\
  (forall i j, 0 <= i < j -> j < k -> e_bit bs i <> 0 -> e_bit bs i <> e_bit bs j).

Definition profile0_ok (bs : list byte) : Prop :=
  p0_prefix_ok bs (c_count bs) /\
  forall b, In b [1; 2; 4; 8] -> exists i, 0 <= i < c_count bs /\ e_bit bs i = b.

Lemma e_bit_in bs i : e_bit bs i <> 0 -> In (e_bit bs i) [1; 2; 4; 8].
Proof.
  unfold e_bit, p0_bit. cbn [In].
  repeat match goal with |- context [if ?c then _ else _] => destruct c end; tauto.
Qed.

(** The bit set [seen] holds the bits of the first [k] entries. *)
Definition seen_inv (bs : list byte) (k seen : Z) : Prop :=
  0 <= seen < 16 /\
  forall b, In b [1; 2; 4; 8] -> Z.land seen b <> 0 <-> exists j, 0 <= j < k /\ e_bit bs j = b.

Lemma seen_step bs k seen :
  0 <= k -> e_bit bs k <> 0 -> seen_inv bs k seen ->
  seen_inv bs (k + 1) (Z.lor seen (e_bit bs k)).
Proof.
  intros Hk Hb [Hr Hs]. pose proof (e_bit_in bs k Hb) as Hin. split.
  - apply (lor_in_word 4); [lia|done|]. cbn in Hin. unfold in_word. lia.
  - intros b Hinb. rewrite Z.land_lor_distr_l, Z.lor_eq_0_iff.
    destruct (decide (b = e_bit bs k)) as [->|Hne].
    + split; [intros _; exists k; split; [lia|done]|]. intros _ [_ H].
      rewrite Z.land_diag in H. done.
    + assert (Z.land (e_bit bs k) b = 0) as ->.
      { cbn [In] in Hin, Hinb. destruct Hin as [E | [E | [E | [E | []]]]],
          Hinb as [F | [F | [F | [F | []]]]];
          first [exfalso; apply Hne; congruence|rewrite <- E, <- F; reflexivity]. }
      specialize (Hs b Hinb). split.
      * intros H. destruct (proj1 Hs) as (j & Hj & E); [tauto|]. exists j. split; [lia|done].
      * intros (j & Hj & E) [H _]. destruct (decide (j = k)) as [->|]; [congruence|].
        destruct (proj2 Hs); [|done]. exists j. split; [lia|done].
Qed.

Lemma seen_skip bs k seen :
  e_bit bs k = 0 -> seen_inv bs k seen -> seen_inv bs (k + 1) seen.
Proof.
  intros Hb [Hr Hs]. split; [done|]. intros b Hin. rewrite (Hs b Hin).
  split; intros (j & Hj & E); exists j; (split; [|done]); [lia|].
  destruct (decide (j = k)) as [->|]; [|lia]. rewrite Hb in E. subst b. cbn in Hin. lia.
Qed.

Lemma seen_full bs seen :
  seen_inv bs (c_count bs) seen ->
  seen = 15 <-> forall b, In b [1; 2; 4; 8] -> exists i, 0 <= i < c_count bs /\ e_bit bs i = b.
Proof.
  intros [Hr Hs]. split.
  - intros -> b Hin. apply Hs; [done|]. cbn in Hin.
    destruct Hin as [<- | [<- | [<- | [<- | []]]]]; done.
  - intros Hall. assert (forall b, In b [1; 2; 4; 8] -> Z.land seen b <> 0) as Hbits
      by (intros b Hin; apply Hs; auto).
    pose proof (Hbits 1 ltac:(cbn; auto)). pose proof (Hbits 2 ltac:(cbn; auto)).
    pose proof (Hbits 4 ltac:(cbn; auto)). pose proof (Hbits 8 ltac:(cbn; auto)).
    assert (In seen (seqZ 0 16)) as Hin by (apply list_elem_of_In, elem_of_seqZ; lia).
    cbn in Hin. repeat (destruct Hin as [<- | Hin]; [done|]). done.
Qed.

Section Directory.
Context (m : mem) (capsule : Z) (bs : list byte).
Context (Hat : bytes_at m capsule bs) (Hc : capsule <> 0) (Hwf : wf_capsule bs).

Definition reports_upto (k : Z) (r : bbp_v2_p0_view) : Prop :=
  forall i, 0 <= i < k -> e_bit bs i <> 0 ->
    reports (capsule + e_offset bs (c_dir bs) i) (e_bit bs i) (e_payload bs i) r.

Lemma p0_loop_spec i seen result k :
  0 <= i -> i + Z.of_nat k = c_count bs -> p0_prefix_ok bs i -> seen_inv bs i seen ->
  reports_upto i result ->
  exists r, p0_loop m (view_of capsule bs) i seen result k = Some r /\
    match r with
    | inl st => st <> BBP_V2_OK /\ ~ p0_prefix_ok bs (c_count bs)
    | inr (seen', result') => p0_prefix_ok bs (c_count bs) /\
        seen_inv bs (c_count bs) seen' /\ reports_upto (c_count bs) result'
    end.
Proof using Hat Hc Hwf.
  pose proof (wf_hdr _ Hwf) as [He _ _ _ _ _ Hn _ _ [Hd1 Hd2]].
  revert i seen result. induction k as [|k IH]; intros i seen result Hi Hk Hpre Hseen Hrep.
  { eexists. split; [reflexivity|]. cbn. by replace (c_count bs) with i by lia. }
  cbn [p0_loop].
  rewrite (bbp_v2_get_entry_spec m (view_of capsule bs) bs i); cbn [view_of v_data v_total_size
    v_directory_offset v_entry_count]; try (done || lia).
  destruct (wf_entries _ Hwf i) as [_ _ _ Hne Hin]; [lia|].
  rewrite decide_True by done. cbn [mbind option_bind].
  set (entry := entry_view capsule bs (c_dir bs) i).
  change (p0_bit (ev_type entry)) with (e_bit bs i).
  destruct (e_bit bs i =? 0) eqn:Eb; bool_to_prop.
  { apply IH; [lia|lia| |by apply seen_skip|].
    - destruct Hpre as [P1 P2]. split.
      + intros l Hl Hb. apply P1; [|done]. destruct (decide (l = i)) as [->|]; [done|lia].
      + intros l j Hl Hj Hb. destruct (decide (j = i)) as [->|]; [congruence|apply P2; lia || done].
    - intros l Hl Hb. apply Hrep; [|done]. destruct (decide (l = i)) as [->|]; [done|lia]. }
  change (ev_version entry) with (e_version bs (c_dir bs) i).
  change (ev_flags entry) with (e_flags bs (c_dir bs) i).
  pose proof (e_bit_in bs i Eb) as Hbin. pose proof (proj2 Hseen _ Hbin) as Hdup.
  destruct (_ || _) eqn:G0.
  { eexists. split; [reflexivity|]. split; [done|]. intros [P1 P2].
    destruct (P1 i ltac:(lia) Eb) as (Hv & Hf & _). rewrite Hv, Hf in G0.
    cbn in G0. rewrite !orb_false_r in G0. apply negb_true_iff, Z.eqb_neq in G0.
    apply Hdup in G0 as (j & Hj & E). apply (P2 j i ltac:(lia) ltac:(lia)); congruence. }
  bool_to_prop.
  destruct (p0_payload_spec m entry (e_payload bs i) result) with (bit := e_bit bs i)
    as (r & -> & Hr); [| |done|].
  { unfold e_payload, entry, entry_view. cbn [ev_data].
    apply load_bytes_at with (n := Z.to_nat (e_size bs (c_dir bs) i)).
    apply slice_load; (done || apply fld_nonneg || lia). }
  { unfold e_payload. rewrite length_slice; (done || apply fld_nonneg || lia). }
  cbn [mbind option_bind]. destruct r as [r|].
  2: { eexists. split; [reflexivity|]. split; [done|]. intros [P1 _]. apply Hr.
       by apply (P1 i ltac:(lia) Eb). }
  destruct Hr as (Hpay & Hrepi & Hkeep).
  apply IH; [lia|lia| |by apply seen_step; [lia|..]|].
  - destruct Hpre as [P1 P2]. split.
    + intros l Hl Hb. destruct (decide (l = i)) as [->|]; [done|apply P1; lia || done].
    + intros l j Hl Hj Hb. destruct (decide (j = i)) as [->|]; [|apply P2; lia || done].
      intros E. assert (Z.land seen (e_bit bs i) <> 0); [|done].
      apply Hdup. exists l. split; [lia|done].
  - intros l Hl Hb. destruct (decide (l = i)) as [->|]; [done|].
    apply Hkeep; [by apply e_bit_in| |apply Hrep; lia || done].
    intros E. assert (Z.land seen (e_bit bs i) <> 0); [|done].
    apply Hdup. exists l. split; [lia|done].
Qed.
End Directory.

(** ** A capsule of the profile *)

Module P0Sample.

Definition entry (type size : Z) : bbp_v2_build_entry := V2BuildEntry type 0 1 8 65536 size.
Definition entries : list bbp_v2_build_entry :=
  [entry BBP_V2_P0_BOOT_IDENTITY 16; entry BBP_V2_P0_MEMORY_MAP 40;
   entry BBP_V2_P0_KERNEL_ADDRESS 16; entry BBP_V2_P0_DEVICETREE 12; entry 77 1].
Definition payloads : list (list byte) :=
  [le_encode 2 1 ++ le_encode 2 0 ++ le_encode 4 1 ++ le_encode 8 0;
   le_encode 4 1 ++ le_encode 4 32 ++ le_encode 8 0x100000 ++ le_encode 8 0x7f00000 ++
     le_encode 4 1 ++ le_encode 12 0;
   le_encode 8 0x200000 ++ le_encode 8 0xffffffff80000000;
   le_encode 4 0 ++ le_encode 4 4 ++ [xd0; x0d; xfe; xed];
   [x2a]].

Definition image : list byte :=
  Eval vm_compute in build_image entries payloads.

Lemma p0_image_ok : wf_capsule image.
Proof.
  replace image with (build_image entries payloads)
    by (vm_compute; reflexivity).
  apply image_wf.
  - apply (pls_laid_out entries payloads).
    + repeat constructor.
    + repeat constructor; discriminate.
    + repeat (constructor; [split_and!; [done|done|by exists 3]|]). constructor.
  - apply Z.leb_le. vm_compute. reflexivity.
  - apply Z.leb_le. vm_compute. reflexivity.
  - apply Z.leb_le. vm_compute. reflexivity.
Qed.

End P0Sample.

(** C17: on a parsed capsule the Profile 0 validator never faults and answers OK
    exactly when each of the four profile entries occurs once, with version 1,
    no flags and a well-formed payload, entries of other types being ignored;
    the view it then publishes reports those payloads (architecture, CPU
    count, memory-map length, kernel bases, devicetree location).  Otherwise
    [*out] is untouched. *)
Theorem p0_validate_decides (m : mem) (capsule : Z) (bs : list byte) (o : bbp_v2_p0_view) :
  capsule <> 0 -> bytes_at m capsule bs -> wf_capsule bs ->
  exists st out,
    bbp_v2_p0_validate m (Some (view_of capsule bs)) (Some o) = Some (st, Some out) /\
    (st = BBP_V2_OK <-> profile0_ok bs) /\ (st <> BBP_V2_OK -> out = o) /\
    (st = BBP_V2_OK -> reports_upto capsule bs (c_count bs) out).
Proof.
  intros Hc Hat Hwf. unfold bbp_v2_p0_validate. cbn [view_of v_entry_count].
  pose proof (fld_nonneg 4 bs 20 : 0 <= c_count bs) as Hn.
  destruct (p0_loop_spec m capsule bs Hat Hc Hwf 0 0 (P0View 0 0 0 0 0 0 0)
              (Z.to_nat (c_count bs))) as (r & -> & Hr); try lia.
  { split; intros; lia. }
  { split; [lia|]. intros b Hin. rewrite Z.land_0_l. split; [done|]. intros (j & ? & _). lia. }
  { intros j Hj. lia. }
  cbn [mbind option_bind]. destruct r as [st|[seen result]].
  - destruct Hr as [Hst Hno]. exists st, o. split_and!; try done.
    split; [done|]. intros [Hpre _]. done.
  - destruct Hr as (Hpre & Hseen & Hrep). pose proof (seen_full bs seen Hseen) as Hfull.
    destruct (seen =? 15) eqn:E; cbn [negb]; bool_to_prop.
    + exists BBP_V2_OK, result. split_and!; try done. split; [|done]. intros _.
      split; [done|]. by apply Hfull.
    + exists BBP_V2_ERR_FORMAT, o. split_and!; try done. split; [done|]. intros [_ Hall].
      destruct E. by apply Hfull.
Qed.

Lemma p0_validate_decides_witness :
  exists out,
    bbp_v2_p0_validate (mem_of 4096 P0Sample.image) (Some (view_of 4096 P0Sample.image))
      (Some (P0View 0 0 0 0 0 0 0)) = Some (BBP_V2_OK, Some out) /\
    p0_kernel_physical_base out = 0x200000.
Proof.
  destruct (p0_validate_decides (mem_of 4096 P0Sample.image) 4096 P0Sample.image
              (P0View 0 0 0 0 0 0 0)) as (st & out & E & _).
  - discriminate.
  - apply load_bytes_at with (n := length P0Sample.image). vm_compute. reflexivity.
  - exact P0Sample.p0_image_ok.
  - exists out. rewrite E. vm_compute in E. injection E as <- <-. split; reflexivity.
Defined.
