(* ===== verification/AuthEnvelope.v ===== *)
(** * The authentication envelope (v2/bbp_v2_auth.c) and the rollback policy
    (experimental/rollback/bbp_boot_state.c)

    The envelope parser takes a MAC verifier and a policy as callbacks: they
    are parameters here, functions of the bytes they are handed and of their
    own context, so that the order in which they run shows in the contexts.
    The file's own byte accessors are the same code as those of
    v2/bbp_v2.c, modelled in [Capsule].  The rollback policy is a pure decision
    function. *)

From Stdlib Require Import Sorting.Sorted.
From stdpp Require Import strings.
From S2P Require Import Prelude Memory Crc64 Abi Capsule CapsuleFacts CapsuleProps.

(** ** Constants and structures *)

Definition BBP_V2_AUTH_MAGIC_BYTES : list byte := [x42; x42; x50; x32; x41; x55; x54; x48].
Definition BBP_V2_AUTH_VERSION : Z := 1.
Definition BBP_V2_AUTH_ALG_HMAC_SHA256 : Z := 1.
Definition BBP_V2_AUTH_HEADER_SIZE : Z := 80.
Definition BBP_V2_AUTH_KEY_ID_SIZE : Z := 16.
Definition BBP_V2_AUTH_TAG_SIZE : Z := 32.
Definition BBP_V2_AUTH_TAG_OFFSET : Z := 48.
Definition BBP_V2_AUTH_MAX_CAPSULE_SIZE : Z := BBP_V2_MAX_EXTENT.

Definition bbp_v2_auth_header : ctype := Struct (
  [("magic", Array U8 8); ("version", U16); ("algorithm", U16); ("flags", U32);
   ("rollback_index", U64); ("capsule_size", U64); ("key_identity", Array U8 16);
   ("tag", Array U8 32)])%string.

Inductive bbp_v2_auth_status_t :=
  | BBP_V2_AUTH_OK
  | BBP_V2_AUTH_ERR_NULL
  | BBP_V2_AUTH_ERR_MAGIC
  | BBP_V2_AUTH_ERR_VERSION
  | BBP_V2_AUTH_ERR_ALGORITHM
  | BBP_V2_AUTH_ERR_FLAGS
  | BBP_V2_AUTH_ERR_EXTENT
  | BBP_V2_AUTH_ERR_MAC
  | BBP_V2_AUTH_ERR_CAPSULE
  | BBP_V2_AUTH_ERR_POLICY.

#[global] Instance bbp_v2_auth_status_eq_dec : EqDecision bbp_v2_auth_status_t.
Proof. solve_decision. Defined.

Record bbp_v2_auth_view := V2AuthView {
  av_envelope : Z;
  av_envelope_size : Z;
  av_rollback_index : Z;
  av_key_identity : list byte;
  av_capsule : bbp_v2_view;
}.

(** ** The envelope parser *)

Section Auth.
(** The contexts of the two callbacks.  The verifier gets the key identity,
    the header with its tag zeroed, the capsule and the tag; the policy gets
    the rollback index, the key identity and the parsed capsule.  A nonzero
    result accepts. *)
Context {MC PC : Type}.
Definition mac_verify_fn : Type :=
  MC -> list byte -> list byte -> list byte -> list byte -> MC * Z.
Definition policy_fn : Type := PC -> Z -> list byte -> bbp_v2_view -> PC * Z.

(** The header copied to a local buffer with the tag zeroed. *)
Definition authenticated_header (header : list byte) : list byte :=
  take 48 header ++ replicate 32 x00.

(** The result is the status, the two contexts and the value of [*out]
    afterwards. *)
Definition bbp_v2_auth_parse (m : mem) (envelope extent : Z)
    (verify_mac : option mac_verify_fn) (mac_context : MC)
    (policy : option policy_fn) (policy_context : PC) (out : option bbp_v2_auth_view) :
    option (bbp_v2_auth_status_t * MC * PC * option bbp_v2_auth_view) :=
  let fail status := Some (status, mac_context, policy_context, out) in
  match verify_mac, policy, out with
  | Some verify_mac, Some policy, Some _ =>
  reject envelope =? 0 with fail BBP_V2_AUTH_ERR_NULL;
  reject (extent <? BBP_V2_AUTH_HEADER_SIZE) ||
    (BBP_V2_AUTH_MAX_CAPSULE_SIZE <? extent - BBP_V2_AUTH_HEADER_SIZE)
    with fail BBP_V2_AUTH_ERR_EXTENT;
  e ← bytes_equal m envelope BBP_V2_AUTH_MAGIC_BYTES;
  check (e : bool) else fail BBP_V2_AUTH_ERR_MAGIC;
  version ← get16 m (envelope + 8);
  reject negb (version =? BBP_V2_AUTH_VERSION) with fail BBP_V2_AUTH_ERR_VERSION;
  algorithm ← get16 m (envelope + 10);
  reject negb (algorithm =? BBP_V2_AUTH_ALG_HMAC_SHA256)
    with fail BBP_V2_AUTH_ERR_ALGORITHM;
  flags ← get32 m (envelope + 12);
  reject negb (flags =? 0) with fail BBP_V2_AUTH_ERR_FLAGS;
  capsule_size ← get64 m (envelope + 24);
  reject (BBP_V2_AUTH_MAX_CAPSULE_SIZE <? capsule_size) ||
    negb (capsule_size =? extent - BBP_V2_AUTH_HEADER_SIZE)
    with fail BBP_V2_AUTH_ERR_EXTENT;
  let capsule := envelope + BBP_V2_AUTH_HEADER_SIZE in
  rollback_index ← get64 m (envelope + 16);
  header ← load_bytes m envelope 80;
  key ← load_bytes m (envelope + 32) 16;
  body ← load_bytes m capsule (Z.to_nat capsule_size);
  tag ← load_bytes m (envelope + BBP_V2_AUTH_TAG_OFFSET) 32;
  let '(mac_context, accepted) :=
    verify_mac mac_context key (authenticated_header header) body tag in
  reject accepted =? 0 with Some (BBP_V2_AUTH_ERR_MAC, mac_context, policy_context, out);
  r ← bbp_v2_parse m capsule capsule_size (Some (V2View 0 0 0 0 0));
  match r with
  | (BBP_V2_OK, Some candidate_capsule) =>
      let '(policy_context, accepted) :=
        policy policy_context rollback_index key candidate_capsule in
      reject accepted =? 0
        with Some (BBP_V2_AUTH_ERR_POLICY, mac_context, policy_context, out);
      key_identity ← load_bytes m (envelope + 32) 16;
      Some (BBP_V2_AUTH_OK, mac_context, policy_context,
        Some (V2AuthView envelope extent rollback_index key_identity candidate_capsule))
  | _ => Some (BBP_V2_AUTH_ERR_CAPSULE, mac_context, policy_context, out)
  end
  | _, _, _ => fail BBP_V2_AUTH_ERR_NULL
  end.
End Auth.
Arguments mac_verify_fn : clear implicits.
Arguments policy_fn : clear implicits.

Definition bbp_v2_auth_strstatus (status : bbp_v2_auth_status_t) : string :=
  match status with
  | BBP_V2_AUTH_OK => "ok"
  | BBP_V2_AUTH_ERR_NULL => "null argument or callback"
  | BBP_V2_AUTH_ERR_MAGIC => "bad magic"
  | BBP_V2_AUTH_ERR_VERSION => "unsupported envelope version"
  | BBP_V2_AUTH_ERR_ALGORITHM => "unsupported MAC algorithm"
  | BBP_V2_AUTH_ERR_FLAGS => "unsupported flags"
  | BBP_V2_AUTH_ERR_EXTENT => "invalid exact extent"
  | BBP_V2_AUTH_ERR_MAC => "authentication failed"
  | BBP_V2_AUTH_ERR_CAPSULE => "invalid BBP v2 capsule"
  | BBP_V2_AUTH_ERR_POLICY => "policy rejected capsule"
  end.

(** ** The rollback policy *)

(** [enum bbp_boot_role] is an int in C; other values are possible. *)
Definition BBP_BOOT_ROLE_RELEASE : Z := 1.
Definition BBP_BOOT_ROLE_RECOVERY : Z := 2.

Inductive bbp_boot_decision :=
  | BBP_BOOT_REJECT_ROLLBACK
  | BBP_BOOT_ACCEPT_RETRY
  | BBP_BOOT_ACCEPT_UPDATE
  | BBP_BOOT_REJECT_GAP
  | BBP_BOOT_REJECT_EXHAUSTED
  | BBP_BOOT_REJECT_ROLE.

#[global] Instance bbp_boot_decision_eq_dec : EqDecision bbp_boot_decision.
Proof. solve_decision. Defined.

Record bbp_boot_policy_result := BootPolicyResult {
  bp_decision : bbp_boot_decision;
  bp_floor : Z;
}.

Definition bbp_boot_policy_evaluate (floor generation role : Z) : bbp_boot_policy_result :=
  reject negb (role =? BBP_BOOT_ROLE_RELEASE) && negb (role =? BBP_BOOT_ROLE_RECOVERY)
    with BootPolicyResult BBP_BOOT_REJECT_ROLE floor;
  reject (floor =? UINT64_MAX) && negb (generation =? floor)
    with BootPolicyResult BBP_BOOT_REJECT_EXHAUSTED floor;
  reject generation <? floor with BootPolicyResult BBP_BOOT_REJECT_ROLLBACK floor;
  reject generation =? floor with BootPolicyResult BBP_BOOT_ACCEPT_RETRY floor;
  reject negb (wrap64 (generation - floor) =? 1)
    with BootPolicyResult BBP_BOOT_REJECT_GAP floor;
  reject role =? BBP_BOOT_ROLE_RECOVERY with BootPolicyResult BBP_BOOT_REJECT_ROLE floor;
  BootPolicyResult BBP_BOOT_ACCEPT_UPDATE generation.

(** ** Properties of the envelope *)

Record auth_framed (bs : list byte) : Prop := AuthFramed {
  af_extent : BBP_V2_AUTH_HEADER_SIZE <= zlen bs /\
    zlen bs - BBP_V2_AUTH_HEADER_SIZE <= BBP_V2_AUTH_MAX_CAPSULE_SIZE;
  af_magic : take 8 bs = BBP_V2_AUTH_MAGIC_BYTES;
  af_version : fld 2 bs 8 = BBP_V2_AUTH_VERSION;
  af_algorithm : fld 2 bs 10 = BBP_V2_AUTH_ALG_HMAC_SHA256;
  af_flags : fld 4 bs 12 = 0;
  af_size : fld 8 bs 24 = zlen bs - BBP_V2_AUTH_HEADER_SIZE;
}.

Definition auth_capsule (bs : list byte) : list byte := drop 80 bs.
Definition auth_key (bs : list byte) : list byte := slice bs 32 16.
Definition auth_tag (bs : list byte) : list byte := slice bs 48 32.

Section Verdict.
Context {MC PC : Type} (verify_mac : mac_verify_fn MC) (mac_context : MC)
  (policy : policy_fn PC) (policy_context : PC).

Definition mac_result (bs : list byte) : MC * Z :=
  verify_mac mac_context (auth_key bs) (authenticated_header (take 80 bs))
    (auth_capsule bs) (auth_tag bs).

Definition policy_result (envelope : Z) (bs : list byte) : PC * Z :=
  policy policy_context (fld 8 bs 16) (auth_key bs)
    (view_of (envelope + 80) (auth_capsule bs)).

(** The four possible courses of events, in the order of the code. *)
Inductive auth_course (envelope : Z) (bs : list byte) (o : bbp_v2_auth_view) :
    bbp_v2_auth_status_t -> MC -> PC -> bbp_v2_auth_view -> Prop :=
  | auth_unframed st :
      st <> BBP_V2_AUTH_OK -> ~ auth_framed bs ->
      auth_course envelope bs o st mac_context policy_context o
  | auth_bad_mac :
      auth_framed bs -> (mac_result bs).2 = 0 ->
      auth_course envelope bs o BBP_V2_AUTH_ERR_MAC (mac_result bs).1 policy_context o
  | auth_bad_capsule :
      auth_framed bs -> (mac_result bs).2 <> 0 -> ~ wf_capsule (auth_capsule bs) ->
      auth_course envelope bs o BBP_V2_AUTH_ERR_CAPSULE (mac_result bs).1 policy_context o
  | auth_bad_policy :
      auth_framed bs -> (mac_result bs).2 <> 0 -> wf_capsule (auth_capsule bs) ->
      (policy_result envelope bs).2 = 0 ->
      auth_course envelope bs o BBP_V2_AUTH_ERR_POLICY (mac_result bs).1
        (policy_result envelope bs).1 o
  | auth_accepted :
      auth_framed bs -> (mac_result bs).2 <> 0 -> wf_capsule (auth_capsule bs) ->
      (policy_result envelope bs).2 <> 0 ->
      auth_course envelope bs o BBP_V2_AUTH_OK (mac_result bs).1
        (policy_result envelope bs).1
        (V2AuthView envelope (zlen bs) (fld 8 bs 16) (auth_key bs)
           (view_of (envelope + 80) (auth_capsule bs))).
End Verdict.

Lemma auth_capsule_at m envelope bs :
  bytes_at m envelope bs -> 80 <= zlen bs -> bytes_at m (envelope + 80) (auth_capsule bs).
Proof.
  intros Hat Hl. unfold zlen in Hl. apply (bytes_at_drop m envelope bs 80); [lia|done].
Qed.

Lemma zlen_auth_capsule bs : 80 <= zlen bs -> zlen (auth_capsule bs) = zlen bs - 80.
Proof. intros H. unfold auth_capsule, zlen in *. rewrite length_drop. lia. Qed.

Section Courses.
Context {MC PC : Type} (verify_mac : mac_verify_fn MC) (mc : MC)
  (policy : policy_fn PC) (pc : PC).
Context (m : mem) (envelope : Z) (bs : list byte) (o : bbp_v2_auth_view).
Context (He : 0 < envelope) (Hat : bytes_at m envelope bs).

(** What is left of the parser once the envelope is framed. *)
Definition auth_judged : option (bbp_v2_auth_status_t * MC * PC * option bbp_v2_auth_view) :=
  let '(mc, accepted) := mac_result verify_mac mc bs in
  reject accepted =? 0 with Some (BBP_V2_AUTH_ERR_MAC, mc, pc, Some o);
  r ← bbp_v2_parse m (envelope + 80) (zlen (auth_capsule bs)) (Some (V2View 0 0 0 0 0));
  match r with
  | (BBP_V2_OK, Some c) =>
      let '(pc, accepted) := policy pc (fld 8 bs 16) (auth_key bs) c in
      reject accepted =? 0 with Some (BBP_V2_AUTH_ERR_POLICY, mc, pc, Some o);
      Some (BBP_V2_AUTH_OK, mc, pc,
        Some (V2AuthView envelope (zlen bs) (fld 8 bs 16) (auth_key bs) c))
  | _ => Some (BBP_V2_AUTH_ERR_CAPSULE, mc, pc, Some o)
  end.

Lemma auth_framing :
  let r := bbp_v2_auth_parse m envelope (zlen bs) (Some verify_mac) mc (Some policy) pc (Some o) in
  (exists st, r = Some (st, mc, pc, Some o) /\ st <> BBP_V2_AUTH_OK /\ ~ auth_framed bs) \/
  (auth_framed bs /\ r = auth_judged).
Proof.
  cbn zeta. unfold bbp_v2_auth_parse. replace (envelope =? 0) with false by lia.
  unfold BBP_V2_AUTH_HEADER_SIZE, BBP_V2_AUTH_TAG_OFFSET.
  destruct (_ || _) eqn:G0.
  { left. eexists. split_and!; [done..|]. intros [Hx _ _ _ _ _]. unfold BBP_V2_AUTH_HEADER_SIZE in Hx. lia. }
  apply orb_false_iff in G0 as [G0 G0']. apply Z.ltb_ge in G0, G0'.
  rewrite (bytes_equal_spec m envelope _ (take 8 bs)).
  2: { apply load_bytes_at. split; [|by apply bytes_at_take].
       rewrite length_take_le; [done|]. unfold zlen in G0. cbn. lia. }
  rewrite !get16_load, !get32_load, !get64_load. unfold load16, load32, load64.
  rewrite !(fld_load _ _ _ _ _ Hat) by lia. cbn [mbind option_bind].
  destruct (bool_decide _) eqn:G1; [apply bool_decide_eq_true in G1|
    left; eexists; split_and!; [done..|]; apply bool_decide_eq_false in G1; by intros []].
  destruct (fld 2 bs 8 =? _) eqn:G2; cbn [negb]; bool_to_prop; [|left; eexists; split_and!; [done..|by intros []]].
  destruct (fld 2 bs 10 =? _) eqn:G3; cbn [negb]; bool_to_prop; [|left; eexists; split_and!; [done..|by intros []]].
  destruct (fld 4 bs 12 =? _) eqn:G4; cbn [negb]; bool_to_prop; [|left; eexists; split_and!; [done..|by intros []]].
  destruct (_ || _) eqn:G5.
  { left. eexists. split_and!; [done..|]. intros [_ _ _ _ _ Hx]. unfold BBP_V2_AUTH_HEADER_SIZE in Hx. lia. }
  apply orb_false_iff in G5 as [_ G5]. apply negb_false_iff, Z.eqb_eq in G5.
  right. split; [by constructor|].
  rewrite G5, <- zlen_auth_capsule by done.
  assert (load_bytes m envelope 80 = Some (take 80 bs)) as ->.
  { apply load_bytes_at. split; [|by apply bytes_at_take].
    rewrite length_take_le; [done|]. unfold zlen in G0. lia. }
  pose proof (slice_load m envelope bs 32 16 Hat ltac:(lia) ltac:(lia) ltac:(lia)) as Hk.
  pose proof (slice_load m envelope bs 48 32 Hat ltac:(lia) ltac:(lia) ltac:(lia)) as Ht.
  change (Z.to_nat 16) with 16%nat in Hk. change (Z.to_nat 32) with 32%nat in Ht. rewrite Hk, Ht.
  replace (Z.to_nat (zlen (auth_capsule bs))) with (length (auth_capsule bs)) by (unfold zlen; lia).
  by rewrite (bytes_at_load _ _ _ (auth_capsule_at _ _ _ Hat G0)).
Qed.

Lemma auth_judgement :
  auth_framed bs ->
  exists st mc' pc' out,
    auth_judged = Some (st, mc', pc', Some out) /\
    auth_course verify_mac mc policy pc envelope bs o st mc' pc' out.
Proof.
  intros Hf. unfold auth_judged.
  pose proof (af_extent _ Hf) as [G0 _]. unfold BBP_V2_AUTH_HEADER_SIZE in G0.
  pose proof (auth_capsule_at _ _ _ Hat G0) as Hcat.
  destruct (mac_result verify_mac mc bs) as [mc' accepted] eqn:Emac.
  destruct (accepted =? 0) eqn:G6; bool_to_prop.
  { do 4 eexists. split; [reflexivity|].
    pose proof (auth_bad_mac verify_mac mc policy pc envelope bs o Hf) as Hb.
    rewrite Emac in Hb. by apply Hb. }
  destruct (bbp_v2_parse_spec m (envelope + 80) (auth_capsule bs) Hcat (V2View 0 0 0 0 0))
    as (st & -> & Hwf); [lia|]. cbn [mbind option_bind].
  destruct (decide (st = BBP_V2_OK)) as [->|Hst]; cycle 1.
  { exists BBP_V2_AUTH_ERR_CAPSULE, mc', pc, o. split; [by destruct st|].
    pose proof (auth_bad_capsule verify_mac mc policy pc envelope bs o Hf) as Hb.
    rewrite Emac in Hb. apply Hb; [done|]. intros H. by apply Hst, Hwf. }
  rewrite bool_decide_eq_true_2 by done. pose proof (proj1 Hwf eq_refl) as Hok.
  change (policy pc _ _ _) with (policy_result policy pc envelope bs).
  destruct (policy_result policy pc envelope bs) as [pc' ok] eqn:Epol.
  destruct (ok =? 0) eqn:G7; bool_to_prop; do 4 eexists; (split; [reflexivity|]).
  - pose proof (auth_bad_policy verify_mac mc policy pc envelope bs o Hf) as Hb.
    rewrite Emac, Epol in Hb. by apply Hb.
  - pose proof (auth_accepted verify_mac mc policy pc envelope bs o Hf) as Hb.
    rewrite Emac, Epol in Hb. by apply Hb.
Qed.
End Courses.

(** C15: the envelope parser never faults on a mapped extent and follows exactly
    one of the courses of [auth_course]: the MAC verifier runs only on a
    correctly framed envelope, over the header with its tag zeroed and the
    whole capsule; nothing is parsed before it accepts; the policy runs only
    on an authenticated and well-formed capsule; and [*out] is written only
    when both accepted. *)
Theorem auth_parse_courses {MC PC : Type} (verify_mac : mac_verify_fn MC) (mc : MC)
    (policy : policy_fn PC) (pc : PC) (m : mem) (envelope : Z) (bs : list byte)
    (o : bbp_v2_auth_view) :
  0 < envelope -> bytes_at m envelope bs ->
  exists st mc' pc' out,
    bbp_v2_auth_parse m envelope (zlen bs) (Some verify_mac) mc (Some policy) pc (Some o) =
      Some (st, mc', pc', Some out) /\
    auth_course verify_mac mc policy pc envelope bs o st mc' pc' out.
Proof.
  intros He Hat.
  destruct (auth_framing verify_mac mc policy pc m envelope bs o He Hat) as
    [(st & -> & Hst & Hno)|[Hf ->]]; [|by apply auth_judgement].
  exists st, mc, pc, o. split; [done|by constructor].
Qed.

(** An envelope around the sample capsule, a verifier that counts its calls
    and compares the tag with the CRC of the message, and a policy that asks
    for a rollback index of at least 5. *)
Module Envelope.

Definition header (tag : list byte) : list byte :=
  BBP_V2_AUTH_MAGIC_BYTES ++ le_encode 2 1 ++ le_encode 2 1 ++ le_encode 4 0 ++
  le_encode 8 5 ++ le_encode 8 (zlen Request.image) ++ replicate 16 x4b ++ tag.

Definition toy_mac (message : list byte) : list byte :=
  le_encode 8 (crc64_of message) ++ replicate 24 x00.

Definition bytes : list byte :=
  Eval vm_compute in
    header (toy_mac (header (replicate 32 x00) ++ Request.image)) ++ Request.image.

Definition verify : mac_verify_fn nat := fun calls _ header capsule tag =>
  (S calls, if bool_decide (toy_mac (header ++ capsule) = tag) then 1 else 0).

Definition policy : policy_fn nat := fun calls index _ _ =>
  (S calls, if 5 <=? index then 1 else 0).

Definition blank : bbp_v2_auth_view := V2AuthView 0 0 0 [] (V2View 0 0 0 0 0).

Definition memory : mem := mem_of 4096 bytes.

Lemma bytes_loaded : bytes_at memory 4096 bytes.
Proof. apply load_bytes_at with (n := length bytes). vm_compute. reflexivity. Qed.

End Envelope.

Lemma auth_parse_courses_witness :
  exists out,
    bbp_v2_auth_parse Envelope.memory 4096 (zlen Envelope.bytes) (Some Envelope.verify) 0%nat
      (Some Envelope.policy) 0%nat (Some Envelope.blank) =
      Some (BBP_V2_AUTH_OK, 1%nat, 1%nat, Some out) /\ av_rollback_index out = 5.
Proof.
  destruct (auth_parse_courses Envelope.verify 0%nat Envelope.policy 0%nat Envelope.memory 4096
              Envelope.bytes Envelope.blank) as (st & mc & pc & out & E & _).
  - reflexivity.
  - exact Envelope.bytes_loaded.
  - exists out. rewrite E. vm_compute in E. injection E as <- <- <- <-. split; reflexivity.
Defined.

(** What the MAC covers. *)
Definition auth_message (bs : list byte) : list byte :=
  authenticated_header (take 80 bs) ++ auth_capsule bs.

(** The MAC binds every byte of the envelope: an envelope that differs from
    another in any byte is presented to the verifier with a different message
    (header with the tag zeroed, then the capsule) or a different tag. *)
Lemma auth_binds_every_byte (bs bs' : list byte) :
  80 <= zlen bs -> 80 <= zlen bs' -> bs <> bs' ->
  auth_message bs <> auth_message bs' \/ auth_tag bs <> auth_tag bs'.
Proof.
  intros Hl Hl' Hne. destruct (decide (auth_tag bs = auth_tag bs')) as [Ht|]; [left|by right].
  intros Hm. destruct Hne. unfold zlen in *.
  unfold auth_message, authenticated_header in Hm. rewrite !take_take in Hm.
  apply app_inj_1 in Hm as [Hh Hc]; [|rewrite !length_app, !length_take; lia].
  apply app_inj_1 in Hh as [Hh _]; [|rewrite !length_take; lia].
  unfold auth_tag, slice in Ht. change (Z.to_nat 32) with 32%nat in Ht.
  change (Z.to_nat 48) with 48%nat in Ht. unfold auth_capsule in Hc.
  assert (forall l : list byte, l = take 48 l ++ take 32 (drop 48 l) ++ drop 80 l) as Hsplit.
  { intros l. rewrite <- (take_drop 48 l) at 1. f_equal.
    rewrite <- (take_drop 32 (drop 48 l)) at 1. f_equal. by rewrite drop_drop. }
  rewrite (Hsplit bs), (Hsplit bs'). cbn in Hh. by rewrite Hh, Ht, Hc.
Qed.

Lemma auth_binds_every_byte_witness :
  let tampered := <[16%nat := x06]> Envelope.bytes in
  auth_message Envelope.bytes <> auth_message tampered \/
  auth_tag Envelope.bytes <> auth_tag tampered.
Proof.
  apply auth_binds_every_byte; vm_compute; discriminate.
Defined.

(** ** Properties of the rollback policy *)

(** A boot attempt: generation and role; the device keeps the floor. *)
Definition boot_attempt : Type := Z * Z.

Definition accepts (d : bbp_boot_decision) : bool :=
  match d with BBP_BOOT_ACCEPT_RETRY | BBP_BOOT_ACCEPT_UPDATE => true | _ => false end.

(** The generations accepted by a device over a series of attempts, and the
    floor it ends with. *)
Fixpoint boot_series (floor : Z) (attempts : list boot_attempt) : list Z * Z :=
  match attempts with
  | [] => ([], floor)
  | (generation, role) :: attempts =>
      let r := bbp_boot_policy_evaluate floor generation role in
      let '(accepted, final) := boot_series (bp_floor r) attempts in
      (if accepts (bp_decision r) then generation :: accepted else accepted, final)
  end.

(** One decision: an accepted generation becomes the floor and is the floor or
    its successor, and only a release moves it. *)
Lemma boot_policy_step floor generation role :
  in_word 64 floor -> in_word 64 generation ->
  let r := bbp_boot_policy_evaluate floor generation role in
  in_word 64 (bp_floor r) /\
  (accepts (bp_decision r) = true ->
     bp_floor r = generation /\ floor <= generation <= floor + 1) /\
  (accepts (bp_decision r) = false -> bp_floor r = floor) /\
  (role <> BBP_BOOT_ROLE_RELEASE -> bp_floor r = floor).
Proof.
  intros Hf Hg. unfold bbp_boot_policy_evaluate, accepts, in_word, UINT64_MAX in *.
  destruct (_ && _) eqn:G0; [cbn; split_and!; (done || lia)|].
  destruct (_ && negb (generation =? floor)) eqn:G1; [cbn; split_and!; (done || lia)|].
  destruct (generation <? floor) eqn:G2; [cbn; split_and!; (done || lia)|].
  destruct (generation =? floor) eqn:G3; cbn; [split_and!; (done || lia)|].
  rewrite wrap_small by (unfold in_word; lia).
  destruct (generation - floor =? 1) eqn:G4; cbn; [|split_and!; (done || lia)].
  destruct (role =? BBP_BOOT_ROLE_RECOVERY) eqn:G5; cbn; [split_and!; (done || lia)|].
  unfold BBP_BOOT_ROLE_RELEASE, BBP_BOOT_ROLE_RECOVERY in *. split_and!; (done || lia).
Qed.

(** C16: over any series of boot attempts the floor never decreases, rises by at
    most one per attempt, and every accepted generation is at least the floor
    of that moment and every generation accepted before it: an older release
    is never accepted again. *)
Theorem rollback_never_accepted (floor : Z) (attempts : list boot_attempt) :
  in_word 64 floor -> Forall (fun a => in_word 64 a.1) attempts ->
  let '(accepted, final) := boot_series floor attempts in
  floor <= final <= floor + zlen attempts /\ in_word 64 final /\
  Forall (fun g => floor <= g <= final) accepted /\ StronglySorted Z.le accepted.
Proof.
  intros Hf Ha. revert floor Hf.
  induction Ha as [|[g role] attempts Hg Ha IH]; intros floor Hf; cbn [boot_series].
  - split_and!; try done; try (unfold zlen; cbn; lia). constructor.
  - destruct (boot_policy_step floor g role Hf Hg) as (Hw & Hacc & Hrej & _).
    set (r := bbp_boot_policy_evaluate floor g role) in *.
    specialize (IH (bp_floor r) Hw). destruct (boot_series (bp_floor r) attempts) as [acc final].
    destruct IH as (Hm & Hwf & Hall & Hs).
    unfold zlen in *. cbn [length].
    destruct (accepts (bp_decision r)).
    + destruct (Hacc eq_refl) as [E Hr]. rewrite E in *. split_and!; try done; try lia.
      * constructor; [lia|]. eapply Forall_impl; [exact Hall|]. cbn. lia.
      * constructor; [done|]. eapply Forall_impl; [exact Hall|]. cbn. lia.
    + rewrite (Hrej eq_refl) in *. split_and!; try done; lia.
Qed.

Lemma rollback_never_accepted_witness :
  let '(accepted, final) :=
    boot_series 7 [(7, 1); (8, 2); (8, 1); (7, 1); (10, 1); (8, 2); (9, 1)] in
  accepted = [7; 8; 8; 9] /\ final = 9 /\ StronglySorted Z.le accepted.
Proof.
  pose proof (rollback_never_accepted 7
    [(7, 1); (8, 2); (8, 1); (7, 1); (10, 1); (8, 2); (9, 1)]) as H.
  assert (in_word 64 7) as H7 by (split; vm_compute; [discriminate|reflexivity]).
  assert (Forall (fun a : boot_attempt => in_word 64 a.1)
    [(7, 1); (8, 2); (8, 1); (7, 1); (10, 1); (8, 2); (9, 1)]) as Hall
    by (repeat constructor; discriminate).
  specialize (H H7 Hall).
  assert (boot_series 7 [(7, 1); (8, 2); (8, 1); (7, 1); (10, 1); (8, 2); (9, 1)] =
          ([7; 8; 8; 9], 9)) as E by (vm_compute; reflexivity).
  rewrite E in H |- *.
  split; [reflexivity|]. split; [reflexivity|]. apply H.
Defined.
