(* ===== verification/ElfPlan.v ===== *)
(** * The ELF64 load planner (bootloader/uefi/elf64_loader.c)

    The bounded planner that turns an untrusted ELF image into a list of
    segments to load.  The image is read in place from [Memory]; the plan is a
    record whose array of 16 segments is a list, of which the first
    [segment_count] entries are meaningful. *)

From S2P Require Import Prelude Memory Capsule CapsuleFacts.

(** ** Constants and structures *)

Definition ELF64_HEADER_SIZE : Z := 64.
Definition ELF64_PROGRAM_HEADER_SIZE : Z := 56.
Definition ELF64_PT_LOAD : Z := 1.
Definition ELF64_ET_EXEC : Z := 2.
Definition ELF64_EM_X86_64 : Z := 62.
Definition ELF64_EV_CURRENT : Z := 1.
Definition ELF64_PHYSICAL_LIMIT : Z := 0x0001000000000000.
Definition ELF64_LOWER_CANONICAL_END : Z := 0x0000800000000000.
Definition ELF64_UPPER_CANONICAL_START : Z := 0xffff800000000000.
Definition BBP_ELF64_MAX_PROGRAM_HEADERS : Z := 32.
Definition BBP_ELF64_MAX_LOAD_SEGMENTS : Z := 16.
Definition BBP_ELF64_PAGE_SIZE : Z := 4096.
Definition BBP_ELF64_PF_X : Z := 1.
Definition BBP_ELF64_PF_W : Z := 2.
Definition BBP_ELF64_PF_R : Z := 4.

Inductive bbp_elf64_status :=
  | BBP_ELF64_OK
  | BBP_ELF64_ERR_ARGUMENT
  | BBP_ELF64_ERR_TRUNCATED
  | BBP_ELF64_ERR_FORMAT
  | BBP_ELF64_ERR_PROGRAM_HEADERS
  | BBP_ELF64_ERR_SEGMENT_LIMIT
  | BBP_ELF64_ERR_FILE_RANGE
  | BBP_ELF64_ERR_MEMORY_SIZE
  | BBP_ELF64_ERR_OVERFLOW
  | BBP_ELF64_ERR_ALIGNMENT
  | BBP_ELF64_ERR_ADDRESS
  | BBP_ELF64_ERR_PHYSICAL_LIMIT
  | BBP_ELF64_ERR_PAGE_OVERLAP
  | BBP_ELF64_ERR_WX
  | BBP_ELF64_ERR_ENTRY.

#[global] Instance bbp_elf64_status_eq_dec : EqDecision bbp_elf64_status.
Proof. solve_decision. Defined.

Record bbp_elf64_segment_plan := SegmentPlan {
  s_file_offset : Z;
  s_file_size : Z;
  s_memory_size : Z;
  s_virtual_address : Z;
  s_physical_address : Z;
  s_page_base : Z;
  s_page_count : Z;
  s_alignment : Z;
  s_flags : Z;
}.

Record bbp_elf64_plan := Elf64Plan {
  pl_entry : Z;
  pl_physical_base : Z;
  pl_physical_end : Z;
  pl_segment_count : Z;
  pl_segments : list bbp_elf64_segment_plan;
}.

(** ** Helpers *)

Definition read16 (m : mem) (bytes : Z) : option Z :=
  b0 ← m !! bytes;
  b1 ← m !! (bytes + 1);
  Some (wrap16 (Z.lor (byte_Z b0) (Z.shiftl (byte_Z b1) 8))).

Definition read32 (m : mem) (bytes : Z) : option Z :=
  b0 ← m !! bytes;
  b1 ← m !! (bytes + 1);
  b2 ← m !! (bytes + 2);
  b3 ← m !! (bytes + 3);
  Some (Z.lor (Z.lor (Z.lor (byte_Z b0) (wrap32 (Z.shiftl (byte_Z b1) 8)))
    (wrap32 (Z.shiftl (byte_Z b2) 16))) (wrap32 (Z.shiftl (byte_Z b3) 24))).

Fixpoint read64_loop (m : mem) (bytes i value : Z) (n : nat) : option Z :=
  match n with
  | O => Some value
  | S n =>
      b ← m !! (bytes + i);
      read64_loop m bytes (i + 1) (Z.lor value (wrap64 (Z.shiftl (byte_Z b) (i * 8)))) n
  end.
Definition read64 (m : mem) (bytes : Z) : option Z := read64_loop m bytes 0 0 8.

(** [Some sum] is a return of 1 with [*sum] set, [None] a return of 0. *)
Definition add_u64 (left right : Z) : option Z :=
  reject UINT64_MAX - right <? left with None;
  Some (left + right).

Definition canonical_region (address : Z) : Z :=
  reject address <? ELF64_LOWER_CANONICAL_END with 1;
  reject ELF64_UPPER_CANONICAL_START <=? address with 2;
  0.

Definition canonical_range (start end_ : Z) : bool :=
  let start_region := canonical_region start in
  reject start_region =? 0 with false;
  reject start =? end_ with true;
  canonical_region (wrap64 (end_ - 1)) =? start_region.

Definition power_of_two (value : Z) : bool :=
  negb (value =? 0) && (Z.land value (wrap64 (value - 1)) =? 0).

Definition ranges_overlap (first_start first_end second_start second_end : Z) : bool :=
  (first_start <? second_end) && (second_start <? first_end).

(** [x & ~((uint64_t)BBP_ELF64_PAGE_SIZE - 1u)] *)
Definition page_floor (x : Z) : Z := Z.land x (wrap64 (Z.lnot (BBP_ELF64_PAGE_SIZE - 1))).

(** Field by field, the first [segment_count] entries of the array. *)
Fixpoint publish_segments (destination source : list bbp_elf64_segment_plan) (i n : nat) :
    list bbp_elf64_segment_plan :=
  match n with
  | O => destination
  | S n =>
      match source !! i with
      | Some s => publish_segments (<[i := s]> destination) source (S i) n
      | None => destination
      end
  end.

Definition publish_plan (destination source : bbp_elf64_plan) : bbp_elf64_plan :=
  Elf64Plan (pl_entry source) (pl_physical_base source) (pl_physical_end source)
    (pl_segment_count source)
    (publish_segments (pl_segments destination) (pl_segments source) 0
       (Z.to_nat (pl_segment_count source))).

(** ** The planner *)

(** The fields of a program header. *)
Record program_header := ProgramHeader {
  ph_flags : Z;
  ph_offset : Z;
  ph_vaddr : Z;
  ph_paddr : Z;
  ph_filesz : Z;
  ph_memsz : Z;
  ph_align : Z;
}.

Definition read_header (m : mem) (header : Z) : option program_header :=
  flags ← read32 m (header + 4);
  file_offset ← read64 m (header + 8);
  virtual_address ← read64 m (header + 16);
  physical_address ← read64 m (header + 24);
  file_size ← read64 m (header + 32);
  memory_size ← read64 m (header + 40);
  alignment ← read64 m (header + 48);
  Some (ProgramHeader flags file_offset virtual_address physical_address file_size
          memory_size alignment).

(** The alignment rule of a segment that states one. *)
Definition congruent (h : program_header) : bool :=
  if 1 <? ph_align h then
    check power_of_two (ph_align h) else false;
    let mask := ph_align h - 1 in
    (Z.land (ph_offset h) mask =? Z.land (ph_vaddr h) mask) &&
    (Z.land (ph_offset h) mask =? Z.land (ph_paddr h) mask)
  else true.

(** The checks of one loadable header: the segment and the end of its last
    page, or the status returned. *)
Definition check_segment (image_size : Z) (h : program_header) :
    bbp_elf64_status + (bbp_elf64_segment_plan * Z * Z) :=
  reject ph_memsz h <? ph_filesz h with inl BBP_ELF64_ERR_MEMORY_SIZE;
  reject Z.land (ph_flags h) (Z.lor BBP_ELF64_PF_W BBP_ELF64_PF_X) =?
    Z.lor BBP_ELF64_PF_W BBP_ELF64_PF_X with inl BBP_ELF64_ERR_WX;
  check congruent h else inl BBP_ELF64_ERR_ALIGNMENT;
  match add_u64 (ph_offset h) (ph_filesz h), add_u64 (ph_vaddr h) (ph_memsz h),
        add_u64 (ph_paddr h) (ph_memsz h) with
  | Some file_end, Some virtual_end, Some physical_end =>
      reject negb (Z.land (Z.lxor (ph_vaddr h) (ph_paddr h)) (BBP_ELF64_PAGE_SIZE - 1) =? 0)
        with inl BBP_ELF64_ERR_ALIGNMENT;
      reject image_size <? file_end with inl BBP_ELF64_ERR_FILE_RANGE;
      check canonical_range (ph_vaddr h) virtual_end else inl BBP_ELF64_ERR_ADDRESS;
      reject (ELF64_PHYSICAL_LIMIT <=? ph_paddr h) || (ELF64_PHYSICAL_LIMIT <? physical_end)
        with inl BBP_ELF64_ERR_PHYSICAL_LIMIT;
      let page_base := page_floor (ph_paddr h) in
      let page_end :=
        if ph_memsz h =? 0 then page_base
        else page_floor (wrap64 (physical_end + BBP_ELF64_PAGE_SIZE - 1)) in
      let page_count := wrap64 (page_end - page_base) / BBP_ELF64_PAGE_SIZE in
      inr (SegmentPlan (ph_offset h) (ph_filesz h) (ph_memsz h) (ph_vaddr h) (ph_paddr h)
             page_base page_count (ph_align h) (ph_flags h), page_end, virtual_end)
  | _, _, _ => inl BBP_ELF64_ERR_OVERFLOW
  end.

(** [for (previous = 0; ...)]: do the pages meet those of an earlier segment? *)
Fixpoint pages_overlap (others : list bbp_elf64_segment_plan) (page_base page_end : Z) : bool :=
  match others with
  | [] => false
  | other :: others =>
      let other_end :=
        wrap64 (s_page_base other + s_page_count other * BBP_ELF64_PAGE_SIZE) in
      reject negb (s_page_count other =? 0) &&
        ranges_overlap page_base page_end (s_page_base other) other_end with true;
      pages_overlap others page_base page_end
  end.

(** The variables of the loop. *)
Record plan_state := PlanState {
  st_candidate : bbp_elf64_plan;
  st_entry_covered : bool;
  st_have_envelope : bool;
}.

(** Append a checked segment to the candidate. *)
Definition append_segment (st : plan_state) (segment : bbp_elf64_segment_plan)
    (page_end virtual_end : Z) : bbp_elf64_status + plan_state :=
  let cand := st_candidate st in
  let covers :=
    negb (Z.land (s_flags segment) BBP_ELF64_PF_X =? 0) &&
    (s_virtual_address segment <=? pl_entry cand) && (pl_entry cand <? virtual_end) in
  let add base end_ have :=
    inr (PlanState
      (Elf64Plan (pl_entry cand) base end_ (pl_segment_count cand + 1)
         (pl_segments cand ++ [segment])) (st_entry_covered st || covers) have) in
  if negb (s_page_count segment =? 0) then
    reject pages_overlap (pl_segments cand) (s_page_base segment) page_end
      with inl BBP_ELF64_ERR_PAGE_OVERLAP;
    let base :=
      if negb (st_have_envelope st) || (s_page_base segment <? pl_physical_base cand)
      then s_page_base segment else pl_physical_base cand in
    let end_ :=
      if negb (st_have_envelope st) || (pl_physical_end cand <? page_end)
      then page_end else pl_physical_end cand in
    add base end_ true
  else add (pl_physical_base cand) (pl_physical_end cand) (st_have_envelope st).

(** The body of the loop for program header [i]. *)
Definition plan_header (m : mem) (bytes image_size program_offset i : Z) (st : plan_state) :
    option (bbp_elf64_status + plan_state) :=
  let header := bytes + program_offset + i * ELF64_PROGRAM_HEADER_SIZE in
  type ← read32 m header;
  reject negb (type =? ELF64_PT_LOAD) with Some (inr st);
  reject pl_segment_count (st_candidate st) =? BBP_ELF64_MAX_LOAD_SEGMENTS
    with Some (inl BBP_ELF64_ERR_SEGMENT_LIMIT);
  h ← read_header m header;
  match check_segment image_size h with
  | inl status => Some (inl status)
  | inr (segment, page_end, virtual_end) =>
      Some (append_segment st segment page_end virtual_end)
  end.

Fixpoint plan_loop (m : mem) (bytes image_size program_offset i : Z) (st : plan_state)
    (n : nat) : option (bbp_elf64_status + plan_state) :=
  match n with
  | O => Some (inr st)
  | S n =>
      r ← plan_header m bytes image_size program_offset i st;
      match r with
      | inl status => Some (inl status)
      | inr st => plan_loop m bytes image_size program_offset (i + 1) st n
      end
  end.

(** The identification bytes and fields of the file header. *)
Definition elf_format_ok (m : mem) (bytes : Z) : option bool :=
  e ← bytes_equal m bytes [x7f; x45; x4c; x46; x02; x01; x01];
  check (e : bool) else Some false;
  type ← read16 m (bytes + 16);
  check type =? ELF64_ET_EXEC else Some false;
  machine ← read16 m (bytes + 18);
  check machine =? ELF64_EM_X86_64 else Some false;
  version ← read32 m (bytes + 20);
  check version =? ELF64_EV_CURRENT else Some false;
  ehsize ← read16 m (bytes + 52);
  Some (ehsize =? ELF64_HEADER_SIZE).

(** The result is the status and the value of [*plan] afterwards. *)
Definition bbp_elf64_plan_fn (m : mem) (image image_size : Z) (plan : option bbp_elf64_plan) :
    option (bbp_elf64_status * option bbp_elf64_plan) :=
  let fail status := Some (status, plan) in
  match plan with
  | None => fail BBP_ELF64_ERR_ARGUMENT
  | Some destination =>
  reject image =? 0 with fail BBP_ELF64_ERR_ARGUMENT;
  reject image_size <? ELF64_HEADER_SIZE with fail BBP_ELF64_ERR_TRUNCATED;
  f ← elf_format_ok m image;
  check (f : bool) else fail BBP_ELF64_ERR_FORMAT;
  entry ← read64 m (image + 24);
  reject canonical_region entry =? 0 with fail BBP_ELF64_ERR_ADDRESS;
  program_offset ← read64 m (image + 32);
  program_count ← read16 m (image + 56);
  phentsize ← read16 m (image + 54);
  reject negb (phentsize =? ELF64_PROGRAM_HEADER_SIZE) || (program_count =? 0) ||
    (BBP_ELF64_MAX_PROGRAM_HEADERS <? program_count) with fail BBP_ELF64_ERR_PROGRAM_HEADERS;
  let program_bytes := program_count * ELF64_PROGRAM_HEADER_SIZE in
  match add_u64 program_offset program_bytes with
  | None => fail BBP_ELF64_ERR_OVERFLOW
  | Some program_end =>
  reject image_size <? program_end with fail BBP_ELF64_ERR_TRUNCATED;
  r ← plan_loop m image image_size program_offset 0
        (PlanState (Elf64Plan entry 0 0 0 []) false false) (Z.to_nat program_count);
  match r with
  | inl status => fail status
  | inr st =>
      check st_entry_covered st else fail BBP_ELF64_ERR_ENTRY;
      Some (BBP_ELF64_OK, Some (publish_plan destination (st_candidate st)))
  end end end.

(** ** The reads are loads *)

Lemma read16_load m p : read16 m p = load16 m p.
Proof.
  rewrite <- get16_load. unfold read16, get16.
  destruct (m !! p) as [b0|]; [cbn [mbind option_bind]|done].
  destruct (m !! (p + 1)) as [b1|]; [cbn [mbind option_bind]|done].
  by rewrite (wrap_shiftl_byte 16) by lia.
Qed.

Lemma read32_load m p : read32 m p = load32 m p.
Proof. apply get32_load. Qed.

Lemma read64_load m p : read64 m p = load64 m p.
Proof.
  rewrite <- get64_load. unfold read64, get64.
  assert (forall n i v, read64_loop m p i v n = get64_loop m p i v n) as H; [|apply H].
  induction n as [|n IH]; intros i v; [done|]. cbn [read64_loop get64_loop].
  destruct (m !! (p + i)); [cbn [mbind option_bind]|done]. by rewrite IH, (Z.mul_comm i 8).
Qed.

(** ** What a plan promises *)

Definition page_end_of (s : bbp_elf64_segment_plan) : Z :=
  s_page_base s + s_page_count s * BBP_ELF64_PAGE_SIZE.

Definition executable (s : bbp_elf64_segment_plan) : Prop := Z.testbit (s_flags s) 0 = true.
Definition writable (s : bbp_elf64_segment_plan) : Prop := Z.testbit (s_flags s) 1 = true.

(** The range lies in one half of the canonical address space. *)
Definition canonical (start size : Z) : Prop :=
  (start < ELF64_LOWER_CANONICAL_END /\ start + size <= ELF64_LOWER_CANONICAL_END) \/
  (ELF64_UPPER_CANONICAL_START <= start /\ start + size <= UINT64_MAX).

Record segment_ok (image_size : Z) (s : bbp_elf64_segment_plan) : Prop := SegmentOk {
  so_file : s_file_size s <= s_memory_size s /\ s_file_offset s + s_file_size s <= image_size;
  so_wx : ~ (writable s /\ executable s);
  so_align : 1 < s_alignment s ->
    (exists k, 0 <= k /\ s_alignment s = 2 ^ k) /\
    s_file_offset s mod s_alignment s = s_virtual_address s mod s_alignment s /\
    s_file_offset s mod s_alignment s = s_physical_address s mod s_alignment s;
  so_page : s_virtual_address s mod BBP_ELF64_PAGE_SIZE =
            s_physical_address s mod BBP_ELF64_PAGE_SIZE;
  so_canonical : canonical (s_virtual_address s) (s_memory_size s);
  so_physical : 0 <= s_physical_address s /\
    s_physical_address s + s_memory_size s <= ELF64_PHYSICAL_LIMIT;
  so_base : s_page_base s mod BBP_ELF64_PAGE_SIZE = 0 /\ 0 <= s_page_base s /\
    s_page_base s <= s_physical_address s < s_page_base s + BBP_ELF64_PAGE_SIZE;
  so_pages : (s_memory_size s = 0 -> s_page_count s = 0) /\
    (s_memory_size s <> 0 -> 0 < s_page_count s /\
       s_physical_address s + s_memory_size s <= page_end_of s <
       s_physical_address s + s_memory_size s + BBP_ELF64_PAGE_SIZE);
  so_words : 0 <= s_virtual_address s /\ 0 <= s_file_offset s /\ 0 <= s_file_size s /\
    in_word 32 (s_flags s);
}.

(** Distinct segments share no page. *)
Definition pages_apart (s t : bbp_elf64_segment_plan) : Prop :=
  s_page_count s = 0 \/ s_page_count t = 0 \/
  page_end_of s <= s_page_base t \/ page_end_of t <= s_page_base s.

(** The program header a segment was planned from. *)
Definition header_of (s : bbp_elf64_segment_plan) : program_header :=
  ProgramHeader (s_flags s) (s_file_offset s) (s_virtual_address s) (s_physical_address s)
    (s_file_size s) (s_memory_size s) (s_alignment s).

(** The loadable program headers of the image among the first [n]. *)
Definition load_header (m : mem) (image program_offset i : Z) : option program_header :=
  let header := image + program_offset + i * ELF64_PROGRAM_HEADER_SIZE in
  type ← load32 m header;
  check type =? ELF64_PT_LOAD else None;
  read_header m header.
Definition load_headers (m : mem) (image program_offset : Z) (n : Z) : list program_header :=
  omap (load_header m image program_offset) (seqZ 0 n).

Definition covers_entry (entry : Z) (s : bbp_elf64_segment_plan) : Prop :=
  executable s /\ s_virtual_address s <= entry < s_virtual_address s + s_memory_size s.

Record segments_ok (image_size : Z) (base end_ : Z) (segs : list bbp_elf64_segment_plan) : Prop :=
  SegmentsOk {
  ss_count : zlen segs <= BBP_ELF64_MAX_LOAD_SEGMENTS;
  ss_each : Forall (segment_ok image_size) segs;
  ss_apart : ForallOrdPairs pages_apart segs;
  ss_envelope : Forall (fun s => s_page_count s <> 0 ->
    base <= s_page_base s /\ page_end_of s <= end_) segs;
}.

(** ** Arithmetic of pages *)

Lemma page_floor_eq x :
  in_word 64 x -> page_floor x = x - x mod 4096.
Proof.
  intros Hx. unfold page_floor, BBP_ELF64_PAGE_SIZE. change 4096 with (2 ^ 12).
  by apply land_wrap_lnot.
Qed.

Lemma power_of_two64 v :
  in_word 64 v -> power_of_two v = true -> exists k, 0 <= k /\ v = 2 ^ k.
Proof.
  unfold power_of_two, in_word. intros Hv H. bool_to_prop.
  rewrite wrap_small in H0 by (unfold in_word; lia).
  exists (Z.log2 v). split; [apply Z.log2_nonneg|]. apply land_pred_pow2; [lia|done].
Qed.

Lemma add_u64_spec a b :
  add_u64 a b = if decide (a + b <= UINT64_MAX) then Some (a + b) else None.
Proof.
  unfold add_u64. destruct (decide _).
  - by replace (_ <? a) with false by lia.
  - by replace (_ <? a) with true by lia.
Qed.

Lemma canonical_range_spec start size :
  0 <= start -> 0 <= size -> start + size <= UINT64_MAX ->
  canonical_range start (start + size) = true -> canonical start size.
Proof.
  intros H0 H1 H2. unfold canonical_range, canonical_region, canonical, UINT64_MAX,
    ELF64_LOWER_CANONICAL_END, ELF64_UPPER_CANONICAL_START in *.
  destruct (decide (size = 0)) as [->|Hne].
  - rewrite Z.add_0_r, Z.eqb_refl.
    destruct (start <? _) eqn:G0; [lia|]. destruct (_ <=? start) eqn:G1; [lia|]. done.
  - replace (start =? start + size) with false by lia.
    rewrite wrap_small by (unfold in_word; lia).
    destruct (start <? _) eqn:G0; cbn [Z.eqb].
    + destruct (start + size - 1 <? _) eqn:G2; [lia|].
      destruct (_ <=? start + size - 1); done.
    + destruct (_ <=? start) eqn:G1; [|done]. cbn. lia.
Qed.

(** The low bits of [x ^ y] are zero exactly when [x] and [y] agree there. *)
Lemma lxor_mod_zero x y : Z.land (Z.lxor x y) 4095 = 0 -> x mod 4096 = y mod 4096.
Proof.
  change 4095 with (Z.ones 12). change 4096 with (2 ^ 12). intros H.
  apply Z.bits_inj_iff'. intros i Hi. destruct (decide (i < 12)).
  - rewrite !Z.mod_pow2_bits_low by lia.
    assert (Z.testbit (Z.land (Z.lxor x y) (Z.ones 12)) i = false) as Hb by (by rewrite H, Z.bits_0).
    rewrite Z.land_spec, Z.lxor_spec, Z.ones_spec_low, andb_true_r in Hb by lia.
    by destruct (Z.testbit x i), (Z.testbit y i).
  - by rewrite !Z.mod_pow2_bits_high by lia.
Qed.

Lemma not_wx_flags f :
  Z.land f 3 <> 3 -> ~ (Z.testbit f 1 = true /\ Z.testbit f 0 = true).
Proof.
  intros H [H1 H0]. apply H. change 3 with (Z.ones 2). rewrite Z.land_ones by lia.
  apply Z.bits_inj_iff'. intros i Hi. destruct (decide (i < 2)).
  - rewrite Z.mod_pow2_bits_low, Z.ones_spec_low by lia.
    assert (i = 0 \/ i = 1) as [-> | ->] by lia; done.
  - by rewrite Z.mod_pow2_bits_high, Z.ones_spec_high by lia.
Qed.

(** ** One segment *)

Record header_typed (h : program_header) : Prop := HeaderTyped {
  ht_flags : in_word 32 (ph_flags h);
  ht_offset : in_word 64 (ph_offset h);
  ht_vaddr : in_word 64 (ph_vaddr h);
  ht_paddr : in_word 64 (ph_paddr h);
  ht_filesz : in_word 64 (ph_filesz h);
  ht_memsz : in_word 64 (ph_memsz h);
  ht_align : in_word 64 (ph_align h);
}.

Lemma congruent_spec h :
  header_typed h -> congruent h = true -> 1 < ph_align h ->
  (exists k, 0 <= k /\ ph_align h = 2 ^ k) /\
  ph_offset h mod ph_align h = ph_vaddr h mod ph_align h /\
  ph_offset h mod ph_align h = ph_paddr h mod ph_align h.
Proof.
  intros [] Hc Ha. unfold congruent in Hc. replace (1 <? ph_align h) with true in Hc by lia.
  destruct (power_of_two (ph_align h)) eqn:Hp; [|done].
  destruct (power_of_two64 _ ht_align0 Hp) as (k & Hk & E).
  bool_to_prop. rewrite E in *. rewrite !land_ones_pow2 in * by done. eauto.
Qed.

Lemma check_segment_sound image_size h s page_end virtual_end :
  header_typed h -> check_segment image_size h = inr (s, page_end, virtual_end) ->
  segment_ok image_size s /\ header_of s = h /\ page_end = page_end_of s /\
  virtual_end = ph_vaddr h + ph_memsz h.
Proof.
  intros Ht H. pose proof (congruent_spec h Ht) as Hcong. destruct Ht.
  unfold check_segment in H. rewrite !add_u64_spec in H.
  destruct (ph_memsz h <? ph_filesz h) eqn:G0; [done|].
  destruct (Z.land (ph_flags h) _ =? _) eqn:G1; [done|].
  destruct (congruent h) eqn:G2; [|done].
  destruct (decide (ph_offset h + _ <= _)) as [D1|]; [|done].
  destruct (decide (ph_vaddr h + _ <= _)) as [D2|]; [|done].
  destruct (decide (ph_paddr h + _ <= _)) as [D3|]; [|done].
  destruct (Z.land (Z.lxor _ _) _ =? 0) eqn:G3; [cbn [negb] in H|done].
  destruct (image_size <? _) eqn:G4; [done|].
  destruct (canonical_range _ _) eqn:G5; [|done].
  destruct (_ || _) eqn:G6; [done|]. bool_to_prop.
  unfold in_word, ELF64_PHYSICAL_LIMIT, BBP_ELF64_PAGE_SIZE in *.
  injection H as <- <- <-.
  set (p := ph_paddr h) in *. set (sz := ph_memsz h) in *.
  assert (0 <= p mod 4096 < 4096) as Hpm by (apply Z.mod_pos_bound; lia).
  rewrite (wrap_small 64 (p + sz + 4096 - 1)) by (unfold in_word; lia).
  rewrite !page_floor_eq by (unfold in_word; lia).
  set (e := p + sz + 4096 - 1) in *.
  assert (0 <= e mod 4096 < 4096) as Hem by (apply Z.mod_pos_bound; lia).
  assert ((p - p mod 4096) mod 4096 = 0) as Hpb by (rewrite Zminus_mod_idemp_r, Z.sub_diag; done).
  assert ((e - e mod 4096) mod 4096 = 0) as Heb by (rewrite Zminus_mod_idemp_r, Z.sub_diag; done).
  apply Z.mod_divide in Hpb as [a Ea]; [|lia]. apply Z.mod_divide in Heb as [b Eb]; [|lia].
  rewrite Ea, Eb.
  assert (wrap64 ((if sz =? 0 then a * 4096 else b * 4096) - a * 4096) / 4096 =
          if sz =? 0 then 0 else b - a) as ->.
  { destruct (sz =? 0) eqn:Es; bool_to_prop.
    - rewrite Z.sub_diag. done.
    - rewrite <- Z.mul_sub_distr_r, wrap_small by (unfold in_word, e in *; lia).
      apply Z.div_mul. lia. }
  split_and!; [|by destruct h| |done].
  - constructor; unfold page_end_of, executable, writable, BBP_ELF64_PAGE_SIZE, ELF64_PHYSICAL_LIMIT;
      cbn [s_file_size s_memory_size s_file_offset s_flags s_alignment s_virtual_address
           s_physical_address s_page_base s_page_count].
    + fold sz. lia.
    + by apply not_wx_flags.
    + intros Ha. by apply Hcong.
    + by apply lxor_mod_zero.
    + by apply canonical_range_spec; fold sz; try lia.
    + fold p sz. lia.
    + fold p. pose proof (Z.mod_le p 4096). split; [apply Z.mod_mul; lia|lia].
    + fold p sz. unfold e in *. destruct (sz =? 0) eqn:Es; bool_to_prop; split; intros; lia.
    + unfold in_word in *. lia.
  - unfold page_end_of, BBP_ELF64_PAGE_SIZE. cbn [s_page_base s_page_count].
    destruct (sz =? 0); lia.
Qed.

(** ** The loop *)

Lemma page_end_bounds image_size s :
  segment_ok image_size s -> 0 <= page_end_of s < 2 ^ 64 /\ 0 <= s_page_count s.
Proof.
  intros [_ _ _ _ _ Hp (_ & Hb) [H0 H1]].
  unfold page_end_of, ELF64_PHYSICAL_LIMIT, BBP_ELF64_PAGE_SIZE in *.
  destruct (decide (s_memory_size s = 0)) as [E|E]; [rewrite (H0 E) in *|]; lia.
Qed.

Lemma pages_overlap_spec image_size others base end_ :
  Forall (segment_ok image_size) others -> pages_overlap others base end_ = false ->
  Forall (fun o => s_page_count o = 0 \/ end_ <= s_page_base o \/ page_end_of o <= base) others.
Proof.
  induction 1 as [|o others Ho _ IH]; intros H; [constructor|]. cbn [pages_overlap] in H.
  destruct (page_end_bounds _ _ Ho) as [Hw _]. unfold page_end_of in Hw.
  rewrite wrap_small in H by done. unfold ranges_overlap in H.
  destruct (negb _ && _) eqn:G; [done|]. constructor; [|by apply IH].
  unfold page_end_of. lia.
Qed.

Definition nonempty (s : bbp_elf64_segment_plan) : Prop := s_page_count s <> 0.

(** What holds of the loop variables after the headers before [i]. *)
Record plan_inv (m : mem) (image program_offset image_size entry i : Z) (st : plan_state) : Prop :=
  PlanInv {
  pi_entry : pl_entry (st_candidate st) = entry;
  pi_count : pl_segment_count (st_candidate st) = zlen (pl_segments (st_candidate st));
  pi_segments : segments_ok image_size (pl_physical_base (st_candidate st))
    (pl_physical_end (st_candidate st)) (pl_segments (st_candidate st));
  pi_headers : map header_of (pl_segments (st_candidate st)) =
    load_headers m image program_offset i;
  pi_covered : st_entry_covered st = true <->
    Exists (covers_entry entry) (pl_segments (st_candidate st));
  pi_have : st_have_envelope st = true <-> Exists nonempty (pl_segments (st_candidate st));
}.

Lemma envelope_grow base end_ s (segs : list bbp_elf64_segment_plan) base' end' :
  base' <= base -> end_ <= end' -> base' <= s_page_base s -> page_end_of s <= end' ->
  Forall (fun s => s_page_count s <> 0 -> base <= s_page_base s /\ page_end_of s <= end_) segs ->
  Forall (fun s => s_page_count s <> 0 -> base' <= s_page_base s /\ page_end_of s <= end')
    (segs ++ [s]).
Proof.
  intros Hb He Hs1 Hs2 H. apply Forall_app. split; [|by constructor].
  eapply Forall_impl; [exact H|]. cbn. intros t Ht Hne. specialize (Ht Hne). lia.
Qed.

Lemma ordpairs_snoc {A} (R : A -> A -> Prop) l x :
  ForallOrdPairs R l -> Forall (fun y => R y x) l -> ForallOrdPairs R (l ++ [x]).
Proof.
  induction 1 as [|y l Hy Hl IH]; intros Hx; cbn [app].
  - repeat constructor.
  - apply Forall_cons in Hx as [Hyx Hx]. constructor; [|by apply IH].
    apply Forall_app. split; [done|by constructor].
Qed.

Lemma executable_flag f : negb (Z.land f BBP_ELF64_PF_X =? 0) = Z.testbit f 0.
Proof.
  unfold BBP_ELF64_PF_X. change 1 with (Z.ones 1). rewrite Z.land_ones by lia.
  change (2 ^ 1) with 2. rewrite <- Z.bit0_mod. by destruct (Z.testbit f 0).
Qed.

Lemma load_headers_snoc m image poff i :
  0 <= i -> load_headers m image poff (i + 1) =
  load_headers m image poff i ++ option_list (load_header m image poff i).
Proof.
  intros Hi. unfold load_headers. rewrite (seqZ_app 0 i 1), omap_app by lia.
  assert (seqZ (0 + i) 1 = [i]) as -> by (rewrite seqZ_cons by lia; f_equal; lia).
  f_equal.
Qed.

Ltac plan_cbn :=
  cbn [st_candidate st_entry_covered st_have_envelope pl_entry pl_physical_base pl_physical_end
       pl_segment_count pl_segments] in *.

Lemma append_segment_inv m image poff image_size entry i st s st' :
  plan_inv m image poff image_size entry i st ->
  pl_segment_count (st_candidate st) <> BBP_ELF64_MAX_LOAD_SEGMENTS ->
  0 <= i -> load_header m image poff i = Some (header_of s) -> segment_ok image_size s ->
  append_segment st s (page_end_of s) (s_virtual_address s + s_memory_size s) = inr st' ->
  plan_inv m image poff image_size entry (i + 1) st'.
Proof.
  intros [He Hn [Hc Heach Hap Henv] Hh Hcov Hhave] Hlim Hi Hld Hs H.
  destruct st as [cand covered have]. destruct cand as [e base end_ count segs].
  unfold append_segment in H. plan_cbn. subst e count.
  unfold BBP_ELF64_MAX_LOAD_SEGMENTS in *.
  assert (zlen (segs ++ [s]) = zlen segs + 1) as Hl
    by (unfold zlen; rewrite length_app; cbn; lia).
  assert (map header_of (segs ++ [s]) = load_headers m image poff (i + 1)) as Hh'.
  { by rewrite map_app, Hh, load_headers_snoc, Hld. }
  rewrite executable_flag in H.
  assert (covered || (Z.testbit (s_flags s) 0 && (s_virtual_address s <=? entry) &&
            (entry <? s_virtual_address s + s_memory_size s)) = true <->
          Exists (covers_entry entry) (segs ++ [s])) as Hcov'.
  { rewrite orb_true_iff, Hcov, Exists_app, Exists_cons, Exists_nil.
    unfold covers_entry, executable. rewrite !andb_true_iff, Z.leb_le, Z.ltb_lt. tauto. }
  destruct (page_end_bounds _ _ Hs) as [_ Hcnt].
  destruct (Z.eqb_spec (s_page_count s) 0) as [G0|G0]; cbn [negb] in H.
  - injection H as <-. constructor; plan_cbn; try done.
    + constructor; [unfold BBP_ELF64_MAX_LOAD_SEGMENTS; lia|apply Forall_app; split; [done|by constructor]| |].
      * apply ordpairs_snoc; [done|]. apply Forall_true. intros t. right. by left.
      * apply Forall_app. split; [done|]. by constructor.
    + rewrite Hhave, Exists_app, Exists_cons, Exists_nil. unfold nonempty. tauto.
  - destruct (pages_overlap _ _ _) eqn:G1; [done|]. injection H as <-.
    apply (pages_overlap_spec image_size) in G1; [|done].
    constructor; plan_cbn; try done.
    + constructor; [unfold BBP_ELF64_MAX_LOAD_SEGMENTS; lia|apply Forall_app; split; [done|by constructor]| |].
      * apply ordpairs_snoc; [done|]. eapply Forall_impl; [exact G1|]. cbn. unfold pages_apart. lia.
      * destruct have; cbn [negb orb].
        -- apply (envelope_grow base end_); try done;
             repeat case_match; bool_to_prop; lia.
        -- apply Forall_app. split; [|by repeat constructor].
           apply Forall_forall. intros t Ht Hne.
           assert (false = true); [|done]. apply Hhave, Exists_exists. by exists t.
    + rewrite Exists_app, Exists_cons. unfold nonempty. tauto.
Qed.

(** Read a field of a mapped structure. *)
Ltac load_field Hm a n v E W :=
  match type of Hm with mapped ?m _ _ =>
    destruct (mapped_load_le m a n) as (v & E & W); [eapply mapped_sub; [exact Hm|lia|lia]|]
  end.

Lemma read_header_total m header :
  mapped m header ELF64_PROGRAM_HEADER_SIZE ->
  exists type h, read32 m header = Some type /\ read_header m header = Some h /\ header_typed h.
Proof.
  intros Hm. unfold read_header, ELF64_PROGRAM_HEADER_SIZE in *.
  rewrite !read32_load, !read64_load.
  load_field Hm header 4%nat t Et Wt.
  load_field Hm (header + 4) 4%nat f Ef Wf.
  load_field Hm (header + 8) 8%nat v1 E1 Wv1.
  load_field Hm (header + 16) 8%nat v2 E2 Wv2.
  load_field Hm (header + 24) 8%nat v3 E3 Wv3.
  load_field Hm (header + 32) 8%nat v4 E4 Wv4.
  load_field Hm (header + 40) 8%nat v5 E5 Wv5.
  load_field Hm (header + 48) 8%nat v6 E6 Wv6.
  unfold load32, load64. rewrite Et, Ef, E1, E2, E3, E4, E5, E6. cbn [mbind option_bind].
  do 2 eexists. split; [done|]. split; [done|]. by constructor.
Qed.

Section Planner.
Context (m : mem) (image image_size poff entry : Z).
Context (Hmap : mapped m image image_size) (Hpoff : 0 <= poff).

Lemma plan_header_inv i st :
  0 <= i -> poff + (i + 1) * ELF64_PROGRAM_HEADER_SIZE <= image_size ->
  plan_inv m image poff image_size entry i st ->
  exists r, plan_header m image image_size poff i st = Some r /\
    match r with
    | inl status => status <> BBP_ELF64_OK
    | inr st' => plan_inv m image poff image_size entry (i + 1) st'
    end.
Proof using Hmap Hpoff.
  intros Hi Hin Hinv. unfold plan_header.
  set (header := image + poff + i * ELF64_PROGRAM_HEADER_SIZE).
  destruct (read_header_total m header) as (type & h & Et & Eh & Hh).
  { unfold ELF64_PROGRAM_HEADER_SIZE in *. eapply mapped_sub; [exact Hmap| |]; unfold header; lia. }
  rewrite Et, Eh. cbn [mbind option_bind].
  assert (load_header m image poff i = if type =? ELF64_PT_LOAD then Some h else None) as Eld.
  { unfold load_header. fold header. rewrite <- read32_load, Et. cbn [mbind option_bind].
    by rewrite Eh. }
  destruct (type =? ELF64_PT_LOAD) eqn:G0; cbn [negb].
  2: { eexists. split; [reflexivity|]. destruct Hinv. constructor; try done.
       by rewrite load_headers_snoc, Eld, app_nil_r. }
  destruct (pl_segment_count _ =? _) eqn:G1; [by eexists|].
  destruct (check_segment image_size h) as [status|[[s pe] ve]] eqn:Ec.
  - eexists. split; [reflexivity|]. intros ->. unfold check_segment in Ec.
    repeat case_match; simplify_eq.
  - destruct (check_segment_sound _ _ _ _ _ Hh Ec) as (Hs & Ehs & -> & ->).
    eexists. split; [reflexivity|].
    assert (ph_vaddr h + ph_memsz h = s_virtual_address s + s_memory_size s) as ->
      by (by rewrite <- Ehs).
    destruct (append_segment st s _ _) as [status|st'] eqn:Ea.
    + intros ->. unfold append_segment in Ea. repeat case_match; simplify_eq.
    + eapply append_segment_inv; try done; [lia|by rewrite Eld, Ehs].
Qed.

Lemma plan_loop_inv i st n :
  0 <= i -> poff + (i + Z.of_nat n) * ELF64_PROGRAM_HEADER_SIZE <= image_size ->
  plan_inv m image poff image_size entry i st ->
  exists r, plan_loop m image image_size poff i st n = Some r /\
    match r with
    | inl status => status <> BBP_ELF64_OK
    | inr st' => plan_inv m image poff image_size entry (i + Z.of_nat n) st'
    end.
Proof using Hmap Hpoff.
  revert i st. induction n as [|n IH]; intros i st Hi Hin Hinv.
  - eexists. split; [reflexivity|]. by rewrite Z.add_0_r.
  - cbn [plan_loop]. destruct (plan_header_inv i st Hi) as (r & -> & Hr); [|done|].
    { unfold ELF64_PROGRAM_HEADER_SIZE in *. lia. }
    cbn [mbind option_bind]. destruct r as [status|st']; [by eexists|].
    destruct (IH (i + 1) st') as (r & -> & Hr'); [lia| |done|].
    { unfold ELF64_PROGRAM_HEADER_SIZE in *. lia. }
    eexists. split; [reflexivity|].
    by replace (i + Z.of_nat (S n)) with (i + 1 + Z.of_nat n) by lia.
Qed.
End Planner.

(** ** Publication *)

Lemma publish_segments_take dst src i n :
  (i + n)%nat = length src -> (length src <= length dst)%nat -> take i dst = take i src ->
  take (length src) (publish_segments dst src i n) = src.
Proof.
  revert dst i. induction n as [|n IH]; intros dst i Hn Hlen Ht; cbn [publish_segments].
  - rewrite Nat.add_0_r in Hn. subst i. by rewrite Ht, take_ge.
  - destruct (lookup_lt_is_Some_2 src i) as [s Hs]; [lia|]. rewrite Hs.
    apply IH; [lia|by rewrite length_insert|].
    rewrite (take_S_r _ _ s), (take_S_r src _ s) by (done || rewrite list_lookup_insert_eq by lia; done).
    by rewrite take_insert_ge, Ht by lia.
Qed.

(** The segments a plan lists. *)
Definition planned (p : bbp_elf64_plan) : list bbp_elf64_segment_plan :=
  take (Z.to_nat (pl_segment_count p)) (pl_segments p).

(** The program headers of the image the plan was made from. *)
Definition image_load_headers (m : mem) (image : Z) : list program_header :=
  match load64 m (image + 32), load16 m (image + 56) with
  | Some poff, Some count => load_headers m image poff count
  | _, _ => []
  end.

Definition plan_sound (m : mem) (image image_size : Z) (p : bbp_elf64_plan) : Prop :=
  pl_segment_count p = zlen (planned p) /\
  segments_ok image_size (pl_physical_base p) (pl_physical_end p) (planned p) /\
  map header_of (planned p) = image_load_headers m image /\
  load64 m (image + 24) = Some (pl_entry p) /\
  Exists (covers_entry (pl_entry p)) (planned p).

Lemma elf_format_ok_total m image image_size :
  mapped m image image_size -> 64 <= image_size -> exists b, elf_format_ok m image = Some b.
Proof.
  intros Hm Hs. unfold elf_format_ok. rewrite !read16_load, !read32_load.
  destruct (mapped_load m image 7) as [bs Hbs]; [eapply mapped_sub; [exact Hm|lia|lia]|].
  rewrite (bytes_equal_spec m image [x7f; x45; x4c; x46; x02; x01; x01] bs Hbs). cbn [mbind option_bind].
  destruct (bool_decide _); [|by eexists].
  load_field Hm (image + 16) 2%nat v1 E1 Wv1.
  load_field Hm (image + 18) 2%nat v2 E2 Wv2.
  load_field Hm (image + 20) 4%nat v3 E3 Wv3.
  load_field Hm (image + 52) 2%nat v4 E4 Wv4.
  unfold load16, load32. rewrite E1, E2, E3, E4. cbn [mbind option_bind].
  repeat case_match; by eexists.
Qed.

Lemma plan_fn_spec m image image_size plan :
  0 < image -> mapped m image image_size -> length (pl_segments plan) = 16%nat ->
  exists st plan', bbp_elf64_plan_fn m image image_size (Some plan) = Some (st, Some plan') /\
    (st <> BBP_ELF64_OK -> plan' = plan) /\
    (st = BBP_ELF64_OK -> plan_sound m image image_size plan').
Proof.
  intros Hi Hm Hlen. unfold bbp_elf64_plan_fn, ELF64_HEADER_SIZE.
  assert (forall st, st <> BBP_ELF64_OK -> exists st' plan',
    Some (st, Some plan) = Some (st', Some plan') /\ (st' <> BBP_ELF64_OK -> plan' = plan) /\
    (st' = BBP_ELF64_OK -> plan_sound m image image_size plan')) as Hfail
    by (intros st Hst; by exists st, plan).
  replace (image =? 0) with false by lia.
  destruct (image_size <? 64) eqn:G0; [by apply Hfail|]. apply Z.ltb_ge in G0.
  destruct (elf_format_ok_total m image image_size Hm G0) as (b & ->).
  cbn [mbind option_bind]. destruct b; [|by apply Hfail].
  rewrite !read64_load, !read16_load.
  load_field Hm (image + 24) 8%nat entry E24 Wentry.
  load_field Hm (image + 32) 8%nat poff E32 Wpoff.
  load_field Hm (image + 56) 2%nat count E56 Wcount.
  load_field Hm (image + 54) 2%nat entsize E54 Wentsize.
  pose proof (proj1 Wpoff) as Hp0. pose proof (proj1 Wcount) as Hc0.
  unfold load64, load16. rewrite E24, E32, E56, E54. cbn [mbind option_bind].
  destruct (canonical_region entry =? 0); [by apply Hfail|].
  destruct (_ || _) eqn:G1; [by apply Hfail|]. rewrite add_u64_spec.
  destruct (decide _); [|by apply Hfail].
  destruct (image_size <? poff + _) eqn:G2; [by apply Hfail|]. apply Z.ltb_ge in G2.
  destruct (plan_loop_inv m image image_size poff entry Hm Hp0 0
              (PlanState (Elf64Plan entry 0 0 0 []) false false) (Z.to_nat count))
    as (r & -> & Hr); [lia|rewrite Z2Nat.id by done; lia| |].
  { constructor; plan_cbn; try done.
    - constructor; try constructor. unfold zlen. cbn. done.
    - split; [done|by rewrite Exists_nil].
    - split; [done|by rewrite Exists_nil]. }
  cbn [mbind option_bind]. destruct r as [st|st]; [by apply Hfail|].
  rewrite Z.add_0_l, Z2Nat.id in Hr by done.
  destruct Hr as [He Hn Hs Hh Hcov _].
  destruct (st_entry_covered st) eqn:G3; [|by apply Hfail].
  do 2 eexists. split; [reflexivity|]. split; [done|]. intros _.
  destruct (st_candidate st) as [e base end_ cnt segs]. plan_cbn. subst e cnt.
  assert (take (length segs) (publish_segments (pl_segments plan) segs 0 (length segs)) = segs) as Hpub.
  { apply publish_segments_take; [done| |done]. destruct Hs as [Hc _ _ _].
    unfold BBP_ELF64_MAX_LOAD_SEGMENTS, zlen in Hc. lia. }
  unfold plan_sound, planned, publish_plan, image_load_headers. plan_cbn. unfold load64, load16.
  replace (Z.to_nat (zlen segs)) with (length segs) by (unfold zlen; lia).
  rewrite Hpub, E24, E32, E56. split_and!; try done. by apply Hcov.
Qed.

(** A two-segment executable: read-execute text and read-write zero data. *)
Module ElfSample.

Definition ph (flags off vaddr paddr filesz memsz align : Z) : list byte :=
  le_encode 4 1 ++ le_encode 4 flags ++ le_encode 8 off ++ le_encode 8 vaddr ++
  le_encode 8 paddr ++ le_encode 8 filesz ++ le_encode 8 memsz ++ le_encode 8 align.

Definition bytes : list byte :=
  [x7f; x45; x4c; x46; x02; x01; x01; x00] ++ le_encode 8 0 ++
  le_encode 2 2 ++ le_encode 2 62 ++ le_encode 4 1 ++ le_encode 8 0x400010 ++
  le_encode 8 64 ++ le_encode 8 0 ++ le_encode 4 0 ++ le_encode 2 64 ++
  le_encode 2 56 ++ le_encode 2 2 ++ le_encode 6 0 ++
  ph 5 0 0x400000 0x100000 176 0x2000 4096 ++
  ph 6 0 0x402000 0x102000 0 0x1000 4096.

Definition memory : mem := mem_of 65536 bytes.
Definition blank : bbp_elf64_plan :=
  Elf64Plan 0 0 0 0 (replicate 16 (SegmentPlan 0 0 0 0 0 0 0 0 0)).

Lemma image_mapped : mapped memory 65536 176.
Proof. apply (load_mapped _ _ 176 bytes). vm_compute. reflexivity. Qed.

End ElfSample.

(** C22: the planner never reads outside the image and always returns; on failure
    the plan is left intact; a plan it publishes lists exactly the loadable
    program headers of the image in order, at most 16, each with its file
    range inside the image, file size at most its memory size, consistent
    alignment, canonical virtual range, physical range below 2^48 covered by
    its pages, never both writable and executable; no two segments share a
    page, all pages lie in the stated envelope, and the entry point lies in an
    executable segment. *)
Theorem elf_plan_is_sound (m : mem) (image image_size : Z) (plan : bbp_elf64_plan) :
  0 < image -> mapped m image image_size -> length (pl_segments plan) = 16%nat ->
  exists st plan', bbp_elf64_plan_fn m image image_size (Some plan) = Some (st, Some plan') /\
    (st <> BBP_ELF64_OK -> plan' = plan) /\
    (st = BBP_ELF64_OK -> plan_sound m image image_size plan').
Proof. apply plan_fn_spec. Qed.

Lemma elf_plan_is_sound_witness :
  exists plan', bbp_elf64_plan_fn ElfSample.memory 65536 176 (Some ElfSample.blank) =
    Some (BBP_ELF64_OK, Some plan') /\ pl_segment_count plan' = 2 /\
    plan_sound ElfSample.memory 65536 176 plan'.
Proof.
  destruct (elf_plan_is_sound ElfSample.memory 65536 176 ElfSample.blank)
    as (st & plan' & E & _ & Hok).
  - reflexivity.
  - exact ElfSample.image_mapped.
  - reflexivity.
  - exists plan'. rewrite E.
    assert (st = BBP_ELF64_OK /\ pl_segment_count plan' = 2) as [Hst Hn].
    { vm_compute in E. injection E as <- <-. split; reflexivity. }
    rewrite Hst. split; [reflexivity|]. split; [exact Hn|]. apply Hok, Hst.
Defined.

(** Write xor execute holds page by page: no physical page of an accepted
    plan belongs to both a writable and an executable segment. *)
Lemma elf_plan_wx_pages (m : mem) (image image_size : Z) (plan plan' : bbp_elf64_plan)
    (s t : bbp_elf64_segment_plan) (page : Z) :
  0 < image -> mapped m image image_size -> length (pl_segments plan) = 16%nat ->
  bbp_elf64_plan_fn m image image_size (Some plan) = Some (BBP_ELF64_OK, Some plan') ->
  s ∈ planned plan' -> t ∈ planned plan' ->
  s_page_base s <= page < page_end_of s -> s_page_base t <= page < page_end_of t ->
  ~ (writable s /\ executable t).
Proof.
  intros Hi Hm Hl E Hs Ht Hps Hpt [Hw Hx].
  destruct (plan_fn_spec m image image_size plan Hi Hm Hl) as (st & p & E' & _ & Hok).
  rewrite E' in E. injection E as -> ->. destruct (Hok eq_refl) as (_ & [_ Heach Hap _] & _).
  assert (s = t \/ pages_apart s t) as [-> | Ha].
  - apply list_elem_of_split in Hs as (l1 & l2 & El). rewrite El in Hap, Ht.
    assert (forall a b, pages_apart a b -> pages_apart b a) as Hsym by (unfold pages_apart; lia).
    pose proof (ordpairs_split _ _ _ _ Hsym Hap t) as Hrest. rewrite elem_of_app in Hrest.
    apply elem_of_app in Ht as [Ht | Ht]; [by auto|].
    apply elem_of_cons in Ht as [-> | Ht]; by auto.
  - rewrite Forall_forall in Heach. by apply (so_wx _ _ (Heach t Ht)).
  - unfold pages_apart, page_end_of, BBP_ELF64_PAGE_SIZE in *. lia.
Qed.

