(* ===== verification/ElfMoves.v ===== *)
(** * The plan depends on the file only

    The planner reads nothing but the image, so two memories that hold the same
    bytes, at whatever addresses, give the same plan. *)

From S2P Require Import Prelude Memory ElfPlan.

Section Moves.
Context (m m' : mem) (a a' : Z).
Context (Hmove : forall i b, m !! (a + i) = Some b -> m' !! (a' + i) = Some b).

Lemma lookup_moves p i b : m !! (a + p + i) = Some b -> m' !! (a' + p + i) = Some b.
Proof using Hmove. rewrite <- !Z.add_assoc. apply Hmove. Qed.

Lemma lookup_moves_0 p b : m !! (a + p) = Some b -> m' !! (a' + p) = Some b.
Proof using Hmove. apply Hmove. Qed.

(** Follow the reads of the first memory in the second. *)
Local Ltac moves H :=
  repeat (let x := fresh "x" in let E := fresh "E" in apply bind_Some in H as (x & E & H);
    first [apply lookup_moves in E|apply lookup_moves_0 in E]; rewrite E; cbn [mbind option_bind]);
  exact H.

Lemma read16_moves p v : read16 m (a + p) = Some v -> read16 m' (a' + p) = Some v.
Proof using Hmove. unfold read16. intros H. moves H. Qed.

Lemma read32_moves p v : read32 m (a + p) = Some v -> read32 m' (a' + p) = Some v.
Proof using Hmove. unfold read32. intros H. moves H. Qed.

Lemma read64_moves p v : read64 m (a + p) = Some v -> read64 m' (a' + p) = Some v.
Proof using Hmove.
  assert (forall n i acc, read64_loop m (a + p) i acc n = Some v -> read64_loop m' (a' + p) i acc n = Some v) as H; [|apply H].
  induction n as [|n IH]; intros i acc H; cbn [read64_loop] in *; [done|].
  apply bind_Some in H as (b & E & H). apply lookup_moves in E. rewrite E. cbn [mbind option_bind]. by apply IH.
Qed.

Lemma bytes_equal_moves bs : forall p v, bytes_equal m (a + p) bs = Some v -> bytes_equal m' (a' + p) bs = Some v.
Proof using Hmove.
  induction bs as [|b bs IH]; intros p v H; cbn [bytes_equal] in *; [done|].
  apply bind_Some in H as (x & E & H). apply lookup_moves_0 in E. rewrite E. cbn [mbind option_bind].
  destruct (negb _); [done|]. rewrite <- Z.add_assoc in *. by apply IH.
Qed.

(** The same for every read of the planner. *)
Local Ltac follow H :=
  let v := fresh "v" in let E := fresh "E" in
  apply bind_Some in H as (v & E & H);
  first [apply read16_moves in E|apply read32_moves in E|apply read64_moves in E]; rewrite E; cbn [mbind option_bind].

Lemma read_header_moves p h : read_header m (a + p) = Some h -> read_header m' (a' + p) = Some h.
Proof using Hmove. unfold read_header. rewrite <- !Z.add_assoc. intros H. do 7 follow H. exact H. Qed.

Lemma plan_header_moves size poff i st r :
  plan_header m a size poff i st = Some r -> plan_header m' a' size poff i st = Some r.
Proof using Hmove.
  unfold plan_header. rewrite <- !Z.add_assoc. intros H. follow H. destruct (negb _); [done|]. destruct (_ =? _); [done|].
  apply bind_Some in H as (h & Eh & H). apply read_header_moves in Eh. by rewrite Eh.
Qed.

Lemma plan_loop_moves size poff n : forall i st r,
  plan_loop m a size poff i st n = Some r -> plan_loop m' a' size poff i st n = Some r.
Proof using Hmove.
  induction n as [|n IH]; intros i st r H; cbn [plan_loop] in *; [done|].
  apply bind_Some in H as (q & E & H). apply plan_header_moves in E. rewrite E. cbn [mbind option_bind].
  destruct q; [done|]. by apply IH.
Qed.

Lemma elf_format_moves v : elf_format_ok m a = Some v -> elf_format_ok m' a' = Some v.
Proof using Hmove.
  unfold elf_format_ok. intros H. apply bind_Some in H as (e & Ee & H).
  rewrite <- (Z.add_0_r a) in Ee. apply bytes_equal_moves in Ee. rewrite Z.add_0_r in Ee. rewrite Ee. cbn [mbind option_bind].
  destruct e; [|done]. follow H. destruct (_ =? _); [|done]. follow H. destruct (_ =? _); [|done]. follow H.
  destruct (_ =? _); [|done]. follow H. exact H.
Qed.

Lemma plan_moves size p r : a <> 0 -> a' <> 0 ->
  bbp_elf64_plan_fn m a size p = Some r -> bbp_elf64_plan_fn m' a' size p = Some r.
Proof using Hmove.
  intros Ha Ha'. unfold bbp_elf64_plan_fn. destruct p as [d|]; [|done]. rewrite !(proj2 (Z.eqb_neq _ 0)) by done.
  destruct (_ <? _); [done|]. intros H. apply bind_Some in H as (f & Ef & H). apply elf_format_moves in Ef. rewrite Ef.
  cbn [mbind option_bind]. destruct f; [|done]. follow H. destruct (_ =? _); [done|]. do 3 follow H.
  destruct (_ || _ || _); [done|]. destruct (add_u64 _ _); [|done]. destruct (_ <? _); [done|].
  apply bind_Some in H as (q & Eq & H). apply plan_loop_moves in Eq. by rewrite Eq.
Qed.
End Moves.

Lemma mem_of_outside a bs x : ~ (a <= x < a + zlen bs) -> mem_of a bs !! x = None.
Proof.
  intros Hx. unfold mem_of. apply not_elem_of_list_to_map_1. rewrite fst_zip by (rewrite length_seqZ; unfold zlen; lia).
  rewrite elem_of_seqZ. lia.
Qed.

(** What the planner makes of a file alone it makes of it anywhere. *)
Lemma plan_of_bytes m a b bs size p r : a <> 0 -> b <> 0 -> bytes_at m a bs ->
  bbp_elf64_plan_fn (mem_of b bs) b size p = Some r -> bbp_elf64_plan_fn m a size p = Some r.
Proof.
  intros Ha Hb Hat. apply plan_moves; [|done|done]. intros i x H.
  assert (0 <= i < zlen bs) as Hi.
  { destruct (decide (b <= b + i < b + zlen bs)); [lia|]. by rewrite mem_of_outside in H. }
  replace i with (Z.of_nat (Z.to_nat i)) in * by lia. apply Hat.
  destruct (lookup_lt_is_Some_2 bs (Z.to_nat i)) as [y Hy]; [unfold zlen in Hi; lia|].
  pose proof (bytes_at_mem_of b bs _ _ Hy) as E. congruence.
Qed.
