(* ===== verification/UefiExit.v ===== *)
(** * Leaving boot services (bootloader/uefi/uefi_exit.c)

    The bounded ExitBootServices loop over the firmware operations the caller
    supplies.  The firmware is a parameter: a state and four functions on it
    that may answer anything.  Every call is recorded in a log, and the main
    theorem says that each run follows the protocol automaton of this file:
    which call may follow which, with which buffer and which map key. *)

From S2P Require Import Prelude.

(** ** Types *)

Definition BBP_UEFI_EXIT_DESCRIPTOR_SLACK : Z := 8.
Definition BBP_UEFI_EXIT_MAX_ATTEMPTS : nat := 8.

Inductive bbp_uefi_firmware_status :=
  | BBP_UEFI_FIRMWARE_SUCCESS
  | BBP_UEFI_FIRMWARE_BUFFER_TOO_SMALL
  | BBP_UEFI_FIRMWARE_INVALID_PARAMETER
  | BBP_UEFI_FIRMWARE_ERROR.

#[global] Instance firmware_status_eq_dec : EqDecision bbp_uefi_firmware_status.
Proof. solve_decision. Defined.

Inductive bbp_uefi_exit_status :=
  | BBP_UEFI_EXIT_OK
  | BBP_UEFI_EXIT_ERR_ARGUMENT
  | BBP_UEFI_EXIT_ERR_PROBE
  | BBP_UEFI_EXIT_ERR_OVERFLOW
  | BBP_UEFI_EXIT_ERR_ALLOCATION
  | BBP_UEFI_EXIT_ERR_MEMORY_MAP
  | BBP_UEFI_EXIT_ERR_EXIT_BOOT_SERVICES
  | BBP_UEFI_EXIT_ERR_RETRY_LIMIT.

#[global] Instance exit_status_eq_dec : EqDecision bbp_uefi_exit_status.
Proof. solve_decision. Defined.

Record bbp_uefi_exit_result := ExitResult {
  r_memory_map : Z;
  r_memory_map_size : Z;
  r_memory_map_capacity : Z;
  r_map_key : Z;
  r_descriptor_size : Z;
  r_descriptor_version : Z;
  r_memory_map_final : Z;
}.

(** The in/out arguments of [get_memory_map] besides the buffer. *)
Record map_args := MapArgs {
  map_size : Z;
  map_key : Z;
  descriptor_size : Z;
  descriptor_version : Z;
}.

Record bbp_uefi_exit_ops (F : Type) := ExitOps {
  get_memory_map : F -> Z -> map_args -> F * bbp_uefi_firmware_status * map_args;
  exit_boot_services : F -> Z -> Z -> F * bbp_uefi_firmware_status;
  allocate : F -> Z -> F * Z;
  free : F -> Z -> F;
}.
Arguments get_memory_map {F}.
Arguments exit_boot_services {F}.
Arguments allocate {F}.
Arguments free {F}.

(** ** Calls and their log *)

Inductive event :=
  | GetMap (buffer size_in : Z) (status : bbp_uefi_firmware_status) (out : map_args)
  | ExitBS (key : Z) (status : bbp_uefi_firmware_status)
  | Alloc (size pointer : Z)
  | Free (pointer : Z).

(** The firmware state and the calls made so far, oldest first. *)
Record world (F : Type) := World { fw : F; log : list event }.
Arguments World {F}.
Arguments fw {F}.
Arguments log {F}.

Section Exit.
Context {F : Type} (ops : bbp_uefi_exit_ops F).

Definition call_get_memory_map (w : world F) (buffer : Z) (a : map_args) :
    world F * bbp_uefi_firmware_status * map_args :=
  let '(f, status, a') := get_memory_map ops (fw w) buffer a in
  (World f (log w ++ [GetMap buffer (map_size a) status a']), status, a').

Definition call_exit_boot_services (w : world F) (image_handle key : Z) :
    world F * bbp_uefi_firmware_status :=
  let '(f, status) := exit_boot_services ops (fw w) image_handle key in
  (World f (log w ++ [ExitBS key status]), status).

Definition call_allocate (w : world F) (size : Z) : world F * Z :=
  let '(f, p) := allocate ops (fw w) size in (World f (log w ++ [Alloc size p]), p).

Definition call_free (w : world F) (p : Z) : world F :=
  World (free ops (fw w) p) (log w ++ [Free p]).

(** ** The source functions *)

(** [Some capacity] is a return of 1 with [*capacity] set. *)
Definition map_capacity (required descriptor_size : Z) : option Z :=
  reject (descriptor_size =? 0) ||
    (SIZE_MAX / BBP_UEFI_EXIT_DESCRIPTOR_SLACK <? descriptor_size) with None;
  let slack := descriptor_size * BBP_UEFI_EXIT_DESCRIPTOR_SLACK in
  reject SIZE_MAX - slack <? required with None;
  Some (required + slack).

(** The loop with [attempts] iterations left; the result is the status, the
    value of [*result] afterwards and the world. *)
Fixpoint exit_loop (w : world F) (image_handle memory_map capacity : Z) (a : map_args)
    (result : bbp_uefi_exit_result) (attempts : nat) :
    bbp_uefi_exit_status * bbp_uefi_exit_result * world F :=
  match attempts with
  | O => (BBP_UEFI_EXIT_ERR_RETRY_LIMIT, result, call_free w memory_map)
  | S attempts =>
      let a := MapArgs capacity (map_key a) (descriptor_size a) (descriptor_version a) in
      let '(w, status, a) := call_get_memory_map w memory_map a in
      if bool_decide (status = BBP_UEFI_FIRMWARE_BUFFER_TOO_SMALL) then
        match map_capacity (map_size a) (descriptor_size a) with
        | None => (BBP_UEFI_EXIT_ERR_OVERFLOW, result, call_free w memory_map)
        | Some larger_capacity =>
            let w := call_free w memory_map in
            let '(w, memory_map) := call_allocate w larger_capacity in
            reject memory_map =? 0 with (BBP_UEFI_EXIT_ERR_ALLOCATION, result, w);
            exit_loop w image_handle memory_map larger_capacity a result attempts
        end
      else
        reject negb (bool_decide (status = BBP_UEFI_FIRMWARE_SUCCESS)) ||
          (descriptor_size a =? 0) || (capacity <? map_size a)
          with (BBP_UEFI_EXIT_ERR_MEMORY_MAP, result, call_free w memory_map);
        let '(w, status) := call_exit_boot_services w image_handle (map_key a) in
        if bool_decide (status = BBP_UEFI_FIRMWARE_SUCCESS) then
          (BBP_UEFI_EXIT_OK,
           ExitResult memory_map (map_size a) capacity (map_key a) (descriptor_size a)
             (descriptor_version a) 1, w)
        else if negb (bool_decide (status = BBP_UEFI_FIRMWARE_INVALID_PARAMETER)) then
          (BBP_UEFI_EXIT_ERR_EXIT_BOOT_SERVICES, result, call_free w memory_map)
        else exit_loop w image_handle memory_map capacity a result attempts
  end.

Definition bbp_uefi_exit_boot_services (w : world F) (image_handle : Z)
    (result : bbp_uefi_exit_result) :
    bbp_uefi_exit_status * bbp_uefi_exit_result * world F :=
  let '(w, status, a) := call_get_memory_map w 0 (MapArgs 0 0 0 0) in
  reject negb (bool_decide (status = BBP_UEFI_FIRMWARE_BUFFER_TOO_SMALL))
    with (BBP_UEFI_EXIT_ERR_PROBE, result, w);
  match map_capacity (map_size a) (descriptor_size a) with
  | None => (BBP_UEFI_EXIT_ERR_OVERFLOW, result, w)
  | Some capacity =>
      let '(w, memory_map) := call_allocate w capacity in
      reject memory_map =? 0 with (BBP_UEFI_EXIT_ERR_ALLOCATION, result, w);
      exit_loop w image_handle memory_map capacity a result BBP_UEFI_EXIT_MAX_ATTEMPTS
  end.
End Exit.

(** With its NULL checks: a missing operation table, operation or result. *)
Definition bbp_uefi_exit_entry {F} (ops : option (bbp_uefi_exit_ops F)) (w : world F)
    (image_handle : Z) (result : option bbp_uefi_exit_result) :
    bbp_uefi_exit_status * option bbp_uefi_exit_result * world F :=
  match ops, result with
  | Some ops, Some result =>
      let '(status, result, w) := bbp_uefi_exit_boot_services ops w image_handle result in
      (status, Some result, w)
  | _, _ => (BBP_UEFI_EXIT_ERR_ARGUMENT, result, w)
  end.

(** ** The protocol *)

(** What the loader holds between two calls; [n] counts the attempts left. *)
Inductive pstate :=
  | Start                                         (* nothing asked yet *)
  | Wanting (n : nat) (cap : Z)                   (* no buffer, firmware asked for [cap] *)
  | Holding (n : nat) (p cap : Z)                 (* a buffer, no valid map *)
  | Growing (n : nat) (p cap : Z)                 (* buffer [p] too small, [cap] needed *)
  | Mapped (n : nat) (p cap : Z) (a : map_args)   (* a map in the buffer, and its key *)
  | Stale (p : Z) (s : bbp_uefi_exit_status)      (* a buffer to be given back *)
  | Exited (p cap : Z) (a : map_args)             (* boot services are gone *)
  | Failed (s : bbp_uefi_exit_status).            (* given up, no buffer *)

(** The capacity asked for after a map that did not fit: eight descriptors of
    slack, without wrapping a [size_t]. *)
Definition asks (a : map_args) (cap : Z) : Prop :=
  descriptor_size a <> 0 /\ 8 * descriptor_size a <= SIZE_MAX /\
  cap = map_size a + 8 * descriptor_size a /\ cap <= SIZE_MAX.

Inductive step : pstate -> event -> pstate -> Prop :=
  | step_probe a cap :
      asks a cap ->
      step Start (GetMap 0 0 BBP_UEFI_FIRMWARE_BUFFER_TOO_SMALL a)
        (Wanting BBP_UEFI_EXIT_MAX_ATTEMPTS cap)
  | step_probe_overflow a :
      (forall cap, ~ asks a cap) ->
      step Start (GetMap 0 0 BBP_UEFI_FIRMWARE_BUFFER_TOO_SMALL a)
        (Failed BBP_UEFI_EXIT_ERR_OVERFLOW)
  | step_probe_fails status a :
      status <> BBP_UEFI_FIRMWARE_BUFFER_TOO_SMALL ->
      step Start (GetMap 0 0 status a) (Failed BBP_UEFI_EXIT_ERR_PROBE)
  | step_alloc n cap p : p <> 0 -> step (Wanting n cap) (Alloc cap p) (Holding n p cap)
  | step_no_memory n cap :
      step (Wanting n cap) (Alloc cap 0) (Failed BBP_UEFI_EXIT_ERR_ALLOCATION)
  | step_map n p cap a :
      descriptor_size a <> 0 -> map_size a <= cap ->
      step (Holding (S n) p cap) (GetMap p cap BBP_UEFI_FIRMWARE_SUCCESS a) (Mapped n p cap a)
  | step_too_small n p cap a cap' :
      asks a cap' ->
      step (Holding (S n) p cap) (GetMap p cap BBP_UEFI_FIRMWARE_BUFFER_TOO_SMALL a)
        (Growing n p cap')
  | step_overflow n p cap a :
      (forall cap', ~ asks a cap') ->
      step (Holding (S n) p cap) (GetMap p cap BBP_UEFI_FIRMWARE_BUFFER_TOO_SMALL a)
        (Stale p BBP_UEFI_EXIT_ERR_OVERFLOW)
  | step_map_fails n p cap status a :
      status <> BBP_UEFI_FIRMWARE_BUFFER_TOO_SMALL ->
      (status = BBP_UEFI_FIRMWARE_SUCCESS -> descriptor_size a = 0 \/ cap < map_size a) ->
      step (Holding (S n) p cap) (GetMap p cap status a) (Stale p BBP_UEFI_EXIT_ERR_MEMORY_MAP)
  | step_grow n p cap : step (Growing n p cap) (Free p) (Wanting n cap)
  | step_exit n p cap a :
      step (Mapped n p cap a) (ExitBS (map_key a) BBP_UEFI_FIRMWARE_SUCCESS) (Exited p cap a)
  | step_retry n p cap a :
      step (Mapped n p cap a) (ExitBS (map_key a) BBP_UEFI_FIRMWARE_INVALID_PARAMETER)
        (Holding n p cap)
  | step_exit_fails n p cap a status :
      status <> BBP_UEFI_FIRMWARE_SUCCESS -> status <> BBP_UEFI_FIRMWARE_INVALID_PARAMETER ->
      step (Mapped n p cap a) (ExitBS (map_key a) status)
        (Stale p BBP_UEFI_EXIT_ERR_EXIT_BOOT_SERVICES)
  | step_release p s : step (Stale p s) (Free p) (Failed s)
  | step_give_up p cap :
      step (Holding 0 p cap) (Free p) (Failed BBP_UEFI_EXIT_ERR_RETRY_LIMIT).

(** A log is a run of the protocol. *)
Inductive run : pstate -> list event -> pstate -> Prop :=
  | run_nil s : run s [] s
  | run_cons s e s' es s'' : step s e s' -> run s' es s'' -> run s (e :: es) s''.

#[export] Hint Constructors step run : bbp.

(** What the caller learns in a final state. *)
Definition verdict (s : pstate) (before : bbp_uefi_exit_result) :
    option (bbp_uefi_exit_status * bbp_uefi_exit_result) :=
  match s with
  | Exited p cap a =>
      Some (BBP_UEFI_EXIT_OK,
            ExitResult p (map_size a) cap (map_key a) (descriptor_size a) (descriptor_version a) 1)
  | Failed st => Some (st, before)
  | _ => None
  end.

(** ** The code follows the protocol *)

Lemma map_capacity_asks a :
  match map_capacity (map_size a) (descriptor_size a) with
  | Some cap => asks a cap
  | None => forall cap, ~ asks a cap
  end.
Proof.
  unfold map_capacity, asks, BBP_UEFI_EXIT_DESCRIPTOR_SLACK, SIZE_MAX.
  destruct (Z.eqb_spec (descriptor_size a) 0); cbn [orb]; [intros cap (? & _); lia|].
  destruct (Z.ltb_spec ((2 ^ 64 - 1) / 8) (descriptor_size a)).
  { intros cap (_ & ? & _). change ((2 ^ 64 - 1) / 8) with 2305843009213693951 in *. lia. }
  change ((2 ^ 64 - 1) / 8) with 2305843009213693951 in *.
  destruct (Z.ltb_spec (2 ^ 64 - 1 - descriptor_size a * 8) (map_size a)); [|lia].
  intros cap (_ & _ & -> & ?). lia.
Qed.

Section Refines.
Context {F : Type} (ops : bbp_uefi_exit_ops F).

(** The log of the final world extends [l] by a run from [s] to a final
    state whose verdict is the rest of [out]. *)
Definition outcome (s : pstate) (l : list event) (before : bbp_uefi_exit_result)
    (out : bbp_uefi_exit_status * bbp_uefi_exit_result * world F) : Prop :=
  exists es s', log out.2 = l ++ es /\ run s es s' /\ verdict s' before = Some out.1.

Lemma outcome_here s f l before st r :
  verdict s before = Some (st, r) -> outcome s l before (st, r, World f l).
Proof. intros H. exists [], s. rewrite app_nil_r. eauto with bbp. Qed.

Lemma outcome_step s e s' l before out :
  step s e s' -> outcome s' (l ++ [e]) before out -> outcome s l before out.
Proof.
  intros He (es & s'' & Hl & Hr & Hv). exists (e :: es), s''. split_and!; [|eauto with bbp|done].
  by rewrite Hl, <- app_assoc.
Qed.

Lemma outcome_free p s st w before :
  step s (Free p) (Failed st) -> outcome s (log w) before (st, before, call_free ops w p).
Proof. intros He. eapply outcome_step; [done|]. by apply outcome_here. Qed.

Lemma exit_loop_outcome h n : forall w p cap a before,
  outcome (Holding n p cap) (log w) before (exit_loop ops w h p cap a before n).
Proof.
  induction n as [|n IH]; intros w p cap a0 before; cbn [exit_loop].
  { apply outcome_free. constructor. }
  unfold call_get_memory_map. destruct (get_memory_map _ _ _ _) as [[f st] a].
  cbn [map_size log fw]. case_bool_decide as Hst; subst.
  - pose proof (map_capacity_asks a) as Ha. destruct (map_capacity _ _) as [cap'|].
    + eapply outcome_step; [by apply step_too_small|].
      unfold call_free, call_allocate. cbn [fw log].
      eapply outcome_step; [apply step_grow|]. cbn [log].
      destruct (allocate _ _ _) as [f' p']. destruct (Z.eqb_spec p' 0) as [->|Hp].
      * eapply outcome_step; [apply step_no_memory|]. by apply outcome_here.
      * eapply outcome_step; [by apply step_alloc|]. apply (IH (World _ _)).
    + eapply outcome_step; [by apply step_overflow|]. apply (outcome_free _ _ _ (World _ _)). constructor.
  - destruct (negb _ || _ || _) eqn:E.
    + eapply outcome_step; [apply (step_map_fails n p cap st a); [done|]|].
      * intros ->. rewrite bool_decide_true in E by done. cbn [negb orb] in E.
        apply orb_true_iff in E as [E|E]; [apply Z.eqb_eq in E|apply Z.ltb_lt in E]; lia.
      * apply (outcome_free _ _ _ (World _ _)). constructor.
    + apply orb_false_iff in E as [E Ecap]. apply orb_false_iff in E as [E Edsz].
      apply negb_false_iff, bool_decide_eq_true in E. subst st.
      apply Z.ltb_ge in Ecap. apply Z.eqb_neq in Edsz.
      eapply outcome_step; [by apply step_map|].
      unfold call_exit_boot_services. cbn [fw]. destruct (exit_boot_services _ _ _ _) as [f' st].
      case_bool_decide as H1; [|case_bool_decide as H2; cbn [negb]]; subst.
      * eapply outcome_step; [apply step_exit|]. by apply outcome_here.
      * eapply outcome_step; [apply step_retry|]. apply (IH (World _ _)).
      * eapply outcome_step; [by apply step_exit_fails|]. apply (outcome_free _ _ _ (World _ _)). constructor.
Qed.

Lemma exit_outcome w h before :
  outcome Start (log w) before (bbp_uefi_exit_boot_services ops w h before).
Proof.
  unfold bbp_uefi_exit_boot_services, call_get_memory_map.
  destruct (get_memory_map _ _ _ _) as [[f st] a]. cbn [map_size].
  case_bool_decide as Hst; cbn [negb]; subst.
  - pose proof (map_capacity_asks a) as Ha. destruct (map_capacity _ _) as [cap'|].
    + eapply outcome_step; [by apply step_probe|]. unfold call_allocate. cbn [fw].
      destruct (allocate _ _ _) as [f' p']. destruct (Z.eqb_spec p' 0) as [->|Hp].
      * eapply outcome_step; [apply step_no_memory|]. by apply outcome_here.
      * eapply outcome_step; [by apply step_alloc|]. apply (exit_loop_outcome _ _ (World _ _)).
    + eapply outcome_step; [by apply step_probe_overflow|]. by apply outcome_here.
  - eapply outcome_step; [by apply step_probe_fails|]. by apply outcome_here.
Qed.
End Refines.

(** ** What every run of the protocol guarantees *)

Definition is_exit (e : event) : bool := match e with ExitBS _ _ => true | _ => false end.
Definition is_map (e : event) : bool := match e with GetMap _ _ _ _ => true | _ => false end.

(** The number of calls a list of events makes of one kind. *)
Definition calls (which : event -> bool) (es : list event) : nat :=
  length (List.filter which es).

(** The buffers held after the events, when only held buffers are freed. *)
Fixpoint held (es : list event) (ps : list Z) : option (list Z) :=
  match es with
  | [] => Some ps
  | Alloc _ p :: es => held es (if p =? 0 then ps else p :: ps)
  | Free p :: es =>
      match ps with
      | q :: ps => if p =? q then held es ps else None
      | [] => None
      end
  | _ :: es => held es ps
  end.

Definition attempts_left (s : pstate) : nat :=
  match s with
  | Start => 9
  | Wanting n _ | Holding n _ _ | Growing n _ _ | Mapped n _ _ _ => n
  | _ => 0
  end.

Definition exits_left (s : pstate) : nat :=
  match s with
  | Start => 8
  | Wanting n _ | Holding n _ _ | Growing n _ _ => n
  | Mapped n _ _ _ => S n
  | _ => 0
  end.

Definition buffers (s : pstate) : list Z :=
  match s with
  | Holding _ p _ | Growing _ p _ | Mapped _ p _ _ | Stale p _ | Exited p _ _ => [p]
  | _ => []
  end.

Lemma run_counts s es s' :
  run s es s' -> (calls is_map es <= attempts_left s)%nat /\ (calls is_exit es <= exits_left s)%nat.
Proof.
  induction 1 as [s|s e s' es s'' He Hr IH]; [cbn; lia|].
  destruct He; cbn in *; unfold calls, BBP_UEFI_EXIT_MAX_ATTEMPTS in *; cbn in *; lia.
Qed.

Lemma run_held s es s' : run s es s' -> held es (buffers s) = Some (buffers s').
Proof.
  induction 1 as [s|s e s' es s'' He Hr IH]; [done|].
  destruct He; cbn in *; rewrite ?Z.eqb_refl; try done.
  match goal with H : ?p <> 0 |- _ => by rewrite (proj2 (Z.eqb_neq p 0) H) end.
Qed.

(** Giving up always reports an error. *)
Definition reports_error (s : pstate) : Prop :=
  match s with Stale _ st | Failed st => st <> BBP_UEFI_EXIT_OK | _ => True end.

Lemma run_reports s es s' : run s es s' -> reports_error s -> reports_error s'.
Proof. induction 1 as [|s e s' es s'' He Hr IH]; [done|]. intros Hs. by apply IH; destruct He. Qed.

Lemma run_split es1 : forall s es2 s',
  run s (es1 ++ es2) s' -> exists s1, run s es1 s1 /\ run s1 es2 s'.
Proof.
  induction es1 as [|e es1 IH]; intros s es2 s' H; [eauto with bbp|].
  inversion H; subst. edestruct IH as (s1 & ? & ?); [done|]. eauto with bbp.
Qed.

(** A state with a map was entered by the call that produced the map. *)
Lemma run_to_mapped es s n p cap a :
  run s es (Mapped n p cap a) -> s = Mapped n p cap a \/
  exists es', es = es' ++ [GetMap p cap BBP_UEFI_FIRMWARE_SUCCESS a] /\ map_size a <= cap.
Proof.
  destruct es as [|e es _] using rev_ind; intros H; [inversion H; by left|right].
  apply run_split in H as (s1 & _ & H). inversion H as [|? ? ? ? ? He Hn]; subst.
  inversion Hn; subst. inversion He; subst. by exists es.
Qed.

(** C23: Whatever the firmware answers, the calls made by
    [bbp_uefi_exit_boot_services] are a run of the protocol from its start to a
    final state, and status and [*result] are that state's verdict: success
    with the buffer, size, key and descriptor format of the very map whose key
    was accepted, or an error with [*result] untouched. *)
Theorem exit_follows_protocol F (ops : bbp_uefi_exit_ops F) w image_handle before :
  exists es s',
    let '(status, after, w') := bbp_uefi_exit_boot_services ops w image_handle before in
    log w' = log w ++ es /\ run Start es s' /\ verdict s' before = Some (status, after).
Proof.
  destruct (exit_outcome ops w image_handle before) as (es & s' & H). exists es, s'.
  by destruct (bbp_uefi_exit_boot_services _ _ _ _) as [[st r] w'].
Qed.

(** C24: For any firmware: at most nine map requests and eight attempts to leave;
    every buffer is freed once, except that success keeps exactly the returned
    one; every ExitBootServices call comes directly after a successful map call
    into the held buffer and passes that map's key; and nothing is called after
    it succeeds. *)
Theorem exit_discipline F (ops : bbp_uefi_exit_ops F) w image_handle before :
  exists es,
    let '(status, after, w') := bbp_uefi_exit_boot_services ops w image_handle before in
    log w' = log w ++ es /\
    (calls is_map es <= 9)%nat /\ (calls is_exit es <= BBP_UEFI_EXIT_MAX_ATTEMPTS)%nat /\
    (status = BBP_UEFI_EXIT_OK -> held es [] = Some [r_memory_map after]) /\
    (status <> BBP_UEFI_EXIT_OK -> held es [] = Some [] /\ after = before) /\
    (forall es1 key answer es2, es = es1 ++ ExitBS key answer :: es2 ->
       exists es0 p cap a,
         es1 = es0 ++ [GetMap p cap BBP_UEFI_FIRMWARE_SUCCESS a] /\
         key = map_key a /\ map_size a <= cap /\ held es1 [] = Some [p] /\
         (answer = BBP_UEFI_FIRMWARE_SUCCESS -> es2 = [] /\ status = BBP_UEFI_EXIT_OK)).
Proof.
  destruct (exit_outcome ops w image_handle before) as (es & s' & Hl & Hr & Hv). exists es.
  destruct (bbp_uefi_exit_boot_services _ _ _ _) as [[st r] w']. cbn in Hl, Hv.
  pose proof (run_counts _ _ _ Hr) as [? ?]. pose proof (run_held _ _ _ Hr) as Hh. cbn in Hh.
  pose proof (run_reports _ _ _ Hr I) as Hrep.
  split_and!; [done..| | |].
  - intros ->. by destruct s'; simplify_eq/=.
  - intros Hst. by destruct s'; simplify_eq/=.
  - intros es1 key answer es2 ->. apply run_split in Hr as (s1 & H1 & H2).
    inversion H2 as [|? ? s2 ? ? He Hr2]; subst.
    assert (exists n p cap a, s1 = Mapped n p cap a /\ key = map_key a) as (n & p & cap & a & -> & ->)
      by (inversion He; subst; eauto 6).
    pose proof (run_held _ _ _ H1) as Hh1.
    apply run_to_mapped in H1 as [H1|(es0 & -> & Hs)]; [done|].
    exists es0, p, cap, a. split_and!; [done..|]. intros ->. inversion He; subst; [|done].
    inversion Hr2 as [|? ? ? ? ? Hx]; subst; [|inversion Hx]. by simplify_eq/=.
Qed.

(** ** A firmware whose map changes once *)

Module ScriptedFirmware.
(** The state counts the calls; the first exit attempt is refused. *)
Definition ops : bbp_uefi_exit_ops Z := ExitOps Z
  (fun f buffer a =>
     if buffer =? 0 then (f + 1, BBP_UEFI_FIRMWARE_BUFFER_TOO_SMALL, MapArgs 96 f 48 1)
     else (f + 1, BBP_UEFI_FIRMWARE_SUCCESS, MapArgs 144 f 48 1))
  (fun f _ key => (f + 1, if key <? 3 then BBP_UEFI_FIRMWARE_INVALID_PARAMETER
                          else BBP_UEFI_FIRMWARE_SUCCESS))
  (fun f size => (f + 1, 4096)) (fun f _ => f + 1).

Example leaves_on_second_attempt :
  let '(status, after, w) :=
    bbp_uefi_exit_boot_services ops (World 0 []) 7 (ExitResult 0 0 0 0 0 0 0) in
  status = BBP_UEFI_EXIT_OK /\ after = ExitResult 4096 144 480 4 48 1 1 /\
  calls is_exit (log w) = 2%nat.
Proof. vm_compute. done. Qed.
End ScriptedFirmware.
