(* ===== verification/Import.v ===== *)
(** * Common layer of the boot-source importers (bootloader/bbp_import.c, bbp_import.h)

    Validation of strings, addresses and framebuffers, and the exact capacity
    plan an importer completes before it makes its first builder call.  Reads
    of memory can fault ([None]); every function returns its C status. *)

From stdpp Require Import strings.
From S2P Require Import Prelude Memory Abi Builder.

(** ** Constants and types *)

Definition BBP_IMPORT_MAX_TAG_SIZE : Z := 16 * 1024 * 1024.
Definition BBP_IMPORT_MAX_PHYS : Z := Z.shiftl 1 48.
Definition BBP_IMPORT_MAX_TAGS : Z := 1024.
Definition BBP_IMPORT_MAX_ARENA : Z := 64 * 1024 * 1024 - SIZEOF_INFO.
Definition BBP_IMPORT_SIZE_MAX : Z := SIZE_MAX.
Definition BBP_IMPORT_U16_MAX : Z := UINT16_MAX.
Definition BBP_IMPORT_U32_MAX : Z := UINT32_MAX.
Definition BBP_IMPORT_U64_MAX : Z := UINT64_MAX.
Definition BBP_IMPORT_UINTPTR_MAX : Z := SIZE_MAX.

Inductive bbp_import_status :=
  | BBP_IMPORT_OK
  | BBP_IMPORT_ERR_NULL
  | BBP_IMPORT_ERR_FLAGS
  | BBP_IMPORT_ERR_BUILDER
  | BBP_IMPORT_ERR_CAPACITY
  | BBP_IMPORT_ERR_COUNT
  | BBP_IMPORT_ERR_OVERFLOW
  | BBP_IMPORT_ERR_RANGE
  | BBP_IMPORT_ERR_FRAMING
  | BBP_IMPORT_ERR_DUPLICATE
  | BBP_IMPORT_ERR_STRING
  | BBP_IMPORT_ERR_UNSUPPORTED
  | BBP_IMPORT_ERR_NON_FINAL.

#[global] Instance bbp_import_status_eq_dec : EqDecision bbp_import_status.
Proof. solve_decision. Defined.

(** The [default] arm is for values outside the enumeration. *)
Definition bbp_import_strstatus (status : bbp_import_status) : string :=
  match status with
  | BBP_IMPORT_OK => "ok"
  | BBP_IMPORT_ERR_NULL => "null input"
  | BBP_IMPORT_ERR_FLAGS => "invalid presence or option flags"
  | BBP_IMPORT_ERR_BUILDER => "invalid builder state"
  | BBP_IMPORT_ERR_CAPACITY => "insufficient builder arena"
  | BBP_IMPORT_ERR_COUNT => "count or object exceeds protocol limit"
  | BBP_IMPORT_ERR_OVERFLOW => "integer overflow"
  | BBP_IMPORT_ERR_RANGE => "invalid address or range"
  | BBP_IMPORT_ERR_FRAMING => "malformed source framing"
  | BBP_IMPORT_ERR_DUPLICATE => "duplicate singleton or identifier"
  | BBP_IMPORT_ERR_STRING => "unterminated or invalid UTF-8 string"
  | BBP_IMPORT_ERR_UNSUPPORTED => "unsupported source value"
  | BBP_IMPORT_ERR_NON_FINAL => "UEFI memory map is not final"
  end.

Definition BBP_IMPORT_HAS_HHDM : Z := Z.shiftl 1 0.
Definition BBP_IMPORT_HAS_MEMORY_MAP : Z := Z.shiftl 1 1.
Definition BBP_IMPORT_HAS_KERNEL_ADDRESS : Z := Z.shiftl 1 2.
Definition BBP_IMPORT_HAS_SMP : Z := Z.shiftl 1 3.
Definition BBP_IMPORT_HAS_CMDLINE : Z := Z.shiftl 1 4.
Definition BBP_IMPORT_HAS_FRAMEBUFFER : Z := Z.shiftl 1 5.
Definition BBP_IMPORT_HAS_ACPI : Z := Z.shiftl 1 6.
Definition BBP_IMPORT_HAS_EFI : Z := Z.shiftl 1 7.
Definition BBP_IMPORT_HAS_SMBIOS : Z := Z.shiftl 1 8.

(** A pointer and a length; the bytes include exactly one trailing NUL. *)
Record bbp_import_string := ImportString { str_data : Z; str_bytes : Z }.

Record bbp_import_framebuffer := ImportFramebuffer {
  fb_address : Z;
  fb_total_size : Z;
  fb_width : Z;
  fb_height : Z;
  fb_pitch : Z;
  fb_pixel_format : Z;
  fb_color_depth : Z;
  fb_flags : Z;
}.

Record bbp_import_acpi := ImportAcpi {
  acpi_rsdp_address : Z;
  acpi_xsdt_address : Z;
  acpi_oem_id : Z;
  acpi_acpi_version : Z;
  acpi_flags : Z;
}.

Definition BBP_ACPI_FLAG_XSDT_AVAILABLE : Z := Z.shiftl 1 0.
Definition BBP_ACPI_FLAG_SPCR_AVAILABLE : Z := Z.shiftl 1 1.

Record bbp_import_plan := ImportPlan { plan_used : Z; plan_tag_count : Z }.

(** [status = c; if (status != BBP_IMPORT_OK) return status; k], where [f]
    turns a status into the caller's result. *)
Notation "'try' c 'or' f ; k" :=
  (mbind (fun status => if bool_decide (status = BBP_IMPORT_OK) then k else f status) c)
  (at level 100, c at next level, f at next level, k at level 200,
   format "'[v' 'try'  c  'or'  f ; '/' k ']'") : bbp_scope.

(** ** Structures in memory

    The snapshots handed to the importers are C structures with natural
    alignment; they are read from memory where the code reads them. *)

Definition raw (bs : list byte) (off n : nat) : Z := le_decode (take n (drop off bs)).

Definition string_of (bs : list byte) (off : nat) : bbp_import_string :=
  ImportString (raw bs off 8) (raw bs (off + 8) 8).

Definition framebuffer_of (bs : list byte) (off : nat) : bbp_import_framebuffer :=
  ImportFramebuffer (raw bs off 8) (raw bs (off + 8) 8) (raw bs (off + 16) 4)
    (raw bs (off + 20) 4) (raw bs (off + 24) 4) (raw bs (off + 28) 4) (raw bs (off + 32) 2)
    (raw bs (off + 34) 2).

Definition acpi_of (bs : list byte) (off : nat) : bbp_import_acpi :=
  ImportAcpi (raw bs off 8) (raw bs (off + 8) 8) (raw bs (off + 16) 4) (raw bs (off + 20) 2)
    (raw bs (off + 22) 2).

Definition framebuffer_at (m : mem) (p : Z) : option bbp_import_framebuffer :=
  bs ← load_bytes m p 40; Some (framebuffer_of bs 0).
Definition acpi_at (m : mem) (p : Z) : option bbp_import_acpi :=
  bs ← load_bytes m p 24; Some (acpi_of bs 0).

(** ** Arithmetic and byte helpers *)

(** [Some out] is a return of 1 with [*out] set. *)
Definition add_size (left right : Z) : option Z :=
  reject BBP_IMPORT_SIZE_MAX - left <? right with None;
  Some (left + right).

Definition align8 (value : Z) : option Z :=
  reject BBP_IMPORT_SIZE_MAX - 7 <? value with None;
  Some (align8_up value).

Definition bbp_import_memcpy (m : mem) (destination source bytes : Z) : option mem :=
  mem_copy m destination source (Z.to_nat bytes).

Definition bbp_import_memzero (m : mem) (destination bytes : Z) : option mem :=
  mem_zero m destination (Z.to_nat bytes).

Definition bbp_import_phys_address_valid (address : Z) (allow_zero : bool) : bool :=
  (allow_zero || negb (address =? 0)) && (address <? BBP_IMPORT_MAX_PHYS).

Definition bbp_import_phys_range_valid (base length : Z) : bool :=
  negb (length =? 0) && (base <? BBP_IMPORT_MAX_PHYS)
  && (length <=? BBP_IMPORT_MAX_PHYS - base).

Definition bbp_import_ranges_overlap (left left_bytes right right_bytes : Z) : bool :=
  reject (BBP_IMPORT_UINTPTR_MAX - left <? left_bytes)
         || (BBP_IMPORT_UINTPTR_MAX - right <? right_bytes) with true;
  (left <? right + right_bytes) && (right <? left + left_bytes).

(** ** The capacity plan *)

Definition bbp_import_plan_begin (m : mem) (builder : option bbp_builder)
    (plan : option bbp_import_plan) : option (bbp_import_status * option bbp_import_plan) :=
  match builder, plan with
  | Some b, Some _ =>
      let bad := Some (BBP_IMPORT_ERR_BUILDER, plan) in
      let arena_address := arena b in
      reject (arena b =? 0) || negb (overflow b =? 0) || (capacity b <? used b)
             || (BBP_IMPORT_MAX_ARENA <? used b) || (BBP_IMPORT_MAX_TAGS <? tag_count b)
             || (arena_phys b =? 0) || negb (Z.land (arena_phys b) 7 =? 0)
             || negb (Z.land arena_address 7 =? 0)
             || (BBP_IMPORT_UINTPTR_MAX - arena_address <? capacity b) with bad;
      reject (BBP_IMPORT_MAX_PHYS <=? arena_phys b)
             || (BBP_IMPORT_MAX_PHYS - arena_phys b <? capacity b) with bad;
      let done := Some (BBP_IMPORT_OK, Some (ImportPlan (used b) (tag_count b))) in
      if tag_count b =? 0 then
        reject negb (last b =? 0) || negb (first_phys b =? 0) with bad;
        done
      else
        reject (last b =? 0) || (first_phys b =? 0) || negb (Z.land (first_phys b) 7 =? 0)
               || (first_phys b <? arena_phys b)
               || (used b <=? first_phys b - arena_phys b)
               || (last b <? arena_address) || negb (Z.land (last b) 7 =? 0)
               || (used b <? last b - arena_address)
               || (used b - (last b - arena_address) <? SIZEOF_TAG_HEADER) with bad;
        next_tag ← load64 m (last b + 16);
        reject negb (next_tag =? 0) with bad;
        done
  | _, _ => Some (BBP_IMPORT_ERR_NULL, plan)
  end.

Definition plan_allocation (b : bbp_builder) (plan : bbp_import_plan) (bytes : Z) :
    bbp_import_status * bbp_import_plan :=
  match align8 (plan_used plan) with
  | None => (BBP_IMPORT_ERR_OVERFLOW, plan)
  | Some start =>
      match add_size start bytes with
      | None => (BBP_IMPORT_ERR_OVERFLOW, plan)
      | Some end_ =>
          reject (capacity b <? end_) || (BBP_IMPORT_MAX_ARENA <? end_)
            with (BBP_IMPORT_ERR_CAPACITY, plan);
          reject BBP_IMPORT_U64_MAX - arena_phys b <? end_ with (BBP_IMPORT_ERR_OVERFLOW, plan);
          (BBP_IMPORT_OK, ImportPlan end_ (plan_tag_count plan))
      end
  end.

Definition bbp_import_plan_tag (b : bbp_builder) (plan : bbp_import_plan) (bytes : Z) :
    bbp_import_status * bbp_import_plan :=
  reject (bytes <? SIZEOF_TAG_HEADER) || (BBP_IMPORT_MAX_TAG_SIZE <? bytes)
         || (BBP_IMPORT_U32_MAX <? bytes) with (BBP_IMPORT_ERR_COUNT, plan);
  reject BBP_IMPORT_MAX_TAGS <=? plan_tag_count plan with (BBP_IMPORT_ERR_COUNT, plan);
  let '(status, plan) := plan_allocation b plan bytes in
  if bool_decide (status = BBP_IMPORT_OK) then
    (status, ImportPlan (plan_used plan) (wrap32 (plan_tag_count plan + 1)))
  else (status, plan).

Definition bbp_import_plan_blob (b : bbp_builder) (plan : bbp_import_plan) (bytes : Z) :
    bbp_import_status * bbp_import_plan :=
  reject bytes =? 0 with (BBP_IMPORT_ERR_RANGE, plan);
  plan_allocation b plan bytes.

(** The status and the value of [*out]; a NULL [out] is [None]. *)
Definition bbp_import_array_tag_size (fixed count element : Z) (out : option Z) :
    bbp_import_status * option Z :=
  match out with
  | None => (BBP_IMPORT_ERR_NULL, None)
  | Some _ =>
      reject (BBP_IMPORT_U32_MAX <? count) || (element =? 0) with (BBP_IMPORT_ERR_COUNT, out);
      reject BBP_IMPORT_SIZE_MAX <? count with (BBP_IMPORT_ERR_COUNT, out);
      reject (BBP_IMPORT_SIZE_MAX - fixed) / element <? count with (BBP_IMPORT_ERR_OVERFLOW, out);
      let payload := count * element in
      let total := fixed + payload in
      reject (BBP_IMPORT_MAX_TAG_SIZE <? total) || (BBP_IMPORT_U32_MAX <? total)
        with (BBP_IMPORT_ERR_COUNT, Some total);
      (BBP_IMPORT_OK, Some total)
  end.

(** ** Strings *)

Definition utf8_cont (byte : Z) : bool := Z.land byte 0xc0 =? 0x80.

(** A read that C evaluates only when the condition before it held. *)
Definition and_then (c : bool) (rest : option bool) : option bool :=
  if c then rest else Some false.

Definition byte_in (m : mem) (p lo hi : Z) : option bool :=
  b ← m !! p; Some ((lo <=? byte_Z b) && (byte_Z b <=? hi)).
Definition cont_at (m : mem) (p : Z) : option bool :=
  b ← m !! p; Some (utf8_cont (byte_Z b)).

(** The length of the well-formed sequence at [text], 0 if there is none. *)
Definition utf8_sequence (m : mem) (text remaining : Z) : option Z :=
  reject remaining =? 0 with Some 0;
  a ← m !! text;
  let a := byte_Z a in
  reject a <? 0x80 with Some (if a =? 0 then 0 else 1);
  two ← and_then ((0xc2 <=? a) && (a <=? 0xdf) && (2 <=? remaining)) (cont_at m (text + 1));
  reject (two : bool) with Some 2;
  e0 ← and_then ((a =? 0xe0) && (3 <=? remaining))
         (x ← byte_in m (text + 1) 0xa0 0xbf; and_then x (cont_at m (text + 2)));
  reject (e0 : bool) with Some 3;
  e1 ← and_then (((0xe1 <=? a) && (a <=? 0xec) || (0xee <=? a) && (a <=? 0xef)) && (3 <=? remaining))
         (x ← cont_at m (text + 1); and_then x (cont_at m (text + 2)));
  reject (e1 : bool) with Some 3;
  ed ← and_then ((a =? 0xed) && (3 <=? remaining))
         (x ← byte_in m (text + 1) 0x80 0x9f; and_then x (cont_at m (text + 2)));
  reject (ed : bool) with Some 3;
  f0 ← and_then ((a =? 0xf0) && (4 <=? remaining))
         (x ← byte_in m (text + 1) 0x90 0xbf; and_then x
         (y ← cont_at m (text + 2); and_then y (cont_at m (text + 3))));
  reject (f0 : bool) with Some 4;
  f1 ← and_then ((0xf1 <=? a) && (a <=? 0xf3) && (4 <=? remaining))
         (x ← cont_at m (text + 1); and_then x
         (y ← cont_at m (text + 2); and_then y (cont_at m (text + 3))));
  reject (f1 : bool) with Some 4;
  f4 ← and_then ((a =? 0xf4) && (4 <=? remaining))
         (x ← byte_in m (text + 1) 0x80 0x8f; and_then x
         (y ← cont_at m (text + 2); and_then y (cont_at m (text + 3))));
  reject (f4 : bool) with Some 4;
  Some 0.

(** [while (offset < content) ...]; every iteration advances by at least one
    byte, so [content] iterations are enough. *)
Fixpoint validate_loop (m : mem) (data content offset : Z) (fuel : nat) :
    option bbp_import_status :=
  check offset <? content else Some BBP_IMPORT_OK;
  match fuel with
  | O => None
  | S fuel =>
      sequence ← utf8_sequence m (data + offset) (content - offset);
      reject sequence =? 0 with Some BBP_IMPORT_ERR_STRING;
      validate_loop m data content (offset + sequence) fuel
  end.

Definition bbp_import_validate_string (m : mem) (string : bbp_import_string) :
    option bbp_import_status :=
  reject (str_data string =? 0) || (str_bytes string =? 0) with Some BBP_IMPORT_ERR_STRING;
  reject BBP_IMPORT_U32_MAX <? str_bytes string with Some BBP_IMPORT_ERR_COUNT;
  terminator ← m !! (str_data string + (str_bytes string - 1));
  reject negb (byte_Z terminator =? 0) with Some BBP_IMPORT_ERR_STRING;
  let content := str_bytes string - 1 in
  validate_loop m (str_data string) content 0 (Z.to_nat content).

Fixpoint prefix_loop (m : mem) (text bytes limit offset : Z) (fuel : nat) : option Z :=
  check offset <? bytes else Some offset;
  match fuel with
  | O => None
  | S fuel =>
      sequence ← utf8_sequence m (text + offset) (bytes - offset);
      reject (sequence =? 0) || (wrap64 (limit - offset) <? sequence) with Some offset;
      prefix_loop m text bytes limit (offset + sequence) fuel
  end.

Definition bbp_import_utf8_prefix (m : mem) (text bytes limit : Z) : option Z :=
  prefix_loop m text bytes limit 0 (Z.to_nat bytes).

(** ** Framebuffers *)

(** The [switch] on the pixel format: bytes per pixel, or an early return. *)
Definition pixel_bytes (fb : bbp_import_framebuffer) : option Z :=
  let want depth bytes := if fb_color_depth fb =? depth then Some bytes else None in
  if fb_pixel_format fb =? BBP_FB_RGB888 then want 8 3
  else if (fb_pixel_format fb =? BBP_FB_RGBA8888) || (fb_pixel_format fb =? BBP_FB_BGRA8888)
  then want 8 4
  else if fb_pixel_format fb =? BBP_FB_RGB565 then want 5 2
  else if fb_pixel_format fb =? BBP_FB_RGBA1010102 then want 10 4
  else if fb_pixel_format fb =? BBP_FB_RGBX_FP16 then want 16 8
  else None.

Definition bbp_import_validate_framebuffer (framebuffer : option bbp_import_framebuffer) :
    bbp_import_status :=
  match framebuffer with
  | None => BBP_IMPORT_ERR_NULL
  | Some fb =>
      match pixel_bytes fb with
      | None => BBP_IMPORT_ERR_UNSUPPORTED
      | Some bytes_per_pixel =>
          reject (fb_width fb =? 0) || (BBP_IMPORT_U16_MAX <? fb_width fb)
                 || (fb_height fb =? 0) || (BBP_IMPORT_U16_MAX <? fb_height fb)
            with BBP_IMPORT_ERR_RANGE;
          let row_bytes := wrap64 (fb_width fb * bytes_per_pixel) in
          reject fb_pitch fb <? row_bytes with BBP_IMPORT_ERR_RANGE;
          let required := wrap64 (fb_pitch fb * fb_height fb) in
          reject (fb_total_size fb <? required)
                 || negb (bbp_import_phys_range_valid (fb_address fb) (fb_total_size fb))
            with BBP_IMPORT_ERR_RANGE;
          let rotations := Z.lor (Z.lor BBP_FB_FLAG_ROTATED_90 BBP_FB_FLAG_ROTATED_180)
                             BBP_FB_FLAG_ROTATED_270 in
          reject negb (Z.land (fb_flags fb)
                    (wrap32 (Z.lnot (Z.lor BBP_FB_FLAG_DOUBLE_BUFFERED rotations))) =? 0)
            with BBP_IMPORT_ERR_FLAGS;
          let rotation := Z.land (fb_flags fb) rotations in
          reject negb (rotation =? 0) && negb (Z.land rotation (wrap16 (rotation - 1)) =? 0)
            with BBP_IMPORT_ERR_FLAGS;
          BBP_IMPORT_OK
      end
  end.

(** ** Presence flags and plans in sequence *)

Definition has (present flag : Z) : bool := negb (Z.land present flag =? 0).

(** [if (cond) { status = ...; if (status != BBP_IMPORT_OK) return status; }] *)
Definition plan_if (cond : bool)
    (P : bbp_import_plan -> bbp_import_status * bbp_import_plan) (plan : bbp_import_plan) :
    bbp_import_status * bbp_import_plan :=
  if cond then P plan else (BBP_IMPORT_OK, plan).
Definition plan_then (P Q : bbp_import_plan -> bbp_import_status * bbp_import_plan)
    (plan : bbp_import_plan) : bbp_import_status * bbp_import_plan :=
  let '(status, plan) := P plan in
  if bool_decide (status = BBP_IMPORT_OK) then Q plan else (status, plan).
Notation "P >>> Q" := (plan_then P Q) (at level 100, right associativity) : bbp_scope.

(** ** Emission

    An emitter changes the memory and the builder; [None] is a fault. *)

Definition emitter : Type := mem -> bbp_builder -> option (mem * bbp_builder).

(** Two statements in a row, and a guarded one. *)
Definition emit_seq (E1 E2 : emitter) : emitter :=
  fun m b => '(m, b) ← E1 m b; E2 m b.
Definition emit_when (c : bool) (E : emitter) : emitter :=
  fun m b => if c then E m b else Some (m, b).
Notation "E1 ;;; E2" := (emit_seq E1 E2) (at level 100, right associativity) : bbp_scope.

(** [tag = bbp_alloc_tag(builder, id, 1, size)] followed by the clearing of
    everything after the header; writing through NULL is a fault. *)
Definition new_tag (m : mem) (b : bbp_builder) (id size : Z) : option (mem * bbp_builder * Z) :=
  '(m, b, tag) ← bbp_alloc_tag m (Some b) id 1 size;
  match b with
  | None => None
  | Some b =>
      reject tag =? 0 with None;
      m ← bbp_import_memzero m (tag + SIZEOF_TAG_HEADER) (size - SIZEOF_TAG_HEADER);
      Some (m, b, tag)
  end.

(** [phys = bbp_arena_blob(builder, data, len)] *)
Definition new_blob (m : mem) (b : bbp_builder) (data len : Z) : option (mem * bbp_builder * Z) :=
  '(m, b, phys) ← bbp_arena_blob m (Some b) data len;
  match b with None => None | Some b => Some (m, b, phys) end.

(** The emission of one tag whose body [W] writes, given the tag's address. *)
Definition emit_tag (id size : Z) (W : mem -> Z -> option mem) : emitter :=
  fun m b =>
    '(m, b, tag) ← new_tag m b id size;
    m ← W m tag;
    Some (m, b).

(** The same with a blob first, whose physical address [W] receives. *)
Definition emit_blob_tag (data len id size : Z) (W : Z -> mem -> Z -> option mem) : emitter :=
  fun m b =>
    '(m, b, phys) ← new_blob m b data len;
    emit_tag id size (W phys) m b.
