(* ===== verification/ImportFacts.v ===== *)
(** * Facts about the importers' common layer

    String validation accepts exactly the NUL-terminated UTF-8 encodings of
    sequences of non-zero Unicode scalar values; framebuffer validation bounds
    every pixel; the capacity plan predicts the builder exactly. *)

From S2P Require Import Prelude Memory Abi Builder BuilderFacts Import.

Ltac iconsts :=
  unfold BBP_IMPORT_MAX_TAG_SIZE, BBP_IMPORT_MAX_PHYS, BBP_IMPORT_MAX_TAGS,
    BBP_IMPORT_MAX_ARENA, BBP_IMPORT_SIZE_MAX, BBP_IMPORT_U16_MAX, BBP_IMPORT_U32_MAX,
    BBP_IMPORT_U64_MAX, BBP_IMPORT_UINTPTR_MAX, SIZE_MAX, UINT16_MAX, UINT32_MAX,
    UINT64_MAX, SIZEOF_INFO, SIZEOF_TAG_HEADER in *;
  change (Z.shiftl 1 48) with (2 ^ 48) in *.

(** ** UTF-8 *)

(** The Unicode scalar values a boot string may hold: not NUL, no surrogates. *)
Definition scalar (c : Z) : Prop := 0 < c <= 0x10ffff /\ ~ (0xd800 <= c <= 0xdfff).

(** The UTF-8 encoding form of the Unicode standard. *)
Definition utf8_encode (c : Z) : list byte :=
  if c <? 0x80 then [Z_byte c]
  else if c <? 0x800 then [Z_byte (0xc0 + c / 64); Z_byte (0x80 + c mod 64)]
  else if c <? 0x10000 then
    [Z_byte (0xe0 + c / 4096); Z_byte (0x80 + c / 64 mod 64); Z_byte (0x80 + c mod 64)]
  else
    [Z_byte (0xf0 + c / 262144); Z_byte (0x80 + c / 4096 mod 64);
     Z_byte (0x80 + c / 64 mod 64); Z_byte (0x80 + c mod 64)].

(** The sequence test on a list of bytes, without the reads. *)
Definition byte_at (bs : list byte) (i : nat) : Z := byte_Z (nth i bs x00).
Definition within (bs : list byte) (i : nat) (lo hi : Z) : bool :=
  (lo <=? byte_at bs i) && (byte_at bs i <=? hi).

Definition seq_len (bs : list byte) : Z :=
  let n := zlen bs in
  let a := byte_at bs 0 in
  let cont i := within bs i 0x80 0xbf in
  if n =? 0 then 0
  else if a <? 0x80 then (if a =? 0 then 0 else 1)
  else if (0xc2 <=? a) && (a <=? 0xdf) && (2 <=? n) && cont 1%nat then 2
  else if (a =? 0xe0) && (3 <=? n) && within bs 1 0xa0 0xbf && cont 2%nat then 3
  else if ((0xe1 <=? a) && (a <=? 0xec) || (0xee <=? a) && (a <=? 0xef)) && (3 <=? n)
          && cont 1%nat && cont 2%nat then 3
  else if (a =? 0xed) && (3 <=? n) && within bs 1 0x80 0x9f && cont 2%nat then 3
  else if (a =? 0xf0) && (4 <=? n) && within bs 1 0x90 0xbf && cont 2%nat && cont 3%nat then 4
  else if (0xf1 <=? a) && (a <=? 0xf3) && (4 <=? n) && cont 1%nat && cont 2%nat && cont 3%nat then 4
  else if (a =? 0xf4) && (4 <=? n) && within bs 1 0x80 0x8f && cont 2%nat && cont 3%nat then 4
  else 0.

Lemma utf8_cont_range b : utf8_cont (byte_Z b) = (0x80 <=? byte_Z b) && (byte_Z b <=? 0xbf).
Proof. by destruct b. Qed.

#[local] Ltac side := try done; intros; bool_to_prop; lia.
#[local] Ltac next_case :=
  cbn [mbind option_bind];
  match goal with |- (if ?c then _ else _) = _ => destruct c; [done|] end.

Section Reads.
Context (m : mem) (text : Z) (bs : list byte) (Hat : bytes_at m text bs).

Lemma read_byte_at p i :
  p = text + Z.of_nat i -> Z.of_nat i < zlen bs ->
  exists b, m !! p = Some b /\ byte_at bs i = byte_Z b.
Proof.
  intros -> Hi. destruct (lookup_lt_is_Some_2 bs i) as [b Hb]; [unfold zlen in Hi; lia|].
  exists b. split; [by apply Hat|]. unfold byte_at. by rewrite (nth_lookup_Some _ _ _ _ Hb).
Qed.

Lemma byte_in_read c p i lo hi :
  p = text + Z.of_nat i -> (c = true -> Z.of_nat i < zlen bs) ->
  and_then c (byte_in m p lo hi) = Some (c && within bs i lo hi).
Proof.
  intros Hp Hc. destruct c; [|done]. destruct (read_byte_at p i Hp) as (b & Hb & Hi); [auto|].
  cbn [and_then andb]. unfold byte_in, within. rewrite Hb, Hi. reflexivity.
Qed.

Lemma cont_at_read c p i :
  p = text + Z.of_nat i -> (c = true -> Z.of_nat i < zlen bs) ->
  and_then c (cont_at m p) = Some (c && within bs i 0x80 0xbf).
Proof.
  intros Hp Hc. rewrite <- (byte_in_read c p i) by done. f_equal. unfold cont_at, byte_in.
  destruct (m !! p); [|done]. cbn. by rewrite utf8_cont_range.
Qed.

(** Two and three reads in a row. *)
Lemma pair_read c e w p :
  and_then c e = Some (c && w) -> p = text + 2 -> (c = true -> 2 < zlen bs) ->
  and_then c (x ← e; and_then x (cont_at m p)) = Some (c && w && within bs 2 0x80 0xbf).
Proof.
  intros He -> Hc. destruct c; [|done]. cbn in He. rewrite He. cbn [mbind option_bind and_then andb].
  apply (cont_at_read w _ 2); [done|auto].
Qed.

Lemma triple_read c e w p q :
  and_then c e = Some (c && w) -> p = text + 2 -> q = text + 3 -> (c = true -> 3 < zlen bs) ->
  and_then c (x ← e; and_then x (y ← cont_at m p; and_then y (cont_at m q))) =
  Some (c && w && within bs 2 0x80 0xbf && within bs 3 0x80 0xbf).
Proof.
  intros He -> -> Hc. destruct c; [|done]. cbn in He. rewrite He.
  cbn [mbind option_bind and_then andb]. destruct w; [|done]. cbn [and_then].
  specialize (Hc eq_refl). pose proof (cont_at_read true (text + 2) 2 eq_refl) as H2.
  cbn [and_then andb] in *. rewrite H2 by lia. cbn [mbind option_bind].
  apply (cont_at_read _ _ 3); [done|lia].
Qed.

Lemma utf8_sequence_seq : utf8_sequence m text (zlen bs) = Some (seq_len bs).
Proof.
  unfold utf8_sequence, seq_len. destruct (Z.eqb_spec (zlen bs) 0); [done|].
  destruct (read_byte_at text 0) as (b & Hb & Hi); [lia|unfold zlen in *; lia|].
  rewrite Hb, Hi. cbn [mbind option_bind]. destruct (byte_Z b <? 128); [done|].
  rewrite (cont_at_read _ _ 1) by side. next_case.
  rewrite (pair_read _ (byte_in m (text + 1) 0xa0 0xbf) (within bs 1 0xa0 0xbf)) by (try apply byte_in_read; side). next_case.
  rewrite (pair_read _ (cont_at m (text + 1)) (within bs 1 0x80 0xbf)) by (try apply cont_at_read; side). next_case.
  rewrite (pair_read _ (byte_in m (text + 1) 0x80 0x9f) (within bs 1 0x80 0x9f)) by (try apply byte_in_read; side). next_case.
  rewrite (triple_read _ (byte_in m (text + 1) 0x90 0xbf) (within bs 1 0x90 0xbf)) by (try apply byte_in_read; side). next_case.
  rewrite (triple_read _ (cont_at m (text + 1)) (within bs 1 0x80 0xbf)) by (try apply cont_at_read; side). next_case.
  rewrite (triple_read _ (byte_in m (text + 1) 0x80 0x8f) (within bs 1 0x80 0x8f)) by (try apply byte_in_read; side). next_case.
  done.
Qed.
End Reads.

(** Guards as propositions, one goal per way they can hold. *)
Ltac bool_cases :=
  repeat (bool_to_prop; match goal with H : _ \/ _ |- _ => destruct H end); bool_to_prop.

(** Decide a chain of guards one by one: a guard that must fail is dropped. *)
#[local] Ltac decide_chain :=
  repeat match goal with
  | |- (if ?c then _ else _) = _ =>
      let Q := fresh in
      destruct c eqn:Q; [bool_to_prop; try lia | try (exfalso; bool_cases; lia); clear Q]
  end; try lia.

(** Base-64 digits of a code point. *)
Lemma digits64 w x y z :
  0 <= w -> 0 <= x < 64 -> 0 <= y < 64 -> 0 <= z < 64 ->
  let c := ((w * 64 + x) * 64 + y) * 64 + z in
  c mod 64 = z /\ c / 64 = (w * 64 + x) * 64 + y /\ c / 64 mod 64 = y /\
  c / 4096 = w * 64 + x /\ c / 4096 mod 64 = x /\ c / 262144 = w.
Proof. intros. subst c. Z.to_euclidean_division_equations. lia. Qed.

Lemma digits64_of c :
  0 <= c -> exists w x y z, 0 <= w /\ 0 <= x < 64 /\ 0 <= y < 64 /\ 0 <= z < 64 /\
    c = ((w * 64 + x) * 64 + y) * 64 + z.
Proof.
  intros. exists (c / 262144), (c / 4096 mod 64), (c / 64 mod 64), (c mod 64).
  Z.to_euclidean_division_equations. lia.
Qed.

Lemma byte_Z_small z : 0 <= z < 256 -> byte_Z (Z_byte z) = z.
Proof. intros. rewrite byte_Z_of. by apply Z.mod_small. Qed.

(** The test finds every encoded scalar value ... *)
Lemma seq_len_encode c rest :
  scalar c -> seq_len (utf8_encode c ++ rest) = zlen (utf8_encode c).
Proof.
  intros [Hc Hs]. destruct (digits64_of c) as (w & x & y & z & Hw & Hx & Hy & Hz & E); [lia|].
  destruct (digits64 w x y z Hw Hx Hy Hz) as (D1 & D2 & D3 & D4 & D5 & D6).
  rewrite <- E in *. unfold utf8_encode.
  assert (0 <= zlen rest) by (unfold zlen; lia).
  assert (x = 0 \/ 1 <= x <= 12 \/ x = 13 \/ 14 <= x) as Hx3 by lia.
  assert (w = 0 \/ 1 <= w <= 3 \/ 4 <= w) as Hw4 by lia.
  destruct (Z.ltb_spec c 0x80); [|destruct (Z.ltb_spec c 0x800);
    [|destruct (Z.ltb_spec c 0x10000); [destruct Hx3 as [|[|[|]]]|destruct Hw4 as [|[|]]]]];
    rewrite ?D1, ?D3, ?D5, ?D2, ?D4, ?D6; unfold seq_len, within, byte_at; cbn [app nth];
    unfold zlen in *; cbn [length app]; rewrite !byte_Z_small by lia; decide_chain.
Qed.

(** The code points behind two, three and four bytes. *)
Lemma Z_byte_eq z b : z = byte_Z b -> Z_byte z = b.
Proof. intros ->. apply Z_byte_of. Qed.

Lemma decode2 a b :
  0xc2 <= byte_Z a <= 0xdf -> 0x80 <= byte_Z b <= 0xbf ->
  exists c, scalar c /\ utf8_encode c = [a; b].
Proof.
  intros Ha Hb. destruct (digits64 0 0 (byte_Z a - 0xc0) (byte_Z b - 0x80)) as (D1 & D2 & _); [lia..|].
  eexists. split; [|unfold utf8_encode; rewrite D1, D2]; [unfold scalar; lia|].
  rewrite (proj2 (Z.ltb_ge _ _)), (proj2 (Z.ltb_lt _ _)) by lia.
  by rewrite (Z_byte_eq _ a), (Z_byte_eq _ b) by lia.
Qed.

Lemma decode3 a b c :
  0xe0 <= byte_Z a <= 0xef -> 0x80 <= byte_Z b <= 0xbf -> 0x80 <= byte_Z c <= 0xbf ->
  (byte_Z a = 0xe0 -> 0xa0 <= byte_Z b) -> (byte_Z a = 0xed -> byte_Z b <= 0x9f) ->
  exists u, scalar u /\ utf8_encode u = [a; b; c].
Proof.
  intros Ha Hb Hc H1 H2.
  destruct (digits64 0 (byte_Z a - 0xe0) (byte_Z b - 0x80) (byte_Z c - 0x80))
    as (D1 & D2 & D3 & D4 & _); [lia..|].
  eexists. split; [|unfold utf8_encode; rewrite D1, D3, D4]; [unfold scalar; lia|].
  rewrite !(proj2 (Z.ltb_ge _ _)), (proj2 (Z.ltb_lt _ 65536)) by lia.
  by rewrite (Z_byte_eq _ a), (Z_byte_eq _ b), (Z_byte_eq _ c) by lia.
Qed.

Lemma decode4 a b c d :
  0xf0 <= byte_Z a <= 0xf4 -> 0x80 <= byte_Z b <= 0xbf -> 0x80 <= byte_Z c <= 0xbf ->
  0x80 <= byte_Z d <= 0xbf ->
  (byte_Z a = 0xf0 -> 0x90 <= byte_Z b) -> (byte_Z a = 0xf4 -> byte_Z b <= 0x8f) ->
  exists u, scalar u /\ utf8_encode u = [a; b; c; d].
Proof.
  intros Ha Hb Hc Hd H1 H2.
  destruct (digits64 (byte_Z a - 0xf0) (byte_Z b - 0x80) (byte_Z c - 0x80) (byte_Z d - 0x80))
    as (D1 & D2 & D3 & D4 & D5 & D6); [lia..|].
  eexists. split; [|unfold utf8_encode; rewrite D1, D3, D5, D6]; [unfold scalar; lia|].
  rewrite !(proj2 (Z.ltb_ge _ _)) by lia.
  by rewrite (Z_byte_eq _ a), (Z_byte_eq _ b), (Z_byte_eq _ c), (Z_byte_eq _ d) by lia.
Qed.

(** ... and nothing else. *)
Lemma seq_len_decode bs :
  seq_len bs <> 0 ->
  exists c rest, scalar c /\ bs = utf8_encode c ++ rest /\ seq_len bs = zlen (utf8_encode c).
Proof.
  intros Hn. assert (exists c rest, scalar c /\ bs = utf8_encode c ++ rest) as (c & rest & Hc & ->).
  2: { exists c, rest. by rewrite seq_len_encode. }
  assert (forall pre rest, (exists c, scalar c /\ utf8_encode c = pre) -> bs = pre ++ rest ->
    exists c rest, scalar c /\ bs = utf8_encode c ++ rest) as K.
  { intros pre rest (c & Hc & <-) ->. eauto. }
  revert Hn. unfold seq_len, within.
  assert (forall k, Z.of_nat k <= zlen bs -> (k <= length bs)%nat) as Hlen by (unfold zlen; lia).
  destruct (Z.eqb_spec (zlen bs) 0); [done|].
  destruct (Z.ltb_spec (byte_at bs 0) 128).
  { destruct (Z.eqb_spec (byte_at bs 0) 0); [done|]. intros _.
    destruct bs as [|a bs]; [done|]. unfold byte_at in *. cbn [nth] in *.
    apply (K [a] bs); [|done]. exists (byte_Z a). pose proof (byte_Z_range a).
    split; [unfold scalar; lia|]. unfold utf8_encode.
    by rewrite (proj2 (Z.ltb_lt _ _)), Z_byte_of by lia. }
  repeat match goal with
  | |- (if ?g then _ else _) <> 0 -> _ => let Q := fresh in destruct g eqn:Q; [|clear Q]
  end; try done; intros _; bool_cases;
  destruct bs as [|a [|b [|c [|d bs]]]];
    try (exfalso; unfold zlen in *; cbn [length] in *; lia);
    unfold byte_at in *; cbn [nth] in *;
  first [ eapply K; [apply (decode2 a b); lia|reflexivity]
        | eapply K; [apply (decode3 a b c); lia|reflexivity]
        | eapply K; [apply (decode4 a b c d); lia|reflexivity] ].
Qed.

(** ** Whole strings *)

(** The encoding of a sequence of scalar values. *)
Definition utf8_text (bs : list byte) : Prop :=
  exists cs, Forall scalar cs /\ bs = concat (map utf8_encode cs).

Lemma encode_length c : 1 <= zlen (utf8_encode c) <= 4.
Proof. unfold utf8_encode. repeat case_match; unfold zlen; cbn [length]; lia. Qed.

Lemma utf8_text_cons c rest : scalar c -> utf8_text (utf8_encode c ++ rest) <-> utf8_text rest.
Proof.
  intros Hc. split.
  - intros ([|c' cs] & Hcs & E).
    { apply (f_equal zlen) in E. unfold zlen in E. rewrite length_app in E. cbn in E.
      pose proof (encode_length c). unfold zlen in *. lia. }
    cbn [map concat] in E. apply Forall_cons in Hcs as [Hc' Hcs].
    pose proof (f_equal seq_len E) as El. rewrite !seq_len_encode in El by done.
    apply app_inj_1 in E as [_ ->]; [|unfold zlen in El; lia]. by exists cs.
  - intros (cs & Hcs & ->). exists (c :: cs). split; [by constructor|done].
Qed.

Lemma utf8_text_stuck bs : bs <> [] -> seq_len bs = 0 -> ~ utf8_text bs.
Proof.
  intros Hne H0 ([|c cs] & Hcs & ->); [done|]. apply Forall_cons in Hcs as [Hc _].
  cbn [map concat] in H0. rewrite seq_len_encode in H0 by done. pose proof (encode_length c). lia.
Qed.

Lemma validate_loop_spec m data fuel : forall bs offset,
  bytes_at m (data + offset) bs -> (length bs <= fuel)%nat ->
  exists st, validate_loop m data (offset + zlen bs) offset fuel = Some st /\
    ((st = BBP_IMPORT_OK /\ utf8_text bs) \/ (st = BBP_IMPORT_ERR_STRING /\ ~ utf8_text bs)).
Proof.
  induction fuel as [|fuel IH]; intros bs offset Hat Hf.
  { destruct bs; [|cbn in Hf; lia]. exists BBP_IMPORT_OK. cbn [validate_loop].
    rewrite (proj2 (Z.ltb_ge _ _)) by (unfold zlen; cbn; lia).
    split; [done|left; split; [done|by exists []]]. }
  cbn [validate_loop]. destruct (Z.ltb_spec offset (offset + zlen bs)) as [Hlt|Hge].
  2: { destruct bs; [|unfold zlen in Hge; cbn [length] in Hge; lia].
       eexists. split; [done|]. left. split; [done|by exists []]. }
  replace (offset + zlen bs - offset) with (zlen bs) by lia.
  rewrite (utf8_sequence_seq _ _ _ Hat). cbn [mbind option_bind].
  destruct (Z.eqb_spec (seq_len bs) 0) as [H0|H0].
  { eexists. split; [done|]. right. split; [done|]. apply utf8_text_stuck; [|done].
    intros ->. unfold zlen in Hlt. cbn in Hlt. lia. }
  destruct (seq_len_decode bs H0) as (c & rest & Hc & -> & ->).
  pose proof (encode_length c). apply bytes_at_app in Hat as [_ Hat].
  destruct (IH rest (offset + zlen (utf8_encode c))) as (st & Hst & Hor).
  { by rewrite Z.add_assoc. }
  { rewrite length_app in Hf. unfold zlen in *. lia. }
  exists st. rewrite (utf8_text_cons c rest Hc). split; [|done].
  rewrite <- Hst. f_equal. unfold zlen. rewrite length_app. lia.
Qed.

Lemma bbp_import_validate_string_spec m data bs :
  bytes_at m data bs -> data <> 0 ->
  exists st, bbp_import_validate_string m (ImportString data (zlen bs)) = Some st /\
    ((st = BBP_IMPORT_OK /\ zlen bs <= UINT32_MAX /\ exists text, utf8_text text /\ bs = text ++ [x00]) \/
     (st = BBP_IMPORT_ERR_COUNT /\ UINT32_MAX < zlen bs) \/
     (st = BBP_IMPORT_ERR_STRING /\ zlen bs <= UINT32_MAX /\
      forall text, bs = text ++ [x00] -> ~ utf8_text text)).
Proof.
  intros Hat Hd. unfold bbp_import_validate_string. cbn [str_data str_bytes].
  rewrite (proj2 (Z.eqb_neq data 0) Hd). cbn [orb].
  destruct (Z.eqb_spec (zlen bs) 0) as [Hz|Hz].
  { eexists. split; [done|]. do 2 right. split_and!; [done|iconsts; lia|].
    intros text -> _. unfold zlen in Hz. rewrite length_app in Hz. cbn in Hz. lia. }
  destruct (Z.ltb_spec BBP_IMPORT_U32_MAX (zlen bs)) as [Hm|Hm].
  { eexists. split; [done|]. auto. }
  destruct bs as [|last text _] using rev_ind; [done|].
  assert (zlen (text ++ [last]) - 1 = zlen text) as El
    by (unfold zlen; rewrite length_app; cbn; lia).
  apply bytes_at_app in Hat as [Ht Hl]. apply bytes_at_cons in Hl as [Hl _].
  rewrite El, Hl. cbn [mbind option_bind].
  destruct (Z.eqb_spec (byte_Z last) 0) as [H0|H0]; cbn [negb].
  2: { eexists. split; [done|]. do 2 right. split_and!; [done|iconsts; lia|].
       intros text' E _. apply app_inj_2 in E as [_ [= ->]]; [done|done]. }
  apply (byte_Z_inj last x00) in H0 as ->.
  destruct (validate_loop_spec m data (length text) text 0) as (st & Hst & Hor).
  { by rewrite Z.add_0_r. }
  { lia. }
  rewrite Z.add_0_l in Hst. replace (Z.to_nat (zlen text)) with (length text) by (unfold zlen; lia).
  exists st. split; [done|]. destruct Hor as [[-> Hu]|[-> Hu]].
  - left. split_and!; [done|iconsts; lia|eauto].
  - do 2 right. split_and!; [done|iconsts; lia|].
    intros text' E. by apply app_inj_2 in E as [-> _].
Qed.

(** ** Framebuffers *)

(** Supported formats with their colour depth and bytes per pixel. *)
Definition formats : list (Z * Z * Z) :=
  [(BBP_FB_RGB888, 8, 3); (BBP_FB_RGBA8888, 8, 4); (BBP_FB_BGRA8888, 8, 4);
   (BBP_FB_RGB565, 5, 2); (BBP_FB_RGBA1010102, 10, 4); (BBP_FB_RGBX_FP16, 16, 8)].

Record framebuffer_typed (fb : bbp_import_framebuffer) : Prop := FbTyped {
  ft_address : in_word 64 (fb_address fb);
  ft_total : in_word 64 (fb_total_size fb);
  ft_width : in_word 32 (fb_width fb);
  ft_height : in_word 32 (fb_height fb);
  ft_pitch : in_word 32 (fb_pitch fb);
  ft_format : in_word 32 (fb_pixel_format fb);
  ft_depth : in_word 16 (fb_color_depth fb);
  ft_flags : in_word 16 (fb_flags fb);
}.

(** What an accepted framebuffer promises: [bpp] bytes per pixel, rows that fit
    their pitch, an extent that holds all rows below 2^48, and at most one
    rotation. *)
Definition framebuffer_ok (fb : bbp_import_framebuffer) (bpp : Z) : Prop :=
  In (fb_pixel_format fb, fb_color_depth fb, bpp) formats /\
  1 <= fb_width fb <= 65535 /\ 1 <= fb_height fb <= 65535 /\
  fb_width fb * bpp <= fb_pitch fb /\ fb_pitch fb * fb_height fb <= fb_total_size fb /\
  0 < fb_total_size fb /\ fb_address fb + fb_total_size fb <= 2 ^ 48 /\
  In (fb_flags fb) [0; 1; 2; 3; 4; 5; 8; 9].

Lemma pixel_bytes_formats fb bpp :
  pixel_bytes fb = Some bpp <-> In (fb_pixel_format fb, fb_color_depth fb, bpp) formats.
Proof.
  unfold pixel_bytes, formats, BBP_FB_RGB888, BBP_FB_RGBA8888, BBP_FB_BGRA8888, BBP_FB_RGB565,
    BBP_FB_RGBA1010102, BBP_FB_RGBX_FP16. cbn [In].
  repeat match goal with
  | |- context [fb_pixel_format fb =? ?x] => destruct (Z.eqb_spec (fb_pixel_format fb) x) as [->|]
  end; cbn [orb];
  try match goal with
  | |- context [fb_color_depth fb =? ?x] => destruct (Z.eqb_spec (fb_color_depth fb) x) as [->|]
  end; split; intuition congruence.
Qed.

(** The flag word as the two mask tests read it. *)
Lemma flags_allowed f :
  in_word 16 f ->
  (Z.land f (wrap32 (Z.lnot 15)) = 0 /\
   (Z.land f 14 = 0 \/ Z.land (Z.land f 14) (wrap16 (Z.land f 14 - 1)) = 0)) <->
  In f [0; 1; 2; 3; 4; 5; 8; 9].
Proof.
  intros Hf. split.
  - intros [Hhi Hrot]. assert (f = f mod 16) as E.
    { apply Z.bits_inj_iff'. intros i Hi. destruct (Z.lt_ge_cases i 4).
      - by rewrite (Z.mod_pow2_bits_low f 4) by lia.
      - rewrite (Z.mod_pow2_bits_high f 4) by lia. destruct (Z.lt_ge_cases i 16).
        + apply (f_equal (fun z => Z.testbit z i)) in Hhi. rewrite Z.land_spec, Z.bits_0 in Hhi.
          replace (Z.testbit (wrap32 (Z.lnot 15)) i) with true in Hhi; [by rewrite andb_true_r in Hhi|].
          unfold wrap. rewrite Z.mod_pow2_bits_low, Z.lnot_spec by lia.
          rewrite (Z.bits_above_log2 15) by (cbn; lia). done.
        + by apply (in_word_testbit 16). }
    pose proof (Z.mod_pos_bound f 16 ltac:(lia)) as Hb. rewrite <- E in Hb. clear E Hhi.
    assert (f = 0 \/ f = 1 \/ f = 2 \/ f = 3 \/ f = 4 \/ f = 5 \/ f = 6 \/ f = 7 \/ f = 8 \/ f = 9 \/
            f = 10 \/ f = 11 \/ f = 12 \/ f = 13 \/ f = 14 \/ f = 15) as C by lia.
    cbn [In]. repeat (destruct C as [->|C]; [vm_compute in Hrot; intuition discriminate|]).
    subst. vm_compute in Hrot. intuition discriminate.
  - cbn [In]. intros H. repeat (destruct H as [<-|H]; [vm_compute; intuition congruence|]). done.
Qed.

Lemma phys_range_valid_iff base len :
  0 <= len ->
  bbp_import_phys_range_valid base len = true <-> 0 < len /\ base < 2 ^ 48 /\ base + len <= 2 ^ 48.
Proof.
  intros. unfold bbp_import_phys_range_valid. iconsts.
  rewrite !andb_true_iff, negb_true_iff, Z.eqb_neq, Z.ltb_lt, Z.leb_le. lia.
Qed.

Lemma formats_bpp f d bpp : In (f, d, bpp) formats -> 2 <= bpp <= 8.
Proof. unfold formats. cbn [In]. intuition (simplify_eq; lia). Qed.

Lemma bbp_import_validate_framebuffer_spec fb :
  framebuffer_typed fb ->
  bbp_import_validate_framebuffer (Some fb) = BBP_IMPORT_OK <-> exists bpp, framebuffer_ok fb bpp.
Proof.
  intros [Ha Ht Hw Hh Hp _ _ Hf]. unfold bbp_import_validate_framebuffer, framebuffer_ok.
  destruct (pixel_bytes fb) as [bpp|] eqn:Epix.
  2: { split; [done|]. intros (bpp & Hin & _). apply pixel_bytes_formats in Hin. congruence. }
  pose proof (proj1 (pixel_bytes_formats _ _) Epix) as Hin. pose proof (formats_bpp _ _ _ Hin).
  cbn zeta. change (Z.lor (Z.lor BBP_FB_FLAG_ROTATED_90 BBP_FB_FLAG_ROTATED_180)
    BBP_FB_FLAG_ROTATED_270) with 14. change (Z.lor BBP_FB_FLAG_DOUBLE_BUFFERED 14) with 15.
  pose proof (flags_allowed _ Hf) as Hfl. unfold in_word in *.
  assert (1 <= fb_width fb <= 65535 -> in_word 64 (fb_width fb * bpp)) as Wrow
    by (intros; unfold in_word; nia).
  assert (1 <= fb_height fb <= 65535 -> in_word 64 (fb_pitch fb * fb_height fb)) as Wreq
    by (intros; unfold in_word; nia).
  assert ((fb_width fb =? 0) || (BBP_IMPORT_U16_MAX <? fb_width fb) || (fb_height fb =? 0)
          || (BBP_IMPORT_U16_MAX <? fb_height fb) = false <->
          1 <= fb_width fb <= 65535 /\ 1 <= fb_height fb <= 65535) as Gdim.
  { iconsts. rewrite !orb_false_iff, !Z.eqb_neq, !Z.ltb_ge. lia. }
  destruct (_ || _ || _ || _) eqn:G1.
  { split; [done|]. intros (? & _ & ? & ? & _). assert (true = false) by (apply Gdim; lia). done. }
  destruct Gdim as [Gdim _]. destruct (Gdim eq_refl) as [Gw Gh].
  rewrite (wrap_small 64 (fb_width fb * bpp)), (wrap_small 64 (fb_pitch fb * fb_height fb)) by auto.
  pose proof (phys_range_valid_iff (fb_address fb) (fb_total_size fb) ltac:(lia)) as Grange.
  destruct (Z.ltb_spec (fb_pitch fb) (fb_width fb * bpp)) as [G2|G2].
  { split; [done|]. intros (bpp' & Hin' & _ & _ & ? & _). apply pixel_bytes_formats in Hin'.
    rewrite Epix in Hin'. injection Hin' as <-. lia. }
  destruct (Z.ltb_spec (fb_total_size fb) (fb_pitch fb * fb_height fb)) as [G3|G3]; cbn [orb].
  { split; [done|]. intros (? & _ & _ & _ & _ & ? & _). lia. }
  destruct (bbp_import_phys_range_valid _ _); cbn [negb].
  2: { split; [done|]. intros (? & _ & _ & _ & _ & _ & ? & ? & _).
       assert (false = true) by (apply Grange; lia). done. }
  destruct (proj1 Grange eq_refl) as (? & ? & ?).
  destruct (Z.eqb_spec (Z.land (fb_flags fb) (wrap32 (Z.lnot 15))) 0) as [G4|G4]; cbn [negb].
  2: { split; [done|]. intros (? & H'). destruct (proj2 Hfl ltac:(apply H')). done. }
  destruct (Z.eqb_spec (Z.land (fb_flags fb) 14) 0) as [G5|G5]; cbn [negb andb].
  { split; [|done]. intros _. exists bpp. split_and!; try done; try lia. apply Hfl. auto. }
  destruct (Z.eqb_spec (Z.land (Z.land (fb_flags fb) 14)
    (wrap16 (Z.land (fb_flags fb) 14 - 1))) 0) as [G6|G6]; cbn [negb].
  { split; [|done]. intros _. exists bpp. split_and!; try done; try lia. apply Hfl. auto. }
  split; [done|]. intros (? & H'). destruct (proj2 Hfl ltac:(apply H')) as [_ [?|?]]; done.
Qed.

(** ** Ranges, sizes and fields of structures *)

Lemma ranges_apart l lb r rb :
  0 <= l -> 0 <= lb -> 0 <= r -> 0 <= rb -> bbp_import_ranges_overlap l lb r rb = false ->
  disjoint_range r rb l lb /\ l + lb < 2 ^ 64.
Proof.
  intros ? ? ? ? H. unfold bbp_import_ranges_overlap in H. iconsts.
  destruct (_ || _) eqn:G; [done|]. apply orb_false_iff in G as [G1 G2].
  apply Z.ltb_ge in G1, G2. apply andb_false_iff in H. rewrite !Z.ltb_ge in H.
  split; [|lia]. intros x Hx Hx'. lia.
Qed.

Lemma array_tag_size_ok fixed count element size :
  0 <= fixed -> 0 <= count ->
  bbp_import_array_tag_size fixed count element (Some 0) = (BBP_IMPORT_OK, size) ->
  size = Some (fixed + count * element) /\ fixed + count * element <= 2 ^ 24 /\ count < 2 ^ 32.
Proof.
  intros Hf Hc. unfold bbp_import_array_tag_size. iconsts.
  destruct (_ || _) eqn:G1; [done|]. apply orb_false_iff in G1 as [G1 _]. apply Z.ltb_ge in G1.
  destruct (_ <? count); [done|]. destruct (_ <? count); [done|].
  destruct (_ || _) eqn:G2; [done|]. apply orb_false_iff in G2 as [G2 _]. apply Z.ltb_ge in G2.
  intros [= <-]. split_and!; [done|lia|lia].
Qed.

Lemma raw_word bs off n :
  (off + n <= length bs)%nat -> in_word (8 * Z.of_nat n) (raw bs off n).
Proof.
  intros H. unfold raw. apply le_decode_word. rewrite length_take, length_drop. lia.
Qed.

(** A field of a nested structure. *)
Lemma raw_sub bs at_ len off n :
  (off + n <= len)%nat -> raw (take len (drop at_ bs)) off n = raw bs (at_ + off) n.
Proof.
  intros H. unfold raw. f_equal. rewrite <- drop_drop, skipn_firstn_comm.
  rewrite take_take. f_equal. lia.
Qed.

Lemma framebuffer_of_sub bs off :
  framebuffer_of (take 40 (drop off bs)) 0 = framebuffer_of bs off.
Proof. unfold framebuffer_of. rewrite !raw_sub by lia. by rewrite Nat.add_0_r. Qed.

Lemma acpi_of_sub bs off : acpi_of (take 24 (drop off bs)) 0 = acpi_of bs off.
Proof. unfold acpi_of. rewrite !raw_sub by lia. by rewrite Nat.add_0_r. Qed.

Lemma framebuffer_of_typed bs off :
  (off + 36 <= length bs)%nat -> framebuffer_typed (framebuffer_of bs off).
Proof.
  intros H. split; cbn [framebuffer_of fb_address fb_total_size fb_width fb_height fb_pitch
    fb_pixel_format fb_color_depth fb_flags];
    [apply (raw_word _ _ 8)|apply (raw_word _ _ 8)|apply (raw_word _ _ 4)|apply (raw_word _ _ 4)|
     apply (raw_word _ _ 4)|apply (raw_word _ _ 4)|apply (raw_word _ _ 2)|apply (raw_word _ _ 2)]; lia.
Qed.

(** A structure nested at [off] in one that is loaded whole. *)
Lemma load_nested m p n bs off len :
  load_bytes m p n = Some bs -> (off + len <= n)%nat ->
  load_bytes m (p + Z.of_nat off) len = Some (take len (drop off bs)).
Proof.
  intros Hld Hle. destruct (load_bytes_take_drop _ _ _ _ off Hld) as [_ Hd]; [lia|].
  by destruct (load_bytes_take_drop _ _ _ _ len Hd) as [Ht _]; [lia|].
Qed.

Lemma phys_address_valid_iff a z :
  0 <= a -> bbp_import_phys_address_valid a z = true <-> (z = false -> a <> 0) /\ a < 2 ^ 48.
Proof.
  intros. unfold bbp_import_phys_address_valid. iconsts.
  rewrite andb_true_iff, orb_true_iff, negb_true_iff, Z.eqb_neq, Z.ltb_lt.
  destruct z; intuition congruence.
Qed.
