(* ===== verification/ImportProps.v ===== *)
(** * Properties of the importers' common layer

    What the validation of strings, of truncated names and of framebuffers
    means, in terms of Unicode text and of pixels. *)

From S2P Require Import Prelude Memory Abi Builder BuilderFacts Import ImportFacts.

(** ** Truncation at a character boundary *)

Lemma utf8_text_nil : utf8_text [].
Proof. by exists []. Qed.

(** The first character of a text that some longer byte string begins with. *)
Lemma utf8_text_head (j : nat) bs :
  utf8_text (take j bs) -> (0 < j <= length bs)%nat ->
  exists c rest, scalar c /\ bs = utf8_encode c ++ rest /\
    (length (utf8_encode c) <= j)%nat /\ utf8_text (take (j - length (utf8_encode c)) rest).
Proof.
  intros (cs & Hcs & E) Hj. destruct cs as [|c cs].
  { apply (f_equal length) in E. rewrite length_take in E. cbn in E. lia. }
  apply Forall_cons in Hcs as [Hc Hcs]. cbn [map concat] in E.
  rewrite <- (take_drop j bs). rewrite E.
  assert (j = length (utf8_encode c) + length (concat (map utf8_encode cs)))%nat as El.
  { apply (f_equal length) in E. rewrite length_take, length_app in E. lia. }
  exists c, (concat (map utf8_encode cs) ++ drop j bs).
  rewrite <- app_assoc. split_and!; [done|done|lia|].
  replace (j - _)%nat with (length (concat (map utf8_encode cs))) by lia.
  rewrite take_app_length. by exists cs.
Qed.

Lemma prefix_loop_spec m text total limit fuel : forall bs offset,
  bytes_at m (text + offset) bs -> total = offset + zlen bs -> (length bs <= fuel)%nat ->
  0 <= offset <= limit -> limit < 2 ^ 64 ->
  exists k : nat, prefix_loop m text total limit offset fuel = Some (offset + Z.of_nat k) /\
    (k <= length bs)%nat /\ offset + Z.of_nat k <= limit /\ utf8_text (take k bs) /\
    forall j : nat, (j <= length bs)%nat -> offset + Z.of_nat j <= limit ->
      utf8_text (take j bs) -> (j <= k)%nat.
Proof.
  induction fuel as [|fuel IH]; intros bs offset Hat -> Hf Ho Hl.
  { destruct bs; [|cbn in Hf; lia]. exists 0%nat. cbn [prefix_loop].
    rewrite (proj2 (Z.ltb_ge _ _)) by (unfold zlen; cbn; lia).
    split_and!; [f_equal; lia|cbn; lia|lia|apply utf8_text_nil|cbn; lia]. }
  cbn [prefix_loop]. destruct (Z.ltb_spec offset (offset + zlen bs)) as [Hlt|Hge].
  2: { destruct bs; [|unfold zlen in Hge; cbn [length] in Hge; lia]. exists 0%nat.
       split_and!; [f_equal; lia|cbn; lia|lia|apply utf8_text_nil|cbn; lia]. }
  replace (offset + zlen bs - offset) with (zlen bs) by lia.
  rewrite (utf8_sequence_seq _ _ _ Hat). cbn [mbind option_bind].
  rewrite wrap_small by (unfold in_word; lia).
  destruct (Z.eqb_spec (seq_len bs) 0) as [H0|H0]; cbn [orb].
  { exists 0%nat. split_and!; [f_equal; lia|lia|lia|apply utf8_text_nil|].
    intros [|j] Hj _ Ht; [lia|]. exfalso.
    destruct (utf8_text_head (S j) bs Ht ltac:(lia)) as (c & rest & Hc & -> & _ & _).
    rewrite seq_len_encode in H0 by done. pose proof (encode_length c). lia. }
  destruct (seq_len_decode bs H0) as (c & rest & Hc & -> & ->).
  pose proof (encode_length c) as Hc4. destruct (Z.ltb_spec (limit - offset) (zlen (utf8_encode c))).
  { exists 0%nat. split_and!; [f_equal; lia|lia|lia|apply utf8_text_nil|].
    intros [|j] Hj Hlim Ht; [lia|]. exfalso.
    destruct (utf8_text_head (S j) _ Ht ltac:(lia)) as (c' & rest' & Hc' & E & Hle & _).
    pose proof (f_equal seq_len E) as Es. rewrite !seq_len_encode in Es by done.
    unfold zlen in *. lia. }
  apply bytes_at_app in Hat as [_ Hat].
  destruct (IH rest (offset + zlen (utf8_encode c))) as (k & Hk & Hkl & Hlim & Htext & Hmax).
  { by rewrite Z.add_assoc. }
  { autorewrite with zlen. lia. }
  { rewrite length_app in Hf. unfold zlen in *. lia. }
  { lia. }
  { done. }
  exists (length (utf8_encode c) + k)%nat. rewrite Hk. split_and!.
  - f_equal. unfold zlen. lia.
  - rewrite length_app. lia.
  - unfold zlen in *. lia.
  - rewrite take_app_add. by apply utf8_text_cons.
  - intros [|j] Hj Hjl Ht; [lia|].
    destruct (utf8_text_head (S j) _ Ht ltac:(lia)) as (c' & rest' & Hc' & E & Hle & Hrest).
    pose proof (f_equal seq_len E) as Es. rewrite !seq_len_encode in Es by done.
    assert (length (utf8_encode c) = length (utf8_encode c')) as El by (unfold zlen in Es; lia).
    apply app_inj_1 in E as [_ <-]; [|done]. rewrite <- El in *.
    rewrite length_app in Hj. apply Hmax in Hrest; unfold zlen in *; lia.
Qed.

(** Truncation to [limit] bytes keeps the longest text that fits. *)
Lemma utf8_prefix_spec m text bs limit :
  bytes_at m text bs -> 0 <= limit < 2 ^ 64 ->
  exists k : nat, bbp_import_utf8_prefix m text (zlen bs) limit = Some (Z.of_nat k) /\
    (k <= length bs)%nat /\ Z.of_nat k <= limit /\ utf8_text (take k bs) /\
    forall j : nat, (j <= length bs)%nat -> Z.of_nat j <= limit ->
      utf8_text (take j bs) -> (j <= k)%nat.
Proof.
  intros Hat Hl. unfold bbp_import_utf8_prefix.
  destruct (prefix_loop_spec m text (zlen bs) limit (Z.to_nat (zlen bs)) bs 0)
    as (k & Hk & ?); [by rewrite Z.add_0_r|lia|unfold zlen; lia|lia|lia|].
  exists k. by rewrite Hk.
Qed.

(** C28: String validation never reads outside the string, always returns, and
    accepts exactly the byte strings that are the UTF-8 encoding of Unicode
    scalar values (no NUL, no surrogates, no overlong forms) followed by one
    terminating NUL and no longer than 2^32 - 1 bytes.  Name truncation returns
    the length of the longest prefix that is such a text and fits the limit. *)
Theorem import_strings_are_utf8 (m : mem) (data limit : Z) (bs : list byte) :
  bytes_at m data bs -> data <> 0 -> 0 <= limit < 2 ^ 64 ->
  (exists st, bbp_import_validate_string m (ImportString data (zlen bs)) = Some st /\
     (st = BBP_IMPORT_OK <->
        zlen bs <= UINT32_MAX /\
        exists cs, Forall scalar cs /\ bs = concat (map utf8_encode cs) ++ [x00])) /\
  (exists k : nat, bbp_import_utf8_prefix m data (zlen bs) limit = Some (Z.of_nat k) /\
     (k <= length bs)%nat /\ Z.of_nat k <= limit /\
     (exists cs, Forall scalar cs /\ take k bs = concat (map utf8_encode cs)) /\
     forall j : nat, (j <= length bs)%nat -> Z.of_nat j <= limit ->
       (exists cs, Forall scalar cs /\ take j bs = concat (map utf8_encode cs)) -> (j <= k)%nat).
Proof.
  intros Hat Hd Hl. split.
  - destruct (bbp_import_validate_string_spec m data bs Hat Hd) as (st & Hst & Hor).
    exists st. split; [done|].
    destruct Hor as [(-> & Hz & text & (cs & Hcs & ->) & ->)|[(-> & Hz)|(-> & Hz & Hno)]].
    + split; [|done]. intros _. split; [done|]. by exists cs.
    + split; [done|]. lia.
    + split; [done|]. intros (_ & cs & Hcs & ->). exfalso. eapply Hno; [done|]. by exists cs.
  - by apply utf8_prefix_spec.
Qed.

(** "na" then a three-byte character, truncated to four bytes. *)
Lemma import_strings_are_utf8_witness :
  let bs := [x6e; x61; xe2; x82; xac; x00] in
  let m := mem_of 4096 bs in
  exists st, bbp_import_validate_string m (ImportString 4096 6) = Some st /\
    bbp_import_utf8_prefix m 4096 6 4 = Some 2.
Proof.
  intros bs m.
  destruct (import_strings_are_utf8 m 4096 4 bs) as ((st & Hst & _) & _).
  - apply (load_bytes_at m 4096 6). vm_compute. reflexivity.
  - lia.
  - lia.
  - exists st. split; [exact Hst|]. vm_compute. reflexivity.
Defined.

(** ** Framebuffers *)

(** C29: A framebuffer description is accepted exactly when its format, depth and
    flags are supported and its geometry holds its pixels without overflow; then
    every byte of every pixel lies inside the claimed extent and below 2^48, and
    the pixels of one row do not run into the next row. *)
Theorem framebuffer_holds_pixels (fb : bbp_import_framebuffer) :
  framebuffer_typed fb ->
  (bbp_import_validate_framebuffer (Some fb) = BBP_IMPORT_OK <-> exists bpp, framebuffer_ok fb bpp) /\
  forall bpp, bbp_import_validate_framebuffer (Some fb) = BBP_IMPORT_OK -> pixel_bytes fb = Some bpp ->
    forall x y k, 0 <= x < fb_width fb -> 0 <= y < fb_height fb -> 0 <= k < bpp ->
      let offset := y * fb_pitch fb + x * bpp + k in
      0 <= offset < fb_total_size fb /\ fb_address fb + offset < 2 ^ 48 /\
      y * fb_pitch fb <= offset < (y + 1) * fb_pitch fb.
Proof.
  intros Hty. pose proof (bbp_import_validate_framebuffer_spec fb Hty) as Hiff. split; [done|].
  intros bpp Hok Hpix x y k Hx Hy Hk offset. apply Hiff in Hok as (bpp' & Hin & _ & _ & Hrow & Htot & _ & Hend & _).
  apply pixel_bytes_formats in Hin. rewrite Hpix in Hin. injection Hin as <-.
  assert (x * bpp + k < fb_pitch fb) by nia. assert (0 <= x * bpp + k) by nia.
  assert ((y + 1) * fb_pitch fb <= fb_pitch fb * fb_height fb) by nia.
  subst offset. destruct (ft_pitch fb Hty). assert (0 <= y * fb_pitch fb) by nia. lia.
Qed.

Lemma framebuffer_holds_pixels_witness :
  let fb := ImportFramebuffer 0xe0000000 (4096 * 768) 1024 768 4096 BBP_FB_BGRA8888 8 0 in
  bbp_import_validate_framebuffer (Some fb) = BBP_IMPORT_OK /\ 767 * 4096 + 1023 * 4 + 3 < 4096 * 768.
Proof.
  intros fb.
  destruct (framebuffer_holds_pixels fb) as (_ & Hpx); [split; (split; [vm_compute; discriminate|vm_compute; reflexivity])|].
  assert (bbp_import_validate_framebuffer (Some fb) = BBP_IMPORT_OK) as Hok by (vm_compute; reflexivity).
  split; [exact Hok|].
  destruct (Hpx 4 Hok ltac:(vm_compute; reflexivity) 1023 767 3) as ((_ & H) & _);
    [cbn; lia|cbn; lia|lia|exact H].
Defined.
