(* ===== verification/ImportEmit.v ===== *)
(** * From a capacity plan to builder calls

    Every importer first plans all its allocations and then emits them.  The
    emission code is written in a small state monad over the memory and the
    builder; an [item] is the abstract outcome of one emitted tag, and
    [emits] says that an emitter realises a list of items whenever the plan
    for them succeeded.  The importers' theorems compose [emits] facts. *)

From S2P Require Import Prelude Memory Abi Builder BuilderFacts Import ImportFacts.

(** ** The plan predicts the builder *)

Lemma round_up_small x : 0 <= x <= 2 ^ 32 -> 0 <= round_up 8 x <= 2 ^ 32 + 8.
Proof. intros. pose proof (round_up_bounds 8 x). lia. Qed.

Lemma plan_allocation_ok b plan bytes plan' :
  0 <= plan_used plan <= BBP_IMPORT_MAX_ARENA -> 0 <= bytes ->
  plan_allocation b plan bytes = (BBP_IMPORT_OK, plan') ->
  plan' = ImportPlan (round_up 8 (plan_used plan) + bytes) (plan_tag_count plan) /\
  plan_used plan' <= capacity b /\ plan_used plan' <= BBP_IMPORT_MAX_ARENA.
Proof.
  intros Hu Hb. unfold plan_allocation, align8, add_size. iconsts.
  rewrite align8_up_eq by (iconsts; lia).
  pose proof (round_up_bounds 8 (plan_used plan) ltac:(lia)).
  rewrite (proj2 (Z.ltb_ge _ (plan_used plan))) by lia.
  destruct (2 ^ 64 - 1 - _ <? bytes); [done|].
  destruct (_ || _) eqn:G; [done|]. destruct (_ <? _) in |- *; [done|].
  bool_to_prop. intros [= <-]. cbn [plan_used]. split; [done|lia].
Qed.

Lemma plan_blob_ok b plan bytes plan' :
  0 <= plan_used plan <= BBP_IMPORT_MAX_ARENA -> 0 <= bytes ->
  bbp_import_plan_blob b plan bytes = (BBP_IMPORT_OK, plan') ->
  bytes <> 0 /\ plan' = ImportPlan (round_up 8 (plan_used plan) + bytes) (plan_tag_count plan) /\
  plan_used plan' <= capacity b /\ plan_used plan' <= BBP_IMPORT_MAX_ARENA.
Proof.
  intros Hu Hb. unfold bbp_import_plan_blob. destruct (Z.eqb_spec bytes 0); [done|].
  intros H. split; [done|]. by eapply plan_allocation_ok.
Qed.

Lemma plan_tag_ok b plan bytes plan' :
  0 <= plan_used plan <= BBP_IMPORT_MAX_ARENA -> 0 <= plan_tag_count plan ->
  bbp_import_plan_tag b plan bytes = (BBP_IMPORT_OK, plan') ->
  32 <= bytes <= 2 ^ 24 /\ plan_tag_count plan < 1024 /\
  plan' = ImportPlan (round_up 8 (plan_used plan) + bytes) (plan_tag_count plan + 1) /\
  plan_used plan' <= capacity b /\ plan_used plan' <= BBP_IMPORT_MAX_ARENA.
Proof.
  intros Hu Hc. unfold bbp_import_plan_tag.
  destruct (_ || _ || _) eqn:G; [done|]. destruct (Z.leb_spec BBP_IMPORT_MAX_TAGS (plan_tag_count plan)); [done|].
  iconsts. bool_to_prop. destruct (plan_allocation b plan bytes) as [st p] eqn:E.
  case_bool_decide as Hst; [subst|congruence]. intros [= <-].
  apply plan_allocation_ok in E as (-> & ? & ?); [|iconsts; lia|lia].
  cbn [plan_tag_count plan_used] in *. rewrite wrap_small by (unfold in_word; lia).
  split_and!; try done; iconsts; lia.
Qed.

(** Where the builder stands with respect to a plan. *)
Definition agrees (plan : bbp_import_plan) (b : bbp_builder) : Prop :=
  plan = ImportPlan (used b) (tag_count b).

(** The parts of a builder that no call changes. *)
Definition same_arena (b b' : bbp_builder) : Prop :=
  arena b' = arena b /\ arena_phys b' = arena_phys b /\ capacity b' = capacity b.

#[global] Instance same_arena_equiv : Equivalence same_arena.
Proof.
  split; unfold same_arena; [done|..].
  - intros b1 b2 (? & ? & ?). done.
  - intros b1 b2 b3 (-> & -> & ->) (-> & -> & ->). done.
Qed.

(** What [bbp_import_plan_begin] establishes beyond the representation. *)
Record plannable (b : bbp_builder) : Prop := Plannable {
  pl_used : used b <= BBP_IMPORT_MAX_ARENA;
  pl_phys : arena_phys b + capacity b <= 2 ^ 48;
  pl_virt : arena b + capacity b < 2 ^ 64;
}.

Lemma plan_begin_ok m b p p' :
  bbp_import_plan_begin m (Some b) (Some p) = Some (BBP_IMPORT_OK, Some p') ->
  plannable b /\ agrees p' b.
Proof.
  unfold bbp_import_plan_begin. intros H.
  destruct (_ || _) eqn:G1 in H; [done|]. destruct (_ || _) eqn:G2 in H; [done|].
  assert (p' = ImportPlan (used b) (tag_count b)) as ->.
  { destruct (tag_count b =? 0).
    - destruct (_ || _) in H; [done|]. by simplify_eq.
    - destruct (_ || _) in H; [done|]. apply bind_Some in H as (nx & _ & H).
      destruct (negb _) in H; [done|]. by simplify_eq. }
  iconsts. bool_to_prop. split; [split; iconsts; lia|done].
Qed.

(** The last tag is one of the tags. *)
Lemma last_in m b ts :
  builder_rep m b ts -> last b <> 0 -> exists t, In t ts /\ last b = arena b + t_off t.
Proof.
  intros Hrep. rewrite (br_last _ _ _ Hrep). unfold last_ptr.
  destruct (list.last ts) as [t|] eqn:E; [|done]. apply last_Some in E as [ts0 ->].
  intros _. exists t. split; [|done]. apply in_or_app. right. by left.
Qed.

Lemma last_header_mapped m b ts :
  builder_rep m b ts -> last b <> 0 -> exists v, load64 m (last b + 16) = Some v.
Proof.
  intros Hrep Hl. pose proof Hrep as [_ _ [? ?] Hm _ _ Htags _ _ _].
  destruct (last_in m b ts Hrep Hl) as (t & Hin & ->).
  destruct (tags_ok_in _ _ _ t Htags Hin) as (? & ? & ? & ? & _).
  destruct (mapped_load_le m (arena b + t_off t + 16) 8) as (v & Hv & _); [|by exists v].
  eapply mapped_sub; [exact Hm|lia|lia].
Qed.

(** Planning never faults on a sound builder. *)
Lemma plan_begin_total m b ts p :
  builder_rep m b ts -> exists st p', bbp_import_plan_begin m (Some b) (Some p) = Some (st, Some p').
Proof.
  intros Hrep. unfold bbp_import_plan_begin.
  destruct (_ || _); [eauto|]. destruct (_ || _); [eauto|].
  destruct (tag_count b =? 0); [destruct (_ || _); eauto|].
  destruct (_ || _) eqn:G; [eauto|].
  destruct (last_header_mapped m b ts Hrep) as [v Hv].
  { intros E. rewrite E in G. by rewrite !orb_false_iff in G; bool_to_prop. }
  rewrite Hv. cbn [mbind option_bind]. destruct (v =? 0); cbn [negb]; eauto.
Qed.

(** ** Allocations that fit succeed *)

Lemma arena_bump_fits m b ts len :
  builder_rep m b ts -> plannable b -> 0 <= len ->
  round_up 8 (used b) + len <= capacity b ->
  arena_bump b len =
    (set_used b (round_up 8 (used b) + len),
     Some (arena b + round_up 8 (used b), arena_phys b + round_up 8 (used b))).
Proof.
  intros [[? ?] [[? ?] ?] [[? ?] ?] _ Hov _ _ _ _ _] [? ? ?] Hl0 Hfit. iconsts.
  unfold arena_bump. bconsts. rewrite Hov, align8_up_eq by (iconsts; lia).
  pose proof (round_up_bounds 8 (used b) ltac:(lia)).
  rewrite (proj2 (Z.eqb_neq (arena b) 0)) by lia. cbn [Z.eqb negb orb].
  repeat (rewrite (proj2 (Z.ltb_ge _ _)) by lia; cbn [orb]). done.
Qed.

(** What a successful call leaves alone: every used byte except the link
    fields of the tags. *)
Definition kept (m m' : mem) (b : bbp_builder) (ts : list tagrec) : Prop :=
  forall x, arena b <= x < arena b + used b ->
    (forall t, In t ts -> ~ (arena b + t_off t + 16 <= x < arena b + t_off t + 24)) ->
    m' !! x = m !! x.


Lemma alloc_tag_fits m b ts id ver size :
  builder_rep m b ts -> plannable b -> in_word 64 id -> in_word 16 ver ->
  32 <= size <= 2 ^ 24 -> tag_count b < 1024 -> round_up 8 (used b) + size <= capacity b ->
  let t := Tag (round_up 8 (used b)) id ver size in
  exists m' b',
    bbp_alloc_tag m (Some b) id ver size = Some (m', Some b', arena b + t_off t) /\
    builder_rep m' b' (ts ++ [t]) /\ same_arena b b' /\
    used b' = t_off t + size /\ tag_count b' = tag_count b + 1 /\
    frame (arena b) (capacity b) m m' /\ kept m m' b ts.
Proof.
  intros Hrep Hpl Hid Hver Hsz Hcnt Hfit t.
  pose proof Hrep as [[? ?] [[? ?] ?] [[? ?] ?] Hm Hov [Hc _] Htags _ _ Hlast].
  pose proof (round_up_bounds 8 (used b) ltac:(lia)).
  assert (exists m' b', bbp_alloc_tag m (Some b) id ver size = Some (m', Some b', arena b + t_off t))
    as (m' & b' & Hal).
  { unfold bbp_alloc_tag. bconsts. rewrite (proj2 (Z.ltb_ge size _)), !(proj2 (Z.ltb_ge _ size)) by lia.
    rewrite (proj2 (Z.leb_gt _ _)) by lia. cbn [orb].
    rewrite (arena_bump_fits m b ts) by (done || lia).
    rewrite (wrap_small 32 size) by (unfold in_word; lia).
    rewrite (store_header m _ t).
    destruct (store_bytes_mapped m (arena b + t_off t) (hdr_bytes t 0 ++ le_encode 8 0))
      as [m1 Hm1]. { eapply mapped_sub; [exact Hm|cbn [t t_off]; lia|]. change (zlen _) with 32. cbn [t t_off]. lia. }
    cbn [t_off t] in Hm1 |- *. rewrite Hm1. cbn [mbind option_bind last set_used].
    destruct (Z.eqb_spec (last b) 0) as [E|E]; cbn [negb]; [eauto|].
    destruct (last_header_mapped m b ts Hrep E) as [v Hv]. unfold load64, load_le in Hv.
    apply bind_Some in Hv as (bs & Hbs & _). apply load_mapped in Hbs.
    destruct (store_bytes_mapped m1 (last b + 16)
      (le_encode 8 (arena_phys b + round_up 8 (used b)))) as [m2 Hm2].
    { unfold zlen. rewrite length_le_encode.
      intros x Hx. apply (store_bytes_same_dom _ _ _ _ Hm1). by apply Hbs. }
    unfold store64. rewrite Hm2. cbn [mbind option_bind]. eauto. }
  exists m', b'. split; [done|]. assert (0 <= size) as Hsz0 by lia.
  apply (bbp_alloc_tag_spec _ _ _ _ _ _ _ _ _ Hrep Hid Hver Hsz0) in Hal
    as [(Hp & _)|(_ & Hrep' & Ha & Hph & Hcap & Hu & Hd & Hf)]; [cbn [t t_off] in Hp; lia|].
  pose proof (br_count _ _ _ Hrep') as [Hc' _].
  split; [exact Hrep'|]. split; [by split_and!|]. split; [exact Hu|].
  split; [|split].
  - rewrite Hc', Hc. unfold zlen. rewrite length_app. cbn. lia.
  - split; [done|]. intros x Hx. apply Hf; [unfold t; cbn [t_off]; lia|]. intros Hne.
    destruct (last_in m b ts Hrep Hne) as (u & Hin & ->).
    destruct (tags_ok_in _ _ _ u Htags Hin) as (? & ? & ? & ? & _). lia.
  - intros x Hx Hl. apply Hf; [unfold t; cbn [t_off]; lia|]. intros Hne.
    destruct (last_in m b ts Hrep Hne) as (u & Hin & ->). by apply Hl.
Qed.

Lemma blob_fits m b ts data bs :
  builder_rep m b ts -> plannable b -> bytes_at m data bs -> data <> 0 -> zlen bs <> 0 ->
  disjoint_range (arena b) (capacity b) data (zlen bs) ->
  round_up 8 (used b) + zlen bs <= capacity b ->
  let o := round_up 8 (used b) in
  exists m',
    bbp_arena_blob m (Some b) data (zlen bs) =
      Some (m', Some (set_used b (o + zlen bs)), arena_phys b + o) /\
    builder_rep m' (set_used b (o + zlen bs)) ts /\
    frame (arena b + o) (zlen bs) m m' /\ bytes_at m' (arena b + o) bs.
Proof.
  intros Hrep Hpl Hat Hd Hne Hdis Hfit o.
  pose proof Hrep as [[? ?] [[? ?] ?] [[? ?] ?] Hm _ _ _ _ _ _]. pose proof (pl_phys _ Hpl).
  assert (used b <= o < used b + 8) as Ho by (apply round_up_bounds; lia).
  fold o in Hfit. assert (0 <= zlen bs) by (unfold zlen; lia).
  destruct (store_bytes_mapped m (arena b + o) bs) as [m' Hst].
  { eapply mapped_sub; [exact Hm|lia|lia]. }
  exists m'. split.
  - unfold bbp_arena_blob. rewrite (proj2 (Z.eqb_neq data 0) Hd), (proj2 (Z.eqb_neq (zlen bs) 0) Hne).
    cbn [andb]. rewrite (arena_bump_fits m b ts) by done. fold o.
    rewrite (mem_copy_store m (arena b + o) data (Z.to_nat (zlen bs)) bs).
    + by rewrite Hst.
    + apply bytes_at_load in Hat. rewrite <- Hat. f_equal. unfold zlen. lia.
    + intros x Hx Hx'. apply (Hdis x); lia.
  - split_and!; [|by apply frame_store in Hst|by eapply store_bytes_at].
    eapply rep_grow; [done|lia|lia|by eapply store_bytes_same_dom|].
    eapply store_bytes_same_on; [done|]. apply disjoint_range_intro. lia.
Qed.

(** ** Filling a zeroed body from left to right *)

Lemma fill m a written k gap zs p :
  bytes_at m a (written ++ replicate k x00) -> (gap + length zs <= k)%nat ->
  p = a + zlen written + Z.of_nat gap ->
  exists m', store_bytes m p zs = Some m' /\
    bytes_at m' a ((written ++ replicate gap x00 ++ zs) ++ replicate (k - gap - length zs) x00) /\
    frame a (zlen written + Z.of_nat k) m m'.
Proof.
  intros Hat Hk ->.
  assert (replicate k x00 = replicate gap x00 ++ replicate (k - gap) x00) as E.
  { rewrite <- replicate_add. f_equal. lia. }
  rewrite E, app_assoc in Hat. rewrite <- (app_nil_r (replicate (k - gap) x00)) in Hat.
  destruct (store_in_zeros m a (written ++ replicate gap x00) (k - gap) [] zs Hat) as (m' & Hst & Hat').
  { lia. }
  assert (zlen (written ++ replicate gap x00) = zlen written + Z.of_nat gap) as El
    by (unfold zlen; rewrite length_app, length_replicate; lia).
  rewrite El in Hst. exists m'. rewrite Z.add_assoc in Hst. split_and!; [done| |].
  - rewrite app_nil_r in Hat'. by rewrite <- !app_assoc in *.
  - eapply frame_weaken; [by eapply frame_store| |]; unfold zlen in *; lia.
Qed.

(** ** Items *)

(** One tag as an importer describes it: an optional blob allocated first, and
    a body of [i_size] bytes that may contain the blob's physical address. *)
Record item := Item {
  i_id : Z;
  i_blob : list byte;
  i_size : Z;
  i_body : Z -> list byte;
}.

Record item_wf (it : item) : Prop := ItemWf {
  iw_id : in_word 64 (i_id it);
  iw_size : 0 <= i_size it;
  iw_body : forall phys, zlen (i_body it phys) = i_size it;
}.

Definition plan_item (b : bbp_builder) (plan : bbp_import_plan) (it : item) :
    bbp_import_status * bbp_import_plan :=
  let '(status, plan) :=
    if zlen (i_blob it) =? 0 then (BBP_IMPORT_OK, plan)
    else bbp_import_plan_blob b plan (zlen (i_blob it)) in
  if bool_decide (status = BBP_IMPORT_OK) then bbp_import_plan_tag b plan (32 + i_size it)
  else (status, plan).

Fixpoint plan_items (b : bbp_builder) (plan : bbp_import_plan) (its : list item) :
    bbp_import_status * bbp_import_plan :=
  match its with
  | [] => (BBP_IMPORT_OK, plan)
  | it :: its =>
      let '(status, plan) := plan_item b plan it in
      if bool_decide (status = BBP_IMPORT_OK) then plan_items b plan its else (status, plan)
  end.

Lemma plan_items_app b plan its1 its2 plan' :
  plan_items b plan (its1 ++ its2) = (BBP_IMPORT_OK, plan') <->
  exists plan1, plan_items b plan its1 = (BBP_IMPORT_OK, plan1) /\
    plan_items b plan1 its2 = (BBP_IMPORT_OK, plan').
Proof.
  revert plan. induction its1 as [|it its1 IH]; intros plan; cbn [app plan_items].
  - split; [eauto|]. by intros (p & [= ->] & H).
  - destruct (plan_item b plan it) as [st p]. case_bool_decide; [apply IH|].
    split; [by intros [= -> _]|]. by intros (? & [= -> _] & _).
Qed.

(** Plans depend only on the arena. *)
Lemma plan_items_arena b b' plan its :
  same_arena b b' -> plan_items b' plan its = plan_items b plan its.
Proof.
  intros (_ & Hp & Hc).
  assert (forall p n, plan_allocation b' p n = plan_allocation b p n) as E
    by (intros; unfold plan_allocation; by rewrite Hp, Hc).
  revert plan. induction its as [|it its IH]; intros plan; [done|]. cbn [plan_items].
  assert (plan_item b' plan it = plan_item b plan it) as ->; [|].
  { unfold plan_item, bbp_import_plan_blob, bbp_import_plan_tag. rewrite !E.
    destruct (if zlen _ =? 0 then _ else _) as [st p]. by rewrite E. }
  destruct (plan_item b plan it) as [st p]. by rewrite IH.
Qed.

(** A tag in memory realises an item: it has the item's identifier and body, and
    the item's blob lies in the used part of the arena, apart from every tag;
    [ts] are the tags of the arena. *)
Definition holds (m : mem) (b : bbp_builder) (ts : list tagrec) (it : item) (t : tagrec) : Prop :=
  t_id t = i_id it /\ t_ver t = 1 /\ t_size t = 32 + i_size it /\
  exists phys,
    bytes_at m (arena b + t_off t + 32) (i_body it phys) /\
    (i_blob it = [] \/
     let o := phys - arena_phys b in
     0 <= o /\ o + zlen (i_blob it) <= used b /\
     (forall u, In u ts -> o + zlen (i_blob it) <= t_off u \/ t_off u + t_size u <= o) /\
     bytes_at m (arena b + o) (i_blob it)).

(** Realised items survive later emissions. *)
Lemma holds_kept m m' b b' ts new it t :
  builder_rep m b ts -> In t ts -> item_wf it -> holds m b ts it t ->
  kept m m' b ts -> same_arena b b' -> used b <= used b' -> Forall (fun u => used b <= t_off u) new ->
  holds m' b' (ts ++ new) it t.
Proof.
  intros Hrep Hin [_ Hs0 Hbody] (Hid & Hver & Hsz & phys & Hat & Hblob) Hk (Ha & Hp & _) Hu' Hnew.
  pose proof Hrep as [_ _ [? ?] _ _ _ Htags _ _ _].
  destruct (tags_ok_in _ _ _ t Htags Hin) as (? & ? & _ & ? & _).
  split_and!; try done. exists phys. rewrite Ha, Hp. split.
  - eapply bytes_at_same_on; [|exact Hat]. intros x Hx. rewrite Hbody in Hx.
    apply Hk; [lia|]. intros u Hu.
    destruct (tags_ok_in _ _ _ u Htags Hu) as (? & ? & _ & ? & _).
    destruct (tags_ok_apart _ _ _ _ _ Htags Hin Hu) as [->|]; lia.
  - destruct Hblob as [Hblob|(Ho & Hend & Hap & Hb)]; [by left|right]. split_and!; try done; try lia.
    + intros u Hu. apply in_app_or in Hu as [Hu|Hu]; [by apply Hap|].
      rewrite List.Forall_forall in Hnew. specialize (Hnew u Hu). cbn in Hnew. lia.
    + eapply bytes_at_same_on; [|exact Hb]. intros x Hx. apply Hk; [lia|].
      intros u Hu. destruct (tags_ok_in _ _ _ u Htags Hu) as (? & ? & _ & ? & _).
      specialize (Hap u Hu). lia.
Qed.

(** What an accepted import did: it appended tags that realise the items, and
    touched nothing else. *)
Definition imported (m m' : mem) (b b' : bbp_builder) (ts : list tagrec) (its : list item) : Prop :=
  exists new,
    builder_rep m' b' (ts ++ new) /\ Forall2 (holds m' b' (ts ++ new)) its new /\
    kept m m' b ts /\ frame (arena b) (capacity b) m m' /\ plannable b' /\ same_arena b b'.

Lemma plannable_fits b : plannable b -> used b <= BBP_BUILDER_MAX_INFO - SIZEOF_INFO.
Proof. intros []. iconsts. bconsts. done. Qed.

(** ** Emitters realise items *)

Lemma Forall2_strengthen {X Y} (P R : X -> Y -> Prop) (Q : X -> Prop) xs ys :
  Forall2 P xs ys -> Forall Q xs ->
  (forall x y, In y ys -> Q x -> P x y -> R x y) -> Forall2 R xs ys.
Proof.
  induction 1 as [|x y xs ys Hxy _ IH]; intros HQ HR; [constructor|].
  apply Forall_cons in HQ as [Hx HQ]. constructor; [by apply HR; [left|..]|].
  apply IH; [done|]. intros x' y' Hy. apply HR. by right.
Qed.

Section Emits.
(** The arena, and a property of the source data that writes into the arena
    cannot change. *)
Context (A C : Z) (src : mem -> Prop).
Context (Hsrc : forall m m', frame A C m m' -> src m -> src m').

Definition emits (E : emitter) (its : list item) : Prop :=
  forall m b ts plan plan',
    builder_rep m b ts -> plannable b -> arena b = A -> capacity b = C -> agrees plan b -> src m ->
    plan_items b plan its = (BBP_IMPORT_OK, plan') ->
    exists m' b' new,
      E m b = Some (m', b') /\ builder_rep m' b' (ts ++ new) /\ plannable b' /\
      same_arena b b' /\ agrees plan' b' /\ used b <= used b' /\ frame A C m m' /\
      kept m m' b ts /\ Forall2 (holds m' b' (ts ++ new)) its new /\
      Forall (fun t => used b <= t_off t) new.

Lemma emits_nothing : emits (fun m b => Some (m, b)) [].
Proof.
  intros m b ts plan plan' Hrep Hpl HA HC Hag Hs [= <-]. exists m, b, []. rewrite app_nil_r.
  split_and!; done.
Qed.

Lemma emits_when (c : bool) E its : (c = true -> emits E its) -> emits (emit_when c E) (if c then its else []).
Proof. destruct c; intros H; [by apply H|apply emits_nothing]. Qed.

Lemma kept_trans m1 m2 m3 b b' ts new :
  kept m1 m2 b ts -> kept m2 m3 b' (ts ++ new) -> same_arena b b' -> used b <= used b' ->
  Forall (fun t => used b <= t_off t) new -> kept m1 m3 b ts.
Proof.
  intros K1 K2 (Ha & _ & _) Hu Hnew x Hx Hl. rewrite K2; [by apply K1|rewrite Ha; lia|].
  intros t Ht. rewrite Ha. apply in_app_or in Ht as [Ht|Ht]; [by apply Hl|].
  rewrite List.Forall_forall in Hnew. specialize (Hnew t Ht). cbn in Hnew. lia.
Qed.

Lemma emits_seq E1 E2 its1 its2 :
  Forall item_wf its1 -> emits E1 its1 -> emits E2 its2 -> emits (E1 ;;; E2) (its1 ++ its2).
Proof.
  intros Hwf H1 H2 m b ts plan plan' Hrep Hpl HA HC Hag Hs Hplan.
  apply plan_items_app in Hplan as (plan1 & Hp1 & Hp2).
  destruct (H1 m b ts plan plan1) as
    (m1 & b1 & new1 & E1' & Hrep1 & Hpl1 & Har1 & Hag1 & Hu1 & Hf1 & Hk1 & Hh1 & Hn1); [done..|].
  pose proof Har1 as (Ha1 & Hp1' & Hc1).
  destruct (H2 m1 b1 (ts ++ new1) plan1 plan') as
    (m2 & b2 & new2 & E2' & Hrep2 & Hpl2 & Har2 & Hag2 & Hu2 & Hf2 & Hk2 & Hh2 & Hn2);
    [done|done|congruence|congruence|done|by eapply Hsrc|by rewrite (plan_items_arena b b1)|].
  exists m2, b2, (new1 ++ new2). rewrite <- app_assoc in *. split_and!; try done.
  - unfold emit_seq. by rewrite E1'.
  - by etrans.
  - lia.
  - by eapply frame_trans.
  - by eapply kept_trans.
  - apply Forall2_app; [|done]. eapply Forall2_strengthen; [exact Hh1|exact Hwf|].
    intros it t Hin Hit Hh. rewrite app_assoc.
    eapply (holds_kept m1 m2 b1 b2); try done. apply in_or_app. by right.
  - apply Forall_app. split; [done|]. eapply Forall_impl; [exact Hn2|]. cbn. lia.
Qed.

(** ** One tag *)

(** [W] turns a zeroed body of [n] bytes at [tag + 32] into [body]. *)
Definition writes (W : mem -> Z -> option mem) (n : Z) (body : list byte) : Prop :=
  forall m tag, src m -> A <= tag -> tag + 32 + n <= A + C ->
    bytes_at m (tag + 32) (replicate (Z.to_nat n) x00) ->
    exists m', W m tag = Some m' /\ bytes_at m' (tag + 32) body /\ frame (tag + 32) n m m'.

(** Body writes keep the representation. *)
Lemma rep_body_frame m m' b ts t :
  builder_rep m b (ts ++ [t]) -> frame (arena b + t_off t + 32) (t_size t - 32) m m' ->
  builder_rep m' b (ts ++ [t]).
Proof.
  intros [? ? ? Hm ? ? Htags Hl ? ?] [Hd Hf]. split; try done; [by rewrite <- Hd|].
  assert (In t (ts ++ [t])) as Hin by (apply in_or_app; right; by left).
  eapply linked_frame; [done|done|]. intros u Hu x Hx. apply Hf.
  destruct (tags_ok_in _ _ _ _ Htags Hu) as (? & ? & ? & ? & ? & ?).
  destruct (tags_ok_apart _ _ _ _ _ Htags Hin Hu) as [->|Hdis]; lia.
Qed.

(** Allocating, clearing and filling one tag. *)
Lemma emit_tag_realises id n W body m b ts plan plan' :
  0 <= n -> in_word 64 id -> zlen body = n -> writes W n body ->
  builder_rep m b ts -> plannable b -> arena b = A -> capacity b = C -> agrees plan b -> src m ->
  bbp_import_plan_tag b plan (32 + n) = (BBP_IMPORT_OK, plan') ->
  let t := Tag (round_up 8 (used b)) id 1 (32 + n) in
  exists m' b',
    emit_tag id (32 + n) W m b = Some (m', b') /\ builder_rep m' b' (ts ++ [t]) /\ plannable b' /\
    same_arena b b' /\ agrees plan' b' /\ used b' = t_off t + t_size t /\ frame A C m m' /\
    kept m m' b ts /\ bytes_at m' (arena b + t_off t + 32) body.
Proof.
  intros Hn Hid Hlen HW Hrep Hpl HA HC Hag Hs Hplan t.
  pose proof Hrep as [[? ?] _ [[? ?] ?] _ _ [Hc _] _ _ _ _].
  assert (plan_used plan = used b /\ plan_tag_count plan = tag_count b) as [Eu Ec] by (by rewrite Hag).
  pose proof (pl_used _ Hpl).
  apply plan_tag_ok in Hplan as (Hsz & Hcnt & -> & Hcap & Hmax);
    [|rewrite Eu; lia|rewrite Ec, Hc; unfold zlen; lia].
  cbn [plan_used] in *. rewrite Eu in *. rewrite Ec in *.
  pose proof (round_up_bounds 8 (used b) ltac:(lia)).
  destruct (alloc_tag_fits m b ts id 1 (32 + n)) as
    (m1 & b1 & Hal & Hrep1 & Har & Hu1 & Hc1 & Hf1 & Hk1); [done|done|done|done|done|done|done|].
  fold t in Hal, Hrep1, Hu1. pose proof Har as (Ha & Hp & Hcp).
  assert (t_off t = round_up 8 (used b)) as Et by done.
  assert (t_size t = 32 + n) as Es by done. clearbody t.
  destruct (store_bytes_mapped m1 (arena b + t_off t + 32) (replicate (Z.to_nat n) x00)) as [m2 Hm2].
  { pose proof (br_mapped _ _ _ Hrep1) as Hmap. eapply mapped_sub; [exact Hmap|lia|].
    unfold zlen. rewrite length_replicate. lia. }
  assert (frame (arena b + t_off t + 32) n m1 m2) as Hf2.
  { apply frame_store in Hm2. unfold zlen in Hm2. rewrite length_replicate in Hm2.
    by rewrite Z2Nat.id in Hm2. }
  assert (forall m1 m2, frame (arena b + t_off t + 32) n m1 m2 -> frame A C m1 m2) as Hin.
  { intros ? ? HF. eapply frame_weaken; [exact HF|lia|lia]. }
  rewrite HA, HC in Hf1.
  assert (frame A C m m2) as Hf12 by (eapply frame_trans; [exact Hf1|by apply Hin]).
  destruct (HW m2 (arena b + t_off t)) as (m3 & Hm3 & Hbody & Hf3);
    [by eapply Hsrc|lia|lia|by eapply store_bytes_at|].
  exists m3, b1. split_and!; try done.
  - unfold emit_tag, new_tag. rewrite Hal. cbn [mbind option_bind].
    rewrite (proj2 (Z.eqb_neq _ 0)) by lia. unfold bbp_import_memzero, SIZEOF_TAG_HEADER.
    rewrite mem_zero_store. replace (32 + n - 32) with n by lia. rewrite Hm2.
    cbn [mbind option_bind]. by rewrite Hm3.
  - eapply (rep_body_frame m1); [done|]. rewrite Ha, Es. replace (32 + n - 32) with n by lia.
    by eapply frame_trans.
  - split; [rewrite Hu1; lia| |]; destruct Hpl; lia.
  - unfold agrees. rewrite Hu1, Hc1. f_equal. lia.
  - rewrite Hu1. lia.
  - by eapply frame_trans; [exact Hf12|apply Hin].
  - intros x Hx Hl. destruct Hf2 as [_ Hf2], Hf3 as [_ Hf3]. rewrite Hf3, Hf2 by lia. by apply Hk1.
Qed.

Lemma emits_tag id n W body :
  0 <= n -> in_word 64 id -> zlen body = n -> writes W n body ->
  emits (emit_tag id (32 + n) W) [Item id [] n (fun _ => body)].
Proof.
  intros Hn Hid Hlen HW m b ts plan plan' Hrep Hpl HA HC Hag Hs Hplan.
  unfold plan_items, plan_item in Hplan. cbn [i_blob i_size] in Hplan.
  change (zlen [] =? 0) with true in Hplan. cbn iota in Hplan.
  rewrite bool_decide_eq_true_2 in Hplan by done.
  destruct (bbp_import_plan_tag b plan (32 + n)) as [st p] eqn:Ep.
  case_bool_decide; [subst st|congruence]. injection Hplan as <-.
  destruct (emit_tag_realises id n W body m b ts plan p) as
    (m' & b' & E & Hrep' & Hpl' & Har & Hag' & Hu & Hf & Hk & Hbody); [done..|].
  pose proof (round_up_bounds 8 (used b) ltac:(lia)). cbn [t_off t_size] in *.
  eexists m', b', [_]. split_and!; try done; [lia| |by constructor; [cbn; lia|]].
  constructor; [|constructor]. split_and!; try done. exists 0. cbn [i_body i_blob].
  destruct Har as (-> & _). cbn [t_off]. auto.
Qed.

(** A blob and the tag that refers to it. *)
Lemma emits_blob_tag data bs id n W body :
  0 <= n -> in_word 64 id -> (forall phys, zlen (body phys) = n) ->
  (forall phys, writes (W phys) n (body phys)) ->
  data <> 0 -> zlen bs <> 0 -> (forall m, src m -> bytes_at m data bs) ->
  disjoint_range A C data (zlen bs) ->
  emits (emit_blob_tag data (zlen bs) id (32 + n) W) [Item id bs n body].
Proof.
  intros Hn Hid Hlen HW Hd Hne Hat Hdis m b ts plan plan' Hrep Hpl HA HC Hag Hs Hplan.
  unfold plan_items, plan_item in Hplan. cbn [i_blob i_size] in Hplan.
  rewrite (proj2 (Z.eqb_neq _ 0) Hne) in Hplan.
  destruct (bbp_import_plan_blob b plan (zlen bs)) as [st0 p0] eqn:Ep0.
  pose proof Hrep as [[? ?] _ [[? ?] ?] _ _ [Hc _] Htags _ _ _].
  assert (plan_used plan = used b /\ plan_tag_count plan = tag_count b) as [Eu Ec] by (by rewrite Hag).
  pose proof (pl_used _ Hpl). assert (0 <= zlen bs) by (unfold zlen; lia).
  case_bool_decide; [subst st0|by rewrite bool_decide_eq_false_2 in Hplan by done; simplify_eq].
  apply plan_blob_ok in Ep0 as (_ & -> & Hcap0 & Hmax0); [|rewrite Eu; lia|lia].
  cbn [plan_used] in *. rewrite Eu, Ec in *.
  destruct (bbp_import_plan_tag b _ (32 + n)) as [st p] eqn:Ep.
  case_bool_decide; [subst st|congruence]. injection Hplan as <-.
  pose proof (round_up_bounds 8 (used b) ltac:(lia)).
  destruct (blob_fits m b ts data bs) as (m1 & Hb1 & Hrep1 & Hf1 & Hat1);
    [done|done|by apply Hat|done|done|by rewrite HA, HC|lia|].
  set (o := round_up 8 (used b)) in *. set (b1 := set_used b (o + zlen bs)) in *.
  assert (frame A C m m1) as Hf1' by (eapply frame_weaken; [exact Hf1|lia|lia]).
  destruct (emit_tag_realises id n (W (arena_phys b + o)) (body (arena_phys b + o)) m1 b1 ts
    (ImportPlan (o + zlen bs) (tag_count b)) p) as
    (m' & b' & E & Hrep' & Hpl' & Har & Hag' & Hu & Hf & Hk & Hbody); try done.
  { split; cbn [b1 set_used used capacity arena_phys arena]; [lia| |]; destruct Hpl; lia. }
  { by eapply Hsrc. }
  pose proof (round_up_bounds 8 (used b1) ltac:(lia)). cbn [b1 set_used used arena t_off t_size] in *.
  eexists m', b', [_]. split_and!; try done.
  - unfold emit_blob_tag, new_blob. rewrite Hb1. cbn [mbind option_bind]. exact E.
  - lia.
  - by eapply frame_trans.
  - intros x Hx Hl. rewrite Hk by (done || (cbn; lia)). destruct Hf1 as [_ Hf1]. apply Hf1. lia.
  - constructor; [|constructor]. split_and!; try done. exists (arena_phys b + o). cbn [i_body i_blob].
    destruct Har as (Ha & Hp & _). cbn in Ha, Hp. rewrite Ha, Hp. split; [done|]. right.
    replace (arena_phys b + o - arena_phys b) with o by lia. cbn [t_off]. split_and!; try lia.
    + intros u Hin. apply in_app_or in Hin as [Hin|[<-|[]]]; [|cbn; lia].
      destruct (tags_ok_in _ _ _ _ Htags Hin) as (? & ? & ? & ? & ? & ?). lia.
    + eapply bytes_at_same_on; [|exact Hat1]. intros x Hx. apply Hk; cbn [b1 set_used arena used]; [lia|].
      intros u Hin. destruct (tags_ok_in _ _ _ _ Htags Hin) as (? & ? & ? & ? & ? & ?). lia.
  - constructor; [cbn; lia|constructor].
Qed.
(** ** Writing fields one after the other *)

Lemma put_step m a written k N zs p gap (K : mem -> option mem) body :
  src m -> A <= a -> a + N <= A + C ->
  bytes_at m a (written ++ replicate k x00) -> zlen written + Z.of_nat k = N ->
  (gap + length zs <= k)%nat -> p = a + zlen written + Z.of_nat gap ->
  (forall m1, src m1 ->
     bytes_at m1 a ((written ++ replicate gap x00 ++ zs) ++ replicate (k - gap - length zs) x00) ->
     exists m', K m1 = Some m' /\ bytes_at m' a body /\ frame a N m1 m') ->
  exists m', (m1 ← store_bytes m p zs; K m1) = Some m' /\ bytes_at m' a body /\ frame a N m m'.
Proof.
  intros Hs Ha HN Hat Hz Hk Hp HK.
  destruct (fill m a written k gap zs p Hat Hk Hp) as (m1 & Hst & Hat1 & Hf). rewrite Hz in Hf.
  destruct (HK m1) as (m' & HK' & Hb & Hf'); [|done|].
  { eapply Hsrc; [|exact Hs]. eapply frame_weaken; [exact Hf|lia|lia]. }
  exists m'. rewrite Hst. cbn [mbind option_bind]. split_and!; [done|done|by eapply frame_trans].
Qed.

Lemma put_end m a written k N body :
  written ++ replicate k x00 = body -> bytes_at m a (written ++ replicate k x00) ->
  exists m', Some m = Some m' /\ bytes_at m' a body /\ frame a N m m'.
Proof. intros <- Hat. exists m. split_and!; [done|done|apply frame_refl]. Qed.
End Emits.

(** Arrays of elements of one size. *)
Lemma zlen_concat_map {X} (f : X -> list byte) n xs :
  (forall x, zlen (f x) = n) -> zlen (concat (map f xs)) = n * zlen xs.
Proof.
  intros Hf. induction xs as [|x xs IH]; [unfold zlen; cbn; lia|].
  cbn [map concat]. rewrite zlen_app, zlen_cons, IH, Hf. lia.
Qed.

(** One element further in an array. *)
Lemma drop_S_cons {X} (l : list X) i x rest : drop i l = x :: rest -> drop (S i) l = rest.
Proof.
  intros H. replace (S i) with (i + 1)%nat by lia. rewrite <- drop_drop, H. done.
Qed.

(** Skipping over bytes that stay zero. *)
Lemma advance m a w k g k' :
  bytes_at m a (w ++ replicate k x00) -> k = (g + k')%nat ->
  bytes_at m a ((w ++ replicate g x00) ++ replicate k' x00).
Proof. intros Hat ->. by rewrite replicate_add, app_assoc in Hat. Qed.

(** Reading back the field just written. *)
Lemma read_back m a w g n v r p :
  bytes_at m a ((w ++ replicate g x00 ++ le_encode n v) ++ r) -> in_word (8 * Z.of_nat n) v ->
  p = a + zlen w + Z.of_nat g -> load_le m p n = Some v.
Proof.
  intros Hat Hv ->. apply bytes_at_load_le; [done|].
  rewrite <- !app_assoc in Hat. apply bytes_at_app in Hat as [_ Hat].
  apply bytes_at_app in Hat as [_ Hat]. apply bytes_at_app in Hat as [Hat _].
  by rewrite zlen_replicate in Hat.
Qed.

(** The next statement stores the next field, [gap] bytes further on; [start]
    opens a proof of [writes] for a body of [k] bytes, [finish] ends it. *)
Ltac start k :=
  let m := fresh "m" in let tag := fresh "tag" in
  intros m tag ? ? ? ?;
  match goal with
  | Hat : bytes_at m (tag + 32) (replicate ?k' x00) |- _ =>
      change k' with k in Hat; rewrite <- (app_nil_l (replicate k x00)) in Hat
  end.

Ltac put g :=
  unfold store64, store32, store16;
  try match goal with
  | |- exists m', store_bytes ?m ?p ?zs = Some m' /\ _ =>
      rewrite <- (bind_with_Some (store_bytes m p zs))
  end;
  match goal with
  | Hsrc : forall m m', frame ?A ?C m m' -> ?src m -> ?src m', Hs : ?src ?m,
    Hat : bytes_at ?m ?a (?w ++ replicate ?k x00)
    |- exists m', mbind ?K (store_bytes ?m ?p ?zs) = Some m' /\ bytes_at m' ?a ?body /\
         frame ?a ?N ?m m' =>
      apply (put_step A C src Hsrc m a w k N zs p g K body Hs);
      [ lia | lia | exact Hat | autorewrite with zlen; unfold zlen in *; lia
      | rewrite ?length_le_encode; cbn [length]; lia | autorewrite with zlen; unfold zlen in *; lia |];
      clear Hs Hat;
      let m1 := fresh "m" in let Hs' := fresh "Hs" in let Hat' := fresh "Hat" in
      intros m1 Hs' Hat'; rewrite ?length_le_encode in Hat'; cbn [length Nat.sub] in Hat';
      try clear m
  end.

(** Evaluate a read that the source data determines. *)
Ltac rd H := rewrite H by eassumption; cbn [mbind option_bind].

Ltac finish := eapply put_end; [|eassumption].

(** ** Plans as plans of items *)

Lemma plan_then_ok P Q plan plan' :
  (P >>> Q) plan = (BBP_IMPORT_OK, plan') <->
  exists plan1, P plan = (BBP_IMPORT_OK, plan1) /\ Q plan1 = (BBP_IMPORT_OK, plan').
Proof.
  unfold plan_then. destruct (P plan) as [st p]. case_bool_decide; [subst|].
  - split; [eauto|]. by intros (? & [= <-] & ?).
  - split; [by intros [= -> _]|]. by intros (? & [= -> _] & _).
Qed.

Lemma plan_if_tag b (c : bool) id n body bytes plan plan' :
  (c = true -> bytes = 32 + n) ->
  plan_if c (fun plan => bbp_import_plan_tag b plan bytes) plan = (BBP_IMPORT_OK, plan') ->
  plan_items b plan (if c then [Item id [] n body] else []) = (BBP_IMPORT_OK, plan').
Proof.
  intros Hb. unfold plan_if. destruct c; [|done]. rewrite (Hb eq_refl). intros H.
  unfold plan_items, plan_item. cbn [i_blob i_size]. change (zlen [] =? 0) with true. cbn iota.
  rewrite bool_decide_eq_true_2 by done. by rewrite H, bool_decide_eq_true_2.
Qed.

Lemma plan_blob_tag b id line n body bytes plan plan1 plan' :
  zlen line <> 0 ->
  bbp_import_plan_blob b plan (zlen line) = (BBP_IMPORT_OK, plan1) -> bytes = 32 + n ->
  bbp_import_plan_tag b plan1 bytes = (BBP_IMPORT_OK, plan') ->
  plan_items b plan [Item id line n body] = (BBP_IMPORT_OK, plan').
Proof.
  intros Hl H1 -> H2. unfold plan_items, plan_item. cbn [i_blob i_size].
  rewrite (proj2 (Z.eqb_neq _ 0) Hl), H1, bool_decide_eq_true_2 by done.
  by rewrite H2, bool_decide_eq_true_2.
Qed.

Lemma plan_if_blob_tag b (c : bool) id line len n body bytes plan plan1 plan' :
  (c = true -> zlen line = len /\ zlen line <> 0) ->
  plan_if c (fun plan => bbp_import_plan_blob b plan len) plan = (BBP_IMPORT_OK, plan1) ->
  bytes = 32 + n ->
  plan_if c (fun plan => bbp_import_plan_tag b plan bytes) plan1 = (BBP_IMPORT_OK, plan') ->
  plan_items b plan (if c then [Item id line n body] else []) = (BBP_IMPORT_OK, plan').
Proof.
  intros Hl H1 Hb H2. unfold plan_if in H1, H2. destruct c; [|by simplify_eq].
  destruct (Hl eq_refl) as [<- ?]. by eapply plan_blob_tag.
Qed.

Lemma plan_items_seq b its1 its2 plan plan1 plan' :
  plan_items b plan its1 = (BBP_IMPORT_OK, plan1) ->
  plan_items b plan1 its2 = (BBP_IMPORT_OK, plan') ->
  plan_items b plan (its1 ++ its2) = (BBP_IMPORT_OK, plan').
Proof. intros. apply plan_items_app. eauto. Qed.
