(* ===== verification/ImportBodies.v ===== *)
(** * Tag bodies shared by the importers

    The bytes of the tags that several importers emit, with the proofs that the
    field-by-field stores of the C code produce them.  The importers' emission
    functions are static copies of one another; the lemmas are stated for the
    statement sequence, over any source that the emission leaves intact. *)

From S2P Require Import Prelude Memory Crc64 Abi Builder BuilderFacts Import ImportFacts ImportEmit.

(** ** Bodies of the tags *)

Definition hhdm_body (offset : Z) : list byte := le_encode 8 offset.

Definition kernel_address_body (phys virt : Z) : list byte := le_encode 8 phys ++ le_encode 8 virt.

Definition memory_entry_bytes (base length type attributes : Z) : list byte :=
  le_encode 8 base ++ le_encode 8 length ++ le_encode 4 type ++ le_encode 4 attributes ++
  replicate 8 x00.

Definition memory_map_body (entries : list (list byte)) : list byte :=
  le_encode 4 (zlen entries) ++ le_encode 4 32 ++ concat entries.

Definition cmdline_body (text : list byte) (phys : Z) : list byte :=
  le_encode 8 phys ++ le_encode 4 (zlen text) ++ replicate 4 x00 ++ le_encode 8 (crc64_of text).

Definition framebuffer_body (fb : bbp_import_framebuffer) : list byte :=
  le_encode 8 (fb_address fb) ++ le_encode 2 1 ++ le_encode 2 (fb_flags fb) ++
  le_encode 4 (fb_pitch fb) ++ le_encode 8 (fb_total_size fb) ++ replicate 16 x00 ++
  le_encode 2 (fb_width fb) ++ le_encode 2 (fb_height fb) ++ replicate 2 x00 ++
  le_encode 2 (fb_color_depth fb) ++ le_encode 4 (fb_pixel_format fb) ++ replicate 36 x00.

Definition acpi_body (rsdp xsdt oem version flags : Z) : list byte :=
  le_encode 8 rsdp ++ le_encode 8 xsdt ++ le_encode 4 oem ++ le_encode 2 version ++
  le_encode 2 flags.

Section Bodies.
Context (A C : Z) (src : mem -> Prop).
Context (Hsrc : forall m m', frame A C m m' -> src m -> src m').

Lemma hhdm_writes offset :
  writes A C src (fun m tag => store64 m (tag + 32) offset) 8 (hhdm_body offset).
Proof. start 8%nat. put 0%nat. by finish. Qed.

Lemma framebuffer_writes source fb :
  (forall m, src m -> framebuffer_at m source = Some fb) ->
  in_word 16 (fb_width fb) -> in_word 16 (fb_height fb) ->
  writes A C src (fun m tag =>
    s ← framebuffer_at m source;
    m ← store64 m (tag + 32) (fb_address s);
    m ← store16 m (tag + 40) 1;
    s ← framebuffer_at m source;
    m ← store16 m (tag + 42) (fb_flags s);
    s ← framebuffer_at m source;
    m ← store32 m (tag + 44) (fb_pitch s);
    s ← framebuffer_at m source;
    m ← store64 m (tag + 48) (fb_total_size s);
    s ← framebuffer_at m source;
    m ← store16 m (tag + 72) (wrap16 (fb_width s));
    s ← framebuffer_at m source;
    m ← store16 m (tag + 74) (wrap16 (fb_height s));
    s ← framebuffer_at m source;
    m ← store16 m (tag + 78) (fb_color_depth s);
    s ← framebuffer_at m source;
    store32 m (tag + 80) (fb_pixel_format s)) 88 (framebuffer_body fb).
Proof.
  intros Hrd Hw Hh. start 88%nat.
  rd Hrd. put 0%nat. put 0%nat. rd Hrd. put 0%nat. rd Hrd. put 0%nat. rd Hrd. put 0%nat.
  rd Hrd. rewrite wrap_small by done. put 16%nat. rd Hrd. rewrite wrap_small by done. put 0%nat.
  rd Hrd. put 2%nat. rd Hrd. put 0%nat. finish.
  unfold framebuffer_body. rewrite <- !app_assoc. reflexivity.
Qed.

Lemma acpi_writes source s :
  (forall m, src m -> acpi_at m source = Some s) ->
  writes A C src (fun m tag =>
    s ← acpi_at m source;
    m ← store64 m (tag + 32) (acpi_rsdp_address s);
    s ← acpi_at m source;
    m ← store64 m (tag + 40) (acpi_xsdt_address s);
    s ← acpi_at m source;
    m ← store32 m (tag + 48) (acpi_oem_id s);
    s ← acpi_at m source;
    m ← store16 m (tag + 52) (acpi_acpi_version s);
    s ← acpi_at m source;
    store16 m (tag + 54) (acpi_flags s)) 24
    (acpi_body (acpi_rsdp_address s) (acpi_xsdt_address s) (acpi_oem_id s)
       (acpi_acpi_version s) (acpi_flags s)).
Proof.
  intros Hrd. start 24%nat. rd Hrd. put 0%nat. rd Hrd. put 0%nat. rd Hrd. put 0%nat.
  rd Hrd. put 0%nat. rd Hrd. put 0%nat. by finish.
Qed.

Lemma cmdline_writes data text phys :
  (forall m, src m -> bytes_at m data text) -> in_word 32 (zlen text) ->
  writes A C src (fun m tag =>
    m ← store64 m (tag + 32) phys;
    m ← store32 m (tag + 40) (wrap32 (zlen text + 1 - 1));
    crc ← bbp_crc64 m data (Z.to_nat (zlen text + 1 - 1));
    store64 m (tag + 48) crc) 24 (cmdline_body text phys).
Proof.
  intros Hrd Hw. replace (zlen text + 1 - 1) with (zlen text) by lia. rewrite wrap_small by done.
  start 24%nat. put 0%nat. put 0%nat.
  rewrite bbp_crc64_spec. unfold zlen at 1. rewrite Nat2Z.id.
  rewrite (bytes_at_load _ _ _ (Hrd _ ltac:(eassumption))). cbn [mbind option_bind].
  put 4%nat. by finish.
Qed.

(** The command line is copied into the arena, terminator included. *)
Lemma command_line_emits data line :
  (forall m, src m -> bytes_at m data line) -> data <> 0 -> zlen line < 2 ^ 32 ->
  disjoint_range A C data (zlen line) -> (exists text, line = text ++ [x00]) ->
  emits A C src
    (emit_blob_tag data (zlen line) BBP_TAG_CMDLINE 56 (fun physical m tag =>
       m ← store64 m (tag + 32) physical;
       m ← store32 m (tag + 40) (wrap32 (zlen line - 1));
       crc ← bbp_crc64 m data (Z.to_nat (zlen line - 1));
       store64 m (tag + 48) crc))
    [Item BBP_TAG_CMDLINE line 24 (cmdline_body (removelast line))].
Proof.
  intros Hrd Hd Hlt Hdis [text Hline].
  assert (zlen line = zlen text + 1) as Hz by (rewrite Hline; autorewrite with zlen; lia).
  pose proof (zlen_nonneg text).
  assert (removelast line = text) as -> by (rewrite Hline; apply removelast_last).
  apply (emits_blob_tag A C src Hsrc data line BBP_TAG_CMDLINE 24);
    [lia|done|by intros| |done|lia|done|done].
  intros phys. rewrite Hz. apply cmdline_writes.
  - intros m Hm. specialize (Hrd m Hm). rewrite Hline in Hrd. by apply bytes_at_app in Hrd as [? _].
  - unfold in_word. lia.
Qed.
End Bodies.

(** ** Parts that may be absent *)

Definition on (present flag : Z) (it : item) : list item :=
  if has present flag then [it] else [].

Lemma on_wf present flag it : item_wf it -> Forall item_wf (on present flag it).
Proof. intros H. unfold on. destruct (has _ _); [by constructor; [|constructor]|constructor]. Qed.

Lemma memory_map_item_wf {X} (f : X -> list byte) l :
  (forall x, zlen (f x) = 32) ->
  item_wf (Item BBP_TAG_MEMORY_MAP [] (8 + 32 * zlen l) (fun _ => memory_map_body (map f l))).
Proof.
  intros Hf. pose proof (zlen_nonneg l). split; [done|cbn; lia|]. intros phys. cbn.
  unfold memory_map_body. autorewrite with zlen. rewrite (zlen_concat_map f 32) by done. lia.
Qed.

Lemma on_ids present flag it : sublist (map i_id (on present flag it)) [i_id it].
Proof. unfold on. destruct (has _ _); cbn; [done|apply sublist_nil_l]. Qed.

Lemma arena_nonneg m b ts : builder_rep m b ts -> 0 <= arena b /\ 0 <= capacity b.
Proof. intros [? _ ? _ _ _ _ _ _ _]. lia. Qed.

(** ** Strings *)

Lemma check_string_spec m b ts string line :
  builder_rep m b ts -> 0 <= str_data string -> 0 <= str_bytes string ->
  (str_data string <> 0 -> zlen line = str_bytes string /\ bytes_at m (str_data string) line) ->
  exists st,
    (if bbp_import_ranges_overlap (str_data string) (str_bytes string) (arena b) (capacity b)
     then Some BBP_IMPORT_ERR_RANGE else bbp_import_validate_string m string) = Some st /\
    (st = BBP_IMPORT_OK ->
     zlen line = str_bytes string /\ bytes_at m (str_data string) line /\
     str_data string <> 0 /\ zlen line < 2 ^ 32 /\
     disjoint_range (arena b) (capacity b) (str_data string) (zlen line) /\
     exists text, utf8_text text /\ line = text ++ [x00]).
Proof.
  intros Hrep Hd Hb Hline. destruct (arena_nonneg _ _ _ Hrep).
  destruct (bbp_import_ranges_overlap _ _ _ _) eqn:Eo; [eexists; split; [done|discriminate]|].
  apply ranges_apart in Eo as [Hdis _]; [|lia..].
  destruct (decide (str_data string = 0)) as [Hnull|Hnull].
  { unfold bbp_import_validate_string. rewrite Hnull. cbn [Z.eqb orb]. by eexists. }
  destruct (Hline Hnull) as [Hlen Hat].
  destruct (bbp_import_validate_string_spec m _ line Hat Hnull) as (st & Hst & Hor).
  exists st. destruct string as [data bytes]. cbn in *. subst bytes.
  split; [done|]. intros ->. destruct Hor as [(_ & Hmax & text & Ht)|[[? _]|[? _]]]; [|done..].
  unfold UINT32_MAX in Hmax. split_and!; try done; [lia|]. eauto.
Qed.

(** ** ACPI pointers *)

Definition valid_acpi (a : bbp_import_acpi) : Prop :=
  0 < acpi_rsdp_address a < 2 ^ 48 /\ 0 <= acpi_xsdt_address a < 2 ^ 48 /\
  0 <= acpi_flags a <= 3 /\ (acpi_xsdt_address a <> 0 <-> Z.odd (acpi_flags a) = true).

(** Flags as the two tests of [validate_acpi] read them. *)
Lemma acpi_flags_allowed f :
  in_word 16 f -> Z.land f (Z.lnot 3) = 0 -> 0 <= f <= 3 /\ (Z.land f 1 =? 0) = negb (Z.odd f).
Proof.
  intros Hf H. assert (f = f mod 4) as E.
  { apply Z.bits_inj_iff'. intros i Hi. destruct (Z.lt_ge_cases i 2).
    - by rewrite (Z.mod_pow2_bits_low f 2) by lia.
    - rewrite (Z.mod_pow2_bits_high f 2) by lia.
      apply (f_equal (fun z => Z.testbit z i)) in H. rewrite Z.land_spec, Z.bits_0, Z.lnot_spec in H by lia.
      rewrite (Z.bits_above_log2 3) in H by (cbn; lia). by rewrite andb_true_r in H. }
  pose proof (Z.mod_pos_bound f 4 ltac:(lia)). rewrite <- E in *. split; [lia|].
  assert (f = 0 \/ f = 1 \/ f = 2 \/ f = 3) as [->|[->|[->| ->]]] by lia; done.
Qed.

(** The guards of the importers' [validate_acpi]. *)
Lemma acpi_guards_ok a :
  in_word 64 (acpi_rsdp_address a) -> in_word 64 (acpi_xsdt_address a) -> in_word 16 (acpi_flags a) ->
  (reject negb (bbp_import_phys_address_valid (acpi_rsdp_address a) false)
          || negb (bbp_import_phys_address_valid (acpi_xsdt_address a) true)
     with BBP_IMPORT_ERR_RANGE;
   reject negb (Z.land (acpi_flags a)
             (Z.lnot (Z.lor BBP_ACPI_FLAG_XSDT_AVAILABLE BBP_ACPI_FLAG_SPCR_AVAILABLE)) =? 0)
     with BBP_IMPORT_ERR_FLAGS;
   reject negb (Bool.eqb (negb (Z.land (acpi_flags a) BBP_ACPI_FLAG_XSDT_AVAILABLE =? 0))
                  (negb (acpi_xsdt_address a =? 0))) with BBP_IMPORT_ERR_FLAGS;
   BBP_IMPORT_OK) = BBP_IMPORT_OK -> valid_acpi a.
Proof.
  intros [? _] [? _] Hf Hv.
  destruct (_ || _) eqn:G1 in Hv; [done|]. apply orb_false_iff in G1 as [G1 G2].
  apply negb_false_iff in G1, G2. apply phys_address_valid_iff in G1 as [G1 ?], G2 as [_ ?]; [|done..].
  change (Z.lor BBP_ACPI_FLAG_XSDT_AVAILABLE BBP_ACPI_FLAG_SPCR_AVAILABLE) with 3 in Hv.
  destruct (Z.eqb_spec (Z.land (acpi_flags a) (Z.lnot 3)) 0) as [G3|]; [|done].
  destruct (acpi_flags_allowed _ Hf G3) as [Hr Ho].
  change (Z.land (acpi_flags a) BBP_ACPI_FLAG_XSDT_AVAILABLE) with (Z.land (acpi_flags a) 1) in Hv.
  rewrite Ho in Hv. specialize (G1 eq_refl). split_and!; try lia.
  destruct (Z.odd (acpi_flags a)), (Z.eqb_spec (acpi_xsdt_address a) 0); cbn in Hv; try done.
Qed.

(** The guard on the kernel's addresses. *)
Lemma kernel_guard_ok (c : bool) phys virt :
  0 <= phys ->
  (reject c && (negb (bbp_import_phys_address_valid phys true) || (virt =? 0))
     with BBP_IMPORT_ERR_RANGE; BBP_IMPORT_OK) = BBP_IMPORT_OK ->
  c = true -> phys < 2 ^ 48 /\ virt <> 0.
Proof.
  intros Hp H ->. cbn [andb] in H.
  destruct (_ || _) eqn:G in H; [done|]. apply orb_false_iff in G as [G1 G2].
  apply negb_false_iff in G1. apply Z.eqb_neq in G2.
  by apply phys_address_valid_iff in G1 as [_ ?].
Qed.

(** ** Sources outside the arena *)

Lemma frame_same_on A C m m' p n : frame A C m m' -> disjoint_range A C p n -> same_on m m' p n.
Proof. intros [_ F] D x Hx. apply F. intros Hx'. by apply (D x). Qed.

Lemma mapped_by_load m p n : bool_decide (is_Some (load_bytes m p n)) = true -> mapped m p (Z.of_nat n).
Proof.
  intros H. apply bool_decide_eq_true in H as [bs Hbs]. by eapply load_mapped.
Qed.
