(* ===== verification/ImportLimine.v ===== *)
(** * The Limine importer (bootloader/bbp_import_limine.c)

    A normalized snapshot of Limine responses becomes BBP tags.  The snapshot
    and its arrays live in memory; the importer validates them, plans every
    allocation and only then calls the builder. *)

From S2P Require Import Prelude Memory Crc64 Abi Builder BuilderFacts Import ImportFacts ImportEmit.

(** ** The snapshot *)

Record bbp_limine_mmap_entry := LimineEntry { le_base : Z; le_length : Z; le_type : Z }.
Record bbp_limine_cpu := LimineCpu { lc_processor_id : Z; lc_apic_id : Z }.

Record bbp_limine_snapshot := LimineSnapshot {
  l_present : Z;
  l_hhdm_offset : Z;
  l_kernel_physical_base : Z;
  l_kernel_virtual_base : Z;
  l_memory_map : Z;
  l_memory_map_count : Z;
  l_cpus : Z;
  l_cpu_count : Z;
  l_bsp_apic_id : Z;
  l_x2apic : Z;
  l_command_line : bbp_import_string;
  l_framebuffer : bbp_import_framebuffer;
  l_acpi : bbp_import_acpi;
}.

Definition SIZEOF_LIMINE_SNAPSHOT : Z := 152.
Definition SIZEOF_LIMINE_ENTRY : Z := 24.
Definition SIZEOF_LIMINE_CPU : Z := 8.

Definition limine_snapshot_of (bs : list byte) : bbp_limine_snapshot :=
  LimineSnapshot (raw bs 0 8) (raw bs 8 8) (raw bs 16 8) (raw bs 24 8) (raw bs 32 8)
    (raw bs 40 8) (raw bs 48 8) (raw bs 56 8) (raw bs 64 4) (raw bs 68 1)
    (string_of bs 72) (framebuffer_of bs 88) (acpi_of bs 128).

Definition limine_snapshot_at (m : mem) (p : Z) : option bbp_limine_snapshot :=
  bs ← load_bytes m p 152; Some (limine_snapshot_of bs).

(** [snapshot->memory_map[i]] and [snapshot->cpus[i]] *)
Definition limine_entry_at (m : mem) (p : Z) : option bbp_limine_mmap_entry :=
  base ← load64 m p;
  length ← load64 m (p + 8);
  type ← load64 m (p + 16);
  Some (LimineEntry base length type).

Definition limine_cpu_at (m : mem) (p : Z) : option bbp_limine_cpu :=
  processor_id ← load32 m p;
  apic_id ← load32 m (p + 4);
  Some (LimineCpu processor_id apic_id).

Definition LIMINE_ALLOWED : Z :=
  Z.lor (Z.lor (Z.lor (Z.lor (Z.lor (Z.lor BBP_IMPORT_HAS_HHDM BBP_IMPORT_HAS_MEMORY_MAP)
    BBP_IMPORT_HAS_KERNEL_ADDRESS) BBP_IMPORT_HAS_SMP) BBP_IMPORT_HAS_CMDLINE)
    BBP_IMPORT_HAS_FRAMEBUFFER) BBP_IMPORT_HAS_ACPI.

(** ** Translation tables *)

Definition limine_memory_type (type : Z) : Z :=
  if type <? 8 then
    nth (Z.to_nat type)
      [BBP_MEM_USABLE; BBP_MEM_RESERVED; BBP_MEM_ACPI_RECLAIMABLE; BBP_MEM_ACPI_NVS;
       BBP_MEM_BAD_MEMORY; BBP_MEM_BOOTLOADER_RECLAIM; BBP_MEM_KERNEL_AND_MODULES;
       BBP_MEM_FRAMEBUFFER] BBP_MEM_RESERVED
  else BBP_MEM_RESERVED.

Definition limine_memory_attributes (type : Z) : Z :=
  if (type =? BBP_MEM_USABLE) || (type =? BBP_MEM_BOOTLOADER_RECLAIM)
     || (type =? BBP_MEM_KERNEL_AND_MODULES) || (type =? BBP_MEM_FRAMEBUFFER)
  then Z.lor BBP_MEM_ATTR_READABLE BBP_MEM_ATTR_WRITABLE
  else if (type =? BBP_MEM_ACPI_RECLAIMABLE) || (type =? BBP_MEM_ACPI_NVS)
  then BBP_MEM_ATTR_READABLE
  else 0.

Definition BBP_SMP_FLAG_X2APIC : Z := Z.shiftl 1 0.
Definition BBP_CPU_STATE_STOPPED : Z := 0.
Definition BBP_CPU_STATE_RUNNING : Z := 1.

Definition validate_acpi (acpi : bbp_import_acpi) : bbp_import_status :=
  reject negb (bbp_import_phys_address_valid (acpi_rsdp_address acpi) false)
         || negb (bbp_import_phys_address_valid (acpi_xsdt_address acpi) true)
    with BBP_IMPORT_ERR_RANGE;
  reject negb (Z.land (acpi_flags acpi)
            (Z.lnot (Z.lor BBP_ACPI_FLAG_XSDT_AVAILABLE BBP_ACPI_FLAG_SPCR_AVAILABLE)) =? 0)
    with BBP_IMPORT_ERR_FLAGS;
  reject negb (Bool.eqb (negb (Z.land (acpi_flags acpi) BBP_ACPI_FLAG_XSDT_AVAILABLE =? 0))
                 (negb (acpi_xsdt_address acpi =? 0))) with BBP_IMPORT_ERR_FLAGS;
  BBP_IMPORT_OK.

(** ** Emission *)

Definition emit_hhdm (offset : Z) : emitter :=
  emit_tag BBP_TAG_HHDM SIZEOF_TAG_HHDM (fun m tag => store64 m (tag + 32) offset).

(** Statements that read the snapshot through its pointer. *)
Definition reading (snapshot : Z) (K : bbp_limine_snapshot -> emitter) : emitter :=
  fun m b => s ← limine_snapshot_at m snapshot; K s m b.

Definition emit_kernel_address (snapshot : Z) : emitter :=
  emit_tag BBP_TAG_KERNEL_ADDRESS 48 (fun m tag =>
    s ← limine_snapshot_at m snapshot;
    m ← store64 m (tag + 32) (l_kernel_physical_base s);
    s ← limine_snapshot_at m snapshot;
    store64 m (tag + 40) (l_kernel_virtual_base s)).

Fixpoint memory_map_loop (m : mem) (snapshot entries i : Z) (n : nat) : option mem :=
  match n with
  | O => Some m
  | S n =>
      s ← limine_snapshot_at m snapshot;
      e ← limine_entry_at m (l_memory_map s + i * SIZEOF_LIMINE_ENTRY);
      m ← store64 m (entries + i * 32) (le_base e);
      e ← limine_entry_at m (l_memory_map s + i * SIZEOF_LIMINE_ENTRY);
      m ← store64 m (entries + i * 32 + 8) (le_length e);
      e ← limine_entry_at m (l_memory_map s + i * SIZEOF_LIMINE_ENTRY);
      m ← store32 m (entries + i * 32 + 16) (limine_memory_type (le_type e));
      type ← load32 m (entries + i * 32 + 16);
      m ← store32 m (entries + i * 32 + 20) (limine_memory_attributes type);
      memory_map_loop m snapshot entries (i + 1) n
  end.

Definition emit_memory_map (snapshot tag_size : Z) : emitter :=
  reading snapshot (fun s =>
    let count := wrap32 (l_memory_map_count s) in
    emit_tag BBP_TAG_MEMORY_MAP tag_size (fun m tag =>
      m ← store32 m (tag + 32) count;
      m ← store32 m (tag + 36) 32;
      memory_map_loop m snapshot (tag + 40) 0 (Z.to_nat count))).

Fixpoint smp_loop (m : mem) (snapshot cpus i : Z) (n : nat) : option mem :=
  match n with
  | O => Some m
  | S n =>
      s ← limine_snapshot_at m snapshot;
      c ← limine_cpu_at m (l_cpus s + i * SIZEOF_LIMINE_CPU);
      m ← store32 m (cpus + i * 48) (lc_processor_id c);
      c ← limine_cpu_at m (l_cpus s + i * SIZEOF_LIMINE_CPU);
      m ← store32 m (cpus + i * 48 + 4) (lc_apic_id c);
      c ← limine_cpu_at m (l_cpus s + i * SIZEOF_LIMINE_CPU);
      m ← store16 m (cpus + i * 48 + 8)
            (if lc_apic_id c =? l_bsp_apic_id s then BBP_CPU_STATE_RUNNING
             else BBP_CPU_STATE_STOPPED);
      smp_loop m snapshot cpus (i + 1) n
  end.

Definition emit_smp (snapshot tag_size : Z) : emitter :=
  reading snapshot (fun s =>
    let count := wrap32 (l_cpu_count s) in
    emit_tag BBP_TAG_SMP tag_size (fun m tag =>
      m ← store32 m (tag + 32) count;
      s ← limine_snapshot_at m snapshot;
      m ← store32 m (tag + 36) (l_bsp_apic_id s);
      s ← limine_snapshot_at m snapshot;
      m ← store64 m (tag + 40) (if negb (l_x2apic s =? 0) then BBP_SMP_FLAG_X2APIC else 0);
      smp_loop m snapshot (tag + 48) 0 (Z.to_nat count))).

Definition emit_cmdline (string : bbp_import_string) : emitter :=
  emit_blob_tag (str_data string) (str_bytes string) BBP_TAG_CMDLINE 56 (fun physical m tag =>
    m ← store64 m (tag + 32) physical;
    m ← store32 m (tag + 40) (wrap32 (str_bytes string - 1));
    crc ← bbp_crc64 m (str_data string) (Z.to_nat (str_bytes string - 1));
    store64 m (tag + 48) crc).

Definition emit_framebuffer (source : Z) : emitter :=
  emit_tag BBP_TAG_FRAMEBUFFER (72 + 48) (fun m tag =>
    s ← framebuffer_at m source;
    m ← store64 m (tag + 32) (fb_address s);
    m ← store16 m (tag + 40) 1;
    s ← framebuffer_at m source;
    m ← store16 m (tag + 42) (fb_flags s);
    s ← framebuffer_at m source;
    m ← store32 m (tag + 44) (fb_pitch s);
    s ← framebuffer_at m source;
    m ← store64 m (tag + 48) (fb_total_size s);
    s ← framebuffer_at m source;
    m ← store16 m (tag + 72) (wrap16 (fb_width s));
    s ← framebuffer_at m source;
    m ← store16 m (tag + 74) (wrap16 (fb_height s));
    s ← framebuffer_at m source;
    m ← store16 m (tag + 78) (fb_color_depth s);
    s ← framebuffer_at m source;
    store32 m (tag + 80) (fb_pixel_format s)).

Definition emit_acpi (source : Z) : emitter :=
  emit_tag BBP_TAG_ACPI 56 (fun m tag =>
    s ← acpi_at m source;
    m ← store64 m (tag + 32) (acpi_rsdp_address s);
    s ← acpi_at m source;
    m ← store64 m (tag + 40) (acpi_xsdt_address s);
    s ← acpi_at m source;
    m ← store32 m (tag + 48) (acpi_oem_id s);
    s ← acpi_at m source;
    m ← store16 m (tag + 52) (acpi_acpi_version s);
    s ← acpi_at m source;
    store16 m (tag + 54) (acpi_flags s)).

(** ** Validation

    Each check returns an early status; the array checks also return the size
    of the tag they will need (0 when the part is absent). *)

Fixpoint check_entries (m : mem) (memory_map i : Z) (n : nat) : option bbp_import_status :=
  match n with
  | O => Some BBP_IMPORT_OK
  | S n =>
      e ← limine_entry_at m (memory_map + i * SIZEOF_LIMINE_ENTRY);
      reject negb (bbp_import_phys_range_valid (le_base e) (le_length e))
        with Some BBP_IMPORT_ERR_RANGE;
      check_entries m memory_map (i + 1) n
  end.

Definition check_memory_map (m : mem) (b : bbp_builder) (s : bbp_limine_snapshot) :
    option (bbp_import_status * Z) :=
  check has (l_present s) BBP_IMPORT_HAS_MEMORY_MAP else Some (BBP_IMPORT_OK, 0);
  reject (l_memory_map s =? 0) || (l_memory_map_count s =? 0) with Some (BBP_IMPORT_ERR_NULL, 0);
  let '(status, size) := bbp_import_array_tag_size 40 (l_memory_map_count s) 32 (Some 0) in
  let size := default 0 size in
  reject negb (bool_decide (status = BBP_IMPORT_OK)) with Some (status, size);
  reject bbp_import_ranges_overlap (l_memory_map s)
           (wrap64 (l_memory_map_count s * SIZEOF_LIMINE_ENTRY)) (arena b) (capacity b)
    with Some (BBP_IMPORT_ERR_RANGE, size);
  status ← check_entries m (l_memory_map s) 0 (Z.to_nat (l_memory_map_count s));
  Some (status, size).

(** [for (j = 0; j < i; j++)]: does an earlier processor have the identifier? *)
Fixpoint earlier_cpu (m : mem) (cpus i j : Z) (n : nat) : option bool :=
  match n with
  | O => Some false
  | S n =>
      ci ← limine_cpu_at m (cpus + i * SIZEOF_LIMINE_CPU);
      cj ← limine_cpu_at m (cpus + j * SIZEOF_LIMINE_CPU);
      reject lc_apic_id ci =? lc_apic_id cj with Some true;
      earlier_cpu m cpus i (j + 1) n
  end.

(** The status and [bsp_found]. *)
Fixpoint check_cpus (m : mem) (cpus bsp_apic_id i : Z) (bsp_found : bool) (n : nat) :
    option (bbp_import_status * bool) :=
  match n with
  | O => Some (BBP_IMPORT_OK, bsp_found)
  | S n =>
      c ← limine_cpu_at m (cpus + i * SIZEOF_LIMINE_CPU);
      let bsp_found := (lc_apic_id c =? bsp_apic_id) || bsp_found in
      duplicate ← earlier_cpu m cpus i 0 (Z.to_nat i);
      reject (duplicate : bool) with Some (BBP_IMPORT_ERR_DUPLICATE, bsp_found);
      check_cpus m cpus bsp_apic_id (i + 1) bsp_found n
  end.

Definition check_smp (m : mem) (b : bbp_builder) (s : bbp_limine_snapshot) :
    option (bbp_import_status * Z) :=
  check has (l_present s) BBP_IMPORT_HAS_SMP else Some (BBP_IMPORT_OK, 0);
  reject (l_cpus s =? 0) || (l_cpu_count s =? 0) with Some (BBP_IMPORT_ERR_NULL, 0);
  reject 1 <? l_x2apic s with Some (BBP_IMPORT_ERR_FLAGS, 0);
  let '(status, size) := bbp_import_array_tag_size 48 (l_cpu_count s) 48 (Some 0) in
  let size := default 0 size in
  reject negb (bool_decide (status = BBP_IMPORT_OK)) with Some (status, size);
  reject bbp_import_ranges_overlap (l_cpus s) (wrap64 (l_cpu_count s * SIZEOF_LIMINE_CPU))
           (arena b) (capacity b) with Some (BBP_IMPORT_ERR_RANGE, size);
  '(status, bsp_found) ← check_cpus m (l_cpus s) (l_bsp_apic_id s) 0 false
                           (Z.to_nat (l_cpu_count s));
  reject negb (bool_decide (status = BBP_IMPORT_OK)) with Some (status, size);
  reject negb bsp_found with Some (BBP_IMPORT_ERR_RANGE, size);
  Some (BBP_IMPORT_OK, size).

Definition check_kernel_address (s : bbp_limine_snapshot) : bbp_import_status :=
  reject has (l_present s) BBP_IMPORT_HAS_KERNEL_ADDRESS
         && (negb (bbp_import_phys_address_valid (l_kernel_physical_base s) true)
             || (l_kernel_virtual_base s =? 0)) with BBP_IMPORT_ERR_RANGE;
  BBP_IMPORT_OK.

Definition check_cmdline (m : mem) (b : bbp_builder) (s : bbp_limine_snapshot) :
    option bbp_import_status :=
  check has (l_present s) BBP_IMPORT_HAS_CMDLINE else Some BBP_IMPORT_OK;
  reject bbp_import_ranges_overlap (str_data (l_command_line s)) (str_bytes (l_command_line s))
           (arena b) (capacity b) with Some BBP_IMPORT_ERR_RANGE;
  bbp_import_validate_string m (l_command_line s).

Definition check_framebuffer (s : bbp_limine_snapshot) : bbp_import_status :=
  check has (l_present s) BBP_IMPORT_HAS_FRAMEBUFFER else BBP_IMPORT_OK;
  bbp_import_validate_framebuffer (Some (l_framebuffer s)).

Definition check_acpi (s : bbp_limine_snapshot) : bbp_import_status :=
  check has (l_present s) BBP_IMPORT_HAS_ACPI else BBP_IMPORT_OK;
  validate_acpi (l_acpi s).

(** ** Plan, emission and the importer *)

Definition limine_plan (b : bbp_builder) (s : bbp_limine_snapshot) (memory_map_size smp_size : Z) :
    bbp_import_plan -> bbp_import_status * bbp_import_plan :=
  let tag_if flag bytes :=
    plan_if (has (l_present s) flag) (fun plan => bbp_import_plan_tag b plan bytes) in
  (tag_if BBP_IMPORT_HAS_HHDM SIZEOF_TAG_HHDM >>>
   tag_if BBP_IMPORT_HAS_MEMORY_MAP memory_map_size >>>
   tag_if BBP_IMPORT_HAS_KERNEL_ADDRESS 48 >>>
   tag_if BBP_IMPORT_HAS_SMP smp_size >>>
   plan_if (has (l_present s) BBP_IMPORT_HAS_CMDLINE)
     (fun plan => bbp_import_plan_blob b plan (str_bytes (l_command_line s))) >>>
   tag_if BBP_IMPORT_HAS_CMDLINE 56 >>>
   tag_if BBP_IMPORT_HAS_FRAMEBUFFER (72 + 48) >>>
   tag_if BBP_IMPORT_HAS_ACPI 56).

Definition limine_emit (snapshot memory_map_size smp_size : Z) : emitter :=
  let emit_if flag E := reading snapshot (fun s => emit_when (has (l_present s) flag) (E s)) in
  (emit_if BBP_IMPORT_HAS_HHDM (fun s => emit_hhdm (l_hhdm_offset s)) ;;;
   emit_if BBP_IMPORT_HAS_MEMORY_MAP (fun _ => emit_memory_map snapshot memory_map_size) ;;;
   emit_if BBP_IMPORT_HAS_KERNEL_ADDRESS (fun _ => emit_kernel_address snapshot) ;;;
   emit_if BBP_IMPORT_HAS_SMP (fun _ => emit_smp snapshot smp_size) ;;;
   emit_if BBP_IMPORT_HAS_CMDLINE (fun s => emit_cmdline (l_command_line s)) ;;;
   emit_if BBP_IMPORT_HAS_FRAMEBUFFER (fun _ => emit_framebuffer (snapshot + 88)) ;;;
   emit_if BBP_IMPORT_HAS_ACPI (fun _ => emit_acpi (snapshot + 128))).

(** The parts of the function before the first builder call, with the plan it
    completes: [inl] is an early return, [inr] the two tag sizes. *)
Definition limine_validate (m : mem) (b : bbp_builder) (snapshot : Z) :
    option (bbp_import_status + Z * Z) :=
  let fail status := Some (inl status) in
  reject bbp_import_ranges_overlap snapshot SIZEOF_LIMINE_SNAPSHOT (arena b) (capacity b)
    with fail BBP_IMPORT_ERR_RANGE;
  s ← limine_snapshot_at m snapshot;
  reject negb (Z.land (l_present s) (wrap64 (Z.lnot LIMINE_ALLOWED)) =? 0)
    with fail BBP_IMPORT_ERR_FLAGS;
  '(status, plan) ← bbp_import_plan_begin m (Some b) (Some (ImportPlan 0 0));
  let plan := default (ImportPlan 0 0) plan in
  reject negb (bool_decide (status = BBP_IMPORT_OK)) with fail status;
  '(status, memory_map_size) ← check_memory_map m b s;
  reject negb (bool_decide (status = BBP_IMPORT_OK)) with fail status;
  try Some (check_kernel_address s) or fail;
  '(status, smp_size) ← check_smp m b s;
  reject negb (bool_decide (status = BBP_IMPORT_OK)) with fail status;
  try check_cmdline m b s or fail;
  try Some (check_framebuffer s) or fail;
  try Some (check_acpi s) or fail;
  let '(status, plan) := limine_plan b s memory_map_size smp_size plan in
  reject negb (bool_decide (status = BBP_IMPORT_OK)) with fail status;
  Some (inr (memory_map_size, smp_size)).

Definition bbp_import_limine (m : mem) (builder : option bbp_builder) (snapshot : Z) :
    option (mem * option bbp_builder * bbp_import_status) :=
  match builder with
  | None => Some (m, None, BBP_IMPORT_ERR_NULL)
  | Some b =>
      reject snapshot =? 0 with Some (m, Some b, BBP_IMPORT_ERR_NULL);
      r ← limine_validate m b snapshot;
      match r with
      | inl status => Some (m, Some b, status)
      | inr (memory_map_size, smp_size) =>
          '(m, b) ← limine_emit snapshot memory_map_size smp_size m b;
          Some (m, Some b, BBP_IMPORT_OK)
      end
  end.
