(* ===== verification/ImportLimineProps.v ===== *)
(** * Properties of the Limine importer

    Whatever a snapshot contains, importing it never faults; a refused
    snapshot changes nothing; an accepted one is valid and appends exactly the
    tags that describe it. *)

From S2P Require Import Prelude Memory Crc64 Abi Builder BuilderFacts Import ImportFacts ImportEmit ImportBodies ImportLimine.

(** ** Bodies of the tags *)

Section Bodies.
Context (A C : Z) (src : mem -> Prop).
Context (Hsrc : forall m m', frame A C m m' -> src m -> src m').

Section Limine.
Context (snapshot : Z) (s : bbp_limine_snapshot).
Context (Hs : forall m, src m -> limine_snapshot_at m snapshot = Some s).

Lemma kernel_address_writes :
  writes A C src (fun m tag =>
    s ← limine_snapshot_at m snapshot;
    m ← store64 m (tag + 32) (l_kernel_physical_base s);
    s ← limine_snapshot_at m snapshot;
    store64 m (tag + 40) (l_kernel_virtual_base s)) 16
    (kernel_address_body (l_kernel_physical_base s) (l_kernel_virtual_base s)).
Proof. start 16%nat. rd Hs. put 0%nat. rd Hs. put 0%nat. by finish. Qed.

Definition limine_entry_bytes (e : bbp_limine_mmap_entry) : list byte :=
  let type := limine_memory_type (le_type e) in
  memory_entry_bytes (le_base e) (le_length e) type (limine_memory_attributes type).

Lemma limine_memory_type_word type : in_word 32 (limine_memory_type type).
Proof.
  unfold limine_memory_type, in_word. case_match; [|done].
  match goal with |- context [nth ?n ?l ?d] => destruct (nth_in_or_default n l d) as [H'| ->] end;
    [|done]. cbn [In] in H'. repeat (destruct H' as [<-|H']; [done|]). done.
Qed.

Lemma memory_map_loop_writes a entries N : forall rest i written m,
  (forall m, src m -> forall j e, entries !! j = Some e ->
     limine_entry_at m (l_memory_map s + Z.of_nat j * 24) = Some e) ->
  A <= a -> a + N <= A + C ->
  src m -> bytes_at m a (written ++ replicate (32 * length rest) x00) ->
  drop i entries = rest -> zlen written = 8 + 32 * Z.of_nat i ->
  zlen written + 32 * zlen rest = N ->
  exists m', memory_map_loop m snapshot (a + 8) (Z.of_nat i) (length rest) = Some m' /\
    bytes_at m' a (written ++ concat (map limine_entry_bytes rest)) /\ frame a N m m'.
Proof.
  induction rest as [|e rest IH]; intros i written m Hrd Ha HN Hsm Hat Hdrop Hlen Hall.
  { exists m. split_and!; [done|done|apply frame_refl]. }
  assert (forall m, src m -> limine_entry_at m (l_memory_map s + Z.of_nat i * SIZEOF_LIMINE_ENTRY) = Some e)
    as He.
  { intros m1 Hm1. apply Hrd; [done|]. rewrite <- (Nat.add_0_r i), <- lookup_drop, Hdrop. done. }
  cbn [memory_map_loop length] in Hat |- *. rewrite zlen_cons in Hall.
  rd Hs. rd He. put 0%nat. rd He. put 0%nat. rd He. put 0%nat.
  unfold load32. erewrite read_back; [|eassumption|apply limine_memory_type_word|autorewrite with zlen; lia].
  cbn [mbind option_bind]. put 0%nat.
  eapply (advance _ _ _ _ 8 (32 * length rest)) in Hat; [|lia].
  replace (Z.of_nat i + 1) with (Z.of_nat (S i)) by lia.
  destruct (IH (S i) _ _ Hrd Ha HN Hs0 Hat) as (m' & Hl & Hb & Hf).
  { by eapply drop_S_cons. }
  { autorewrite with zlen. lia. }
  { autorewrite with zlen. lia. }
  exists m'. split_and!; [done| |done]. by rewrite <- !app_assoc in Hb.
Qed.

(** Processors: the bootstrap processor runs, the others are stopped. *)
Definition limine_cpu_bytes (bsp : Z) (c : bbp_limine_cpu) : list byte :=
  le_encode 4 (lc_processor_id c) ++ le_encode 4 (lc_apic_id c) ++
  le_encode 2 (if lc_apic_id c =? bsp then BBP_CPU_STATE_RUNNING else BBP_CPU_STATE_STOPPED) ++
  replicate 38 x00.

Definition smp_body (bsp x2apic : Z) (cpus : list bbp_limine_cpu) : list byte :=
  le_encode 4 (zlen cpus) ++ le_encode 4 bsp ++
  le_encode 8 (if negb (x2apic =? 0) then BBP_SMP_FLAG_X2APIC else 0) ++
  concat (map (limine_cpu_bytes bsp) cpus).

Lemma smp_loop_writes a cpus N : forall rest i written m,
  (forall m, src m -> forall j c, cpus !! j = Some c ->
     limine_cpu_at m (l_cpus s + Z.of_nat j * 8) = Some c) ->
  A <= a -> a + N <= A + C ->
  src m -> bytes_at m a (written ++ replicate (48 * length rest) x00) ->
  drop i cpus = rest -> zlen written = 16 + 48 * Z.of_nat i ->
  zlen written + 48 * zlen rest = N ->
  exists m', smp_loop m snapshot (a + 16) (Z.of_nat i) (length rest) = Some m' /\
    bytes_at m' a (written ++ concat (map (limine_cpu_bytes (l_bsp_apic_id s)) rest)) /\
    frame a N m m'.
Proof.
  induction rest as [|c rest IH]; intros i written m Hrd Ha HN Hsm Hat Hdrop Hlen Hall.
  { exists m. split_and!; [done|done|apply frame_refl]. }
  assert (forall m, src m -> limine_cpu_at m (l_cpus s + Z.of_nat i * SIZEOF_LIMINE_CPU) = Some c)
    as He.
  { intros m1 Hm1. apply Hrd; [done|]. rewrite <- (Nat.add_0_r i), <- lookup_drop, Hdrop. done. }
  cbn [smp_loop length] in Hat |- *. rewrite zlen_cons in Hall.
  rd Hs. rd He. put 0%nat. rd He. put 0%nat. rd He. put 0%nat.
  eapply (advance _ _ _ _ 38 (48 * length rest)) in Hat; [|lia].
  replace (Z.of_nat i + 1) with (Z.of_nat (S i)) by lia.
  destruct (IH (S i) _ _ Hrd Ha HN Hs0 Hat) as (m' & Hl & Hb & Hf).
  { by eapply drop_S_cons. }
  { autorewrite with zlen. lia. }
  { autorewrite with zlen. lia. }
  exists m'. split_and!; [done| |done]. by rewrite <- !app_assoc in Hb.
Qed.
End Limine.
End Bodies.

(** ** Sources and valid snapshots *)

Abbreviation present s flag := (has (l_present s) flag = true).

Definition entries_at (m : mem) (p : Z) (entries : list bbp_limine_mmap_entry) : Prop :=
  forall j e, entries !! j = Some e -> limine_entry_at m (p + Z.of_nat j * SIZEOF_LIMINE_ENTRY) = Some e.
Definition cpus_at (m : mem) (p : Z) (cpus : list bbp_limine_cpu) : Prop :=
  forall j c, cpus !! j = Some c -> limine_cpu_at m (p + Z.of_nat j * SIZEOF_LIMINE_CPU) = Some c.

(** What a caller hands over: a readable snapshot whose non-NULL arrays and
    string have at least the extent it claims.  [line] is the command line with
    its terminator. *)
Record limine_source (m : mem) (snapshot : Z) (s : bbp_limine_snapshot)
    (entries : list bbp_limine_mmap_entry) (cpus : list bbp_limine_cpu) (line : list byte) : Prop := {
  ls_address : 0 < snapshot;
  ls_snapshot : limine_snapshot_at m snapshot = Some s;
  ls_entries : present s BBP_IMPORT_HAS_MEMORY_MAP -> l_memory_map s <> 0 ->
    l_memory_map_count s < 2 ^ 32 ->
    zlen entries = l_memory_map_count s /\ entries_at m (l_memory_map s) entries;
  ls_cpus : present s BBP_IMPORT_HAS_SMP -> l_cpus s <> 0 -> l_cpu_count s < 2 ^ 32 ->
    zlen cpus = l_cpu_count s /\ cpus_at m (l_cpus s) cpus;
  ls_line : present s BBP_IMPORT_HAS_CMDLINE -> str_data (l_command_line s) <> 0 ->
    zlen line = str_bytes (l_command_line s) /\ bytes_at m (str_data (l_command_line s)) line;
}.

Definition valid_entry (e : bbp_limine_mmap_entry) : Prop :=
  0 < le_length e /\ le_base e + le_length e <= 2 ^ 48.

Record limine_valid (s : bbp_limine_snapshot) (entries : list bbp_limine_mmap_entry)
    (cpus : list bbp_limine_cpu) (line : list byte) : Prop := {
  lv_entries : present s BBP_IMPORT_HAS_MEMORY_MAP -> entries <> [] /\ Forall valid_entry entries;
  lv_kernel : present s BBP_IMPORT_HAS_KERNEL_ADDRESS ->
    l_kernel_physical_base s < 2 ^ 48 /\ l_kernel_virtual_base s <> 0;
  lv_cpus : present s BBP_IMPORT_HAS_SMP ->
    NoDup (map lc_apic_id cpus) /\ In (l_bsp_apic_id s) (map lc_apic_id cpus) /\ l_x2apic s <= 1;
  lv_line : present s BBP_IMPORT_HAS_CMDLINE -> exists text, utf8_text text /\ line = text ++ [x00];
  lv_framebuffer : present s BBP_IMPORT_HAS_FRAMEBUFFER -> exists bpp, framebuffer_ok (l_framebuffer s) bpp;
  lv_acpi : present s BBP_IMPORT_HAS_ACPI -> valid_acpi (l_acpi s);
}.

(** A snapshot's fields have the width of their C types. *)
Record limine_typed (s : bbp_limine_snapshot) : Prop := {
  lt_map : in_word 64 (l_memory_map s);
  lt_count : in_word 64 (l_memory_map_count s);
  lt_cpus : in_word 64 (l_cpus s);
  lt_cpu_count : in_word 64 (l_cpu_count s);
  lt_kernel : in_word 64 (l_kernel_physical_base s);
  lt_data : in_word 64 (str_data (l_command_line s));
  lt_bytes : in_word 64 (str_bytes (l_command_line s));
  lt_framebuffer : framebuffer_typed (l_framebuffer s);
  lt_rsdp : in_word 64 (acpi_rsdp_address (l_acpi s));
  lt_xsdt : in_word 64 (acpi_xsdt_address (l_acpi s));
  lt_flags : in_word 16 (acpi_flags (l_acpi s));
}.

Lemma limine_snapshot_typed m p s : limine_snapshot_at m p = Some s -> limine_typed s.
Proof.
  unfold limine_snapshot_at. intros H. apply bind_Some in H as (bs & Hbs & [= <-]).
  apply load_bytes_length in Hbs.
  split; cbn; try (apply (raw_word bs _ 8); lia); try (apply (raw_word bs _ 2); lia).
  apply framebuffer_of_typed. lia.
Qed.

(** ** Validation *)

Lemma limine_entry_words m p e : limine_entry_at m p = Some e -> 0 <= le_base e /\ 0 <= le_length e.
Proof.
  unfold limine_entry_at. intros H. bind_inv. simplify_eq. cbn.
  apply load64_word in Hv, Hv0. unfold in_word in *. lia.
Qed.

Lemma check_entries_spec m p entries : forall rest i,
  entries_at m p entries -> drop i entries = rest ->
  exists st, check_entries m p (Z.of_nat i) (length rest) = Some st /\
    (st = BBP_IMPORT_OK -> Forall valid_entry rest).
Proof.
  induction rest as [|e rest IH]; intros i Hat Hdrop.
  { eexists. split; [done|]. constructor. }
  cbn [check_entries length].
  assert (limine_entry_at m (p + Z.of_nat i * SIZEOF_LIMINE_ENTRY) = Some e) as He.
  { apply Hat. by rewrite <- (Nat.add_0_r i), <- lookup_drop, Hdrop. }
  rewrite He. cbn [mbind option_bind]. pose proof (limine_entry_words _ _ _ He) as [? ?].
  destruct (bbp_import_phys_range_valid _ _) eqn:Ev; cbn [negb]; [|by eexists].
  apply phys_range_valid_iff in Ev; [|done].
  replace (Z.of_nat i + 1) with (Z.of_nat (S i)) by lia.
  destruct (IH (S i) Hat) as (st & Hst & Hok); [by eapply drop_S_cons|].
  exists st. split; [done|]. intros Hs. constructor; [unfold valid_entry; lia|auto].
Qed.

Lemma earlier_cpu_spec m p cpus i ci : forall n j,
  cpus_at m p cpus -> cpus !! i = Some ci -> (j + n <= i)%nat ->
  earlier_cpu m p (Z.of_nat i) (Z.of_nat j) n =
    Some (bool_decide (lc_apic_id ci ∈ map lc_apic_id (take n (drop j cpus)))).
Proof.
  induction n as [|n IH]; intros j Hat Hi Hj; [done|]. cbn [earlier_cpu].
  rewrite (Hat _ _ Hi). cbn [mbind option_bind].
  destruct (lookup_lt_is_Some_2 cpus j) as [cj Hcj]; [apply lookup_lt_Some in Hi; lia|].
  rewrite (Hat _ _ Hcj). cbn [mbind option_bind].
  rewrite (drop_S _ _ _ Hcj). cbn [take map].
  destruct (Z.eqb_spec (lc_apic_id ci) (lc_apic_id cj)) as [E|E].
  - by rewrite bool_decide_eq_true_2 by (rewrite E; left).
  - replace (Z.of_nat j + 1) with (Z.of_nat (S j)) by lia. rewrite IH by (done || lia). f_equal.
    apply bool_decide_ext. rewrite elem_of_cons. tauto.
Qed.

Lemma check_cpus_spec m p bsp cpus : forall rest i found,
  cpus_at m p cpus -> drop i cpus = rest -> (i <= length cpus)%nat ->
  NoDup (map lc_apic_id (take i cpus)) ->
  exists st f, check_cpus m p bsp (Z.of_nat i) found (length rest) = Some (st, f) /\
    (st = BBP_IMPORT_OK -> NoDup (map lc_apic_id cpus) /\
       (f = true -> found = true \/ In bsp (map lc_apic_id rest))).
Proof.
  induction rest as [|c rest IH]; intros i found Hat Hdrop Hi Hnd.
  { eexists _, _. split; [done|]. intros _. split; [|auto].
    rewrite <- (take_drop i cpus), Hdrop, app_nil_r. done. }
  cbn [check_cpus length].
  assert (cpus !! i = Some c) as Hc by (by rewrite <- (Nat.add_0_r i), <- lookup_drop, Hdrop).
  assert (limine_cpu_at m (p + Z.of_nat i * SIZEOF_LIMINE_CPU) = Some c) as He by by apply Hat.
  rewrite He. cbn [mbind option_bind]. rewrite Nat2Z.id.
  pose proof (earlier_cpu_spec m p cpus i c i 0 Hat Hc ltac:(lia)) as Hear.
  change (Z.of_nat 0) with 0 in Hear. rewrite Hear. clear Hear. cbn [mbind option_bind].
  change (drop 0 cpus) with cpus.
  case_bool_decide as Hdup; [eexists _, _; split; [done|discriminate]|].
  replace (Z.of_nat i + 1) with (Z.of_nat (S i)) by lia.
  destruct (IH (S i) ((lc_apic_id c =? bsp) || found) Hat) as (st & f & Hst & Hok).
  { by eapply drop_S_cons. }
  { apply lookup_lt_Some in Hc. lia. }
  { rewrite (take_S_r _ _ _ Hc), map_app. apply NoDup_app. split_and!; [done| |apply NoDup_singleton].
    intros x Hx Hx'. apply elem_of_cons in Hx' as [->|Hx']; [done|by apply not_elem_of_nil in Hx']. }
  exists st, f. split; [done|]. intros Hs. destruct (Hok Hs) as [Hnd' Hf]. split; [done|].
  intros Hft. destruct (Hf Hft) as [Hor|Hin]; [|right; by right].
  apply orb_true_iff in Hor as [Heq|?]; [|by left]. right. left. lia.
Qed.

Lemma validate_acpi_ok a :
  in_word 64 (acpi_rsdp_address a) -> in_word 64 (acpi_xsdt_address a) -> in_word 16 (acpi_flags a) ->
  validate_acpi a = BBP_IMPORT_OK -> valid_acpi a.
Proof. apply acpi_guards_ok. Qed.

Section Validation.
Context (m : mem) (b : bbp_builder) (ts : list tagrec) (snapshot : Z) (s : bbp_limine_snapshot)
  (entries : list bbp_limine_mmap_entry) (cpus : list bbp_limine_cpu) (line : list byte).
Context (Hrep : builder_rep m b ts) (Hls : limine_source m snapshot s entries cpus line).

Lemma check_memory_map_spec :
  exists st size, check_memory_map m b s = Some (st, size) /\
    (st = BBP_IMPORT_OK -> present s BBP_IMPORT_HAS_MEMORY_MAP ->
     size = 40 + 32 * zlen entries /\ zlen entries < 2 ^ 32 /\ zlen entries = l_memory_map_count s /\
     entries_at m (l_memory_map s) entries /\
     disjoint_range (arena b) (capacity b) (l_memory_map s) (24 * zlen entries) /\
     entries <> [] /\ Forall valid_entry entries).
Proof.
  pose proof (limine_snapshot_typed _ _ _ (ls_snapshot _ _ _ _ _ _ Hls)) as [[Hm _] [Hc _] _ _ _ _ _ _ _ _ _].
  unfold check_memory_map. destruct (has _ _) eqn:Hp; [|eexists _, _; split; [done|by intros]].
  destruct (_ || _) eqn:G1; [eexists _, _; split; [done|discriminate]|].
  apply orb_false_iff in G1 as [G1 G1']. apply Z.eqb_neq in G1, G1'.
  destruct (bbp_import_array_tag_size _ _ _ _) as [st sz] eqn:Esz.
  case_bool_decide as Hst; cbn [negb]; [subst st|eexists _, _; split; [done|congruence]].
  apply array_tag_size_ok in Esz as (-> & Hsz & Hcnt); [|lia|lia]. cbn [default from_option id].
  rewrite wrap_small by (unfold in_word, SIZEOF_LIMINE_ENTRY; lia).
  destruct (bbp_import_ranges_overlap _ _ _ _) eqn:Eo; [eexists _, _; split; [done|discriminate]|].
  destruct (arena_nonneg _ _ _ Hrep). apply ranges_apart in Eo as [Hdis _]; [|unfold SIZEOF_LIMINE_ENTRY; lia..].
  destruct (ls_entries _ _ _ _ _ _ Hls Hp G1 Hcnt) as [Hlen Hat].
  destruct (check_entries_spec m (l_memory_map s) entries entries 0 Hat) as (st & Hce & Hok); [done|].
  replace (Z.to_nat (l_memory_map_count s)) with (length entries) by (unfold zlen in Hlen; lia).
  change (Z.of_nat 0) with 0 in Hce. rewrite Hce. cbn [mbind option_bind].
  eexists _, _. split; [done|]. intros Hs _. rewrite <- Hlen in *. split_and!; try done; [lia| | |auto].
  - by rewrite Z.mul_comm in Hdis.
  - intros ->. done.
Qed.

Lemma check_smp_spec :
  exists st size, check_smp m b s = Some (st, size) /\
    (st = BBP_IMPORT_OK -> present s BBP_IMPORT_HAS_SMP ->
     size = 48 + 48 * zlen cpus /\ zlen cpus < 2 ^ 32 /\ zlen cpus = l_cpu_count s /\
     cpus_at m (l_cpus s) cpus /\
     disjoint_range (arena b) (capacity b) (l_cpus s) (8 * zlen cpus) /\
     NoDup (map lc_apic_id cpus) /\ In (l_bsp_apic_id s) (map lc_apic_id cpus) /\ l_x2apic s <= 1).
Proof.
  pose proof (limine_snapshot_typed _ _ _ (ls_snapshot _ _ _ _ _ _ Hls)) as [_ _ [Hm _] [Hc _] _ _ _ _ _ _ _].
  unfold check_smp. destruct (has _ _) eqn:Hp; [|eexists _, _; split; [done|by intros]].
  destruct (_ || _) eqn:G1; [eexists _, _; split; [done|discriminate]|].
  apply orb_false_iff in G1 as [G1 G1']. apply Z.eqb_neq in G1, G1'.
  destruct (Z.ltb_spec 1 (l_x2apic s)); [eexists _, _; split; [done|discriminate]|].
  destruct (bbp_import_array_tag_size _ _ _ _) as [st sz] eqn:Esz.
  case_bool_decide as Hst; cbn [negb]; [subst st|eexists _, _; split; [done|congruence]].
  apply array_tag_size_ok in Esz as (-> & Hsz & Hcnt); [|lia|lia]. cbn [default from_option id].
  rewrite wrap_small by (unfold in_word, SIZEOF_LIMINE_CPU; lia).
  destruct (bbp_import_ranges_overlap _ _ _ _) eqn:Eo; [eexists _, _; split; [done|discriminate]|].
  destruct (arena_nonneg _ _ _ Hrep). apply ranges_apart in Eo as [Hdis _]; [|unfold SIZEOF_LIMINE_CPU; lia..].
  destruct (ls_cpus _ _ _ _ _ _ Hls Hp G1 Hcnt) as [Hlen Hat].
  destruct (check_cpus_spec m (l_cpus s) (l_bsp_apic_id s) cpus cpus 0 false Hat) as
    (st & f & Hce & Hok); [done|lia|constructor|].
  replace (Z.to_nat (l_cpu_count s)) with (length cpus) by (unfold zlen in Hlen; lia).
  change (Z.of_nat 0) with 0 in Hce. rewrite Hce. cbn [mbind option_bind].
  case_bool_decide as Hst; cbn [negb]; [subst st|eexists _, _; split; [done|congruence]].
  destruct (Hok eq_refl) as [Hnd Hf].
  destruct f; cbn [negb]; [|eexists _, _; split; [done|discriminate]].
  destruct (Hf eq_refl) as [|Hin]; [done|].
  eexists _, _. split; [done|]. intros _ _. rewrite <- Hlen in *. split_and!; try done; [lia|].
  by rewrite Z.mul_comm in Hdis.
Qed.

Lemma check_cmdline_spec :
  exists st, check_cmdline m b s = Some st /\
    (st = BBP_IMPORT_OK -> present s BBP_IMPORT_HAS_CMDLINE ->
     zlen line = str_bytes (l_command_line s) /\ bytes_at m (str_data (l_command_line s)) line /\
     str_data (l_command_line s) <> 0 /\ zlen line < 2 ^ 32 /\
     disjoint_range (arena b) (capacity b) (str_data (l_command_line s)) (zlen line) /\
     exists text, utf8_text text /\ line = text ++ [x00]).
Proof.
  pose proof (limine_snapshot_typed _ _ _ (ls_snapshot _ _ _ _ _ _ Hls)) as [_ _ _ _ _ [Hd _] [Hb _] _ _ _ _].
  unfold check_cmdline. destruct (has _ _) eqn:Hp; [|eexists; split; [done|by intros]].
  destruct (check_string_spec m b ts (l_command_line s) line Hrep) as (st & Hst & Hok); [done|done| |].
  { by apply (ls_line _ _ _ _ _ _ Hls). }
  exists st. split; [exact Hst|]. auto.
Qed.
End Validation.

(** ** The tags of a snapshot *)

Definition limine_items (s : bbp_limine_snapshot) (entries : list bbp_limine_mmap_entry)
    (cpus : list bbp_limine_cpu) (line : list byte) : list item :=
  on (l_present s) BBP_IMPORT_HAS_HHDM (Item BBP_TAG_HHDM [] 8 (fun _ => hhdm_body (l_hhdm_offset s))) ++
  on (l_present s) BBP_IMPORT_HAS_MEMORY_MAP (Item BBP_TAG_MEMORY_MAP [] (8 + 32 * zlen entries)
    (fun _ => memory_map_body (map limine_entry_bytes entries))) ++
  on (l_present s) BBP_IMPORT_HAS_KERNEL_ADDRESS (Item BBP_TAG_KERNEL_ADDRESS [] 16
    (fun _ => kernel_address_body (l_kernel_physical_base s) (l_kernel_virtual_base s))) ++
  on (l_present s) BBP_IMPORT_HAS_SMP (Item BBP_TAG_SMP [] (16 + 48 * zlen cpus)
    (fun _ => smp_body (l_bsp_apic_id s) (l_x2apic s) cpus)) ++
  on (l_present s) BBP_IMPORT_HAS_CMDLINE (Item BBP_TAG_CMDLINE line 24 (cmdline_body (removelast line))) ++
  on (l_present s) BBP_IMPORT_HAS_FRAMEBUFFER (Item BBP_TAG_FRAMEBUFFER [] 88
    (fun _ => framebuffer_body (l_framebuffer s))) ++
  on (l_present s) BBP_IMPORT_HAS_ACPI (Item BBP_TAG_ACPI [] 24
    (fun _ => acpi_body (acpi_rsdp_address (l_acpi s)) (acpi_xsdt_address (l_acpi s))
       (acpi_oem_id (l_acpi s)) (acpi_acpi_version (l_acpi s)) (acpi_flags (l_acpi s)))).

Lemma smp_item_wf bsp x2 cpus :
  item_wf (Item BBP_TAG_SMP [] (16 + 48 * zlen cpus) (fun _ => smp_body bsp x2 cpus)).
Proof.
  pose proof (zlen_nonneg cpus). split; [done|cbn; lia|]. intros phys. cbn. unfold smp_body.
  autorewrite with zlen. rewrite (zlen_concat_map _ 48) by done. lia.
Qed.

Lemma limine_items_wf s entries cpus line : Forall item_wf (limine_items s entries cpus line).
Proof.
  unfold limine_items. rewrite !Forall_app.
  split_and!; apply on_wf; (by split) || (by apply memory_map_item_wf) || apply smp_item_wf.
Qed.

Lemma limine_items_ids s entries cpus line : NoDup (map i_id (limine_items s entries cpus line)).
Proof.
  eapply sublist_NoDup; [|].
  2: { unfold limine_items. rewrite !map_app. repeat apply sublist_app; apply on_ids. }
  by apply (bool_decide_unpack _); vm_compute.
Qed.

(** What the emission may rely on: the parts of the snapshot that are present
    are readable and lie outside the arena. *)
Record limine_ready (m : mem) (A C snapshot : Z) (s : bbp_limine_snapshot)
    (entries : list bbp_limine_mmap_entry) (cpus : list bbp_limine_cpu) (line : list byte) : Prop := {
  lr_snapshot : limine_snapshot_at m snapshot = Some s;
  lr_apart : disjoint_range A C snapshot 152;
  lr_entries : present s BBP_IMPORT_HAS_MEMORY_MAP ->
    entries_at m (l_memory_map s) entries /\ zlen entries = l_memory_map_count s /\
    zlen entries < 2 ^ 32 /\ disjoint_range A C (l_memory_map s) (24 * zlen entries);
  lr_cpus : present s BBP_IMPORT_HAS_SMP ->
    cpus_at m (l_cpus s) cpus /\ zlen cpus = l_cpu_count s /\
    zlen cpus < 2 ^ 32 /\ disjoint_range A C (l_cpus s) (8 * zlen cpus);
  lr_line : present s BBP_IMPORT_HAS_CMDLINE ->
    bytes_at m (str_data (l_command_line s)) line /\ zlen line = str_bytes (l_command_line s) /\
    str_data (l_command_line s) <> 0 /\ zlen line < 2 ^ 32 /\
    disjoint_range A C (str_data (l_command_line s)) (zlen line) /\
    exists text, line = text ++ [x00];
}.

Lemma limine_ready_frame A C snapshot s entries cpus line m m' :
  frame A C m m' -> limine_ready m A C snapshot s entries cpus line ->
  limine_ready m' A C snapshot s entries cpus line.
Proof.
  intros F [Hsn Hap He Hc Hl]. split; [|done|..].
  - unfold limine_snapshot_at in *. rewrite (load_bytes_same_on m m'); [done|].
    by eapply frame_same_on.
  - intros Hp. destruct (He Hp) as (Hat & Hn & Hlt & Hd). split_and!; try done.
    intros j e Hj. rewrite <- (Hat j e Hj). unfold limine_entry_at, load64, SIZEOF_LIMINE_ENTRY.
    apply lookup_lt_Some in Hj. pose proof (frame_same_on _ _ _ _ _ _ F Hd) as Hso.
    rewrite !(load_le_same_on m m'); [done|eapply same_on_sub; [exact Hso| |]; unfold zlen; lia..].
  - intros Hp. destruct (Hc Hp) as (Hat & Hn & Hlt & Hd). split_and!; try done.
    intros j e Hj. rewrite <- (Hat j e Hj). unfold limine_cpu_at, load32, SIZEOF_LIMINE_CPU.
    apply lookup_lt_Some in Hj. pose proof (frame_same_on _ _ _ _ _ _ F Hd) as Hso.
    rewrite !(load_le_same_on m m'); [done|eapply same_on_sub; [exact Hso| |]; unfold zlen; lia..].
  - intros Hp. destruct (Hl Hp) as (Hat & Hn & Hz & Hlt & Hd & Hx). split_and!; try done.
    eapply bytes_at_same_on; [|exact Hat]. by eapply frame_same_on.
Qed.

Section Emission.
Context (A C snapshot : Z) (s : bbp_limine_snapshot)
  (entries : list bbp_limine_mmap_entry) (cpus : list bbp_limine_cpu) (line : list byte).
Let src m := limine_ready m A C snapshot s entries cpus line.

Lemma ready_src m m' : frame A C m m' -> src m -> src m'.
Proof. apply limine_ready_frame. Qed.

Lemma emits_reading K its : emits A C src (K s) its -> emits A C src (reading snapshot K) its.
Proof.
  intros H m b ts plan plan' Hrep Hpl HA HC Hag Hs Hplan.
  destruct (H m b ts plan plan') as (m' & b' & new & E & Rest); [done..|].
  exists m', b', new. split; [|done]. unfold reading.
  by rewrite (lr_snapshot _ _ _ _ _ _ _ _ Hs).
Qed.

Lemma snapshot_read m : src m -> limine_snapshot_at m snapshot = Some s.
Proof. intros H. by destruct H. Qed.

Lemma framebuffer_read m : src m -> framebuffer_at m (snapshot + 88) = Some (l_framebuffer s).
Proof.
  intros [H _ _ _ _]. unfold limine_snapshot_at in H. apply bind_Some in H as (bs & Hbs & [= <-]).
  unfold framebuffer_at. change (snapshot + 88) with (snapshot + Z.of_nat 88).
  rewrite (load_nested m snapshot 152 bs 88 40 Hbs) by lia.
  cbn [mbind option_bind]. by rewrite framebuffer_of_sub.
Qed.

Lemma acpi_read m : src m -> acpi_at m (snapshot + 128) = Some (l_acpi s).
Proof.
  intros [H _ _ _ _]. unfold limine_snapshot_at in H. apply bind_Some in H as (bs & Hbs & [= <-]).
  unfold acpi_at. change (snapshot + 128) with (snapshot + Z.of_nat 128).
  rewrite (load_nested m snapshot 152 bs 128 24 Hbs) by lia.
  cbn [mbind option_bind]. by rewrite acpi_of_sub.
Qed.

Lemma entries_read m :
  present s BBP_IMPORT_HAS_MEMORY_MAP -> src m -> entries_at m (l_memory_map s) entries.
Proof. intros Hp [_ _ He _ _]. by destruct (He Hp). Qed.

Lemma cpus_read m : present s BBP_IMPORT_HAS_SMP -> src m -> cpus_at m (l_cpus s) cpus.
Proof. intros Hp [_ _ _ Hc _]. by destruct (Hc Hp). Qed.

Lemma memory_map_emits :
  present s BBP_IMPORT_HAS_MEMORY_MAP ->
  emits A C src (emit_memory_map snapshot (40 + 32 * zlen entries))
    [Item BBP_TAG_MEMORY_MAP [] (8 + 32 * zlen entries)
       (fun _ => memory_map_body (map limine_entry_bytes entries))].
Proof.
  intros Hp. unfold emit_memory_map. apply emits_reading.
  replace (40 + 32 * zlen entries) with (32 + (8 + 32 * zlen entries)) by lia.
  pose proof (zlen_nonneg entries). apply emits_tag; [apply ready_src|lia|done| |].
  { unfold memory_map_body. autorewrite with zlen.
    rewrite (zlen_concat_map limine_entry_bytes 32) by done. lia. }
  intros m tag Hs Ha HN Hat. pose proof Hs as [_ _ He _ _]. destruct (He Hp) as (_ & Hn & Hlt & _).
  rewrite <- Hn, wrap_small by (unfold in_word; lia).
  replace (Z.to_nat (8 + 32 * zlen entries)) with (8 + 32 * length entries)%nat in Hat
    by (unfold zlen; lia).
  rewrite <- (app_nil_l (replicate _ x00)) in Hat. pose proof ready_src as Hsrc.
  put 0%nat. put 0%nat.
  replace (Z.to_nat (zlen entries)) with (length entries) by (unfold zlen; lia).
  replace (tag + 40) with (tag + 32 + 8) by lia.
  replace (8 + 32 * length entries - 0 - 4 - 0 - 4)%nat with (32 * length entries)%nat in Hat by lia.
  destruct (memory_map_loop_writes A C src Hsrc snapshot s snapshot_read (tag + 32) entries
    (8 + 32 * zlen entries) entries 0 _ _ (fun m => entries_read m Hp) ltac:(lia) ltac:(lia) Hs Hat)
    as (m' & Hl & Hb & Hf); [done|done|autorewrite with zlen; lia|].
  exists m'. split_and!; [exact Hl| |exact Hf]. unfold memory_map_body.
  replace (zlen (map limine_entry_bytes entries)) with (zlen entries) by (unfold zlen; by rewrite length_map).
  by rewrite <- !app_assoc in Hb.
Qed.

Lemma smp_emits :
  present s BBP_IMPORT_HAS_SMP ->
  emits A C src (emit_smp snapshot (48 + 48 * zlen cpus))
    [Item BBP_TAG_SMP [] (16 + 48 * zlen cpus)
       (fun _ => smp_body (l_bsp_apic_id s) (l_x2apic s) cpus)].
Proof.
  intros Hp. unfold emit_smp. apply emits_reading.
  replace (48 + 48 * zlen cpus) with (32 + (16 + 48 * zlen cpus)) by lia.
  pose proof (zlen_nonneg cpus). apply emits_tag; [apply ready_src|lia|done| |].
  { unfold smp_body. autorewrite with zlen.
    rewrite (zlen_concat_map _ 48) by done. lia. }
  intros m tag Hs Ha HN Hat. pose proof Hs as [_ _ _ He _]. destruct (He Hp) as (_ & Hn & Hlt & _).
  rewrite <- Hn, wrap_small by (unfold in_word; lia).
  replace (Z.to_nat (16 + 48 * zlen cpus)) with (16 + 48 * length cpus)%nat in Hat
    by (unfold zlen; lia).
  rewrite <- (app_nil_l (replicate _ x00)) in Hat. pose proof ready_src as Hsrc.
  pose proof snapshot_read as Hrd. put 0%nat. rd Hrd. put 0%nat. rd Hrd. put 0%nat.
  replace (Z.to_nat (zlen cpus)) with (length cpus) by (unfold zlen; lia).
  replace (tag + 48) with (tag + 32 + 16) by lia.
  replace (16 + 48 * length cpus - 0 - 4 - 0 - 4 - 0 - 8)%nat with (48 * length cpus)%nat in Hat by lia.
  destruct (smp_loop_writes A C src Hsrc snapshot s snapshot_read (tag + 32) cpus
    (16 + 48 * zlen cpus) cpus 0 _ _ (fun m => cpus_read m Hp) ltac:(lia) ltac:(lia) Hs Hat)
    as (m' & Hl & Hb & Hf); [done|autorewrite with zlen; lia|autorewrite with zlen; lia|].
  exists m'. split_and!; [exact Hl| |exact Hf]. unfold smp_body. by rewrite <- !app_assoc in Hb.
Qed.

Lemma line_read m :
  present s BBP_IMPORT_HAS_CMDLINE -> src m -> bytes_at m (str_data (l_command_line s)) line.
Proof. intros Hp [_ _ _ _ Hl]. by destruct (Hl Hp). Qed.

Lemma cmdline_emits :
  present s BBP_IMPORT_HAS_CMDLINE ->
  zlen line = str_bytes (l_command_line s) -> str_data (l_command_line s) <> 0 ->
  zlen line < 2 ^ 32 -> disjoint_range A C (str_data (l_command_line s)) (zlen line) ->
  (exists text, line = text ++ [x00]) ->
  emits A C src (emit_cmdline (l_command_line s))
    [Item BBP_TAG_CMDLINE line 24 (cmdline_body (removelast line))].
Proof.
  intros Hp Hlen Hd Hlt Hdis Hline. unfold emit_cmdline. rewrite <- Hlen.
  apply command_line_emits; try done; [apply ready_src|]. intros m. by apply line_read.
Qed.

(** A guarded statement realises its guarded item. *)
Lemma emits_on flag E it :
  (present s flag -> emits A C src (E s) [it]) ->
  emits A C src (reading snapshot (fun s => emit_when (has (l_present s) flag) (E s))) (on (l_present s) flag it).
Proof. intros H. apply emits_reading. unfold on. by apply emits_when. Qed.

Lemma limine_emits :
  (present s BBP_IMPORT_HAS_CMDLINE ->
   zlen line = str_bytes (l_command_line s) /\ str_data (l_command_line s) <> 0 /\
   zlen line < 2 ^ 32 /\ disjoint_range A C (str_data (l_command_line s)) (zlen line) /\
   exists text, line = text ++ [x00]) ->
  (present s BBP_IMPORT_HAS_FRAMEBUFFER -> exists bpp, framebuffer_ok (l_framebuffer s) bpp) ->
  forall mm smp,
  (present s BBP_IMPORT_HAS_MEMORY_MAP -> mm = 40 + 32 * zlen entries) ->
  (present s BBP_IMPORT_HAS_SMP -> smp = 48 + 48 * zlen cpus) ->
  emits A C src (limine_emit snapshot mm smp) (limine_items s entries cpus line).
Proof.
  intros Hline Hfb mm smp Hmm Hsmp. pose proof ready_src as Hsrc.
  pose proof (zlen_nonneg entries). pose proof (zlen_nonneg cpus).
  unfold limine_emit, limine_items. cbn zeta.
  apply emits_seq; [done|apply on_wf; by split| |].
  { apply emits_on. intros _. apply (emits_tag A C src Hsrc BBP_TAG_HHDM 8); [done..|by apply hhdm_writes]. }
  apply emits_seq; [done|apply on_wf; by apply memory_map_item_wf| |].
  { apply emits_on. intros Hp. rewrite (Hmm Hp). by apply memory_map_emits. }
  apply emits_seq; [done|apply on_wf; by split| |].
  { apply emits_on. intros _. apply (emits_tag A C src Hsrc BBP_TAG_KERNEL_ADDRESS 16); [done..|].
    apply (kernel_address_writes A C src Hsrc). apply snapshot_read. }
  apply emits_seq; [done|apply on_wf; apply smp_item_wf| |].
  { apply emits_on. intros Hp. rewrite (Hsmp Hp). by apply smp_emits. }
  apply emits_seq; [done|apply on_wf; by split| |].
  { apply emits_on. intros Hp. destruct (Hline Hp) as (? & ? & ? & ? & ?). by apply cmdline_emits. }
  apply emits_seq; [done|apply on_wf; by split| |].
  { apply emits_on. intros Hp. destruct (Hfb Hp) as (bpp & _ & ? & ? & _).
    apply (emits_tag A C src Hsrc BBP_TAG_FRAMEBUFFER 88); [done..|].
    apply (framebuffer_writes A C src Hsrc); [apply framebuffer_read|unfold in_word; lia..]. }
  apply emits_on. intros _. apply (emits_tag A C src Hsrc BBP_TAG_ACPI 24); [done..|].
  apply (acpi_writes A C src Hsrc). apply acpi_read.
Qed.
End Emission.

(** ** The whole importer *)

Lemma limine_plan_items b s entries cpus line mm smp plan plan' :
  (present s BBP_IMPORT_HAS_MEMORY_MAP -> mm = 40 + 32 * zlen entries) ->
  (present s BBP_IMPORT_HAS_SMP -> smp = 48 + 48 * zlen cpus) ->
  (present s BBP_IMPORT_HAS_CMDLINE -> zlen line = str_bytes (l_command_line s) /\ zlen line <> 0) ->
  limine_plan b s mm smp plan = (BBP_IMPORT_OK, plan') ->
  plan_items b plan (limine_items s entries cpus line) = (BBP_IMPORT_OK, plan').
Proof.
  intros Hmm Hsmp Hline H. unfold limine_plan in H. cbn zeta in H. unfold limine_items, on.
  apply plan_then_ok in H as (p1 & H1 & H). apply plan_then_ok in H as (p2 & H2 & H).
  apply plan_then_ok in H as (p3 & H3 & H). apply plan_then_ok in H as (p4 & H4 & H).
  apply plan_then_ok in H as (p5 & H5 & H). apply plan_then_ok in H as (p6 & H6 & H).
  apply plan_then_ok in H as (p7 & H7 & H8).
  eapply plan_items_seq; [by eapply plan_if_tag; [|exact H1]|].
  eapply plan_items_seq; [eapply plan_if_tag; [|exact H2]; intros Hp; rewrite (Hmm Hp); lia|].
  eapply plan_items_seq; [by eapply plan_if_tag; [|exact H3]|].
  eapply plan_items_seq; [eapply plan_if_tag; [|exact H4]; intros Hp; rewrite (Hsmp Hp); lia|].
  eapply (plan_items_seq _ _ _ _ p6); [by eapply plan_if_blob_tag; [|exact H5| |exact H6]|].
  eapply plan_items_seq; [by eapply plan_if_tag; [|exact H7]|].
  by eapply plan_if_tag; [|exact H8].
Qed.

(** The verdict of everything before the first builder call. *)
Definition limine_verdict (m : mem) (b : bbp_builder) (snapshot : Z) (s : bbp_limine_snapshot)
    (entries : list bbp_limine_mmap_entry) (cpus : list bbp_limine_cpu) (line : list byte)
    (r : bbp_import_status + Z * Z) : Prop :=
  match r with
  | inl st => st <> BBP_IMPORT_OK
  | inr (mm, smp) =>
      limine_valid s entries cpus line /\
      limine_ready m (arena b) (capacity b) snapshot s entries cpus line /\
      plannable b /\
      (present s BBP_IMPORT_HAS_MEMORY_MAP -> mm = 40 + 32 * zlen entries) /\
      (present s BBP_IMPORT_HAS_SMP -> smp = 48 + 48 * zlen cpus) /\
      exists plan plan', agrees plan b /\
        plan_items b plan (limine_items s entries cpus line) = (BBP_IMPORT_OK, plan')
  end.

(** Statement of one guard of the validation: a failing one ends it. *)
#[local] Ltac stop := eexists; split; [reflexivity|]; cbn; congruence.
#[local] Ltac guard_ok :=
  case_bool_decide; cbn [negb]; [subst|stop].

Lemma limine_validate_spec m b ts snapshot s entries cpus line :
  builder_rep m b ts -> limine_source m snapshot s entries cpus line ->
  exists r, limine_validate m b snapshot = Some r /\
    limine_verdict m b snapshot s entries cpus line r.
Proof.
  intros Hrep Hls. pose proof (ls_address _ _ _ _ _ _ Hls). unfold limine_validate.
  destruct (bbp_import_ranges_overlap _ _ _ _) eqn:Eo; [stop|].
  destruct (arena_nonneg m b ts Hrep).
  apply ranges_apart in Eo as [Hap _]; [|unfold SIZEOF_LIMINE_SNAPSHOT; lia..].
  pose proof (ls_snapshot _ _ _ _ _ _ Hls) as Hsn. rewrite Hsn. cbn [mbind option_bind].
  pose proof (limine_snapshot_typed _ _ _ Hsn) as Hty.
  destruct (negb _); [stop|].
  destruct (plan_begin_total m b ts (ImportPlan 0 0) Hrep) as (st & plan & Hpb).
  rewrite Hpb. cbn [mbind option_bind default from_option id]. guard_ok.
  apply plan_begin_ok in Hpb as [Hpl Hag].
  destruct (check_memory_map_spec m b ts snapshot s entries cpus line Hrep Hls)
    as (st & mm & -> & Hmm). cbn [mbind option_bind]. guard_ok. specialize (Hmm eq_refl).
  destruct (check_kernel_address s) eqn:Hka;
    (rewrite bool_decide_eq_true_2 by done) || (rewrite bool_decide_eq_false_2 by done; stop).
  destruct (check_smp_spec m b ts snapshot s entries cpus line Hrep Hls)
    as (st & smp & -> & Hsmp). cbn [mbind option_bind]. guard_ok. specialize (Hsmp eq_refl).
  destruct (check_cmdline_spec m b ts snapshot s entries cpus line Hrep Hls) as (st & -> & Hcl).
  cbn [mbind option_bind]. guard_ok. specialize (Hcl eq_refl).
  destruct (check_framebuffer s) eqn:Hfb;
    (rewrite bool_decide_eq_true_2 by done) || (rewrite bool_decide_eq_false_2 by done; stop).
  destruct (check_acpi s) eqn:Hac;
    (rewrite bool_decide_eq_true_2 by done) || (rewrite bool_decide_eq_false_2 by done; stop).
  destruct (limine_plan b s mm smp plan) as [st plan'] eqn:Hplan. guard_ok.
  eexists. split; [reflexivity|]. cbn [limine_verdict]. split_and!.
  - split.
    + intros Hp. destruct (Hmm Hp) as (_ & _ & _ & _ & _ & ? & ?). done.
    + intros Hp. by apply (kernel_guard_ok _ _ _ (proj1 (lt_kernel s Hty)) Hka).
    + intros Hp. destruct (Hsmp Hp) as (_ & _ & _ & _ & _ & ? & ? & ?). done.
    + intros Hp. destruct (Hcl Hp) as (_ & _ & _ & _ & _ & ?). done.
    + intros Hp. unfold check_framebuffer in Hfb. rewrite Hp in Hfb.
      by apply bbp_import_validate_framebuffer_spec; [destruct Hty|].
    + intros Hp. unfold check_acpi in Hac. rewrite Hp in Hac. destruct Hty. by apply validate_acpi_ok.
  - split; [done|done|..]; intros Hp.
    + destruct (Hmm Hp) as (_ & ? & ? & ? & ? & _). done.
    + destruct (Hsmp Hp) as (_ & ? & ? & ? & ? & _). done.
    + destruct (Hcl Hp) as (? & ? & ? & ? & ? & text & _ & ?). split_and!; try done. by exists text.
  - done.
  - intros Hp. by destruct (Hmm Hp).
  - intros Hp. by destruct (Hsmp Hp).
  - exists plan, plan'. split; [done|]. eapply limine_plan_items; [| | |exact Hplan].
    + intros Hp. by destruct (Hmm Hp).
    + intros Hp. by destruct (Hsmp Hp).
    + intros Hp. destruct (Hcl Hp) as (? & _ & _ & _ & _ & text & _ & ->). split; [done|].
      autorewrite with zlen. pose proof (zlen_nonneg text). lia.
Qed.

Lemma limine_import_spec (m : mem) (b : bbp_builder) (ts : list tagrec) (snapshot : Z)
    (s : bbp_limine_snapshot) (entries : list bbp_limine_mmap_entry) (cpus : list bbp_limine_cpu)
    (line : list byte) :
  builder_rep m b ts -> limine_source m snapshot s entries cpus line ->
  exists m' b' st,
    bbp_import_limine m (Some b) snapshot = Some (m', Some b', st) /\
    (st <> BBP_IMPORT_OK -> m' = m /\ b' = b) /\
    (st = BBP_IMPORT_OK ->
       limine_valid s entries cpus line /\
       imported m m' b b' ts (limine_items s entries cpus line)).
Proof.
  intros Hrep Hls. pose proof (ls_address _ _ _ _ _ _ Hls). unfold bbp_import_limine.
  rewrite (proj2 (Z.eqb_neq snapshot 0)) by lia.
  destruct (limine_validate_spec _ _ _ _ _ _ _ _ Hrep Hls) as (r & -> & Hr).
  cbn [mbind option_bind]. destruct r as [st|[mm smp]]; cbn [limine_verdict] in Hr.
  { exists m, b, st. split_and!; [done|done|by intros]. }
  destruct Hr as (Hv & Hready & Hpl & Hmm & Hsmp & plan & plan' & Hag & Hplan).
  destruct (limine_emits (arena b) (capacity b) snapshot s entries cpus line) with
    (mm := mm) (smp := smp) (m := m) (b := b) (ts := ts) (plan := plan) (plan' := plan')
    as (m' & b' & new & E & Hrep' & Hpl' & Har & Hag' & Hu & Hf & Hk & Hh & Hn); try done.
  { intros Hp. destruct Hready as [_ _ _ _ Hl]. by destruct (Hl Hp) as (_ & ?). }
  { apply Hv. }
  rewrite E. cbn [mbind option_bind]. exists m', b', BBP_IMPORT_OK. split_and!; [done|done|].
  intros _. split; [done|]. exists new. by split_and!.
Qed.

(** C26: Importing a Limine snapshot into a sound builder never faults and always
    returns.  A refused snapshot leaves memory and builder exactly as they were.
    An accepted one is valid (address ranges below 2^48, distinct processors
    with the bootstrap processor among them, a UTF-8 command line, a framebuffer
    that holds its pixels, consistent ACPI pointers), and the builder then holds
    exactly one more tag per part that is present, in the documented order, each
    with the body that describes the part and its blob in the arena, while
    earlier tags keep their contents and nothing outside the arena changes. *)
Theorem limine_import_sound (m : mem) (b : bbp_builder) (ts : list tagrec) (snapshot : Z)
    (s : bbp_limine_snapshot) (entries : list bbp_limine_mmap_entry) (cpus : list bbp_limine_cpu)
    (line : list byte) :
  builder_rep m b ts -> limine_source m snapshot s entries cpus line ->
  exists m' b' st,
    bbp_import_limine m (Some b) snapshot = Some (m', Some b', st) /\
    (st <> BBP_IMPORT_OK -> m' = m /\ b' = b) /\
    (st = BBP_IMPORT_OK ->
       limine_valid s entries cpus line /\
       exists new,
         builder_rep m' b' (ts ++ new) /\
         Forall2 (holds m' b' (ts ++ new)) (limine_items s entries cpus line) new /\
         kept m m' b ts /\ frame (arena b) (capacity b) m m' /\
         used b' <= BBP_BUILDER_MAX_INFO - SIZEOF_INFO).
Proof.
  intros Hrep Hls. destruct (limine_import_spec _ _ _ _ _ _ _ _ Hrep Hls) as (m' & b' & st & E & Hno & Hok).
  exists m', b', st. split_and!; [done..|]. intros Hst.
  destruct (Hok Hst) as (Hv & new & ? & ? & ? & ? & ? & ?). split; [done|]. exists new.
  split_and!; try done. by apply plannable_fits.
Qed.

(** ** A sample snapshot *)

Module LimineSample.
(** Command line "hi", one usable range, one processor; all three tags and the
    direct map are present. *)
Definition line : list byte := [x68; x69; x00].
Definition entry : bbp_limine_mmap_entry := LimineEntry 0x100000 0x1000 0.
Definition cpu : bbp_limine_cpu := LimineCpu 0 7.

Definition snapshot_bytes : list byte :=
  le_encode 8 (1 + 2 + 8 + 16) ++ le_encode 8 0 ++ le_encode 8 0 ++ le_encode 8 0 ++
  le_encode 8 24576 ++ le_encode 8 1 ++ le_encode 8 28672 ++ le_encode 8 1 ++
  le_encode 4 7 ++ le_encode 4 0 ++ le_encode 8 32768 ++ le_encode 8 3 ++
  replicate 64 x00.

Definition mem0 : mem :=
  mem_of 20480 snapshot_bytes ∪
  mem_of 24576 (le_encode 8 0x100000 ++ le_encode 8 0x1000 ++ le_encode 8 0) ∪
  mem_of 28672 (le_encode 4 0 ++ le_encode 4 7) ∪ mem_of 32768 line ∪
  mem_of 8192 (replicate 512 x00).

Definition b : bbp_builder := Builder 8192 8192 512 0 0 0 0 0.
Definition s : bbp_limine_snapshot := Eval vm_compute in limine_snapshot_of snapshot_bytes.

Lemma rep : builder_rep mem0 b [].
Proof.
  split; cbn; try lia; try done.
  apply (mapped_by_load mem0 8192 512). vm_compute. reflexivity.
Qed.

Lemma source : limine_source mem0 20480 s [entry] [cpu] line.
Proof.
  split.
  - lia.
  - vm_compute. reflexivity.
  - intros _ _ _. split; [reflexivity|]. intros [|j] e [= <-]; vm_compute; reflexivity.
  - intros _ _ _. split; [reflexivity|]. intros [|j] c [= <-]; vm_compute; reflexivity.
  - intros _ _. split; [reflexivity|].
    apply (load_bytes_at mem0 32768 3). vm_compute. reflexivity.
Qed.

Example accepted :
  (fun r => match r with
            | Some (_, Some b', st) => (st, tag_count b', used b')
            | _ => (BBP_IMPORT_ERR_NULL, 0, 0)
            end) (bbp_import_limine mem0 (Some b) 20480) = (BBP_IMPORT_OK, 4, 272).
Proof. vm_compute. reflexivity. Qed.
End LimineSample.

Lemma limine_import_sound_witness :
  exists m' b' st,
    bbp_import_limine LimineSample.mem0 (Some LimineSample.b) 20480 = Some (m', Some b', st) /\
    (st = BBP_IMPORT_OK -> exists new, builder_rep m' b' ([] ++ new)).
Proof.
  destruct (limine_import_sound LimineSample.mem0 LimineSample.b [] 20480 LimineSample.s
    [LimineSample.entry] [LimineSample.cpu] LimineSample.line LimineSample.rep LimineSample.source)
    as (m' & b' & st & E & _ & Hok).
  exists m', b', st. split; [exact E|]. intros Hst. destruct (Hok Hst) as (_ & new & Hrep & _).
  exists new. exact Hrep.
Defined.
