(* ===== verification/ImportUefi.v ===== *)
(** * The UEFI snapshot importer (bootloader/bbp_import_uefi.c)

    A normalized snapshot of what UEFI firmware reported, captured after boot
    services ended, becomes BBP tags.  Memory descriptors are read from the raw
    map at the firmware's own stride. *)

From S2P Require Import Prelude Memory Crc64 Abi Builder BuilderFacts Import ImportFacts ImportEmit.

(** ** The snapshot *)

Record bbp_uefi_snapshot := UefiSnapshot {
  u_present : Z;
  u_hhdm_offset : Z;
  u_kernel_physical_base : Z;
  u_kernel_virtual_base : Z;
  u_memory_map : Z;
  u_memory_map_bytes : Z;
  u_descriptor_stride : Z;
  u_descriptor_version : Z;
  u_memory_map_final : Z;
  u_system_table : Z;
  u_command_line : bbp_import_string;
  u_framebuffer : bbp_import_framebuffer;
  u_acpi : bbp_import_acpi;
  u_smbios_32 : Z;
  u_smbios_64 : Z;
}.

Definition SIZEOF_UEFI_SNAPSHOT : Z := 168.

Definition uefi_snapshot_of (bs : list byte) : bbp_uefi_snapshot :=
  UefiSnapshot (raw bs 0 8) (raw bs 8 8) (raw bs 16 8) (raw bs 24 8) (raw bs 32 8)
    (raw bs 40 8) (raw bs 48 8) (raw bs 56 4) (raw bs 60 1) (raw bs 64 8)
    (string_of bs 72) (framebuffer_of bs 88) (acpi_of bs 128) (raw bs 152 8) (raw bs 160 8).

Definition uefi_snapshot_at (m : mem) (p : Z) : option bbp_uefi_snapshot :=
  bs ← load_bytes m p 168; Some (uefi_snapshot_of bs).

Definition UEFI_ALLOWED : Z :=
  Z.lor (Z.lor (Z.lor (Z.lor (Z.lor (Z.lor (Z.lor BBP_IMPORT_HAS_HHDM BBP_IMPORT_HAS_MEMORY_MAP)
    BBP_IMPORT_HAS_KERNEL_ADDRESS) BBP_IMPORT_HAS_CMDLINE) BBP_IMPORT_HAS_FRAMEBUFFER)
    BBP_IMPORT_HAS_ACPI) BBP_IMPORT_HAS_EFI) BBP_IMPORT_HAS_SMBIOS.

(** ** Reads and translation tables *)

Definition read_u32 (m : mem) (p : Z) : option Z :=
  p0 ← m !! p;
  p1 ← m !! (p + 1);
  p2 ← m !! (p + 2);
  p3 ← m !! (p + 3);
  Some (Z.lor (Z.lor (Z.lor (byte_Z p0) (wrap32 (Z.shiftl (byte_Z p1) 8)))
    (wrap32 (Z.shiftl (byte_Z p2) 16))) (wrap32 (Z.shiftl (byte_Z p3) 24))).

Definition read_u64 (m : mem) (p : Z) : option Z :=
  lo ← read_u32 m p;
  hi ← read_u32 m (p + 4);
  Some (Z.lor lo (wrap64 (Z.shiftl hi 32))).

Definition uefi_memory_type (type : Z) : Z :=
  if (type =? 1) || (type =? 2) || (type =? 3) || (type =? 4) then BBP_MEM_BOOTLOADER_RECLAIM
  else if type =? 7 then BBP_MEM_USABLE
  else if type =? 8 then BBP_MEM_BAD_MEMORY
  else if type =? 9 then BBP_MEM_ACPI_RECLAIMABLE
  else if type =? 10 then BBP_MEM_ACPI_NVS
  else if (type =? 11) || (type =? 12) then BBP_MEM_DEVICE_IO
  else if type =? 14 then BBP_MEM_PERSISTENT
  else BBP_MEM_RESERVED.

Definition EFI_MEMORY_UC : Z := Z.shiftl 1 0.
Definition EFI_MEMORY_WC : Z := Z.shiftl 1 1.
Definition EFI_MEMORY_WT : Z := Z.shiftl 1 2.
Definition EFI_MEMORY_WB : Z := Z.shiftl 1 3.
Definition EFI_MEMORY_UCE : Z := Z.shiftl 1 4.
Definition EFI_MEMORY_RP : Z := Z.shiftl 1 13.
Definition EFI_MEMORY_XP : Z := Z.shiftl 1 14.
Definition EFI_MEMORY_RO : Z := Z.shiftl 1 17.

(** [if (c) result |= flag;] *)
Definition or_if (c : bool) (flag result : Z) : Z := if c then Z.lor result flag else result.

Definition uefi_attributes (attributes : Z) : Z :=
  let clear mask := Z.land attributes mask =? 0 in
  let result := 0 in
  let result := or_if (clear EFI_MEMORY_RP) BBP_MEM_ATTR_READABLE result in
  let result := or_if (clear EFI_MEMORY_RO) BBP_MEM_ATTR_WRITABLE result in
  let result := or_if (clear EFI_MEMORY_XP) BBP_MEM_ATTR_EXECUTABLE result in
  let result := or_if (negb (clear (Z.lor EFI_MEMORY_WB EFI_MEMORY_WT))) BBP_MEM_ATTR_CACHED result in
  let result := or_if (negb (clear EFI_MEMORY_WC)) BBP_MEM_ATTR_WRITE_COMBINE result in
  or_if (negb (clear (Z.lor EFI_MEMORY_UC EFI_MEMORY_UCE))) BBP_MEM_ATTR_UNCACHED result.

Definition validate_acpi (acpi : bbp_import_acpi) : bbp_import_status :=
  reject negb (bbp_import_phys_address_valid (acpi_rsdp_address acpi) false)
         || negb (bbp_import_phys_address_valid (acpi_xsdt_address acpi) true)
    with BBP_IMPORT_ERR_RANGE;
  reject negb (Z.land (acpi_flags acpi)
            (Z.lnot (Z.lor BBP_ACPI_FLAG_XSDT_AVAILABLE BBP_ACPI_FLAG_SPCR_AVAILABLE)) =? 0)
    with BBP_IMPORT_ERR_FLAGS;
  reject negb (Bool.eqb (negb (Z.land (acpi_flags acpi) BBP_ACPI_FLAG_XSDT_AVAILABLE =? 0))
                 (negb (acpi_xsdt_address acpi =? 0))) with BBP_IMPORT_ERR_FLAGS;
  BBP_IMPORT_OK.

(** ** The memory map *)

Fixpoint check_descriptors (m : mem) (memory_map stride i : Z) (n : nat) :
    option bbp_import_status :=
  match n with
  | O => Some BBP_IMPORT_OK
  | S n =>
      let entry := memory_map + i * stride in
      base ← read_u64 m (entry + 8);
      pages ← read_u64 m (entry + 24);
      reject (pages =? 0) || (BBP_IMPORT_U64_MAX / 4096 <? pages)
        with Some BBP_IMPORT_ERR_OVERFLOW;
      let length := wrap64 (pages * 4096) in
      reject negb (bbp_import_phys_range_valid base length) with Some BBP_IMPORT_ERR_RANGE;
      check_descriptors m memory_map stride (i + 1) n
  end.

(** The status and [*out_count], which starts as [out_count]. *)
Definition validate_memory_map (m : mem) (s : bbp_uefi_snapshot) (out_count : Z) :
    option (bbp_import_status * Z) :=
  let fail status := Some (status, out_count) in
  reject (u_memory_map s =? 0) || (u_memory_map_bytes s =? 0) with fail BBP_IMPORT_ERR_NULL;
  reject u_memory_map_final s =? 0 with fail BBP_IMPORT_ERR_NON_FINAL;
  reject (u_descriptor_stride s <? 40) || (BBP_IMPORT_U32_MAX <? u_descriptor_stride s)
         || (BBP_IMPORT_SIZE_MAX <? u_descriptor_stride s)
         || negb (u_descriptor_version s =? 1) with fail BBP_IMPORT_ERR_UNSUPPORTED;
  reject (BBP_IMPORT_U32_MAX <? u_memory_map_bytes s)
         || negb (u_memory_map_bytes s mod u_descriptor_stride s =? 0)
    with fail BBP_IMPORT_ERR_FRAMING;
  let count := u_memory_map_bytes s / u_descriptor_stride s in
  reject (count =? 0) || (BBP_IMPORT_U32_MAX <? count) with fail BBP_IMPORT_ERR_COUNT;
  try check_descriptors m (u_memory_map s) (u_descriptor_stride s) 0 (Z.to_nat count) or fail;
  Some (BBP_IMPORT_OK, count).

(** ** Emission *)

Definition emit_hhdm (offset : Z) : emitter :=
  emit_tag BBP_TAG_HHDM SIZEOF_TAG_HHDM (fun m tag => store64 m (tag + 32) offset).

Fixpoint memory_map_loop (m : mem) (snapshot entries i : Z) (n : nat) : option mem :=
  match n with
  | O => Some m
  | S n =>
      s ← uefi_snapshot_at m snapshot;
      let source := u_memory_map s + i * u_descriptor_stride s in
      base ← read_u64 m (source + 8);
      m ← store64 m (entries + i * 32) base;
      pages ← read_u64 m (source + 24);
      m ← store64 m (entries + i * 32 + 8) (wrap64 (pages * 4096));
      type ← read_u32 m source;
      m ← store32 m (entries + i * 32 + 16) (uefi_memory_type type);
      attributes ← read_u64 m (source + 32);
      m ← store32 m (entries + i * 32 + 20) (uefi_attributes attributes);
      memory_map_loop m snapshot entries (i + 1) n
  end.

Definition emit_memory_map (snapshot count tag_size : Z) : emitter :=
  emit_tag BBP_TAG_MEMORY_MAP tag_size (fun m tag =>
    m ← store32 m (tag + 32) count;
    m ← store32 m (tag + 36) 32;
    memory_map_loop m snapshot (tag + 40) 0 (Z.to_nat count)).

Definition emit_kernel_address (snapshot : Z) : emitter :=
  emit_tag BBP_TAG_KERNEL_ADDRESS 48 (fun m tag =>
    s ← uefi_snapshot_at m snapshot;
    m ← store64 m (tag + 32) (u_kernel_physical_base s);
    s ← uefi_snapshot_at m snapshot;
    store64 m (tag + 40) (u_kernel_virtual_base s)).

Definition emit_cmdline (string : bbp_import_string) : emitter :=
  emit_blob_tag (str_data string) (str_bytes string) BBP_TAG_CMDLINE 56 (fun physical m tag =>
    m ← store64 m (tag + 32) physical;
    m ← store32 m (tag + 40) (wrap32 (str_bytes string - 1));
    crc ← bbp_crc64 m (str_data string) (Z.to_nat (str_bytes string - 1));
    store64 m (tag + 48) crc).

Definition emit_framebuffer (source : Z) : emitter :=
  emit_tag BBP_TAG_FRAMEBUFFER (72 + 48) (fun m tag =>
    s ← framebuffer_at m source;
    m ← store64 m (tag + 32) (fb_address s);
    m ← store16 m (tag + 40) 1;
    s ← framebuffer_at m source;
    m ← store16 m (tag + 42) (fb_flags s);
    s ← framebuffer_at m source;
    m ← store32 m (tag + 44) (fb_pitch s);
    s ← framebuffer_at m source;
    m ← store64 m (tag + 48) (fb_total_size s);
    s ← framebuffer_at m source;
    m ← store16 m (tag + 72) (wrap16 (fb_width s));
    s ← framebuffer_at m source;
    m ← store16 m (tag + 74) (wrap16 (fb_height s));
    s ← framebuffer_at m source;
    m ← store16 m (tag + 78) (fb_color_depth s);
    s ← framebuffer_at m source;
    store32 m (tag + 80) (fb_pixel_format s)).

Definition emit_acpi (source : Z) : emitter :=
  emit_tag BBP_TAG_ACPI 56 (fun m tag =>
    s ← acpi_at m source;
    m ← store64 m (tag + 32) (acpi_rsdp_address s);
    s ← acpi_at m source;
    m ← store64 m (tag + 40) (acpi_xsdt_address s);
    s ← acpi_at m source;
    m ← store32 m (tag + 48) (acpi_oem_id s);
    s ← acpi_at m source;
    m ← store16 m (tag + 52) (acpi_acpi_version s);
    s ← acpi_at m source;
    store16 m (tag + 54) (acpi_flags s)).

(** Statements that read the snapshot through its pointer. *)
Definition reading (snapshot : Z) (K : bbp_uefi_snapshot -> emitter) : emitter :=
  fun m b => s ← uefi_snapshot_at m snapshot; K s m b.

Definition emit_efi (snapshot : Z) : emitter :=
  reading snapshot (fun s =>
    emit_blob_tag (u_memory_map s) (u_memory_map_bytes s) BBP_TAG_EFI 64 (fun map m tag =>
      s ← uefi_snapshot_at m snapshot;
      m ← store64 m (tag + 32) (u_system_table s);
      m ← store64 m (tag + 40) map;
      s ← uefi_snapshot_at m snapshot;
      m ← store32 m (tag + 48) (wrap32 (u_memory_map_bytes s));
      s ← uefi_snapshot_at m snapshot;
      m ← store32 m (tag + 52) (wrap32 (u_descriptor_stride s));
      s ← uefi_snapshot_at m snapshot;
      store32 m (tag + 56) (u_descriptor_version s))).

Definition emit_smbios (snapshot : Z) : emitter :=
  emit_tag BBP_TAG_SMBIOS 48 (fun m tag =>
    s ← uefi_snapshot_at m snapshot;
    m ← store64 m (tag + 32) (u_smbios_32 s);
    s ← uefi_snapshot_at m snapshot;
    store64 m (tag + 40) (u_smbios_64 s)).

(** ** Validation *)

Definition needs_map (s : bbp_uefi_snapshot) : bool :=
  has (u_present s) (Z.lor BBP_IMPORT_HAS_MEMORY_MAP BBP_IMPORT_HAS_EFI).

(** The status and [map_count]. *)
Definition check_map (m : mem) (b : bbp_builder) (s : bbp_uefi_snapshot) :
    option (bbp_import_status * Z) :=
  check needs_map s else Some (BBP_IMPORT_OK, 0);
  reject bbp_import_ranges_overlap (u_memory_map s) (u_memory_map_bytes s) (arena b) (capacity b)
    with Some (BBP_IMPORT_ERR_RANGE, 0);
  validate_memory_map m s 0.

(** The status and [map_tag_size]. *)
Definition map_tag_size (s : bbp_uefi_snapshot) (map_count : Z) : bbp_import_status * Z :=
  check has (u_present s) BBP_IMPORT_HAS_MEMORY_MAP else (BBP_IMPORT_OK, 0);
  let '(status, size) := bbp_import_array_tag_size 40 map_count 32 (Some 0) in
  (status, default 0 size).

Definition check_kernel_address (s : bbp_uefi_snapshot) : bbp_import_status :=
  reject has (u_present s) BBP_IMPORT_HAS_KERNEL_ADDRESS
         && (negb (bbp_import_phys_address_valid (u_kernel_physical_base s) true)
             || (u_kernel_virtual_base s =? 0)) with BBP_IMPORT_ERR_RANGE;
  BBP_IMPORT_OK.

Definition check_cmdline (m : mem) (b : bbp_builder) (s : bbp_uefi_snapshot) :
    option bbp_import_status :=
  check has (u_present s) BBP_IMPORT_HAS_CMDLINE else Some BBP_IMPORT_OK;
  reject bbp_import_ranges_overlap (str_data (u_command_line s)) (str_bytes (u_command_line s))
           (arena b) (capacity b) with Some BBP_IMPORT_ERR_RANGE;
  bbp_import_validate_string m (u_command_line s).

Definition check_framebuffer (s : bbp_uefi_snapshot) : bbp_import_status :=
  check has (u_present s) BBP_IMPORT_HAS_FRAMEBUFFER else BBP_IMPORT_OK;
  bbp_import_validate_framebuffer (Some (u_framebuffer s)).

Definition check_acpi (s : bbp_uefi_snapshot) : bbp_import_status :=
  check has (u_present s) BBP_IMPORT_HAS_ACPI else BBP_IMPORT_OK;
  validate_acpi (u_acpi s).

Definition check_efi (s : bbp_uefi_snapshot) : bbp_import_status :=
  reject has (u_present s) BBP_IMPORT_HAS_EFI
         && negb (bbp_import_phys_address_valid (u_system_table s) false) with BBP_IMPORT_ERR_RANGE;
  BBP_IMPORT_OK.

Definition check_smbios (s : bbp_uefi_snapshot) : bbp_import_status :=
  check has (u_present s) BBP_IMPORT_HAS_SMBIOS else BBP_IMPORT_OK;
  reject ((u_smbios_32 s =? 0) && (u_smbios_64 s =? 0))
         || negb (bbp_import_phys_address_valid (u_smbios_32 s) true)
         || negb (bbp_import_phys_address_valid (u_smbios_64 s) true) with BBP_IMPORT_ERR_RANGE;
  BBP_IMPORT_OK.

(** ** Plan, emission and the importer *)

Definition uefi_plan (b : bbp_builder) (s : bbp_uefi_snapshot) (tag_size : Z) :
    bbp_import_plan -> bbp_import_status * bbp_import_plan :=
  let tag_if flag bytes :=
    plan_if (has (u_present s) flag) (fun plan => bbp_import_plan_tag b plan bytes) in
  let blob_if flag bytes :=
    plan_if (has (u_present s) flag) (fun plan => bbp_import_plan_blob b plan bytes) in
  (tag_if BBP_IMPORT_HAS_HHDM SIZEOF_TAG_HHDM >>>
   tag_if BBP_IMPORT_HAS_MEMORY_MAP tag_size >>>
   tag_if BBP_IMPORT_HAS_KERNEL_ADDRESS 48 >>>
   blob_if BBP_IMPORT_HAS_CMDLINE (str_bytes (u_command_line s)) >>>
   tag_if BBP_IMPORT_HAS_CMDLINE 56 >>>
   tag_if BBP_IMPORT_HAS_FRAMEBUFFER (72 + 48) >>>
   tag_if BBP_IMPORT_HAS_ACPI 56 >>>
   blob_if BBP_IMPORT_HAS_EFI (u_memory_map_bytes s) >>>
   tag_if BBP_IMPORT_HAS_EFI 64 >>>
   tag_if BBP_IMPORT_HAS_SMBIOS 48).

Definition uefi_emit (snapshot map_count tag_size : Z) : emitter :=
  let emit_if flag E := reading snapshot (fun s => emit_when (has (u_present s) flag) (E s)) in
  (emit_if BBP_IMPORT_HAS_HHDM (fun s => emit_hhdm (u_hhdm_offset s)) ;;;
   emit_if BBP_IMPORT_HAS_MEMORY_MAP (fun _ => emit_memory_map snapshot (wrap32 map_count) tag_size) ;;;
   emit_if BBP_IMPORT_HAS_KERNEL_ADDRESS (fun _ => emit_kernel_address snapshot) ;;;
   emit_if BBP_IMPORT_HAS_CMDLINE (fun s => emit_cmdline (u_command_line s)) ;;;
   emit_if BBP_IMPORT_HAS_FRAMEBUFFER (fun _ => emit_framebuffer (snapshot + 88)) ;;;
   emit_if BBP_IMPORT_HAS_ACPI (fun _ => emit_acpi (snapshot + 128)) ;;;
   emit_if BBP_IMPORT_HAS_EFI (fun _ => emit_efi snapshot) ;;;
   emit_if BBP_IMPORT_HAS_SMBIOS (fun _ => emit_smbios snapshot)).

(** The parts of the function before the first builder call: [inl] is an early
    return, [inr] the descriptor count and the size of the memory-map tag. *)
Definition uefi_validate (m : mem) (b : bbp_builder) (snapshot : Z) :
    option (bbp_import_status + Z * Z) :=
  let fail status := Some (inl status) in
  reject bbp_import_ranges_overlap snapshot SIZEOF_UEFI_SNAPSHOT (arena b) (capacity b)
    with fail BBP_IMPORT_ERR_RANGE;
  s ← uefi_snapshot_at m snapshot;
  reject negb (Z.land (u_present s) (wrap64 (Z.lnot UEFI_ALLOWED)) =? 0)
    with fail BBP_IMPORT_ERR_FLAGS;
  '(status, plan) ← bbp_import_plan_begin m (Some b) (Some (ImportPlan 0 0));
  let plan := default (ImportPlan 0 0) plan in
  reject negb (bool_decide (status = BBP_IMPORT_OK)) with fail status;
  '(status, map_count) ← check_map m b s;
  reject negb (bool_decide (status = BBP_IMPORT_OK)) with fail status;
  let '(status, tag_size) := map_tag_size s map_count in
  reject negb (bool_decide (status = BBP_IMPORT_OK)) with fail status;
  try Some (check_kernel_address s) or fail;
  try check_cmdline m b s or fail;
  try Some (check_framebuffer s) or fail;
  try Some (check_acpi s) or fail;
  try Some (check_efi s) or fail;
  try Some (check_smbios s) or fail;
  let '(status, plan) := uefi_plan b s tag_size plan in
  reject negb (bool_decide (status = BBP_IMPORT_OK)) with fail status;
  Some (inr (map_count, tag_size)).

Definition bbp_import_uefi_hobs (m : mem) (builder : option bbp_builder) (snapshot : Z) :
    option (mem * option bbp_builder * bbp_import_status) :=
  match builder with
  | None => Some (m, None, BBP_IMPORT_ERR_NULL)
  | Some b =>
      reject snapshot =? 0 with Some (m, Some b, BBP_IMPORT_ERR_NULL);
      r ← uefi_validate m b snapshot;
      match r with
      | inl status => Some (m, Some b, status)
      | inr (map_count, tag_size) =>
          '(m, b) ← uefi_emit snapshot map_count tag_size m b;
          Some (m, Some b, BBP_IMPORT_OK)
      end
  end.
