(* ===== verification/ImportUefiProps.v ===== *)
(** * Properties of the UEFI snapshot importer

    Importing never faults, a refused snapshot changes nothing, and an accepted
    one is valid and appends exactly the tags that describe it, the raw memory
    map among them. *)

From S2P Require Import Prelude Memory Crc64 Abi Builder BuilderFacts Import ImportFacts ImportEmit ImportBodies ImportUefi.

(** ** Descriptors *)

Lemma read_u32_load m p : read_u32 m p = load32 m p.
Proof. apply bytewise32_load. Qed.

Lemma read_u64_load m p : read_u64 m p = load64 m p.
Proof. unfold read_u64. rewrite !read_u32_load. apply halves64_load. Qed.

(** An EFI_MEMORY_DESCRIPTOR, as far as the importer looks at it. *)
Record uefi_descriptor := Descriptor {
  d_type : Z;
  d_base : Z;
  d_pages : Z;
  d_attributes : Z;
}.

Definition descriptor (map : list byte) (stride i : nat) : uefi_descriptor :=
  Descriptor (raw map (i * stride) 4) (raw map (i * stride + 8) 8) (raw map (i * stride + 24) 8)
    (raw map (i * stride + 32) 8).

(** The descriptors of a raw map whose elements lie [stride] bytes apart. *)
Definition descriptors (map : list byte) (stride : Z) : list uefi_descriptor :=
  List.map (descriptor map (Z.to_nat stride)) (seq 0 (Z.to_nat (zlen map / stride))).

Definition valid_descriptor (d : uefi_descriptor) : Prop :=
  0 < d_pages d /\ d_base d + 4096 * d_pages d <= 2 ^ 48.

Definition uefi_entry_bytes (d : uefi_descriptor) : list byte :=
  memory_entry_bytes (d_base d) (4096 * d_pages d) (uefi_memory_type (d_type d))
    (uefi_attributes (d_attributes d)).

Lemma zlen_descriptors map stride : 0 < stride -> zlen (descriptors map stride) = zlen map / stride.
Proof.
  intros H. unfold descriptors, zlen at 1. rewrite length_map, length_seq, Z2Nat.id; [done|].
  apply Z.div_pos; [apply zlen_nonneg|done].
Qed.

Lemma descriptors_lookup map stride i d :
  descriptors map stride !! i = Some d ->
  d = descriptor map (Z.to_nat stride) i /\ Z.of_nat i < zlen map / stride.
Proof.
  unfold descriptors. intros H. apply list_lookup_fmap_Some in H as (j & -> & Hj).
  apply lookup_seq in Hj as [-> ?]. rewrite Nat.add_0_l. split; [done|lia].
Qed.

Section Read.
Context (m : mem) (p : Z) (map : list byte) (stride : Z).
Context (Hat : bytes_at m p map) (Hst : 40 <= stride) (Hmod : zlen map mod stride = 0).

Lemma field_in_map i off n :
  Z.of_nat i < zlen map / stride -> (off + n <= 40)%nat ->
  load_le m (p + Z.of_nat i * stride + Z.of_nat off) n =
  Some (raw map (i * Z.to_nat stride + off) n).
Proof.
  intros Hi Hn. pose proof (Z.div_mod (zlen map) stride ltac:(lia)) as Hdm.
  replace (p + Z.of_nat i * stride + Z.of_nat off)
    with (p + Z.of_nat (i * Z.to_nat stride + off)) by lia.
  apply (load_le_of_bytes m p (length map)); [by apply bytes_at_load|]. unfold zlen in *. nia.
Qed.

Lemma descriptor_read i d :
  descriptors map stride !! i = Some d ->
  read_u32 m (p + Z.of_nat i * stride) = Some (d_type d) /\
  read_u64 m (p + Z.of_nat i * stride + 8) = Some (d_base d) /\
  read_u64 m (p + Z.of_nat i * stride + 24) = Some (d_pages d) /\
  read_u64 m (p + Z.of_nat i * stride + 32) = Some (d_attributes d).
Proof.
  intros Hi. apply descriptors_lookup in Hi as [-> Hi]. rewrite read_u32_load, !read_u64_load.
  pose proof (field_in_map i 0 4 Hi ltac:(lia)) as H0. rewrite Z.add_0_r, Nat.add_0_r in H0.
  split; [exact H0|]. split_and!; [by apply (field_in_map i 8 8); [|lia]|by apply (field_in_map i 24 8); [|lia]|].
  by apply (field_in_map i 32 8); [|lia].
Qed.
End Read.

Lemma descriptor_words m p i d map stride :
  bytes_at m p map -> 40 <= stride -> zlen map mod stride = 0 -> descriptors map stride !! i = Some d ->
  0 <= d_base d /\ in_word 64 (d_pages d).
Proof.
  intros Hat Hst Hm Hi. destruct (descriptor_read m p map stride Hat Hst Hm i d Hi) as (_ & H1 & H2 & _).
  rewrite read_u64_load in H1, H2. apply load64_word in H1 as [? _], H2. done.
Qed.

Lemma check_descriptors_spec m p map stride : forall rest i,
  bytes_at m p map -> 40 <= stride -> zlen map mod stride = 0 ->
  drop i (descriptors map stride) = rest ->
  exists st, check_descriptors m p stride (Z.of_nat i) (length rest) = Some st /\
    (st = BBP_IMPORT_OK -> Forall valid_descriptor rest).
Proof.
  induction rest as [|d rest IH]; intros i Hat Hst Hm Hdrop.
  { eexists. split; [done|]. constructor. }
  cbn [check_descriptors length].
  assert (descriptors map stride !! i = Some d) as Hd
    by (by rewrite <- (Nat.add_0_r i), <- lookup_drop, Hdrop).
  destruct (descriptor_read m p map stride Hat Hst Hm i d Hd) as (_ & -> & -> & _).
  destruct (descriptor_words m p i d map stride Hat Hst Hm Hd) as [? Hpg]. unfold in_word in Hpg.
  cbn [mbind option_bind]. destruct (_ || _) eqn:G; [by eexists|]. apply orb_false_iff in G as [G1 G2].
  apply Z.eqb_neq in G1. apply Z.ltb_ge in G2. iconsts.
  change ((2 ^ 64 - 1) / 4096) with (2 ^ 52 - 1) in G2.
  rewrite wrap_small by (unfold in_word; lia).
  destruct (bbp_import_phys_range_valid _ _) eqn:Ev; cbn [negb]; [|by eexists].
  apply phys_range_valid_iff in Ev; [|lia].
  replace (Z.of_nat i + 1) with (Z.of_nat (S i)) by lia.
  destruct (IH (S i) Hat Hst Hm) as (st & Hst' & Hok); [by eapply drop_S_cons|].
  exists st. split; [done|]. intros Hs. constructor; [unfold valid_descriptor; lia|auto].
Qed.

(** ** Sources and valid snapshots *)

Abbreviation present s flag := (has (u_present s) flag = true).
Abbreviation map_of s map := (descriptors map (u_descriptor_stride s)).

Record uefi_source (m : mem) (snapshot : Z) (s : bbp_uefi_snapshot)
    (map : list byte) (line : list byte) : Prop := {
  us_address : 0 < snapshot;
  us_snapshot : uefi_snapshot_at m snapshot = Some s;
  us_map : needs_map s = true -> u_memory_map s <> 0 ->
    zlen map = u_memory_map_bytes s /\ bytes_at m (u_memory_map s) map;
  us_line : present s BBP_IMPORT_HAS_CMDLINE -> str_data (u_command_line s) <> 0 ->
    zlen line = str_bytes (u_command_line s) /\ bytes_at m (str_data (u_command_line s)) line;
}.

(** A final version-1 map: whole descriptors, each a non-empty range of pages
    below 2^48. *)
Record map_valid (s : bbp_uefi_snapshot) (map : list byte) : Prop := {
  mv_final : u_memory_map_final s <> 0;
  mv_version : u_descriptor_version s = 1;
  mv_stride : 40 <= u_descriptor_stride s < 2 ^ 32;
  mv_whole : zlen map = u_descriptor_stride s * zlen (map_of s map);
  mv_small : zlen map < 2 ^ 32;
  mv_some : map_of s map <> [];
  mv_ranges : Forall valid_descriptor (map_of s map);
}.

Record uefi_valid (s : bbp_uefi_snapshot) (map line : list byte) : Prop := {
  uv_map : present s BBP_IMPORT_HAS_MEMORY_MAP \/ present s BBP_IMPORT_HAS_EFI -> map_valid s map;
  uv_kernel : present s BBP_IMPORT_HAS_KERNEL_ADDRESS ->
    u_kernel_physical_base s < 2 ^ 48 /\ u_kernel_virtual_base s <> 0;
  uv_line : present s BBP_IMPORT_HAS_CMDLINE -> exists text, utf8_text text /\ line = text ++ [x00];
  uv_framebuffer : present s BBP_IMPORT_HAS_FRAMEBUFFER -> exists bpp, framebuffer_ok (u_framebuffer s) bpp;
  uv_acpi : present s BBP_IMPORT_HAS_ACPI -> valid_acpi (u_acpi s);
  uv_efi : present s BBP_IMPORT_HAS_EFI -> 0 < u_system_table s < 2 ^ 48;
  uv_smbios : present s BBP_IMPORT_HAS_SMBIOS ->
    (u_smbios_32 s <> 0 \/ u_smbios_64 s <> 0) /\ u_smbios_32 s < 2 ^ 48 /\ u_smbios_64 s < 2 ^ 48;
}.

Record uefi_typed (s : bbp_uefi_snapshot) : Prop := {
  ut_map : in_word 64 (u_memory_map s);
  ut_bytes : in_word 64 (u_memory_map_bytes s);
  ut_stride : in_word 64 (u_descriptor_stride s);
  ut_kernel : in_word 64 (u_kernel_physical_base s);
  ut_system : in_word 64 (u_system_table s);
  ut_data : in_word 64 (str_data (u_command_line s));
  ut_line : in_word 64 (str_bytes (u_command_line s));
  ut_framebuffer : framebuffer_typed (u_framebuffer s);
  ut_rsdp : in_word 64 (acpi_rsdp_address (u_acpi s));
  ut_xsdt : in_word 64 (acpi_xsdt_address (u_acpi s));
  ut_flags : in_word 16 (acpi_flags (u_acpi s));
  ut_smbios_32 : in_word 64 (u_smbios_32 s);
  ut_smbios_64 : in_word 64 (u_smbios_64 s);
}.

Lemma uefi_snapshot_typed m p s : uefi_snapshot_at m p = Some s -> uefi_typed s.
Proof.
  unfold uefi_snapshot_at. intros H. apply bind_Some in H as (bs & Hbs & [= <-]).
  apply load_bytes_length in Hbs.
  split; cbn; try (apply (raw_word bs _ 8); lia); try (apply (raw_word bs _ 2); lia).
  apply framebuffer_of_typed. lia.
Qed.

(** ** Validation *)

Lemma has_lor p a b : has p (Z.lor a b) = has p a || has p b.
Proof.
  unfold has. rewrite Z.land_lor_distr_r.
  destruct (Z.eqb_spec (Z.land p a) 0) as [->|Ha], (Z.eqb_spec (Z.land p b) 0) as [->|Hb];
    cbn [negb orb]; rewrite ?Z.lor_0_l, ?Z.lor_0_r; try done.
  all: try (apply negb_true_iff, Z.eqb_neq; rewrite ?Z.lor_eq_0_iff; tauto).
  all: rewrite (proj2 (Z.eqb_neq _ 0)) by done; done.
Qed.

Lemma needs_map_iff s :
  needs_map s = true <-> present s BBP_IMPORT_HAS_MEMORY_MAP \/ present s BBP_IMPORT_HAS_EFI.
Proof. unfold needs_map. by rewrite has_lor, orb_true_iff. Qed.

(** Go past a guard whose failure ends the validation. *)
#[local] Ltac pass G :=
  match goal with
  | |- context [if ?c then Some (_, _) else _] =>
      destruct c eqn:G; [eexists _, _; split; [done|discriminate]|]
  end.

Section Validation.
Context (m : mem) (b : bbp_builder) (ts : list tagrec) (snapshot : Z) (s : bbp_uefi_snapshot)
  (map line : list byte).
Context (Hrep : builder_rep m b ts) (Hus : uefi_source m snapshot s map line).

Lemma check_map_spec :
  exists st count, check_map m b s = Some (st, count) /\
    (st = BBP_IMPORT_OK -> needs_map s = true ->
     count = zlen (map_of s map) /\ zlen map = u_memory_map_bytes s /\ u_memory_map s <> 0 /\
     bytes_at m (u_memory_map s) map /\
     disjoint_range (arena b) (capacity b) (u_memory_map s) (zlen map) /\ map_valid s map).
Proof.
  pose proof (uefi_snapshot_typed _ _ _ (us_snapshot _ _ _ _ _ Hus)) as
    [[Hm _] [Hb _] _ _ _ _ _ _ _ _ _ _ _].
  destruct (arena_nonneg _ _ _ Hrep). unfold check_map.
  destruct (needs_map s) eqn:Hn; [|eexists _, _; split; [done|by intros]].
  destruct (bbp_import_ranges_overlap _ _ _ _) eqn:Eo; [eexists _, _; split; [done|discriminate]|].
  apply ranges_apart in Eo as [Hdis _]; [|lia..]. unfold validate_memory_map.
  pass G1. apply orb_false_iff in G1 as [G1 G1']. apply Z.eqb_neq in G1, G1'.
  pass Gf. apply Z.eqb_neq in Gf. pass G2. pass G3. iconsts. bool_to_prop.
  destruct (us_map _ _ _ _ _ Hus Hn G1) as [Hlen Hat]. rewrite <- Hlen in *.
  assert (zlen map = u_descriptor_stride s * (zlen map / u_descriptor_stride s)) as Hwhole.
  { pose proof (Z.div_mod (zlen map) (u_descriptor_stride s) ltac:(lia)). lia. }
  pose proof (zlen_descriptors map (u_descriptor_stride s) ltac:(lia)) as Hz.
  rewrite <- Hz in *.
  pass G4. bool_to_prop.
  destruct (check_descriptors_spec m (u_memory_map s) map (u_descriptor_stride s)
    (map_of s map) 0 Hat) as (st & Hce & Hok); [lia|lia|done|].
  replace (Z.to_nat (zlen (map_of s map))) with (length (map_of s map)) by (unfold zlen; lia).
  change (Z.of_nat 0) with 0 in Hce. rewrite Hce. cbn [mbind option_bind].
  case_bool_decide; [subst st|eexists _, _; split; [done|congruence]].
  eexists _, _. split; [done|]. intros _ _. split_and!; try done.
  split; try done; try lia; [|auto]. intros E. rewrite E in *. done.
Qed.

Lemma uefi_check_cmdline_spec :
  exists st, check_cmdline m b s = Some st /\
    (st = BBP_IMPORT_OK -> present s BBP_IMPORT_HAS_CMDLINE ->
     zlen line = str_bytes (u_command_line s) /\ bytes_at m (str_data (u_command_line s)) line /\
     str_data (u_command_line s) <> 0 /\ zlen line < 2 ^ 32 /\
     disjoint_range (arena b) (capacity b) (str_data (u_command_line s)) (zlen line) /\
     exists text, utf8_text text /\ line = text ++ [x00]).
Proof.
  destruct (uefi_snapshot_typed _ _ _ (us_snapshot _ _ _ _ _ Hus)) as
    [_ _ _ _ _ [? _] [? _] _ _ _ _ _ _].
  unfold check_cmdline. destruct (has _ _) eqn:Hp; [|eexists; split; [done|by intros]].
  destruct (check_string_spec m b ts (u_command_line s) line Hrep) as (st & Hst & Hok); [done|done| |].
  { by apply (us_line _ _ _ _ _ Hus). }
  exists st. split; [exact Hst|]. auto.
Qed.
End Validation.

(** ** The tags of a snapshot *)

Definition efi_body (s : bbp_uefi_snapshot) (map_phys : Z) : list byte :=
  le_encode 8 (u_system_table s) ++ le_encode 8 map_phys ++
  le_encode 4 (u_memory_map_bytes s) ++ le_encode 4 (u_descriptor_stride s) ++
  le_encode 4 (u_descriptor_version s) ++ replicate 4 x00.

Definition smbios_body (entry_32 entry_64 : Z) : list byte :=
  le_encode 8 entry_32 ++ le_encode 8 entry_64.

Definition uefi_items (s : bbp_uefi_snapshot) (map line : list byte) : list item :=
  let ds := map_of s map in
  on (u_present s) BBP_IMPORT_HAS_HHDM
    (Item BBP_TAG_HHDM [] 8 (fun _ => hhdm_body (u_hhdm_offset s))) ++
  on (u_present s) BBP_IMPORT_HAS_MEMORY_MAP (Item BBP_TAG_MEMORY_MAP [] (8 + 32 * zlen ds)
    (fun _ => memory_map_body (List.map uefi_entry_bytes ds))) ++
  on (u_present s) BBP_IMPORT_HAS_KERNEL_ADDRESS (Item BBP_TAG_KERNEL_ADDRESS [] 16
    (fun _ => kernel_address_body (u_kernel_physical_base s) (u_kernel_virtual_base s))) ++
  on (u_present s) BBP_IMPORT_HAS_CMDLINE
    (Item BBP_TAG_CMDLINE line 24 (cmdline_body (removelast line))) ++
  on (u_present s) BBP_IMPORT_HAS_FRAMEBUFFER (Item BBP_TAG_FRAMEBUFFER [] 88
    (fun _ => framebuffer_body (u_framebuffer s))) ++
  on (u_present s) BBP_IMPORT_HAS_ACPI (Item BBP_TAG_ACPI [] 24
    (fun _ => acpi_body (acpi_rsdp_address (u_acpi s)) (acpi_xsdt_address (u_acpi s))
       (acpi_oem_id (u_acpi s)) (acpi_acpi_version (u_acpi s)) (acpi_flags (u_acpi s)))) ++
  on (u_present s) BBP_IMPORT_HAS_EFI (Item BBP_TAG_EFI map 32 (efi_body s)) ++
  on (u_present s) BBP_IMPORT_HAS_SMBIOS (Item BBP_TAG_SMBIOS [] 16
    (fun _ => smbios_body (u_smbios_32 s) (u_smbios_64 s))).

Lemma uefi_items_wf s map line : Forall item_wf (uefi_items s map line).
Proof.
  unfold uefi_items. cbn zeta. rewrite !Forall_app.
  split_and!; apply on_wf; (by split) || by apply memory_map_item_wf.
Qed.

Lemma uefi_items_ids s map line : NoDup (List.map i_id (uefi_items s map line)).
Proof.
  eapply sublist_NoDup; [|].
  2: { unfold uefi_items. cbn zeta. rewrite !map_app. repeat apply sublist_app; apply on_ids. }
  by apply (bool_decide_unpack _); vm_compute.
Qed.

(** What the emission may rely on. *)
Record uefi_ready (m : mem) (A C snapshot : Z) (s : bbp_uefi_snapshot) (map line : list byte) : Prop := {
  ur_snapshot : uefi_snapshot_at m snapshot = Some s;
  ur_apart : disjoint_range A C snapshot 168;
  ur_map : needs_map s = true ->
    bytes_at m (u_memory_map s) map /\ zlen map = u_memory_map_bytes s /\ u_memory_map s <> 0 /\
    disjoint_range A C (u_memory_map s) (zlen map) /\ map_valid s map;
  ur_line : present s BBP_IMPORT_HAS_CMDLINE ->
    bytes_at m (str_data (u_command_line s)) line /\ zlen line = str_bytes (u_command_line s) /\
    str_data (u_command_line s) <> 0 /\ zlen line < 2 ^ 32 /\
    disjoint_range A C (str_data (u_command_line s)) (zlen line) /\
    exists text, line = text ++ [x00];
}.

Lemma uefi_ready_frame A C snapshot s map line m m' :
  frame A C m m' -> uefi_ready m A C snapshot s map line -> uefi_ready m' A C snapshot s map line.
Proof.
  intros F [Hsn Hap He Hl]. split; [|done|..].
  - unfold uefi_snapshot_at in *. rewrite (load_bytes_same_on m m'); [done|].
    by eapply frame_same_on.
  - intros Hp. destruct (He Hp) as (Hat & Hn & Hz & Hd & Hv). split_and!; try done.
    eapply bytes_at_same_on; [|exact Hat]. by eapply frame_same_on.
  - intros Hp. destruct (Hl Hp) as (Hat & Hn & Hz & Hlt & Hd & Hx). split_and!; try done.
    eapply bytes_at_same_on; [|exact Hat]. by eapply frame_same_on.
Qed.

Section Emission.
Context (A C snapshot : Z) (s : bbp_uefi_snapshot) (map line : list byte).
Let src m := uefi_ready m A C snapshot s map line.

Lemma uefi_ready_src m m' : frame A C m m' -> src m -> src m'.
Proof. apply uefi_ready_frame. Qed.

Lemma uefi_snapshot_read m : src m -> uefi_snapshot_at m snapshot = Some s.
Proof. intros H. by destruct H. Qed.

Lemma uefi_emits_reading K its : emits A C src (K s) its -> emits A C src (reading snapshot K) its.
Proof.
  intros H m b ts plan plan' Hrep Hpl HA HC Hag Hs Hplan.
  destruct (H m b ts plan plan') as (m' & b' & new & E & Rest); [done..|].
  exists m', b', new. split; [|done]. unfold reading. by rewrite (uefi_snapshot_read _ Hs).
Qed.

Lemma uefi_framebuffer_read m : src m -> framebuffer_at m (snapshot + 88) = Some (u_framebuffer s).
Proof.
  intros [H _ _ _]. unfold uefi_snapshot_at in H. apply bind_Some in H as (bs & Hbs & [= <-]).
  unfold framebuffer_at. change (snapshot + 88) with (snapshot + Z.of_nat 88).
  rewrite (load_nested m snapshot 168 bs 88 40 Hbs) by lia.
  cbn [mbind option_bind]. by rewrite framebuffer_of_sub.
Qed.

Lemma uefi_acpi_read m : src m -> acpi_at m (snapshot + 128) = Some (u_acpi s).
Proof.
  intros [H _ _ _]. unfold uefi_snapshot_at in H. apply bind_Some in H as (bs & Hbs & [= <-]).
  unfold acpi_at. change (snapshot + 128) with (snapshot + Z.of_nat 128).
  rewrite (load_nested m snapshot 168 bs 128 24 Hbs) by lia.
  cbn [mbind option_bind]. by rewrite acpi_of_sub.
Qed.

Lemma uefi_kernel_address_writes :
  writes A C src (fun m tag =>
    s ← uefi_snapshot_at m snapshot;
    m ← store64 m (tag + 32) (u_kernel_physical_base s);
    s ← uefi_snapshot_at m snapshot;
    store64 m (tag + 40) (u_kernel_virtual_base s)) 16
    (kernel_address_body (u_kernel_physical_base s) (u_kernel_virtual_base s)).
Proof.
  pose proof uefi_ready_src as Hsrc. pose proof uefi_snapshot_read as Hs.
  start 16%nat. rd Hs. put 0%nat. rd Hs. put 0%nat. by finish.
Qed.

Lemma smbios_writes :
  writes A C src (fun m tag =>
    s ← uefi_snapshot_at m snapshot;
    m ← store64 m (tag + 32) (u_smbios_32 s);
    s ← uefi_snapshot_at m snapshot;
    store64 m (tag + 40) (u_smbios_64 s)) 16 (smbios_body (u_smbios_32 s) (u_smbios_64 s)).
Proof.
  pose proof uefi_ready_src as Hsrc. pose proof uefi_snapshot_read as Hs.
  start 16%nat. rd Hs. put 0%nat. rd Hs. put 0%nat. by finish.
Qed.

Lemma efi_emits :
  present s BBP_IMPORT_HAS_EFI -> (exists m, src m) ->
  emits A C src (emit_efi snapshot) [Item BBP_TAG_EFI map 32 (efi_body s)].
Proof.
  intros Hp [m0 Hm0]. assert (needs_map s = true) as Hn by (apply needs_map_iff; by right).
  destruct (ur_map _ _ _ _ _ _ _ Hm0 Hn) as (_ & Hlen & Hnz & Hd & Hv).
  pose proof uefi_ready_src as Hsrc. pose proof uefi_snapshot_read as Hs.
  unfold emit_efi. apply uefi_emits_reading. rewrite <- Hlen.
  pose proof (zlen_nonneg map). destruct Hv as [_ _ ? Hw ? Hsome _].
  apply (emits_blob_tag A C src Hsrc (u_memory_map s) map BBP_TAG_EFI 32); try done.
  - intros phys. start 32%nat. rd Hs. put 0%nat. put 0%nat. rd Hs.
    rewrite <- Hlen, wrap_small by (unfold in_word; lia). put 0%nat.
    rd Hs. rewrite wrap_small by (unfold in_word; lia). put 0%nat. rd Hs. put 0%nat. finish.
    unfold efi_body. rewrite <- Hlen. rewrite <- !app_assoc. reflexivity.
  - destruct (map_of s map) eqn:E; [done|]. rewrite zlen_cons in Hw. pose proof (zlen_nonneg l). nia.
  - intros m Hm. by destruct (ur_map _ _ _ _ _ _ _ Hm Hn).
Qed.

(** The reads of one descriptor, in any memory of the emission. *)
Lemma descriptor_src i d :
  needs_map s = true -> map_of s map !! i = Some d ->
  let p := u_memory_map s + Z.of_nat i * u_descriptor_stride s in
  (forall m, src m -> read_u32 m p = Some (d_type d)) /\
  (forall m, src m -> read_u64 m (p + 8) = Some (d_base d)) /\
  (forall m, src m -> read_u64 m (p + 24) = Some (d_pages d)) /\
  (forall m, src m -> read_u64 m (p + 32) = Some (d_attributes d)).
Proof.
  intros Hn Hd p.
  enough (forall m, src m -> read_u32 m p = Some (d_type d) /\ read_u64 m (p + 8) = Some (d_base d) /\
    read_u64 m (p + 24) = Some (d_pages d) /\ read_u64 m (p + 32) = Some (d_attributes d)) as H
    by (split_and!; intros m Hm; by destruct (H m Hm) as (? & ? & ? & ?)).
  intros m Hm. destruct (ur_map _ _ _ _ _ _ _ Hm Hn) as (Hb & _ & _ & _ & [_ _ ? Hw _ _ _]).
  apply (descriptor_read m (u_memory_map s) map); [done|lia| |done].
  rewrite Hw, Z.mul_comm. apply Z.mod_mul. lia.
Qed.

Lemma uefi_memory_map_loop_writes a N : forall rest i written m,
  needs_map s = true -> A <= a -> a + N <= A + C ->
  src m -> bytes_at m a (written ++ replicate (32 * length rest) x00) ->
  drop i (map_of s map) = rest -> zlen written = 8 + 32 * Z.of_nat i ->
  zlen written + 32 * zlen rest = N ->
  exists m', memory_map_loop m snapshot (a + 8) (Z.of_nat i) (length rest) = Some m' /\
    bytes_at m' a (written ++ concat (List.map uefi_entry_bytes rest)) /\ frame a N m m'.
Proof.
  pose proof uefi_ready_src as Hsrc. pose proof uefi_snapshot_read as Hs.
  induction rest as [|d rest IH]; intros i written m Hn Ha HN Hsm Hat Hdrop Hlen Hall.
  { exists m. split_and!; [done|done|apply frame_refl]. }
  assert (map_of s map !! i = Some d) as Hd by (by rewrite <- (Nat.add_0_r i), <- lookup_drop, Hdrop).
  destruct (descriptor_src i d Hn Hd) as (H0 & H1 & H2 & H3).
  assert (valid_descriptor d) as [Hpg Hrange].
  { destruct (ur_map _ _ _ _ _ _ _ Hsm Hn) as (_ & _ & _ & _ & [_ _ _ _ _ _ Hv]).
    rewrite Forall_lookup in Hv. by eapply Hv. }
  assert (0 <= d_base d).
  { specialize (H1 m Hsm). rewrite read_u64_load in H1. by apply load64_word in H1 as [? _]. }
  cbn [memory_map_loop length] in Hat |- *. rewrite zlen_cons in Hall.
  rd Hs. rd H1. put 0%nat. rd H2.
  rewrite (wrap_small 64 (d_pages d * 4096)), (Z.mul_comm (d_pages d)) by (unfold in_word; lia).
  put 0%nat. rd H0. put 0%nat. rd H3. put 0%nat.
  eapply (advance _ _ _ _ 8 (32 * length rest)) in Hat; [|lia].
  replace (Z.of_nat i + 1) with (Z.of_nat (S i)) by lia.
  destruct (IH (S i) _ _ Hn Ha HN Hs0 Hat) as (m' & Hl & Hb & Hf).
  { by eapply drop_S_cons. }
  { autorewrite with zlen. lia. }
  { autorewrite with zlen. lia. }
  exists m'. split_and!; [done| |done]. by rewrite <- !app_assoc in Hb.
Qed.

Lemma uefi_memory_map_emits :
  present s BBP_IMPORT_HAS_MEMORY_MAP -> zlen (map_of s map) < 2 ^ 32 ->
  emits A C src (emit_memory_map snapshot (wrap32 (zlen (map_of s map))) (40 + 32 * zlen (map_of s map)))
    [Item BBP_TAG_MEMORY_MAP [] (8 + 32 * zlen (map_of s map))
       (fun _ => memory_map_body (List.map uefi_entry_bytes (map_of s map)))].
Proof.
  intros Hp Hlt. assert (needs_map s = true) as Hn by (apply needs_map_iff; by left).
  set (ds := map_of s map) in *. pose proof (zlen_nonneg ds).
  rewrite wrap_small by (unfold in_word; lia). unfold emit_memory_map.
  replace (40 + 32 * zlen ds) with (32 + (8 + 32 * zlen ds)) by lia.
  apply emits_tag; [apply uefi_ready_src|lia|done| |].
  { unfold memory_map_body. autorewrite with zlen.
    rewrite (zlen_concat_map uefi_entry_bytes 32) by done. lia. }
  intros m tag Hs Ha HN Hat.
  replace (Z.to_nat (8 + 32 * zlen ds)) with (8 + 32 * length ds)%nat in Hat by (unfold zlen; lia).
  rewrite <- (app_nil_l (replicate _ x00)) in Hat. pose proof uefi_ready_src as Hsrc.
  put 0%nat. put 0%nat.
  replace (Z.to_nat (zlen ds)) with (length ds) by (unfold zlen; lia).
  replace (tag + 40) with (tag + 32 + 8) by lia.
  replace (8 + 32 * length ds - 0 - 4 - 0 - 4)%nat with (32 * length ds)%nat in Hat by lia.
  destruct (uefi_memory_map_loop_writes (tag + 32) (8 + 32 * zlen ds) ds 0 _ _ Hn ltac:(lia) ltac:(lia) Hs Hat)
    as (m' & Hl & Hb & Hf); [done|done|autorewrite with zlen; lia|].
  exists m'. split_and!; [exact Hl| |exact Hf]. unfold memory_map_body.
  replace (zlen (List.map uefi_entry_bytes ds)) with (zlen ds) by (unfold zlen; by rewrite length_map).
  by rewrite <- !app_assoc in Hb.
Qed.

Lemma uefi_cmdline_emits :
  present s BBP_IMPORT_HAS_CMDLINE -> (exists m, src m) ->
  emits A C src (emit_cmdline (u_command_line s))
    [Item BBP_TAG_CMDLINE line 24 (cmdline_body (removelast line))].
Proof.
  intros Hp [m0 Hm0]. destruct (ur_line _ _ _ _ _ _ _ Hm0 Hp) as (_ & Hlen & ? & ? & ? & ?).
  unfold emit_cmdline. rewrite <- Hlen. apply command_line_emits; try done; [apply uefi_ready_src|].
  intros m Hm. by destruct (ur_line _ _ _ _ _ _ _ Hm Hp).
Qed.

Lemma uefi_emits_on flag E it :
  (present s flag -> emits A C src (E s) [it]) ->
  emits A C src (reading snapshot (fun s => emit_when (has (u_present s) flag) (E s)))
    (on (u_present s) flag it).
Proof. intros H. apply uefi_emits_reading. unfold on. by apply emits_when. Qed.

Lemma uefi_emits :
  (exists m, src m) ->
  (present s BBP_IMPORT_HAS_FRAMEBUFFER -> exists bpp, framebuffer_ok (u_framebuffer s) bpp) ->
  forall count size,
  (present s BBP_IMPORT_HAS_MEMORY_MAP ->
     count = zlen (map_of s map) /\ zlen (map_of s map) < 2 ^ 32 /\ size = 40 + 32 * zlen (map_of s map)) ->
  emits A C src (uefi_emit snapshot count size) (uefi_items s map line).
Proof.
  intros Hex Hfb count size Hmm. pose proof uefi_ready_src as Hsrc.
  pose proof (zlen_nonneg (map_of s map)).
  unfold uefi_emit, uefi_items. cbn zeta.
  apply emits_seq; [done|apply on_wf; by split| |].
  { apply uefi_emits_on. intros _. apply (emits_tag A C src Hsrc BBP_TAG_HHDM 8); [done..|by apply hhdm_writes]. }
  apply emits_seq; [done|apply on_wf; by apply memory_map_item_wf| |].
  { apply uefi_emits_on. intros Hp. destruct (Hmm Hp) as (-> & ? & ->). by apply uefi_memory_map_emits. }
  apply emits_seq; [done|apply on_wf; by split| |].
  { apply uefi_emits_on. intros _. apply (emits_tag A C src Hsrc BBP_TAG_KERNEL_ADDRESS 16); [done..|].
    apply uefi_kernel_address_writes. }
  apply emits_seq; [done|apply on_wf; by split| |].
  { apply uefi_emits_on. intros Hp. by apply uefi_cmdline_emits. }
  apply emits_seq; [done|apply on_wf; by split| |].
  { apply uefi_emits_on. intros Hp. destruct (Hfb Hp) as (bpp & _ & ? & ? & _).
    apply (emits_tag A C src Hsrc BBP_TAG_FRAMEBUFFER 88); [done..|].
    apply (framebuffer_writes A C src Hsrc); [apply uefi_framebuffer_read|unfold in_word; lia..]. }
  apply emits_seq; [done|apply on_wf; by split| |].
  { apply uefi_emits_on. intros _. apply (emits_tag A C src Hsrc BBP_TAG_ACPI 24); [done..|].
    apply (acpi_writes A C src Hsrc). apply uefi_acpi_read. }
  apply emits_seq; [done|apply on_wf; by split| |].
  { apply uefi_emits_on. intros Hp. by apply efi_emits. }
  apply uefi_emits_on. intros _. apply (emits_tag A C src Hsrc BBP_TAG_SMBIOS 16); [done..|].
  apply smbios_writes.
Qed.
End Emission.

(** ** The whole importer *)

Lemma uefi_plan_items b s map line size plan plan' :
  (present s BBP_IMPORT_HAS_MEMORY_MAP -> size = 40 + 32 * zlen (map_of s map)) ->
  (present s BBP_IMPORT_HAS_CMDLINE -> zlen line = str_bytes (u_command_line s) /\ zlen line <> 0) ->
  (present s BBP_IMPORT_HAS_EFI -> zlen map = u_memory_map_bytes s /\ zlen map <> 0) ->
  uefi_plan b s size plan = (BBP_IMPORT_OK, plan') ->
  plan_items b plan (uefi_items s map line) = (BBP_IMPORT_OK, plan').
Proof.
  intros Hmm Hline Hefi H. unfold uefi_plan in H. cbn zeta in H. unfold uefi_items, on. cbn zeta.
  apply plan_then_ok in H as (p1 & H1 & H). apply plan_then_ok in H as (p2 & H2 & H).
  apply plan_then_ok in H as (p3 & H3 & H). apply plan_then_ok in H as (p4 & H4 & H).
  apply plan_then_ok in H as (p5 & H5 & H). apply plan_then_ok in H as (p6 & H6 & H).
  apply plan_then_ok in H as (p7 & H7 & H). apply plan_then_ok in H as (p8 & H8 & H).
  apply plan_then_ok in H as (p9 & H9 & H10).
  eapply plan_items_seq; [by eapply plan_if_tag; [|exact H1]|].
  eapply plan_items_seq; [eapply plan_if_tag; [|exact H2]; intros Hp; rewrite (Hmm Hp); lia|].
  eapply plan_items_seq; [by eapply plan_if_tag; [|exact H3]|].
  eapply (plan_items_seq _ _ _ _ p5); [by eapply plan_if_blob_tag; [|exact H4| |exact H5]|].
  eapply plan_items_seq; [by eapply plan_if_tag; [|exact H6]|].
  eapply plan_items_seq; [by eapply plan_if_tag; [|exact H7]|].
  eapply (plan_items_seq _ _ _ _ p9); [by eapply plan_if_blob_tag; [|exact H8| |exact H9]|].
  by eapply plan_if_tag; [|exact H10].
Qed.

Lemma check_efi_ok s :
  uefi_typed s -> check_efi s = BBP_IMPORT_OK -> present s BBP_IMPORT_HAS_EFI ->
  0 < u_system_table s < 2 ^ 48.
Proof.
  intros Hty H Hp. unfold check_efi in H. rewrite Hp in H. cbn [andb] in H.
  destruct (negb _) eqn:G in H; [done|]. apply negb_false_iff in G.
  destruct (ut_system s Hty). apply phys_address_valid_iff in G as [G ?]; [|done].
  specialize (G eq_refl). lia.
Qed.

Lemma check_smbios_ok s :
  uefi_typed s -> check_smbios s = BBP_IMPORT_OK -> present s BBP_IMPORT_HAS_SMBIOS ->
  (u_smbios_32 s <> 0 \/ u_smbios_64 s <> 0) /\ u_smbios_32 s < 2 ^ 48 /\ u_smbios_64 s < 2 ^ 48.
Proof.
  intros Hty H Hp. unfold check_smbios in H. rewrite Hp in H.
  destruct (_ || _ || _) eqn:G in H; [done|]. rewrite !orb_false_iff, !negb_false_iff, andb_false_iff in G.
  destruct G as [[G1 G2] G3], (ut_smbios_32 s Hty), (ut_smbios_64 s Hty).
  apply phys_address_valid_iff in G2 as [_ ?], G3 as [_ ?]; [|done..]. rewrite !Z.eqb_neq in G1. auto.
Qed.

Lemma map_tag_size_ok s count size :
  0 <= count < 2 ^ 32 -> map_tag_size s count = (BBP_IMPORT_OK, size) ->
  present s BBP_IMPORT_HAS_MEMORY_MAP -> size = 40 + 32 * count.
Proof.
  intros Hc H Hp. unfold map_tag_size in H. rewrite Hp in H.
  destruct (bbp_import_array_tag_size _ _ _ _) as [st sz] eqn:E. injection H as -> <-.
  apply array_tag_size_ok in E as (-> & _); [|lia|lia]. cbn [default from_option id]. lia.
Qed.

(** The verdict of everything before the first builder call. *)
Definition uefi_verdict (m : mem) (b : bbp_builder) (snapshot : Z) (s : bbp_uefi_snapshot)
    (map line : list byte) (r : bbp_import_status + Z * Z) : Prop :=
  match r with
  | inl st => st <> BBP_IMPORT_OK
  | inr (count, size) =>
      uefi_valid s map line /\ uefi_ready m (arena b) (capacity b) snapshot s map line /\
      plannable b /\
      (present s BBP_IMPORT_HAS_MEMORY_MAP ->
         count = zlen (map_of s map) /\ zlen (map_of s map) < 2 ^ 32 /\
         size = 40 + 32 * zlen (map_of s map)) /\
      exists plan plan', agrees plan b /\
        plan_items b plan (uefi_items s map line) = (BBP_IMPORT_OK, plan')
  end.

#[local] Ltac stop := eexists; split; [reflexivity|]; cbn; congruence.
#[local] Ltac guard_ok :=
  case_bool_decide; cbn [negb]; [subst|stop].
#[local] Ltac check_ok H :=
  match goal with
  | |- context [bool_decide (?c = BBP_IMPORT_OK)] =>
      destruct c eqn:H;
      (rewrite bool_decide_eq_true_2 by done) || (rewrite bool_decide_eq_false_2 by done; stop)
  end.

Lemma uefi_validate_spec m b ts snapshot s map line :
  builder_rep m b ts -> uefi_source m snapshot s map line ->
  exists r, uefi_validate m b snapshot = Some r /\ uefi_verdict m b snapshot s map line r.
Proof.
  intros Hrep Hus. pose proof (us_address _ _ _ _ _ Hus). unfold uefi_validate.
  destruct (bbp_import_ranges_overlap _ _ _ _) eqn:Eo; [stop|].
  destruct (arena_nonneg m b ts Hrep).
  apply ranges_apart in Eo as [Hap _]; [|unfold SIZEOF_UEFI_SNAPSHOT; lia..].
  pose proof (us_snapshot _ _ _ _ _ Hus) as Hsn. rewrite Hsn. cbn [mbind option_bind].
  pose proof (uefi_snapshot_typed _ _ _ Hsn) as Hty.
  destruct (negb _); [stop|].
  destruct (plan_begin_total m b ts (ImportPlan 0 0) Hrep) as (st & plan & Hpb).
  rewrite Hpb. cbn [mbind option_bind default from_option id]. guard_ok.
  apply plan_begin_ok in Hpb as [Hpl Hag].
  destruct (check_map_spec m b ts snapshot s map line Hrep Hus) as (st & count & -> & Hmap).
  cbn [mbind option_bind]. guard_ok. specialize (Hmap eq_refl).
  destruct (map_tag_size s count) as [st size] eqn:Hsz. guard_ok.
  cbn [mbind option_bind]. check_ok Hka.
  destruct (uefi_check_cmdline_spec m b ts snapshot s map line Hrep Hus) as (st & -> & Hcl).
  cbn [mbind option_bind]. guard_ok. specialize (Hcl eq_refl).
  check_ok Hfb. check_ok Hac. check_ok Hef. check_ok Hsm.
  destruct (uefi_plan b s size plan) as [st plan'] eqn:Hplan. guard_ok.
  assert (present s BBP_IMPORT_HAS_MEMORY_MAP ->
    count = zlen (map_of s map) /\ zlen (map_of s map) < 2 ^ 32 /\
    size = 40 + 32 * zlen (map_of s map)) as Hmm.
  { intros Hp. destruct Hmap as (-> & _ & _ & _ & _ & [_ _ ? Hw ? _ _]); [apply needs_map_iff; by left|].
    pose proof (zlen_nonneg (map_of s map)). assert (zlen (map_of s map) < 2 ^ 32) by nia.
    split_and!; try done. by apply (map_tag_size_ok s). }
  eexists. split; [reflexivity|]. cbn [uefi_verdict]. split_and!; [| |done|done|].
  - split.
    + intros Hp. by destruct (Hmap (proj2 (needs_map_iff s) Hp)) as (_ & _ & _ & _ & _ & ?).
    + intros Hp. by apply (kernel_guard_ok _ _ _ (proj1 (ut_kernel s Hty)) Hka).
    + intros Hp. by destruct (Hcl Hp) as (_ & _ & _ & _ & _ & ?).
    + intros Hp. unfold check_framebuffer in Hfb. rewrite Hp in Hfb.
      by apply bbp_import_validate_framebuffer_spec; [destruct Hty|].
    + intros Hp. unfold check_acpi in Hac. rewrite Hp in Hac. destruct Hty. by apply acpi_guards_ok.
    + by apply check_efi_ok.
    + by apply check_smbios_ok.
  - split; [done|done|..]; intros Hp.
    + by destruct (Hmap Hp) as (_ & ? & ? & ? & ? & ?).
    + destruct (Hcl Hp) as (? & ? & ? & ? & ? & text & _ & ?). split_and!; try done. by exists text.
  - exists plan, plan'. split; [done|]. eapply uefi_plan_items; [| | |exact Hplan].
    + intros Hp. by destruct (Hmm Hp) as (_ & _ & ?).
    + intros Hp. destruct (Hcl Hp) as (? & _ & _ & _ & _ & text & _ & ->). split; [done|].
      autorewrite with zlen. pose proof (zlen_nonneg text). lia.
    + intros Hp. destruct Hmap as (_ & ? & _ & _ & _ & [_ _ ? Hw _ Hne _]); [apply needs_map_iff; by right|].
      split; [done|]. destruct (map_of s map) eqn:E; [done|]. rewrite zlen_cons in Hw.
      pose proof (zlen_nonneg l). nia.
Qed.

Lemma uefi_import_spec (m : mem) (b : bbp_builder) (ts : list tagrec) (snapshot : Z)
    (s : bbp_uefi_snapshot) (map line : list byte) :
  builder_rep m b ts -> uefi_source m snapshot s map line ->
  exists m' b' st,
    bbp_import_uefi_hobs m (Some b) snapshot = Some (m', Some b', st) /\
    (st <> BBP_IMPORT_OK -> m' = m /\ b' = b) /\
    (st = BBP_IMPORT_OK ->
       uefi_valid s map line /\
       imported m m' b b' ts (uefi_items s map line)).
Proof.
  intros Hrep Hus. pose proof (us_address _ _ _ _ _ Hus). unfold bbp_import_uefi_hobs.
  rewrite (proj2 (Z.eqb_neq snapshot 0)) by lia.
  destruct (uefi_validate_spec _ _ _ _ _ _ _ Hrep Hus) as (r & -> & Hr).
  cbn [mbind option_bind]. destruct r as [st|[count size]]; cbn [uefi_verdict] in Hr.
  { exists m, b, st. split_and!; [done|done|by intros]. }
  destruct Hr as (Hv & Hready & Hpl & Hmm & plan & plan' & Hag & Hplan).
  destruct (uefi_emits (arena b) (capacity b) snapshot s map line) with
    (count := count) (size := size) (m := m) (b := b) (ts := ts) (plan := plan) (plan' := plan')
    as (m' & b' & new & E & Hrep' & Hpl' & Har & Hag' & Hu & Hf & Hk & Hh & Hn);
    try done; [by exists m|apply Hv|].
  rewrite E. cbn [mbind option_bind]. exists m', b', BBP_IMPORT_OK. split_and!; [done|done|].
  intros _. split; [done|]. exists new. by split_and!.
Qed.

(** C27: Importing a UEFI snapshot into a sound builder never faults and always
    returns.  A refused snapshot leaves memory and builder exactly as they were.
    An accepted one is valid: the memory map is final, of version 1 and made of
    whole descriptors, each a non-empty page range below 2^48, the command line
    is UTF-8, the framebuffer holds its pixels, and the firmware pointers are
    in range.  The builder then holds exactly one more tag per part that is
    present, in the documented order, with the translated descriptors, and the
    EFI tag refers to a copy of the raw map in the arena; earlier tags keep
    their contents and nothing outside the arena changes. *)
Theorem uefi_import_sound (m : mem) (b : bbp_builder) (ts : list tagrec) (snapshot : Z)
    (s : bbp_uefi_snapshot) (map line : list byte) :
  builder_rep m b ts -> uefi_source m snapshot s map line ->
  exists m' b' st,
    bbp_import_uefi_hobs m (Some b) snapshot = Some (m', Some b', st) /\
    (st <> BBP_IMPORT_OK -> m' = m /\ b' = b) /\
    (st = BBP_IMPORT_OK ->
       uefi_valid s map line /\
       exists new,
         builder_rep m' b' (ts ++ new) /\
         Forall2 (holds m' b' (ts ++ new)) (uefi_items s map line) new /\
         kept m m' b ts /\ frame (arena b) (capacity b) m m' /\
         used b' <= BBP_BUILDER_MAX_INFO - SIZEOF_INFO).
Proof.
  intros Hrep Hus. destruct (uefi_import_spec _ _ _ _ _ _ _ Hrep Hus) as (m' & b' & st & E & Hno & Hok).
  exists m', b', st. split_and!; [done..|]. intros Hst.
  destruct (Hok Hst) as (Hv & new & ? & ? & ? & ? & ? & ?). split; [done|]. exists new.
  split_and!; try done. by apply plannable_fits.
Qed.

(** ** A sample snapshot *)

Module UefiSample.
(** One conventional-memory descriptor of 48 bytes, reported both as a memory
    map and as the raw EFI map, with a 64-bit SMBIOS entry point. *)
Definition map : list byte :=
  le_encode 4 7 ++ le_encode 4 0 ++ le_encode 8 0x100000 ++ le_encode 8 0 ++ le_encode 8 16 ++
  le_encode 8 8 ++ le_encode 8 0.

Definition snapshot_bytes : list byte :=
  le_encode 8 (Z.lor BBP_IMPORT_HAS_MEMORY_MAP (Z.lor BBP_IMPORT_HAS_EFI BBP_IMPORT_HAS_SMBIOS)) ++
  le_encode 8 0 ++ le_encode 8 0 ++ le_encode 8 0 ++
  le_encode 8 24576 ++ le_encode 8 48 ++ le_encode 8 48 ++ le_encode 4 1 ++ le_encode 4 1 ++
  le_encode 8 0x7f000000 ++ replicate 88 x00 ++ le_encode 8 0xf0000.

Definition mem0 : mem :=
  mem_of 20480 snapshot_bytes ∪ mem_of 24576 map ∪ mem_of 8192 (replicate 512 x00).

Definition b : bbp_builder := Builder 8192 8192 512 0 0 0 0 0.
Definition s : bbp_uefi_snapshot := Eval vm_compute in uefi_snapshot_of snapshot_bytes.

Lemma uefi_sample_rep : builder_rep mem0 b [].
Proof.
  split; cbn; try lia; try done.
  apply (mapped_by_load mem0 8192 512). vm_compute. reflexivity.
Qed.

Lemma uefi_sample_source : uefi_source mem0 20480 s map [].
Proof.
  split.
  - lia.
  - vm_compute. reflexivity.
  - intros _ _. split; [reflexivity|]. apply (load_bytes_at mem0 24576 48). vm_compute. reflexivity.
  - intros H. exfalso. revert H. vm_compute. discriminate.
Qed.

Example uefi_sample_accepted :
  (fun r => match r with
            | Some (_, Some b', st) => (st, tag_count b', used b')
            | _ => (BBP_IMPORT_ERR_NULL, 0, 0)
            end) (bbp_import_uefi_hobs mem0 (Some b) 20480) = (BBP_IMPORT_OK, 3, 232).
Proof. vm_compute. reflexivity. Qed.
End UefiSample.

Lemma uefi_import_sound_witness :
  exists m' b' st,
    bbp_import_uefi_hobs UefiSample.mem0 (Some UefiSample.b) 20480 = Some (m', Some b', st) /\
    (st = BBP_IMPORT_OK -> uefi_valid UefiSample.s UefiSample.map []).
Proof.
  destruct (uefi_import_sound UefiSample.mem0 UefiSample.b [] 20480 UefiSample.s
    UefiSample.map [] UefiSample.uefi_sample_rep UefiSample.uefi_sample_source)
    as (m' & b' & st & E & _ & Hok).
  exists m', b', st. split; [exact E|]. intros Hst. by destruct (Hok Hst).
Defined.
