(* ===== verification/ImportMultiboot.v ===== *)
(** * The Multiboot2 importer (bootloader/bbp_import_multiboot2.c)

    A bounded parser of the Multiboot2 information block: one pass validates
    every tag and remembers where the interesting ones are, a capacity plan
    follows, and only then the builder is called.  The block is read byte by
    byte through the memory model. *)

From S2P Require Import Prelude Memory Crc64 Abi Builder BuilderFacts Import ImportFacts ImportEmit.

Definition MB2_END : Z := 0.
Definition MB2_CMDLINE : Z := 1.
Definition MB2_MODULE : Z := 3.
Definition MB2_MMAP : Z := 6.
Definition MB2_FRAMEBUFFER : Z := 8.
Definition MB2_ACPI_OLD : Z := 14.
Definition MB2_ACPI_NEW : Z := 15.

Record bbp_multiboot2_snapshot := Multiboot2Snapshot {
  b_mbi : Z;
  b_mapped_bytes : Z;
  b_present : Z;
  b_hhdm_offset : Z;
  b_kernel_physical_base : Z;
  b_kernel_virtual_base : Z;
}.

Definition SIZEOF_MULTIBOOT2_SNAPSHOT : Z := 48.

Definition multiboot2_snapshot_of (bs : list byte) : bbp_multiboot2_snapshot :=
  Multiboot2Snapshot (raw bs 0 8) (raw bs 8 8) (raw bs 16 8) (raw bs 24 8) (raw bs 32 8) (raw bs 40 8).

Definition multiboot2_snapshot_at (m : mem) (p : Z) : option bbp_multiboot2_snapshot :=
  bs ← load_bytes m p 48; Some (multiboot2_snapshot_of bs).

Record mb2_scan := Mb2Scan {
  sc_data : Z;
  sc_total : Z;
  sc_cmdline_offset : Z;
  sc_cmdline_bytes : Z;
  sc_mmap_offset : Z;
  sc_mmap_count : Z;
  sc_mmap_stride : Z;
  sc_module_count : Z;
  sc_framebuffer_offset : Z;
  sc_framebuffer : bbp_import_framebuffer;
  sc_acpi_offset : Z;
  sc_acpi_bytes : Z;
  sc_acpi_xsdt : Z;
  sc_acpi_oem_id : Z;
  sc_acpi_version : Z;
}.

(** ** Reads *)

Definition read_u32 (m : mem) (p : Z) : option Z :=
  p0 ← m !! p;
  p1 ← m !! (p + 1);
  p2 ← m !! (p + 2);
  p3 ← m !! (p + 3);
  Some (Z.lor (Z.lor (Z.lor (byte_Z p0) (wrap32 (Z.shiftl (byte_Z p1) 8)))
    (wrap32 (Z.shiftl (byte_Z p2) 16))) (wrap32 (Z.shiftl (byte_Z p3) 24))).

Definition read_u64 (m : mem) (p : Z) : option Z :=
  lo ← read_u32 m p;
  hi ← read_u32 m (p + 4);
  Some (Z.lor lo (wrap64 (Z.shiftl hi 32))).

(** [p[i]] *)
Definition read_u8 (m : mem) (p : Z) : option Z := b ← m !! p; Some (byte_Z b).

(** [while (bytes-- != 0) sum = (uint8_t)(sum + *data++);] *)
Fixpoint sum_loop (m : mem) (data sum : Z) (n : nat) : option Z :=
  match n with
  | O => Some sum
  | S n => x ← read_u8 m data; sum_loop m (data + 1) (wrap 8 (sum + x)) n
  end.

Definition checksum_zero (m : mem) (data bytes : Z) : option bool :=
  sum ← sum_loop m data 0 (Z.to_nat bytes);
  Some (sum =? 0).

Definition RSDP_SIGNATURE : list byte := [x52; x53; x44; x20; x50; x54; x52; x20].

Definition signature_is_rsdp (m : mem) (data : Z) : option bool :=
  bytes_equal m data RSDP_SIGNATURE.

Definition exact_string (m : mem) (data bytes : Z) : option bbp_import_status :=
  bbp_import_validate_string m (ImportString data bytes).

(** ** Tags *)

(** The format and depth the colour layout selects. *)
Definition mb2_pixel_format (bpp red_position red_size green_position green_size
    blue_position blue_size : Z) : option (Z * Z) :=
  let rgb := (red_position =? 0) && (red_size =? 8) && (green_position =? 8)
             && (green_size =? 8) && (blue_position =? 16) && (blue_size =? 8) in
  if (bpp =? 24) && rgb then Some (BBP_FB_RGB888, 8)
  else if (bpp =? 32) && rgb then Some (BBP_FB_RGBA8888, 8)
  else if (bpp =? 32) && (red_position =? 16) && (red_size =? 8) && (green_position =? 8)
          && (green_size =? 8) && (blue_position =? 0) && (blue_size =? 8)
  then Some (BBP_FB_BGRA8888, 8)
  else if (bpp =? 16) && (red_position =? 11) && (red_size =? 5) && (green_position =? 5)
          && (green_size =? 6) && (blue_position =? 0) && (blue_size =? 5)
  then Some (BBP_FB_RGB565, 5)
  else None.

(** The status and [*out]. *)
Definition parse_framebuffer (m : mem) (tag size : Z) (out : bbp_import_framebuffer) :
    option (bbp_import_status * bbp_import_framebuffer) :=
  reject negb (size =? 38) with Some (BBP_IMPORT_ERR_FRAMING, out);
  kind ← read_u8 m (tag + 29);
  reject negb (kind =? 1) with Some (BBP_IMPORT_ERR_UNSUPPORTED, out);
  r0 ← read_u8 m (tag + 30);
  reject negb (r0 =? 0) with Some (BBP_IMPORT_ERR_FRAMING, out);
  r1 ← read_u8 m (tag + 31);
  reject negb (r1 =? 0) with Some (BBP_IMPORT_ERR_FRAMING, out);
  bpp ← read_u8 m (tag + 28);
  red_position ← read_u8 m (tag + 32);
  red_size ← read_u8 m (tag + 33);
  green_position ← read_u8 m (tag + 34);
  green_size ← read_u8 m (tag + 35);
  blue_position ← read_u8 m (tag + 36);
  blue_size ← read_u8 m (tag + 37);
  match mb2_pixel_format bpp red_position red_size green_position green_size
          blue_position blue_size with
  | None => Some (BBP_IMPORT_ERR_UNSUPPORTED, out)
  | Some (pixel_format, color_depth) =>
      address ← read_u64 m (tag + 8);
      pitch ← read_u32 m (tag + 16);
      width ← read_u32 m (tag + 20);
      height ← read_u32 m (tag + 24);
      let out := ImportFramebuffer address (wrap64 (pitch * height)) width height pitch
                   pixel_format color_depth 0 in
      Some (bbp_import_validate_framebuffer (Some out), out)
  end.

Definition set_acpi (sc : mb2_scan) (bytes xsdt oem version : Z) : mb2_scan :=
  Mb2Scan (sc_data sc) (sc_total sc) (sc_cmdline_offset sc) (sc_cmdline_bytes sc)
    (sc_mmap_offset sc) (sc_mmap_count sc) (sc_mmap_stride sc) (sc_module_count sc)
    (sc_framebuffer_offset sc) (sc_framebuffer sc) (sc_acpi_offset sc) bytes xsdt oem version.

(** The status and [*scan]; the RSDP's own checksums, then its extent. *)
Definition parse_acpi (m : mem) (rsdp bytes : Z) (is_new : bool) (sc : mb2_scan) :
    option (bbp_import_status * mb2_scan) :=
  let fail sc := Some (BBP_IMPORT_ERR_FRAMING, sc) in
  reject bytes <? 20 with fail sc;
  sig ← signature_is_rsdp m rsdp;
  check (sig : bool) else fail sc;
  sum ← checksum_zero m rsdp 20;
  check (sum : bool) else fail sc;
  let finish sc length :=
    oem ← read_u32 m (rsdp + 9);
    revision ← read_u8 m (rsdp + 15);
    Some (BBP_IMPORT_OK,
      set_acpi sc length (sc_acpi_xsdt sc) oem (wrap16 (Z.shiftl revision 8))) in
  let with_xsdt xsdt :=
    set_acpi sc (sc_acpi_bytes sc) xsdt (sc_acpi_oem_id sc) (sc_acpi_version sc) in
  if negb is_new then
    reject negb (bytes =? 20) with fail sc;
    revision ← read_u8 m (rsdp + 15);
    reject negb (revision =? 0) with fail sc;
    finish (with_xsdt 0) 20
  else
    reject bytes <? 36 with fail sc;
    revision ← read_u8 m (rsdp + 15);
    reject revision <? 2 with fail sc;
    length ← read_u32 m (rsdp + 20);
    reject (length <? 36) || negb (length =? bytes) with fail sc;
    sum ← checksum_zero m rsdp length;
    check (sum : bool) else fail sc;
    xsdt ← read_u64 m (rsdp + 24);
    let sc := with_xsdt xsdt in
    reject negb (bbp_import_phys_address_valid xsdt true) with Some (BBP_IMPORT_ERR_RANGE, sc);
    finish sc length.

(** ** The scan *)

(** One remembered RSDP: offset, bytes, XSDT, OEM, version. *)
Record mb2_acpi := Mb2Acpi {
  ra_offset : Z; ra_bytes : Z; ra_xsdt : Z; ra_oem : Z; ra_version : Z;
}.

(** The locals of [scan_mbi]; the [saw_] counters only ever hold 0 or 1. *)
Record mb2_state := Mb2State {
  st_scan : mb2_scan;
  saw_cmdline : bool;
  saw_mmap : bool;
  saw_framebuffer : bool;
  saw_acpi_old : bool;
  saw_acpi_new : bool;
  old_acpi : mb2_acpi;
  new_acpi : mb2_acpi;
}.

Definition set_cmdline (sc : mb2_scan) (offset bytes : Z) : mb2_scan :=
  Mb2Scan (sc_data sc) (sc_total sc) offset bytes
    (sc_mmap_offset sc) (sc_mmap_count sc) (sc_mmap_stride sc) (sc_module_count sc)
    (sc_framebuffer_offset sc) (sc_framebuffer sc) (sc_acpi_offset sc) (sc_acpi_bytes sc)
    (sc_acpi_xsdt sc) (sc_acpi_oem_id sc) (sc_acpi_version sc).
Definition set_mmap (sc : mb2_scan) (offset count stride : Z) : mb2_scan :=
  Mb2Scan (sc_data sc) (sc_total sc) (sc_cmdline_offset sc) (sc_cmdline_bytes sc)
    offset count stride (sc_module_count sc)
    (sc_framebuffer_offset sc) (sc_framebuffer sc) (sc_acpi_offset sc) (sc_acpi_bytes sc)
    (sc_acpi_xsdt sc) (sc_acpi_oem_id sc) (sc_acpi_version sc).
Definition set_modules (sc : mb2_scan) (count : Z) : mb2_scan :=
  Mb2Scan (sc_data sc) (sc_total sc) (sc_cmdline_offset sc) (sc_cmdline_bytes sc)
    (sc_mmap_offset sc) (sc_mmap_count sc) (sc_mmap_stride sc) count
    (sc_framebuffer_offset sc) (sc_framebuffer sc) (sc_acpi_offset sc) (sc_acpi_bytes sc)
    (sc_acpi_xsdt sc) (sc_acpi_oem_id sc) (sc_acpi_version sc).
Definition set_framebuffer (sc : mb2_scan) (offset : Z) (fb : bbp_import_framebuffer) : mb2_scan :=
  Mb2Scan (sc_data sc) (sc_total sc) (sc_cmdline_offset sc) (sc_cmdline_bytes sc)
    (sc_mmap_offset sc) (sc_mmap_count sc) (sc_mmap_stride sc) (sc_module_count sc)
    offset fb (sc_acpi_offset sc) (sc_acpi_bytes sc)
    (sc_acpi_xsdt sc) (sc_acpi_oem_id sc) (sc_acpi_version sc).
(** The five assignments at the end tag. *)
Definition publish_acpi (sc : mb2_scan) (a : mb2_acpi) : mb2_scan :=
  Mb2Scan (sc_data sc) (sc_total sc) (sc_cmdline_offset sc) (sc_cmdline_bytes sc)
    (sc_mmap_offset sc) (sc_mmap_count sc) (sc_mmap_stride sc) (sc_module_count sc)
    (sc_framebuffer_offset sc) (sc_framebuffer sc) (ra_offset a) (ra_bytes a)
    (ra_xsdt a) (ra_oem a) (ra_version a).

(** A tag either ends the scan with an error or updates the locals. *)
Abbreviation scanned := (option (bbp_import_status + mb2_state)).

Definition scan_cmdline (m : mem) (data offset size : Z) (st : mb2_state) : scanned :=
  reject saw_cmdline st with Some (inl BBP_IMPORT_ERR_DUPLICATE);
  let fail status := Some (inl status) in
  try exact_string m (data + offset + 8) (size - 8) or fail;
  Some (inr (Mb2State (set_cmdline (st_scan st) (offset + 8) (size - 8)) true (saw_mmap st)
    (saw_framebuffer st) (saw_acpi_old st) (saw_acpi_new st) (old_acpi st) (new_acpi st))).

Definition scan_module (m : mem) (data offset size : Z) (st : mb2_state) : scanned :=
  let fail status := Some (inl status) in
  reject size <? 17 with fail BBP_IMPORT_ERR_FRAMING;
  start ← read_u32 m (data + offset + 8);
  end_ ← read_u32 m (data + offset + 12);
  reject (end_ <=? start) || negb (bbp_import_phys_range_valid start (end_ - start))
    with fail BBP_IMPORT_ERR_RANGE;
  try exact_string m (data + offset + 16) (size - 16) or fail;
  reject sc_module_count (st_scan st) =? BBP_IMPORT_U32_MAX with fail BBP_IMPORT_ERR_COUNT;
  Some (inr (Mb2State
    (set_modules (st_scan st) (wrap64 (sc_module_count (st_scan st) + 1))) (saw_cmdline st)
    (saw_mmap st) (saw_framebuffer st) (saw_acpi_old st) (saw_acpi_new st)
    (old_acpi st) (new_acpi st))).

Fixpoint mmap_entries_ok (m : mem) (first stride i : Z) (n : nat) : option bool :=
  match n with
  | O => Some true
  | S n =>
      let entry := first + i * stride in
      base ← read_u64 m entry;
      length ← read_u64 m (entry + 8);
      check bbp_import_phys_range_valid base length else Some false;
      mmap_entries_ok m first stride (i + 1) n
  end.

Definition scan_mmap (m : mem) (data offset size : Z) (st : mb2_state) : scanned :=
  let fail status := Some (inl status) in
  reject saw_mmap st with fail BBP_IMPORT_ERR_DUPLICATE;
  reject size <? 16 with fail BBP_IMPORT_ERR_FRAMING;
  stride ← read_u32 m (data + offset + 8);
  version ← read_u32 m (data + offset + 12);
  reject (stride <? 24) || negb (Z.land stride 7 =? 0) || negb (version =? 0)
         || negb ((size - 16) mod stride =? 0) with fail BBP_IMPORT_ERR_FRAMING;
  let count := (size - 16) / stride in
  reject (count =? 0) || (BBP_IMPORT_U32_MAX <? count) with fail BBP_IMPORT_ERR_COUNT;
  ok ← mmap_entries_ok m (data + offset + 16) stride 0 (Z.to_nat count);
  check (ok : bool) else fail BBP_IMPORT_ERR_RANGE;
  Some (inr (Mb2State (set_mmap (st_scan st) offset count stride) (saw_cmdline st) true
    (saw_framebuffer st) (saw_acpi_old st) (saw_acpi_new st) (old_acpi st) (new_acpi st))).

Definition scan_framebuffer (m : mem) (data offset size : Z) (st : mb2_state) : scanned :=
  reject saw_framebuffer st with Some (inl BBP_IMPORT_ERR_DUPLICATE);
  '(status, fb) ← parse_framebuffer m (data + offset) size (sc_framebuffer (st_scan st));
  reject negb (bool_decide (status = BBP_IMPORT_OK)) with Some (inl status);
  Some (inr (Mb2State (set_framebuffer (st_scan st) offset fb) (saw_cmdline st) (saw_mmap st)
    true (saw_acpi_old st) (saw_acpi_new st) (old_acpi st) (new_acpi st))).

Definition scan_acpi (m : mem) (data offset size : Z) (is_new : bool) (st : mb2_state) : scanned :=
  reject (is_new && saw_acpi_new st) || (negb is_new && saw_acpi_old st)
    with Some (inl BBP_IMPORT_ERR_DUPLICATE);
  '(status, sc) ← parse_acpi m (data + offset + 8) (size - 8) is_new (st_scan st);
  reject negb (bool_decide (status = BBP_IMPORT_OK)) with Some (inl status);
  let a := Mb2Acpi (offset + 8) (sc_acpi_bytes sc) (sc_acpi_xsdt sc) (sc_acpi_oem_id sc)
             (sc_acpi_version sc) in
  Some (inr (Mb2State sc (saw_cmdline st) (saw_mmap st) (saw_framebuffer st)
    (saw_acpi_old st || negb is_new) (saw_acpi_new st || is_new)
    (if is_new then old_acpi st else a) (if is_new then a else new_acpi st))).

Definition scan_tag (m : mem) (data offset type size : Z) (st : mb2_state) : scanned :=
  if type =? MB2_CMDLINE then scan_cmdline m data offset size st
  else if type =? MB2_MODULE then scan_module m data offset size st
  else if type =? MB2_MMAP then scan_mmap m data offset size st
  else if type =? MB2_FRAMEBUFFER then scan_framebuffer m data offset size st
  else if (type =? MB2_ACPI_OLD) || (type =? MB2_ACPI_NEW)
  then scan_acpi m data offset size (type =? MB2_ACPI_NEW) st
  else Some (inr st).

(** [while (offset < scan->total)]; every tag takes at least 8 bytes. *)
Fixpoint scan_loop (m : mem) (data total offset : Z) (st : mb2_state) (fuel : nat) :
    option (bbp_import_status + mb2_scan) :=
  let fail := Some (inl BBP_IMPORT_ERR_FRAMING) in
  check offset <? total else fail;
  match fuel with
  | O => None
  | S fuel =>
      reject total - offset <? 8 with fail;
      type ← read_u32 m (data + offset);
      size ← read_u32 m (data + offset + 4);
      reject (size <? 8) || (total - offset <? size) with fail;
      if type =? MB2_END then
        reject negb (size =? 8) || negb (offset + 8 =? total) with fail;
        Some (inr (if saw_acpi_new st then publish_acpi (st_scan st) (new_acpi st)
                   else if saw_acpi_old st then publish_acpi (st_scan st) (old_acpi st)
                   else st_scan st))
      else
        let padded := align8_up size in
        reject total - offset <? padded with fail;
        r ← scan_tag m data offset type size st;
        match r with
        | inl status => Some (inl status)
        | inr st => scan_loop m data total (offset + padded) st fuel
        end
  end.

(** The scan after [bbp_import_memzero] and the assignments that follow it. *)
Definition scan_start (data total : Z) : mb2_scan :=
  Mb2Scan data total BBP_IMPORT_SIZE_MAX 0 BBP_IMPORT_SIZE_MAX 0 0 0 BBP_IMPORT_SIZE_MAX
    (ImportFramebuffer 0 0 0 0 0 0 0 0) BBP_IMPORT_SIZE_MAX 0 0 0 0.

Definition scan_mbi (m : mem) (s : bbp_multiboot2_snapshot) :
    option (bbp_import_status + mb2_scan) :=
  let data := b_mbi s in
  reject (data =? 0) || (b_mapped_bytes s <? 16) with Some (inl BBP_IMPORT_ERR_NULL);
  total32 ← read_u32 m data;
  reject (total32 <? 16) || negb (Z.land total32 7 =? 0) || (b_mapped_bytes s <? total32)
    with Some (inl BBP_IMPORT_ERR_FRAMING);
  reserved ← read_u32 m (data + 4);
  reject negb (reserved =? 0) with Some (inl BBP_IMPORT_ERR_FRAMING);
  let none := Mb2Acpi 0 0 0 0 0 in
  scan_loop m data total32 8
    (Mb2State (scan_start data total32) false false false false false none none)
    (Z.to_nat total32).

(** ** Translation tables *)

Definition mb2_memory_type (type : Z) : Z :=
  if type =? 1 then BBP_MEM_USABLE
  else if type =? 3 then BBP_MEM_ACPI_RECLAIMABLE
  else if type =? 4 then BBP_MEM_ACPI_NVS
  else if type =? 5 then BBP_MEM_BAD_MEMORY
  else BBP_MEM_RESERVED.

Definition mb2_memory_attributes (type : Z) : Z :=
  if type =? BBP_MEM_USABLE then Z.lor BBP_MEM_ATTR_READABLE BBP_MEM_ATTR_WRITABLE
  else if (type =? BBP_MEM_ACPI_RECLAIMABLE) || (type =? BBP_MEM_ACPI_NVS)
  then BBP_MEM_ATTR_READABLE
  else 0.

(** ** Emission *)

Definition emit_hhdm (offset : Z) : emitter :=
  emit_tag BBP_TAG_HHDM SIZEOF_TAG_HHDM (fun m tag => store64 m (tag + 32) offset).

(** [for (i = 0; i < tag->entry_count; i++)], the bound read from the tag; it
    was stored as the count of the scan. *)
Fixpoint memory_map_loop (m : mem) (source stride tag i : Z) (fuel : nat) : option mem :=
  entry_count ← load32 m (tag + 32);
  check i <? entry_count else Some m;
  match fuel with
  | O => None
  | S fuel =>
      let entry := source + i * stride in
      let entries := tag + 40 in
      base ← read_u64 m entry;
      m ← store64 m (entries + i * 32) base;
      length ← read_u64 m (entry + 8);
      m ← store64 m (entries + i * 32 + 8) length;
      type ← read_u32 m (entry + 16);
      m ← store32 m (entries + i * 32 + 16) (mb2_memory_type type);
      type ← load32 m (entries + i * 32 + 16);
      m ← store32 m (entries + i * 32 + 20) (mb2_memory_attributes type);
      memory_map_loop m source stride tag (i + 1) fuel
  end.

Definition emit_memory_map (sc : mb2_scan) (tag_size : Z) : emitter :=
  let source := sc_data sc + sc_mmap_offset sc + 16 in
  emit_tag BBP_TAG_MEMORY_MAP tag_size (fun m tag =>
    m ← store32 m (tag + 32) (wrap32 (sc_mmap_count sc));
    m ← store32 m (tag + 36) 32;
    memory_map_loop m source (sc_mmap_stride sc) tag 0 (Z.to_nat (sc_mmap_count sc))).

Definition emit_kernel_address (snapshot : Z) : emitter :=
  emit_tag BBP_TAG_KERNEL_ADDRESS 48 (fun m tag =>
    s ← multiboot2_snapshot_at m snapshot;
    m ← store64 m (tag + 32) (b_kernel_physical_base s);
    s ← multiboot2_snapshot_at m snapshot;
    store64 m (tag + 40) (b_kernel_virtual_base s)).

Definition emit_cmdline (sc : mb2_scan) : emitter :=
  let source := sc_data sc + sc_cmdline_offset sc in
  emit_blob_tag source (sc_cmdline_bytes sc) BBP_TAG_CMDLINE 56 (fun physical m tag =>
    m ← store64 m (tag + 32) physical;
    m ← store32 m (tag + 40) (wrap32 (sc_cmdline_bytes sc - 1));
    crc ← bbp_crc64 m source (Z.to_nat (sc_cmdline_bytes sc - 1));
    store64 m (tag + 48) crc).

(** One module entry: base, size and the name cut at a character boundary. *)
Definition write_module (m : mem) (data offset size entry : Z) : option mem :=
  let name_bytes := size - 17 in
  copied ← bbp_import_utf8_prefix m (data + offset + 16) name_bytes 63;
  base ← read_u32 m (data + offset + 8);
  m ← store64 m entry base;
  end_ ← read_u32 m (data + offset + 12);
  start ← read_u32 m (data + offset + 8);
  m ← store64 m (entry + 8) (wrap64 (end_ - start));
  m ← bbp_import_memcpy m (entry + 16) (data + offset + 16) copied;
  store8 m (entry + 16 + copied) x00.

Fixpoint modules_loop (m : mem) (data total tag offset index : Z) (fuel : nat) : option mem :=
  check offset <? total else Some m;
  module_count ← load32 m (tag + 32);
  check index <? module_count else Some m;
  match fuel with
  | O => None
  | S fuel =>
      type ← read_u32 m (data + offset);
      size ← read_u32 m (data + offset + 4);
      '(m, index) ← (if type =? MB2_MODULE then
                       m ← write_module m data offset size (tag + 40 + index * 176);
                       Some (m, index + 1)
                     else Some (m, index));
      modules_loop m data total tag (offset + align8_up size) index fuel
  end.

Definition emit_modules (sc : mb2_scan) (tag_size : Z) : emitter :=
  emit_tag BBP_TAG_MODULES tag_size (fun m tag =>
    m ← store32 m (tag + 32) (wrap32 (sc_module_count sc));
    modules_loop m (sc_data sc) (sc_total sc) tag 8 0 (Z.to_nat (sc_total sc))).

Definition emit_framebuffer (source : bbp_import_framebuffer) : emitter :=
  emit_tag BBP_TAG_FRAMEBUFFER (72 + 48) (fun m tag =>
    m ← store64 m (tag + 32) (fb_address source);
    m ← store16 m (tag + 40) 1;
    m ← store32 m (tag + 44) (fb_pitch source);
    m ← store64 m (tag + 48) (fb_total_size source);
    m ← store16 m (tag + 72) (wrap16 (fb_width source));
    m ← store16 m (tag + 74) (wrap16 (fb_height source));
    m ← store16 m (tag + 78) (fb_color_depth source);
    store32 m (tag + 80) (fb_pixel_format source)).

Definition emit_acpi (sc : mb2_scan) : emitter :=
  emit_blob_tag (sc_data sc + sc_acpi_offset sc) (sc_acpi_bytes sc) BBP_TAG_ACPI 56
    (fun rsdp m tag =>
      m ← store64 m (tag + 32) rsdp;
      m ← store64 m (tag + 40) (sc_acpi_xsdt sc);
      m ← store32 m (tag + 48) (sc_acpi_oem_id sc);
      m ← store16 m (tag + 52) (sc_acpi_version sc);
      if negb (sc_acpi_xsdt sc =? 0) then store16 m (tag + 54) BBP_ACPI_FLAG_XSDT_AVAILABLE
      else Some m).

(** ** Plan, emission and the importer *)

Definition MB2_SIDEBAND : Z := Z.lor BBP_IMPORT_HAS_HHDM BBP_IMPORT_HAS_KERNEL_ADDRESS.

Definition check_kernel_address (s : bbp_multiboot2_snapshot) : bbp_import_status :=
  reject has (b_present s) BBP_IMPORT_HAS_KERNEL_ADDRESS
         && (negb (bbp_import_phys_address_valid (b_kernel_physical_base s) true)
             || (b_kernel_virtual_base s =? 0)) with BBP_IMPORT_ERR_RANGE;
  BBP_IMPORT_OK.

(** [scan.x_offset != BBP_IMPORT_SIZE_MAX] *)
Definition seen (offset : Z) : bool := negb (offset =? BBP_IMPORT_SIZE_MAX).

(** The status and the size of an array tag, 0 when there is none. *)
Definition tag_size_if (c : bool) (fixed count element : Z) : bbp_import_status * Z :=
  check c else (BBP_IMPORT_OK, 0);
  let '(status, size) := bbp_import_array_tag_size fixed count element (Some 0) in
  (status, default 0 size).

Definition mb2_plan (b : bbp_builder) (s : bbp_multiboot2_snapshot) (sc : mb2_scan)
    (mmap_size modules_size : Z) : bbp_import_plan -> bbp_import_status * bbp_import_plan :=
  let tag_if c bytes := plan_if c (fun plan => bbp_import_plan_tag b plan bytes) in
  let blob_if c bytes := plan_if c (fun plan => bbp_import_plan_blob b plan bytes) in
  (tag_if (has (b_present s) BBP_IMPORT_HAS_HHDM) SIZEOF_TAG_HHDM >>>
   tag_if (seen (sc_mmap_offset sc)) mmap_size >>>
   tag_if (has (b_present s) BBP_IMPORT_HAS_KERNEL_ADDRESS) 48 >>>
   blob_if (seen (sc_cmdline_offset sc)) (sc_cmdline_bytes sc) >>>
   tag_if (seen (sc_cmdline_offset sc)) 56 >>>
   tag_if (negb (sc_module_count sc =? 0)) modules_size >>>
   tag_if (seen (sc_framebuffer_offset sc)) (72 + 48) >>>
   blob_if (seen (sc_acpi_offset sc)) (sc_acpi_bytes sc) >>>
   tag_if (seen (sc_acpi_offset sc)) 56).

(** Statements that read the snapshot through its pointer. *)
Definition reading (snapshot : Z) (K : bbp_multiboot2_snapshot -> emitter) : emitter :=
  fun m b => s ← multiboot2_snapshot_at m snapshot; K s m b.

Definition mb2_emit (snapshot : Z) (sc : mb2_scan) (mmap_size modules_size : Z) : emitter :=
  let emit_if flag E := reading snapshot (fun s => emit_when (has (b_present s) flag) (E s)) in
  (emit_if BBP_IMPORT_HAS_HHDM (fun s => emit_hhdm (b_hhdm_offset s)) ;;;
   emit_when (seen (sc_mmap_offset sc)) (emit_memory_map sc mmap_size) ;;;
   emit_if BBP_IMPORT_HAS_KERNEL_ADDRESS (fun _ => emit_kernel_address snapshot) ;;;
   emit_when (seen (sc_cmdline_offset sc)) (emit_cmdline sc) ;;;
   emit_when (negb (sc_module_count sc =? 0)) (emit_modules sc modules_size) ;;;
   emit_when (seen (sc_framebuffer_offset sc)) (emit_framebuffer (sc_framebuffer sc)) ;;;
   emit_when (seen (sc_acpi_offset sc)) (emit_acpi sc)).

(** The parts of the function before the first builder call: [inl] is an early
    return, [inr] the scan and the sizes of the two array tags. *)
Definition mb2_validate (m : mem) (b : bbp_builder) (snapshot : Z) :
    option (bbp_import_status + mb2_scan * Z * Z) :=
  let fail status := Some (inl status) in
  reject bbp_import_ranges_overlap snapshot SIZEOF_MULTIBOOT2_SNAPSHOT (arena b) (capacity b)
    with fail BBP_IMPORT_ERR_RANGE;
  s ← multiboot2_snapshot_at m snapshot;
  reject negb (Z.land (b_present s) (wrap64 (Z.lnot MB2_SIDEBAND)) =? 0)
    with fail BBP_IMPORT_ERR_FLAGS;
  '(status, plan) ← bbp_import_plan_begin m (Some b) (Some (ImportPlan 0 0));
  let plan := default (ImportPlan 0 0) plan in
  reject negb (bool_decide (status = BBP_IMPORT_OK)) with fail status;
  reject bbp_import_ranges_overlap (b_mbi s) (b_mapped_bytes s) (arena b) (capacity b)
    with fail BBP_IMPORT_ERR_RANGE;
  r ← scan_mbi m s;
  match r with
  | inl status => fail status
  | inr sc =>
      try Some (check_kernel_address s) or fail;
      let '(status, mmap_size) := tag_size_if (seen (sc_mmap_offset sc)) 40 (sc_mmap_count sc) 32 in
      reject negb (bool_decide (status = BBP_IMPORT_OK)) with fail status;
      let '(status, modules_size) :=
        tag_size_if (negb (sc_module_count sc =? 0)) 40 (sc_module_count sc) 176 in
      reject negb (bool_decide (status = BBP_IMPORT_OK)) with fail status;
      let '(status, plan) := mb2_plan b s sc mmap_size modules_size plan in
      reject negb (bool_decide (status = BBP_IMPORT_OK)) with fail status;
      Some (inr (sc, mmap_size, modules_size))
  end.

Definition bbp_import_multiboot2 (m : mem) (builder : option bbp_builder) (snapshot : Z) :
    option (mem * option bbp_builder * bbp_import_status) :=
  match builder with
  | None => Some (m, None, BBP_IMPORT_ERR_NULL)
  | Some b =>
      reject snapshot =? 0 with Some (m, Some b, BBP_IMPORT_ERR_NULL);
      r ← mb2_validate m b snapshot;
      match r with
      | inl status => Some (m, Some b, status)
      | inr (sc, mmap_size, modules_size) =>
          '(m, b) ← mb2_emit snapshot sc mmap_size modules_size m b;
          Some (m, Some b, BBP_IMPORT_OK)
      end
  end.
