(* ===== verification/ImportMultibootFacts.v ===== *)
(** * The Multiboot2 scan

    The information block as a list of tags, what makes a tag acceptable, and
    the proof that one pass of [scan_mbi] accepts only blocks whose tags are all
    acceptable and remembers exactly the ones it should. *)

From S2P Require Import Prelude Memory Crc64 Abi Builder BuilderFacts Import ImportFacts ImportProps ImportEmit ImportBodies ImportMultiboot.

(** ** Fields and parts of a byte string *)

Definition fld (bs : list byte) (off : Z) (n : nat) : Z := raw bs (Z.to_nat off) n.
Definition sub (bs : list byte) (off n : Z) : list byte :=
  take (Z.to_nat n) (drop (Z.to_nat off) bs).

Lemma zlen_sub bs off n : 0 <= off -> 0 <= n -> off + n <= zlen bs -> zlen (sub bs off n) = n.
Proof. intros. unfold sub, zlen in *. rewrite length_take, length_drop. lia. Qed.

Lemma mb2_read_u32_load m p : read_u32 m p = load32 m p.
Proof. apply bytewise32_load. Qed.

Lemma mb2_read_u64_load m p : read_u64 m p = load64 m p.
Proof. unfold read_u64. rewrite !mb2_read_u32_load. apply halves64_load. Qed.

Lemma read_u8_load m p : read_u8 m p = load_le m p 1.
Proof.
  unfold read_u8, load_le. cbn [load_bytes]. destruct (m !! p); [|done].
  cbn [mbind option_bind le_decode]. f_equal. lia.
Qed.

Section Block.
Context (m : mem) (data : Z) (bs : list byte) (Hat : bytes_at m data bs).

Lemma mbi_fld_load off n :
  0 <= off -> off + Z.of_nat n <= zlen bs -> load_le m (data + off) n = Some (fld bs off n).
Proof.
  intros Ho Hn. pose proof (load_le_of_bytes m data (length bs) bs (Z.to_nat off) n) as H.
  rewrite Z2Nat.id in H by done. apply H; [by apply bytes_at_load|unfold zlen in Hn; lia].
Qed.

Lemma mbi_fld_word off n : 0 <= off -> off + Z.of_nat n <= zlen bs -> in_word (8 * Z.of_nat n) (fld bs off n).
Proof. intros. apply raw_word. unfold zlen in *. lia. Qed.

Lemma fld8 off : 0 <= off -> off + 1 <= zlen bs -> read_u8 m (data + off) = Some (fld bs off 1).
Proof. intros. rewrite read_u8_load. by apply mbi_fld_load. Qed.
Lemma fld32 off : 0 <= off -> off + 4 <= zlen bs -> read_u32 m (data + off) = Some (fld bs off 4).
Proof. intros. rewrite mb2_read_u32_load. by apply (mbi_fld_load off 4). Qed.
Lemma fld64 off : 0 <= off -> off + 8 <= zlen bs -> read_u64 m (data + off) = Some (fld bs off 8).
Proof. intros. rewrite mb2_read_u64_load. by apply (mbi_fld_load off 8). Qed.

Lemma sub_at off n : 0 <= off <= zlen bs -> bytes_at m (data + off) (sub bs off n).
Proof.
  intros Ho. unfold sub. apply bytes_at_take.
  pose proof (bytes_at_drop m data bs (Z.to_nat off)) as H. rewrite Z2Nat.id in H by lia.
  apply H; [unfold zlen in Ho; lia|done].
Qed.
End Block.

(** ** The tags of a block *)

Record mb2_tag := Mb2Tag { g_off : Z; g_type : Z; g_size : Z }.

Definition of_type (k : Z) (ts : list mb2_tag) : list mb2_tag :=
  List.filter (fun t => g_type t =? k) ts.

Lemma of_type_app k ts us : of_type k (ts ++ us) = of_type k ts ++ of_type k us.
Proof. apply List.filter_app. Qed.

(** The tags from an offset on, up to the end tag that closes the block. *)
Inductive mb2_chain (bs : list byte) (total : Z) : Z -> list mb2_tag -> Prop :=
  | chain_end off :
      fld bs off 4 = MB2_END -> fld bs (off + 4) 4 = 8 -> off + 8 = total ->
      mb2_chain bs total off []
  | chain_tag off size ts :
      fld bs off 4 <> MB2_END -> fld bs (off + 4) 4 = size -> 8 <= size ->
      off + round_up 8 size <= total -> mb2_chain bs total (off + round_up 8 size) ts ->
      mb2_chain bs total off (Mb2Tag off (fld bs off 4) size :: ts).

(** ** What an acceptable tag holds *)

Section Tags.
Context (bs : list byte).

Definition string_in (off n : Z) : Prop :=
  exists text, utf8_text text /\ sub bs off n = text ++ [x00].

Definition module_start (t : mb2_tag) : Z := fld bs (g_off t + 8) 4.
Definition module_end (t : mb2_tag) : Z := fld bs (g_off t + 12) 4.

Definition module_ok (t : mb2_tag) : Prop :=
  17 <= g_size t /\ module_start t < module_end t /\ string_in (g_off t + 16) (g_size t - 16).

Definition cmdline_ok (t : mb2_tag) : Prop := string_in (g_off t + 8) (g_size t - 8).

Record mb2_entry := Mb2Entry { n_base : Z; n_length : Z; n_type : Z }.

Definition mmap_stride (t : mb2_tag) : Z := fld bs (g_off t + 8) 4.
Definition mmap_count (t : mb2_tag) : Z := (g_size t - 16) / mmap_stride t.
Definition mmap_entry (t : mb2_tag) (i : nat) : mb2_entry :=
  let p := g_off t + 16 + Z.of_nat i * mmap_stride t in
  Mb2Entry (fld bs p 8) (fld bs (p + 8) 8) (fld bs (p + 16) 4).
Definition mmap_entries (t : mb2_tag) : list mb2_entry :=
  map (mmap_entry t) (seq 0 (Z.to_nat (mmap_count t))).

Definition valid_mb2_entry (e : mb2_entry) : Prop :=
  0 < n_length e /\ n_base e + n_length e <= 2 ^ 48.

Record mmap_ok (t : mb2_tag) : Prop := {
  mo_stride : 24 <= mmap_stride t;
  mo_aligned : mmap_stride t mod 8 = 0;
  mo_version : fld bs (g_off t + 12) 4 = 0;
  mo_whole : g_size t = 16 + mmap_stride t * mmap_count t;
  mo_some : 0 < mmap_count t;
  mo_ranges : Forall valid_mb2_entry (mmap_entries t);
}.

Definition layout_of (t : mb2_tag) : option (Z * Z) :=
  let b i := fld bs (g_off t + i) 1 in
  mb2_pixel_format (b 28) (b 32) (b 33) (b 34) (b 35) (b 36) (b 37).

Definition framebuffer_of_tag (t : mb2_tag) : bbp_import_framebuffer :=
  let '(format, depth) := default (0, 0) (layout_of t) in
  let pitch := fld bs (g_off t + 16) 4 in
  let height := fld bs (g_off t + 24) 4 in
  ImportFramebuffer (fld bs (g_off t + 8) 8) (pitch * height) (fld bs (g_off t + 20) 4) height
    pitch format depth 0.

Record fb_ok (t : mb2_tag) : Prop := {
  fo_size : g_size t = 38;
  fo_direct : fld bs (g_off t + 29) 1 = 1;
  fo_layout : is_Some (layout_of t);
  fo_pixels : exists bpp, framebuffer_ok (framebuffer_of_tag t) bpp;
}.

Definition byte_sum (l : list byte) : Z := foldr (fun x s => byte_Z x + s) 0 l.

(** The RSDP a tag carries, and the fields taken from it. *)
Definition rsdp_of (t : mb2_tag) : list byte := sub bs (g_off t + 8) (g_size t - 8).
Definition rsdp_revision (t : mb2_tag) : Z := fld bs (g_off t + 8 + 15) 1.
Definition acpi_fields (is_new : bool) (t : mb2_tag) : mb2_acpi :=
  Mb2Acpi (g_off t + 8) (g_size t - 8) (if is_new then fld bs (g_off t + 8 + 24) 8 else 0)
    (fld bs (g_off t + 8 + 9) 4) (rsdp_revision t * 256).

Record rsdp_ok (is_new : bool) (t : mb2_tag) : Prop := {
  ro_signature : take 8 (rsdp_of t) = RSDP_SIGNATURE;
  ro_checksum : byte_sum (take 20 (rsdp_of t)) mod 256 = 0;
  ro_extent : if is_new
    then 36 <= g_size t - 8 /\ 2 <= rsdp_revision t /\ fld bs (g_off t + 8 + 20) 4 = g_size t - 8 /\
         byte_sum (rsdp_of t) mod 256 = 0 /\ fld bs (g_off t + 8 + 24) 8 < 2 ^ 48
    else g_size t - 8 = 20 /\ rsdp_revision t = 0;
}.

Record mb2_tag_ok (t : mb2_tag) : Prop := {
  to_off : 0 <= g_off t;
  to_cmdline : g_type t = MB2_CMDLINE -> cmdline_ok t;
  to_module : g_type t = MB2_MODULE -> module_ok t;
  to_mmap : g_type t = MB2_MMAP -> mmap_ok t;
  to_framebuffer : g_type t = MB2_FRAMEBUFFER -> fb_ok t;
  to_old : g_type t = MB2_ACPI_OLD -> rsdp_ok false t;
  to_new : g_type t = MB2_ACPI_NEW -> rsdp_ok true t;
}.
End Tags.

(** ** One tag at a time *)

Lemma sum_loop_spec m : forall l p sum,
  bytes_at m p l -> 0 <= sum < 256 ->
  sum_loop m p sum (length l) = Some ((sum + byte_sum l) mod 256).
Proof.
  induction l as [|x l IH]; intros p sum Hat Hs.
  - cbn. by rewrite Z.add_0_r, Z.mod_small.
  - apply bytes_at_cons in Hat as [Hx Hat]. cbn [sum_loop length]. unfold read_u8.
    rewrite Hx. cbn [mbind option_bind]. unfold wrap.
    rewrite IH; [|done|apply Z.mod_pos_bound; lia]. f_equal. change (2 ^ 8) with 256.
    rewrite Zplus_mod_idemp_l. f_equal. cbn [byte_sum foldr]. unfold byte_sum. lia.
Qed.

Lemma checksum_zero_spec m p l n :
  bytes_at m p l -> zlen l = n -> checksum_zero m p n = Some (byte_sum l mod 256 =? 0).
Proof.
  intros Hat <-. unfold checksum_zero, zlen. rewrite Nat2Z.id, (sum_loop_spec m l p 0) by (done || lia).
  done.
Qed.

Lemma take_sub bs off n k : 0 <= k <= n -> take (Z.to_nat k) (sub bs off n) = sub bs off k.
Proof. intros Hk. unfold sub. rewrite take_take. f_equal. lia. Qed.

Section Scan.
Context (m : mem) (data : Z) (bs : list byte) (total : Z).
Context (Hat : bytes_at m data bs) (Hdata : 0 < data) (Htotal : total <= zlen bs) (Hsmall : total < 2 ^ 32).

(** Evaluate the next read of the block. *)
#[local] Ltac offset_in p :=
  lazymatch p with
  | data + ?k => k
  | ?a + ?k => let o := offset_in a in constr:(o + k)
  end.
#[local] Ltac field_by L p :=
  let o := offset_in p in
  let H := fresh in
  pose proof (L m data bs Hat o) as H; rewrite ?Z.add_assoc in H; rewrite H by lia; clear H;
  cbn [mbind option_bind].
#[local] Ltac field :=
  lazymatch goal with
  | |- context [mbind _ (read_u8 m ?p)] => field_by fld8 p
  end.
#[local] Ltac field32 :=
  lazymatch goal with |- context [mbind _ (read_u32 m ?p)] => field_by fld32 p end.
#[local] Ltac field64 :=
  lazymatch goal with |- context [mbind _ (read_u64 m ?p)] => field_by fld64 p end.

(** A guard that refused the tag. *)
#[local] Ltac refuse := eexists _, _; split; [reflexivity|discriminate].

Lemma exact_string_spec off n :
  0 <= off -> 0 <= n -> off + n <= total ->
  exists st, exact_string m (data + off) n = Some st /\ (st = BBP_IMPORT_OK -> string_in bs off n).
Proof.
  intros Ho Hn Hle. pose proof (zlen_sub bs off n Ho Hn ltac:(lia)) as Hz.
  assert (data + off <> 0) as Hnz by lia.
  pose proof (sub_at m data bs Hat off n ltac:(lia)) as Hs.
  destruct (bbp_import_validate_string_spec m (data + off) (sub bs off n) Hs Hnz) as (st & Hst & Hor).
  rewrite Hz in Hst. exists st. split; [exact Hst|]. intros ->.
  by destruct Hor as [(_ & _ & H)|[[? _]|[? _]]].
Qed.

Lemma mmap_entries_lookup t i e :
  mmap_entries bs t !! i = Some e -> e = mmap_entry bs t i /\ Z.of_nat i < mmap_count bs t.
Proof.
  unfold mmap_entries. intros H. apply list_lookup_fmap_Some in H as (j & -> & Hj).
  apply lookup_seq in Hj as [-> ?]. rewrite Nat.add_0_l. split; [done|lia].
Qed.

Lemma mmap_in_tag t i k :
  24 <= mmap_stride bs t -> g_size t = 16 + mmap_stride bs t * mmap_count bs t ->
  g_off t + g_size t <= total -> Z.of_nat i < mmap_count bs t -> k <= 24 ->
  g_off t + 16 + Z.of_nat i * mmap_stride bs t + k <= total.
Proof. intros. nia. Qed.

Lemma mmap_entry_read t i e :
  0 <= g_off t -> g_off t + g_size t <= total -> 24 <= mmap_stride bs t ->
  g_size t = 16 + mmap_stride bs t * mmap_count bs t ->
  mmap_entries bs t !! i = Some e ->
  let p := data + g_off t + 16 + Z.of_nat i * mmap_stride bs t in
  read_u64 m p = Some (n_base e) /\ read_u64 m (p + 8) = Some (n_length e) /\
  read_u32 m (p + 16) = Some (n_type e).
Proof.
  intros Ho Hle Hst Hw Hi p. apply mmap_entries_lookup in Hi as [-> Hi].
  pose proof (mmap_in_tag t i 24 Hst Hw Hle Hi ltac:(lia)).
  assert (0 <= Z.of_nat i * mmap_stride bs t) by lia.
  subst p. cbn [mmap_entry n_base n_length n_type]. rewrite <- !(Z.add_assoc data).
  rewrite !(fld64 m data bs Hat), (fld32 m data bs Hat) by lia. done.
Qed.

Lemma mmap_entries_ok_spec t : forall rest i,
  0 <= g_off t -> g_off t + g_size t <= total -> 24 <= mmap_stride bs t ->
  g_size t = 16 + mmap_stride bs t * mmap_count bs t ->
  drop i (mmap_entries bs t) = rest ->
  exists ok, mmap_entries_ok m (data + g_off t + 16) (mmap_stride bs t) (Z.of_nat i) (length rest) = Some ok /\
    (ok = true -> Forall valid_mb2_entry rest).
Proof.
  induction rest as [|e rest IH]; intros i Ho Hle Hst Hw Hdrop.
  { eexists. split; [done|]. constructor. }
  cbn [mmap_entries_ok length].
  assert (mmap_entries bs t !! i = Some e) as He by (by rewrite <- (Nat.add_0_r i), <- lookup_drop, Hdrop).
  destruct (mmap_entry_read t i e Ho Hle Hst Hw He) as (E1 & E2 & _).
  rewrite E1, E2. cbn [mbind option_bind].
  rewrite mb2_read_u64_load in E2. apply load64_word in E2 as [? _].
  destruct (bbp_import_phys_range_valid _ _) eqn:Ev; [|by eexists].
  apply phys_range_valid_iff in Ev; [|done].
  replace (Z.of_nat i + 1) with (Z.of_nat (S i)) by lia.
  destruct (IH (S i)) as (ok & Hok & Hv); [done..|by eapply drop_S_cons|].
  exists ok. split; [done|]. intros Hs. constructor; [unfold valid_mb2_entry; lia|auto].
Qed.

Lemma fb_typed t : 0 <= g_off t -> g_off t + 38 <= total -> framebuffer_typed (framebuffer_of_tag bs t).
Proof.
  intros Ho Hle. unfold framebuffer_of_tag.
  pose proof (mbi_fld_word bs (g_off t + 16) 4 ltac:(lia) ltac:(lia)) as Hp.
  pose proof (mbi_fld_word bs (g_off t + 24) 4 ltac:(lia) ltac:(lia)) as Hh.
  pose proof (mbi_fld_word bs (g_off t + 20) 4 ltac:(lia) ltac:(lia)) as Hw.
  pose proof (mbi_fld_word bs (g_off t + 8) 8 ltac:(lia) ltac:(lia)) as Ha.
  assert (let '(format, depth) := default (0, 0) (layout_of bs t) in in_word 32 format /\ in_word 16 depth) as Hf.
  { unfold layout_of, mb2_pixel_format. repeat case_match; cbn in *; simplify_eq; done. }
  destruct (default _ _) as [format depth]. destruct Hf as [Hf Hd].
  change (8 * Z.of_nat 4) with 32 in *. change (8 * Z.of_nat 8) with 64 in *.
  unfold in_word in *. split; cbn; unfold in_word; try done; nia.
Qed.

Lemma parse_framebuffer_spec t out :
  0 <= g_off t -> g_off t + g_size t <= total ->
  exists st fb, parse_framebuffer m (data + g_off t) (g_size t) out = Some (st, fb) /\
    (st = BBP_IMPORT_OK -> fb = framebuffer_of_tag bs t /\ fb_ok bs t).
Proof.
  intros Ho Hle. unfold parse_framebuffer.
  destruct (Z.eqb_spec (g_size t) 38) as [Hs|]; cbn [negb]; [|refuse].
  pose proof (fb_typed t Ho ltac:(lia)) as Hty. field.
  destruct (Z.eqb_spec (fld bs (g_off t + 29) 1) 1) as [Hk|]; cbn [negb]; [|refuse].
  field. destruct (negb _); [refuse|]. field. destruct (negb _); [refuse|].
  do 7 field. change (mb2_pixel_format _ _ _ _ _ _ _) with (layout_of bs t).
  destruct (layout_of bs t) as [[format depth]|] eqn:El; [|refuse].
  field64. do 3 field32.
  pose proof (mbi_fld_word bs (g_off t + 16) 4 ltac:(lia) ltac:(lia)) as Hp.
  pose proof (mbi_fld_word bs (g_off t + 24) 4 ltac:(lia) ltac:(lia)) as Hh.
  rewrite wrap_small by (unfold in_word in *; nia).
  assert (framebuffer_of_tag bs t = ImportFramebuffer (fld bs (g_off t + 8) 8)
    (fld bs (g_off t + 16) 4 * fld bs (g_off t + 24) 4) (fld bs (g_off t + 20) 4)
    (fld bs (g_off t + 24) 4) (fld bs (g_off t + 16) 4) format depth 0) as Efb
    by (unfold framebuffer_of_tag; by rewrite El).
  rewrite <- Efb. eexists _, _. split; [done|]. intros Hv. split; [done|].
  split; [done|done|by rewrite El|]. by apply bbp_import_validate_framebuffer_spec.
Qed.

Lemma signature_spec off :
  0 <= off -> off + 8 <= total ->
  signature_is_rsdp m (data + off) = Some (bool_decide (sub bs off 8 = RSDP_SIGNATURE)).
Proof.
  intros Ho Hle. pose proof (sub_at m data bs Hat off 8 ltac:(lia)) as Hs.
  pose proof (zlen_sub bs off 8 Ho ltac:(lia) ltac:(lia)) as Hz.
  apply bytes_at_load in Hs. unfold signature_is_rsdp.
  rewrite (bytes_equal_spec m (data + off) RSDP_SIGNATURE (sub bs off 8)); [done|].
  rewrite <- Hs. f_equal. unfold zlen in Hz. cbn. lia.
Qed.

Lemma block_sum off n :
  0 <= off -> 0 <= n -> off + n <= total ->
  checksum_zero m (data + off) n = Some (byte_sum (sub bs off n) mod 256 =? 0).
Proof.
  intros Ho Hn Hle. apply checksum_zero_spec; [apply sub_at; [done|lia]|apply zlen_sub; lia].
Qed.

(** The scan after a successful [parse_acpi]: only the ACPI fields change. *)
Definition acpi_result (sc : mb2_scan) (a : mb2_acpi) : mb2_scan :=
  set_acpi sc (ra_bytes a) (ra_xsdt a) (ra_oem a) (ra_version a).

Lemma revision_version t :
  0 <= g_off t -> g_off t + 8 + 16 <= total ->
  wrap16 (Z.shiftl (rsdp_revision bs t) 8) = rsdp_revision bs t * 256.
Proof.
  intros Ho Hle. pose proof (mbi_fld_word bs (g_off t + 8 + 15) 1 ltac:(lia) ltac:(lia)) as Hr.
  rewrite Z.shiftl_mul_pow2 by lia. apply wrap_small. unfold in_word in *.
  fold (rsdp_revision bs t) in Hr. lia.
Qed.

Lemma parse_acpi_spec t is_new sc :
  0 <= g_off t -> 8 <= g_size t -> g_off t + g_size t <= total ->
  exists st sc', parse_acpi m (data + g_off t + 8) (g_size t - 8) is_new sc = Some (st, sc') /\
    (st = BBP_IMPORT_OK -> sc' = acpi_result sc (acpi_fields bs is_new t) /\ rsdp_ok bs is_new t).
Proof.
  intros Ho Hs Hle. unfold parse_acpi. rewrite <- (Z.add_assoc data).
  destruct (Z.ltb_spec (g_size t - 8) 20); [refuse|].
  rewrite signature_spec by lia. cbn [mbind option_bind].
  case_bool_decide as Hsig; [|refuse].
  rewrite block_sum by lia. cbn [mbind option_bind].
  destruct (Z.eqb_spec (byte_sum (sub bs (g_off t + 8) 20) mod 256) 0) as [Hsum|]; [|refuse].
  rewrite (Z.add_assoc data).
  assert (take 8 (rsdp_of bs t) = RSDP_SIGNATURE /\ byte_sum (take 20 (rsdp_of bs t)) mod 256 = 0) as [? ?].
  { unfold rsdp_of. by rewrite (take_sub _ _ _ 8), (take_sub _ _ _ 20) by lia. }
  destruct is_new; cbn [negb].
  - destruct (Z.ltb_spec (g_size t - 8) 36); [refuse|]. field.
    fold (rsdp_revision bs t). destruct (Z.ltb_spec (rsdp_revision bs t) 2); [refuse|]. field32.
    destruct (_ || _) eqn:G; [refuse|]. apply orb_false_iff in G as [G1 G2].
    apply negb_false_iff, Z.eqb_eq in G2. rewrite G2, <- (Z.add_assoc data), block_sum by lia.
    cbn [mbind option_bind]. rewrite (Z.add_assoc data).
    destruct (Z.eqb_spec (byte_sum (sub bs (g_off t + 8) (g_size t - 8)) mod 256) 0); [|refuse].
    field64. destruct (bbp_import_phys_address_valid _ _) eqn:Ev; cbn [negb]; [|refuse].
    destruct (mbi_fld_word bs (g_off t + 8 + 24) 8 ltac:(lia) ltac:(lia)) as [? _].
    apply phys_address_valid_iff in Ev as [_ ?]; [|done]. field32.
    rewrite revision_version by lia.
    eexists _, _. split; [done|]. intros _. split; [done|]. by split.
  - destruct (Z.eqb_spec (g_size t - 8) 20) as [E|]; cbn [negb]; [|refuse]. field.
    fold (rsdp_revision bs t). destruct (Z.eqb_spec (rsdp_revision bs t) 0); cbn [negb]; [|refuse].
    field32. rewrite revision_version by lia.
    eexists _, _. split; [done|]. intros _. split; [|by split].
    unfold acpi_result. cbn. by rewrite E.
Qed.
End Scan.

(** ** What the scan remembers *)

(** A part that may occur once: absent, or remembered with its contents. *)
Definition slot {A} (ts : list mb2_tag) (saw : bool) (absent : Prop) (val : A) (f : mb2_tag -> A) : Prop :=
  match ts with
  | [] => saw = false /\ absent
  | [t] => saw = true /\ val = f t
  | _ => False
  end.

Lemma slot_push {A} ts t absent absent' (val val' : A) f :
  slot ts false absent val f -> val' = f t -> slot (ts ++ [t]) true absent' val' f.
Proof. intros H ->. revert H. by destruct ts as [|? [|]]; cbn; [|intros [[=] _]|]. Qed.

Definition mmap_slot (bs : list byte) (t : mb2_tag) : Z * Z * Z :=
  (g_off t, mmap_count bs t, mmap_stride bs t).

(** The locals of the scan after the tags [ts]. *)
Record describes (bs : list byte) (data total : Z) (ts : list mb2_tag) (st : mb2_state) : Prop := {
  ds_block : sc_data (st_scan st) = data /\ sc_total (st_scan st) = total;
  ds_cmdline : slot (of_type MB2_CMDLINE ts) (saw_cmdline st)
    (sc_cmdline_offset (st_scan st) = BBP_IMPORT_SIZE_MAX)
    (sc_cmdline_offset (st_scan st), sc_cmdline_bytes (st_scan st))
    (fun t => (g_off t + 8, g_size t - 8));
  ds_modules : sc_module_count (st_scan st) = zlen (of_type MB2_MODULE ts);
  ds_count : 0 <= sc_module_count (st_scan st) <= UINT32_MAX;
  ds_mmap : slot (of_type MB2_MMAP ts) (saw_mmap st)
    (sc_mmap_offset (st_scan st) = BBP_IMPORT_SIZE_MAX)
    (sc_mmap_offset (st_scan st), sc_mmap_count (st_scan st), sc_mmap_stride (st_scan st))
    (mmap_slot bs);
  ds_framebuffer : slot (of_type MB2_FRAMEBUFFER ts) (saw_framebuffer st)
    (sc_framebuffer_offset (st_scan st) = BBP_IMPORT_SIZE_MAX)
    (sc_framebuffer_offset (st_scan st), sc_framebuffer (st_scan st))
    (fun t => (g_off t, framebuffer_of_tag bs t));
  ds_old : slot (of_type MB2_ACPI_OLD ts) (saw_acpi_old st) True (old_acpi st) (acpi_fields bs false);
  ds_new : slot (of_type MB2_ACPI_NEW ts) (saw_acpi_new st) True (new_acpi st) (acpi_fields bs true);
  ds_acpi : sc_acpi_offset (st_scan st) = BBP_IMPORT_SIZE_MAX;
  ds_ok : Forall (mb2_tag_ok bs) ts;
  ds_inside : Forall (fun t => g_off t + g_size t <= total /\ 8 <= g_size t) ts;
}.

(** A tag of another type leaves a part alone. *)
Lemma of_type_other k ts t : g_type t <> k -> of_type k (ts ++ [t]) = of_type k ts.
Proof.
  intros H. rewrite of_type_app. cbn [of_type List.filter].
  rewrite (proj2 (Z.eqb_neq _ _) H). apply app_nil_r.
Qed.

Lemma of_type_same k ts t : g_type t = k -> of_type k (ts ++ [t]) = of_type k ts ++ [t].
Proof. intros <-. rewrite of_type_app. cbn [of_type List.filter]. by rewrite Z.eqb_refl. Qed.

Section ScanSteps.
Context (m : mem) (data : Z) (bs : list byte) (total : Z).
Context (Hat : bytes_at m data bs) (Hdata : 0 < data) (Htotal : total <= zlen bs) (Hsmall : total < 2 ^ 32).

(** What processing the tag [t] promises. *)
Definition scan_step (ts : list mb2_tag) (t : mb2_tag) (r : option (bbp_import_status + mb2_state)) : Prop :=
  (exists st, r = Some (inl st) /\ st <> BBP_IMPORT_OK) \/
  (exists st', r = Some (inr st') /\ describes bs data total (ts ++ [t]) st').

#[local] Ltac refused := left; eexists; split; [reflexivity|congruence].

(** The tag's own claim; every other one is about another type. *)
#[local] Ltac only_this :=
  split; [done|..]; intros Htype; try (exfalso; revert Htype; unfold MB2_CMDLINE, MB2_MODULE,
    MB2_MMAP, MB2_FRAMEBUFFER, MB2_ACPI_OLD, MB2_ACPI_NEW; cbn [g_type]; lia).
#[local] Ltac others :=
  repeat first [rewrite of_type_other by (cbn [g_type]; unfold MB2_CMDLINE, MB2_MODULE,
    MB2_MMAP, MB2_FRAMEBUFFER, MB2_ACPI_OLD, MB2_ACPI_NEW; lia)].

Context (ts : list mb2_tag) (off size : Z).
Context (Ho : 0 <= off) (Hs : 8 <= size) (Hle : off + size <= total).

(** The fields of the new locals, and the tags before this one. *)
#[local] Ltac conclude :=
  right; eexists; split; [reflexivity|];
  split; cbn [st_scan set_cmdline set_mmap set_modules set_framebuffer acpi_result set_acpi sc_data
    sc_total sc_cmdline_offset sc_cmdline_bytes sc_module_count sc_mmap_offset sc_mmap_count
    sc_mmap_stride sc_framebuffer_offset sc_framebuffer sc_acpi_offset saw_cmdline saw_mmap
    saw_framebuffer saw_acpi_old saw_acpi_new old_acpi new_acpi]; others; try done;
  [..|apply Forall_app; split; [done|]; constructor; [|constructor]
     |apply Forall_app; split; [done|]; constructor; [cbn; lia|constructor]].

Lemma scan_cmdline_spec st :
  describes bs data total ts st ->
  scan_step ts (Mb2Tag off MB2_CMDLINE size) (scan_cmdline m data off size st).
Proof.
  intros [Hb Hc Hm Hn Hmm Hf Hold Hnew Ha Hok Hin]. unfold scan_cmdline.
  destruct (saw_cmdline st); [refused|]. rewrite <- Z.add_assoc.
  destruct (exact_string_spec m data bs total Hat Hdata Htotal (off + 8) (size - 8))
    as (st' & -> & Hstr); [lia..|]. cbn [mbind option_bind].
  case_bool_decide; [subst st'|refused]. conclude.
  - rewrite of_type_same by done. by eapply slot_push.
  - only_this. by apply Hstr.
Qed.

Lemma scan_module_spec st :
  describes bs data total ts st ->
  scan_step ts (Mb2Tag off MB2_MODULE size) (scan_module m data off size st).
Proof.
  intros [Hb Hc Hm Hn Hmm Hf Hold Hnew Ha Hok Hin]. unfold scan_module.
  destruct (Z.ltb_spec size 17); [refused|].
  rewrite <- !Z.add_assoc, !(fld32 m data bs Hat) by lia. cbn [mbind option_bind].
  destruct (_ || _) eqn:G; [refused|]. apply orb_false_iff in G as [G _]. apply Z.leb_gt in G.
  destruct (exact_string_spec m data bs total Hat Hdata Htotal (off + 16) (size - 16))
    as (st' & -> & Hstr); [lia..|]. cbn [mbind option_bind].
  case_bool_decide; [subst st'|refused].
  destruct (Z.eqb_spec (sc_module_count (st_scan st)) BBP_IMPORT_U32_MAX) as [|Hne]; [refused|].
  iconsts. rewrite (wrap_small 64) by (unfold in_word; lia). conclude.
  - rewrite of_type_same by done. autorewrite with zlen. by rewrite Hm.
  - iconsts. lia.
  - only_this. split; [done|]. split; [done|]. by apply Hstr.
Qed.

Lemma scan_mmap_spec st :
  describes bs data total ts st ->
  scan_step ts (Mb2Tag off MB2_MMAP size) (scan_mmap m data off size st).
Proof.
  intros [Hb Hc Hm Hn Hmm Hf Hold Hnew Ha Hok Hin]. unfold scan_mmap.
  destruct (saw_mmap st); [refused|]. destruct (Z.ltb_spec size 16); [refused|].
  rewrite <- !Z.add_assoc, !(fld32 m data bs Hat) by lia. cbn [mbind option_bind].
  set (t := Mb2Tag off MB2_MMAP size). change (fld bs (off + 8) 4) with (mmap_stride bs t).
  destruct (_ || _ || _ || _) eqn:G1; [refused|]. rewrite !orb_false_iff, !negb_false_iff in G1.
  destruct G1 as [[[G1 G2] G3] G4]. apply Z.ltb_ge in G1. apply Z.eqb_eq in G2, G3, G4.
  rewrite land_7 in G2. change ((size - 16) / mmap_stride bs t) with (mmap_count bs t).
  assert (g_size t = 16 + mmap_stride bs t * mmap_count bs t) as Hw.
  { unfold mmap_count. cbn [g_size t].
    pose proof (Z.div_mod (size - 16) (mmap_stride bs t) ltac:(lia)). lia. }
  destruct (_ || _) eqn:G5; [refused|]. apply orb_false_iff in G5 as [G5 _]. apply Z.eqb_neq in G5.
  assert (0 <= mmap_count bs t) by (apply Z.div_pos; cbn; lia).
  destruct (mmap_entries_ok_spec m data bs total Hat Htotal t (mmap_entries bs t) 0)
    as (ok & Hents & Hv); [done|done|done|done|done|].
  change (g_off t) with off in Hents. change (Z.of_nat 0) with 0 in Hents.
  replace (length (mmap_entries bs t)) with (Z.to_nat (mmap_count bs t)) in Hents
    by (unfold mmap_entries; by rewrite length_map, length_seq).
  rewrite <- !Z.add_assoc in Hents. rewrite Hents. cbn [mbind option_bind].
  destruct ok; [|refused]. subst t. conclude.
  - rewrite of_type_same by done. by eapply slot_push.
  - only_this. split; try done; [lia|]. by apply Hv.
Qed.

Lemma scan_framebuffer_spec st :
  describes bs data total ts st ->
  scan_step ts (Mb2Tag off MB2_FRAMEBUFFER size) (scan_framebuffer m data off size st).
Proof.
  intros [Hb Hc Hm Hn Hmm Hf Hold Hnew Ha Hok Hin]. unfold scan_framebuffer.
  destruct (saw_framebuffer st); [refused|].
  destruct (parse_framebuffer_spec m data bs total Hat Htotal (Mb2Tag off MB2_FRAMEBUFFER size)
    (sc_framebuffer (st_scan st))) as (st' & fb & Hp & Hv); [done|done|].
  cbn [g_off g_size] in Hp. rewrite Hp. cbn [mbind option_bind].
  case_bool_decide; cbn [negb]; [|refused]. destruct (Hv ltac:(done)) as [-> Hfb]. conclude.
  - rewrite of_type_same by done. by eapply slot_push.
  - by only_this.
Qed.

Lemma scan_acpi_spec (is_new : bool) st :
  describes bs data total ts st ->
  scan_step ts (Mb2Tag off (if is_new then MB2_ACPI_NEW else MB2_ACPI_OLD) size)
    (scan_acpi m data off size is_new st).
Proof.
  intros [Hb Hc Hm Hn Hmm Hf Hold Hnew Ha Hok Hin]. unfold scan_acpi.
  destruct (parse_acpi_spec m data bs total Hat Htotal
    (Mb2Tag off (if is_new then MB2_ACPI_NEW else MB2_ACPI_OLD) size) is_new (st_scan st))
    as (st' & sc' & Hp & Hv); [done|done|done|].
  cbn [g_off g_size] in Hp. rewrite Hp. destruct is_new; cbn [andb orb negb].
  - destruct (saw_acpi_new st); [refused|]. cbn [orb mbind option_bind].
    case_bool_decide; cbn [negb]; [|refused]. destruct (Hv ltac:(done)) as [-> Hr]. clear Hp Hv.
    rewrite orb_false_r. conclude.
    + rewrite of_type_same by done. by eapply slot_push.
    + by only_this.
  - destruct (saw_acpi_old st); [refused|]. cbn [orb mbind option_bind].
    case_bool_decide; cbn [negb]; [|refused]. destruct (Hv ltac:(done)) as [-> Hr]. clear Hp Hv.
    rewrite orb_false_r. conclude.
    + rewrite of_type_same by done. by eapply slot_push.
    + by only_this.
Qed.

Lemma scan_tag_spec type st :
  describes bs data total ts st ->
  scan_step ts (Mb2Tag off type size) (scan_tag m data off type size st).
Proof.
  intros Hd. unfold scan_tag.
  destruct (Z.eqb_spec type MB2_CMDLINE) as [->|N1]; [by apply scan_cmdline_spec|].
  destruct (Z.eqb_spec type MB2_MODULE) as [->|N2]; [by apply scan_module_spec|].
  destruct (Z.eqb_spec type MB2_MMAP) as [->|N3]; [by apply scan_mmap_spec|].
  destruct (Z.eqb_spec type MB2_FRAMEBUFFER) as [->|N4]; [by apply scan_framebuffer_spec|].
  destruct (Z.eqb_spec type MB2_ACPI_OLD) as [->|N5]; [by apply (scan_acpi_spec false)|].
  destruct (Z.eqb_spec type MB2_ACPI_NEW) as [->|N6]; [by apply (scan_acpi_spec true)|].
  cbn [orb]. destruct Hd as [Hb Hc Hm Hn Hmm Hf Hold Hnew Ha Hok Hin]. right.
  exists st. split; [done|]. split; rewrite ?of_type_other by done; try done.
  - apply Forall_app. split; [done|]. constructor; [|constructor]. by split.
  - apply Forall_app. split; [done|]. constructor; [cbn; lia|constructor].
Qed.
End ScanSteps.

(** ** The whole scan *)

(** A remembered part of the finished scan. *)
Definition kept_slot {A} (ts : list mb2_tag) (offset : Z) (val : A) (f : mb2_tag -> A) : Prop :=
  match ts with
  | [] => offset = BBP_IMPORT_SIZE_MAX
  | [t] => val = f t
  | _ => False
  end.

(** The RSDP that counts: the one of the new tag if there is one. *)
Definition acpi_tags (ts : list mb2_tag) : list (bool * mb2_tag) :=
  match of_type MB2_ACPI_NEW ts with
  | [] => map (pair false) (of_type MB2_ACPI_OLD ts)
  | t :: _ => [(true, t)]
  end.

(** The types that may occur only once. *)
Definition mb2_singletons : list Z :=
  [MB2_CMDLINE; MB2_MMAP; MB2_FRAMEBUFFER; MB2_ACPI_OLD; MB2_ACPI_NEW].

(** The scan of a block whose tags are [ts]. *)
Record scan_result (bs : list byte) (data total : Z) (ts : list mb2_tag) (sc : mb2_scan) : Prop := {
  sr_block : sc_data sc = data /\ sc_total sc = total;
  sr_cmdline : kept_slot (of_type MB2_CMDLINE ts) (sc_cmdline_offset sc)
    (sc_cmdline_offset sc, sc_cmdline_bytes sc) (fun t => (g_off t + 8, g_size t - 8));
  sr_modules : sc_module_count sc = zlen (of_type MB2_MODULE ts);
  sr_mmap : kept_slot (of_type MB2_MMAP ts) (sc_mmap_offset sc)
    (sc_mmap_offset sc, sc_mmap_count sc, sc_mmap_stride sc) (mmap_slot bs);
  sr_framebuffer : kept_slot (of_type MB2_FRAMEBUFFER ts) (sc_framebuffer_offset sc)
    (sc_framebuffer_offset sc, sc_framebuffer sc) (fun t => (g_off t, framebuffer_of_tag bs t));
  sr_acpi : match acpi_tags ts with
    | [] => sc_acpi_offset sc = BBP_IMPORT_SIZE_MAX
    | [(is_new, t)] =>
        Mb2Acpi (sc_acpi_offset sc) (sc_acpi_bytes sc) (sc_acpi_xsdt sc) (sc_acpi_oem_id sc)
          (sc_acpi_version sc) = acpi_fields bs is_new t
    | _ => False
    end;
  sr_count : sc_module_count sc <= UINT32_MAX;
  sr_single : forall k, In k mb2_singletons -> (length (of_type k ts) <= 1)%nat;
  sr_ok : Forall (mb2_tag_ok bs) ts;
  sr_inside : Forall (fun t => g_off t + g_size t <= total /\ 8 <= g_size t) ts;
}.

Lemma slot_kept {A} ts saw offset (val : A) f :
  slot ts saw (offset = BBP_IMPORT_SIZE_MAX) val f -> kept_slot ts offset val f.
Proof. destruct ts as [|? [|]]; cbn; tauto. Qed.

Lemma slot_single {A} ts saw absent (val : A) f : slot ts saw absent val f -> (length ts <= 1)%nat.
Proof. destruct ts as [|? [|]]; cbn; [lia|lia|done]. Qed.

Lemma describes_result bs data total ts st :
  describes bs data total ts st ->
  scan_result bs data total ts
    (if saw_acpi_new st then publish_acpi (st_scan st) (new_acpi st)
     else if saw_acpi_old st then publish_acpi (st_scan st) (old_acpi st) else st_scan st).
Proof.
  intros [Hb Hc Hm Hn Hmm Hf Hold Hnew Ha Hok Hin].
  assert (forall k, In k mb2_singletons -> (length (of_type k ts) <= 1)%nat) as Hsingle.
  { intros k Hk. cbn [In mb2_singletons] in Hk.
    destruct Hk as [<-|[<-|[<-|[<-|[<-|[]]]]]]; by eapply slot_single. }
  apply slot_kept in Hc, Hmm, Hf. split.
  all: try (destruct (saw_acpi_new st), (saw_acpi_old st); by try apply Hn).
  unfold acpi_tags, slot in *. destruct (of_type MB2_ACPI_NEW ts) as [|t [|]].
  - destruct Hnew as [-> _]. destruct (of_type MB2_ACPI_OLD ts) as [|t [|]]; cbn [map].
    + by destruct Hold as [-> _].
    + destruct Hold as [-> ->]. by destruct (acpi_fields bs false t).
    + done.
  - destruct Hnew as [-> ->]. by destruct (acpi_fields bs true t).
  - done.
Qed.

Section ScanLoop.
Context (m : mem) (data : Z) (bs : list byte) (total : Z).
Context (Hat : bytes_at m data bs) (Hdata : 0 < data) (Htotal : total <= zlen bs) (Hsmall : total < 2 ^ 32).

Lemma scan_loop_spec : forall fuel off done st,
  0 <= off -> total - off <= Z.of_nat fuel -> describes bs data total done st ->
  exists r, scan_loop m data total off st fuel = Some r /\
    match r with
    | inl status => status <> BBP_IMPORT_OK
    | inr sc => exists ts, mb2_chain bs total off ts /\ scan_result bs data total (done ++ ts) sc
    end.
Proof.
  induction fuel as [|fuel IH]; intros off done st Ho Hf Hd.
  { cbn [scan_loop]. rewrite (proj2 (Z.ltb_ge _ _)) by lia. by eexists. }
  cbn [scan_loop]. destruct (Z.ltb_spec off total); [|by eexists].
  destruct (Z.ltb_spec (total - off) 8); [by eexists|].
  rewrite <- !Z.add_assoc, !(fld32 m data bs Hat) by lia. cbn [mbind option_bind].
  destruct (_ || _) eqn:G; [by eexists|]. apply orb_false_iff in G as [G1 G2].
  apply Z.ltb_ge in G1, G2.
  destruct (Z.eqb_spec (fld bs off 4) MB2_END) as [Ee|Ne].
  - destruct (_ || _) eqn:G; [by eexists|]. rewrite orb_false_iff, !negb_false_iff, !Z.eqb_eq in G.
    destruct G as [Es Et]. eexists. split; [reflexivity|]. exists []. rewrite app_nil_r.
    split; [by apply chain_end|by apply describes_result].
  - pose proof (mbi_fld_word bs (off + 4) 4 ltac:(lia) ltac:(lia)) as Hw. unfold in_word in Hw.
    rewrite align8_up_eq by (unfold SIZE_MAX; lia).
    pose proof (round_up_bounds 8 (fld bs (off + 4) 4) ltac:(lia)).
    destruct (Z.ltb_spec (total - off) (round_up 8 (fld bs (off + 4) 4))); [by eexists|].
    destruct (scan_tag_spec m data bs total Hat Hdata Htotal done off (fld bs (off + 4) 4)
      Ho G1 ltac:(lia) (fld bs off 4) st Hd) as [(st' & -> & Hne)|(st' & -> & Hd')];
      cbn [mbind option_bind]; [by eexists|].
    destruct (IH (off + round_up 8 (fld bs (off + 4) 4)) _ st' ltac:(lia) ltac:(lia) Hd')
      as (r & -> & Hr).
    eexists. split; [reflexivity|]. destruct r as [status|sc]; [done|].
    destruct Hr as (ts & Hch & Hsr). eexists. split; [|by rewrite <- app_assoc in Hsr].
    apply chain_tag; [done|done|done|lia|done].
Qed.
End ScanLoop.

Lemma scan_start_describes bs data total :
  describes bs data total []
    (Mb2State (scan_start data total) false false false false false
       (Mb2Acpi 0 0 0 0 0) (Mb2Acpi 0 0 0 0 0)).
Proof. split; try done. Qed.

(** Scanning never faults; an accepted block is a chain of acceptable tags. *)
Lemma scan_mbi_spec m s bs :
  b_mbi s <> 0 -> 0 <= b_mbi s -> bytes_at m (b_mbi s) bs -> zlen bs = b_mapped_bytes s ->
  exists r, scan_mbi m s = Some r /\
    match r with
    | inl status => status <> BBP_IMPORT_OK
    | inr sc => exists ts,
        let total := fld bs 0 4 in
        total mod 8 = 0 /\ 16 <= total <= zlen bs /\ total < 2 ^ 32 /\ fld bs 4 4 = 0 /\
        mb2_chain bs total 8 ts /\ scan_result bs (b_mbi s) total ts sc
    end.
Proof.
  intros Hnz Hpos Hat Hlen. unfold scan_mbi. rewrite (proj2 (Z.eqb_neq _ 0) Hnz). cbn [orb].
  destruct (Z.ltb_spec (b_mapped_bytes s) 16); [by eexists|]. rewrite <- Hlen in *.
  pose proof (fld32 m (b_mbi s) bs Hat 0 ltac:(lia) ltac:(lia)) as H0. rewrite Z.add_0_r in H0.
  rewrite H0, (fld32 m (b_mbi s) bs Hat 4) by lia. cbn [mbind option_bind].
  pose proof (mbi_fld_word bs 0 4 ltac:(lia) ltac:(lia)) as Hw. unfold in_word in Hw.
  destruct (_ || _ || _) eqn:G; [by eexists|]. rewrite !orb_false_iff, !negb_false_iff in G.
  destruct G as [[G1 G2] G3]. apply Z.ltb_ge in G1, G3. apply Z.eqb_eq in G2. rewrite land_7 in G2.
  destruct (Z.eqb_spec (fld bs 4 4) 0); cbn [negb]; [|by eexists].
  destruct (scan_loop_spec m (b_mbi s) bs (fld bs 0 4) Hat ltac:(lia) ltac:(lia)
    (Z.to_nat (fld bs 0 4)) 8 [] _ ltac:(lia) ltac:(lia) (scan_start_describes _ _ _)) as (r & -> & Hr).
  eexists. split; [reflexivity|]. destruct r as [status|sc]; [done|].
  destruct Hr as (ts & Hch & Hsr). exists ts. cbn zeta.
  change (8 * Z.of_nat 4) with 32 in *. split_and!; try done; lia.
Qed.
