(* ===== verification/ImportMultibootProps.v ===== *)
(** * Properties of the Multiboot2 importer

    The tags that an accepted information block stands for, the emission that
    writes them, and the theorem about the whole importer. *)

From S2P Require Import Prelude Memory Crc64 Abi Builder BuilderFacts Import ImportFacts ImportProps ImportEmit ImportBodies ImportMultiboot ImportMultibootFacts.

(** ** Names cut at a character boundary *)

(** Bytes of the whole characters of [bs] that fit in [limit]. *)
Fixpoint utf8_cut (fuel : nat) (bs : list byte) (limit : Z) : Z :=
  match fuel with
  | O => 0
  | S fuel =>
      let n := seq_len bs in
      if (n =? 0) || (limit <? n) then 0
      else n + utf8_cut fuel (drop (Z.to_nat n) bs) (limit - n)
  end.

Lemma prefix_loop_cut m text total limit fuel : forall bs offset,
  bytes_at m (text + offset) bs -> total = offset + zlen bs -> (length bs <= fuel)%nat ->
  0 <= offset <= limit -> limit < 2 ^ 64 ->
  prefix_loop m text total limit offset fuel = Some (offset + utf8_cut fuel bs (limit - offset)).
Proof.
  induction fuel as [|fuel IH]; intros bs offset Hat -> Hf Ho Hl.
  { destruct bs; [|cbn in Hf; lia]. cbn [prefix_loop utf8_cut].
    rewrite (proj2 (Z.ltb_ge _ _)) by (unfold zlen; cbn; lia). f_equal. lia. }
  cbn [prefix_loop utf8_cut]. destruct (Z.ltb_spec offset (offset + zlen bs)) as [Hlt|Hge].
  2: { destruct bs; [|unfold zlen in Hge; cbn [length] in Hge; lia].
       change (seq_len []) with 0. cbn [Z.eqb orb]. f_equal. lia. }
  replace (offset + zlen bs - offset) with (zlen bs) by lia.
  rewrite (utf8_sequence_seq _ _ _ Hat). cbn [mbind option_bind].
  rewrite wrap_small by (unfold in_word; lia).
  destruct (Z.eqb_spec (seq_len bs) 0) as [H0|H0]; cbn [orb]; [f_equal; lia|].
  destruct (Z.ltb_spec (limit - offset) (seq_len bs)); [f_equal; lia|].
  destruct (seq_len_decode bs H0) as (c & rest & Hc & -> & E). rewrite E in *.
  pose proof (encode_length c) as Hc4. apply bytes_at_app in Hat as [_ Hat].
  assert (drop (Z.to_nat (zlen (utf8_encode c))) (utf8_encode c ++ rest) = rest) as ->
    by (unfold zlen; rewrite Nat2Z.id; apply drop_app_length).
  rewrite (IH rest); [|by rewrite Z.add_assoc|autorewrite with zlen; lia
    |rewrite length_app in Hf; unfold zlen in *; lia|lia|done].
  f_equal. replace (limit - (offset + zlen (utf8_encode c)))
    with (limit - offset - zlen (utf8_encode c)) by lia. lia.
Qed.

Definition cut_name (text : list byte) : list byte :=
  take (Z.to_nat (utf8_cut (length text) text 63)) text.

Lemma cut_name_bound text : zlen (cut_name text) <= 63.
Proof.
  assert (forall fuel bs limit, 0 <= limit -> 0 <= utf8_cut fuel bs limit <= limit) as H.
  { induction fuel as [|fuel IH]; intros bs limit Hl; cbn [utf8_cut]; [lia|].
    destruct (Z.eqb_spec (seq_len bs) 0) as [|Hn]; cbn [orb]; [lia|].
    destruct (Z.ltb_spec limit (seq_len bs)); [lia|].
    destruct (seq_len_decode bs Hn) as (c & rest & _ & _ & E). pose proof (encode_length c).
    specialize (IH (drop (Z.to_nat (seq_len bs)) bs) (limit - seq_len bs) ltac:(lia)). lia. }
  specialize (H (length text) text 63 ltac:(lia)). unfold cut_name, zlen. rewrite length_take. lia.
Qed.

Lemma utf8_prefix_name m p text :
  bytes_at m p text ->
  bbp_import_utf8_prefix m p (zlen text) 63 = Some (zlen (cut_name text)) /\
  zlen (cut_name text) <= 63 /\ (length (cut_name text) <= length text)%nat.
Proof.
  intros Hat. destruct (utf8_prefix_spec m p text 63 Hat ltac:(lia)) as (k & Hk & Hle & Hlim & _).
  pose proof Hk as Hk'. unfold bbp_import_utf8_prefix in Hk'.
  rewrite (prefix_loop_cut m p (zlen text) 63 (Z.to_nat (zlen text)) text 0) in Hk';
    [|by rewrite Z.add_0_r|lia|unfold zlen; lia|lia|lia].
  injection Hk' as Hcut. unfold zlen in Hcut at 1. rewrite Nat2Z.id in Hcut.
  change (63 - 0) with 63 in Hcut. rewrite Z.add_0_l in Hcut.
  assert (zlen (cut_name text) = Z.of_nat k) as Hz.
  { unfold cut_name, zlen. rewrite Hcut, Nat2Z.id, length_take. lia. }
  rewrite Hz. split; [done|]. split; [lia|]. unfold zlen in Hz. lia.
Qed.

(** ** The tags of a block *)

Definition mb2_entry_bytes (e : mb2_entry) : list byte :=
  let type := mb2_memory_type (n_type e) in
  memory_entry_bytes (n_base e) (n_length e) type (mb2_memory_attributes type).

Section Items.
Context (bs : list byte).

Definition mmap_item (t : mb2_tag) : item :=
  Item BBP_TAG_MEMORY_MAP [] (8 + 32 * mmap_count bs t)
    (fun _ => memory_map_body (map mb2_entry_bytes (mmap_entries bs t))).

Definition cmdline_item (t : mb2_tag) : item :=
  let line := sub bs (g_off t + 8) (g_size t - 8) in
  Item BBP_TAG_CMDLINE line 24 (cmdline_body (removelast line)).

(** One module: base, size, a name of at most 63 bytes, the rest zero. *)
Definition module_name (t : mb2_tag) : list byte :=
  cut_name (sub bs (g_off t + 16) (g_size t - 17)).
Definition module_bytes (t : mb2_tag) : list byte :=
  le_encode 8 (module_start bs t) ++ le_encode 8 (module_end bs t - module_start bs t) ++
  module_name t ++ replicate (160 - length (module_name t)) x00.

Definition modules_body (ts : list mb2_tag) : list byte :=
  le_encode 4 (zlen ts) ++ replicate 4 x00 ++ concat (map module_bytes ts).

Definition modules_items (ts : list mb2_tag) : list item :=
  match ts with
  | [] => []
  | _ => [Item BBP_TAG_MODULES [] (8 + 176 * zlen ts) (fun _ => modules_body ts)]
  end.

Definition fb_item (t : mb2_tag) : item :=
  Item BBP_TAG_FRAMEBUFFER [] 88 (fun _ => framebuffer_body (framebuffer_of_tag bs t)).

(** The RSDP is copied into the arena, and the tag points to the copy. *)
Definition acpi_item (nt : bool * mb2_tag) : item :=
  let a := acpi_fields bs (fst nt) (snd nt) in
  Item BBP_TAG_ACPI (rsdp_of bs (snd nt)) 24
    (fun rsdp => acpi_body rsdp (ra_xsdt a) (ra_oem a) (ra_version a)
       (if negb (ra_xsdt a =? 0) then BBP_ACPI_FLAG_XSDT_AVAILABLE else 0)).

Definition mb2_items (s : bbp_multiboot2_snapshot) (ts : list mb2_tag) : list item :=
  on (b_present s) BBP_IMPORT_HAS_HHDM
    (Item BBP_TAG_HHDM [] 8 (fun _ => hhdm_body (b_hhdm_offset s))) ++
  map mmap_item (of_type MB2_MMAP ts) ++
  on (b_present s) BBP_IMPORT_HAS_KERNEL_ADDRESS (Item BBP_TAG_KERNEL_ADDRESS [] 16
    (fun _ => kernel_address_body (b_kernel_physical_base s) (b_kernel_virtual_base s))) ++
  map cmdline_item (of_type MB2_CMDLINE ts) ++
  modules_items (of_type MB2_MODULE ts) ++
  map fb_item (of_type MB2_FRAMEBUFFER ts) ++
  map acpi_item (acpi_tags ts).
End Items.

(** ** Emission *)

(** What the emission may rely on. *)
Record mb2_ready (m : mem) (A C snapshot : Z) (s : bbp_multiboot2_snapshot) (bs : list byte) : Prop := {
  br_snapshot : multiboot2_snapshot_at m snapshot = Some s;
  br_apart : disjoint_range A C snapshot 48;
  br_mbi : bytes_at m (b_mbi s) bs;
  br_mbi_apart : disjoint_range A C (b_mbi s) (zlen bs);
}.

Lemma mb2_ready_frame A C snapshot s bs m m' :
  frame A C m m' -> mb2_ready m A C snapshot s bs -> mb2_ready m' A C snapshot s bs.
Proof.
  intros F [Hsn Hap Hat Hd]. split; [|done| |done].
  - unfold multiboot2_snapshot_at in *. rewrite (load_bytes_same_on m m'); [done|].
    by eapply frame_same_on.
  - eapply bytes_at_same_on; [|exact Hat]. by eapply frame_same_on.
Qed.

Section Emission.
Context (A C snapshot : Z) (s : bbp_multiboot2_snapshot) (bs : list byte) (total : Z).
Context (Htotal : total <= zlen bs) (Hsmall : total < 2 ^ 32) (Hdata : 0 < b_mbi s).
Let src m := mb2_ready m A C snapshot s bs.
#[local] Abbreviation data := (b_mbi s).

Lemma mb2_src m m' : frame A C m m' -> src m -> src m'.
Proof. apply mb2_ready_frame. Qed.

Lemma mb2_snapshot_read m : src m -> multiboot2_snapshot_at m snapshot = Some s.
Proof. intros H. by destruct H. Qed.

Lemma mb2_emits_reading K its : emits A C src (K s) its -> emits A C src (reading snapshot K) its.
Proof.
  intros H m b ts plan plan' Hrep Hpl HA HC Hag Hs Hplan.
  destruct (H m b ts plan plan') as (m' & b' & new & E & Rest); [done..|].
  exists m', b', new. split; [|done]. unfold reading. by rewrite (mb2_snapshot_read _ Hs).
Qed.

Lemma mb2_kernel_address_writes :
  writes A C src (fun m tag =>
    s ← multiboot2_snapshot_at m snapshot;
    m ← store64 m (tag + 32) (b_kernel_physical_base s);
    s ← multiboot2_snapshot_at m snapshot;
    store64 m (tag + 40) (b_kernel_virtual_base s)) 16
    (kernel_address_body (b_kernel_physical_base s) (b_kernel_virtual_base s)).
Proof.
  pose proof mb2_src as Hsrc. pose proof mb2_snapshot_read as Hs.
  start 16%nat. rd Hs. put 0%nat. rd Hs. put 0%nat. by finish.
Qed.

Lemma mb2_framebuffer_writes fb :
  in_word 16 (fb_width fb) -> in_word 16 (fb_height fb) -> fb_flags fb = 0 ->
  writes A C src (fun m tag =>
    m ← store64 m (tag + 32) (fb_address fb);
    m ← store16 m (tag + 40) 1;
    m ← store32 m (tag + 44) (fb_pitch fb);
    m ← store64 m (tag + 48) (fb_total_size fb);
    m ← store16 m (tag + 72) (wrap16 (fb_width fb));
    m ← store16 m (tag + 74) (wrap16 (fb_height fb));
    m ← store16 m (tag + 78) (fb_color_depth fb);
    store32 m (tag + 80) (fb_pixel_format fb)) 88 (framebuffer_body fb).
Proof.
  intros Hw Hh Hf. pose proof mb2_src as Hsrc. start 88%nat.
  put 0%nat. put 0%nat. put 2%nat. put 0%nat. rewrite !wrap_small by done.
  put 16%nat. put 0%nat. put 2%nat. put 0%nat. finish.
  unfold framebuffer_body. rewrite Hf, <- !app_assoc. reflexivity.
Qed.

Lemma mb2_acpi_writes rsdp xsdt oem version :
  writes A C src (fun m tag =>
    m ← store64 m (tag + 32) rsdp;
    m ← store64 m (tag + 40) xsdt;
    m ← store32 m (tag + 48) oem;
    m ← store16 m (tag + 52) version;
    if negb (xsdt =? 0) then store16 m (tag + 54) BBP_ACPI_FLAG_XSDT_AVAILABLE else Some m) 24
    (acpi_body rsdp xsdt oem version (if negb (xsdt =? 0) then BBP_ACPI_FLAG_XSDT_AVAILABLE else 0)).
Proof.
  pose proof mb2_src as Hsrc. start 24%nat. put 0%nat. put 0%nat. put 0%nat. put 0%nat.
  destruct (negb (xsdt =? 0)); [put 0%nat; by finish|]. finish.
  unfold acpi_body. rewrite <- !app_assoc. reflexivity.
Qed.

Lemma mb2_type_word type : in_word 32 (mb2_memory_type type).
Proof. unfold mb2_memory_type. by repeat case_match. Qed.

Lemma zlen_mmap_entries t : 0 <= mmap_count bs t -> zlen (mmap_entries bs t) = mmap_count bs t.
Proof. intros. unfold mmap_entries, zlen. rewrite length_map, length_seq. lia. Qed.

(** The reads of one memory-map entry, in any memory of the emission. *)
Lemma mmap_entry_src t i e :
  mmap_ok bs t -> 0 <= g_off t -> g_off t + g_size t <= total -> mmap_entries bs t !! i = Some e ->
  let p := data + g_off t + 16 + Z.of_nat i * mmap_stride bs t in
  (forall m, src m -> read_u64 m p = Some (n_base e)) /\
  (forall m, src m -> read_u64 m (p + 8) = Some (n_length e)) /\
  (forall m, src m -> read_u32 m (p + 16) = Some (n_type e)).
Proof.
  intros [Hst _ _ Hwhole _ _] Ho Hle He p.
  pose proof (fun m (Hm : src m) => mmap_entry_read m data bs total (br_mbi _ _ _ _ _ _ Hm) Htotal t i e
    Ho Hle Hst Hwhole He) as Hread. split_and!; intros m Hm; by destruct (Hread m Hm) as (? & ? & ?).
Qed.

(** [written] starts with the count that the loop reads back. *)
Lemma counted_read m a c written r :
  bytes_at m a (written ++ r) -> (exists w, written = le_encode 4 c ++ w) -> in_word 32 c ->
  load32 m a = Some c.
Proof.
  intros Hat [w ->] Hc. rewrite <- app_assoc in Hat. apply bytes_at_app in Hat as [Hat _].
  by apply bytes_at_load_le.
Qed.

Lemma mb2_memory_map_loop_writes t tag : forall rest i written m,
  mmap_ok bs t -> 0 <= g_off t -> g_off t + g_size t <= total ->
  A <= tag + 32 -> tag + 32 + (8 + 32 * mmap_count bs t) <= A + C -> src m ->
  bytes_at m (tag + 32) (written ++ replicate (32 * length rest) x00) ->
  (exists w, written = le_encode 4 (mmap_count bs t) ++ w) ->
  drop i (mmap_entries bs t) = rest -> zlen written = 8 + 32 * Z.of_nat i ->
  Z.of_nat i + zlen rest = mmap_count bs t ->
  exists m', memory_map_loop m (data + g_off t + 16) (mmap_stride bs t) tag (Z.of_nat i) (length rest) = Some m' /\
    bytes_at m' (tag + 32) (written ++ concat (map mb2_entry_bytes rest)) /\
    frame (tag + 32) (8 + 32 * mmap_count bs t) m m'.
Proof.
  pose proof mb2_src as Hsrc.
  induction rest as [|e rest IH]; intros i written m Hok Ho Hle Ha HN Hs Hat Hw Hdrop Hz Hcnt;
    cbn [memory_map_loop length] in Hat |- *; rewrite (counted_read _ _ _ _ _ Hat Hw)
      by (destruct Hok; unfold in_word; nia); cbn [mbind option_bind].
  { exists m. rewrite (proj2 (Z.ltb_ge _ _)) by (rewrite zlen_nil in Hcnt; lia).
    split_and!; [done|exact Hat|apply frame_refl]. }
  rewrite zlen_cons in Hcnt. pose proof (zlen_nonneg rest). rewrite (proj2 (Z.ltb_lt _ _)) by lia.
  assert (mmap_entries bs t !! i = Some e) as He by (by rewrite <- (Nat.add_0_r i), <- lookup_drop, Hdrop).
  destruct (mmap_entry_src t i e Hok Ho Hle He) as (R0 & R1 & R2).
  rd R0. put 0%nat. rd R1. put 0%nat. rd R2. put 0%nat.
  unfold load32. erewrite read_back; [|eassumption|apply mb2_type_word|autorewrite with zlen; lia].
  cbn [mbind option_bind]. put 0%nat.
  eapply (advance _ _ _ _ 8 (32 * length rest)) in Hat; [|lia].
  replace (Z.of_nat i + 1) with (Z.of_nat (S i)) by lia.
  destruct (IH (S i) _ _ Hok Ho Hle Ha HN Hs Hat) as (m' & Hl & Hb & Hf).
  { destruct Hw as [w ->]. eexists. by rewrite <- !app_assoc. }
  { by eapply drop_S_cons. }
  { autorewrite with zlen. lia. }
  { lia. }
  exists m'. split_and!; [done| |done]. by rewrite <- !app_assoc in Hb.
Qed.

(** ** Modules *)

Lemma store8_bytes m p c : store8 m p c = store_bytes m p [c].
Proof. cbn [store_bytes]. by destruct (store8 m p c). Qed.

Lemma module_name_facts t m :
  0 <= g_off t -> g_off t + g_size t <= total -> 17 <= g_size t -> src m ->
  bbp_import_utf8_prefix m (data + g_off t + 16) (g_size t - 17) 63 = Some (zlen (module_name bs t)) /\
  zlen (module_name bs t) <= 63 /\
  load_bytes m (data + g_off t + 16) (length (module_name bs t)) = Some (module_name bs t) /\
  zlen (module_name bs t) <= g_size t - 17.
Proof.
  intros Ho Hle Hs Hm. pose proof (br_mbi _ _ _ _ _ _ Hm) as Hat.
  pose proof (zlen_sub bs (g_off t + 16) (g_size t - 17) ltac:(lia) ltac:(lia) ltac:(lia)) as Hz.
  pose proof (sub_at m data bs Hat (g_off t + 16) (g_size t - 17) ltac:(lia)) as Hsub.
  rewrite Z.add_assoc in Hsub.
  destruct (utf8_prefix_name m (data + g_off t + 16) _ Hsub) as (Hp & H63 & Hl).
  rewrite Hz in Hp. fold (module_name bs t) in *. split_and!; [done|done| |].
  - apply bytes_at_load. unfold module_name, cut_name. by apply bytes_at_take.
  - unfold zlen in *. lia.
Qed.

Lemma module_writes t m a written k N entry :
  module_ok bs t -> 0 <= g_off t -> g_off t + g_size t <= total ->
  A <= a -> a + N <= A + C -> src m ->
  bytes_at m a (written ++ replicate (176 + k) x00) -> zlen written + 176 + Z.of_nat k = N ->
  entry = a + zlen written ->
  exists m', write_module m data (g_off t) (g_size t) entry = Some m' /\
    bytes_at m' a ((written ++ module_bytes bs t) ++ replicate k x00) /\ frame a N m m'.
Proof.
  intros (Hs & Hlt & _) Ho Hle Ha HN Hm Hat Hz ->. pose proof mb2_src as Hsrc.
  pose proof (br_mbi _ _ _ _ _ _ Hm) as Hmbi. pose proof (br_mbi_apart _ _ _ _ _ _ Hm) as Hapart.
  destruct (module_name_facts t m Ho Hle Hs Hm) as (Hp & H63 & _ & Hnl).
  pose proof (mbi_fld_word bs (g_off t + 8) 4 ltac:(lia) ltac:(lia)) as Hw8.
  pose proof (mbi_fld_word bs (g_off t + 12) 4 ltac:(lia) ltac:(lia)) as Hw12.
  assert (forall m, src m -> read_u32 m (data + g_off t + 8) = Some (module_start bs t)) as R8.
  { intros m1 Hm1. rewrite <- Z.add_assoc. apply fld32; [by apply (br_mbi _ _ _ _ _ _ Hm1)|lia..]. }
  assert (forall m, src m -> read_u32 m (data + g_off t + 12) = Some (module_end bs t)) as R12.
  { intros m1 Hm1. rewrite <- Z.add_assoc. apply fld32; [by apply (br_mbi _ _ _ _ _ _ Hm1)|lia..]. }
  assert (forall m, src m -> bbp_import_memcpy m (a + zlen written + 16) (data + g_off t + 16)
    (zlen (module_name bs t)) = store_bytes m (a + zlen written + 16) (module_name bs t)) as Rcpy.
  { intros m1 Hm1. destruct (module_name_facts t m1 Ho Hle Hs Hm1) as (_ & _ & Hld & _).
    unfold bbp_import_memcpy, zlen at 2. rewrite Nat2Z.id. apply mem_copy_store; [done|].
    pose proof (zlen_nonneg written). fold (zlen (module_name bs t)).
    intros x Hx1 Hx2. apply (Hapart x); unfold zlen in *; lia. }
  unfold write_module. rewrite Hp. cbn [mbind option_bind].
  rd R8. put 0%nat. rd R12. rd R8.
  rewrite wrap_small by (unfold in_word in *; fold (module_start bs t) (module_end bs t) in *; lia).
  put 0%nat. rewrite Rcpy by eassumption. unfold zlen in H63. put 0%nat. rewrite store8_bytes.
  put 0%nat. finish. unfold module_bytes.
  rewrite <- !app_assoc. cbn [replicate app]. do 4 f_equal.
  rewrite <- replicate_add. change (x00 :: replicate ?n x00) with (replicate (S n) x00).
  f_equal. lia.
Qed.

Lemma zlen_module_bytes t : zlen (module_bytes bs t) = 176.
Proof. pose proof (cut_name_bound (sub bs (g_off t + 16) (g_size t - 17))). fold (module_name bs t) in *. unfold module_bytes. autorewrite with zlen. unfold zlen in *. lia. Qed.

Lemma modules_loop_writes tag N count : forall off rest,
  mb2_chain bs total off rest -> forall idx written m fuel,
  0 <= off -> total - off <= Z.of_nat fuel -> Forall (mb2_tag_ok bs) rest ->
  A <= tag + 32 -> tag + 32 + N <= A + C -> src m -> in_word 32 count ->
  bytes_at m (tag + 32) (written ++ replicate (176 * length (of_type MB2_MODULE rest)) x00) ->
  (exists w, written = le_encode 4 count ++ w) -> zlen written = 8 + 176 * idx ->
  idx + zlen (of_type MB2_MODULE rest) = count -> N = 8 + 176 * count ->
  exists m', modules_loop m data total tag off idx fuel = Some m' /\
    bytes_at m' (tag + 32) (written ++ concat (map (module_bytes bs) (of_type MB2_MODULE rest))) /\
    frame (tag + 32) N m m'.
Proof.
  induction 1 as [off Htype Hsize Hend|off size rest Htype Hsize Hsz Hfit Hchain IH];
    intros idx written m fuel Ho Hf Hok Ha HN Hs Hcw Hat Hw Hz Hcnt HeqN.
  { assert (modules_loop m data total tag off idx fuel = Some m) as ->.
    { destruct fuel as [|fuel]; cbn [modules_loop]; [rewrite (proj2 (Z.ltb_ge _ _)) by lia; done|].
      rewrite (proj2 (Z.ltb_lt _ _)) by lia. rewrite (counted_read _ _ _ _ _ Hat Hw) by done.
      cbn [mbind option_bind]. rewrite (proj2 (Z.ltb_ge _ _)); [done|]. unfold of_type, zlen in Hcnt. cbn in Hcnt. lia. }
    exists m. split_and!; [done|exact Hat|apply frame_refl]. }
  pose proof (round_up_bounds 8 size ltac:(lia)).
  destruct fuel as [|fuel]; [lia|]. cbn [modules_loop].
  rewrite (proj2 (Z.ltb_lt off total)) by lia. rewrite (counted_read _ _ _ _ _ Hat Hw) by done.
  cbn [mbind option_bind]. set (t := Mb2Tag off (fld bs off 4) size) in *.
  pose proof (br_mbi _ _ _ _ _ _ Hs) as Hmbi. apply Forall_cons in Hok as [Ht Hok].
  assert (read_u32 m (data + off) = Some (fld bs off 4)) as R0 by (apply fld32; [done|lia..]).
  assert (read_u32 m (data + off + 4) = Some size) as R4.
  { rewrite <- Z.add_assoc, <- Hsize. apply fld32; [done|lia..]. }
  destruct (Z.ltb_spec idx count) as [Hi|Hi].
  2: { assert (of_type MB2_MODULE (t :: rest) = []) as Hnil.
       { destruct (of_type MB2_MODULE (t :: rest)); [done|]. rewrite zlen_cons in Hcnt.
         pose proof (zlen_nonneg l). lia. }
       rewrite Hnil in *. exists m. split_and!; [done|exact Hat|apply frame_refl]. }
  rewrite R0, R4. cbn [mbind option_bind]. rewrite align8_up_eq by (unfold SIZE_MAX; lia).
  unfold of_type in *. cbn [List.filter] in *. change (g_type t) with (fld bs off 4) in *.
  destruct (Z.eqb_spec (fld bs off 4) MB2_MODULE) as [Em|Nm].
  - destruct (module_writes t m (tag + 32) written (176 * length (of_type MB2_MODULE rest)) N
      (tag + 40 + idx * 176)) as (m1 & Hw1 & Hat1 & Hf1); try done.
    + by apply (to_module bs t Ht).
    + cbn [t g_off g_size]. lia.
    + cbn [length] in Hat. unfold of_type.
      match goal with |- context [length ?l] => set (n := length l) in * end.
      by replace (176 * S n)%nat with (176 + 176 * n)%nat in Hat by lia.
    + rewrite zlen_cons in Hcnt. unfold of_type, zlen in *. lia.
    + lia.
    + cbn [t g_off g_size] in Hw1. rewrite Hw1. cbn [mbind option_bind].
      destruct (IH (idx + 1) (written ++ module_bytes bs t) m1 fuel) as (m2 & Hl & Hb & Hf2);
        try done; try lia.
      { eapply mb2_src; [|exact Hs]. eapply frame_weaken; [exact Hf1|lia|lia]. }
      { destruct Hw as [w ->]. eexists. by rewrite <- app_assoc. }
      { autorewrite with zlen. rewrite zlen_module_bytes. lia. }
      { rewrite zlen_cons in Hcnt. unfold of_type, zlen in *. lia. }
      exists m2. split_and!; [exact Hl| |by eapply frame_trans].
      cbn [map concat]. by rewrite app_assoc.
  - destruct (IH idx written m fuel) as (m2 & Hl & Hb & Hf2); try done; try lia.
    exists m2. split_and!; [exact Hl|exact Hb|exact Hf2].
Qed.

(** ** The parts of the block *)

Lemma seen_offset off : 0 <= off < 2 ^ 32 + 8 -> seen off = true.
Proof. intros. unfold seen. iconsts. apply negb_true_iff, Z.eqb_neq. lia. Qed.

Lemma unseen_offset : seen BBP_IMPORT_SIZE_MAX = false.
Proof. unfold seen. by rewrite Z.eqb_refl. Qed.

Context (ts : list mb2_tag) (sc : mb2_scan).
Context (Hchain : mb2_chain bs total 8 ts) (Hsc : scan_result bs data total ts sc).

(** A remembered tag is acceptable and lies inside the block. *)
Lemma scanned_tag k t : of_type k ts = [t] \/ In t (of_type k ts) ->
  mb2_tag_ok bs t /\ g_type t = k /\ 0 <= g_off t /\ 8 <= g_size t /\ g_off t + g_size t <= total.
Proof.
  intros Hin. assert (In t (of_type k ts)) as Hi by (destruct Hin as [->|]; [by left|done]).
  apply filter_In in Hi as [Hi Hk]. apply Z.eqb_eq in Hk. pose proof (sr_ok _ _ _ _ _ Hsc) as Hok. pose proof (sr_inside _ _ _ _ _ Hsc) as Hins.
  rewrite List.Forall_forall in Hok, Hins. specialize (Hok t Hi). destruct (Hins t Hi) as [? ?].
  split_and!; try done. by destruct Hok.
Qed.

(** The RSDP that counts comes from an acceptable tag. *)
Lemma acpi_tag_ok is_new t :
  In (is_new, t) (acpi_tags ts) ->
  rsdp_ok bs is_new t /\ 0 <= g_off t /\ g_off t + g_size t <= total.
Proof.
  unfold acpi_tags. intros Hin. destruct (of_type MB2_ACPI_NEW ts) as [|u l] eqn:En.
  - apply in_map_iff in Hin as (u & [= <- <-] & Hu).
    destruct (scanned_tag MB2_ACPI_OLD u (or_intror Hu)) as (Hok & Hty & ? & ? & ?).
    split; [by apply (to_old bs u Hok)|lia].
  - destruct Hin as [[= <- <-]|[]].
    destruct (scanned_tag MB2_ACPI_NEW u) as (Hok & Hty & ? & ? & ?); [right; rewrite En; by left|].
    split; [by apply (to_new bs u Hok)|lia].
Qed.

Lemma mmap_part_emits size :
  (seen (sc_mmap_offset sc) = true -> size = 40 + 32 * sc_mmap_count sc) ->
  emits A C src (emit_when (seen (sc_mmap_offset sc)) (emit_memory_map sc size))
    (map (mmap_item bs) (of_type MB2_MMAP ts)).
Proof.
  intros Hsize. pose proof (sr_mmap _ _ _ _ _ Hsc) as Hslot. pose proof (sr_block _ _ _ _ _ Hsc) as [Hdt _].
  unfold kept_slot in Hslot. destruct (of_type MB2_MMAP ts) as [|t [|]] eqn:Et; [| |done].
  { rewrite Hslot, unseen_offset. apply emits_nothing. }
  unfold mmap_slot in Hslot. injection Hslot as Eo Ec Es.
  destruct (scanned_tag MB2_MMAP t (or_introl Et)) as (Hok & Hty & Ho & H8 & Hle).
  pose proof (to_mmap bs t Hok Hty) as Hmm. pose proof Hmm as [? _ _ Hwhole Hpos _].
  assert (seen (sc_mmap_offset sc) = true) as Hseen by (apply seen_offset; lia).
  rewrite (Hsize Hseen), Hseen. clear Hsize. cbn [emit_when map].
  assert (zlen (mmap_entries bs t) = mmap_count bs t) as Hlen by (apply zlen_mmap_entries; lia).
  assert (in_word 32 (mmap_count bs t)) as Hcw by (unfold in_word; nia).
  unfold emit_memory_map, mmap_item. rewrite Hdt, Eo, Ec, Es.
  replace (40 + 32 * mmap_count bs t) with (32 + (8 + 32 * mmap_count bs t)) by lia.
  apply emits_tag; [apply mb2_src|lia|done| |].
  { unfold memory_map_body. autorewrite with zlen.
    rewrite (zlen_concat_map mb2_entry_bytes 32) by done. lia. }
  intros m tag Hs Ha HN Hat. rewrite wrap_small by done. pose proof mb2_src as Hsrc.
  replace (Z.to_nat (8 + 32 * mmap_count bs t)) with (8 + 32 * length (mmap_entries bs t))%nat in Hat
    by (unfold zlen in Hlen; lia).
  rewrite <- (app_nil_l (replicate _ x00)) in Hat. put 0%nat. put 0%nat.
  replace (Z.to_nat (mmap_count bs t)) with (length (mmap_entries bs t)) by (unfold zlen in Hlen; lia).
  replace (8 + 32 * length (mmap_entries bs t) - 0 - 4 - 0 - 4)%nat
    with (32 * length (mmap_entries bs t))%nat in Hat by lia.
  destruct (mb2_memory_map_loop_writes t tag (mmap_entries bs t) 0 _ _ Hmm Ho Hle ltac:(lia) ltac:(lia) Hs Hat)
    as (m' & Hl & Hb & Hf).
  { eexists. cbn [replicate]. rewrite !app_nil_l. reflexivity. }
  { done. }
  { autorewrite with zlen. lia. }
  { lia. }
  exists m'. split_and!; [exact Hl| |exact Hf]. unfold memory_map_body.
  replace (zlen (map mb2_entry_bytes (mmap_entries bs t))) with (mmap_count bs t)
    by (unfold zlen in *; by rewrite length_map).
  by rewrite <- !app_assoc in Hb.
Qed.

Lemma cmdline_part_emits (Hex : exists m, src m) :
  emits A C src (emit_when (seen (sc_cmdline_offset sc)) (emit_cmdline sc))
    (map (cmdline_item bs) (of_type MB2_CMDLINE ts)).
Proof.
  pose proof (sr_cmdline _ _ _ _ _ Hsc) as Hslot. pose proof (sr_block _ _ _ _ _ Hsc) as [Hdt _].
  unfold kept_slot in Hslot. destruct (of_type MB2_CMDLINE ts) as [|t [|]] eqn:Et; [| |done].
  { rewrite Hslot, unseen_offset. apply emits_nothing. }
  injection Hslot as Eo Eb. destruct Hex as [m0 Hm0].
  destruct (scanned_tag MB2_CMDLINE t (or_introl Et)) as (Hok & Hty & Ho & H8 & Hle).
  destruct (to_cmdline bs t Hok Hty) as (text & _ & Htext).
  rewrite seen_offset by lia. cbn [emit_when map]. unfold emit_cmdline, cmdline_item. rewrite Hdt, Eo, Eb.
  pose proof (zlen_sub bs (g_off t + 8) (g_size t - 8) ltac:(lia) ltac:(lia) ltac:(lia)) as Hz.
  assert (forall m, src m -> bytes_at m (data + (g_off t + 8)) (sub bs (g_off t + 8) (g_size t - 8))) as Hrd.
  { intros m Hm. apply sub_at; [by apply (br_mbi _ _ _ _ _ _ Hm)|lia]. }
  set (line := sub bs (g_off t + 8) (g_size t - 8)) in *. clearbody line. rewrite <- Hz.
  apply command_line_emits; [apply mb2_src|done|lia|lia| |by exists text].
  - pose proof (br_mbi_apart _ _ _ _ _ _ Hm0) as Hd. intros x Hx1 Hx2. apply (Hd x); lia.
Qed.

Lemma modules_part_emits size :
  (sc_module_count sc <> 0 -> size = 40 + 176 * sc_module_count sc) ->
  emits A C src (emit_when (negb (sc_module_count sc =? 0)) (emit_modules sc size))
    (modules_items bs (of_type MB2_MODULE ts)).
Proof.
  intros Hsize. pose proof (sr_modules _ _ _ _ _ Hsc) as Hcnt. pose proof (sr_block _ _ _ _ _ Hsc) as [Hdt Htt].
  pose proof (sr_count _ _ _ _ _ Hsc) as Hmax. rewrite Hcnt in *.
  destruct (of_type MB2_MODULE ts) as [|t l] eqn:Et; [apply emits_nothing|]. rewrite <- Et in *.
  assert (0 < zlen (of_type MB2_MODULE ts)) as Hpos
    by (rewrite Et, zlen_cons; pose proof (zlen_nonneg l); lia).
  rewrite (proj2 (Z.eqb_neq _ 0)) by lia. cbn [negb emit_when].
  rewrite Hsize by lia. clear Hsize. unfold emit_modules. rewrite Hdt, Htt, Hcnt.
  assert (modules_items bs (of_type MB2_MODULE ts) =
    [Item BBP_TAG_MODULES [] (8 + 176 * zlen (of_type MB2_MODULE ts))
       (fun _ => modules_body bs (of_type MB2_MODULE ts))]) as -> by (by rewrite Et).
  set (mods := of_type MB2_MODULE ts) in *. assert (in_word 32 (zlen mods)) as Hcw by (unfold in_word; iconsts; lia).
  replace (40 + 176 * zlen mods) with (32 + (8 + 176 * zlen mods)) by lia.
  apply emits_tag; [apply mb2_src|lia|done| |].
  { unfold modules_body. autorewrite with zlen.
    rewrite (zlen_concat_map _ 176) by apply zlen_module_bytes. lia. }
  intros m tag Hs Ha HN Hat. rewrite wrap_small by done. pose proof mb2_src as Hsrc.
  replace (Z.to_nat (8 + 176 * zlen mods)) with (8 + 176 * length mods)%nat in Hat by (unfold zlen; lia).
  rewrite <- (app_nil_l (replicate _ x00)) in Hat. put 0%nat.
  eapply (advance _ _ _ _ 4 (176 * length mods)) in Hat; [|lia].
  destruct (modules_loop_writes tag (8 + 176 * zlen mods) (zlen mods) 8 ts Hchain 0 _ _
    (Z.to_nat total) ltac:(lia) ltac:(lia) (sr_ok _ _ _ _ _ Hsc) ltac:(lia) ltac:(lia) Hs Hcw Hat)
    as (m' & Hl & Hb & Hf).
  { eexists. cbn [replicate]. rewrite app_nil_l, <- app_assoc. reflexivity. }
  { autorewrite with zlen. lia. }
  { by rewrite Z.add_0_l. }
  { done. }
  exists m'. split_and!; [exact Hl| |exact Hf]. unfold modules_body.
  by rewrite <- !app_assoc in Hb.
Qed.

Lemma framebuffer_part_emits :
  emits A C src (emit_when (seen (sc_framebuffer_offset sc)) (emit_framebuffer (sc_framebuffer sc)))
    (map (fb_item bs) (of_type MB2_FRAMEBUFFER ts)).
Proof.
  pose proof (sr_framebuffer _ _ _ _ _ Hsc) as Hslot.
  unfold kept_slot in Hslot. destruct (of_type MB2_FRAMEBUFFER ts) as [|t [|]] eqn:Et; [| |done].
  { rewrite Hslot, unseen_offset. apply emits_nothing. }
  injection Hslot as Eo Ef.
  destruct (scanned_tag MB2_FRAMEBUFFER t (or_introl Et)) as (Hok & Hty & Ho & H8 & Hle).
  destruct (to_framebuffer bs t Hok Hty) as [_ _ _ (bpp & _ & ? & ? & _)].
  rewrite seen_offset by lia. cbn [emit_when map]. rewrite Ef. unfold emit_framebuffer, fb_item.
  apply (emits_tag A C src mb2_src BBP_TAG_FRAMEBUFFER 88); [done..|].
  apply mb2_framebuffer_writes; [unfold in_word; lia..|].
  unfold framebuffer_of_tag. by destruct (default _ _).
Qed.

Lemma acpi_part_emits (Hex : exists m, src m) :
  emits A C src (emit_when (seen (sc_acpi_offset sc)) (emit_acpi sc))
    (map (acpi_item bs) (acpi_tags ts)).
Proof.
  pose proof (sr_acpi _ _ _ _ _ Hsc) as Hslot. pose proof (sr_block _ _ _ _ _ Hsc) as [Hdt _].
  destruct Hex as [m0 Hm0]. pose proof acpi_tag_ok as Htag.
  destruct (acpi_tags ts) as [|[is_new t] [|]]; [| |by destruct p].
  { rewrite Hslot, unseen_offset. apply emits_nothing. }
  destruct (Htag is_new t (or_introl eq_refl)) as (Hr & Ho & Hle).
  unfold acpi_fields in Hslot. injection Hslot as Eo Eb Ex Eoem Ev.
  assert (20 <= g_size t - 8) as H20 by (destruct Hr as [_ _ He]; destruct is_new; lia).
  rewrite seen_offset by lia. cbn [emit_when map]. unfold emit_acpi, acpi_item. cbn [fst snd].
  rewrite Hdt, Eo, Eb, Ex, Eoem, Ev. cbn [acpi_fields ra_xsdt ra_oem ra_version].
  pose proof (zlen_sub bs (g_off t + 8) (g_size t - 8) ltac:(lia) ltac:(lia) ltac:(lia)) as Hz.
  fold (rsdp_of bs t) in Hz.
  assert (forall m, src m -> bytes_at m (data + (g_off t + 8)) (rsdp_of bs t)) as Hrd.
  { intros m Hm. apply sub_at; [by apply (br_mbi _ _ _ _ _ _ Hm)|lia]. }
  set (rsdp := rsdp_of bs t) in *. clearbody rsdp. rewrite <- Hz.
  apply (emits_blob_tag A C src mb2_src (data + (g_off t + 8)) rsdp BBP_TAG_ACPI 24); try done; try lia.
  - intros phys. apply mb2_acpi_writes.
  - pose proof (br_mbi_apart _ _ _ _ _ _ Hm0) as Hd. intros x Hx1 Hx2. apply (Hd x); lia.
Qed.

(** ** All parts *)

Lemma mb2_emits_on flag E it :
  (has (b_present s) flag = true -> emits A C src (E s) [it]) ->
  emits A C src (reading snapshot (fun s => emit_when (has (b_present s) flag) (E s)))
    (on (b_present s) flag it).
Proof. intros H. apply mb2_emits_reading. unfold on. by apply emits_when. Qed.

Lemma mmap_items_wf : Forall item_wf (map (mmap_item bs) (of_type MB2_MMAP ts)).
Proof.
  apply List.Forall_forall. intros it Hin. apply in_map_iff in Hin as (t & <- & Hin).
  destruct (scanned_tag MB2_MMAP t (or_intror Hin)) as (Hok & Hty & _).
  destruct (to_mmap bs t Hok Hty) as [? _ _ _ ? _]. split; [done|cbn; lia|].
  intros phys. cbn. unfold memory_map_body. autorewrite with zlen.
  rewrite (zlen_concat_map mb2_entry_bytes 32), zlen_mmap_entries by (done || lia). lia.
Qed.

Lemma modules_items_wf : Forall item_wf (modules_items bs (of_type MB2_MODULE ts)).
Proof.
  unfold modules_items. destruct (of_type MB2_MODULE ts) as [|t l] eqn:E; [constructor|].
  rewrite <- E. constructor; [|constructor]. pose proof (zlen_nonneg (of_type MB2_MODULE ts)).
  split; [done|cbn; lia|]. intros phys. cbn. unfold modules_body. autorewrite with zlen.
  rewrite (zlen_concat_map _ 176) by apply zlen_module_bytes. lia.
Qed.

Lemma plain_items_wf {X} (f : X -> item) l : (forall x, item_wf (f x)) -> Forall item_wf (map f l).
Proof.
  intros H. apply List.Forall_forall. intros it Hin. by apply in_map_iff in Hin as (x & <- & _).
Qed.

Lemma mb2_items_wf : Forall item_wf (mb2_items bs s ts).
Proof.
  unfold mb2_items. rewrite !Forall_app.
  split_and!; (apply on_wf; by split) || apply mmap_items_wf || apply modules_items_wf ||
    (by apply plain_items_wf).
Qed.

Lemma mb2_emits mm mods (Hex : exists m, src m) :
  (seen (sc_mmap_offset sc) = true -> mm = 40 + 32 * sc_mmap_count sc) ->
  (sc_module_count sc <> 0 -> mods = 40 + 176 * sc_module_count sc) ->
  emits A C src (mb2_emit snapshot sc mm mods) (mb2_items bs s ts).
Proof.
  intros Hmm Hmods. pose proof mb2_src as Hsrc. unfold mb2_emit, mb2_items. cbn zeta.
  apply emits_seq; [done|apply on_wf; by split| |].
  { apply mb2_emits_on. intros _. apply (emits_tag A C src Hsrc BBP_TAG_HHDM 8); [done..|].
    by apply hhdm_writes. }
  apply emits_seq; [done|apply mmap_items_wf|by apply mmap_part_emits|].
  apply emits_seq; [done|apply on_wf; by split| |].
  { apply mb2_emits_on. intros _. apply (emits_tag A C src Hsrc BBP_TAG_KERNEL_ADDRESS 16); [done..|].
    apply mb2_kernel_address_writes. }
  apply emits_seq; [done|by apply plain_items_wf|by apply cmdline_part_emits|].
  apply emits_seq; [done|apply modules_items_wf|by apply modules_part_emits|].
  apply emits_seq; [done|by apply plain_items_wf|apply framebuffer_part_emits|].
  by apply acpi_part_emits.
Qed.

(** A part is absent and unseen, or present and seen. *)
Definition part {X} (c : bool) (l : list X) (P : X -> Prop) : Prop :=
  (l = [] /\ c = false) \/ (exists t, l = [t] /\ c = true /\ P t).

Lemma part_plan_tag {X} b c (l : list X) f bytes plan plan' :
  part c l (fun t => exists id n body, f t = Item id [] n body /\ bytes = 32 + n) ->
  plan_if c (fun plan => bbp_import_plan_tag b plan bytes) plan = (BBP_IMPORT_OK, plan') ->
  plan_items b plan (map f l) = (BBP_IMPORT_OK, plan').
Proof.
  intros [[-> ->]|(t & -> & -> & id & n & body & Hf & Hb)] H; [done|]. cbn [map]. rewrite Hf.
  by apply (plan_if_tag b true id n body bytes plan plan').
Qed.

Lemma part_plan_blob {X} b c (l : list X) f len bytes plan plan1 plan' :
  part c l (fun t => exists id line n body,
    f t = Item id line n body /\ zlen line = len /\ len <> 0 /\ bytes = 32 + n) ->
  plan_if c (fun plan => bbp_import_plan_blob b plan len) plan = (BBP_IMPORT_OK, plan1) ->
  plan_if c (fun plan => bbp_import_plan_tag b plan bytes) plan1 = (BBP_IMPORT_OK, plan') ->
  plan_items b plan (map f l) = (BBP_IMPORT_OK, plan').
Proof.
  intros [[-> ->]|(t & -> & -> & id & line & n & body & Hf & Hl & Hne & Hb)] H1 H2;
    [cbn in *; by simplify_eq|]. cbn [map]. rewrite Hf.
  eapply (plan_if_blob_tag b true id line); [|exact H1|exact Hb|exact H2]. intros _. by rewrite Hl.
Qed.

Lemma mmap_part : part (seen (sc_mmap_offset sc)) (of_type MB2_MMAP ts)
  (fun t => sc_mmap_count sc = mmap_count bs t /\ 0 < mmap_count bs t).
Proof.
  pose proof (sr_mmap _ _ _ _ _ Hsc) as Hslot. unfold kept_slot in Hslot.
  destruct (of_type MB2_MMAP ts) as [|t [|]] eqn:Et; [left| right|done].
  { rewrite Hslot. split; [done|apply unseen_offset]. }
  injection Hslot as Eo Ec Es. exists t.
  destruct (scanned_tag MB2_MMAP t (or_introl Et)) as (Hok & Hty & ? & ? & ?).
  split_and!; try done; [apply seen_offset; lia|]. apply (mo_some bs t). by apply (to_mmap bs t Hok).
Qed.

Lemma cmdline_part : part (seen (sc_cmdline_offset sc)) (of_type MB2_CMDLINE ts)
  (fun t => sc_cmdline_bytes sc = zlen (sub bs (g_off t + 8) (g_size t - 8)) /\ sc_cmdline_bytes sc <> 0).
Proof.
  pose proof (sr_cmdline _ _ _ _ _ Hsc) as Hslot. unfold kept_slot in Hslot.
  destruct (of_type MB2_CMDLINE ts) as [|t [|]] eqn:Et; [left| right|done].
  { rewrite Hslot. split; [done|apply unseen_offset]. }
  injection Hslot as Eo Eb. exists t.
  destruct (scanned_tag MB2_CMDLINE t (or_introl Et)) as (Hok & Hty & ? & ? & ?).
  destruct (to_cmdline bs t Hok Hty) as (text & _ & Htext).
  pose proof (zlen_sub bs (g_off t + 8) (g_size t - 8) ltac:(lia) ltac:(lia) ltac:(lia)) as Hz.
  split_and!; [done|apply seen_offset; lia|lia|]. rewrite Htext in Hz. autorewrite with zlen in Hz.
  pose proof (zlen_nonneg text). lia.
Qed.

Lemma framebuffer_part : part (seen (sc_framebuffer_offset sc)) (of_type MB2_FRAMEBUFFER ts) (fun _ => True).
Proof.
  pose proof (sr_framebuffer _ _ _ _ _ Hsc) as Hslot. unfold kept_slot in Hslot.
  destruct (of_type MB2_FRAMEBUFFER ts) as [|t [|]] eqn:Et; [left| right|done].
  { rewrite Hslot. split; [done|apply unseen_offset]. }
  injection Hslot as Eo _. exists t.
  destruct (scanned_tag MB2_FRAMEBUFFER t (or_introl Et)) as (_ & _ & ? & ? & ?).
  split_and!; [done|apply seen_offset; lia|done].
Qed.

Lemma acpi_part : part (seen (sc_acpi_offset sc)) (acpi_tags ts)
  (fun nt => sc_acpi_bytes sc = zlen (rsdp_of bs (snd nt)) /\ sc_acpi_bytes sc <> 0).
Proof.
  pose proof (sr_acpi _ _ _ _ _ Hsc) as Hslot. pose proof acpi_tag_ok as Htag.
  destruct (acpi_tags ts) as [|[is_new t] [|]]; [left| right|by destruct p].
  { rewrite Hslot. split; [done|apply unseen_offset]. }
  destruct (Htag is_new t (or_introl eq_refl)) as (Hr & ? & ?).
  unfold acpi_fields in Hslot. injection Hslot as Eo Eb _ _ _.
  assert (20 <= g_size t - 8) as H20 by (destruct Hr as [_ _ He]; destruct is_new; lia).
  exists (is_new, t). cbn [snd].
  pose proof (zlen_sub bs (g_off t + 8) (g_size t - 8) ltac:(lia) ltac:(lia) ltac:(lia)) as Hz.
  fold (rsdp_of bs t) in Hz. split_and!; [done|apply seen_offset; lia|lia|lia].
Qed.

Lemma part_mono {X} c (l : list X) (P Q : X -> Prop) :
  (c = true -> forall t, P t -> Q t) -> part c l P -> part c l Q.
Proof. intros H [?|(t & -> & -> & Ht)]; [by left|right]. exists t. auto. Qed.

Lemma modules_plan b mods plan plan' :
  (sc_module_count sc <> 0 -> mods = 40 + 176 * sc_module_count sc) ->
  plan_if (negb (sc_module_count sc =? 0)) (fun plan => bbp_import_plan_tag b plan mods) plan
    = (BBP_IMPORT_OK, plan') ->
  plan_items b plan (modules_items bs (of_type MB2_MODULE ts)) = (BBP_IMPORT_OK, plan').
Proof.
  rewrite (sr_modules _ _ _ _ _ Hsc). intros Hm H. unfold modules_items.
  destruct (of_type MB2_MODULE ts) as [|t l] eqn:E; [done|]. rewrite <- E in *.
  assert (zlen (of_type MB2_MODULE ts) <> 0) as Hne
    by (rewrite E, zlen_cons; pose proof (zlen_nonneg l); lia).
  rewrite (proj2 (Z.eqb_neq _ 0) Hne) in H.
  eapply (plan_if_tag b true); [|exact H]. intros _. rewrite (Hm Hne). lia.
Qed.

(** The plan of the importer is the plan of the items. *)
Lemma mb2_plan_items b mm mods plan plan' :
  (seen (sc_mmap_offset sc) = true -> mm = 40 + 32 * sc_mmap_count sc) ->
  (sc_module_count sc <> 0 -> mods = 40 + 176 * sc_module_count sc) ->
  mb2_plan b s sc mm mods plan = (BBP_IMPORT_OK, plan') ->
  plan_items b plan (mb2_items bs s ts) = (BBP_IMPORT_OK, plan').
Proof.
  intros Hmm Hmods H. unfold mb2_plan in H. cbn zeta in H. unfold mb2_items, on.
  apply plan_then_ok in H as (p1 & H1 & H). apply plan_then_ok in H as (p2 & H2 & H).
  apply plan_then_ok in H as (p3 & H3 & H). apply plan_then_ok in H as (p4 & H4 & H).
  apply plan_then_ok in H as (p5 & H5 & H). apply plan_then_ok in H as (p6 & H6 & H).
  apply plan_then_ok in H as (p7 & H7 & H). apply plan_then_ok in H as (p8 & H8 & H9).
  eapply plan_items_seq; [by eapply plan_if_tag; [|exact H1]|].
  eapply plan_items_seq; [eapply part_plan_tag; [|exact H2]|].
  { eapply part_mono; [|apply mmap_part]. intros Hs t [Ht _]. eexists _, _, _. split; [reflexivity|].
    rewrite (Hmm Hs), Ht. lia. }
  eapply plan_items_seq; [by eapply plan_if_tag; [|exact H3]|].
  eapply (plan_items_seq _ _ _ _ p5); [eapply part_plan_blob; [|exact H4|exact H5]|].
  { eapply part_mono; [|apply cmdline_part]. intros _ t [Hl Hne]. eexists _, _, _, _.
    split_and!; [reflexivity|done|done|done]. }
  eapply plan_items_seq; [by eapply modules_plan|].
  eapply plan_items_seq; [eapply part_plan_tag; [|exact H7]|].
  { eapply part_mono; [|apply framebuffer_part]. intros _ t _. eexists _, _, _. by split. }
  eapply part_plan_blob; [|exact H8|exact H9].
  eapply part_mono; [|apply acpi_part]. intros _ t [Hl Hne]. eexists _, _, _, _.
  split_and!; [reflexivity|done|done|done].
Qed.
End Emission.

(** ** The whole importer *)

Record mb2_source (m : mem) (snapshot : Z) (s : bbp_multiboot2_snapshot) (bs : list byte) : Prop := {
  bs_address : 0 < snapshot;
  bs_snapshot : multiboot2_snapshot_at m snapshot = Some s;
  bs_mbi : b_mbi s <> 0 -> zlen bs = b_mapped_bytes s /\ bytes_at m (b_mbi s) bs;
}.

(** An acceptable block: an 8-aligned size that fits the mapping, tags that are
    acceptable and framed up to a closing end tag, singletons that occur once. *)
Record mb2_valid (s : bbp_multiboot2_snapshot) (bs : list byte) (ts : list mb2_tag) : Prop := {
  bv_size : fld bs 0 4 mod 8 = 0 /\ 16 <= fld bs 0 4 <= zlen bs;
  bv_reserved : fld bs 4 4 = 0;
  bv_chain : mb2_chain bs (fld bs 0 4) 8 ts;
  bv_tags : Forall (mb2_tag_ok bs) ts;
  bv_single : forall k, In k mb2_singletons -> (length (of_type k ts) <= 1)%nat;
  bv_kernel : has (b_present s) BBP_IMPORT_HAS_KERNEL_ADDRESS = true ->
    b_kernel_physical_base s < 2 ^ 48 /\ b_kernel_virtual_base s <> 0;
}.

Lemma single_ids {X} (f : X -> item) id l :
  (forall x, i_id (f x) = id) -> (length l <= 1)%nat -> sublist (map i_id (map f l)) [id].
Proof.
  intros Hf Hl. destruct l as [|x [|]]; cbn in *; [apply sublist_nil_l|by rewrite Hf|lia].
Qed.

Lemma mb2_items_ids s bs ts : mb2_valid s bs ts -> NoDup (map i_id (mb2_items bs s ts)).
Proof.
  intros Hv. pose proof (bv_single _ _ _ Hv) as Hs.
  apply (sublist_NoDup _ ([BBP_TAG_HHDM] ++ [BBP_TAG_MEMORY_MAP] ++ [BBP_TAG_KERNEL_ADDRESS] ++
    [BBP_TAG_CMDLINE] ++ [BBP_TAG_MODULES] ++ [BBP_TAG_FRAMEBUFFER] ++ [BBP_TAG_ACPI])).
  { by apply (bool_decide_unpack _); vm_compute. }
  unfold mb2_items. rewrite !map_app. repeat apply sublist_app.
  - apply on_ids.
  - apply single_ids; [done|]. apply Hs. unfold mb2_singletons. cbn. tauto.
  - apply on_ids.
  - apply single_ids; [done|]. apply Hs. unfold mb2_singletons. cbn. tauto.
  - unfold modules_items. destruct (of_type MB2_MODULE ts); cbn; [apply sublist_nil_l|done].
  - apply single_ids; [done|]. apply Hs. unfold mb2_singletons. cbn. tauto.
  - apply single_ids; [done|]. unfold acpi_tags. destruct (of_type MB2_ACPI_NEW ts); [|cbn; lia].
    rewrite length_map. apply Hs. unfold mb2_singletons. cbn. tauto.
Qed.

Lemma multiboot2_snapshot_typed m p s :
  multiboot2_snapshot_at m p = Some s ->
  in_word 64 (b_mbi s) /\ in_word 64 (b_mapped_bytes s) /\ in_word 64 (b_kernel_physical_base s).
Proof.
  unfold multiboot2_snapshot_at. intros H. apply bind_Some in H as (bs & Hbs & [= <-]).
  apply load_bytes_length in Hbs. cbn. split_and!; apply (raw_word bs _ 8); lia.
Qed.

Lemma tag_size_if_ok c fixed count element size :
  0 <= fixed <= 48 -> 0 <= count -> 0 < element <= 176 ->
  tag_size_if c fixed count element = (BBP_IMPORT_OK, size) ->
  c = true -> size = fixed + element * count.
Proof.
  intros Hf Hc He H ->. unfold tag_size_if in H.
  destruct (bbp_import_array_tag_size _ _ _ _) as [st sz] eqn:E. injection H as -> <-.
  apply array_tag_size_ok in E as (-> & _); [|lia|lia]. cbn [default from_option id]. lia.
Qed.

(** The verdict of everything before the first builder call. *)
Definition mb2_verdict (m : mem) (b : bbp_builder) (snapshot : Z) (s : bbp_multiboot2_snapshot)
    (bs : list byte) (r : bbp_import_status + mb2_scan * Z * Z) : Prop :=
  match r with
  | inl st => st <> BBP_IMPORT_OK
  | inr (sc, mm, mods) => exists ts,
      mb2_valid s bs ts /\ mb2_ready m (arena b) (capacity b) snapshot s bs /\
      0 < b_mbi s /\ fld bs 0 4 < 2 ^ 32 /\ scan_result bs (b_mbi s) (fld bs 0 4) ts sc /\
      plannable b /\
      (seen (sc_mmap_offset sc) = true -> mm = 40 + 32 * sc_mmap_count sc) /\
      (sc_module_count sc <> 0 -> mods = 40 + 176 * sc_module_count sc) /\
      exists plan plan', agrees plan b /\ mb2_plan b s sc mm mods plan = (BBP_IMPORT_OK, plan')
  end.

#[local] Ltac stop := eexists; split; [reflexivity|]; cbn; congruence.
#[local] Ltac guard_ok :=
  case_bool_decide; cbn [negb]; [subst|stop].

Lemma mb2_validate_spec m b ts0 snapshot s bs :
  builder_rep m b ts0 -> mb2_source m snapshot s bs ->
  exists r, mb2_validate m b snapshot = Some r /\ mb2_verdict m b snapshot s bs r.
Proof.
  intros Hrep [Hpos Hsn Hmbi]. unfold mb2_validate.
  destruct (bbp_import_ranges_overlap snapshot _ _ _) eqn:Eo; [stop|].
  destruct (arena_nonneg m b ts0 Hrep).
  apply ranges_apart in Eo as [Hap _]; [|unfold SIZEOF_MULTIBOOT2_SNAPSHOT; lia..].
  rewrite Hsn. cbn [mbind option_bind].
  destruct (multiboot2_snapshot_typed _ _ _ Hsn) as ([? _] & [? _] & [Hkp _]).
  destruct (negb _); [stop|].
  destruct (plan_begin_total m b ts0 (ImportPlan 0 0) Hrep) as (st & plan & Hpb).
  rewrite Hpb. cbn [mbind option_bind default from_option id]. guard_ok.
  apply plan_begin_ok in Hpb as [Hpl Hag].
  destruct (bbp_import_ranges_overlap (b_mbi s) _ _ _) eqn:Em; [stop|].
  apply ranges_apart in Em as [Hdis _]; [|lia..].
  destruct (decide (b_mbi s = 0)) as [Hz|Hnz].
  { unfold scan_mbi. rewrite Hz. cbn [Z.eqb orb mbind option_bind]. stop. }
  destruct (Hmbi Hnz) as [Hlen Hat]. rewrite <- Hlen in Hdis.
  destruct (scan_mbi_spec m s bs Hnz ltac:(lia) Hat Hlen) as (r & -> & Hr). cbn [mbind option_bind].
  destruct r as [st|sc]; [eexists; by split|].
  destruct Hr as (ts & Hmod & Hsz & Hlt & Hres & Hch & Hsr).
  destruct (check_kernel_address s) eqn:Hka;
    (rewrite bool_decide_eq_true_2 by done) || (rewrite bool_decide_eq_false_2 by done; stop).
  destruct (tag_size_if (seen _) _ _ _) as [st mm] eqn:Emm. guard_ok.
  destruct (tag_size_if (negb _) _ _ _) as [st mods] eqn:Emods. guard_ok.
  destruct (mb2_plan b s sc mm mods plan) as [st plan'] eqn:Hplan. guard_ok.
  eexists. split; [reflexivity|]. exists ts.
  assert (seen (sc_mmap_offset sc) = true -> mm = 40 + 32 * sc_mmap_count sc) as Hmm.
  { destruct (mmap_part s bs (fld bs 0 4) Hlt ts sc Hsr) as [[_ ->]|(t & _ & _ & Hc & ?)]; [done|].
    refine (tag_size_if_ok _ _ _ _ _ _ _ _ Emm); lia. }
  assert (sc_module_count sc <> 0 -> mods = 40 + 176 * sc_module_count sc) as Hmods.
  { intros Hne. pose proof (sr_modules _ _ _ _ _ Hsr) as Hm. pose proof (zlen_nonneg (of_type MB2_MODULE ts)).
    refine (tag_size_if_ok _ _ _ _ _ _ _ _ Emods _); [lia..|]. by rewrite (proj2 (Z.eqb_neq _ 0) Hne). }
  split_and!; try done; [|lia|by exists plan, plan'].
  - split; try done; [by destruct Hsr|apply Hsr|].
    intros Hp. by apply (kernel_guard_ok _ _ _ Hkp Hka).
Qed.

Lemma multiboot2_import_spec (m : mem) (b : bbp_builder) (ts0 : list tagrec) (snapshot : Z)
    (s : bbp_multiboot2_snapshot) (bs : list byte) :
  builder_rep m b ts0 -> mb2_source m snapshot s bs ->
  exists m' b' st,
    bbp_import_multiboot2 m (Some b) snapshot = Some (m', Some b', st) /\
    (st <> BBP_IMPORT_OK -> m' = m /\ b' = b) /\
    (st = BBP_IMPORT_OK ->
       exists ts, mb2_valid s bs ts /\ Forall item_wf (mb2_items bs s ts) /\
         imported m m' b b' ts0 (mb2_items bs s ts)).
Proof.
  intros Hrep Hsrc. pose proof (bs_address _ _ _ _ Hsrc). unfold bbp_import_multiboot2.
  rewrite (proj2 (Z.eqb_neq snapshot 0)) by lia.
  destruct (mb2_validate_spec _ _ _ _ _ _ Hrep Hsrc) as (r & -> & Hr).
  cbn [mbind option_bind]. destruct r as [st|[[sc mm] mods]]; cbn [mb2_verdict] in Hr.
  { exists m, b, st. split_and!; [done|done|by intros]. }
  destruct Hr as (ts & Hv & Hready & Hd & Hlt & Hsr & Hpl & Hmm & Hmods & plan & plan' & Hag & Hplan).
  pose proof (bv_size _ _ _ Hv) as [_ [_ Htot]]. pose proof (bv_chain _ _ _ Hv) as Hch.
  destruct (mb2_emits (arena b) (capacity b) snapshot s bs (fld bs 0 4) Htot Hlt Hd ts sc Hch Hsr mm mods)
    with (m := m) (b := b) (ts := ts0) (plan := plan) (plan' := plan')
    as (m' & b' & new & E & Hrep' & Hpl' & Har & Hag' & Hu & Hf & Hk & Hh & Hn);
    try done; [by exists m|by apply (mb2_plan_items s bs (fld bs 0 4) Htot Hlt ts sc Hsr b mm mods)|].
  rewrite E. cbn [mbind option_bind]. exists m', b', BBP_IMPORT_OK. split_and!; [done|done|].
  intros _. exists ts. split_and!; [done|by eapply mb2_items_wf|]. exists new. by split_and!.
Qed.

(** C25: Importing a Multiboot2 information block into a sound builder never
    faults and always returns, whatever bytes the block holds.  A refused block
    leaves memory and builder exactly as they were.  An accepted one is a framed
    sequence of acceptable tags closed by an end tag, with no singleton twice:
    UTF-8 command line and module names, non-empty ranges below 2^48, a
    framebuffer that holds its pixels, an RSDP with the right signature and
    checksums.  The builder then holds exactly the tags that describe it, in the
    documented order: the memory map, the command line, all modules in order
    with names cut at a character boundary, the framebuffer and a copy of the
    RSDP, the new one if both are there; earlier tags keep their contents and
    nothing outside the arena changes. *)
Theorem multiboot2_import_sound (m : mem) (b : bbp_builder) (ts0 : list tagrec) (snapshot : Z)
    (s : bbp_multiboot2_snapshot) (bs : list byte) :
  builder_rep m b ts0 -> mb2_source m snapshot s bs ->
  exists m' b' st,
    bbp_import_multiboot2 m (Some b) snapshot = Some (m', Some b', st) /\
    (st <> BBP_IMPORT_OK -> m' = m /\ b' = b) /\
    (st = BBP_IMPORT_OK ->
       exists ts new,
         mb2_valid s bs ts /\
         builder_rep m' b' (ts0 ++ new) /\
         Forall2 (holds m' b' (ts0 ++ new)) (mb2_items bs s ts) new /\
         kept m m' b ts0 /\ frame (arena b) (capacity b) m m' /\
         used b' <= BBP_BUILDER_MAX_INFO - SIZEOF_INFO).
Proof.
  intros Hrep Hsrc. destruct (multiboot2_import_spec _ _ _ _ _ _ Hrep Hsrc) as (m' & b' & st & E & Hno & Hok).
  exists m', b', st. split_and!; [done..|]. intros Hst.
  destruct (Hok Hst) as (ts & Hv & _ & new & ? & ? & ? & ? & ? & ?). exists ts, new.
  split_and!; try done. by apply plannable_fits.
Qed.

(** ** A sample block *)

Module Multiboot2Sample.
(** Command line "hi", a module named "m", one usable range and an ACPI 1.0
    RSDP whose bytes sum to a multiple of 256. *)
Definition mbi : list byte :=
  le_encode 4 128 ++ le_encode 4 0 ++
  (le_encode 4 1 ++ le_encode 4 11 ++ [x68; x69; x00] ++ replicate 5 x00) ++
  (le_encode 4 3 ++ le_encode 4 18 ++ le_encode 4 0x200000 ++ le_encode 4 0x201000 ++
     [x6d; x00] ++ replicate 6 x00) ++
  (le_encode 4 6 ++ le_encode 4 40 ++ le_encode 4 24 ++ le_encode 4 0 ++
     le_encode 8 0x100000 ++ le_encode 8 0x1000 ++ le_encode 4 1 ++ le_encode 4 0) ++
  (le_encode 4 14 ++ le_encode 4 28 ++ RSDP_SIGNATURE ++ le_encode 1 225 ++ replicate 11 x00 ++
     replicate 4 x00) ++
  (le_encode 4 0 ++ le_encode 4 8).

Definition snapshot_bytes : list byte :=
  le_encode 8 24576 ++ le_encode 8 128 ++ le_encode 8 BBP_IMPORT_HAS_HHDM ++
  le_encode 8 0xffff800000000000 ++ le_encode 8 0 ++ le_encode 8 0.

Definition mem0 : mem :=
  mem_of 20480 snapshot_bytes ∪ mem_of 24576 mbi ∪ mem_of 8192 (replicate 1024 x00).

Definition b : bbp_builder := Builder 8192 8192 1024 0 0 0 0 0.
Definition s : bbp_multiboot2_snapshot := Eval vm_compute in multiboot2_snapshot_of snapshot_bytes.

Lemma mb2_sample_rep : builder_rep mem0 b [].
Proof.
  split; cbn; try lia; try done.
  apply (mapped_by_load mem0 8192 1024). vm_compute. reflexivity.
Qed.

Lemma mb2_sample_source : mb2_source mem0 20480 s mbi.
Proof.
  split.
  - lia.
  - vm_compute. reflexivity.
  - intros _. split; [vm_compute; reflexivity|].
    apply (load_bytes_at mem0 24576 128). vm_compute. reflexivity.
Qed.

Example mb2_sample_accepted :
  (fun r => match r with
            | Some (_, Some b', st) => (st, tag_count b', used b')
            | _ => (BBP_IMPORT_ERR_NULL, 0, 0)
            end) (bbp_import_multiboot2 mem0 (Some b) 20480) = (BBP_IMPORT_OK, 5, 472).
Proof. vm_compute. reflexivity. Qed.
End Multiboot2Sample.

Lemma multiboot2_import_sound_witness :
  exists m' b' st,
    bbp_import_multiboot2 Multiboot2Sample.mem0 (Some Multiboot2Sample.b) 20480
      = Some (m', Some b', st) /\
    (st = BBP_IMPORT_OK -> exists ts, mb2_valid Multiboot2Sample.s Multiboot2Sample.mbi ts).
Proof.
  destruct (multiboot2_import_sound Multiboot2Sample.mem0 Multiboot2Sample.b [] 20480 Multiboot2Sample.s
    Multiboot2Sample.mbi Multiboot2Sample.mb2_sample_rep Multiboot2Sample.mb2_sample_source)
    as (m' & b' & st & E & _ & Hok).
  exists m', b', st. split; [exact E|]. intros Hst. destruct (Hok Hst) as (ts & new & Hv & _).
  exists ts. exact Hv.
Defined.
