(* ===== verification/Boot.v ===== *)
(** * From a boot environment to the kernel

    [Importer] is the interface between a boot-environment importer and the
    rest of the protocol: what it promises to whoever finalizes the builder
    afterwards.  The three importers discharge it, and against the interface
    alone the imported tags are followed through finalization and the kernel's
    bounded initialiser up to lookup. *)

From stdpp Require Import relations.
From S2P Require Import Prelude Memory Abi KernelParser KernelFacts Builder BuilderFacts BuilderProps Handoff Import ImportEmit ImportBodies ImportLimine ImportLimineProps ImportUefi ImportUefiProps ImportMultiboot ImportMultibootFacts ImportMultibootProps.

(** ** The interface *)

(** [source m p x] says that the snapshot at [p] and the data it refers to
    read as [x]; [describes x its] says that [x] is acceptable and [its] are
    the tags that stand for it. *)
Class Importer {S : Type}
    (import : mem -> option bbp_builder -> Z -> option (mem * option bbp_builder * bbp_import_status))
    (source : mem -> Z -> S -> Prop) (describes : S -> list item -> Prop) : Prop := {
  importer_spec : forall m b ts snapshot x,
    builder_rep m b ts -> source m snapshot x ->
    exists m' b' st,
      import m (Some b) snapshot = Some (m', Some b', st) /\
      (st <> BBP_IMPORT_OK -> m' = m /\ b' = b) /\
      (st = BBP_IMPORT_OK ->
         exists its, describes x its /\ Forall item_wf its /\ imported m m' b b' ts its);
  importer_ids : forall x its, describes x its -> NoDup (map i_id its);
}.

(** ** The importers discharge it *)

Definition limine_read (m : mem) (p : Z)
    (x : bbp_limine_snapshot * list bbp_limine_mmap_entry * list bbp_limine_cpu * list byte) : Prop :=
  let '(s, entries, cpus, line) := x in limine_source m p s entries cpus line.

Definition limine_describes
    (x : bbp_limine_snapshot * list bbp_limine_mmap_entry * list bbp_limine_cpu * list byte)
    (its : list item) : Prop :=
  let '(s, entries, cpus, line) := x in
  limine_valid s entries cpus line /\ its = limine_items s entries cpus line.

#[global] Instance limine_importer : Importer bbp_import_limine limine_read limine_describes.
Proof.
  split.
  - intros m b ts p [[[s entries] cpus] line] Hrep Hs.
    destruct (limine_import_spec _ _ _ _ _ _ _ _ Hrep Hs) as (m' & b' & st & E & Hno & Hok).
    exists m', b', st. split_and!; [done..|]. intros Hst. destruct (Hok Hst).
    eexists. split_and!; [done..|apply limine_items_wf|done].
  - intros [[[s entries] cpus] line] its [_ ->]. apply limine_items_ids.
Qed.

Definition uefi_read (m : mem) (p : Z) (x : bbp_uefi_snapshot * list byte * list byte) : Prop :=
  let '(s, map, line) := x in uefi_source m p s map line.

Definition uefi_describes (x : bbp_uefi_snapshot * list byte * list byte) (its : list item) : Prop :=
  let '(s, map, line) := x in uefi_valid s map line /\ its = uefi_items s map line.

#[global] Instance uefi_importer : Importer bbp_import_uefi_hobs uefi_read uefi_describes.
Proof.
  split.
  - intros m b ts p [[s map] line] Hrep Hs.
    destruct (uefi_import_spec _ _ _ _ _ _ _ Hrep Hs) as (m' & b' & st & E & Hno & Hok).
    exists m', b', st. split_and!; [done..|]. intros Hst. destruct (Hok Hst).
    eexists. split_and!; [done..|apply uefi_items_wf|done].
  - intros [[s map] line] its [_ ->]. apply uefi_items_ids.
Qed.

Definition mb2_read (m : mem) (p : Z) (x : bbp_multiboot2_snapshot * list byte) : Prop :=
  let '(s, bs) := x in mb2_source m p s bs.

Definition mb2_describes (x : bbp_multiboot2_snapshot * list byte) (its : list item) : Prop :=
  let '(s, bs) := x in exists ts, mb2_valid s bs ts /\ its = mb2_items bs s ts.

#[global] Instance multiboot2_importer : Importer bbp_import_multiboot2 mb2_read mb2_describes.
Proof.
  split.
  - intros m b ts p [s bs] Hrep Hs.
    destruct (multiboot2_import_spec _ _ _ _ _ _ Hrep Hs) as (m' & b' & st & E & Hno & Hok).
    exists m', b', st. split_and!; [done..|]. intros Hst. destruct (Hok Hst) as (tags & Hv & Hwf & Him).
    eexists. split_and!; [by exists tags|done..].
  - intros [s bs] its (tags & Hv & ->). by apply mb2_items_ids.
Qed.

(** ** Imported tags in a sealed handoff *)

(** What the kernel finds for an item: a tag of its size with its body, whose
    blob is where the body's physical address leads under the direct map. *)
Definition delivered (m : mem) (k : bbp_kctx) (it : item) : Prop :=
  exists tag phys,
    bbp_find_tag m (Some k) (i_id it) = Some tag /\ tag <> 0 /\
    load32 m (tag + 8) = Some (32 + i_size it) /\
    bytes_at m (tag + 32) (i_body it phys) /\
    (i_blob it = [] \/
     bytes_at m (phys + hhdm_offset k) (i_blob it) /\
     walk_lo k <= phys /\ phys + zlen (i_blob it) <= walk_hi k).

(** Tags that realise items with distinct identifiers are found by them. *)
Lemma find_realised m b ts its new it :
  Forall2 (holds m b ts) its new -> NoDup (map i_id its) -> In it its ->
  exists t, In t new /\ holds m b ts it t /\ List.find (fun t => t_id t =? i_id it) new = Some t.
Proof.
  induction 1 as [|it0 t0 its new H0 Hh IH]; intros Hnd Hin; [done|]. cbn [map] in Hnd.
  apply NoDup_cons in Hnd as [Hni Hnd]. cbn [List.find]. pose proof H0 as (Hid & _).
  destruct Hin as [->|Hin].
  - exists t0. rewrite Hid, Z.eqb_refl. split_and!; [by left|done..].
  - destruct (IH Hnd Hin) as (t & Ht & Hit & Hf). exists t. rewrite Hid, (proj2 (Z.eqb_neq _ _)).
    + split_and!; [by right|done..].
    + intros E. apply Hni. rewrite E. apply list_elem_of_In. by apply in_map.
Qed.

Lemma find_absent m b ts its new id :
  Forall2 (holds m b ts) its new -> ~ In id (map i_id its) ->
  List.find (fun t => t_id t =? id) new = None.
Proof.
  induction 1 as [|it t its new (Hid & _) Hh IH]; intros Hn; [done|]. cbn [map List.find] in *.
  rewrite Hid, (proj2 (Z.eqb_neq _ _)); [|by intros E; apply Hn; left].
  apply IH. intros H. apply Hn. by right.
Qed.

(** Sealing changes neither the body nor the blob of a realised item. *)
Lemma holds_sealed m m' b ts it t :
  builder_rep m b ts -> In t ts -> item_wf it -> holds m b ts it t ->
  (forall x, arena b <= x < arena b + capacity b -> ~ in_checksum b ts x -> m' !! x = m !! x) ->
  holds m' b ts it t.
Proof.
  intros Hrep Hin [_ Hs0 Hbody] (Hid & Hver & Hsz & phys & Hat & Hblob) Hf.
  pose proof Hrep as [_ _ [? ?] _ _ _ Htags _ _ _].
  destruct (tags_ok_in _ _ _ t Htags Hin) as (? & ? & _ & ? & _).
  split_and!; try done. exists phys. split.
  - eapply bytes_at_same_on; [|exact Hat]. intros x Hx. rewrite Hbody in Hx.
    apply Hf; [lia|]. intros (u & Hu & Hxu).
    destruct (tags_ok_in _ _ _ u Htags Hu) as (? & ? & _ & ? & _).
    destruct (tags_ok_apart _ _ _ _ _ Htags Hin Hu) as [->|]; lia.
  - destruct Hblob as [Hblob|(Ho & Hend & Hap & Hb)]; [by left|right]. split_and!; try done.
    eapply bytes_at_same_on; [|exact Hb]. intros x Hx. apply Hf; [lia|]. intros (u & Hu & Hxu).
    destruct (tags_ok_in _ _ _ u Htags Hu) as (? & ? & _ & ? & _). specialize (Hap u Hu). lia.
Qed.

Lemma linked_in m b ts t : linked m b ts -> In t ts -> exists next, bytes_at m (tag_ptr b t) (hdr_bytes t next).
Proof.
  induction ts as [|u ts IH]; [done|]. cbn [linked]. intros [Hh Hl] [->|Hin]; [by eexists|by apply IH].
Qed.

Lemma holds_delivered m b ts info h it t :
  0 < arena b -> used b <= capacity b -> tags_ok 0 (used b) ts -> linked m b ts -> In t ts -> holds m b ts it t ->
  arena b = arena_phys b + h ->
  let k := Kctx info h 1 (arena_phys b) (arena_phys b + capacity b) in
  bbp_find_tag m (Some k) (i_id it) = Some (tag_ptr b t) -> delivered m k it.
Proof.
  intros H0 Hu Htags Hl Hin (_ & _ & Hsz & phys & Hat & Hblob) Hh k Hfind.
  destruct (tags_ok_in _ _ _ t Htags Hin) as (? & ? & _ & ? & _). destruct (linked_in _ _ _ _ Hl Hin) as [next Hn].
  exists (tag_ptr b t), phys. rewrite <- Hsz. split_and!; [done|unfold tag_ptr; lia| |done|].
  { eapply hdr_size; [unfold in_word; lia|exact Hn]. }
  unfold tag_ptr in *.
  destruct Hblob as [|(Ho & Hend & _ & Hb)]; [by left|right]. cbn.
  replace (phys + h) with (arena b + (phys - arena_phys b)) by lia. split_and!; [done|lia|lia].
Qed.

(** The tags of a sealed arena that realise items are delivered to the kernel. *)
Lemma sealed_delivers m b ts its info h :
  sealed_arena m b ts info -> tags_ok 0 (used b) ts -> (length ts <= 1024)%nat ->
  Forall2 (holds m b ts) its ts -> NoDup (map i_id its) -> 0 < info -> 0 < arena b ->
  arena b = arena_phys b + h -> 0 <= h -> 0 < arena_phys b -> arena_phys b mod 8 = 0 ->
  0 < capacity b -> used b <= capacity b ->
  arena_phys b + capacity b <= 2 ^ 48 -> arena b + capacity b < 2 ^ 64 ->
  let k := Kctx info h 1 (arena_phys b) (arena_phys b + capacity b) in
  ValidHandoff m k (map (tag_ptr b) ts) /\ Forall (delivered m k) its /\
  (forall id, ~ In id (map i_id its) -> bbp_find_tag m (Some k) id = Some 0).
Proof.
  intros Hs Htags Hlen Hh Hnd Hi H0 Hah Hh0 Hp Hal Hc Hu Hmax Hvmax k.
  assert (ValidHandoff m k (map (tag_ptr b) ts)) as Hvh by (apply sealed_valid; done || lia).
  assert (forall id, bbp_find_tag m (Some k) id =
    Some (default 0 (option_map (tag_ptr b) (List.find (fun t => t_id t =? id) ts)))) as Hfind.
  { intros id. rewrite (vh_find m k (map (tag_ptr b) ts)). do 2 f_equal.
    eapply has_id_hdr; [exact Htags|apply Hs]. }
  split; [done|]. split.
  - apply List.Forall_forall. intros it Hin.
    destruct (find_realised _ _ _ _ _ _ Hh Hnd Hin) as (t & Ht & Hit & Hft).
    eapply holds_delivered; [done|done|done|apply Hs|exact Ht|done|done|by rewrite Hfind, Hft].
  - intros id Hn. rewrite Hfind. by erewrite find_absent.
Qed.

(** Initialisation that did not fail gives an empty builder for the arena. *)
Lemma fresh_builder m0 b0 a phys cap m b :
  arena_given a phys cap -> bbp_builder_init m0 (Some b0) a phys cap = Some (m, Some b) ->
  overflow b = 0 ->
  builder_rep m b [] /\ arena b = a /\ arena_phys b = phys /\ capacity b = cap.
Proof.
  intros (? & ? & ? & ?) Hi Ho.
  by apply bbp_builder_init_rep in Hi as [[]|(-> & ? & _)].
Qed.

(** An accepted import into a fresh builder, finalized. *)
Lemma imported_handoff m m2 b b2 its info info_phys h fuel :
  imported m m2 b b2 [] its -> Forall item_wf its -> NoDup (map i_id its) ->
  0 < info -> mapped m2 info SIZEOF_INFO ->
  disjoint_range info SIZEOF_INFO (arena b) (capacity b) ->
  arena b = arena_phys b + h -> 0 <= h -> 0 < capacity b -> (1024 < fuel)%nat ->
  let k := Kctx info h 1 (arena_phys b) (arena_phys b + capacity b) in
  exists m' tags,
    bbp_builder_finalize m2 (Some b2) info info_phys fuel = Some (m', Some b2, info_phys) /\
    ValidHandoff m' k tags /\ mapped m' (arena b) (capacity b) /\
    arena_phys b + capacity b <= 2 ^ 48 /\
    Forall (delivered m' k) its /\
    (forall id, ~ In id (map i_id its) -> bbp_find_tag m' (Some k) id = Some 0).
Proof.
  intros (new & Hrep & Hh & _ & _ & Hpl & Har) Hwf Hnd Hi Hmi Hdis Hah Hh0 Hc Hfuel. cbn zeta.
  cbn [app] in *. destruct Har as (Ha & Hp & Hcap). rewrite <- Ha, <- Hp, <- Hcap in *.
  pose proof Hpl as [_ Hphys Hvirt].
  pose proof Hrep as [[? ?] [[? ?] Hal] [[? ?] _] Hm _ [Hcnt Hcnt'] Htags _ _ _].
  destruct (finalize_sealed m2 b2 new info info_phys fuel) as (m' & Hfin & Hd & Hs & Hf); try done.
  { by apply plannable_fits. }
  { unfold zlen in Hcnt. lia. }
  destruct (sealed_delivers m' b2 new its info h) as (Hvh & Hdel & Hno); try done.
  { unfold zlen in Hcnt. lia. }
  { eapply Forall2_strengthen; [exact Hh|exact Hwf|]. intros it t Hin Hit Hht.
    eapply holds_sealed; [exact Hrep|done|done|done|]. intros x Hx. apply Hf.
    intros Hxi. by apply (Hdis x). }
  exists m', (map (tag_ptr b2) new). split_and!; try done. by rewrite <- Hd.
Qed.

(** ** Properties *)

(** C2: whatever the boot environment, the imported tags reach the kernel.  Let
    an importer accept a snapshot into a freshly initialised builder, and
    finalize the builder into an INFO structure outside the arena.  Then
    finalization succeeds, the kernel's bounded initialiser accepts the
    handoff with the whole arena as its window (keeping a non-zero direct-map
    hint), lookup finds every tag that describes the snapshot with the body
    the importer wrote, the strings and tables a body refers to are behind
    their physical addresses and inside the window, and lookup of any other
    identifier finds nothing. *)
Theorem imported_tags_reach_kernel {S : Type}
    (import : mem -> option bbp_builder -> Z -> option (mem * option bbp_builder * bbp_import_status))
    (source : mem -> Z -> S -> Prop) (describes : S -> list item -> Prop)
    (Himp : Importer import source describes)
    (m0 : mem) (b0 : bbp_builder) (a phys cap : Z) (m1 : mem) (b1 : bbp_builder)
    (snapshot : Z) (x : S) (m2 : mem) (b2 : bbp_builder)
    (info info_phys h : Z) (fuel : nat) (cand k0 : bbp_kctx) :
  arena_given a phys cap -> 0 < cap ->
  bbp_builder_init m0 (Some b0) a phys cap = Some (m1, Some b1) -> overflow b1 = 0 ->
  source m1 snapshot x ->
  import m1 (Some b1) snapshot = Some (m2, Some b2, BBP_IMPORT_OK) ->
  0 < info -> mapped m1 info SIZEOF_INFO -> disjoint_range info SIZEOF_INFO a cap ->
  a = phys + h -> 0 <= h -> (1024 < fuel)%nat ->
  exists its m' off,
    describes x its /\
    bbp_builder_finalize m2 (Some b2) info info_phys fuel = Some (m', Some b2, info_phys) /\
    bbp_init_bounded m' cand (Some k0) info h phys cap =
      Some (Some (Kctx info off 1 phys (phys + cap)), BBP_OK) /\
    (h <> 0 -> off = h) /\
    Forall (delivered m' (Kctx info h 1 phys (phys + cap))) its /\
    (forall id, ~ In id (map i_id its) ->
       bbp_find_tag m' (Some (Kctx info h 1 phys (phys + cap))) id = Some 0).
Proof.
  intros Hg Hc Hi Ho Hs Him Hinfo Hmi Hdis Hah Hh0 Hfuel.
  destruct (fresh_builder _ _ _ _ _ _ _ Hg Hi Ho) as (Hrep & Ha & Hp & Hcap).
  destruct (importer_spec _ _ _ _ _ Hrep Hs) as (m2' & b2' & st & E & _ & Hok).
  rewrite E in Him. injection Him as -> -> ->. destruct (Hok eq_refl) as (its & Hdes & Hwf & Himp').
  pose proof Himp' as (_ & _ & _ & _ & [Hd _] & _).
  rewrite <- Ha, <- Hp, <- Hcap in *.
  destruct (imported_handoff m1 m2 b1 b2 its info info_phys h fuel) as
    (m' & tags & Hfin & Hvh & Hm & Hmax & Hdel & Hno); try done.
  { by eapply importer_ids. }
  { by rewrite <- Hd. }
  pose proof (br_phys _ _ _ Hrep) as [[? _] _].
  destruct (init_bounded_accepts m' cand k0 info h (arena_phys b1) (capacity b1) tags)
    as (off & Hinit & Hoff); try done.
  { by rewrite <- Hah. }
  exists its, m', off. by split_and!.
Qed.

(** ** A sample boot *)

Module BootSample.
(** The sample Limine snapshot, imported into a 512-byte arena at physical
    address 4096, seen by the boot loader and the kernel 4096 bytes higher; the
    INFO structure is at 16384. *)
Definition mem0 : mem := LimineSample.mem0 ∪ mem_of 16384 (replicate 144 xcc).
Definition blank : bbp_kctx := Kctx 0 0 0 0 0.

Definition after_init : option (mem * option bbp_builder) :=
  bbp_builder_init mem0 (Some Run.b0) 8192 4096 512.
Definition m1 : mem := match after_init with Some (m, _) => m | None => ∅ end.
Definition b1 : bbp_builder := Builder 8192 4096 512 0 0 0 0 0.

Definition after_import : option (mem * option bbp_builder * bbp_import_status) :=
  bbp_import_limine m1 (Some b1) 20480.
Definition m2 : mem := match after_import with Some (m, _, _) => m | None => ∅ end.
Definition b2 : bbp_builder :=
  Eval vm_compute in match after_import with Some (_, Some b, _) => b | _ => b1 end.

Lemma boot_init : bbp_builder_init mem0 (Some Run.b0) 8192 4096 512 = Some (m1, Some b1).
Proof.
  assert (match after_init with Some (_, Some b) => Some b | _ => None end = Some b1) as H
    by (vm_compute; reflexivity).
  unfold m1. fold after_init. destruct after_init as [[m [b|]]|]; congruence.
Qed.

Lemma boot_import :
  bbp_import_limine m1 (Some b1) 20480 = Some (m2, Some b2, BBP_IMPORT_OK).
Proof.
  assert (match after_import with Some (_, Some b, st) => Some (b, st) | _ => None end
    = Some (b2, BBP_IMPORT_OK)) as H by (vm_compute; reflexivity).
  unfold m2. fold after_import. destruct after_import as [[[m [b|]] st]|]; congruence.
Qed.

Lemma boot_source :
  limine_read m1 20480
    (LimineSample.s, [LimineSample.entry], [LimineSample.cpu], LimineSample.line).
Proof.
  split.
  - lia.
  - vm_compute. reflexivity.
  - intros _ _ _. split; [reflexivity|]. intros [|j] e [= <-]; vm_compute; reflexivity.
  - intros _ _ _. split; [reflexivity|]. intros [|j] c [= <-]; vm_compute; reflexivity.
  - intros _ _. split; [reflexivity|].
    apply (load_bytes_at m1 32768 3). vm_compute. reflexivity.
Qed.

Lemma boot_info_mapped : mapped m1 16384 SIZEOF_INFO.
Proof. apply (mapped_by_load m1 16384 144). vm_compute. reflexivity. Qed.
End BootSample.

Lemma imported_tags_reach_kernel_witness :
  exists its m',
    limine_describes (LimineSample.s, [LimineSample.entry], [LimineSample.cpu], LimineSample.line) its /\
    bbp_init_bounded m' BootSample.blank (Some BootSample.blank) 16384 4096 4096 512 =
      Some (Some (Kctx 16384 4096 1 4096 4608), BBP_OK) /\
    Forall (delivered m' (Kctx 16384 4096 1 4096 4608)) its.
Proof.
  destruct (imported_tags_reach_kernel _ _ _ limine_importer BootSample.mem0 Run.b0 8192 4096 512
    BootSample.m1 BootSample.b1 20480
    (LimineSample.s, [LimineSample.entry], [LimineSample.cpu], LimineSample.line)
    BootSample.m2 BootSample.b2 16384 16384 4096 1025 BootSample.blank BootSample.blank)
    as (its & m' & off & H1 & _ & H3 & H4 & H5 & _).
  - unfold arena_given. lia.
  - lia.
  - exact BootSample.boot_init.
  - reflexivity.
  - exact BootSample.boot_source.
  - exact BootSample.boot_import.
  - lia.
  - exact BootSample.boot_info_mapped.
  - apply disjoint_range_intro. unfold SIZEOF_INFO. lia.
  - lia.
  - lia.
  - lia.
  - rewrite H4 in H3 by discriminate. exists its, m'. split; [exact H1|]. split; [exact H3|exact H5].
Defined.
