(* ===== verification/Bridge.v ===== *)
(** * The v1/v2 bridge (bridge/bbp_bridge.c, bridge/bbp_bridge.h)

    [bbp_v2_from_v1] packs a version 1 handoff (INFO and tag chain) into a
    capsule, with the linkage fields zeroed; [bbp_v2_to_v1] restores a tag chain
    from such a capsule.  The address mapping of the source is a callback of the
    caller: a parameter with its own context.  The caller's scratch arrays are
    lists, its normalized INFO payload lies in memory.  The file's byte loops
    are the same code as those of v2/bbp_v2.c, modelled in [Memory] and
    [Capsule]. *)

From stdpp Require Import strings.
From S2P Require Import Prelude Memory Crc64 Abi Capsule.

(** ** Constants and structures *)

Definition V1_MAX_TAG_SIZE : Z := 16 * 1024 * 1024.
Definition V1_MAX_INFO_SIZE : Z := 64 * 1024 * 1024.
Definition V1_MAX_PHYS : Z := Z.shiftl 1 48.

Definition BBP_V2_ENTRY_V1_INFO : Z := 0x000100000000fff0.
Definition BBP_V2_BRIDGE_ALLOW_EXTERNAL_PHYS : Z := Z.shiftl 1 0.

Definition bbp_v2_v1_info_payload : ctype := Struct (
  [("bootloader_name", Array U8 32); ("bootloader_version", Array U8 16);
   ("bootloader_uuid", Array U8 16); ("bootloader_start_ts", U64); ("kernel_load_ts", U64);
   ("handoff_ts", U64); ("architecture", U16); ("cpu_count", U16); ("reserved", U32);
   ("next_context", U64)])%string.

(** [map] answers with its new context and a pointer, 0 for NULL. *)
Definition bbp_v2_phys_map_fn (U : Type) : Type := U -> Z -> Z -> U * Z.

(** The member [map_user] is the context the calls pass along. *)
Record bbp_v2_v1_source {U : Type} := V1Source {
  s_info : Z;
  s_map : option (bbp_v2_phys_map_fn U);
}.
Arguments bbp_v2_v1_source : clear implicits.
Arguments V1Source {U}.

Record bbp_v2_bridge_report := BridgeReport {
  tag_count : Z;
  external_reference_tags : Z;
}.

(** [w_info_payload] is the address of the member [info_payload]. *)
Record bbp_v2_bridge_workspace := Workspace {
  w_visited : list Z;
  w_entries : list bbp_v2_build_entry;
  w_info_payload : Z;
}.

(** Element assignment; outside the array it is a fault. *)
Definition set_visited (w : bbp_v2_bridge_workspace) (i : nat) (v : Z) :
    option bbp_v2_bridge_workspace :=
  check (i <? length (w_visited w))%nat else None;
  Some (Workspace (<[i := v]> (w_visited w)) (w_entries w) (w_info_payload w)).
Definition set_entry (w : bbp_v2_bridge_workspace) (i : nat) (e : bbp_v2_build_entry) :
    option bbp_v2_bridge_workspace :=
  check (i <? length (w_entries w))%nat else None;
  Some (Workspace (w_visited w) (<[i := e]> (w_entries w)) (w_info_payload w)).

(** ** Checksums and arrays *)

Definition crc_skip (m : mem) (data size offset : Z) : option Z :=
  reject size <? offset + 8 with Some 0;
  let crc := bbp_crc64_init in
  crc ← bbp_crc64_update m crc data (Z.to_nat offset);
  let crc := crc64_list crc (replicate 8 x00) in
  crc ← bbp_crc64_update m crc (data + offset + 8) (Z.to_nat (size - offset - 8));
  Some (bbp_crc64_final crc).

Definition capsule_crc (m : mem) (data size : Z) : option Z := crc_skip m data size 40.

Definition array_fits (total base count stride : Z) : bool :=
  reject total <? base with false;
  count <=? (total - base) / stride.

(** ** External references *)

(** [for (i = 0; i < count; i++) if (probe(element i)) return 1; return 0], with
    [n] iterations left. *)
Fixpoint any_element (probe : Z -> option bool) (element stride : Z) (n : nat) : option Z :=
  match n with
  | O => Some 0
  | S n =>
      r ← probe element;
      reject (r : bool) with Some 1;
      any_element probe (element + stride) stride n
  end.

(** [get64(p) != 0] and its short-circuit disjunction over several pointers. *)
Fixpoint any_nonzero (m : mem) (ps : list Z) : option bool :=
  match ps with
  | [] => Some false
  | p :: ps =>
      v ← get64 m p;
      reject negb (v =? 0) with Some true;
      any_nonzero m ps
  end.

Definition as_int (b : option bool) : option Z := (fun b : bool => if b then 1 else 0) <$> b.

Definition tag_external_references (m : mem) (tag size : Z) : option Z :=
  id ← get64 m tag;
  if id =? BBP_TAG_HHDM then Some (if sizeof bbp_tag_hhdm <=? size then 0 else -1)
  else if id =? BBP_TAG_KERNEL_ADDRESS then
    Some (if sizeof bbp_tag_kernel_address <=? size then 0 else -1)
  else if id =? BBP_TAG_MEMORY_MAP then
    reject size <? sizeof bbp_tag_memory_map with Some (-1);
    count ← get32 m (tag + 32);
    stride ← get32 m (tag + 36);
    reject (stride <? sizeof bbp_memory_entry) ||
      negb (array_fits size (sizeof bbp_tag_memory_map) count stride) with Some (-1);
    Some 0
  else if id =? BBP_TAG_CMDLINE then
    reject size <? sizeof bbp_tag_cmdline with Some (-1);
    as_int (any_nonzero m [tag + 32])
  else if id =? BBP_TAG_ACPI then
    reject size <? sizeof bbp_tag_acpi with Some (-1);
    as_int (any_nonzero m [tag + 32; tag + 40])
  else if id =? BBP_TAG_SMBIOS then
    reject size <? sizeof bbp_tag_smbios with Some (-1);
    as_int (any_nonzero m [tag + 32; tag + 40])
  else if id =? BBP_TAG_EFI then
    reject size <? sizeof bbp_tag_efi with Some (-1);
    as_int (any_nonzero m [tag + 32; tag + 40])
  else if id =? BBP_TAG_DEVICETREE then
    reject size <? sizeof bbp_tag_devicetree with Some (-1);
    as_int (any_nonzero m [tag + 32; tag + 56])
  else if id =? BBP_TAG_SECURITY then
    reject size <? sizeof bbp_tag_security with Some (-1);
    as_int (any_nonzero m [tag + 32; tag + 64; tag + 80; tag + 96])
  else if id =? BBP_TAG_FRAMEBUFFER then
    reject size <? sizeof bbp_tag_framebuffer with Some (-1);
    count ← get16 m (tag + 40);
    check array_fits size (sizeof bbp_tag_framebuffer) count (sizeof bbp_display_info)
      else Some (-1);
    r ← any_nonzero m [tag + 32; tag + 56];
    reject (r : bool) with Some 1;
    any_element (fun display => any_nonzero m [display + 32])
      (tag + sizeof bbp_tag_framebuffer) (sizeof bbp_display_info) (Z.to_nat count)
  else if id =? BBP_TAG_SMP then
    reject size <? sizeof bbp_tag_smp with Some (-1);
    count ← get32 m (tag + 32);
    check array_fits size (sizeof bbp_tag_smp) count (sizeof bbp_cpu_info) else Some (-1);
    any_element (fun cpu => any_nonzero m [cpu + 32])
      (tag + sizeof bbp_tag_smp) (sizeof bbp_cpu_info) (Z.to_nat count)
  else if id =? BBP_TAG_MODULES then
    reject size <? sizeof bbp_tag_modules with Some (-1);
    count ← get32 m (tag + 32);
    check array_fits size (sizeof bbp_tag_modules) count (sizeof bbp_module_entry)
      else Some (-1);
    any_element (fun module => any_nonzero m [module; module + 96])
      (tag + sizeof bbp_tag_modules) (sizeof bbp_module_entry) (Z.to_nat count)
  else if id =? BBP_TAG_PCIE then
    reject size <? sizeof bbp_tag_pcie with Some (-1);
    count ← get32 m (tag + 40);
    check array_fits size (sizeof bbp_tag_pcie) count (sizeof bbp_pcie_device) else Some (-1);
    r ← any_nonzero m [tag + 32];
    Some (if r || negb (count =? 0) then 1 else 0)
  else if id =? BBP_TAG_METRICS then
    reject size <? sizeof bbp_tag_metrics with Some (-1);
    count ← get32 m (tag + 40);
    Some (if array_fits size (sizeof bbp_tag_metrics) count (sizeof bbp_boot_phase)
          then 0 else -1)
  else if id =? BBP_TAG_HYPERVISOR then
    Some (if sizeof bbp_tag_hypervisor <=? size then 0 else -1)
  else Some 1.

(** ** From version 1 to version 2 *)

Definition normalize_info (m : mem) (out info : Z) : option mem :=
  m ← bytes_zero m out 104;
  m ← bytes_copy m out (info + 24) 32;
  m ← bytes_copy m (out + 32) (info + 56) 16;
  m ← bytes_copy m (out + 48) (info + 72) 16;
  v ← get64 m (info + 88); m ← put64 m (out + 64) v;
  v ← get64 m (info + 96); m ← put64 m (out + 72) v;
  v ← get64 m (info + 104); m ← put64 m (out + 80) v;
  v ← get16 m (info + 112); m ← put16 m (out + 88) v;
  v ← get16 m (info + 114); m ← put16 m (out + 90) v;
  v ← get64 m (info + 128); put64 m (out + 96) v.

(** [for (j = 0; j < i; j++)]: is [current] among the visited addresses? *)
Fixpoint visited_before (visited : list Z) (current : Z) (j n : nat) : option bool :=
  match n with
  | O => Some false
  | S n =>
      v ← visited !! j;
      reject v =? current with Some true;
      visited_before visited current (S j) n
  end.

(** [for (j = 0; j < i; j++)]: does the tag overlap an earlier one? *)
Fixpoint overlaps_visited (w : bbp_v2_bridge_workspace) (current size : Z) (j n : nat) :
    option bool :=
  match n with
  | O => Some false
  | S n =>
      prior ← w_visited w !! j;
      e ← w_entries w !! S j;
      reject (current <? wrap64 (prior + be_size e)) && (prior <? wrap64 (current + size))
        with Some true;
      overlaps_visited w current size (S j) n
  end.

(** A field of the local copy of the tag header. *)
Definition header32 (header : list byte) (off : nat) : Z := le_decode (take 4 (drop off header)).

(** The second half of an iteration of the tag loop, once the whole tag is
    mapped at [tag]: the workspace, and the status of an early return or the next
    address and the external count. *)
Definition convert_tag (m : mem) (policy : Z) (w : bbp_v2_bridge_workspace) (i : nat)
    (external_count tag size : Z) (header : list byte) :
    option (bbp_v2_bridge_workspace * (bbp_v2_status_t + Z * Z)) :=
  reject tag =? 0 with Some (w, inl BBP_V2_ERR_SOURCE);
  same ← bytes_equal m tag header;
  check (same : bool) else Some (w, inl BBP_V2_ERR_SOURCE);
  got ← crc_skip m tag size 24;
  want ← get64 m (tag + 24);
  reject negb (got =? want) with Some (w, inl BBP_V2_ERR_SOURCE);
  external ← tag_external_references m tag size;
  reject external <? 0 with Some (w, inl BBP_V2_ERR_SOURCE);
  reject negb (external =? 0) && (Z.land policy BBP_V2_BRIDGE_ALLOW_EXTERNAL_PHYS =? 0)
    with Some (w, inl BBP_V2_ERR_POLICY);
  type ← get64 m tag;
  version ← get16 m (tag + 12);
  let flags := Z.lor BBP_V2_EF_V1_WIRE
                 (if negb (external =? 0) then BBP_V2_EF_EXTERNAL_PHYS else 0) in
  w ← set_entry w (S i) (V2BuildEntry type flags version 8 tag size);
  let external_count :=
    if negb (external =? 0) then wrap32 (external_count + 1) else external_count in
  next ← get64 m (tag + 16);
  Some (w, inr (next, external_count)).

Section FromV1.
Context {U : Type} (map : bbp_v2_phys_map_fn U).

(** One iteration of the tag loop. *)
Definition from_v1_tag (m : mem) (policy : Z) (u : U) (w : bbp_v2_bridge_workspace) (i : nat)
    (current external_count : Z) :
    option (U * bbp_v2_bridge_workspace * (bbp_v2_status_t + Z * Z)) :=
  reject (current =? 0) || negb (Z.land current 7 =? 0) || (V1_MAX_PHYS <=? current) ||
    (V1_MAX_PHYS - current <? 32) with Some (u, w, inl BBP_V2_ERR_SOURCE);
  seen ← visited_before (w_visited w) current 0 i;
  reject (seen : bool) with Some (u, w, inl BBP_V2_ERR_SOURCE);
  w ← set_visited w i current;
  let '(u, mapped_header) := map u current (sizeof bbp_tag_header) in
  reject mapped_header =? 0 with Some (u, w, inl BBP_V2_ERR_SOURCE);
  header ← load_bytes m mapped_header 32;
  let size := header32 header 8 in
  reject (size <? sizeof bbp_tag_header) || (V1_MAX_TAG_SIZE <? size)
    with Some (u, w, inl BBP_V2_ERR_SOURCE);
  reject V1_MAX_PHYS - current <? size with Some (u, w, inl BBP_V2_ERR_SOURCE);
  overlap ← overlaps_visited w current size 0 i;
  reject (overlap : bool) with Some (u, w, inl BBP_V2_ERR_SOURCE);
  let '(u, tag) := map u current size in
  '(w, r) ← convert_tag m policy w i external_count tag size header;
  Some (u, w, r).

Fixpoint from_v1_loop (m : mem) (policy : Z) (u : U) (w : bbp_v2_bridge_workspace) (i : nat)
    (current external_count : Z) (n : nat) :
    option (U * bbp_v2_bridge_workspace * (bbp_v2_status_t + Z * Z)) :=
  match n with
  | O => Some (u, w, inr (current, external_count))
  | S n =>
      '(u, w, r) ← from_v1_tag m policy u w i current external_count;
      match r with
      | inl status => Some (u, w, inl status)
      | inr (current, external_count) =>
          from_v1_loop m policy u w (S i) current external_count n
      end
  end.
End FromV1.

(** The linkage of one converted tag is cleared and its CRC recomputed. *)
Fixpoint normalize_tags (m : mem) (output i : Z) (n : nat) : option mem :=
  match n with
  | O => Some m
  | S n =>
      let entry := output + BBP_V2_HEADER_SIZE + (i + 1) * BBP_V2_DIRENT_SIZE in
      offset ← get64 m (entry + 16);
      let tag := output + offset in
      size ← get64 m (entry + 24);
      m ← put64 m (tag + 16) 0;
      m ← put64 m (tag + 24) 0;
      crc ← bbp_crc64 m tag (Z.to_nat size);
      m ← put64 m (entry + 32) crc;
      normalize_tags m output (i + 1) n
  end.

(** What a conversion leaves behind: the status, [*written] and [*report]
    afterwards, and the memory. *)
Record outcome := Outcome {
  o_status : bbp_v2_status_t;
  o_written : option Z;
  o_report : option bbp_v2_bridge_report;
  o_mem : mem;
}.

Definition v1_info_magic : list byte := BBP_INFO_MAGIC.

(** The checks of the INFO structure; [inr] is the tag count and the address of
    the first tag. *)
Definition check_info {U} (m : mem) (source : bbp_v2_v1_source U) :
    option (bbp_v2_status_t + Z * Z) :=
  let info := s_info source in
  e ← bytes_equal m info v1_info_magic;
  check (e : bool) else Some (inl BBP_V2_ERR_SOURCE);
  major ← get16 m (info + 16);
  reject negb (major =? BBP_VERSION_MAJOR) with Some (inl BBP_V2_ERR_SOURCE);
  minor ← get16 m (info + 18);
  reject negb (minor =? BBP_VERSION_MINOR) with Some (inl BBP_V2_ERR_SOURCE);
  size ← get32 m (info + 20);
  reject (size <? sizeof bbp_info) || (V1_MAX_INFO_SIZE <? size)
    with Some (inl BBP_V2_ERR_SOURCE);
  got ← crc_skip m info (sizeof bbp_info) 136;
  want ← get64 m (info + 136);
  reject negb (got =? want) with Some (inl BBP_V2_ERR_SOURCE);
  tag_count ← get32 m (info + 116);
  reject BBP_V2_MAX_ENTRIES - 1 <? tag_count with Some (inl BBP_V2_ERR_COUNT);
  current ← get64 m (info + 120);
  reject negb (Bool.eqb (tag_count =? 0) (current =? 0)) ||
    (negb (current =? 0) &&
     (negb (Z.land current 7 =? 0) || bool_decide (s_map source = None)))
    with Some (inl BBP_V2_ERR_SOURCE);
  Some (inr (tag_count, current)).

(** The result also has the callback's context and the workspace.  Where the
    callback is NULL there are no tags, so it is never called. *)
Definition bbp_v2_from_v1 {U} (m : mem) (source : option (bbp_v2_v1_source U)) (u : U)
    (policy : Z) (workspace : option bbp_v2_bridge_workspace) (output capacity : Z)
    (written : option Z) (report : option bbp_v2_bridge_report) :
    option (outcome * option bbp_v2_bridge_workspace * U) :=
  match source, workspace, written with
  | Some source, Some w, Some _ =>
  let fail status m w u := Some (Outcome status written report m, Some w, u) in
  reject (s_info source =? 0) || (output =? 0) with fail BBP_V2_ERR_NULL m w u;
  let info := s_info source in
  checked ← check_info m source;
  match checked with
  | inl status => fail status m w u
  | inr (tag_count, current) =>
  m ← normalize_info m (w_info_payload w) info;
  let entry0 flags :=
    V2BuildEntry BBP_V2_ENTRY_V1_INFO flags BBP_VERSION_MINOR 8 (w_info_payload w) 104 in
  w ← set_entry w 0 (entry0 0);
  next_context ← get64 m (info + 128);
  reject negb (next_context =? 0) &&
    (Z.land policy BBP_V2_BRIDGE_ALLOW_EXTERNAL_PHYS =? 0) with fail BBP_V2_ERR_POLICY m w u;
  '(w, external_count) ←
    (if negb (next_context =? 0) then
       w ← set_entry w 0 (entry0 (Z.lor 0 BBP_V2_EF_EXTERNAL_PHYS)); Some (w, 1)
     else Some (w, 0));
  let map := default (fun u _ _ => (u, 0)) (s_map source) in
  '(u, w, r) ← from_v1_loop map m policy u w 0 current external_count (Z.to_nat tag_count);
  match r with
  | inl status => fail status m w u
  | inr (current, external_count) =>
  reject negb (current =? 0) with fail BBP_V2_ERR_SOURCE m w u;
  '(status, built, m) ← bbp_v2_build m output capacity (Some (w_entries w))
                          (wrap32 (tag_count + 1)) (Some 0);
  reject negb (bool_decide (status = BBP_V2_OK)) with fail status m w u;
  let built := default 0 built in
  m ← normalize_tags m output 0 (Z.to_nat tag_count);
  m ← put64 m (output + 40) 0;
  crc ← capsule_crc m output built;
  m ← put64 m (output + 40) crc;
  let candidate := BridgeReport tag_count external_count in
  Some (Outcome BBP_V2_OK (Some built) ((fun _ => candidate) <$> report) m, Some w, u)
  end end
  | _, _, _ => Some (Outcome BBP_V2_ERR_NULL written report m, workspace, u)
  end.

(** ** From version 2 to version 1 *)

Definition restore_info (m : mem) (info payload tag_count first_tag total_size : Z) : option mem :=
  m ← bytes_zero m info 144;
  m ← store_bytes m info v1_info_magic;
  m ← put16 m (info + 16) BBP_VERSION_MAJOR;
  m ← put16 m (info + 18) BBP_VERSION_MINOR;
  m ← put32 m (info + 20) total_size;
  m ← bytes_copy m (info + 24) payload 32;
  m ← bytes_copy m (info + 56) (payload + 32) 16;
  m ← bytes_copy m (info + 72) (payload + 48) 16;
  v ← get64 m (payload + 64); m ← put64 m (info + 88) v;
  v ← get64 m (payload + 72); m ← put64 m (info + 96) v;
  v ← get64 m (payload + 80); m ← put64 m (info + 104) v;
  v ← get16 m (payload + 88); m ← put16 m (info + 112) v;
  v ← get16 m (payload + 90); m ← put16 m (info + 114) v;
  m ← put32 m (info + 116) tag_count;
  m ← put64 m (info + 120) first_tag;
  v ← get64 m (payload + 96); m ← put64 m (info + 128) v;
  crc ← crc_skip m info (sizeof bbp_info) 136;
  put64 m (info + 136) crc.

Definition blank_entry : bbp_v2_entry_view := V2EntryView 0 0 0 0 0 0 0 0.

(** [(void)bbp_v2_get_entry(...)]: were the status an error, the entry would be
    read uninitialised, which is a fault here. *)
Definition get_entry (m : mem) (checked : bbp_v2_view) (index : Z) : option bbp_v2_entry_view :=
  r ← bbp_v2_get_entry m (Some checked) index (Some blank_entry);
  match r with (BBP_V2_OK, Some e) => Some e | _ => None end.

(** The checks of one tag entry. *)
Definition check_wire (m : mem) (entry : bbp_v2_entry_view) : option bool :=
  reject (Z.land (ev_flags entry) BBP_V2_EF_V1_WIRE =? 0) ||
    negb (Z.land (ev_flags entry)
            (wrap32 (Z.lnot (Z.lor BBP_V2_EF_V1_WIRE BBP_V2_EF_EXTERNAL_PHYS))) =? 0) ||
    (ev_size entry <? sizeof bbp_tag_header) || (V1_MAX_TAG_SIZE <? ev_size entry)
    with Some false;
  let data := ev_data entry in
  v ← get64 m data; check v =? ev_type entry else Some false;
  v ← get32 m (data + 8); check v =? ev_size entry else Some false;
  v ← get16 m (data + 12); check v =? ev_version entry else Some false;
  v ← get64 m (data + 16); check v =? 0 else Some false;
  v ← get64 m (data + 24); Some (v =? 0).

(** One iteration of the checking loop: the new cursor and external count. *)
Definition to_v1_check (m : mem) (checked : bbp_v2_view) (i cursor external_count : Z) :
    option (bbp_v2_status_t + Z * Z) :=
  entry ← get_entry m checked (i + 1);
  ok ← check_wire m entry;
  check (ok : bool) else Some (inl BBP_V2_ERR_SOURCE);
  external ← tag_external_references m (ev_data entry) (ev_size entry);
  let flagged := negb (Z.land (ev_flags entry) BBP_V2_EF_EXTERNAL_PHYS =? 0) in
  reject (external <? 0) || (negb (external =? 0) && negb flagged)
    with Some (inl BBP_V2_ERR_SOURCE);
  let external_count := if flagged then wrap32 (external_count + 1) else external_count in
  reject SIZE_MAX - 7 <? cursor with Some (inl BBP_V2_ERR_OVERFLOW);
  let cursor := align8_up cursor in
  reject SIZE_MAX - cursor <? ev_size entry with Some (inl BBP_V2_ERR_OVERFLOW);
  let cursor := wrap64 (cursor + ev_size entry) in
  reject V1_MAX_INFO_SIZE <? cursor with Some (inl BBP_V2_ERR_EXTENT);
  Some (inr (cursor, external_count)).

Fixpoint to_v1_checks (m : mem) (checked : bbp_v2_view) (i cursor external_count : Z)
    (n : nat) : option (bbp_v2_status_t + Z * Z) :=
  match n with
  | O => Some (inr (cursor, external_count))
  | S n =>
      r ← to_v1_check m checked i cursor external_count;
      match r with
      | inl status => Some (inl status)
      | inr (cursor, external_count) =>
          to_v1_checks m checked (i + 1) cursor external_count n
      end
  end.

(** One iteration of the copying loop: the tag, its link and its checksum. *)
Definition to_v1_copy (m : mem) (checked : bbp_v2_view) (output output_phys tag_count : Z)
    (i cursor : Z) : option (mem * Z) :=
  entry ← get_entry m checked (i + 1);
  let cursor := align8_up cursor in
  let tag := output + cursor in
  m ← bytes_copy m tag (ev_data entry) (Z.to_nat (ev_size entry));
  let next :=
    if i + 1 <? tag_count
    then wrap64 (output_phys + align8_up (wrap64 (cursor + ev_size entry)))
    else 0 in
  m ← put64 m (tag + 16) next;
  m ← put64 m (tag + 24) 0;
  crc ← crc_skip m tag (ev_size entry) 24;
  m ← put64 m (tag + 24) crc;
  Some (m, wrap64 (cursor + ev_size entry)).

Fixpoint to_v1_copies (m : mem) (checked : bbp_v2_view) (output output_phys tag_count : Z)
    (i cursor : Z) (n : nat) : option mem :=
  match n with
  | O => Some m
  | S n =>
      '(m, cursor) ← to_v1_copy m checked output output_phys tag_count i cursor;
      to_v1_copies m checked output output_phys tag_count (i + 1) cursor n
  end.

(** The checks of the first entry, the normalized INFO. *)
Definition check_info_entry (m : mem) (info_entry : bbp_v2_entry_view) : option bool :=
  reject negb (ev_type info_entry =? BBP_V2_ENTRY_V1_INFO) ||
    negb (ev_version info_entry =? BBP_VERSION_MINOR) ||
    negb (ev_size info_entry =? sizeof bbp_v2_v1_info_payload) ||
    negb (Z.land (ev_flags info_entry) (wrap32 (Z.lnot BBP_V2_EF_EXTERNAL_PHYS)) =? 0)
    with Some false;
  next_context ← get64 m (ev_data info_entry + 96);
  Some (negb (negb (next_context =? 0) &&
              (Z.land (ev_flags info_entry) BBP_V2_EF_EXTERNAL_PHYS =? 0))).

Definition bbp_v2_to_v1 (m : mem) (source : option bbp_v2_view) (policy : Z)
    (output capacity output_phys : Z) (written : option Z)
    (report : option bbp_v2_bridge_report) : option outcome :=
  let fail status := Some (Outcome status written report m) in
  match source, written with
  | Some source, Some _ =>
  reject (v_data source =? 0) || (output =? 0) with fail BBP_V2_ERR_NULL;
  '(status, checked) ← bbp_v2_parse m (v_data source) (v_total_size source)
                         (Some (V2View 0 0 0 0 0));
  reject negb (bool_decide (status = BBP_V2_OK)) with fail status;
  let checked := default (V2View 0 0 0 0 0) checked in
  reject v_entry_count checked =? 0 with fail BBP_V2_ERR_SOURCE;
  info_entry ← get_entry m checked 0;
  ok ← check_info_entry m info_entry;
  check (ok : bool) else fail BBP_V2_ERR_SOURCE;
  let external_count :=
    if negb (Z.land (ev_flags info_entry) BBP_V2_EF_EXTERNAL_PHYS =? 0) then 1 else 0 in
  let tag_count := v_entry_count checked - 1 in
  r ← to_v1_checks m checked 0 (sizeof bbp_info) external_count (Z.to_nat tag_count);
  match r with
  | inl status => fail status
  | inr (total, external_count) =>
  reject negb (external_count =? 0) &&
    (Z.land policy BBP_V2_BRIDGE_ALLOW_EXTERNAL_PHYS =? 0) with fail BBP_V2_ERR_POLICY;
  reject capacity <? total with fail BBP_V2_ERR_CAPACITY;
  reject (output_phys =? 0) || negb (Z.land output_phys 7 =? 0) ||
    (V1_MAX_PHYS <=? output_phys) || (V1_MAX_PHYS - output_phys <? total)
    with fail BBP_V2_ERR_OVERFLOW;
  reject memory_ranges_overlap output total (v_data checked) (v_total_size checked)
    with fail BBP_V2_ERR_SOURCE;
  m ← bytes_zero m output (Z.to_nat total);
  m ← to_v1_copies m checked output output_phys tag_count 0 (sizeof bbp_info)
        (Z.to_nat tag_count);
  m ← restore_info m output (ev_data info_entry) tag_count
        (if negb (tag_count =? 0) then wrap64 (output_phys + sizeof bbp_info) else 0)
        (wrap32 total);
  let candidate := BridgeReport tag_count external_count in
  Some (Outcome BBP_V2_OK (Some total) ((fun _ => candidate) <$> report) m)
  end
  | _, _ => fail BBP_V2_ERR_NULL
  end.
