(* ===== verification/BridgeFacts.v ===== *)
(** * Facts about the bridge

    The classification of external references reads only the tag's identifier
    and body; the checks and copies of [bbp_v2_to_v1] in terms of the payloads of
    the capsule; the chain the copies leave. *)

From S2P Require Import Prelude Memory Crc64 Abi Capsule CapsuleFacts CapsuleBuild CapsuleProps Bridge.

(** Evaluate the sizes of the structures. *)
Ltac sizes :=
  repeat match goal with
  | |- context [sizeof ?t] =>
      let v := eval vm_compute in (sizeof t) in change (sizeof t) with v in *
  | H : context [sizeof ?t] |- _ =>
      let v := eval vm_compute in (sizeof t) in change (sizeof t) with v in *
  end.

Ltac brconsts :=
  unfold V1_MAX_TAG_SIZE, V1_MAX_INFO_SIZE, V1_MAX_PHYS, BBP_VERSION_MINOR, BBP_VERSION_MAJOR,
    SIZE_MAX in *.

(** ** External references *)

Section References.
(** Two tags of the same size that agree outside the link and checksum fields. *)
Context (m m' : mem) (t t' size : Z).
Context (Hm : mapped m t size).
Context (Hag : forall o, 0 <= o < 16 \/ 32 <= o < size -> m' !! (t' + o) = m !! (t + o)).

Lemma both_load o n :
  0 <= o -> o + Z.of_nat n <= size -> o + Z.of_nat n <= 16 \/ 32 <= o ->
  exists v, load_le m (t + o) n = Some v /\ load_le m' (t' + o) n = Some v /\
    in_word (8 * Z.of_nat n) v.
Proof.
  intros Ho Hs Hd. destruct (mapped_load_le m (t + o) n) as (v & Hv & Hw).
  { eapply mapped_sub; [exact Hm|lia|lia]. }
  exists v. split_and!; [done| |done]. rewrite <- Hv. unfold load_le. f_equal.
  assert (forall k a a', (forall x, 0 <= x < Z.of_nat k -> m' !! (a' + x) = m !! (a + x)) ->
    load_bytes m' a' k = load_bytes m a k) as H.
  { clear. induction k as [|k IH]; intros a a' H; [done|]. cbn [load_bytes].
    rewrite <- (Z.add_0_r a'), <- (Z.add_0_r a), H, !Z.add_0_r by lia.
    rewrite (IH (a + 1) (a' + 1)); [done|]. intros x Hx. rewrite <- !Z.add_assoc. apply H. lia. }
  apply H. intros x Hx. rewrite <- !Z.add_assoc. apply Hag. lia.
Qed.

Lemma both_nonzero os :
  Forall (fun o => 32 <= o /\ o + 8 <= size) os ->
  exists b, any_nonzero m (map (Z.add t) os) = Some b /\
    any_nonzero m' (map (Z.add t') os) = Some b.
Proof.
  induction 1 as [|o os [Ho Hs] _ IH]; cbn [map any_nonzero]; [by exists false|].
  destruct (both_load o 8) as (v & Hv & Hv' & _); [lia..|].
  rewrite !get64_load. unfold load64. rewrite Hv, Hv'. cbn [mbind option_bind].
  destruct (v =? 0); cbn [negb]; [done|by exists true].
Qed.

Lemma both_elements (fields : list Z) stride n o :
  Forall (fun f => 0 <= f /\ f + 8 <= stride) fields -> 32 <= o ->
  o + Z.of_nat n * stride <= size -> 0 < stride ->
  exists b : bool,
    any_element (fun e => any_nonzero m (map (Z.add e) fields)) (t + o) stride n =
      Some (if b then 1 else 0) /\
    any_element (fun e => any_nonzero m' (map (Z.add e) fields)) (t' + o) stride n =
      Some (if b then 1 else 0).
Proof.
  intros Hf Ho. revert o Ho. induction n as [|n IH]; intros o Ho Hs Hst; [by exists false|].
  cbn [any_element]. destruct (both_nonzero (map (Z.add o) fields)) as (b & Hb & Hb').
  { apply List.Forall_forall. intros x Hx. apply in_map_iff in Hx as (f & <- & Hin).
    rewrite List.Forall_forall in Hf. specialize (Hf f Hin). nia. }
  rewrite !map_map in Hb, Hb'.
  rewrite (map_ext (Z.add (t + o)) (fun x => t + (o + x))) by (intros; lia).
  rewrite (map_ext (Z.add (t' + o)) (fun x => t' + (o + x))) by (intros; lia).
  rewrite Hb, Hb'. cbn [mbind option_bind]. destruct b; [by exists true|].
  rewrite <- !Z.add_assoc. apply IH; nia.
Qed.

Lemma array_fits_spec base count stride :
  0 < stride -> array_fits size base count stride = true -> base + count * stride <= size.
Proof.
  intros Hs. unfold array_fits. destruct (Z.ltb_spec size base); [done|]. intros H1.
  apply Z.leb_le in H1. pose proof (Z.mul_div_le (size - base) stride Hs). nia.
Qed.

(** Two computations with the same classification. *)
Definition agree (x y : option Z) : Prop :=
  exists r, x = Some r /\ y = Some r /\ (r = -1 \/ r = 0 \/ r = 1).

Lemma agree_const r : r = -1 \/ r = 0 \/ r = 1 -> agree (Some r) (Some r).
Proof. intros H. by exists r. Qed.

Lemma agree_if (c : bool) x y x' y' :
  (c = true -> agree x x') -> (c = false -> agree y y') ->
  agree (if c then x else y) (if c then x' else y').
Proof. destruct c; auto. Qed.

Lemma agree_get16 o (K K' : Z -> option Z) :
  32 <= o -> o + 2 <= size -> (forall v, in_word 16 v -> agree (K v) (K' v)) ->
  agree (v ← get16 m (t + o); K v) (v ← get16 m' (t' + o); K' v).
Proof.
  intros Ho Hs H. destruct (both_load o 2) as (v & Hv & Hv' & Hw); [lia..|].
  rewrite !get16_load. unfold load16. rewrite Hv, Hv'. by apply H.
Qed.

Lemma agree_get32 o (K K' : Z -> option Z) :
  32 <= o -> o + 4 <= size -> (forall v, in_word 32 v -> agree (K v) (K' v)) ->
  agree (v ← get32 m (t + o); K v) (v ← get32 m' (t' + o); K' v).
Proof.
  intros Ho Hs H. destruct (both_load o 4) as (v & Hv & Hv' & Hw); [lia..|].
  rewrite !get32_load. unfold load32. rewrite Hv, Hv'. by apply H.
Qed.

Lemma agree_nonzero os (K K' : bool -> option Z) :
  forallb (fun o => (32 <=? o) && (o + 8 <=? size)) os = true ->
  (forall b, agree (K b) (K' b)) ->
  agree (b ← any_nonzero m (map (Z.add t) os); K b) (b ← any_nonzero m' (map (Z.add t') os); K' b).
Proof.
  intros Hos H. destruct (both_nonzero os) as (b & -> & ->); [|apply H].
  rewrite forallb_forall in Hos. apply List.Forall_forall. intros o Ho. specialize (Hos o Ho).
  cbn in Hos. lia.
Qed.

Lemma agree_elements fields stride n o :
  forallb (fun f => (0 <=? f) && (f + 8 <=? stride)) fields = true -> 32 <= o ->
  0 <= n -> o + n * stride <= size -> 0 < stride ->
  agree (any_element (fun e => any_nonzero m (map (Z.add e) fields)) (t + o) stride (Z.to_nat n))
    (any_element (fun e => any_nonzero m' (map (Z.add e) fields)) (t' + o) stride (Z.to_nat n)).
Proof.
  intros Hf Ho Hn Hs Hst.
  destruct (both_elements fields stride (Z.to_nat n) o) as (b & -> & ->); try lia.
  - rewrite forallb_forall in Hf. apply List.Forall_forall. intros f Hin. specialize (Hf f Hin).
    cbn in Hf. lia.
  - apply agree_const. destruct b; lia.
Qed.

Lemma any_element_ext p q element stride n :
  (forall e, p e = q e) -> any_element p element stride n = any_element q element stride n.
Proof.
  intros H. revert element. induction n as [|n IH]; intros e; [done|]. cbn [any_element].
  rewrite H. destruct (q e) as [[]|]; [done|apply IH|done].
Qed.

Ltac agree_step :=
  first
  [ apply agree_const; lia
  | apply agree_const; match goal with |- (if ?c then _ else _) = _ \/ _ => destruct c; lia end
  | apply agree_if; intros ?
  | apply agree_get32; [lia|lia|intros ? [? ?]]
  | apply agree_get16; [lia|lia|intros ? [? ?]] ].

(** The classification of a mapped tag is defined, and it is the same for both
    tags. *)
Lemma tag_external_references_agree :
  32 <= size -> agree (tag_external_references m t size) (tag_external_references m' t' size).
Proof.
  intros Hsz. destruct (both_load 0 8) as (id & Hid & Hid' & _); [lia..|].
  rewrite Z.add_0_r in Hid, Hid'. unfold tag_external_references. sizes.
  rewrite !(get64_load _ t), !(get64_load _ t'). unfold load64. rewrite Hid, Hid'.
  cbn [mbind option_bind]. clear Hid Hid'.
  assert (forall os, forallb (fun o => (32 <=? o) && (o + 8 <=? size)) os = true ->
    agree (as_int (any_nonzero m (map (Z.add t) os)))
      (as_int (any_nonzero m' (map (Z.add t') os)))) as Hnz.
  { intros os Hos. apply (agree_nonzero os (fun b => Some (if b : bool then 1 else 0))
      (fun b => Some (if b : bool then 1 else 0))); [done|]. intros []; apply agree_const; lia. }
  repeat agree_step.
  all: try (apply (Hnz [32]); cbn; lia). all: try (apply (Hnz [32; 40]); cbn; lia).
  - apply (Hnz [32; 56]). cbn. lia.
  - apply (Hnz [32; 64; 80; 96]). cbn. lia.
  - apply (agree_nonzero [32; 56]); [cbn; lia|]. intros [|]; [agree_step|].
    apply (agree_elements [32]); try done. by apply array_fits_spec.
  - apply (agree_elements [32]); try done. by apply array_fits_spec.
  - rewrite !(any_element_ext (fun e => any_nonzero _ [e; e + 96])
      (fun e => any_nonzero _ (map (Z.add e) [0; 96]))) by (intros; cbn [map]; by rewrite Z.add_0_r).
    apply (agree_elements [0; 96]); try done. by apply array_fits_spec.
  - apply (agree_nonzero [32]); [cbn; lia|]. intros b. agree_step.
Qed.
End References.

(** On any readable tag the classification is -1, 0 or 1. *)
Lemma tag_external_references_total m t size :
  32 <= size -> mapped m t size ->
  exists r, tag_external_references m t size = Some r /\ (r = -1 \/ r = 0 \/ r = 1).
Proof.
  intros Hs Hm. destruct (tag_external_references_agree m m t t size) as (r & ? & _ & ?); eauto.
Qed.

(** ** Sealing *)

Lemma crc_skip_spec m a bs off :
  bytes_at m a bs -> 0 <= off -> off + 8 <= zlen bs ->
  crc_skip m a (zlen bs) off = Some (crc64_skip_of bs (Z.to_nat off)).
Proof.
  intros Hat Ho Hl. unfold crc_skip. rewrite (proj2 (Z.ltb_ge _ _)) by lia.
  apply crc_skip_loaded; [done|done|]. apply load_bytes_at. unfold zlen. split; [lia|done].
Qed.

(** Replacing a field of a byte string. *)
Definition patch (bs : list byte) (off : nat) (xs : list byte) : list byte :=
  take off bs ++ xs ++ drop (off + length xs) bs.

Lemma length_patch bs off xs :
  (off + length xs <= length bs)%nat -> length (patch bs off xs) = length bs.
Proof. intros H. unfold patch. rewrite !length_app, length_take, length_drop. lia. Qed.

Lemma zlen_patch bs off xs :
  (off + length xs <= length bs)%nat -> zlen (patch bs off xs) = zlen bs.
Proof. intros H. unfold zlen. by rewrite length_patch. Qed.

Lemma patch_lookup bs off xs i :
  (off + length xs <= length bs)%nat ->
  patch bs off xs !! i = if decide (off <= i < off + length xs)%nat then xs !! (i - off)%nat else bs !! i.
Proof.
  intros H. unfold patch. destruct (decide _) as [Hi|Hi].
  - rewrite lookup_app_r by (rewrite length_take; lia). rewrite length_take_le by lia.
    apply lookup_app_l. lia.
  - destruct (decide (i < off)%nat).
    + rewrite lookup_app_l by (rewrite length_take; lia). apply lookup_take_lt. lia.
    + rewrite lookup_app_r by (rewrite length_take; lia). rewrite length_take_le by lia.
      rewrite lookup_app_r by lia. rewrite lookup_drop. f_equal. lia.
Qed.

Lemma patch_store m a bs off v :
  bytes_at m a bs -> 0 <= off -> off + 8 <= zlen bs ->
  exists m', put64 m (a + off) v = Some m' /\ frame a (zlen bs) m m' /\
    bytes_at m' a (patch bs (Z.to_nat off) (le_encode 8 v)).
Proof.
  intros Hat Ho Hl. rewrite put64_store. unfold store64.
  destruct (store_bytes_mapped m (a + off) (le_encode 8 v)) as [m' E].
  { rewrite zlen_le_encode. eapply mapped_sub; [by apply bytes_at_mapped|lia|lia]. }
  exists m'. split; [done|]. split.
  - eapply frame_weaken; [by apply frame_store|lia|]. rewrite zlen_le_encode. lia.
  - unfold patch. unfold zlen in Hl. eapply store_bytes_splice; [done| |].
    + rewrite length_le_encode. lia.
    + rewrite Z2Nat.id by done. done.
Qed.

Lemma seal_at_patch bs off : seal_at bs off = patch bs off (le_encode 8 (crc64_skip_of bs off)).
Proof. unfold seal_at, patch. by rewrite length_le_encode. Qed.

(** Computing and storing the checksum seals a structure. *)
Lemma seal_crc_skip m a bs off :
  bytes_at m a bs -> 0 <= off -> off + 8 <= zlen bs ->
  exists crc m', crc_skip m a (zlen bs) off = Some crc /\ put64 m (a + off) crc = Some m' /\
    frame a (zlen bs) m m' /\ bytes_at m' a (seal_at bs (Z.to_nat off)).
Proof.
  intros Hat Ho Hl. rewrite (crc_skip_spec _ _ _ _ Hat Ho Hl). eexists.
  destruct (patch_store m a bs off (crc64_skip_of bs (Z.to_nat off)) Hat Ho Hl) as (m' & ? & ? & ?).
  exists m'. by rewrite seal_at_patch.
Qed.

Lemma seal_at_patched bs off xs :
  length xs = 8%nat -> (off + 8 <= length bs)%nat -> seal_at (patch bs off xs) off = seal_at bs off.
Proof.
  intros Hx H. assert (take off (patch bs off xs) = take off bs) as Ht.
  { unfold patch. by rewrite take_app_length' by (rewrite length_take; lia). }
  assert (drop (off + 8) (patch bs off xs) = drop (off + 8) bs) as Hd.
  { unfold patch. rewrite Hx, app_assoc. apply drop_app_length'.
    rewrite length_app, length_take. lia. }
  unfold seal_at, crc64_skip_of. by rewrite Ht, Hd.
Qed.

(** The same after clearing the field first. *)
Lemma reseal m a bs off :
  bytes_at m a bs -> 0 <= off -> off + 8 <= zlen bs ->
  exists m1 crc m', put64 m (a + off) 0 = Some m1 /\ crc_skip m1 a (zlen bs) off = Some crc /\
    put64 m1 (a + off) crc = Some m' /\
    frame a (zlen bs) m m' /\ bytes_at m' a (seal_at bs (Z.to_nat off)).
Proof.
  intros Hat Ho Hl. destruct (patch_store m a bs off 0 Hat Ho Hl) as (m1 & E1 & F1 & Hat1).
  assert (Z.to_nat off + length (le_encode 8 0) <= length bs)%nat as Hlen
    by (rewrite length_le_encode; unfold zlen in Hl; lia).
  destruct (seal_crc_skip m1 a _ off Hat1 Ho) as (crc & m' & E2 & E3 & F2 & Hat2);
    rewrite zlen_patch in * by done; [done|].
  rewrite seal_at_patched in Hat2 by (rewrite length_le_encode in *; lia).
  exists m1, crc, m'. split_and!; try done. by eapply frame_trans.
Qed.

(** ** The restored chain as bytes *)

(** A payload with its link and checksum. *)
Definition relink (p : list byte) (next : Z) : list byte := seal_at (patch p 16 (le_encode 8 next)) 24.

Lemma zlen_relink p next : 32 <= zlen p -> zlen (relink p next) = zlen p.
Proof.
  intros H. unfold relink, zlen in *. rewrite length_seal_at; rewrite length_patch;
    rewrite ?length_le_encode; lia.
Qed.

(** Positions of the tags from [cursor] on, and the end of the last. *)
Fixpoint v1_end (cursor : Z) (ps : list (list byte)) : Z :=
  match ps with
  | [] => cursor
  | p :: ps => v1_end (round_up 8 cursor + zlen p) ps
  end.

Definition v1_next (phys cursor : Z) (ps : list (list byte)) : Z :=
  match ps with [] => 0 | _ => phys + round_up 8 cursor end.

Fixpoint v1_chain (phys cursor : Z) (ps : list (list byte)) : list byte :=
  match ps with
  | [] => []
  | p :: ps =>
      let o := round_up 8 cursor in
      replicate (Z.to_nat (o - cursor)) x00 ++
      relink p (v1_next phys (o + zlen p) ps) ++ v1_chain phys (o + zlen p) ps
  end.

Lemma v1_end_ge cursor ps : cursor <= v1_end cursor ps.
Proof.
  revert cursor. induction ps as [|p ps IH]; intros c; cbn [v1_end]; [lia|].
  specialize (IH (round_up 8 c + zlen p)). pose proof (round_up_bounds 8 c ltac:(lia)).
  pose proof (zlen_nonneg p). lia.
Qed.

Lemma zlen_v1_chain phys cursor ps :
  Forall (fun p => 32 <= zlen p) ps -> zlen (v1_chain phys cursor ps) = v1_end cursor ps - cursor.
Proof.
  intros Hps. revert cursor. induction Hps as [|p ps Hp Hps IH]; intros c; cbn [v1_end v1_chain].
  { unfold zlen. cbn. lia. }
  pose proof (round_up_bounds 8 c ltac:(lia)). autorewrite with zlen.
  rewrite IH, zlen_relink by done. lia.
Qed.

(** ** Entries of a capsule *)

(** The payload of an entry. *)
Definition payload (bs : list byte) (i : Z) : list byte :=
  slice bs (e_offset bs (c_dir bs) i) (e_size bs (c_dir bs) i).
Definition payloads (bs : list byte) (i : Z) (k : nat) : list (list byte) :=
  map (payload bs) (seqZ i (Z.of_nat k)).

Lemma payloads_nil bs i : payloads bs i 0 = [].
Proof. reflexivity. Qed.

Lemma payloads_succ bs i k : payloads bs i (S k) = payload bs i :: payloads bs (i + 1) k.
Proof. unfold payloads. rewrite seqZ_cons by lia. cbn. do 3 f_equal. lia. Qed.

(** Entries flagged as holding physical references. *)
Definition is_external (bs : list byte) (i : Z) : bool :=
  negb (Z.land (e_flags bs (c_dir bs) i) BBP_V2_EF_EXTERNAL_PHYS =? 0).
Fixpoint externals (bs : list byte) (i : Z) (k : nat) : Z :=
  match k with
  | O => 0
  | S k => (if is_external bs i then 1 else 0) + externals bs (i + 1) k
  end.

Lemma externals_range bs i k : 0 <= externals bs i k <= Z.of_nat k.
Proof.
  revert i. induction k as [|k IH]; intros i; cbn [externals]; [lia|].
  specialize (IH (i + 1)). destruct (is_external bs i); lia.
Qed.

(** The classification of a tag, from its bytes. *)
Definition refs_of (p : list byte) : Z :=
  default (-1) (tag_external_references (mem_of 1 p) 1 (zlen p)).

Lemma agree_bytes m t p m' t' q o :
  bytes_at m t p -> bytes_at m' t' q -> q !! Z.to_nat o = p !! Z.to_nat o ->
  0 <= o < zlen p -> m' !! (t' + o) = m !! (t + o).
Proof.
  intros Hp Hq E Ho. destruct (lookup_lt_is_Some_2 p (Z.to_nat o)) as [b Hb]; [unfold zlen in *; lia|].
  rewrite Hb in E. apply Hp in Hb. apply Hq in E. rewrite Z2Nat.id in Hb, E by lia. congruence.
Qed.

(** The classification depends on the identifier and the body only. *)
Lemma refs_of_spec m t p :
  bytes_at m t p -> 32 <= zlen p ->
  tag_external_references m t (zlen p) = Some (refs_of p) /\
  (refs_of p = -1 \/ refs_of p = 0 \/ refs_of p = 1).
Proof.
  intros Hat Hl. pose proof (bytes_at_mem_of 1 p) as Hat1.
  destruct (tag_external_references_agree (mem_of 1 p) m 1 t (zlen p)) as (r & E1 & E2 & Hr); [| |done|].
  - by apply bytes_at_mapped.
  - intros o Ho. eapply agree_bytes; [done|done|done|lia].
  - unfold refs_of. rewrite E1. done.
Qed.

Lemma refs_of_unlinked p q :
  32 <= zlen p -> zlen q = zlen p ->
  (forall i, (i < 16 \/ 32 <= i)%nat -> q !! i = p !! i) -> refs_of q = refs_of p.
Proof.
  intros Hl Hz H. unfold refs_of. rewrite Hz.
  destruct (tag_external_references_agree (mem_of 1 p) (mem_of 1 q) 1 1 (zlen p)) as (r & -> & -> & _);
    [by apply bytes_at_mapped, bytes_at_mem_of| |done|done].
  intros o Ho. eapply agree_bytes; [apply bytes_at_mem_of|apply bytes_at_mem_of| |lia].
  apply H. lia.
Qed.

(** ** Checking a capsule for conversion *)

Section Checks.
Context (m : mem) (c : Z) (bs : list byte).
Context (Hc : 0 < c) (Hat : bytes_at m c bs) (Hwf : wf_capsule bs).

Lemma get_entry_spec i :
  0 <= i < c_count bs -> get_entry m (view_of c bs) i = Some (entry_view c bs (c_dir bs) i).
Proof.
  intros Hi. pose proof (wf_hdr _ Hwf) as Hh. destruct Hh. unfold get_entry.
  rewrite (bbp_v2_get_entry_spec m (view_of c bs) bs); cbn; try done; try lia.
  rewrite decide_True; [done|]. by apply (eo_inside _ _ _ (wf_entries _ Hwf i Hi)).
Qed.

Lemma payload_facts i :
  0 <= i < c_count bs ->
  zlen (payload bs i) = e_size bs (c_dir bs) i /\
  bytes_at m (c + e_offset bs (c_dir bs) i) (payload bs i) /\
  0 <= e_offset bs (c_dir bs) i /\
  e_offset bs (c_dir bs) i + e_size bs (c_dir bs) i <= zlen bs.
Proof.
  intros Hi. destruct (wf_entries _ Hwf i Hi) as [_ _ _ Hne Hin].
  pose proof (fld_nonneg 8 bs (entry_pos (c_dir bs) i + 16) : 0 <= e_offset bs (c_dir bs) i).
  split_and!; [apply length_slice; lia| |done|done].
  destruct (proj1 (load_bytes_at _ _ _ _)
    (slice_load m c bs (e_offset bs (c_dir bs) i) (e_size bs (c_dir bs) i) Hat H ltac:(lia) Hin)); done.
Qed.

(** What makes an entry convertible to a tag. *)
Record wire_tag (i : Z) : Prop := WireTag {
  wt_wire : Z.land (e_flags bs (c_dir bs) i) BBP_V2_EF_V1_WIRE <> 0;
  wt_flags : Z.land (e_flags bs (c_dir bs) i)
    (wrap32 (Z.lnot (Z.lor BBP_V2_EF_V1_WIRE BBP_V2_EF_EXTERNAL_PHYS))) = 0;
  wt_size : 32 <= zlen (payload bs i) <= V1_MAX_TAG_SIZE;
  wt_id : fld 8 (payload bs i) 0 = e_type bs (c_dir bs) i;
  wt_length : fld 4 (payload bs i) 8 = zlen (payload bs i);
  wt_version : fld 2 (payload bs i) 12 = e_version bs (c_dir bs) i;
  wt_unlinked : fld 8 (payload bs i) 16 = 0 /\ fld 8 (payload bs i) 24 = 0;
  wt_references : refs_of (payload bs i) = 0 \/
    (refs_of (payload bs i) = 1 /\ is_external bs i = true);
}.

Lemma check_wire_spec i :
  0 <= i < c_count bs ->
  exists ok, check_wire m (entry_view c bs (c_dir bs) i) = Some ok /\
    (ok = true -> 32 <= zlen (payload bs i) <= V1_MAX_TAG_SIZE) /\
    (ok = true /\ (refs_of (payload bs i) = 0 \/
       (refs_of (payload bs i) = 1 /\ is_external bs i = true)) <-> wire_tag i).
Proof.
  intros Hi. destruct (payload_facts i Hi) as (Hl & Hp & _). unfold check_wire.
  cbn [ev_flags ev_size ev_data ev_type ev_version entry_view]. rewrite <- Hl. sizes.
  destruct (_ || _) eqn:G.
  { exists false. split_and!; [done|done|]. split; [by intros []|]. intros []. lia. }
  rewrite !orb_false_iff, !Z.ltb_ge, Z.eqb_neq, negb_false_iff, Z.eqb_eq in G.
  destruct G as (((? & ?) & ?) & ?). rewrite !get64_load, get32_load, get16_load.
  unfold load64, load32, load16.
  pose proof (fld_load _ _ _ 0 8 Hp) as Hid. rewrite Z.add_0_r in Hid.
  rewrite Hid, !(fld_load _ _ _ _ _ Hp) by lia. cbn [mbind option_bind].
  repeat match goal with
  | |- context [if (?x =? ?y) then _ else Some false] =>
      destruct (Z.eqb_spec x y);
      [|exists false; split_and!; [done|done|]; split; [by intros []|by intros []; tauto]]
  end.
  eexists. split; [reflexivity|]. split; [done|]. rewrite Z.eqb_eq. split.
  - intros [? ?]. by constructor.
  - intros []. tauto.
Qed.

Lemma to_v1_check_spec i cursor ext :
  0 <= i -> i + 1 < c_count bs -> 0 <= cursor <= V1_MAX_INFO_SIZE -> 0 <= ext <= i + 1 ->
  verdict (to_v1_check m (view_of c bs) i cursor ext)
    (wire_tag (i + 1) /\ round_up 8 cursor + zlen (payload bs (i + 1)) <= V1_MAX_INFO_SIZE)
    (fun v => v = (round_up 8 cursor + zlen (payload bs (i + 1)),
                   ext + (if is_external bs (i + 1) then 1 else 0))).
Proof.
  intros Hi Hn Hcur Hext. assert (0 <= i + 1 < c_count bs) as Hi1 by lia.
  pose proof (wh_count _ (wf_hdr _ Hwf)) as Hmax. vconsts.
  destruct (payload_facts _ Hi1) as (Hl & Hp & Ho & Hin). unfold to_v1_check.
  rewrite get_entry_spec by done. cbn [mbind option_bind].
  destruct (check_wire_spec _ Hi1) as (ok & -> & Hsz & Hw). cbn [mbind option_bind].
  destruct ok; [|rejected; intros [H _]; apply Hw in H as [? _]; done].
  specialize (Hsz eq_refl). cbn [ev_data ev_size ev_flags entry_view]. rewrite <- Hl.
  destruct (refs_of_spec _ _ _ Hp ltac:(lia)) as [-> Hr]. cbn [mbind option_bind].
  fold (is_external bs (i + 1)). set (ex := is_external bs (i + 1)) in *.
  destruct (_ || _) eqn:G.
  { rejected. intros [H _]. apply Hw in H as [_ [Hr'|[Hr' He]]]; rewrite Hr' in G; [done|].
    rewrite He in G. done. }
  assert (wire_tag (i + 1)) as Hwire.
  { apply Hw. split; [done|]. destruct Hr as [Hr|[Hr|Hr]]; rewrite Hr in G |- *; [done|by left|].
    right. by destruct ex. }
  brconsts. rewrite align8_up_eq by (brconsts; lia). pose proof (round_up_bounds 8 cursor ltac:(lia)).
  do 2 (rewrite (proj2 (Z.ltb_ge _ _)) by lia).
  rewrite !(wrap_small 64) by (unfold in_word; lia).
  destruct (Z.ltb_spec (64 * 1024 * 1024) (round_up 8 cursor + zlen (payload bs (i + 1)))).
  { rejected. lia. }
  eexists. split; [reflexivity|]. split; [done|]. f_equal.
  destruct ex; [|lia]. rewrite wrap_small by (unfold in_word; lia). lia.
Qed.

Lemma to_v1_checks_spec i cursor ext k :
  0 <= i -> i + Z.of_nat k = c_count bs - 1 -> 0 <= cursor <= V1_MAX_INFO_SIZE -> 0 <= ext <= i + 1 ->
  verdict (to_v1_checks m (view_of c bs) i cursor ext k)
    ((forall j, i < j < c_count bs -> wire_tag j) /\
     v1_end cursor (payloads bs (i + 1) k) <= V1_MAX_INFO_SIZE)
    (fun v => v = (v1_end cursor (payloads bs (i + 1) k), ext + externals bs (i + 1) k)).
Proof.
  revert i cursor ext. induction k as [|k IH]; intros i cursor ext Hi Hk Hcur Hext; cbn [to_v1_checks].
  { eexists. split; [reflexivity|]. rewrite payloads_nil. cbn [v1_end externals].
    split; [|f_equal; lia]. split; [|lia]. intros j Hj. lia. }
  rewrite payloads_succ. cbn [v1_end externals].
  destruct (to_v1_check_spec i cursor ext) as (r & -> & Hr); [lia..|]. cbn [mbind option_bind].
  pose proof (v1_end_ge (round_up 8 cursor + zlen (payload bs (i + 1))) (payloads bs (i + 1 + 1) k)).
  destruct r as [st|v].
  { destruct Hr as [Hst Hno]. eexists. split; [reflexivity|]. split; [done|].
    intros [Hall Hend]. apply Hno. split; [apply Hall; lia|lia]. }
  destruct Hr as [[Hw Hend] ->]. pose proof (round_up_bounds 8 cursor ltac:(lia)).
  pose proof (zlen_nonneg (payload bs (i + 1))).
  destruct (IH (i + 1) (round_up 8 cursor + zlen (payload bs (i + 1)))
    (ext + (if is_external bs (i + 1) then 1 else 0))) as (r & -> & Hr);
    [lia|lia|lia|destruct (is_external bs (i + 1)); lia|].
  eexists. split; [reflexivity|]. destruct r as [st|v].
  - destruct Hr as [Hst Hno]. split; [done|]. intros [Hall He]. apply Hno. split; [|done].
    intros j Hj. apply Hall. lia.
  - destruct Hr as [[Hall He] ->]. split; [|f_equal; lia]. split; [|done].
    intros j Hj. destruct (decide (j = i + 1)) as [->|]; [done|]. apply Hall. lia.
Qed.
End Checks.

(** ** Moving fields between structures *)

Lemma slice_merge bs off n next k :
  0 <= off -> 0 <= n -> 0 <= k -> next = off + n ->
  slice bs off n ++ slice bs next k = slice bs off (n + k).
Proof.
  intros Ho Hn Hk ->. unfold slice.
  replace (Z.to_nat (off + n)) with (Z.to_nat off + Z.to_nat n)%nat by lia.
  replace (Z.to_nat (n + k)) with (Z.to_nat n + Z.to_nat k)%nat by lia.
  rewrite <- drop_drop. by rewrite take_take_drop.
Qed.

Lemma slice_merge_app bs off n next k rest :
  0 <= off -> 0 <= n -> 0 <= k -> next = off + n ->
  slice bs off n ++ slice bs next k ++ rest = slice bs off (n + k) ++ rest.
Proof. intros. rewrite app_assoc. by rewrite slice_merge. Qed.

Lemma le_encode_fld n bs off :
  0 <= off -> off + Z.of_nat n <= zlen bs -> le_encode n (fld n bs off) = slice bs off (Z.of_nat n).
Proof.
  intros Ho Hl. unfold fld, slice. rewrite Nat2Z.id.
  rewrite <- (length_take_le (drop (Z.to_nat off) bs) n) at 1.
  - apply le_encode_decode.
  - rewrite length_drop. unfold zlen in Hl. lia.
Qed.

Section Transfer.
(** A destination of [L] bytes at [a], being filled from the left, partly from
    a source [ip] at [src]. *)
Context (m0 : mem) (a L src : Z) (ip : list byte).
Context (Hap : src + zlen ip <= a \/ a + L <= src).

Definition transferring (m : mem) (xs : list byte) (k : nat) : Prop :=
  filled m a xs k /\ zlen xs + Z.of_nat k = L /\ bytes_at m src ip /\ frame a L m0 m.

Lemma transfer_store m xs zs k b :
  transferring m xs (length zs + k) -> b = a + zlen xs ->
  exists m', store_bytes m b zs = Some m' /\ transferring m' (xs ++ zs) k.
Proof.
  intros (Hf & HL & Hs & Hfr) Hb. pose proof (zlen_nonneg xs).
  destruct (filled_store m a b xs k zs Hf Hb) as (m' & E & F & Hf').
  exists m'. split; [done|]. unfold transferring. autorewrite with zlen. unfold zlen in HL |- *.
  split_and!; [done|unfold zlen; lia| |].
  - eapply frame_bytes_at; [exact F| |done]. unfold zlen in *. lia.
  - eapply frame_trans; [exact Hfr|]. eapply frame_weaken; [exact F|unfold zlen in *; lia|].
    unfold zlen in *. lia.
Qed.

Lemma transfer_put n m xs k b v :
  transferring m xs (n + k) -> b = a + zlen xs ->
  exists m', store_bytes m b (le_encode n v) = Some m' /\ transferring m' (xs ++ le_encode n v) k.
Proof. intros H. apply transfer_store. by rewrite length_le_encode. Qed.

Lemma transfer_skip n m xs k : transferring m xs (n + k) -> transferring m (xs ++ replicate n x00) k.
Proof.
  intros (Hf & HL & Hs & Hfr). split_and!; [by apply filled_skip| |done|done].
  autorewrite with zlen. lia.
Qed.

Lemma transfer_field n m xs k b s off :
  transferring m xs (n + k) -> b = a + zlen xs -> s = src + off -> 0 <= off ->
  off + Z.of_nat n <= zlen ip ->
  exists v m', load_le m s n = Some v /\ store_bytes m b (le_encode n v) = Some m' /\
    transferring m' (xs ++ slice ip off (Z.of_nat n)) k.
Proof.
  intros H Hb -> Ho Hl. pose proof H as (_ & _ & Hs & _).
  exists (fld n ip off). rewrite (fld_load _ _ _ _ _ Hs) by lia.
  destruct (transfer_put n m xs k b (fld n ip off) H Hb) as (m' & E & H').
  exists m'. rewrite <- le_encode_fld by done. done.
Qed.

Lemma transfer_copy n m xs k b s off :
  transferring m xs (n + k) -> b = a + zlen xs -> s = src + off -> 0 <= off ->
  off + Z.of_nat n <= zlen ip ->
  exists m', bytes_copy m b s n = Some m' /\ transferring m' (xs ++ slice ip off (Z.of_nat n)) k.
Proof.
  intros H Hb -> Ho Hl. pose proof H as (_ & HL & Hs & _). pose proof (zlen_nonneg xs).
  pose proof (length_slice ip off (Z.of_nat n) Ho ltac:(lia) Hl) as Hlen.
  destruct (transfer_store m xs (slice ip off (Z.of_nat n)) k b) as (m' & E & H'); [|done|].
  { unfold zlen in Hlen. by replace (length (slice ip off (Z.of_nat n))) with n by lia. }
  exists m'. split; [|done]. unfold bytes_copy. rewrite (mem_copy_store m _ _ _ (slice ip off (Z.of_nat n))).
  - done.
  - rewrite <- (Nat2Z.id n) at 1. apply slice_load; [done|lia..].
  - apply disjoint_range_intro. lia.
Qed.
End Transfer.

(** Run the next statement of a transfer: [n] bytes to offset [o], from offset
    [off] of the source, where [k] bytes stay to be filled. *)
Ltac transfer_side := autorewrite with zlen; rewrite ?length_slice by lia; lia.
Ltac move_field n k o off :=
  match goal with
  | T : transferring ?m0 ?a ?L ?src ?ip ?m ?xs _ |- _ =>
      let v := fresh "v" in let m' := fresh "m" in
      let E1 := fresh "E" in let E2 := fresh "E" in let T' := fresh "T" in
      destruct (transfer_field m0 a L src ip ltac:(assumption) n m xs k (a + o) (src + off) off T)
        as (v & m' & E1 & E2 & T'); [transfer_side|done|lia|lia|];
      rewrite ?get64_load, ?get16_load; unfold load64, load16;
      rewrite E1; cbn [mbind option_bind]; rewrite ?put64_store, ?put16_store;
      unfold store64, store16; rewrite E2; cbn [mbind option_bind]; clear E1 E2 T
  end.
Ltac move_bytes n k off :=
  match goal with
  | T : transferring ?m0 ?a ?L ?src ?ip ?m ?xs _ |- context [bytes_copy ?m ?b ?s n] =>
      let m' := fresh "m" in let E := fresh "E" in let T' := fresh "T" in
      destruct (transfer_copy m0 a L src ip ltac:(assumption) n m xs k b s off T)
        as (m' & E & T'); [transfer_side|lia|lia|lia|];
      rewrite E; cbn [mbind option_bind]; clear E T
  end.
Ltac move_value n k :=
  rewrite ?put64_store, ?put32_store, ?put16_store; unfold store64, store32, store16;
  match goal with
  | T : transferring ?m0 ?a ?L ?src ?ip ?m ?xs _ |- context [store_bytes ?m ?b (le_encode n ?v)] =>
      let m' := fresh "m" in let E := fresh "E" in let T' := fresh "T" in
      destruct (transfer_put m0 a L src ip ltac:(assumption) n m xs k b v T)
        as (m' & E & T'); [transfer_side|];
      rewrite E; cbn [mbind option_bind]; clear E T
  end.

(** The normalized INFO payload of an INFO structure. *)
Definition info_payload_of (ib : list byte) : list byte :=
  slice ib 24 92 ++ replicate 4 x00 ++ slice ib 128 8.

Lemma zlen_info_payload ib : zlen ib = 144 -> zlen (info_payload_of ib) = 104.
Proof. intros H. unfold info_payload_of. autorewrite with zlen. rewrite !length_slice by lia. lia. Qed.

Lemma start_transfer m a L src ip :
  mapped m a (Z.of_nat L) -> bytes_at m src ip -> src + zlen ip <= a \/ a + Z.of_nat L <= src ->
  exists m', bytes_zero m a L = Some m' /\ transferring m a (Z.of_nat L) src ip m' [] L.
Proof.
  intros Hm Hs Hap. unfold bytes_zero. rewrite mem_zero_store.
  destruct (store_bytes_mapped m a (replicate L x00)) as [m' E]; [by rewrite zlen_replicate|].
  pose proof (frame_store _ _ _ _ E) as F. rewrite zlen_replicate in F.
  exists m'. split; [done|]. split_and!; [by eapply store_bytes_at| |by eapply frame_bytes_at|done].
  rewrite zlen_nil. lia.
Qed.

Lemma normalize_info_spec m out info ib :
  mapped m out 104 -> bytes_at m info ib -> zlen ib = 144 ->
  info + 144 <= out \/ out + 104 <= info ->
  exists m', normalize_info m out info = Some m' /\ frame out 104 m m' /\
    bytes_at m' out (info_payload_of ib).
Proof.
  intros Hm Hat Hl Hap. unfold normalize_info.
  assert (info + zlen ib <= out \/ out + 104 <= info) as Hap' by lia.
  destruct (start_transfer m out 104 info ib) as (m0 & -> & T); [done..|].
  cbn [mbind option_bind]. change (Z.of_nat 104) with 104 in T.
  move_bytes 32%nat 72%nat 24. move_bytes 16%nat 56%nat 56. move_bytes 16%nat 40%nat 72.
  move_field 8%nat 32%nat 64 88. move_field 8%nat 24%nat 72 96. move_field 8%nat 16%nat 80 104.
  move_field 2%nat 14%nat 88 112. move_field 2%nat 12%nat 90 114.
  match goal with T : transferring _ _ _ _ _ _ _ _ |- _ => apply (transfer_skip _ _ _ _ _ 4 _ _ 8) in T end.
  move_field 8%nat 0%nat 96 128.
  match goal with T : transferring _ _ _ _ _ ?m' _ _ |- _ =>
    destruct T as (Hf & _ & _ & F); exists m'; split_and!; [done|done|] end.
  unfold filled in Hf. rewrite app_nil_l, !(slice_merge ib 24), app_nil_r, <- !app_assoc in Hf by lia.
  exact Hf.
Qed.

Lemma zlen_info_magic : zlen v1_info_magic = 16.
Proof. reflexivity. Qed.
#[local] Hint Rewrite zlen_info_magic : zlen.

(** The INFO structure restored from a normalized payload. *)
Definition info_image (ip : list byte) (count first total : Z) : list byte :=
  seal_at (BBP_INFO_MAGIC ++ le_encode 2 BBP_VERSION_MAJOR ++ le_encode 2 BBP_VERSION_MINOR ++
    le_encode 4 total ++ slice ip 0 92 ++ le_encode 4 count ++ le_encode 8 first ++
    slice ip 96 8 ++ replicate 8 x00) 136.

Lemma restore_info_spec m info src ip count first total :
  mapped m info 144 -> bytes_at m src ip -> zlen ip = 104 ->
  src + 104 <= info \/ info + 144 <= src ->
  exists m', restore_info m info src count first total = Some m' /\ frame info 144 m m' /\
    bytes_at m' info (info_image ip count first total).
Proof.
  intros Hm Hat Hl Hap. unfold restore_info.
  assert (src + zlen ip <= info \/ info + 144 <= src) as Hap' by lia.
  destruct (start_transfer m info 144 src ip) as (m0 & -> & T); [done..|].
  cbn [mbind option_bind]. change (Z.of_nat 144) with 144 in T.
  destruct (transfer_store m info 144 src ip Hap' m0 [] v1_info_magic 128 info T) as (m1 & -> & T1);
    [rewrite zlen_nil; lia|]. cbn [mbind option_bind]. clear T. rewrite app_nil_l in T1.
  move_value 2%nat 126%nat. move_value 2%nat 124%nat. move_value 4%nat 120%nat.
  move_bytes 32%nat 88%nat 0. move_bytes 16%nat 72%nat 32. move_bytes 16%nat 56%nat 48.
  move_field 8%nat 48%nat 88 64. move_field 8%nat 40%nat 96 72. move_field 8%nat 32%nat 104 80.
  move_field 2%nat 30%nat 112 88. move_field 2%nat 28%nat 114 90.
  move_value 4%nat 24%nat. move_value 8%nat 16%nat. move_field 8%nat 8%nat 128 96.
  match goal with T : transferring _ _ _ _ _ ?m' _ _ |- _ => destruct T as (Hf & _ & _ & F) end.
  unfold filled in Hf. rewrite <- !app_assoc in Hf.
  rewrite !(slice_merge_app ip 0) in Hf by lia.
  match type of Hf with bytes_at ?m _ ?xs =>
    assert (zlen xs = 144) as Hlen by (autorewrite with zlen; rewrite !length_slice by lia; lia);
    destruct (seal_crc_skip m info xs 136 Hf) as (crc & m' & E1 & E2 & F2 & Hat2); [lia|lia|] end.
  rewrite Hlen in E1, F2. change (sizeof bbp_info) with 144. rewrite E1. cbn [mbind option_bind].
  exists m'. split_and!; [done|by eapply frame_trans|exact Hat2].
Qed.
