(* ===== verification/BridgeToV1.v ===== *)
(** * From the capsule to a tag chain

    What [bbp_v2_to_v1] writes: the restored INFO and the relinked tags, as a
    valid handoff for the kernel. *)

From S2P Require Import Prelude Memory Crc64 Abi KernelParser KernelFacts Builder BuilderFacts Handoff Capsule CapsuleFacts CapsuleBuild CapsuleProps Bridge BridgeFacts.

(** ** Copying the tags *)

Section Copy.
Context (c : Z) (bs : list byte) (output phys total : Z).
Context (Hc : 0 < c) (Hwf : wf_capsule bs).
Context (Hout : 0 < output) (Hphys : 0 < phys /\ phys + total <= 2 ^ 48).
Context (Htotal : total <= V1_MAX_INFO_SIZE).
Context (Hapart : c + zlen bs <= output \/ output + total <= c).

Let n := c_count bs - 1.

Lemma to_v1_copy_spec m i cursor :
  bytes_at m c bs -> 0 <= i < n -> wire_tag bs (i + 1) -> 0 <= cursor ->
  let p := payload bs (i + 1) in
  let o := round_up 8 cursor in
  let next := if i + 1 <? n then phys + round_up 8 (o + zlen p) else 0 in
  o + zlen p <= total ->
  bytes_at m (output + cursor) (replicate (Z.to_nat (total - cursor)) x00) ->
  exists m', to_v1_copy m (view_of c bs) output phys n i cursor = Some (m', o + zlen p) /\
    frame (output + o) (zlen p) m m' /\ bytes_at m' (output + o) (relink p next).
Proof.
  intros Hat Hi [_ _ Hsz _ _ _ _ _] Hcur p o next Hend Hz.
  pose proof (round_up_bounds 8 cursor ltac:(lia)) as Ho. fold o in Ho. fold p in Hsz.
  assert (0 <= i + 1 < c_count bs) as Hi1 by (unfold n in Hi; lia).
  destruct (payload_facts m c bs Hat Hwf _ Hi1) as (Hl & Hp & Hoff & Hin). fold p in Hl, Hp.
  unfold to_v1_copy. rewrite (get_entry_spec m c bs) by done. cbn [mbind option_bind].
  cbn [ev_data ev_size entry_view]. rewrite <- Hl. brconsts.
  rewrite (align8_up_eq cursor) by (brconsts; lia). fold o.
  rewrite (wrap_small 64 (o + zlen p)) by (unfold in_word; lia).
  rewrite (align8_up_eq (o + zlen p)) by (brconsts; lia).
  pose proof (round_up_bounds 8 (o + zlen p) ltac:(lia)).
  rewrite (wrap_small 64 (phys + _)) by (unfold in_word; lia). fold next.
  (* the payload *)
  unfold bytes_copy. rewrite (mem_copy_store m _ _ _ p).
  2: { replace (Z.to_nat (zlen p)) with (length p) by (unfold zlen; lia). by apply bytes_at_load. }
  2: { rewrite Z2Nat.id by apply zlen_nonneg. apply disjoint_range_intro. lia. }
  destruct (store_bytes_mapped m (output + o) p) as [m1 E1].
  { apply bytes_at_mapped in Hz. rewrite zlen_replicate in Hz. eapply mapped_sub; [exact Hz|lia|lia]. }
  rewrite E1. cbn [mbind option_bind]. pose proof (store_bytes_at _ _ _ _ E1) as Hat1.
  apply frame_store in E1.
  (* the link *)
  destruct (patch_store m1 (output + o) p 16 next Hat1) as (m2 & -> & F2 & Hat2); [lia|lia|].
  cbn [mbind option_bind]. change (Z.to_nat 16) with 16%nat in Hat2.
  assert (zlen (patch p 16 (le_encode 8 next)) = zlen p) as Hlen
    by (apply zlen_patch; rewrite length_le_encode; unfold zlen in *; lia).
  (* the checksum *)
  destruct (reseal m2 (output + o) _ 24 Hat2) as (m3 & crc & m4 & -> & E3 & E4 & F4 & Hat4); [lia|lia|].
  cbn [mbind option_bind]. rewrite Hlen in E3, F4. rewrite E3. cbn [mbind option_bind]. rewrite E4.
  cbn [mbind option_bind]. exists m4. split; [done|]. split; [|exact Hat4].
  eapply frame_trans; [exact E1|]. by eapply frame_trans.
Qed.

Lemma to_v1_copies_spec m i cursor k :
  bytes_at m c bs -> 0 <= i -> i + Z.of_nat k = n -> 0 <= cursor ->
  (forall j, i < j < c_count bs -> wire_tag bs j) ->
  v1_end cursor (payloads bs (i + 1) k) = total ->
  bytes_at m (output + cursor) (replicate (Z.to_nat (total - cursor)) x00) ->
  exists m', to_v1_copies m (view_of c bs) output phys n i cursor k = Some m' /\
    frame (output + cursor) (total - cursor) m m' /\
    bytes_at m' (output + cursor) (v1_chain phys cursor (payloads bs (i + 1) k)).
Proof.
  revert m i cursor. induction k as [|k IH]; intros m i cursor Hat Hi Hk Hcur Hw Hend Hz.
  { cbn [to_v1_copies]. exists m. rewrite payloads_nil. split_and!; [done|apply frame_refl|apply bytes_at_nil]. }
  rewrite payloads_succ in *. cbn [v1_end v1_chain to_v1_copies] in *.
  set (p := payload bs (i + 1)) in *. set (o := round_up 8 cursor) in *.
  pose proof (v1_end_ge (o + zlen p) (payloads bs (i + 1 + 1) k)) as Hge.
  pose proof (round_up_bounds 8 cursor ltac:(lia)) as Ho. fold o in Ho.
  pose proof (zlen_nonneg p).
  assert (wire_tag bs (i + 1)) as Hw1 by (apply Hw; unfold n in Hk; lia).
  pose proof (wt_size _ _ Hw1) as Hsz. fold p in Hsz.
  destruct (to_v1_copy_spec m i cursor) as (m1 & E1 & F1 & Hat1); [done|lia|done|lia|fold p o; lia|done|].
  fold p o in E1, F1, Hat1. rewrite E1. cbn [mbind option_bind].
  assert (replicate (Z.to_nat (total - cursor)) x00 =
    replicate (Z.to_nat (o - cursor)) x00 ++ replicate (length p) x00 ++
    replicate (Z.to_nat (total - (o + zlen p))) x00) as Er.
  { rewrite <- !replicate_add. f_equal. unfold zlen in *. lia. }
  rewrite Er, !bytes_at_app, !zlen_replicate, Z2Nat.id in Hz by lia. destruct Hz as (Hz1 & _ & Hz2).
  replace (output + cursor + (o - cursor)) with (output + o) in Hz2 by lia.
  destruct (IH m1 (i + 1) (o + zlen p)) as (m2 & E2 & F2 & Hat2); [|lia|lia|lia| |done| |].
  { eapply frame_bytes_at; [exact F1|lia|done]. }
  { intros j Hj. apply Hw. lia. }
  { eapply frame_bytes_at; [exact F1| |].
    - rewrite zlen_replicate. lia.
    - rewrite Z.add_assoc. exact Hz2. }
  exists m2. split; [done|]. split.
  { eapply frame_trans; eapply frame_weaken; [exact F1|lia|lia|exact F2|lia|lia]. }
  rewrite !bytes_at_app, zlen_replicate, Z2Nat.id by lia.
  replace (output + cursor + (o - cursor)) with (output + o) by lia. rewrite zlen_relink by lia.
  split_and!.
  - eapply frame_bytes_at; [exact F2| |eapply frame_bytes_at; [exact F1| |exact Hz1]];
      rewrite zlen_replicate; lia.
  - eapply frame_bytes_at; [exact F2|rewrite zlen_relink; lia|].
    unfold v1_next. destruct k as [|k].
    + rewrite payloads_nil. rewrite (proj2 (Z.ltb_ge _ _)) in Hat1 by lia. exact Hat1.
    + rewrite payloads_succ. rewrite (proj2 (Z.ltb_lt _ _)) in Hat1 by lia. exact Hat1.
  - rewrite <- Z.add_assoc. exact Hat2.
Qed.
End Copy.

Lemma zlen_info_image ip count first total :
  zlen ip = 104 -> zlen (info_image ip count first total) = 144.
Proof.
  intros H. pose proof (length_slice ip 0 92 ltac:(lia) ltac:(lia) ltac:(lia)).
  pose proof (length_slice ip 96 8 ltac:(lia) ltac:(lia) ltac:(lia)).
  unfold info_image, zlen in *. rewrite length_seal_at;
    rewrite !length_app, !length_le_encode, length_replicate; cbn; lia.
Qed.

(** ** The whole conversion *)

(** The first entry is a normalized INFO. *)
Record info_entry_ok (bs : list byte) : Prop := InfoEntryOk {
  ie_type : e_type bs (c_dir bs) 0 = BBP_V2_ENTRY_V1_INFO;
  ie_version : e_version bs (c_dir bs) 0 = BBP_VERSION_MINOR;
  ie_size : zlen (payload bs 0) = 104;
  ie_flags : Z.land (e_flags bs (c_dir bs) 0) (wrap32 (Z.lnot BBP_V2_EF_EXTERNAL_PHYS)) = 0;
  ie_context : fld 8 (payload bs 0) 96 <> 0 -> is_external bs 0 = true;
}.

(** The tags a capsule carries, and the size of the handoff made of them. *)
Definition tag_payloads (bs : list byte) : list (list byte) :=
  payloads bs 1 (Z.to_nat (c_count bs - 1)).
Definition v1_total (bs : list byte) : Z := v1_end 144 (tag_payloads bs).

Record convertible (bs : list byte) (c policy output capacity phys : Z) : Prop := Convertible {
  cv_wf : wf_capsule bs;
  cv_count : 0 < c_count bs;
  cv_info : info_entry_ok bs;
  cv_tags : forall j, 0 < j < c_count bs -> wire_tag bs j;
  cv_total : v1_total bs <= V1_MAX_INFO_SIZE;
  cv_policy : externals bs 0 (Z.to_nat (c_count bs)) = 0 \/
    Z.land policy BBP_V2_BRIDGE_ALLOW_EXTERNAL_PHYS <> 0;
  cv_capacity : v1_total bs <= capacity;
  cv_phys : 0 < phys /\ phys mod 8 = 0 /\ phys + v1_total bs <= 2 ^ 48;
  cv_apart : output + v1_total bs <= SIZE_MAX /\ c + zlen bs <= SIZE_MAX /\
    (c + zlen bs <= output \/ output + v1_total bs <= c);
}.

Definition v1_image (bs : list byte) (phys : Z) : list byte :=
  info_image (payload bs 0) (c_count bs - 1) (v1_next phys 144 (tag_payloads bs)) (v1_total bs) ++
  v1_chain phys 144 (tag_payloads bs).

Lemma check_info_entry_spec m c bs :
  0 < c -> bytes_at m c bs -> wf_capsule bs -> 0 < c_count bs ->
  exists ok, check_info_entry m (entry_view c bs (c_dir bs) 0) = Some ok /\
    (ok = true <-> info_entry_ok bs).
Proof.
  intros Hc Hat Hwf Hn. destruct (payload_facts m c bs Hat Hwf 0) as (Hl & Hp & _); [lia|].
  unfold check_info_entry. cbn [ev_type ev_version ev_size ev_flags ev_data entry_view].
  rewrite <- Hl. sizes. destruct (_ || _) eqn:G.
  { exists false. split; [done|]. split; [done|]. intros [E1 E2 E3 E4 _].
    by rewrite E1, E2, E3, E4 in G. }
  rewrite !orb_false_iff, !negb_false_iff, !Z.eqb_eq in G. destruct G as (((? & ?) & ?) & ?).
  rewrite get64_load. unfold load64. rewrite (fld_load _ _ _ _ _ Hp) by lia. cbn [mbind option_bind].
  eexists. split; [reflexivity|]. fold (is_external bs 0).
  rewrite negb_true_iff, andb_false_iff, negb_false_iff, Z.eqb_eq. unfold is_external.
  split.
  - intros Hctx. constructor; try done. intros Hne. destruct Hctx as [|Hctx]; [done|]. unfold is_external. by rewrite Hctx.
  - intros [_ _ _ _ He]. destruct (Z.eq_dec (fld 8 (payload bs 0) 96) 0) as [|Hne]; [by left|].
    right. specialize (He Hne). unfold is_external in He. by rewrite negb_true_iff in He.
Qed.

Definition converts (m : mem) (output : Z) (written0 : Z) (report0 : option bbp_v2_bridge_report)
    (bs : list byte) (phys : Z) (P : Prop) (r : option outcome) : Prop :=
  exists o, r = Some o /\ (o_status o = BBP_V2_OK <-> P) /\
    (o_status o <> BBP_V2_OK -> o = Outcome (o_status o) (Some written0) report0 m) /\
    (o_status o = BBP_V2_OK ->
       o_written o = Some (v1_total bs) /\
       o_report o = (fun _ => BridgeReport (c_count bs - 1)
                                (externals bs 0 (Z.to_nat (c_count bs)))) <$> report0 /\
       frame output (v1_total bs) m (o_mem o) /\ bytes_at (o_mem o) output (v1_image bs phys)).

Lemma converts_fail m output w0 r0 bs phys P st :
  st <> BBP_V2_OK -> ~ P ->
  converts m output w0 r0 bs phys P (Some (Outcome st (Some w0) r0 m)).
Proof. intros Hst Hno. eexists. split; [reflexivity|]. by split_and!. Qed.

Lemma externals_first bs :
  0 < c_count bs ->
  externals bs 0 (Z.to_nat (c_count bs)) =
  (if is_external bs 0 then 1 else 0) + externals bs 1 (Z.to_nat (c_count bs - 1)).
Proof.
  intros H. replace (Z.to_nat (c_count bs)) with (S (Z.to_nat (c_count bs - 1))) by lia. done.
Qed.

Lemma v1_first phys bs :
  v1_next phys 144 (tag_payloads bs) = if negb (c_count bs - 1 =? 0) && (0 <? c_count bs)
                                       then phys + 144 else 0.
Proof.
  unfold v1_next, tag_payloads. destruct (Z.to_nat (c_count bs - 1)) as [|k] eqn:E.
  - rewrite payloads_nil. replace (negb _ && _) with false by lia. done.
  - rewrite payloads_succ. replace (negb _ && _) with true by lia. done.
Qed.

Section Convert.
Context (m : mem) (c : Z) (bs : list byte) (policy output capacity phys w0 : Z).
Context (r0 : option bbp_v2_bridge_report).
Context (Hc : 0 < c) (Hat : bytes_at m c bs) (Hout : 0 < output) (Hm : mapped m output capacity).
Context (Hphys : 0 <= phys).

(** Once every check has passed, the output is written. *)
Lemma to_v1_write :
  convertible bs c policy output capacity phys ->
  exists m1 m2 m3,
    bytes_zero m output (Z.to_nat (v1_total bs)) = Some m1 /\
    to_v1_copies m1 (view_of c bs) output phys (c_count bs - 1) 0 144 (Z.to_nat (c_count bs - 1)) =
      Some m2 /\
    restore_info m2 output (c + e_offset bs (c_dir bs) 0) (c_count bs - 1)
      (v1_next phys 144 (tag_payloads bs)) (wrap32 (v1_total bs)) = Some m3 /\
    frame output (v1_total bs) m m3 /\ bytes_at m3 output (v1_image bs phys).
Proof.
  intros [Hwf Hn Hie Htags Htot _ Hcap (? & ? & ?) (? & ? & Hap)].
  pose proof (v1_end_ge 144 (tag_payloads bs)) as Hge. fold (v1_total bs) in Hge.
  destruct (payload_facts m c bs Hat Hwf 0) as (Hl & Hp & Ho & Hin); [lia|].
  pose proof (ie_size _ Hie) as Hsz.
  unfold bytes_zero. rewrite mem_zero_store.
  destruct (store_bytes_mapped m output (replicate (Z.to_nat (v1_total bs)) x00)) as [m1 E1].
  { rewrite zlen_replicate. eapply mapped_sub; [exact Hm|lia|lia]. }
  pose proof (store_bytes_at _ _ _ _ E1) as Hz. apply frame_store in E1 as F1.
  rewrite zlen_replicate, Z2Nat.id in F1 by lia.
  replace (Z.to_nat (v1_total bs)) with (144 + Z.to_nat (v1_total bs - 144))%nat in Hz by lia.
  rewrite replicate_add, bytes_at_app, zlen_replicate in Hz. destruct Hz as [_ Hz].
  destruct (to_v1_copies_spec c bs output phys (v1_total bs)) with (m := m1) (i := 0)
    (cursor := 144) (k := Z.to_nat (c_count bs - 1)) as (m2 & E2 & F2 & Hat2);
    try done; try lia.
  { eapply frame_bytes_at; [exact F1|lia|done]. }
  assert (frame output (v1_total bs) m m2) as F12.
  { eapply frame_trans; [exact F1|]. eapply frame_weaken; [exact F2|lia|lia]. }
  destruct (restore_info_spec m2 output (c + e_offset bs (c_dir bs) 0) (payload bs 0)
    (c_count bs - 1) (v1_next phys 144 (tag_payloads bs)) (wrap32 (v1_total bs)))
    as (m3 & E3 & F3 & Hat3).
  { eapply frame_mapped; [exact F12|]. eapply mapped_sub; [exact Hm|lia|lia]. }
  { eapply frame_bytes_at; [exact F12|lia|done]. }
  { done. }
  { lia. }
  exists m1, m2, m3. split_and!; try done.
  - eapply frame_trans; [exact F12|]. eapply frame_weaken; [exact F3|lia|lia].
  - unfold v1_image. apply bytes_at_app. brconsts. rewrite wrap_small in Hat3 by (unfold in_word; lia).
    split; [exact Hat3|]. rewrite zlen_info_image by done.
    eapply frame_bytes_at; [exact F3|lia|exact Hat2].
Qed.

Lemma bbp_v2_to_v1_spec src :
  v_data src = c -> v_total_size src = zlen bs ->
  converts m output w0 r0 bs phys (convertible bs c policy output capacity phys)
    (bbp_v2_to_v1 m (Some src) policy output capacity phys (Some w0) r0).
Proof.
  intros Hd Hsize. unfold bbp_v2_to_v1. rewrite Hd, Hsize.
  rewrite !(proj2 (Z.eqb_neq _ 0)) by lia. cbn [orb].
  destruct (bbp_v2_parse_spec m c bs Hat (V2View 0 0 0 0 0)) as (st & -> & Hst); [lia|].
  cbn [mbind option_bind]. destruct (decide (st = BBP_V2_OK)) as [->|Hne]; cycle 1.
  { rewrite bool_decide_eq_false_2 by done. apply converts_fail; [done|]. intros [Hwf _ _ _ _ _ _ _ _].
    by apply Hne, Hst. }
  rewrite !bool_decide_eq_true_2 by done. cbn [negb default from_option id].
  pose proof (proj1 Hst eq_refl) as Hwf. cbn [view_of v_entry_count].
  pose proof (fld_nonneg 4 bs 20 : 0 <= c_count bs).
  destruct (Z.eqb_spec (c_count bs) 0) as [E0|E0].
  { apply converts_fail; [done|]. intros []. lia. }
  rewrite (get_entry_spec m c bs) by (done || lia). cbn [mbind option_bind].
  destruct (check_info_entry_spec m c bs) as (ok & -> & Hok); [done|done|done|lia|].
  cbn [mbind option_bind]. destruct ok.
  2: { apply converts_fail; [done|]. intros [_ _ Hx _ _ _ _ _ _]. by apply Hok in Hx. }
  pose proof (proj1 Hok eq_refl) as Hie. cbn [ev_flags ev_data entry_view].
  fold (is_external bs 0). sizes.
  destruct (to_v1_checks_spec m c bs Hc Hat Hwf 0 144 (if is_external bs 0 then 1 else 0)
    (Z.to_nat (c_count bs - 1))) as (r & -> & Hr);
    [lia|lia|brconsts; lia|destruct (is_external bs 0); lia|].
  cbn [mbind option_bind]. change (0 + 1) with 1 in Hr. fold (tag_payloads bs) (v1_total bs) in Hr.
  destruct r as [st|v].
  { destruct Hr as [Hne Hno]. apply converts_fail; [done|]. intros [_ _ _ Ht Hto _ _ _ _].
    apply Hno. by split. }
  destruct Hr as [[Htags Htot] ->]. rewrite <- externals_first by lia.
  destruct (_ && _) eqn:Gp.
  { apply converts_fail; [done|]. intros [_ _ _ _ _ Hp _ _ _]. lia. }
  destruct (Z.ltb_spec capacity (v1_total bs)) as [|Hcap].
  { apply converts_fail; [done|]. intros []. lia. }
  rewrite land_7. change V1_MAX_PHYS with (2 ^ 48). destruct (_ || _) eqn:Gh.
  { apply converts_fail; [done|]. pose proof (v1_end_ge 144 (tag_payloads bs) : 144 <= v1_total bs).
    intros [_ _ _ _ _ _ _ Hp _]. lia. }
  pose proof (zlen_nonneg bs). pose proof (v1_end_ge 144 (tag_payloads bs) : 144 <= v1_total bs).
  pose proof (memory_ranges_overlap_spec output (v1_total bs) c (zlen bs)
    ltac:(lia) ltac:(lia) ltac:(lia) ltac:(lia)) as Hov.
  cbn [view_of v_data v_total_size]. destruct (memory_ranges_overlap _ _ _ _) eqn:Go.
  { apply converts_fail; [done|]. intros [_ _ _ _ _ _ _ _ Hp]. by apply Hov in Hp. }
  assert (convertible bs c policy output capacity phys) as Hcv.
  { constructor; try done; try lia. }
  destruct (to_v1_write Hcv) as (m1 & m2 & m3 & -> & E2 & E3 & F & Hi).
  cbn [mbind option_bind]. rewrite E2. cbn [mbind option_bind].
  rewrite v1_first in E3. replace (0 <? c_count bs) with true in E3 by lia. rewrite andb_true_r in E3.
  rewrite wrap_small by (unfold in_word; lia). rewrite E3. cbn [mbind option_bind].
  eexists. split; [reflexivity|]. by split_and!.
Qed.
End Convert.

(** ** The restored handoff *)

(** A field is determined by its bytes. *)
Lemma fld_ext n bs bs' off :
  (forall i, (Z.to_nat off <= i < Z.to_nat off + n)%nat -> bs' !! i = bs !! i) ->
  fld n bs' off = fld n bs off.
Proof.
  intros H. unfold fld. f_equal. apply list_eq. intros i.
  destruct (decide (i < n)%nat).
  - rewrite !lookup_take_lt, !lookup_drop by lia. apply H. lia.
  - by rewrite !lookup_take_ge by lia.
Qed.

Lemma fld_patch n bs off v :
  (off + n <= length bs)%nat -> in_word (8 * Z.of_nat n) v ->
  fld n (patch bs off (le_encode n v)) (Z.of_nat off) = v.
Proof.
  intros Hl Hv. unfold fld, patch. rewrite Nat2Z.id, drop_app_length' by (rewrite length_take; lia).
  rewrite take_app_length' by (by rewrite length_le_encode). by apply le_decode_encode_small.
Qed.

Lemma relink_lookup p next i :
  32 <= zlen p -> (i < 16 \/ 32 <= i)%nat -> relink p next !! i = p !! i.
Proof.
  intros Hl Hi. unfold relink. rewrite seal_at_patch. unfold zlen in Hl.
  rewrite !patch_lookup; rewrite ?length_patch, !length_le_encode;
    rewrite ?length_le_encode; try lia.
  rewrite !decide_False by lia. done.
Qed.

Lemma relink_next p next : 32 <= zlen p -> in_word 64 next -> fld 8 (relink p next) 16 = next.
Proof.
  intros Hl Hn. unfold zlen in Hl. rewrite <- (fld_patch 8 p 16 next) at 2 by (done || lia).
  apply fld_ext. intros i Hi. unfold relink. rewrite seal_at_patch, patch_lookup.
  - rewrite length_le_encode, decide_False by lia. done.
  - rewrite length_patch, ?length_le_encode; rewrite ?length_le_encode; lia.
Qed.

Lemma relink_sealed p next : 32 <= zlen p -> sealed (relink p next) 24.
Proof.
  intros Hl. apply sealed_seal_at. unfold zlen in Hl.
  rewrite length_patch; rewrite ?length_le_encode; lia.
Qed.

(** A restored tag: the payload, except for its link and checksum. *)
Definition restores (m : mem) (t : Z) (p : list byte) : Prop :=
  bytes_at m t (take 16 p) /\ bytes_at m (t + 32) (drop 32 p).

Lemma relink_restores m t p next : 32 <= zlen p -> bytes_at m t (relink p next) -> restores m t p.
Proof.
  intros Hl Hat. split.
  - intros i b Hi. pose proof (lookup_lt_Some _ _ _ Hi) as Hlt. rewrite length_take in Hlt.
    apply Hat. rewrite relink_lookup by lia. by rewrite lookup_take_lt in Hi by lia.
  - intros i b Hi. rewrite lookup_drop in Hi.
    replace (t + 32 + Z.of_nat i) with (t + Z.of_nat (32 + i)) by lia.
    apply Hat. by rewrite relink_lookup by lia.
Qed.

Lemma restores_id m t p : 32 <= zlen p -> restores m t p -> load64 m t = Some (fld 8 p 0).
Proof.
  intros Hl [Hat _]. unfold load64. rewrite <- (Z.add_0_r t), (fld_load _ _ _ _ _ Hat).
  - f_equal. apply fld_ext. intros i Hi. apply lookup_take_lt. lia.
  - lia.
  - unfold zlen in *. rewrite length_take. lia.
Qed.

Fixpoint v1_positions (cursor : Z) (ps : list (list byte)) : list Z :=
  match ps with
  | [] => []
  | p :: ps => let o := round_up 8 cursor in o :: v1_positions (o + zlen p) ps
  end.

(** A tag body as the kernel accepts it. *)
Definition tag_shaped (p : list byte) : Prop := 32 <= zlen p <= 2 ^ 24 /\ fld 4 p 8 = zlen p.

Section Restored.
Context (m : mem) (output phys h total : Z).
Context (Hh : output = phys + h) (Hh0 : 0 <= h) (Hphys : 0 < phys) (Hal : phys mod 8 = 0).
Context (Hmax : phys + total <= 2 ^ 48) (Hvmax : output + total < 2 ^ 64).

Let k : bbp_kctx := Kctx output h 1 phys (phys + total).

Lemma restored_kctx_wf : 0 < total -> kctx_wf k.
Proof. unfold kctx_wf, in_word. cbn. lia. Qed.

(** What is known of one restored tag. *)
Lemma restored_tag o p next :
  0 <= o -> o mod 8 = 0 -> o + zlen p <= total -> tag_shaped p -> in_word 64 next ->
  bytes_at m (output + o) (relink p next) ->
  framed m k (phys + o) (output + o) (zlen p) /\ load64 m (output + o + 16) = Some next /\
  bbp_tag_crc_ok m (output + o) = Some true /\ restores m (output + o) p.
Proof.
  intros Ho Hmod Hend [Hsz Hlen] Hn Hat.
  assert (zlen (relink p next) = zlen p) as Hz by (apply zlen_relink; lia).
  assert (load32 m (output + o + 8) = Some (zlen p)) as Hs.
  { unfold load32. rewrite (fld_load _ _ _ _ _ Hat) by lia. f_equal. rewrite <- Hlen.
    apply fld_ext. intros i Hi. apply relink_lookup; lia. }
  split_and!.
  - split; try done; cbn; kconsts; try lia. rewrite Zplus_mod, Hal, Hmod. done.
  - unfold load64. rewrite (fld_load _ _ _ _ _ Hat) by lia. f_equal. apply relink_next; [lia|done].
  - rewrite (bbp_tag_crc_ok_spec _ _ (zlen p) (relink p next)); [|done|lia|].
    + by rewrite bool_decide_eq_true_2 by (apply relink_sealed; lia).
    + rewrite <- Hz. replace (Z.to_nat (zlen (relink p next))) with (length (relink p next))
        by (unfold zlen; lia). by apply bytes_at_load.
  - eapply relink_restores; [lia|done].
Qed.

Lemma v1_next_word cursor ps :
  0 <= cursor -> v1_end cursor ps <= total -> in_word 64 (v1_next phys cursor ps).
Proof.
  intros Hc He. unfold v1_next, in_word. destruct ps as [|p ps]; [lia|]. cbn [v1_end] in He.
  pose proof (v1_end_ge (round_up 8 cursor + zlen p) ps). pose proof (zlen_nonneg p).
  pose proof (round_up_bounds 8 cursor ltac:(lia)). lia.
Qed.

Lemma restored_chain cursor ps steps :
  0 <= cursor -> v1_end cursor ps <= total -> Forall tag_shaped ps -> (length ps <= steps)%nat ->
  bytes_at m (output + cursor) (v1_chain phys cursor ps) ->
  let tags := map (Z.add output) (v1_positions cursor ps) in
  walk_loop m k (v1_next phys cursor ps) steps = Some tags /\
  Forall (fun t => bbp_tag_crc_ok m t = Some true) tags /\
  Forall2 (restores m) tags ps.
Proof.
  intros Hc He Hps. revert cursor steps Hc He.
  induction Hps as [|p ps Hp Hps IH]; intros cursor steps Hc He Hst Hat.
  { destruct steps; split_and!; by constructor. }
  destruct steps as [|steps]; [cbn in Hst; lia|]. cbn [length] in Hst.
  cbn [v1_positions v1_end v1_chain map v1_next walk_loop] in *.
  set (o := round_up 8 cursor) in *.
  pose proof (round_up_bounds 8 cursor ltac:(lia)) as Ho. fold o in Ho.
  pose proof (v1_end_ge (o + zlen p) ps) as Hge. pose proof (proj1 Hp) as Hsz.
  rewrite !bytes_at_app, zlen_replicate, Z2Nat.id in Hat by lia. destruct Hat as (_ & Hat & Hrest).
  replace (output + cursor + (o - cursor)) with (output + o) in * by lia.
  rewrite zlen_relink in Hrest by lia.
  destruct (restored_tag o p (v1_next phys (o + zlen p) ps)) as (Hfr & Hnx & Hcrc & Hid);
    [lia|by apply round_up_mod|lia|done|apply v1_next_word; lia|done|].
  rewrite <- Z.add_assoc in Hrest.
  destruct (IH (o + zlen p) steps) as (Hw & Hs & Hi); [lia|done|lia|done|].
  rewrite (proj2 (Z.eqb_neq _ 0)) by lia.
  rewrite (framed_tag_at _ _ _ _ _ (restored_kctx_wf ltac:(lia)) Hfr). cbn [mbind option_bind].
  rewrite Hnx. cbn [mbind option_bind]. rewrite Hw. split_and!; by constructor.
Qed.
End Restored.

(** Fields of the restored INFO. *)
Lemma info_image_fld ip count first total n i v xs ys :
  zlen ip = 104 ->
  BBP_INFO_MAGIC ++ le_encode 2 BBP_VERSION_MAJOR ++ le_encode 2 BBP_VERSION_MINOR ++
    le_encode 4 total ++ slice ip 0 92 ++ le_encode 4 count ++ le_encode 8 first ++
    slice ip 96 8 ++ replicate 8 x00 = xs ++ le_encode n v ++ ys ->
  i = zlen xs -> i + Z.of_nat n <= 136 -> in_word (8 * Z.of_nat n) v ->
  fld n (info_image ip count first total) i = v.
Proof.
  intros Hl E Hi Hn Hv. pose proof (zlen_nonneg xs).
  assert (zlen (xs ++ le_encode n v ++ ys) = 144) as Hz.
  { rewrite <- E. autorewrite with zlen. rewrite !length_slice by lia. done. }
  rewrite <- (fld_piece (xs ++ le_encode n v ++ ys) xs ys n v i) at 1 by (done || unfold zlen in *; lia).
  unfold info_image. rewrite E, seal_at_patch. apply fld_ext. intros j Hj.
  rewrite patch_lookup, length_le_encode, decide_False; [done|lia|].
  rewrite length_le_encode. unfold zlen in Hz. lia.
Qed.

Lemma info_image_fields ip count first total :
  zlen ip = 104 -> in_word 64 first -> in_word 32 total ->
  let ib := info_image ip count first total in
  fld 2 ib 16 = BBP_VERSION_MAJOR /\ fld 4 ib 20 = total /\ fld 8 ib 120 = first /\
  take 16 ib = BBP_INFO_MAGIC /\ sealed ib 136.
Proof.
  intros Hl Hf Ht ib. pose proof (length_slice ip 0 92 ltac:(lia) ltac:(lia) ltac:(lia)) as H0.
  pose proof (length_slice ip 96 8 ltac:(lia) ltac:(lia) ltac:(lia)) as H96.
  assert (zlen BBP_INFO_MAGIC = 16) as Hm by done. split_and!.
  - apply (info_image_fld _ _ _ _ 2 16 _ BBP_INFO_MAGIC _ Hl eq_refl); done.
  - eapply (info_image_fld _ _ _ _ 4 20 _
      (BBP_INFO_MAGIC ++ le_encode 2 BBP_VERSION_MAJOR ++ le_encode 2 BBP_VERSION_MINOR) _ Hl).
    + by rewrite <- !app_assoc.
    + done.
    + done.
    + done.
  - eapply (info_image_fld _ _ _ _ 8 120 _
      (BBP_INFO_MAGIC ++ le_encode 2 BBP_VERSION_MAJOR ++ le_encode 2 BBP_VERSION_MINOR ++
       le_encode 4 total ++ slice ip 0 92 ++ le_encode 4 count) _ Hl).
    + by rewrite <- !app_assoc.
    + autorewrite with zlen. rewrite H0, Hm. done.
    + done.
    + done.
  - unfold ib, info_image. rewrite seal_at_patch. unfold patch. rewrite take_app_le.
    + rewrite take_take. apply take_app_length'. done.
    + rewrite length_take, !length_app, !length_le_encode. unfold zlen in *. cbn. lia.
  - apply sealed_seal_at. rewrite !length_app, !length_le_encode, length_replicate.
    unfold zlen in *. cbn. lia.
Qed.

Lemma wire_tag_shaped bs i : wire_tag bs i -> tag_shaped (payload bs i).
Proof. intros [_ _ Hs _ Hl _ _ _]. unfold tag_shaped, V1_MAX_TAG_SIZE in *. lia. Qed.

(** The kernel accepts a restored handoff. *)
Lemma restored_handoff m bs c policy output capacity phys h :
  convertible bs c policy output capacity phys -> bytes_at m output (v1_image bs phys) ->
  0 < output -> output = phys + h -> 0 <= h ->
  let tags := map (Z.add output) (v1_positions 144 (tag_payloads bs)) in
  ValidHandoff m (Kctx output h 1 phys (phys + v1_total bs)) tags /\
  Forall2 (restores m) tags (tag_payloads bs).
Proof.
  intros Hcv Hat Ho Hh Hh0 tags.
  pose proof Hcv as [Hwf Hn Hie Htags Htot _ _ (Hp0 & Hal & Hmax) (Hv & _)].
  pose proof (v1_end_ge 144 (tag_payloads bs) : 144 <= v1_total bs) as Hge.
  unfold v1_image in Hat. apply bytes_at_app in Hat as [Hinfo Hchain].
  pose proof (ie_size _ Hie) as Hip. rewrite zlen_info_image in Hchain by done.
  assert (Forall tag_shaped (tag_payloads bs)) as Hsh.
  { apply List.Forall_forall. intros p Hp. apply in_map_iff in Hp as (j & <- & Hj).
    apply list_elem_of_In, elem_of_seqZ in Hj. apply wire_tag_shaped, Htags. lia. }
  assert (length (tag_payloads bs) <= BBP_MAX_TAGS)%nat as Hlen.
  { unfold tag_payloads, payloads, BBP_MAX_TAGS. rewrite length_map, length_seqZ.
    pose proof (wh_count _ (wf_hdr _ Hwf)). vconsts. lia. }
  brconsts. destruct (restored_chain m output phys h (v1_total bs)) with (cursor := 144)
    (ps := tag_payloads bs) (steps := BBP_MAX_TAGS) as (Hw & Hs & Hi); try done; try lia.
  fold tags in Hw, Hs, Hi. split; [|done].
  assert (in_word 64 (v1_next phys 144 (tag_payloads bs))) as Hnw
    by (apply (v1_next_word phys (v1_total bs)); done || lia).
  destruct (info_image_fields (payload bs 0) (c_count bs - 1) (v1_next phys 144 (tag_payloads bs))
    (v1_total bs) Hip Hnw) as (F16 & F20 & F120 & Hmag & Hsl); [unfold in_word; lia|].
  pose proof (zlen_info_image (payload bs 0) (c_count bs - 1)
    (v1_next phys 144 (tag_payloads bs)) (v1_total bs) Hip) as Hzi.
  assert (forall n i, 0 <= i -> i + Z.of_nat n <= 144 -> load_le m (output + i) n =
    Some (fld n (info_image (payload bs 0) (c_count bs - 1)
      (v1_next phys 144 (tag_payloads bs)) (v1_total bs)) i)) as Hld.
  { intros n i ? ?. apply fld_load; [done|lia|lia]. }
  split; cbn [k_info].
  - lia.
  - apply (restored_kctx_wf output phys h (v1_total bs)); lia.
  - eexists. split; [apply load_bytes_at; split; [|exact Hinfo]; unfold zlen in Hzi; lia|].
    eapply info_fields_ok; [apply load_bytes_at; split; [|exact Hinfo]; unfold zlen in Hzi; lia|done|done|..].
    + unfold load16. rewrite Hld, F16 by lia. done.
    + unfold load32. rewrite Hld, F20 by lia. done.
    + kconsts. lia.
  - unfold tag_walk. cbn [k_info]. unfold load64. rewrite Hld, F120 by lia. exact Hw.
  - exact Hs.
  - apply List.Forall_forall. intros t Ht. apply list_elem_of_In, list_elem_of_lookup in Ht as [i Hti].
    destruct (Forall2_lookup_l _ _ _ _ _ Hi Hti) as (p & Hp & Hr).
    rewrite (restores_id m t p); [done| |done].
    apply (Forall_lookup_1 _ _ _ _ Hsh) in Hp as [? _]. lia.
Qed.
