(* ===== verification/BridgeFromV1.v ===== *)
(** * From a tag chain to the capsule

    What [bbp_v2_from_v1] reads (a chain in physical memory, through the
    caller's mapping) and what it writes: the image of a capsule whose payloads
    are the normalized INFO and the tags without their linkage. *)

From S2P Require Import Prelude Memory Crc64 Abi Capsule CapsuleFacts CapsuleBuild CapsuleProps Bridge BridgeFacts BridgeToV1.

(** ** The builder reads only the entries it is told about *)

Lemma size_loop_take all k i c w n :
  (i + n <= k)%nat -> size_loop (take k all) i c w n = size_loop all i c w n.
Proof.
  revert i c w. induction n as [|n IH]; intros i c w Hk; [done|]. cbn [size_loop].
  rewrite lookup_take_lt by lia. destruct (all !! i) as [e|]; [|done]. cbn [mbind option_bind].
  destruct (size_entry e c w) as [|[]]; [done|]. apply IH. lia.
Qed.

Lemma source_overlaps_take all k output total i n :
  (i + n <= k)%nat -> source_overlaps (take k all) output total i n = source_overlaps all output total i n.
Proof.
  revert i. induction n as [|n IH]; intros i Hk; [done|]. cbn [source_overlaps].
  rewrite lookup_take_lt by lia. destruct (all !! i) as [e|]; [|done]. cbn [mbind option_bind].
  destruct (memory_ranges_overlap _ _ _ _); [done|]. apply IH. lia.
Qed.

Lemma write_loop_take all k m output i c n :
  (i + n <= k)%nat -> write_loop m output (take k all) i c n = write_loop m output all i c n.
Proof.
  revert m i c. induction n as [|n IH]; intros m i c Hk; [done|]. cbn [write_loop].
  rewrite lookup_take_lt by lia. destruct (all !! i) as [e|]; [|done]. cbn [mbind option_bind].
  destruct (write_entry m output e (Z.of_nat i) c) as [[m' c']|]; [|done]. apply IH. lia.
Qed.

Lemma bbp_v2_build_take m output capacity all n w :
  bbp_v2_build m output capacity (Some all) n w =
  bbp_v2_build m output capacity (Some (take (Z.to_nat n) all)) n w.
Proof.
  unfold bbp_v2_build. destruct w; [|done]. cbn [fmap option_fmap option_map default from_option id].
  rewrite !bool_decide_eq_false_2 by done. rewrite size_loop_take by lia.
  destruct (_ || _); [done|]. destruct (_ <? n); [done|].
  destruct (size_loop _ _ _ _ _) as [[|[total work]]|]; [done| |done]. cbn [mbind option_bind].
  destruct (_ <? total); [done|]. destruct (capacity <? total); [done|].
  rewrite source_overlaps_take by lia.
  destruct (source_overlaps _ _ _ _ _) as [[]|]; [done| |done]. cbn [mbind option_bind].
  destruct (bytes_zero _ _ _) as [m1|]; [|done]. cbn [mbind option_bind].
  destruct (write_header _ _ _ _) as [m2|]; [|done]. cbn [mbind option_bind].
  by rewrite write_loop_take by lia.
Qed.

(** ** Replacing a payload in an image *)

(** A tag without its linkage. *)
Definition unlink (p : list byte) : list byte :=
  patch (patch p 16 (le_encode 8 0)) 24 (le_encode 8 0).

Lemma zlen_unlink p : 32 <= zlen p -> zlen (unlink p) = zlen p.
Proof.
  intros H. unfold unlink, zlen in *. rewrite !length_patch; rewrite ?length_patch;
    rewrite ?length_le_encode; lia.
Qed.

(** The same place with another payload. *)
Definition with_payload (p : placed) (x : list byte) : placed := Placed (p_entry p) (p_pos p) x.

Lemma directory_insert pls i p :
  pls !! i = Some p ->
  exists xs ys, zlen xs = 48 * Z.of_nat i /\
    forall x, directory_bytes (<[i := with_payload p x]> pls) = xs ++ dirent_bytes (with_payload p x) ++ ys.
Proof.
  revert i. induction pls as [|q pls IH]; intros [|i] H; try done; cbn in H.
  - injection H as ->. exists [], (directory_bytes pls). split; [done|]. intros x. done.
  - destruct (IH i H) as (xs & ys & Hl & Hx). exists (dirent_bytes q ++ xs), ys. split.
    + rewrite zlen_app, zlen_dirent_bytes. lia.
    + intros x. cbn [list_insert insert]. unfold directory_bytes in *. cbn [map concat].
      rewrite <- app_assoc. f_equal. apply Hx.
Qed.

Lemma body_insert c pls i p :
  pls !! i = Some p -> laid_out c pls ->
  exists xs ys, zlen xs = p_pos p - c /\
    forall x, zlen x = zlen (p_payload p) ->
      body_bytes c (<[i := with_payload p x]> pls) = xs ++ x ++ ys.
Proof.
  revert c i. induction pls as [|q pls IH]; intros c [|i] H Hlo; try done; cbn in H.
  - injection H as ->. destruct Hlo as (_ & _ & Hc & _).
    exists (replicate (Z.to_nat (p_pos p - c)) x00), (body_bytes (p_end p) pls).
    rewrite zlen_replicate. split; [lia|]. intros x Hx. cbn. unfold p_end at 1. cbn.
    by rewrite Hx.
  - cbn [laid_out] in Hlo. destruct Hlo as (_ & _ & Hc & _ & _ & _ & Hlo).
    destruct (IH (p_end q) i H Hlo) as (xs & ys & Hl & Hx).
    exists (replicate (Z.to_nat (p_pos q - c)) x00 ++ p_payload q ++ xs), ys. split.
    + autorewrite with zlen. unfold p_end in Hl. lia.
    + intros x Hlx. cbn [body_bytes insert list_insert].
      rewrite <- !app_assoc. do 2 f_equal. by apply Hx.
Qed.

Lemma layout_end_insert c pls i p x :
  pls !! i = Some p -> zlen x = zlen (p_payload p) ->
  layout_end c (<[i := with_payload p x]> pls) = layout_end c pls.
Proof.
  revert c i. induction pls as [|q pls IH]; intros c [|i] H Hl; try done; cbn in H.
  - injection H as ->. cbn. unfold p_end. cbn. by rewrite Hl.
  - cbn. by apply IH.
Qed.

Lemma laid_out_insert c pls i p x :
  pls !! i = Some p -> zlen x = zlen (p_payload p) -> laid_out c pls ->
  laid_out c (<[i := with_payload p x]> pls).
Proof.
  revert c i. induction pls as [|q pls IH]; intros c [|i] H Hl Hlo; try done; cbn in H.
  - injection H as ->. cbn in *. unfold p_end in *. cbn. by rewrite Hl.
  - cbn [insert list_insert laid_out] in *. destruct Hlo as (?&?&?&?&?&?&Hlo). split_and!; try done.
    by apply IH.
Qed.

(** The parts of an image around one directory entry and its payload. *)
Lemma unsealed_insert pls i p :
  pls !! i = Some p -> laid_out (body_start (zlen pls)) pls ->
  exists A B C, zlen A = 64 + 48 * Z.of_nat i /\ zlen A + 48 + zlen B = p_pos p /\
    forall x, zlen x = zlen (p_payload p) ->
      unsealed_image (<[i := with_payload p x]> pls) =
      A ++ dirent_bytes (with_payload p x) ++ B ++ x ++ C.
Proof.
  intros H Hlo. destruct (directory_insert pls i p H) as (d1 & d2 & Hd & HD).
  destruct (body_insert _ pls i p H Hlo) as (b1 & b2 & Hb & HB).
  exists (header_bytes (zlen pls) (image_total pls) ++ d1), (d2 ++ b1), b2.
  pose proof (zlen_directory_bytes pls) as Hdir.
  rewrite <- (list_insert_id pls i p H) in Hdir at 1.
  replace p with (with_payload p (p_payload p)) in Hdir at 1 by (by destruct p).
  rewrite HD, !zlen_app, zlen_dirent_bytes in Hdir.
  rewrite !zlen_app, zlen_header_bytes. unfold body_start in Hb. vconsts. split; [lia|]. split; [lia|].
  intros x Hx. unfold unsealed_image, image_total.
  assert (zlen (<[i:=with_payload p x]> pls) = zlen pls) as -> by (unfold zlen; by rewrite length_insert).
  rewrite layout_end_insert by done. rewrite HD, HB by done. by rewrite <- !app_assoc.
Qed.

Lemma patch_app_l xs ys off zs :
  (off + length zs <= length xs)%nat -> patch (xs ++ ys) off zs = patch xs off zs ++ ys.
Proof.
  intros H. unfold patch. rewrite take_app_le, drop_app_le by lia. by rewrite <- !app_assoc.
Qed.

Lemma patch_piece xs old new ys :
  length old = length new -> patch (xs ++ old ++ ys) (length xs) new = xs ++ new ++ ys.
Proof.
  intros H. unfold patch. rewrite take_app_length. do 2 f_equal.
  rewrite <- H, app_assoc. apply drop_app_length'. by rewrite length_app.
Qed.

Lemma dirent_checksum p x :
  dirent_bytes (with_payload p x) = patch (dirent_bytes p) 32 (le_encode 8 (crc64_of x)).
Proof.
  unfold dirent_bytes, dirent_pieces. cbn [concat p_entry p_pos p_payload with_payload].
  rewrite !app_nil_r.
  set (xs := le_encode 8 (be_type (p_entry p)) ++ le_encode 4 (be_flags (p_entry p)) ++
    le_encode 2 (be_version (p_entry p)) ++ replicate 2 x00 ++ le_encode 8 (p_pos p) ++
    le_encode 8 (be_size (p_entry p))).
  assert (length xs = 32)%nat as Hl by (unfold xs; by rewrite !length_app, !length_le_encode).
  rewrite <- Hl. transitivity (xs ++ le_encode 8 (crc64_of x) ++
    le_encode 4 (be_alignment (p_entry p)) ++ replicate 4 x00).
  { unfold xs. by rewrite <- !app_assoc. }
  rewrite <- (patch_piece xs (le_encode 8 (crc64_of (p_payload p)))) by (by rewrite !length_le_encode).
  done.
Qed.

(** An image whose checksum field is stale. *)
Definition stale_at (m : mem) (output : Z) (pls : list placed) : Prop :=
  exists crc, length crc = 8%nat /\ bytes_at m output (patch (unsealed_image pls) 40 crc).

Section Normalize.
Context (output : Z) (pls : list placed).
Context (Hlo : laid_out (body_start (zlen pls)) pls) (Htot : image_total pls <= BBP_V2_MAX_EXTENT).

Lemma dirent_words p i :
  pls !! i = Some p -> in_word 64 (p_pos p) /\ in_word 64 (be_size (p_entry p)) /\
  be_size (p_entry p) = zlen (p_payload p) /\ p_pos p + zlen (p_payload p) <= image_total pls.
Proof.
  intros H. destruct (laid_out_at _ _ _ _ Hlo H) as (Ht & _ & Hpos & _ & Hs & _ & Hend).
  pose proof (zlen_nonneg pls). pose proof (zlen_nonneg (p_payload p)). unfold image_total, p_end, body_start in *. vconsts.
  split_and!; [unfold in_word; lia|apply Ht|done|done].
Qed.

Lemma normalize_step m i p :
  stale_at m output pls -> pls !! i = Some p -> 32 <= zlen (p_payload p) ->
  let entry := output + BBP_V2_HEADER_SIZE + Z.of_nat i * BBP_V2_DIRENT_SIZE in
  let tag := output + p_pos p in
  exists m1 m2 crc m3,
    get64 m (entry + 16) = Some (p_pos p) /\ get64 m (entry + 24) = Some (zlen (p_payload p)) /\
    put64 m (tag + 16) 0 = Some m1 /\ put64 m1 (tag + 24) 0 = Some m2 /\
    bbp_crc64 m2 tag (Z.to_nat (zlen (p_payload p))) = Some crc /\
    put64 m2 (entry + 32) crc = Some m3 /\ frame output (image_total pls) m m3 /\
    stale_at m3 output (<[i := with_payload p (unlink (p_payload p))]> pls).
Proof.
  intros (c0 & Hc0 & Hat) Hi Hsz entry tag. destruct (dirent_words p i Hi) as (Hw & Hs & Es & Hend).
  destruct (unsealed_insert pls i p Hi Hlo) as (A & B & C & HA & HB & HU).
  pose proof (HU (p_payload p) eq_refl) as HU0. pose proof (zlen_nonneg B) as HB0.
  replace (with_payload p (p_payload p)) with p in HU0 by (by destruct p).
  rewrite list_insert_id in HU0 by done. rewrite HU0 in Hat.
  assert (40 + length c0 <= length A)%nat as HAl by (unfold zlen in HA; lia).
  rewrite patch_app_l in Hat by done. set (A' := patch A 40 c0) in *.
  assert (zlen A' = zlen A) as HA' by (apply zlen_patch; done).
  rewrite !bytes_at_app, HA', zlen_dirent_bytes in Hat. destruct Hat as (HatA & HatD & HatB & HatP & HatC).
  replace (output + zlen A) with entry in * by (unfold entry; vconsts; lia).
  replace (entry + 48 + zlen B) with tag in * by (unfold entry, tag in *; vconsts; lia).
  (* fields of the entry *)
  assert (load64 m (entry + 16) = Some (p_pos p) /\ load64 m (entry + 24) = Some (be_size (p_entry p))) as [E16 E24].
  { pose proof (zlen_dirent_bytes p) as Hd. unfold load64.
    rewrite !(fld_load _ _ _ _ _ HatD) by lia. unfold dirent_bytes, dirent_pieces. cbn [concat].
    split; f_equal.
    - eapply (fld_piece _ (le_encode 8 (be_type (p_entry p)) ++ le_encode 4 (be_flags (p_entry p)) ++
        le_encode 2 (be_version (p_entry p)) ++ replicate 2 x00)); [by rewrite <- !app_assoc|done|done].
    - eapply (fld_piece _ (le_encode 8 (be_type (p_entry p)) ++ le_encode 4 (be_flags (p_entry p)) ++
        le_encode 2 (be_version (p_entry p)) ++ replicate 2 x00 ++ le_encode 8 (p_pos p)));
        [by rewrite <- !app_assoc|done|done]. }
  rewrite !get64_load, E16, E24, Es.
  (* the tag *)
  destruct (patch_store m tag (p_payload p) 16 0 HatP) as (m1 & E1 & F1 & Hat1); [lia|lia|].
  assert (zlen (patch (p_payload p) (Z.to_nat 16) (le_encode 8 0)) = zlen (p_payload p)) as Hl1
    by (apply zlen_patch; rewrite length_le_encode; unfold zlen in Hsz; lia).
  destruct (patch_store m1 tag _ 24 0 Hat1) as (m2 & E2 & F2 & Hat2); [lia|lia|]. rewrite Hl1 in F2.
  change (bytes_at m2 tag (unlink (p_payload p))) in Hat2.
  pose proof (zlen_unlink (p_payload p) Hsz) as Hlu.
  assert (frame tag (zlen (p_payload p)) m m2) as F12 by (by eapply frame_trans).
  (* its entry *)
  assert (bytes_at m2 entry (dirent_bytes p)) as HatD2.
  { eapply frame_bytes_at; [exact F12|rewrite zlen_dirent_bytes; unfold entry, tag; vconsts; lia|done]. }
  destruct (patch_store m2 entry _ 32 (crc64_of (unlink (p_payload p))) HatD2) as (m3 & E3 & F3 & Hat3);
    [lia|rewrite zlen_dirent_bytes; lia|]. rewrite zlen_dirent_bytes in F3.
  change (Z.to_nat 32) with 32%nat in Hat3. rewrite <- dirent_checksum in Hat3.
  exists m1, m2, (crc64_of (unlink (p_payload p))), m3. split_and!; try done.
  { unfold bbp_crc64. rewrite bbp_crc64_update_spec, <- Hlu.
    replace (Z.to_nat (zlen (unlink (p_payload p)))) with (length (unlink (p_payload p)))
      by (unfold zlen; lia). by rewrite (bytes_at_load _ _ _ Hat2). }
  { unfold entry, tag in *. vconsts.
    eapply frame_trans; eapply frame_weaken; [exact F12|lia|lia|exact F3|lia|lia]. }
  exists c0. split; [done|]. rewrite HU by done. rewrite patch_app_l by done.
  rewrite !bytes_at_app. fold A'. rewrite HA', zlen_dirent_bytes.
  assert (forall a xs, bytes_at m a xs -> a + zlen xs <= tag \/ tag + zlen (p_payload p) <= a ->
    a + zlen xs <= entry \/ entry + 48 <= a -> bytes_at m3 a xs) as Hkeep.
  { intros a xs Hax H1 H2. eapply frame_bytes_at; [exact F3|done|]. by eapply frame_bytes_at. }
  replace (output + zlen A) with entry by (unfold entry; vconsts; lia).
  replace (entry + 48 + zlen B) with tag by (unfold entry, tag in *; vconsts; lia).
  split_and!.
  - apply Hkeep; [done|..]; rewrite HA'; unfold entry, tag; vconsts; lia.
  - exact Hat3.
  - apply Hkeep; [done|..]; unfold entry, tag in *; vconsts; lia.
  - eapply frame_bytes_at; [exact F3|rewrite Hlu; unfold entry, tag in *; vconsts; lia|done].
  - rewrite Hlu. apply Hkeep; [done|..]; unfold entry, tag in *; vconsts; lia.
Qed.
End Normalize.

Definition unlink_placed (p : placed) : placed := with_payload p (unlink (p_payload p)).

Lemma normalize_tags_spec output pls m i k :
  laid_out (body_start (zlen pls)) pls -> image_total pls <= BBP_V2_MAX_EXTENT ->
  stale_at m output pls -> (S i + k = length pls)%nat ->
  Forall (fun p => 32 <= zlen (p_payload p)) (drop (S i) pls) ->
  exists m', normalize_tags m output (Z.of_nat i) k = Some m' /\
    frame output (image_total pls) m m' /\
    stale_at m' output (take (S i) pls ++ map unlink_placed (drop (S i) pls)).
Proof.
  revert pls m i. induction k as [|k IH]; intros pls m i Hlo Htot Hst Hk Hall.
  { cbn [normalize_tags]. exists m. split_and!; [done|apply frame_refl|].
    by rewrite drop_ge, take_ge, app_nil_r by lia. }
  destruct (lookup_lt_is_Some_2 pls (S i)) as [p Hp]; [lia|].
  rewrite (drop_S pls p (S i) Hp) in *. apply Forall_cons in Hall as [Hsz Hall].
  destruct (normalize_step output pls Hlo Htot m (S i) p Hst Hp Hsz) as
    (m1 & m2 & crc & m3 & E16 & E24 & E1 & E2 & Ec & E3 & F & Hst3).
  cbn [normalize_tags]. replace (Z.of_nat (S i)) with (Z.of_nat i + 1) in * by lia.
  rewrite E16. cbn [mbind option_bind]. rewrite E24. cbn [mbind option_bind].
  rewrite E1. cbn [mbind option_bind]. rewrite E2. cbn [mbind option_bind].
  rewrite Ec. cbn [mbind option_bind]. rewrite E3. cbn [mbind option_bind].
  replace (Z.of_nat i + 1) with (Z.of_nat (S i)) by lia.
  pose proof (zlen_unlink (p_payload p) Hsz) as Hlu.
  set (pls1 := <[S i := with_payload p (unlink (p_payload p))]> pls) in *.
  assert (length pls1 = length pls) as Hl1 by (unfold pls1; by rewrite length_insert).
  assert (zlen pls1 = zlen pls) as Hz1 by (unfold zlen; lia).
  assert (image_total pls1 = image_total pls) as Ht1.
  { unfold image_total. rewrite Hz1. unfold pls1. by rewrite layout_end_insert. }
  destruct (IH pls1 m3 (S i)) as (m4 & E4 & F4 & Hst4); [| |done|lia| |].
  { rewrite Hz1. by apply laid_out_insert. }
  { by rewrite Ht1. }
  { unfold pls1. by rewrite drop_insert_lt by lia. }
  exists m4. split; [done|]. rewrite Ht1 in F4. split; [by eapply frame_trans|].
  assert (take (S (S i)) pls1 = take (S i) pls ++ [unlink_placed p]) as Etake.
  { rewrite (take_S_r pls1 (S i) (unlink_placed p)).
    - unfold pls1. by rewrite take_insert_ge by lia.
    - unfold pls1. apply list_lookup_insert_eq. lia. }
  assert (drop (S (S i)) pls1 = drop (S (S i)) pls) as Edrop.
  { unfold pls1. by rewrite drop_insert_lt by lia. }
  rewrite Etake, Edrop, <- app_assoc in Hst4. exact Hst4.
Qed.

Lemma place_unlink c es ps :
  Forall (fun p => 32 <= zlen p) ps ->
  place c es (map unlink ps) = map unlink_placed (place c es ps).
Proof.
  intros H. revert c es. induction H as [|p ps Hp _ IH]; intros c [|e es]; try done.
  cbn [place map]. rewrite zlen_unlink by done. f_equal. apply IH.
Qed.

(** ** The source chain *)

(** The contract of the mapping: a pointer it returns gives access to exactly
    the requested bytes of the physical memory [pm], outside the [n] bytes of
    scratch at [a]. *)
Definition maps_physical {U} (map : bbp_v2_phys_map_fn U) (m pm : mem) (a n : Z) : Prop :=
  forall u p size, 0 < p -> 0 < size -> let q := snd (map u p size) in q <> 0 ->
    0 < q /\ q + size <= 2 ^ 64 /\ (q + size <= a \/ a + n <= q) /\
    forall x, 0 <= x < size -> exists b, m !! (q + x) = Some b /\ pm !! (p + x) = Some b.

Lemma mapped_bytes {U} (map : bbp_v2_phys_map_fn U) m pm a n u p size :
  maps_physical map m pm a n -> 0 < p -> 0 < size -> snd (map u p size) <> 0 ->
  exists bs, zlen bs = size /\ bytes_at m (snd (map u p size)) bs /\ bytes_at pm p bs.
Proof.
  intros H Hp Hs Hq. destruct (H u p size Hp Hs Hq) as (_ & _ & _ & Hb).
  destruct (mapped_load m (snd (map u p size)) (Z.to_nat size)) as [bs Hbs].
  { intros x Hx. destruct (Hb (x - snd (map u p size))) as (b & E & _); [lia|].
    replace (snd (map u p size) + (x - snd (map u p size))) with x in E by lia. by exists b. }
  apply load_bytes_at in Hbs as [Hl Hat]. exists bs. split; [unfold zlen; lia|]. split; [done|].
  intros i b Hi. pose proof (lookup_lt_Some _ _ _ Hi). destruct (Hb (Z.of_nat i)) as (b' & E & ->); [lia|].
  rewrite (Hat i b Hi) in E. done.
Qed.

Lemma maps_frame {U} (map : bbp_v2_phys_map_fn U) m m' pm a n :
  maps_physical map m pm a n -> frame a n m m' -> maps_physical map m' pm a n.
Proof.
  intros H [_ F] u p size Hp Hs q Hq. destruct (H u p size Hp Hs Hq) as (? & ? & Hap & Hb).
  split_and!; try done. intros x Hx. destruct (Hb x Hx) as (b & E & ?). exists b. split; [|done].
  rewrite F; [done|]. fold q in Hap. fold q. lia.
Qed.

(** A tag of the chain. *)
Record tag_in (pm : mem) (cur : Z) (bs : list byte) : Prop := TagIn {
  ti_address : 0 < cur /\ cur mod 8 = 0 /\ cur + zlen bs <= 2 ^ 48;
  ti_size : 32 <= zlen bs <= V1_MAX_TAG_SIZE /\ fld 4 bs 8 = zlen bs;
  ti_bytes : bytes_at pm cur bs;
  ti_sealed : sealed bs 24;
  ti_references : refs_of bs = 0 \/ refs_of bs = 1;
}.

(** The build entry for a tag. *)
Record entry_for (m : mem) (e : bbp_v2_build_entry) (bs : list byte) : Prop := EntryFor {
  ef_type : be_type e = fld 8 bs 0;
  ef_flags : be_flags e = Z.lor BBP_V2_EF_V1_WIRE
    (if negb (refs_of bs =? 0) then BBP_V2_EF_EXTERNAL_PHYS else 0);
  ef_version : be_version e = fld 2 bs 12;
  ef_alignment : be_alignment e = 8;
  ef_size : be_size e = zlen bs;
  ef_data : 0 < be_data e /\ be_data e + zlen bs <= 2 ^ 64 /\ bytes_at m (be_data e) bs;
}.

Definition tag_span (t : Z * list byte) : Z * Z := (fst t, zlen (snd t)).

Lemma visited_before_spec visited cur j n :
  (j + n <= length visited)%nat -> exists b, visited_before visited cur j n = Some b.
Proof.
  revert j. induction n as [|n IH]; intros j H; cbn [visited_before]; [by eexists|].
  destruct (lookup_lt_is_Some_2 visited j) as [v ->]; [lia|]. cbn [mbind option_bind].
  destruct (v =? cur); [by eexists|]. apply IH. lia.
Qed.

Lemma overlaps_visited_spec w cur size (done todo : list (Z * list byte)) e0 es1 es2 :
  0 < cur -> 0 <= size -> cur + size <= 2 ^ 48 ->
  take (length done + length todo) (w_visited w) = map fst (done ++ todo) ->
  take (S (length done + length todo)) (w_entries w) = e0 :: es1 ++ es2 ->
  length es1 = length done -> Forall2 (fun e t => be_size e = zlen (snd t)) es2 todo ->
  Forall (fun t => 0 < fst t /\ fst t + zlen (snd t) <= 2 ^ 48) todo ->
  exists b, overlaps_visited w cur size (length done) (length todo) = Some b /\
    (b = false -> Forall (fun t => apart (tag_span t) (cur, size)) todo).
Proof.
  intros Hc Hs Hcs. revert done es1 es2. induction todo as [|t todo IH]; intros done es1 es2 Hv He Hl Hes Ht;
    cbn [overlaps_visited length] in *; [by exists false|].
  apply Forall2_cons_inv_r in Hes as (e & es & Hsz & Hes & ->). apply Forall_cons in Ht as [[Ht0 Ht1] Ht].
  assert (w_visited w !! length done = Some (fst t)) as ->.
  { rewrite <- (lookup_take_lt _ (length done + S (length todo))) by lia. rewrite Hv, map_app.
    rewrite lookup_app_r by (rewrite length_map; lia). by rewrite length_map, Nat.sub_diag. }
  assert (w_entries w !! S (length done) = Some e) as ->.
  { rewrite <- (lookup_take_lt _ (S (length done + S (length todo)))) by lia. rewrite He, lookup_cons.
    rewrite lookup_app_r by lia. by rewrite Hl, Nat.sub_diag. }
  cbn [mbind option_bind]. rewrite Hsz. pose proof (zlen_nonneg (snd t)).
  rewrite !wrap_small by (unfold in_word; lia).
  destruct (_ && _) eqn:G; [by exists true|].
  destruct (IH (done ++ [t]) (es1 ++ [e]) es) as (b & Hb & Hok).
  { rewrite length_app, <- app_assoc. cbn [length]. by rewrite <- Nat.add_assoc. }
  { rewrite length_app, <- app_assoc. cbn [length]. by rewrite <- Nat.add_assoc. }
  { rewrite !length_app. cbn. lia. }
  { done. }
  { done. }
  rewrite length_app in Hb. cbn [length] in Hb. rewrite Nat.add_1_r in Hb. exists b. split; [done|].
  intros Hbf. constructor; [|by apply Hok]. unfold apart, tag_span. cbn. lia.
Qed.

(** The links lead from [first] through [tags] to [last]. *)
Fixpoint linked_path (first : Z) (tags : list (Z * list byte)) (last : Z) : Prop :=
  match tags with
  | [] => first = last
  | (a, bs) :: tags => first = a /\ linked_path (fld 8 bs 16) tags last
  end.

Lemma linked_path_snoc first tags a bs :
  linked_path first tags a -> linked_path first (tags ++ [(a, bs)]) (fld 8 bs 16).
Proof.
  revert first. induction tags as [|[b cs] tags IH]; intros first; cbn [linked_path app].
  - by intros ->.
  - intros [-> H]. split; [done|]. by apply IH.
Qed.

Section Gather.
Context {U : Type} (map_fn : bbp_v2_phys_map_fn U) (m pm : mem) (a n : Z).
Context (Hmap : maps_physical map_fn m pm a n).
Context (first : Z) (e0 : bbp_v2_build_entry) (policy : Z).

(** The workspace after the tags [tags], with [cur] to come. *)
Record gathered (w : bbp_v2_bridge_workspace) (tags : list (Z * list byte))
    (es : list bbp_v2_build_entry) (cur : Z) : Prop := Gathered {
  ga_lengths : length (w_visited w) = 1024%nat /\ length (w_entries w) = 1025%nat;
  ga_visited : take (length tags) (w_visited w) = map fst tags;
  ga_entries : take (S (length tags)) (w_entries w) = e0 :: es;
  ga_for : Forall2 (fun e t => entry_for m e (snd t)) es tags;
  ga_in : Forall (fun t => tag_in pm (fst t) (snd t)) tags;
  ga_apart : ForallOrdPairs (fun s t => apart (tag_span s) (tag_span t)) tags;
  ga_path : linked_path first tags cur;
  ga_policy : Forall (fun t => refs_of (snd t) = 0) tags \/
    Z.land policy BBP_V2_BRIDGE_ALLOW_EXTERNAL_PHYS <> 0;
}.

Definition ext_bit (bs : list byte) : Z := if negb (refs_of bs =? 0) then 1 else 0.

(** One tag, once it is mapped and its header is read. *)
Lemma gather_entry w tags es cur bs q :
  gathered w tags es cur -> (length tags < 1023)%nat -> tag_in pm cur bs -> 0 < q ->
  q + zlen bs <= 2 ^ 64 -> bytes_at m q bs ->
  Forall (fun t => apart (tag_span t) (cur, zlen bs)) tags ->
  (refs_of bs = 0 \/ Z.land policy BBP_V2_BRIDGE_ALLOW_EXTERNAL_PHYS <> 0) ->
  let e := V2BuildEntry (fld 8 bs 0) (Z.lor BBP_V2_EF_V1_WIRE
             (if negb (refs_of bs =? 0) then BBP_V2_EF_EXTERNAL_PHYS else 0))
             (fld 2 bs 12) 8 q (zlen bs) in
  exists w1 w2, set_visited w (length tags) cur = Some w1 /\
    set_entry w1 (S (length tags)) e = Some w2 /\
    gathered w2 (tags ++ [(cur, bs)]) (es ++ [e]) (fld 8 bs 16).
Proof.
  intros [[Hlv Hle] Hv He Hf Hin Hap Hpath Hpol] Hlen Htag Hq Hqs Hat Hapart Hp e.
  unfold set_visited, set_entry. rewrite (proj2 (Nat.ltb_lt _ _)) by lia.
  eexists _, _. split; [reflexivity|]. cbn [w_entries w_visited w_info_payload].
  rewrite (proj2 (Nat.ltb_lt _ _)) by lia. split; [reflexivity|].
  constructor; cbn [w_entries w_visited].
  - by rewrite !length_insert.
  - rewrite length_app, map_app, Nat.add_1_r. rewrite (take_S_r _ _ cur).
    + rewrite take_insert_ge by lia. by rewrite Hv.
    + apply list_lookup_insert_eq. lia.
  - rewrite length_app, Nat.add_1_r. rewrite (take_S_r _ _ e).
    + rewrite take_insert_ge by lia. by rewrite He.
    + apply list_lookup_insert_eq. lia.
  - apply Forall2_app; [done|]. constructor; [|constructor]. by constructor.
  - apply Forall_app. split; [done|]. by constructor.
  - clear -Hap Hapart. induction tags as [|t tags IH]; [by repeat constructor|].
    inversion Hap as [|? ? H1 H2]; subst. apply Forall_cons in Hapart as [H3 H4].
    cbn [app]. constructor; [|by apply IH]. apply List.Forall_app. split; [done|]. by constructor.
  - by apply linked_path_snoc.
  - destruct Hpol as [Hpol|]; [|by right]. destruct Hp as [Hp|]; [|by right]. left.
    apply Forall_app. split; [done|]. by constructor.
Qed.

(** What an iteration of the tag loop leaves. *)
Definition step_ok (tags : list (Z * list byte)) (es : list bbp_v2_build_entry) (cur ext : Z)
    (w' : bbp_v2_bridge_workspace) (r : bbp_v2_status_t + Z * Z) : Prop :=
  match r with
  | inl st => st <> BBP_V2_OK
  | inr (next, ext') =>
      exists bs e, gathered w' (tags ++ [(cur, bs)]) (es ++ [e]) next /\ ext' = ext + ext_bit bs
  end.

Lemma visited_entry_sizes w tags es cur :
  gathered w tags es cur -> Forall2 (fun e t => be_size e = zlen (snd t)) es tags /\
  Forall (fun t => 0 < fst t /\ fst t + zlen (snd t) <= 2 ^ 48) tags.
Proof.
  intros [_ _ _ Hf Hin _ _ _]. split.
  - eapply Forall2_impl; [exact Hf|]. intros e t He. apply He.
  - eapply Forall_impl; [exact Hin|]. intros t []. lia.
Qed.

(** The tag is mapped: it is converted or refused. *)
Lemma convert_tag_spec w tags es cur ext tag bs w1 :
  gathered w tags es cur -> (length tags < 1023)%nat -> 0 <= ext <= 2000 ->
  set_visited w (length tags) cur = Some w1 ->
  0 < cur /\ cur mod 8 = 0 /\ cur + zlen bs <= 2 ^ 48 ->
  32 <= zlen bs <= V1_MAX_TAG_SIZE /\ fld 4 bs 8 = zlen bs -> bytes_at pm cur bs ->
  0 < tag /\ tag + zlen bs <= 2 ^ 64 /\ bytes_at m tag bs ->
  Forall (fun t => apart (tag_span t) (cur, zlen bs)) tags ->
  exists w2 r, convert_tag m policy w1 (length tags) ext tag (zlen bs) (take 32 bs) = Some (w2, r) /\
    w_info_payload w2 = w_info_payload w1 /\ step_ok tags es cur ext w2 r.
Proof.
  intros Hg Hlen Hext Hw1 Hcur [Hsz Hfl] Hpm (Hq & Hqs & Hat) Hap. unfold convert_tag.
  rewrite (proj2 (Z.eqb_neq tag 0)) by lia.
  rewrite (proj2 (bytes_equal_true m tag (take 32 bs))) by (by apply bytes_at_take).
  cbn [mbind option_bind]. rewrite (crc_skip_spec _ _ _ _ Hat) by lia.
  rewrite !get64_load, get16_load. unfold load64, load16. rewrite !(fld_load _ _ _ _ _ Hat) by lia.
  cbn [mbind option_bind].
  destruct (Z.eqb_spec (crc64_skip_of bs (Z.to_nat 24)) (fld 8 bs 24)) as [Hcrc|];
    cbn [negb]; [|exists w1; eexists (inl _); by split_and!].
  destruct (refs_of_spec m tag bs Hat) as [-> Hrefs]; [lia|]. cbn [mbind option_bind].
  destruct (Z.ltb_spec (refs_of bs) 0); [exists w1; eexists (inl _); by split_and!|].
  destruct (_ && _) eqn:Gp; [exists w1; eexists (inl _); by split_and!|].
  assert (tag_in pm cur bs) as Htag by (constructor; done || lia).
  destruct (gather_entry w tags es cur bs tag) as (w1' & w2 & E1 & E2 & Hg2); try done; [lia|].
  rewrite Hw1 in E1. injection E1 as <-.
  pose proof (fld_load m tag bs 0 8 Hat) as Hid. rewrite Z.add_0_r in Hid. rewrite Hid by lia.
  cbn [mbind option_bind]. rewrite E2. cbn [mbind option_bind].
  exists w2. eexists (inr _). split; [reflexivity|]. split.
  - unfold set_entry in E2. destruct (_ <? _)%nat; [|done]. injection E2 as <-. done.
  - exists bs. eexists. split; [exact Hg2|]. unfold ext_bit.
    destruct (negb _); [|lia]. by rewrite wrap_small by (unfold in_word; lia).
Qed.

Lemma from_v1_tag_spec u w tags es cur ext :
  gathered w tags es cur -> (length tags < 1023)%nat -> 0 <= cur -> 0 <= ext <= 2000 ->
  exists u' w' r, from_v1_tag map_fn m policy u w (length tags) cur ext = Some (u', w', r) /\
    w_info_payload w' = w_info_payload w /\ step_ok tags es cur ext w' r.
Proof.
  intros Hg Hlen Hcur Hext. pose proof (ga_lengths _ _ _ _ Hg) as [Hlv Hle].
  unfold from_v1_tag. rewrite land_7. sizes. change V1_MAX_PHYS with (2 ^ 48).
  destruct (_ || _) eqn:G; [eexists _, _, (inl _); by split_and!|].
  destruct (visited_before_spec (w_visited w) cur 0 (length tags)) as [seen ->]; [lia|].
  cbn [mbind option_bind]. destruct seen; [eexists _, _, (inl _); by split_and!|].
  assert (set_visited w (length tags) cur =
    Some (Workspace (<[length tags := cur]> (w_visited w)) (w_entries w) (w_info_payload w))) as Hw1
    by (unfold set_visited; by rewrite (proj2 (Nat.ltb_lt _ _)) by lia).
  rewrite Hw1. cbn [mbind option_bind]. set (w1 := Workspace _ _ _) in *.
  destruct (map_fn u cur 32) as [u1 hdr] eqn:E1.
  destruct (Z.eqb_spec hdr 0) as [|Hh]; [eexists _, _, (inl _); by split_and!|].
  destruct (mapped_bytes map_fn m pm a n u cur 32 Hmap) as (hb & Hhl & Hhat & Hhpm);
    [lia|lia|by rewrite E1|]. rewrite E1 in Hhat. cbn [snd] in Hhat.
  assert (length hb = 32)%nat as Hhl' by (unfold zlen in Hhl; lia).
  pose proof (bytes_at_load _ _ _ Hhat) as Hld. rewrite Hhl' in Hld. rewrite Hld.
  cbn [mbind option_bind]. set (size := header32 hb 8).
  destruct ((size <? 32) || (V1_MAX_TAG_SIZE <? size)) eqn:G2; [eexists _, _, (inl _); by split_and!|].
  destruct (Z.ltb_spec (2 ^ 48 - cur) size) as [|Hend]; [eexists _, _, (inl _); by split_and!|].
  destruct (visited_entry_sizes _ _ _ _ Hg) as [Hsz Hbounds].
  destruct (overlaps_visited_spec w1 cur size [] tags e0 [] es) as (ov & Eov & Hap); try done; try lia.
  { cbn [length app w_visited w1 Nat.add]. rewrite take_insert_ge by lia. apply Hg. }
  { apply Hg. }
  cbn [length] in Eov. rewrite Eov. cbn [mbind option_bind].
  destruct ov; [eexists _, _, (inl _); by split_and!|]. specialize (Hap eq_refl).
  destruct (map_fn u1 cur size) as [u2 tag] eqn:E2.
  destruct (Z.eqb_spec tag 0) as [->|Ht]; [eexists _, w1, (inl _); by split_and!|].
  destruct (mapped_bytes map_fn m pm a n u1 cur size Hmap) as (bs & Hl & Hat & Hpm);
    [lia|lia|by rewrite E2|]. rewrite E2 in Hat. cbn [snd] in Hat.
  destruct (Hmap u1 cur size) as (Hq & Hqs & _); [lia|lia|by rewrite E2|].
  rewrite E2 in Hq, Hqs. cbn [snd] in Hq, Hqs.
  assert (hb = take 32 bs) as Ehb.
  { apply (bytes_at_inj pm cur); [|done|by apply bytes_at_take].
    rewrite length_take_le; [done|]. unfold zlen in Hl. lia. }
  rewrite Ehb, <- Hl.
  destruct (convert_tag_spec w tags es cur ext tag bs w1) as (w2 & r & -> & Hp & Hs); try done;
    try (split_and!; try done; lia); [|by rewrite Hl|].
  - split; [lia|]. rewrite Hl. unfold size, header32, fld. rewrite Ehb.
    change (Z.to_nat 8) with 8%nat. by rewrite skipn_firstn_comm, take_take.
  - cbn [mbind option_bind]. exists u2, w2, r. by split_and!.
Qed.

Lemma from_v1_loop_spec u w tags es cur ext k :
  gathered w tags es cur -> (length tags + k <= 1023)%nat -> 0 <= cur ->
  0 <= ext <= 1 + Z.of_nat (length tags) ->
  exists u' w' r, from_v1_loop map_fn m policy u w (length tags) cur ext k = Some (u', w', r) /\
    w_info_payload w' = w_info_payload w /\
    match r with
    | inl st => st <> BBP_V2_OK
    | inr (next, ext') =>
        exists new es', gathered w' (tags ++ new) (es ++ es') next /\ length new = k /\
          ext' = ext + foldr Z.add 0 (map (fun t => ext_bit (snd t)) new)
    end.
Proof.
  revert u w tags es cur ext. induction k as [|k IH]; intros u w tags es cur ext Hg Hk Hc Hext;
    cbn [from_v1_loop].
  { eexists u, w, (inr _). split_and!; [done|done|]. exists [], []. rewrite !app_nil_r. cbn.
    split_and!; [done|done|lia]. }
  destruct (from_v1_tag_spec u w tags es cur ext Hg) as (u1 & w1 & r & -> & Hp & Hr); [lia|done|lia|].
  cbn [mbind option_bind]. destruct r as [st|[next ext1]].
  { eexists _, _, (inl _). by split_and!. }
  destruct Hr as (bs & e & Hg1 & ->).
  assert (0 <= ext_bit bs <= 1) by (unfold ext_bit; destruct (negb _); lia).
  replace (S (length tags)) with (length (tags ++ [(cur, bs)])) by (rewrite length_app; cbn; lia).
  assert (0 <= next) as Hnext.
  { pose proof (ga_path _ _ _ _ Hg1) as Hpath. clear -Hpath.
    revert first Hpath. induction tags as [|[x y] tags IHt]; intros first; cbn.
    - intros [_ <-]. apply fld_nonneg.
    - intros [_ H]. by eapply IHt. }
  destruct (IH u1 w1 (tags ++ [(cur, bs)]) (es ++ [e]) next (ext + ext_bit bs) Hg1) as
    (u2 & w2 & r & E & Hp2 & Hr2); [rewrite length_app; cbn; lia|done|rewrite length_app; cbn; lia|].
  exists u2, w2, r. split_and!; [done|congruence|]. destruct r as [st|[next2 ext2]]; [done|].
  destruct Hr2 as (new & es' & Hg2 & Hl & ->). exists ((cur, bs) :: new), (e :: es').
  rewrite <- !app_assoc in Hg2. cbn [app map foldr snd length] in *. split_and!; [done|lia|lia].
Qed.
End Gather.

(** ** The INFO structure *)

Record v1_info_ok (ib : list byte) : Prop := V1InfoOk {
  vi_magic : take 16 ib = BBP_INFO_MAGIC;
  vi_version : fld 2 ib 16 = BBP_VERSION_MAJOR /\ fld 2 ib 18 = BBP_VERSION_MINOR;
  vi_size : 144 <= fld 4 ib 20 <= V1_MAX_INFO_SIZE;
  vi_sealed : sealed ib 136;
  vi_count : fld 4 ib 116 <= 1023;
  vi_first : fld 4 ib 116 = 0 <-> fld 8 ib 120 = 0;
}.

Lemma check_info_spec {U} m (source : bbp_v2_v1_source U) ib :
  bytes_at m (s_info source) ib -> zlen ib = 144 ->
  exists r, check_info m source = Some r /\
    match r with
    | inl st => st <> BBP_V2_OK
    | inr (count, first) =>
        v1_info_ok ib /\ count = fld 4 ib 116 /\ first = fld 8 ib 120 /\
        (first <> 0 -> s_map source <> None)
    end.
Proof.
  intros Hat Hl. unfold check_info. sizes.
  rewrite (bytes_equal_spec m (s_info source) v1_info_magic (take 16 ib)).
  2: { apply load_bytes_at. split; [|by apply bytes_at_take]. rewrite length_take_le; [done|].
       unfold zlen in Hl. lia. }
  cbn [mbind option_bind]. case_bool_decide as Hmag; [|by eexists (inl _)].
  pose proof (crc_skip_spec _ _ _ 136 Hat ltac:(lia) ltac:(lia)) as Hc. rewrite Hl in Hc. rewrite Hc.
  rewrite !get16_load, !get32_load, !get64_load. unfold load16, load32, load64.
  rewrite !(fld_load _ _ _ _ _ Hat) by lia. cbn [mbind option_bind].
  destruct (Z.eqb_spec (fld 2 ib 16) BBP_VERSION_MAJOR); cbn [negb]; [|by eexists (inl _)].
  destruct (Z.eqb_spec (fld 2 ib 18) BBP_VERSION_MINOR); cbn [negb]; [|by eexists (inl _)].
  destruct ((fld 4 ib 20 <? 144) || _) eqn:G1; [by eexists (inl _)|].
  destruct (Z.eqb_spec (crc64_skip_of ib (Z.to_nat 136)) (fld 8 ib 136)) as [Hcrc|];
    cbn [negb]; [|by eexists (inl _)].
  vconsts. destruct (Z.ltb_spec (1024 - 1) (fld 4 ib 116)); [by eexists (inl _)|].
  destruct (negb (Bool.eqb _ _) || _) eqn:G2; [by eexists (inl _)|].
  eexists (inr _). split; [reflexivity|]. apply orb_false_iff in G2 as [G2 G3].
  apply negb_false_iff, eqb_prop in G2. split_and!; [|done|done|].
  - constructor; try done; lia.
  - intros Hne Hnone. rewrite Hnone, bool_decide_eq_true_2 in G3 by done.
    rewrite orb_true_r, andb_true_r in G3. lia.
Qed.

(** ** Sizes decide what can be built *)

Definition same_sizes (ps qs : list (list byte)) : Prop := Forall2 (fun p q => zlen p = zlen q) ps qs.

Lemma place_sizes c es ps qs :
  same_sizes ps qs ->
  layout_end c (place c es qs) = layout_end c (place c es ps) /\
  payload_len (place c es qs) = payload_len (place c es ps) /\
  zlen (place c es qs) = zlen (place c es ps).
Proof.
  intros H. revert c es. induction H as [|p q ps qs Hpq _ IH]; intros c [|e es]; try done.
  cbn [place layout_end payload_len foldr]. unfold p_end. cbn [p_pos p_payload].
  destruct (IH (round_up (be_alignment e) c + zlen p) es) as (H1 & H2 & H3).
  rewrite <- Hpq, H1, !zlen_cons, H3. split_and!; [done| |done].
  fold (payload_len (place (round_up (be_alignment e) c + zlen p) es qs)).
  fold (payload_len (place (round_up (be_alignment e) c + zlen p) es ps)). lia.
Qed.

Lemma buildable_sizes output capacity es ps qs :
  same_sizes ps qs -> Forall2 sized es ps -> buildable output capacity es ps ->
  buildable output capacity es qs /\ Forall2 sized es qs /\
  image_total (place (body_start (zlen es)) es qs) = image_total (place (body_start (zlen es)) es ps).
Proof.
  intros H Hs (H1 & H2 & H3 & H4 & H5 & H6).
  destruct (place_sizes (body_start (zlen es)) es ps qs H) as (E1 & E2 & E3).
  assert (image_total (place (body_start (zlen es)) es qs) =
    image_total (place (body_start (zlen es)) es ps)) as E.
  { unfold image_total. rewrite E3. rewrite (length_place _ _ _ Hs). exact E1. }
  split_and!; [|eapply Forall2_trans; [|exact Hs|exact H]; by unfold sized; intros ??? -> ->|done].
  unfold buildable. rewrite E, E2. done.
Qed.

(** ** Clearing the linkage *)

Lemma normalize_image m output capacity e0 es ip ts :
  0 < output -> Forall2 sized (e0 :: es) (ip :: ts) -> Forall entry_typed (e0 :: es) ->
  buildable output capacity (e0 :: es) (ip :: ts) -> Forall (fun p => 32 <= zlen p) ts ->
  bytes_at m output (build_image (e0 :: es) (ip :: ts)) ->
  let img := build_image (e0 :: es) (ip :: map unlink ts) in
  exists m1 m2 crc m3,
    normalize_tags m output 0 (length ts) = Some m1 /\ put64 m1 (output + 40) 0 = Some m2 /\
    capsule_crc m2 output (zlen (build_image (e0 :: es) (ip :: ts))) = Some crc /\
    put64 m2 (output + 40) crc = Some m3 /\
    zlen img = zlen (build_image (e0 :: es) (ip :: ts)) /\
    frame output (zlen img) m m3 /\ bytes_at m3 output img.
Proof.
  intros Hout Hs Ht Hb H32 Hat img. pose proof Hb as (Hn & Hv & Htot & _).
  pose proof (pls_laid_out _ _ Hs Ht Hv) as Hlo. pose proof (zlen_pls _ _ Hs) as Hl.
  assert (same_sizes (ip :: ts) (ip :: map unlink ts)) as Hsz.
  { constructor; [done|]. clear -H32. induction H32; constructor; [by rewrite zlen_unlink|done]. }
  destruct (buildable_sizes _ _ _ _ _ Hsz Hs Hb) as (Hb' & Hs' & Etot).
  pose proof Hb' as (_ & _ & _ & _ & _ & _). pose proof (pls_laid_out _ _ Hs' Ht Hv) as Hlo'.
  unfold build_image in img, Hat |- *.
  set (pls := place (body_start (zlen (e0 :: es))) (e0 :: es) (ip :: ts)) in *.
  set (pls' := place (body_start (zlen (e0 :: es))) (e0 :: es) (ip :: map unlink ts)) in *.
  assert (zlen (capsule_image pls) = image_total pls) as Hzi by (by apply zlen_image).
  assert (zlen img = image_total pls) as Hzi' by (rewrite <- Etot; by apply zlen_image).
  assert (pls' = take 1 pls ++ map unlink_placed (drop 1 pls)) as Epls.
  { unfold pls, pls'. cbn [place take drop app]. by rewrite place_unlink. }
  assert (stale_at m output pls) as Hst.
  { eexists. split; [|unfold capsule_image in Hat; rewrite seal_at_patch in Hat; exact Hat].
    apply length_le_encode. }
  assert (length pls = S (length ts)) as Hlen.
  { pose proof (Forall2_length _ _ _ Hs) as Hll. unfold zlen in Hl. cbn [length] in *. lia. }
  destruct (normalize_tags_spec output pls m 0 (length ts)) as (m1 & E1 & F1 & crc0 & Hc0 & Hat1).
  { exact Hlo. }
  { exact Htot. }
  { done. }
  { by rewrite Hlen. }
  { unfold pls. cbn [place drop]. clear -H32 Hs. apply Forall2_cons in Hs as [_ Hs].
    generalize (round_up (be_alignment e0) (body_start (zlen (e0 :: es))) + zlen ip). revert es Hs.
    induction H32 as [|p ps Hp _ IH]; intros [|e es] Hs c; inversion Hs; subst; constructor; [done|].
    by apply IH. }
  rewrite <- Epls in Hat1.
  assert (48 <= length (unsealed_image pls'))%nat as Hul by (by apply unsealed_len).
  assert (zlen (patch (unsealed_image pls') 40 crc0) = image_total pls) as Hzp.
  { rewrite zlen_patch by lia. rewrite <- Hzi'. unfold img, capsule_image, zlen.
    by rewrite length_seal_at by lia. }
  destruct (reseal m1 output _ 40 Hat1) as (m2 & crc & m3 & E2 & Ec & E3 & F3 & Hat3); [lia|rewrite zlen_patch by lia; unfold zlen; lia|].
  rewrite Hzp in Ec, F3. change (Z.to_nat 40) with 40%nat in Hat3.
  rewrite seal_at_patched in Hat3 by lia.
  exists m1, m2, crc, m3. unfold capsule_crc. rewrite Hzi, Hzi'. split_and!; try done.
  by eapply frame_trans.
Qed.

(** ** The capsule of a chain *)

Definition next_bit (ib : list byte) : Z := if negb (fld 8 ib 128 =? 0) then 1 else 0.

(** The build entry of the INFO payload at [p]. *)
Definition info_entry (p : Z) (ib : list byte) : bbp_v2_build_entry :=
  V2BuildEntry BBP_V2_ENTRY_V1_INFO (if negb (fld 8 ib 128 =? 0) then BBP_V2_EF_EXTERNAL_PHYS else 0)
    BBP_VERSION_MINOR 8 p 104.

Definition chain_payloads (ib : list byte) (tags : list (Z * list byte)) : list (list byte) :=
  info_payload_of ib :: map unlink (map snd tags).

Definition chain_externals (ib : list byte) (tags : list (Z * list byte)) : Z :=
  next_bit ib + foldr Z.add 0 (map (fun t => ext_bit (snd t)) tags).

(** The chain that starts at the INFO structure [ib] has the tags [tags]. *)
Record v1_source_ok (pm : mem) (ib : list byte) (policy : Z) (tags : list (Z * list byte)) : Prop :=
  V1SourceOk {
  vs_info : v1_info_ok ib;
  vs_count : zlen tags = fld 4 ib 116;
  vs_in : Forall (fun t => tag_in pm (fst t) (snd t)) tags;
  vs_apart : ForallOrdPairs (fun s t => apart (tag_span s) (tag_span t)) tags;
  vs_path : linked_path (fld 8 ib 120) tags 0;
  vs_policy : chain_externals ib tags = 0 \/
    Z.land policy BBP_V2_BRIDGE_ALLOW_EXTERNAL_PHYS <> 0;
}.

Lemma entry_for_typed m e bs :
  32 <= zlen bs <= V1_MAX_TAG_SIZE -> entry_for m e bs -> entry_typed e /\ entry_valid e.
Proof.
  intros Hl [H1 H2 H3 H4 H5 (? & ? & _)]. unfold V1_MAX_TAG_SIZE in Hl. split.
  - constructor.
    + rewrite H1. apply (fld_word 8); lia.
    + rewrite H2. by destruct (negb _).
    + rewrite H3. apply (fld_word 2); lia.
    + by rewrite H4.
    + unfold in_word. lia.
    + unfold in_word. lia.
  - split_and!; [lia|lia|]. rewrite H4. by exists 3.
Qed.

Lemma info_entry_typed p ib : 0 < p -> p + 104 <= 2 ^ 64 ->
  entry_typed (info_entry p ib) /\ entry_valid (info_entry p ib).
Proof.
  intros Hp Hl. split.
  - constructor; cbn; try done; [by destruct (negb _)|unfold in_word; lia].
  - split_and!; cbn; [lia|lia|]. by exists 3.
Qed.

(** The entries of a chain, given the payload in memory. *)
Record chain_entries (m : mem) (p : Z) (ib : list byte) (tags : list (Z * list byte))
    (es : list bbp_v2_build_entry) : Prop := ChainEntries {
  ce_payload : 0 < p /\ p + 104 <= 2 ^ 64 /\ zlen ib = 144 /\ bytes_at m p (info_payload_of ib);
  ce_for : Forall2 (fun e t => entry_for m e (snd t)) es tags;
  ce_sizes : Forall (fun t => 32 <= zlen (snd t) <= V1_MAX_TAG_SIZE) tags;
}.

Lemma chain_entries_facts m p ib tags es :
  chain_entries m p ib tags es ->
  let all := info_entry p ib :: es in let ps := info_payload_of ib :: map snd tags in
  Forall2 sized all ps /\ Forall entry_typed all /\
  Forall2 (fun e q => load_bytes m (be_data e) (length q) = Some q) all ps.
Proof.
  intros [(Hp & Hpl & Hib & Hat) Hf Hs] all ps.
  pose proof (info_entry_typed p ib Hp Hpl) as [Ht _].
  pose proof (zlen_info_payload ib Hib) as Hli.
  assert (Forall2 sized es (map snd tags) /\ Forall entry_typed es /\
    Forall2 (fun e q => load_bytes m (be_data e) (length q) = Some q) es (map snd tags)) as (H1 & H2 & H3).
  { clear -Hf Hs. induction Hf as [|e t es tags He _ IH]; [by split_and!|].
    apply Forall_cons in Hs as [Hs0 Hs]. destruct (IH Hs) as (H1 & H2 & H3). cbn [map].
    split_and!; constructor; try done; [apply He|by eapply entry_for_typed|].
    apply load_bytes_at. split; [done|]. apply He. }
  unfold all, ps. split_and!; constructor; try done.
  apply load_bytes_at. by split.
Qed.

(** What building and clearing the linkage leave. *)
Lemma pack_build m p ib tags es all output capacity :
  chain_entries m p ib tags es -> zlen tags <= 1023 -> 0 < output -> mapped m output capacity ->
  take (S (length tags)) all = info_entry p ib :: es ->
  let img := build_image (info_entry p ib :: es) (chain_payloads ib tags) in
  exists st b m1, bbp_v2_build m output capacity (Some all) (wrap32 (zlen tags + 1)) (Some 0) =
      Some (st, Some b, m1) /\
    (st <> BBP_V2_OK -> m1 = m) /\
    (st = BBP_V2_OK -> b = zlen img /\
      buildable output capacity (info_entry p ib :: es) (chain_payloads ib tags) /\
      exists m2 m3 crc m4, normalize_tags m1 output 0 (length tags) = Some m2 /\
        put64 m2 (output + 40) 0 = Some m3 /\ capsule_crc m3 output b = Some crc /\
        put64 m3 (output + 40) crc = Some m4 /\
        frame output b m m4 /\ bytes_at m4 output img).
Proof.
  intros Hce Hn Hout Hmap Hall img. destruct (chain_entries_facts _ _ _ _ _ Hce) as (Hs & Ht & Hld).
  pose proof (zlen_nonneg tags). rewrite wrap_small by (unfold in_word; lia).
  assert (zlen (info_entry p ib :: es) = zlen tags + 1) as Hl.
  { rewrite zlen_cons. unfold zlen. rewrite (Forall2_length _ _ _ (ce_for _ _ _ _ _ Hce)). lia. }
  rewrite bbp_v2_build_take. replace (Z.to_nat (zlen tags + 1)) with (S (length tags)) by (unfold zlen; lia).
  rewrite Hall, <- Hl.
  destruct (bbp_v2_build_spec m output capacity _ _ 0 Hout Hmap Hs Ht (fun _ => Hld)) as
    (st & b & m1 & E & Hiff & Hok & Hno).
  exists st, b, m1. split; [exact E|]. split; [intros Hst; by apply Hno|]. intros ->.
  destruct (Hok eq_refl) as (-> & F1 & Hat). pose proof (proj1 Hiff eq_refl) as Hb.
  assert (Forall (fun q => 32 <= zlen q) (map snd tags)) as H32.
  { apply Forall_map. eapply Forall_impl; [apply Hce|]. cbn. lia. }
  assert (same_sizes (info_payload_of ib :: map snd tags) (chain_payloads ib tags)) as Hsz.
  { constructor; [done|]. clear -H32. induction H32; constructor; [by rewrite zlen_unlink|done]. }
  destruct (buildable_sizes _ _ _ _ _ Hsz Hs Hb) as (Hb' & _ & _).
  destruct (normalize_image m1 output capacity _ _ _ _ Hout Hs Ht Hb H32 Hat) as
    (m2 & m3 & crc & m4 & E1 & E2 & E3 & E4 & El & F4 & Hat4).
  rewrite length_map in E1. fold img in El, F4, Hat4.
  split; [by rewrite <- El|]. split; [done|]. exists m2, m3, crc, m4. split_and!; try done.
  eapply frame_trans; [exact F1|]. by rewrite <- El.
Qed.

(** ** The whole conversion *)

Definition packs {U} (m pm : mem) (p : Z) (ib : list byte) (policy output capacity w0 : Z)
    (r0 : option bbp_v2_bridge_report)
    (r : option (outcome * option bbp_v2_bridge_workspace * U)) : Prop :=
  exists o w u, r = Some (o, Some w, u) /\
    (o_status o <> BBP_V2_OK ->
       o_written o = Some w0 /\ o_report o = r0 /\ frame p 104 m (o_mem o)) /\
    (o_status o = BBP_V2_OK ->
       exists tags es m1, v1_source_ok pm ib policy tags /\
         frame p 104 m m1 /\ chain_entries m1 p ib tags es /\
         let img := build_image (info_entry p ib :: es) (chain_payloads ib tags) in
         buildable output capacity (info_entry p ib :: es) (chain_payloads ib tags) /\
         o_written o = Some (zlen img) /\
         o_report o = (fun _ => BridgeReport (zlen tags) (chain_externals ib tags)) <$> r0 /\
         frame output (zlen img) m1 (o_mem o) /\ bytes_at (o_mem o) output img).

Lemma packs_fail {U} m m' pm p ib policy output capacity w0 r0 st w (u : U) :
  st <> BBP_V2_OK -> frame p 104 m m' ->
  packs m pm p ib policy output capacity w0 r0 (Some (Outcome st (Some w0) r0 m', Some w, u)).
Proof. intros Hst F. eexists _, _, _. split; [reflexivity|]. split; [done|]. by intros. Qed.

Definition workspace_ok (w : bbp_v2_bridge_workspace) : Prop :=
  length (w_visited w) = 1024%nat /\ length (w_entries w) = 1025%nat.

(** The workspace before the loop. *)
Lemma gathered_start m pm first policy w e0 :
  workspace_ok w -> exists w', set_entry w 0 e0 = Some w' /\ workspace_ok w' /\
    w_info_payload w' = w_info_payload w /\ gathered m pm first e0 policy w' [] [] first.
Proof.
  intros [Hv He]. unfold set_entry. rewrite (proj2 (Nat.ltb_lt _ _)) by lia.
  eexists. split; [reflexivity|]. unfold workspace_ok. cbn [w_visited w_entries w_info_payload].
  rewrite length_insert. split_and!; try done. constructor; cbn [w_visited w_entries length map]; try done.
  - by rewrite length_insert.
  - by destruct (w_entries w).
  - by constructor.
  - by left.
Qed.

Lemma gathered_source m pm ib policy w tags es p :
  v1_info_ok ib -> zlen ib = 144 -> zlen tags = fld 4 ib 116 ->
  (next_bit ib = 0 \/ Z.land policy BBP_V2_BRIDGE_ALLOW_EXTERNAL_PHYS <> 0) ->
  0 < p -> p + 104 <= 2 ^ 64 -> bytes_at m p (info_payload_of ib) ->
  gathered m pm (fld 8 ib 120) (info_entry p ib) policy w tags es 0 ->
  v1_source_ok pm ib policy tags /\ chain_entries m p ib tags es.
Proof.
  intros Hi Hib Hn Hpol Hp Hpl Hat [_ _ _ Hf Hin Hap Hpath Hpol2]. split.
  - constructor; try done. destruct Hpol as [Hpol|]; [|by right]. destruct Hpol2 as [Hz|]; [|by right].
    left. unfold chain_externals. rewrite Hpol. clear -Hz.
    induction Hz as [|t tags Ht _ IH]; [done|]. cbn [map foldr]. unfold ext_bit at 1. rewrite Ht. cbn. lia.
  - constructor; [done|done|]. eapply Forall_impl; [exact Hin|]. intros t Ht. apply Ht.
Qed.

Section Conversion.
Context {U : Type} (m pm : mem) (source : bbp_v2_v1_source U) (w : bbp_v2_bridge_workspace).
Context (ib : list byte) (output capacity policy w0 : Z) (r0 : option bbp_v2_bridge_report).
Context (Hinfo : s_info source <> 0) (Hat : bytes_at m (s_info source) ib) (Hib : zlen ib = 144).
Context (Hw : workspace_ok w) (Hp : 0 < w_info_payload w) (Hpl : w_info_payload w + 104 <= 2 ^ 64).
Context (Hpm : mapped m (w_info_payload w) 104).
Context (Hapart : s_info source + 144 <= w_info_payload w \/ w_info_payload w + 104 <= s_info source).
Context (Hout : 0 < output) (Hmap : mapped m output capacity).
Context (Hphys : forall f, s_map source = Some f ->
  maps_physical f m pm (w_info_payload w) 104).

Let p := w_info_payload w.
Let map_fn := default (fun u _ _ => (u, 0)) (s_map source).

Lemma source_map m1 : frame p 104 m m1 -> maps_physical map_fn m1 pm p 104.
Proof.
  intros F. eapply maps_frame; [|exact F]. unfold map_fn. destruct (s_map source) as [f|] eqn:E.
  - by apply Hphys.
  - by intros u q size _ _ x Hx.
Qed.

Section Packing.
(** The memory after the INFO payload is written. *)
Context (m1 : mem) (F1 : frame p 104 m m1) (Hat1 : bytes_at m1 p (info_payload_of ib)).

Lemma from_v1_pack w1 u :
  v1_info_ok ib -> w_info_payload w1 = p ->
  (next_bit ib = 0 \/ Z.land policy BBP_V2_BRIDGE_ALLOW_EXTERNAL_PHYS <> 0) ->
  gathered m1 pm (fld 8 ib 120) (info_entry p ib) policy w1 [] [] (fld 8 ib 120) ->
  packs m pm p ib policy output capacity w0 r0 (
    '(u, w, r) ← from_v1_loop map_fn m1 policy u w1 0 (fld 8 ib 120) (next_bit ib)
                   (Z.to_nat (fld 4 ib 116));
    match r with
    | inl status => Some (Outcome status (Some w0) r0 m1, Some w, u)
    | inr (current, external_count) =>
    reject negb (current =? 0) with Some (Outcome BBP_V2_ERR_SOURCE (Some w0) r0 m1, Some w, u);
    '(status, built, m) ← bbp_v2_build m1 output capacity (Some (w_entries w))
                            (wrap32 (fld 4 ib 116 + 1)) (Some 0);
    reject negb (bool_decide (status = BBP_V2_OK)) with Some (Outcome status (Some w0) r0 m, Some w, u);
    let built := default 0 built in
    m ← normalize_tags m output 0 (Z.to_nat (fld 4 ib 116));
    m ← put64 m (output + 40) 0;
    crc ← capsule_crc m output built;
    m ← put64 m (output + 40) crc;
    let candidate := BridgeReport (fld 4 ib 116) external_count in
    Some (Outcome BBP_V2_OK (Some built) ((fun _ => candidate) <$> r0) m, Some w, u)
    end).
Proof.
  intros Hi Hw1 Hnext Hg. pose proof (vi_count _ Hi) as Hc.
  assert (0 <= next_bit ib <= 1) as Hnb by (unfold next_bit; destruct (negb _); lia).
  pose proof (fld_nonneg 4 ib 116). pose proof (fld_nonneg 8 ib 120).
  destruct (from_v1_loop_spec map_fn m1 pm p 104 (source_map m1 F1) _ _ policy u w1 [] [] _
    (next_bit ib) (Z.to_nat (fld 4 ib 116)) Hg) as (u2 & w2 & r & E & _ & Hr); [cbn; lia|done|cbn; lia|].
  cbn [length] in E. rewrite E. cbn [mbind option_bind]. destruct r as [st|[next ext]].
  { by apply packs_fail. }
  destruct Hr as (tags & es & Hg2 & Hlen & ->). cbn [app] in Hg2.
  destruct (Z.eqb_spec next 0) as [->|]; cbn [negb]; [|by apply packs_fail].
  assert (zlen tags = fld 4 ib 116) as Hn by (unfold zlen; lia).
  destruct (gathered_source m1 pm ib policy w2 tags es p) as [Hsrc Hce]; try done.
  rewrite <- Hn. replace (Z.to_nat (zlen tags)) with (length tags) by (unfold zlen; lia).
  destruct (pack_build m1 p ib tags es (w_entries w2) output capacity) as (st & b & m2 & -> & Hno & Hok);
    try done; [lia|by eapply frame_mapped|by eapply ga_entries|]. cbn [mbind option_bind].
  destruct (decide (st = BBP_V2_OK)) as [->|Hst]; cycle 1.
  { rewrite bool_decide_eq_false_2 by done. rewrite (Hno Hst). by apply packs_fail. }
  rewrite bool_decide_eq_true_2 by done. cbn [negb default from_option id].
  destruct (Hok eq_refl) as (-> & Hb & m3 & m4 & crc & m5 & -> & E2 & E3 & E4 & F5 & Hat5).
  cbn [mbind option_bind]. rewrite E2. cbn [mbind option_bind]. rewrite E3. cbn [mbind option_bind].
  rewrite E4. eexists _, _, _. split; [reflexivity|]. split; [done|]. intros _.
  by exists tags, es, m1.
Qed.
End Packing.

Lemma bbp_v2_from_v1_spec u :
  packs m pm p ib policy output capacity w0 r0
    (bbp_v2_from_v1 m (Some source) u policy (Some w) output capacity (Some w0) r0).
Proof.
  unfold bbp_v2_from_v1. rewrite !(proj2 (Z.eqb_neq _ 0)) by lia. cbn [orb].
  destruct (check_info_spec m source ib Hat Hib) as (r & -> & Hr). cbn [mbind option_bind].
  destruct r as [st|[count first]]; [apply packs_fail; [done|apply frame_refl]|].
  destruct Hr as (Hi & -> & -> & _).
  destruct (normalize_info_spec m p (s_info source) ib Hpm Hat Hib Hapart) as (m1 & E1 & F1 & Hat1).
  fold p. rewrite E1. cbn [mbind option_bind].
  set (entry0 := fun flags => V2BuildEntry BBP_V2_ENTRY_V1_INFO flags BBP_VERSION_MINOR 8 p 104).
  destruct (gathered_start m1 pm (fld 8 ib 120) policy w (entry0 0) Hw) as (w1 & Ew & Hw1 & Hp1 & Hg).
  change (V2BuildEntry BBP_V2_ENTRY_V1_INFO 0 BBP_VERSION_MINOR 8 p 104) with (entry0 0).
  rewrite Ew. cbn [mbind option_bind]. rewrite get64_load. unfold load64.
  assert (bytes_at m1 (s_info source) ib) as Hat2 by (eapply frame_bytes_at; [exact F1|rewrite Hib; lia|done]).
  rewrite (fld_load _ _ _ _ _ Hat2) by lia. cbn [mbind option_bind].
  destruct (Z.eqb_spec (fld 8 ib 128) 0) as [Hz|Hz]; cbn [negb andb].
  - cbn [mbind option_bind]. fold map_fn.
    pose proof (from_v1_pack m1 F1 Hat1 w1 u Hi Hp1) as Hpack. unfold next_bit, info_entry in Hpack.
    rewrite Hz in Hpack. apply Hpack; [by left|done].
  - destruct (Z.eqb_spec (Z.land policy BBP_V2_BRIDGE_ALLOW_EXTERNAL_PHYS) 0) as [|Ha];
      [by apply packs_fail|].
    destruct (gathered_start m1 pm (fld 8 ib 120) policy w1 (entry0 BBP_V2_EF_EXTERNAL_PHYS) Hw1) as
      (w2 & Ew2 & _ & Hp2 & Hg2).
    change (Z.lor 0 BBP_V2_EF_EXTERNAL_PHYS) with BBP_V2_EF_EXTERNAL_PHYS.
    change (V2BuildEntry BBP_V2_ENTRY_V1_INFO BBP_V2_EF_EXTERNAL_PHYS BBP_VERSION_MINOR 8 p 104) with
      (entry0 BBP_V2_EF_EXTERNAL_PHYS). rewrite Ew2. cbn [mbind option_bind]. fold map_fn.
    pose proof (from_v1_pack m1 F1 Hat1 w2 u Hi (eq_trans Hp2 Hp1)) as Hpack.
    unfold next_bit, info_entry in Hpack. rewrite (proj2 (Z.eqb_neq _ 0) Hz) in Hpack.
    apply Hpack; [by right|done].
Qed.
End Conversion.
