(* ===== verification/BridgeProps.v ===== *)
(** * Properties of the bridge

    A restored capsule is a handoff the kernel accepts; a packed chain is a
    capsule that parses; packing and restoring keeps every tag. *)

From S2P Require Import Prelude Memory Crc64 Abi KernelParser KernelFacts Builder BuilderProps Handoff ImportBodies Capsule CapsuleFacts CapsuleBuild CapsuleProps Bridge BridgeFacts BridgeToV1 BridgeFromV1.

(** ** The capsule of a chain *)

Section Packed.
Context (es : list bbp_v2_build_entry) (ps : list (list byte)) (output capacity : Z).
Context (Hs : Forall2 sized es ps) (Ht : Forall entry_typed es) (Hb : buildable output capacity es ps).

Let img := build_image es ps.

Lemma packed_header :
  wf_capsule img /\ c_count img = zlen es /\ c_dir img = 64 /\ zlen img <= capacity.
Proof.
  pose proof Hb as (Hn & Hv & Htot & Hcap & Hw & _).
  pose proof (pls_laid_out es ps Hs Ht Hv) as Hlo. pose proof (zlen_pls es ps Hs) as Hl.
  unfold img, build_image. set (pls := place (body_start (zlen es)) es ps) in *.
  rewrite <- Hl in Hn. destruct (image_header pls Hlo Hn Htot) as (_&_&_&_&_&Ec&_&Ed&_).
  split_and!; [by apply image_wf|lia|done|by rewrite zlen_image].
Qed.

Lemma packed_entry i e p :
  es !! i = Some e -> ps !! i = Some p ->
  e_type img 64 (Z.of_nat i) = be_type e /\ e_flags img 64 (Z.of_nat i) = be_flags e /\
  e_version img 64 (Z.of_nat i) = be_version e /\ payload img (Z.of_nat i) = p.
Proof.
  intros He Hp. pose proof Hb as (Hn & Hv & Htot & _).
  pose proof (pls_laid_out es ps Hs Ht Hv) as Hlo. pose proof (zlen_pls es ps Hs) as Hl.
  unfold payload. rewrite (proj1 (proj2 (proj2 packed_header))).
  unfold img, build_image. set (pls := place (body_start (zlen es)) es ps) in *.
  rewrite <- Hl in Hn. destruct (lookup_lt_is_Some_2 pls i) as [q Hq].
  { apply lookup_lt_Some in He. unfold zlen in *. lia. }
  destruct (place_lookup _ _ _ _ _ Hq) as [Hqe Hqp].
  assert (e = p_entry q /\ p = p_payload q) as [-> ->] by (split; congruence).
  destruct (image_entry pls Hlo Hn Htot i q Hq) as (E0&E8&E12&_&Eo&Es&_).
  rewrite E0, E8, E12, Eo, Es. split_and!; try done. by eapply image_payload.
Qed.

Lemma packed_payloads i :
  (i <= length es)%nat -> payloads img (Z.of_nat i) (length es - i) = drop i ps.
Proof.
  intros Hi. pose proof (Forall2_length _ _ _ Hs) as Hlen.
  remember (length es - i)%nat as k eqn:Ek. revert i Hi Ek. induction k as [|k IH]; intros i Hi Ek.
  { rewrite payloads_nil, drop_ge by lia. done. }
  destruct (lookup_lt_is_Some_2 es i) as [e He]; [lia|].
  destruct (lookup_lt_is_Some_2 ps i) as [p Hp]; [lia|].
  rewrite payloads_succ, (drop_S _ _ _ Hp). destruct (packed_entry i e p He Hp) as (_&_&_&->).
  f_equal. replace (Z.of_nat i + 1) with (Z.of_nat (S i)) by lia. apply IH; lia.
Qed.
End Packed.

(** ** Cleared tags *)

Lemma unlink_lookup p i :
  32 <= zlen p -> (i < 16 \/ 32 <= i)%nat -> unlink p !! i = p !! i.
Proof.
  intros Hl Hi. unfold unlink, zlen in *.
  rewrite !patch_lookup; rewrite ?length_patch, ?length_le_encode; rewrite ?length_le_encode; try lia.
  by rewrite !decide_False by lia.
Qed.

Lemma unlink_fld n p off :
  32 <= zlen p -> 0 <= off -> (Z.to_nat off + n <= 16)%nat -> fld n (unlink p) off = fld n p off.
Proof. intros Hl Ho Hn. apply fld_ext. intros i Hi. apply unlink_lookup; lia. Qed.

Lemma unlink_cleared p : 32 <= zlen p -> fld 8 (unlink p) 16 = 0 /\ fld 8 (unlink p) 24 = 0.
Proof.
  intros Hl. unfold unlink, zlen in *. split.
  - etrans; [|apply (fld_patch 8 p 16 0); [lia|done]]. apply fld_ext. intros i Hi.
    rewrite patch_lookup; rewrite length_le_encode;
      [by rewrite decide_False by lia|rewrite length_patch; rewrite ?length_le_encode; lia].
  - apply (fld_patch 8 _ 24 0); [|done]. rewrite length_patch; rewrite ?length_le_encode; lia.
Qed.

Lemma unlink_restores m t p : 32 <= zlen p -> restores m t (unlink p) -> restores m t p.
Proof.
  intros Hl [H1 H2]. split.
  - intros i b Hi. pose proof (lookup_lt_Some _ _ _ Hi) as Hlt. rewrite length_take in Hlt.
    apply H1. rewrite lookup_take_lt in * by lia. by rewrite unlink_lookup by lia.
  - intros i b Hi. apply H2. rewrite lookup_drop in *. by rewrite unlink_lookup by lia.
Qed.

Lemma restores_unlink m ts (tags : list (Z * list byte)) :
  Forall (fun t => 32 <= zlen (snd t)) tags ->
  Forall2 (restores m) ts (map unlink (map snd tags)) -> Forall2 (restores m) ts (map snd tags).
Proof.
  intros H. revert ts. induction H as [|t tags Ht _ IH]; intros ts Hr; inversion Hr; subst; constructor.
  - by apply unlink_restores.
  - by apply IH.
Qed.

Lemma v1_end_sizes c ps qs : same_sizes ps qs -> v1_end c qs = v1_end c ps.
Proof.
  intros H. revert c. induction H as [|p q ps qs Hpq _ IH]; intros c; [done|]. cbn [v1_end].
  by rewrite Hpq, IH.
Qed.

Section Chain.
Context (pm m : mem) (p policy output capacity : Z) (ib : list byte).
Context (tags : list (Z * list byte)) (es : list bbp_v2_build_entry).
Context (Hsrc : v1_source_ok pm ib policy tags) (Hce : chain_entries m p ib tags es).

Let all := info_entry p ib :: es.
Let ps := chain_payloads ib tags.
Let img := build_image all ps.
Context (Hb : buildable output capacity all ps).

(** The size of the restored handoff. *)
Definition handoff_size (tags : list (Z * list byte)) : Z := v1_end 144 (map snd tags).

Lemma chain_sized : Forall2 sized all ps /\ Forall entry_typed all.
Proof using Hce.
  destruct (chain_entries_facts _ _ _ _ _ Hce) as (Hs & Ht & _). split; [|done].
  apply Forall2_cons in Hs as [Hs0 Hs]. constructor; [done|].
  pose proof (ce_sizes _ _ _ _ _ Hce) as Hz. clear -Hs Hz. revert es Hs.
  induction Hz as [|t tags Ht _ IH]; intros es Hs; inversion Hs; subst; constructor.
  - unfold sized in *. by rewrite zlen_unlink by lia.
  - by apply IH.
Qed.

Lemma chain_header :
  wf_capsule img /\ c_count img = zlen tags + 1 /\ c_dir img = 64 /\ zlen img <= capacity /\
  tag_payloads img = map unlink (map snd tags) /\ payload img 0 = info_payload_of ib /\
  v1_total img = handoff_size tags.
Proof.
  destruct chain_sized as [Hs Ht].
  destruct (packed_header all ps output capacity Hs Ht Hb) as (Hwf & Hc & Hd & Hcap).
  pose proof (Forall2_length _ _ _ (ce_for _ _ _ _ _ Hce)) as Hlen.
  assert (zlen all = zlen tags + 1) as Hn by (unfold all; rewrite zlen_cons; unfold zlen; lia).
  assert (tag_payloads img = map unlink (map snd tags)) as Htp.
  { unfold tag_payloads, img. rewrite Hc, Hn.
    pose proof (packed_payloads all ps output capacity Hs Ht Hb 1) as Hps.
    change (drop 1 ps) with (map unlink (map snd tags)) in Hps. rewrite <- Hps by (cbn; lia).
    f_equal. unfold zlen. cbn. lia. }
  split_and!; try done; [unfold img; lia| |].
  - by apply (packed_entry all ps output capacity Hs Ht Hb 0 (info_entry p ib) (info_payload_of ib)).
  - unfold v1_total, handoff_size. rewrite Htp. apply v1_end_sizes.
    pose proof (ce_sizes _ _ _ _ _ Hce) as Hz. clear -Hz.
    induction Hz as [|t tags Ht _ IH]; constructor; [by rewrite zlen_unlink by lia|done].
Qed.

(** Entry [i + 1] and the payload it is made of. *)
Lemma chain_entry i a bs :
  tags !! i = Some (a, bs) ->
  exists e, entry_for m e bs /\ tag_in pm a bs /\
    e_type img 64 (Z.of_nat i + 1) = be_type e /\ e_flags img 64 (Z.of_nat i + 1) = be_flags e /\
    e_version img 64 (Z.of_nat i + 1) = be_version e /\ payload img (Z.of_nat i + 1) = unlink bs.
Proof.
  intros Hi. destruct chain_sized as [Hs Ht].
  destruct (Forall2_lookup_r _ _ _ _ _ (ce_for _ _ _ _ _ Hce) Hi) as (e & He & Hef).
  pose proof (Forall_lookup_1 _ _ _ _ (vs_in _ _ _ _ Hsrc) Hi) as Hin.
  exists e. split; [done|]. split; [done|]. replace (Z.of_nat i + 1) with (Z.of_nat (S i)) by lia.
  apply (packed_entry all ps output capacity Hs Ht Hb (S i)); [done|].
  cbn. rewrite map_map. change (((fun t => unlink (snd t)) <$> tags) !! i = Some (unlink bs)).
  by rewrite list_lookup_fmap, Hi.
Qed.

Lemma entry_external e bs :
  entry_for m e bs -> (if negb (Z.land (be_flags e) BBP_V2_EF_EXTERNAL_PHYS =? 0) then 1 else 0) = ext_bit bs.
Proof. intros [_ -> _ _ _ _]. unfold ext_bit. by destruct (negb (refs_of bs =? 0)). Qed.

Lemma chain_wire j : 0 < j < c_count img -> wire_tag img j.
Proof.
  intros Hj. destruct chain_header as (_ & Hc & Hd & _).
  destruct (lookup_lt_is_Some_2 tags (Z.to_nat (j - 1))) as [[a bs] Hi]; [unfold zlen in *; lia|].
  destruct (chain_entry _ _ _ Hi) as (e & Hef & Hin & E0 & E8 & E12 & Epl).
  replace (Z.of_nat (Z.to_nat (j - 1)) + 1) with j in * by lia.
  pose proof (ti_size _ _ _ Hin) as [Hsz Hfl]. destruct Hef as [Hty Hfg Hve _ _ _].
  assert (refs_of (unlink bs) = refs_of bs) as Hrefs.
  { apply refs_of_unlinked; [lia|by rewrite zlen_unlink by lia|]. intros k Hk. apply unlink_lookup; lia. }
  constructor; rewrite ?Epl, ?Hd, ?E0, ?E8, ?E12, ?Hfg, ?zlen_unlink, ?unlink_fld by lia; try done.
  - by destruct (negb _).
  - by destruct (negb _).
  - apply unlink_cleared. lia.
  - unfold is_external. rewrite Hrefs, Hd, E8, Hfg.
    destruct (ti_references _ _ _ Hin) as [->| ->]; [by left|by right].
Qed.

Lemma chain_external_sum i :
  (i <= length tags)%nat ->
  externals img (Z.of_nat i + 1) (length tags - i) =
  foldr Z.add 0 (map (fun t => ext_bit (snd t)) (drop i tags)).
Proof.
  intros Hi. destruct chain_header as (_ & Hc & Hd & _).
  remember (length tags - i)%nat as k eqn:Ek. revert i Hi Ek. induction k as [|k IH]; intros i Hi Ek.
  { by rewrite drop_ge by lia. }
  destruct (lookup_lt_is_Some_2 tags i) as [[a bs] Ht]; [lia|].
  rewrite (drop_S _ _ _ Ht). cbn [externals map foldr snd].
  destruct (chain_entry _ _ _ Ht) as (e & Hef & _ & _ & E8 & _ & _).
  unfold is_external. rewrite Hd, E8, (entry_external e bs Hef). f_equal.
  replace (Z.of_nat i + 1 + 1) with (Z.of_nat (S i) + 1) by lia. apply IH; lia.
Qed.

Lemma info_flags :
  e_type img 64 0 = BBP_V2_ENTRY_V1_INFO /\ e_version img 64 0 = BBP_VERSION_MINOR /\
  e_flags img 64 0 = if negb (fld 8 ib 128 =? 0) then BBP_V2_EF_EXTERNAL_PHYS else 0.
Proof.
  destruct chain_sized as [Hs Ht].
  destruct (packed_entry all ps output capacity Hs Ht Hb 0 (info_entry p ib) (info_payload_of ib)) as
    (E0 & E8 & E12 & _); done.
Qed.

Lemma chain_externals_spec : externals img 0 (Z.to_nat (c_count img)) = chain_externals ib tags.
Proof.
  destruct chain_header as (_ & Hc & Hd & _). pose proof (zlen_nonneg tags).
  rewrite Hc. replace (Z.to_nat (zlen tags + 1)) with (S (length tags)) by (unfold zlen; lia).
  cbn [externals]. unfold chain_externals.
  pose proof (chain_external_sum 0) as Hsum. rewrite Nat.sub_0_r, drop_0 in Hsum.
  change (Z.of_nat 0 + 1) with (0 + 1) in Hsum. rewrite Hsum by lia. f_equal.
  unfold is_external, next_bit. rewrite Hd, (proj2 (proj2 info_flags)).
  by destruct (negb (fld 8 ib 128 =? 0)).
Qed.

Lemma info_payload_context : zlen ib = 144 -> fld 8 (info_payload_of ib) 96 = fld 8 ib 128.
Proof.
  intros Hl. unfold info_payload_of, fld. change (Z.to_nat 96) with 96%nat.
  change (Z.to_nat 128) with 128%nat. f_equal.
  pose proof (length_slice ib 24 92 ltac:(lia) ltac:(lia) ltac:(lia)) as H24. unfold zlen in H24.
  rewrite app_assoc, drop_app_length' by (rewrite length_app, length_replicate; lia).
  unfold slice. by rewrite take_take.
Qed.

Lemma chain_convertible policy2 out2 cap2 phys2 :
  (chain_externals ib tags = 0 \/ Z.land policy2 BBP_V2_BRIDGE_ALLOW_EXTERNAL_PHYS <> 0) ->
  handoff_size tags <= V1_MAX_INFO_SIZE -> handoff_size tags <= cap2 ->
  0 < phys2 -> phys2 mod 8 = 0 -> phys2 + handoff_size tags <= 2 ^ 48 ->
  out2 + handoff_size tags <= SIZE_MAX ->
  output + zlen img <= out2 \/ out2 + handoff_size tags <= output ->
  convertible img output policy2 out2 cap2 phys2.
Proof.
  intros Hpol Hmax Hcap Hp Hal Hpm Hsm Hap.
  destruct chain_header as (Hwf & Hc & Hd & Hcp & Htp & Hp0 & Htot).
  destruct info_flags as (E0 & E12 & E8). pose proof (zlen_nonneg tags).
  pose proof (ce_payload _ _ _ _ _ Hce) as (_ & _ & Hib & _).
  pose proof Hb as (_ & _ & _ & _ & _ & Hsa). apply Forall_cons in Hsa as [(Hos & _) _].
  destruct chain_sized as [Hs Ht]. pose proof Hb as (_ & Hv & _).
  constructor; rewrite ?Htot; [exact Hwf|lia| |exact chain_wire|exact Hmax| |exact Hcap|done|].
  - constructor; rewrite ?Hp0, ?Hd, ?E0, ?E12, ?E8; [done|done|by apply zlen_info_payload| |].
    + by destruct (negb _).
    + rewrite info_payload_context by done. unfold is_external. rewrite Hd, E8. intros Hne.
      by rewrite (proj2 (Z.eqb_neq _ _) Hne).
  - by rewrite chain_externals_spec.
  - split_and!; [done| |done]. unfold img, build_image. rewrite zlen_image; [exact Hos|by apply pls_laid_out].
Qed.
End Chain.

Lemma parse_wf m c bs o :
  0 < c -> bytes_at m c bs -> wf_capsule bs ->
  bbp_v2_parse m c (zlen bs) (Some o) = Some (BBP_V2_OK, Some (view_of c bs)).
Proof.
  intros Hc Hat Hwf. destruct (bbp_v2_parse_spec m c bs Hat o) as (st & E & Hst); [lia|].
  assert (st = BBP_V2_OK) as -> by (by apply Hst). by rewrite bool_decide_eq_true_2 in E.
Qed.

(** The kernel's view of the [n] bytes at [output]: the bounded initialiser
    accepts them, and iteration and lookup see [tags], whose identifiers,
    sizes, versions and bodies are those of [ps]. *)
Definition kernel_sees (m : mem) (output h phys n : Z) (ps : list (list byte)) : Prop :=
  let k := Kctx output h 1 phys (phys + n) in
  exists tags, Forall2 (restores m) tags ps /\
    (forall cand k0, exists off, bbp_init_bounded m cand (Some k0) output h phys n =
       Some (Some (Kctx output off 1 phys (phys + n)), BBP_OK) /\ (h <> 0 -> off = h)) /\
    (forall id, bbp_find_tag m (Some k) id = Some (default 0 (List.find (has_id m id) tags))) /\
    (forall U (cb : U -> Z -> option (U * Z)) u,
       bbp_for_each_tag m (Some k) (Some cb) u = deliver cb tags u 0).

Lemma kernel_sees_payloads m output h phys n ps qs :
  (forall t, Forall2 (restores m) t ps -> Forall2 (restores m) t qs) ->
  kernel_sees m output h phys n ps -> kernel_sees m output h phys n qs.
Proof. intros H (tags & Hr & Hrest). exists tags. split; [by apply H|done]. Qed.

(** The restored INFO keeps the fields of the source. *)
Lemma info_image_keeps m a ib first total :
  zlen ib = 144 -> bytes_at m a (info_image (info_payload_of ib) (fld 4 ib 116) first total) ->
  bytes_at m (a + 24) (slice ib 24 96) /\ bytes_at m (a + 128) (slice ib 128 8).
Proof.
  intros Hl Hat. pose proof (length_slice ib 24 92 ltac:(lia) ltac:(lia) ltac:(lia)) as H24.
  pose proof (length_slice ib 24 96 ltac:(lia) ltac:(lia) ltac:(lia)) as H96.
  pose proof (length_slice ib 128 8 ltac:(lia) ltac:(lia) ltac:(lia)) as H128.
  unfold info_image in Hat.
  rewrite (slice_piece (info_payload_of ib) [] (slice ib 24 92) (replicate 4 x00 ++ slice ib 128 8) 0 92) in Hat by done.
  rewrite (slice_piece (info_payload_of ib) (slice ib 24 92 ++ replicate 4 x00) (slice ib 128 8) [] 96 8) in Hat;
    [|unfold info_payload_of; by rewrite app_nil_r, <- app_assoc|by rewrite zlen_app, H24|done].
  rewrite (le_encode_fld 4 ib 116) in Hat by lia. rewrite slice_merge_app in Hat by lia.
  set (head := BBP_INFO_MAGIC ++ le_encode 2 BBP_VERSION_MAJOR ++ le_encode 2 BBP_VERSION_MINOR ++
    le_encode 4 total).
  replace (BBP_INFO_MAGIC ++ _) with
    ((head ++ slice ib 24 96 ++ le_encode 8 first ++ slice ib 128 8) ++ replicate 8 x00) in Hat
    by (unfold head; by rewrite <- !app_assoc).
  assert (zlen head = 24) as Hh by done.
  rewrite seal_at_patch in Hat. unfold patch in Hat. apply bytes_at_app in Hat as [Hat _].
  rewrite take_app_length' in Hat by
    (rewrite !length_app, length_le_encode; unfold zlen in *; lia).
  rewrite !bytes_at_app, Hh, H96, zlen_le_encode in Hat. destruct Hat as (_ & ? & _ & Hc).
  split; [done|]. by rewrite <- !Z.add_assoc in Hc.
Qed.

(** ** Properties *)

Lemma restored_visible m m' bs c policy output capacity phys h :
  convertible bs c policy output capacity phys -> bytes_at m' output (v1_image bs phys) ->
  mapped m output capacity -> frame output (v1_total bs) m m' ->
  0 < output -> output = phys + h -> 0 <= h ->
  kernel_sees m' output h phys (v1_total bs) (tag_payloads bs).
Proof.
  intros Hcv Hat Hm F Ho Hh Hh0.
  destruct (restored_handoff m' bs c policy output capacity phys h) as [Hvh Hr]; try done.
  pose proof (cv_phys _ _ _ _ _ _ Hcv) as (Hp0 & _ & Hmax). pose proof (cv_capacity _ _ _ _ _ _ Hcv).
  pose proof (v1_end_ge 144 (tag_payloads bs) : 144 <= v1_total bs).
  eexists. split; [exact Hr|]. split_and!.
  - intros cand k0. eapply init_bounded_accepts; [exact Hvh|lia|lia|lia|].
    rewrite <- Hh. eapply frame_mapped; [exact F|]. eapply mapped_sub; [exact Hm|lia|lia].
  - intros id. by apply vh_find.
  - intros U cb u. by apply vh_each.
Qed.

(** C10: version 2 to version 1.  Converting a capsule succeeds exactly when
    the capsule is well formed, its first entry is a normalized INFO, every
    other entry is a wire tag without linkage whose physical references are
    flagged, the policy allows those references, and the handoff fits the
    output, the size limits and the physical window.  A failed conversion
    changes nothing.  A successful one writes only the reported bytes of the
    output, and the kernel's bounded initialiser, lookup and iteration see
    there exactly the tags of the capsule. *)
Theorem to_v1_restores_handoff (m : mem) (c : Z) (bs : list byte)
    (policy output capacity phys h w0 : Z) (r0 : option bbp_v2_bridge_report) (src : bbp_v2_view) :
  0 < c -> bytes_at m c bs -> v_data src = c -> v_total_size src = zlen bs ->
  0 < output -> mapped m output capacity -> output = phys + h -> 0 <= phys -> 0 <= h ->
  exists o, bbp_v2_to_v1 m (Some src) policy output capacity phys (Some w0) r0 = Some o /\
    (o_status o = BBP_V2_OK <-> convertible bs c policy output capacity phys) /\
    (o_status o <> BBP_V2_OK -> o = Outcome (o_status o) (Some w0) r0 m) /\
    (o_status o = BBP_V2_OK ->
       o_written o = Some (v1_total bs) /\
       o_report o = (fun _ => BridgeReport (c_count bs - 1)
                                (externals bs 0 (Z.to_nat (c_count bs)))) <$> r0 /\
       frame output (v1_total bs) m (o_mem o) /\
       kernel_sees (o_mem o) output h phys (v1_total bs) (tag_payloads bs)).
Proof.
  intros Hc Hat Hd Hsz Ho Hm Hh Hp Hh0.
  destruct (bbp_v2_to_v1_spec m c bs policy output capacity phys w0 r0 Hc Hat Ho Hm Hp src Hd Hsz)
    as (o & E & Hiff & Hno & Hok).
  exists o. split_and!; try done. intros Hst. destruct (Hok Hst) as (Hw & Hr & F & Hati).
  split_and!; try done. eapply restored_visible; try done. by apply Hiff.
Qed.

(** C11: version 1 to version 2.  Whatever the chain in memory holds, a
    conversion terminates without fault.  If it fails, only the workspace's
    INFO payload may have changed, and neither the size nor the report is
    written.  If it succeeds, the INFO structure was valid, its chain was
    walked to its end through exactly the counted tags (aligned, below the
    physical limit, pairwise apart, each with its checksum intact and its
    arrays inside it, external references only where the policy allows them),
    and the output holds the capsule of the normalized INFO and the tags in
    order, with cleared linkage; nothing else changed. *)
Theorem from_v1_packs_chain {U : Type} (m pm : mem) (source : bbp_v2_v1_source U) (u : U)
    (w : bbp_v2_bridge_workspace) (ib : list byte) (output capacity policy w0 : Z)
    (r0 : option bbp_v2_bridge_report) :
  s_info source <> 0 -> bytes_at m (s_info source) ib -> zlen ib = 144 ->
  workspace_ok w -> 0 < w_info_payload w -> w_info_payload w + 104 <= 2 ^ 64 ->
  mapped m (w_info_payload w) 104 ->
  s_info source + 144 <= w_info_payload w \/ w_info_payload w + 104 <= s_info source ->
  0 < output -> mapped m output capacity ->
  (forall f, s_map source = Some f -> maps_physical f m pm (w_info_payload w) 104) ->
  packs m pm (w_info_payload w) ib policy output capacity w0 r0
    (bbp_v2_from_v1 m (Some source) u policy (Some w) output capacity (Some w0) r0).
Proof. intros. by apply bbp_v2_from_v1_spec. Qed.

(** C9: the bridge is lossless.  A chain packed by [bbp_v2_from_v1] parses as
    a capsule, and [bbp_v2_to_v1] under the same policy restores it into any
    output that has room, lies apart from the capsule and has an aligned
    physical address: the report is the same, the INFO keeps its producer,
    timestamps, architecture, processor count, tag count and next context, and
    the kernel sees the tags of the source in their order, with every byte
    but the link and the checksum. *)
Theorem bridge_roundtrip {U : Type} (m pm : mem) (source : bbp_v2_v1_source U) (u : U)
    (w : bbp_v2_bridge_workspace) (ib : list byte) (output capacity policy w0 : Z)
    (r0 : option bbp_v2_bridge_report) (o : outcome) (w' : option bbp_v2_bridge_workspace) (u' : U) :
  s_info source <> 0 -> bytes_at m (s_info source) ib -> zlen ib = 144 ->
  workspace_ok w -> 0 < w_info_payload w -> w_info_payload w + 104 <= 2 ^ 64 ->
  mapped m (w_info_payload w) 104 ->
  s_info source + 144 <= w_info_payload w \/ w_info_payload w + 104 <= s_info source ->
  0 < output -> mapped m output capacity ->
  (forall f, s_map source = Some f -> maps_physical f m pm (w_info_payload w) 104) ->
  bbp_v2_from_v1 m (Some source) u policy (Some w) output capacity (Some w0) r0 = Some (o, w', u') ->
  o_status o = BBP_V2_OK ->
  exists tags n, v1_source_ok pm ib policy tags /\ o_written o = Some n /\
    forall v0, exists v, bbp_v2_parse (o_mem o) output n (Some v0) = Some (BBP_V2_OK, Some v) /\
    forall out2 cap2 phys2 h w2, mapped (o_mem o) out2 cap2 ->
      0 < out2 -> out2 = phys2 + h -> 0 <= h -> 0 < phys2 -> phys2 mod 8 = 0 ->
      handoff_size tags <= V1_MAX_INFO_SIZE -> handoff_size tags <= cap2 ->
      phys2 + handoff_size tags <= 2 ^ 48 -> out2 + handoff_size tags <= SIZE_MAX ->
      output + n <= out2 \/ out2 + handoff_size tags <= output ->
      exists o2, bbp_v2_to_v1 (o_mem o) (Some v) policy out2 cap2 phys2 (Some w2) r0 = Some o2 /\
        o_status o2 = BBP_V2_OK /\ o_written o2 = Some (handoff_size tags) /\
        o_report o2 = o_report o /\
        bytes_at (o_mem o2) (out2 + 24) (slice ib 24 96) /\
        bytes_at (o_mem o2) (out2 + 128) (slice ib 128 8) /\
        kernel_sees (o_mem o2) out2 h phys2 (handoff_size tags) (map snd tags).
Proof.
  intros Hi Hat Hib Hw Hp Hpl Hpm Hap Hout Hmap Hphys E Hst.
  destruct (bbp_v2_from_v1_spec m pm source w ib output capacity policy w0 r0 Hi Hat Hib Hw Hp Hpl
    Hpm Hap Hout Hmap Hphys u) as (o1 & w1 & u1 & E1 & _ & Hok).
  rewrite E in E1. injection E1 as <- -> <-.
  destruct (Hok Hst) as (tags & es & m1 & Hsrc & _ & Hce & Hb & Hwr & Hrep & _ & Hati).
  set (img := build_image _ _) in *. exists tags, (zlen img). split; [done|]. split; [done|]. intros v0.
  destruct (chain_header _ _ _ _ _ _ _ Hce Hb) as (Hwf & Hc & _ & _ & Htp & Hp0 & Htot).
  fold img in Hwf, Hc, Htp, Hp0, Htot. eexists. split; [by apply parse_wf|].
  intros out2 cap2 phys2 h w2 Hm2 Ho2 Hh Hh0 Hp2 Hal Hmx Hcp Hpx Hox Hap2.
  pose proof (chain_convertible _ _ _ _ _ _ _ _ _ Hsrc Hce Hb policy out2 cap2 phys2
    (vs_policy _ _ _ _ Hsrc) Hmx Hcp Hp2 Hal Hpx Hox Hap2) as Hcv.
  destruct (bbp_v2_to_v1_spec (o_mem o) output img policy out2 cap2 phys2 w2 r0 Hout Hati Ho2 Hm2
    ltac:(lia) (view_of output img) eq_refl eq_refl) as (o2 & E2 & Hiff & _ & Hok2).
  pose proof (proj2 Hiff Hcv) as Hst2. destruct (Hok2 Hst2) as (Hw2 & Hr2 & F2 & Hat2).
  exists o2. rewrite Htot in Hw2. 
  destruct (proj1 (bytes_at_app _ _ _ _) Hat2) as [Hinfo _]. rewrite Hp0, Hc in Hinfo.
  replace (zlen tags + 1 - 1) with (fld 4 ib 116) in Hinfo by (rewrite <- (vs_count _ _ _ _ Hsrc); lia).
  destruct (info_image_keeps _ _ _ _ _ Hib Hinfo) as [Hk1 Hk2]. split_and!; try done.
  - pose proof (chain_externals_spec _ _ _ _ _ _ _ _ _ Hsrc Hce Hb) as Hx. fold img in Hx.
    rewrite Hr2, Hrep, Hx, Hc.
    by replace (zlen tags + 1 - 1) with (zlen tags) by lia.
  - rewrite <- Htot. eapply kernel_sees_payloads; [|by eapply restored_visible].
    intros t. rewrite Htp. apply restores_unlink. eapply Forall_impl; [apply Hce|]. cbn. lia.
Qed.

(** ** A sample conversion *)

Module BridgeSample.
(** The two-tag handoff of [Run] (INFO at 4096, arena at 8192), a workspace
    payload at 20480, room for the capsule at 16384 and for the restored
    handoff at 24576. *)
Definition finalized : mem :=
  match bbp_builder_finalize Run.m3 (Some Run.b3) 4096 4096 3 with Some (m, _, _) => m | None => ∅ end.
Definition mem0 : mem :=
  finalized ∪ (mem_of 16384 (replicate 512 xcc) ∪
    (mem_of 20480 (replicate 104 xcc) ∪ mem_of 24576 (replicate 512 xcc))).

(** The arena is identity-mapped, nothing else is mapped. *)
Definition identity : bbp_v2_phys_map_fn unit :=
  fun u p size => (u, if (8192 <=? p) && (p + size <=? 8336) then p else 0).
Definition source : bbp_v2_v1_source unit := V1Source 4096 (Some identity).
Definition workspace : bbp_v2_bridge_workspace :=
  Workspace (replicate 1024 0) (replicate 1025 (V2BuildEntry 0 0 0 0 0 0)) 20480.
Definition no_report : bbp_v2_bridge_report := BridgeReport 0 0.
Definition info : list byte := default [] (load_bytes mem0 4096 144).

Definition packed : option (outcome * option bbp_v2_bridge_workspace * unit) :=
  bbp_v2_from_v1 mem0 (Some source) tt 1 (Some workspace) 16384 512 (Some 0) (Some no_report).
Definition blank : outcome := Outcome BBP_V2_ERR_NULL None None ∅.
Definition result : outcome := match packed with Some (o, _, _) => o | None => blank end.
Definition scratch : option bbp_v2_bridge_workspace :=
  match packed with Some (_, w, _) => w | None => None end.
Definition capsule : list byte := default [] (load_bytes (o_mem result) 16384 400).

Lemma packed_ok : packed = Some (result, scratch, tt) /\ o_status result = BBP_V2_OK /\
  o_written result = Some 400.
Proof.
  assert (match packed with
          | Some (o, _, _) => bool_decide (o_status o = BBP_V2_OK /\ o_written o = Some 400)
          | None => false end = true) as H by (vm_compute; reflexivity).
  unfold result, scratch. destruct packed as [[[o w] []]|]; [|done].
  by apply bool_decide_eq_true in H as [? ?].
Qed.

Lemma source_info : bytes_at mem0 4096 info /\ zlen info = 144.
Proof.
  assert (is_Some (load_bytes mem0 4096 144)) as [bs E]
    by (apply (bool_decide_eq_true_1 (is_Some _)); vm_compute; reflexivity).
  unfold info. rewrite E. apply load_bytes_at in E as [Hl Hat]. split; [done|]. unfold zlen. cbn. lia.
Qed.

Lemma capsule_bytes : bytes_at (o_mem result) 16384 capsule /\ zlen capsule = 400.
Proof.
  assert (is_Some (load_bytes (o_mem result) 16384 400)) as [bs E]
    by (apply (bool_decide_eq_true_1 (is_Some _)); vm_compute; reflexivity).
  unfold capsule. rewrite E. apply load_bytes_at in E as [Hl Hat]. split; [done|]. unfold zlen. cbn. lia.
Qed.

Lemma identity_maps f : s_map source = Some f -> maps_physical f mem0 mem0 20480 104.
Proof.
  intros [= <-] u p size Hp Hs q Hq. unfold q, identity in *. cbn [snd] in *.
  destruct (_ && _) eqn:G; [|done]. apply andb_true_iff in G as [G1 G2].
  assert (mapped mem0 8192 144) as Hm by (apply (mapped_by_load mem0 8192 144); vm_compute; reflexivity).
  split_and!; [lia|lia|lia|]. intros x Hx. destruct (Hm (p + x)) as [b Hb]; [lia|]. exists b. split; exact Hb.
Qed.

Lemma room_mapped : mapped mem0 16384 512.
Proof. apply (mapped_by_load mem0 16384 512). vm_compute. reflexivity. Qed.

Lemma payload_mapped : mapped mem0 20480 104.
Proof. apply (mapped_by_load mem0 20480 104). vm_compute. reflexivity. Qed.

Lemma restored_mapped : mapped (o_mem result) 24576 512.
Proof. apply (mapped_by_load (o_mem result) 24576 512). vm_compute. reflexivity. Qed.

Lemma workspace_sizes : workspace_ok workspace.
Proof. split; reflexivity. Qed.
End BridgeSample.

Lemma to_v1_restores_handoff_witness :
  exists o, bbp_v2_to_v1 (o_mem BridgeSample.result)
      (Some (V2View 16384 400 64 0 3)) 1 24576 512 20480 (Some 0) None = Some o /\
    (o_status o = BBP_V2_OK ->
     kernel_sees (o_mem o) 24576 4096 20480 (v1_total BridgeSample.capsule)
       (tag_payloads BridgeSample.capsule)).
Proof.
  destruct BridgeSample.capsule_bytes as [Hat Hl].
  destruct (to_v1_restores_handoff (o_mem BridgeSample.result) 16384 BridgeSample.capsule 1 24576 512
    20480 4096 0 None (V2View 16384 400 64 0 3)) as (o & E & _ & _ & Hok).
  - lia.
  - exact Hat.
  - reflexivity.
  - rewrite Hl. reflexivity.
  - lia.
  - exact BridgeSample.restored_mapped.
  - lia.
  - lia.
  - lia.
  - exists o. split; [exact E|]. intros Hst. apply (Hok Hst).
Defined.

(** The conversion of the sample does succeed. *)
Lemma sample_restored :
  (o ← bbp_v2_to_v1 (o_mem BridgeSample.result) (Some (V2View 16384 400 64 0 3)) 1 24576 512 20480
         (Some 0) (Some BridgeSample.no_report);
   Some (o_status o, o_written o, o_report o)) =
  Some (BBP_V2_OK, Some 232, Some (BridgeReport 2 1)).
Proof. vm_compute. reflexivity. Qed.

Lemma from_v1_packs_chain_witness :
  exists tags, v1_source_ok BridgeSample.mem0 BridgeSample.info 1 tags /\
    o_report BridgeSample.result =
      Some (BridgeReport (zlen tags) (chain_externals BridgeSample.info tags)).
Proof.
  destruct BridgeSample.source_info as [Hat Hl].
  destruct BridgeSample.packed_ok as (Hp & Hst & _).
  destruct (from_v1_packs_chain BridgeSample.mem0 BridgeSample.mem0 BridgeSample.source tt
    BridgeSample.workspace BridgeSample.info 16384 512 1 0 (Some BridgeSample.no_report))
    as (o & w & u & E & _ & Hok).
  - discriminate.
  - exact Hat.
  - exact Hl.
  - exact BridgeSample.workspace_sizes.
  - reflexivity.
  - apply Z.leb_le. reflexivity.
  - exact BridgeSample.payload_mapped.
  - left. apply Z.leb_le. reflexivity.
  - lia.
  - exact BridgeSample.room_mapped.
  - exact BridgeSample.identity_maps.
  - fold BridgeSample.packed in E. rewrite Hp in E.
    pose proof (f_equal (fun r => match r with Some (x, _, _) => x | None => o end) E) as E1.
    cbv beta iota in E1. rewrite <- E1 in Hok.
    destruct (Hok Hst) as (tags & es & m1 & Hsrc & _ & _ & _ & _ & Hr & _).
    exists tags. split; [exact Hsrc|exact Hr].
Defined.

Lemma bridge_roundtrip_witness :
  exists tags, v1_source_ok BridgeSample.mem0 BridgeSample.info 1 tags /\
    forall v0, exists v, bbp_v2_parse (o_mem BridgeSample.result) 16384 400 (Some v0) =
      Some (BBP_V2_OK, Some v).
Proof.
  destruct BridgeSample.source_info as [Hat Hl].
  destruct BridgeSample.packed_ok as (Hp & Hst & Hw).
  destruct (bridge_roundtrip BridgeSample.mem0 BridgeSample.mem0 BridgeSample.source tt
    BridgeSample.workspace BridgeSample.info 16384 512 1 0 (Some BridgeSample.no_report)
    BridgeSample.result BridgeSample.scratch tt) as (tags & n & Hsrc & Hn & Hv).
  - discriminate.
  - exact Hat.
  - exact Hl.
  - exact BridgeSample.workspace_sizes.
  - reflexivity.
  - apply Z.leb_le. reflexivity.
  - exact BridgeSample.payload_mapped.
  - left. apply Z.leb_le. reflexivity.
  - lia.
  - exact BridgeSample.room_mapped.
  - exact BridgeSample.identity_maps.
  - exact Hp.
  - exact Hst.
  - rewrite Hw in Hn. injection Hn as <-. exists tags. split; [exact Hsrc|].
    intros v0. destruct (Hv v0) as (v & Ev & _). exists v. exact Ev.
Defined.
