(* ===== verification/Tcg2.v ===== *)
(** * TPM measurement helpers (experimental/firmware/uefi/tcg2/bbp_uefi_tcg2.c)

    The SHA-256 of the file, as the streaming context it is written with, and
    the two ends of the TPM2_PCR_Read exchange.  Local arrays are byte lists
    (reading or writing outside one is a fault), the buffers of the caller lie
    in memory. *)

From stdpp Require Import strings.
From S2P Require Import Prelude Memory.

(** ** Constants *)

Definition BBP_TPM2_ALG_SHA256 : Z := 0x000b.
Definition BBP_TPM2_PCR_READ_COMMAND : Z := 0x0000017e.
Definition BBP_TPM2_ST_NO_SESSIONS : Z := 0x8001.
Definition BBP_TPM2_SHA256_BYTES : Z := 32.
Definition BBP_TPM2_MAX_PCR : Z := 23.

Inductive bbp_tcg2_wire_status :=
  | BBP_TCG2_WIRE_OK
  | BBP_TCG2_WIRE_ARGUMENT
  | BBP_TCG2_WIRE_CAPACITY
  | BBP_TCG2_WIRE_PCR
  | BBP_TCG2_WIRE_TRUNCATED
  | BBP_TCG2_WIRE_SIZE
  | BBP_TCG2_WIRE_TAG
  | BBP_TCG2_WIRE_RESPONSE_CODE
  | BBP_TCG2_WIRE_COUNT
  | BBP_TCG2_WIRE_ALGORITHM
  | BBP_TCG2_WIRE_SELECTION
  | BBP_TCG2_WIRE_DIGEST_SIZE
  | BBP_TCG2_WIRE_TRAILING.

#[global] Instance wire_status_eq_dec : EqDecision bbp_tcg2_wire_status.
Proof. solve_decision. Defined.

(** ** Big-endian integers *)

(** The bytes at the pointer; anything shorter is a fault. *)
Definition be16_of (bs : list byte) : option Z :=
  match bs with
  | [p0; p1] => Some (Z.lor (wrap16 (Z.shiftl (byte_Z p0) 8)) (byte_Z p1))
  | _ => None
  end.
Definition be32_of (bs : list byte) : option Z :=
  match bs with
  | [p0; p1; p2; p3] =>
      Some (Z.lor (Z.lor (Z.lor (Z.shiftl (byte_Z p0) 24) (Z.shiftl (byte_Z p1) 16))
                         (Z.shiftl (byte_Z p2) 8)) (byte_Z p3))
  | _ => None
  end.

Definition read_be16 (m : mem) (p : Z) : option Z := bs ← load_bytes m p 2; be16_of bs.
Definition read_be32 (m : mem) (p : Z) : option Z := bs ← load_bytes m p 4; be32_of bs.

Definition write_be16 (m : mem) (p value : Z) : option mem :=
  m ← store8 m p (Z_byte (Z.shiftr value 8));
  store8 m (p + 1) (Z_byte value).
Definition write_be32 (m : mem) (p value : Z) : option mem :=
  m ← store8 m p (Z_byte (Z.shiftr value 24));
  m ← store8 m (p + 1) (Z_byte (Z.shiftr value 16));
  m ← store8 m (p + 2) (Z_byte (Z.shiftr value 8));
  store8 m (p + 3) (Z_byte value).

(** ** SHA-256 *)

Record sha256_context := Sha256Context {
  state : list Z;
  bit_count : Z;
  block : list byte;
  used : Z;
}.

Definition rotate_right (value bits : Z) : Z :=
  Z.lor (Z.shiftr value bits) (wrap32 (Z.shiftl value (32 - bits))).

(** The table, in the rows of the source. *)
Definition constants : list Z :=
  concat
    [[0x428a2f98; 0x71374491; 0xb5c0fbcf; 0xe9b5dba5];
     [0x3956c25b; 0x59f111f1; 0x923f82a4; 0xab1c5ed5];
     [0xd807aa98; 0x12835b01; 0x243185be; 0x550c7dc3];
     [0x72be5d74; 0x80deb1fe; 0x9bdc06a7; 0xc19bf174];
     [0xe49b69c1; 0xefbe4786; 0x0fc19dc6; 0x240ca1cc];
     [0x2de92c6f; 0x4a7484aa; 0x5cb0a9dc; 0x76f988da];
     [0x983e5152; 0xa831c66d; 0xb00327c8; 0xbf597fc7];
     [0xc6e00bf3; 0xd5a79147; 0x06ca6351; 0x14292967];
     [0x27b70a85; 0x2e1b2138; 0x4d2c6dfc; 0x53380d13];
     [0x650a7354; 0x766a0abb; 0x81c2c92e; 0x92722c85];
     [0xa2bfe8a1; 0xa81a664b; 0xc24b8b70; 0xc76c51a3];
     [0xd192e819; 0xd6990624; 0xf40e3585; 0x106aa070];
     [0x19a4c116; 0x1e376c08; 0x2748774c; 0x34b0bcb5];
     [0x391c0cb3; 0x4ed8aa4a; 0x5b9cca4f; 0x682e6ff3];
     [0x748f82ee; 0x78a5636f; 0x84c87814; 0x8cc70208];
     [0x90befffa; 0xa4506ceb; 0xbef9a3f7; 0xc67178f2]].

(** The array [words] is filled from the front: [words[i]] is assigned when the
    list has [i] elements. *)
Fixpoint load_words (data : list byte) (words : list Z) (i n : nat) : option (list Z) :=
  match n with
  | O => Some words
  | S n =>
      w ← be32_of (take 4 (drop (4 * i) data));
      load_words data (words ++ [w]) (S i) n
  end.

Fixpoint extend_words (words : list Z) (i n : nat) : option (list Z) :=
  match n with
  | O => Some words
  | S n =>
      x ← words !! (i - 15)%nat;
      y ← words !! (i - 2)%nat;
      let s0 := Z.lxor (Z.lxor (rotate_right x 7) (rotate_right x 18)) (Z.shiftr x 3) in
      let s1 := Z.lxor (Z.lxor (rotate_right y 17) (rotate_right y 19)) (Z.shiftr y 10) in
      w16 ← words !! (i - 16)%nat;
      w7 ← words !! (i - 7)%nat;
      extend_words (words ++ [wrap32 (w16 + s0 + w7 + s1)]) (S i) n
  end.

Record working := Working { va : Z; vb : Z; vc : Z; vd : Z; ve : Z; vf : Z; vg : Z; vh : Z }.

Fixpoint rounds (words : list Z) (v : working) (i n : nat) : option working :=
  match n with
  | O => Some v
  | S n =>
      let '(Working a b c d e f g h) := v in
      let sum1 := Z.lxor (Z.lxor (rotate_right e 6) (rotate_right e 11)) (rotate_right e 25) in
      let choice := Z.lxor (Z.land e f) (Z.land (wrap32 (Z.lnot e)) g) in
      k ← constants !! i;
      w ← words !! i;
      let temp1 := wrap32 (h + sum1 + choice + k + w) in
      let sum0 := Z.lxor (Z.lxor (rotate_right a 2) (rotate_right a 13)) (rotate_right a 22) in
      let majority := Z.lxor (Z.lxor (Z.land a b) (Z.land a c)) (Z.land b c) in
      let temp2 := wrap32 (sum0 + majority) in
      rounds words (Working (wrap32 (temp1 + temp2)) a b c (wrap32 (d + temp1)) e f g) (S i) n
  end.

Definition sha256_transform (context : sha256_context) (data : list byte) :
    option sha256_context :=
  words ← load_words data [] 0 16;
  words ← extend_words words 16 48;
  match state context with
  | [s0; s1; s2; s3; s4; s5; s6; s7] =>
      '(Working a b c d e f g h) ← rounds words (Working s0 s1 s2 s3 s4 s5 s6 s7) 0 64;
      Some (Sha256Context
        [wrap32 (s0 + a); wrap32 (s1 + b); wrap32 (s2 + c); wrap32 (s3 + d);
         wrap32 (s4 + e); wrap32 (s5 + f); wrap32 (s6 + g); wrap32 (s7 + h)]
        (bit_count context) (block context) (used context))
  | _ => None
  end.

Definition initial : list Z :=
  [0x6a09e667; 0xbb67ae85; 0x3c6ef372; 0xa54ff53a;
   0x510e527f; 0x9b05688c; 0x1f83d9ab; 0x5be0cd19].

(** [block] keeps whatever the local variable held. *)
Definition sha256_init (context : sha256_context) : sha256_context :=
  Sha256Context initial 0 (block context) 0.

(** Copying into the local array from position [off] on. *)
Definition array_write (array : list byte) (off : Z) (bs : list byte) : option (list byte) :=
  check (0 <=? off) && (off + zlen bs <=? zlen array) else None;
  Some (take (Z.to_nat off) array ++ bs ++ drop (Z.to_nat off + length bs) array).

(** One iteration of the update loop for the remaining bytes [data]: the context
    and the number of bytes taken. *)
Definition update_step (context : sha256_context) (data : list byte) :
    option (sha256_context * Z) :=
  let room := 64 - used context in
  let n := if zlen data <? room then zlen data else room in
  b ← array_write (block context) (used context) (take (Z.to_nat n) data);
  let context := Sha256Context (state context) (bit_count context) b (used context + n) in
  if used context =? 64 then
    context ← sha256_transform context (block context);
    Some (Sha256Context (state context) (bit_count context) (block context) 0, n)
  else Some (context, n).

(** The loop, with at most [fuel] iterations. *)
Fixpoint update_loop (context : sha256_context) (data : list byte) (fuel : nat) :
    option sha256_context :=
  reject zlen data =? 0 with Some context;
  match fuel with
  | O => None
  | S fuel =>
      '(context, n) ← update_step context data;
      update_loop context (drop (Z.to_nat n) data) fuel
  end.

(** [data] are the bytes at the pointer.  Every iteration takes at least one. *)
Definition sha256_update (context : sha256_context) (data : list byte) : option sha256_context :=
  let context := Sha256Context (state context)
    (wrap64 (bit_count context + wrap64 (zlen data * 8))) (block context) (used context) in
  update_loop context data (length data).

(** [while (used < limit) block[used++] = 0u;] *)
Definition zero_fill (array : list byte) (from limit : Z) : option (list byte) :=
  array_write array from (replicate (Z.to_nat (limit - from)) x00).

(** [for (i = 0u; i < 8u; i++) write_be32(digest + i * 4u, state[i]);] *)
Fixpoint write_state (m : mem) (digest : Z) (words : list Z) : option mem :=
  match words with
  | [] => Some m
  | w :: words => m ← write_be32 m digest w; write_state m (digest + 4) words
  end.

Definition length_bytes (bits : Z) : list byte :=
  map (fun i => Z_byte (Z.shiftr bits (56 - i * 8))) [0; 1; 2; 3; 4; 5; 6; 7].

Definition sha256_final (m : mem) (context : sha256_context) (digest : Z) : option mem :=
  let bits := bit_count context in
  b ← array_write (block context) (used context) [Z_byte 0x80];
  let context := Sha256Context (state context) bits b (used context + 1) in
  context ←
    (if 56 <? used context then
       b ← zero_fill (block context) (used context) 64;
       context ← sha256_transform (Sha256Context (state context) bits b 64) b;
       Some (Sha256Context (state context) bits (block context) 0)
     else Some context);
  b ← zero_fill (block context) (used context) 56;
  b ← array_write b 56 (length_bytes bits);
  context ← sha256_transform (Sha256Context (state context) bits b 56) b;
  write_state m digest (state context).

(** The hash of the bytes [msg], written to [digest]; [local] is the
    uninitialised context. *)
Definition sha256_into (local : sha256_context) (m : mem) (msg : list byte) (digest : Z) :
    option mem :=
  let context := sha256_init local in
  context ← sha256_update context msg;
  sha256_final m context digest.

Definition bbp_tcg2_sha256 (local : sha256_context) (m : mem) (data bytes digest : Z) :
    option (mem * Z) :=
  reject (digest =? 0) || (negb (bytes =? 0) && (data =? 0)) ||
    (Z.shiftr UINT64_MAX 3 <? bytes) with Some (m, -1);
  msg ← load_bytes m data (Z.to_nat bytes);
  m ← sha256_into local m msg digest;
  Some (m, 0).

Definition bbp_tcg2_sha256_extend (local : sha256_context) (m : mem) (before digest after : Z) :
    option mem :=
  b ← load_bytes m before 32;
  d ← load_bytes m digest 32;
  reject after =? 0 with Some m;
  sha256_into local m (b ++ d) after.

(** ** TPM2_PCR_Read *)

(** [output_bytes] is the pointed-to value, [None] for NULL. *)
Definition bbp_tcg2_build_pcr_read (m : mem) (pcr_index output capacity : Z)
    (output_bytes : option Z) : option (bbp_tcg2_wire_status * option Z * mem) :=
  let command_bytes := 20 in
  reject (output =? 0) || bool_decide (output_bytes = None)
    with Some (BBP_TCG2_WIRE_ARGUMENT, output_bytes, m);
  reject BBP_TPM2_MAX_PCR <? pcr_index with Some (BBP_TCG2_WIRE_PCR, output_bytes, m);
  reject capacity <? command_bytes with Some (BBP_TCG2_WIRE_CAPACITY, output_bytes, m);
  m ← mem_zero m output (Z.to_nat command_bytes);
  m ← write_be16 m output BBP_TPM2_ST_NO_SESSIONS;
  m ← write_be32 m (output + 2) command_bytes;
  m ← write_be32 m (output + 6) BBP_TPM2_PCR_READ_COMMAND;
  m ← write_be32 m (output + 10) 1;
  m ← write_be16 m (output + 14) BBP_TPM2_ALG_SHA256;
  m ← store8 m (output + 16) (Z_byte 3);
  m ← store8 m (output + (17 + pcr_index / 8)) (Z_byte (Z.shiftl 1 (pcr_index mod 8)));
  Some (BBP_TCG2_WIRE_OK, Some command_bytes, m).

(** [expected_select] *)
Definition select_bytes (pcr : Z) : list byte :=
  <[Z.to_nat (pcr / 8) := Z_byte (Z.shiftl 1 (pcr mod 8))]> [x00; x00; x00].

(** The result: the status, [*update_counter] and the memory. *)
Definition bbp_tcg2_parse_pcr_read_response (m : mem) (response response_bytes expected_pcr digest : Z)
    (update_counter : option Z) : option (bbp_tcg2_wire_status * option Z * mem) :=
  let fail status := Some (status, update_counter, m) in
  reject (response =? 0) || (digest =? 0) || bool_decide (update_counter = None)
    with fail BBP_TCG2_WIRE_ARGUMENT;
  reject BBP_TPM2_MAX_PCR <? expected_pcr with fail BBP_TCG2_WIRE_PCR;
  reject response_bytes <? 10 with fail BBP_TCG2_WIRE_TRUNCATED;
  declared ← read_be32 m (response + 2);
  reject negb (declared =? response_bytes) with fail BBP_TCG2_WIRE_SIZE;
  tag ← read_be16 m response;
  reject negb (tag =? BBP_TPM2_ST_NO_SESSIONS) with fail BBP_TCG2_WIRE_TAG;
  code ← read_be32 m (response + 6);
  reject negb (code =? 0) with fail BBP_TCG2_WIRE_RESPONSE_CODE;
  let offset := 10 in
  reject response_bytes - offset <? 8 with fail BBP_TCG2_WIRE_TRUNCATED;
  candidate_counter ← read_be32 m (response + offset);
  let offset := offset + 4 in
  count ← read_be32 m (response + offset);
  reject negb (count =? 1) with fail BBP_TCG2_WIRE_COUNT;
  let offset := offset + 4 in
  reject response_bytes - offset <? 3 with fail BBP_TCG2_WIRE_TRUNCATED;
  algorithm ← read_be16 m (response + offset);
  reject negb (algorithm =? BBP_TPM2_ALG_SHA256) with fail BBP_TCG2_WIRE_ALGORITHM;
  let offset := offset + 2 in
  select_size ← m !! (response + offset);
  reject negb (byte_Z select_size =? 3) with fail BBP_TCG2_WIRE_SELECTION;
  let offset := offset + 1 in
  reject response_bytes - offset <? 3 with fail BBP_TCG2_WIRE_TRUNCATED;
  selected ← bytes_equal m (response + offset) (select_bytes expected_pcr);
  check (selected : bool) else fail BBP_TCG2_WIRE_SELECTION;
  let offset := offset + 3 in
  reject response_bytes - offset <? 6 with fail BBP_TCG2_WIRE_TRUNCATED;
  digests ← read_be32 m (response + offset);
  reject negb (digests =? 1) with fail BBP_TCG2_WIRE_COUNT;
  let offset := offset + 4 in
  size ← read_be16 m (response + offset);
  reject negb (size =? BBP_TPM2_SHA256_BYTES) with fail BBP_TCG2_WIRE_DIGEST_SIZE;
  let offset := offset + 2 in
  reject response_bytes - offset <? BBP_TPM2_SHA256_BYTES with fail BBP_TCG2_WIRE_TRUNCATED;
  candidate_digest ← load_bytes m (response + offset) 32;
  let offset := offset + BBP_TPM2_SHA256_BYTES in
  reject negb (offset =? response_bytes) with fail BBP_TCG2_WIRE_TRAILING;
  m ← store_bytes m digest candidate_digest;
  Some (BBP_TCG2_WIRE_OK, Some candidate_counter, m).

Definition bbp_tcg2_wire_strstatus (status : bbp_tcg2_wire_status) : string :=
  match status with
  | BBP_TCG2_WIRE_OK => "ok"
  | BBP_TCG2_WIRE_ARGUMENT => "invalid argument"
  | BBP_TCG2_WIRE_CAPACITY => "insufficient capacity"
  | BBP_TCG2_WIRE_PCR => "invalid PCR"
  | BBP_TCG2_WIRE_TRUNCATED => "truncated response"
  | BBP_TCG2_WIRE_SIZE => "response size mismatch"
  | BBP_TCG2_WIRE_TAG => "unexpected response tag"
  | BBP_TCG2_WIRE_RESPONSE_CODE => "TPM response error"
  | BBP_TCG2_WIRE_COUNT => "unexpected list count"
  | BBP_TCG2_WIRE_ALGORITHM => "unexpected algorithm"
  | BBP_TCG2_WIRE_SELECTION => "unexpected PCR selection"
  | BBP_TCG2_WIRE_DIGEST_SIZE => "unexpected digest size"
  | BBP_TCG2_WIRE_TRAILING => "trailing response bytes"
  end.
