(* ===== verification/Sha256.v ===== *)
(** * SHA-256 against its standard

    A reference for SHA-256 written from FIPS 180-4 (rotations as arithmetic,
    constants from the roots of primes, the padded message as one list of
    blocks), and the proof that the streaming implementation of the TPM
    helpers computes it for every message. *)

From S2P Require Import Prelude Memory Tcg2.

(** ** The standard *)

Module Fips.

Definition add (x y : Z) : Z := (x + y) mod 2 ^ 32.
Definition rotr (n x : Z) : Z := x / 2 ^ n + (x mod 2 ^ n) * 2 ^ (32 - n).
Definition shr (n x : Z) : Z := x / 2 ^ n.
Definition not (x : Z) : Z := 2 ^ 32 - 1 - x.

Definition Ch (x y z : Z) : Z := Z.lxor (Z.land x y) (Z.land (not x) z).
Definition Maj (x y z : Z) : Z := Z.lxor (Z.lxor (Z.land x y) (Z.land x z)) (Z.land y z).
Definition Sum0 (x : Z) : Z := Z.lxor (Z.lxor (rotr 2 x) (rotr 13 x)) (rotr 22 x).
Definition Sum1 (x : Z) : Z := Z.lxor (Z.lxor (rotr 6 x) (rotr 11 x)) (rotr 25 x).
Definition sig0 (x : Z) : Z := Z.lxor (Z.lxor (rotr 7 x) (rotr 18 x)) (shr 3 x).
Definition sig1 (x : Z) : Z := Z.lxor (Z.lxor (rotr 17 x) (rotr 19 x)) (shr 10 x).

(** The constants: the first 32 bits of the fractional parts of the square
    roots of the first eight primes and of the cube roots of the first
    sixty-four. *)
Definition is_prime (n : Z) : bool :=
  forallb (fun d => negb (n mod d =? 0)) (seqZ 2 (n - 2)).
Definition primes : list Z := take 64 (List.filter is_prime (seqZ 2 310)).

(** The integer cube root, bit by bit from bit [n - 1] down. *)
Fixpoint cube_root (x r : Z) (n : nat) : Z :=
  match n with
  | O => r
  | S n => let c := r + 2 ^ Z.of_nat n in cube_root x (if c * c * c <=? x then c else r) n
  end.

Definition K : list Z := Eval vm_compute in
  map (fun p => cube_root (p * 2 ^ 96) 0 36 mod 2 ^ 32) primes.
Definition H0 : list Z := Eval vm_compute in
  map (fun p => Z.sqrt (p * 2 ^ 64) mod 2 ^ 32) (take 8 primes).

(** Big-endian integers. *)
Definition be (bs : list byte) : Z := fold_left (fun v b => v * 256 + byte_Z b) bs 0.
Definition be_bytes (n : nat) (v : Z) : list byte :=
  map (fun i => Z_byte (v / 256 ^ Z.of_nat (n - 1 - i))) (seq 0 n).

Definition word_at (data : list byte) (t : nat) : Z := be (take 4 (drop (4 * t) data)).

(** The message schedule, newest word first. *)
Definition next_word (ws : list Z) : Z :=
  let w t := nth (t - 1) ws 0 in
  add (add (add (sig1 (w 2%nat)) (w 7%nat)) (sig0 (w 15%nat))) (w 16%nat).
Definition W (data : list byte) : list Z :=
  reverse (Nat.iter 48 (fun ws => next_word ws :: ws) (reverse (map (word_at data) (seq 0 16)))).

Definition round (v : working) (kw : Z * Z) : working :=
  let '(Working a b c d e f g h) := v in
  let T1 := add (add (add (add h (Sum1 e)) (Ch e f g)) (fst kw)) (snd kw) in
  let T2 := add (Sum0 a) (Maj a b c) in
  Working (add T1 T2) a b c (add d T1) e f g.

Definition of_state (H : list Z) : working :=
  let x i := nth i H 0 in
  Working (x 0%nat) (x 1%nat) (x 2%nat) (x 3%nat) (x 4%nat) (x 5%nat) (x 6%nat) (x 7%nat).
Definition to_state (v : working) : list Z :=
  [va v; vb v; vc v; vd v; ve v; vf v; vg v; vh v].

Definition compress (H : list Z) (data : list byte) : list Z :=
  zip_with add H (to_state (fold_left round (zip K (W data)) (of_state H))).

(** The padded message: a one bit, zeros, and the length in bits. *)
Definition pad (msg : list byte) : list byte :=
  msg ++ [x80] ++ replicate (Z.to_nat ((55 - zlen msg) mod 64)) x00 ++ be_bytes 8 (zlen msg * 8).

Fixpoint blocks (n : nat) (bs : list byte) : list (list byte) :=
  match n with
  | O => []
  | S n => take 64 bs :: blocks n (drop 64 bs)
  end.

(** The chaining value after the whole blocks of [bs]. *)
Definition chain (bs : list byte) : list Z :=
  fold_left compress (blocks (length bs / 64) bs) H0.

Definition sha256 (msg : list byte) : list byte :=
  concat (map (be_bytes 4) (chain (pad msg))).
End Fips.

(** The standard's test vectors for the empty message and ["abc"]. *)
Lemma sha256_vectors :
  Fips.be (Fips.sha256 []) =
    0xe3b0c44298fc1c149afbf4c8996fb92427ae41e4649b934ca495991b7852b855 /\
  Fips.be (Fips.sha256 [x61; x62; x63]) =
    0xba7816bf8f01cfea414140de5dae2223b00361a396177a9cb410ff61f20015ad.
Proof. split; vm_compute; reflexivity. Qed.

Lemma constants_from_primes : constants = Fips.K /\ initial = Fips.H0.
Proof. split; reflexivity. Qed.

(** ** Word operations *)

(** Bits below a multiple of [2^k]. *)
Lemma lor_low k x y : 0 <= k -> in_word k y -> Z.lor (x * 2 ^ k) y = x * 2 ^ k + y.
Proof.
  intros Hk Hy. rewrite Z.add_nocarry_lxor, Z.lxor_lor; [done|..].
  all: apply Z.bits_inj_iff'; intros i Hi; rewrite Z.land_spec, Z.bits_0.
  all: destruct (decide (i < k)); [by rewrite Z.mul_pow2_bits_low by lia|].
  all: rewrite (in_word_testbit k y) by (done || lia); apply andb_false_r.
Qed.

Lemma rotate_right_spec x n : in_word 32 x -> 0 < n < 32 -> rotate_right x n = Fips.rotr n x.
Proof.
  intros Hx Hn. unfold rotate_right, Fips.rotr, wrap.
  assert (2 ^ 32 = 2 ^ n * 2 ^ (32 - n)) as Hp by (rewrite <- Z.pow_add_r by lia; f_equal; lia).
  rewrite Z.shiftr_div_pow2, Z.shiftl_mul_pow2 by lia.
  rewrite Hp, Z.mul_mod_distr_r by lia.
  rewrite Z.lor_comm, lor_low; [lia|lia|]. destruct Hx as [Hx0 Hx].
  split; [apply Z.div_pos; lia|]. apply Z.div_lt_upper_bound; lia.
Qed.

Lemma rotr_word x n : in_word 32 x -> 0 < n < 32 -> in_word 32 (Fips.rotr n x).
Proof.
  intros Hx Hn. rewrite <- rotate_right_spec by done. unfold rotate_right.
  apply lor_in_word; [lia| |by apply wrap_range]. apply shiftr_in_word; [lia|lia|done].
Qed.

Lemma shiftr_spec x n : 0 <= n -> Z.shiftr x n = Fips.shr n x.
Proof. intros Hn. by apply Z.shiftr_div_pow2. Qed.

Lemma lnot_spec x : in_word 32 x -> wrap32 (Z.lnot x) = Fips.not x.
Proof.
  intros Hx. unfold Fips.not, wrap, Z.lnot, Z.pred, in_word in *.
  symmetry. apply (Z.mod_unique _ _ (-1)); lia.
Qed.

Lemma add_word x y : in_word 32 (Fips.add x y).
Proof. by apply (wrap_range 32 (x + y)). Qed.

(** Sums reduced once or at every step. *)
Lemma add_eq x y : Fips.add x y = wrap32 (x + y).
Proof. done. Qed.

Lemma wrap_add_l x y : wrap32 (wrap32 x + y) = wrap32 (x + y).
Proof. unfold wrap. by rewrite Zplus_mod_idemp_l. Qed.

Lemma wrap_add_r x y : wrap32 (x + wrap32 y) = wrap32 (x + y).
Proof. unfold wrap. by rewrite Zplus_mod_idemp_r. Qed.

Lemma wrap_add_mid x y z : wrap32 (z + (wrap32 x + y)) = wrap32 (z + (x + y)).
Proof. by rewrite <- wrap_add_r, wrap_add_l, wrap_add_r. Qed.

Ltac flat_sums :=
  rewrite ?add_eq;
  repeat (rewrite wrap_add_l || rewrite wrap_add_r || rewrite wrap_add_mid || rewrite <- Z.add_assoc).

(** ** The compression function *)

Definition words32 (ws : list Z) : Prop := Forall (in_word 32) ws.

Lemma be_word bs : length bs = 4%nat -> be32_of bs = Some (Fips.be bs) /\ in_word 32 (Fips.be bs).
Proof.
  destruct bs as [|a [|b [|c [|d [|]]]]]; try done. intros _. cbn [be32_of].
  unfold Fips.be. cbn [fold_left].
  pose proof (byte_Z_range a). pose proof (byte_Z_range b). pose proof (byte_Z_range c).
  pose proof (byte_Z_range d). split; [|unfold in_word; lia]. f_equal.
  rewrite !Z.shiftl_mul_pow2 by lia.
  rewrite (lor_low 24) by (unfold in_word; lia).
  replace (byte_Z a * 2 ^ 24 + byte_Z b * 2 ^ 16) with ((byte_Z a * 2 ^ 8 + byte_Z b) * 2 ^ 16) by lia.
  rewrite (lor_low 16) by (unfold in_word; lia).
  replace ((byte_Z a * 2 ^ 8 + byte_Z b) * 2 ^ 16 + byte_Z c * 2 ^ 8) with
    (((byte_Z a * 2 ^ 8 + byte_Z b) * 2 ^ 8 + byte_Z c) * 2 ^ 8) by lia.
  rewrite (lor_low 8) by (unfold in_word; lia). lia.
Qed.

Lemma word_at_spec data t :
  (4 * t + 4 <= length data)%nat ->
  be32_of (take 4 (drop (4 * t) data)) = Some (Fips.word_at data t) /\ in_word 32 (Fips.word_at data t).
Proof. intros H. apply be_word. rewrite length_take, length_drop. lia. Qed.

Lemma load_words_spec data i n :
  (4 * (i + n) <= length data)%nat ->
  load_words data (map (Fips.word_at data) (seq 0 i)) i n =
    Some (map (Fips.word_at data) (seq 0 (i + n))).
Proof.
  revert i. induction n as [|n IH]; intros i H; cbn [load_words]; [by rewrite Nat.add_0_r|].
  destruct (word_at_spec data i) as [-> _]; [lia|]. cbn [mbind option_bind].
  replace (map (Fips.word_at data) (seq 0 i) ++ [Fips.word_at data i]) with
    (map (Fips.word_at data) (seq 0 (S i))) by (by rewrite seq_S, map_app).
  rewrite IH by lia. do 3 f_equal. lia.
Qed.

Lemma next_word_word ws : in_word 32 (Fips.next_word ws).
Proof. apply add_word. Qed.

(** Reading back from the newest word. *)
Lemma nth_newest (ws : list Z) k :
  (1 <= k <= length ws)%nat -> ws !! (length ws - k)%nat = Some (nth (k - 1) (reverse ws) 0).
Proof.
  intros Hk. destruct (lookup_lt_is_Some_2 ws (length ws - k)) as [x Hx]; [lia|]. rewrite Hx. f_equal.
  symmetry. apply nth_lookup_Some. rewrite reverse_lookup by lia. rewrite <- Hx. f_equal. lia.
Qed.

Lemma extend_words_spec ws n :
  words32 ws -> (16 <= length ws)%nat ->
  extend_words ws (length ws) n =
    Some (reverse (Nat.iter n (fun ws => Fips.next_word ws :: ws) (reverse ws))).
Proof.
  revert ws. induction n as [|n IH]; intros ws Hw Hl; [cbn [extend_words Nat.iter nat_rect]; by rewrite reverse_involutive|].
  cbn [extend_words]. rewrite !nth_newest by lia. cbn [mbind option_bind].
  assert (forall k, in_word 32 (nth k (reverse ws) 0)) as Hk.
  { intros k. destruct (decide (k < length (reverse ws))%nat) as [Hlt|].
    - destruct (lookup_lt_is_Some_2 _ _ Hlt) as [x Hx]. erewrite nth_lookup_Some by exact Hx.
      eapply Forall_lookup_1; [apply Forall_reverse, Hw|exact Hx].
    - rewrite nth_overflow by lia. by split. }
  rewrite !rotate_right_spec, !shiftr_spec by (done || apply Hk).
  match goal with |- extend_words (ws ++ [?x]) _ _ = _ =>
    assert (x = Fips.next_word (reverse ws)) as ->
  end.
  { unfold Fips.next_word. flat_sums. unfold Fips.sig0, Fips.sig1. cbv beta zeta. f_equal.
    cbn [Nat.sub]. lia. }
  replace (S (length ws)) with (length (ws ++ [Fips.next_word (reverse ws)])) by (rewrite length_app; cbn; lia).
  rewrite IH.
  - f_equal. f_equal. rewrite reverse_app. cbn [reverse]. rewrite Nat.iter_succ_r. done.
  - apply Forall_app. split; [done|]. constructor; [apply next_word_word|done].
  - rewrite length_app. lia.
Qed.

Lemma schedule_spec data :
  length data = 64%nat ->
  (words ← load_words data [] 0 16; extend_words words 16 48) = Some (Fips.W data) /\
  words32 (Fips.W data) /\ length (Fips.W data) = 64%nat.
Proof.
  intros Hl. pose proof (load_words_spec data 0 16 ltac:(lia)) as Hw. cbn [seq map] in Hw.
  assert (words32 (map (Fips.word_at data) (seq 0 16))) as H32.
  { apply Forall_map, Forall_seq. intros j Hj. cbn. apply word_at_spec. lia. }
  split; [|split].
  - rewrite Hw. cbn [mbind option_bind]. apply (extend_words_spec (map (Fips.word_at data) (seq 0 16)));
      [done|cbn; lia].
  - apply Forall_reverse. generalize 48%nat. intros n. induction n as [|n IH]; cbn [Nat.iter nat_rect].
    + by apply Forall_reverse.
    + constructor; [apply next_word_word|exact IH].
  - unfold Fips.W. rewrite length_reverse. reflexivity.
Qed.

Definition working32 (v : working) : Prop := words32 (Fips.to_state v).

Lemma round_word v kw : working32 v -> working32 (Fips.round v kw).
Proof.
  destruct v as [a b c d e f g h]. unfold working32, words32, Fips.to_state, Fips.round.
  cbn [va vb vc vd ve vf vg vh]. rewrite !Forall_cons.
  intros (? & ? & ? & ? & ? & ? & ? & ? & _). split_and!; try done; apply add_word.
Qed.

Lemma rounds_spec words v i n :
  words32 words -> length words = 64%nat -> (i + n = 64)%nat -> working32 v ->
  rounds words v i n = Some (fold_left Fips.round (drop i (zip Fips.K words)) v) /\
  working32 (fold_left Fips.round (drop i (zip Fips.K words)) v).
Proof.
  intros Hw Hl. revert v i. induction n as [|n IH]; intros v i Hi Hv.
  { rewrite drop_ge by (rewrite length_zip_with, Hl; cbn; lia). done. }
  destruct (lookup_lt_is_Some_2 words i) as [w Ew]; [lia|].
  destruct (lookup_lt_is_Some_2 Fips.K i) as [k Ek]; [cbn; lia|].
  assert (zip Fips.K words !! i = Some (k, w)) as Ez by (by rewrite lookup_zip_with, Ek, Ew).
  rewrite (drop_S _ _ _ Ez). cbn [fold_left].
  pose proof (round_word v (k, w) Hv) as Hv'.
  destruct (IH (Fips.round v (k, w)) (S i) ltac:(lia) Hv') as [<- Hv2]. split; [|done].
  destruct v as [a b c d e f g h]. unfold working32, words32, Fips.to_state in Hv.
  cbn [va vb vc vd ve vf vg vh] in Hv.
  rewrite !Forall_cons in Hv. destruct Hv as (? & ? & ? & ? & ? & ? & ? & ? & _).
  cbn [rounds]. rewrite (proj1 constants_from_primes), Ek, Ew. cbn [mbind option_bind].
  rewrite !rotate_right_spec, !lnot_spec by done. f_equal. unfold Fips.round. cbn [fst snd].
  unfold Fips.Sum0, Fips.Sum1, Fips.Ch, Fips.Maj. f_equal; flat_sums; f_equal; lia.
Qed.

Definition state_ok (s : list Z) : Prop := length s = 8%nat /\ words32 s.

Lemma compress_ok s data : state_ok s -> state_ok (Fips.compress s data).
Proof.
  intros [Hl _]. split.
  - unfold Fips.compress. rewrite length_zip_with, Hl. done.
  - unfold Fips.compress, words32. generalize (Fips.to_state (fold_left Fips.round (zip Fips.K (Fips.W data)) (Fips.of_state s))).
    clear Hl. induction s as [|x s IH]; intros [|y l]; cbn; constructor; [apply add_word|apply IH].
Qed.

Lemma sha256_transform_spec context data :
  length data = 64%nat -> state_ok (state context) ->
  sha256_transform context data =
    Some (Sha256Context (Fips.compress (state context) data) (bit_count context)
      (block context) (used context)).
Proof.
  intros Hl [Hs Hw]. destruct (schedule_spec data Hl) as (Hsch & H32 & Hlen).
  unfold sha256_transform. destruct (load_words data [] 0 16) as [ws|]; [|done].
  cbn [mbind option_bind] in *. rewrite Hsch. cbn [mbind option_bind].
  destruct (state context) as [|s0 [|s1 [|s2 [|s3 [|s4 [|s5 [|s6 [|s7 [|]]]]]]]]]; try done.
  destruct (rounds_spec (Fips.W data) (Working s0 s1 s2 s3 s4 s5 s6 s7) 0 64 H32 Hlen) as [-> _];
    [done|done|]. cbn [mbind option_bind]. rewrite drop_0. unfold Fips.compress. cbn [Fips.of_state nth].
  destruct (fold_left Fips.round _ _). reflexivity.
Qed.

(** ** Chaining over blocks *)

Lemma blocks_app n k xs ys :
  length xs = (64 * n)%nat -> Fips.blocks (n + k) (xs ++ ys) = Fips.blocks n xs ++ Fips.blocks k ys.
Proof.
  revert xs. induction n as [|n IH]; intros xs Hl.
  { destruct xs; [done|]. cbn in Hl. lia. }
  cbn [Nat.add Fips.blocks app]. rewrite take_app_le, drop_app_le by lia. f_equal. apply IH.
  rewrite length_drop. lia.
Qed.

(** A whole number of blocks. *)
Definition whole (xs : list byte) : Prop := exists n, length xs = (64 * n)%nat.

Lemma chain_block xs b :
  whole xs -> length b = 64%nat -> Fips.chain (xs ++ b) = Fips.compress (Fips.chain xs) b.
Proof.
  intros [n Hn] Hb. unfold Fips.chain. rewrite length_app, Hn, Hb.
  replace (64 * n + 64)%nat with ((n + 1) * 64)%nat by lia.
  replace (64 * n)%nat with (n * 64)%nat by lia. rewrite !Nat.div_mul by lia.
  rewrite (blocks_app n 1 xs b Hn), fold_left_app. cbn [Fips.blocks fold_left].
  by rewrite take_ge by lia.
Qed.

Lemma chain_ok bs : state_ok (Fips.chain bs).
Proof.
  unfold Fips.chain. generalize (Fips.blocks (length bs / 64) bs). intros l.
  assert (state_ok Fips.H0) as H0.
  { split; [done|]. unfold words32, Fips.H0. rewrite !Forall_cons. split_and!; try (by apply Forall_nil); by split. }
  revert H0. generalize Fips.H0. induction l as [|b l IH]; intros s Hs; [done|]. cbn [fold_left].
  by apply IH, compress_ok.
Qed.

(** ** Filling the block *)

(** [array] starts with [p]. *)
Definition starts (array p : list byte) : Prop := take (length p) array = p.

Lemma array_write_starts array p bs :
  starts array p -> (length p + length bs <= length array)%nat ->
  exists a, array_write array (zlen p) bs = Some a /\ starts a (p ++ bs) /\ length a = length array.
Proof.
  intros Hp Hl. unfold array_write, zlen. rewrite (proj2 (Z.leb_le _ _)), (proj2 (Z.leb_le _ _)) by lia.
  cbn [andb]. rewrite Nat2Z.id. eexists. split; [reflexivity|]. unfold starts in *. rewrite Hp.
  rewrite app_assoc. split; [by apply take_app_length|].
  rewrite !length_app, length_drop. lia.
Qed.

Lemma starts_all array p : starts array p -> length p = length array -> array = p.
Proof. intros H Hl. unfold starts in H. by rewrite Hl, take_ge in H by lia. Qed.

Lemma starts_nil array : starts array [].
Proof. done. Qed.

(** ** The streaming invariant *)

Record absorbed (c : sha256_context) (msg : list byte) : Prop := Absorbed {
  ab_split : exists done part, msg = done ++ part /\ whole done /\ (length part < 64)%nat /\
    state c = Fips.chain done /\ used c = zlen part /\ starts (block c) part;
  ab_block : length (block c) = 64%nat;
}.

Lemma update_step_spec c msg data :
  absorbed c msg -> data <> [] ->
  exists c' n, update_step c data = Some (c', n) /\ 0 < n <= zlen data /\
    bit_count c' = bit_count c /\ absorbed c' (msg ++ take (Z.to_nat n) data).
Proof.
  intros [(done & part & -> & Hw & Hpl & Hst & Hu & Hs) Hb] Hne. unfold update_step.
  set (n := if zlen data <? 64 - used c then zlen data else 64 - used c).
  assert (0 < zlen data) as Hd by (destruct data; [done|rewrite zlen_cons; pose proof (zlen_nonneg data); lia]).
  assert (0 < n <= zlen data /\ n <= 64 - used c /\ (n = 64 - used c \/ n = zlen data)) as (Hn & Hn64 & Hc).
  { unfold n. rewrite Hu. unfold zlen in *. destruct (Z.ltb_spec (Z.of_nat (length data)) (64 - Z.of_nat (length part))); lia. }
  assert (length (take (Z.to_nat n) data) = Z.to_nat n) as Ht by (rewrite length_take; unfold zlen in *; lia).
  destruct (array_write_starts (block c) part (take (Z.to_nat n) data) Hs) as (a & Ea & Hsa & Hla).
  { rewrite Ht, Hb. unfold zlen in *. lia. }
  rewrite Hu, Ea. cbn [mbind option_bind used block state bit_count].
  destruct (Z.eqb_spec (zlen part + n) 64) as [Hfull|Hpart].
  - assert (a = part ++ take (Z.to_nat n) data) as ->.
    { apply starts_all; [done|]. rewrite Hla, Hb, length_app, Ht. unfold zlen in *. lia. }
    assert (length (part ++ take (Z.to_nat n) data) = 64%nat) as H64 by congruence.
    rewrite sha256_transform_spec by (cbn [state]; rewrite ?Hst; done || apply chain_ok).
    cbn [mbind option_bind state bit_count block used]. eexists _, n. split; [reflexivity|].
    split_and!; [lia|lia|done|]. constructor; cbn [state used block]; [|done].
    exists (done ++ part ++ take (Z.to_nat n) data), []. rewrite app_nil_r, <- app_assoc.
    split_and!; [done| |cbn; lia| |done|apply starts_nil].
    + destruct Hw as [k Hk]. exists (S k). rewrite length_app, H64. lia.
    + by rewrite chain_block, Hst.
  - eexists _, n. split; [reflexivity|]. split_and!; [lia|lia|done|].
    constructor; cbn [state used block]; [|congruence].
    exists done, (part ++ take (Z.to_nat n) data). rewrite <- app_assoc.
    split_and!; try done; [rewrite length_app, Ht; unfold zlen in *; lia|].
    rewrite zlen_app. unfold zlen at 3. rewrite Ht. lia.
Qed.

Lemma update_loop_spec c msg data fuel :
  absorbed c msg -> (length data <= fuel)%nat ->
  exists c', update_loop c data fuel = Some c' /\ bit_count c' = bit_count c /\ absorbed c' (msg ++ data).
Proof.
  revert c msg data. induction fuel as [|fuel IH]; intros c msg data Ha Hf.
  { destruct data; [|cbn in Hf; lia]. exists c. by rewrite app_nil_r. }
  destruct data as [|b data]; [exists c; by rewrite app_nil_r|]. cbn [update_loop].
  rewrite (proj2 (Z.eqb_neq _ _)) by (rewrite zlen_cons; pose proof (zlen_nonneg data); lia).
  destruct (update_step_spec c msg (b :: data) Ha) as (c1 & n & -> & Hn & Hbc & Ha1); [done|].
  cbn [mbind option_bind].
  destruct (IH c1 _ (drop (Z.to_nat n) (b :: data)) Ha1) as (c2 & E & Hbc2 & Ha2).
  { rewrite length_drop. cbn [length] in *. lia. }
  exists c2. rewrite E, Hbc2, Hbc. split_and!; [done..|].
  by rewrite <- app_assoc, take_drop in Ha2.
Qed.

Lemma sha256_update_spec c msg data :
  absorbed c msg -> bit_count c = wrap64 (zlen msg * 8) ->
  exists c', sha256_update c data = Some c' /\ absorbed c' (msg ++ data) /\
    bit_count c' = wrap64 (zlen (msg ++ data) * 8).
Proof.
  intros Ha Hbc. unfold sha256_update.
  set (c0 := Sha256Context _ _ _ _).
  assert (absorbed c0 msg) as Ha0 by (destruct Ha; by constructor).
  destruct (update_loop_spec c0 msg data (length data) Ha0) as (c' & E & Hb' & Ha'); [lia|].
  exists c'. split_and!; [done|done|]. rewrite Hb'. unfold c0. cbn [bit_count]. rewrite Hbc, zlen_app.
  unfold wrap. rewrite Zplus_mod_idemp_l, Zplus_mod_idemp_r. f_equal. lia.
Qed.

(** ** Padding *)

Lemma length_bytes_spec bits : in_word 64 bits -> length_bytes bits = Fips.be_bytes 8 bits.
Proof.
  intros Hb. unfold length_bytes, Fips.be_bytes. cbn [seq map Nat.sub].
  rewrite !Z.shiftr_div_pow2 by lia. repeat (f_equal; try done).
Qed.

(** The last one or two blocks. *)
Lemma pad_split done part :
  whole done -> (length part < 64)%nat ->
  Fips.pad (done ++ part) = done ++ part ++ [x80] ++
    replicate (if decide (length part <= 55)%nat then 55 - length part else 119 - length part) x00 ++
    Fips.be_bytes 8 (zlen (done ++ part) * 8).
Proof.
  intros [k Hk] Hp. unfold Fips.pad. rewrite <- !app_assoc. do 5 f_equal.
  rewrite zlen_app. unfold zlen. rewrite Hk.
  replace (55 - (Z.of_nat (64 * k) + Z.of_nat (length part))) with
    (55 - Z.of_nat (length part) + (- Z.of_nat k) * 64) by lia.
  rewrite Z.mod_add by lia. destruct (decide _).
  - rewrite Z.mod_small by lia. lia.
  - rewrite <- (Z.mod_add _ 1) by lia. rewrite Z.mod_small by lia. lia.
Qed.

Lemma length_be_bytes n v : length (Fips.be_bytes n v) = n.
Proof. unfold Fips.be_bytes. by rewrite length_map, length_seq. Qed.

Lemma zero_fill_starts array p n :
  starts array p -> (length p <= n <= length array)%nat ->
  exists a, zero_fill array (zlen p) (Z.of_nat n) = Some a /\
    starts a (p ++ replicate (n - length p) x00) /\ length a = length array.
Proof.
  intros Hs Hl. unfold zero_fill.
  replace (Z.to_nat (Z.of_nat n - zlen p)) with (n - length p)%nat by (unfold zlen; lia).
  apply array_write_starts; [done|]. rewrite length_replicate. lia.
Qed.

(** The block is padded up to the length field and compressed. *)
Lemma last_block bits array part done :
  starts array part -> length array = 64%nat -> (length part <= 56)%nat -> whole done ->
  in_word 64 bits ->
  exists b1 b2, zero_fill array (zlen part) 56 = Some b1 /\
    array_write b1 56 (length_bytes bits) = Some b2 /\
    sha256_transform (Sha256Context (Fips.chain done) bits b2 56) b2 =
      Some (Sha256Context (Fips.chain (done ++ part ++ replicate (56 - length part) x00 ++
              Fips.be_bytes 8 bits)) bits b2 56).
Proof.
  intros Hs Hl Hp Hw Hb.
  destruct (zero_fill_starts array part 56 Hs) as (a & Ea & Hsa & Hla); [lia|].
  change (Z.of_nat 56) with 56 in Ea.
  destruct (array_write_starts a _ (length_bytes bits) Hsa) as (a2 & Ea2 & Hs2 & Hl2).
  { rewrite length_app, length_replicate, length_bytes_spec, length_be_bytes by done. lia. }
  replace (zlen (part ++ replicate (56 - length part) x00)) with 56 in Ea2.
  2: { unfold zlen. rewrite length_app, length_replicate. lia. }
  exists a, a2. split_and!; [done|done|].
  assert (a2 = part ++ replicate (56 - length part) x00 ++ Fips.be_bytes 8 bits) as ->.
  { rewrite length_bytes_spec, <- app_assoc in Hs2 by done. apply starts_all; [done|].
    rewrite !length_app, length_replicate, length_be_bytes. lia. }
  rewrite sha256_transform_spec; [|congruence|apply chain_ok]. cbn [state bit_count block used].
  by rewrite chain_block by (done || congruence).
Qed.

(** ** The digest *)

Lemma write_be32_store m p v : write_be32 m p v = store_bytes m p (Fips.be_bytes 4 v).
Proof.
  unfold write_be32, Fips.be_bytes. cbn [seq map Nat.sub store_bytes].
  rewrite !Z.shiftr_div_pow2 by lia. change (256 ^ Z.of_nat 3) with (2 ^ 24).
  change (256 ^ Z.of_nat 2) with (2 ^ 16). change (256 ^ Z.of_nat 1) with (2 ^ 8).
  change (256 ^ Z.of_nat 0) with 1. rewrite Z.div_1_r.
  replace (p + 1 + 1) with (p + 2) by lia. replace (p + 2 + 1) with (p + 3) by lia.
  destruct (store8 m p _) as [m1|]; [|done]. cbn [mbind option_bind].
  destruct (store8 m1 (p + 1) _) as [m2|]; [|done]. cbn [mbind option_bind].
  destruct (store8 m2 (p + 2) _) as [m3|]; [|done]. cbn [mbind option_bind].
  by destruct (store8 m3 (p + 3) _).
Qed.

Lemma write_state_spec m digest ws :
  mapped m digest (4 * zlen ws) ->
  exists m', write_state m digest ws = Some m' /\
    store_bytes m digest (concat (map (Fips.be_bytes 4) ws)) = Some m'.
Proof.
  revert m digest. induction ws as [|w ws IH]; intros m digest Hm; [by exists m|].
  rewrite zlen_cons in Hm. pose proof (zlen_nonneg ws). cbn [write_state map concat].
  rewrite write_be32_store. destruct (store_bytes_mapped m digest (Fips.be_bytes 4 w)) as [m1 E].
  { eapply mapped_sub; [exact Hm|lia|]. change (zlen (Fips.be_bytes 4 w)) with 4. lia. }
  rewrite E. cbn [mbind option_bind].
  destruct (IH m1 (digest + 4)) as (m2 & -> & E2).
  { eapply frame_mapped; [by eapply frame_store|]. eapply mapped_sub; [exact Hm|lia|lia]. }
  exists m2. split; [done|]. rewrite store_bytes_app, E. exact E2.
Qed.

Lemma write_digest m digest msg :
  mapped m digest 32 -> forall s, s = Fips.chain (Fips.pad msg) ->
  exists m', write_state m digest s = Some m' /\ store_bytes m digest (Fips.sha256 msg) = Some m'.
Proof.
  intros Hm s ->. apply write_state_spec. destruct (chain_ok (Fips.pad msg)) as [Hl _].
  unfold zlen. by rewrite Hl.
Qed.

Lemma sha256_final_spec m c msg digest :
  absorbed c msg -> bit_count c = zlen msg * 8 -> in_word 64 (zlen msg * 8) -> mapped m digest 32 ->
  exists m', sha256_final m c digest = Some m' /\ store_bytes m digest (Fips.sha256 msg) = Some m'.
Proof.
  intros [(done & part & -> & Hw & Hpl & Hst & Hu & Hs) Hb] Hbc Hbits Hm. unfold sha256_final.
  rewrite Hu, Hbc, Hst. change (Z_byte 128) with x80.
  destruct (array_write_starts (block c) part [x80] Hs) as (a & Ea & Hsa & Hla); [cbn; lia|].
  rewrite Ea. cbn [mbind option_bind used block state].
  change (zlen part + 1) with (zlen part + zlen [x80]). rewrite <- zlen_app.
  set (bits := zlen (done ++ part) * 8) in *.
  pose proof (write_digest m digest (done ++ part) Hm) as Hend.
  rewrite (pad_split done part Hw Hpl) in Hend. fold bits in Hend.
  assert (length (part ++ [x80]) = S (length part)) as Hl1 by (rewrite length_app; cbn; lia).
  destruct (Z.ltb_spec 56 (zlen (part ++ [x80]))) as [H56|H56]; unfold zlen in H56.
  - destruct (zero_fill_starts a (part ++ [x80]) 64 Hsa) as (a1 & Ea1 & Hs1 & Hl2); [lia|].
    change (Z.of_nat 64) with 64 in Ea1. rewrite Ea1. cbn [mbind option_bind].
    assert (a1 = part ++ [x80] ++ replicate (63 - length part) x00) as ->.
    { rewrite Hl1, <- app_assoc in Hs1. replace (64 - S (length part))%nat with (63 - length part)%nat in Hs1 by lia.
      apply starts_all; [done|]. rewrite !length_app, length_replicate. cbn. lia. }
    rewrite sha256_transform_spec; [|congruence|apply chain_ok].
    cbn [mbind option_bind state bit_count block used]. rewrite <- chain_block by (done || congruence).
    destruct (last_block bits (part ++ [x80] ++ replicate (63 - length part) x00) []
      (done ++ part ++ [x80] ++ replicate (63 - length part) x00)) as (b1 & b2 & E1 & E2 & E3);
      [done|congruence|cbn; lia| |done|].
    { destruct Hw as [k Hk]. exists (S k). rewrite length_app, Hk. rewrite !length_app, length_replicate. cbn. lia. }
    change (zlen (@nil byte)) with 0 in E1. rewrite E1. cbn [mbind option_bind]. rewrite E2.
    cbn [mbind option_bind]. rewrite E3. cbn [mbind option_bind state]. apply Hend.
    rewrite decide_False by lia. f_equal. rewrite <- !app_assoc. do 3 f_equal. cbn [app length Nat.sub].
    rewrite app_assoc, <- replicate_add. do 2 f_equal. lia.
  - cbn [mbind option_bind state used block].
    destruct (last_block bits a (part ++ [x80]) done Hsa) as (b1 & b2 & E1 & E2 & E3);
      [congruence|lia|done|done|]. rewrite E1. cbn [mbind option_bind]. rewrite E2.
    cbn [mbind option_bind]. rewrite E3. cbn [mbind option_bind state]. apply Hend.
    rewrite decide_True by lia. f_equal. rewrite <- !app_assoc. do 4 f_equal. rewrite Hl1. f_equal.
Qed.

Lemma length_sha256 msg : zlen (Fips.sha256 msg) = 32.
Proof.
  unfold Fips.sha256. destruct (chain_ok (Fips.pad msg)) as [Hl _].
  destruct (Fips.chain (Fips.pad msg)) as [|s0 [|s1 [|s2 [|s3 [|s4 [|s5 [|s6 [|s7 [|]]]]]]]]]; try done.
Qed.

(** The whole computation. *)
Lemma sha256_into_spec local m msg digest :
  length (block local) = 64%nat -> zlen msg < 2 ^ 61 -> mapped m digest 32 ->
  exists m', sha256_into local m msg digest = Some m' /\ frame digest 32 m m' /\
    bytes_at m' digest (Fips.sha256 msg).
Proof.
  intros Hb Hl Hm. pose proof (zlen_nonneg msg). unfold sha256_into.
  assert (absorbed (sha256_init local) []) as Ha.
  { constructor; [|done]. exists [], []. split_and!; try done; [by exists 0%nat|cbn; lia]. }
  destruct (sha256_update_spec _ [] msg Ha) as (c & -> & Hc & Hbc); [done|]. cbn [mbind option_bind app] in *.
  rewrite wrap_small in Hbc by (unfold in_word; lia).
  destruct (sha256_final_spec m c msg digest Hc Hbc) as (m' & -> & E); [unfold in_word; lia|done|].
  exists m'. split; [done|]. rewrite <- (length_sha256 msg). split; [by apply frame_store|by eapply store_bytes_at].
Qed.
