(* ===== verification/Tcg2Props.v ===== *)
(** * Properties of the TPM measurement helpers

    The hash is SHA-256; the PCR_Read command is the one the TPM expects and
    its response is accepted in exactly one form. *)

From S2P Require Import Prelude Memory Tcg2 Sha256.

(** ** Big-endian fields *)

Lemma be_le bs : Fips.be bs = le_decode (rev bs).
Proof.
  unfold Fips.be. rewrite <- fold_left_rev_right. induction (rev bs) as [|b l IH]; [done|].
  cbn [fold_right le_decode]. rewrite IH. lia.
Qed.

Lemma be_bytes_le n v : (n = 2 \/ n = 4)%nat -> Fips.be_bytes n v = rev (le_encode n v).
Proof.
  intros [-> | ->]; unfold Fips.be_bytes; cbn [seq map Nat.sub le_encode rev app];
    rewrite ?Z.div_div by lia; cbn; by rewrite Z.div_1_r.
Qed.

Lemma be_be_bytes n v :
  (n = 2 \/ n = 4)%nat -> in_word (8 * Z.of_nat n) v -> Fips.be (Fips.be_bytes n v) = v.
Proof. intros Hn Hv. rewrite be_bytes_le, be_le, rev_involutive by done. by apply le_decode_encode_small. Qed.

Lemma be_bytes_be bs :
  (length bs = 2 \/ length bs = 4)%nat -> Fips.be_bytes (length bs) (Fips.be bs) = bs.
Proof.
  intros Hn. rewrite be_bytes_le, be_le, <- length_rev, le_encode_decode by done. apply rev_involutive.
Qed.

Lemma be16_spec bs : length bs = 2%nat -> be16_of bs = Some (Fips.be bs).
Proof.
  destruct bs as [|a [|b [|]]]; try done. intros _. cbn. f_equal.
  pose proof (byte_Z_range a). pose proof (byte_Z_range b).
  rewrite Z.shiftl_mul_pow2, wrap_small by (unfold in_word; lia).
  apply (lor_low 8); [lia|]. unfold in_word. lia.
Qed.

(** The [n] bytes of [bs] from [off] on. *)
Definition field (bs : list byte) (off n : nat) : list byte := take n (drop off bs).

Lemma length_field bs off n : (off + n <= length bs)%nat -> length (field bs off n) = n.
Proof. intros H. unfold field. rewrite length_take, length_drop. lia. Qed.

Lemma field_loads m a bs off n :
  bytes_at m a bs -> (off + n <= length bs)%nat ->
  load_bytes m (a + Z.of_nat off) n = Some (field bs off n).
Proof.
  intros Hat Hl. apply load_bytes_at. split; [by apply length_field|].
  intros i b Hi. unfold field in Hi. pose proof (lookup_lt_Some _ _ _ Hi) as Hlt.
  rewrite length_take in Hlt. rewrite lookup_take_lt, lookup_drop in Hi by lia.
  rewrite <- Z.add_assoc, <- Nat2Z.inj_add. by apply Hat.
Qed.

Section Fields.
Context (m : mem) (a : Z) (bs : list byte) (Hat : bytes_at m a bs).

Lemma read_be32_field p off :
  p = a + Z.of_nat off -> (off + 4 <= length bs)%nat ->
  read_be32 m p = Some (Fips.be (field bs off 4)).
Proof using Hat.
  intros -> Hl. unfold read_be32. rewrite (field_loads _ _ _ _ _ Hat Hl). cbn [mbind option_bind].
  apply be_word. by apply length_field.
Qed.

Lemma read_be16_field p off :
  p = a + Z.of_nat off -> (off + 2 <= length bs)%nat ->
  read_be16 m p = Some (Fips.be (field bs off 2)).
Proof using Hat.
  intros -> Hl. unfold read_be16. rewrite (field_loads _ _ _ _ _ Hat Hl). cbn [mbind option_bind].
  apply be16_spec. by apply length_field.
Qed.

Lemma byte_field p off b :
  p = a + Z.of_nat off -> bs !! off = Some b -> m !! p = Some b.
Proof using Hat. intros -> Hb. by apply Hat. Qed.
End Fields.

(** ** The PCR_Read exchange *)

(** The selection bitmap: bit [i] selects register [i]. *)
Definition selection (pcr : Z) : list byte := le_encode 3 (2 ^ pcr).

Lemma select_bytes_spec pcr : 0 <= pcr <= 23 -> select_bytes pcr = selection pcr.
Proof.
  intros Hp. apply (bool_decide_eq_true_1 (_ = _)).
  assert (forallb (fun p => bool_decide (select_bytes p = selection p)) (seqZ 0 24) = true) as H
    by (vm_compute; reflexivity).
  rewrite forallb_forall in H. apply H, list_elem_of_In, elem_of_seqZ. lia.
Qed.

Definition pcr_read_command (pcr : Z) : list byte :=
  Fips.be_bytes 2 BBP_TPM2_ST_NO_SESSIONS ++ Fips.be_bytes 4 20 ++
  Fips.be_bytes 4 BBP_TPM2_PCR_READ_COMMAND ++ Fips.be_bytes 4 1 ++
  Fips.be_bytes 2 BBP_TPM2_ALG_SHA256 ++ [x03] ++ selection pcr.

Definition pcr_read_response (counter pcr : Z) (d : list byte) : list byte :=
  Fips.be_bytes 2 BBP_TPM2_ST_NO_SESSIONS ++ Fips.be_bytes 4 62 ++ Fips.be_bytes 4 0 ++
  Fips.be_bytes 4 counter ++ Fips.be_bytes 4 1 ++ Fips.be_bytes 2 BBP_TPM2_ALG_SHA256 ++ [x03] ++
  selection pcr ++ Fips.be_bytes 4 1 ++ Fips.be_bytes 2 32 ++ d.

(** Cutting a byte string into fields of the given lengths. *)
Fixpoint fields (bs : list byte) (off : nat) (ns : list nat) : list (list byte) :=
  match ns with
  | [] => [drop off bs]
  | n :: ns => field bs off n :: fields bs (off + n) ns
  end.

Lemma concat_fields bs off ns : concat (fields bs off ns) = drop off bs.
Proof.
  revert off. induction ns as [|n ns IH]; intros off; cbn [fields concat]; [by rewrite app_nil_r|].
  rewrite IH. unfold field. rewrite <- drop_drop. apply take_drop.
Qed.

Lemma be_field bs off n v :
  (n = 2 \/ n = 4)%nat -> (off + n <= length bs)%nat -> Fips.be (field bs off n) = v ->
  field bs off n = Fips.be_bytes n v.
Proof.
  intros Hn Hl <-. rewrite <- (length_field bs off n Hl) at 2. symmetry. apply be_bytes_be.
  by rewrite length_field.
Qed.

(** *** The response *)

Section Response.
Context (m : mem) (response digest pcr : Z) (rs : list byte) (counter0 : Z).
Context (Hr : response <> 0) (Hat : bytes_at m response rs) (Hd : digest <> 0).
Context (Hm : mapped m digest 32) (Hp : 0 <= pcr <= 23).

(** A response of the one accepted form. *)
Definition is_response (counter : Z) (d : list byte) : Prop :=
  in_word 32 counter /\ length d = 32%nat /\ rs = pcr_read_response counter pcr d.

(** The fields checked one after the other make up the response. *)
Lemma fields_response :
  length rs = 62%nat ->
  Fips.be (field rs 0 2) = BBP_TPM2_ST_NO_SESSIONS -> Fips.be (field rs 2 4) = 62 ->
  Fips.be (field rs 6 4) = 0 -> Fips.be (field rs 14 4) = 1 ->
  Fips.be (field rs 18 2) = BBP_TPM2_ALG_SHA256 -> field rs 20 1 = [x03] ->
  field rs 21 3 = selection pcr -> Fips.be (field rs 24 4) = 1 -> Fips.be (field rs 28 2) = 32 ->
  is_response (Fips.be (field rs 10 4)) (drop 30 rs).
Proof using.
  intros Hl F0 F2 F6 F14 F18 F20 F21 F24 F28.
  apply be_field in F0, F2, F6, F14, F18, F24, F28; try (done || lia || auto).
  split; [apply be_word, length_field; lia|]. split; [rewrite length_drop; lia|].
  rewrite <- (drop_0 rs) at 1. rewrite <- (concat_fields rs 0 [2; 4; 4; 4; 4; 2; 1; 3; 4; 2]%nat).
  cbn [fields concat Nat.add]. rewrite F0, F2, F6, F14, F18, F20, F21, F24, F28, app_nil_r.
  unfold pcr_read_response. by rewrite <- (be_field rs 10 4 (Fips.be (field rs 10 4))) by (done || auto || lia).
Qed.

Lemma response_facts counter d :
  is_response counter d ->
  length rs = 62%nat /\
  (Fips.be (field rs 0 2) = BBP_TPM2_ST_NO_SESSIONS /\ Fips.be (field rs 2 4) = 62 /\
   Fips.be (field rs 6 4) = 0 /\ Fips.be (field rs 14 4) = 1) /\
  (Fips.be (field rs 18 2) = BBP_TPM2_ALG_SHA256 /\ (forall b, rs !! 20%nat = Some b -> byte_Z b = 3)) /\
  field rs 21 3 = selection pcr /\ Fips.be (field rs 24 4) = 1 /\ Fips.be (field rs 28 2) = 32.
Proof using.
  intros (Hc & Hl & E). rewrite E. split; [unfold pcr_read_response; cbn; lia|].
  split_and!; try done; try exact (be_be_bytes 2 _ (or_introl eq_refl) ltac:(done));
    try exact (be_be_bytes 4 _ (or_intror eq_refl) ltac:(done)).
  intros b [= <-]. done.
Qed.

(** Every response is answered; exactly the ones of the accepted form are
    delivered. *)
Definition answers (r : option (bbp_tcg2_wire_status * option Z * mem)) : Prop :=
  exists st c m', r = Some (st, c, m') /\
    (st = BBP_TCG2_WIRE_OK <-> exists counter d, is_response counter d) /\
    (st <> BBP_TCG2_WIRE_OK -> c = Some counter0 /\ m' = m) /\
    (st = BBP_TCG2_WIRE_OK -> exists counter d, is_response counter d /\ c = Some counter /\
       frame digest 32 m m' /\ bytes_at m' digest d).

Lemma answers_fail st :
  st <> BBP_TCG2_WIRE_OK -> (forall counter d, ~ is_response counter d) ->
  answers (Some (st, Some counter0, m)).
Proof using.
  intros H Hno. exists st, (Some counter0), m. split_and!; try done. split; [done|].
  intros (c & d & Hr'). by destruct (Hno c d).
Qed.

Ltac refuse :=
  apply answers_fail; [discriminate|]; intros c d Hres;
  destruct (response_facts c d Hres) as (? & (? & ? & ? & ?) & (? & Hsel) & ? & ? & ?);
  try specialize (Hsel _ ltac:(eassumption)); unfold zlen in *; (lia || congruence).

(** The next guard: enough bytes are left, or a field has its value. *)
Ltac room o k := destruct (Z.ltb_spec (Z.of_nat (length rs) - o) k); [refuse|].
Ltac expect32 p off F :=
  rewrite (read_be32_field _ _ _ Hat p off) by lia; cbn [mbind option_bind];
  match goal with |- context [Fips.be (field rs off 4) =? ?v] =>
    destruct (Z.eqb_spec (Fips.be (field rs off 4)) v) as [F|]; [cbn [negb]|refuse]
  end.
Ltac expect16 p off F :=
  rewrite (read_be16_field _ _ _ Hat p off) by lia; cbn [mbind option_bind];
  match goal with |- context [Fips.be (field rs off 2) =? ?v] =>
    destruct (Z.eqb_spec (Fips.be (field rs off 2)) v) as [F|]; [cbn [negb]|refuse]
  end.

Lemma parse_answers :
  answers (bbp_tcg2_parse_pcr_read_response m response (zlen rs) pcr digest (Some counter0)).
Proof.
  unfold bbp_tcg2_parse_pcr_read_response, BBP_TPM2_MAX_PCR, BBP_TPM2_SHA256_BYTES.
  rewrite !(proj2 (Z.eqb_neq _ 0)), bool_decide_eq_false_2 by done. cbn [orb].
  rewrite (proj2 (Z.ltb_ge 23 pcr)) by lia.
  destruct (Z.ltb_spec (zlen rs) 10); [refuse|]. unfold zlen in *.
  expect32 (response + 2) 2%nat F2. expect16 response 0%nat F0. expect32 (response + 6) 6%nat F6. room 10 8.
  rewrite (read_be32_field _ _ _ Hat (response + 10) 10) by lia. cbn [mbind option_bind].
  expect32 (response + (10 + 4)) 14%nat F14. room (10 + 4 + 4) 3.
  expect16 (response + (10 + 4 + 4)) 18%nat F18.
  destruct (lookup_lt_is_Some_2 rs 20) as [b Hb]; [lia|].
  rewrite (byte_field _ _ _ Hat (response + (10 + 4 + 4 + 2)) 20 b) by (done || lia). cbn [mbind option_bind].
  destruct (Z.eqb_spec (byte_Z b) 3) as [F20|]; [cbn [negb]|refuse].
  room (10 + 4 + 4 + 2 + 1) 3.
  replace (response + (10 + 4 + 4 + 2 + 1)) with (response + Z.of_nat 21) by lia.
  rewrite (bytes_equal_spec m _ (select_bytes pcr) (field rs 21 3)), select_bytes_spec by
    (done || (rewrite <- (field_loads _ _ _ _ _ Hat) by lia; by rewrite select_bytes_spec)).
  cbn [mbind option_bind]. case_bool_decide as F21; [|refuse].
  room (10 + 4 + 4 + 2 + 1 + 3) 6. expect32 (response + (10 + 4 + 4 + 2 + 1 + 3)) 24%nat F24.
  expect16 (response + (10 + 4 + 4 + 2 + 1 + 3 + 4)) 28%nat F28.
  room (10 + 4 + 4 + 2 + 1 + 3 + 4 + 2) 32.
  replace (response + (10 + 4 + 4 + 2 + 1 + 3 + 4 + 2)) with (response + Z.of_nat 30) by lia.
  rewrite (field_loads _ _ _ _ _ Hat) by lia. cbn [mbind option_bind].
  destruct (Z.eqb_spec (10 + 4 + 4 + 2 + 1 + 3 + 4 + 2 + 32) (Z.of_nat (length rs))) as [F62|];
    [cbn [negb]|refuse].
  destruct (store_bytes_mapped m digest (field rs 30 32)) as [m' E].
  { unfold zlen. by rewrite length_field by lia. }
  rewrite E. cbn [mbind option_bind]. eexists _, _, m'. split; [reflexivity|].
  assert (is_response (Fips.be (field rs 10 4)) (drop 30 rs)) as Hres.
  { apply fields_response; try done; try lia. unfold field. rewrite (drop_S _ _ _ Hb). cbn [take].
    f_equal. by apply byte_Z_inj. }
  split; [split; [intros _; by eexists _, _|done]|]. split; [done|]. intros _.
  exists (Fips.be (field rs 10 4)), (drop 30 rs). split_and!; [done|done| |].
  - apply frame_store in E. unfold zlen in E. by rewrite length_field in E by lia.
  - apply store_bytes_at in E. unfold field in E. by rewrite take_ge in E by (rewrite length_drop; lia).
Qed.
End Response.

(** *** The command *)

(** A store into known bytes. *)
Lemma write_known m a bs off xs p :
  bytes_at m a bs -> p = a + Z.of_nat off -> (off + length xs <= length bs)%nat ->
  exists m', store_bytes m p xs = Some m' /\ frame a (zlen bs) m m' /\
    bytes_at m' a (take off bs ++ xs ++ drop (off + length xs) bs).
Proof.
  intros Hat -> Hl. destruct (store_bytes_mapped m (a + Z.of_nat off) xs) as [m' E].
  { eapply mapped_sub; [by apply bytes_at_mapped|lia|unfold zlen; lia]. }
  exists m'. split; [done|]. split; [|by eapply store_bytes_splice].
  eapply frame_weaken; [by apply frame_store|lia|unfold zlen; lia].
Qed.

Lemma write_be16_store m p v :
  write_be16 m p v = store_bytes m p (Fips.be_bytes 2 v).
Proof.
  unfold write_be16, Fips.be_bytes. cbn [seq map Nat.sub store_bytes].
  rewrite Z.shiftr_div_pow2 by lia. change (256 ^ Z.of_nat 1) with (2 ^ 8).
  change (256 ^ Z.of_nat 0) with 1. rewrite Z.div_1_r.
  destruct (store8 m p _) as [m1|]; [|done]. cbn [mbind option_bind]. by destruct (store8 m1 _ _).
Qed.

Lemma store8_store m p b : store8 m p b = store_bytes m p [b].
Proof. cbn [store_bytes]. by destruct (store8 m p b). Qed.

(** Writing the field [xs] of the command. *)
Ltac put off xs :=
  match goal with
  | Hat : bytes_at ?m ?a ?bs, F : frame ?a 20 ?m0 ?m |- context [store_bytes ?m ?p xs] =>
      let m' := fresh "m" in let E := fresh "E" in let F' := fresh "F" in let H := fresh "Hat" in
      destruct (write_known m a bs off xs p Hat) as (m' & E & F' & H); [lia|cbn; lia|];
      rewrite E; cbn [mbind option_bind]; cbn [take drop app length Nat.add] in H;
      apply (frame_trans _ _ _ _ _ F) in F'; clear Hat F E
  end.

Lemma build_command m pcr output :
  0 <= pcr <= 23 -> mapped m output 20 ->
  exists m', (m ← mem_zero m output 20;
     m ← write_be16 m output BBP_TPM2_ST_NO_SESSIONS;
     m ← write_be32 m (output + 2) 20;
     m ← write_be32 m (output + 6) BBP_TPM2_PCR_READ_COMMAND;
     m ← write_be32 m (output + 10) 1;
     m ← write_be16 m (output + 14) BBP_TPM2_ALG_SHA256;
     m ← store8 m (output + 16) (Z_byte 3);
     m ← store8 m (output + (17 + pcr / 8)) (Z_byte (Z.shiftl 1 (pcr mod 8)));
     Some (BBP_TCG2_WIRE_OK, Some 20, m)) = Some (BBP_TCG2_WIRE_OK, Some 20, m') /\
    frame output 20 m m' /\ bytes_at m' output (pcr_read_command pcr).
Proof.
  intros Hp Hm. rewrite mem_zero_store.
  destruct (store_bytes_mapped m output (replicate 20 x00)) as [m0 E]; [by rewrite zlen_replicate|].
  rewrite E. cbn [mbind option_bind]. pose proof (store_bytes_at _ _ _ _ E) as Hat.
  apply frame_store in E as F. rewrite zlen_replicate in F. change (Z.of_nat 20) with 20 in F. clear E.
  rewrite write_be16_store. put 0%nat (Fips.be_bytes 2 BBP_TPM2_ST_NO_SESSIONS).
  rewrite write_be32_store. put 2%nat (Fips.be_bytes 4 20).
  rewrite write_be32_store. put 6%nat (Fips.be_bytes 4 BBP_TPM2_PCR_READ_COMMAND).
  rewrite write_be32_store. put 10%nat (Fips.be_bytes 4 1).
  rewrite write_be16_store. put 14%nat (Fips.be_bytes 2 BBP_TPM2_ALG_SHA256).
  rewrite store8_store. put 16%nat [Z_byte 3].
  match goal with Hat : bytes_at _ _ ?l |- _ =>
    let v := eval vm_compute in l in change l with v in Hat end.
  pose proof (Z.div_pos pcr 8 ltac:(lia) ltac:(lia)) as Hq0.
  pose proof (Z.div_lt_upper_bound pcr 8 3 ltac:(lia) ltac:(lia)) as Hq3.
  rewrite store8_store. set (b := Z_byte (Z.shiftl 1 (pcr mod 8))).
  destruct (write_known m6 output _ (17 + Z.to_nat (pcr / 8)) [b] (output + (17 + pcr / 8)) Hat)
    as (m7 & E & F7 & Hat7); [lia|cbn; lia|].
  exists m7. rewrite E. split; [done|]. split; [by eapply frame_trans|].
  unfold pcr_read_command. rewrite <- select_bytes_spec by done. unfold select_bytes. fold b.
  assert (Z.to_nat (pcr / 8) = 0 \/ Z.to_nat (pcr / 8) = 1 \/ Z.to_nat (pcr / 8) = 2)%nat as Hq by lia.
  destruct Hq as [Hq|[Hq|Hq]]; rewrite Hq in *; exact Hat7.
Qed.

(** ** Properties *)

(** C37: the measurement hash is SHA-256 of FIPS 180-4.  On any message whose
    length in bits fits 64 bits the function returns 0 after at most one
    iteration per byte and leaves exactly the standard's digest at the given
    address, whatever the uninitialised context held; the extension of a
    register hashes its old value followed by the new digest, also when the
    result replaces one of them.  A missing digest or message, or an overlong
    length, is refused with -1 and changes nothing. *)
Theorem sha256_is_fips (local : sha256_context) (m : mem) (data bytes digest before measured : Z)
    (msg old new : list byte) :
  length (block local) = 64%nat -> 0 <= bytes ->
  bytes_at m data msg -> zlen msg = bytes -> mapped m digest 32 ->
  bytes_at m before old -> length old = 32%nat -> bytes_at m measured new -> length new = 32%nat ->
  let refused := digest = 0 \/ (bytes <> 0 /\ data = 0) \/ 2 ^ 61 - 1 < bytes in
  (refused -> bbp_tcg2_sha256 local m data bytes digest = Some (m, -1)) /\
  (~ refused -> exists m', bbp_tcg2_sha256 local m data bytes digest = Some (m', 0) /\
     frame digest 32 m m' /\ bytes_at m' digest (Fips.sha256 msg)) /\
  (digest <> 0 -> exists m', bbp_tcg2_sha256_extend local m before measured digest = Some m' /\
     frame digest 32 m m' /\ bytes_at m' digest (Fips.sha256 (old ++ new))).
Proof.
  intros Hb Hn Hat Hl Hm Hold Hlo Hnew Hln refused. unfold bbp_tcg2_sha256.
  change (Z.shiftr UINT64_MAX 3) with (2 ^ 61 - 1). split_and!.
  - intros Hr. assert ((digest =? 0) || (negb (bytes =? 0) && (data =? 0)) || (2 ^ 61 - 1 <? bytes) = true)
      as -> by (unfold refused in Hr; lia). done.
  - intros Hr. assert ((digest =? 0) || (negb (bytes =? 0) && (data =? 0)) || (2 ^ 61 - 1 <? bytes) = false)
      as -> by (unfold refused in Hr; lia).
    replace (Z.to_nat bytes) with (length msg) by (unfold zlen in Hl; lia).
    rewrite (bytes_at_load _ _ _ Hat). cbn [mbind option_bind].
    destruct (sha256_into_spec local m msg digest Hb) as (m' & -> & ? & ?);
      [unfold refused in Hr; lia|done|]. by exists m'.
  - intros Hd. unfold bbp_tcg2_sha256_extend.
    assert (load_bytes m before 32 = Some old /\ load_bytes m measured 32 = Some new) as [-> ->].
    { rewrite <- Hlo at 1. rewrite <- Hln. by rewrite !bytes_at_load. }
    cbn [mbind option_bind]. rewrite (proj2 (Z.eqb_neq _ 0)) by done.
    apply sha256_into_spec; [done| |done]. rewrite zlen_app. unfold zlen. lia.
Qed.

(** C38: reading a register through the TPM.  The command built for a register
    is the marshalled TPM2_PCR_Read with exactly that register selected, in
    the twenty bytes it reports; out of range or without room nothing is
    written.  A response is accepted if and only if it is byte for byte the
    answer to that command (one digest, one selection of the same register,
    no trailing bytes), then the counter and digest it carries are delivered;
    any other response, however malformed or truncated, is refused with the
    outputs unchanged and without reading past it. *)
Theorem pcr_read_exchange (m : mem) (pcr output capacity n0 response digest counter0 : Z)
    (rs : list byte) :
  0 <= pcr -> output <> 0 -> mapped m output capacity ->
  response <> 0 -> bytes_at m response rs -> digest <> 0 -> mapped m digest 32 ->
  (exists st n m', bbp_tcg2_build_pcr_read m pcr output capacity (Some n0) = Some (st, Some n, m') /\
     (st = BBP_TCG2_WIRE_OK <-> pcr <= 23 /\ 20 <= capacity) /\
     (st = BBP_TCG2_WIRE_OK -> n = 20 /\ frame output 20 m m' /\
        bytes_at m' output (pcr_read_command pcr)) /\
     (st <> BBP_TCG2_WIRE_OK -> n = n0 /\ m' = m)) /\
  (pcr <= 23 -> answers m digest pcr rs counter0
     (bbp_tcg2_parse_pcr_read_response m response (zlen rs) pcr digest (Some counter0))) /\
  (23 < pcr -> bbp_tcg2_parse_pcr_read_response m response (zlen rs) pcr digest (Some counter0) =
     Some (BBP_TCG2_WIRE_PCR, Some counter0, m)).
Proof.
  intros Hp Ho Hm Hr Hat Hd Hmd. split_and!.
  - unfold bbp_tcg2_build_pcr_read, BBP_TPM2_MAX_PCR.
    rewrite (proj2 (Z.eqb_neq _ 0)), bool_decide_eq_false_2 by done. cbn [orb].
    destruct (Z.ltb_spec 23 pcr); [eexists _, n0, m; split; [reflexivity|]; split_and!; try done; split; [done|lia]|].
    destruct (Z.ltb_spec capacity 20); [eexists _, n0, m; split; [reflexivity|]; split_and!; try done; split; [done|lia]|].
    destruct (build_command m pcr output) as (m' & E & F & Hc); [lia|eapply mapped_sub; [exact Hm|lia|lia]|].
    exists BBP_TCG2_WIRE_OK, 20, m'. split; [exact E|]. split; [split; [lia|done]|]. by split.
  - intros Hp'. by apply parse_answers.
  - intros Hp'. unfold bbp_tcg2_parse_pcr_read_response, BBP_TPM2_MAX_PCR.
    rewrite !(proj2 (Z.eqb_neq _ 0)), bool_decide_eq_false_2 by done. cbn [orb].
    by rewrite (proj2 (Z.ltb_lt 23 pcr)) by done.
Qed.

(** ** Sample runs *)

Module TpmSample.
(** The message "abc" (followed by the rest of an old register value) at 4096,
    a register at 8192, a digest buffer at 12288 and a command buffer at 16384. *)
Definition local : sha256_context := Sha256Context [] 0 (replicate 64 xaa) 7.
Definition abc : list byte := [x61; x62; x63].
Definition register : list byte := abc ++ replicate 29 x00.
Definition answer : list byte := pcr_read_response 7 16 register.
Definition mem0 : mem :=
  mem_of 4096 register ∪ (mem_of 8192 (replicate 32 xff) ∪
    (mem_of 12288 (replicate 32 xcc) ∪ (mem_of 16384 (replicate 20 xcc) ∪ mem_of 20480 answer))).

Lemma abc_at : bytes_at mem0 4096 abc.
Proof. apply (load_bytes_at mem0 4096 3). vm_compute. reflexivity. Qed.
Lemma register_at : bytes_at mem0 4096 register.
Proof. apply (load_bytes_at mem0 4096 32). vm_compute. reflexivity. Qed.
Lemma old_at : bytes_at mem0 8192 (replicate 32 xff).
Proof. apply (load_bytes_at mem0 8192 32). vm_compute. reflexivity. Qed.
Lemma answer_at : bytes_at mem0 20480 answer.
Proof. apply (load_bytes_at mem0 20480 62). vm_compute. reflexivity. Qed.
Lemma digest_mapped : mapped mem0 12288 32.
Proof. apply (load_mapped mem0 12288 32 (replicate 32 xcc)). vm_compute. reflexivity. Qed.
Lemma command_mapped : mapped mem0 16384 20.
Proof. apply (load_mapped mem0 16384 20 (replicate 20 xcc)). vm_compute. reflexivity. Qed.
End TpmSample.

Lemma sha256_is_fips_witness :
  exists m', bbp_tcg2_sha256 TpmSample.local TpmSample.mem0 4096 3 12288 = Some (m', 0) /\
    bytes_at m' 12288 (Fips.sha256 TpmSample.abc).
Proof.
  destruct (sha256_is_fips TpmSample.local TpmSample.mem0 4096 3 12288 8192 4096 TpmSample.abc
    (replicate 32 xff) TpmSample.register) as (_ & Hok & _).
  - reflexivity.
  - lia.
  - exact TpmSample.abc_at.
  - reflexivity.
  - exact TpmSample.digest_mapped.
  - exact TpmSample.old_at.
  - reflexivity.
  - exact TpmSample.register_at.
  - reflexivity.
  - destruct Hok as (m' & E & _ & Hat); [lia|]. exists m'. split; [exact E|exact Hat].
Defined.

Lemma pcr_read_exchange_witness :
  exists st n m', bbp_tcg2_build_pcr_read TpmSample.mem0 16 16384 20 (Some 0) = Some (st, Some n, m') /\
    st = BBP_TCG2_WIRE_OK /\ bytes_at m' 16384 (pcr_read_command 16) /\
    answers TpmSample.mem0 12288 16 TpmSample.answer 0
      (bbp_tcg2_parse_pcr_read_response TpmSample.mem0 20480 62 16 12288 (Some 0)).
Proof.
  destruct (pcr_read_exchange TpmSample.mem0 16 16384 20 0 20480 12288 0 TpmSample.answer)
    as ((st & n & m' & E & Hiff & Hok & _) & Hparse & _).
  - lia.
  - lia.
  - exact TpmSample.command_mapped.
  - lia.
  - exact TpmSample.answer_at.
  - lia.
  - exact TpmSample.digest_mapped.
  - assert (st = BBP_TCG2_WIRE_OK) as Hst by (apply Hiff; lia).
    exists st, n, m'. split; [exact E|]. split; [exact Hst|]. split; [apply (Hok Hst)|].
    apply Hparse. lia.
Defined.
