(* ===== verification/Security.v ===== *)
(** * The measurement collector (experimental/firmware/uefi/bbp_security_collector.c, .h)

    [bbp_security_collect] validates its inputs, measures every source into the
    TPM through a callback, records the digests, and publishes the record and
    a SECURITY tag through an arena callback; once a measurement has reached
    the TPM, any failure rolls the arena back and calls the abort hook.  The
    callbacks belong to the firmware: they are parameters over a state [U] of
    their own, and every call is entered in a log.  The local array [records]
    has an address, because the arena callback reads it through a pointer. *)

From stdpp Require Import strings.
From S2P Require Import Prelude Memory Crc64 Abi Builder.

(** ** Types and constants *)

Definition BBP_SECURITY_MAX_MEASUREMENTS : Z := 32.
Definition BBP_SECURITY_SHA256_BYTES : Z := 32.
Definition BBP_SECURITY_MAX_INPUT_BYTES : Z := 64 * 1024 * 1024.
Definition BBP_SECURITY_MAX_PCR : Z := 23.
Definition BBP_SECURITY_TAG_VERSION : Z := 1.
Definition BBP_HASH_SHA256 : Z := 0x0001.
Definition BBP_TPM_FLAG_ACTIVE : Z := Z.shiftl 1 0.
Definition BBP_TPM_FLAG_SUPPORTS_SHA384 : Z := Z.shiftl 1 1.
Definition BBP_TPM_FLAG_SUPPORTS_SHA512 : Z := Z.shiftl 1 2.

Definition BBP_SECURITY_MAX_PHYS : Z := Z.shiftl 1 48.
Definition BBP_SECURITY_MAX_TAGS : Z := 1024.
Definition BBP_SECURITY_MAX_ARENA : Z := 64 * 1024 * 1024 - sizeof bbp_info.
Definition BBP_SECURITY_ROLLBACK_BYTES : Z :=
  BBP_SECURITY_MAX_MEASUREMENTS * sizeof bbp_measurement + sizeof bbp_tag_security + 14.

Inductive bbp_security_status :=
  | BBP_SECURITY_OK
  | BBP_SECURITY_ERR_ARGUMENT
  | BBP_SECURITY_ERR_COUNT
  | BBP_SECURITY_ERR_PCR
  | BBP_SECURITY_ERR_ALGORITHM
  | BBP_SECURITY_ERR_HASH_LENGTH
  | BBP_SECURITY_ERR_NAME
  | BBP_SECURITY_ERR_RANGE
  | BBP_SECURITY_ERR_BUILDER
  | BBP_SECURITY_ERR_CAPACITY
  | BBP_SECURITY_ERR_TPM
  | BBP_SECURITY_ERR_PUBLISH_AFTER_TPM
  | BBP_SECURITY_ERR_ABORT_RETURNED.

#[global] Instance security_status_eq_dec : EqDecision bbp_security_status.
Proof. solve_decision. Defined.

Record bbp_security_source := SecuritySource {
  ss_pcr_index : Z;
  ss_algorithm : Z;
  ss_hash_length : Z;
  ss_reserved : Z;
  ss_data : Z;
  ss_data_length : Z;
  ss_component_name : Z;
  ss_component_name_length : Z;
}.
Definition SIZEOF_SECURITY_SOURCE : Z := 48.

Record secure_boot := SecureBoot {
  sb_mode : Z; sb_signature_verified : Z; sb_pk_present : Z; sb_kek_present : Z;
  sb_db_present : Z; sb_dbx_present : Z; sb_reserved : Z;
}.

Record bbp_security_platform := SecurityPlatform {
  sp_tpm_base_address : Z;
  sp_tpm_version : Z;
  sp_tpm_interface : Z;
  sp_tpm_flags : Z;
  sp_secure_boot : secure_boot;
}.

Inductive bbp_security_arena_object :=
  | BBP_SECURITY_ARENA_MEASUREMENTS
  | BBP_SECURITY_ARENA_TAG.

Record bbp_security_plan := SecurityPlan {
  blob_start : Z;
  blob_end : Z;
  tag_start : Z;
  tag_end : Z;
  log_bytes : Z;
}.

(** ** Spans *)

Definition align8 (value : Z) : option Z :=
  reject SIZE_MAX - 7 <? value with None;
  Some (align8_up value).

Definition pointer_span_valid (pointer bytes : Z) : bool :=
  negb (pointer =? 0) && negb (bytes =? 0) && (bytes <=? SIZE_MAX - pointer).

Definition spans_overlap (left left_bytes right right_bytes : Z) : bool :=
  reject negb (pointer_span_valid left left_bytes) || negb (pointer_span_valid right right_bytes)
    with true;
  (left <? right + right_bytes) && (right <? left + left_bytes).

(** ** Validation *)

(** The state of the tag chain. *)
Definition chain_consistent (m : mem) (b : bbp_builder) : option bool :=
  if tag_count b =? 0 then Some (negb (negb (last b =? 0) || negb (first_phys b =? 0)))
  else
    reject (last b =? 0) || (first_phys b =? 0) || negb (Z.land (first_phys b) 7 =? 0) ||
      (first_phys b <? arena_phys b) || (used b <=? first_phys b - arena_phys b) ||
      (last b <? arena b) || negb (Z.land (last b) 7 =? 0) || (used b <? last b - arena b) ||
      (used b - (last b - arena b) <? sizeof bbp_tag_header) with Some false;
    next ← load64 m (last b + 16);
    Some (next =? 0).

(** Where the record and the tag will go; [inl] is the status of a refusal. *)
Definition plan_layout (b : bbp_builder) (measurement_count : Z) :
    bbp_security_status + bbp_security_plan :=
  let bytes := measurement_count * sizeof bbp_measurement in
  match align8 (used b) with
  | None => inl BBP_SECURITY_ERR_RANGE
  | Some start =>
  reject SIZE_MAX - start <? bytes with inl BBP_SECURITY_ERR_RANGE;
  match align8 (start + bytes) with
  | None => inl BBP_SECURITY_ERR_RANGE
  | Some tstart =>
  reject SIZE_MAX - tstart <? sizeof bbp_tag_security with inl BBP_SECURITY_ERR_RANGE;
  let finish := tstart + sizeof bbp_tag_security in
  reject (capacity b <? finish) || (BBP_SECURITY_MAX_ARENA <? finish)
    with inl BBP_SECURITY_ERR_CAPACITY;
  reject BBP_SECURITY_MAX_PHYS - arena_phys b <? finish with inl BBP_SECURITY_ERR_RANGE;
  reject BBP_SECURITY_ROLLBACK_BYTES <? finish - start with inl BBP_SECURITY_ERR_RANGE;
  inr (SecurityPlan start (start + bytes) tstart finish bytes)
  end end.

Definition validate_builder (m : mem) (builder : option bbp_builder) (measurement_count : Z) :
    option (bbp_security_status + bbp_security_plan) :=
  match builder with
  | None => Some (inl BBP_SECURITY_ERR_ARGUMENT)
  | Some b =>
  reject (arena b =? 0) || negb (overflow b =? 0) || (capacity b <? used b) ||
    (BBP_SECURITY_MAX_ARENA <? used b) || (BBP_SECURITY_MAX_TAGS <? tag_count b) ||
    (arena_phys b =? 0) || negb (Z.land (arena_phys b) 7 =? 0) ||
    negb (Z.land (arena b) 7 =? 0) || (SIZE_MAX - arena b <? capacity b) ||
    (BBP_SECURITY_MAX_PHYS <=? arena_phys b) ||
    (BBP_SECURITY_MAX_PHYS - arena_phys b <? capacity b)
    with Some (inl BBP_SECURITY_ERR_BUILDER);
  ok ← chain_consistent m b;
  check (ok : bool) else Some (inl BBP_SECURITY_ERR_BUILDER);
  reject BBP_SECURITY_MAX_TAGS <=? tag_count b with Some (inl BBP_SECURITY_ERR_CAPACITY);
  Some (plan_layout b measurement_count)
  end.

Definition validate_platform (platform : option bbp_security_platform) : bbp_security_status :=
  let known_flags := Z.lor (Z.lor BBP_TPM_FLAG_ACTIVE BBP_TPM_FLAG_SUPPORTS_SHA384)
                       BBP_TPM_FLAG_SUPPORTS_SHA512 in
  match platform with
  | None => BBP_SECURITY_ERR_ARGUMENT
  | Some p =>
  let secure := sp_secure_boot p in
  reject negb (sp_tpm_version p =? 0x0200) || (3 <? sp_tpm_interface p) ||
    (Z.land (sp_tpm_flags p) BBP_TPM_FLAG_ACTIVE =? 0) ||
    negb (Z.land (sp_tpm_flags p) (wrap32 (Z.lnot known_flags)) =? 0) ||
    (BBP_SECURITY_MAX_PHYS <=? sp_tpm_base_address p) with BBP_SECURITY_ERR_RANGE;
  reject (2 <? sb_mode secure) || (1 <? sb_signature_verified secure) ||
    (1 <? sb_pk_present secure) || (1 <? sb_kek_present secure) ||
    (1 <? sb_db_present secure) || (1 <? sb_dbx_present secure) ||
    negb (sb_reserved secure =? 0) with BBP_SECURITY_ERR_RANGE;
  BBP_SECURITY_OK
  end.

(** [for (name_index = 0; name_index < length; name_index++)]: is there a NUL? *)
Fixpoint name_has_nul (m : mem) (name : Z) (n : nat) : option bool :=
  match n with
  | O => Some false
  | S n =>
      c ← m !! name;
      reject byte_Z c =? 0 with Some true;
      name_has_nul m (name + 1) n
  end.

Definition validate_source (m : mem) (s : bbp_security_source) : option bbp_security_status :=
  reject negb (ss_reserved s =? 0) with Some BBP_SECURITY_ERR_RANGE;
  reject BBP_SECURITY_MAX_PCR <? ss_pcr_index s with Some BBP_SECURITY_ERR_PCR;
  reject negb (ss_algorithm s =? BBP_HASH_SHA256) with Some BBP_SECURITY_ERR_ALGORITHM;
  reject negb (ss_hash_length s =? BBP_SECURITY_SHA256_BYTES) with Some BBP_SECURITY_ERR_HASH_LENGTH;
  reject (ss_data_length s =? 0) || (BBP_SECURITY_MAX_INPUT_BYTES <? ss_data_length s) ||
    negb (pointer_span_valid (ss_data s) (ss_data_length s)) with Some BBP_SECURITY_ERR_RANGE;
  reject (ss_component_name_length s =? 0) || (64 <=? ss_component_name_length s) ||
    negb (pointer_span_valid (ss_component_name s) (ss_component_name_length s))
    with Some BBP_SECURITY_ERR_NAME;
  nul ← name_has_nul m (ss_component_name s) (Z.to_nat (ss_component_name_length s));
  Some (if nul : bool then BBP_SECURITY_ERR_NAME else BBP_SECURITY_OK).

Fixpoint validate_loop (m : mem) (sources : list bbp_security_source) (i n : nat) :
    option bbp_security_status :=
  match n with
  | O => Some BBP_SECURITY_OK
  | S n =>
      s ← sources !! i;
      status ← validate_source m s;
      reject negb (bool_decide (status = BBP_SECURITY_OK)) with Some status;
      validate_loop m sources (S i) n
  end.

(** [sources] is the pointer with the array it designates. *)
Definition validate_sources (m : mem) (sources : Z * list bbp_security_source)
    (measurement_count : Z) : option bbp_security_status :=
  reject (measurement_count =? 0) || (BBP_SECURITY_MAX_MEASUREMENTS <? measurement_count)
    with Some BBP_SECURITY_ERR_COUNT;
  check pointer_span_valid (fst sources) (measurement_count * SIZEOF_SECURITY_SOURCE)
    else Some BBP_SECURITY_ERR_ARGUMENT;
  validate_loop m (snd sources) 0 (Z.to_nat measurement_count).

(** ** Callbacks *)

Inductive event :=
  | HashExtend (pcr data length result : Z) (digest : list byte)
  | ArenaAllocate (object : bbp_security_arena_object) (pointer : Z)
  | AbortCalled (reason : bbp_security_status).

(** The memory, the builder object, the callbacks' own state and the calls made
    so far, oldest first. *)
Record world (U : Type) := World {
  w_mem : mem;
  w_builder : bbp_builder;
  w_user : U;
  w_log : list event;
}.
Arguments World {U}.
Arguments w_mem {U}.
Arguments w_builder {U}.
Arguments w_user {U}.
Arguments w_log {U}.

(** [hash_extend] returns the C result and what it wrote to [digest], an array of
    32 bytes that is zero before the call;
    [arena_allocate] the memory and builder it leaves, its pointer and
    [*out_phys], or a fault.  [None] is a NULL function pointer. *)
Record bbp_security_callbacks (U : Type) := SecurityCallbacks {
  hash_extend : option (U -> mem -> Z -> Z -> Z -> Z -> U * Z * list byte);
  arena_allocate : option (U -> mem -> bbp_builder -> bbp_security_arena_object -> Z -> Z ->
                           option (U * mem * bbp_builder * Z * Z));
  abort : option (U -> bbp_security_status -> U);
}.
Arguments SecurityCallbacks {U}.
Arguments hash_extend {U}.
Arguments arena_allocate {U}.
Arguments abort {U}.

(** The adapter for the real arena. *)
Definition bbp_security_builder_allocate (m : mem) (builder : option bbp_builder)
    (object : bbp_security_arena_object) (source bytes : Z) (out_phys : option Z) :
    option (mem * option bbp_builder * Z * option Z) :=
  match builder, out_phys with
  | Some _, Some _ =>
  match object with
  | BBP_SECURITY_ARENA_MEASUREMENTS =>
      '(m, b, phys) ← bbp_arena_blob m builder source bytes;
      reject phys =? 0 with Some (m, b, 0, Some 0);
      bb ← b;
      Some (m, b, arena bb + wrap64 (phys - arena_phys bb), Some phys)
  | BBP_SECURITY_ARENA_TAG =>
      reject negb (source =? 0) || negb (bytes =? sizeof bbp_tag_security)
        with Some (m, builder, 0, Some 0);
      '(m, b, result) ← bbp_alloc_tag m builder BBP_TAG_SECURITY BBP_SECURITY_TAG_VERSION bytes;
      reject result =? 0 with Some (m, b, 0, Some 0);
      bb ← b;
      Some (m, b, result, Some (wrap64 (arena_phys bb + (result - arena bb))))
  end
  | _, _ => Some (m, builder, 0, out_phys)
  end.

(** ** Publication *)

Section Collect.
Context {U : Type}.
Context (extend : U -> mem -> Z -> Z -> Z -> Z -> U * Z * list byte).
Context (allocate : U -> mem -> bbp_builder -> bbp_security_arena_object -> Z -> Z ->
                    option (U * mem * bbp_builder * Z * Z)).
Context (abort_hook : U -> bbp_security_status -> U).

Definition call_extend (w : world U) (pcr algorithm data length : Z) : world U * Z * list byte :=
  let '(u, result, written) := extend (w_user w) (w_mem w) pcr algorithm data length in
  let digest := resize 32 x00 written in
  (World (w_mem w) (w_builder w) u (w_log w ++ [HashExtend pcr data length result digest]), result, digest).

Definition call_allocate (w : world U) (object : bbp_security_arena_object) (source bytes : Z) :
    option (world U * Z * Z) :=
  '(u, m, b, p, phys) ← allocate (w_user w) (w_mem w) (w_builder w) object source bytes;
  Some (World m b u (w_log w ++ [ArenaAllocate object p]), p, phys).

Definition set_mem (w : world U) (m : mem) : world U := World m (w_builder w) (w_user w) (w_log w).

Definition rollback_publish (w : world U) (before : bbp_builder) (backup_start : Z)
    (backup : list byte) (old_last_next : Z) : option (world U) :=
  m ← store_bytes (w_mem w) (arena (w_builder w) + backup_start) backup;
  m ← (if negb (last before =? 0) then store64 m (last before + 16) old_last_next else Some m);
  Some (World m before (w_user w) (w_log w)).

Definition abort_after_tpm (w : world U) (reason : bbp_security_status) :
    world U * bbp_security_status :=
  (World (w_mem w) (w_builder w) (abort_hook (w_user w) reason) (w_log w ++ [AbortCalled reason]),
   BBP_SECURITY_ERR_ABORT_RETURNED).

(** One measurement: its record is filled in and the TPM is extended. *)
Definition measure (w : world U) (records i : Z) (s : bbp_security_source) :
    option (world U * Z) :=
  let r := records + i * sizeof bbp_measurement in
  m ← store32 (w_mem w) r (ss_pcr_index s);
  m ← store32 m (r + 4) BBP_HASH_SHA256;
  m ← store32 m (r + 72) BBP_SECURITY_SHA256_BYTES;
  m ← mem_copy m (r + 80) (ss_component_name s) (Z.to_nat (ss_component_name_length s));
  let '(w, result, digest) := call_extend (set_mem w m) (ss_pcr_index s) BBP_HASH_SHA256 (ss_data s)
                                (ss_data_length s) in
  m ← store_bytes (w_mem w) (r + 8) digest;
  Some (set_mem w m, result).

(** [inl] is an early return. *)
Fixpoint measure_loop (w : world U) (records : Z) (sources : list bbp_security_source)
    (i n : nat) : option (world U * bbp_security_status + world U) :=
  match n with
  | O => Some (inr w)
  | S n =>
      s ← sources !! i;
      '(w, result) ← measure w records (Z.of_nat i) s;
      if negb (result =? 0) then
        Some (inl (if negb (Nat.eqb i 0)
                   then abort_after_tpm w BBP_SECURITY_ERR_PUBLISH_AFTER_TPM
                   else (w, BBP_SECURITY_ERR_TPM)))
      else measure_loop w records sources (S i) n
  end.

(** Is the record where it should be? *)
Definition blob_published (w : world U) (before : bbp_builder) (plan : bbp_security_plan)
    (blob blob_phys : Z) (log : list byte) : option bool :=
  let b := w_builder w in
  reject (blob =? 0) || negb (blob =? arena b + blob_start plan) ||
    negb (blob_phys =? wrap64 (arena_phys b + blob_start plan)) ||
    negb (used b =? blob_end plan) || negb (tag_count b =? tag_count before) ||
    negb (last b =? last before) || negb (first_phys b =? first_phys before) ||
    negb (overflow b =? 0) with Some false;
  bytes_equal (w_mem w) blob log.

(** Is the tag where it should be, with the right header and links? *)
Definition tag_published (w : world U) (before : bbp_builder) (plan : bbp_security_plan)
    (tag tag_phys : Z) : option bool :=
  let b := w_builder w in let m := w_mem w in
  reject (tag =? 0) || negb (tag =? arena b + tag_start plan) ||
    negb (tag_phys =? wrap64 (arena_phys b + tag_start plan)) ||
    negb (used b =? tag_end plan) || negb (tag_count b =? wrap32 (tag_count before + 1)) ||
    negb (last b =? tag) || negb (overflow b =? 0) with Some false;
  v ← load64 m tag; check v =? BBP_TAG_SECURITY else Some false;
  v ← load32 m (tag + 8); check v =? sizeof bbp_tag_security else Some false;
  v ← load16 m (tag + 12); check v =? BBP_SECURITY_TAG_VERSION else Some false;
  v ← load64 m (tag + 16); check v =? 0 else Some false;
  if tag_count before =? 0 then Some (first_phys b =? tag_phys)
  else
    check first_phys b =? first_phys before else Some false;
    v ← load64 m (last before + 16);
    Some (v =? tag_phys).

(** The body of the tag. *)
Definition fill_tag (m : mem) (tag : Z) (p : bbp_security_platform)
    (measurement_count blob_phys log_crc : Z) : option mem :=
  let s := sp_secure_boot p in
  m ← store64 m (tag + 32) (sp_tpm_base_address p);
  m ← store16 m (tag + 40) (sp_tpm_version p);
  m ← store16 m (tag + 42) (sp_tpm_interface p);
  m ← store32 m (tag + 44) (sp_tpm_flags p);
  m ← store_bytes m (tag + 48) [Z_byte (sb_mode s); Z_byte (sb_signature_verified s);
        Z_byte (sb_pk_present s); Z_byte (sb_kek_present s); Z_byte (sb_db_present s);
        Z_byte (sb_dbx_present s)];
  m ← store16 m (tag + 54) (sb_reserved s);
  m ← store32 m (tag + 56) measurement_count;
  m ← store64 m (tag + 64) blob_phys;
  store64 m (tag + 104) log_crc.

(** The failure path of publication. *)
Definition give_back (w : world U) (before : bbp_builder) (plan : bbp_security_plan)
    (rollback : list byte) (old_last_next : Z) : option (world U * bbp_security_status) :=
  w ← rollback_publish w before (blob_start plan) rollback old_last_next;
  Some (abort_after_tpm w BBP_SECURITY_ERR_PUBLISH_AFTER_TPM).

(** The tag, after the record. *)
Definition publish_tag (w : world U) (before : bbp_builder) (plan : bbp_security_plan)
    (rollback : list byte) (old_last_next : Z) (platform : bbp_security_platform)
    (measurement_count blob_phys log_crc out_tag : Z) : option (world U * bbp_security_status) :=
  '(w, tag, tag_phys) ← call_allocate w BBP_SECURITY_ARENA_TAG 0 (sizeof bbp_tag_security);
  ok ← tag_published w before plan tag tag_phys;
  check (ok : bool) else give_back w before plan rollback old_last_next;
  m ← fill_tag (w_mem w) tag platform measurement_count blob_phys log_crc;
  m ← bbp_seal_tag m tag;
  m ← store64 m out_tag tag;
  Some (set_mem w m, BBP_SECURITY_OK).

(** The part after the measurements: the record, the tag, and the result. *)
Definition publish (w : world U) (before : bbp_builder) (plan : bbp_security_plan)
    (records : Z) (rollback : list byte) (old_last_next : Z)
    (platform : bbp_security_platform) (measurement_count out_tag : Z) :
    option (world U * bbp_security_status) :=
  log_crc ← bbp_crc64 (w_mem w) records (Z.to_nat (log_bytes plan));
  reject log_crc =? 0 with Some (abort_after_tpm w BBP_SECURITY_ERR_PUBLISH_AFTER_TPM);
  '(w, blob, blob_phys) ← call_allocate w BBP_SECURITY_ARENA_MEASUREMENTS records (log_bytes plan);
  log ← load_bytes (w_mem w) records (Z.to_nat (log_bytes plan));
  ok ← blob_published w before plan blob blob_phys log;
  check (ok : bool) else give_back w before plan rollback old_last_next;
  publish_tag w before plan rollback old_last_next platform measurement_count blob_phys log_crc out_tag.

(** The work of the function once every input is known to be valid. *)
Definition collect (w : world U) (plan : bbp_security_plan) (records : Z)
    (platform : bbp_security_platform) (sources : list bbp_security_source)
    (measurement_count out_tag : Z) : option (world U * bbp_security_status) :=
  let before := w_builder w in
  old_last_next ← (if negb (last before =? 0) then load64 (w_mem w) (last before + 16) else Some 0);
  rollback ← load_bytes (w_mem w) (arena before + blob_start plan)
               (Z.to_nat (tag_end plan - blob_start plan));
  m ← mem_zero (w_mem w) records (Z.to_nat (BBP_SECURITY_MAX_MEASUREMENTS * sizeof bbp_measurement));
  r ← measure_loop (set_mem w m) records sources 0 (Z.to_nat measurement_count);
  match r with
  | inl r => Some r
  | inr w =>
      publish w before plan records rollback old_last_next platform measurement_count out_tag
  end.
End Collect.

(** [records] is the address of the local array; the builder is the object the
    pointer designates, [None] for NULL. *)
Definition bbp_security_collect {U} (m : mem) (builder : option bbp_builder) (u : U) (records : Z)
    (platform : option bbp_security_platform) (sources : Z * list bbp_security_source)
    (measurement_count : Z) (callbacks : option (bbp_security_callbacks U)) (out_tag : Z) :
    option (mem * option bbp_builder * U * list event * bbp_security_status) :=
  let fail status := Some (m, builder, u, [], status) in
  match callbacks with
  | Some (SecurityCallbacks (Some extend) (Some allocate) (Some abort_hook)) =>
  reject out_tag =? 0 with fail BBP_SECURITY_ERR_ARGUMENT;
  status ← validate_sources m sources measurement_count;
  reject negb (bool_decide (status = BBP_SECURITY_OK)) with fail status;
  let status := validate_platform platform in
  reject negb (bool_decide (status = BBP_SECURITY_OK)) with fail status;
  plan ← validate_builder m builder measurement_count;
  match plan, builder, platform with
  | inl status, _, _ => fail status
  | inr plan, Some b, Some p =>
      reject spans_overlap out_tag 8 (arena b) (capacity b) with fail BBP_SECURITY_ERR_RANGE;
      '(w, status) ← collect extend allocate abort_hook (World m b u []) plan records p
                       (snd sources) measurement_count out_tag;
      Some (w_mem w, Some (w_builder w), w_user w, w_log w, status)
  | _, _, _ => None
  end
  | _ => fail BBP_SECURITY_ERR_ARGUMENT
  end.

Definition bbp_security_strstatus (status : bbp_security_status) : string :=
  match status with
  | BBP_SECURITY_OK => "ok"
  | BBP_SECURITY_ERR_ARGUMENT => "invalid argument"
  | BBP_SECURITY_ERR_COUNT => "invalid measurement count"
  | BBP_SECURITY_ERR_PCR => "invalid PCR index"
  | BBP_SECURITY_ERR_ALGORITHM => "unsupported hash algorithm"
  | BBP_SECURITY_ERR_HASH_LENGTH => "invalid hash length"
  | BBP_SECURITY_ERR_NAME => "invalid component name"
  | BBP_SECURITY_ERR_RANGE => "invalid input range"
  | BBP_SECURITY_ERR_BUILDER => "invalid builder state"
  | BBP_SECURITY_ERR_CAPACITY => "insufficient builder arena"
  | BBP_SECURITY_ERR_TPM => "TPM hash/extend failed"
  | BBP_SECURITY_ERR_PUBLISH_AFTER_TPM => "publish failed after TPM success"
  | BBP_SECURITY_ERR_ABORT_RETURNED => "terminal abort hook returned"
  end.
