(* ===== verification/SecurityFacts.v ===== *)
(** * The collector's measurements

    What the validators accept, and what the measuring loop leaves: the filled
    records, the log of TPM calls and the memory outside the records untouched. *)

From S2P Require Import Prelude Memory Crc64 Abi Builder Security.

Lemma security_sizes :
  sizeof bbp_measurement = 144 /\ sizeof bbp_tag_security = 128 /\ sizeof bbp_tag_header = 32 /\
  sizeof bbp_info = 144.
Proof. split_and!; reflexivity. Qed.

Ltac ssizes :=
  change (sizeof bbp_measurement) with 144 in *; change (sizeof bbp_tag_security) with 128 in *;
  change (sizeof bbp_tag_header) with 32 in *; change (sizeof bbp_info) with 144 in *.
Ltac sconsts :=
  ssizes; unfold BBP_SECURITY_ROLLBACK_BYTES, BBP_SECURITY_MAX_ARENA, BBP_SECURITY_MAX_MEASUREMENTS,
    BBP_SECURITY_MAX_TAGS in *; ssizes;
  change BBP_SECURITY_MAX_PHYS with (2 ^ 48) in *.

(** The bytes of the local array [records]. *)
Definition RECORDS : Z := 4608.

(** ** Filling one record *)

(** Since [m0], only the bytes [bs] at [a] were written. *)
Definition filling (m0 m : mem) (a : Z) (bs : list byte) : Prop :=
  bytes_at m a bs /\ frame a (zlen bs) m0 m.

(** A store into a run of zeros. *)
Lemma fill_zeros m0 m a xs k ys zs p :
  filling m0 m a (xs ++ replicate k x00 ++ ys) -> p = a + zlen xs -> (length zs <= k)%nat ->
  exists m', store_bytes m p zs = Some m' /\
    filling m0 m' a (xs ++ zs ++ replicate (k - length zs) x00 ++ ys).
Proof.
  intros [Hat F] -> Hk. destruct (store_in_zeros m a xs k ys zs Hat Hk) as (m' & E & H).
  exists m'. split; [done|]. split; [done|].
  assert (zlen (xs ++ zs ++ replicate (k - length zs) x00 ++ ys) = zlen (xs ++ replicate k x00 ++ ys)) as ->.
  { unfold zlen. rewrite !length_app, !length_replicate. lia. }
  eapply frame_trans; [exact F|]. eapply frame_weaken; [by apply frame_store|..].
  - pose proof (zlen_nonneg xs). lia.
  - rewrite !zlen_app, zlen_replicate. pose proof (zlen_nonneg ys). unfold zlen. lia.
Qed.

(** Regrouping the parts of a buffer. *)
Lemma filling_eq m0 m a bs bs' : bs = bs' -> filling m0 m a bs -> filling m0 m a bs'.
Proof. by intros ->. Qed.

Definition record_bytes (s : bbp_security_source) (ns digest : list byte) : list byte :=
  le_encode 4 (ss_pcr_index s) ++ le_encode 4 BBP_HASH_SHA256 ++ digest ++ replicate 32 x00 ++
  le_encode 4 BBP_SECURITY_SHA256_BYTES ++ replicate 4 x00 ++ ns ++ replicate (64 - length ns) x00.

Lemma zlen_record_bytes s ns d :
  length d = 32%nat -> (length ns <= 64)%nat -> zlen (record_bytes s ns d) = 144.
Proof.
  intros Hd Hn. unfold record_bytes, zlen. rewrite !length_app, !length_le_encode, !length_replicate. lia.
Qed.

(** The name of a source, apart from the records. *)
Record named (m : mem) (records : Z) (s : bbp_security_source) (ns : list byte) : Prop := Named {
  nm_length : zlen ns = ss_component_name_length s /\ 0 < zlen ns < 64;
  nm_bytes : bytes_at m (ss_component_name s) ns;
  nm_apart : ss_component_name s + zlen ns <= records \/ records + RECORDS <= ss_component_name s;
}.

Lemma named_frame m m' records s ns :
  frame records RECORDS m m' -> named m records s ns -> named m' records s ns.
Proof. intros F [H1 H2 H3]. split; [done| |done]. by eapply frame_bytes_at. Qed.

Section Measure.
Context {U : Type} (extend : U -> mem -> Z -> Z -> Z -> Z -> U * Z * list byte).
Context (abort_hook : U -> bbp_security_status -> U).

Lemma length_resize_32 (d : list byte) : length (resize 32 x00 d) = 32%nat.
Proof. by rewrite length_resize. Qed.

(** The fixed fields and the name of one record, over zeros. *)
Lemma record_front m records i s ns pre k :
  named m records s ns -> zlen pre = i * 144 -> 0 <= i ->
  bytes_at m records (pre ++ replicate (144 + k) x00) -> zlen pre + 144 + Z.of_nat k <= RECORDS ->
  let r := records + i * 144 in
  exists m', (m ← store32 m r (ss_pcr_index s);
    m ← store32 m (r + 4) BBP_HASH_SHA256;
    m ← store32 m (r + 72) BBP_SECURITY_SHA256_BYTES;
    mem_copy m (r + 80) (ss_component_name s) (Z.to_nat (ss_component_name_length s))) = Some m' /\
    filling m m' records ((pre ++ le_encode 4 (ss_pcr_index s) ++ le_encode 4 BBP_HASH_SHA256) ++
      replicate 64 x00 ++ le_encode 4 BBP_SECURITY_SHA256_BYTES ++ replicate 4 x00 ++ ns ++
      replicate (64 - length ns) x00 ++ replicate k x00).
Proof.
  intros [[Hnl Hn64] Hnb Hna] Hpre Hi Hat Hk r. unfold store32. pose proof (zlen_nonneg pre).
  set (e1 := le_encode 4 (ss_pcr_index s)). set (e2 := le_encode 4 BBP_HASH_SHA256).
  set (e3 := le_encode 4 BBP_SECURITY_SHA256_BYTES).
  assert (length e1 = 4 /\ length e2 = 4 /\ length e3 = 4)%nat as (L1 & L2 & L3)
    by (unfold e1, e2, e3; by rewrite !length_le_encode).
  assert (filling m m records (pre ++ replicate (144 + k) x00 ++ [])) as G0
    by (rewrite app_nil_r; split; [done|apply frame_refl]).
  destruct (fill_zeros _ _ _ _ _ _ e1 r G0) as (m1 & -> & G1); [lia|lia|]. cbn [mbind option_bind].
  apply (filling_eq _ _ _ _ ((pre ++ e1) ++ replicate (140 + k) x00 ++ [])) in G1;
    [|by rewrite L1, <- app_assoc].
  destruct (fill_zeros _ _ _ _ _ _ e2 (r + 4) G1) as (m2 & -> & G2);
    [rewrite zlen_app; unfold zlen in *; lia|lia|]. cbn [mbind option_bind].
  apply (filling_eq _ _ _ _ ((pre ++ e1 ++ e2 ++ replicate 64 x00) ++ replicate (72 + k) x00 ++ [])) in G2.
  2: { rewrite L2, <- !app_assoc. change (140 + k - 4)%nat with (64 + (72 + k))%nat.
       by rewrite (replicate_add 64), <- !app_assoc. }
  destruct (fill_zeros _ _ _ _ _ _ e3 (r + 72) G2) as (m3 & -> & G3);
    [rewrite !zlen_app, zlen_replicate; unfold zlen in *; lia|lia|]. cbn [mbind option_bind].
  apply (filling_eq _ _ _ _ ((pre ++ e1 ++ e2 ++ replicate 64 x00 ++ e3 ++ replicate 4 x00) ++
    replicate (64 + k) x00 ++ [])) in G3.
  2: { rewrite L3, <- !app_assoc. change (72 + k - 4)%nat with (4 + (64 + k))%nat.
       by rewrite (replicate_add 4), <- !app_assoc. }
  destruct (fill_zeros _ _ _ _ _ _ ns (r + 80) G3) as (m4 & E4 & G4);
    [rewrite !zlen_app, !zlen_replicate; unfold zlen in *; lia|unfold zlen in *; lia|].
  rewrite (mem_copy_store m3 _ _ _ ns).
  - exists m4. split; [done|]. eapply filling_eq; [|exact G4].
    rewrite <- !app_assoc, app_nil_r. do 7 f_equal. rewrite <- replicate_add. f_equal. unfold zlen in *. lia.
  - replace (Z.to_nat (ss_component_name_length s)) with (length ns) by (unfold zlen in *; lia).
    apply bytes_at_load. eapply frame_bytes_at; [exact (proj2 G3)| |exact Hnb].
    rewrite !zlen_app, !zlen_replicate. unfold zlen, RECORDS in *. cbn [length]. lia.
  - apply disjoint_range_intro. unfold r, RECORDS, zlen in *. lia.
Qed.

Lemma measure_spec w records i s ns pre k :
  named (w_mem w) records s ns -> zlen pre = i * 144 -> 0 <= i ->
  bytes_at (w_mem w) records (pre ++ replicate (144 + k) x00) ->
  zlen pre + 144 + Z.of_nat k <= RECORDS ->
  exists w' result d, measure extend w records i s = Some (w', result) /\ length d = 32%nat /\
    bytes_at (w_mem w') records (pre ++ record_bytes s ns d ++ replicate k x00) /\
    frame records RECORDS (w_mem w) (w_mem w') /\ w_builder w' = w_builder w /\
    w_log w' = w_log w ++ [HashExtend (ss_pcr_index s) (ss_data s) (ss_data_length s) result d].
Proof.
  intros Hn Hpre Hi Hat Hk. pose proof Hn as [[Hnl Hn64] _ _].
  destruct (record_front (w_mem w) records i s ns pre k Hn Hpre Hi Hat Hk) as (m4 & E4 & G4).
  unfold measure. ssizes. revert E4. cbn zeta. set (r := records + i * 144).
  repeat (intros E4; apply bind_Some in E4 as (? & -> & E4); cbn [mbind option_bind]; revert E4).
  intros ->. cbn [mbind option_bind]. unfold call_extend, set_mem. cbn [w_mem w_user w_builder w_log].
  destruct (extend (w_user w) m4 _ _ _ _) as [[u res] d0]. cbn [w_mem w_user w_builder w_log].
  set (d := resize 32 x00 d0). assert (length d = 32%nat) as Ld by apply length_resize_32.
  destruct (fill_zeros _ _ _ _ _ _ d (r + 8) G4) as (m5 & E5 & [G5 F5]);
    [rewrite !zlen_app, !zlen_le_encode; lia|lia|].
  rewrite E5. cbn [mbind option_bind]. eexists _, res, d. split; [reflexivity|]. cbn [w_mem w_builder w_log].
  split; [done|]. rewrite Ld in G5, F5. split; [|split; [|done]].
  - unfold record_bytes. rewrite <- !app_assoc in *. exact G5.
  - eapply frame_weaken; [exact F5|lia|]. rewrite !zlen_app, !zlen_replicate, !zlen_le_encode.
    unfold zlen in *. lia.
Qed.

Definition extended (result : Z) (s : bbp_security_source) (digest : list byte) : event :=
  HashExtend (ss_pcr_index s) (ss_data s) (ss_data_length s) result digest.

(** One digest of the right length per source. *)
Definition digests (ss : list bbp_security_source) (ds : list (list byte)) : Prop :=
  Forall2 (fun _ d => length d = 32%nat) ss ds.

(** The records of the measured sources. *)
Fixpoint records_of (ss : list bbp_security_source) (nss ds : list (list byte)) : list byte :=
  match ss, nss, ds with
  | s :: ss, ns :: nss, d :: ds => record_bytes s ns d ++ records_of ss nss ds
  | _, _, _ => []
  end.

(** How the loop ends: every source measured, or the first failure. *)
Definition measured (w : world U) (records : Z) (pre : list byte) (ss : list bbp_security_source)
    (nss : list (list byte)) (i k : nat) (r : world U * bbp_security_status + world U) : Prop :=
  match r with
  | inr w' => exists ds, digests ss ds /\
      bytes_at (w_mem w') records (pre ++ records_of ss nss ds ++ replicate k x00) /\
      frame records RECORDS (w_mem w) (w_mem w') /\ w_builder w' = w_builder w /\
      w_log w' = w_log w ++ zip_with (extended 0) ss ds
  | inl (w', st) => exists done ds s d rest result, ss = done ++ s :: rest /\ digests done ds /\ result <> 0 /\
      frame records RECORDS (w_mem w) (w_mem w') /\ w_builder w' = w_builder w /\
      let log := w_log w ++ zip_with (extended 0) done ds ++ [extended result s d] in
      if decide (i = 0%nat /\ done = [])
      then st = BBP_SECURITY_ERR_TPM /\ w_log w' = log
      else st = BBP_SECURITY_ERR_ABORT_RETURNED /\
           w_log w' = log ++ [AbortCalled BBP_SECURITY_ERR_PUBLISH_AFTER_TPM]
  end.

Lemma measured_step w w1 records pre s ss ns nss d i k r :
  length d = 32%nat -> frame records RECORDS (w_mem w) (w_mem w1) -> w_builder w1 = w_builder w ->
  w_log w1 = w_log w ++ [extended 0 s d] ->
  measured w1 records (pre ++ record_bytes s ns d) ss nss (S i) k r ->
  measured w records pre (s :: ss) (ns :: nss) i k r.
Proof.
  intros Hd F Hb Hl. destruct r as [[w' st]|w']; cbn [measured].
  - intros (done & ds & t & e & rest & result & -> & Hds & Hr & F' & Hb' & Hlog).
    exists (s :: done), (d :: ds), t, e, rest, result.
    split_and!; [done|by constructor|done|by eapply frame_trans|congruence|].
    rewrite Hl in Hlog. rewrite decide_False in Hlog by (intros [? _]; lia).
    rewrite decide_False by (by intros [_ ?]). destruct Hlog as [-> ->]. split; [done|].
    cbn [zip_with]. by rewrite <- !app_assoc.
  - intros (ds & H2 & Hat & F' & Hb' & Hlog). exists (d :: ds).
    split_and!; [by constructor| |by eapply frame_trans|congruence|].
    + cbn [records_of]. rewrite <- app_assoc in Hat. by rewrite <- app_assoc.
    + rewrite Hlog, Hl. by rewrite <- app_assoc.
Qed.

Lemma measure_loop_spec all ss : forall w records nss i pre k,
  take (length ss) (drop i all) = ss -> Forall2 (named (w_mem w) records) ss nss ->
  zlen pre = Z.of_nat i * 144 ->
  bytes_at (w_mem w) records (pre ++ replicate (144 * length ss + k) x00) ->
  zlen pre + 144 * zlen ss + Z.of_nat k <= RECORDS ->
  exists r, measure_loop extend abort_hook w records all i (length ss) = Some r /\
    measured w records pre ss nss i k r.
Proof.
  induction ss as [|s ss IH]; intros w records nss i pre k Hd Hn Hpre Hat Hk.
  { eexists. split; [reflexivity|]. exists []. apply Forall2_nil_inv_l in Hn as ->.
    split_and!; [constructor|by rewrite app_nil_l|apply frame_refl|done|by rewrite app_nil_r]. }
  apply Forall2_cons_inv_l in Hn as (ns & nss' & Hn & Hns & ->).
  cbn [length measure_loop]. rewrite zlen_cons in Hk.
  assert (all !! i = Some s /\ take (length ss) (drop (S i) all) = ss) as [Hs Hd'].
  { destruct (all !! i) as [t|] eqn:E.
    - rewrite (drop_S _ _ _ E) in Hd. cbn in Hd. by injection Hd as -> ->.
    - rewrite drop_ge in Hd by (by apply lookup_ge_None). done. }
  rewrite Hs. cbn [mbind option_bind].
  replace (144 * length (s :: ss) + k)%nat with (144 + (144 * length ss + k))%nat in Hat by (cbn; lia).
  destruct (measure_spec w records (Z.of_nat i) s ns pre (144 * length ss + k) Hn Hpre) as
    (w1 & result & d & -> & Hl & Hat1 & F1 & Hb1 & Hlog1); [lia|done|unfold zlen in *; lia|].
  cbn [mbind option_bind]. destruct (Z.eqb_spec result 0) as [->|Hne]; cbn [negb].
  - destruct (IH w1 records nss' (S i) (pre ++ record_bytes s ns d) k Hd') as (r & E & Hr).
    + eapply Forall2_impl; [exact Hns|]. intros x y. by apply named_frame.
    + destruct Hn as [[? ?] _ _]. rewrite zlen_app, zlen_record_bytes by (done || unfold zlen in *; lia). lia.
    + by rewrite <- app_assoc.
    + destruct Hn as [[? ?] _ _]. rewrite zlen_app, zlen_record_bytes by (done || unfold zlen in *; lia). lia.
    + exists r. split; [done|]. by eapply measured_step.
  - eexists. split; [reflexivity|]. unfold measured, abort_after_tpm.
    destruct (Nat.eqb_spec i 0) as [->|Hi]; cbn [negb].
    + exists [], [], s, d, ss, result. split_and!; [done|constructor|done|done|done|]. by rewrite decide_True.
    + exists [], [], s, d, ss, result. cbn [w_mem w_builder w_log]. split_and!; [done|constructor|done|done|done|].
      rewrite decide_False by (by intros [? _]). split; [done|]. cbn [zip_with app]. by rewrite Hlog1.
Qed.
End Measure.

(** ** The tag body *)

Definition platform_bytes (p : bbp_security_platform) : list byte :=
  let s := sp_secure_boot p in
  le_encode 8 (sp_tpm_base_address p) ++ le_encode 2 (sp_tpm_version p) ++
  le_encode 2 (sp_tpm_interface p) ++ le_encode 4 (sp_tpm_flags p) ++
  [Z_byte (sb_mode s); Z_byte (sb_signature_verified s); Z_byte (sb_pk_present s);
   Z_byte (sb_kek_present s); Z_byte (sb_db_present s); Z_byte (sb_dbx_present s)] ++
  le_encode 2 (sb_reserved s).

Lemma zlen_platform_bytes p : zlen (platform_bytes p) = 24.
Proof. unfold platform_bytes, zlen. rewrite !length_app, !length_le_encode. done. Qed.

(** What the tag says. *)
Definition tag_body (m : mem) (tag : Z) (p : bbp_security_platform) (count blob_phys crc : Z) : Prop :=
  bytes_at m (tag + 32) (platform_bytes p ++ le_encode 4 count) /\
  bytes_at m (tag + 64) (le_encode 8 blob_phys) /\ bytes_at m (tag + 104) (le_encode 8 crc).

Lemma fill_tag_spec m tag p count blob_phys crc :
  mapped m tag 128 ->
  exists m', fill_tag m tag p count blob_phys crc = Some m' /\ frame (tag + 32) 96 m m' /\
    tag_body m' tag p count blob_phys crc.
Proof.
  intros Hm. unfold fill_tag, store64, store32, store16.
  do 6 rewrite <- (store_bytes_bind_app m) by (autorewrite with zlen; lia).
  rewrite <- !app_assoc. fold (platform_bytes p).
  set (front := _ ++ _). assert (front = platform_bytes p ++ le_encode 4 count) as Ef.
  { unfold front, platform_bytes. by rewrite <- !app_assoc. }
  clearbody front. subst front. pose proof (zlen_platform_bytes p) as Hl.
  destruct (store_bytes_mapped m (tag + 32) (platform_bytes p ++ le_encode 4 count)) as [m1 E1].
  { eapply mapped_sub; [exact Hm|lia|rewrite zlen_app, Hl, zlen_le_encode; lia]. }
  rewrite E1. cbn [mbind option_bind]. pose proof (store_bytes_at _ _ _ _ E1) as A1. apply frame_store in E1.
  rewrite zlen_app, Hl, zlen_le_encode in E1.
  destruct (store_bytes_mapped m1 (tag + 64) (le_encode 8 blob_phys)) as [m2 E2].
  { eapply frame_mapped; [exact E1|]. eapply mapped_sub; [exact Hm|lia|rewrite zlen_le_encode; lia]. }
  rewrite E2. cbn [mbind option_bind]. pose proof (store_bytes_at _ _ _ _ E2) as A2. apply frame_store in E2 as F2.
  rewrite zlen_le_encode in F2.
  destruct (store_bytes_mapped m2 (tag + 104) (le_encode 8 crc)) as [m3 E3].
  { eapply frame_mapped; [exact F2|]. eapply frame_mapped; [exact E1|].
    eapply mapped_sub; [exact Hm|lia|rewrite zlen_le_encode; lia]. }
  pose proof (store_bytes_at _ _ _ _ E3) as A3. apply frame_store in E3 as F3. rewrite zlen_le_encode in F3.
  exists m3. split; [done|]. split; [|split_and!; [|eapply frame_bytes_at; [exact F3|rewrite zlen_le_encode; lia|done]|done]].
  - eapply frame_trans; [eapply frame_weaken; [exact E1|lia|lia]|].
    eapply frame_trans; [eapply frame_weaken; [exact F2|lia|lia]|].
    eapply frame_weaken; [exact F3|lia|lia].
  - eapply frame_bytes_at; [exact F3|rewrite zlen_app, Hl, zlen_le_encode; lia|].
    eapply frame_bytes_at; [exact F2|rewrite zlen_app, Hl, zlen_le_encode; lia|done].
Qed.

(** ** Validation *)

Lemma name_has_nul_spec m a ns : bytes_at m a ns -> exists b, name_has_nul m a (length ns) = Some b.
Proof.
  revert a. induction ns as [|c ns IH]; intros a Hat; cbn [length name_has_nul]; [by eexists|].
  apply bytes_at_cons in Hat as [-> Hat]. cbn [mbind option_bind].
  destruct (byte_Z c =? 0); [by eexists|]. by apply IH.
Qed.

(** The name of a source can be read when its length is acceptable. *)
Definition readable (m : mem) (records : Z) (s : bbp_security_source) : Prop :=
  0 < ss_component_name_length s < 64 -> exists ns, named m records s ns.

Lemma validate_source_spec m records s :
  0 <= ss_component_name_length s -> readable m records s ->
  exists st, validate_source m s = Some st /\ (st = BBP_SECURITY_OK -> exists ns, named m records s ns).
Proof.
  intros H0 Hr. unfold validate_source.
  repeat match goal with
  | |- context [if ?c then Some _ else _] => destruct c eqn:?; [by eexists|]
  end.
  assert (0 < ss_component_name_length s < 64) as Hl by (bool_to_prop; lia).
  destruct (Hr Hl) as [ns Hn]. pose proof Hn as [[Hz _] Hb _].
  replace (Z.to_nat (ss_component_name_length s)) with (length ns) by (unfold zlen in Hz; lia).
  destruct (name_has_nul_spec _ _ _ Hb) as [b ->]. cbn [mbind option_bind]. eexists. split; [reflexivity|].
  intros _. by exists ns.
Qed.

Lemma source_loop_spec m records all n : forall i,
  (i + n <= length all)%nat ->
  Forall (fun s => 0 <= ss_component_name_length s /\ readable m records s) all ->
  exists st, validate_loop m all i n = Some st /\
    (st = BBP_SECURITY_OK -> exists nss, Forall2 (named m records) (take n (drop i all)) nss).
Proof.
  induction n as [|n IH]; intros i Hi Hall; cbn [validate_loop].
  { exists BBP_SECURITY_OK. split; [done|]. intros _. exists []. constructor. }
  destruct (lookup_lt_is_Some_2 all i) as [s Hs]; [lia|]. rewrite Hs. cbn [mbind option_bind].
  destruct (Forall_lookup_1 _ _ _ _ Hall Hs) as [H0 Hr].
  destruct (validate_source_spec m records s H0 Hr) as (st & -> & Hst). cbn [mbind option_bind].
  destruct (decide (st = BBP_SECURITY_OK)) as [->|Hne]; cycle 1.
  { rewrite bool_decide_eq_false_2 by done. by exists st. }
  rewrite bool_decide_eq_true_2 by done. cbn [negb].
  destruct (IH (S i) ltac:(lia) Hall) as (st & -> & Hok). exists st. split; [done|]. intros E.
  destruct (Hst eq_refl) as [ns Hns]. destruct (Hok E) as [nss Hnss].
  exists (ns :: nss). rewrite (drop_S _ _ _ Hs). cbn [take]. by constructor.
Qed.

Lemma validate_sources_spec m records sources count :
  0 <= count -> (count <= 32 -> (Z.to_nat count <= length (snd sources))%nat) ->
  Forall (fun s => 0 <= ss_component_name_length s /\ readable m records s) (snd sources) ->
  exists st, validate_sources m sources count = Some st /\
    (st = BBP_SECURITY_OK -> 0 < count <= 32 /\
       exists nss, Forall2 (named m records) (take (Z.to_nat count) (snd sources)) nss).
Proof.
  intros H0 Hlen Hall. unfold validate_sources. sconsts. destruct (_ || _) eqn:G; [by eexists|].
  apply orb_false_iff in G as [G1 G2]. apply Z.eqb_neq in G1. apply Z.ltb_ge in G2.
  destruct (pointer_span_valid _ _); [|by eexists].
  destruct (source_loop_spec m records (snd sources) (Z.to_nat count) 0) as (st & -> & Hst);
    [cbn; by apply Hlen|done|].
  exists st. split; [done|]. intros E. split; [lia|]. by apply Hst.
Qed.

(** The builder and the plan [validate_builder] accepts. *)
Record plan_ok (b : bbp_builder) (count : Z) (plan : bbp_security_plan) : Prop := PlanOk {
  po_arena : 0 < arena b /\ arena b + capacity b <= SIZE_MAX /\ overflow b = 0;
  po_phys : 0 < arena_phys b /\ arena_phys b + capacity b <= 2 ^ 48;
  po_used : 0 <= used b <= BBP_SECURITY_MAX_ARENA /\ used b <= capacity b;
  po_count : 0 <= tag_count b < 1024;
  po_last : tag_count b = 0 /\ last b = 0 /\ first_phys b = 0 \/
    tag_count b <> 0 /\ arena b <= last b /\ last b + 32 <= arena b + used b;
  po_plan : plan = SecurityPlan (round_up 8 (used b)) (round_up 8 (used b) + 144 * count)
    (round_up 8 (round_up 8 (used b) + 144 * count))
    (round_up 8 (round_up 8 (used b) + 144 * count) + 128) (144 * count);
  po_fits : tag_end plan <= capacity b /\ tag_end plan <= BBP_SECURITY_MAX_ARENA;
}.

Lemma plan_layout_spec b count :
  0 <= count <= 32 -> 0 <= used b <= BBP_SECURITY_MAX_ARENA ->
  match plan_layout b count with
  | inl st => st <> BBP_SECURITY_OK
  | inr plan =>
      plan = SecurityPlan (round_up 8 (used b)) (round_up 8 (used b) + 144 * count)
        (round_up 8 (round_up 8 (used b) + 144 * count))
        (round_up 8 (round_up 8 (used b) + 144 * count) + 128) (144 * count) /\
      tag_end plan <= capacity b /\ tag_end plan <= BBP_SECURITY_MAX_ARENA
  end.
Proof.
  intros Hc Hu. unfold plan_layout, align8. sconsts. unfold SIZE_MAX.
  pose proof (round_up_bounds 8 (used b) ltac:(lia)) as H1. rewrite (proj2 (Z.ltb_ge _ (used b))) by lia.
  rewrite (align8_up_eq (used b)) by (unfold SIZE_MAX; lia). set (o := round_up 8 (used b)) in *.
  destruct (2 ^ 64 - 1 - o <? count * 144); [done|].
  rewrite (proj2 (Z.ltb_ge _ (o + count * 144))) by lia.
  rewrite (align8_up_eq (o + count * 144)) by (unfold SIZE_MAX; lia).
  rewrite (Z.mul_comm count 144). set (t := round_up 8 (o + 144 * count)) in *.
  destruct (2 ^ 64 - 1 - t <? 128); [done|].
  destruct ((capacity b <? t + 128) || _) eqn:G; [done|].
  apply orb_false_iff in G as [G G']. apply Z.ltb_ge in G, G'.
  destruct (2 ^ 48 - arena_phys b <? t + 128); [done|]. destruct (_ <? t + 128 - o); [done|].
  split; [done|]. by split.
Qed.

Lemma validate_builder_spec m b count :
  0 <= count <= 32 -> 0 <= arena b -> 0 <= arena_phys b -> 0 <= used b -> 0 <= tag_count b ->
  mapped m (arena b) (capacity b) ->
  exists r, validate_builder m (Some b) count = Some r /\
    match r with inl st => st <> BBP_SECURITY_OK | inr plan => plan_ok b count plan end.
Proof.
  intros Hc Ha Hph Hu Ht Hm. unfold validate_builder.
  destruct (_ || _) eqn:G; [by eexists (inl _)|]. bool_to_prop. sconsts.
  assert (exists ok, chain_consistent m b = Some ok /\ (ok = true ->
    tag_count b = 0 /\ last b = 0 /\ first_phys b = 0 \/
    tag_count b <> 0 /\ arena b <= last b /\ last b + 32 <= arena b + used b)) as (ok & -> & Hok).
  { unfold chain_consistent. destruct (Z.eqb_spec (tag_count b) 0) as [E|E].
    - eexists. split; [reflexivity|]. intros Hx. left. bool_to_prop. lia.
    - destruct (_ || _) eqn:G in |- *; [by exists false|]. bool_to_prop. ssizes.
      destruct (mapped_load_le m (last b + 16) 8) as (v & Hv & _).
      { eapply mapped_sub; [exact Hm|lia|lia]. }
      unfold load64. rewrite Hv. cbn [mbind option_bind]. eexists. split; [reflexivity|].
      intros _. right. lia. }
  cbn [mbind option_bind]. destruct ok; [|by eexists (inl _)]. specialize (Hok eq_refl).
  destruct (Z.leb_spec 1024 (tag_count b)); [by eexists (inl _)|].
  pose proof (plan_layout_spec b count ltac:(lia)) as Hp. sconsts. unfold SIZE_MAX in *.
  eexists. split; [reflexivity|]. destruct (plan_layout b count) as [st|plan]; [apply Hp; lia|].
  destruct Hp as [-> Hfit]; [lia|]. constructor; try done; sconsts; unfold SIZE_MAX; lia.
Qed.
