(* ===== verification/SecurityPublish.v ===== *)
(** * The collector's publication

    The contract of the arena callback ([ArenaAllocator]), that the adapter
    for the real arena honours it, that the rollback undoes whatever an
    allocator keeping the contract has done, and how publication ends. *)

From S2P Require Import Prelude Memory Crc64 Abi KernelParser KernelFacts Builder BuilderFacts Handoff Import ImportEmit Security SecurityFacts.

(** ** What an allocator may do *)

(** Since [m], memory changed only in the arena's bytes [lo, hi) and in the
    link of the builder's last tag. *)
Definition touched (b : bbp_builder) (lo hi : Z) (m m' : mem) : Prop :=
  same_dom m m' /\ forall x, ~ (arena b + lo <= x < arena b + hi) ->
    (last b <> 0 -> ~ (last b + 16 <= x < last b + 24)) -> m' !! x = m !! x.

Lemma touched_refl b lo hi m : touched b lo hi m m.
Proof. by split. Qed.

Lemma touched_trans b lo hi m1 m2 m3 :
  touched b lo hi m1 m2 -> touched b lo hi m2 m3 -> touched b lo hi m1 m3.
Proof. intros [D1 F1] [D2 F2]. split; [by etrans|]. intros x H1 H2. by rewrite F2, F1. Qed.

Lemma touched_weaken b b' lo hi lo' hi' m m' :
  arena b' = arena b -> last b' = last b -> lo <= lo' -> hi' <= hi ->
  touched b' lo' hi' m m' -> touched b lo hi m m'.
Proof.
  intros Ea El Hl Hh [D F]. split; [done|]. intros x H1 H2. apply F; [rewrite Ea; lia|by rewrite El].
Qed.

(** The callback uses the supplied builder: it does not move the arena, writes
    no more than the bytes asked for at the next free place and the link of
    the last tag, and returns. *)
Class ArenaAllocator {U : Type}
    (allocate : U -> mem -> bbp_builder -> bbp_security_arena_object -> Z -> Z ->
                option (U * mem * bbp_builder * Z * Z)) : Prop :=
  allocate_contract : forall u m b object source bytes,
    0 <= used b -> 0 <= bytes -> mapped m (arena b) (capacity b) ->
    (last b <> 0 -> mapped m (last b + 16) 8) -> (source <> 0 -> mapped m source bytes) ->
    exists u' m' b' p phys,
      allocate u m b object source bytes = Some (u', m', b', p, phys) /\ same_arena b b' /\
      touched b (round_up 8 (used b)) (round_up 8 (used b) + bytes) m m'.

(** The adapter as a callback: the collector passes its own [out_phys], whose
    initial value is 0. *)
Definition builder_callback {U} (u : U) (m : mem) (b : bbp_builder)
    (object : bbp_security_arena_object) (source bytes : Z) : option (U * mem * bbp_builder * Z * Z) :=
  match bbp_security_builder_allocate m (Some b) object source bytes (Some 0) with
  | Some (m, Some b, p, Some phys) => Some (u, m, b, p, phys)
  | _ => None
  end.

Lemma arena_bump_place b len b' r :
  0 <= used b -> arena_bump b len = (b', r) ->
  same_arena b b' /\ last b' = last b /\
  match r with
  | None => True
  | Some (p, _) => p = arena b + round_up 8 (used b) /\ round_up 8 (used b) + len <= capacity b
  end.
Proof.
  intros Hu H. unfold arena_bump in H.
  destruct (_ || _ || _) eqn:G1 in H; [by injection H as <- <-|].
  destruct (_ || _) eqn:G2 in H; [by injection H as <- <-|].
  destruct (_ || _) eqn:G3 in H; [by injection H as <- <-|].
  destruct (_ <? len) in H; [by injection H as <- <-|]. injection H as <- <-.
  bool_to_prop. bconsts. rewrite align8_up_eq in * by (unfold SIZE_MAX; lia).
  split_and!; [done..|lia].
Qed.

Lemma mem_copy_mapped m d s n :
  mapped m d (Z.of_nat n) -> mapped m s (Z.of_nat n) -> exists m', mem_copy m d s n = Some m'.
Proof.
  revert m d s. induction n as [|n IH]; intros m d s Hd Hs; [by eexists|]. cbn [mem_copy].
  destruct (Hs s) as [c ->]; [lia|]. cbn [mbind option_bind].
  destruct (store_bytes_mapped m d [c]) as [m1 E]; [intros x Hx; apply Hd; unfold zlen in Hx; cbn in Hx; lia|].
  pose proof (store_bytes_same_dom _ _ _ _ E) as D. cbn [store_bytes] in E.
  apply bind_Some in E as (m2 & E & [= ->]). rewrite E. cbn [mbind option_bind].
  apply IH; intros x Hx; apply D; [apply Hd|apply Hs]; lia.
Qed.

Lemma touched_frame b lo n m m' : frame (arena b + lo) n m m' -> touched b lo (lo + n) m m'.
Proof. intros [D F]. split; [done|]. intros x Hx _. apply F. lia. Qed.

(** Nothing was written. *)
Ltac unchanged := split_and!; [done|done|apply touched_refl].

Lemma blob_contract m b source bytes :
  0 <= used b -> 0 <= bytes -> mapped m (arena b) (capacity b) ->
  (source <> 0 -> mapped m source bytes) ->
  exists m' b' phys, bbp_arena_blob m (Some b) source bytes = Some (m', Some b', phys) /\
    same_arena b b' /\ touched b (round_up 8 (used b)) (round_up 8 (used b) + bytes) m m'.
Proof.
  intros Hu Hb Hm Hs. unfold bbp_arena_blob.
  destruct ((source =? 0) && _) eqn:G1; [exists m, (set_overflow b), 0; unchanged|].
  destruct (bytes =? 0) eqn:G2; [exists m, b, 0; unchanged|].
  destruct (arena_bump b bytes) as [b1 r] eqn:Eb.
  apply (arena_bump_place _ _ _ _ Hu) in Eb as (Ha & _ & Hr).
  destruct r as [[p phys]|]; [|exists m, b1, 0; unchanged]. destruct Hr as [-> Hfit].
  pose proof (round_up_bounds 8 (used b) ltac:(lia)).
  assert (source <> 0) as Hs0 by (intros ->; cbn in G1; done).
  destruct (mem_copy_mapped m (arena b + round_up 8 (used b)) source (Z.to_nat bytes)) as [m' E].
  - eapply mapped_sub; [exact Hm|lia|lia].
  - rewrite Z2Nat.id by lia. by apply Hs.
  - rewrite E. cbn [mbind option_bind]. exists m', b1, phys. split_and!; [done..|].
    apply touched_frame. split; [by eapply mem_copy_same_dom|]. intros x Hx.
    eapply mem_copy_frame; [exact E|lia].
Qed.

Lemma tag_contract m b id ver bytes :
  0 <= used b -> mapped m (arena b) (capacity b) -> (last b <> 0 -> mapped m (last b + 16) 8) ->
  exists m' b' p, bbp_alloc_tag m (Some b) id ver bytes = Some (m', Some b', p) /\
    same_arena b b' /\ touched b (round_up 8 (used b)) (round_up 8 (used b) + bytes) m m'.
Proof.
  intros Hu Hm Hl. unfold bbp_alloc_tag.
  destruct (_ || _) eqn:G; [exists m, (set_overflow b), 0; unchanged|].
  destruct (arena_bump b bytes) as [b1 r] eqn:Eb.
  apply (arena_bump_place _ _ _ _ Hu) in Eb as (Ha & El & Hr).
  destruct r as [[p phys]|]; [|exists m, b1, 0; unchanged]. destruct Hr as [-> Hfit].
  pose proof (round_up_bounds 8 (used b) ltac:(lia)). bool_to_prop. bconsts.
  set (o := round_up 8 (used b)) in *.
  rewrite (store_header m (arena b + o) (Tag o id ver (wrap32 bytes))).
  set (bs := hdr_bytes _ 0 ++ le_encode 8 0). assert (zlen bs = 32) as Hz by done. clearbody bs.
  destruct (store_bytes_mapped m (arena b + o) bs) as [m1 E1].
  { rewrite Hz. eapply mapped_sub; [exact Hm|lia|lia]. }
  rewrite E1. cbn [mbind option_bind]. apply frame_store in E1. rewrite Hz in E1.
  assert (touched b o (o + bytes) m m1) as T1
    by (apply touched_frame; eapply frame_weaken; [exact E1|lia|lia]).
  rewrite El. destruct (Z.eqb_spec (last b) 0) as [E0|E0]; cbn [negb].
  { cbn [mbind option_bind]. by eexists _, _, _. }
  destruct (store_bytes_mapped m1 (last b + 16) (le_encode 8 phys)) as [m2 E2].
  { rewrite zlen_le_encode. eapply frame_mapped; [exact E1|]. by apply Hl. }
  unfold store64. rewrite E2. cbn [mbind option_bind]. eexists _, _, _. split_and!; [reflexivity|done|].
  eapply touched_trans; [exact T1|]. apply frame_store in E2 as [D F]. rewrite zlen_le_encode in F.
  split; [done|]. intros x _ Hx. apply F. specialize (Hx E0). lia.
Qed.

#[global] Instance builder_callback_contract {U} : ArenaAllocator (@builder_callback U).
Proof.
  intros u m b object source bytes Hu Hb Hm Hl Hs. unfold builder_callback, bbp_security_builder_allocate.
  destruct object.
  - destruct (blob_contract m b source bytes Hu Hb Hm Hs) as (m' & b' & phys & -> & Ha & T).
    cbn [mbind option_bind]. destruct (phys =? 0); cbn [mbind option_bind]; by eexists _, _, _, _, _.
  - destruct (negb (source =? 0) || _); [exists u, m, b, 0, 0; unchanged|].
    destruct (tag_contract m b BBP_TAG_SECURITY BBP_SECURITY_TAG_VERSION bytes Hu Hm Hl) as
      (m' & b' & p & -> & Ha & T).
    cbn [mbind option_bind]. destruct (p =? 0); cbn [mbind option_bind]; by eexists _, _, _, _, _.
Qed.

(** ** Ready to publish *)

(** The inputs passed validation, and the objects involved are apart. *)
Record ready (m : mem) (b : bbp_builder) (count : Z) (plan : bbp_security_plan)
    (records out_tag : Z) : Prop := Ready {
  rd_count : 0 < count <= 32;
  rd_plan : plan_ok b count plan;
  rd_arena : mapped m (arena b) (capacity b);
  rd_records : mapped m records RECORDS /\ 0 < records;
  rd_apart : records + RECORDS <= arena b \/ arena b + capacity b <= records;
  rd_out : mapped m out_tag 8;
  rd_out_apart : out_tag + 8 <= arena b \/ arena b + capacity b <= out_tag;
}.

(** The numbers of a plan. *)
Lemma plan_bounds b count plan :
  0 < count -> plan_ok b count plan ->
  used b <= blob_start plan /\ blob_end plan = blob_start plan + log_bytes plan /\
  log_bytes plan = 144 * count /\ blob_end plan <= tag_start plan /\ tag_end plan = tag_start plan + 128 /\
  round_up 8 (used b) = blob_start plan /\ round_up 8 (blob_end plan) = tag_start plan.
Proof.
  intros Hc [_ _ [[Hu _] _] _ _ -> _]. cbn [blob_start blob_end tag_start tag_end log_bytes].
  pose proof (round_up_bounds 8 (used b) ltac:(lia)).
  pose proof (round_up_bounds 8 (round_up 8 (used b) + 144 * count) ltac:(lia)). lia.
Qed.

(** The state the collector saves before it starts. *)
Record saved (m : mem) (b : bbp_builder) (plan : bbp_security_plan) (backup : list byte)
    (next : Z) : Prop := Saved {
  sv_bytes : load_bytes m (arena b + blob_start plan) (Z.to_nat (tag_end plan - blob_start plan)) = Some backup;
  sv_next : last b <> 0 -> load64 m (last b + 16) = Some next;
}.

Lemma bytes_at_agree m m' a bs x :
  bytes_at m a bs -> bytes_at m' a bs -> a <= x < a + zlen bs -> m' !! x = m !! x.
Proof.
  intros H H' Hx. unfold zlen in Hx.
  destruct (lookup_lt_is_Some_2 bs (Z.to_nat (x - a))) as [c Hc]; [lia|].
  replace x with (a + Z.of_nat (Z.to_nat (x - a))) by lia. by rewrite (H _ _ Hc), (H' _ _ Hc).
Qed.

(** Rolling back restores the memory outside the records, and the builder. *)
Lemma rollback_restores {U} m0 m1 (w : world U) b count plan records out_tag backup next :
  ready m0 b count plan records out_tag -> saved m0 b plan backup next ->
  frame records RECORDS m0 m1 -> touched b (blob_start plan) (tag_end plan) m1 (w_mem w) ->
  arena (w_builder w) = arena b ->
  exists m', rollback_publish w b (blob_start plan) backup next =
    Some (World m' b (w_user w) (w_log w)) /\ frame records RECORDS m0 m'.
Proof.
  intros [Hc Hp Hma Hmr Hap _ _] [Hbk Hnx] [D1 F1] [D2 F2] Ea. unfold rollback_publish. rewrite Ea.
  destruct (plan_bounds _ _ _ (proj1 Hc) Hp) as (? & ? & ? & ? & ? & _).
  destruct Hp as [[? [? _]] _ [[? _] ?] _ Hlast _ [Hfit _]].
  set (n := Z.to_nat (tag_end plan - blob_start plan)) in *.
  apply load_bytes_at in Hbk as [Hlen Hbk].
  assert (zlen backup = tag_end plan - blob_start plan) as Hz by (unfold zlen; lia).
  destruct (store_bytes_mapped (w_mem w) (arena b + blob_start plan) backup) as [m2 E2].
  { rewrite <- D2, <- D1, Hz. eapply mapped_sub; [exact Hma|lia|lia]. }
  rewrite E2. cbn [mbind option_bind]. pose proof (store_bytes_at _ _ _ _ E2) as A2.
  apply frame_store in E2 as [D3 F3].
  assert (forall x, ~ (records <= x < records + RECORDS) ->
    (last b <> 0 -> ~ (last b + 16 <= x < last b + 24)) -> m2 !! x = m0 !! x) as Hrest.
  { intros x Hx Hl. destruct (decide (arena b + blob_start plan <= x < arena b + tag_end plan)) as [Hin|Hout].
    - eapply bytes_at_agree; [exact Hbk|exact A2|lia].
    - rewrite F3 by lia. rewrite F2 by (done || lia). by apply F1. }
  destruct (Z.eqb_spec (last b) 0) as [E0|E0]; cbn [negb].
  { cbn [mbind option_bind]. eexists. split; [reflexivity|]. split; [by etrans; [|etrans]|].
    intros x Hx. by apply Hrest. }
  pose proof (load_le_bytes_at _ _ _ _ (Hnx E0)) as Hn.
  destruct (store_bytes_mapped m2 (last b + 16) (le_encode 8 next)) as [m3 E3].
  { rewrite <- D3, <- D2, <- D1. by apply bytes_at_mapped. }
  unfold store64. rewrite E3. cbn [mbind option_bind]. eexists. split; [reflexivity|].
  pose proof (store_bytes_at _ _ _ _ E3) as A3. apply frame_store in E3 as [D4 F4].
  split; [by etrans; [|etrans; [|etrans]]|]. intros x Hx.
  destruct (decide (last b + 16 <= x < last b + 24)) as [Hin|Hout].
  - eapply bytes_at_agree; [exact Hn|exact A3|rewrite zlen_le_encode; lia].
  - rewrite F4 by (rewrite zlen_le_encode; lia). by apply Hrest.
Qed.

(** ** The checks on what the allocator returned *)

Lemma blob_published_spec {U} (w : world U) b plan blob phys log :
  mapped (w_mem w) (arena (w_builder w) + blob_start plan) (zlen log) ->
  exists ok, blob_published w b plan blob phys log = Some ok /\ (ok = true ->
    blob = arena (w_builder w) + blob_start plan /\
    phys = wrap64 (arena_phys (w_builder w) + blob_start plan) /\ used (w_builder w) = blob_end plan /\
    tag_count (w_builder w) = tag_count b /\ last (w_builder w) = last b /\
    first_phys (w_builder w) = first_phys b /\ overflow (w_builder w) = 0 /\ bytes_at (w_mem w) blob log).
Proof.
  intros Hm. unfold blob_published. destruct (_ || _) eqn:G; [by exists false|]. bool_to_prop. subst blob.
  destruct (mapped_load (w_mem w) (arena (w_builder w) + blob_start plan) (length log)) as [xs Hx]; [done|].
  rewrite (bytes_equal_spec _ _ _ _ Hx). eexists. split; [reflexivity|]. intros Hd.
  apply bool_decide_eq_true in Hd as ->. apply load_bytes_at in Hx as [_ Hx]. by split_and!.
Qed.

(** The builder after a complete publication. *)
Definition builder_after (b : bbp_builder) (plan : bbp_security_plan) : bbp_builder :=
  Builder (arena b) (arena_phys b) (capacity b) (tag_end plan) (arena b + tag_start plan)
    (if tag_count b =? 0 then arena_phys b + tag_start plan else first_phys b) (tag_count b + 1) 0.

(** The header and the links the collector checks. *)
Definition tag_linked (m : mem) (b : bbp_builder) (plan : bbp_security_plan) : Prop :=
  let tag := arena b + tag_start plan in
  load64 m tag = Some BBP_TAG_SECURITY /\ load32 m (tag + 8) = Some 128 /\
  load16 m (tag + 12) = Some BBP_SECURITY_TAG_VERSION /\ load64 m (tag + 16) = Some 0 /\
  (tag_count b <> 0 -> load64 m (last b + 16) = Some (arena_phys b + tag_start plan)).

Lemma builder_eq b b' :
  same_arena b b' -> forall u l f c o,
  used b' = u -> last b' = l -> first_phys b' = f -> tag_count b' = c -> overflow b' = o ->
  b' = Builder (arena b) (arena_phys b) (capacity b) u l f c o.
Proof. destruct b, b'. intros (E1 & E2 & E3) *. cbn in *. by intros -> -> -> -> ->; subst. Qed.

Lemma wrap_phys b count plan o :
  plan_ok b count plan -> 0 <= o -> o <= capacity b -> wrap64 (arena_phys b + o) = arena_phys b + o.
Proof. intros [_ [? ?] _ _ _ _ _] Hn Ho. apply wrap_small. unfold in_word. lia. Qed.

Lemma mapped_load64 m a : mapped m a 8 -> exists v, load64 m a = Some v.
Proof. intros H. destruct (mapped_load_le m a 8 H) as (v & E & _). by exists v. Qed.

Lemma tag_published_spec {U} (w : world U) b count plan tag phys :
  0 < count -> plan_ok b count plan -> same_arena b (w_builder w) ->
  mapped (w_mem w) (arena b) (capacity b) ->
  exists ok, tag_published w b plan tag phys = Some ok /\ (ok = true ->
    tag = arena b + tag_start plan /\ w_builder w = builder_after b plan /\ tag_linked (w_mem w) b plan).
Proof.
  intros Hc Hp Ha Hm. destruct (plan_bounds _ _ _ Hc Hp) as (? & ? & ? & ? & ? & _).
  pose proof Hp as [[? [? _]] _ [[? _] ?] Hcnt Hlast _ [Hfit _]]. unfold tag_published. cbn zeta. ssizes.
  destruct (_ || _) eqn:G; [by exists false|]. pose proof Ha as (Ea & Eph & Ecap). bool_to_prop.
  rewrite Ea, Eph in *. subst tag phys. rewrite (wrap_phys _ _ _ _ Hp) by lia.
  set (t := arena b + tag_start plan) in *. set (m := w_mem w) in *.
  assert (forall o n, 0 <= o -> o + Z.of_nat n <= 128 -> exists v, load_le m (t + o) n = Some v) as Hld.
  { intros o n Hlo Hhi. destruct (mapped_load_le m (t + o) n) as (v & Hv & _); [|by exists v].
    eapply mapped_sub; [exact Hm|unfold t; lia|unfold t; lia]. }
  destruct (Hld 0 8%nat) as [v0 E0]; [lia|lia|]. rewrite Z.add_0_r in E0.
  destruct (Hld 8 4%nat) as [v1 E1]; [lia|lia|]. destruct (Hld 12 2%nat) as [v2 E2]; [lia|lia|].
  destruct (Hld 16 8%nat) as [v3 E3]; [lia|lia|].
  unfold tag_linked. fold t. unfold load64, load32, load16. rewrite E0, E1, E2, E3. cbn [mbind option_bind].
  destruct (Z.eqb_spec v0 BBP_TAG_SECURITY) as [->|]; [|by exists false].
  destruct (Z.eqb_spec v1 128) as [->|]; [|by exists false].
  destruct (Z.eqb_spec v2 BBP_SECURITY_TAG_VERSION) as [->|]; [|by exists false].
  destruct (Z.eqb_spec v3 0) as [->|]; [|by exists false].
  assert (wrap32 (tag_count b + 1) = tag_count b + 1) as Hw by (apply wrap_small; unfold in_word; lia).
  unfold builder_after. destruct (Z.eqb_spec (tag_count b) 0) as [Z0|Z0].
  - eexists. split; [reflexivity|]. intros E. apply Z.eqb_eq in E. split_and!; try done.
    apply (builder_eq b); [done|done|done|done|lia|done].
  - destruct (Z.eqb_spec (first_phys (w_builder w)) (first_phys b)) as [Ef|]; [|by exists false].
    destruct (mapped_load64 m (last b + 16)) as [v Hv]; [eapply mapped_sub; [exact Hm|lia|lia]|].
    unfold load64 in Hv. rewrite Hv. cbn [mbind option_bind]. eexists. split; [reflexivity|].
    intros E. apply Z.eqb_eq in E as ->. split_and!; try done.
    apply (builder_eq b); [done|done|done|done|lia|done].
Qed.

(** ** A complete publication *)

Record published (m m' : mem) (b : bbp_builder) (plan : bbp_security_plan)
    (p : bbp_security_platform) (count : Z) (log : list byte) (records out_tag : Z) : Prop := Published {
  pb_record : bytes_at m' (arena b + blob_start plan) log;
  pb_linked : tag_linked m' b plan;
  pb_body : tag_body m' (arena b + tag_start plan) p count (arena_phys b + blob_start plan) (crc64_of log);
  pb_sealed : bbp_tag_crc_ok m' (arena b + tag_start plan) = Some true;
  pb_out : load64 m' out_tag = Some (arena b + tag_start plan);
  pb_rest : forall x, ~ (records <= x < records + RECORDS) -> ~ (out_tag <= x < out_tag + 8) ->
    ~ (arena b + blob_start plan <= x < arena b + tag_end plan) ->
    (last b <> 0 -> ~ (last b + 16 <= x < last b + 24)) -> m' !! x = m !! x;
}.

Lemma tag_linked_same m m' b count plan :
  0 < count -> plan_ok b count plan ->
  (forall a n, arena b <= a -> a + Z.of_nat n <= arena b + tag_start plan + 24 -> load_le m' a n = load_le m a n) ->
  tag_linked m b plan -> tag_linked m' b plan.
Proof.
  intros Hc Hp L (H1 & H2 & H3 & H4 & H5). destruct (plan_bounds _ _ _ Hc Hp) as (? & ? & ? & ? & ? & _).
  destruct Hp as [_ _ [[? _] _] _ Hlast _ _].
  split_and!; [..|intros Hne; rewrite <- H5 by done]; unfold load64, load32, load16; rewrite L; try done; lia.
Qed.

Lemma tag_body_frame a n m m' tag p count phys crc :
  frame a n m m' -> a + n <= tag + 32 \/ tag + 128 <= a -> tag_body m tag p count phys crc ->
  tag_body m' tag p count phys crc.
Proof.
  intros F Hd (H1 & H2 & H3).
  split_and!; eapply frame_bytes_at; try done; autorewrite with zlen; try rewrite zlen_platform_bytes; lia.
Qed.

(** The last steps: the body, the checksum and the result. *)
Lemma finish_spec m b count plan p log out_tag :
  0 < count -> plan_ok b count plan -> mapped m (arena b) (capacity b) -> mapped m out_tag 8 ->
  (out_tag + 8 <= arena b \/ arena b + capacity b <= out_tag) ->
  zlen log = log_bytes plan -> bytes_at m (arena b + blob_start plan) log -> tag_linked m b plan ->
  let tag := arena b + tag_start plan in let phys := arena_phys b + blob_start plan in
  exists m', (m ← fill_tag m tag p count phys (crc64_of log); m ← bbp_seal_tag m tag; store64 m out_tag tag) = Some m' /\
    bytes_at m' (arena b + blob_start plan) log /\ tag_linked m' b plan /\
    tag_body m' tag p count phys (crc64_of log) /\ bbp_tag_crc_ok m' tag = Some true /\
    load64 m' out_tag = Some tag /\ same_dom m m' /\
    (forall x, ~ (tag + 24 <= x < tag + 128) -> ~ (out_tag <= x < out_tag + 8) -> m' !! x = m !! x).
Proof.
  intros Hc Hp Hm Hmo Hap Hz Hlog Hlk tag phys.
  destruct (plan_bounds _ _ _ Hc Hp) as (? & ? & ? & ? & ? & _).
  pose proof Hp as [[? [? _]] _ [[? _] ?] _ Hlast _ [Hfit _]]. unfold SIZE_MAX in *.
  destruct (fill_tag_spec m tag p count phys (crc64_of log)) as (m1 & -> & F1 & B1).
  { eapply mapped_sub; [exact Hm|lia|lia]. }
  cbn [mbind option_bind].
  assert (load32 m1 (tag + 8) = Some 128) as S1.
  { destruct Hlk as (_ & Hs & _). rewrite <- Hs. unfold load32, load_le. by rewrite (frame_load _ _ _ _ _ _ F1) by lia. }
  destruct (bbp_seal_tag_spec m1 tag 128 S1) as (m2 & bs & -> & D2 & L2 & Hs2 & F2); [lia| |].
  { eapply frame_mapped; [exact F1|]. eapply mapped_sub; [exact Hm|lia|lia]. }
  cbn [mbind option_bind].
  destruct (store_bytes_mapped m2 out_tag (le_encode 8 tag)) as [m3 E3].
  { rewrite zlen_le_encode, <- D2. by eapply frame_mapped. }
  unfold store64. exists m3. split; [exact E3|]. pose proof (store_bytes_at _ _ _ _ E3) as A3.
  apply frame_store in E3 as F3. rewrite zlen_le_encode in F3. change (Z.of_nat 8) with 8 in F3.
  assert (frame (tag + 24) 8 m1 m2) as F2' by (split; [done|]; intros x Hx; apply F2; lia).
  assert (frame (tag + 24) 104 m m2) as Fm.
  { eapply frame_trans; [eapply frame_weaken; [exact F1|lia|lia]|eapply frame_weaken; [exact F2'|lia|lia]]. }
  assert (forall a n, arena b <= a -> a + Z.of_nat n <= arena b + capacity b ->
    load_le m3 a n = load_le m2 a n) as L3.
  { intros a n ? ?. unfold load_le. by rewrite (frame_load _ _ _ _ _ _ F3) by lia. }
  assert (forall a n, arena b <= a -> a + Z.of_nat n <= tag + 24 -> load_le m3 a n = load_le m a n) as L.
  { intros a n ? ?. rewrite L3 by lia. unfold load_le. by rewrite (frame_load _ _ _ _ _ _ Fm) by lia. }
  split; [|split; [|split; [|split; [|split; [|split]]]]].
  - eapply frame_bytes_at; [exact F3|lia|]. eapply frame_bytes_at; [exact Fm|lia|done].
  - eapply tag_linked_same; [exact Hc|exact Hp|exact L|exact Hlk].
  - eapply tag_body_frame; [exact F3|lia|]. by eapply tag_body_frame; [exact F2'|lia|].
  - rewrite (bbp_tag_crc_ok_spec _ _ 128 bs); [by rewrite bool_decide_eq_true_2| |lia|].
    + unfold load32. rewrite L by lia. by destruct Hlk as (_ & Hs & _).
    + by rewrite (frame_load _ _ _ _ _ _ F3) by lia.
  - apply bytes_at_load_le; [unfold in_word; lia|done].
  - etrans; [apply Fm|apply F3].
  - intros x Hx Ho. destruct F3 as [_ F3], Fm as [_ Fm]. rewrite F3, Fm by lia. done.
Qed.

(** ** How publication ends *)

Section Publish.
Context {U : Type}.
Context (allocate : U -> mem -> bbp_builder -> bbp_security_arena_object -> Z -> Z ->
                    option (U * mem * bbp_builder * Z * Z)).
Context `{!ArenaAllocator allocate}.
Context (abort_hook : U -> bbp_security_status -> U).
Context (m0 : mem) (b : bbp_builder) (count : Z) (plan : bbp_security_plan) (records out_tag : Z).
Context (Hready : ready m0 b count plan records out_tag).

Definition allocated (e : event) : Prop := exists object p, e = ArenaAllocate object p.

(** Everything the collector did is undone and the abort hook was called. *)
Definition rolled_back (w w' : world U) : Prop :=
  w_builder w' = b /\ frame records RECORDS m0 (w_mem w') /\
  exists evs, Forall allocated evs /\
    w_log w' = w_log w ++ evs ++ [AbortCalled BBP_SECURITY_ERR_PUBLISH_AFTER_TPM].

Lemma last_mapped : last b <> 0 -> mapped m0 (last b + 16) 8.
Proof.
  destruct Hready as [_ [_ _ [[? _] ?] _ Hlast _ _] Hm _ _ _ _]. intros Hne.
  eapply mapped_sub; [exact Hm|lia|lia].
Qed.

Lemma give_back_spec w w1 m1 backup next evs :
  saved m0 b plan backup next -> frame records RECORDS m0 m1 ->
  touched b (blob_start plan) (tag_end plan) m1 (w_mem w1) -> arena (w_builder w1) = arena b ->
  w_log w1 = w_log w ++ evs -> Forall allocated evs ->
  exists w', give_back abort_hook w1 b plan backup next = Some (w', BBP_SECURITY_ERR_ABORT_RETURNED) /\
    rolled_back w w'.
Proof.
  unfold give_back. intros Hs F T Ea Hl He.
  destruct (rollback_restores m0 m1 w1 b count plan records out_tag backup next) as (m' & -> & F'); [done..|].
  cbn [mbind option_bind]. eexists. split; [reflexivity|]. split; [done|]. split; [done|].
  exists evs. split; [done|]. cbn [w_log]. by rewrite Hl, <- app_assoc.
Qed.

(** One call, made with the arena in place. *)
Lemma call_allocate_spec w object source bytes :
  same_arena b (w_builder w) -> last (w_builder w) = last b -> 0 <= used (w_builder w) -> 0 <= bytes ->
  same_dom m0 (w_mem w) -> (source <> 0 -> mapped (w_mem w) source bytes) ->
  exists w' p phys, call_allocate allocate w object source bytes = Some (w', p, phys) /\
    same_arena b (w_builder w') /\ w_log w' = w_log w ++ [ArenaAllocate object p] /\
    let o := round_up 8 (used (w_builder w)) in touched b o (o + bytes) (w_mem w) (w_mem w').
Proof.
  intros Ha El Hu Hb D Hs. unfold call_allocate.
  destruct (allocate_contract (w_user w) (w_mem w) (w_builder w) object source bytes) as
    (u' & m' & b' & p & phys & -> & Ha' & T); [done|done|..|done|].
  - destruct Ha as (-> & _ & ->). rewrite <- D. apply Hready.
  - intros Hne. rewrite El in *. rewrite <- D. by apply last_mapped.
  - cbn [mbind option_bind]. eexists _, p, phys. split; [reflexivity|]. cbn [w_builder w_log w_mem].
    split_and!; [by etrans|done|]. destruct Ha as (Ea & _). by eapply touched_weaken; [..|exact T].
Qed.

(** What publication may leave, after the calls [evs]. *)
Definition ends (w : world U) (evs : list event) (p : bbp_security_platform) (log : list byte)
    (w' : world U) (st : bbp_security_status) : Prop :=
  st = BBP_SECURITY_ERR_ABORT_RETURNED /\ rolled_back w w' \/
  st = BBP_SECURITY_OK /\ w_builder w' = builder_after b plan /\
  published m0 (w_mem w') b plan p count log records out_tag /\
  w_log w' = w_log w ++ evs ++ [ArenaAllocate BBP_SECURITY_ARENA_TAG (arena b + tag_start plan)].

Lemma publish_tag_spec w w1 backup next p log evs :
  saved m0 b plan backup next -> frame records RECORDS m0 (w_mem w) ->
  touched b (blob_start plan) (tag_end plan) (w_mem w) (w_mem w1) ->
  same_arena b (w_builder w1) -> last (w_builder w1) = last b -> used (w_builder w1) = blob_end plan ->
  zlen log = log_bytes plan -> bytes_at (w_mem w1) (arena b + blob_start plan) log ->
  w_log w1 = w_log w ++ evs -> Forall allocated evs ->
  exists w' st, publish_tag allocate abort_hook w1 b plan backup next p count
      (arena_phys b + blob_start plan) (crc64_of log) out_tag = Some (w', st) /\ ends w evs p log w' st.
Proof.
  intros Hsv F T1 Ha1 Hla1 Hu1 Hz Hlog Hl1 Hev. pose proof Hready as [[Hc Hc32] Hp Hma [Hmr Hr0] Hap Hmo Hoap].
  destruct (plan_bounds _ _ _ Hc Hp) as (? & ? & ? & ? & ? & Eo & Et).
  pose proof Hp as [[? [? _]] _ [[? _] ?] _ Hlast _ [Hfit _]]. unfold publish_tag.
  assert (same_dom m0 (w_mem w1)) as D1 by (etrans; [apply F|apply T1]).
  destruct (call_allocate_spec w1 BBP_SECURITY_ARENA_TAG 0 (sizeof bbp_tag_security)) as
    (w2 & tag & tphys & -> & Ha2 & Hl2 & T2); [done|done|lia|done|done|done|].
  cbn [mbind option_bind]. cbn zeta in T2. ssizes. rewrite Hu1, Et in T2.
  assert (touched b (blob_start plan) (tag_end plan) (w_mem w) (w_mem w2)) as T12
    by (eapply touched_trans; [exact T1|eapply touched_weaken; [..|exact T2]; done || lia]).
  assert (same_dom m0 (w_mem w2)) as D2 by (etrans; [apply F|apply T12]).
  destruct (tag_published_spec w2 b count plan tag tphys Hc Hp Ha2) as (ok & -> & Hok); [by rewrite <- D2|].
  cbn [mbind option_bind]. rewrite Hl1, <- app_assoc in Hl2. destruct ok; cycle 1.
  { destruct (give_back_spec w w2 (w_mem w) backup next _ Hsv F T12 (proj1 Ha2) Hl2) as (w' & -> & Hrb).
    - apply Forall_app. split; [done|]. repeat constructor. by eexists _, _.
    - exists w', BBP_SECURITY_ERR_ABORT_RETURNED. split; [done|]. by left. }
  destruct (Hok eq_refl) as (-> & Hb2 & Hlk).
  assert (bytes_at (w_mem w2) (arena b + blob_start plan) log) as Hlog2.
  { eapply bytes_at_same_on; [|exact Hlog]. intros x Hx. apply T2; lia. }
  destruct (finish_spec (w_mem w2) b count plan p log out_tag) as (m' & E & B1 & B2 & B3 & B4 & B5 & _ & B6);
    [done|done|by rewrite <- D2|by rewrite <- D2|done|done|done|done|].
  cbn zeta in E. apply bind_Some in E as (m3 & -> & E). cbn [mbind option_bind].
  apply bind_Some in E as (m4 & -> & E). cbn [mbind option_bind]. rewrite E. cbn [mbind option_bind].
  eexists _, _. split; [reflexivity|]. right. split; [done|]. split; [done|]. split; [|done].
  split; try done. intros x Hx1 Hx2 Hx3 Hx4. cbn [w_mem set_mem].
  rewrite B6 by lia. destruct T12 as [_ T12], F as [_ F]. rewrite T12 by done. by apply F.
Qed.

Lemma publish_spec w backup next p log :
  saved m0 b plan backup next -> w_builder w = b -> frame records RECORDS m0 (w_mem w) ->
  bytes_at (w_mem w) records log -> zlen log = log_bytes plan ->
  exists w' st, publish allocate abort_hook w b plan records backup next p count out_tag = Some (w', st) /\
    ends w [ArenaAllocate BBP_SECURITY_ARENA_MEASUREMENTS (arena b + blob_start plan)] p log w' st.
Proof.
  intros Hsv Hb F Hat Hz. pose proof Hready as [[Hc Hc32] Hp Hma [Hmr Hr0] Hap Hmo Hoap].
  destruct (plan_bounds _ _ _ Hc Hp) as (? & ? & ? & ? & ? & Eo & Et).
  pose proof Hp as [[? [? _]] _ [[? _] ?] _ Hlast _ [Hfit _]].
  assert (Z.to_nat (log_bytes plan) = length log) as Hn by (unfold zlen in Hz; lia).
  unfold publish. rewrite Hn, bbp_crc64_spec, (bytes_at_load _ _ _ Hat). cbn [mbind option_bind].
  destruct (Z.eqb_spec (crc64_of log) 0) as [E0|E0].
  { eexists _, _. split; [reflexivity|]. left. split; [done|]. split; [done|]. split; [done|]. by exists []. }
  destruct (call_allocate_spec w BBP_SECURITY_ARENA_MEASUREMENTS records (log_bytes plan)) as
    (w1 & blob & bphys & -> & Ha1 & Hl1 & T1); [by rewrite Hb|by rewrite Hb|by rewrite Hb|lia|apply F|..].
  { intros _. rewrite <- Hz. by apply bytes_at_mapped. }
  cbn [mbind option_bind]. cbn zeta in T1. rewrite Hb, Eo in T1.
  assert (touched b (blob_start plan) (tag_end plan) (w_mem w) (w_mem w1)) as T1'
    by (eapply touched_weaken; [..|exact T1]; done || lia).
  assert (bytes_at (w_mem w1) records log) as Hat1.
  { eapply bytes_at_same_on; [|exact Hat]. intros x Hx. apply T1; unfold RECORDS in *; lia. }
  rewrite (bytes_at_load _ _ _ Hat1). cbn [mbind option_bind].
  assert (same_dom m0 (w_mem w1)) as D1 by (etrans; [apply F|apply T1]).
  pose proof Ha1 as (Ea1 & Eph1 & _).
  destruct (blob_published_spec w1 b plan blob bphys log) as (ok & -> & Hok).
  { rewrite Ea1, <- D1. eapply mapped_sub; [exact Hma|lia|lia]. }
  cbn [mbind option_bind]. destruct ok; cycle 1.
  { edestruct (give_back_spec w w1) as (w' & -> & Hrb); [exact Hsv|exact F|exact T1'|done|exact Hl1| |].
    - repeat constructor. by eexists _, _.
    - exists w', BBP_SECURITY_ERR_ABORT_RETURNED. split; [done|]. by left. }
  destruct (Hok eq_refl) as (-> & -> & Hu1 & _ & Hla1 & _ & _ & Hlog). rewrite Eph1, (wrap_phys _ _ _ _ Hp) by lia.
  rewrite Ea1 in *. eapply publish_tag_spec; try done. repeat constructor. by eexists _, _.
Qed.
End Publish.
