(* ===== verification/SecurityLive.v ===== *)
(** * The collector with the real arena

    With the adapter [bbp_security_builder_allocate] and a builder that holds
    a well-formed chain, both allocations succeed and pass the collector's
    checks, so that publication completes and appends the tag to the chain. *)

From S2P Require Import Prelude Memory Crc64 Abi KernelParser KernelFacts Builder BuilderFacts Handoff Import ImportEmit Security SecurityFacts SecurityPublish.

(** ** Chains *)

Lemma set_used_same b : set_used b (used b) = b.
Proof. by destruct b. Qed.

(** A chain does not change when its headers do not. *)
Lemma rep_same m m' b ts :
  builder_rep m b ts -> same_dom m m' ->
  (forall t, In t ts -> same_on m m' (arena b + t_off t) 24) -> builder_rep m' b ts.
Proof.
  intros [? ? ? Hm ? ? Htags Hl ? ?] D Hs. split; try done; [by rewrite <- D|]. by eapply linked_frame.
Qed.

Lemma linked_in_snoc m b ts u t :
  linked m b (ts ++ [u; t]) -> bytes_at m (arena b + t_off u) (hdr_bytes u (arena_phys b + t_off t)).
Proof. induction ts as [|v ts IH]; cbn; [tauto|]. intros [_ H]. by apply IH. Qed.

Lemma linked_last m b ts t : linked m b (ts ++ [t]) -> bytes_at m (arena b + t_off t) (hdr_bytes t 0).
Proof. induction ts as [|v ts IH]; cbn; [tauto|]. intros [_ H]. by apply IH. Qed.

Lemma hdr_version m a t next :
  in_word 16 (t_ver t) -> bytes_at m a (hdr_bytes t next) -> load16 m (a + 12) = Some (t_ver t).
Proof.
  intros Hw Hat. unfold hdr_bytes in Hat. rewrite !bytes_at_app in Hat.
  destruct Hat as (_ & _ & Hv & _). rewrite !zlen_le_encode in Hv.
  apply bytes_at_load_le; [done|]. replace (a + 12) with (a + 8 + 4) by lia. exact Hv.
Qed.

(** The tag the collector appends. *)
Definition security_tag (plan : bbp_security_plan) : tagrec :=
  Tag (tag_start plan) BBP_TAG_SECURITY BBP_SECURITY_TAG_VERSION 128.

Lemma security_tag_words plan :
  in_word 64 (t_id (security_tag plan)) /\ in_word 32 (t_size (security_tag plan)) /\
  in_word 16 (t_ver (security_tag plan)) /\ in_word 64 0.
Proof. by split_and!. Qed.

(** A chain ending with it passes the collector's checks. *)
Lemma chain_published {U} (w : world U) b ts count plan :
  0 < count -> plan_ok b count plan -> tag_count b = zlen ts -> last b = last_ptr b ts ->
  first_phys b = next_phys b ts -> same_arena b (w_builder w) ->
  builder_rep (w_mem w) (w_builder w) (ts ++ [security_tag plan]) -> used (w_builder w) = tag_end plan ->
  tag_published w b plan (arena b + tag_start plan) (arena_phys b + tag_start plan) = Some true.
Proof.
  intros Hc Hp Hcnt Hla Hfi (Ea & Eph & _) Hrep Hu.
  destruct (plan_bounds _ _ _ Hc Hp) as (? & ? & ? & ? & ? & _).
  pose proof Hp as [[? [? _]] [? ?] [[? _] ?] Hcn Hlast _ [Hfit _]]. unfold SIZE_MAX in *.
  destruct Hrep as [_ _ _ _ Hov [Hc2 _] _ Hlk Hfi2 Hla2]. rewrite last_ptr_snoc in Hla2. cbn [t_off security_tag] in Hla2.
  pose proof (linked_last _ _ _ _ Hlk) as Hh. rewrite Ea in Hh, Hla2. cbn [t_off security_tag] in Hh.
  unfold tag_published. cbn zeta. ssizes. rewrite Ea, Eph, (wrap_phys _ _ _ _ Hp) by lia.
  rewrite Hu, Hc2, Hla2, Hov, Hcnt, zlen_app. change (zlen [security_tag plan]) with 1.
  rewrite (wrap_small 32 (zlen ts + 1)) by (unfold in_word; lia). rewrite !Z.eqb_refl.
  rewrite (proj2 (Z.eqb_neq _ 0)) by lia. cbn [negb orb].
  destruct (security_tag_words plan) as (W1 & W2 & W3 & W4).
  assert (in_word 64 (arena_phys b + t_off (security_tag plan))) as W5
    by (unfold in_word; cbn [t_off security_tag]; lia).
  rewrite (hdr_id _ _ _ _ W1 Hh), (hdr_size _ _ _ _ W2 Hh), (hdr_version _ _ _ _ W3 Hh), (hdr_next _ _ _ _ W4 Hh). cbn [mbind option_bind t_id t_size t_ver security_tag].
  rewrite !Z.eqb_refl. change (0 =? 0) with true. cbn iota. rewrite Hfi2.
  destruct (Z.eqb_spec (zlen ts) 0) as [E|E].
  - destruct ts; [|rewrite zlen_cons in E; pose proof (zlen_nonneg ts); lia]. cbn. by rewrite Eph, Z.eqb_refl.
  - destruct ts as [|u ts _] using rev_ind; [done|]. rewrite Hla, last_ptr_snoc, Hfi.
    replace (next_phys (w_builder w) ((ts ++ [u]) ++ [security_tag plan])) with (next_phys b (ts ++ [u]))
      by (destruct ts; cbn; by rewrite Eph).
    rewrite Z.eqb_refl. cbn iota. rewrite <- app_assoc in Hlk. apply linked_in_snoc in Hlk.
    rewrite Ea, Eph in Hlk. rewrite (hdr_next _ _ _ _ W5 Hlk).
    cbn. by rewrite Z.eqb_refl.
Qed.

(** ** Publication *)

Section Live.
Context {U : Type} (abort_hook : U -> bbp_security_status -> U).
Context (m0 : mem) (b : bbp_builder) (ts : list tagrec) (count : Z) (plan : bbp_security_plan).
Context (records out_tag : Z).
Context (Hready : ready m0 b count plan records out_tag) (Hrep : builder_rep m0 b ts).

Lemma plan_plannable u : u <= blob_end plan -> plannable (set_used b u).
Proof.
  destruct Hready as [[Hc _] Hp _ _ _ _ _]. destruct (plan_bounds _ _ _ Hc Hp) as (? & ? & ? & ? & ? & _).
  destruct Hp as [[? [? _]] [? ?] [[? _] ?] _ _ _ [_ Hmax]]. unfold SIZE_MAX in *. sconsts. intros Hu.
  split; cbn [used arena arena_phys capacity set_used]; unfold BBP_IMPORT_MAX_ARENA, SIZEOF_INFO; lia.
Qed.

(** The record is copied in, and passes the checks. *)
Lemma record_allocated (w : world U) log :
  w_builder w = b -> frame records RECORDS m0 (w_mem w) -> bytes_at (w_mem w) records log ->
  zlen log = log_bytes plan ->
  exists w1, call_allocate builder_callback w BBP_SECURITY_ARENA_MEASUREMENTS records (log_bytes plan) =
      Some (w1, arena b + blob_start plan, arena_phys b + blob_start plan) /\
    w_builder w1 = set_used b (blob_end plan) /\ builder_rep (w_mem w1) (w_builder w1) ts /\
    frame (arena b + blob_start plan) (zlen log) (w_mem w) (w_mem w1) /\
    bytes_at (w_mem w1) (arena b + blob_start plan) log /\
    blob_published w1 b plan (arena b + blob_start plan) (arena_phys b + blob_start plan) log = Some true /\
    w_log w1 = w_log w ++ [ArenaAllocate BBP_SECURITY_ARENA_MEASUREMENTS (arena b + blob_start plan)].
Proof.
  intros Hb F Hat Hz. pose proof Hready as [[Hc Hc32] Hp Hma [Hmr Hr0] Hap Hmo Hoap].
  destruct (plan_bounds _ _ _ Hc Hp) as (? & ? & ? & ? & ? & Eo & Et).
  pose proof Hp as [[? [? Hov]] [? ?] [[? _] ?] _ _ _ [Hfit _]].
  assert (builder_rep (w_mem w) b ts) as Hrep0.
  { rewrite <- (set_used_same b). eapply rep_grow; [exact Hrep|lia|lia|apply F|].
    intros x Hx. apply F. lia. }
  destruct (blob_fits (w_mem w) b ts records log Hrep0) as (m1 & E & Hrep1 & F1 & Hat1);
    [rewrite <- (set_used_same b); apply plan_plannable; lia|done|lia|lia|apply disjoint_range_intro; unfold RECORDS in *; lia|lia|].
  cbn zeta in *. rewrite Eo in *.
  replace (blob_start plan + zlen log) with (blob_end plan) in * by lia.
  unfold call_allocate, builder_callback, bbp_security_builder_allocate.
  rewrite Hb, <- Hz, E. cbn [mbind option_bind].
  rewrite (proj2 (Z.eqb_neq _ 0)) by lia. cbn [mbind option_bind arena arena_phys set_used].
  replace (arena_phys b + blob_start plan - arena_phys b) with (blob_start plan) by lia.
  rewrite (wrap_small 64 (blob_start plan)) by (unfold in_word, SIZE_MAX in *; lia).
  eexists. split; [reflexivity|]. cbn [w_mem w_builder w_log]. split_and!; try done.
  unfold blob_published. cbn [w_mem w_builder arena arena_phys used tag_count last first_phys overflow set_used].
  rewrite (wrap_phys _ _ _ _ Hp) by lia. rewrite Hov, !Z.eqb_refl, (proj2 (Z.eqb_neq _ 0)) by lia.
  cbn [negb orb]. by apply bytes_equal_true.
Qed.

(** So is the tag. *)
Lemma tag_allocated (w : world U) log :
  w_builder w = set_used b (blob_end plan) -> builder_rep (w_mem w) (w_builder w) ts ->
  bytes_at (w_mem w) (arena b + blob_start plan) log -> zlen log = log_bytes plan ->
  exists w1, call_allocate builder_callback w BBP_SECURITY_ARENA_TAG 0 128 =
      Some (w1, arena b + tag_start plan, arena_phys b + tag_start plan) /\
    builder_rep (w_mem w1) (w_builder w1) (ts ++ [security_tag plan]) /\
    same_arena b (w_builder w1) /\ same_dom (w_mem w) (w_mem w1) /\
    bytes_at (w_mem w1) (arena b + blob_start plan) log /\
    tag_published w1 b plan (arena b + tag_start plan) (arena_phys b + tag_start plan) = Some true.
Proof.
  intros Hb Hrep1 Hat Hz. pose proof Hready as [[Hc Hc32] Hp _ _ _ _ _].
  destruct (plan_bounds _ _ _ Hc Hp) as (? & ? & ? & ? & ? & Eo & Et).
  pose proof Hp as [[? [? Hov]] [? ?] [[? _] ?] Hcn _ _ [Hfit _]].
  rewrite Hb in Hrep1. destruct (security_tag_words plan) as (W1 & _ & W3 & _).
  destruct (alloc_tag_fits (w_mem w) _ ts BBP_TAG_SECURITY BBP_SECURITY_TAG_VERSION 128 Hrep1) as
    (m1 & b1 & E & Hrep2 & Ha & Hu & Hcnt & F & Hk);
    [by apply plan_plannable|exact W1|exact W3|lia|cbn; lia|cbn [used capacity set_used]; lia|].
  cbn [t_off used arena set_used] in E, Hrep2, Hu. rewrite Et in *.
  unfold call_allocate, builder_callback, bbp_security_builder_allocate. ssizes. rewrite Hb, E.
  cbn [mbind option_bind negb orb Z.eqb Pos.eqb]. rewrite (proj2 (Z.eqb_neq (_ + _) 0)) by lia.
  cbn [mbind option_bind]. pose proof Ha as (Ea & Eph & Ecap). cbn in Ea, Eph, Ecap. rewrite Ea, Eph.
  replace (arena b + tag_start plan - arena b) with (tag_start plan) by lia.
  rewrite (wrap_phys _ _ _ _ Hp) by lia. eexists. split; [reflexivity|]. cbn [w_mem w_builder].
  assert (same_arena b b1) as Ha' by done.
  split; [exact Hrep2|]. split; [done|]. split; [apply F|]. split.
  - eapply bytes_at_same_on; [|exact Hat]. intros x Hx. apply Hk; cbn [arena used set_used]; [lia|].
    intros t Hin. destruct (tags_ok_in _ _ _ _ (br_tags _ _ _ Hrep) Hin) as (? & ? & ? & ? & _). lia.
  - eapply (chain_published _ b ts count); try done; [..|cbn [w_builder]; lia];
      apply Hrep.
Qed.

Lemma publish_live w backup next p log :
  saved m0 b plan backup next -> w_builder w = b -> frame records RECORDS m0 (w_mem w) ->
  bytes_at (w_mem w) records log -> zlen log = log_bytes plan -> crc64_of log <> 0 ->
  exists w', publish builder_callback abort_hook w b plan records backup next p count out_tag =
      Some (w', BBP_SECURITY_OK) /\
    w_builder w' = builder_after b plan /\ builder_rep (w_mem w') (builder_after b plan) (ts ++ [security_tag plan]).
Proof.
  intros Hsv Hb F Hat Hz Hcrc. pose proof Hready as [[Hc Hc32] Hp Hma [Hmr Hr0] Hap Hmo Hoap].
  destruct (plan_bounds _ _ _ Hc Hp) as (? & ? & ? & ? & ? & Eo & Et).
  pose proof Hp as [[? [? Hov]] [? ?] [[? _] ?] Hcn _ _ [Hfit _]].
  assert (Z.to_nat (log_bytes plan) = length log) as Hn by (unfold zlen in Hz; lia).
  unfold publish. rewrite Hn, bbp_crc64_spec, (bytes_at_load _ _ _ Hat). cbn [mbind option_bind].
  rewrite (proj2 (Z.eqb_neq _ 0) Hcrc).
  destruct (record_allocated w log Hb F Hat Hz) as (w1 & -> & Hb1 & Hrep1 & F1 & Hat1 & Hok1 & _).
  cbn [mbind option_bind]. rewrite (frame_load _ _ _ _ _ _ F1) by (unfold RECORDS in *; lia).
  rewrite (bytes_at_load _ _ _ Hat). cbn [mbind option_bind]. rewrite Hok1. cbn [mbind option_bind].
  unfold publish_tag. ssizes.
  destruct (tag_allocated w1 log Hb1 Hrep1 Hat1 Hz) as (w2 & -> & Hrep2 & Ha2 & D2 & Hat2 & Hok2).
  cbn [mbind option_bind]. rewrite Hok2. cbn [mbind option_bind].
  assert (same_dom m0 (w_mem w2)) as D by (etrans; [apply F|etrans; [apply F1|done]]).
  destruct (tag_published_spec w2 b count plan (arena b + tag_start plan) (arena_phys b + tag_start plan) Hc Hp Ha2) as (ok & E & Hok); [by rewrite <- D|].
  rewrite Hok2 in E. injection E as <-. destruct (Hok eq_refl) as (_ & Hb2 & Hlk).
  destruct (finish_spec (w_mem w2) b count plan p log out_tag) as (m' & E & _ & _ & _ & _ & _ & D3 & B6);
    [done|done|by rewrite <- D|by rewrite <- D|done|done|done|done|].
  cbn zeta in E. apply bind_Some in E as (m3 & -> & E). cbn [mbind option_bind].
  apply bind_Some in E as (m4 & -> & E). cbn [mbind option_bind]. rewrite E. cbn [mbind option_bind].
  eexists. split; [reflexivity|]. cbn [w_mem w_builder set_mem]. split; [done|]. rewrite <- Hb2.
  eapply rep_same; [exact Hrep2|done|]. intros t Hin x Hx.
  destruct Ha2 as (Ea & _). rewrite Ea in Hx.
  destruct (tags_ok_in _ _ _ _ (br_tags _ _ _ Hrep2) Hin) as (? & ? & ? & ? & _).
  rewrite Hb2 in *. cbn [used builder_after] in *.
  apply B6; [|lia]. apply in_app_or in Hin as [Hin|[<-|[]]]; [|cbn [t_off security_tag] in *; lia].
  destruct (tags_ok_in _ _ _ _ (br_tags _ _ _ Hrep) Hin) as (? & ? & ? & ? & _). lia.
Qed.
End Live.
