(* ===== verification/SecurityProps.v ===== *)
(** * Properties of the measurement collector

    Against any arena callback that keeps the contract [ArenaAllocator], a run
    of [bbp_security_collect] publishes everything or nothing; with the adapter
    for the real arena, a run whose measurements all succeed publishes. *)

From S2P Require Import Prelude Memory Crc64 Abi KernelParser KernelFacts Builder BuilderFacts Handoff Import ImportEmit Security SecurityFacts SecurityPublish SecurityLive.

Lemma zlen_records_of m records ss : forall nss ds,
  Forall2 (named m records) ss nss -> digests ss ds -> zlen (records_of ss nss ds) = 144 * zlen ss.
Proof.
  induction ss as [|s ss IH]; intros nss ds Hn Hd; [done|].
  apply Forall2_cons_inv_l in Hn as (ns & nss' & [[_ ?] _ _] & Hn & ->).
  apply Forall2_cons_inv_l in Hd as (d & ds' & ? & Hd & ->).
  cbn [records_of]. rewrite zlen_app, zlen_record_bytes by (done || unfold zlen in *; lia).
  rewrite (IH _ _ Hn Hd), zlen_cons. lia.
Qed.

(** ** A run after validation *)

(** How a run on the sources [ss] ends. *)
Definition outcome (m : mem) (b : bbp_builder) (p : option bbp_security_platform) (records : Z)
    (ss : list bbp_security_source) (count out_tag : Z) (m' : mem) (b' : bbp_builder)
    (log : list event) (st : bbp_security_status) : Prop :=
  match st with
  | BBP_SECURITY_OK =>
      exists plan p0 nss ds, p = Some p0 /\ plan_ok b count plan /\ b' = builder_after b plan /\
        Forall2 (named m records) ss nss /\ digests ss ds /\
        published m m' b plan p0 count (records_of ss nss ds) records out_tag /\
        log = zip_with (extended 0) ss ds ++
          [ArenaAllocate BBP_SECURITY_ARENA_MEASUREMENTS (arena b + blob_start plan);
           ArenaAllocate BBP_SECURITY_ARENA_TAG (arena b + tag_start plan)]
  | BBP_SECURITY_ERR_ABORT_RETURNED =>
      b' = b /\ frame records RECORDS m m' /\
      exists done ds evs, done <> [] /\ done `prefix_of` ss /\ digests done ds /\
        log = zip_with (extended 0) done ds ++ evs ++ [AbortCalled BBP_SECURITY_ERR_PUBLISH_AFTER_TPM]
  | BBP_SECURITY_ERR_TPM =>
      b' = b /\ frame records RECORDS m m' /\
      exists s result d, head ss = Some s /\ result <> 0 /\ log = [extended result s d]
  | _ => b' = b /\ m' = m /\ log = []
  end.

Section Run.
Context {U : Type}.
Context (extend : U -> mem -> Z -> Z -> Z -> Z -> U * Z * list byte).
Context (allocate : U -> mem -> bbp_builder -> bbp_security_arena_object -> Z -> Z ->
                    option (U * mem * bbp_builder * Z * Z)).
Context `{!ArenaAllocator allocate}.
Context (abort_hook : U -> bbp_security_status -> U).

(** What the collector saves can be read. *)
Lemma saved_exists m b count plan records out_tag :
  ready m b count plan records out_tag ->
  exists backup next, saved m b plan backup next /\
    (if negb (last b =? 0) then load64 m (last b + 16) else Some 0) = Some next.
Proof.
  intros Hr. pose proof Hr as [[Hc _] Hp Hm _ _ _ _].
  destruct (plan_bounds _ _ _ Hc Hp) as (? & ? & ? & ? & ? & _).
  pose proof Hp as [[? _] _ [[? _] ?] _ _ _ [Hfit _]].
  destruct (mapped_load m (arena b + blob_start plan) (Z.to_nat (tag_end plan - blob_start plan))) as [bk Hbk].
  { eapply mapped_sub; [exact Hm|lia|lia]. }
  destruct (Z.eqb_spec (last b) 0) as [E|E]; cbn [negb].
  - exists bk, 0. by split.
  - destruct (mapped_load64 m (last b + 16)) as [v Hv]; [by eapply last_mapped|]. exists bk, v. by split.
Qed.

(** Up to the end of the measurements. *)
Lemma collect_measured m b u plan records p sources count out_tag nss :
  let ss := take (Z.to_nat count) sources in
  ready m b count plan records out_tag -> zlen ss = count -> Forall2 (named m records) ss nss ->
  exists m1 bk next r k, frame records RECORDS m m1 /\ saved m b plan bk next /\
    measure_loop extend abort_hook (World m1 b u []) records sources 0 (length ss) = Some r /\
    measured (World m1 b u []) records [] ss nss 0 k r /\
    collect extend allocate abort_hook (World m b u []) plan records p sources count out_tag =
      match r with
      | inl r => Some r
      | inr w => publish allocate abort_hook w b plan records bk next p count out_tag
      end.
Proof.
  intros ss Hr Hn Hnm. pose proof Hr as [[Hc Hc32] Hp _ [Hmr _] _ _ _].
  destruct (saved_exists _ _ _ _ _ _ Hr) as (bk & next & Hsv & Enx). unfold collect.
  cbn [w_builder w_mem set_mem]. rewrite Enx, (sv_bytes _ _ _ _ _ Hsv). cbn [mbind option_bind].
  change (Z.to_nat (BBP_SECURITY_MAX_MEASUREMENTS * sizeof bbp_measurement)) with (Z.to_nat RECORDS).
  rewrite mem_zero_store.
  destruct (store_bytes_mapped m records (replicate (Z.to_nat RECORDS) x00)) as [m1 E1].
  { rewrite zlen_replicate. exact Hmr. }
  rewrite E1. cbn [mbind option_bind]. pose proof (store_bytes_at _ _ _ _ E1) as A1. apply frame_store in E1 as F1.
  rewrite zlen_replicate in F1. change (Z.of_nat (Z.to_nat RECORDS)) with RECORDS in F1.
  unfold set_mem. cbn [w_builder w_user w_log].
  assert (Z.to_nat count = length ss) as Hlen by (unfold zlen in Hn; lia). rewrite Hlen.
  destruct (measure_loop_spec extend abort_hook sources ss (World m1 b u []) records nss 0 []
    (Z.to_nat RECORDS - 144 * length ss)) as (r & E & Hm).
  - by rewrite drop_0, <- Hlen.
  - eapply Forall2_impl; [exact Hnm|]. intros x y. by apply named_frame.
  - done.
  - cbn [app]. unfold RECORDS, zlen in *. replace (144 * length ss + _)%nat with (Z.to_nat 4608) by lia. exact A1.
  - unfold RECORDS, zlen in *. cbn [length]. lia.
  - exists m1, bk, next, r. eexists. split_and!; [done..|exact Hm|]. by rewrite E.
Qed.

(** The log of the measurements, in memory. *)
Lemma measured_log m b u (w' : world U) count plan records nss k m1 out_tag ss :
  ready m b count plan records out_tag -> zlen ss = count -> Forall2 (named m records) ss nss ->
  frame records RECORDS m m1 -> measured (World m1 b u []) records [] ss nss 0 k (inr w') ->
  exists ds, digests ss ds /\ w_builder w' = b /\ frame records RECORDS m (w_mem w') /\
    bytes_at (w_mem w') records (records_of ss nss ds) /\ zlen (records_of ss nss ds) = log_bytes plan /\
    w_log w' = zip_with (extended 0) ss ds.
Proof.
  intros [[Hc _] Hp _ _ _ _ _] Hn Hnm F1 (ds & Hds & Hat & F & Hb & Hlog).
  cbn [w_mem w_builder w_log app] in F, Hb, Hlog, Hat. apply bytes_at_app in Hat as [Hat _].
  exists ds. destruct (plan_bounds _ _ _ Hc Hp) as (_ & _ & -> & _).
  rewrite (zlen_records_of _ _ _ _ _ Hnm Hds), Hn. split_and!; [done..|by eapply frame_trans|done|done|done].
Qed.

Lemma collect_spec m b u plan records p sources count out_tag nss :
  let ss := take (Z.to_nat count) sources in
  ready m b count plan records out_tag -> zlen ss = count -> Forall2 (named m records) ss nss ->
  exists w' st, collect extend allocate abort_hook (World m b u []) plan records p sources count out_tag
      = Some (w', st) /\
    outcome m b (Some p) records ss count out_tag (w_mem w') (w_builder w') (w_log w') st.
Proof.
  intros ss Hr Hn Hnm.
  destruct (collect_measured m b u plan records p sources count out_tag nss Hr Hn Hnm) as
    (m1 & bk & next & r & k & F1 & Hsv & _ & Hm & ->). fold ss in Hm.
  destruct r as [[w' st]|w'].
  - destruct Hm as (dn & ds & s & d & rest & result & Es & Hds & Hres & F & Hb & Hlog).
    cbn [w_mem w_builder w_log app] in F, Hb, Hlog. exists w', st. split; [done|].
    pose proof (frame_trans _ _ _ _ _ F1 F) as F'.
    destruct (decide (0%nat = 0%nat /\ dn = [])) as [[_ ->]|Hne]; destruct Hlog as [-> Hlog].
    + split; [done|]. split; [done|]. exists s, result, d. rewrite Es. split_and!; [done|done|].
      by apply Forall2_nil_inv_l in Hds as ->.
    + split; [done|]. split; [done|]. exists dn, ds, [extended result s d].
      split_and!; [by intros ->; apply Hne|rewrite Es; by apply prefix_app_r|done|].
      by rewrite Hlog, <- app_assoc.
  - destruct (measured_log _ _ _ _ _ _ _ _ _ _ _ _ Hr Hn Hnm F1 Hm) as (ds & Hds & Hb & F & Hat & Hz & Hlog).
    destruct (publish_spec allocate abort_hook m b count plan records out_tag Hr w' bk next p
      (records_of ss nss ds) Hsv Hb F Hat Hz) as (w2 & st & -> & Hend).
    exists w2, st. split; [done|]. destruct Hend as [[-> (Hb2 & F2 & evs & Hev & Hl2)]|(-> & Hb2 & Hpub & Hl2)].
    + split; [done|]. split; [done|]. exists ss, ds, evs. rewrite Hl2, Hlog.
      split_and!; [intros Ess; rewrite Ess, zlen_nil in Hn; destruct (rd_count _ _ _ _ _ _ Hr); lia|done|done|done].
    + exists plan, p, nss, ds. rewrite Hl2, Hlog. destruct Hr. by split_and!.
Qed.

(** Measurements that succeed do not end the loop early. *)
Lemma measure_loop_succeeds :
  (forall u m pcr algorithm data len, snd (fst (extend u m pcr algorithm data len)) = 0) ->
  forall sources n w records i r, measure_loop extend abort_hook w records sources i n <> Some (inl r).
Proof.
  intros Hext sources n. induction n as [|n IH]; intros w records i r H; cbn [measure_loop] in H; [done|].
  apply bind_Some in H as (s & _ & H). apply bind_Some in H as ([w1 res] & H1 & H).
  assert (res = 0) as ->; [|by apply IH in H].
  unfold measure in H1. do 4 apply bind_Some in H1 as (? & _ & H1). unfold call_extend in H1.
  pose proof (Hext (w_user (set_mem w x2)) (w_mem (set_mem w x2)) (ss_pcr_index s) BBP_HASH_SHA256 (ss_data s)
    (ss_data_length s)) as Hz.
  destruct (extend _ _ _ _ _ _) as [[u res'] d]. cbn in Hz. subst res'.
  apply bind_Some in H1 as (? & _ & [= _ <-]). done.
Qed.
End Run.

(** ** Refusals *)

(** The statuses of an input that is turned down before anything happens. *)
Definition refusal (st : bbp_security_status) : bool :=
  match st with
  | BBP_SECURITY_OK | BBP_SECURITY_ERR_TPM | BBP_SECURITY_ERR_ABORT_RETURNED => false
  | _ => true
  end.

Lemma refusal_outcome m b p records ss count out_tag st :
  refusal st = true -> outcome m b p records ss count out_tag m b [] st.
Proof. by destruct st. Qed.

Ltac refuses :=
  repeat match goal with
  | H : (if ?c then _ else _) = _ |- _ => destruct c; [simplify_eq; by auto|]
  end.

Lemma validate_source_refuses m s st :
  validate_source m s = Some st -> st = BBP_SECURITY_OK \/ refusal st = true.
Proof.
  unfold validate_source. intros H. refuses. apply bind_Some in H as ([] & _ & [= <-]); [by right|by left].
Qed.

Lemma validate_sources_refuses m sources count st :
  validate_sources m sources count = Some st -> st = BBP_SECURITY_OK \/ refusal st = true.
Proof.
  unfold validate_sources. intros H. refuses. destruct (pointer_span_valid _ _); [|simplify_eq; by right].
  revert H. generalize 0%nat. induction (Z.to_nat count) as [|n IH]; intros i H; cbn [validate_loop] in H.
  { simplify_eq. by left. }
  apply bind_Some in H as (s & _ & H). apply bind_Some in H as (st1 & H1 & H).
  apply validate_source_refuses in H1. destruct (negb _); [by simplify_eq|by eapply IH].
Qed.

Lemma validate_platform_refuses p :
  validate_platform p = BBP_SECURITY_OK /\ is_Some p \/ refusal (validate_platform p) = true.
Proof.
  unfold validate_platform. destruct p as [p|]; [|by right]. destruct (_ || _); [by right|].
  destruct (_ || _); [by right|]. left. by split.
Qed.

Lemma validate_builder_refuses m b count st :
  validate_builder m (Some b) count = Some (inl st) -> refusal st = true.
Proof.
  unfold validate_builder. intros H. destruct (_ || _); [by simplify_eq|].
  apply bind_Some in H as ([] & _ & H); [|by simplify_eq]. destruct (_ <=? _); [by simplify_eq|].
  injection H as H. unfold plan_layout in H. destruct (align8 _); [|by simplify_eq].
  destruct (_ <? _); [by simplify_eq|]. destruct (align8 _); [|by simplify_eq].
  refuses. done.
Qed.

(** ** The theorem *)

(** What the caller supplies: the fields of the builder as unsigned numbers,
    the arena, the array of sources and their names in memory, and the objects
    apart from one another. *)
Record inputs (m : mem) (b : bbp_builder) (records : Z) (sources : Z * list bbp_security_source)
    (count out_tag : Z) : Prop := Inputs {
  in_fields : 0 <= arena b /\ 0 <= arena_phys b /\ 0 <= used b /\ 0 <= tag_count b /\ 0 <= count;
  in_arena : mapped m (arena b) (capacity b);
  in_sources : count <= 32 -> (Z.to_nat count <= length (snd sources))%nat;
  in_names : Forall (fun s => 0 <= ss_component_name_length s /\ readable m records s) (snd sources);
  in_records : mapped m records RECORDS /\ 0 < records;
  in_apart : records + RECORDS <= arena b \/ arena b + capacity b <= records;
  in_out : out_tag <> 0 -> mapped m out_tag 8;
}.

(** The arena callback, when there is one, keeps its contract. *)
Definition keeps_contract {U} (callbacks : option (bbp_security_callbacks U)) : Prop :=
  forall c allocate, callbacks = Some c -> arena_allocate c = Some allocate -> ArenaAllocator allocate.

Lemma spans_apart a n c k : spans_overlap a n c k = false -> a + n <= c \/ c + k <= a.
Proof.
  unfold spans_overlap. destruct (_ || _); [done|]. intros H. apply andb_false_iff in H as [H|H];
    apply Z.ltb_ge in H; lia.
Qed.

(** C35: measurement is all or nothing.  Whatever the firmware does inside an
    arena callback that keeps its contract, [bbp_security_collect] returns, and
    - OK means that every source was extended into the TPM in order, the record
      of the digests is in the arena, the SECURITY tag is linked, filled in and
      sealed, [*out_tag] points at it, and nothing else changed;
    - a failure after a successful extension has restored the builder and all
      memory outside the local array, and called the abort hook last;
    - a failed first extension, or an input that is refused, leaves the builder
      and the memory as they were, with no successful extension. *)
Theorem collect_all_or_nothing {U} m b (u : U) records platform sources count callbacks out_tag :
  inputs m b records sources count out_tag -> keeps_contract callbacks ->
  exists m' b' u' log st,
    bbp_security_collect m (Some b) u records platform sources count callbacks out_tag =
      Some (m', Some b', u', log, st) /\
    outcome m b platform records (take (Z.to_nat count) (snd sources)) count out_tag m' b' log st.
Proof.
  intros [(? & ? & ? & ? & ?) Hma Hsrc Hnames [Hmr Hr0] Hap Hout] Hkeep. unfold bbp_security_collect.
  assert (forall st, refusal st = true -> exists m' b' u' log st0,
    Some (m, Some b, u, [], st) = Some (m', Some b', u', log, st0) /\
    outcome m b platform records (take (Z.to_nat count) (snd sources)) count out_tag m' b' log st0) as Hfail.
  { intros st Hst. exists m, b, u, [], st. split; [done|]. by apply refusal_outcome. }
  destruct callbacks as [[[ext|] [al|] [ab|]]|]; try by apply Hfail.
  specialize (Hkeep _ al eq_refl eq_refl). destruct (Z.eqb_spec out_tag 0) as [|Hne]; [by apply Hfail|].
  destruct (validate_sources_spec m records sources count) as (st & E & Hst); [done..|]. rewrite E. cbn [mbind option_bind].
  apply validate_sources_refuses in E as [->|Hst1]; cycle 1.
  { rewrite bool_decide_eq_false_2 by (by intros ->). by apply Hfail. }
  rewrite bool_decide_eq_true_2 by done. cbn [negb]. destruct (Hst eq_refl) as (Hc & nss & Hnss).
  destruct (validate_platform_refuses platform) as [[-> [p ->]]|Hpl]; cycle 1.
  { rewrite bool_decide_eq_false_2 by (by intros Ep; rewrite Ep in Hpl). by apply Hfail. }
  rewrite bool_decide_eq_true_2 by done. cbn [negb].
  destruct (validate_builder_spec m b count) as (r & E & Hr); [lia|done..|]. rewrite E. cbn [mbind option_bind].
  destruct r as [st|plan]; [by apply Hfail, (validate_builder_refuses _ _ _ _ E)|].
  destruct (spans_overlap _ _ _ _) eqn:G; [by apply Hfail|]. apply spans_apart in G.
  edestruct (collect_spec ext al ab m b u plan records p (snd sources) count out_tag) as (w' & st & -> & Ho);
    [|unfold zlen; rewrite length_take_le by (apply Hsrc; lia); lia|exact Hnss|].
  - split; try done. by apply Hout.
  - cbn [mbind option_bind]. exists (w_mem w'), (w_builder w'), (w_user w'), (w_log w'), st. by split.
Qed.

(** C36: with the adapter for the real arena, measurement gets through.  When the
    inputs are accepted, the builder holds a well-formed chain and the TPM
    answers every extension with success, [bbp_security_collect] returns OK
    and the chain is the old one with the SECURITY tag appended; the one
    exception is a log whose CRC-64 happens to be 0, which is refused with the
    builder unchanged. *)
Theorem collect_publishes {U} m b ts (u : U) records p sources count extend abort_hook out_tag plan :
  inputs m b records sources count out_tag -> builder_rep m b ts -> out_tag <> 0 ->
  validate_sources m sources count = Some BBP_SECURITY_OK ->
  validate_platform (Some p) = BBP_SECURITY_OK ->
  validate_builder m (Some b) count = Some (inr plan) ->
  spans_overlap out_tag 8 (arena b) (capacity b) = false ->
  (forall u m pcr algorithm data len, snd (fst (extend u m pcr algorithm data len)) = 0) ->
  let ss := take (Z.to_nat count) (snd sources) in
  exists nss ds m' b' u' log st,
    bbp_security_collect m (Some b) u records (Some p) sources count
      (Some (SecurityCallbacks (Some extend) (Some builder_callback) (Some abort_hook))) out_tag =
      Some (m', Some b', u', log, st) /\
    Forall2 (named m records) ss nss /\ digests ss ds /\ zip_with (extended 0) ss ds `prefix_of` log /\
    (if crc64_of (records_of ss nss ds) =? 0
     then st = BBP_SECURITY_ERR_ABORT_RETURNED /\ b' = b
     else st = BBP_SECURITY_OK /\ b' = builder_after b plan /\
          builder_rep m' b' (ts ++ [security_tag plan])).
Proof.
  intros [(? & ? & ? & ? & ?) Hma Hsrc Hnames [Hmr Hr0] Hap Hout] Hrep Hne Es Ep Eb Eo Hext ss.
  destruct (validate_sources_spec m records sources count) as (st & E & Hst); [done..|].
  rewrite Es in E. injection E as <-. destruct (Hst eq_refl) as (Hc & nss & Hnss). fold ss in Hnss.
  destruct (validate_builder_spec m b count) as (r & E & Hr); [lia|done..|].
  rewrite Eb in E. injection E as <-.
  assert (ready m b count plan records out_tag) as Hready.
  { split; try done; [by apply Hout|by apply spans_apart]. }
  assert (zlen ss = count) as Hn by (unfold zlen, ss; rewrite length_take_le by (apply Hsrc; lia); lia).
  destruct (collect_measured extend builder_callback abort_hook m b u plan records p (snd sources) count out_tag nss
    Hready Hn Hnss) as (m1 & bk & next & r & k & F1 & Hsv & Eloop & Hm & Ecol).
  destruct r as [r|w']; [by apply (measure_loop_succeeds extend abort_hook Hext) in Eloop|].
  destruct (measured_log _ _ _ _ _ _ _ _ _ _ _ _ Hready Hn Hnss F1 Hm) as (ds & Hds & Hb & F & Hat & Hz & Hlog).
  destruct (publish_spec builder_callback abort_hook m b count plan records out_tag Hready w' bk next p
    (records_of ss nss ds) Hsv Hb F Hat Hz) as (w2 & st & Epub & Hend).
  assert (zip_with (extended 0) ss ds `prefix_of` w_log w2) as Hpre.
  { destruct Hend as [[_ (_ & _ & evs & _ & ->)]|(_ & _ & _ & ->)]; rewrite Hlog; by apply prefix_app_r. }
  exists nss, ds, (w_mem w2), (w_builder w2), (w_user w2), (w_log w2), st. split.
  - unfold bbp_security_collect. rewrite (proj2 (Z.eqb_neq _ 0) Hne), Es. cbn [mbind option_bind].
    rewrite bool_decide_eq_true_2 by done. cbn [negb]. rewrite Ep, bool_decide_eq_true_2 by done. cbn [negb].
    rewrite Eb. cbn [mbind option_bind]. rewrite Eo, Ecol, Epub. reflexivity.
  - split; [done|]. split; [done|]. split; [done|]. destruct (Z.eqb_spec (crc64_of (records_of ss nss ds)) 0) as [Ez|Ez].
    + destruct Hend as [[-> (-> & _)]|(-> & _)]; [done|]. exfalso. revert Epub. unfold publish.
      replace (Z.to_nat (log_bytes plan)) with (length (records_of ss nss ds)) by (unfold zlen in Hz; lia).
      rewrite bbp_crc64_spec, (bytes_at_load _ _ _ Hat). cbn [mbind option_bind]. by rewrite Ez.
    + destruct (publish_live abort_hook m b ts count plan records out_tag Hready Hrep w' bk next p
        (records_of ss nss ds) Hsv Hb F Hat Hz Ez) as (w3 & E & Hb3 & Hrep3).
      rewrite E in Epub. injection Epub as -> <-. by rewrite Hb3.
Qed.

(** ** A run *)

Module SecuritySample.
(** An arena of 512 bytes at 8192 with one tag, the records at 16384, the
    result at 24576 and the name and data of two sources at 28672. *)
Definition tag1 : tagrec := Tag 0 BBP_TAG_HHDM 1 40.
Definition kernel : list byte := [x6b; x65; x72; x6e; x65; x6c].
Definition mem0 : mem :=
  mem_of 8192 (hdr_bytes tag1 0 ++ replicate 488 x00) ∪ (mem_of 16384 (replicate 4608 xcc) ∪
    (mem_of 24576 (replicate 8 xcc) ∪ mem_of 28672 kernel)).
Definition b : bbp_builder := Builder 8192 8192 512 40 8192 8192 1 0.
Definition source (pcr : Z) : bbp_security_source := SecuritySource pcr 1 32 0 28672 6 28672 6.
Definition sources : Z * list bbp_security_source := (32768, [source 8; source 9]).
Definition platform : bbp_security_platform :=
  SecurityPlatform 0xFED40000 0x0200 1 1 (SecureBoot 1 1 1 1 1 0 0).
Definition extend (u : unit) (m : mem) (pcr algorithm data len : Z) : unit * Z * list byte :=
  (u, 0, replicate 32 (Z_byte pcr)).
Definition hook (u : unit) (reason : bbp_security_status) : unit := u.
Definition callbacks : bbp_security_callbacks unit :=
  SecurityCallbacks (Some extend) (Some builder_callback) (Some hook).
Definition plan : bbp_security_plan := SecurityPlan 40 328 328 456 288.

Lemma mapped_of a n bs : load_bytes mem0 a n = Some bs -> mapped mem0 a (Z.of_nat n).
Proof. apply load_mapped. Qed.
Lemma arena_mapped : mapped mem0 8192 512.
Proof. apply (mapped_of 8192 512 (hdr_bytes tag1 0 ++ replicate 488 x00)). vm_compute. reflexivity. Qed.
Lemma records_mapped : mapped mem0 16384 RECORDS.
Proof. apply (mapped_of 16384 4608 (replicate 4608 xcc)). vm_compute. reflexivity. Qed.
Lemma out_mapped : mapped mem0 24576 8.
Proof. apply (mapped_of 24576 8 (replicate 8 xcc)). vm_compute. reflexivity. Qed.
Lemma kernel_at : bytes_at mem0 28672 kernel.
Proof. apply (load_bytes_at mem0 28672 6). vm_compute. reflexivity. Qed.
Lemma header_at : bytes_at mem0 8192 (hdr_bytes tag1 0).
Proof. apply (load_bytes_at mem0 8192 24). vm_compute. reflexivity. Qed.

Lemma source_readable pcr : readable mem0 16384 (source pcr).
Proof.
  intros _. exists kernel. split; change (zlen kernel) with 6; cbn; [lia|exact kernel_at|unfold RECORDS; lia].
Qed.

Lemma inputs_ok : inputs mem0 b 16384 sources 2 24576.
Proof.
  split; cbn [arena arena_phys used tag_count capacity b]; unfold RECORDS; try lia.
  - exact arena_mapped.
  - cbn. lia.
  - repeat constructor; try exact (source_readable _); cbn; lia.
  - split; [exact records_mapped|lia].
  - intros _. exact out_mapped.
Qed.

Lemma rep_of m : mapped m 8192 512 -> bytes_at m 8192 (hdr_bytes tag1 0) -> builder_rep m b [tag1].
Proof. intros Hm Hh. by split. Qed.

Lemma rep_ok : builder_rep mem0 b [tag1].
Proof. exact (rep_of mem0 arena_mapped header_at). Qed.

Definition run := bbp_security_collect mem0 (Some b) tt 16384 (Some platform) sources 2 (Some callbacks) 24576.
Lemma run_ok : match run with Some (_, _, _, _, st) => bool_decide (st = BBP_SECURITY_OK) | None => false end = true.
Proof. vm_compute. reflexivity. Qed.
End SecuritySample.

Lemma collect_all_or_nothing_witness :
  exists m' b' u' log, SecuritySample.run = Some (m', Some b', u', log, BBP_SECURITY_OK) /\
    outcome SecuritySample.mem0 SecuritySample.b (Some SecuritySample.platform) 16384
      (snd SecuritySample.sources) 2 24576 m' b' log BBP_SECURITY_OK.
Proof.
  destruct (collect_all_or_nothing SecuritySample.mem0 SecuritySample.b tt 16384 (Some SecuritySample.platform)
    SecuritySample.sources 2 (Some SecuritySample.callbacks) 24576) as (m' & b' & u' & log & st & E & Ho).
  - exact SecuritySample.inputs_ok.
  - intros c al Hc Hal. injection Hc as <-. injection Hal as <-. exact builder_callback_contract.
  - pose proof SecuritySample.run_ok as Hok. unfold SecuritySample.run in Hok |- *. rewrite E in Hok.
    apply bool_decide_eq_true in Hok. subst st. exists m', b', u', log. split; [exact E|exact Ho].
Defined.

Lemma collect_publishes_witness :
  exists m' b' u' log, SecuritySample.run = Some (m', Some b', u', log, BBP_SECURITY_OK) /\
    builder_rep m' b' ([SecuritySample.tag1] ++ [security_tag SecuritySample.plan]).
Proof.
  destruct (collect_publishes SecuritySample.mem0 SecuritySample.b [SecuritySample.tag1] tt 16384
    SecuritySample.platform SecuritySample.sources 2 SecuritySample.extend SecuritySample.hook 24576
    SecuritySample.plan) as (nss & ds & m' & b' & u' & log & st & E & _ & _ & _ & Ho).
  - exact SecuritySample.inputs_ok.
  - exact SecuritySample.rep_ok.
  - lia.
  - vm_compute. reflexivity.
  - vm_compute. reflexivity.
  - vm_compute. reflexivity.
  - vm_compute. reflexivity.
  - reflexivity.
  - pose proof SecuritySample.run_ok as Hok. change (SecuritySample.run = Some (m', Some b', u', log, st)) in E.
    rewrite E in Hok. apply bool_decide_eq_true in Hok. subst st.
    exists m', b', u', log. split; [exact E|]. destruct (_ =? 0).
    + destruct Ho as [Ho _]. discriminate Ho.
    + apply Ho.
Defined.
