(* ===== verification/Port.v ===== *)
(** * What the ports have in common (include/bbp/bbp_osif.h, ports/*/adapter.c)

    A port runs inside a kernel that another protocol has booted: its adapter
    clears an arena, writes an INFO structure and tags for the boot data it was
    given, and opens them with the kernel's own parser.  The four adapters are
    written in the same statements; those are here, the adapters are in the
    files [PortLinux01], [PortTina], [PortJosh] and [PortMinix]. *)

From stdpp Require Import strings.
From S2P Require Import Prelude Memory Crc64 Abi KernelParser Builder Import ImportLimine.

(** ** The OS interface *)

(** The hooks that return a value; [S] is the state of the port.  [alloc_pages]
    takes the value [*out_phys] has before the call and returns the pointer with
    the value it has afterwards; [None] is a NULL hook. *)
Record bbp_osif (S : Type) := Osif {
  phys_to_virt : S -> Z -> Z;
  alloc_pages : option (S -> Z -> Z -> S * Z * Z);
}.
Arguments Osif {S}.
Arguments phys_to_virt {S}.
Arguments alloc_pages {S}.

Definition bbp_osif_hhdm_offset {S} (osif : bbp_osif S) (s : S) : Z :=
  let probe := 0x1000 in
  let v := phys_to_virt osif s probe in
  wrap64 (v - probe).

(** Bump allocation in a static arena of [size] bytes, of which [used] are
    taken: the offset of the chunk and the new [used]; [None] is NULL. *)
Definition static_bump (size used bytes : Z) : option (Z * Z) :=
  let start := Z.land (wrap64 (used + 7)) (wrap64 (Z.lnot 7)) in
  reject (size <? start) || (size - start <? bytes) with None;
  Some (start, start + bytes).

(** Message texts, without and with a newline. *)
Definition say (text : string) : list byte := String.list_byte_of_string text.
Definition say_line (text : string) : list byte := say text ++ [x0a].

(** ** Tags *)

(** [T *t = bbp_alloc_tag(&b, id, 1, size); if (t) { ... }] *)
Definition put_tag_with (id size : Z)
    (W : mem -> bbp_builder -> Z -> option (mem * bbp_builder)) : emitter :=
  fun m b =>
    '(m, b, tag) ← bbp_alloc_tag m (Some b) id 1 size;
    b ← b;
    reject tag =? 0 with Some (m, b);
    W m b tag.

Definition put_tag (id size : Z) (W : mem -> Z -> option mem) : emitter :=
  put_tag_with id size (fun m b tag => m ← W m tag; Some (m, b)).

Definition put_hhdm (offset : Z) : emitter :=
  put_tag BBP_TAG_HHDM (sizeof bbp_tag_hhdm) (fun m tag => store64 m (tag + 32) offset).

Definition put_kernel_address (physical_base virtual_base : Z) : emitter :=
  put_tag BBP_TAG_KERNEL_ADDRESS (sizeof bbp_tag_kernel_address) (fun m tag =>
    m ← store64 m (tag + 32) physical_base;
    store64 m (tag + 40) virtual_base).

Definition put_acpi (rsdp_phys : Z) : emitter :=
  put_tag BBP_TAG_ACPI (sizeof bbp_tag_acpi) (fun m tag =>
    m ← store64 m (tag + 32) rsdp_phys;
    m ← store64 m (tag + 40) 0;
    m ← store32 m (tag + 48) 0;
    m ← store16 m (tag + 52) 0;
    store16 m (tag + 54) 0).

(** One memory-map entry as the adapters write it: the class and the attributes
    come from the raw type. *)
Record mmap_entry := MmapEntry { me_base : Z; me_length : Z; me_type : Z }.

Fixpoint put_entries (class attrs : Z -> Z) (m : mem) (ent : Z) (entries : list mmap_entry) :
    option mem :=
  match entries with
  | [] => Some m
  | e :: entries =>
      let bt := class (me_type e) in
      m ← store64 m ent (me_base e);
      m ← store64 m (ent + 8) (me_length e);
      m ← store32 m (ent + 16) bt;
      m ← store32 m (ent + 20) (attrs bt);
      m ← store32 m (ent + 24) 0;
      m ← store32 m (ent + 28) 0;
      put_entries class attrs m (ent + sizeof bbp_memory_entry) entries
  end.

(** The loop over a Limine memory map: [e] points to the next pointer, [n] entries have been copied; NULL pointers are skipped. *)
Fixpoint copy_limine_map (max : Z) (m : mem) (e : Z) (steps : nat) (n : Z) : option (list mmap_entry) :=
  match steps with
  | O => Some []
  | S steps =>
      if n <? max then
        p ← load64 m e;
        if p =? 0 then copy_limine_map max m (e + 8) steps n
        else
          base ← load64 m p;
          length ← load64 m (p + 8);
          type ← load64 m (p + 16);
          rest ← copy_limine_map max m (e + 8) steps (n + 1);
          Some (MmapEntry base length type :: rest)
      else Some []
  end.

(** [mmap] is the pointer with the array it designates. *)
Definition put_memory_map (class attrs : Z -> Z) (mmap : Z * list mmap_entry) : emitter :=
  emit_when (negb (fst mmap =? 0) && negb (zlen (snd mmap) =? 0))
    (put_tag BBP_TAG_MEMORY_MAP
       (sizeof bbp_tag_memory_map + zlen (snd mmap) * sizeof bbp_memory_entry) (fun m tag =>
       m ← store32 m (tag + 32) (zlen (snd mmap));
       m ← store32 m (tag + 36) (sizeof bbp_memory_entry);
       put_entries class attrs m (tag + sizeof bbp_tag_memory_map) (snd mmap))).

(** The [fb_] fields of a boot-info structure. *)
Record boot_fb := BootFb {
  bf_address : Z;
  bf_pitch : Z;
  bf_width : Z;
  bf_height : Z;
  bf_bpp : Z;
  bf_pixel_format : Z;
}.

Definition put_framebuffer (fb : boot_fb) : emitter :=
  emit_when (negb (bf_address fb =? 0) && negb (bf_width fb =? 0) && negb (bf_height fb =? 0))
    (put_tag BBP_TAG_FRAMEBUFFER (sizeof bbp_tag_framebuffer + sizeof bbp_display_info) (fun m tag =>
       m ← store64 m (tag + 32) (bf_address fb);
       m ← store16 m (tag + 40) 1;
       m ← store16 m (tag + 42) 0;
       m ← store32 m (tag + 44) (bf_pitch fb);
       m ← store64 m (tag + 48) (bf_pitch fb * bf_height fb);
       m ← store64 m (tag + 56) 0;
       m ← store32 m (tag + 64) 0;
       m ← store32 m (tag + 68) 0;
       let d := tag + sizeof bbp_tag_framebuffer in
       m ← store16 m d (bf_width fb);
       m ← store16 m (d + 2) (bf_height fb);
       m ← store16 m (d + 6) (if negb (bf_bpp fb =? 0) then bf_bpp fb / 4 else 8);
       m ← store32 m (d + 8) (if negb (bf_pixel_format fb =? 0) then bf_pixel_format fb
                              else BBP_FB_RGB888);
       m ← store32 m (d + 28) 0;
       m ← store64 m (d + 32) 0;
       store64 m (d + 40) 0)).

(** One processor: the identifiers and the core number the adapter gives it. *)
Record boot_cpu := BootCpu { bc_processor_id : Z; bc_apic_id : Z; bc_core_id : Z }.

Definition cpu_state (bsp : Z) (c : boot_cpu) : Z :=
  if bc_apic_id c =? bsp then BBP_CPU_STATE_RUNNING else BBP_CPU_STATE_STOPPED.

Fixpoint put_cpus (bsp : Z) (m : mem) (ci : Z) (cpus : list boot_cpu) : option mem :=
  match cpus with
  | [] => Some m
  | c :: cpus =>
      m ← store32 m ci (bc_processor_id c);
      m ← store32 m (ci + 4) (bc_apic_id c);
      m ← store16 m (ci + 8) (cpu_state bsp c);
      m ← store16 m (ci + 10) 0;
      m ← store16 m (ci + 12) 0;
      m ← store16 m (ci + 14) (bc_core_id c);
      m ← store16 m (ci + 16) 0;
      m ← store16 m (ci + 18) 0;
      m ← store32 m (ci + 20) 0;
      m ← store64 m (ci + 24) 0;
      m ← store64 m (ci + 32) 0;
      m ← store64 m (ci + 40) 0;
      put_cpus bsp m (ci + sizeof bbp_cpu_info) cpus
  end.

Definition put_smp (cpus : Z * list boot_cpu) (bsp flags : Z) : emitter :=
  emit_when (negb (fst cpus =? 0) && negb (zlen (snd cpus) =? 0))
    (put_tag BBP_TAG_SMP (sizeof bbp_tag_smp + zlen (snd cpus) * sizeof bbp_cpu_info) (fun m tag =>
       m ← store32 m (tag + 32) (zlen (snd cpus));
       m ← store32 m (tag + 36) bsp;
       m ← store64 m (tag + 40) flags;
       put_cpus bsp m (tag + sizeof bbp_tag_smp) (snd cpus))).

(** A tag, then its data in the arena ([D], with the physical address and the
    length), then the tag's body ([W]). *)
Definition put_data_tag (id size : Z)
    (D : mem -> bbp_builder -> option (mem * option bbp_builder * Z * Z))
    (W : Z -> Z -> mem -> Z -> option mem) : emitter :=
  put_tag_with id size (fun m b tag =>
    '(m, b, phys, len) ← D m b;
    b ← b;
    m ← W phys len m tag;
    Some (m, b)).

Definition write_cmdline (tagbase tagbase_phys sphys len : Z) (m : mem) (tag : Z) : option mem :=
  m ← store64 m (tag + 32) sphys;
  m ← store32 m (tag + 40) len;
  m ← store32 m (tag + 44) 0;
  if negb (sphys =? 0) then
    crc ← bbp_crc64 m (tagbase + wrap64 (sphys - tagbase_phys)) (Z.to_nat len);
    store64 m (tag + 48) crc
  else store64 m (tag + 48) 0.

Definition put_cmdline (tagbase tagbase_phys cmdline : Z) : emitter :=
  put_data_tag BBP_TAG_CMDLINE (sizeof bbp_tag_cmdline)
    (fun m b => bbp_arena_strdup m (Some b) cmdline) (write_cmdline tagbase tagbase_phys).

(** Counts a tag in [*user] and returns 0. *)
Definition count_cb (user tag : Z) : option (Z * Z) := Some (wrap32 (user + 1), 0).

(** [if (bi->cmdline && bi->cmdline[0])] *)
Definition when_string (s : Z) (E : emitter) : emitter :=
  fun m b =>
    reject s =? 0 with Some (m, b);
    c ← m !! s;
    if byte_Z c =? 0 then Some (m, b) else E m b.

(** ** The adapter *)

(** The local [struct bbp_builder b], before its initialisation. *)
Definition local_builder : bbp_builder := Builder 0 0 0 0 0 0 0 0.

(** From the cleared arena on: the builder, the tags [E], finalization, and the
    parser, which reads through [view] (the direct map of the host kernel, the
    identity where the arena has a single address). *)
Definition build_and_open (E : emitter) (view : mem -> mem) (m : mem)
    (info tagbase tagbase_phys bytes info_phys info_virt hint : Z) (cand : bbp_kctx)
    (out : option bbp_kctx) : option (mem * option bbp_kctx * bbp_status_t) :=
  '(m, b) ← bbp_builder_init m (Some local_builder) tagbase tagbase_phys bytes;
  b ← b;
  '(m, b) ← E m b;
  '(m, b, _) ← bbp_builder_finalize m (Some b) info info_phys (S (Z.to_nat BBP_BUILDER_MAX_TAGS));
  b ← b;
  reject negb (overflow b =? 0) with Some (m, out, BBP_ERR_SIZE);
  '(out, st) ← bbp_init_bounded (view m) cand out info_virt hint tagbase_phys bytes;
  Some (m, out, st).
