(* ===== verification/PortFacts.v ===== *)
(** * Facts about the ports' adapters

    [layout] says how much of the arena a list of items takes; [builds] that an
    emitter realises the items when they fit and marks the builder failed when
    they do not.  [build_and_open] then delivers the items to the kernel, or
    answers [BBP_ERR_SIZE]. *)

From S2P Require Import Prelude Memory Crc64 Abi KernelParser KernelFacts Builder BuilderFacts Handoff Import ImportFacts ImportEmit ImportBodies Boot Port.

(** ** Room *)

(** The used bytes and the number of tags after the items, each a tag followed
    by its data; [None] when they do not fit. *)
Fixpoint layout (cap u n : Z) (its : list item) : option (Z * Z) :=
  match its with
  | [] => Some (u, n)
  | it :: its =>
      let t := round_up 8 u + (32 + i_size it) in
      reject (cap <? t) || (2 ^ 24 <? 32 + i_size it) || (1024 <=? n) with None;
      if zlen (i_blob it) =? 0 then layout cap t (n + 1) its
      else
        let e := round_up 8 t + zlen (i_blob it) in
        reject cap <? e with None;
        layout cap e (n + 1) its
  end.

Lemma layout_app cap u n xs ys :
  layout cap u n (xs ++ ys) = ('(u, n) ← layout cap u n xs; layout cap u n ys).
Proof.
  revert u n. induction xs as [|it xs IH]; intros u n; [done|]. cbn [app layout].
  destruct (_ || _); [done|]. destruct (_ =? 0); [apply IH|]. destruct (_ <? _); [done|apply IH].
Qed.

(** What an item takes at most, with the padding before it and its data. *)
Definition room (it : item) : Z := 7 + (32 + i_size it) + (7 + zlen (i_blob it)).

Definition rooms (its : list item) : Z := foldr (fun it n => room it + n) 0 its.

Lemma rooms_app xs ys : rooms (xs ++ ys) = rooms xs + rooms ys.
Proof. induction xs as [|x xs IH]; [done|]. cbn [app rooms foldr] in *. fold (rooms (xs ++ ys)) (rooms xs). lia. Qed.

Lemma rooms_nonneg its : Forall (fun it => 0 <= i_size it) its -> 0 <= rooms its.
Proof.
  induction 1 as [|it its ? _ IH]; [done|]. cbn [rooms foldr]. fold (rooms its). unfold room.
  pose proof (zlen_nonneg (i_blob it)). lia.
Qed.

Lemma layout_fits cap u n its :
  0 <= u -> Forall (fun it => 0 <= i_size it) its -> n + zlen its <= 1024 -> cap <= 2 ^ 24 ->
  u + rooms its <= cap -> exists u', layout cap u n its = Some (u', n + zlen its).
Proof.
  intros Hu Hall Hn Hcap Hroom. revert u n Hu Hn Hroom. induction Hall as [|it its Hi Hall IH]; intros u n Hu Hn Hroom.
  { exists u. cbn [layout]. rewrite zlen_nil. by rewrite Z.add_0_r. }
  cbn [rooms foldr layout] in *. fold (rooms its) in Hroom. unfold room in Hroom. rewrite zlen_cons in *.
  pose proof (zlen_nonneg its). pose proof (zlen_nonneg (i_blob it)). pose proof (rooms_nonneg its Hall).
  pose proof (round_up_bounds 8 u ltac:(lia)) as H8. set (t := round_up 8 u + (32 + i_size it)) in *.
  pose proof (round_up_bounds 8 t ltac:(lia)) as H8'.
  replace ((cap <? t) || (2 ^ 24 <? 32 + i_size it) || (1024 <=? n)) with false by lia.
  replace (n + (1 + zlen its)) with (n + 1 + zlen its) by lia.
  destruct (_ =? 0); [|replace (cap <? _) with false by lia]; apply IH; lia.
Qed.

(** ** Allocations that fail *)

Lemma failed_bump b len : overflow b <> 0 -> arena_bump b len = (set_overflow b, None).
Proof.
  intros Ho. unfold arena_bump. rewrite (proj2 (Z.eqb_neq _ _) Ho). cbn [negb].
  by rewrite orb_true_r.
Qed.

Lemma failed_alloc m b id ver size :
  overflow b <> 0 -> bbp_alloc_tag m (Some b) id ver size = Some (m, Some (set_overflow b), 0).
Proof. intros Ho. unfold bbp_alloc_tag. rewrite failed_bump by done. by destruct (_ || _). Qed.

(** The arena has no room left for [len] bytes. *)
Lemma full_bump m b ts len :
  builder_rep m b ts -> plannable b -> capacity b < round_up 8 (used b) + len ->
  arena_bump b len = (set_overflow b, None).
Proof.
  intros [[? ?] _ [[? ?] ?] _ _ _ _ _ _ _] [? ? ?] Hfull. iconsts. unfold arena_bump. bconsts.
  destruct (_ || _ || _); [done|]. rewrite align8_up_eq by (iconsts; lia).
  replace ((capacity b <? round_up 8 (used b)) || (capacity b - round_up 8 (used b) <? len)) with true by lia.
  done.
Qed.

Lemma full_alloc m b ts id ver size :
  builder_rep m b ts -> plannable b ->
  capacity b < round_up 8 (used b) + size \/ 2 ^ 24 < size \/ 1024 <= tag_count b ->
  bbp_alloc_tag m (Some b) id ver size = Some (m, Some (set_overflow b), 0).
Proof.
  intros Hrep Hpl Hfull. unfold bbp_alloc_tag. destruct (_ || _) eqn:G; [done|]. bconsts. bool_to_prop.
  rewrite (full_bump m b ts) by (done || lia). done.
Qed.

(** ** Emitters *)

(** The unused part of the arena is zero. *)
Definition blank (m : mem) (b : bbp_builder) : Prop :=
  forall x, arena b + used b <= x < arena b + capacity b -> m !! x = Some x00.

Lemma blank_bytes m b a n :
  blank m b -> arena b + used b <= a -> 0 <= n -> a + n <= arena b + capacity b ->
  bytes_at m a (replicate (Z.to_nat n) x00).
Proof.
  intros Hb Ha Hn He i c Hi. apply lookup_replicate in Hi as [-> Hi]. apply Hb. lia.
Qed.

Section Builds.
(** The arena, where it is in physical memory, and a property of the source
    data that writes into the arena cannot change. *)
Context (A C P : Z) (src : mem -> Prop).
Context (Hsrc : forall m m', frame A C m m' -> src m -> src m').
Context (HC : C <= BBP_IMPORT_MAX_ARENA) (HP : P + C <= 2 ^ 48) (HA : A + C < 2 ^ 64).

(** A builder for this arena with [ts] in it. *)
Record ready_for (m : mem) (b : bbp_builder) (ts : list tagrec) : Prop := ReadyFor {
  rf_rep : builder_rep m b ts;
  rf_place : arena b = A /\ arena_phys b = P /\ capacity b = C;
  rf_blank : blank m b;
  rf_src : src m;
}.

Lemma ready_plannable m b ts : ready_for m b ts -> plannable b.
Proof.
  intros [Hrep (? & ? & ?) _ _]. destruct (br_used _ _ _ Hrep) as [[? ?] _]. split; lia.
Qed.

(** The builder is marked failed, and nothing outside the arena was written. *)
Definition gave_up (m m' : mem) (b b' : bbp_builder) : Prop :=
  overflow b' <> 0 /\ same_arena b b' /\ frame A C m m'.

Definition builds (E : emitter) (its : list item) : Prop :=
  (forall m b, overflow b <> 0 -> src m -> exists b', E m b = Some (m, b') /\ gave_up m m b b') /\
  (forall m b ts, ready_for m b ts ->
     match layout C (used b) (tag_count b) its with
     | None => exists m' b', E m b = Some (m', b') /\ gave_up m m' b b'
     | Some (u, n) =>
         exists m' b' new,
           E m b = Some (m', b') /\ ready_for m' b' (ts ++ new) /\ used b' = u /\ tag_count b' = n /\
           used b <= used b' /\ frame A C m m' /\ kept m m' b ts /\
           Forall2 (holds m' b' (ts ++ new)) its new /\ Forall (fun t => used b <= t_off t) new
     end).

Lemma builds_nothing : builds (fun m b => Some (m, b)) [].
Proof.
  split.
  - intros m b Ho _. exists b. split; [done|]. split_and!; [done|done|apply frame_refl].
  - intros m b ts Hr. cbn [layout]. exists m, b, []. rewrite app_nil_r. by split_and!.
Qed.

Lemma builds_when (c : bool) E its : (c = true -> builds E its) -> builds (emit_when c E) (if c then its else []).
Proof. destruct c; intros H; [by apply H|apply builds_nothing]. Qed.

Lemma builds_seq E1 E2 its1 its2 :
  Forall item_wf its1 -> builds E1 its1 -> builds E2 its2 -> builds (E1 ;;; E2) (its1 ++ its2).
Proof.
  intros Hwf [F1 H1] [F2 H2].
  assert (forall m m1 b b1, src m -> E1 m b = Some (m1, b1) -> gave_up m m1 b b1 ->
    exists b', (E1 ;;; E2) m b = Some (m1, b') /\ gave_up m m1 b b') as Hthen.
  { intros m m1 b b1 Hs E (Ho & Ha & Hf). destruct (F2 m1 b1 Ho) as (b2 & E' & Ho' & Ha' & _); [by eapply Hsrc|].
    exists b2. split; [unfold emit_seq; by rewrite E|]. split_and!; [done|by etrans|done]. }
  split.
  - intros m b Ho Hs. destruct (F1 m b Ho Hs) as (b1 & E & Hg). by eapply Hthen.
  - intros m b ts Hr. rewrite layout_app. specialize (H1 m b ts Hr).
    destruct (layout C (used b) (tag_count b) its1) as [[u n]|]; cbn [mbind option_bind].
    2: { destruct H1 as (m1 & b1 & E & Hg). destruct (Hthen m m1 b b1) as (b' & E' & Hg'); [apply Hr|done|done|].
         by exists m1, b'. }
    destruct H1 as (m1 & b1 & new1 & E1' & Hr1 & <- & <- & Hu1 & Hf1 & Hk1 & Hh1 & Hn1).
    pose proof (rf_rep _ _ _ Hr1) as Hrep1.
    destruct (rf_place _ _ _ Hr) as (? & ? & ?), (rf_place _ _ _ Hr1) as (? & ? & ?).
    specialize (H2 m1 b1 (ts ++ new1) Hr1). destruct (layout C (used b1) (tag_count b1) its2) as [[u n]|].
    + destruct H2 as (m2 & b2 & new2 & E2' & Hr2 & <- & <- & Hu2 & Hf2 & Hk2 & Hh2 & Hn2).
      destruct (rf_place _ _ _ Hr2) as (? & ? & ?).
      assert (same_arena b b1) as Ha1 by (split_and!; congruence).
      exists m2, b2, (new1 ++ new2). rewrite <- app_assoc in *. split_and!; try done; [..|lia|by eapply frame_trans| | |].
      * unfold emit_seq. by rewrite E1'.
      * by eapply kept_trans.
      * apply Forall2_app; [|done]. eapply Forall2_strengthen; [exact Hh1|exact Hwf|].
        intros it t Hin Hit Hh. rewrite app_assoc.
        eapply (holds_kept m1 m2 b1 b2); try done; [apply in_or_app; by right|split_and!; congruence].
      * apply Forall_app. split; [done|]. eapply Forall_impl; [exact Hn2|]. cbn. lia.
    + destruct H2 as (m2 & b2 & E2' & Ho & Ha & Hf). exists m2, b2. split; [unfold emit_seq; by rewrite E1'|].
      split_and!; [done| |by eapply frame_trans]. etrans; [|exact Ha]. split_and!; congruence.
Qed.

(** ** One tag *)

(** A tag that fits: its body is still zero. *)
Lemma alloc_ready m b ts id n :
  ready_for m b ts -> 0 <= n -> in_word 64 id -> tag_count b < 1024 -> 32 + n <= 2 ^ 24 ->
  round_up 8 (used b) + (32 + n) <= C ->
  let t := Tag (round_up 8 (used b)) id 1 (32 + n) in
  exists m1 b1,
    bbp_alloc_tag m (Some b) id 1 (32 + n) = Some (m1, Some b1, A + t_off t) /\
    ready_for m1 b1 (ts ++ [t]) /\ used b1 = t_off t + (32 + n) /\ tag_count b1 = tag_count b + 1 /\
    frame A C m m1 /\ kept m m1 b ts /\
    bytes_at m1 (A + t_off t + 32) (replicate (Z.to_nat n) x00).
Proof.
  intros Hr Hn Hid Hcnt Hmax Hfit t. pose proof (ready_plannable _ _ _ Hr) as Hpl.
  pose proof Hr as [Hrep (Ea & Ep & Ec) Hb Hs]. pose proof Hrep as [[? ?] _ [[? ?] ?] _ _ _ Htags _ _ _].
  destruct (alloc_tag_fits m b ts id 1 (32 + n)) as
    (m1 & b1 & Hal & Hrep1 & Har & Hu1 & Hc1 & Hf1 & Hk1); [done|done|done|done|lia|done|lia|].
  fold t in Hal, Hrep1, Hu1. rewrite Ea, Ec in Hf1. rewrite Ea in Hal.
  pose proof (round_up_bounds 8 (used b) ltac:(lia)) as Ho.
  assert (t_off t = round_up 8 (used b)) as Et by done. clearbody t. rewrite <- Et in *.
  assert (forall x, A + t_off t + 32 <= x < A + C -> m1 !! x = Some x00) as Hz.
  { intros x Hx. rewrite <- (Hb x) by lia.
    assert (in_word 16 1) as W1 by done. assert (0 <= 32 + n) as W2 by lia.
    apply (bbp_alloc_tag_spec _ _ _ _ _ _ _ _ _ Hrep Hid W1 W2) in Hal as
      [(Hp & _)|(_ & _ & _ & _ & _ & _ & _ & Hf)]; [lia|]. apply Hf; [lia|]. intros Hne.
    destruct (last_in m b ts Hrep Hne) as (u & Hin & ->).
    destruct (tags_ok_in _ _ _ u Htags Hin) as (? & ? & ? & ? & _). lia. }
  destruct Har as (Ha1 & Hp1 & Hc1').
  exists m1, b1. split_and!; try done.
  - split; [done|split_and!; congruence| |by eapply Hsrc]. intros x Hx. apply Hz. lia.
  - intros i c Hi. apply lookup_replicate in Hi as [-> Hi]. apply Hz. lia.
Qed.

(** Writing the body of the last tag. *)
Lemma ready_body m m' b ts t :
  ready_for m b (ts ++ [t]) -> t_off t + t_size t <= used b -> 0 <= t_off t ->
  frame (A + t_off t + 32) (t_size t - 32) m m' -> frame A C m m' -> ready_for m' b (ts ++ [t]).
Proof.
  intros [Hrep (Ea & Ep & Ec) Hb Hs] Hu H0 F FA. split; [|done| |by eapply Hsrc].
  - eapply rep_body_frame; [exact Hrep|]. by rewrite Ea.
  - intros x Hx. rewrite <- (Hb x Hx). apply F. lia.
Qed.

Lemma gave_up_overflow m b : gave_up m m b (set_overflow b).
Proof. split_and!; [done|done|apply frame_refl]. Qed.

Lemma builds_tag id n W body :
  0 <= n -> in_word 64 id -> zlen body = n -> writes A C src W n body ->
  builds (put_tag id (32 + n) W) [Item id [] n (fun _ => body)].
Proof.
  intros Hn Hid Hlen HW. unfold put_tag, put_tag_with. split.
  { intros m b Ho _. rewrite failed_alloc by done. exists (set_overflow b). split; [done|]. apply gave_up_overflow. }
  intros m b ts Hr. cbn [layout i_size i_blob]. change (zlen [] =? 0) with true. cbn iota.
  pose proof (rf_place _ _ _ Hr) as (Ea & Ep & Ec). pose proof (rf_rep _ _ _ Hr) as Hrep.
  pose proof Hrep as [[? ?] _ [[? ?] ?] _ _ _ _ _ _ _].
  destruct (_ || _) eqn:G.
  { rewrite (full_alloc m b ts); [|done|by eapply ready_plannable|bool_to_prop; lia].
    exists m, (set_overflow b). split; [done|]. apply gave_up_overflow. }
  assert (round_up 8 (used b) + (32 + n) <= C /\ 32 + n <= 2 ^ 24 /\ tag_count b < 1024) as (? & ? & ?)
    by (bool_to_prop; lia).
  destruct (alloc_ready m b ts id n Hr) as (m1 & b1 & -> & Hr1 & Hu1 & Hc1 & Hf1 & Hk1 & Hz1); [done..|].
  set (t := Tag (round_up 8 (used b)) id 1 (32 + n)) in *.
  pose proof (round_up_bounds 8 (used b) ltac:(lia)) as Ho.
  assert (t_off t = round_up 8 (used b)) as Et by done. assert (t_size t = 32 + n) as Es by done.
  assert (t_id t = id /\ t_ver t = 1) as [Ei Ev] by done. clearbody t. rewrite <- Et in *.
  cbn [mbind option_bind]. rewrite (proj2 (Z.eqb_neq _ 0)) by lia.
  destruct (HW m1 (A + t_off t)) as (m2 & -> & Hb2 & Hf2); [apply Hr1|lia|lia|done|].
  assert (frame A C m1 m2) as Hf2' by (eapply frame_weaken; [exact Hf2|lia|lia]).
  cbn [mbind option_bind]. exists m2, b1, [t]. split_and!; try done.
  - eapply ready_body; [exact Hr1|lia|lia| |done]. rewrite Es. by replace (32 + n - 32) with n by lia.
  - lia.
  - by eapply frame_trans.
  - intros x Hx Hl. destruct Hf2 as [_ Hf2]. rewrite Hf2 by lia. by apply Hk1.
  - constructor; [|constructor]. split_and!; try done. exists 0. destruct (rf_place _ _ _ Hr1) as (-> & _).
    cbn [i_body i_blob]. auto.
  - constructor; [lia|constructor].
Qed.

(** ** A tag and its data *)

(** [D] copies [bs] into the arena, or marks the builder failed. *)
Definition allocates (D : mem -> bbp_builder -> option (mem * option bbp_builder * Z * Z))
    (bs : list byte) (len none : Z) : Prop :=
  forall m b ts, ready_for m b ts ->
    let o := round_up 8 (used b) in
    if C <? o + zlen bs then D m b = Some (m, Some (set_overflow b), 0, none)
    else exists m', D m b = Some (m', Some (set_used b (o + zlen bs)), P + o, len) /\
      builder_rep m' (set_used b (o + zlen bs)) ts /\
      frame (A + o) (zlen bs) m m' /\ bytes_at m' (A + o) bs.

Lemma data_ready m m' b ts (bs : list byte) :
  ready_for m b ts -> let o := round_up 8 (used b) in o + zlen bs <= C ->
  builder_rep m' (set_used b (o + zlen bs)) ts -> frame (A + o) (zlen bs) m m' ->
  ready_for m' (set_used b (o + zlen bs)) ts /\ frame A C m m'.
Proof.
  intros [Hrep (Ea & Ep & Ec) Hb Hs] o Hfit Hrep' F. pose proof (br_used _ _ _ Hrep) as [[? ?] _].
  pose proof (round_up_bounds 8 (used b) ltac:(lia)) as Ho. fold o in Ho. pose proof (zlen_nonneg bs).
  assert (frame A C m m') as FA by (eapply frame_weaken; [exact F|lia|lia]).
  split; [|done]. split; [done|done| |by eapply Hsrc].
  intros x Hx. cbn [arena used capacity set_used] in Hx. rewrite <- (Hb x) by lia. apply F. lia.
Qed.

Lemma builds_data id n D bs len none W body :
  0 <= n -> in_word 64 id -> zlen bs <> 0 -> (forall phys, zlen (body phys) = n) ->
  allocates D bs len none ->
  (forall m tag, mapped m (tag + 32) n -> exists m', W 0 none m tag = Some m' /\ frame (tag + 32) n m m') ->
  (forall tag o, tag + 32 + n <= A + o -> 0 <= o -> o + zlen bs <= C ->
     writes tag (32 + n) (fun m => bytes_at m (A + o) bs) (W (P + o) len) n (body (P + o))) ->
  builds (put_data_tag id (32 + n) D W) [Item id bs n body].
Proof.
  intros Hn Hid Hne Hlen HD HW0 HW. unfold put_data_tag, put_tag_with. split.
  { intros m b Ho _. rewrite failed_alloc by done. exists (set_overflow b). split; [done|]. apply gave_up_overflow. }
  intros m b ts Hr. cbn [layout i_size i_blob]. rewrite (proj2 (Z.eqb_neq _ 0) Hne).
  pose proof (rf_place _ _ _ Hr) as (Ea & Ep & Ec). pose proof (rf_rep _ _ _ Hr) as Hrep.
  pose proof Hrep as [[? ?] _ [[? ?] ?] _ _ _ _ _ _ _]. pose proof (zlen_nonneg bs).
  destruct (_ || _) eqn:G.
  { rewrite (full_alloc m b ts); [|done|by eapply ready_plannable|bool_to_prop; lia].
    exists m, (set_overflow b). split; [done|]. apply gave_up_overflow. }
  assert (round_up 8 (used b) + (32 + n) <= C /\ 32 + n <= 2 ^ 24 /\ tag_count b < 1024) as (? & ? & ?)
    by (bool_to_prop; lia).
  destruct (alloc_ready m b ts id n Hr) as (m1 & b1 & -> & Hr1 & Hu1 & Hc1 & Hf1 & Hk1 & Hz1); [done..|].
  set (t := Tag (round_up 8 (used b)) id 1 (32 + n)) in *.
  pose proof (round_up_bounds 8 (used b) ltac:(lia)) as Ho.
  assert (t_off t = round_up 8 (used b)) as Et by done. assert (t_size t = 32 + n) as Es by done.
  assert (t_id t = id /\ t_ver t = 1) as [Ei Ev] by done. clearbody t. rewrite <- Et in *.
  cbn [mbind option_bind]. rewrite (proj2 (Z.eqb_neq _ 0)) by lia.
  pose proof (rf_place _ _ _ Hr1) as (Ea1 & Ep1 & Ec1). specialize (HD m1 b1 _ Hr1). cbn zeta in HD. rewrite Hu1 in HD.
  pose proof (round_up_bounds 8 (t_off t + (32 + n)) ltac:(lia)) as Ho2.
  set (o := round_up 8 (t_off t + (32 + n))) in *. destruct (Z.ltb_spec C (o + zlen bs)) as [Hfull|Hfit].
  { rewrite HD. cbn [mbind option_bind].
    destruct (HW0 m1 (A + t_off t)) as (m2 & -> & F2).
    { pose proof (br_mapped _ _ _ (rf_rep _ _ _ Hr1)) as Hm. rewrite Ea1, Ec1 in Hm.
      eapply mapped_sub; [exact Hm|lia|lia]. }
    cbn [mbind option_bind]. exists m2, (set_overflow b1). split; [done|]. split_and!; [done| |].
    - split_and!; cbn [set_overflow arena arena_phys capacity]; congruence.
    - eapply frame_trans; [exact Hf1|]. eapply frame_weaken; [exact F2|lia|lia]. }
  destruct HD as (m2 & -> & Hrep2 & F2 & Hat2). cbn [mbind option_bind].
  destruct (data_ready m1 m2 b1 (ts ++ [t]) bs Hr1) as [Hr2 FA2]; [rewrite Hu1; fold o; done..|].
  rewrite Hu1 in Hr2. fold o in Hr2. set (b2 := set_used b1 (o + zlen bs)) in *.
  assert (used b2 = o + zlen bs) as Hu2 by done. assert (tag_count b2 = tag_count b1) as Hc2 by done. clearbody b2.
  destruct (HW (A + t_off t) o) with (m := m2) (tag := A + t_off t) as (m3 & -> & Hb3 & F3); [lia..|done|lia|lia| |].
  { eapply frame_bytes_at; [exact F2|rewrite zlen_replicate; lia|exact Hz1]. }
  cbn [mbind option_bind]. assert (frame A C m2 m3) as FA3 by (eapply frame_weaken; [exact F3|lia|lia]).
  assert (ready_for m3 b2 (ts ++ [t])) as Hr3.
  { eapply ready_body; [exact Hr2|lia|lia| |done]. rewrite Es. by replace (32 + n - 32) with n by lia. }
  exists m3, b2, [t]. split_and!; try done; [lia|lia| | | |by constructor; [lia|constructor]].
  - eapply frame_trans; [exact Hf1|]. by eapply frame_trans.
  - intros x Hx Hl. destruct F2 as [_ F2], F3 as [_ F3]. rewrite F3, F2 by lia. by apply Hk1.
  - constructor; [|constructor]. split_and!; try done. exists (P + o).
    destruct (rf_place _ _ _ Hr3) as (-> & -> & _). cbn [i_body i_blob]. split; [done|]. right.
    replace (P + o - P) with o by lia. split_and!; [lia|lia| |].
    + intros u Hin. right. destruct (tags_ok_in _ _ _ u (br_tags _ _ _ (rf_rep _ _ _ Hr1)) Hin) as (? & ? & ? & ? & _). lia.
    + eapply frame_bytes_at; [exact F3|lia|done].
Qed.
End Builds.
