(* ===== verification/PortParts.v ===== *)
(** * The tags the ports write

    The item each statement of the adapters stands for, and that it builds it. *)

From S2P Require Import Prelude Memory Crc64 Abi KernelParser KernelFacts Builder BuilderFacts Handoff Import ImportFacts ImportEmit ImportBodies Boot Port PortFacts.

(** ** Items *)

Definition when (c : bool) (it : item) : list item := if c then [it] else [].

Lemma when_wf c it : item_wf it -> Forall item_wf (when c it).
Proof. intros H. destruct c; [by constructor; [|constructor]|constructor]. Qed.

Lemma when_ids c it : sublist (map i_id (when c it)) [i_id it].
Proof. destruct c; [done|apply sublist_nil_l]. Qed.

Lemma in_when_id c it id : In id (map i_id (when c it)) -> c = true /\ i_id it = id.
Proof. destruct c; [|done]. by intros [|]. Qed.

Lemma in_when c it : c = true -> In it (when c it).
Proof. intros ->. by left. Qed.

Lemma when_rooms c it : 0 <= i_size it -> rooms (when c it) <= room it.
Proof. destruct c; cbn; unfold room; pose proof (zlen_nonneg (i_blob it)); lia. Qed.

Lemma when_zlen c it : zlen (when c it) <= 1.
Proof. by destruct c. Qed.

Definition hhdm_item (offset : Z) : item := Item BBP_TAG_HHDM [] 8 (fun _ => hhdm_body offset).

Definition kernel_address_item (phys virt : Z) : item :=
  Item BBP_TAG_KERNEL_ADDRESS [] 16 (fun _ => kernel_address_body phys virt).

Definition acpi_item (rsdp : Z) : item := Item BBP_TAG_ACPI [] 24 (fun _ => acpi_body rsdp 0 0 0 0).

Definition entry_bytes (class attrs : Z -> Z) (e : mmap_entry) : list byte :=
  memory_entry_bytes (me_base e) (me_length e) (class (me_type e)) (attrs (class (me_type e))).

Definition memory_map_item (class attrs : Z -> Z) (entries : list mmap_entry) : item :=
  Item BBP_TAG_MEMORY_MAP [] (8 + 32 * zlen entries)
    (fun _ => memory_map_body (map (entry_bytes class attrs) entries)).

Definition cmdline_item (text : list byte) : item :=
  Item BBP_TAG_CMDLINE (text ++ [x00]) 24 (cmdline_body text).

Definition mmap_items (class attrs : Z -> Z) (mmap : Z * list mmap_entry) : list item :=
  when (negb (fst mmap =? 0) && negb (zlen (snd mmap) =? 0)) (memory_map_item class attrs (snd mmap)).

Definition boot_fb_body (fb : boot_fb) : list byte :=
  le_encode 8 (bf_address fb) ++ le_encode 2 1 ++ le_encode 2 0 ++ le_encode 4 (bf_pitch fb) ++
  le_encode 8 (bf_pitch fb * bf_height fb) ++ replicate 16 x00 ++
  le_encode 2 (bf_width fb) ++ le_encode 2 (bf_height fb) ++ replicate 2 x00 ++
  le_encode 2 (if negb (bf_bpp fb =? 0) then bf_bpp fb / 4 else 8) ++
  le_encode 4 (if negb (bf_pixel_format fb =? 0) then bf_pixel_format fb else BBP_FB_RGB888) ++
  replicate 36 x00.

Definition boot_fb_items (fb : boot_fb) : list item :=
  when (negb (bf_address fb =? 0) && negb (bf_width fb =? 0) && negb (bf_height fb =? 0))
    (Item BBP_TAG_FRAMEBUFFER [] 88 (fun _ => boot_fb_body fb)).

Definition boot_cpu_bytes (bsp : Z) (c : boot_cpu) : list byte :=
  le_encode 4 (bc_processor_id c) ++ le_encode 4 (bc_apic_id c) ++ le_encode 2 (cpu_state bsp c) ++
  replicate 4 x00 ++ le_encode 2 (bc_core_id c) ++ replicate 32 x00.

Definition boot_smp_item (cpus : list boot_cpu) (bsp flags : Z) : item :=
  Item BBP_TAG_SMP [] (16 + 48 * zlen cpus) (fun _ =>
    le_encode 4 (zlen cpus) ++ le_encode 4 bsp ++ le_encode 8 flags ++
    concat (map (boot_cpu_bytes bsp) cpus)).

Definition boot_smp_items (cpus : Z * list boot_cpu) (bsp flags : Z) : list item :=
  when (negb (fst cpus =? 0) && negb (zlen (snd cpus) =? 0)) (boot_smp_item (snd cpus) bsp flags).

Lemma zlen_entry_bytes class attrs e : zlen (entry_bytes class attrs e) = 32.
Proof. done. Qed.

Lemma zlen_boot_smp cpus bsp flags phys : zlen (i_body (boot_smp_item cpus bsp flags) phys) = 16 + 48 * zlen cpus.
Proof.
  cbn. autorewrite with zlen. rewrite (zlen_concat_map (boot_cpu_bytes bsp) 48) by done. lia.
Qed.

(** The string at [s], NULL or terminated. *)
Definition string_at (m : mem) (s : Z) (text : list byte) : Prop :=
  if s =? 0 then text = [] else bytes_at m s (text ++ [x00]) /\ ~ In x00 text /\ zlen text < SIZE_MAX.

(** ** The command line *)

Lemma write_cmdline_copy A C (src : mem -> Prop) T Q o text :
  (forall m m', frame A C m m' -> src m -> src m') -> (forall m, src m -> bytes_at m (T + o) text) ->
  0 < Q -> 0 <= o < 2 ^ 64 ->
  writes A C src (write_cmdline T Q (Q + o) (zlen text)) 24 (cmdline_body text (Q + o)).
Proof.
  intros Hsrc Hrd HQ Ho. unfold write_cmdline. start 24%nat. put 0%nat. put 0%nat. put 0%nat.
  rewrite (proj2 (Z.eqb_neq _ 0)) by lia. cbn [negb]. replace (Q + o - Q) with o by lia.
  rewrite wrap_small by (unfold in_word; lia). rewrite bbp_crc64_spec. unfold zlen at 1. rewrite Nat2Z.id.
  rewrite (bytes_at_load _ _ _ (Hrd _ ltac:(eassumption))). cbn [mbind option_bind].
  put 0%nat. by finish.
Qed.

Lemma store_bytes_join m a xs ys b :
  b = a + zlen xs -> (m ← store_bytes m a xs; store_bytes m b ys) = store_bytes m a (xs ++ ys).
Proof. intros ->. by rewrite store_bytes_app. Qed.

Lemma write_cmdline_none T Q m tag :
  mapped m (tag + 32) 24 ->
  exists m', write_cmdline T Q 0 0 m tag = Some m' /\ frame (tag + 32) 24 m m'.
Proof.
  intros Hm. unfold write_cmdline. cbn [Z.eqb negb]. unfold store64, store32.
  do 2 rewrite <- (store_bytes_bind_app m) by (autorewrite with zlen; lia).
  rewrite store_bytes_join by (autorewrite with zlen; lia).
  set (bs := _ ++ _). assert (zlen bs = 24) as Hz by done. clearbody bs.
  destruct (store_bytes_mapped m (tag + 32) bs) as [m' E]; [by rewrite Hz|].
  exists m'. rewrite E. split; [done|]. apply frame_store in E. by rewrite Hz in E.
Qed.

Section Parts.
Context (A C P : Z) (src : mem -> Prop).
Context (Hsrc : forall m m', frame A C m m' -> src m -> src m').
Context (HC : C <= BBP_IMPORT_MAX_ARENA) (HP : P + C <= 2 ^ 48) (HA : A + C < 2 ^ 64).

Let built := builds A C P src.

Lemma hhdm_builds offset : built (put_hhdm offset) [hhdm_item offset].
Proof.
  apply (builds_tag A C P src Hsrc HC HP HA BBP_TAG_HHDM 8); [lia|done|done|]. by apply hhdm_writes.
Qed.

Lemma kernel_address_builds phys virt : built (put_kernel_address phys virt) [kernel_address_item phys virt].
Proof.
  apply (builds_tag A C P src Hsrc HC HP HA BBP_TAG_KERNEL_ADDRESS 16); [lia|done|done|].
  start 16%nat. put 0%nat. put 0%nat. by finish.
Qed.

Lemma acpi_builds rsdp : built (put_acpi rsdp) [acpi_item rsdp].
Proof.
  apply (builds_tag A C P src Hsrc HC HP HA BBP_TAG_ACPI 24); [lia|done|done|].
  start 24%nat. put 0%nat. put 0%nat. put 0%nat. put 0%nat. put 0%nat. by finish.
Qed.

Lemma put_entries_writes class attrs a N : forall entries written m p,
  A <= a -> a + N <= A + C -> src m ->
  bytes_at m a (written ++ replicate (32 * length entries) x00) ->
  zlen written + 32 * zlen entries = N -> p = a + zlen written ->
  exists m', put_entries class attrs m p entries = Some m' /\
    bytes_at m' a (written ++ concat (map (entry_bytes class attrs) entries)) /\ frame a N m m'.
Proof.
  induction entries as [|e entries IH]; intros written m p Ha HN Hsm Hat Hall ->.
  { exists m. split_and!; [done|done|apply frame_refl]. }
  cbn [put_entries length] in Hat |- *. rewrite zlen_cons in Hall.
  put 0%nat. put 0%nat. put 0%nat. put 0%nat. put 0%nat. put 0%nat.
  replace (32 * S (length entries) - 0 - 8 - 0 - 8 - 0 - 4 - 0 - 4 - 0 - 4 - 0 - 4)%nat
    with (32 * length entries)%nat in Hat by lia.
  destruct (IH _ _ (a + zlen written + sizeof bbp_memory_entry) Ha HN Hs Hat) as (m' & Hl & Hb & Hf).
  { autorewrite with zlen. lia. }
  { autorewrite with zlen. change (sizeof bbp_memory_entry) with 32. lia. }
  exists m'. split_and!; [done| |done]. cbn [map concat].
  change (entry_bytes class attrs e) with
    (le_encode 8 (me_base e) ++ le_encode 8 (me_length e) ++ le_encode 4 (class (me_type e)) ++
     le_encode 4 (attrs (class (me_type e))) ++ le_encode 4 0 ++ le_encode 4 0).
  rewrite <- !app_assoc in *. exact Hb.
Qed.

Lemma zlen_map {X Y} (f : X -> Y) l : zlen (map f l) = zlen l.
Proof. unfold zlen. by rewrite length_map. Qed.

Lemma memory_map_builds class attrs mmap :
  built (put_memory_map class attrs mmap) (mmap_items class attrs mmap).
Proof.
  apply builds_when. intros _. pose proof (zlen_nonneg (snd mmap)) as H0.
  change (sizeof bbp_tag_memory_map) with 40. change (sizeof bbp_memory_entry) with 32.
  replace (40 + zlen (snd mmap) * 32) with (32 + (8 + 32 * zlen (snd mmap))) by lia.
  apply (builds_tag A C P src Hsrc HC HP HA BBP_TAG_MEMORY_MAP); [lia|done| |].
  - apply (iw_body _ (memory_map_item_wf (entry_bytes class attrs) (snd mmap) (zlen_entry_bytes class attrs)) 0).
  - intros m tag Hs Ht Hend Hat.
    replace (Z.to_nat (8 + 32 * zlen (snd mmap))) with (8 + 32 * length (snd mmap))%nat in Hat
      by (unfold zlen; lia).
    rewrite <- (app_nil_l (replicate _ x00)) in Hat. put 0%nat. put 0%nat.
    replace (8 + 32 * length (snd mmap) - 0 - 4 - 0 - 4)%nat with (32 * length (snd mmap))%nat in Hat by lia.
    destruct (put_entries_writes class attrs (tag + 32) (8 + 32 * zlen (snd mmap)) (snd mmap) _ _ (tag + 40)
      ltac:(lia) ltac:(lia) Hs Hat) as (m' & E & Hb & F); [autorewrite with zlen; lia..|].
    exists m'. split_and!; [done| |done]. unfold memory_map_body. rewrite zlen_map.
    rewrite <- !app_assoc in Hb. exact Hb.
Qed.

Lemma boot_fb_builds fb : built (put_framebuffer fb) (boot_fb_items fb).
Proof.
  apply builds_when. intros _. apply (builds_tag A C P src Hsrc HC HP HA BBP_TAG_FRAMEBUFFER 88); [lia|done|done|].
  change (sizeof bbp_tag_framebuffer) with 72. cbn zeta.
  start 88%nat. do 10 put 0%nat. put 2%nat. put 0%nat. put 16%nat. do 2 put 0%nat. finish.
  unfold boot_fb_body. rewrite <- !app_assoc. reflexivity.
Qed.

Lemma put_cpus_writes bsp a N : forall cpus written m p,
  A <= a -> a + N <= A + C -> src m ->
  bytes_at m a (written ++ replicate (48 * length cpus) x00) ->
  zlen written + 48 * zlen cpus = N -> p = a + zlen written ->
  exists m', put_cpus bsp m p cpus = Some m' /\
    bytes_at m' a (written ++ concat (map (boot_cpu_bytes bsp) cpus)) /\ frame a N m m'.
Proof.
  induction cpus as [|c cpus IH]; intros written m p Ha HN Hsm Hat Hall ->.
  { exists m. split_and!; [done|done|apply frame_refl]. }
  cbn [put_cpus length] in Hat |- *. rewrite zlen_cons in Hall. do 12 put 0%nat.
  match type of Hat with bytes_at _ _ (_ ++ replicate ?k _) => replace k with (48 * length cpus)%nat in Hat by lia end.
  destruct (IH _ _ (a + zlen written + sizeof bbp_cpu_info) Ha HN Hs Hat) as (m' & Hl & Hb & Hf).
  { autorewrite with zlen. lia. }
  { autorewrite with zlen. change (sizeof bbp_cpu_info) with 48. lia. }
  exists m'. split_and!; [done| |done]. cbn [map concat].
  change (boot_cpu_bytes bsp c) with
    (le_encode 4 (bc_processor_id c) ++ le_encode 4 (bc_apic_id c) ++ le_encode 2 (cpu_state bsp c) ++
     le_encode 2 0 ++ le_encode 2 0 ++ le_encode 2 (bc_core_id c) ++ le_encode 2 0 ++ le_encode 2 0 ++
     le_encode 4 0 ++ le_encode 8 0 ++ le_encode 8 0 ++ le_encode 8 0).
  rewrite <- !app_assoc in *. exact Hb.
Qed.

Lemma boot_smp_builds cpus bsp flags : built (put_smp cpus bsp flags) (boot_smp_items cpus bsp flags).
Proof.
  apply builds_when. intros _. pose proof (zlen_nonneg (snd cpus)) as H0.
  change (sizeof bbp_tag_smp) with 48. change (sizeof bbp_cpu_info) with 48.
  replace (48 + zlen (snd cpus) * 48) with (32 + (16 + 48 * zlen (snd cpus))) by lia.
  apply (builds_tag A C P src Hsrc HC HP HA BBP_TAG_SMP); [lia|done|apply (zlen_boot_smp _ _ _ 0)|].
  intros m tag Hs Ht Hend Hat.
  replace (Z.to_nat (16 + 48 * zlen (snd cpus))) with (16 + 48 * length (snd cpus))%nat in Hat by (unfold zlen; lia).
  rewrite <- (app_nil_l (replicate _ x00)) in Hat. do 3 put 0%nat.
  replace (16 + 48 * length (snd cpus) - 0 - 4 - 0 - 4 - 0 - 8)%nat with (48 * length (snd cpus))%nat in Hat by lia.
  destruct (put_cpus_writes bsp (tag + 32) (16 + 48 * zlen (snd cpus)) (snd cpus) _ _ (tag + 48)
    ltac:(lia) ltac:(lia) Hs Hat) as (m' & E & Hb & F); [autorewrite with zlen; lia..|].
  exists m'. split_and!; [done| |done]. rewrite <- !app_assoc in Hb. exact Hb.
Qed.

(** ** Data in the arena *)

Lemma string_allocates s text :
  s <> 0 -> (forall m, src m -> string_at m s text) -> disjoint_range A C s (zlen text + 1) ->
  allocates A C P src (fun m b => bbp_arena_strdup m (Some b) s) (text ++ [x00]) (zlen text) 0.
Proof.
  intros Hs Hstr Hdis m b ts Hr o. pose proof (ready_plannable A C P src HC HP HA _ _ _ Hr) as Hpl.
  pose proof Hr as [Hrep (Ea & Ep & Ec) _ Hsm]. specialize (Hstr m Hsm). unfold string_at in Hstr.
  rewrite (proj2 (Z.eqb_neq s 0) Hs) in Hstr. destruct Hstr as (Hat & Hnz & Hlt).
  pose proof Hrep as [[? ?] _ [[? ?] ?] Hm _ _ _ _ _ _].
  pose proof (round_up_bounds 8 (used b) ltac:(lia)) as Ho. fold o in Ho. pose proof (zlen_nonneg text).
  assert (zlen (text ++ [x00]) = zlen text + 1) as Hz by (autorewrite with zlen; lia).
  unfold bbp_arena_strdup, bbp_arena_strdup_n. rewrite (proj2 (Z.eqb_neq s 0) Hs). cbn [orb].
  change (BBP_BUILDER_SIZE_MAX =? 0) with false. cbn iota.
  rewrite (scan_nul_string _ _ _ text) by done. cbn [mbind option_bind].
  rewrite (proj2 (Z.eqb_neq (zlen text) _)) by (unfold BBP_BUILDER_SIZE_MAX; lia). cbn [orb]. rewrite Hz.
  destruct (Z.ltb_spec C (o + (zlen text + 1))) as [Hfull|Hfit].
  { destruct (_ <? _); [done|]. rewrite (full_bump m b ts) by (done || lia). done. }
  iconsts. rewrite (proj2 (Z.ltb_ge _ (zlen text))) by (bconsts; lia).
  rewrite (arena_bump_fits m b ts) by (done || lia). fold o. rewrite Ea, Ep.
  destruct (store_bytes_mapped m (A + o) (text ++ [x00])) as [m' E].
  { rewrite Hz. rewrite Ea, Ec in Hm. eapply mapped_sub; [exact Hm|lia|lia]. }
  pose proof Hat as Hat'. apply bytes_at_app in Hat' as [Hat' _].
  rewrite (mem_copy_store m (A + o) s (Z.to_nat (zlen text)) text).
  2: { unfold zlen. rewrite Nat2Z.id. by apply bytes_at_load. }
  2: { intros x Hx Hx'. apply (Hdis x); lia. }
  pose proof E as E'. rewrite store_bytes_app in E'. apply bind_Some in E' as (m1 & -> & E').
  cbn [store_bytes] in E'. apply bind_Some in E' as (m2 & E' & [= ->]). cbn [mbind option_bind]. rewrite E'.
  cbn [mbind option_bind]. rewrite wrap_small by (unfold in_word; lia). exists m'.
  pose proof (frame_store _ _ _ _ E) as F. rewrite Hz in F.
  split_and!; [done| |done|by eapply store_bytes_at].
  eapply rep_grow; [exact Hrep|lia|lia|apply F|]. intros x Hx. apply F. lia.
Qed.

Lemma blob_allocates data bs :
  data <> 0 -> (forall m, src m -> bytes_at m data bs) -> zlen bs <> 0 -> disjoint_range A C data (zlen bs) ->
  allocates A C P src (fun m b => '(m, b, phys) ← bbp_arena_blob m (Some b) data (zlen bs); Some (m, b, phys, zlen bs))
    bs (zlen bs) (zlen bs).
Proof.
  intros Hd Hat Hne Hdis m b ts Hr o. pose proof (ready_plannable A C P src HC HP HA _ _ _ Hr) as Hpl.
  pose proof Hr as [Hrep (Ea & Ep & Ec) _ Hsm].
  destruct (Z.ltb_spec C (o + zlen bs)) as [Hfull|Hfit].
  - unfold bbp_arena_blob. rewrite (proj2 (Z.eqb_neq data 0) Hd), (proj2 (Z.eqb_neq _ 0) Hne). cbn [andb].
    rewrite (full_bump m b ts) by (done || (unfold o in *; lia)). done.
  - destruct (blob_fits m b ts data bs) as (m' & -> & Hrep' & F & Hb); [done|done|by apply Hat|done|done| | |].
    + by rewrite Ea, Ec.
    + unfold o in *. lia.
    + cbn [mbind option_bind]. fold o. rewrite Ea, Ep in *. exists m'. by split_and!.
Qed.

Lemma cmdline_builds s text :
  0 < P -> 0 <= A -> s <> 0 -> (forall m, src m -> string_at m s text) -> disjoint_range A C s (zlen text + 1) ->
  built (put_cmdline A P s) [cmdline_item text].
Proof.
  intros HP0 HA0 Hs Hstr Hdis. assert (zlen (text ++ [x00]) = zlen text + 1) as Hz by (autorewrite with zlen; lia).
  pose proof (zlen_nonneg text).
  apply (builds_data A C P src Hsrc HC HP HA BBP_TAG_CMDLINE 24 _ _ (zlen text) 0);
    [lia|done|lia|done|by apply string_allocates|apply write_cmdline_none|].
  intros tag o Ht Ho Hend. iconsts. apply write_cmdline_copy; [| |done|lia].
  - intros m m' F Hat. eapply frame_bytes_at; [exact F|lia|done].
  - intros m Hat. by apply bytes_at_app in Hat as [Hat _].
Qed.

(** [if (bi->cmdline && bi->cmdline[0])] *)
Lemma when_string_builds s text E it :
  (s = 0 -> text = []) -> (forall m, src m -> string_at m s text) ->
  (s <> 0 -> text <> [] -> built E [it]) ->
  built (when_string s E) (when (negb (zlen text =? 0)) it).
Proof.
  intros Hnull Hstr HE. unfold built, when_string in *. destruct (Z.eqb_spec s 0) as [->|Hs].
  { rewrite (Hnull eq_refl). apply builds_nothing. }
  assert (forall m, src m -> exists c, m !! s = Some c /\ (byte_Z c =? 0) = (zlen text =? 0)) as Hc.
  { intros m Hm. specialize (Hstr m Hm). unfold string_at in Hstr. rewrite (proj2 (Z.eqb_neq s 0) Hs) in Hstr.
    destruct Hstr as (Hat & Hnz & _). destruct text as [|c text]; cbn [app] in Hat;
      apply bytes_at_cons in Hat as [-> _]; [by exists x00|]. exists c. split; [done|].
    rewrite zlen_cons. pose proof (zlen_nonneg text). rewrite (proj2 (Z.eqb_neq (1 + zlen text) 0)) by lia.
    apply Z.eqb_neq. intros Hz. apply Hnz. left. by apply byte_Z_inj. }
  destruct (Z.eqb_spec (zlen text) 0) as [Hz|Hz]; cbn [negb when].
  - split.
    + intros m b Ho Hm. destruct (Hc m Hm) as (c & -> & Hb). cbn [mbind option_bind]. rewrite Hb.
      by apply (builds_nothing A C P src).
    + intros m b ts Hr. destruct (Hc m (rf_src _ _ _ _ _ _ _ Hr)) as (c & -> & Hb). cbn [mbind option_bind].
      rewrite Hb. by apply (builds_nothing A C P src).
  - destruct HE as [HE1 HE2]; [done|by intros ->|]. split.
    + intros m b Ho Hm. destruct (Hc m Hm) as (c & -> & Hb). cbn [mbind option_bind]. rewrite Hb. by apply HE1.
    + intros m b ts Hr. destruct (Hc m (rf_src _ _ _ _ _ _ _ Hr)) as (c & -> & Hb). cbn [mbind option_bind].
      rewrite Hb. by apply HE2.
Qed.
End Parts.

(** ** Strings outside the arena *)

Lemma string_at_frame a n m m' s text :
  frame a n m m' -> disjoint_range a n s (zlen text + 1) -> string_at m s text -> string_at m' s text.
Proof.
  intros F Hd. unfold string_at. destruct (s =? 0); [done|]. intros (Hat & ?). split; [|done].
  eapply bytes_at_same_on; [|exact Hat]. eapply frame_same_on; [exact F|].
  by replace (zlen (text ++ [x00])) with (zlen text + 1) by (autorewrite with zlen; lia).
Qed.

Lemma string_at_null m text : string_at m 0 text -> text = [].
Proof. done. Qed.

(** A command line outside the arena. *)
Lemma text_builds A C P src s text :
  (forall m m', frame A C m m' -> src m -> src m') ->
  C <= BBP_IMPORT_MAX_ARENA -> P + C <= 2 ^ 48 -> A + C < 2 ^ 64 -> 0 < P -> 0 <= A ->
  (forall m, src m -> string_at m s text) -> (exists m, src m) -> disjoint_range A C s (zlen text + 1) ->
  builds A C P src (when_string s (put_cmdline A P s)) (when (negb (zlen text =? 0)) (cmdline_item text)).
Proof.
  intros Hsrc HC HP HA HP0 HA0 Hs [m0 Hm0] Hd. apply when_string_builds; [done..| |done|].
  - intros ->. by apply (string_at_null m0), Hs.
  - intros Hne _. by apply cmdline_builds.
Qed.

(** ** Sound items *)

Lemma hhdm_item_wf offset : item_wf (hhdm_item offset).
Proof. by split. Qed.

Lemma kernel_address_item_wf phys virt : item_wf (kernel_address_item phys virt).
Proof. by split. Qed.

Lemma acpi_item_wf rsdp : item_wf (acpi_item rsdp).
Proof. by split. Qed.

Lemma cmdline_item_wf text : item_wf (cmdline_item text).
Proof. by split. Qed.

Lemma port_mmap_items_wf class attrs mmap : Forall item_wf (mmap_items class attrs mmap).
Proof. apply when_wf, memory_map_item_wf, zlen_entry_bytes. Qed.

Lemma boot_fb_items_wf fb : Forall item_wf (boot_fb_items fb).
Proof. apply when_wf. by split. Qed.

Lemma boot_smp_items_wf cpus bsp flags : Forall item_wf (boot_smp_items cpus bsp flags).
Proof.
  apply when_wf. pose proof (zlen_nonneg (snd cpus)). split; [done|cbn; lia|apply zlen_boot_smp].
Qed.

(** An identifier is not among those of a list of conditional items. *)
Ltac not_among :=
  rewrite ?map_app, ?in_app_iff; intros Hin;
  repeat match type of Hin with _ \/ _ => destruct Hin as [Hin|Hin] end;
  first [apply in_when_id in Hin as [? Hin] | apply (in_when_id true) in Hin as [_ Hin]]; by vm_compute in Hin.

Lemma items_fit cap its :
  Forall item_wf its -> zlen its <= 1024 -> cap <= 2 ^ 24 -> rooms its <= cap ->
  exists u n, layout cap 0 0 its = Some (u, n).
Proof.
  intros Hwf Hn Hcap Hr. destruct (layout_fits cap 0 0 its) as [u Hu]; [done| |done..|by eexists _, _].
  eapply Forall_impl; [exact Hwf|]. by intros it [].
Qed.

(** Bounds for a list of conditional items. *)
Ltac bound_rooms :=
  rewrite ?rooms_app, ?zlen_app;
  repeat match goal with
  | |- context [rooms (when ?c ?it)] => pose proof (when_rooms c it); generalize dependent (rooms (when c it)); intros
  | |- context [zlen (when ?c ?it)] => pose proof (when_zlen c it); generalize dependent (zlen (when c it)); intros
  end;
  unfold rooms, room in *;
  cbn [foldr i_size i_blob hhdm_item memory_map_item kernel_address_item acpi_item cmdline_item boot_smp_item] in *;
  rewrite ?zlen_app, ?zlen_cons, ?zlen_nil in *.

Create HintDb items.
#[export] Hint Resolve hhdm_item_wf kernel_address_item_wf acpi_item_wf cmdline_item_wf port_mmap_items_wf
  boot_fb_items_wf boot_smp_items_wf when_wf : items.
