(* ===== verification/PortOpen.v ===== *)
(** * Opening what an adapter has built

    The parser may read the arena through another mapping than the one the
    adapter wrote it through ([seen]).  [build_and_open_spec] follows the items
    of an emitter through finalization and that mapping into the kernel's
    context. *)

From S2P Require Import Prelude Memory Crc64 Abi KernelParser KernelFacts Builder BuilderFacts Handoff Import ImportFacts ImportEmit ImportBodies Boot Port PortFacts PortParts.

(** ** Two mappings of one arena *)

(** [v] shows the bytes that [m] has at [a], [d] higher. *)
Definition seen (m v : mem) (d a n : Z) : Prop :=
  forall x, a <= x < a + n -> v !! (x + d) = m !! x.

Lemma seen_sub m v d a n p k : seen m v d a n -> a <= p -> p + k <= a + n -> seen m v d p k.
Proof. intros Hs ? ? x Hx. apply Hs. lia. Qed.

Lemma bytes_at_seen m v d a n p bs :
  seen m v d a n -> a <= p -> p + zlen bs <= a + n -> bytes_at m p bs -> bytes_at v (p + d) bs.
Proof.
  intros Hs Ha He Hat i c Hi. pose proof (lookup_lt_Some _ _ _ Hi).
  replace (p + d + Z.of_nat i) with (p + Z.of_nat i + d) by lia.
  rewrite Hs by (unfold zlen in He; lia). by apply Hat.
Qed.

Lemma load_bytes_seen m v d k : forall p,
  seen m v d p (Z.of_nat k) -> load_bytes v (p + d) k = load_bytes m p k.
Proof.
  induction k as [|k IH]; intros p Hs; [done|]. cbn [load_bytes]. rewrite Hs by lia.
  replace (p + d + 1) with (p + 1 + d) by lia. rewrite IH; [done|]. intros x Hx. apply Hs. lia.
Qed.

Lemma mapped_seen m v d a n : seen m v d a n -> mapped m a n -> mapped v (a + d) n.
Proof.
  intros Hs Hm x Hx. replace x with (x - d + d) by lia. rewrite Hs by lia. apply Hm. lia.
Qed.

(** The same arena under the other mapping. *)
Definition moved (b : bbp_builder) (d : Z) : bbp_builder :=
  Builder (arena b + d) (arena_phys b) (capacity b) (used b) (last b) (first_phys b) (tag_count b)
    (overflow b).

Section Seen.
Context (m v : mem) (b : bbp_builder) (d : Z).
Context (Hs : seen m v d (arena b) (capacity b)).

Lemma next_phys_moved ts : next_phys (moved b d) ts = next_phys b ts.
Proof. by destruct ts. Qed.

Lemma linked_seen lo ts :
  0 <= lo -> tags_ok lo (capacity b) ts -> linked m b ts -> linked v (moved b d) ts.
Proof.
  revert lo. induction ts as [|t ts IH]; intros lo Hlo Hok; [done|]. cbn [linked tags_ok] in *.
  intros [Hh Hl]. destruct Hok as (? & ? & ? & ? & ? & Hok). pose proof (tags_ok_le _ _ _ Hok).
  rewrite next_phys_moved. split; [|by eapply (IH (t_off t + t_size t)); [lia|..]]. cbn [arena moved].
  replace (arena b + d + t_off t) with (arena b + t_off t + d) by lia.
  eapply bytes_at_seen; [exact Hs|lia| |done]. change (zlen (hdr_bytes _ _)) with 24. lia.
Qed.

Lemma tag_sealed_seen t :
  0 <= t_off t -> 0 <= t_size t -> t_off t + t_size t <= capacity b ->
  tag_sealed m b t -> tag_sealed v (moved b d) t.
Proof.
  intros ? ? ? (bs & Hbs & Hsl). exists bs. split; [|done]. cbn [arena moved].
  replace (arena b + d + t_off t) with (arena b + t_off t + d) by lia. rewrite (load_bytes_seen m v); [done|].
  eapply seen_sub; [exact Hs|lia|lia].
Qed.

Lemma holds_seen ts it t :
  used b <= capacity b -> tags_ok 0 (used b) ts -> In t ts -> item_wf it ->
  holds m b ts it t -> holds v (moved b d) ts it t.
Proof.
  intros Hu Hok Hin [_ ? Hbody] (Hid & Hver & Hsz & phys & Hat & Hblob).
  destruct (tags_ok_in _ _ _ t Hok Hin) as (? & ? & _ & ? & _).
  split_and!; try done. exists phys. cbn [arena arena_phys used moved]. split.
  - replace (arena b + d + t_off t + 32) with (arena b + t_off t + 32 + d) by lia.
    eapply bytes_at_seen; [exact Hs|lia| |done]. rewrite Hbody. lia.
  - destruct Hblob as [|(Ho & Hend & Hap & Hb)]; [by left|right]. split_and!; try done.
    replace (arena b + d + (phys - arena_phys b)) with (arena b + (phys - arena_phys b) + d) by lia.
    eapply bytes_at_seen; [exact Hs|lia|lia|done].
Qed.

Lemma sealed_arena_seen ts info :
  tags_ok 0 (capacity b) ts -> seen m v d info 144 ->
  sealed_arena m b ts info -> sealed_arena v (moved b d) ts (info + d).
Proof.
  intros Hok Hi [Hl Hall (bs & Hbs & Hst) Hft Hm]. split.
  - by apply (linked_seen 0).
  - apply List.Forall_forall. intros t Hin. rewrite List.Forall_forall in Hall.
    destruct (tags_ok_in _ _ _ t Hok Hin) as (? & ? & _ & ? & _). apply tag_sealed_seen; [lia..|by apply Hall].
  - exists bs. split; [|done]. by rewrite (load_bytes_seen m v).
  - rewrite next_phys_moved. rewrite <- Hft. unfold load64, load_le.
    replace (info + d + 120) with (info + 120 + d) by lia. rewrite (load_bytes_seen m v); [done|].
    eapply seen_sub; [exact Hi|lia|lia].
  - by apply (mapped_seen m).
Qed.
End Seen.

(** ** The kernel's offset *)

(** Without a hint the offset is that of the HHDM tag. *)
Lemma init_bounded_tag_offset m cand k0 info lo bytes k tag off :
  bbp_init_bounded m cand (Some k0) info 0 lo bytes = Some (Some k, BBP_OK) ->
  bbp_find_tag m (Some (Kctx info 0 1 lo (lo + bytes))) BBP_TAG_HHDM = Some tag ->
  load64 m (tag + 32) = Some off -> off = 0 -> hhdm_offset k = 0.
Proof.
  intros E Hf Hl ->. unfold bbp_init_bounded in E. destruct (info =? 0); [done|].
  destruct (_ || _); [done|]. do 2 (destruct (_ <? _); [done|]). apply bind_Some in E as ([c st] & Hw & E).
  destruct (bool_decide_reflect (st = BBP_OK)) as [->|Hne]; [|congruence]. injection E as ->.
  unfold bbp_init_win in Hw. rewrite Hf in Hw. cbn [mbind option_bind] in Hw.
  repeat first [apply bind_Some in Hw as (? & ? & Hw) | case_match]; simplify_eq; done.
Qed.

(** ** The outcome *)

(** What the kernel has when [its] were delivered: a context [k] with as many
    tags, whose lookups, through [v], give the items and nothing else. *)
Definition opened (v : mem) (k : bbp_kctx) (its : list item) : Prop :=
  (exists tags, ValidHandoff v k tags /\ length tags = length its) /\ Forall (delivered v k) its /\
  (forall id, ~ In id (map i_id its) -> bbp_find_tag v (Some k) id = Some 0).

(** The arena [info .. info + 144 + C): at [P] in physical memory from the end
    of the INFO structure on, shown by [view] [d] higher, where the direct map
    of offset [h] has it. *)
Record placed (view : mem -> mem) (info C P d h : Z) : Prop := Placed {
  pl_size : 0 < C <= BBP_IMPORT_MAX_ARENA;
  pl_at : 0 < P /\ P mod 8 = 0 /\ P + C <= 2 ^ 48;
  pl_info : 0 < info /\ info + 144 + C < 2 ^ 64;
  pl_shown : 0 < info + d /\ info + 144 + d + C < 2 ^ 64;
  pl_direct : info + 144 + d = P + h /\ 0 <= h;
  pl_view : forall m, mapped m info (144 + C) -> seen m (view m) d info (144 + C);
}.

(** A fresh builder for an arena of its own. *)
Lemma init_ready_at A C P (src : mem -> Prop) m :
  (forall m m', frame A C m m' -> src m -> src m') ->
  0 < C <= BBP_IMPORT_MAX_ARENA -> 0 < P -> P mod 8 = 0 -> P + C <= 2 ^ 48 -> 0 < A -> A + C < 2 ^ 64 ->
  mapped m A C -> src m ->
  exists m1, bbp_builder_init m (Some local_builder) A P C = Some (m1, Some (Builder A P C 0 0 0 0 0)) /\
    frame A C m m1 /\ ready_for A C P src m1 (Builder A P C 0 0 0 0 0) [].
Proof.
  intros Hsrc HC HP Hal Hmax Hi Hm1 Hm Hsm.
  destruct (store_bytes_mapped m A (replicate (Z.to_nat C) x00)) as [m1 E].
  { rewrite zlen_replicate. eapply mapped_sub; [exact Hm|lia|lia]. }
  assert (frame A C m m1) as F.
  { apply frame_store in E. rewrite zlen_replicate in E. by replace (Z.of_nat (Z.to_nat C)) with C in E by lia. }
  assert (bbp_builder_init m (Some local_builder) A P C = Some (m1, Some (Builder A P C 0 0 0 0 0))) as Hin.
  { unfold bbp_builder_init. rewrite (proj2 (Z.eqb_neq A 0)) by lia. cbn [negb]. cbn zeta.
    rewrite mem_zero_store, E. cbn [mbind option_bind]. rewrite land_7, Hal.
    replace ((P =? 0) || _ || _) with false by (bconsts; lia). done. }
  exists m1. split_and!; [done|done|]. pose proof Hin as Hr.
  apply bbp_builder_init_rep in Hr as [[]|(_ & Hrep & _ & _)]; [done| |lia..].
  split; [done|done| |by eapply Hsrc]. intros x Hx. cbn in Hx. apply store_bytes_at in E.
  replace x with (A + Z.of_nat (Z.to_nat (x - A))) by lia. apply E. apply lookup_replicate. split; [done|lia].
Qed.

Section Open.
Context (view : mem -> mem) (info C P d h : Z) (src : mem -> Prop).
Context (Hpl : placed view info C P d h).
Context (Hsrc : forall m m', frame (info + 144) C m m' -> src m -> src m').

(** A fresh builder for the arena. *)
Lemma init_ready m :
  mapped m info (144 + C) -> src m ->
  exists m1, bbp_builder_init m (Some local_builder) (info + 144) P C =
               Some (m1, Some (Builder (info + 144) P C 0 0 0 0 0)) /\
    frame (info + 144) C m m1 /\ ready_for (info + 144) C P src m1 (Builder (info + 144) P C 0 0 0 0 0) [].
Proof.
  destruct Hpl as [HC (HP & Hal & Hmax) [Hi Hm1] _ _ _]. intros Hm Hsm.
  apply init_ready_at; try done; try lia. eapply mapped_sub; [exact Hm|lia|lia].
Qed.

(** A built arena, finalized and opened. *)
Lemma ready_opens m b ts its info_phys cand k0 fuel :
  ready_for (info + 144) C P src m b ts -> Forall2 (holds m b ts) its ts ->
  Forall item_wf its -> NoDup (map i_id its) -> In (hhdm_item h) its ->
  mapped m info (144 + C) -> (1024 < fuel)%nat ->
  let k := Kctx (info + d) h 1 P (P + C) in
  exists m',
    bbp_builder_finalize m (Some b) info info_phys fuel = Some (m', Some b, info_phys) /\
    frame info (144 + C) m m' /\
    bbp_init_bounded (view m') cand (Some k0) (info + d) h P C = Some (Some k, BBP_OK) /\
    opened (view m') k its.
Proof.
  intros Hr Hh Hwf Hnd Hin Hm Hfuel k. destruct Hpl as [HC (HP & Hal & Hmax) [Hi Hm1] [Hi' Hm2] [Hd Hh0] Hv].
  pose proof Hr as [Hrep (Ea & Ep & Ec) _ _]. pose proof Hrep as [_ _ [[? ?] _] _ _ [Hcnt ?] Htags _ _ _].
  unfold zlen in Hcnt. iconsts.
  destruct (finalize_sealed m b ts info info_phys fuel) as (m' & Hfin & Hdom & Hs & Hf);
    [done|done|eapply mapped_sub; [exact Hm|lia|unfold SIZEOF_INFO; lia]| |bconsts; lia|lia|].
  { rewrite Ea, Ec. apply disjoint_range_intro. unfold SIZEOF_INFO. lia. }
  assert (frame info (144 + C) m m') as F.
  { split; [done|]. intros x Hx. apply Hf; [unfold SIZEOF_INFO; lia|]. intros (t & Ht & Hxt).
    destruct (tags_ok_in _ _ _ t Htags Ht) as (? & ? & _ & ? & _). lia. }
  assert (seen m' (view m') d info (144 + C)) as Hseen by (by apply Hv, (frame_mapped _ _ _ _ _ _ F)).
  assert (seen m' (view m') d (arena b) (capacity b)) as Hsa by (eapply seen_sub; [exact Hseen|lia|lia]).
  assert (tags_ok 0 (capacity b) ts) as Htc by (eapply tags_ok_weaken; [| |exact Htags]; lia).
  apply (sealed_arena_seen m' (view m') b d Hsa) in Hs; [|done|eapply seen_sub; [exact Hseen|lia|lia]].
  assert (opened (view m') k its) as Hop.
  { destruct (sealed_delivers (view m') (moved b d) ts its (info + d) h) as (Hvh & Hdel & Hno);
      cbn [arena arena_phys used capacity moved]; rewrite ?Ea, ?Ep, ?Ec; [done|done|lia| |done|lia..| ].
    - eapply Forall2_strengthen; [exact Hh|exact Hwf|]. intros it t Hint Hit Hht.
      eapply (holds_seen m'); [done|done|done|done|done|]. eapply holds_sealed; [exact Hrep|done|done|done|].
      intros x Hx. apply Hf. unfold SIZEOF_INFO. lia.
    - cbn [arena_phys capacity moved] in *. rewrite Ep, Ec in *. split_and!; [|done|done].
      eexists. split; [exact Hvh|]. rewrite length_map. symmetry. by eapply Forall2_length. }
  exists m'. split_and!; [done|done| |done]. destruct Hop as ((tags & Hvh & _) & Hdel & _).
  destruct (init_bounded_accepts (view m') cand k0 (info + d) h P C tags) as (off & Hio & Hoff); [done|lia|lia|done| |].
  { rewrite <- Hd. apply (mapped_seen m'); [eapply seen_sub; [exact Hseen|lia|lia]|].
    eapply mapped_sub; [apply (frame_mapped _ _ _ _ _ _ F Hm)|lia|lia]. }
  rewrite Hio. unfold k. do 4 f_equal. destruct (Z.eq_dec h 0) as [->|]; [|auto].
  rewrite List.Forall_forall in Hdel. destruct (Hdel _ Hin) as (tag & phys & Hft & _ & _ & Hb & _).
  eapply (init_bounded_tag_offset _ _ _ _ _ _ _ tag 0) in Hio; [done|done| |done].
  by apply (bytes_at_load_le _ _ 8 0).
Qed.

Lemma build_and_open_spec E its m info_phys cand k0 :
  builds (info + 144) C P src E its -> Forall item_wf its -> NoDup (map i_id its) ->
  In (hhdm_item h) its -> mapped m info (144 + C) -> src m ->
  exists m', frame info (144 + C) m m' /\
    match layout C 0 0 its with
    | None =>
        build_and_open E view m info (info + 144) P C info_phys (info + d) h cand (Some k0) =
          Some (m', Some k0, BBP_ERR_SIZE)
    | Some _ =>
        let k := Kctx (info + d) h 1 P (P + C) in
        build_and_open E view m info (info + 144) P C info_phys (info + d) h cand (Some k0) =
          Some (m', Some k, BBP_OK) /\ opened (view m') k its
    end.
Proof.
  intros [_ HE] Hwf Hnd Hin Hm Hsm. destruct (init_ready m Hm Hsm) as (m1 & Hi1 & F1 & Hr1).
  pose proof Hpl as [HC (HP & Hal & Hmax) [Hi Hm1] [Hi' Hm2] [Hd Hh0] Hv].
  unfold build_and_open. rewrite Hi1. cbn [mbind option_bind].
  specialize (HE m1 _ [] Hr1). cbn [used tag_count] in HE.
  destruct (layout C 0 0 its) as [[u n]|].
  2: { destruct HE as (m2 & b2 & -> & Ho & _ & F2). cbn [mbind option_bind]. exists m2. split.
       - eapply frame_weaken; [by eapply frame_trans|lia|lia].
       - unfold bbp_builder_finalize. rewrite (proj2 (Z.eqb_neq info 0)) by lia.
         rewrite (proj2 (Z.eqb_neq _ _) Ho). done. }
  destruct HE as (m2 & b2 & new & -> & Hr2 & _ & _ & _ & F2 & _ & Hh & _). cbn [app] in *.
  cbn [mbind option_bind].
  assert (frame info (144 + C) m m2) as F by (eapply frame_weaken; [by eapply frame_trans|lia|lia]).
  destruct (ready_opens m2 b2 new its info_phys cand k0 (S (Z.to_nat BBP_BUILDER_MAX_TAGS)))
    as (m3 & -> & F3 & Hio & Hop); [done..|by eapply frame_mapped|bconsts; lia|].
  cbn [mbind option_bind]. exists m3. split; [by eapply frame_trans|].
  rewrite (br_ok _ _ _ (rf_rep _ _ _ _ _ _ _ Hr2)). cbn [Z.eqb negb]. rewrite Hio. done.
Qed.
End Open.
