(* ===== verification/PortSpec.v ===== *)
(** * What every port promises

    [Port] is the interface between a port and the kernel it runs in: the
    adapter clears its arena, writes into it the tags that describe its boot
    data and opens them.  Against the interface alone the adapter either
    delivers exactly these tags or answers [BBP_ERR_SIZE]. *)

From S2P Require Import Prelude Memory Crc64 Abi KernelParser KernelFacts Builder BuilderFacts Handoff Import ImportEmit ImportBodies Boot Port PortFacts PortParts PortOpen.

(** ** The interface *)

(** [S] is the state of the OS interface, [B] the boot-info structure and [X]
    the data behind its pointers.  [given s bi x info C P d m] says that the
    adapter, in state [s] and memory [m], finds [x] behind [bi] and will use the
    arena at [info], of [144 + C] bytes, whose tags are at [P] in physical memory
    and shown [d] higher; [emit] writes the tags and [items] are what they say. *)
Class Port {S B X : Type}
    (adapter : S -> mem -> option B -> bbp_kctx -> option bbp_kctx ->
               option (S * mem * option bbp_kctx * bbp_status_t))
    (view : mem -> mem) (offset : B -> Z)
    (given : S -> B -> X -> Z -> Z -> Z -> Z -> mem -> Prop)
    (emit : B -> Z -> Z -> emitter) (items : B -> X -> list item) : Prop := {
  port_null : forall s m bi cand out,
    bi = None \/ out = None -> adapter s m bi cand out = Some (s, m, out, BBP_ERR_NULL);
  port_runs : forall s bi x info C P d m cand k0,
    placed view info C P d (offset bi) -> given s bi x info C P d m ->
    exists s' info_phys,
      adapter s m (Some bi) cand (Some k0) =
        (m ← mem_zero m info (Z.to_nat (144 + C));
         '(m, out, st) ← build_and_open (emit bi (info + 144) P) view m info (info + 144) P C
                           info_phys (info + d) (offset bi) cand (Some k0);
         Some (s', m, out, st));
  port_kept : forall s bi x info C P d m m',
    frame info (144 + C) m m' -> given s bi x info C P d m -> given s bi x info C P d m';
  port_builds : forall s bi x info C P d m,
    placed view info C P d (offset bi) -> given s bi x info C P d m ->
    builds (info + 144) C P (given s bi x info C P d) (emit bi (info + 144) P) (items bi x);
  port_items_wf : forall bi x, Forall item_wf (items bi x);
  port_items_ids : forall bi x, NoDup (map i_id (items bi x));
  port_items_hhdm : forall bi x, In (hhdm_item (offset bi)) (items bi x);
}.

(** ** What follows from it *)

Section Client.
Context {S B X : Type}.
Context (adapter : S -> mem -> option B -> bbp_kctx -> option bbp_kctx ->
                   option (S * mem * option bbp_kctx * bbp_status_t)).
Context (view : mem -> mem) (offset : B -> Z).
Context (given : S -> B -> X -> Z -> Z -> Z -> Z -> mem -> Prop).
Context (emit : B -> Z -> Z -> emitter) (items : B -> X -> list item).
Context {Hport : Port adapter view offset given emit items}.

Lemma port_spec s bi x info C P d m cand k0 :
  placed view info C P d (offset bi) -> given s bi x info C P d m -> mapped m info (144 + C) ->
  exists s' m', frame info (144 + C) m m' /\
    match layout C 0 0 (items bi x) with
    | None => adapter s m (Some bi) cand (Some k0) = Some (s', m', Some k0, BBP_ERR_SIZE)
    | Some _ =>
        let k := Kctx (info + d) (offset bi) 1 P (P + C) in
        adapter s m (Some bi) cand (Some k0) = Some (s', m', Some k, BBP_OK) /\
        opened (view m') k (items bi x)
    end.
Proof.
  intros Hpl Hg Hm. pose proof (pl_size _ _ _ _ _ _ Hpl).
  destruct (port_runs _ _ _ _ _ _ _ _ cand k0 Hpl Hg) as (s' & info_phys & ->).
  destruct (store_bytes_mapped m info (replicate (Z.to_nat (144 + C)) x00)) as [m1 E].
  { rewrite zlen_replicate. eapply mapped_sub; [exact Hm|lia|lia]. }
  rewrite mem_zero_store, E. cbn [mbind option_bind]. apply frame_store in E. rewrite zlen_replicate in E.
  replace (Z.of_nat (Z.to_nat (144 + C))) with (144 + C) in E by lia.
  destruct (build_and_open_spec view info C P d (offset bi) (given s bi x info C P d) Hpl)
    with (E := emit bi (info + 144) P) (its := items bi x) (m := m1) (info_phys := info_phys)
         (cand := cand) (k0 := k0) as (m' & F & Hout).
  - intros m2 m3 F. apply port_kept. eapply frame_weaken; [exact F|lia|lia].
  - by eapply port_builds.
  - apply port_items_wf.
  - apply port_items_ids.
  - apply port_items_hhdm.
  - by eapply frame_mapped.
  - by eapply port_kept.
  - exists s', m'. split; [by eapply frame_trans|].
    destruct (layout C 0 0 (items bi x)) as [[u n]|].
    + destruct Hout as [-> Hop]. done.
    + by rewrite Hout.
Qed.
End Client.

(** ** What a consumer reads *)

Lemma deliver_count ts n visited :
  0 <= n -> n + zlen ts < 2 ^ 32 ->
  deliver count_cb ts n visited = Some (n + zlen ts, visited + zlen ts).
Proof.
  revert n visited. induction ts as [|t ts IH]; intros n visited Hn Hmax; cbn [deliver].
  - by rewrite !Z.add_0_r.
  - rewrite zlen_cons in *. pose proof (zlen_nonneg ts). change (count_cb n t) with (Some (wrap32 (n + 1), 0)). cbn [mbind option_bind Z.eqb negb].
    rewrite wrap_small by (unfold in_word; lia). rewrite IH by lia. do 2 f_equal; lia.
Qed.

Section Consumer.
Context (v : mem) (k : bbp_kctx) (its : list item) (Hop : opened v k its).

(** The callback of the glue counts the items. *)
Lemma opened_count : bbp_for_each_tag v (Some k) (Some count_cb) 0 = Some (zlen its, zlen its).
Proof.
  destruct Hop as ((tags & Hvh & Hlen) & _). rewrite (vh_each v k tags).
  pose proof (vh_walk (ValidHandoff := Hvh)) as Hw. unfold tag_walk in Hw. apply bind_Some in Hw as (cur & _ & Hw).
  apply walk_loop_length in Hw. unfold BBP_MAX_TAGS in Hw.
  rewrite deliver_count; unfold zlen; rewrite ?Hlen; [done|lia|lia].
Qed.

(** A tag that was written is found with its body. *)
Lemma opened_body it :
  In it its -> (forall phys phys', i_body it phys = i_body it phys') ->
  exists tag, bbp_find_tag v (Some k) (i_id it) = Some tag /\ tag <> 0 /\
    load32 v (tag + 8) = Some (32 + i_size it) /\ bytes_at v (tag + 32) (i_body it 0).
Proof.
  intros Hin Hb. destruct Hop as (_ & Hdel & _). rewrite List.Forall_forall in Hdel.
  destruct (Hdel it Hin) as (tag & phys & Hf & Hne & Hsz & Hat & _). exists tag. split_and!; [done..|].
  by rewrite (Hb 0 phys).
Qed.
End Consumer.

(** What the words of a body read as. *)
Lemma body_word (v : mem) p (pre post : list byte) n x q :
  bytes_at v p (pre ++ le_encode n x ++ post) -> in_word (8 * Z.of_nat n) x -> q = p + zlen pre ->
  load_le v q n = Some x.
Proof.
  intros Hat Hx ->. apply bytes_at_app in Hat as [_ Hat]. apply bytes_at_app in Hat as [Hat _].
  by apply bytes_at_load_le.
Qed.

(** The word after [pre] in the body [Hat] talks about. *)
Ltac word_at Hat pre n :=
  eapply (body_word _ _ pre _ n);
  [rewrite <- ?app_assoc in *; exact Hat|done || apply crc64_of_word || (unfold in_word; lia)
  |autorewrite with zlen; lia].

(** The RSDP of an ACPI tag. *)
Lemma delivered_acpi v k its rsdp :
  opened v k its -> In (acpi_item rsdp) its -> in_word 64 rsdp ->
  exists tag, bbp_find_tag v (Some k) BBP_TAG_ACPI = Some tag /\ tag <> 0 /\ load64 v (tag + 32) = Some rsdp.
Proof.
  intros Hop Hin Hw. destruct (opened_body v k its Hop (acpi_item rsdp)) as (tag & Hf & Hne & _ & Hat); [done|done|].
  exists tag. split_and!; [done|done|]. cbn [i_body acpi_item acpi_body] in Hat. unfold acpi_body in Hat.
  apply bytes_at_app in Hat as [Hat _]. by apply (bytes_at_load_le _ _ 8).
Qed.
