(* ===== verification/PortLinux01.v ===== *)
(** * The linux-0.01 port (ports/linux01/)

    The OS interface, the adapter and the kernel glue.  The kernel runs
    identity-mapped: the arena is a static array with one address.  The static
    variables of osif.c and linux01_bbp.c are the state; the address of the
    array is an argument.  The serial fallbacks and what the glue prints are
    not modelled. *)

From S2P Require Import Prelude Memory Abi KernelParser KernelFacts Builder BuilderFacts Handoff Import ImportFacts ImportEmit Boot Port PortFacts PortParts PortOpen PortSpec.

(** ** The OS interface (osif.c) *)

Record l01_state := L01State {
  l01_hhdm_offset : Z;
  l01_kphys_base : Z;
  l01_kvirt_base : Z;
  l01_kslide_set : Z;
  l01_arena_used : Z;
}.

Definition l01_initial : l01_state := L01State 0 0 0 0 0.

Definition bbp_l01_set_hhdm (s : l01_state) (hhdm_offset : Z) : l01_state * Z :=
  let s := L01State hhdm_offset (l01_kphys_base s) (l01_kvirt_base s) (l01_kslide_set s)
             (l01_arena_used s) in
  (s, l01_hhdm_offset s).

Definition bbp_l01_get_hhdm (s : l01_state) : Z := l01_hhdm_offset s.

Definition bbp_l01_set_kslide (s : l01_state) (kphys_base kvirt_base : Z) : l01_state :=
  L01State (l01_hhdm_offset s) kphys_base kvirt_base 1 (l01_arena_used s).

Definition bbp_l01_virt_to_phys (s : l01_state) (kvirt : Z) : Z :=
  wrap64 (kvirt - l01_hhdm_offset s).

Definition l01_phys_to_virt (s : l01_state) (phys : Z) : Z :=
  reject phys =? 0 with 0;
  wrap64 (phys + l01_hhdm_offset s).

Definition BBP_L01_ARENA_BYTES : Z := 64 * 1024.

(** The base and [*out_size]. *)
Definition bbp_l01_arena_base (l01_arena : Z) : Z * Z := (l01_arena, BBP_L01_ARENA_BYTES).

Definition bbp_l01_hook_alloc (l01_arena : Z) (s : l01_state) (bytes out_phys : Z) : l01_state * Z * Z :=
  match static_bump BBP_L01_ARENA_BYTES (l01_arena_used s) bytes with
  | None => (s, 0, out_phys)
  | Some (start, used) =>
      let p := l01_arena + start in
      let s := L01State (l01_hhdm_offset s) (l01_kphys_base s) (l01_kvirt_base s) (l01_kslide_set s)
                 used in
      (s, p, bbp_l01_virt_to_phys s p)
  end.

Definition bbp_l01_osif (l01_arena : Z) : bbp_osif l01_state :=
  Osif l01_phys_to_virt (Some (bbp_l01_hook_alloc l01_arena)).

(** ** The adapter (adapter.c) *)

Record bbp_l01_bootinfo := L01Bootinfo {
  lb_hhdm_offset : Z;
  lb_kernel_phys_base : Z;
  lb_kernel_virt_base : Z;
  lb_have_kernel_address : Z;
  lb_mmap : Z * list mmap_entry;
}.

Definition l01_mem_default_attrs (bbp_type : Z) : Z :=
  if (bbp_type =? BBP_MEM_USABLE) || (bbp_type =? BBP_MEM_BOOTLOADER_RECLAIM)
     || (bbp_type =? BBP_MEM_ACPI_RECLAIMABLE) || (bbp_type =? BBP_MEM_KERNEL_AND_MODULES)
  then Z.lor (Z.lor BBP_MEM_ATTR_READABLE BBP_MEM_ATTR_WRITABLE) BBP_MEM_ATTR_CACHED
  else BBP_MEM_ATTR_READABLE.

Definition l01_tags (bi : bbp_l01_bootinfo) : emitter :=
  put_hhdm (lb_hhdm_offset bi) ;;;
  put_memory_map (fun type => type) l01_mem_default_attrs (lb_mmap bi) ;;;
  emit_when (negb (lb_have_kernel_address bi =? 0))
    (put_kernel_address (lb_kernel_phys_base bi) (lb_kernel_virt_base bi)).

Definition bbp_l01_adapter (l01_arena : Z) (s : l01_state) (m : mem) (bi : option bbp_l01_bootinfo)
    (cand : bbp_kctx) (out : option bbp_kctx) :
    option (l01_state * mem * option bbp_kctx * bbp_status_t) :=
  match out, bi with
  | Some _, Some bi =>
      let osif := bbp_l01_osif l01_arena in
      let '(s, _) := bbp_l01_set_hhdm s (lb_hhdm_offset bi) in
      let s := if negb (lb_have_kernel_address bi =? 0)
               then bbp_l01_set_kslide s (lb_kernel_phys_base bi) (lb_kernel_virt_base bi) else s in
      let '(arena, arena_size) := bbp_l01_arena_base l01_arena in
      reject (arena =? 0) || (arena_size <=? sizeof bbp_info) with Some (s, m, out, BBP_ERR_SIZE);
      m ← mem_zero m arena (Z.to_nat arena_size);
      let tagbase := arena + sizeof bbp_info in
      let tagbase_phys := bbp_l01_virt_to_phys s tagbase in
      let info_phys := wrap64 (tagbase_phys - sizeof bbp_info) in
      let info_virt := phys_to_virt osif s info_phys in
      '(m, out, st) ← build_and_open (l01_tags bi) (fun m => m) m arena tagbase tagbase_phys
                        (arena_size - sizeof bbp_info) info_phys info_virt 0 cand out;
      Some (s, m, out, st)
  | _, _ => Some (s, m, out, BBP_ERR_NULL)
  end.

(** ** The kernel glue (linux01_bbp.c) *)

Record l01_glue := L01Glue {
  l01_os : l01_state;
  l01_boot_ctx : bbp_kctx;
  l01_boot_ctx_valid : Z;
}.

Definition L01_LOW_RAM_TOP : Z := 0x000A0000.
Definition L01_RESERVED_TOP : Z := 0x00100000.

(** The local array [mmap]; [high] is [BBP_L01_HIGH_MEMORY]. *)
Definition l01_fixed_map (high : Z) : list mmap_entry :=
  [MmapEntry 0 L01_LOW_RAM_TOP BBP_MEM_USABLE;
   MmapEntry L01_LOW_RAM_TOP (L01_RESERVED_TOP - L01_LOW_RAM_TOP) BBP_MEM_RESERVED] ++
  if L01_RESERVED_TOP <? high
  then [MmapEntry L01_RESERVED_TOP (high - L01_RESERVED_TOP) BBP_MEM_USABLE] else [].

(** [mmap] is the address of the local array. *)
Definition bbp_linux01_init (l01_arena mmap high : Z) (g : l01_glue) (m : mem) (cand : bbp_kctx) :
    option (l01_glue * mem * bbp_status_t) :=
  let bi := L01Bootinfo 0 0 0 1 (mmap, l01_fixed_map high) in
  '(s, m, ctx, st) ← bbp_l01_adapter l01_arena (l01_os g) m (Some bi) cand (Some (l01_boot_ctx g));
  ctx ← ctx;
  Some (L01Glue s ctx (if bool_decide (st = BBP_OK) then 1 else l01_boot_ctx_valid g), m, st).

Definition bbp_linux01_boot_ctx (g : l01_glue) : option bbp_kctx :=
  if negb (l01_boot_ctx_valid g =? 0) then Some (l01_boot_ctx g) else None.

(** ** The port's promise *)

Definition l01_items (bi : bbp_l01_bootinfo) (_ : unit) : list item :=
  [hhdm_item (lb_hhdm_offset bi)] ++
  mmap_items (fun type => type) l01_mem_default_attrs (lb_mmap bi) ++
  when (negb (lb_have_kernel_address bi =? 0))
    (kernel_address_item (lb_kernel_phys_base bi) (lb_kernel_virt_base bi)).

(** The identity map. *)
Definition l01_given (l01_arena : Z) (s : l01_state) (bi : bbp_l01_bootinfo) (_ : unit)
    (info C P d : Z) (m : mem) : Prop :=
  lb_hhdm_offset bi = 0 /\ info = l01_arena /\ C = BBP_L01_ARENA_BYTES - 144 /\ P = l01_arena + 144 /\ d = 0.

Lemma l01_items_ids bi x : NoDup (map i_id (l01_items bi x)).
Proof.
  eapply sublist_NoDup.
  2: { unfold l01_items. rewrite !map_app. repeat apply sublist_app; apply (when_ids true) || apply when_ids. }
  by apply (bool_decide_unpack _); vm_compute.
Qed.

#[global] Instance linux01_port l01_arena :
  Port (bbp_l01_adapter l01_arena) (fun m => m) lb_hhdm_offset (l01_given l01_arena)
    (fun bi _ _ => l01_tags bi) l01_items.
Proof.
  split.
  - intros s m bi cand out [->| ->]; [by destruct out|done].
  - intros s bi x info C P d m cand k0 Hpl (Hh & -> & -> & -> & ->).
    destruct Hpl as [_ _ [? ?] _ _ _]. rewrite Hh. unfold bbp_l01_adapter. cbn [bbp_l01_set_hhdm bbp_l01_arena_base].
    change (sizeof bbp_info) with 144. rewrite (proj2 (Z.eqb_neq l01_arena 0)) by lia.
    change (BBP_L01_ARENA_BYTES <=? 144) with false. cbn [orb]. rewrite Hh.
    replace (144 + (BBP_L01_ARENA_BYTES - 144)) with BBP_L01_ARENA_BYTES by lia.
    set (s' := if negb _ then _ else _). assert (l01_hhdm_offset s' = 0) as Hs' by (unfold s'; by destruct (negb _)).
    clearbody s'. exists s', l01_arena. cbn [bbp_l01_osif phys_to_virt].
    unfold bbp_l01_virt_to_phys, l01_phys_to_virt. rewrite Hs', !Z.sub_0_r, !Z.add_0_r.
    rewrite (wrap_small 64 (l01_arena + 144)) by (unfold in_word, BBP_L01_ARENA_BYTES in *; lia).
    replace (l01_arena + 144 - 144) with l01_arena by lia.
    rewrite !(wrap_small 64 l01_arena) by (unfold in_word, BBP_L01_ARENA_BYTES in *; lia).
    rewrite (proj2 (Z.eqb_neq l01_arena 0)) by lia. done.
  - done.
  - intros s bi x info C P d m [[? ?] (? & ? & ?) [? ?] _ _ _] _.
    assert (C <= BBP_IMPORT_MAX_ARENA) by done. unfold l01_tags, l01_items.
    apply builds_seq; auto with items; [apply hhdm_builds; auto|].
    apply builds_seq; auto with items; [apply memory_map_builds; auto|].
    apply builds_when. intros _. apply kernel_address_builds; auto.
  - intros bi x. unfold l01_items. rewrite !Forall_app. split_and!; auto with items.
  - apply l01_items_ids.
  - intros bi x. by left.
Qed.

(** ** Booting *)

(** The tags of a boot with the fixed memory map. *)
Definition l01_boot_items (high : Z) : list item :=
  [hhdm_item 0; memory_map_item (fun type => type) l01_mem_default_attrs (l01_fixed_map high);
   kernel_address_item 0 0].

(** The static array, where the linker may put it. *)
Definition l01_linked (l01_arena : Z) : Prop :=
  0 < l01_arena /\ l01_arena mod 4096 = 0 /\ l01_arena + BBP_L01_ARENA_BYTES <= 2 ^ 48.

Lemma mod_4096_8 a : a mod 4096 = 0 -> a mod 8 = 0.
Proof. intros H. apply Z.mod_divide in H as [q ->]; [|done]. replace (q * 4096) with (q * 512 * 8) by lia. apply Z.mod_mul. done. Qed.

Lemma mod_8_add a n : a mod 8 = 0 -> n mod 8 = 0 -> (a + n) mod 8 = 0.
Proof. intros Ha Hn. rewrite Z.add_mod, Ha, Hn by done. done. Qed.

Lemma l01_placed l01_arena :
  l01_linked l01_arena ->
  placed (fun m => m) l01_arena (BBP_L01_ARENA_BYTES - 144) (l01_arena + 144) 0 0.
Proof.
  intros (Ha & Hal & Hmax). unfold BBP_L01_ARENA_BYTES in *. split.
  - iconsts. lia.
  - split_and!; [lia| |lia]. apply mod_8_add; [by apply mod_4096_8|done].
  - lia.
  - lia.
  - lia.
  - intros m _ x _. by rewrite Z.add_0_r.
Qed.

Lemma linux01_init_spec l01_arena mmap high g m cand :
  l01_linked l01_arena -> mmap <> 0 -> mapped m l01_arena BBP_L01_ARENA_BYTES ->
  let k := Kctx l01_arena 0 1 (l01_arena + 144) (l01_arena + BBP_L01_ARENA_BYTES) in
  exists g' m',
    bbp_linux01_init l01_arena mmap high g m cand = Some (g', m', BBP_OK) /\
    bbp_linux01_boot_ctx g' = Some k /\ opened m' k (l01_boot_items high) /\
    frame l01_arena BBP_L01_ARENA_BYTES m m'.
Proof.
  intros Hl Hp Hm. cbn zeta. pose proof (l01_placed _ Hl) as Hpl. set (bi := L01Bootinfo 0 0 0 1 (mmap, l01_fixed_map high)).
  assert (l01_items bi () = l01_boot_items high) as Hits.
  { unfold l01_items, mmap_items, bi. cbn [lb_mmap fst snd]. rewrite (proj2 (Z.eqb_neq mmap 0) Hp).
    unfold l01_boot_items, l01_fixed_map. by destruct (_ <? high). }
  destruct (port_spec (bbp_l01_adapter l01_arena) _ _ _ _ _ (l01_os g) bi () l01_arena (BBP_L01_ARENA_BYTES - 144) (l01_arena + 144) 0 m cand
    (l01_boot_ctx g)) as (s' & m' & F & Hout); [done|done|done|].
  rewrite Hits in Hout. replace (layout _ 0 0 _) with (Some (zlen (l01_fixed_map high) * 32 + 128, 3)) in Hout.
  2: { unfold l01_boot_items, l01_fixed_map. by destruct (L01_RESERVED_TOP <? high). }
  destruct Hout as [E Hop]. cbn [lb_hhdm_offset bi] in *. rewrite Z.add_0_r in *.
  replace (l01_arena + 144 + (BBP_L01_ARENA_BYTES - 144)) with (l01_arena + BBP_L01_ARENA_BYTES) in * by lia.
  eexists _, m'. unfold bbp_linux01_init. fold bi. rewrite E. cbn [mbind option_bind].
  rewrite bool_decide_eq_true_2 by done. split_and!; [done|done|done|done].
Qed.

(** The fixed map describes [0, max(1 MiB, high)) without gaps or overlaps. *)
Fixpoint tiles (lo : Z) (entries : list mmap_entry) (hi : Z) : Prop :=
  match entries with
  | [] => lo = hi
  | e :: entries => me_base e = lo /\ 0 < me_length e /\ tiles (lo + me_length e) entries hi
  end.

Lemma l01_fixed_map_tiles high : tiles 0 (l01_fixed_map high) (Z.max L01_RESERVED_TOP high).
Proof.
  unfold l01_fixed_map. destruct (Z.ltb_spec L01_RESERVED_TOP high); cbn [tiles app me_base me_length];
    unfold L01_RESERVED_TOP, L01_LOW_RAM_TOP in *; lia.
Qed.
