(* ===== verification/PortTina.v ===== *)
(** * The TinaLinux port (ports/tinalinux/)

    The OS interface, the adapter and the kernel glue.  The arena is in the
    direct map of Linux, so it has one address; in the kernel it comes from the
    page allocator, in the standalone build it is a static array, and the adapter
    takes the one it is linked with as an argument.  The page allocator and the
    boot data of Linux are arguments; the lines given to printk through the log
    hook are kept, what the glue prints itself is not. *)

From stdpp Require Import strings.
From S2P Require Import Prelude Memory Abi KernelParser KernelFacts Builder BuilderFacts Handoff Import ImportFacts ImportEmit Boot Port PortFacts PortParts PortOpen PortSpec.

(** ** The OS interface (osif.c) *)

Record tina_state := TinaState {
  tina_hhdm_offset : Z;
  tina_kphys_base : Z;
  tina_kvirt_base : Z;
  tina_kslide_set : Z;
  tina_arena_used : Z;   (** of the static array *)
  bbp_arena_va : Z;      (** the pages of the glue, 0 before the first use *)
  bbp_arena_used : Z;
}.

Definition tina_initial : tina_state := TinaState 0 0 0 0 0 0 0.

Definition bbp_tina_set_hhdm (s : tina_state) (hhdm_offset : Z) : tina_state * Z :=
  let s := TinaState hhdm_offset (tina_kphys_base s) (tina_kvirt_base s) (tina_kslide_set s)
             (tina_arena_used s) (bbp_arena_va s) (bbp_arena_used s) in
  (s, tina_hhdm_offset s).

Definition bbp_tina_get_hhdm (s : tina_state) : Z := tina_hhdm_offset s.

Definition bbp_tina_set_kslide (s : tina_state) (kphys_base kvirt_base : Z) : tina_state :=
  TinaState (tina_hhdm_offset s) kphys_base kvirt_base 1 (tina_arena_used s) (bbp_arena_va s)
    (bbp_arena_used s).

Definition bbp_tina_virt_to_phys (s : tina_state) (kvirt : Z) : Z :=
  wrap64 (kvirt - tina_hhdm_offset s).

Definition tina_phys_to_virt (s : tina_state) (phys : Z) : Z :=
  reject phys =? 0 with 0;
  wrap64 (phys + tina_hhdm_offset s).

Definition BBP_TINA_ARENA_BYTES : Z := 64 * 1024.

(** The weak hooks. *)
Definition weak_tina_arena_base (tina_arena : Z) (s : tina_state) : tina_state * Z * Z :=
  (s, tina_arena, BBP_TINA_ARENA_BYTES).

Definition weak_tina_hook_alloc (tina_arena : Z) (s : tina_state) (bytes out_phys : Z) :
    tina_state * Z * Z :=
  match static_bump BBP_TINA_ARENA_BYTES (tina_arena_used s) bytes with
  | None => (s, 0, out_phys)
  | Some (start, used) =>
      let p := tina_arena + start in
      let s := TinaState (tina_hhdm_offset s) (tina_kphys_base s) (tina_kvirt_base s)
                 (tina_kslide_set s) used (bbp_arena_va s) (bbp_arena_used s) in
      (s, p, bbp_tina_virt_to_phys s p)
  end.

(** The strong hooks of the glue (tina_bbp.c); [pages] is what
    [__get_free_pages] returns, [pa] is [__pa]. *)
Definition BBP_TINA_ARENA_ORDER : Z := 4.
Definition bbp_arena_bytes : Z := Z.shiftl 1 BBP_TINA_ARENA_ORDER * 4096.

Definition bbp_tina_arena_base (pages : Z) (s : tina_state) : tina_state * Z * Z :=
  let s := if bbp_arena_va s =? 0
           then TinaState (tina_hhdm_offset s) (tina_kphys_base s) (tina_kvirt_base s)
                  (tina_kslide_set s) (tina_arena_used s) pages (bbp_arena_used s)
           else s in
  (s, bbp_arena_va s, if negb (bbp_arena_va s =? 0) then bbp_arena_bytes else 0).

Definition bbp_tina_hook_alloc (pages : Z) (pa : Z -> Z) (s : tina_state) (bytes out_phys : Z) :
    tina_state * Z * Z :=
  let s := if bbp_arena_va s =? 0 then fst (fst (bbp_tina_arena_base pages s)) else s in
  reject bbp_arena_va s =? 0 with (s, 0, out_phys);
  match static_bump bbp_arena_bytes (bbp_arena_used s) bytes with
  | None => (s, 0, out_phys)
  | Some (start, used) =>
      let p := bbp_arena_va s + start in
      let s := TinaState (tina_hhdm_offset s) (tina_kphys_base s) (tina_kvirt_base s)
                 (tina_kslide_set s) (tina_arena_used s) (bbp_arena_va s) used in
      (s, p, pa p)
  end.

Definition bbp_tina_osif (alloc : tina_state -> Z -> Z -> tina_state * Z * Z) : bbp_osif tina_state :=
  Osif tina_phys_to_virt (Some alloc).

(** ** The adapter (adapter.c) *)

Record bbp_tina_bootinfo := TinaBootinfo {
  tb_hhdm_offset : Z;
  tb_kernel_phys_base : Z;
  tb_kernel_virt_base : Z;
  tb_have_kernel_address : Z;
  tb_mmap : Z * list mmap_entry;
  tb_rsdp_phys : Z;
  tb_cmdline : Z;
}.

Definition e820_type_to_bbp (e820_type : Z) : Z :=
  if e820_type =? 1 then BBP_MEM_USABLE
  else if e820_type =? 2 then BBP_MEM_RESERVED
  else if e820_type =? 3 then BBP_MEM_ACPI_RECLAIMABLE
  else if e820_type =? 4 then BBP_MEM_ACPI_NVS
  else if e820_type =? 5 then BBP_MEM_BAD_MEMORY
  else if e820_type =? 7 then BBP_MEM_PERSISTENT
  else if e820_type =? 12 then BBP_MEM_PERSISTENT
  else if e820_type =? 128 then BBP_MEM_KERNEL_AND_MODULES
  else if e820_type =? 0xefffffff then BBP_MEM_SOFT_RESERVED
  else BBP_MEM_RESERVED.

Definition tina_mem_default_attrs (bbp_type : Z) : Z :=
  if (bbp_type =? BBP_MEM_USABLE) || (bbp_type =? BBP_MEM_BOOTLOADER_RECLAIM)
     || (bbp_type =? BBP_MEM_ACPI_RECLAIMABLE) || (bbp_type =? BBP_MEM_KERNEL_AND_MODULES)
  then Z.lor (Z.lor BBP_MEM_ATTR_READABLE BBP_MEM_ATTR_WRITABLE) BBP_MEM_ATTR_CACHED
  else if bbp_type =? BBP_MEM_PERSISTENT then Z.lor BBP_MEM_ATTR_READABLE BBP_MEM_ATTR_WRITABLE
  else BBP_MEM_ATTR_READABLE.

Definition tina_tags (bi : bbp_tina_bootinfo) (tagbase tagbase_phys : Z) : emitter :=
  put_hhdm (tb_hhdm_offset bi) ;;;
  put_memory_map e820_type_to_bbp tina_mem_default_attrs (tb_mmap bi) ;;;
  emit_when (negb (tb_have_kernel_address bi =? 0))
    (put_kernel_address (tb_kernel_phys_base bi) (tb_kernel_virt_base bi)) ;;;
  emit_when (negb (tb_rsdp_phys bi =? 0)) (put_acpi (tb_rsdp_phys bi)) ;;;
  when_string (tb_cmdline bi) (put_cmdline tagbase tagbase_phys (tb_cmdline bi)).

Definition bbp_tina_adapter (arena_base : tina_state -> tina_state * Z * Z)
    (alloc : tina_state -> Z -> Z -> tina_state * Z * Z) (s : tina_state) (m : mem)
    (bi : option bbp_tina_bootinfo) (cand : bbp_kctx) (out : option bbp_kctx) :
    option (tina_state * mem * option bbp_kctx * bbp_status_t) :=
  match out, bi with
  | Some _, Some bi =>
      let osif := bbp_tina_osif alloc in
      let '(s, _) := bbp_tina_set_hhdm s (tb_hhdm_offset bi) in
      let s := if negb (tb_have_kernel_address bi =? 0)
               then bbp_tina_set_kslide s (tb_kernel_phys_base bi) (tb_kernel_virt_base bi) else s in
      let '(s, arena, arena_size) := arena_base s in
      reject (arena =? 0) || (arena_size <=? sizeof bbp_info) with Some (s, m, out, BBP_ERR_SIZE);
      m ← mem_zero m arena (Z.to_nat arena_size);
      let tagbase := arena + sizeof bbp_info in
      let tagbase_phys := bbp_tina_virt_to_phys s tagbase in
      reject tagbase_phys =? 0 with Some (s, m, out, BBP_ERR_SIZE);
      let info_phys := wrap64 (tagbase_phys - sizeof bbp_info) in
      let info_hhdm := phys_to_virt osif s info_phys in
      '(m, out, st) ← build_and_open (tina_tags bi tagbase tagbase_phys) (fun m => m) m arena tagbase
                        tagbase_phys (arena_size - sizeof bbp_info) info_phys info_hhdm
                        (tb_hhdm_offset bi) cand out;
      Some (s, m, out, st)
  | _, _ => Some (s, m, out, BBP_ERR_NULL)
  end.

(** ** The kernel glue (tina_bbp.c) *)

(** The line buffer of the log hook and the lines given to printk. *)
Record tina_log := TinaLog { bbp_line : list byte; printed : list (list byte) }.

Definition BBP_LINE_MAX : Z := 256.

Fixpoint log_loop (msg : list byte) (l : tina_log) : tina_log :=
  match msg with
  | [] => l
  | c :: msg =>
      let newline := byte_Z c =? 10 in
      if newline || (zlen (bbp_line l) =? BBP_LINE_MAX - 1) then
        let l := TinaLog [] (printed l ++ [bbp_line l]) in
        if newline then log_loop msg l
        else log_loop msg (TinaLog (bbp_line l ++ [c]) (printed l))
      else log_loop msg (TinaLog (bbp_line l ++ [c]) (printed l))
  end.

(** [None] is a NULL message. *)
Definition bbp_tina_hook_log (msg : option (list byte)) (l : tina_log) : tina_log :=
  match msg with None => l | Some msg => log_loop msg l end.

Record tina_glue := TinaGlue {
  tg_os : tina_state;
  tg_log : tina_log;
  bbp_ctx : bbp_kctx;
  bbp_ctx_valid : Z;
}.

Definition bbp_tina_boot_ctx (g : tina_glue) : option bbp_kctx :=
  if negb (bbp_ctx_valid g =? 0) then Some (bbp_ctx g) else None.

Definition bbp_tina_get_rsdp (m : mem) (g : tina_glue) : option Z :=
  reject bbp_ctx_valid g =? 0 with Some 0;
  t ← bbp_find_tag m (Some (bbp_ctx g)) BBP_TAG_ACPI;
  reject t =? 0 with Some 0;
  load64 m (t + 32).

Definition bbp_tina_banner (l : tina_log) : tina_log :=
  let log l msg := bbp_tina_hook_log (Some msg) l in
  foldl log l
    [say_line "";
     say_line "  +========================================================+";
     say_line "  |   B E A R   B O O T   P R O T O C O L   v1.1           |";
     say_line "  |   native TinaLinux OSIF  -  CRC64-sealed boot tags     |";
     say_line "  +========================================================+";
     say_line "     [*] native Linux -> BBP adapter .... ACTIVE";
     say_line "     [*] handoff integrity ............. CRC-64/XZ verified";
     say_line "     [*] source tables ................. e820 + ACPI + cmdline";
     say_line "     TinaLinux x86_64 now sees firmware through BBP.";
     say_line "     F E R M I  ∞  H A R T";
     say_line "  +========================================================+" ++ [x0a]].

Definition BBP_TINA_MAX_MMAP : Z := 256.

(** What the glue reads of Linux: the direct-map base, the kernel's physical
    and virtual base, the e820 table, the RSDP and the command line. *)
Record tina_boot := TinaBoot {
  page_offset_base : Z;
  phys_base : Z;
  text_base : Z;
  e820_table : list mmap_entry;
  acpi_root_pointer : Z;
  saved_command_line : Z;
}.

(** The loop over the e820 table; [m] entries are in [bbp_mmap]. *)
Fixpoint copy_e820 (entries : list mmap_entry) (m : Z) : list mmap_entry :=
  match entries with
  | [] => []
  | e :: entries => if m <? BBP_TINA_MAX_MMAP then e :: copy_e820 entries (m + 1) else []
  end.

(** [bbp_mmap] is the address of the static array. *)
Definition tina_bootinfo (bbp_mmap : Z) (boot : tina_boot) : bbp_tina_bootinfo :=
  TinaBootinfo (page_offset_base boot) (phys_base boot) (text_base boot) 1
    (bbp_mmap, copy_e820 (e820_table boot) 0) (acpi_root_pointer boot) (saved_command_line boot).

Definition bbp_tina_init (pages : Z) (pa : Z -> Z) (bbp_mmap : Z) (boot : tina_boot) (g : tina_glue)
    (m : mem) (cand : bbp_kctx) : option (tina_glue * mem * Z) :=
  '(s, m, ctx, st) ← bbp_tina_adapter (bbp_tina_arena_base pages) (bbp_tina_hook_alloc pages pa)
                       (tg_os g) m (Some (tina_bootinfo bbp_mmap boot)) cand (Some (bbp_ctx g));
  ctx ← ctx;
  let log l msg := bbp_tina_hook_log (Some msg) l in
  let l := foldl log (tg_log g)
             [say "native Linux -> BBP adapter: "; say (bbp_strstatus st); say_line ""] in
  if bool_decide (st = BBP_OK) then
    '(_, _) ← bbp_for_each_tag m (Some ctx) (Some count_cb) 0;
    Some (TinaGlue s (bbp_tina_banner l) ctx 1, m, 0)
  else Some (TinaGlue s l ctx 0, m, 0).
