(* ===== verification/PortTinaProps.v ===== *)
(** * The TinaLinux port: its promise

    The adapter implements the port interface, and what the glue makes of it:
    the boot, the consumer of the ACPI tag and the line buffer of the log. *)

From stdpp Require Import strings.
From S2P Require Import Prelude Memory Abi KernelParser KernelFacts Builder BuilderFacts Handoff Import ImportFacts ImportEmit ImportBodies Boot Port PortFacts PortParts PortOpen PortSpec PortTina.

(** ** The port *)

Definition tina_items (bi : bbp_tina_bootinfo) (text : list byte) : list item :=
  [hhdm_item (tb_hhdm_offset bi)] ++
  mmap_items e820_type_to_bbp tina_mem_default_attrs (tb_mmap bi) ++
  when (negb (tb_have_kernel_address bi =? 0))
    (kernel_address_item (tb_kernel_phys_base bi) (tb_kernel_virt_base bi)) ++
  when (negb (tb_rsdp_phys bi =? 0)) (acpi_item (tb_rsdp_phys bi)) ++
  when (negb (zlen text =? 0)) (cmdline_item text).

(** The arena the adapter is linked with is at [info], whatever the slide. *)
Definition gives (arena_base : tina_state -> tina_state * Z * Z) (s : tina_state) (info size : Z) : Prop :=
  forall s', bbp_arena_va s' = bbp_arena_va s ->
    exists s'', arena_base s' = (s'', info, size) /\ tina_hhdm_offset s'' = tina_hhdm_offset s'.

Lemma weak_gives tina_arena s : gives (weak_tina_arena_base tina_arena) s tina_arena BBP_TINA_ARENA_BYTES.
Proof. intros s' _. by exists s'. Qed.

Definition tina_pages (pages : Z) (s : tina_state) : Z :=
  if bbp_arena_va s =? 0 then pages else bbp_arena_va s.

Lemma strong_gives pages s :
  tina_pages pages s <> 0 -> gives (bbp_tina_arena_base pages) s (tina_pages pages s) bbp_arena_bytes.
Proof.
  unfold tina_pages. intros Hp s' Ha. unfold bbp_tina_arena_base. rewrite Ha.
  destruct (Z.eqb_spec (bbp_arena_va s) 0) as [E|E]; cbn [bbp_arena_va].
  - rewrite (proj2 (Z.eqb_neq pages 0) Hp). by eexists.
  - rewrite Ha, (proj2 (Z.eqb_neq _ 0) E). by exists s'.
Qed.

Definition tina_given (arena_base : tina_state -> tina_state * Z * Z) (s : tina_state)
    (bi : bbp_tina_bootinfo) (text : list byte) (info C P d : Z) (m : mem) : Prop :=
  gives arena_base s info (144 + C) /\ d = 0 /\ 144 < P /\
  string_at m (tb_cmdline bi) text /\ disjoint_range info (144 + C) (tb_cmdline bi) (zlen text + 1).

Lemma tina_items_wf bi x : Forall item_wf (tina_items bi x).
Proof. unfold tina_items. rewrite !Forall_app. split_and!; auto with items. Qed.

Lemma tina_items_ids bi x : NoDup (map i_id (tina_items bi x)).
Proof.
  eapply sublist_NoDup.
  2: { unfold tina_items. rewrite !map_app. repeat apply sublist_app; apply (when_ids true) || apply when_ids. }
  by apply (bool_decide_unpack _); vm_compute.
Qed.

#[global] Instance tina_port arena_base alloc :
  Port (bbp_tina_adapter arena_base alloc) (fun m => m) tb_hhdm_offset (tina_given arena_base)
    tina_tags tina_items.
Proof.
  split.
  - intros s m bi cand out [->| ->]; [by destruct out|done].
  - intros s bi x info C P d m cand k0 [[? ?] (? & ? & ?) [? ?] _ [Hd ?] _] (Hg & -> & HP & _).
    unfold bbp_tina_adapter. cbn [bbp_tina_set_hhdm].
    set (s0 := if negb _ then _ else _).
    assert (tina_hhdm_offset s0 = tb_hhdm_offset bi /\ bbp_arena_va s0 = bbp_arena_va s) as [Hh Hva]
      by (unfold s0; by destruct (negb _)).
    clearbody s0. destruct (Hg s0 Hva) as (s1 & -> & Hs1). rewrite Hh in Hs1. exists s1, (P - 144).
    change (sizeof bbp_info) with 144. rewrite (proj2 (Z.eqb_neq info 0)) by lia.
    rewrite (proj2 (Z.leb_gt (144 + C) 144)) by lia. cbn [orb bbp_tina_osif phys_to_virt].
    unfold bbp_tina_virt_to_phys, tina_phys_to_virt. rewrite Hs1.
    replace (info + 144 - tb_hhdm_offset bi) with P by lia. replace (144 + C - 144) with C by lia.
    rewrite (wrap_small 64 P) by (unfold in_word; lia). rewrite (proj2 (Z.eqb_neq P 0)) by lia.
    rewrite (wrap_small 64 (P - 144)) by (unfold in_word; lia). rewrite (proj2 (Z.eqb_neq (P - 144) 0)) by lia.
    replace (P - 144 + tb_hhdm_offset bi) with (info + 0) by lia.
    by rewrite (wrap_small 64 (info + 0)) by (unfold in_word; lia).
  - intros s bi x info C P d m m' F (? & ? & ? & Hs & Hd). split_and!; try done. by eapply string_at_frame.
  - intros s bi x info C P d m Hpl Hg.
    assert (forall m m', frame (info + 144) C m m' ->
      tina_given arena_base s bi x info C P d m -> tina_given arena_base s bi x info C P d m') as Hk.
    { intros m1 m2 F (? & ? & ? & Hs & Hd). split_and!; try done. eapply string_at_frame; [|done|done].
      eapply frame_weaken; [exact F|lia|lia]. }
    destruct Hpl as [[? HC] (? & ? & HP) [? HA] _ _ _]. pose proof Hg as (_ & _ & _ & _ & Hd).
    unfold tina_tags, tina_items. repeat (apply builds_seq; [done|auto with items|..]).
    + by apply hhdm_builds.
    + by apply memory_map_builds.
    + apply builds_when. intros _. by apply kernel_address_builds.
    + apply builds_when. intros _. by apply acpi_builds.
    + apply text_builds; [done..|lia| |by exists m|].
      * intros m1 (_ & _ & _ & Hs & _). exact Hs.
      * intros y ? ?. apply (Hd y); lia.
  - apply tina_items_wf.
  - apply tina_items_ids.
  - intros bi x. by left.
Qed.

(** ** Booting *)

(** The boot: either the tags do not fit and no context is published, or the
    published context has exactly the tags of the boot data, and the RSDP the
    kernel gets back is the one ACPI gave. *)
Lemma tina_init_spec pages pa bbp_mmap boot g m cand text P :
  let bi := tina_bootinfo bbp_mmap boot in
  let info := tina_pages pages (tg_os g) in
  let C := bbp_arena_bytes - 144 in
  placed (fun m => m) info C P 0 (page_offset_base boot) -> 144 < P ->
  in_word 64 (acpi_root_pointer boot) ->
  string_at m (saved_command_line boot) text ->
  disjoint_range info bbp_arena_bytes (saved_command_line boot) (zlen text + 1) ->
  mapped m info bbp_arena_bytes ->
  let k := Kctx info (page_offset_base boot) 1 P (P + C) in
  exists g' m',
    bbp_tina_init pages pa bbp_mmap boot g m cand = Some (g', m', 0) /\ frame info bbp_arena_bytes m m' /\
    match layout C 0 0 (tina_items bi text) with
    | None => bbp_tina_boot_ctx g' = None /\ bbp_tina_get_rsdp m' g' = Some 0
    | Some _ =>
        bbp_tina_boot_ctx g' = Some k /\ opened m' k (tina_items bi text) /\
        bbp_tina_get_rsdp m' g' = Some (acpi_root_pointer boot)
    end.
Proof.
  intros bi info C Hpl HP Hw Hs Hd Hm k.
  destruct (port_spec (bbp_tina_adapter (bbp_tina_arena_base pages) (bbp_tina_hook_alloc pages pa)) _ _ _ _ _
    (tg_os g) bi text info C P 0 m cand (bbp_ctx g)) as (s' & m' & F & Hout).
  { exact Hpl. }
  { split_and!; try done. apply strong_gives. destruct (pl_info _ _ _ _ _ _ Hpl). unfold info in *. lia. }
  { exact Hm. }
  unfold bbp_tina_init. fold bi. destruct (layout C 0 0 (tina_items bi text)) as [[u n]|].
  - destruct Hout as [-> Hop]. cbn [mbind option_bind]. rewrite Z.add_0_r in Hop |- *.
    change (tb_hhdm_offset bi) with (page_offset_base boot) in *. fold k in Hop |- *.
    rewrite (opened_count m' k _ Hop). cbn [mbind option_bind]. rewrite bool_decide_eq_true_2 by done.
    eexists _, m'. split_and!; [done|done|done|done|]. unfold bbp_tina_get_rsdp. cbn [bbp_ctx bbp_ctx_valid Z.eqb].
    destruct (Z.eqb_spec (acpi_root_pointer boot) 0) as [E|E].
    + assert (bbp_find_tag m' (Some k) BBP_TAG_ACPI = Some 0) as ->.
      { apply Hop. unfold tina_items, bi, mmap_items. cbn [tb_rsdp_phys tina_bootinfo]. rewrite E. not_among. }
      by rewrite E.
    + destruct (delivered_acpi m' k _ (acpi_root_pointer boot) Hop) as (tag & -> & Ht & Hl); [|done|].
      * unfold tina_items. rewrite !in_app_iff. right. right. right. left. apply in_when.
        cbn [tb_rsdp_phys bi tina_bootinfo]. by rewrite (proj2 (Z.eqb_neq _ 0) E).
      * cbn [mbind option_bind]. by rewrite (proj2 (Z.eqb_neq tag 0) Ht).
  - rewrite Hout. cbn [mbind option_bind]. eexists _, m'. rewrite bool_decide_eq_false_2 by done. by split_and!.
Qed.

Lemma zlen_copy_e820 entries m : 0 <= m <= BBP_TINA_MAX_MMAP -> zlen (copy_e820 entries m) <= BBP_TINA_MAX_MMAP - m.
Proof.
  revert m. induction entries as [|e entries IH]; intros m Hm; cbn [copy_e820]; [rewrite zlen_nil; lia|].
  destruct (Z.ltb_spec m BBP_TINA_MAX_MMAP); [|rewrite zlen_nil; lia]. rewrite zlen_cons. specialize (IH (m + 1)). lia.
Qed.

(** At most 256 e820 entries and a command line of up to 50,000 bytes fit. *)
Lemma tina_items_fit bbp_mmap boot text :
  zlen text <= 50000 ->
  exists u n, layout (bbp_arena_bytes - 144) 0 0 (tina_items (tina_bootinfo bbp_mmap boot) text) = Some (u, n).
Proof.
  intros Ht. pose proof (zlen_copy_e820 (e820_table boot) 0 ltac:(done)) as He.
  pose proof (zlen_nonneg (copy_e820 (e820_table boot) 0)). pose proof (zlen_nonneg text).
  unfold BBP_TINA_MAX_MMAP in He. change (bbp_arena_bytes - 144) with 65392.
  apply items_fit; [apply tina_items_wf| |done|]; unfold tina_items, mmap_items;
    cbn [tb_mmap tina_bootinfo snd]; bound_rooms; lia.
Qed.

(** ** The log *)

(** Newlines are line ends and nothing else is lost: the lines printed and the
    buffer hold, in order, every other byte that was logged; a line and the
    buffer, with its terminator, fit in the 256 bytes. *)
Lemma log_loop_spec msg l :
  zlen (bbp_line l) < BBP_LINE_MAX ->
  let l' := log_loop msg l in
  zlen (bbp_line l') < BBP_LINE_MAX /\
  exists lines, printed l' = printed l ++ lines /\ Forall (fun x => zlen x < BBP_LINE_MAX) lines /\
    concat lines ++ bbp_line l' = bbp_line l ++ List.filter (fun c => negb (byte_Z c =? 10)) msg.
Proof.
  revert l. induction msg as [|c msg IH]; intros l Hl; cbn [log_loop].
  { split; [done|]. exists []. rewrite !app_nil_r. by split_and!. }
  cbn [List.filter]. destruct (byte_Z c =? 10); cbn [negb orb].
  - destruct (IH (TinaLog [] (printed l ++ [bbp_line l]))) as (Hb & lines & Hp & Hall & Hc); [done|].
    split; [done|]. exists (bbp_line l :: lines). cbn [printed bbp_line concat] in *.
    rewrite Hp, <- !app_assoc, Hc. by split_and!; [..|constructor|].
  - destruct (Z.eqb_spec (zlen (bbp_line l)) (BBP_LINE_MAX - 1)) as [E|E].
    + destruct (IH (TinaLog [c] (printed l ++ [bbp_line l]))) as (Hb & lines & Hp & Hall & Hc); [done|].
      split; [done|]. exists (bbp_line l :: lines). cbn [printed bbp_line concat app] in *.
      rewrite Hp, <- !app_assoc, Hc. by split_and!; [..|constructor|].
    + destruct (IH (TinaLog (bbp_line l ++ [c]) (printed l))) as (Hb & lines & Hp & Hall & Hc).
      { cbn [bbp_line]. rewrite zlen_app. change (zlen [c]) with 1. lia. }
      split; [done|]. exists lines. cbn [printed bbp_line] in *. rewrite Hp, Hc, <- app_assoc. by split_and!.
Qed.
