(* ===== verification/PortMinix.v ===== *)
(** * The MINIX port (ports/minix/)

    The OS interface, the adapter and the boot glue with its consumers.  The
    arena is a static array of the kernel image: the adapter writes it at its
    link address and hands the parser its address in the direct map.  [view]
    gives the memory as the direct map shows it; the address of the array and
    [view] are arguments.  Output is the list of messages given to the log hook
    ([console]); the serial port behind it is not modelled. *)

From stdpp Require Import strings.
From S2P Require Import Prelude Memory Abi KernelParser Builder Import ImportLimine Port.

(** ** The OS interface (osif.c) *)

Record minix_state := MinixState {
  minix_hhdm_offset : Z;
  minix_kphys_base : Z;
  minix_kvirt_base : Z;
  minix_kslide_set : Z;
  minix_arena_used : Z;
}.

Definition minix_initial : minix_state := MinixState 0 0 0 0 0.

Definition bbp_minix_set_hhdm (s : minix_state) (hhdm_offset : Z) : minix_state * Z :=
  let s := MinixState hhdm_offset (minix_kphys_base s) (minix_kvirt_base s) (minix_kslide_set s)
             (minix_arena_used s) in
  (s, minix_hhdm_offset s).

Definition bbp_minix_get_hhdm (s : minix_state) : Z := minix_hhdm_offset s.

Definition bbp_minix_set_kslide (s : minix_state) (kphys_base kvirt_base : Z) : minix_state :=
  MinixState (minix_hhdm_offset s) kphys_base kvirt_base 1 (minix_arena_used s).

Definition bbp_minix_virt_to_phys (s : minix_state) (kimage_virt : Z) : Z :=
  if negb (minix_kslide_set s =? 0) then wrap64 (kimage_virt - minix_kvirt_base s + minix_kphys_base s)
  else kimage_virt.

Definition minix_phys_to_virt (s : minix_state) (phys : Z) : Z :=
  reject phys =? 0 with 0;
  wrap64 (phys + minix_hhdm_offset s).

Definition BBP_MINIX_ARENA_BYTES : Z := 64 * 1024.

Definition bbp_minix_arena_base (minix_arena : Z) : Z * Z := (minix_arena, BBP_MINIX_ARENA_BYTES).

Definition minix_alloc_pages (minix_arena : Z) (s : minix_state) (bytes out_phys : Z) :
    minix_state * Z * Z :=
  match static_bump BBP_MINIX_ARENA_BYTES (minix_arena_used s) bytes with
  | None => (s, 0, out_phys)
  | Some (start, used) =>
      let p := minix_arena + start in
      let s := MinixState (minix_hhdm_offset s) (minix_kphys_base s) (minix_kvirt_base s)
                 (minix_kslide_set s) used in
      (s, p, bbp_minix_virt_to_phys s p)
  end.

Definition bbp_minix_osif (minix_arena : Z) : bbp_osif minix_state :=
  Osif minix_phys_to_virt (Some (minix_alloc_pages minix_arena)).

(** ** The adapter (adapter.c) *)

Record bbp_minix_bootinfo := MinixBootinfo {
  nb_hhdm_offset : Z;
  nb_kernel_phys_base : Z;
  nb_kernel_virt_base : Z;
  nb_have_kernel_address : Z;
  nb_mmap : Z * list mmap_entry;
  nb_rsdp_phys : Z;
  nb_fb : boot_fb;
  nb_cmdline : Z;
  nb_lapic_ids : Z * list Z;   (** the pointer and the [smp_cpu_count] words behind it *)
  nb_smp_bsp_lapic : Z;
  nb_smp_x2apic : Z;
}.

Definition limine_memtype_to_bbp (lim_type : Z) : Z :=
  if lim_type =? 0 then BBP_MEM_USABLE
  else if lim_type =? 1 then BBP_MEM_RESERVED
  else if lim_type =? 2 then BBP_MEM_ACPI_RECLAIMABLE
  else if lim_type =? 3 then BBP_MEM_ACPI_NVS
  else if lim_type =? 4 then BBP_MEM_BAD_MEMORY
  else if lim_type =? 5 then BBP_MEM_BOOTLOADER_RECLAIM
  else if lim_type =? 6 then BBP_MEM_KERNEL_AND_MODULES
  else if lim_type =? 7 then BBP_MEM_FRAMEBUFFER
  else BBP_MEM_RESERVED.

Definition bbp_mem_default_attrs (bbp_type : Z) : Z :=
  if (bbp_type =? BBP_MEM_USABLE) || (bbp_type =? BBP_MEM_BOOTLOADER_RECLAIM)
     || (bbp_type =? BBP_MEM_ACPI_RECLAIMABLE) || (bbp_type =? BBP_MEM_KERNEL_AND_MODULES)
  then Z.lor (Z.lor BBP_MEM_ATTR_READABLE BBP_MEM_ATTR_WRITABLE) BBP_MEM_ATTR_CACHED
  else if bbp_type =? BBP_MEM_FRAMEBUFFER
  then Z.lor (Z.lor BBP_MEM_ATTR_READABLE BBP_MEM_ATTR_WRITABLE) BBP_MEM_ATTR_WRITE_COMBINE
  else BBP_MEM_ATTR_READABLE.

(** Processor [i] has the [i]-th local APIC and is core [i]. *)
Fixpoint lapic_cpus (i : Z) (lapic_ids : list Z) : list boot_cpu :=
  match lapic_ids with
  | [] => []
  | lid :: lapic_ids => BootCpu i lid (wrap 16 i) :: lapic_cpus (i + 1) lapic_ids
  end.

Definition minix_tags (bi : bbp_minix_bootinfo) (tagbase tagbase_phys : Z) : emitter :=
  put_hhdm (nb_hhdm_offset bi) ;;;
  put_memory_map limine_memtype_to_bbp bbp_mem_default_attrs (nb_mmap bi) ;;;
  emit_when (negb (nb_have_kernel_address bi =? 0))
    (put_kernel_address (nb_kernel_phys_base bi) (nb_kernel_virt_base bi)) ;;;
  put_smp (fst (nb_lapic_ids bi), lapic_cpus 0 (snd (nb_lapic_ids bi))) (nb_smp_bsp_lapic bi)
    (if negb (nb_smp_x2apic bi =? 0) then BBP_SMP_FLAG_X2APIC else 0) ;;;
  emit_when (negb (nb_rsdp_phys bi =? 0)) (put_acpi (nb_rsdp_phys bi)) ;;;
  put_framebuffer (nb_fb bi) ;;;
  when_string (nb_cmdline bi) (put_cmdline tagbase tagbase_phys (nb_cmdline bi)).

Definition bbp_minix_adapter (minix_arena : Z) (view : mem -> mem) (s : minix_state) (m : mem)
    (bi : option bbp_minix_bootinfo) (cand : bbp_kctx) (out : option bbp_kctx) :
    option (minix_state * mem * option bbp_kctx * bbp_status_t) :=
  match out, bi with
  | Some _, Some bi =>
      let osif := bbp_minix_osif minix_arena in
      let '(s, _) := bbp_minix_set_hhdm s (nb_hhdm_offset bi) in
      let s := if negb (nb_have_kernel_address bi =? 0)
               then bbp_minix_set_kslide s (nb_kernel_phys_base bi) (nb_kernel_virt_base bi) else s in
      let '(arena, arena_size) := bbp_minix_arena_base minix_arena in
      reject (arena =? 0) || (arena_size <=? sizeof bbp_info) with Some (s, m, out, BBP_ERR_SIZE);
      m ← mem_zero m arena (Z.to_nat arena_size);
      let tagbase := arena + sizeof bbp_info in
      let tagbase_phys := bbp_minix_virt_to_phys s tagbase in
      reject tagbase_phys =? 0 with Some (s, m, out, BBP_ERR_SIZE);
      let info_phys := wrap64 (tagbase_phys - sizeof bbp_info) in
      let info_hhdm := phys_to_virt osif s info_phys in
      '(m, out, st) ← build_and_open (minix_tags bi tagbase tagbase_phys) view m arena tagbase
                        tagbase_phys (arena_size - sizeof bbp_info) info_phys info_hhdm
                        (nb_hhdm_offset bi) cand out;
      Some (s, m, out, st)
  | _, _ => Some (s, m, out, BBP_ERR_NULL)
  end.

(** ** The consumers (minix_glue.c) *)

Record minix_glue := MinixGlue {
  mg_os : minix_state;
  g_ctx : bbp_kctx;
  g_ctx_valid : Z;
  console : list (list byte);
}.

Definition bbp_minix_boot_ctx (g : minix_glue) : option bbp_kctx :=
  if negb (g_ctx_valid g =? 0) then Some (g_ctx g) else None.

(** [if (!t || t->tag_size < sizeof(...))]: the tag when it is there and large
    enough. *)
Definition sized_tag (m : mem) (g : minix_glue) (id size : Z) : option (option Z) :=
  t ← bbp_find_tag m (Some (g_ctx g)) id;
  reject t =? 0 with Some None;
  tag_size ← load32 m (t + 8);
  Some (if tag_size <? size then None else Some t).

Definition bbp_minix_get_rsdp (m : mem) (g : minix_glue) : option Z :=
  reject g_ctx_valid g =? 0 with Some 0;
  t ← sized_tag m g BBP_TAG_ACPI (sizeof bbp_tag_acpi);
  match t with None => Some 0 | Some t => load64 m (t + 32) end.

(** [*out] ([None] is a NULL pointer) and the result. *)
Definition bbp_minix_ctx_hhdm (m : mem) (g : minix_glue) (out : option Z) : option (option Z * Z) :=
  reject g_ctx_valid g =? 0 with Some (out, 0);
  match out with
  | None => Some (out, 0)
  | Some _ =>
      t ← sized_tag m g BBP_TAG_HHDM (sizeof bbp_tag_hhdm);
      match t with
      | None => Some (out, 0)
      | Some t => offset ← load64 m (t + 32); Some (Some offset, 1)
      end
  end.

(** The loop over the entries: [None] inside is the overflow return. *)
Fixpoint usable_loop (m : mem) (e : Z) (steps : nat) (usable : Z) : option (option Z) :=
  match steps with
  | O => Some (Some usable)
  | S steps =>
      type ← load32 m (e + 16);
      if type =? BBP_MEM_USABLE then
        length ← load64 m (e + 8);
        reject UINT64_MAX - length <? usable with Some None;
        usable_loop m (e + sizeof bbp_memory_entry) steps (usable + length)
      else usable_loop m (e + sizeof bbp_memory_entry) steps usable
  end.

(** The out parameters ([None] is NULL) and the result. *)
Definition bbp_minix_verify_memmap (m : mem) (g : minix_glue) (raw_usable : Z)
    (bbp_usable entries : option Z) : option (option Z * option Z * Z) :=
  reject g_ctx_valid g =? 0 with Some (bbp_usable, entries, 0);
  t ← sized_tag m g BBP_TAG_MEMORY_MAP (sizeof bbp_tag_memory_map);
  match t with
  | None => Some (bbp_usable, entries, 0)
  | Some t =>
      entry_size ← load32 m (t + 36);
      reject negb (entry_size =? sizeof bbp_memory_entry) with Some (bbp_usable, entries, 0);
      entry_count ← load32 m (t + 32);
      '(e, count) ← bbp_tag_array m t (sizeof bbp_tag_memory_map) (sizeof bbp_memory_entry) entry_count;
      reject negb (count =? entry_count) with Some (bbp_usable, entries, 0);
      usable ← usable_loop m e (Z.to_nat count) 0;
      match usable with
      | None => Some (bbp_usable, entries, 0)
      | Some usable =>
          Some (option_map (fun _ => usable) bbp_usable, option_map (fun _ => count) entries,
                if usable =? raw_usable then 1 else 0)
      end
  end.

Definition bbp_minix_verify_smp (m : mem) (g : minix_glue) (cpu_count bsp_id x2apic : option Z) :
    option (option Z * option Z * option Z * Z) :=
  reject g_ctx_valid g =? 0 with Some (cpu_count, bsp_id, x2apic, 0);
  t ← sized_tag m g BBP_TAG_SMP (sizeof bbp_tag_smp);
  match t with
  | None => Some (cpu_count, bsp_id, x2apic, 0)
  | Some t =>
      count ← load32 m (t + 32);
      bsp ← load32 m (t + 36);
      flags ← load64 m (t + 40);
      Some (option_map (fun _ => count) cpu_count, option_map (fun _ => bsp) bsp_id,
            option_map (fun _ => Z.land flags BBP_SMP_FLAG_X2APIC) x2apic, 1)
  end.

Definition bbp_minix_get_kernel_address (m : mem) (g : minix_glue) (phys virt : option Z) :
    option (option Z * option Z * Z) :=
  reject g_ctx_valid g =? 0 with Some (phys, virt, 0);
  match phys, virt with
  | Some _, Some _ =>
      t ← sized_tag m g BBP_TAG_KERNEL_ADDRESS (sizeof bbp_tag_kernel_address);
      match t with
      | None => Some (phys, virt, 0)
      | Some t =>
          physical_base ← load64 m (t + 32);
          virtual_base ← load64 m (t + 40);
          Some (Some physical_base, Some virtual_base, 1)
      end
  | _, _ => Some (phys, virt, 0)
  end.

(** ** Number printers *)

Definition hex_digits : list byte := say "0123456789abcdef".

(** [buf[2 + i] = h[(v >> ((15 - i) * 4)) & 0xF]] for the [i] from [16 - steps] on. *)
Fixpoint hex_loop (v : Z) (steps : nat) : list byte :=
  match steps with
  | O => []
  | S steps =>
      nth (Z.to_nat (Z.land (Z.shiftr v (Z.of_nat steps * 4)) 0xF)) hex_digits x00 :: hex_loop v steps
  end.

Definition glue_hex (v : Z) : list byte := say "0x" ++ hex_loop v 16.

(** [buf[--i] = '0' + (v % 10); v /= 10;] while [v && i]: the digits from [i] on. *)
Fixpoint dec_loop (v : Z) (i : nat) (digits : list byte) : list byte :=
  match i with
  | O => digits
  | S i =>
      if v =? 0 then digits
      else dec_loop (v / 10) i (Z_byte (48 + v mod 10) :: digits)
  end.

Definition glue_dec (v : Z) : list byte := if v =? 0 then say "0" else dec_loop v 20 [].

(** ** The boot glue *)

Definition bbp_minix_banner (hhdm tags : Z) : list (list byte) :=
  [say_line "";
   say_line "  +========================================================+";
   say_line "  |   B E A R   B O O T   P R O T O C O L   v1.1           |";
   say_line "  |   the bear-grade kernel handoff  -  CRC64-sealed tags  |";
   say_line "  +========================================================+";
   say_line "     [*] Limine -> BBP adapter ......... ACTIVE";
   say_line "     [*] handoff integrity ............. CRC-64/XZ verified";
   say "     [*] HHDM reachability (SPEC 10.1b)  ok, offset=";
   glue_hex hhdm;
   say_line "";
   say "     [*] tags validated ................ ";
   glue_dec tags;
   say_line "";
   say_line "     MINIX x86_64 now sees hardware through BBP.";
   say_line "     F E R M I  ∞  H A R T";
   say_line "  +========================================================+" ++ [x0a]].

Definition GLUE_MAX_MMAP : Z := 256.

(** The arguments of [bbp_minix_boot_glue]; [lapic_ids] is the pointer and the
    [cpu_count] words behind it. *)
Record minix_boot := MinixBoot {
  mb_hhdm : Z;
  mb_kphys : Z;
  mb_kvirt : Z;
  mb_have_kaddr : Z;
  mb_rsdp : Z;
  mb_entries : Z;
  mb_count : Z;
  mb_cmdline : Z;
  mb_lapic_ids : Z * list Z;
  mb_bsp_lapic : Z;
  mb_x2apic : Z;
}.

(** [g_mmap] is the address of the static array. *)
Definition minix_bootinfo (g_mmap : Z) (boot : minix_boot) (entries : list mmap_entry) :
    bbp_minix_bootinfo :=
  MinixBootinfo (mb_hhdm boot) (mb_kphys boot) (mb_kvirt boot)
    (if negb (mb_have_kaddr boot =? 0) then 1 else 0) (g_mmap, entries) (mb_rsdp boot)
    (BootFb 0 0 0 0 0 0) (mb_cmdline boot) (mb_lapic_ids boot) (mb_bsp_lapic boot) (mb_x2apic boot).

Definition bbp_minix_boot_glue (minix_arena : Z) (view : mem -> mem) (g_mmap : Z) (boot : minix_boot)
    (g : minix_glue) (m : mem) (cand : bbp_kctx) : option (minix_glue * mem * bbp_status_t) :=
  entries ← (if negb (mb_entries boot =? 0) && negb (mb_count boot =? 0)
             then copy_limine_map GLUE_MAX_MMAP m (mb_entries boot) (Z.to_nat (mb_count boot)) 0
             else Some []);
  '(s, m, ctx, st) ← bbp_minix_adapter minix_arena view (mg_os g) m
                       (Some (minix_bootinfo g_mmap boot entries)) cand (Some (g_ctx g));
  ctx ← ctx;
  let out := console g ++ [say "[limine] BBP adapter: "; say (bbp_strstatus st); say_line ""] in
  if bool_decide (st = BBP_OK) then
    '(ntags, _) ← bbp_for_each_tag (view m) (Some ctx) (Some count_cb) 0;
    Some (MinixGlue s ctx 1 (out ++ bbp_minix_banner (hhdm_offset ctx) ntags), m, st)
  else Some (MinixGlue s ctx 0 out, m, st).
