(* ===== verification/PortMinixProps.v ===== *)
(** * The MINIX port: its promise

    The adapter implements the port interface although it writes the arena
    through the kernel image and the parser reads it through the direct map;
    the consumers of the glue then give back the values of the boot. *)

From stdpp Require Import strings.
From S2P Require Import Prelude Memory Abi KernelParser KernelFacts Builder BuilderFacts Handoff Import ImportFacts ImportEmit ImportBodies ImportLimine Boot Port PortFacts PortParts PortOpen PortSpec PortMinix.

(** ** The port *)

Definition minix_smp_flags (bi : bbp_minix_bootinfo) : Z :=
  if negb (nb_smp_x2apic bi =? 0) then BBP_SMP_FLAG_X2APIC else 0.

Definition minix_items (bi : bbp_minix_bootinfo) (text : list byte) : list item :=
  [hhdm_item (nb_hhdm_offset bi)] ++
  mmap_items limine_memtype_to_bbp bbp_mem_default_attrs (nb_mmap bi) ++
  when (negb (nb_have_kernel_address bi =? 0))
    (kernel_address_item (nb_kernel_phys_base bi) (nb_kernel_virt_base bi)) ++
  boot_smp_items (fst (nb_lapic_ids bi), lapic_cpus 0 (snd (nb_lapic_ids bi))) (nb_smp_bsp_lapic bi)
    (minix_smp_flags bi) ++
  when (negb (nb_rsdp_phys bi =? 0)) (acpi_item (nb_rsdp_phys bi)) ++
  boot_fb_items (nb_fb bi) ++
  when (negb (zlen text =? 0)) (cmdline_item text).

(** The state after the adapter has recorded the boot's slide. *)
Definition slid (s : minix_state) (bi : bbp_minix_bootinfo) : minix_state :=
  let s := fst (bbp_minix_set_hhdm s (nb_hhdm_offset bi)) in
  if negb (nb_have_kernel_address bi =? 0)
  then bbp_minix_set_kslide s (nb_kernel_phys_base bi) (nb_kernel_virt_base bi) else s.

(** The distance from the kernel image's virtual to its physical addresses:
    the boot's, else the one recorded before, else none. *)
Definition slide (s : minix_state) (bi : bbp_minix_bootinfo) : Z :=
  if negb (nb_have_kernel_address bi =? 0) then nb_kernel_phys_base bi - nb_kernel_virt_base bi
  else if negb (minix_kslide_set s =? 0) then minix_kphys_base s - minix_kvirt_base s
  else 0.

Lemma slid_phys s bi v :
  in_word 64 (v + slide s bi) -> bbp_minix_virt_to_phys (slid s bi) v = v + slide s bi.
Proof.
  unfold bbp_minix_virt_to_phys, slid, slide. cbn [fst bbp_minix_set_hhdm]. destruct (negb (nb_have_kernel_address bi =? 0));
    cbn [minix_kslide_set bbp_minix_set_kslide minix_kvirt_base minix_kphys_base Z.eqb negb].
  - intros Hw. replace (v - _ + _) with (v + (nb_kernel_phys_base bi - nb_kernel_virt_base bi)) by lia. by apply wrap_small.
  - destruct (negb _); [|lia]. intros Hw.
    replace (v - _ + _) with (v + (minix_kphys_base s - minix_kvirt_base s)) by lia. by apply wrap_small.
Qed.

Definition minix_given (minix_arena : Z) (s : minix_state) (bi : bbp_minix_bootinfo)
    (text : list byte) (info C P d : Z) (m : mem) : Prop :=
  info = minix_arena /\ C = BBP_MINIX_ARENA_BYTES - 144 /\
  P = minix_arena + 144 + slide s bi /\ 144 < P /\
  string_at m (nb_cmdline bi) text /\ disjoint_range info (144 + C) (nb_cmdline bi) (zlen text + 1).

Lemma minix_items_wf bi x : Forall item_wf (minix_items bi x).
Proof. unfold minix_items. rewrite !Forall_app. split_and!; auto with items. Qed.

Lemma minix_items_ids bi x : NoDup (map i_id (minix_items bi x)).
Proof.
  eapply sublist_NoDup.
  2: { unfold minix_items. rewrite !map_app. repeat apply sublist_app; apply (when_ids true) || apply when_ids. }
  by apply (bool_decide_unpack _); vm_compute.
Qed.

Lemma minix_given_frame minix_arena s bi x info C P d a n m m' :
  frame a n m m' -> info <= a -> a + n <= info + (144 + C) ->
  minix_given minix_arena s bi x info C P d m -> minix_given minix_arena s bi x info C P d m'.
Proof.
  intros F ? ? (? & ? & ? & ? & Hs & Hd). split_and!; try done. eapply string_at_frame; [|done|done].
  by eapply frame_weaken.
Qed.

#[global] Instance minix_port minix_arena view :
  Port (bbp_minix_adapter minix_arena view) view nb_hhdm_offset (minix_given minix_arena)
    minix_tags minix_items.
Proof.
  split.
  - intros s m bi cand out [->| ->]; [by destruct out|done].
  - intros s bi x info C P d m cand k0 [[? ?] (? & ? & ?) [? ?] [? ?] [Hd ?] _] (-> & -> & EP & HP & _).
    exists (slid s bi), (P - 144).
    assert (minix_hhdm_offset (slid s bi) = nb_hhdm_offset bi) as Hh by (unfold slid; by destruct (negb _)).
    rewrite <- (slid_phys s bi (minix_arena + 144)) in EP by (unfold in_word; lia).
    unfold bbp_minix_adapter. cbn [bbp_minix_arena_base]. unfold slid in *. cbn [fst bbp_minix_set_hhdm] in *.
    set (s0 := if negb _ then _ else _) in *. clearbody s0.
    change (sizeof bbp_info) with 144. rewrite (proj2 (Z.eqb_neq minix_arena 0)) by lia.
    change (BBP_MINIX_ARENA_BYTES <=? 144) with false. cbn [orb bbp_minix_osif phys_to_virt].
    replace (144 + (BBP_MINIX_ARENA_BYTES - 144)) with BBP_MINIX_ARENA_BYTES by lia.
    rewrite <- EP. rewrite (proj2 (Z.eqb_neq P 0)) by lia.
    unfold minix_phys_to_virt. rewrite Hh.
    rewrite (wrap_small 64 (P - 144)) by (unfold in_word; lia). rewrite (proj2 (Z.eqb_neq (P - 144) 0)) by lia.
    replace (P - 144 + nb_hhdm_offset bi) with (minix_arena + d) by lia.
    rewrite (wrap_small 64 (minix_arena + d)) by (unfold in_word, BBP_MINIX_ARENA_BYTES in *; lia). done.
  - intros s bi x info C P d m m' F. apply (minix_given_frame _ _ _ _ _ _ _ _ _ _ _ _ F); lia.
  - intros s bi x info C P d m Hpl Hg.
    assert (forall m m', frame (info + 144) C m m' ->
      minix_given minix_arena s bi x info C P d m -> minix_given minix_arena s bi x info C P d m') as Hk.
    { intros m1 m2 F. apply (minix_given_frame _ _ _ _ _ _ _ _ _ _ _ _ F); lia. }
    destruct Hpl as [[? HC] (? & ? & HP) [? HA] _ _ _]. pose proof Hg as (_ & _ & _ & _ & _ & Hd).
    unfold minix_tags, minix_items. repeat (apply builds_seq; [done|auto with items|..]).
    + by apply hhdm_builds.
    + by apply memory_map_builds.
    + apply builds_when. intros _. by apply kernel_address_builds.
    + by apply boot_smp_builds.
    + apply builds_when. intros _. by apply acpi_builds.
    + by apply boot_fb_builds.
    + apply text_builds; [done..|lia| |by exists m|].
      * intros m1 (_ & _ & _ & _ & Hs & _). exact Hs.
      * intros y ? ?. apply (Hd y); lia.
  - apply minix_items_wf.
  - apply minix_items_ids.
  - intros bi x. by left.
Qed.

(** ** The consumers *)

Lemma limine_class_word type : in_word 32 (limine_memtype_to_bbp type).
Proof. unfold limine_memtype_to_bbp. by repeat case_match. Qed.

(** The usable bytes of a Limine map. *)
Definition usable_total (entries : list mmap_entry) : Z :=
  foldr (fun e n => (if me_type e =? 0 then me_length e else 0) + n) 0 entries.

Definition entry_ok (e : mmap_entry) : Prop := in_word 64 (me_base e) /\ in_word 64 (me_length e).

Lemma usable_total_nonneg entries : Forall entry_ok entries -> 0 <= usable_total entries.
Proof.
  induction 1 as [|e entries [_ [? _]] _ IH]; [done|]. cbn [usable_total foldr]. fold (usable_total entries).
  case_match; lia.
Qed.

Lemma limine_class_usable type : (limine_memtype_to_bbp type =? BBP_MEM_USABLE) = (type =? 0).
Proof. unfold limine_memtype_to_bbp. by repeat case_match. Qed.

Lemma usable_loop_spec v : forall entries e u,
  Forall entry_ok entries -> 0 <= u <= UINT64_MAX ->
  bytes_at v e (concat (map (entry_bytes limine_memtype_to_bbp bbp_mem_default_attrs) entries)) ->
  usable_loop v e (length entries) u =
    Some (if u + usable_total entries <=? UINT64_MAX then Some (u + usable_total entries) else None).
Proof.
  induction entries as [|x entries IH]; intros e u Hok Hu Hat; cbn [usable_loop length].
  { cbn. rewrite Z.add_0_r. by rewrite (proj2 (Z.leb_le u _)) by lia. }
  apply Forall_cons in Hok as [[_ Hlen] Hok]. pose proof (usable_total_nonneg _ Hok).
  cbn [map concat] in Hat. unfold entry_bytes at 1, memory_entry_bytes in Hat.
  assert (load32 v (e + 16) = Some (limine_memtype_to_bbp (me_type x))) as ->.
  { pose proof (limine_class_word (me_type x)). word_at Hat (le_encode 8 (me_base x) ++ le_encode 8 (me_length x)) 4%nat. }
  assert (load64 v (e + 8) = Some (me_length x)) as Hl.
  { word_at Hat (le_encode 8 (me_base x)) 8%nat. }
  assert (bytes_at v (e + sizeof bbp_memory_entry)
    (concat (map (entry_bytes limine_memtype_to_bbp bbp_mem_default_attrs) entries))) as Hrest.
  { change (sizeof bbp_memory_entry) with 32. apply bytes_at_app in Hat as [_ Hat]. exact Hat. }
  cbn [mbind option_bind usable_total foldr]. fold (usable_total entries). rewrite limine_class_usable.
  unfold in_word in Hlen. destruct (me_type x =? 0).
  - rewrite Hl. cbn [mbind option_bind]. unfold UINT64_MAX in *. destruct (Z.ltb_spec (2 ^ 64 - 1 - me_length x) u).
    + by rewrite (proj2 (Z.leb_gt _ _)) by lia.
    + rewrite IH by (done || lia). by rewrite Z.add_assoc.
  - rewrite IH by done. by rewrite Z.add_0_l.
Qed.

Section Consumers.
Context (v : mem) (g : minix_glue) (its : list item).
Context (Hop : opened v (g_ctx g) its) (Hvalid : g_ctx_valid g <> 0).

Lemma sized_tag_found it size :
  In it its -> (forall phys phys', i_body it phys = i_body it phys') -> size <= 32 + i_size it ->
  exists tag, sized_tag v g (i_id it) size = Some (Some tag) /\
    load32 v (tag + 8) = Some (32 + i_size it) /\ bytes_at v (tag + 32) (i_body it 0).
Proof.
  intros Hin Hb Hsz. destruct (opened_body v (g_ctx g) its Hop it Hin Hb) as (tag & Hf & Hne & Hl & Hat).
  exists tag. unfold sized_tag. rewrite Hf. cbn [mbind option_bind].
  rewrite (proj2 (Z.eqb_neq tag 0) Hne), Hl. cbn [mbind option_bind]. by rewrite (proj2 (Z.ltb_ge _ size)) by lia.
Qed.

Lemma sized_tag_absent id size : ~ In id (map i_id its) -> sized_tag v g id size = Some None.
Proof. intros Hn. unfold sized_tag. destruct Hop as (_ & _ & Hno). by rewrite Hno. Qed.

Lemma get_rsdp_found rsdp :
  In (acpi_item rsdp) its -> in_word 64 rsdp -> bbp_minix_get_rsdp v g = Some rsdp.
Proof.
  intros Hin Hw. unfold bbp_minix_get_rsdp. rewrite (proj2 (Z.eqb_neq _ 0) Hvalid).
  destruct (sized_tag_found (acpi_item rsdp) (sizeof bbp_tag_acpi)) as (tag & E & _ & Hat); [done..|].
  cbn [i_id acpi_item] in E. rewrite E. cbn [mbind option_bind].
  word_at Hat (@nil byte) 8%nat.
Qed.

Lemma get_rsdp_absent : ~ In BBP_TAG_ACPI (map i_id its) -> bbp_minix_get_rsdp v g = Some 0.
Proof.
  intros Hn. unfold bbp_minix_get_rsdp. rewrite (proj2 (Z.eqb_neq _ 0) Hvalid). by rewrite sized_tag_absent.
Qed.

Lemma ctx_hhdm_found offset out :
  In (hhdm_item offset) its -> in_word 64 offset ->
  bbp_minix_ctx_hhdm v g (Some out) = Some (Some offset, 1).
Proof.
  intros Hin Hw. unfold bbp_minix_ctx_hhdm. rewrite (proj2 (Z.eqb_neq _ 0) Hvalid).
  destruct (sized_tag_found (hhdm_item offset) (sizeof bbp_tag_hhdm)) as (tag & E & _ & Hat); [done..|].
  cbn [i_id hhdm_item] in E. rewrite E. cbn [mbind option_bind].
  assert (load64 v (tag + 32) = Some offset) as -> by (by apply (bytes_at_load_le _ _ 8)). done.
Qed.

Lemma kernel_address_found phys virt p q :
  In (kernel_address_item phys virt) its -> in_word 64 phys -> in_word 64 virt ->
  bbp_minix_get_kernel_address v g (Some p) (Some q) = Some (Some phys, Some virt, 1).
Proof.
  intros Hin Hp Hv. unfold bbp_minix_get_kernel_address. rewrite (proj2 (Z.eqb_neq _ 0) Hvalid).
  destruct (sized_tag_found (kernel_address_item phys virt) (sizeof bbp_tag_kernel_address)) as (tag & E & _ & Hat);
    [done..|].
  cbn [i_id kernel_address_item] in E. rewrite E. cbn [mbind option_bind].
  assert (load64 v (tag + 32) = Some phys) as -> by word_at Hat (@nil byte) 8%nat.
  assert (load64 v (tag + 40) = Some virt) as ->; [|done].
  cbn [i_body kernel_address_item] in Hat. unfold kernel_address_body in Hat. rewrite <- (app_nil_r (_ ++ _)) in Hat.
  word_at Hat (le_encode 8 phys) 8%nat.
Qed.

Lemma smp_found cpus bsp flags c b x :
  In (boot_smp_item cpus bsp flags) its -> zlen cpus < 2 ^ 32 -> in_word 32 bsp -> in_word 64 flags ->
  bbp_minix_verify_smp v g (Some c) (Some b) (Some x) =
    Some (Some (zlen cpus), Some bsp, Some (Z.land flags BBP_SMP_FLAG_X2APIC), 1).
Proof.
  intros Hin Hc Hb Hf. unfold bbp_minix_verify_smp. rewrite (proj2 (Z.eqb_neq _ 0) Hvalid).
  pose proof (zlen_nonneg cpus).
  destruct (sized_tag_found (boot_smp_item cpus bsp flags) (sizeof bbp_tag_smp)) as (tag & E & _ & Hat);
    [done|done|change (sizeof bbp_tag_smp) with 48; cbn; lia|].
  cbn [i_id i_body boot_smp_item] in *. rewrite E. cbn [mbind option_bind].
  assert (load32 v (tag + 32) = Some (zlen cpus)) as ->.
  { word_at Hat (@nil byte) 4%nat. }
  assert (load32 v (tag + 36) = Some bsp) as ->.
  { word_at Hat (le_encode 4 (zlen cpus)) 4%nat. }
  assert (load64 v (tag + 40) = Some flags) as ->; [|done].
  word_at Hat (le_encode 4 (zlen cpus) ++ le_encode 4 bsp) 8%nat.
Qed.

(** The map's usable total, unless it overflows 64 bits. *)
Lemma memmap_found entries raw u n :
  In (memory_map_item limine_memtype_to_bbp bbp_mem_default_attrs entries) its ->
  Forall entry_ok entries -> 8 + 32 * zlen entries + 32 < 2 ^ 32 ->
  bbp_minix_verify_memmap v g raw (Some u) (Some n) =
    if usable_total entries <=? UINT64_MAX
    then Some (Some (usable_total entries), Some (zlen entries), if usable_total entries =? raw then 1 else 0)
    else Some (Some u, Some n, 0).
Proof.
  intros Hin Hok Hsz. unfold bbp_minix_verify_memmap. rewrite (proj2 (Z.eqb_neq _ 0) Hvalid).
  pose proof (zlen_nonneg entries). set (it := memory_map_item _ _ _) in Hin.
  destruct (sized_tag_found it (sizeof bbp_tag_memory_map)) as (tag & E & Hl & Hat);
    [done|done|change (sizeof bbp_tag_memory_map) with 40; cbn; lia|].
  cbn [i_id i_size i_body it memory_map_item] in *. rewrite E. cbn [mbind option_bind].
  unfold memory_map_body in Hat. rewrite zlen_map in Hat.
  assert (load32 v (tag + 36) = Some 32) as ->.
  { word_at Hat (le_encode 4 (zlen entries)) 4%nat. }
  assert (load32 v (tag + 32) = Some (zlen entries)) as ->.
  { word_at Hat (@nil byte) 4%nat. }
  cbn [mbind option_bind]. change (32 =? sizeof bbp_memory_entry) with true. cbn [negb].
  unfold bbp_tag_array. rewrite Hl. change (sizeof bbp_tag_memory_map) with 40.
  change (sizeof bbp_memory_entry) with 32. cbn [Z.eqb negb mbind option_bind].
  set (fit := if 40 <? _ then _ else _).
  assert (fit = Some (zlen entries)) as ->.
  { unfold fit. destruct (Z.ltb_spec 40 (32 + (8 + 32 * zlen entries))); [|f_equal; lia].
    replace (32 + (8 + 32 * zlen entries) - 40) with (zlen entries * 32) by lia. rewrite Z.div_mul by done.
    rewrite (proj2 (Z.ltb_ge _ _)) by (unfold UINT32_MAX; lia). by rewrite wrap_small by (unfold in_word; lia). }
  cbn [mbind option_bind]. rewrite Z.ltb_irrefl, Z.eqb_refl. cbn [negb].
  replace (Z.to_nat (zlen entries)) with (length entries) by (unfold zlen; lia).
  rewrite (usable_loop_spec v entries (tag + 40) 0); [|done|done|].
  - rewrite Z.add_0_l. cbn [mbind option_bind]. by destruct (_ <=? _).
  - apply bytes_at_app in Hat as [_ Hat]. apply bytes_at_app in Hat as [_ Hat].
    by replace (tag + 32 + zlen (le_encode 4 (zlen entries)) + zlen (le_encode 4 32)) with (tag + 40) in Hat
      by (autorewrite with zlen; lia).
Qed.
End Consumers.

(** ** The boot *)

Lemma copy_limine_map_spec max m : forall steps e n entries,
  copy_limine_map max m e steps n = Some entries -> 0 <= n <= max ->
  Forall entry_ok entries /\ zlen entries <= max - n.
Proof.
  induction steps as [|steps IH]; intros e n entries H Hn; cbn [copy_limine_map] in H.
  { simplify_eq. split; [constructor|rewrite zlen_nil; lia]. }
  destruct (Z.ltb_spec n max); [|simplify_eq; split; [constructor|rewrite zlen_nil; lia]].
  apply bind_Some in H as (p & _ & H). destruct (p =? 0); [by eapply IH|].
  apply bind_Some in H as (base & Hb & H). apply bind_Some in H as (len & Hl & H).
  apply bind_Some in H as (type & _ & H). apply bind_Some in H as (rest & Hr & [= <-]).
  destruct (IH _ _ _ Hr) as [Hok Hz]; [lia|]. rewrite zlen_cons. split; [|lia]. constructor; [|done].
  split; [exact (load_le_word _ _ 8 _ Hb)|exact (load_le_word _ _ 8 _ Hl)].
Qed.

(** The entries the glue copies. *)
Definition boot_entries (m : mem) (boot : minix_boot) : option (list mmap_entry) :=
  if negb (mb_entries boot =? 0) && negb (mb_count boot =? 0)
  then copy_limine_map GLUE_MAX_MMAP m (mb_entries boot) (Z.to_nat (mb_count boot)) 0 else Some [].

Lemma boot_entries_spec m boot entries :
  boot_entries m boot = Some entries -> Forall entry_ok entries /\ zlen entries <= GLUE_MAX_MMAP.
Proof.
  unfold boot_entries. destruct (_ && _); [|by intros [= <-]]. intros H.
  apply copy_limine_map_spec in H; [|done]. by rewrite Z.sub_0_r in H.
Qed.

Lemma minix_glue_spec minix_arena view g_mmap boot g m cand entries text P d :
  let bi := minix_bootinfo g_mmap boot entries in
  let C := BBP_MINIX_ARENA_BYTES - 144 in
  boot_entries m boot = Some entries ->
  placed view minix_arena C P d (mb_hhdm boot) ->
  P = minix_arena + 144 + slide (mg_os g) bi -> 144 < P ->
  string_at m (mb_cmdline boot) text ->
  disjoint_range minix_arena BBP_MINIX_ARENA_BYTES (mb_cmdline boot) (zlen text + 1) ->
  mapped m minix_arena BBP_MINIX_ARENA_BYTES ->
  let k := Kctx (minix_arena + d) (mb_hhdm boot) 1 P (P + C) in
  exists g' m', frame minix_arena BBP_MINIX_ARENA_BYTES m m' /\
    match layout C 0 0 (minix_items bi text) with
    | None =>
        bbp_minix_boot_glue minix_arena view g_mmap boot g m cand = Some (g', m', BBP_ERR_SIZE) /\
        g_ctx_valid g' = 0
    | Some _ =>
        bbp_minix_boot_glue minix_arena view g_mmap boot g m cand = Some (g', m', BBP_OK) /\
        g_ctx_valid g' = 1 /\ g_ctx g' = k /\ opened (view m') k (minix_items bi text) /\
        console g' = console g ++ [say "[limine] BBP adapter: "; say "ok"; say_line ""] ++
          bbp_minix_banner (mb_hhdm boot) (zlen (minix_items bi text))
    end.
Proof.
  intros bi C He Hpl EP HP Hs Hd Hm k.
  destruct (port_spec (bbp_minix_adapter minix_arena view) _ _ _ _ _ (mg_os g) bi text minix_arena C P d m cand
    (g_ctx g)) as (s' & m' & F & Hout); [done|by split_and!|done|].
  unfold bbp_minix_boot_glue. fold (boot_entries m boot). rewrite He. cbn [mbind option_bind]. fold bi.
  destruct (layout C 0 0 (minix_items bi text)) as [[u n]|].
  - destruct Hout as [-> Hop]. cbn [mbind option_bind]. change (nb_hhdm_offset bi) with (mb_hhdm boot) in *.
    fold k in Hop |- *. rewrite (opened_count (view m') k _ Hop). cbn [mbind option_bind].
    rewrite bool_decide_eq_true_2 by done. eexists _, m'. split; [done|]. split_and!; [done..|].
    cbn [console hhdm_offset k bbp_strstatus]. by rewrite <- app_assoc.
  - rewrite Hout. cbn [mbind option_bind]. rewrite bool_decide_eq_false_2 by done. by eexists _, m'.
Qed.

Lemma zlen_lapic_cpus ids : forall i, zlen (lapic_cpus i ids) = zlen ids.
Proof. induction ids as [|x ids IH]; intros i; [done|]. cbn [lapic_cpus]. by rewrite !zlen_cons, IH. Qed.

(** A map of 256 entries, a thousand processors and a 4000-byte command line fit. *)
Lemma minix_items_fit g_mmap boot entries text :
  zlen entries <= 256 -> zlen (snd (mb_lapic_ids boot)) <= 1000 -> zlen text <= 4000 ->
  exists u n, layout (BBP_MINIX_ARENA_BYTES - 144) 0 0 (minix_items (minix_bootinfo g_mmap boot entries) text) = Some (u, n).
Proof.
  intros He Hi Ht. pose proof (zlen_nonneg entries). pose proof (zlen_nonneg (snd (mb_lapic_ids boot))).
  pose proof (zlen_nonneg text). change (BBP_MINIX_ARENA_BYTES - 144) with 65392.
  apply items_fit; [apply minix_items_wf| |done|]; unfold minix_items, mmap_items, boot_smp_items, boot_fb_items;
    cbn [nb_mmap nb_lapic_ids minix_bootinfo snd]; bound_rooms; rewrite ?zlen_lapic_cpus in *; lia.
Qed.

(** ** Numbers *)

(** The number that digits with values [f] stand for. *)
Definition positional (base : Z) (f : byte -> Z) (ds : list byte) : Z := foldl (fun n c => base * n + f c) 0 ds.

Lemma positional_cons base f c ds : positional base f (c :: ds) = f c * base ^ zlen ds + positional base f ds.
Proof.
  unfold positional. cbn [foldl]. rewrite Z.mul_0_r, Z.add_0_l. generalize (f c).
  induction ds as [|x ds IH] using rev_ind; intros a.
  { rewrite zlen_nil, Z.pow_0_r. cbn [foldl]. lia. }
  rewrite !foldl_app. cbn [foldl]. rewrite IH, zlen_app. change (zlen [x]) with 1.
  rewrite Z.pow_add_r by (apply zlen_nonneg || lia). rewrite Z.pow_1_r. ring.
Qed.

Definition dec_value : list byte -> Z := positional 10 (fun c => byte_Z c - 48).

Definition digit (c : byte) : Prop := 48 <= byte_Z c <= 57.

Lemma dec_loop_spec : forall i v ds,
  0 <= v < 10 ^ Z.of_nat i -> Forall digit ds ->
  let r := dec_loop v i ds in
  Forall digit r /\ dec_value r = v * 10 ^ zlen ds + dec_value ds /\ zlen r <= Z.of_nat i + zlen ds /\
  (v <> 0 -> exists c rest, r = c :: rest /\ byte_Z c <> 48).
Proof.
  induction i as [|i IH]; intros v ds Hv Hds; cbn [dec_loop].
  { change (10 ^ Z.of_nat 0) with 1 in Hv. assert (v = 0) as -> by lia. split_and!; [done|lia|lia|done]. }
  rewrite Nat2Z.inj_succ, Z.pow_succ_r in Hv by lia.
  destruct (Z.eqb_spec v 0) as [->|Hne]; [split_and!; [done|lia|lia|done]|].
  set (c := Z_byte (48 + v mod 10)). pose proof (Z.mod_pos_bound v 10 ltac:(lia)).
  assert (byte_Z c = 48 + v mod 10) as Hc by (unfold c; rewrite byte_Z_of; apply Z.mod_small; lia). clearbody c.
  pose proof (Z.div_mod v 10 ltac:(lia)) as Hdm. 
  assert (0 <= v / 10 < 10 ^ Z.of_nat i) as Hq by (split; [apply Z.div_pos; lia|apply Z.div_lt_upper_bound; lia]).
  destruct (IH (v / 10) (c :: ds) Hq) as (Hd & Hval & Hz & Hnz); [constructor; [unfold digit; lia|done]|].
  split_and!; [done| |rewrite zlen_cons in Hz; lia|].
  - rewrite Hval, zlen_cons, Z.pow_add_r by (apply zlen_nonneg || lia). rewrite Z.pow_1_r.
    unfold dec_value. rewrite positional_cons, Hc. rewrite Hdm at 3. ring.
  - intros _. destruct (Z.eq_dec (v / 10) 0) as [E|E]; [|by apply Hnz].
    rewrite E. exists c, ds. split; [by destruct i|]. rewrite Hc. lia.
Qed.

Lemma glue_dec_spec v :
  in_word 64 v ->
  dec_value (glue_dec v) = v /\ Forall digit (glue_dec v) /\ zlen (glue_dec v) <= 20 /\
  (v <> 0 -> exists c rest, glue_dec v = c :: rest /\ byte_Z c <> 48).
Proof.
  intros [? ?]. unfold glue_dec. destruct (Z.eqb_spec v 0) as [->|Hne].
  { split_and!; [done| |done|done]. repeat constructor; by vm_compute. }
  destruct (dec_loop_spec 20 v []) as (Hd & Hval & Hz & Hnz); [|constructor|].
  { split; [lia|]. eapply Z.lt_trans; [eassumption|]. by vm_compute. }
  rewrite zlen_nil in *. change (dec_value []) with 0 in Hval. split_and!; [lia|done|lia|done].
Qed.

Definition hex_digit_value (c : byte) : Z := if byte_Z c <? 58 then byte_Z c - 48 else byte_Z c - 87.

Definition hex_value : list byte -> Z := positional 16 hex_digit_value.

Lemma hex_digit_at n : 0 <= n < 16 -> hex_digit_value (nth (Z.to_nat n) hex_digits x00) = n.
Proof.
  intros Hn. assert (Forall (fun i => hex_digit_value (nth (Z.to_nat i) hex_digits x00) = i)
    (map Z.of_nat (seq 0 16))) as H by (repeat constructor).
  rewrite List.Forall_forall in H. apply H. apply in_map_iff. exists (Z.to_nat n). split; [lia|].
  apply in_seq. lia.
Qed.

Lemma zlen_hex_loop v n : zlen (hex_loop v n) = Z.of_nat n.
Proof. induction n as [|n IH]; [done|]. cbn [hex_loop]. rewrite zlen_cons, IH. lia. Qed.

Lemma hex_loop_spec v n : 0 <= v -> hex_value (hex_loop v n) = v mod 16 ^ Z.of_nat n.
Proof.
  intros Hv. induction n as [|n IH]; cbn [hex_loop]; [by rewrite Z.mod_1_r|].
  unfold hex_value in *. rewrite positional_cons, IH, zlen_hex_loop. change 0xF with (Z.ones 4).
  rewrite Z.land_ones, Z.shiftr_div_pow2 by lia. rewrite hex_digit_at by (apply Z.mod_pos_bound; lia).
  replace (2 ^ (Z.of_nat n * 4)) with (16 ^ Z.of_nat n) by (rewrite Z.mul_comm, Z.pow_mul_r by lia; done).
  rewrite Nat2Z.inj_succ, Z.pow_succ_r by lia. rewrite (Z.mul_comm 16).
  rewrite Z.rem_mul_r by (lia || (apply Z.pow_nonzero; lia)). change (2 ^ 4) with 16. ring.
Qed.

Lemma glue_hex_spec v :
  in_word 64 v -> take 2 (glue_hex v) = say "0x" /\ zlen (glue_hex v) = 18 /\ hex_value (drop 2 (glue_hex v)) = v.
Proof.
  intros [? ?]. split_and!; [done|done|]. change (drop 2 (glue_hex v)) with (hex_loop v 16).
  rewrite hex_loop_spec by done. apply Z.mod_small. lia.
Qed.
