(* ===== verification/PortJosh.v ===== *)
(** * The Josh port (ports/josh/)

    The OS interface, the adapter and the kernel glue.  The arena comes from the
    kernel's page allocator, which returns a physical address; the direct map
    gives its virtual one.  The allocator ([pmm_alloc_pages]), the random-number
    and timestamp instructions and the Limine responses are arguments; console
    output is not modelled. *)

From S2P Require Import Prelude Memory Crc64 Abi KernelParser Builder Import Port.

(** ** The OS interface (osif.c) *)

(** The kernel's direct-map offset. *)
Record josh_state := JoshState { g_hhdm_offset : Z }.

Definition josh_phys_to_virt (s : josh_state) (phys : Z) : Z :=
  reject phys =? 0 with 0;
  wrap64 (phys + g_hhdm_offset s).

Definition JOSH_PAGE_SIZE : Z := 4096.

(** [while (cap < pages && order < 31)]; [steps] is [31 - order]. *)
Fixpoint order_loop (pages cap order : Z) (steps : nat) : Z :=
  match steps with
  | O => order
  | S steps => if cap <? pages then order_loop pages (wrap64 (Z.shiftl cap 1)) (order + 1) steps else order
  end.

Definition order_for_bytes (bytes : Z) : Z :=
  let pages := wrap64 (bytes + (JOSH_PAGE_SIZE - 1)) / JOSH_PAGE_SIZE in
  let pages := if pages =? 0 then 1 else pages in
  order_loop pages 1 0 31.

Definition josh_alloc_pages (pmm_alloc_pages : Z -> Z) (s : josh_state) (bytes out_phys : Z) :
    josh_state * Z * Z :=
  let phys := pmm_alloc_pages (order_for_bytes bytes) in
  reject phys =? 0 with (s, 0, 0);
  (s, wrap64 (phys + g_hhdm_offset s), phys).

Definition bbp_josh_osif (pmm_alloc_pages : Z -> Z) : bbp_osif josh_state :=
  Osif josh_phys_to_virt (Some (josh_alloc_pages pmm_alloc_pages)).

(** ** The adapter (adapter.c) *)

Record bbp_josh_cpu := JoshCpu { jc_processor_id : Z; jc_apic_id : Z }.

(** The adapter leaves the core number 0. *)
Definition josh_core (c : bbp_josh_cpu) : boot_cpu := BootCpu (jc_processor_id c) (jc_apic_id c) 0.

Record bbp_josh_bootinfo := JoshBootinfo {
  jb_hhdm_offset : Z;
  jb_mmap : Z * list mmap_entry;
  jb_fb : boot_fb;
  jb_cpus : Z * list bbp_josh_cpu;
  jb_bsp_id : Z;
  jb_cmdline : Z;
  jb_entropy : Z;
  jb_entropy_len : Z;
}.

Definition BBP_JOSH_ARENA_BYTES : Z := 64 * 1024.

Definition josh_memtype_to_bbp (lim_type : Z) : Z :=
  if lim_type =? 0 then BBP_MEM_USABLE
  else if lim_type =? 1 then BBP_MEM_RESERVED
  else if lim_type =? 2 then BBP_MEM_ACPI_RECLAIMABLE
  else if lim_type =? 3 then BBP_MEM_ACPI_NVS
  else if lim_type =? 4 then BBP_MEM_BAD_MEMORY
  else if lim_type =? 5 then BBP_MEM_BOOTLOADER_RECLAIM
  else if lim_type =? 6 then BBP_MEM_KERNEL_AND_MODULES
  else if lim_type =? 7 then BBP_MEM_FRAMEBUFFER
  else BBP_MEM_RESERVED.

Definition josh_mem_default_attrs (bbp_type : Z) : Z :=
  if (bbp_type =? BBP_MEM_USABLE) || (bbp_type =? BBP_MEM_BOOTLOADER_RECLAIM)
     || (bbp_type =? BBP_MEM_ACPI_RECLAIMABLE) || (bbp_type =? BBP_MEM_KERNEL_AND_MODULES)
  then Z.lor (Z.lor BBP_MEM_ATTR_READABLE BBP_MEM_ATTR_WRITABLE) BBP_MEM_ATTR_CACHED
  else if bbp_type =? BBP_MEM_FRAMEBUFFER
  then Z.lor (Z.lor BBP_MEM_ATTR_READABLE BBP_MEM_ATTR_WRITABLE) BBP_MEM_ATTR_WRITE_COMBINE
  else BBP_MEM_ATTR_READABLE.

(** The body of the SECURITY tag: only the entropy fields are written. *)
Definition write_entropy (tagbase tagbase_phys ephys len : Z) (m : mem) (tag : Z) : option mem :=
  m ← store32 m (tag + 88) len;
  m ← store64 m (tag + 96) ephys;
  if negb (ephys =? 0) then
    crc ← bbp_crc64 m (tagbase + wrap64 (ephys - tagbase_phys)) (Z.to_nat len);
    store64 m (tag + 120) crc
  else
    m ← store32 m (tag + 88) 0;
    store64 m (tag + 120) 0.

Definition put_entropy (tagbase tagbase_phys entropy len : Z) : emitter :=
  emit_when (negb (entropy =? 0) && negb (len =? 0))
    (put_data_tag BBP_TAG_SECURITY (sizeof bbp_tag_security)
       (fun m b => '(m, b, phys) ← bbp_arena_blob m (Some b) entropy len; Some (m, b, phys, len))
       (write_entropy tagbase tagbase_phys)).

Definition josh_tags (bi : bbp_josh_bootinfo) (tagbase tagbase_phys : Z) : emitter :=
  put_hhdm (jb_hhdm_offset bi) ;;;
  put_memory_map josh_memtype_to_bbp josh_mem_default_attrs (jb_mmap bi) ;;;
  put_framebuffer (jb_fb bi) ;;;
  put_smp (fst (jb_cpus bi), map josh_core (snd (jb_cpus bi))) (jb_bsp_id bi) 0 ;;;
  put_entropy tagbase tagbase_phys (jb_entropy bi) (jb_entropy_len bi) ;;;
  when_string (jb_cmdline bi) (put_cmdline tagbase tagbase_phys (jb_cmdline bi)).

Definition bbp_josh_adapter (pmm_alloc_pages : Z -> Z) (s : josh_state) (m : mem)
    (bi : option bbp_josh_bootinfo) (cand : bbp_kctx) (out : option bbp_kctx) :
    option (josh_state * mem * option bbp_kctx * bbp_status_t) :=
  match out, bi with
  | Some _, Some bi =>
      match alloc_pages (bbp_josh_osif pmm_alloc_pages) with
      | None => Some (s, m, out, BBP_ERR_NULL)
      | Some alloc =>
          let '(s, arena, arena_phys) := alloc s BBP_JOSH_ARENA_BYTES 0 in
          reject (arena =? 0) || (arena_phys =? 0) with Some (s, m, out, BBP_ERR_SIZE);
          m ← mem_zero m arena (Z.to_nat BBP_JOSH_ARENA_BYTES);
          let tagbase := arena + sizeof bbp_info in
          let tagbase_phys := wrap64 (arena_phys + sizeof bbp_info) in
          '(m, out, st) ← build_and_open (josh_tags bi tagbase tagbase_phys) (fun m => m) m arena tagbase
                            tagbase_phys (BBP_JOSH_ARENA_BYTES - sizeof bbp_info) arena_phys arena
                            (jb_hhdm_offset bi) cand out;
          Some (s, m, out, st)
      end
  | _, _ => Some (s, m, out, BBP_ERR_NULL)
  end.

(** ** Hardware randomness (josh_glue.c) *)

Section Hardware.
(** [H] is the state of the processor's random-number generator and counter.
    The instructions return the value and the carry flag. *)
Context {H : Type} (rdseed rdrand : H -> H * Z * bool) (rdtsc : H -> H * Z).

(** [rdseed64] and [rdrand64]: up to 16 tries. *)
Fixpoint draw64 (instr : H -> H * Z * bool) (h : H) (retries : nat) : H * option Z :=
  match retries with
  | O => (h, None)
  | S retries =>
      let '(h, v, ok) := instr h in
      if ok then (h, Some v) else draw64 instr h retries
  end.

(** The loop of [gather_boot_entropy], with [len] bytes still to be filled: the
    bytes it writes and whether it ran to the end. *)
Fixpoint gather_loop (seed : bool) (h : H) (len : Z) (steps : nat) : H * list byte * bool :=
  match steps with
  | O => (h, [], true)
  | S steps =>
      if 0 <? len then
        let '(h, w) := draw64 (if seed then rdseed else rdrand) h 16 in
        match w with
        | None => (h, [], false)
        | Some w =>
            let '(h, t) := rdtsc h in
            let bytes := take (Z.to_nat len) (le_encode 8 (Z.lxor w t)) in
            let '(h, rest, ok) := gather_loop seed h (len - 8) steps in
            (h, bytes ++ rest, ok)
        end
      else (h, [], true)
  end.

(** [ebx7] and [ecx1] are the CPUID words of [have_rdseed] and [have_rdrand]. *)
Definition gather_boot_entropy (ebx7 ecx1 : Z) (h : H) (len : Z) : H * list byte * bool :=
  let seed := negb (Z.land ebx7 (Z.shiftl 1 18) =? 0) in
  let rand := negb (Z.land ecx1 (Z.shiftl 1 30) =? 0) in
  reject negb seed && negb rand with (h, [], false);
  gather_loop seed h len (Z.to_nat len).
End Hardware.

(** ** The kernel glue (josh_glue.c) *)

Definition JOSH_MMAP_MAX : Z := 256.
Definition JOSH_CPU_MAX : Z := 256.
Definition JOSH_ENTROPY_BYTES : Z := 48.

Record josh_glue := JoshGlue {
  jg_os : josh_state;
  g_josh_kctx : bbp_kctx;
  g_josh_bbp_ok : Z;
  g_boot_entropy : list byte;
  g_boot_entropy_len : Z;
}.

Definition bbp_josh_context (g : josh_glue) : option bbp_kctx :=
  if negb (g_josh_bbp_ok g =? 0) then Some (g_josh_kctx g) else None.

(** Writes up to [max] bytes at [out] and returns their number. *)
Definition josh_bbp_entropy (m : mem) (g : josh_glue) (out max : Z) : option (mem * Z) :=
  let n := if g_boot_entropy_len g <? max then g_boot_entropy_len g else max in
  m ← store_bytes m out (take (Z.to_nat n) (g_boot_entropy g));
  Some (m, n).

Definition fb_format_for_bpp (bpp : Z) : Z := if bpp =? 32 then BBP_FB_BGRA8888 else 0.

(** The Limine framebuffer's fields. *)
Record limine_fb := LimineFb {
  lf_address : Z; lf_pitch : Z; lf_width : Z; lf_height : Z; lf_bpp : Z;
}.

(** The responses: [None] is a missing one, [None] in a list a NULL pointer. *)
Record josh_boot := JoshBoot {
  limine_hhdm_offset : Z;
  limine_memmap : option (list (option mmap_entry));
  limine_framebuffer : option limine_fb;
  limine_smp : option (list (option bbp_josh_cpu) * Z);
}.

(** The copying loops of the glue: at most [max] entries, NULL ones skipped. *)
Fixpoint copy_present {A} (max : Z) (l : list (option A)) (n : Z) : list A :=
  match l with
  | [] => []
  | x :: l =>
      if n <? max then
        match x with
        | None => copy_present max l n
        | Some e => e :: copy_present max l (n + 1)
        end
      else []
  end.

Definition josh_mmap (g_mmap : Z) (boot : josh_boot) : Z * list mmap_entry :=
  match limine_memmap boot with
  | Some (x :: l) => (g_mmap, copy_present JOSH_MMAP_MAX (x :: l) 0)
  | _ => (0, [])
  end.

Definition josh_fb (boot : josh_boot) : boot_fb :=
  match limine_framebuffer boot with
  | Some fb =>
      if lf_address fb <? limine_hhdm_offset boot then BootFb 0 0 0 0 0 0
      else BootFb (lf_address fb - limine_hhdm_offset boot) (wrap32 (lf_pitch fb)) (wrap 16 (lf_width fb))
             (wrap 16 (lf_height fb)) (wrap 16 (lf_bpp fb)) (fb_format_for_bpp (wrap 16 (lf_bpp fb)))
  | None => BootFb 0 0 0 0 0 0
  end.

Definition josh_cpus (g_cpus : Z) (boot : josh_boot) : Z * list bbp_josh_cpu * Z :=
  match limine_smp boot with
  | Some (x :: l, bsp) => (g_cpus, copy_present JOSH_CPU_MAX (x :: l) 0, bsp)
  | _ => (0, [], 0)
  end.

(** [g_mmap] and [g_cpus] are the addresses of the static arrays, [entropy] the
    address of [seedbuf] or 0. *)
Definition josh_bootinfo (g_mmap g_cpus : Z) (boot : josh_boot) (entropy len : Z) : bbp_josh_bootinfo :=
  let '(cpus, list, bsp) := josh_cpus g_cpus boot in
  JoshBootinfo (limine_hhdm_offset boot) (josh_mmap g_mmap boot) (josh_fb boot) (cpus, list) bsp 0
    entropy len.

(** The consumer of the SECURITY tag. *)
Definition consume_entropy (m : mem) (k : bbp_kctx) (old : list byte) (old_len : Z) :
    option (list byte * Z) :=
  se ← bbp_find_tag m (Some k) BBP_TAG_SECURITY;
  reject se =? 0 with Some (old, old_len);
  size ← load32 m (se + 88);
  data ← load64 m (se + 96);
  reject (size =? 0) || (data =? 0) with Some (old, old_len);
  crc ← load64 m (se + 120);
  bs ← bbp_verify_blob m (Some k) data size crc 0;
  if bool_decide (bs = BBP_OK) then
    let n := if JOSH_ENTROPY_BYTES <? size then JOSH_ENTROPY_BYTES else size in
    seed ← load_bytes m (bbp_phys_to_virt k data) (Z.to_nat n);
    Some (seed ++ drop (Z.to_nat n) old, n)
  else Some (old, old_len).

Definition bbp_josh_init {H : Type} (rdseed rdrand : H -> H * Z * bool) (rdtsc : H -> H * Z)
    (ebx7 ecx1 : Z) (pmm_alloc_pages : Z -> Z) (g_mmap g_cpus seedbuf : Z) (boot : josh_boot)
    (h : H) (g : josh_glue) (m : mem) (cand : bbp_kctx) :
    option (H * josh_glue * mem * bbp_status_t) :=
  reject limine_hhdm_offset boot =? 0 with Some (h, g, m, BBP_ERR_NULL);
  let '(h, seed, ok) := gather_boot_entropy rdseed rdrand rdtsc ebx7 ecx1 h JOSH_ENTROPY_BYTES in
  m ← store_bytes m seedbuf seed;
  let entropy := if ok then seedbuf else 0 in
  let len := if ok then JOSH_ENTROPY_BYTES else 0 in
  '(s, m, ctx, st) ← bbp_josh_adapter pmm_alloc_pages (jg_os g) m
                       (Some (josh_bootinfo g_mmap g_cpus boot entropy len)) cand (Some (g_josh_kctx g));
  ctx ← ctx;
  if bool_decide (st = BBP_OK) then
    '(_, _) ← bbp_for_each_tag m (Some ctx) (Some count_cb) 0;
    '(pool, n) ← consume_entropy m ctx (g_boot_entropy g) (g_boot_entropy_len g);
    Some (h, JoshGlue s ctx 1 pool n, m, st)
  else Some (h, JoshGlue s ctx 0 (g_boot_entropy g) (g_boot_entropy_len g), m, st).
