(* ===== verification/PortJoshProps.v ===== *)
(** * The Josh port: its promise

    The adapter implements the port interface; the boot always succeeds once
    the allocator has given pages, and the kernel's entropy pool then holds the
    seed that the hardware generator gave, or nothing at all. *)

From S2P Require Import Prelude Memory Crc64 Abi KernelParser KernelFacts Builder BuilderFacts Handoff Import ImportFacts ImportEmit ImportBodies Boot Port PortFacts PortParts PortOpen PortSpec PortJosh.

(** ** The allocator *)

Lemma order_loop_spec pages : forall steps cap order,
  0 < cap -> cap = 2 ^ order -> 0 <= order -> order + Z.of_nat steps = 31 -> 
  let r := order_loop pages cap order steps in
  order <= r <= 31 /\ (pages <= 2 ^ 31 -> pages <= 2 ^ r) /\ (order < r -> 2 ^ (r - 1) < pages).
Proof.
  induction steps as [|steps IH]; intros cap order Hc -> Ho Hs; cbn [order_loop].
  { replace order with 31 by lia. split; [lia|split; [done|lia]]. }
  destruct (Z.ltb_spec (2 ^ order) pages) as [Hlt|Hge]; [|split; [lia|split; [done|lia]]].
  assert (2 ^ (order + 1) <= 2 ^ 31) by (apply Z.pow_le_mono_r; lia).
  assert (2 ^ (order + 1) = 2 ^ order * 2) as E by (rewrite Z.pow_add_r by lia; done).
  rewrite Z.shiftl_mul_pow2 by lia. rewrite wrap_small by (unfold in_word; lia).
  destruct (IH (2 ^ order * 2 ^ 1) (order + 1)) as (? & Hle & Hgt); [lia|lia|lia|lia|].
  split; [lia|]. split; [done|]. intros _. destruct (Z.eq_dec (order_loop pages (2 ^ order * 2 ^ 1) (order + 1) steps) (order + 1)) as [Er|].
  - rewrite Er. by replace (order + 1 - 1) with order by lia.
  - apply Hgt. lia.
Qed.

(** The smallest power-of-two number of pages that holds [bytes]. *)
Lemma order_for_bytes_spec bytes :
  0 <= bytes <= 2 ^ 43 ->
  let r := order_for_bytes bytes in
  0 <= r <= 31 /\ bytes <= 2 ^ r * JOSH_PAGE_SIZE /\ (0 < r -> 2 ^ (r - 1) * JOSH_PAGE_SIZE < bytes).
Proof.
  intros Hb. unfold order_for_bytes, JOSH_PAGE_SIZE. rewrite wrap_small by (unfold in_word; lia).
  set (p := (bytes + (4096 - 1)) / 4096). pose proof (Z.div_mod (bytes + (4096 - 1)) 4096 ltac:(lia)) as Hdm.
  pose proof (Z.mod_pos_bound (bytes + (4096 - 1)) 4096 ltac:(lia)). fold p in Hdm.
  set (pages := if p =? 0 then 1 else p).
  assert (bytes <= pages * 4096 /\ pages <= 2 ^ 31 /\ (1 < pages -> (pages - 1) * 4096 < bytes)) as (? & ? & Hp)
    by (unfold pages; destruct (Z.eqb_spec p 0); lia). clearbody pages.
  destruct (order_loop_spec pages 31 1 0) as (Hr & Hle & Hgt); [done..|].
  set (r := order_loop pages 1 0 31) in *. clearbody r. split; [lia|]. split; [lia|].
  intros Hr0. specialize (Hgt Hr0). assert (0 < 2 ^ (r - 1)) by (apply Z.pow_pos_nonneg; lia).
  specialize (Hp ltac:(lia)). nia.
Qed.

Lemma josh_arena_order : order_for_bytes BBP_JOSH_ARENA_BYTES = 4.
Proof. reflexivity. Qed.

(** ** The entropy tag *)

Definition entropy_body (seed : list byte) (phys : Z) : list byte :=
  replicate 56 x00 ++ le_encode 4 (zlen seed) ++ replicate 4 x00 ++ le_encode 8 phys ++ replicate 16 x00 ++
  le_encode 8 (crc64_of seed).

Definition entropy_item (seed : list byte) : item := Item BBP_TAG_SECURITY seed 96 (entropy_body seed).

Lemma entropy_item_wf seed : item_wf (entropy_item seed).
Proof. by split. Qed.

Lemma write_entropy_copy A C (src : mem -> Prop) T Q o seed :
  (forall m m', frame A C m m' -> src m -> src m') -> (forall m, src m -> bytes_at m (T + o) seed) ->
  0 < Q -> 0 <= o < 2 ^ 64 ->
  writes A C src (write_entropy T Q (Q + o) (zlen seed)) 96 (entropy_body seed (Q + o)).
Proof.
  intros Hsrc Hrd HQ Ho. unfold write_entropy. start 96%nat. put 56%nat. put 4%nat.
  rewrite (proj2 (Z.eqb_neq _ 0)) by lia. cbn [negb]. replace (Q + o - Q) with o by lia.
  rewrite wrap_small by (unfold in_word; lia). rewrite bbp_crc64_spec.
  replace (Z.to_nat (zlen seed)) with (length seed) by (unfold zlen; lia).
  rewrite (bytes_at_load _ _ _ (Hrd _ ltac:(eassumption))). cbn [mbind option_bind].
  put 16%nat. finish. unfold entropy_body. by rewrite <- !app_assoc.
Qed.

(** Four stores inside a mapped range. *)
Lemma store_in_range m a n p bs :
  mapped m a n -> a <= p -> p + zlen bs <= a + n ->
  exists m', store_bytes m p bs = Some m' /\ frame a n m m' /\ mapped m' a n.
Proof.
  intros Hm Ha He. destruct (store_bytes_mapped m p bs) as [m' E]; [eapply mapped_sub; [exact Hm|lia|lia]|].
  exists m'. split; [done|]. assert (frame a n m m') as F by (eapply frame_weaken; [by apply frame_store|lia|lia]).
  split; [done|by eapply frame_mapped].
Qed.

Lemma write_entropy_none T Q len m tag :
  mapped m (tag + 32) 96 ->
  exists m', write_entropy T Q 0 len m tag = Some m' /\ frame (tag + 32) 96 m m'.
Proof.
  intros Hm. unfold write_entropy. cbn [Z.eqb negb]. unfold store64, store32.
  destruct (store_in_range m (tag + 32) 96 (tag + 88) (le_encode 4 len) Hm) as (m1 & -> & F1 & M1);
    [lia|autorewrite with zlen; lia|]. cbn [mbind option_bind].
  destruct (store_in_range m1 (tag + 32) 96 (tag + 96) (le_encode 8 0) M1) as (m2 & -> & F2 & M2);
    [lia|autorewrite with zlen; lia|]. cbn [mbind option_bind].
  destruct (store_in_range m2 (tag + 32) 96 (tag + 88) (le_encode 4 0) M2) as (m3 & -> & F3 & M3);
    [lia|autorewrite with zlen; lia|]. cbn [mbind option_bind].
  destruct (store_in_range m3 (tag + 32) 96 (tag + 120) (le_encode 8 0) M3) as (m4 & -> & F4 & _);
    [lia|autorewrite with zlen; lia|].
  exists m4. split; [done|]. do 3 (eapply frame_trans; [eassumption|]). done.
Qed.

Definition entropy_items (entropy : Z) (seed : list byte) : list item :=
  when (negb (entropy =? 0) && negb (zlen seed =? 0)) (entropy_item seed).

Lemma entropy_builds A C P src entropy seed :
  (forall m m', frame A C m m' -> src m -> src m') ->
  C <= BBP_IMPORT_MAX_ARENA -> P + C <= 2 ^ 48 -> A + C < 2 ^ 64 -> 0 < P -> 0 <= A ->
  (forall m, src m -> bytes_at m entropy seed) -> disjoint_range A C entropy (zlen seed) ->
  builds A C P src (put_entropy A P entropy (zlen seed)) (entropy_items entropy seed).
Proof.
  intros Hsrc HC HP HA HP0 HA0 Hat Hd. apply builds_when. intros Hc.
  apply andb_prop in Hc as [Hne Hnz]. apply negb_true_iff, Z.eqb_neq in Hne, Hnz. change (sizeof bbp_tag_security) with (32 + 96).
  apply (builds_data A C P src Hsrc HC HP HA BBP_TAG_SECURITY 96 _ _ (zlen seed) (zlen seed));
    [lia|done|lia|done|by apply blob_allocates|apply write_entropy_none|].
  intros tag o Ht Ho Hend. pose proof (zlen_nonneg seed). iconsts. apply write_entropy_copy; [| |done|lia].
  - intros m m' F Hb. eapply frame_bytes_at; [exact F|lia|done].
  - done.
Qed.

(** ** The port *)

Definition josh_items (bi : bbp_josh_bootinfo) (x : list byte * list byte) : list item :=
  [hhdm_item (jb_hhdm_offset bi)] ++
  mmap_items josh_memtype_to_bbp josh_mem_default_attrs (jb_mmap bi) ++
  boot_fb_items (jb_fb bi) ++
  boot_smp_items (fst (jb_cpus bi), map josh_core (snd (jb_cpus bi))) (jb_bsp_id bi) 0 ++
  entropy_items (jb_entropy bi) (fst x) ++
  when (negb (zlen (snd x) =? 0)) (cmdline_item (snd x)).

Definition josh_given (pmm_alloc_pages : Z -> Z) (s : josh_state) (bi : bbp_josh_bootinfo)
    (x : list byte * list byte) (info C P d : Z) (m : mem) : Prop :=
  let phys := pmm_alloc_pages (order_for_bytes BBP_JOSH_ARENA_BYTES) in
  0 < phys /\ P = phys + 144 /\ C = BBP_JOSH_ARENA_BYTES - 144 /\ d = 0 /\
  info = phys + g_hhdm_offset s /\ g_hhdm_offset s = jb_hhdm_offset bi /\
  bytes_at m (jb_entropy bi) (fst x) /\ jb_entropy_len bi = zlen (fst x) /\
  disjoint_range info (144 + C) (jb_entropy bi) (zlen (fst x)) /\
  string_at m (jb_cmdline bi) (snd x) /\ disjoint_range info (144 + C) (jb_cmdline bi) (zlen (snd x) + 1).

Lemma josh_items_wf bi x : Forall item_wf (josh_items bi x).
Proof.
  unfold josh_items. rewrite !Forall_app. split_and!; auto with items. apply when_wf, entropy_item_wf.
Qed.

Lemma josh_items_ids bi x : NoDup (map i_id (josh_items bi x)).
Proof.
  eapply sublist_NoDup.
  2: { unfold josh_items. rewrite !map_app. repeat apply sublist_app; apply (when_ids true) || apply when_ids. }
  by apply (bool_decide_unpack _); vm_compute.
Qed.

Lemma josh_given_frame pmm s bi x info C P d a n m m' :
  frame a n m m' -> info <= a -> a + n <= info + (144 + C) ->
  josh_given pmm s bi x info C P d m -> josh_given pmm s bi x info C P d m'.
Proof.
  intros F ? ? (? & ? & ? & ? & ? & ? & He & ? & Hde & Hs & Hd).
  assert (frame info (144 + C) m m') as F' by (by eapply frame_weaken).
  repeat (split; [done|]). split; [|split; [done|split; [done|split; [|done]]]].
  - eapply bytes_at_same_on; [|exact He]. by eapply frame_same_on.
  - by eapply string_at_frame.
Qed.

#[global] Instance josh_port pmm :
  Port (bbp_josh_adapter pmm) (fun m => m) jb_hhdm_offset (josh_given pmm) josh_tags josh_items.
Proof.
  split.
  - intros s m bi cand out [->| ->]; [by destruct out|done].
  - intros s bi x info C P d m cand k0 [[? ?] (? & ? & ?) [? ?] _ _ _] (Hphys & EP & -> & -> & Ei & Eh & _).
    unfold bbp_josh_adapter. cbn [alloc_pages bbp_josh_osif]. unfold josh_alloc_pages.
    set (phys := pmm _) in *. clearbody phys. rewrite (proj2 (Z.eqb_neq phys 0)) by lia. rewrite <- Ei.
    rewrite (wrap_small 64 info) by (unfold in_word, BBP_JOSH_ARENA_BYTES in *; lia).
    rewrite (proj2 (Z.eqb_neq info 0)), (proj2 (Z.eqb_neq phys 0)) by lia. cbn [orb].
    change (sizeof bbp_info) with 144. rewrite <- EP. rewrite (wrap_small 64 P) by (unfold in_word, BBP_JOSH_ARENA_BYTES in *; lia).
    exists s, phys. replace (144 + (BBP_JOSH_ARENA_BYTES - 144)) with BBP_JOSH_ARENA_BYTES by lia.
    by rewrite Z.add_0_r.
  - intros s bi x info C P d m m' F. apply (josh_given_frame _ _ _ _ _ _ _ _ _ _ _ _ F); lia.
  - intros s bi x info C P d m Hpl Hg.
    assert (forall m m', frame (info + 144) C m m' ->
      josh_given pmm s bi x info C P d m -> josh_given pmm s bi x info C P d m') as Hk.
    { intros m1 m2 F. apply (josh_given_frame _ _ _ _ _ _ _ _ _ _ _ _ F); lia. }
    destruct Hpl as [[? HC] (? & ? & HP) [? HA] _ _ _]. pose proof Hg as (_ & _ & _ & _ & _ & _ & _ & El & Hde & _ & Hd).
    unfold josh_tags, josh_items. rewrite El.
    repeat (apply builds_seq; [done|auto with items|..]); [..|apply when_wf, entropy_item_wf| |].
    + by apply hhdm_builds.
    + by apply memory_map_builds.
    + by apply boot_fb_builds.
    + by apply boot_smp_builds.
    + apply entropy_builds; [done..|lia| |].
      * by intros m1 (_ & _ & _ & _ & _ & _ & He & _).
      * intros y ? ?. apply (Hde y); lia.
    + apply text_builds; [done..|lia| |by exists m|].
      * by intros m1 (_ & _ & _ & _ & _ & _ & _ & _ & _ & Hs & _).
      * intros y ? ?. apply (Hd y); lia.
  - apply josh_items_wf.
  - apply josh_items_ids.
  - intros bi x. by left.
Qed.

(** ** The seed *)

Section Gather.
Context {H : Type} (rdseed rdrand : H -> H * Z * bool) (rdtsc : H -> H * Z).

Lemma gather_loop_length seed : forall steps h len h' bytes ok,
  gather_loop rdseed rdrand rdtsc seed h len steps = (h', bytes, ok) -> 0 <= len \/ len <= 0 -> 
  zlen bytes <= Z.max 0 len /\ (ok = true -> len <= 8 * Z.of_nat steps -> zlen bytes = Z.max 0 len).
Proof.
  induction steps as [|steps IH]; intros h len h' bytes ok E _; cbn [gather_loop] in E.
  { simplify_eq. rewrite zlen_nil. split; lia. }
  destruct (Z.ltb_spec 0 len); [|simplify_eq; rewrite zlen_nil; split; lia].
  destruct (draw64 _ h 16) as [h1 [w|]]; [|simplify_eq; rewrite zlen_nil; split; [lia|done]].
  destruct (rdtsc h1) as [h2 t]. destruct (gather_loop _ _ _ seed h2 (len - 8) steps) as [[h3 rest] ok'] eqn:Er.
  simplify_eq. destruct (IH _ _ _ _ _ Er ltac:(lia)) as [Hle Hall]. rewrite zlen_app.
  assert (zlen (take (Z.to_nat len) (le_encode 8 (Z.lxor w t))) = Z.min len 8) as ->.
  { unfold zlen. rewrite length_take, length_le_encode. lia. }
  split; [lia|]. intros Hok Hs. rewrite (Hall Hok) by lia. lia.
Qed.

Lemma gather_length ebx7 ecx1 h len h' bytes ok :
  gather_boot_entropy rdseed rdrand rdtsc ebx7 ecx1 h len = (h', bytes, ok) -> 0 <= len ->
  zlen bytes <= len /\ (ok = true -> zlen bytes = len).
Proof.
  unfold gather_boot_entropy. destruct (_ && _).
  { intros [= <- <- <-] Hl. rewrite zlen_nil. by split. }
  intros E Hl. destruct (gather_loop_length _ _ _ _ _ _ _ E ltac:(lia)) as [Hle Hok]. split; [lia|].
  intros Ht. rewrite (Hok Ht); lia.
Qed.

(** ** Where the seed comes from

    The instruction is executed until it sets the carry flag, [n] times at
    most; [(r, t)] is a random word and the time stamp read after it. *)

Inductive delivers (instr : H -> H * Z * bool) : nat -> H -> Z -> H -> Prop :=
  | delivers_now n h r h' : instr h = (h', r, true) -> delivers instr (S n) h r h'
  | delivers_later n h r1 h1 r h' :
      instr h = (h1, r1, false) -> delivers instr n h1 r h' -> delivers instr (S n) h r h'.

Inductive gives_up (instr : H -> H * Z * bool) : nat -> H -> H -> Prop :=
  | gives_up_done h : gives_up instr 0 h h
  | gives_up_later n h r h1 h' :
      instr h = (h1, r, false) -> gives_up instr n h1 h' -> gives_up instr (S n) h h'.

Inductive words_drawn (instr : H -> H * Z * bool) : H -> list (Z * Z) -> H -> Prop :=
  | words_none h : words_drawn instr h [] h
  | words_next h r h1 t h2 ws h' :
      delivers instr 16 h r h1 -> rdtsc h1 = (h2, t) -> words_drawn instr h2 ws h' ->
      words_drawn instr h ((r, t) :: ws) h'.

(** The instruction the processor has: RDSEED if CPUID reports it, else RDRAND. *)
Definition generator (ebx7 ecx1 : Z) : option (H -> H * Z * bool) :=
  if Z.testbit ebx7 18 then Some rdseed else if Z.testbit ecx1 30 then Some rdrand else None.

(** Six words of the generator, or the reason why there is no seed. *)
Inductive hardware_seed (ebx7 ecx1 : Z) (h : H) : option (list (Z * Z)) -> H -> Prop :=
  | seed_drawn instr ws h' :
      generator ebx7 ecx1 = Some instr -> words_drawn instr h ws h' -> length ws = 6%nat ->
      hardware_seed ebx7 ecx1 h (Some ws) h'
  | seed_no_generator : generator ebx7 ecx1 = None -> hardware_seed ebx7 ecx1 h None h
  | seed_generator_fails instr ws h1 h' :
      generator ebx7 ecx1 = Some instr -> words_drawn instr h ws h1 -> (length ws < 6)%nat ->
      gives_up instr 16 h1 h' -> hardware_seed ebx7 ecx1 h None h'.

(** The bytes of the words, the time stamp mixed into each. *)
Definition seed_bytes (ws : list (Z * Z)) : list byte :=
  concat (map (fun '(r, t) => le_encode 8 (Z.lxor r t)) ws).

Lemma draw64_delivers instr n : forall h h' w, draw64 instr h n = (h', w) ->
  match w with Some r => delivers instr n h r h' | None => gives_up instr n h h' end.
Proof.
  induction n as [|n IH]; intros h h' w E; cbn [draw64] in E; [injection E as <- <-; constructor|].
  destruct (instr h) as [[h1 v] [|]] eqn:Ei; [injection E as <- <-; by constructor|].
  apply IH in E. destruct w; by econstructor.
Qed.

Lemma gather_loop_words seed k : forall steps h h' bytes ok, (8 * k <= steps)%nat ->
  gather_loop rdseed rdrand rdtsc seed h (8 * Z.of_nat k) steps = (h', bytes, ok) ->
  let instr := if seed then rdseed else rdrand in
  if ok then exists ws, words_drawn instr h ws h' /\ length ws = k /\ bytes = seed_bytes ws
  else exists ws h1, words_drawn instr h ws h1 /\ (length ws < k)%nat /\ gives_up instr 16 h1 h'.
Proof.
  induction k as [|k IH]; intros steps h h' bytes ok Hs E.
  { destruct steps; cbn in E; injection E as <- <- <-; exists []; split_and!; try done; constructor. }
  destruct steps as [|steps]; [lia|]. cbn [gather_loop] in E. rewrite (proj2 (Z.ltb_lt 0 (8 * Z.of_nat (S k)))) in E by lia.
  destruct (draw64 _ h 16) as [h1 w] eqn:Ed. apply draw64_delivers in Ed.
  destruct w as [r|]; [|injection E as <- <- <-; exists [], h; split_and!; [constructor|cbn; lia|done]].
  destruct (rdtsc h1) as [h2 t] eqn:Et.
  rewrite take_ge in E by (rewrite length_le_encode; lia).
  replace (8 * Z.of_nat (S k) - 8) with (8 * Z.of_nat k) in E by lia.
  destruct (gather_loop _ _ _ seed h2 _ steps) as [[h3 rest] ok'] eqn:Er. injection E as <- <- <-.
  apply IH in Er; [|lia]. cbv zeta in *.
  destruct ok'.
  - destruct Er as (ws & Hw & Hl & ->). exists ((r, t) :: ws). split_and!; [by econstructor|cbn; lia|done].
  - destruct Er as (ws & h4 & Hw & Hl & Hg). exists ((r, t) :: ws), h4. split_and!; [by econstructor|cbn; lia|done].
Qed.

(** [gather_boot_entropy] fills its buffer with the words of the generator, and
    with nothing else. *)
Lemma gather_hardware ebx7 ecx1 h h' bytes ok :
  gather_boot_entropy rdseed rdrand rdtsc ebx7 ecx1 h JOSH_ENTROPY_BYTES = (h', bytes, ok) ->
  exists seed, hardware_seed ebx7 ecx1 h seed h' /\
    match seed with Some ws => ok = true /\ bytes = seed_bytes ws | None => ok = false end.
Proof.
  unfold gather_boot_entropy. change (Z.shiftl 1 18) with (2 ^ 18). change (Z.shiftl 1 30) with (2 ^ 30).
  rewrite !land_bit, !negb_involutive by lia.
  assert (generator ebx7 ecx1 = if Z.testbit ebx7 18 then Some rdseed else if Z.testbit ecx1 30 then Some rdrand else None)
    as Hgen by done.
  destruct (negb (Z.testbit ebx7 18) && negb (Z.testbit ecx1 30)) eqn:G.
  { intros [= <- <- <-]. exists None. split; [|done]. apply seed_no_generator. rewrite Hgen.
    by destruct (Z.testbit ebx7 18), (Z.testbit ecx1 30). }
  intros E. change JOSH_ENTROPY_BYTES with (8 * Z.of_nat 6) in E. apply gather_loop_words in E; [|done]. cbv zeta in E.
  assert (generator ebx7 ecx1 = Some (if Z.testbit ebx7 18 then rdseed else rdrand)) as Hg.
  { rewrite Hgen. by destruct (Z.testbit ebx7 18), (Z.testbit ecx1 30). }
  destruct ok.
  - destruct E as (ws & Hw & Hl & ->). exists (Some ws). split; [by econstructor|done].
  - destruct E as (ws & h1 & Hw & Hl & Hgu). exists None. split; [by eapply seed_generator_fails|done].
Qed.
End Gather.

(** The consumer takes the seed of an opened tag, unless its checksum is the
    value that means there is none. *)
Lemma consume_entropy_found m k its seed old n :
  opened m k its -> In (entropy_item seed) its -> 0 < zlen seed <= JOSH_ENTROPY_BYTES -> kctx_wf k ->
  0 < walk_lo k -> walk_hi k <= 2 ^ 48 -> walk_hi k + hhdm_offset k < 2 ^ 64 ->
  consume_entropy m k old n =
    Some (if crc64_of seed =? 0 then (old, n) else (seed ++ drop (length seed) old, zlen seed)).
Proof.
  intros (_ & Hdel & _) Hin Hz Hk Hlo Hhi Hmax. rewrite List.Forall_forall in Hdel.
  destruct (Hdel _ Hin) as (tag & phys & Hf & Hne & _ & Hat & Hblob).
  cbn [i_id i_body i_blob entropy_item] in *.
  destruct Hblob as [->|(Hb & Hp1 & Hp2)]; [by destruct Hz|]. unfold entropy_body in Hat. unfold JOSH_ENTROPY_BYTES in Hz.
  unfold consume_entropy. rewrite Hf. cbn [mbind option_bind]. rewrite (proj2 (Z.eqb_neq tag 0) Hne).
  assert (load32 m (tag + 88) = Some (zlen seed)) as -> by word_at Hat (replicate 56 x00) 4%nat.
  assert (load64 m (tag + 96) = Some phys) as ->
    by word_at Hat (replicate 56 x00 ++ le_encode 4 (zlen seed) ++ replicate 4 x00) 8%nat.
  assert (load64 m (tag + 120) = Some (crc64_of seed)) as ->.
  { rewrite <- (app_nil_r (le_encode 8 (crc64_of seed))) in Hat.
    word_at Hat (replicate 56 x00 ++ le_encode 4 (zlen seed) ++ replicate 4 x00 ++ le_encode 8 phys ++ replicate 16 x00) 8%nat. }
  cbn [mbind option_bind]. rewrite (proj2 (Z.eqb_neq (zlen seed) 0)), (proj2 (Z.eqb_neq phys 0)) by lia. cbn [orb].
  unfold bbp_verify_blob. rewrite (proj2 (Z.eqb_neq (zlen seed) 0)), (proj2 (Z.eqb_neq phys 0)) by lia. cbn [orb].
  replace (BBP_MAX_BLOB <? zlen seed) with false by (kconsts; lia).
  unfold kctx_wf, in_word in Hk.
  rewrite (proj2 (bbp_address_region_ok_spec k phys (zlen seed) ltac:(lia) ltac:(lia))) by (kconsts; lia).
  unfold bbp_phys_to_virt. rewrite (proj2 (Z.eqb_neq phys 0)) by lia.
  rewrite (wrap_small 64 (phys + hhdm_offset k)) by (unfold in_word; lia).
  destruct (crc64_of seed =? 0) eqn:Ec; cbn [Z.eqb negb mbind option_bind].
  { by rewrite bool_decide_eq_false_2. }
  rewrite bbp_crc64_spec. replace (Z.to_nat (zlen seed)) with (length seed) by (unfold zlen; lia).
  rewrite (bytes_at_load _ _ _ Hb). cbn [mbind option_bind]. rewrite Z.eqb_refl, bool_decide_eq_true_2 by done.
  replace (JOSH_ENTROPY_BYTES <? zlen seed) with false by (unfold JOSH_ENTROPY_BYTES; lia).
  replace (Z.to_nat (zlen seed)) with (length seed) by (unfold zlen; lia).
  rewrite (bytes_at_load _ _ _ Hb). done.
Qed.

(** ** The boot *)

Lemma zlen_copy_present {A} max (l : list (option A)) n : 0 <= n <= max -> zlen (copy_present max l n) <= max - n.
Proof.
  revert n. induction l as [|x l IH]; intros n Hn; cbn [copy_present]; [rewrite zlen_nil; lia|].
  destruct (Z.ltb_spec n max); [|rewrite zlen_nil; lia]. destruct x as [e|]; [|by apply IH].
  rewrite zlen_cons. specialize (IH (n + 1)). lia.
Qed.

Lemma josh_mmap_bound g_mmap boot : zlen (snd (josh_mmap g_mmap boot)) <= JOSH_MMAP_MAX.
Proof.
  unfold josh_mmap. destruct (limine_memmap boot) as [[|x l]|]; [done| |done]. cbn [snd].
  pose proof (zlen_copy_present JOSH_MMAP_MAX (x :: l) 0). unfold JOSH_MMAP_MAX in *. lia.
Qed.

Lemma josh_cpus_bound g_cpus boot : zlen (snd (fst (josh_cpus g_cpus boot))) <= JOSH_CPU_MAX.
Proof.
  unfold josh_cpus. destruct (limine_smp boot) as [[[|x l] bsp]|]; [done| |done]. cbn [fst snd].
  pose proof (zlen_copy_present JOSH_CPU_MAX (x :: l) 0). unfold JOSH_CPU_MAX in *. lia.
Qed.

(** The 256 map entries, the 256 processors and the seed always fit. *)
Lemma josh_items_fit g_mmap g_cpus boot entropy len seed :
  zlen seed <= JOSH_ENTROPY_BYTES ->
  exists u n, layout (BBP_JOSH_ARENA_BYTES - 144) 0 0
    (josh_items (josh_bootinfo g_mmap g_cpus boot entropy len) (seed, [])) = Some (u, n).
Proof.
  intros Hz. pose proof (josh_mmap_bound g_mmap boot) as Hm. pose proof (josh_cpus_bound g_cpus boot) as Hc.
  unfold josh_bootinfo. destruct (josh_cpus g_cpus boot) as [[cp cs] bsp]. cbn [fst snd] in Hc.
  unfold JOSH_ENTROPY_BYTES, JOSH_MMAP_MAX, JOSH_CPU_MAX in *. pose proof (zlen_nonneg seed).
  pose proof (zlen_nonneg cs). pose proof (zlen_nonneg (snd (josh_mmap g_mmap boot))).
  change (BBP_JOSH_ARENA_BYTES - 144) with 65392.
  apply items_fit; [apply josh_items_wf| |done|];
    unfold josh_items, mmap_items, boot_smp_items, boot_fb_items, entropy_items;
    cbn [jb_mmap jb_cpus jb_fb fst snd]; bound_rooms; cbn [i_size i_blob entropy_item] in *;
    rewrite ?zlen_map in *; lia.
Qed.

Lemma disjoint_range_empty a n b : disjoint_range a n b 0.
Proof. intros x ? ?. lia. Qed.

Section Init.
Context {H : Type} (rdseed rdrand : H -> H * Z * bool) (rdtsc : H -> H * Z) (ebx7 ecx1 : Z).
Context (pmm : Z -> Z) (g_mmap g_cpus seedbuf : Z) (boot : josh_boot).

Lemma josh_consumes m k (ok : bool) seed old n :
  let bi := josh_bootinfo g_mmap g_cpus boot (if ok then seedbuf else 0) (if ok then JOSH_ENTROPY_BYTES else 0) in
  opened m k (josh_items bi (if ok then seed else [], [])) -> 0 < seedbuf ->
  (ok = true -> zlen seed = JOSH_ENTROPY_BYTES) -> kctx_wf k ->
  0 < walk_lo k -> walk_hi k <= 2 ^ 48 -> walk_hi k + hhdm_offset k < 2 ^ 64 ->
  consume_entropy m k old n =
    Some (if ok && negb (crc64_of seed =? 0) then (seed ++ drop (length seed) old, JOSH_ENTROPY_BYTES)
          else (old, n)).
Proof.
  intros bi Hop Hsb Hlen Hk Hlo Hhi Hmax. destruct ok; cbn [andb].
  - rewrite (consume_entropy_found m k _ seed old n Hop).
    + rewrite (Hlen eq_refl). by destruct (crc64_of seed =? 0).
    + unfold josh_items. rewrite !in_app_iff. do 4 right. left. apply in_when. cbn [fst]. rewrite (Hlen eq_refl).
      unfold bi, josh_bootinfo. destruct (josh_cpus g_cpus boot) as [[cp cs] bsp]. cbn [jb_entropy].
      by rewrite (proj2 (Z.eqb_neq seedbuf 0)) by lia.
    + by rewrite (Hlen eq_refl).
    + done.
    + done.
    + done.
    + done.
  - unfold consume_entropy. destruct Hop as (_ & _ & Hno). rewrite Hno; [done|].
    unfold josh_items, mmap_items, boot_fb_items, boot_smp_items, entropy_items, bi, josh_bootinfo.
    destruct (josh_cpus g_cpus boot) as [[cp cs] bsp]. cbn [jb_entropy fst snd]. not_among.
Qed.

Lemma josh_init_spec h g m cand h' seed ok :
  let phys := pmm 4 in
  let offset := limine_hhdm_offset boot in
  let info := phys + offset in
  let C := BBP_JOSH_ARENA_BYTES - 144 in
  gather_boot_entropy rdseed rdrand rdtsc ebx7 ecx1 h JOSH_ENTROPY_BYTES = (h', seed, ok) ->
  0 < offset -> g_hhdm_offset (jg_os g) = offset -> 0 < phys ->
  placed (fun m => m) info C (phys + 144) 0 offset -> mapped m info BBP_JOSH_ARENA_BYTES ->
  0 < seedbuf -> mapped m seedbuf JOSH_ENTROPY_BYTES ->
  disjoint_range info BBP_JOSH_ARENA_BYTES seedbuf JOSH_ENTROPY_BYTES -> 
  let k := Kctx info offset 1 (phys + 144) (phys + BBP_JOSH_ARENA_BYTES) in
  let bi := josh_bootinfo g_mmap g_cpus boot (if ok then seedbuf else 0) (if ok then JOSH_ENTROPY_BYTES else 0) in
  exists g' m',
    bbp_josh_init rdseed rdrand rdtsc ebx7 ecx1 pmm g_mmap g_cpus seedbuf boot h g m cand =
      Some (h', g', m', BBP_OK) /\
    bbp_josh_context g' = Some k /\ opened m' k (josh_items bi (if ok then seed else [], [])) /\
    (g_boot_entropy g', g_boot_entropy_len g') =
      if ok && negb (crc64_of seed =? 0)
      then (seed ++ drop (length seed) (g_boot_entropy g), JOSH_ENTROPY_BYTES)
      else (g_boot_entropy g, g_boot_entropy_len g).
Proof.
  intros phys offset info C Hg Ho Hos Hphys Hpl Hm Hsb Hms Hdis k bi.
  destruct (gather_length _ _ _ _ _ _ _ _ _ _ Hg) as [Hle Hlen]; [done|].
  destruct (store_bytes_mapped m seedbuf seed) as [m1 E]; [eapply mapped_sub; [exact Hms|lia|lia]|].
  pose proof (frame_store _ _ _ _ E) as F1.
  set (x := ((if ok then seed else [], []) : list byte * list byte)).
  assert (josh_given pmm (jg_os g) bi x info C (phys + 144) 0 m1) as Hgiven.
  { unfold josh_given. rewrite josh_arena_order. fold phys. unfold bi, josh_bootinfo.
    destruct (josh_cpus g_cpus boot) as [[cp cs] bsp]. cbn [jb_entropy jb_entropy_len jb_cmdline jb_hhdm_offset].
    rewrite Hos. destruct (pl_info _ _ _ _ _ _ Hpl). unfold C in *.
    repeat (split; [done|]). unfold x. cbn [fst snd]. split; [destruct ok; [by eapply store_bytes_at|apply bytes_at_nil]|].
    split; [destruct ok; [by rewrite Hlen|done]|].
    split; [destruct ok; [by rewrite Hlen|apply disjoint_range_empty]|].
    split; [done|]. intros y ? Hy. unfold zlen in Hy. cbn [length Z.of_nat] in Hy. lia. }
  destruct (josh_items_fit g_mmap g_cpus boot (if ok then seedbuf else 0) (if ok then JOSH_ENTROPY_BYTES else 0)
    (if ok then seed else [])) as (u & n & Hfit); [by destruct ok|]. fold C bi x in Hfit.
  destruct (port_spec (bbp_josh_adapter pmm) _ _ _ _ _ (jg_os g) bi x info C (phys + 144) 0 m1 cand
    (g_josh_kctx g)) as (s' & m2 & F2 & Hout).
  { unfold bi, josh_bootinfo. by destruct (josh_cpus g_cpus boot) as [[cp cs] bsp]. }
  { done. }
  { by eapply frame_mapped. }
  rewrite Hfit in Hout. destruct Hout as [Ha Hop].
  replace (phys + 144 + C) with (phys + BBP_JOSH_ARENA_BYTES) in * by (unfold C; lia). rewrite Z.add_0_r in *.
  assert (jb_hhdm_offset bi = offset) as Eo.
  { unfold bi, josh_bootinfo. by destruct (josh_cpus g_cpus boot) as [[cp cs] bsp]. }
  rewrite Eo in Ha, Hop. fold k in Ha, Hop.
  unfold bbp_josh_init. fold offset. rewrite (proj2 (Z.eqb_neq offset 0)) by lia. rewrite Hg, E.
  cbn [mbind option_bind]. fold bi. rewrite Ha. cbn [mbind option_bind]. rewrite (opened_count m2 k _ Hop).
  cbn [mbind option_bind]. rewrite bool_decide_eq_true_2 by done.
  rewrite (josh_consumes m2 k ok seed) by
    (try done; unfold k, kctx_wf, in_word; cbn [hhdm_offset walk_lo walk_hi]; destruct Hpl as [_ (_ & _ & ?) [? ?] _ _ _];
     unfold info, C, BBP_JOSH_ARENA_BYTES in *; lia).
  cbn [mbind option_bind]. destruct (if ok && _ then _ else _) as [pool n'].
  eexists _, m2. split; [done|]. split; [done|]. split; [exact Hop|]. done.
Qed.
End Init.
