(* ===== verification/PortProps.v ===== *)
(** * Properties of the ports

    The promises of the four ports to the kernels they run in, proved from the
    port interface and from the lemmas on the glue. *)

From stdpp Require Import strings.
From S2P Require Import Prelude Memory Crc64 Abi KernelParser KernelFacts Builder BuilderFacts Handoff Import ImportFacts ImportEmit ImportBodies Boot Port PortFacts PortParts PortOpen PortSpec PortLinux01 PortTina PortTinaProps PortMinix PortMinixProps PortJosh PortJoshProps.

(** ** The offset of a port *)

Lemma wrap_probe h : in_word 64 h -> wrap64 (wrap64 (0x1000 + h) - 0x1000) = h.
Proof.
  intros Hh. unfold wrap. rewrite Zminus_mod_idemp_l. replace (0x1000 + h - 0x1000) with h by lia.
  by apply Z.mod_small.
Qed.

(** The offset that [bbp_osif_hhdm_offset] derives is the one in the state of
    the port. *)
Lemma osif_offsets :
  (forall a s, in_word 64 (l01_hhdm_offset s) -> bbp_osif_hhdm_offset (bbp_l01_osif a) s = l01_hhdm_offset s) /\
  (forall f s, in_word 64 (tina_hhdm_offset s) -> bbp_osif_hhdm_offset (bbp_tina_osif f) s = tina_hhdm_offset s) /\
  (forall a s, in_word 64 (minix_hhdm_offset s) -> bbp_osif_hhdm_offset (bbp_minix_osif a) s = minix_hhdm_offset s) /\
  (forall f s, in_word 64 (g_hhdm_offset s) -> bbp_osif_hhdm_offset (bbp_josh_osif f) s = g_hhdm_offset s).
Proof. split_and!; intros a s H; by apply wrap_probe. Qed.

(** ** Static arenas *)

(** A chunk is aligned, after everything handed out before it and inside the
    arena, which only grows; a refusal means that it does not fit. *)
Lemma static_bump_spec size used bytes :
  0 <= used <= size -> size < 2 ^ 63 -> 0 <= bytes ->
  match static_bump size used bytes with
  | Some (start, used') =>
      used <= start /\ start mod 8 = 0 /\ used' = start + bytes /\ used' <= size
  | None => size < round_up 8 used + bytes
  end.
Proof.
  intros Hu Hs Hb. unfold static_bump. change (Z.land _ _) with (align8_up used). rewrite align8_up_eq by (unfold SIZE_MAX; lia).
  pose proof (round_up_bounds 8 used ltac:(lia)).
  destruct (_ || _) eqn:G; bool_to_prop; [lia|]. split_and!; try lia. apply round_up_mod. lia.
Qed.

(** ** Properties *)

(** C30: whatever the port, its adapter keeps its promise.  For boot data as the
    port describes it ([given]) and an arena that the kernel's direct map shows
    at the stated place ([placed]), the adapter returns and writes nothing
    outside its arena.  If the tags that describe the boot data do not fit in
    the arena, it answers [BBP_ERR_SIZE] and leaves the caller's context as it
    was.  Otherwise it answers [BBP_OK] with a context whose window is exactly
    the arena and whose offset is the direct map's: through the direct map the
    parser then finds every tag that describes the boot data, with its body and
    with the data its body refers to, and finds no other tag.  A NULL argument
    is refused without any effect. *)
Theorem port_delivers_boot_data {S B X : Type}
    (adapter : S -> mem -> option B -> bbp_kctx -> option bbp_kctx ->
               option (S * mem * option bbp_kctx * bbp_status_t))
    (view : mem -> mem) (offset : B -> Z)
    (given : S -> B -> X -> Z -> Z -> Z -> Z -> mem -> Prop)
    (emit : B -> Z -> Z -> emitter) (items : B -> X -> list item)
    (Hport : Port adapter view offset given emit items)
    (s : S) (bi : B) (x : X) (info C P d : Z) (m : mem) (cand k0 : bbp_kctx) :
  placed view info C P d (offset bi) -> given s bi x info C P d m -> mapped m info (144 + C) ->
  (exists s' m', frame info (144 + C) m m' /\
    match layout C 0 0 (items bi x) with
    | None => adapter s m (Some bi) cand (Some k0) = Some (s', m', Some k0, BBP_ERR_SIZE)
    | Some _ =>
        let k := Kctx (info + d) (offset bi) 1 P (P + C) in
        adapter s m (Some bi) cand (Some k0) = Some (s', m', Some k, BBP_OK) /\
        opened (view m') k (items bi x)
    end) /\
  (forall out, adapter s m None cand out = Some (s, m, out, BBP_ERR_NULL)) /\
  adapter s m (Some bi) cand None = Some (s, m, None, BBP_ERR_NULL).
Proof.
  intros Hpl Hg Hm. split; [by eapply port_spec|]. split; [intros out|]; apply port_null; auto.
Qed.

(** C33: linux-0.01 always boots with a complete handoff.  Wherever the linker
    puts the static arena (page-aligned, below 2^48) and whatever memory
    ceiling the kernel is configured with, [bbp_linux01_init] returns [BBP_OK],
    publishes a context, and lookup in it finds exactly the HHDM tag with
    offset 0, the memory map and the kernel address 0/0; the map tiles the
    range from 0 to the ceiling, at least 1 MiB, without gap or overlap. *)
Theorem linux01_boots (l01_arena mmap high : Z) (g : l01_glue) (m : mem) (cand : bbp_kctx) :
  l01_linked l01_arena -> mmap <> 0 -> mapped m l01_arena BBP_L01_ARENA_BYTES ->
  let k := Kctx l01_arena 0 1 (l01_arena + 144) (l01_arena + BBP_L01_ARENA_BYTES) in
  exists g' m',
    bbp_linux01_init l01_arena mmap high g m cand = Some (g', m', BBP_OK) /\
    bbp_linux01_boot_ctx g' = Some k /\ opened m' k (l01_boot_items high) /\
    frame l01_arena BBP_L01_ARENA_BYTES m m' /\
    tiles 0 (l01_fixed_map high) (Z.max L01_RESERVED_TOP high).
Proof.
  intros Hl Hp Hm. destruct (linux01_init_spec l01_arena mmap high g m cand Hl Hp Hm) as (g' & m' & ? & ? & ? & ?).
  exists g', m'. split_and!; try done. apply l01_fixed_map_tiles.
Qed.

(** C31: MINIX reads back what Limine gave.  When the boot values fit (at most a
    thousand processors and a command line of 4000 bytes), the glue answers
    [BBP_OK] although the adapter writes the arena through the kernel image and
    the parser reads it through the direct map; the consumers of the glue then
    return the RSDP (0 when there was none), the direct-map offset, the kernel
    address, the processor count with the boot processor and the x2APIC mode,
    and accept a raw usable-memory total exactly when it is the sum of the
    lengths of the usable entries, which fits in 64 bits. *)
Theorem minix_boot_reads_back (minix_arena : Z) (view : mem -> mem) (g_mmap : Z) (boot : minix_boot)
    (g : minix_glue) (m : mem) (cand : bbp_kctx) (entries : list mmap_entry) (text : list byte) (P d : Z) :
  let bi := minix_bootinfo g_mmap boot entries in
  boot_entries m boot = Some entries ->
  placed view minix_arena (BBP_MINIX_ARENA_BYTES - 144) P d (mb_hhdm boot) ->
  P = minix_arena + 144 + slide (mg_os g) bi -> 144 < P ->
  string_at m (mb_cmdline boot) text -> zlen text <= 4000 ->
  disjoint_range minix_arena BBP_MINIX_ARENA_BYTES (mb_cmdline boot) (zlen text + 1) ->
  mapped m minix_arena BBP_MINIX_ARENA_BYTES -> zlen (snd (mb_lapic_ids boot)) <= 1000 ->
  in_word 64 (mb_hhdm boot) -> in_word 64 (mb_rsdp boot) -> in_word 64 (mb_kphys boot) ->
  in_word 64 (mb_kvirt boot) -> in_word 32 (mb_bsp_lapic boot) ->
  exists g' m',
    bbp_minix_boot_glue minix_arena view g_mmap boot g m cand = Some (g', m', BBP_OK) /\
    let v := view m' in
    bbp_minix_get_rsdp v g' = Some (mb_rsdp boot) /\
    (forall x, bbp_minix_ctx_hhdm v g' (Some x) = Some (Some (mb_hhdm boot), 1)) /\
    (mb_have_kaddr boot <> 0 -> forall p q,
       bbp_minix_get_kernel_address v g' (Some p) (Some q) =
         Some (Some (mb_kphys boot), Some (mb_kvirt boot), 1)) /\
    (fst (mb_lapic_ids boot) <> 0 -> snd (mb_lapic_ids boot) <> [] -> forall c b x,
       bbp_minix_verify_smp v g' (Some c) (Some b) (Some x) =
         Some (Some (zlen (snd (mb_lapic_ids boot))), Some (mb_bsp_lapic boot),
               Some (if mb_x2apic boot =? 0 then 0 else 1), 1)) /\
    (g_mmap <> 0 -> entries <> [] -> forall raw u n,
       bbp_minix_verify_memmap v g' raw (Some u) (Some n) =
         if usable_total entries <=? UINT64_MAX
         then Some (Some (usable_total entries), Some (zlen entries),
                    if usable_total entries =? raw then 1 else 0)
         else Some (Some u, Some n, 0)).
Proof.
  intros bi He Hpl EP HP Hs Ht Hd Hm Hids Hwh Hwr Hwp Hwv Hwb.
  destruct (boot_entries_spec _ _ _ He) as [Hok Hz]. unfold GLUE_MAX_MMAP in Hz.
  destruct (minix_items_fit g_mmap boot entries text Hz Hids Ht) as (u & n & Hfit).
  destruct (minix_glue_spec minix_arena view g_mmap boot g m cand entries text P d He Hpl EP HP Hs Hd Hm)
    as (g' & m' & _ & Hout).
  fold bi in Hfit, Hout. rewrite Hfit in Hout. destruct Hout as (E & Hv & Hk & Hop & _).
  exists g', m'. split; [done|]. cbn zeta. rewrite <- Hk in Hop. assert (g_ctx_valid g' <> 0) as Hv' by (by rewrite Hv).
  split_and!.
  - destruct (Z.eqb_spec (mb_rsdp boot) 0) as [E0|E0].
    + rewrite E0. eapply get_rsdp_absent; [exact Hop|done|].
      unfold minix_items, mmap_items, boot_smp_items, boot_fb_items, bi. cbn [nb_rsdp_phys minix_bootinfo].
      rewrite E0. not_among.
    + eapply get_rsdp_found; [exact Hop|done| |done]. unfold minix_items. rewrite !in_app_iff. do 4 right. left.
      apply in_when. cbn [nb_rsdp_phys bi minix_bootinfo]. by rewrite (proj2 (Z.eqb_neq _ 0) E0).
  - intros x. eapply ctx_hhdm_found; [exact Hop|done|by left|done].
  - intros Hk' p q. eapply kernel_address_found; [exact Hop|done| |done|done]. unfold minix_items.
    rewrite !in_app_iff. do 2 right. left. apply in_when. cbn [nb_have_kernel_address bi minix_bootinfo].
    by rewrite (proj2 (Z.eqb_neq _ 0) Hk').
  - intros Hp Hne c b x. rewrite <- (zlen_lapic_cpus _ 0).
    erewrite (smp_found _ _ _ Hop Hv' (lapic_cpus 0 (snd (mb_lapic_ids boot))) _ (minix_smp_flags bi)); [|..].
    + unfold minix_smp_flags. cbn [nb_smp_x2apic bi minix_bootinfo]. by destruct (mb_x2apic boot =? 0).
    + unfold minix_items, boot_smp_items. rewrite !in_app_iff. do 3 right. left. apply in_when.
      cbn [nb_lapic_ids bi minix_bootinfo fst snd]. rewrite (proj2 (Z.eqb_neq _ 0) Hp), zlen_lapic_cpus.
      by destruct (snd (mb_lapic_ids boot)).
    + rewrite zlen_lapic_cpus. lia.
    + done.
    + unfold minix_smp_flags. by destruct (negb _).
  - intros Hp Hne raw u' n'. eapply memmap_found; [exact Hop|done| |done|lia].
    unfold minix_items, mmap_items. rewrite !in_app_iff. right. left. apply in_when.
    cbn [nb_mmap bi minix_bootinfo fst snd]. rewrite (proj2 (Z.eqb_neq _ 0) Hp). by destruct entries.
Qed.


(** C34: TinaLinux boots with its firmware tables.  With the arena from the page
    allocator in the direct map and a command line of at most 50,000 bytes
    outside it, [bbp_tina_init] publishes a context with exactly the tags of the
    e820 map (its first 256 entries), the kernel address, the RSDP and the
    command line, and [bbp_tina_get_rsdp] returns the address ACPI gave.  What
    it logs reaches printk in lines that fit the 256-byte buffer: the new lines
    and the rest of the buffer are the old buffer and the logged bytes but
    newlines, in order. *)
Theorem tina_boots (pages : Z) (pa : Z -> Z) (bbp_mmap : Z) (boot : tina_boot) (g : tina_glue) (m : mem)
    (cand : bbp_kctx) (text : list byte) (P : Z) :
  let bi := tina_bootinfo bbp_mmap boot in
  let info := tina_pages pages (tg_os g) in
  let C := bbp_arena_bytes - 144 in
  placed (fun m => m) info C P 0 (page_offset_base boot) -> 144 < P ->
  in_word 64 (acpi_root_pointer boot) ->
  string_at m (saved_command_line boot) text -> zlen text <= 50000 ->
  disjoint_range info bbp_arena_bytes (saved_command_line boot) (zlen text + 1) ->
  mapped m info bbp_arena_bytes ->
  let k := Kctx info (page_offset_base boot) 1 P (P + C) in
  (exists g' m',
    bbp_tina_init pages pa bbp_mmap boot g m cand = Some (g', m', 0) /\ frame info bbp_arena_bytes m m' /\
    bbp_tina_boot_ctx g' = Some k /\ opened m' k (tina_items bi text) /\
    bbp_tina_get_rsdp m' g' = Some (acpi_root_pointer boot)) /\
  (forall msg l, zlen (bbp_line l) < BBP_LINE_MAX ->
    let l' := bbp_tina_hook_log (Some msg) l in
    zlen (bbp_line l') < BBP_LINE_MAX /\
    exists lines, printed l' = printed l ++ lines /\ Forall (fun x => zlen x < BBP_LINE_MAX) lines /\
      concat lines ++ bbp_line l' = bbp_line l ++ List.filter (fun c => negb (byte_Z c =? 10)) msg).
Proof.
  intros bi info C Hpl HP Hw Hs Ht Hd Hm k. split; [|intros msg l; apply log_loop_spec].
  destruct (tina_init_spec pages pa bbp_mmap boot g m cand text P Hpl HP Hw Hs Hd Hm) as (g' & m' & E & F & Hout).
  destruct (tina_items_fit bbp_mmap boot text Ht) as (u & n & Hfit). fold bi in Hfit, Hout. rewrite Hfit in Hout.
  destruct Hout as (? & ? & ?). by exists g', m'.
Qed.

(** ** Sample boots *)

Lemma mapped_union_l m1 m2 a n : mapped m1 a n -> mapped (m1 ∪ m2) a n.
Proof. intros H x Hx. apply lookup_union_is_Some. left. by apply H. Qed.

Lemma mapped_union_r m1 m2 a n : mapped m2 a n -> mapped (m1 ∪ m2) a n.
Proof. intros H x Hx. apply lookup_union_is_Some. right. by apply H. Qed.

Lemma bytes_at_union_l m1 m2 a bs : bytes_at m1 a bs -> bytes_at (m1 ∪ m2) a bs.
Proof. intros H i b Hi. apply lookup_union_Some_l. by apply H. Qed.

Definition zeroes (a n : Z) : mem := mem_of a (replicate (Z.to_nat n) x00).

Lemma zeroes_mapped a n : 0 <= n -> mapped (zeroes a n) a n.
Proof.
  intros Hn. unfold zeroes. pose proof (bytes_at_mapped _ _ _ (bytes_at_mem_of a (replicate (Z.to_nat n) x00))) as H.
  rewrite zlen_replicate in H. by replace (Z.of_nat (Z.to_nat n)) with n in H by lia.
Qed.

(** The memory with the [n] bytes at [a] shown once more [d] higher. *)
Definition direct_alias (a d n : Z) (m : mem) : mem :=
  match load_bytes m a (Z.to_nat n) with Some bs => mem_of (a + d) bs ∪ m | None => m end.

Lemma direct_alias_seen a d n m : 0 <= n -> mapped m a n -> seen m (direct_alias a d n m) d a n.
Proof.
  intros Hn Hm x Hx. unfold direct_alias.
  destruct (mapped_load m a (Z.to_nat n)) as [bs E]; [by rewrite Z2Nat.id|]. rewrite E.
  pose proof (load_bytes_length _ _ _ _ E) as Hl. apply load_bytes_at in E as [_ E].
  destruct (lookup_lt_is_Some_2 bs (Z.to_nat (x - a))) as [b Hb]; [lia|].
  assert (m !! x = Some b) as -> by (rewrite <- (E _ _ Hb); f_equal; lia).
  apply lookup_union_Some_l. rewrite <- (bytes_at_mem_of (a + d) bs _ _ Hb). f_equal. lia.
Qed.

Module PortSample.
(** A MINIX kernel image at virtual 0x100000 and physical 0x200000, with the
    arena 64 KiB into it; the direct map starts at 0x1000000.  One usable
    Limine entry, whose table is at 4096, two processors and an RSDP. *)
Definition arena : Z := 0x110000.
Definition boot : minix_boot :=
  MinixBoot 0x1000000 0x200000 0x100000 1 0xE0000 4096 1 0 (8192, [0; 1]) 0 1.
Definition entry : mmap_entry := MmapEntry 0x100000 0x700000 0.
Definition table : list byte :=
  le_encode 8 4104 ++ le_encode 8 (me_base entry) ++ le_encode 8 (me_length entry) ++ le_encode 8 (me_type entry).
Definition memory : mem := mem_of 4096 table ∪ zeroes arena BBP_MINIX_ARENA_BYTES.
Definition view : mem -> mem := direct_alias arena 0x1100000 BBP_MINIX_ARENA_BYTES.
Definition ctx : bbp_kctx := Kctx 0 0 0 0 0.
Definition glue : minix_glue := MinixGlue minix_initial ctx 0 [].
Definition bi : bbp_minix_bootinfo := minix_bootinfo 12288 boot [entry].

Lemma sample_mapped : mapped memory arena BBP_MINIX_ARENA_BYTES.
Proof. apply mapped_union_r, zeroes_mapped. unfold BBP_MINIX_ARENA_BYTES. lia. Qed.

Lemma sample_placed : placed view arena (BBP_MINIX_ARENA_BYTES - 144) 0x210090 0x1100000 0x1000000.
Proof.
  split; unfold BBP_MINIX_ARENA_BYTES, arena; [iconsts; lia|split_and!; [lia|reflexivity|lia]|lia|lia|lia|].
  intros m Hm. apply direct_alias_seen; [unfold BBP_MINIX_ARENA_BYTES; lia|exact Hm].
Qed.

Lemma sample_entries : boot_entries memory boot = Some [entry].
Proof.
  pose proof (bytes_at_union_l _ (zeroes arena BBP_MINIX_ARENA_BYTES) _ _ (bytes_at_mem_of 4096 table)) as Hat.
  fold memory in Hat. generalize dependent memory. intros m Hat. unfold table in Hat.
  rewrite <- (app_nil_r (le_encode 8 (me_type entry))) in Hat.
  unfold boot_entries. cbn [mb_entries mb_count boot Z.eqb negb andb]. change (Z.to_nat 1) with 1%nat.
  cbn [copy_limine_map]. change (0 <? GLUE_MAX_MMAP) with true. cbn iota.
  assert (load64 m 4096 = Some 4104) as -> by word_at Hat (@nil byte) 8%nat. cbn [mbind option_bind Z.eqb].
  assert (load64 m 4104 = Some (me_base entry)) as -> by word_at Hat (le_encode 8 4104) 8%nat.
  assert (load64 m (4104 + 8) = Some (me_length entry)) as ->
    by word_at Hat (le_encode 8 4104 ++ le_encode 8 (me_base entry)) 8%nat.
  assert (load64 m (4104 + 16) = Some (me_type entry)) as ->
    by word_at Hat (le_encode 8 4104 ++ le_encode 8 (me_base entry) ++ le_encode 8 (me_length entry)) 8%nat.
  reflexivity.
Qed.

Lemma sample_apart : disjoint_range arena BBP_MINIX_ARENA_BYTES 0 (zlen (@nil byte) + 1).
Proof. apply disjoint_range_intro. unfold arena, BBP_MINIX_ARENA_BYTES, zlen. cbn. lia. Qed.
End PortSample.

Lemma port_delivers_boot_data_witness :
  exists s' m',
    bbp_minix_adapter PortSample.arena PortSample.view minix_initial PortSample.memory (Some PortSample.bi)
      PortSample.ctx (Some PortSample.ctx) =
      Some (s', m', Some (Kctx 0x1210000 0x1000000 1 0x210090 (0x210090 + (BBP_MINIX_ARENA_BYTES - 144))), BBP_OK) /\
    opened (PortSample.view m') (Kctx 0x1210000 0x1000000 1 0x210090 (0x210090 + (BBP_MINIX_ARENA_BYTES - 144)))
      (minix_items PortSample.bi []).
Proof.
  destruct (port_delivers_boot_data (bbp_minix_adapter PortSample.arena PortSample.view) PortSample.view
    nb_hhdm_offset (minix_given PortSample.arena) minix_tags minix_items
    (minix_port PortSample.arena PortSample.view) minix_initial PortSample.bi [] PortSample.arena
    (BBP_MINIX_ARENA_BYTES - 144) 0x210090 0x1100000 PortSample.memory PortSample.ctx PortSample.ctx)
    as [(s' & m' & _ & Hout) _].
  - exact PortSample.sample_placed.
  - split_and!; [reflexivity|reflexivity|reflexivity|lia|reflexivity|exact PortSample.sample_apart].
  - exact PortSample.sample_mapped.
  - exists s', m'. exact Hout.
Defined.

Lemma linux01_boots_witness :
  exists g' m',
    bbp_linux01_init 0x10000 4096 0x800000 (L01Glue l01_initial PortSample.ctx 0)
      (zeroes 0x10000 BBP_L01_ARENA_BYTES) PortSample.ctx = Some (g', m', BBP_OK) /\
    tiles 0 (l01_fixed_map 0x800000) 0x800000.
Proof.
  destruct (linux01_boots 0x10000 4096 0x800000 (L01Glue l01_initial PortSample.ctx 0)
    (zeroes 0x10000 BBP_L01_ARENA_BYTES) PortSample.ctx) as (g' & m' & E & _ & _ & _ & Ht).
  - unfold l01_linked, BBP_L01_ARENA_BYTES. split_and!; [lia|reflexivity|lia].
  - lia.
  - apply zeroes_mapped. unfold BBP_L01_ARENA_BYTES. lia.
  - exists g', m'. split; [exact E|exact Ht].
Defined.

Lemma minix_boot_reads_back_witness :
  exists g' m',
    bbp_minix_boot_glue PortSample.arena PortSample.view 12288 PortSample.boot PortSample.glue
      PortSample.memory PortSample.ctx = Some (g', m', BBP_OK) /\
    bbp_minix_get_rsdp (PortSample.view m') g' = Some 0xE0000 /\
    bbp_minix_verify_memmap (PortSample.view m') g' 0x700000 (Some 0) (Some 0) =
      Some (Some 0x700000, Some 1, 1).
Proof.
  destruct (minix_boot_reads_back PortSample.arena PortSample.view 12288 PortSample.boot PortSample.glue
    PortSample.memory PortSample.ctx [PortSample.entry] [] 0x210090 0x1100000)
    as (g' & m' & E & Hr & _ & _ & _ & Hmm).
  - exact PortSample.sample_entries.
  - exact PortSample.sample_placed.
  - reflexivity.
  - lia.
  - reflexivity.
  - unfold zlen. cbn. lia.
  - exact PortSample.sample_apart.
  - exact PortSample.sample_mapped.
  - unfold zlen. cbn. lia.
  - unfold in_word. cbn. lia.
  - unfold in_word. cbn. lia.
  - unfold in_word. cbn. lia.
  - unfold in_word. cbn. lia.
  - unfold in_word. cbn. lia.
  - exists g', m'. split; [exact E|]. split; [exact Hr|]. apply Hmm; [lia|discriminate].
Defined.

Module JoshSample.
(** A generator that answers every time; the allocator gives 0x200000. *)
Definition rng (h : unit) : unit * Z * bool := (h, 0x0123456789abcdef, true).
Definition tsc (h : unit) : unit * Z := (h, 42).
Definition boot : josh_boot := JoshBoot 0x1000000 (Some [Some PortSample.entry; None]) None None.
Definition glue : josh_glue := JoshGlue (JoshState 0x1000000) PortSample.ctx 0 (replicate 48 x00) 0.
Definition memory : mem := zeroes 4096 JOSH_ENTROPY_BYTES ∪ zeroes 0x1200000 BBP_JOSH_ARENA_BYTES.
Definition words : list (Z * Z) := replicate 6 (0x0123456789abcdef, 42).
Definition seed : list byte := seed_bytes words.

Lemma words_are h ws h' : words_drawn tsc rng h ws h' -> ws = replicate (length ws) (0x0123456789abcdef, 42).
Proof.
  induction 1 as [|h r h1 t h2 ws h' Hd Ht _ IH]; [done|]. cbn [length replicate]. rewrite <- IH.
  inversion Hd as [? ? ? ? Hr|? ? ? ? ? ? Hr]; unfold rng, tsc in *; by simplify_eq.
Qed.

(** The generator never fails. *)
Lemma seed_is h s h' : hardware_seed rng rng tsc (2 ^ 18) 0 h s h' -> s = Some words.
Proof.
  intros [instr ws h1 Hi Hw Hl|Hi|instr ws h1 h2 Hi _ _ Hg]; try done; injection Hi as <-.
  - apply words_are in Hw. by rewrite Hw, Hl.
  - inversion Hg as [|? ? ? ? ? Hr]. by unfold rng in Hr.
Qed.
End JoshSample.


Module TinaSample.
Definition boot : tina_boot := TinaBoot 0x1000000 0x200000 0x100000 [PortSample.entry] 0xE0000 4096.
Definition line : list byte := say "quiet".
Definition memory : mem := mem_of 4096 (line ++ [x00]) ∪ zeroes 0x1200000 bbp_arena_bytes.
Definition glue : tina_glue := TinaGlue tina_initial (TinaLog [] []) PortSample.ctx 0.
End TinaSample.

Lemma tina_boots_witness :
  exists g' m',
    bbp_tina_init 0x1200000 (fun p => p) 8192 TinaSample.boot TinaSample.glue TinaSample.memory PortSample.ctx =
      Some (g', m', 0) /\
    bbp_tina_get_rsdp m' g' = Some 0xE0000.
Proof.
  destruct (tina_boots 0x1200000 (fun p => p) 8192 TinaSample.boot TinaSample.glue TinaSample.memory PortSample.ctx
    TinaSample.line 0x200090) as [(g' & m' & E & _ & _ & _ & Hr) _].
  - change (tina_pages _ _) with 0x1200000. change (bbp_arena_bytes - 144) with 65392.
    change (page_offset_base _) with 0x1000000.
    split; [iconsts; lia|split_and!; [lia|reflexivity|lia]|lia|lia|lia|].
    intros m _ x _. rewrite Z.add_0_r. reflexivity.
  - lia.
  - unfold in_word. cbn. lia.
  - unfold string_at. cbn [saved_command_line TinaSample.boot Z.eqb]. split; [|split].
    + apply bytes_at_union_l, bytes_at_mem_of.
    + unfold TinaSample.line. vm_compute. intros H. repeat destruct H as [H|H]; discriminate || exact H.
    + vm_compute. reflexivity.
  - vm_compute. discriminate.
  - apply disjoint_range_intro. right. vm_compute. discriminate.
  - apply mapped_union_r, zeroes_mapped. vm_compute. discriminate.
  - exists g', m'. split; [exact E|exact Hr].
Defined.
