(* ===== verification/Paging.v ===== *)
(** * The loader's page tables (bootloader/efi_main.c)

    The UEFI loader builds four-level x86_64 page tables in a pool of zeroed
    pages: the first 4 GiB at their own address and again at
    [BBP_HHDM_OFFSET], and the pages of every planned segment at their virtual
    address.  Tables are read and written in memory, entry by entry.  [walk] is
    the processor's side: how a virtual address is translated by the tables
    found in memory. *)

From S2P Require Import Prelude Memory ElfPlan.

(** ** Constants and the pool *)

Definition EFI_PAGE_SIZE : Z := 4096.
Definition BBP_IDENTITY_LIMIT : Z := 0x100000000.
Definition BBP_HHDM_OFFSET : Z := 0xffff800000000000.
Definition X86_PTE_PRESENT : Z := 1.
Definition X86_PTE_WRITABLE : Z := 2.
Definition X86_PTE_LARGE : Z := 0x80.
Definition X86_PTE_NX : Z := Z.shiftl 1 63.
(** The literal [UINT64_C(0x000ffffffffff000)]. *)
Definition X86_PTE_ADDRESS : Z := 0x000ffffffffff000.

Record page_pool := PagePool {
  pool_base : Z;
  pool_used : Z;
  pool_count : Z;
}.

(** The pool afterwards and the address of the table, 0 when there is none. *)
Definition table_new (pool : page_pool) : page_pool * Z :=
  reject pool_used pool =? pool_count pool with (pool, 0);
  let address := wrap64 (pool_base pool + pool_used pool * EFI_PAGE_SIZE) in
  (PagePool (pool_base pool) (pool_used pool + 1) (pool_count pool), address).

(** [next | X86_PTE_PRESENT | X86_PTE_WRITABLE] *)
Definition table_entry (next : Z) : Z := Z.lor (Z.lor next X86_PTE_PRESENT) X86_PTE_WRITABLE.

(** [&table[index]] with the index taken from the address at [shift]. *)
Definition entry_slot (table virtual_address shift : Z) : Z :=
  table + 8 * Z.land (Z.shiftr virtual_address shift) 0x1ff.

(** ** One page *)

(** The loop over [shifts]: the table of the last level, or [None] for a return
    of 0. *)
Fixpoint map_page_levels (m : mem) (pool : page_pool) (table virtual_address : Z)
    (shifts : list Z) : option (mem * page_pool * option Z) :=
  match shifts with
  | [] => Some (m, pool, Some table)
  | shift :: shifts =>
      let slot := entry_slot table virtual_address shift in
      e ← load64 m slot;
      '(m, pool, ok) ← (if Z.land e X86_PTE_PRESENT =? 0 then
        let '(pool, next) := table_new pool in
        reject next =? 0 with Some (m, pool, false);
        m ← store64 m slot (table_entry next);
        Some (m, pool, true)
      else Some (m, pool, true));
      check (ok : bool) else Some (m, pool, None);
      e ← load64 m slot;
      reject negb (Z.land e X86_PTE_LARGE =? 0) with Some (m, pool, None);
      map_page_levels m pool (Z.land e X86_PTE_ADDRESS) virtual_address shifts
  end.

Definition map_page (m : mem) (pool : page_pool)
    (pml4_address virtual_address physical_address flags : Z) : option (mem * page_pool * bool) :=
  '(m, pool, table) ← map_page_levels m pool pml4_address virtual_address [39; 30; 21];
  match table with
  | None => Some (m, pool, false)
  | Some table =>
      let slot := entry_slot table virtual_address 12 in
      e ← load64 m slot;
      reject negb (Z.land e X86_PTE_PRESENT =? 0) with Some (m, pool, false);
      m ← store64 m slot
        (Z.lor (Z.lor (Z.land physical_address X86_PTE_ADDRESS) flags) X86_PTE_PRESENT);
      Some (m, pool, true)
  end.

(** ** The whole tables *)

(** [for (page = ...; page < 512u; page++)] over the first page table. *)
Fixpoint first_pages (m : mem) (first_pt page : Z) (n : nat) : option mem :=
  match n with
  | O => Some m
  | S n =>
      m ← store64 m (first_pt + 8 * page)
        (Z.lor (Z.lor (page * EFI_PAGE_SIZE) X86_PTE_PRESENT) X86_PTE_WRITABLE);
      first_pages m first_pt (page + 1) n
  end.

(** [physical | X86_PTE_PRESENT | X86_PTE_WRITABLE | X86_PTE_LARGE] *)
Definition large_entry (physical : Z) : Z :=
  Z.lor (Z.lor (Z.lor physical X86_PTE_PRESENT) X86_PTE_WRITABLE) X86_PTE_LARGE.

(** One pair of 2 MiB entries; the boolean is [false] for a return of 0. *)
Definition map_2mb (m : mem) (pool : page_pool) (identity_entries hhdm_entries : Z)
    (unmap_null : bool) (gb mb : Z) : option (mem * page_pool * bool) :=
  let physical := gb * 0x40000000 + mb * 0x200000 in
  m ← store64 m (hhdm_entries + 8 * mb) (large_entry physical);
  if negb (physical =? 0) then
    m ← store64 m (identity_entries + 8 * mb) (large_entry physical);
    Some (m, pool, true)
  else
    let '(pool, first_pt) := table_new pool in
    reject first_pt =? 0 with Some (m, pool, false);
    m ← store64 m (identity_entries + 8 * mb) (table_entry first_pt);
    m ← first_pages m first_pt (c_bool unmap_null) (512 - Z.to_nat (c_bool unmap_null));
    Some (m, pool, true).

Fixpoint map_2mbs (m : mem) (pool : page_pool) (identity_entries hhdm_entries : Z)
    (unmap_null : bool) (gb mb : Z) (n : nat) : option (mem * page_pool * bool) :=
  match n with
  | O => Some (m, pool, true)
  | S n =>
      '(m, pool, ok) ← map_2mb m pool identity_entries hhdm_entries unmap_null gb mb;
      check (ok : bool) else Some (m, pool, false);
      map_2mbs m pool identity_entries hhdm_entries unmap_null gb (mb + 1) n
  end.

(** The loop over the gigabytes, [n] of them left. *)
Fixpoint map_gbs (m : mem) (pool : page_pool) (identity_pdpt hhdm_pdpt : Z)
    (unmap_null : bool) (gb : Z) (n : nat) : option (mem * page_pool * bool) :=
  match n with
  | O => Some (m, pool, true)
  | S n =>
      let '(pool, identity_pd) := table_new pool in
      let '(pool, hhdm_pd) := table_new pool in
      reject (identity_pd =? 0) || (hhdm_pd =? 0) with Some (m, pool, false);
      m ← store64 m (identity_pdpt + 8 * gb) (table_entry identity_pd);
      m ← store64 m (hhdm_pdpt + 8 * gb) (table_entry hhdm_pd);
      '(m, pool, ok) ← map_2mbs m pool identity_pd hhdm_pd unmap_null gb 0 512;
      check (ok : bool) else Some (m, pool, false);
      map_gbs m pool identity_pdpt hhdm_pdpt unmap_null (gb + 1) n
  end.

Definition segment_pte_flags (enable_nx : bool) (segment : bbp_elf64_segment_plan) : Z :=
  let flags := if negb (Z.land (s_flags segment) BBP_ELF64_PF_W =? 0) then X86_PTE_WRITABLE else 0 in
  if enable_nx && (Z.land (s_flags segment) BBP_ELF64_PF_X =? 0)
  then Z.lor flags X86_PTE_NX else flags.

(** [virtual_address - delta] *)
Definition segment_virtual_page (segment : bbp_elf64_segment_plan) : Z :=
  let delta := wrap64 (s_physical_address segment - s_page_base segment) in
  wrap64 (s_virtual_address segment - delta).

Fixpoint map_segment_pages (m : mem) (pool : page_pool)
    (pml4_address virtual_page page_base flags page : Z) (n : nat) :
    option (mem * page_pool * bool) :=
  match n with
  | O => Some (m, pool, true)
  | S n =>
      '(m, pool, ok) ← map_page m pool pml4_address
        (wrap64 (virtual_page + page * EFI_PAGE_SIZE))
        (wrap64 (page_base + page * EFI_PAGE_SIZE)) flags;
      check (ok : bool) else Some (m, pool, false);
      map_segment_pages m pool pml4_address virtual_page page_base flags (page + 1) n
  end.

Fixpoint map_segments (m : mem) (pool : page_pool) (pml4_address : Z) (enable_nx : bool)
    (segments : list bbp_elf64_segment_plan) : option (mem * page_pool * bool) :=
  match segments with
  | [] => Some (m, pool, true)
  | segment :: segments =>
      '(m, pool, ok) ← map_segment_pages m pool pml4_address (segment_virtual_page segment)
        (s_page_base segment) (segment_pte_flags enable_nx segment) 0
        (Z.to_nat (s_page_count segment));
      check (ok : bool) else Some (m, pool, false);
      map_segments m pool pml4_address enable_nx segments
  end.

(** [Some pml4] is a return of 1 with [*out_pml4] set, [None] a return of 0. *)
Definition build_page_tables (m : mem) (pool : page_pool) (plan : bbp_elf64_plan)
    (enable_nx unmap_null : bool) : option (mem * page_pool * option Z) :=
  let '(pool, pml4_address) := table_new pool in
  let '(pool, identity_pdpt) := table_new pool in
  let '(pool, hhdm_pdpt) := table_new pool in
  reject (pml4_address =? 0) || (identity_pdpt =? 0) || (hhdm_pdpt =? 0)
    with Some (m, pool, None);
  m ← store64 m pml4_address (table_entry identity_pdpt);
  m ← store64 m (pml4_address + 8 * 256) (table_entry hhdm_pdpt);
  '(m, pool, ok) ← map_gbs m pool identity_pdpt hhdm_pdpt unmap_null 0 4;
  check (ok : bool) else Some (m, pool, None);
  '(m, pool, ok) ← map_segments m pool pml4_address enable_nx (planned plan);
  check (ok : bool) else Some (m, pool, None);
  Some (m, pool, Some pml4_address).

(** ** Translation

    How the processor translates an address with the tables of [m] rooted at
    [pml4]: four levels of nine address bits each, the bits of an entry being
    present (0), writable (1), large (7) and execute-disable (63).  The result
    is [None] if a table lies outside memory, [Some None] for a page fault. *)

Record translation := Translation {
  tr_physical : Z;
  tr_writable : bool;
  tr_no_execute : bool;
}.

#[global] Instance translation_eq_dec : EqDecision translation.
Proof. solve_decision. Defined.

(** [level] tables are still to be read, the next one at [table]. *)
Fixpoint walk_levels (m : mem) (table address : Z) (w nx : bool) (level : nat) :
    option (option translation) :=
  match level with
  | O => Some None
  | S below =>
      let shift := 12 + 9 * Z.of_nat below in
      e ← load64 m (table + 8 * (address / 2 ^ shift mod 512));
      check Z.testbit e 0 else Some None;
      let w := w && Z.testbit e 1 in
      let nx := nx || Z.testbit e 63 in
      let target := Z.land e X86_PTE_ADDRESS in
      if (below =? 0)%nat || ((below <=? 2)%nat && Z.testbit e 7) then
        Some (Some (Translation (target - target mod 2 ^ shift + address mod 2 ^ shift) w nx))
      else walk_levels m target address w nx below
  end.

(** Bits 47 to 63 of the address are equal. *)
Definition canonical_address (address : Z) : Prop :=
  0 <= address < 2 ^ 47 \/ 2 ^ 64 - 2 ^ 47 <= address < 2 ^ 64.

#[global] Instance canonical_address_dec address : Decision (canonical_address address).
Proof. unfold canonical_address. apply _. Defined.

Definition walk (m : mem) (pml4 address : Z) : option (option translation) :=
  check bool_decide (canonical_address address) else Some None;
  walk_levels m pml4 address true false 4.
