(* ===== verification/PagingFacts.v ===== *)
(** * Facts about the loader's page tables

    The tables in memory are related to a finite map of entries: [ents] gives
    the entry of a level for a key, the key of an address at a level being its
    bits above that level.  [tables] says that memory holds such a map, and that
    every linked table is a page of the pool of its own.  The three writes the
    loader makes (a fresh table, a link, a leaf) are one lemma each, with their
    effect on translation. *)

From S2P Require Import Prelude Memory ElfPlan Paging.

(** ** Addresses *)

(** The bits of an address above [below] levels of tables and the page offset. *)
Definition akey (below : nat) (a : Z) : Z := a mod 2 ^ 48 / 2 ^ (12 + 9 * Z.of_nat below).

Lemma akey_range below a : 0 <= akey below a < 2 ^ 36.
Proof.
  unfold akey. pose proof (Z.mod_pos_bound a (2 ^ 48) ltac:(lia)) as H.
  assert (2 ^ 12 <= 2 ^ (12 + 9 * Z.of_nat below)) by (apply Z.pow_le_mono_r; lia).
  set (p := 2 ^ (12 + 9 * Z.of_nat below)) in *.
  split; [apply Z.div_pos; lia|]. apply Z.div_lt_upper_bound; [lia|].
  assert (2 ^ 12 * 2 ^ 36 <= p * 2 ^ 36) by (apply Z.mul_le_mono_nonneg_r; lia). lia.
Qed.

Lemma akey_up below a : akey (S below) a = akey below a / 512.
Proof.
  unfold akey. rewrite Z.div_div by (lia || apply Z.pow_pos_nonneg; lia). f_equal.
  replace (12 + 9 * Z.of_nat (S below)) with (12 + 9 * Z.of_nat below + 9) by lia.
  by rewrite Z.pow_add_r by lia.
Qed.

(** The index the processor takes from the address. *)
Lemma akey_index below a : (below <= 3)%nat ->
  a / 2 ^ (12 + 9 * Z.of_nat below) mod 512 = akey below a mod 512.
Proof.
  intros Hb. unfold akey. apply Z.bits_inj_iff'. intros i Hi. change 512 with (2 ^ 9).
  destruct (decide (i < 9)).
  - rewrite !Z.mod_pow2_bits_low, !Z.div_pow2_bits by lia.
    by rewrite Z.mod_pow2_bits_low by lia.
  - by rewrite !Z.mod_pow2_bits_high by lia.
Qed.

Lemma akey_split below a : (below <= 3)%nat ->
  akey below a = 512 * akey (S below) a + a / 2 ^ (12 + 9 * Z.of_nat below) mod 512.
Proof. intros Hb. rewrite akey_up, akey_index by done. apply Z.div_mod. lia. Qed.

Lemma akey_top a : akey 4 a = 0.
Proof. unfold akey. apply Z.div_small. apply Z.mod_pos_bound. lia. Qed.

(** The index the loader takes from the address. *)
Lemma entry_slot_eq table a below :
  entry_slot table a (12 + 9 * Z.of_nat below) =
  table + 8 * (a / 2 ^ (12 + 9 * Z.of_nat below) mod 512).
Proof.
  unfold entry_slot. rewrite Z.shiftr_div_pow2 by lia. change 0x1ff with (2 ^ 9 - 1).
  by rewrite land_ones_pow2 by lia.
Qed.

(** ** Entries *)

(** A page the address field of an entry can hold. *)
Definition table_page (t : Z) : Prop := 0 <= t < 2 ^ 52 /\ t mod 4096 = 0.

Lemma land_address x : 0 <= x -> Z.land x X86_PTE_ADDRESS = x mod 2 ^ 52 - x mod 4096.
Proof.
  intros Hx. assert (x mod 4096 = x mod 2 ^ 52 mod 2 ^ 12) as ->.
  { change 4096 with (2 ^ 12). rewrite Z.mod_mod_divide; [done|]. by exists (2 ^ 40). }
  rewrite <- Z.land_ones by lia. rewrite <- (Z.land_ones _ 12) by lia.
  rewrite Z.sub_nocarry_ldiff.
  - apply Z.bits_inj_iff'. intros i Hi. rewrite Z.ldiff_spec, !Z.land_spec.
    assert (Z.testbit X86_PTE_ADDRESS i = Z.testbit (Z.ones 52) i && negb (Z.testbit (Z.ones 12) i)) as ->.
    { rewrite <- Z.ldiff_spec. done. }
    by destruct (Z.testbit x i), (Z.testbit (Z.ones 52) i), (Z.testbit (Z.ones 12) i).
  - apply Z.bits_inj_iff'. intros i Hi. rewrite Z.ldiff_spec, !Z.land_spec, Z.bits_0.
    by destruct (Z.testbit x i), (Z.testbit (Z.ones 52) i), (Z.testbit (Z.ones 12) i).
Qed.

Lemma land_address_page t : table_page t -> Z.land t X86_PTE_ADDRESS = t.
Proof. intros [? H]. rewrite land_address by lia. rewrite H, Z.mod_small by lia. lia. Qed.

(** The low bits of a page address are clear. *)
Lemma page_testbit t i : t mod 4096 = 0 -> 0 <= i < 12 -> Z.testbit t i = false.
Proof.
  intros H Hi. rewrite <- (Z.mod_pow2_bits_low t 12 i) by lia. change (2 ^ 12) with 4096.
  by rewrite H, Z.bits_0.
Qed.

Lemma high_testbit t i : 0 <= t < 2 ^ 52 -> 52 <= i -> Z.testbit t i = false.
Proof. intros H Hi. by apply (in_word_testbit 52). Qed.

(** An entry: a page and flag bits outside the address field. *)
Definition flag_bits (f : Z) : Prop := 0 <= f < 2 ^ 64 /\ Z.land f X86_PTE_ADDRESS = 0.

Lemma entry_address t f : table_page t -> flag_bits f -> Z.land (Z.lor t f) X86_PTE_ADDRESS = t.
Proof. intros Ht [_ Hf]. by rewrite Z.land_lor_distr_l, Hf, Z.lor_0_r, land_address_page. Qed.

Lemma entry_bit t f i : table_page t -> 0 <= i < 12 \/ 52 <= i -> Z.testbit (Z.lor t f) i = Z.testbit f i.
Proof.
  intros [Ht Hm] Hi. rewrite Z.lor_spec.
  destruct Hi as [Hi|Hi]; [rewrite page_testbit by done|rewrite high_testbit by done]; done.
Qed.

Lemma entry_word t f : table_page t -> flag_bits f -> in_word 64 (Z.lor t f).
Proof.
  intros [Ht _] [Hf _]. apply lor_in_word; [lia| |done]. unfold in_word. lia.
Qed.

Lemma table_entry_eq t : table_entry t = Z.lor t 3.
Proof. unfold table_entry. by rewrite <- Z.lor_assoc. Qed.

Lemma large_entry_eq t : large_entry t = Z.lor t 0x83.
Proof. unfold large_entry. by rewrite <- !Z.lor_assoc. Qed.

Lemma land_present e : (Z.land e X86_PTE_PRESENT =? 0) = negb (Z.testbit e 0).
Proof.
  unfold X86_PTE_PRESENT. change 1 with (Z.ones 1). rewrite Z.land_ones by lia.
  change (2 ^ 1) with 2. rewrite <- Z.bit0_mod. by destruct (Z.testbit e 0).
Qed.

(** ** Entry maps *)

Abbreviation ents := (gmap (nat * Z) Z).

Definition entry_at (E : ents) (level : nat) (q : Z) : Z := default 0 (E !! (level, q)).

Lemma entry_at_Some E j q e : E !! (j, q) = Some e -> entry_at E j q = e.
Proof. unfold entry_at. by intros ->. Qed.

Lemma entry_at_None E j q : E !! (j, q) = None -> entry_at E j q = 0.
Proof. unfold entry_at. by intros ->. Qed.

(** Does the entry of that level end the translation? *)
Definition is_leaf (level : nat) (e : Z) : bool :=
  (level =? 1)%nat || ((level <=? 3)%nat && Z.testbit e 7).

Definition leaf_at (below : nat) (e a : Z) (w nx : bool) : translation :=
  let shift := 12 + 9 * Z.of_nat below in
  let target := Z.land e X86_PTE_ADDRESS in
  Translation (target - target mod 2 ^ shift + a mod 2 ^ shift)
    (w && Z.testbit e 1) (nx || Z.testbit e 63).

Fixpoint walk_ents (E : ents) (a : Z) (w nx : bool) (level : nat) : option translation :=
  match level with
  | O => None
  | S below =>
      let e := entry_at E level (akey below a) in
      check Z.testbit e 0 else None;
      if is_leaf level e then Some (leaf_at below e a w nx)
      else walk_ents E a (w && Z.testbit e 1) (nx || Z.testbit e 63) below
  end.

(** The translation from the root. *)
Definition translate (E : ents) (a : Z) : option translation := walk_ents E a true false 4.

(** Every entry is present, every entry that is not a leaf links a table for
    writing, and lies below another such entry. *)
Record closed (E : ents) : Prop := Closed {
  cl_entry : forall j q e, E !! (j, q) = Some e ->
    (1 <= j <= 4)%nat /\ Z.testbit e 0 = true /\
    (is_leaf j e = false -> exists t, table_page t /\ e = table_entry t);
  cl_parent : forall j q e, E !! (j, q) = Some e -> (j < 4)%nat ->
    exists e', E !! (S j, q / 512) = Some e' /\ is_leaf (S j) e' = false;
}.

Lemma table_entry_bits t : table_page t ->
  Z.testbit (table_entry t) 0 = true /\ Z.testbit (table_entry t) 1 = true /\
  Z.testbit (table_entry t) 7 = false /\ Z.testbit (table_entry t) 63 = false /\
  Z.land (table_entry t) X86_PTE_ADDRESS = t /\ in_word 64 (table_entry t).
Proof.
  intros Ht. rewrite table_entry_eq, !entry_bit by (done || lia).
  assert (flag_bits 3) by done. by rewrite entry_address by done; split_and!; try apply entry_word.
Qed.

Lemma table_entry_link t j : table_page t -> (2 <= j)%nat -> is_leaf j (table_entry t) = false.
Proof.
  intros Ht Hj. unfold is_leaf. destruct (table_entry_bits t Ht) as (_ & _ & -> & _).
  rewrite andb_false_r, orb_false_r. apply Nat.eqb_neq. lia.
Qed.

(** The tables above [level] lead to the entry of [a]. *)
Definition reached (E : ents) (a : Z) (level : nat) : Prop :=
  level = 4%nat \/ exists e, E !! (S level, akey level a) = Some e /\ is_leaf (S level) e = false.

Lemma reached_up E a level : closed E -> (level < 4)%nat -> reached E a level -> reached E a (S level).
Proof.
  intros [_ Hp] Hl [->|(e & He & _)]; [lia|]. destruct (decide (S level = 4%nat)); [by left|right].
  rewrite akey_up. apply (Hp _ _ _ He). lia.
Qed.

Lemma translate_reached E a level :
  closed E -> (level <= 4)%nat -> reached E a level -> translate E a = walk_ents E a true false level.
Proof.
  intros Hc Hl. remember (4 - level)%nat as n eqn:Hn. revert level Hl Hn.
  induction n as [|n IH]; intros level Hl Hn Hr.
  - by assert (level = 4%nat) as -> by lia.
  - rewrite (IH (S level)) by (lia || by apply reached_up; [|lia|]).
    destruct Hr as [->|(e & He & Hle)]; [lia|]. cbn [walk_ents]. rewrite (entry_at_Some _ _ _ _ He).
    destruct (cl_entry _ Hc _ _ _ He) as (_ & Hp & Ht). destruct (Ht Hle) as (t & Htp & ->).
    rewrite Hle. by destruct (table_entry_bits t Htp) as (-> & -> & _ & -> & _).
Qed.

(** Translation of an address reads only the entries with its keys. *)
Lemma walk_ents_insert_ne E j q e a w nx level :
  akey (j - 1) a <> q -> walk_ents (<[(j, q) := e]> E) a w nx level = walk_ents E a w nx level.
Proof.
  intros Hne. revert w nx. induction level as [|below IH]; intros w nx; [done|]. cbn [walk_ents].
  assert (entry_at (<[(j, q):=e]> E) (S below) (akey below a) = entry_at E (S below) (akey below a)) as ->.
  { unfold entry_at. rewrite lookup_insert_ne; [done|]. intros [= -> ->]. apply Hne.
    by rewrite Nat.sub_succ, Nat.sub_0_r. }
  by rewrite IH.
Qed.

(** Is there a table for the entry (j, q)? *)
Definition has_parent (E : ents) (j : nat) (q : Z) : Prop :=
  j = 4%nat \/ exists e, E !! (S j, q / 512) = Some e /\ is_leaf (S j) e = false.

Lemma has_parent_reached E below a : has_parent E (S below) (akey below a) <-> reached E a (S below).
Proof. unfold has_parent, reached. by rewrite akey_up. Qed.

Lemma closed_insert E j q e :
  closed E -> (1 <= j <= 4)%nat -> has_parent E j q -> E !! (j, q) = None -> Z.testbit e 0 = true ->
  (is_leaf j e = false -> exists t, table_page t /\ e = table_entry t) -> closed (<[(j, q) := e]> E).
Proof.
  intros [He Hp] Hj Hpar Hnone Hpres Hlink. split.
  - intros j' q' e' H. destruct (decide ((j, q) = (j', q'))) as [[= <- <-]|Hne].
    + rewrite lookup_insert_eq in H. by injection H as <-.
    + rewrite lookup_insert_ne in H by done. by apply He in H.
  - intros j' q' e' H Hlt. rewrite lookup_insert_ne.
    + destruct (decide ((j, q) = (j', q'))) as [[= <- <-]|Hne].
      * destruct Hpar as [->|Hpar]; [lia|done].
      * rewrite lookup_insert_ne in H by done. by apply Hp in H.
    + intros [= -> ->]. destruct (decide ((S j', q' / 512) = (j', q'))) as [[= ?]|Hne]; [lia|].
      rewrite lookup_insert_ne in H by done. apply Hp in H as (e0 & H & _); [congruence|done].
Qed.

(** A new link translates nothing yet. *)
Lemma translate_link E j q t a :
  closed E -> (2 <= j <= 4)%nat -> has_parent E j q -> E !! (j, q) = None -> table_page t ->
  translate (<[(j, q) := table_entry t]> E) a = translate E a.
Proof.
  intros Hc Hj Hpar Hnone Ht. destruct (decide (akey (j - 1) a = q)) as [<-|Hne];
    [|by apply walk_ents_insert_ne].
  destruct j as [|below]; [lia|]. rewrite Nat.sub_succ, Nat.sub_0_r in *. apply has_parent_reached in Hpar.
  rewrite (translate_reached E a (S below)) by (done || lia).
  assert (closed (<[(S below, akey below a) := table_entry t]> E)) as Hc'.
  { apply closed_insert; try (done || lia).
    - by apply has_parent_reached.
    - by apply table_entry_bits.
    - intros _. by exists t. }
  rewrite (translate_reached _ a below) by
    (done || lia || (right; exists (table_entry t); rewrite lookup_insert_eq; split; [done|];
       by apply table_entry_link; [|lia])).
  cbn [walk_ents]. rewrite (entry_at_None E) by done. rewrite Z.bits_0.
  destruct below as [|below]; [lia|]. cbn [walk_ents]. unfold entry_at.
  rewrite lookup_insert_ne by (intros [= ?]; lia).
  destruct (E !! (S below, akey below a)) as [e|] eqn:He; [|done]. exfalso.
  destruct (cl_parent _ Hc _ _ _ He) as (e' & He' & _); [lia|]. rewrite <- akey_up in He'. congruence.
Qed.

(** A new leaf translates the addresses with its key and no other. *)
Lemma translate_leaf E below q e a :
  closed E -> (below <= 2)%nat -> has_parent E (S below) q -> E !! (S below, q) = None ->
  Z.testbit e 0 = true -> is_leaf (S below) e = true ->
  translate (<[(S below, q) := e]> E) a =
  if decide (akey below a = q) then Some (leaf_at below e a true false) else translate E a.
Proof.
  intros Hc Hb Hpar Hnone Hp Hl. destruct (decide _) as [<-|Hne].
  - assert (closed (<[(S below, akey below a) := e]> E)) as Hc'.
    { apply closed_insert; try (done || lia). by rewrite Hl. }
    rewrite (translate_reached _ a (S below)); [|done|lia|].
    + cbn [walk_ents]. rewrite (entry_at_Some _ _ _ e) by apply lookup_insert_eq. by rewrite Hp, Hl.
    + apply has_parent_reached in Hpar. destruct Hpar as [?|Hpar]; [lia|right].
      rewrite lookup_insert_ne; [done|]. intros [= ?]. lia.
  - apply walk_ents_insert_ne. by rewrite Nat.sub_succ, Nat.sub_0_r.
Qed.
