(* ===== verification/PagingTables.v ===== *)
(** * Page tables in memory

    [tables] relates the pool's memory to a map of entries: which tables are
    linked ([tbl], from a level and a key to the table's address), what their
    entries are ([E]), and which pages are taken from the pool but not linked
    yet ([rs]).  The processor's walk of such a memory is [translate], and the
    loader's writes keep the relation. *)

From S2P Require Import Prelude Memory ElfPlan Paging PagingFacts.

(** ** The relation *)

Record pool_ok (m : mem) (pool : page_pool) : Prop := PoolOk {
  po_base : 0 < pool_base pool /\ pool_base pool mod 4096 = 0;
  po_used : 0 <= pool_used pool <= pool_count pool;
  po_limit : pool_base pool + 4096 * pool_count pool <= 2 ^ 52;
  po_mapped : mapped m (pool_base pool) (4096 * pool_count pool);
  po_blank : forall x, pool_base pool + 4096 * pool_used pool <= x < pool_base pool + 4096 * pool_count pool ->
    m !! x = Some x00;
}.

(** A page that has been taken from the pool. *)
Definition taken (pool : page_pool) (t : Z) : Prop :=
  exists k, 0 <= k < pool_used pool /\ t = pool_base pool + 4096 * k.

Record tables (m : mem) (pool : page_pool) (root : Z) (tbl : gmap (nat * Z) Z) (E : ents)
    (rs : list Z) : Prop := Tables {
  tb_pool : pool_ok m pool;
  tb_closed : closed E;
  tb_root : tbl !! (4%nat, 0) = Some root;
  tb_taken : forall k t, tbl !! k = Some t -> taken pool t;
  tb_inj : forall k k' t, tbl !! k = Some t -> tbl !! k' = Some t -> k = k';
  tb_entry : forall j p t i, tbl !! (j, p) = Some t -> 0 <= i < 512 ->
    load64 m (t + 8 * i) = Some (entry_at E j (512 * p + i));
  tb_child : forall j q e, E !! (S j, q) = Some e -> is_leaf (S j) e = false ->
    tbl !! (j, q) = Some (Z.land e X86_PTE_ADDRESS);
  tb_linked : forall j p t, tbl !! (j, p) = Some t -> (j, p) = (4%nat, 0) \/
    (1 <= j)%nat /\ E !! (S j, p) = Some (table_entry t);
  tb_reserved : forall t, In t rs -> taken pool t /\ (forall k, tbl !! k <> Some t) /\
    bytes_at m t (replicate 4096 x00);
  tb_distinct : NoDup rs;
  tb_count : pool_used pool = Z.of_nat (size tbl) + zlen rs;
}.

Lemma taken_bounds m pool t : pool_ok m pool -> taken pool t ->
  table_page t /\ pool_base pool <= t /\ t + 4096 <= pool_base pool + 4096 * pool_used pool.
Proof.
  intros [[? Hb] ? ? _ _] (k & Hk & ->). unfold table_page. split_and!; try lia.
  by rewrite Z.mul_comm, Z.mod_add by lia.
Qed.

Lemma taken_apart m pool t u : pool_ok m pool -> taken pool t -> taken pool u ->
  t = u \/ t + 4096 <= u \/ u + 4096 <= t.
Proof. intros _ (k & ? & ->) (k' & ? & ->). lia. Qed.

(** ** The walk *)

Lemma walk_levels_ents m pool root tbl E rs a : tables m pool root tbl E rs -> forall level table w nx,
  (level <= 4)%nat -> tbl !! (level, akey level a) = Some table ->
  walk_levels m table a w nx level = Some (walk_ents E a w nx level).
Proof.
  intros Ht. induction level as [|below IH]; intros table w nx Hl Htab; [done|]. cbn [walk_levels walk_ents].
  pose proof (Z.mod_pos_bound (a / 2 ^ (12 + 9 * Z.of_nat below)) 512 ltac:(lia)).
  rewrite (tb_entry _ _ _ _ _ _ Ht _ _ _ _ Htab) by done. rewrite <- akey_split by lia. cbn [mbind option_bind].
  set (e := entry_at E (S below) (akey below a)).
  assert (is_leaf (S below) e = (below =? 0)%nat || ((below <=? 2)%nat && Z.testbit e 7)) as <- by done.
  destruct (Z.testbit e 0) eqn:Hp; [|done]. destruct (is_leaf (S below) e) eqn:Hle; [done|].
  apply IH; [lia|]. apply (tb_child _ _ _ _ _ _ Ht); [|done].
  unfold e, entry_at in *. destruct (E !! (S below, akey below a)) as [e'|] eqn:He; [done|].
  done.
Qed.

Lemma walk_translate m pool root tbl E rs a :
  tables m pool root tbl E rs -> canonical_address a -> walk m root a = Some (translate E a).
Proof.
  intros Ht Ha. unfold walk. rewrite bool_decide_eq_true_2 by done.
  eapply walk_levels_ents; [exact Ht|lia|]. rewrite akey_top. apply Ht.
Qed.

(** Only the pool's memory matters. *)
Lemma tables_same m m2 pool root tbl E rs :
  tables m pool root tbl E rs -> same_on m m2 (pool_base pool) (4096 * pool_count pool) ->
  tables m2 pool root tbl E rs.
Proof.
  intros Ht Hs. pose proof Ht as [Hp Hc Hr Htk Hinj Hent Hch Hl Hrs Hd Hn]. pose proof Hp as [? ? ? Hm Hz].
  assert (forall t, taken pool t -> same_on m m2 t 4096) as Hpage.
  { intros t Htt. destruct (taken_bounds _ _ _ Hp Htt) as (_ & ? & ?). eapply same_on_sub; [exact Hs|lia|lia]. }
  split; try done.
  - split; try done; intros x Hx; rewrite Hs by lia; [by apply Hm|by apply Hz].
  - intros j p t i Htab Hi. unfold load64. rewrite (load_le_same_on m m2); [by apply Hent|].
    eapply same_on_sub; [by eapply Hpage, Htk|lia|lia].
  - intros t Hin. destruct (Hrs t Hin) as (Htt & Hno & Hb). split_and!; [done|done|].
    eapply bytes_at_same_on; [|exact Hb]. rewrite zlen_replicate. by apply Hpage.
Qed.

(** ** A fresh table *)

Lemma table_new_spec m pool root tbl E rs :
  tables m pool root tbl E rs ->
  if decide (pool_used pool = pool_count pool) then table_new pool = (pool, 0)
  else exists t, table_new pool = (PagePool (pool_base pool) (pool_used pool + 1) (pool_count pool), t) /\
    0 < t /\
    tables m (PagePool (pool_base pool) (pool_used pool + 1) (pool_count pool)) root tbl E (rs ++ [t]).
Proof.
  intros Ht. unfold table_new. destruct (decide _) as [->|Hne]; [by rewrite Z.eqb_refl|].
  rewrite (proj2 (Z.eqb_neq _ _) Hne). destruct Ht as [Hp Hc Hr Htk Hi He Hch Hl Hrs Hd Hn].
  pose proof Hp as [[Hb0 Hb] Hu Hlim Hm Hz]. unfold EFI_PAGE_SIZE.
  rewrite wrap_small by (unfold in_word; lia). eexists. split; [done|]. split; [lia|].
  set (pool' := PagePool _ _ _). set (t := _ + _ * _).
  assert (forall u, taken pool u -> taken pool' u) as Hmono by (intros u (k & ? & ->); exists k; cbn; lia).
  assert (forall u, taken pool u -> u <> t) as Hfresh by (intros u (k & ? & ->); unfold t; lia).
  split; try done.
  - split; cbn; try done; [lia|]. intros x Hx. apply Hz. lia.
  - intros k u Hk. by apply Hmono, (Htk k).
  - intros u Hin. apply in_app_iff in Hin as [Hin|[<-|[]]].
    + destruct (Hrs u Hin) as (? & ? & ?). by split_and!; [apply Hmono|..].
    + split_and!.
      * exists (pool_used pool). unfold t. cbn. lia.
      * intros k Hk. by apply (Hfresh t); [apply (Htk k)|].
      * intros i b Hib. apply lookup_replicate in Hib as [-> Hib]. apply Hz. unfold t. lia.
  - apply NoDup_app. split_and!; [done| |apply NoDup_singleton].
    intros u Hu' Hin. apply list_elem_of_singleton in Hin as ->. apply list_elem_of_In, Hrs in Hu' as [Hu' _].
    by apply (Hfresh t).
  - cbn. rewrite zlen_app. change (zlen [t]) with 1. lia.
Qed.

(** ** Writing an entry *)

Lemma load64_of_zeros m t i : bytes_at m t (replicate 4096 x00) -> 0 <= i < 512 -> load64 m (t + 8 * i) = Some 0.
Proof.
  intros H Hi. apply (bytes_at_load_le _ _ 8); [done|]. intros n b Hn.
  apply (lookup_replicate 8 x00) in Hn as [-> Hn].
  replace (t + 8 * i + Z.of_nat n) with (t + Z.of_nat (Z.to_nat (8 * i) + n)) by lia.
  apply H, lookup_replicate. split; [done|lia].
Qed.

(** The store of one entry: what it changes and what it leaves. *)
Lemma store_entry m pool root tbl E rs j p t i e :
  tables m pool root tbl E rs -> tbl !! (j, p) = Some t -> 0 <= i < 512 -> in_word 64 e ->
  exists m', store64 m (t + 8 * i) e = Some m' /\ frame (t + 8 * i) 8 m m' /\
    pool_ok m' pool /\ frame (pool_base pool) (4096 * pool_count pool) m m' /\
    (forall j' p' t' i', tbl !! (j', p') = Some t' -> 0 <= i' < 512 ->
      load64 m' (t' + 8 * i') = Some (entry_at (<[(j, 512 * p + i) := e]> E) j' (512 * p' + i'))) /\
    (forall u, In u rs -> bytes_at m' u (replicate 4096 x00)).
Proof.
  intros Ht Htab Hi He. pose proof Ht as [Hp Hc Hr Htk Hinj Hent Hch Hl Hrs Hd Hn].
  pose proof Hp as [[Hb0 Hb] Hu Hlim Hm Hz].
  destruct (taken_bounds m pool t Hp) as (_ & ? & ?); [by apply (Htk (j, p))|].
  destruct (store_bytes_mapped m (t + 8 * i) (le_encode 8 e)) as [m' Hst].
  { rewrite zlen_le_encode. eapply mapped_sub; [exact Hm|lia|lia]. }
  exists m'. pose proof (frame_store _ _ _ _ Hst) as F. rewrite zlen_le_encode in F. change (Z.of_nat 8) with 8 in F.
  assert (frame (pool_base pool) (4096 * pool_count pool) m m') as FP by (eapply frame_weaken; [exact F|lia|lia]).
  split_and!; [done|done| |done| |].
  - split; try done; [by eapply frame_mapped|]. intros x Hx. rewrite (proj2 F) by lia. by apply Hz.
  - intros j' p' t' i' Htab' Hi'.
    destruct (decide ((j', 512 * p' + i') = (j, 512 * p + i))) as [[= -> Heq]|Hne].
    + assert (p' = p /\ i' = i) as [-> ->] by lia. rewrite Htab in Htab'. injection Htab' as <-.
      rewrite (entry_at_Some _ _ _ e) by apply lookup_insert_eq.
      apply (bytes_at_load_le _ _ 8); [done|]. by eapply store_bytes_at.
    + unfold entry_at. rewrite lookup_insert_ne by done. fold (entry_at E j' (512 * p' + i')).
      rewrite <- (Hent _ _ _ _ Htab' Hi'). unfold load64. apply load_le_same_on. intros x Hx.
      apply F. destruct (taken_apart m pool t t' Hp) as [<-|Hap]; [by apply (Htk (j, p))|by apply (Htk (j', p'))| |lia].
      assert ((j, p) = (j', p')) as [= <- <-] by (by eapply Hinj). intros ?. apply Hne. do 2 f_equal. lia.
  - intros u Hin. destruct (Hrs u Hin) as (Hu' & Hno & Hzu). eapply frame_bytes_at; [exact F| |done].
    rewrite zlen_replicate. destruct (taken_apart m pool t u Hp) as [->|]; [by apply (Htk (j, p))|done| |lia].
    by destruct (Hno (j, p)).
Qed.

(** [512 p + i] is the key of entry [i] of the table with key [p]. *)
Lemma key_div p i : 0 <= i < 512 -> (512 * p + i) / 512 = p.
Proof. intros. rewrite Z.add_comm, Z.mul_comm, Z.div_add by lia. rewrite Z.div_small by lia. lia. Qed.

(** A linked table has a parent entry. *)
Lemma table_parent m pool root tbl E rs j p t i :
  tables m pool root tbl E rs -> tbl !! (j, p) = Some t -> 0 <= i < 512 ->
  (1 <= j <= 4)%nat /\ has_parent E j (512 * p + i).
Proof.
  intros Ht Htab Hi. unfold has_parent. rewrite key_div by done.
  destruct (taken_bounds m pool t (tb_pool _ _ _ _ _ _ Ht)) as (Hpg & _ & _); [by apply (tb_taken _ _ _ _ _ _ Ht (j, p))|].
  destruct (tb_linked _ _ _ _ _ _ Ht _ _ _ Htab) as [[= -> ->]|[Hj Hlk]]; [split; [lia|by left]|].
  destruct (cl_entry _ (tb_closed _ _ _ _ _ _ Ht) _ _ _ Hlk) as (? & _ & _).
  split; [lia|right]. eexists. split; [done|]. apply table_entry_link; [done|lia].
Qed.

(** Linking the first reserved table. *)
Lemma link_step m pool root tbl E rs j p u t i :
  tables m pool root tbl E (t :: rs) -> tbl !! (S j, p) = Some u -> (1 <= j)%nat -> 0 <= i < 512 ->
  E !! (S j, 512 * p + i) = None ->
  exists m', store64 m (u + 8 * i) (table_entry t) = Some m' /\
    frame (pool_base pool) (4096 * pool_count pool) m m' /\
    tables m' pool root (<[(j, 512 * p + i) := t]> tbl) (<[(S j, 512 * p + i) := table_entry t]> E) rs /\
    (forall a, translate (<[(S j, 512 * p + i) := table_entry t]> E) a = translate E a).
Proof.
  intros Ht Htab Hj Hi Hnone. pose proof Ht as [Hp Hc Hr Htk Hinj Hent Hch Hl Hrs Hd Hn].
  destruct (Hrs t) as (Httk & Htno & Htz); [by left|].
  destruct (taken_bounds m pool t Hp Httk) as (Hpg & _ & _).
  destruct (table_entry_bits t Hpg) as (Hb0 & _ & _ & _ & Haddr & Hw).
  destruct (table_parent _ _ _ _ _ _ _ _ _ _ Ht Htab Hi) as (Hj4 & Hpar).
  assert (tbl !! (j, 512 * p + i) = None) as Hfree.
  { destruct (tbl !! (j, 512 * p + i)) as [v|] eqn:Hv; [|done].
    apply Hl in Hv as [[= -> ?]|[_ Hv]]; [lia|congruence]. }
  destruct (store_entry _ _ _ _ _ _ _ _ _ i (table_entry t) Ht Htab Hi Hw)
    as (m' & Hst & F & Hp' & FP & Hent' & Hrs').
  exists m'. split_and!; [done|done| |intros a; apply translate_link; try done; lia].
  apply NoDup_cons in Hd as [Hnd Hd]. split; try done.
  - apply closed_insert; try done. intros _. by exists t.
  - rewrite lookup_insert_ne; [done|]. intros [= ->]. lia.
  - intros k v. destruct (decide (k = (j, 512 * p + i))) as [->|Hne].
    + rewrite lookup_insert_eq. by intros [= <-].
    + rewrite lookup_insert_ne by done. apply Htk.
  - intros k k' v. destruct (decide (k = (j, 512 * p + i))) as [->|Hne], (decide (k' = (j, 512 * p + i))) as [->|Hne'];
      rewrite ?lookup_insert_eq, ?lookup_insert_ne by done; [done| | |apply Hinj].
    + intros [= <-] H. by apply Htno in H.
    + intros H [= <-]. by apply Htno in H.
  - intros j' p' t' i' Htab' Hi'. destruct (decide ((j', p') = (j, 512 * p + i))) as [[= -> ->]|Hne].
    + rewrite lookup_insert_eq in Htab'. injection Htab' as <-.
      rewrite entry_at_None; [by apply load64_of_zeros; [apply Hrs'; left|]|].
      rewrite lookup_insert_ne by (intros [= ?]; lia).
      destruct (E !! (j, 512 * (512 * p + i) + i')) as [e|] eqn:He; [|done].
      destruct (cl_parent _ Hc _ _ _ He) as (e' & He' & _); [lia|]. rewrite key_div in He' by done. congruence.
    + rewrite lookup_insert_ne in Htab' by done. by apply Hent'.
  - intros j' q' e'. destruct (decide ((S j', q') = (S j, 512 * p + i))) as [[= -> ->]|Hne].
    + rewrite lookup_insert_eq. intros [= <-] _. by rewrite Haddr, lookup_insert_eq.
    + rewrite lookup_insert_ne by done. intros He Hle. rewrite lookup_insert_ne by congruence. by apply Hch.
  - intros j' p' t' Htab'. destruct (decide ((j', p') = (j, 512 * p + i))) as [[= -> ->]|Hne].
    + rewrite lookup_insert_eq in Htab'. injection Htab' as <-. right. by rewrite lookup_insert_eq.
    + rewrite lookup_insert_ne in Htab' by done. apply Hl in Htab' as [?|[? ?]]; [by left|right].
      rewrite lookup_insert_ne by congruence. done.
  - intros v Hv. destruct (Hrs v) as (? & Hno & _); [by right|]. split_and!; [done| |by apply Hrs'; right].
    intros k. destruct (decide (k = (j, 512 * p + i))) as [->|Hne].
    + rewrite lookup_insert_eq. intros [= <-]. by apply Hnd, list_elem_of_In.
    + rewrite lookup_insert_ne by done. apply Hno.
  - rewrite Hn, zlen_cons, map_size_insert_None by done. lia.
Qed.

(** Writing a leaf. *)
Lemma leaf_step m pool root tbl E rs below p u i e :
  tables m pool root tbl E rs -> tbl !! (S below, p) = Some u -> (below <= 2)%nat -> 0 <= i < 512 ->
  E !! (S below, 512 * p + i) = None -> in_word 64 e -> Z.testbit e 0 = true -> is_leaf (S below) e = true ->
  exists m', store64 m (u + 8 * i) e = Some m' /\
    frame (pool_base pool) (4096 * pool_count pool) m m' /\
    tables m' pool root tbl (<[(S below, 512 * p + i) := e]> E) rs /\
    (forall a, translate (<[(S below, 512 * p + i) := e]> E) a =
       if decide (akey below a = 512 * p + i) then Some (leaf_at below e a true false) else translate E a).
Proof.
  intros Ht Htab Hb Hi Hnone Hw Hb0 Hle. pose proof Ht as [Hp Hc Hr Htk Hinj Hent Hch Hl Hrs Hd Hn].
  destruct (table_parent _ _ _ _ _ _ _ _ _ _ Ht Htab Hi) as (Hj4 & Hpar).
  destruct (store_entry _ _ _ _ _ _ _ _ _ i e Ht Htab Hi Hw) as (m' & Hst & F & Hp' & FP & Hent' & Hrs').
  exists m'. split_and!; [done|done| |intros a; by apply translate_leaf]. split; try done.
  - apply closed_insert; try done. congruence.
  - intros j' q' e'. destruct (decide ((S j', q') = (S below, 512 * p + i))) as [[= -> ->]|Hne].
    + rewrite lookup_insert_eq. intros [= <-]. congruence.
    + rewrite lookup_insert_ne by done. apply Hch.
  - intros j' p' t' Htab'. destruct (Hl _ _ _ Htab') as [?|[Hj Hlk]]; [by left|right].
    rewrite lookup_insert_ne; [done|]. intros [= <- <-]. congruence.
  - intros v Hv. destruct (Hrs v Hv) as (? & ? & _). by split_and!; [..|apply Hrs'].
Qed.
