(* ===== verification/PagingMap.v ===== *)
(** * Mapping single pages

    [map_page] succeeds exactly when the page is not translated yet and the
    pool has a page for every table that is missing on the way; it then adds
    that one translation.  [map_pages] does so for a list of pages, which is
    what the loop over the segments comes to. *)

From S2P Require Import Prelude Memory ElfPlan Paging PagingFacts PagingTables.

Definition same_pool (p q : page_pool) : Prop :=
  pool_base q = pool_base p /\ pool_count q = pool_count p.

#[global] Instance same_pool_equiv : Equivalence same_pool.
Proof. split; unfold same_pool; [done|by intros ?? [-> ->]|intros ??? [-> ->] [-> ->]; done]. Qed.

Definition pool_frame (pool : page_pool) : mem -> mem -> Prop :=
  frame (pool_base pool) (4096 * pool_count pool).

Lemma pool_frame_same pool pool' m m' : same_pool pool pool' -> pool_frame pool' m m' -> pool_frame pool m m'.
Proof. unfold pool_frame. by intros [-> ->]. Qed.

(** The keys of the tables below [level] that lead to [a]. *)
Fixpoint path_keys (level : nat) (a : Z) : gset (nat * Z) :=
  match level with
  | S (S below as level) => {[(level, akey level a)]} ∪ path_keys level a
  | _ => ∅
  end.

(** The shifts of the levels from [level] down to the second. *)
Fixpoint level_shifts (level : nat) : list Z :=
  match level with
  | S (S below as level) => 12 + 9 * Z.of_nat level :: level_shifts level
  | _ => []
  end.

(** Below a missing link there is nothing. *)
Lemma unlinked_none E j q i :
  closed E -> (j < 4)%nat -> E !! (S j, q) = None -> 0 <= i < 512 -> E !! (j, 512 * q + i) = None.
Proof.
  intros Hc Hj Hn Hi. destruct (E !! (j, 512 * q + i)) as [e|] eqn:He; [|done].
  destruct (cl_parent _ Hc _ _ _ He Hj) as (e' & He' & _). rewrite key_div in He' by done. congruence.
Qed.

Lemma tables_size m pool root tbl E : tables m pool root tbl E [] -> pool_used pool = Z.of_nat (size (dom tbl)).
Proof. intros Ht. rewrite (tb_count _ _ _ _ _ _ Ht), size_dom, zlen_nil. lia. Qed.

Lemma size_union_new {A} `{Countable A} (X Y : gset A) x :
  x ∉ X -> (size X < size (X ∪ ({[x]} ∪ Y)))%nat.
Proof. intros Hx. apply subset_size. set_solver. Qed.

(** The entry of [a] in a linked table. *)
Lemma table_load m pool root tbl E rs below a t :
  tables m pool root tbl E rs -> (below <= 3)%nat -> tbl !! (S below, akey (S below) a) = Some t ->
  load64 m (entry_slot t a (12 + 9 * Z.of_nat below)) = Some (entry_at E (S below) (akey below a)) /\
  reached E a (S below).
Proof.
  intros Ht Hb Htab. pose proof (Z.mod_pos_bound (a / 2 ^ (12 + 9 * Z.of_nat below)) 512 ltac:(lia)).
  rewrite entry_slot_eq, (tb_entry _ _ _ _ _ _ Ht _ _ _ _ Htab) by done. rewrite <- akey_split by done.
  split; [done|]. apply has_parent_reached. rewrite akey_split by done. by eapply table_parent.
Qed.

Lemma entry_present E j q : closed E -> Z.testbit (entry_at E j q) 0 = true ->
  E !! (j, q) = Some (entry_at E j q).
Proof. intros _. unfold entry_at. by destruct (E !! (j, q)). Qed.

Lemma entry_absent E j q : closed E -> Z.testbit (entry_at E j q) 0 = false -> E !! (j, q) = None.
Proof.
  intros Hc. unfold entry_at. destruct (E !! (j, q)) as [e|] eqn:He; [|done].
  destruct (cl_entry _ Hc _ _ _ He) as (_ & Hp & _). change (Z.testbit e 0 = false -> Some e = None). congruence.
Qed.

(** ** Down to the last table *)

Section Level.
Context (root a : Z).

(** What the descent leaves: the last table, or the reason there is none. *)
Definition descended (m : mem) (pool : page_pool) (tbl : gmap (nat * Z) Z) (E : ents) (level : nat)
    (out : option (mem * page_pool * option Z)) : Prop :=
  exists m' pool' r, out = Some (m', pool', r) /\ pool_frame pool m m' /\ same_pool pool pool' /\
    match r with
    | Some t => exists tbl' E',
        tables m' pool' root tbl' E' [] /\ tbl' !! (1%nat, akey 1 a) = Some t /\
        dom tbl' = dom tbl ∪ path_keys level a /\ (forall b, translate E' b = translate E b)
    | None => translate E a <> None \/ pool_count pool < Z.of_nat (size (dom tbl ∪ path_keys level a))
    end.

Lemma descended_after m m1 pool pool1 tbl tbl1 E E1 level out :
  pool_frame pool m m1 -> same_pool pool pool1 -> (2 <= level)%nat ->
  dom tbl1 = dom tbl ∪ {[((level - 1)%nat, akey (level - 1) a)]} ->
  (forall b, translate E1 b = translate E b) ->
  descended m1 pool1 tbl1 E1 (level - 1) out -> descended m pool tbl E level out.
Proof.
  intros F Hs Hl Hd Htr (m' & pool' & r & -> & F' & Hs' & Hr). exists m', pool', r.
  assert (dom tbl1 ∪ path_keys (level - 1) a = dom tbl ∪ path_keys level a) as Hk.
  { destruct level as [|[|below]]; [lia..|]. rewrite Hd, Nat.sub_succ, Nat.sub_0_r. cbn [path_keys]. set_solver. }
  rewrite Hk in Hr. split_and!; [done| |by etrans|].
  - eapply frame_trans; [exact F|]. by eapply pool_frame_same.
  - destruct r as [t|].
    + destruct Hr as (tbl' & E' & ? & ? & ? & Htr'). exists tbl', E'. split_and!; try done. intros b. by rewrite Htr'.
    + rewrite Htr in Hr. destruct Hs as [_ <-]. done.
Qed.

Lemma map_page_levels_spec level : forall m pool tbl E table,
  (1 <= level <= 4)%nat -> tables m pool root tbl E [] -> tbl !! (level, akey level a) = Some table ->
  descended m pool tbl E level (map_page_levels m pool table a (level_shifts level)).
Proof.
  induction level as [|[|below] IH]; intros m pool tbl E table Hl Ht Htab; [lia| |].
  { exists m, pool, (Some table). split_and!; [done|apply frame_refl|done|]. exists tbl, E. split_and!; try done. set_solver. }
  pose proof (tb_closed _ _ _ _ _ _ Ht) as Hc. set (lv := S below) in *.
  destruct (table_load _ _ _ _ _ _ lv a table Ht) as (Hld & Hre); [lia|done|].
  change (level_shifts (S lv)) with (12 + 9 * Z.of_nat lv :: level_shifts lv). cbn [map_page_levels].
  rewrite Hld. cbn [mbind option_bind]. rewrite land_present.
  set (e := entry_at E (S lv) (akey lv a)) in *. destruct (Z.testbit e 0) eqn:Hp; cbn [negb mbind option_bind].
  - apply entry_present in Hp as He; [|done]. fold e in He. rewrite Hld. cbn [mbind option_bind].
    change X86_PTE_LARGE with (2 ^ 7). rewrite land_bit, negb_involutive by lia.
    destruct (Z.testbit e 7) eqn:H7.
    + exists m, pool, None. split_and!; [done|apply frame_refl|done|]. left.
      assert (is_leaf (S lv) e = true) as Hle.
      { destruct (is_leaf (S lv) e) eqn:Hle; [done|]. destruct (cl_entry _ Hc _ _ _ He) as (_ & _ & Hlk).
        destruct (Hlk Hle) as (t & Htp & Ee). destruct (table_entry_bits t Htp) as (_ & _ & ? & _). congruence. }
      rewrite (translate_reached E a (S lv)) by (done || lia). cbn [walk_ents]. fold e. by rewrite Hp, Hle.
    + assert (is_leaf (S lv) e = false) as Hle.
      { unfold is_leaf. rewrite H7, andb_false_r, orb_false_r. apply Nat.eqb_neq. lia. }
      pose proof (tb_child _ _ _ _ _ _ Ht _ _ _ He Hle) as Hch.
      eapply (descended_after m m pool pool tbl tbl E E); [apply frame_refl|done|lia| |done|].
      * rewrite Nat.sub_succ, Nat.sub_0_r. apply elem_of_dom_2 in Hch. set_solver.
      * rewrite Nat.sub_succ, Nat.sub_0_r. apply IH; [lia|done|done].
  - apply entry_absent in Hp as He; [|done]. pose proof (table_new_spec _ _ _ _ _ _ Ht) as Hnew.
    destruct (decide _) as [Hfull|Hroom].
    + rewrite Hnew. exists m, pool, None. split_and!; [done|apply frame_refl|done|]. right.
      rewrite <- Hfull, (tables_size _ _ _ _ _ Ht). apply inj_lt. apply size_union_new.
      intros Hin. apply elem_of_dom in Hin as [t Hin].
      destruct (tb_linked _ _ _ _ _ _ Ht _ _ _ Hin) as [[= Hlv ?]|[_ ?]]; [unfold lv in Hlv; lia|congruence].
    + destruct Hnew as (t & -> & Ht0 & Ht1). set (pool1 := PagePool _ _ _) in *.
      rewrite (proj2 (Z.eqb_neq t 0)) by lia. cbn [app] in Ht1.
      pose proof (Z.mod_pos_bound (a / 2 ^ (12 + 9 * Z.of_nat lv)) 512 ltac:(lia)) as Hix.
      pose proof He as He'. rewrite akey_split in He' by lia.
      destruct (link_step _ _ _ _ _ _ lv _ _ t _ Ht1 Htab ltac:(lia) Hix He') as (m1 & Hst & F & Ht2 & Htr).
      rewrite <- akey_split in Ht2, Htr by lia. rewrite entry_slot_eq, Hst. cbn [mbind option_bind].
      assert ((<[(lv, akey lv a):=t]> tbl) !! (S lv, akey (S lv) a) = Some table) as Htab2.
      { rewrite lookup_insert_ne by (intros [= ?]; lia). done. }
      destruct (table_load _ _ _ _ _ _ lv a table Ht2) as (Hld2 & _); [lia|done|].
      rewrite entry_slot_eq in Hld2. rewrite Hld2. cbn [mbind option_bind].
      rewrite (entry_at_Some _ _ _ (table_entry t)) by apply lookup_insert_eq.
      destruct (taken_bounds m pool1 t (tb_pool _ _ _ _ _ _ Ht1)) as (Htp & _).
      { apply (tb_reserved _ _ _ _ _ _ Ht1). by left. }
      destruct (table_entry_bits t Htp) as (_ & _ & H7 & _ & Haddr & _).
      change X86_PTE_LARGE with (2 ^ 7). rewrite land_bit, H7, Haddr by lia. cbn [negb].
      eapply (descended_after m m1 pool pool1 tbl (<[(lv, akey lv a) := t]> tbl) E); [exact F|done|lia| |exact Htr|].
      * rewrite Nat.sub_succ, Nat.sub_0_r, dom_insert_L. set_solver.
      * rewrite Nat.sub_succ, Nat.sub_0_r. apply IH; [lia|done|]. apply lookup_insert_eq.
Qed.
End Level.

(** ** One page *)

Record page_map := PageMap { pm_virtual : Z; pm_physical : Z; pm_flags : Z }.

Record page_map_ok (p : page_map) : Prop := PageMapOk {
  pm_page : table_page (pm_physical p);
  pm_bits : flag_bits (pm_flags p);
}.

(** The translation a mapped page gives the addresses in it. *)
Definition page_translation (p : page_map) (b : Z) : translation :=
  Translation (pm_physical p + b mod 4096) (Z.testbit (pm_flags p) 1) (Z.testbit (pm_flags p) 63).

Definition map_one (m : mem) (pool : page_pool) (root : Z) (p : page_map) : option (mem * page_pool * bool) :=
  map_page m pool root (pm_virtual p) (pm_physical p) (pm_flags p).

Lemma page_entry p b : page_map_ok p ->
  let e := Z.lor (Z.lor (Z.land (pm_physical p) X86_PTE_ADDRESS) (pm_flags p)) X86_PTE_PRESENT in
  in_word 64 e /\ Z.testbit e 0 = true /\ leaf_at 0 e b true false = page_translation p b.
Proof.
  intros [Hp [Hf Hz]]. cbn zeta. rewrite land_address_page, <- Z.lor_assoc by done.
  set (f := Z.lor (pm_flags p) X86_PTE_PRESENT).
  assert (flag_bits f) as Hfb.
  { split.
    - apply (lor_in_word 64); [lia|done|done].
    - unfold f. by rewrite Z.land_lor_distr_l, Hz. }
  assert (Z.testbit f 0 = true /\ Z.testbit f 1 = Z.testbit (pm_flags p) 1 /\
    Z.testbit f 63 = Z.testbit (pm_flags p) 63) as (H0 & H1 & H63).
  { unfold f. rewrite !Z.lor_spec. change (Z.testbit X86_PTE_PRESENT 0) with true.
    change (Z.testbit X86_PTE_PRESENT 1) with false. change (Z.testbit X86_PTE_PRESENT 63) with false.
    by rewrite orb_true_r, !orb_false_r. }
  split_and!; [by apply entry_word|by rewrite entry_bit by (done || lia)|].
  unfold leaf_at, page_translation. rewrite entry_address, !entry_bit, H1, H63 by (done || lia).
  destruct Hp as [_ Hp]. change (2 ^ (12 + 9 * Z.of_nat 0)) with 4096. rewrite Hp. f_equal. lia.
Qed.

(** A page that is not translated has a free entry in its last table. *)
Lemma translate_last m pool root tbl E rs a t :
  tables m pool root tbl E rs -> tbl !! (1%nat, akey 1 a) = Some t ->
  load64 m (entry_slot t a 12) = Some (entry_at E 1 (akey 0 a)) /\
  (translate E a = None <-> E !! (1%nat, akey 0 a) = None).
Proof.
  intros Ht Htab. destruct (table_load _ _ _ _ _ _ 0 a t Ht) as (Hld & Hre); [lia|done|].
  split; [done|]. rewrite (translate_reached E a 1) by (apply Ht || lia || done). cbn [walk_ents].
  pose proof (tb_closed _ _ _ _ _ _ Ht) as Hc. destruct (Z.testbit (entry_at E 1 (akey 0 a)) 0) eqn:Hp.
  - apply entry_present in Hp; [|done]. rewrite Hp. cbn. split; done.
  - apply entry_absent in Hp; [|done]. done.
Qed.

Lemma map_page_spec m pool root tbl E p :
  tables m pool root tbl E [] -> page_map_ok p ->
  exists m' pool' ok, map_one m pool root p = Some (m', pool', ok) /\
    pool_frame pool m m' /\ same_pool pool pool' /\
    if ok : bool then translate E (pm_virtual p) = None /\ exists tbl' E',
      tables m' pool' root tbl' E' [] /\ dom tbl' = dom tbl ∪ path_keys 4 (pm_virtual p) /\
      (forall b, translate E' b = if decide (akey 0 b = akey 0 (pm_virtual p)) then Some (page_translation p b)
                                  else translate E b)
    else translate E (pm_virtual p) <> None \/
      pool_count pool < Z.of_nat (size (dom tbl ∪ path_keys 4 (pm_virtual p))).
Proof.
  intros Ht Hp. unfold map_one, map_page. set (a := pm_virtual p).
  destruct (map_page_levels_spec root a 4 m pool tbl E root) as (m1 & pool1 & r & E1 & F1 & S1 & Hr);
    [lia|done|rewrite akey_top; apply Ht|].
  change [39; 30; 21] with (level_shifts 4). rewrite E1. cbn [mbind option_bind].
  destruct r as [t|]; [|by exists m1, pool1, false].
  destruct Hr as (tbl1 & En1 & Ht1 & Htab & Hd & Htr).
  destruct (translate_last _ _ _ _ _ _ a _ Ht1 Htab) as (Hld & Hiff). rewrite Hld. cbn [mbind option_bind].
  rewrite land_present. pose proof (tb_closed _ _ _ _ _ _ Ht1) as Hc.
  destruct (Z.testbit (entry_at En1 1 (akey 0 a)) 0) eqn:Hb; cbn [negb].
  { apply entry_present in Hb; [|done]. exists m1, pool1, false. split_and!; try done. left.
    rewrite <- Htr, Hiff, Hb. done. }
  apply entry_absent in Hb; [|done]. destruct (page_entry p a Hp) as (Hw & H0 & _). set (e := Z.lor _ _) in *.
  pose proof (Z.mod_pos_bound (a / 2 ^ (12 + 9 * Z.of_nat 0)) 512 ltac:(lia)) as Hix.
  pose proof Hb as Hb'. rewrite akey_split in Hb' by lia.
  destruct (leaf_step _ _ _ _ _ _ 0 _ _ _ e Ht1 Htab ltac:(lia) Hix Hb' Hw H0 eq_refl) as (m2 & Hst & F2 & Ht2 & Htr2).
  rewrite <- akey_split in Ht2, Htr2 by lia.
  change 12 with (12 + 9 * Z.of_nat 0) at 1. rewrite entry_slot_eq, Hst. cbn [mbind option_bind].
  exists m2, pool1, true. split_and!; [done| |done|rewrite <- Htr; by apply Hiff|].
  - eapply frame_trans; [exact F1|]. by eapply pool_frame_same.
  - exists tbl1, (<[(1%nat, akey 0 a) := e]> En1). split_and!; [done|done|]. intros b. rewrite Htr2, Htr.
    destruct (page_entry p b Hp) as (_ & _ & Hlf). fold e in Hlf. by rewrite Hlf.
Qed.

(** ** A list of pages *)

Fixpoint map_pages (m : mem) (pool : page_pool) (root : Z) (ps : list page_map) : option (mem * page_pool * bool) :=
  match ps with
  | [] => Some (m, pool, true)
  | p :: ps =>
      '(m, pool, ok) ← map_one m pool root p;
      check (ok : bool) else Some (m, pool, false);
      map_pages m pool root ps
  end.

Lemma map_pages_app m pool root ps qs :
  map_pages m pool root (ps ++ qs) =
  ('(m, pool, ok) ← map_pages m pool root ps;
   check (ok : bool) else Some (m, pool, false);
   map_pages m pool root qs).
Proof.
  revert m pool. induction ps as [|p ps IH]; intros m pool; [done|]. cbn [app map_pages].
  destruct (map_one m pool root p) as [[[m1 pool1] [|]]|]; cbn [mbind option_bind]; [apply IH|done..].
Qed.

Definition pages_keys (ps : list page_map) : gset (nat * Z) :=
  ⋃ (map (fun p => path_keys 4 (pm_virtual p)) ps).

(** What all pages need: no page twice, none translated already, and a page of
    the pool for every table. *)
Definition mappable (count : Z) (T : gset (nat * Z)) (E : ents) (ps : list page_map) : Prop :=
  NoDup (map (fun p => akey 0 (pm_virtual p)) ps) /\
  Forall (fun p => translate E (pm_virtual p) = None) ps /\
  Z.of_nat (size (T ∪ pages_keys ps)) <= count.

Lemma mappable_cons count T E p ps :
  mappable count T E (p :: ps) <->
  ((akey 0 (pm_virtual p) ∉ map (fun p => akey 0 (pm_virtual p)) ps) /\
   NoDup (map (fun p => akey 0 (pm_virtual p)) ps)) /\
  (translate E (pm_virtual p) = None /\ Forall (fun p => translate E (pm_virtual p) = None) ps) /\
  Z.of_nat (size (T ∪ (path_keys 4 (pm_virtual p) ∪ pages_keys ps))) <= count.
Proof. unfold mappable. cbn [map]. by rewrite NoDup_cons, Forall_cons. Qed.

(** The first page done, the others need what they needed. *)
Lemma mappable_rest count T E E1 p ps :
  translate E (pm_virtual p) = None ->
  (forall b, translate E1 b = if decide (akey 0 b = akey 0 (pm_virtual p)) then Some (page_translation p b)
                              else translate E b) ->
  mappable count (T ∪ path_keys 4 (pm_virtual p)) E1 ps <-> mappable count T E (p :: ps).
Proof.
  intros Hn Htr. rewrite mappable_cons. unfold mappable. rewrite (assoc_L (∪)).
  assert (Forall (fun q => translate E1 (pm_virtual q) = None) ps <->
    (akey 0 (pm_virtual p) ∉ map (fun p => akey 0 (pm_virtual p)) ps) /\
    Forall (fun p => translate E (pm_virtual p) = None) ps) as ->; [|tauto].
  clear Hn. induction ps as [|q ps IH]; cbn [map].
  - split; [|constructor]. intros _. split; [apply not_elem_of_nil|constructor].
  - rewrite !Forall_cons, IH, Htr, not_elem_of_cons. case_decide; split; naive_solver.
Qed.

Definition find_page (ps : list page_map) (b : Z) : option page_map :=
  List.find (fun p => bool_decide (akey 0 b = akey 0 (pm_virtual p))) ps.

Lemma find_page_None ps b : ~ In (akey 0 b) (map (fun p => akey 0 (pm_virtual p)) ps) -> find_page ps b = None.
Proof.
  induction ps as [|p ps IH]; intros Hn; [done|]. cbn in *. rewrite bool_decide_eq_false_2 by (intros E; auto).
  apply IH. auto.
Qed.

Lemma map_pages_spec ps : forall m pool root tbl E,
  tables m pool root tbl E [] -> Forall page_map_ok ps ->
  exists m' pool' ok, map_pages m pool root ps = Some (m', pool', ok) /\
    pool_frame pool m m' /\ same_pool pool pool' /\
    if ok : bool then mappable (pool_count pool) (dom tbl) E ps /\ exists tbl' E',
      tables m' pool' root tbl' E' [] /\
      (forall b, translate E' b = match find_page ps b with
                                  | Some p => Some (page_translation p b)
                                  | None => translate E b
                                  end)
    else ~ mappable (pool_count pool) (dom tbl) E ps.
Proof.
  induction ps as [|p ps IH]; intros m pool root tbl E Ht Hok; cbn [map_pages].
  { exists m, pool, true. split_and!; [done|apply frame_refl|done| |by exists tbl, E].
    split_and!; [constructor|constructor|].
    change (pages_keys []) with (∅ : gset (nat * Z)). rewrite union_empty_r_L, <- (tables_size _ _ _ _ _ Ht).
    by destruct (po_used _ _ (tb_pool _ _ _ _ _ _ Ht)). }
  apply Forall_cons in Hok as [Hp Hok].
  destruct (map_page_spec m pool root tbl E p Ht Hp) as (m1 & pool1 & ok1 & -> & F1 & S1 & H1).
  cbn [mbind option_bind]. destruct ok1.
  2: { exists m1, pool1, false. split_and!; try done. rewrite mappable_cons.
       intros (_ & [Hn _] & Hsz). destruct H1 as [H1|H1]; [done|].
       enough (size (dom tbl ∪ path_keys 4 (pm_virtual p)) <=
         size (dom tbl ∪ (path_keys 4 (pm_virtual p) ∪ pages_keys ps)))%nat by lia.
       apply subseteq_size. set_solver. }
  destruct H1 as (Hn & tbl1 & E1 & Ht1 & Hd1 & Htr1).
  destruct (IH m1 pool1 root tbl1 E1 Ht1 Hok) as (m2 & pool2 & ok2 & -> & F2 & S2 & H2).
  exists m2, pool2, ok2. split; [done|]. split; [eapply frame_trans; [exact F1|by eapply pool_frame_same]|].
  split; [by etrans|]. rewrite (proj2 S1), Hd1 in H2.
  pose proof (mappable_rest (pool_count pool) (dom tbl) E E1 p ps Hn Htr1) as Hiff.
  destruct ok2; [|by rewrite <- Hiff]. destruct H2 as (Hm & tbl2 & E2 & Ht2 & Htr2). apply Hiff in Hm.
  split; [done|]. exists tbl2, E2. split; [done|]. intros b. rewrite Htr2, Htr1. cbn [find_page List.find].
  fold (find_page ps b). case_decide as Hk; [rewrite bool_decide_eq_true_2 by done|by rewrite bool_decide_eq_false_2].
  rewrite find_page_None; [done|]. rewrite Hk. apply mappable_cons in Hm as ((Hm & _) & _).
  by rewrite <- list_elem_of_In.
Qed.
