(* ===== verification/PagingBoot.v ===== *)
(** * The identity map and the direct map

    The loops of [build_page_tables] that map the first 4 GiB twice: after each
    step the translation is [boot_translation] of what has been covered. *)

From S2P Require Import Prelude Memory ElfPlan Paging PagingFacts PagingTables PagingMap.

(** The first [ni] bytes are mapped at their own address and the first [nh] at
    2^47 above it (48 address bits count), except a null page to leave out. *)
Definition boot_translation (unmap_null : bool) (ni nh a : Z) : option translation :=
  let v := a mod 2 ^ 48 in
  if v <? ni then
    if unmap_null && (v <? 4096) then None else Some (Translation v true false)
  else if (2 ^ 47 <=? v) && (v <? 2 ^ 47 + nh) then Some (Translation (v - 2 ^ 47) true false)
  else None.

(** ** Leaves *)

Lemma akey_iff below a q : (below <= 3)%nat ->
  akey below a = q <->
  q * 2 ^ (12 + 9 * Z.of_nat below) <= a mod 2 ^ 48 < (q + 1) * 2 ^ (12 + 9 * Z.of_nat below).
Proof.
  intros Hb. unfold akey. set (s := 2 ^ (12 + 9 * Z.of_nat below)). assert (0 < s) by (apply Z.pow_pos_nonneg; lia).
  set (v := a mod 2 ^ 48). pose proof (Z.div_mod v s ltac:(lia)). pose proof (Z.mod_pos_bound v s ltac:(lia)).
  split; [intros <-; nia|]. intros Hq. symmetry. apply (Z.div_unique _ _ _ (v - s * q)); [left|]; nia.
Qed.

(** The offset in a page or large page. *)
Lemma offset_mod a s : 0 <= s <= 48 -> a mod 2 ^ s = a mod 2 ^ 48 mod 2 ^ s.
Proof.
  intros Hs. rewrite Z.mod_mod_divide; [done|]. exists (2 ^ (48 - s)). rewrite <- Z.pow_add_r by lia.
  f_equal. lia.
Qed.

Lemma leaf_value below a q t f :
  (below <= 1)%nat -> table_page t -> flag_bits f -> t = q * 2 ^ (12 + 9 * Z.of_nat below) \/
    t + 2 ^ 47 = q * 2 ^ (12 + 9 * Z.of_nat below) -> akey below a = q ->
  Z.testbit f 1 = true -> Z.testbit f 63 = false ->
  leaf_at below (Z.lor t f) a true false =
  Translation (t + (a mod 2 ^ 48 - q * 2 ^ (12 + 9 * Z.of_nat below))) true false.
Proof.
  intros Hb Ht Hf Hq Ha H1 H63. unfold leaf_at. rewrite entry_address, !entry_bit, H1, H63 by (done || lia).
  rewrite (offset_mod a) by lia. apply akey_iff in Ha; [|lia]. set (s := 2 ^ (12 + 9 * Z.of_nat below)) in *.
  assert (0 < s) by (apply Z.pow_pos_nonneg; lia). set (v := a mod 2 ^ 48) in *.
  assert (v mod s = v - q * s) as -> by (symmetry; apply (Z.mod_unique v s q); [left|]; nia).
  assert (t mod s = 0) as ->.
  { apply Z.mod_divide; [lia|]. destruct Hq as [->|Hq]; [by exists q|].
    exists (q - 2 ^ (47 - (12 + 9 * Z.of_nat below))). rewrite Z.mul_sub_distr_r, <- Hq. unfold s.
    rewrite <- Z.pow_add_r by lia. replace (47 - _ + _) with 47 by lia. lia. }
  f_equal. lia.
Qed.

(** A large entry for the direct map, and one for the identity map. *)
Lemma large_ok n : 0 <= n < 2 ^ 32 -> n mod 2 ^ 21 = 0 ->
  table_page n /\ in_word 64 (large_entry n) /\ Z.testbit (large_entry n) 0 = true /\
  is_leaf 2 (large_entry n) = true.
Proof.
  intros Hn Hm. assert (table_page n) as Hp.
  { split; [lia|]. apply Z.mod_divide in Hm as [q ->]; [|lia]. change (2 ^ 21) with (512 * 4096).
    by rewrite Z.mul_assoc, Z.mod_mul. }
  rewrite large_entry_eq. split_and!; [done|by apply entry_word|by rewrite entry_bit by (done || lia)|].
  unfold is_leaf. by rewrite entry_bit by (done || lia).
Qed.

(** The direct map grows by one large page ... *)
Lemma boot_hhdm u n a : 0 <= n < 2 ^ 32 -> n mod 2 ^ 21 = 0 ->
  (if decide (akey 1 a = (2 ^ 47 + n) / 2 ^ 21) then Some (leaf_at 1 (large_entry n) a true false)
   else boot_translation u n n a) = boot_translation u n (n + 2 ^ 21) a.
Proof.
  intros Hn Hm. destruct (large_ok n Hn Hm) as (Hp & _).
  assert (2 ^ 47 + n = (2 ^ 47 + n) / 2 ^ 21 * 2 ^ 21) as Hq.
  { pose proof (Z.div_mod (2 ^ 47 + n) (2 ^ 21) ltac:(lia)) as H.
    rewrite Zplus_mod, Hm in H. change (2 ^ 47 mod 2 ^ 21) with 0 in H. rewrite Z.mod_0_l in H by lia. lia. }
  pose proof (Z.mod_pos_bound a (2 ^ 48) ltac:(lia)). unfold boot_translation. destruct (decide _) as [Ha|Ha].
  - rewrite large_entry_eq, (leaf_value 1 a ((2 ^ 47 + n) / 2 ^ 21)) by
      (done || (right; change (12 + 9 * Z.of_nat 1) with 21; lia)).
    apply akey_iff in Ha; [|lia]. change (12 + 9 * Z.of_nat 1) with 21 in *.
    replace (a mod 2 ^ 48 <? n) with false by lia.
    replace ((2 ^ 47 <=? a mod 2 ^ 48) && _) with true by lia. do 2 f_equal. lia.
  - rewrite akey_iff in Ha by lia. change (12 + 9 * Z.of_nat 1) with 21 in *.
    destruct (a mod 2 ^ 48 <? n); [done|]. destruct (2 ^ 47 <=? _) eqn:E1; [|done]. cbn [andb].
    replace (a mod 2 ^ 48 <? 2 ^ 47 + (n + 2 ^ 21)) with (a mod 2 ^ 48 <? 2 ^ 47 + n); [done|]. lia.
Qed.

(** ... and the identity map, by a large page or by a page. *)
Lemma boot_identity below u n nh a t f :
  (below <= 1)%nat -> table_page t -> flag_bits f -> Z.testbit f 1 = true -> Z.testbit f 63 = false ->
  0 <= n < 2 ^ 32 -> t = n -> n mod 2 ^ (12 + 9 * Z.of_nat below) = 0 -> (u = true -> 4096 <= n) ->
  (if decide (akey below a = n / 2 ^ (12 + 9 * Z.of_nat below)) then Some (leaf_at below (Z.lor t f) a true false)
   else boot_translation u n nh a) = boot_translation u (n + 2 ^ (12 + 9 * Z.of_nat below)) nh a.
Proof.
  intros Hb Hp Hf H1 H63 Hn -> Hm Hu. pose proof (Z.mod_pos_bound a (2 ^ 48) ltac:(lia)). unfold boot_translation.
  assert (2 ^ (12 + 9 * Z.of_nat below) <= 2 ^ 21) by (apply Z.pow_le_mono_r; lia).
  set (s := 2 ^ (12 + 9 * Z.of_nat below)) in *. assert (0 < s) by (apply Z.pow_pos_nonneg; lia).
  assert (n = n / s * s) as Hq by (pose proof (Z.div_mod n s ltac:(lia)); lia).
  destruct (decide _) as [Ha|Ha].
  - rewrite (leaf_value below a _ n f Hb Hp Hf (or_introl Hq) Ha) by done.
    apply akey_iff in Ha; [|lia]. fold s in Ha. fold s. replace (a mod 2 ^ 48 <? n + s) with true by lia.
    replace (u && (a mod 2 ^ 48 <? 4096)) with false by (destruct u; [specialize (Hu eq_refl)|]; lia).
    do 2 f_equal. lia.
  - rewrite akey_iff in Ha by lia. fold s in Ha.
    by replace (a mod 2 ^ 48 <? n + s) with (a mod 2 ^ 48 <? n) by lia.
Qed.

(** ** The first page table *)

Lemma first_pages_spec u root pt nh n : forall m pool tbl E page,
  page + Z.of_nat n = 512 -> c_bool u <= page -> tables m pool root tbl E [] -> tbl !! (1%nat, 0) = Some pt ->
  (forall i, page <= i < 512 -> E !! (1%nat, i) = None) ->
  (forall a, translate E a = boot_translation u (page * 4096) nh a) ->
  exists m' E', first_pages m pt page n = Some m' /\ pool_frame pool m m' /\
    tables m' pool root tbl E' [] /\ (forall j q, j <> 1%nat -> E' !! (j, q) = E !! (j, q)) /\
    (forall a, translate E' a = boot_translation u (2 ^ 21) nh a).
Proof.
  induction n as [|n IH]; intros m pool tbl E page Hn Hu Ht Htab Hnone Htr; cbn [first_pages].
  { exists m, E. split_and!; try done. intros a. rewrite Htr. by replace (page * 4096) with (2 ^ 21) by lia. }
  assert (0 <= page) by (destruct u; cbn in Hu; lia).
  set (e := Z.lor (Z.lor _ _) _). assert (e = Z.lor (page * 4096) 3) as He by (unfold e; by rewrite <- Z.lor_assoc).
  assert (table_page (page * 4096)) as Hp by (split; [lia|apply Z.mod_mul; lia]).
  destruct (leaf_step m pool root tbl E [] 0 0 pt page e) as (m1 & Hst & F1 & Ht1 & Htr1);
    [done|done|lia|lia|apply Hnone; lia|rewrite He; by apply entry_word|rewrite He; by rewrite entry_bit by (done || lia)|done|].
  rewrite Z.mul_0_r, Z.add_0_l in Ht1, Htr1. rewrite Hst. cbn [mbind option_bind].
  destruct (IH m1 pool tbl (<[(1%nat, page) := e]> E) (page + 1)) as (m2 & E2 & -> & F2 & Ht2 & Hsame & Htr2);
    [lia|lia|done|done| | |].
  - intros i Hi. rewrite lookup_insert_ne; [apply Hnone; lia|]. intros [= ?]. lia.
  - intros a. rewrite Htr1, Htr. pose proof (boot_identity 0 u (page * 4096) nh a (page * 4096) 3) as Hb.
    change (2 ^ (12 + 9 * Z.of_nat 0)) with 4096 in Hb. rewrite Z.div_mul in Hb by lia. rewrite He.
    rewrite Hb; [f_equal; lia|lia|done|done|done|done|lia|done|by apply Z.mod_mul|intros ->; cbn in Hu; lia].
  - exists m2, E2. split_and!; [done|by eapply frame_trans|done| |done].
    intros j q Hj. rewrite Hsame by done. rewrite lookup_insert_ne by congruence. done.
Qed.

(** ** Two megabytes *)

(** The step from [n] to [n + 2 MiB] in both maps, whose tables for the gigabyte
    [gb] are linked. *)
Section Gigabyte.
Context (u : bool) (root ipd hpd gb : Z) (Hgb : 0 <= gb < 4).

Record in_gb (m : mem) (pool : page_pool) (tbl : gmap (nat * Z) Z) (E : ents) (mb : Z) : Prop := InGb {
  ig_tables : tables m pool root tbl E [];
  ig_ipd : tbl !! (2%nat, gb) = Some ipd;
  ig_hpd : tbl !! (2%nat, 131072 + gb) = Some hpd;
  ig_free : forall i, mb <= i < 512 ->
    E !! (2%nat, 512 * gb + i) = None /\ E !! (2%nat, 512 * (131072 + gb) + i) = None;
  ig_map : forall a, translate E a = boot_translation u (gb * 0x40000000 + mb * 0x200000) (gb * 0x40000000 + mb * 0x200000) a;
}.

(** The first 2 MiB have a page table of their own. *)
Definition first_keys (n : Z) : gset (nat * Z) := if n =? 0 then {[(1%nat, 0)]} else ∅.

Lemma map_2mb_spec m pool tbl E mb :
  0 <= mb < 512 -> in_gb m pool tbl E mb -> (gb = 0 -> mb = 0 -> pool_used pool < pool_count pool) ->
  exists m' pool' tbl' E', map_2mb m pool ipd hpd u gb mb = Some (m', pool', true) /\
    pool_frame pool m m' /\ same_pool pool pool' /\ in_gb m' pool' tbl' E' (mb + 1) /\
    dom tbl' = dom tbl ∪ first_keys (gb * 512 + mb) /\ tbl ⊆ tbl' /\
    (forall j q, (3 <= j)%nat -> E' !! (j, q) = E !! (j, q)) /\
    pool_used pool' = pool_used pool + c_bool (gb * 512 + mb =? 0).
Proof using Hgb.
  intros Hmb [Ht Hi Hh Hfree Htr] Hroom. unfold map_2mb.
  set (n := gb * 0x40000000 + mb * 0x200000) in *. assert (0 <= n < 2 ^ 32) as Hn by (unfold n; lia).
  assert (n = (512 * gb + mb) * 2 ^ 21) as Hnq by (unfold n; lia).
  assert (n mod 2 ^ 21 = 0) as Hnm by (rewrite Hnq; apply Z.mod_mul; lia).
  destruct (large_ok n Hn Hnm) as (Hnp & Hw & H0 & Hlf). destruct (Hfree mb) as [Fi Fh]; [lia|].
  destruct (leaf_step m pool root tbl E [] 1 (131072 + gb) hpd mb (large_entry n)) as (m1 & -> & F1 & Ht1 & Htr1);
    [done|done|lia|done|done|done|done|done|]. cbn [mbind option_bind].
  set (E1 := <[_ := _]> E) in *.
  assert (forall a, translate E1 a = boot_translation u n (n + 2 ^ 21) a) as Hb1.
  { intros a. rewrite Htr1, Htr, <- boot_hhdm by done.
    by replace ((2 ^ 47 + n) / 2 ^ 21) with (512 * (131072 + gb) + mb)
      by (rewrite Hnq, Z.div_add by lia; change (2 ^ 47 / 2 ^ 21) with (512 * 131072); lia). }
  assert (forall j q, (3 <= j)%nat -> E1 !! (j, q) = E !! (j, q)) as Hup1
    by (intros j q Hj; unfold E1; rewrite lookup_insert_ne; [done|intros [= ?]; lia]).
  assert (E1 !! (2%nat, 512 * gb + mb) = None) as Fi1
    by (unfold E1; rewrite lookup_insert_ne; [done|intros [= ?]; lia]).
  destruct (Z.eqb_spec n 0) as [Hn0|Hn0]; cbn [negb].
  - assert (gb = 0 /\ mb = 0) as [Hg0 Hm0] by lia.
    pose proof (table_new_spec _ _ _ _ _ _ Ht1) as Hnew. specialize (Hroom Hg0 Hm0).
    rewrite decide_False in Hnew by lia. destruct Hnew as (t & -> & Ht0 & Ht2). cbn [app] in Ht2.
    set (pool1 := PagePool _ _ _) in *. rewrite (proj2 (Z.eqb_neq t 0)) by lia.
    destruct (link_step m1 pool1 root tbl E1 [] 1 gb ipd t mb) as (m2 & -> & F2 & Ht3 & Htr3);
      [done|done|lia|done|done|]. cbn [mbind option_bind].
    set (E2 := <[_ := _]> E1) in *. set (tbl2 := <[_ := _]> tbl) in *.
    assert (dom tbl2 = dom tbl ∪ {[(1%nat, 0)]}) as Hd.
    { unfold tbl2. rewrite dom_insert_L, Hg0, Hm0. set_solver. }
    assert (forall j q, (3 <= j)%nat -> E2 !! (j, q) = E !! (j, q)) as Hup2.
    { intros j q Hj. unfold E2. rewrite lookup_insert_ne; [by apply Hup1|intros [= ?]; lia]. }
    destruct (first_pages_spec u root t (n + 2 ^ 21) (512 - Z.to_nat (c_bool u)) m2 pool1 tbl2 E2 (c_bool u))
      as (m3 & E3 & -> & F3 & Ht4 & Hsame & Hb3); [by destruct u|done|done| | | |].
    { unfold tbl2. rewrite Hg0, Hm0. apply lookup_insert_eq. }
    { intros i Hii. unfold E2. rewrite lookup_insert_ne by (intros [= ?]; lia).
      replace i with (512 * 0 + i) by lia. apply (unlinked_none E1 1 0); [apply Ht1|lia| |destruct u; cbn in Hii; lia].
      by rewrite <- Fi1, Hg0, Hm0. }
    { intros a. rewrite Htr3, Hb1, Hn0. unfold boot_translation. pose proof (Z.mod_pos_bound a (2 ^ 48) ltac:(lia)).
      replace (a mod 2 ^ 48 <? 0) with false by lia. destruct u; cbn [c_bool andb];
        [|change (0 * 4096) with 0; by replace (a mod 2 ^ 48 <? 0) with false by lia].
      change (1 * 4096) with 4096. destruct (a mod 2 ^ 48 <? 4096) eqn:E4; [|done].
      by replace (2 ^ 47 <=? _) with false by lia. }
    cbn [mbind option_bind]. exists m3, pool1, tbl2, E3.
    assert (tbl ⊆ tbl2) as Hsub.
    { apply insert_subseteq. destruct (tbl !! (1%nat, 512 * gb + mb)) as [v|] eqn:Hv; [|done].
      destruct (tb_linked _ _ _ _ _ _ Ht1 _ _ _ Hv) as [[= ?]|[_ ?]]; congruence. }
    split_and!; [done| |done| |rewrite Hd; unfold first_keys; by rewrite Hg0, Hm0|done| |].
    + eapply frame_trans; [exact F1|]. eapply frame_trans; [exact F2|exact F3].
    + split; [done|by eapply lookup_weaken..| |].
      * intros i Hii. rewrite !Hsame by done. unfold E2, E1.
        rewrite !lookup_insert_ne by (intros [= ?]; lia). apply Hfree. lia.
      * intros a. rewrite Hb3. f_equal; lia.
    + intros j q Hj. rewrite Hsame by lia. by apply Hup2.
    + cbn [pool_used pool1]. by rewrite Hg0, Hm0.
  - destruct (leaf_step m1 pool root tbl E1 [] 1 gb ipd mb (large_entry n)) as (m2 & -> & F2 & Ht2 & Htr2);
      [done|done|lia|done|done|done|done|done|]. cbn [mbind option_bind].
    exists m2, pool, tbl, (<[(2%nat, 512 * gb + mb) := large_entry n]> E1).
    assert ((gb * 512 + mb =? 0) = false) as Hz by lia.
    split_and!; [done|by eapply frame_trans|done| | |done| |rewrite Hz; cbn; lia].
    + split; [done..| |].
      * intros i Hii. unfold E1. rewrite !lookup_insert_ne by (intros [= ?]; lia). apply Hfree. lia.
      * intros a. rewrite Htr2, Hb1. pose proof (boot_identity 1 u n (n + 2 ^ 21) a n 0x83) as Hb.
        change (12 + 9 * Z.of_nat 1) with 21 in Hb. rewrite <- large_entry_eq in Hb.
        replace (512 * gb + mb) with (n / 2 ^ 21) by (rewrite Hnq; apply Z.div_mul; lia).
        rewrite Hb; [f_equal; lia|lia|done|done|done|done|lia|done|done|lia].
    + unfold first_keys. rewrite Hz. set_solver.
    + intros j q Hj. rewrite lookup_insert_ne; [by apply Hup1|intros [= ?]; lia].
Qed.

Lemma map_2mbs_spec n : forall m pool tbl E mb,
  0 <= mb -> mb + Z.of_nat n = 512 -> in_gb m pool tbl E mb ->
  (gb = 0 -> mb = 0 -> pool_used pool < pool_count pool) ->
  exists m' pool' tbl' E', map_2mbs m pool ipd hpd u gb mb n = Some (m', pool', true) /\
    pool_frame pool m m' /\ same_pool pool pool' /\ in_gb m' pool' tbl' E' 512 /\
    dom tbl' = dom tbl ∪ first_keys (gb * 512 + mb) /\ tbl ⊆ tbl' /\
    (forall j q, (3 <= j)%nat -> E' !! (j, q) = E !! (j, q)) /\
    pool_used pool' = pool_used pool + c_bool (gb * 512 + mb =? 0).
Proof using Hgb.
  induction n as [|n IH]; intros m pool tbl E mb Hmb Hn Hin Hroom; cbn [map_2mbs].
  { exists m, pool, tbl, E. replace 512 with mb at 1 by lia. unfold first_keys.
    replace (gb * 512 + mb =? 0) with false by lia. rewrite union_empty_r_L. split_and!; try done. cbn. lia. }
  destruct (map_2mb_spec m pool tbl E mb) as (m1 & pool1 & tbl1 & E1 & -> & F1 & S1 & Hin1 & Hd1 & Hs1 & Hu1 & Hc1);
    [lia|done|done|]. cbn [mbind option_bind].
  destruct (IH m1 pool1 tbl1 E1 (mb + 1)) as (m2 & pool2 & tbl2 & E2 & -> & F2 & S2 & Hin2 & Hd2 & Hs2 & Hu2 & Hc2);
    [lia|lia|done|lia|]. exists m2, pool2, tbl2, E2.
  assert ((gb * 512 + (mb + 1) =? 0) = false) as Hz by lia. unfold first_keys in *. rewrite Hz in Hd2, Hc2.
  split_and!; [done| |by etrans|done| |by etrans| |].
  - eapply frame_trans; [exact F1|]. by eapply pool_frame_same.
  - rewrite Hd2, Hd1. set_solver.
  - intros j q Hj. by rewrite Hu2, Hu1.
  - rewrite Hc2, Hc1. cbn. lia.
Qed.
End Gigabyte.

(** ** Four gigabytes *)

Section Gigabytes.
Context (u : bool) (root ip hp : Z).

Record before_gb (m : mem) (pool : page_pool) (tbl : gmap (nat * Z) Z) (E : ents) (gb : Z) : Prop := BeforeGb {
  bg_tables : tables m pool root tbl E [];
  bg_ip : tbl !! (3%nat, 0) = Some ip;
  bg_hp : tbl !! (3%nat, 256) = Some hp;
  bg_free : forall i, gb <= i < 512 -> E !! (3%nat, i) = None /\ E !! (3%nat, 131072 + i) = None;
  bg_map : forall a, translate E a = boot_translation u (gb * 2 ^ 30) (gb * 2 ^ 30) a;
}.

Fixpoint gbs_keys (gb : Z) (n : nat) : gset (nat * Z) :=
  match n with
  | O => ∅
  | S n => {[(2%nat, gb)]} ∪ {[(2%nat, 131072 + gb)]} ∪ first_keys (gb * 512) ∪ gbs_keys (gb + 1) n
  end.

(** The two page directories of a gigabyte are linked. *)
Lemma link_gb m pool tbl E gb :
  0 <= gb < 4 -> before_gb m pool tbl E gb -> pool_used pool + 2 <= pool_count pool ->
  exists pool1 pool2 ipd hpd m1 m2 tbl' E',
    table_new pool = (pool1, ipd) /\ table_new pool1 = (pool2, hpd) /\ 0 < ipd /\ 0 < hpd /\
    store64 m (ip + 8 * gb) (table_entry ipd) = Some m1 /\ store64 m1 (hp + 8 * gb) (table_entry hpd) = Some m2 /\
    pool_frame pool m m2 /\ same_pool pool pool2 /\ in_gb u root ipd hpd gb m2 pool2 tbl' E' 0 /\
    dom tbl' = dom tbl ∪ ({[(2%nat, gb)]} ∪ {[(2%nat, 131072 + gb)]}) /\ tbl ⊆ tbl' /\
    (forall i, gb + 1 <= i < 512 -> E' !! (3%nat, i) = None /\ E' !! (3%nat, 131072 + i) = None) /\
    pool_used pool2 = pool_used pool + 2.
Proof.
  intros Hgb [Ht Hi Hh Hfree Htr] Hroom. pose proof (table_new_spec _ _ _ _ _ _ Ht) as Hnew.
  rewrite decide_False in Hnew by lia. destruct Hnew as (ipd & N1 & Hi0 & Ht1). set (pool1 := PagePool _ _ _) in *.
  pose proof (table_new_spec _ _ _ _ _ _ Ht1) as Hnew. rewrite decide_False in Hnew by (cbn; lia).
  destruct Hnew as (hpd & N2 & Hh0 & Ht2).
  set (pool2 := PagePool (pool_base pool1) (pool_used pool1 + 1) (pool_count pool1)) in *. cbn [app] in Ht2.
  destruct (Hfree gb) as [Fi Fh]; [lia|].
  destruct (link_step m pool2 root tbl E [hpd] 2 0 ip ipd gb) as (m1 & St1 & F1 & Ht3 & Htr3);
    [done|done|lia|lia|done|]. rewrite Z.mul_0_r, Z.add_0_l in Ht3, Htr3.
  set (tbl1 := <[_ := _]> tbl) in *. set (E1 := <[_ := _]> E) in *.
  destruct (link_step m1 pool2 root tbl1 E1 [] 2 256 hp hpd gb) as (m2 & St2 & F2 & Ht4 & Htr4);
    [done|unfold tbl1; by rewrite lookup_insert_ne|lia|lia| |].
  { unfold E1. rewrite lookup_insert_ne; [done|intros [= ?]; lia]. }
  change (512 * 256) with 131072 in *. set (tbl2 := <[_ := _]> tbl1) in *. set (E2 := <[_ := _]> E1) in *.
  assert (forall q, E !! (3%nat, q) = None -> tbl !! (2%nat, q) = None) as Hfresh.
  { intros q Hq. destruct (tbl !! (2%nat, q)) as [v|] eqn:Hv; [|done].
    destruct (tb_linked _ _ _ _ _ _ Ht _ _ _ Hv) as [[= ?]|[_ ?]]; congruence. }
  assert (tbl1 !! (2%nat, 131072 + gb) = None) as Hf1.
  { unfold tbl1. rewrite lookup_insert_ne; [by apply Hfresh|intros [= ?]; lia]. }
  exists pool1, pool2, ipd, hpd, m1, m2, tbl2, E2. split_and!; try done.
  - by eapply frame_trans.
  - split; [done| |apply lookup_insert_eq| |].
    + unfold tbl2. rewrite lookup_insert_ne by (intros [= ?]; lia). apply lookup_insert_eq.
    + intros i Hii. unfold E2, E1. rewrite !lookup_insert_ne by (intros [= ?]; lia).
      split; apply (unlinked_none E 2); (apply Ht || lia || done).
    + intros a. rewrite Htr4, Htr3, Htr. f_equal; lia.
  - unfold tbl2, tbl1. rewrite !dom_insert_L. set_solver.
  - etrans; [|by apply insert_subseteq]. apply insert_subseteq. by apply Hfresh.
  - intros i Hii. unfold E2, E1. rewrite !lookup_insert_ne by (intros [= ?]; lia). apply Hfree. lia.
  - cbn. lia.
Qed.

Lemma map_gbs_spec n : forall m pool tbl E gb,
  0 <= gb -> gb + Z.of_nat n = 4 -> before_gb m pool tbl E gb ->
  pool_used pool + 2 * Z.of_nat n + c_bool (gb =? 0) <= pool_count pool ->
  exists m' pool' tbl' E', map_gbs m pool ip hp u gb n = Some (m', pool', true) /\
    pool_frame pool m m' /\ same_pool pool pool' /\ before_gb m' pool' tbl' E' 4 /\
    dom tbl' = dom tbl ∪ gbs_keys gb n.
Proof.
  induction n as [|n IH]; intros m pool tbl E gb Hgb Hn Hb Hroom; cbn [map_gbs gbs_keys].
  { exists m, pool, tbl, E. replace 4 with gb by lia. rewrite union_empty_r_L. by split_and!. }
  assert (0 <= c_bool (gb =? 0)) by (by destruct (gb =? 0)).
  destruct (link_gb m pool tbl E gb) as (pool1 & pool2 & ipd & hpd & m1 & m2 & tbl2 & E2 & N1 & N2 & Hi0 & Hh0 & St1 & St2
    & F2 & S2 & Hin & Hd2 & Hs2 & Hf2 & Hc2); [lia|done|lia|].
  rewrite N1, N2. replace ((ipd =? 0) || (hpd =? 0)) with false by lia. rewrite St1. cbn [mbind option_bind].
  rewrite St2. cbn [mbind option_bind].
  destruct (map_2mbs_spec u root ipd hpd gb ltac:(lia) 512 m2 pool2 tbl2 E2 0)
    as (m3 & pool3 & tbl3 & E3 & -> & F3 & S3 & Hin3 & Hd3 & Hs3 & Hu3 & Hc3); [lia|done|done| |].
  { intros -> _. destruct S2 as [_ ->]. cbn in Hroom. lia. }
  cbn [mbind option_bind]. rewrite Z.add_0_r in Hd3, Hc3.
  assert ((gb * 512 =? 0) = (gb =? 0)) as Hz by lia. rewrite Hz in Hc3.
  destruct Hb as [_ Hbi Hbh _ _]. destruct Hin3 as [Ht3 _ _ _ Htr3].
  destruct (IH m3 pool3 tbl3 E3 (gb + 1)) as (m4 & pool4 & tbl4 & E4 & -> & F4 & S4 & Hb4 & Hd4); [lia|lia| | |].
  - split; [done|by eapply lookup_weaken; [eapply lookup_weaken|]..| |].
    + intros i Hii. rewrite !Hu3 by lia. by apply Hf2.
    + intros a. rewrite Htr3. f_equal; lia.
  - destruct S2 as [_ E2'], S3 as [_ ->]. rewrite E2'. replace (gb + 1 =? 0) with false by lia. cbn. lia.
  - exists m4, pool4, tbl4, E4. split_and!; [done| |by etrans; [|etrans]|done|rewrite Hd4, Hd3, Hd2; set_solver].
    eapply frame_trans; [exact F2|]. eapply pool_frame_same; [exact S2|]. eapply frame_trans; [exact F3|].
    by eapply pool_frame_same.
Qed.
End Gigabytes.
