(* ===== verification/PagingProps.v ===== *)
(** * The address space the loader hands over

    [build_page_tables] succeeds exactly when the planned segments can be
    placed beside the identity map and the direct map, and the processor then
    translates every address as [boot_address_space] says. *)

From S2P Require Import Prelude Memory ElfPlan Paging PagingFacts PagingTables PagingMap PagingBoot.

(** ** The promise *)

(** The virtual pages of a segment start where its first byte's page does. *)
Definition virtual_base (s : bbp_elf64_segment_plan) : Z :=
  s_virtual_address s - (s_physical_address s - s_page_base s).

Definition virtual_end (s : bbp_elf64_segment_plan) : Z :=
  virtual_base s + s_page_count s * BBP_ELF64_PAGE_SIZE.

Definition in_virtual_pages (s : bbp_elf64_segment_plan) (a : Z) : bool :=
  (virtual_base s <=? a) && (a <? virtual_end s).

Definition kernel_translation (enable_nx : bool) (segs : list bbp_elf64_segment_plan) (a : Z) :
    option translation :=
  s ← List.find (fun s => in_virtual_pages s a) segs;
  Some (Translation (s_page_base s + (a - virtual_base s)) (Z.testbit (s_flags s) 1)
          (enable_nx && negb (Z.testbit (s_flags s) 0))).

(** The first 4 GiB at their own address and at the direct-map offset. *)
Definition direct_translation (unmap_null : bool) (a : Z) : option translation :=
  if (a <? BBP_IDENTITY_LIMIT) && negb (unmap_null && (a <? 4096)) then Some (Translation a true false)
  else if (BBP_HHDM_OFFSET <=? a) && (a <? BBP_HHDM_OFFSET + BBP_IDENTITY_LIMIT)
  then Some (Translation (a - BBP_HHDM_OFFSET) true false)
  else None.

Definition boot_address_space (enable_nx unmap_null : bool) (segs : list bbp_elf64_segment_plan) (a : Z) :
    option translation :=
  if bool_decide (canonical_address a) then
    match direct_translation unmap_null a with
    | Some t => Some t
    | None => kernel_translation enable_nx segs a
    end
  else None.

(** The pages of a segment, as the loader maps them. *)
Definition segment_pages (enable_nx : bool) (s : bbp_elf64_segment_plan) : list page_map :=
  map (fun k => PageMap (virtual_base s + k * 4096) (s_page_base s + k * 4096) (segment_pte_flags enable_nx s))
    (seqZ 0 (s_page_count s)).

Definition plan_pages (enable_nx : bool) (segs : list bbp_elf64_segment_plan) : list page_map :=
  concat (map (segment_pages enable_nx) segs).

(** The tables of the two maps of the first 4 GiB. *)
Definition boot_keys : gset (nat * Z) :=
  {[(4%nat, 0)]} ∪ {[(3%nat, 0)]} ∪ {[(3%nat, 256)]} ∪ gbs_keys 0 4.

Definition virtual_apart (s t : bbp_elf64_segment_plan) : Prop :=
  s_page_count s = 0 \/ s_page_count t = 0 \/
  virtual_end s <= virtual_base t \/ virtual_end t <= virtual_base s.

(** The segments can be placed: no two share a virtual page, no virtual page
    lies in the identity or direct map, and the pool has a page for every table
    (with the 12 of the two maps, one per level and key of a segment's page). *)
Record placeable (unmap_null : bool) (count : Z) (segs : list bbp_elf64_segment_plan) : Prop := Placeable {
  pc_apart : ForallOrdPairs virtual_apart segs;
  pc_free : Forall (fun s => forall a, in_virtual_pages s a = true -> direct_translation unmap_null a = None) segs;
  pc_tables : Z.of_nat (size (boot_keys ∪ pages_keys (plan_pages false segs))) <= count;
}.

(** ** Canonical addresses *)

Lemma canonical_low48 a : canonical_address a ->
  a mod 2 ^ 48 = if a <? 2 ^ 47 then a else a - (2 ^ 64 - 2 ^ 48).
Proof.
  intros [H|H].
  - replace (a <? 2 ^ 47) with true by lia. by rewrite Z.mod_small by lia.
  - replace (a <? 2 ^ 47) with false by lia. symmetry. apply (Z.mod_unique a (2 ^ 48) (2 ^ 16 - 1)); lia.
Qed.

Lemma akey0_page a b : canonical_address a -> canonical_address b ->
  akey 0 a = akey 0 b <-> a / 4096 = b / 4096.
Proof.
  intros Ha Hb. rewrite akey_iff by lia. unfold akey. change (12 + 9 * Z.of_nat 0) with 12.
  change (2 ^ 12) with 4096. rewrite !canonical_low48 by done.
  assert (forall x, (x - (2 ^ 64 - 2 ^ 48)) / 4096 = x / 4096 - (2 ^ 52 - 2 ^ 36)) as Hs.
  { intros x. replace (x - (2 ^ 64 - 2 ^ 48)) with (x + (- (2 ^ 52 - 2 ^ 36)) * 4096) by lia.
    rewrite Z.div_add by lia. lia. }
  pose proof (Z.div_mod a 4096 ltac:(lia)). pose proof (Z.mod_pos_bound a 4096 ltac:(lia)).
  pose proof (Z.div_mod b 4096 ltac:(lia)). pose proof (Z.mod_pos_bound b 4096 ltac:(lia)).
  unfold canonical_address in *. destruct (a <? 2 ^ 47) eqn:E1, (b <? 2 ^ 47) eqn:E2; rewrite ?Hs; lia.
Qed.

Lemma boot_direct unmap_null a : canonical_address a ->
  boot_translation unmap_null (2 ^ 32) (2 ^ 32) a = direct_translation unmap_null a.
Proof.
  intros Ha. unfold boot_translation, direct_translation, BBP_IDENTITY_LIMIT, BBP_HHDM_OFFSET.
  rewrite canonical_low48 by done. destruct (a <? 2 ^ 47) eqn:E; unfold canonical_address in Ha.
  - destruct (a <? 2 ^ 32) eqn:E1.
    + replace (a <? 0x100000000) with true by lia. destruct (unmap_null && (a <? 4096)); cbn [negb andb]; [|done].
      by replace (_ <=? a) with false by lia.
    + replace (2 ^ 47 <=? a) with false by lia. replace (a <? 0x100000000) with false by lia. cbn [andb].
      by replace (_ <=? a) with false by lia.
  - replace (a - (2 ^ 64 - 2 ^ 48) <? 2 ^ 32) with false by lia. replace (a <? 0x100000000) with false by lia.
    cbn [andb]. replace (2 ^ 47 <=? a - (2 ^ 64 - 2 ^ 48)) with true by lia.
    replace (0xffff800000000000 <=? a) with true by lia. cbn [andb].
    replace (a <? 0xffff800000000000 + 0x100000000) with (a - (2 ^ 64 - 2 ^ 48) <? 2 ^ 47 + 2 ^ 32) by lia.
    destruct (a - (2 ^ 64 - 2 ^ 48) <? 2 ^ 47 + 2 ^ 32); [|done]. do 2 f_equal. lia.
Qed.

(** The direct map depends on the page only. *)
Lemma direct_page unmap_null a b : a / 4096 = b / 4096 ->
  direct_translation unmap_null a = None -> direct_translation unmap_null b = None.
Proof.
  intros E. unfold direct_translation, BBP_IDENTITY_LIMIT, BBP_HHDM_OFFSET.
  pose proof (Z.div_mod a 4096 ltac:(lia)). pose proof (Z.mod_pos_bound a 4096 ltac:(lia)).
  pose proof (Z.div_mod b 4096 ltac:(lia)). pose proof (Z.mod_pos_bound b 4096 ltac:(lia)).
  replace (b <? 0x100000000) with (a <? 0x100000000) by lia. replace (b <? 4096) with (a <? 4096) by lia.
  replace (0xffff800000000000 <=? b) with (0xffff800000000000 <=? a) by lia.
  replace (b <? 0xffff800000000000 + 0x100000000) with (a <? 0xffff800000000000 + 0x100000000) by lia.
  destruct (_ && negb _); [done|]. by destruct (_ && _).
Qed.

(** ** The pages of a segment *)

Section Segment.
Context (image_size : Z) (s : bbp_elf64_segment_plan) (Hs : segment_ok image_size s).

Lemma virtual_range :
  0 <= s_page_count s /\ virtual_base s mod 4096 = 0 /\ 0 <= virtual_base s /\
  (s_page_count s <> 0 -> virtual_end s <= 2 ^ 47 \/ 2 ^ 64 - 2 ^ 47 <= virtual_base s /\ virtual_end s <= 2 ^ 64).
Proof using Hs.
  destruct Hs as [_ _ _ Hpg Hc [? Hp] (Hb & ? & Hb') [H0 H1] (? & ? & ? & _)].
  unfold virtual_end, virtual_base, page_end_of, canonical, BBP_ELF64_PAGE_SIZE, ELF64_LOWER_CANONICAL_END,
    ELF64_UPPER_CANONICAL_START, ELF64_PHYSICAL_LIMIT, UINT64_MAX in *.
  set (va := s_virtual_address s) in *. set (pa := s_physical_address s) in *. set (pb := s_page_base s) in *.
  assert (pa - pb = pa mod 4096) as Hd.
  { apply Z.mod_divide in Hb as [k Hk]; [|lia]. apply (Z.mod_unique _ _ k); lia. }
  rewrite Hd, <- Hpg. pose proof (Z.div_mod va 4096 ltac:(lia)). pose proof (Z.mod_pos_bound va 4096 ltac:(lia)).
  assert (va - va mod 4096 = 4096 * (va / 4096)) as Hv by lia. rewrite Hv.
  apply Z.mod_divide in Hb as [k Hk]; [|lia].
  destruct (decide (s_memory_size s = 0)) as [E|E]; [specialize (H0 E)|specialize (H1 E)]; split_and!;
    try (rewrite Z.mul_comm; apply Z.mod_mul); lia.
Qed.

Lemma in_pages_canonical a : in_virtual_pages s a = true -> canonical_address a.
Proof using Hs.
  unfold in_virtual_pages, canonical_address. intros Ha. bool_to_prop.
  destruct virtual_range as (? & _ & ? & Hr). assert (s_page_count s <> 0); [|specialize (Hr ltac:(done)); lia].
  unfold virtual_end, BBP_ELF64_PAGE_SIZE in *. lia.
Qed.

(** The pages the code computes. *)
Lemma segment_virtual_page_eq : segment_virtual_page s = virtual_base s.
Proof using Hs.
  pose proof virtual_range as (_ & _ & ? & _). destruct Hs as [[? _] _ _ _ Hc [? ?] (_ & ? & ?) _ (? & ? & ? & _)].
  unfold segment_virtual_page. rewrite (wrap_small 64 (s_physical_address s - _)).
  - fold (virtual_base s). apply wrap_small. unfold in_word, virtual_base, canonical, ELF64_LOWER_CANONICAL_END,
      ELF64_UPPER_CANONICAL_START, UINT64_MAX, BBP_ELF64_PAGE_SIZE in *. lia.
  - unfold in_word, BBP_ELF64_PAGE_SIZE, ELF64_PHYSICAL_LIMIT in *. lia.
Qed.

Lemma page_of_segment k : 0 <= k < s_page_count s ->
  canonical_address (virtual_base s + k * 4096) /\ in_word 64 (virtual_base s + k * 4096) /\
  table_page (s_page_base s + k * 4096).
Proof using Hs.
  intros Hk. assert (canonical_address (virtual_base s + k * 4096)) as Hc.
  { apply in_pages_canonical. unfold in_virtual_pages, virtual_end, BBP_ELF64_PAGE_SIZE. lia. }
  split_and!; [done|unfold canonical_address, in_word in *; lia|].
  destruct Hs as [_ _ _ _ _ [? Hp] (Hb & ? & ?) [H0 H1] _].
  unfold table_page, page_end_of, BBP_ELF64_PAGE_SIZE, ELF64_PHYSICAL_LIMIT in *.
  split; [|by rewrite Z.mod_add by lia]. destruct (decide (s_memory_size s = 0)); lia.
Qed.

Lemma segment_flags_ok enable_nx : flag_bits (segment_pte_flags enable_nx s).
Proof. unfold segment_pte_flags. by destruct (negb _), (enable_nx && _). Qed.

Lemma segment_flags_bits enable_nx :
  Z.testbit (segment_pte_flags enable_nx s) 1 = Z.testbit (s_flags s) 1 /\
  Z.testbit (segment_pte_flags enable_nx s) 63 = enable_nx && negb (Z.testbit (s_flags s) 0).
Proof.
  unfold segment_pte_flags. change BBP_ELF64_PF_W with (2 ^ 1). change BBP_ELF64_PF_X with (2 ^ 0).
  rewrite !land_bit by lia. by destruct enable_nx, (Z.testbit (s_flags s) 1), (Z.testbit (s_flags s) 0).
Qed.

Lemma segment_pages_ok enable_nx : Forall page_map_ok (segment_pages enable_nx s).
Proof using Hs.
  apply Forall_map, List.Forall_forall. intros k Hk. apply list_elem_of_In, elem_of_seqZ in Hk.
  destruct (page_of_segment k) as (_ & _ & ?); [lia|]. split; [done|apply segment_flags_ok].
Qed.

(** Consecutive pages have consecutive keys. *)
Lemma segment_keys enable_nx :
  map (fun p => akey 0 (pm_virtual p)) (segment_pages enable_nx s) =
  seqZ (akey 0 (virtual_base s)) (s_page_count s).
Proof using Hs.
  unfold segment_pages. rewrite map_map. cbn [pm_virtual].
  rewrite <- (Z.add_0_r (akey 0 (virtual_base s))), <- fmap_add_seqZ.
  apply map_ext_in. intros k Hk. apply list_elem_of_In, elem_of_seqZ in Hk.
  destruct (page_of_segment k) as (Hc & _ & _); [lia|]. destruct (page_of_segment 0) as (Hc0 & _ & _); [lia|].
  rewrite Z.mul_0_l, Z.add_0_r in Hc0. destruct virtual_range as (_ & Hm & _ & Hr).
  unfold akey. change (2 ^ (12 + 9 * Z.of_nat 0)) with 4096. rewrite !canonical_low48 by done.
  specialize (Hr ltac:(lia)). unfold virtual_end, BBP_ELF64_PAGE_SIZE in Hr.
  replace (virtual_base s + k * 4096 <? 2 ^ 47) with (virtual_base s <? 2 ^ 47)
    by (unfold canonical_address in *; lia).
  destruct (virtual_base s <? 2 ^ 47); [|replace (virtual_base s + k * 4096 - _) with
    (virtual_base s - (2 ^ 64 - 2 ^ 48) + k * 4096) by lia]; rewrite Z.div_add by lia; lia.
Qed.

Lemma segment_find enable_nx a : canonical_address a ->
  option_map (fun p => page_translation p a) (find_page (segment_pages enable_nx s) a) =
  if in_virtual_pages s a then
    Some (Translation (s_page_base s + (a - virtual_base s)) (Z.testbit (s_flags s) 1)
            (enable_nx && negb (Z.testbit (s_flags s) 0)))
  else None.
Proof using Hs.
  intros Ha. destruct virtual_range as (_ & Hm & _ & _). apply Z.mod_divide in Hm as [q Hq]; [|lia].
  pose proof (Z.div_mod a 4096 ltac:(lia)). pose proof (Z.mod_pos_bound a 4096 ltac:(lia)).
  unfold find_page. destruct (List.find _ _) as [p|] eqn:Hf; cbn [option_map].
  - apply List.find_some in Hf as [Hin Hk]. apply bool_decide_eq_true in Hk.
    apply in_map_iff in Hin as (k & <- & Hin). apply list_elem_of_In, elem_of_seqZ in Hin. cbn [pm_virtual] in Hk.
    destruct (page_of_segment k) as (Hc & _ & _); [lia|]. rewrite akey0_page in Hk by done.
    replace ((virtual_base s + k * 4096) / 4096) with (q + k) in Hk
      by (rewrite Hq, <- Z.mul_add_distr_r, Z.div_mul; lia).
    unfold in_virtual_pages, virtual_end, BBP_ELF64_PAGE_SIZE. replace (_ && _) with true by lia.
    unfold page_translation. cbn [pm_physical pm_flags]. destruct (segment_flags_bits enable_nx) as [-> ->].
    do 2 f_equal. lia.
  - destruct (in_virtual_pages s a) eqn:Hin; [|done]. exfalso.
    unfold in_virtual_pages, virtual_end, BBP_ELF64_PAGE_SIZE in Hin.
    assert (0 <= a / 4096 - q < s_page_count s) as Hk by lia.
    destruct (page_of_segment _ Hk) as (Hc & _ & _).
    eapply List.find_none in Hf; [|apply in_map, list_elem_of_In, elem_of_seqZ; split; [apply Hk|lia]].
    cbn [pm_virtual] in Hf. apply bool_decide_eq_false in Hf. apply Hf. apply akey0_page; [done..|].
    replace (virtual_base s + (a / 4096 - q) * 4096) with (a / 4096 * 4096) by lia. by rewrite Z.div_mul.
Qed.
End Segment.

(** ** All segments *)

Section Segments.
Context (image_size : Z).

Lemma plan_pages_ok enable_nx segs :
  Forall (segment_ok image_size) segs -> Forall page_map_ok (plan_pages enable_nx segs).
Proof.
  unfold plan_pages. induction 1; cbn [map concat]; [constructor|].
  apply Forall_app. split; [by eapply segment_pages_ok|done].
Qed.

Lemma find_page_app ps qs a :
  find_page (ps ++ qs) a = match find_page ps a with Some p => Some p | None => find_page qs a end.
Proof.
  unfold find_page. induction ps as [|p ps IH]; [done|]. cbn [app List.find]. by destruct (bool_decide _).
Qed.

Lemma plan_find enable_nx segs a : Forall (segment_ok image_size) segs -> canonical_address a ->
  option_map (fun p => page_translation p a) (find_page (plan_pages enable_nx segs) a) =
  kernel_translation enable_nx segs a.
Proof.
  intros Hsegs Ha. unfold plan_pages, kernel_translation. induction Hsegs as [|s l Hs Hl IH]; [done|].
  cbn [map concat List.find]. rewrite find_page_app. pose proof (segment_find _ _ Hs enable_nx a Ha) as H.
  destruct (find_page (segment_pages enable_nx s) a) as [p|]; cbn [option_map] in *.
  - destruct (in_virtual_pages s a); [|done]. by rewrite H.
  - destruct (in_virtual_pages s a); [done|]. apply IH.
Qed.

(** The keys of the tables do not depend on the flags. *)
Lemma plan_keys enable_nx segs : pages_keys (plan_pages enable_nx segs) = pages_keys (plan_pages false segs).
Proof.
  unfold pages_keys, plan_pages. f_equal. rewrite !concat_map, !map_map. f_equal. apply map_ext. intros s.
  unfold segment_pages. by rewrite !map_map.
Qed.

Lemma akey_segment_apart s t : segment_ok image_size s -> segment_ok image_size t ->
  (forall q, In q (seqZ (akey 0 (virtual_base s)) (s_page_count s)) ->
     ~ In q (seqZ (akey 0 (virtual_base t)) (s_page_count t))) <-> virtual_apart s t.
Proof.
  intros Hs Ht. rewrite <- (segment_keys _ _ Hs false), <- (segment_keys _ _ Ht false).
  destruct (virtual_range _ _ Hs) as (? & Hms & ? & _), (virtual_range _ _ Ht) as (? & Hmt & ? & _).
  apply Z.mod_divide in Hms as [q1 Hq1]; [|lia]. apply Z.mod_divide in Hmt as [q2 Hq2]; [|lia].
  assert (forall k l, 0 <= k < s_page_count s -> 0 <= l < s_page_count t ->
    akey 0 (virtual_base s + k * 4096) = akey 0 (virtual_base t + l * 4096) <-> q1 + k = q2 + l) as Hk.
  { intros k l Hk Hl. destruct (page_of_segment _ _ Hs k Hk) as (? & _), (page_of_segment _ _ Ht l Hl) as (? & _).
    rewrite akey0_page, Hq1, Hq2, <- !Z.mul_add_distr_r, !Z.div_mul by (done || lia). done. }
  unfold segment_pages. rewrite !map_map. cbn [pm_virtual].
  unfold virtual_apart, virtual_end, BBP_ELF64_PAGE_SIZE. rewrite Hq1, Hq2 in *. split.
  - intros Hno. destruct (decide (s_page_count s = 0)); [lia|]. destruct (decide (s_page_count t = 0)); [lia|].
    destruct (decide (q1 <= q2)).
    + destruct (decide (q1 + s_page_count s <= q2)); [lia|]. exfalso.
      apply (Hno (akey 0 (q1 * 4096 + (q2 - q1) * 4096))).
      * apply (in_map (fun k => akey 0 (q1 * 4096 + k * 4096))), list_elem_of_In, elem_of_seqZ. lia.
      * apply in_map_iff. exists 0. rewrite <- list_elem_of_In, elem_of_seqZ. split; [|lia]. symmetry. apply Hk; lia.
    + destruct (decide (q2 + s_page_count t <= q1)); [lia|]. exfalso.
      apply (Hno (akey 0 (q1 * 4096 + 0 * 4096))).
      * apply (in_map (fun k => akey 0 (q1 * 4096 + k * 4096))), list_elem_of_In, elem_of_seqZ. lia.
      * apply in_map_iff. exists (q1 - q2). rewrite <- list_elem_of_In, elem_of_seqZ. split; [|lia]. symmetry. apply Hk; lia.
  - intros Hap q Hin1 Hin2. apply in_map_iff in Hin1 as (k & <- & Hin1). apply in_map_iff in Hin2 as (l & E & Hin2).
    rewrite <- list_elem_of_In, elem_of_seqZ in Hin1, Hin2. symmetry in E. apply Hk in E; lia.
Qed.

Lemma plan_nodup enable_nx segs : Forall (segment_ok image_size) segs ->
  NoDup (map (fun p => akey 0 (pm_virtual p)) (plan_pages enable_nx segs)) <-> ForallOrdPairs virtual_apart segs.
Proof.
  unfold plan_pages. induction 1 as [|s l Hs Hl IH]; cbn [map concat]; [by split; constructor|].
  rewrite map_app, (segment_keys _ _ Hs), NoDup_app, IH.
  assert ((forall q, q ∈ seqZ (akey 0 (virtual_base s)) (s_page_count s) ->
      q ∉ map (fun p => akey 0 (pm_virtual p)) (concat (map (segment_pages enable_nx) l))) <->
    Forall (virtual_apart s) l) as ->.
  { clear IH. induction Hl as [|t l Ht Hl IH]; cbn [map concat]; [split; [constructor|intros _ q _; by apply not_elem_of_nil]|].
    rewrite map_app, (segment_keys _ _ Ht), Forall_cons, <- IH, <- (akey_segment_apart s t Hs Ht).
    setoid_rewrite not_elem_of_app. repeat setoid_rewrite list_elem_of_In.
    split; [intros Hq; split; intros q Hin; by apply Hq|]. intros [H1 H2] q Hin. split; [by apply H1|by apply H2]. }
  split; [intros (_ & ? & ?); by constructor|]. intros Hf. inversion Hf. split_and!; [apply NoDup_seqZ|done|done].
Qed.

Lemma plan_free enable_nx unmap_null E segs : Forall (segment_ok image_size) segs ->
  (forall a, translate E a = boot_translation unmap_null (2 ^ 32) (2 ^ 32) a) ->
  Forall (fun p => translate E (pm_virtual p) = None) (plan_pages enable_nx segs) <->
  Forall (fun s => forall a, in_virtual_pages s a = true -> direct_translation unmap_null a = None) segs.
Proof.
  intros Hsegs Htr. unfold plan_pages. induction Hsegs as [|s l Hs Hl IH]; cbn [map concat]; [by split; constructor|].
  rewrite Forall_app, Forall_cons, IH. f_equiv. unfold segment_pages. rewrite Forall_map, List.Forall_forall. cbn [pm_virtual].
  destruct (virtual_range _ _ Hs) as (? & Hm & ? & _). apply Z.mod_divide in Hm as [q Hq]; [|lia].
  unfold in_virtual_pages, virtual_end, BBP_ELF64_PAGE_SIZE. split.
  - intros Hall a Ha. pose proof (Z.div_mod a 4096 ltac:(lia)). pose proof (Z.mod_pos_bound a 4096 ltac:(lia)).
    assert (0 <= a / 4096 - q < s_page_count s) as Hk by lia. destruct (page_of_segment _ _ Hs _ Hk) as (Hc & _).
    eapply direct_page; [|rewrite <- boot_direct, <- Htr; [apply Hall, list_elem_of_In, elem_of_seqZ; split; [apply Hk|lia]|exact Hc]].
    rewrite Hq, <- Z.mul_add_distr_r, Z.div_mul by lia. lia.
  - intros Hall k Hk. apply list_elem_of_In, elem_of_seqZ in Hk. destruct (page_of_segment _ _ Hs k) as (Hc & _); [lia|].
    rewrite Htr, boot_direct by done. apply Hall. lia.
Qed.

(** ** The loop over the segments is [map_pages] *)

Lemma map_segment_pages_eq s root flags n : segment_ok image_size s -> forall m pool page,
  0 <= page -> page + Z.of_nat n = s_page_count s ->
  map_segment_pages m pool root (virtual_base s) (s_page_base s) flags page n =
  map_pages m pool root
    (map (fun k => PageMap (virtual_base s + k * 4096) (s_page_base s + k * 4096) flags) (seqZ page (Z.of_nat n))).
Proof.
  intros Hs. induction n as [|n IH]; intros m pool page Hp Hn; [done|].
  rewrite seqZ_cons by lia. replace (Z.pred (Z.of_nat (S n))) with (Z.of_nat n) by lia. cbn [map map_pages map_segment_pages].
  destruct (page_of_segment _ _ Hs page) as (_ & Hw & Ht & _); [lia|]. unfold EFI_PAGE_SIZE.
  rewrite (wrap_small 64 (virtual_base s + _)) by done. rewrite wrap_small by (unfold in_word; lia).
  unfold map_one. cbn [pm_virtual pm_physical pm_flags].
  destruct (map_page _ _ _ _ _ _) as [[[m1 pool1] [|]]|]; cbn [mbind option_bind]; [|done..].
  rewrite IH by lia. by rewrite Z.add_1_r.
Qed.

Lemma map_segments_eq root enable_nx segs : Forall (segment_ok image_size) segs -> forall m pool,
  map_segments m pool root enable_nx segs = map_pages m pool root (plan_pages enable_nx segs).
Proof.
  induction 1 as [|s l Hs Hl IH]; intros m pool; [done|]. cbn [map_segments plan_pages map concat].
  rewrite map_pages_app, (segment_virtual_page_eq _ _ Hs). destruct (virtual_range _ _ Hs) as (? & _).
  rewrite (map_segment_pages_eq s) by (done || lia). rewrite Z2Nat.id by done. fold (segment_pages enable_nx s).
  destruct (map_pages _ _ _ _) as [[[m1 pool1] [|]]|]; cbn [mbind option_bind]; [apply IH|done..].
Qed.
End Segments.

(** ** The whole tables *)

(** The first table of the pool is the root. *)
Lemma root_tables m pool :
  pool_ok m pool -> pool_used pool = 0 -> 0 < pool_count pool ->
  let pool1 := PagePool (pool_base pool) 1 (pool_count pool) in
  table_new pool = (pool1, pool_base pool) /\
  tables m pool1 (pool_base pool) {[(4%nat, 0) := pool_base pool]} ∅ [].
Proof.
  intros [[Hb0 Hb] Hu Hlim Hm Hz] H0 Hc. cbn zeta. unfold table_new. rewrite H0.
  replace (0 =? pool_count pool) with false by lia. unfold EFI_PAGE_SIZE.
  rewrite Z.mul_0_l, Z.add_0_r, wrap_small by (unfold in_word; lia). split; [done|].
  split; try done; cbn [pool_base pool_used pool_count].
  - split; cbn [pool_base pool_used pool_count]; try done; [lia|]. intros x Hx. apply Hz. lia.
  - intros k t Hk. apply lookup_singleton_Some in Hk as [_ <-]. exists 0. cbn. lia.
  - intros k k' t Hk Hk'. apply lookup_singleton_Some in Hk as [<- _]. by apply lookup_singleton_Some in Hk' as [<- _].
  - intros j p t i Hk Hi. apply lookup_singleton_Some in Hk as [_ <-]. rewrite entry_at_None by apply lookup_empty.
    apply load64_of_zeros; [|done]. intros n b Hn. apply lookup_replicate in Hn as [-> Hn]. apply Hz. lia.
  - intros j p t Hk. apply lookup_singleton_Some in Hk as [<- _]. by left.
  - constructor.
Qed.

(** The root and the two tables below it. *)
Lemma first_tables unmap_null m pool :
  pool_ok m pool -> pool_used pool = 0 -> 3 <= pool_count pool ->
  exists pool1 pool2 pool3 ip hp m1 m2 tbl E,
    table_new pool = (pool1, pool_base pool) /\ table_new pool1 = (pool2, ip) /\ table_new pool2 = (pool3, hp) /\
    0 < ip /\ 0 < hp /\ store64 m (pool_base pool) (table_entry ip) = Some m1 /\
    store64 m1 (pool_base pool + 8 * 256) (table_entry hp) = Some m2 /\
    pool_frame pool m m2 /\ same_pool pool pool3 /\ pool_used pool3 = 3 /\
    before_gb unmap_null (pool_base pool) ip hp m2 pool3 tbl E 0 /\
    dom tbl = {[(4%nat, 0)]} ∪ {[(3%nat, 0)]} ∪ {[(3%nat, 256)]}.
Proof.
  intros Hp H0 Hc. destruct (root_tables m pool Hp H0 ltac:(lia)) as [N1 Ht1].
  set (pool1 := PagePool (pool_base pool) 1 (pool_count pool)) in *. set (root := pool_base pool) in *.
  pose proof (table_new_spec _ _ _ _ _ _ Ht1) as Hnew. rewrite decide_False in Hnew by (cbn; lia).
  destruct Hnew as (ip & N2 & Hi0 & Ht2). cbn [pool_base pool_used pool_count pool1 app] in N2, Ht2.
  set (pool2 := PagePool root (1 + 1) (pool_count pool)) in *.
  pose proof (table_new_spec _ _ _ _ _ _ Ht2) as Hnew. rewrite decide_False in Hnew by (cbn; lia).
  destruct Hnew as (hp & N3 & Hh0 & Ht3). cbn [pool_base pool_used pool_count pool2 app] in N3, Ht3.
  set (pool3 := PagePool root (1 + 1 + 1) (pool_count pool)) in *.
  destruct (link_step m pool3 root _ _ [hp] 3 0 root ip 0 Ht3) as (m1 & St1 & F1 & Ht4 & Htr4);
    [apply lookup_singleton_eq|lia|lia|apply lookup_empty|]. rewrite Z.mul_0_r, Z.add_0_r in Ht4, Htr4. rewrite Z.mul_0_r, Z.add_0_r in St1.
  destruct (link_step m1 pool3 root _ _ [] 3 0 root hp 256 Ht4) as (m2 & St2 & F2 & Ht5 & Htr5);
    [rewrite lookup_insert_ne by done; apply lookup_singleton_eq|lia|lia|by rewrite lookup_insert_ne|].
  rewrite Z.mul_0_r, Z.add_0_l in Ht5, Htr5.
  do 7 eexists. eexists _, _. split_and!; try done; [by eapply frame_trans| |].
  - split; [exact Ht5|by rewrite lookup_insert_ne, lookup_insert_eq|by rewrite lookup_insert_eq| |].
    + intros i Hi. by rewrite !lookup_insert_ne.
    + intros a. rewrite Htr5, Htr4. unfold boot_translation. pose proof (Z.mod_pos_bound a (2 ^ 48) ltac:(lia)).
      replace (a mod 2 ^ 48 <? 0 * 2 ^ 30) with false by lia.
      by replace ((2 ^ 47 <=? a mod 2 ^ 48) && _) with false by lia.
  - rewrite !dom_insert_L, dom_singleton_L. set_solver.
Qed.

Lemma build_page_tables_spec m pool plan enable_nx unmap_null image_size :
  pool_ok m pool -> pool_used pool = 0 -> 12 <= pool_count pool ->
  Forall (segment_ok image_size) (planned plan) ->
  exists m' pool' r, build_page_tables m pool plan enable_nx unmap_null = Some (m', pool', r) /\
    pool_frame pool m m' /\
    (r = None -> ~ placeable unmap_null (pool_count pool) (planned plan)) /\
    (forall pml4, r = Some pml4 ->
       pml4 = pool_base pool /\ placeable unmap_null (pool_count pool) (planned plan) /\
       forall m2, same_on m' m2 (pool_base pool) (4096 * pool_count pool) ->
       forall a, walk m2 pml4 a = Some (boot_address_space enable_nx unmap_null (planned plan) a)).
Proof.
  intros Hp H0 Hc Hsegs. unfold build_page_tables.
  destruct (first_tables unmap_null m pool Hp H0) as (pool1 & pool2 & pool3 & ip & hp & m1 & m2 & tbl & E & -> & -> & -> & Hi0
    & Hh0 & -> & St2 & F2 & S3 & U3 & Hb & Hd); [lia|].
  pose proof (po_base _ _ Hp) as [Hb0 _]. set (root := pool_base pool) in *.
  replace ((root =? 0) || (ip =? 0) || (hp =? 0)) with false by lia. cbn [mbind option_bind]. rewrite St2. cbn [mbind option_bind].
  destruct (map_gbs_spec unmap_null root ip hp 4 m2 pool3 tbl E 0) as (m3 & pool4 & tbl4 & E4 & -> & F4 & S4 & Hb4 & Hd4);
    [done|done|done|destruct S3 as [_ ->]; cbn; lia|]. cbn [mbind option_bind].
  destruct Hb4 as [Ht4 _ _ _ Htr4]. change (4 * 2 ^ 30) with (2 ^ 32) in Htr4.
  rewrite (map_segments_eq image_size) by done. set (ps := plan_pages enable_nx (planned plan)).
  destruct (map_pages_spec ps m3 pool4 root tbl4 E4 Ht4) as (m5 & pool5 & ok & -> & F5 & S5 & Hok);
    [by eapply plan_pages_ok|]. cbn [mbind option_bind].
  assert (mappable (pool_count pool4) (dom tbl4) E4 ps <-> placeable unmap_null (pool_count pool) (planned plan)) as Hiff.
  { unfold mappable, ps. rewrite (plan_nodup image_size), (plan_free image_size enable_nx unmap_null E4), plan_keys by done.
    destruct S3 as [_ E3], S4 as [_ ->]. rewrite E3, Hd4, Hd. fold boot_keys.
    split; [intros (? & ? & ?); by split|intros []; by split_and!]. }
  assert (pool_frame pool m m5) as F.
  { eapply frame_trans; [exact F2|]. eapply pool_frame_same; [exact S3|]. eapply frame_trans; [exact F4|].
    by eapply pool_frame_same. }
  destruct ok; [|by rewrite Hiff in Hok; exists m5, pool5, None].
  destruct Hok as (Hpl & tbl5 & E5 & Ht5 & Htr5). apply Hiff in Hpl.
  exists m5, pool5, (Some root). split_and!; [done|done|done|]. intros pml4 [= <-]. split_and!; [done|done|].
  intros m6 Hs6 a. apply (tables_same _ m6) in Ht5; [|destruct S3 as [B3 C3], S4 as [B4 C4], S5 as [B5 C5]; by rewrite B5, C5, B4, C4, B3, C3].
  unfold boot_address_space. case_bool_decide as Ha; [|by unfold walk; rewrite bool_decide_eq_false_2].
  rewrite (walk_translate _ _ _ _ _ _ _ Ht5 Ha), Htr5, Htr4, boot_direct by done. f_equal.
  pose proof (plan_find image_size enable_nx (planned plan) a Hsegs Ha) as Hf. fold ps in Hf. rewrite <- Hf.
  destruct (find_page ps a) as [p|] eqn:Hfp; cbn [option_map]; [|by destruct (direct_translation _ _)].
  destruct (direct_translation unmap_null a) eqn:Hdt; [|done]. exfalso.
  unfold kernel_translation in Hf. destruct (List.find _ _) as [s|] eqn:Hs; [|done].
  apply List.find_some in Hs as [Hin Hs]. destruct Hpl as [_ Hfree _]. rewrite List.Forall_forall in Hfree.
  by rewrite (Hfree s Hin a Hs) in Hdt.
Qed.

(** A pool whose pages hold only zeros. *)
Lemma zero_pool base n : 0 < base -> base mod 4096 = 0 -> base + 4096 * Z.of_nat n <= 2 ^ 52 ->
  pool_ok (mem_of base (replicate (n * 4096) x00)) (PagePool base 0 (Z.of_nat n)).
Proof.
  intros Hb Hm Hl. pose proof (bytes_at_mem_of base (replicate (n * 4096) x00)) as Hat.
  split; cbn [pool_base pool_used pool_count]; [lia|lia|lia| |].
  - apply bytes_at_mapped in Hat. rewrite zlen_replicate in Hat. by replace (4096 * Z.of_nat n) with (Z.of_nat (n * 4096)) by lia.
  - intros x Hx. replace x with (base + Z.of_nat (Z.to_nat (x - base))) by lia. apply Hat, lookup_replicate.
    split; [done|lia].
Qed.

(** One read-execute page at 1 MiB for the top 2 GiB. *)
Module PagingSample.
Definition text : bbp_elf64_segment_plan :=
  SegmentPlan 0 512 4096 0xffffffff80100000 0x100000 0x100000 1 4096 5.
Definition plan : bbp_elf64_plan := Elf64Plan 0xffffffff80100010 0x100000 0x101000 1 [text].

Lemma text_ok : segment_ok 512 text.
Proof.
  split; unfold executable, writable, canonical, page_end_of; cbn; try (vm_compute; tauto).
  - lia.
  - intros [H _]. discriminate.
  - intros _. split; [by exists 12|done].
  - right. vm_compute. split; discriminate.
  - vm_compute. split; discriminate.
  - vm_compute. split_and!; try done; discriminate.
  - split; [done|]. intros _. vm_compute. split_and!; try done; discriminate.
  - vm_compute. split_and!; try done; discriminate.
Qed.

Lemma placed : placeable true 32 [text].
Proof.
  split.
  - repeat constructor.
  - constructor; [|constructor]. intros a Ha. unfold in_virtual_pages in Ha. bool_to_prop.
    change (virtual_base text) with 0xffffffff80100000 in *. change (virtual_end text) with 0xffffffff80101000 in *.
    unfold direct_translation, BBP_IDENTITY_LIMIT, BBP_HHDM_OFFSET. replace (a <? 0x100000000) with false by lia.
    cbn [andb]. by replace ((0xffff800000000000 <=? a) && _) with false by lia.
  - vm_compute. discriminate.
Qed.
End PagingSample.

(** C18: the loader's page tables are exactly what is promised.  From a pool of
    zeroed pages (at least the 12 the first 4 GiB need) and a plan of sound
    segments, building them never faults, writes nothing outside the pool, and
    succeeds exactly when the segments can be placed: no two share a virtual
    page, none meets the identity or the direct map, and the pool has a page
    for every table.  The processor then translates every 64-bit address as
    specified: the first 4 GiB to themselves and from the direct-map offset
    (with or without the null page), every segment page to its physical page
    with the segment's write permission and, if enabled, its execute
    permission, and any other address faults. *)
Theorem page_tables_exact (m : mem) (pool : page_pool) (plan : bbp_elf64_plan)
    (enable_nx unmap_null : bool) (image_size : Z) :
  pool_ok m pool -> pool_used pool = 0 -> 12 <= pool_count pool ->
  Forall (segment_ok image_size) (planned plan) ->
  exists m' pool' r, build_page_tables m pool plan enable_nx unmap_null = Some (m', pool', r) /\
    pool_frame pool m m' /\
    (r = None -> ~ placeable unmap_null (pool_count pool) (planned plan)) /\
    (forall pml4, r = Some pml4 ->
       pml4 = pool_base pool /\ placeable unmap_null (pool_count pool) (planned plan) /\
       forall a, walk m' pml4 a = Some (boot_address_space enable_nx unmap_null (planned plan) a)).
Proof.
  intros Hp H0 Hc Hs. destruct (build_page_tables_spec m pool plan enable_nx unmap_null image_size Hp H0 Hc Hs)
    as (m' & pool' & r & E & F & Hno & Hyes).
  exists m', pool', r. split_and!; [done..|]. intros pml4 Hr. destruct (Hyes pml4 Hr) as (? & ? & Hw).
  split_and!; [done..|]. intros a. by apply Hw.
Qed.

Lemma page_tables_exact_witness :
  exists m' pool',
    build_page_tables (mem_of 0x200000 (replicate (32 * 4096) x00)) (PagePool 0x200000 0 32)
      PagingSample.plan false true = Some (m', pool', Some 0x200000) /\
    walk m' 0x200000 0xffffffff80100010 = Some (Some (Translation 0x100010 false false)) /\
    walk m' 0x200000 0x10 = Some None.
Proof.
  destruct (page_tables_exact (mem_of 0x200000 (replicate (32 * 4096) x00)) (PagePool 0x200000 0 32)
    PagingSample.plan false true 512) as (m' & pool' & r & E & _ & Hno & Hyes).
  - exact (zero_pool 0x200000 32 eq_refl eq_refl ltac:(lia)).
  - reflexivity.
  - cbn. lia.
  - constructor; [exact PagingSample.text_ok|constructor].
  - destruct r as [pml4|]; [|destruct (Hno eq_refl); exact PagingSample.placed].
    destruct (Hyes pml4 eq_refl) as (-> & _ & Hw). exists m', pool'. split; [exact E|]. split; rewrite Hw; reflexivity.
Defined.
