(* ===== verification/Loader.v ===== *)
(** * The UEFI loader (bootloader/efi_main.c, bootloader/uefi/uefi_min.h)

    The loader's functions other than the page tables ([Paging]), the ELF
    planner ([ElfPlan]) and the ExitBootServices loop ([UefiExit]).  Firmware is
    a parameter: a state [F] and one function per service the loader calls, each
    of which may change its own state and any memory.  The loader runs in a
    state monad over firmware state, memory and a log of the resources it
    obtained and gave back; [None] is a fault.  Serial output is not modelled;
    the reason of a failure is part of the outcome. *)

From stdpp Require Import strings.
From S2P Require Import Prelude Memory Crc64 Abi KernelParser Builder ElfPlan UefiExit Paging.

(** ** Constants (uefi_min.h) *)

Definition EFI_SUCCESS : Z := 0.
Definition EFI_LOAD_ERROR : Z := 0x8000000000000001.
Definition EFI_INVALID_PARAMETER : Z := 0x8000000000000002.
Definition EFI_BUFFER_TOO_SMALL : Z := 0x8000000000000005.
Definition EFI_FILE_MODE_READ : Z := 1.

Definition AllocateMaxAddress : Z := 1.
Definition AllocateAddress : Z := 2.

Definition EfiReservedMemoryType : Z := 0.
Definition EfiLoaderCode : Z := 1.
Definition EfiLoaderData : Z := 2.
Definition EfiBootServicesCode : Z := 3.
Definition EfiBootServicesData : Z := 4.
Definition EfiConventionalMemory : Z := 7.
Definition EfiUnusableMemory : Z := 8.
Definition EfiACPIReclaimMemory : Z := 9.
Definition EfiACPIMemoryNVS : Z := 10.
Definition EfiMemoryMappedIO : Z := 11.
Definition EfiMemoryMappedIOPortSpace : Z := 12.
Definition EfiPersistentMemory : Z := 14.

Definition EFI_MEMORY_UC : Z := 0x0000000000000001.
Definition EFI_MEMORY_WC : Z := 0x0000000000000002.
Definition EFI_MEMORY_WT : Z := 0x0000000000000004.
Definition EFI_MEMORY_WB : Z := 0x0000000000000008.
Definition EFI_MEMORY_UCE : Z := 0x0000000000000010.
Definition EFI_MEMORY_WP : Z := 0x0000000000001000.
Definition EFI_MEMORY_RP : Z := 0x0000000000002000.
Definition EFI_MEMORY_XP : Z := 0x0000000000004000.
Definition EFI_MEMORY_RO : Z := 0x0000000000020000.

(** The sizes of the structures the loader reads in memory. *)
Definition SIZEOF_DESCRIPTOR : Z := 40.
Definition SIZEOF_FILE_INFO_PREFIX : Z := 24.

Definition BBP_ARENA_PAGES : Z := 256.
Definition BBP_STACK_PAGES : Z := 16.
Definition BBP_PAGE_TABLE_PAGES : Z := 32.
Definition BBP_MAX_KERNEL_FILE : Z := 16 * 1024 * 1024.
Definition BBP_MAX_REQUESTS : Z := 64.
Definition BBP_HF_UNMAP_NULL_PAGE : Z := Z.shiftl 1 2.
Definition BBP_SUPPORTED_HEADER_FLAGS : Z := BBP_HF_UNMAP_NULL_PAGE.
Definition BBP_REQ_OPTIONAL : Z := Z.shiftl 1 0.

(** A GUID as its fields. *)
Definition efi_guid : Type := Z * Z * Z * list Z.
Definition BBP_EFI_LOADED_IMAGE_GUID : efi_guid :=
  (0x5b1b31a1, 0x9562, 0x11d2, [0x8e; 0x3f; 0x00; 0xa0; 0xc9; 0x69; 0x72; 0x3b]).
Definition BBP_EFI_SIMPLE_FILE_SYSTEM_GUID : efi_guid :=
  (0x964e5b22, 0x6459, 0x11d2, [0x8e; 0x39; 0x00; 0xa0; 0xc9; 0x69; 0x72; 0x3b]).
Definition BBP_EFI_FILE_INFO_GUID : efi_guid :=
  (0x09576e92, 0x6d3f, 0x11d2, [0x8e; 0x39; 0x00; 0xa0; 0xc9; 0x69; 0x72; 0x3b]).

(** [\kernel.elf] *)
Definition kernel_path : list Z := [92; 107; 101; 114; 110; 101; 108; 46; 101; 108; 102; 0].

(** ** Firmware

    A service takes the value an in/out argument has before the call and returns
    the value it has afterwards, after the status.  A handle, protocol or file
    is the address the firmware gave for it, 0 for NULL. *)

Record efi_services (F : Type) := EfiServices {
  AllocatePages : F -> mem -> Z -> Z -> Z -> Z -> F * mem * Z * Z;
  FreePages : F -> mem -> Z -> Z -> F * mem * Z;
  GetMemoryMap : F -> mem -> Z -> map_args -> F * mem * Z * map_args;
  AllocatePool : F -> mem -> Z -> Z -> Z -> F * mem * Z * Z;
  FreePool : F -> mem -> Z -> F * mem * Z;
  HandleProtocol : F -> mem -> Z -> efi_guid -> Z -> F * mem * Z * Z;
  ExitBootServices : F -> mem -> Z -> Z -> F * mem * Z;
  OpenVolume : F -> mem -> Z -> Z -> F * mem * Z * Z;
  FileOpen : F -> mem -> Z -> Z -> list Z -> Z -> F * mem * Z * Z;
  FileGetInfo : F -> mem -> Z -> efi_guid -> Z -> Z -> F * mem * Z * Z;
  FileRead : F -> mem -> Z -> Z -> Z -> F * mem * Z * Z;
  FileClose : F -> mem -> Z -> F * mem;
}.
Arguments AllocatePages {F}.
Arguments FreePages {F}.
Arguments GetMemoryMap {F}.
Arguments AllocatePool {F}.
Arguments FreePool {F}.
Arguments HandleProtocol {F}.
Arguments ExitBootServices {F}.
Arguments OpenVolume {F}.
Arguments FileOpen {F}.
Arguments FileGetInfo {F}.
Arguments FileRead {F}.
Arguments FileClose {F}.

(** What the loader holds. *)
Inductive resource :=
  | Pages (address count : Z)
  | Pool (pointer : Z)
  | File (handle : Z).

#[global] Instance resource_eq_dec : EqDecision resource.
Proof. solve_decision. Defined.

(** Resources obtained and given back.  [Stray r]: a call failed, and [r] is what
    its output variable, which the loader goes on using, held afterwards. *)
Inductive trace_event := Got (r : resource) | Gave (r : resource) | Stray (r : resource).

Record machine (F : Type) := Machine {
  mc_fw : F;
  mc_mem : mem;
  mc_log : list trace_event;
}.
Arguments Machine {F}.
Arguments mc_fw {F}.
Arguments mc_mem {F}.
Arguments mc_log {F}.

(** ** The monad *)

Definition loader (F A : Type) : Type := machine F -> option (machine F * A).

#[global] Instance loader_ret F : MRet (loader F) := fun A a w => Some (w, a).
#[global] Instance loader_bind F : MBind (loader F) := fun A B k c w =>
  match c w with
  | Some (w', a) => k a w'
  | None => None
  end.

Section Loader.
Context {F : Type} (efi : efi_services F).

(** ** Memory and calls *)

(** A read of memory, and a write. *)
Definition peek {A} (f : mem -> option A) : loader F A :=
  fun w => a ← f (mc_mem w); Some (w, a).
Definition poke (f : mem -> option mem) : loader F unit :=
  fun w => m ← f (mc_mem w); Some (Machine (mc_fw w) m (mc_log w), tt).

(** The loop has run out of fuel. *)
Definition out_of_fuel {A} : loader F A := fun _ => None.

(** The state after a service call that obtained or gave back resources. *)
Definition record_event (es : list trace_event) (f : F) (m : mem) (w : machine F) : machine F :=
  Machine f m (mc_log w ++ es).

Definition call_AllocatePages (kind memory pages address : Z) : loader F (Z * Z) :=
  fun w =>
    let '(f, m, status, out) := AllocatePages efi (mc_fw w) (mc_mem w) kind memory pages address in
    Some (record_event (if status =? EFI_SUCCESS then [Got (Pages out pages)] else []) f m w, (status, out)).

Definition call_FreePages (address pages : Z) : loader F unit :=
  fun w =>
    let '(f, m, _) := FreePages efi (mc_fw w) (mc_mem w) address pages in
    Some (record_event [Gave (Pages address pages)] f m w, tt).

Definition call_AllocatePool (memory size pointer : Z) : loader F (Z * Z) :=
  fun w =>
    let '(f, m, status, out) := AllocatePool efi (mc_fw w) (mc_mem w) memory size pointer in
    Some (record_event [if status =? EFI_SUCCESS then Got (Pool out) else Stray (Pool out)] f m w, (status, out)).

Definition call_FreePool (pointer : Z) : loader F unit :=
  fun w =>
    let '(f, m, _) := FreePool efi (mc_fw w) (mc_mem w) pointer in
    Some (record_event [Gave (Pool pointer)] f m w, tt).

Definition call_GetMemoryMap (buffer : Z) (a : map_args) : loader F (Z * map_args) :=
  fun w =>
    let '(f, m, status, a) := GetMemoryMap efi (mc_fw w) (mc_mem w) buffer a in
    Some (record_event [] f m w, (status, a)).

Definition call_HandleProtocol (handle : Z) (guid : efi_guid) (interface : Z) : loader F (Z * Z) :=
  fun w =>
    let '(f, m, status, out) := HandleProtocol efi (mc_fw w) (mc_mem w) handle guid interface in
    Some (record_event [] f m w, (status, out)).

Definition call_OpenVolume (filesystem root : Z) : loader F (Z * Z) :=
  fun w =>
    let '(f, m, status, out) := OpenVolume efi (mc_fw w) (mc_mem w) filesystem root in
    Some (record_event (if status =? EFI_SUCCESS then [Got (File out)] else []) f m w, (status, out)).

Definition call_Open (root file : Z) (path : list Z) (mode : Z) : loader F (Z * Z) :=
  fun w =>
    let '(f, m, status, out) := FileOpen efi (mc_fw w) (mc_mem w) root file path mode in
    Some (record_event [if status =? EFI_SUCCESS then Got (File out) else Stray (File out)] f m w, (status, out)).

Definition call_GetInfo (file : Z) (guid : efi_guid) (size buffer : Z) : loader F (Z * Z) :=
  fun w =>
    let '(f, m, status, size) := FileGetInfo efi (mc_fw w) (mc_mem w) file guid size buffer in
    Some (record_event [] f m w, (status, size)).

Definition call_Read (file amount buffer : Z) : loader F (Z * Z) :=
  fun w =>
    let '(f, m, status, amount) := FileRead efi (mc_fw w) (mc_mem w) file amount buffer in
    Some (record_event [] f m w, (status, amount)).

Definition call_Close (file : Z) : loader F unit :=
  fun w =>
    let '(f, m) := FileClose efi (mc_fw w) (mc_mem w) file in
    Some (record_event [Gave (File file)] f m w, tt).

(** [if (c) action;] *)
Definition when_do (c : bool) (action : loader F unit) : loader F unit :=
  if c then action else mret tt.

(** ** Allocation and files *)

(** The status and the value of [*address] afterwards. *)
Definition allocate_low_pages (pages address : Z) : loader F (Z * Z) :=
  '(status, physical) ← call_AllocatePages AllocateMaxAddress EfiLoaderData pages (BBP_IDENTITY_LIMIT - 1);
  if status =? EFI_SUCCESS then
    _ ← poke (fun m => mem_zero m physical (Z.to_nat (pages * EFI_PAGE_SIZE)));
    mret (status, physical)
  else mret (status, address).

(** [while (done < info->FileSize)], with [fuel] bounding the iterations; [false]
    is the failure of a read. *)
Fixpoint read_loop (file info buffer done : Z) (fuel : nat) : loader F bool :=
  file_size ← peek (fun m => load64 m (info + 8));
  check done <? file_size else mret true;
  match fuel with
  | O => out_of_fuel
  | S fuel =>
      '(status, amount) ← call_Read file (file_size - done) (buffer + done);
      reject negb (status =? EFI_SUCCESS) || (amount =? 0) with mret false;
      read_loop file info buffer (wrap64 (done + amount)) fuel
  end.

(** From [GetInfo] on, with the file open: the status, [info] and [buffer] as
    the label [out] finds them, and what the caller gets on success. *)
Definition read_file (file : Z) (fuel : nat) : loader F (Z * Z * Z * option (Z * Z)) :=
  '(status, info_size) ← call_GetInfo file BBP_EFI_FILE_INFO_GUID 0 0;
  reject negb (status =? EFI_BUFFER_TOO_SMALL) || (info_size <? SIZEOF_FILE_INFO_PREFIX)
    with mret (EFI_LOAD_ERROR, 0, 0, None);
  '(status, info) ← call_AllocatePool EfiLoaderData info_size 0;
  reject negb (status =? EFI_SUCCESS) with mret (status, info, 0, None);
  '(status, info_size) ← call_GetInfo file BBP_EFI_FILE_INFO_GUID info_size info;
  reject negb (status =? EFI_SUCCESS) with mret (EFI_LOAD_ERROR, info, 0, None);
  file_size ← peek (fun m => load64 m (info + 8));
  reject (file_size <? 64) || (BBP_MAX_KERNEL_FILE <? file_size) || (SIZE_MAX <? file_size)
    with mret (EFI_LOAD_ERROR, info, 0, None);
  '(status, buffer) ← call_AllocatePool EfiLoaderData file_size 0;
  reject negb (status =? EFI_SUCCESS) with mret (status, info, buffer, None);
  ok ← read_loop file info buffer 0 fuel;
  check (ok : bool) else mret (EFI_LOAD_ERROR, info, buffer, None);
  file_size ← peek (fun m => load64 m (info + 8));
  mret (EFI_SUCCESS, info, 0, Some (buffer, file_size)).

(** [Some (file_bytes, file_size, loaded_image)] is a return of [EFI_SUCCESS]
    with the three results set. *)
Definition read_kernel (image : Z) (fuel : nat) : loader F (Z * option (Z * Z * Z)) :=
  '(status, loaded) ← call_HandleProtocol image BBP_EFI_LOADED_IMAGE_GUID 0;
  reject negb (status =? EFI_SUCCESS) with mret (status, None);
  device ← peek (fun m => load64 m (loaded + 24));
  '(status, filesystem) ← call_HandleProtocol device BBP_EFI_SIMPLE_FILE_SYSTEM_GUID 0;
  reject negb (status =? EFI_SUCCESS) with mret (status, None);
  '(status, root) ← call_OpenVolume filesystem 0;
  reject negb (status =? EFI_SUCCESS) with mret (status, None);
  '(status, file) ← call_Open root 0 kernel_path EFI_FILE_MODE_READ;
  '(status, info, buffer, result) ←
    (if negb (status =? EFI_SUCCESS) then mret (status, 0, 0, None) else read_file file fuel);
  _ ← when_do (negb (info =? 0)) (call_FreePool info);
  _ ← when_do (negb (file =? 0)) (call_Close file);
  _ ← when_do (negb (root =? 0)) (call_Close root);
  _ ← when_do (negb (buffer =? 0)) (call_FreePool buffer);
  mret (status, option_map (fun r => (r, loaded)) result).

(** ** Segments *)

(** The label [fail]: the pages of the segments before the failing one, last
    first. *)
Fixpoint release_segments (segments : list bbp_elf64_segment_plan) : loader F unit :=
  match segments with
  | [] => mret tt
  | allocated :: segments =>
      _ ← when_do (negb (s_page_count allocated =? 0))
        (call_FreePages (s_page_base allocated) (s_page_count allocated));
      release_segments segments
  end.

(** [before] are the segments already visited, last first. *)
Fixpoint load_segments_from (image : Z) (before segments : list bbp_elf64_segment_plan) : loader F Z :=
  match segments with
  | [] => mret EFI_SUCCESS
  | segment :: segments =>
      if s_page_count segment =? 0 then load_segments_from image (segment :: before) segments
      else
        let fail status := _ ← release_segments before; mret status in
        reject (s_page_base segment =? 0) ||
          (BBP_IDENTITY_LIMIT <? wrap64 (s_page_base segment + s_page_count segment * EFI_PAGE_SIZE))
          with fail EFI_LOAD_ERROR;
        '(status, physical) ← call_AllocatePages AllocateAddress EfiLoaderData
          (s_page_count segment) (s_page_base segment);
        reject negb (status =? EFI_SUCCESS) with fail status;
        if negb (physical =? s_page_base segment) then
          _ ← call_FreePages physical (s_page_count segment);
          fail EFI_LOAD_ERROR
        else
          _ ← poke (fun m => mem_zero m (s_page_base segment)
                               (Z.to_nat (wrap64 (s_page_count segment * EFI_PAGE_SIZE))));
          _ ← poke (fun m => mem_copy m (s_physical_address segment) (image + s_file_offset segment)
                               (Z.to_nat (s_file_size segment)));
          load_segments_from image (segment :: before) segments
  end.

Definition load_segments (image : Z) (plan : bbp_elf64_plan) : loader F Z :=
  load_segments_from image [] (planned plan).

(** In the order of the plan. *)
Definition free_segments (plan : bbp_elf64_plan) : loader F unit := release_segments (planned plan).

(** ** Firmware callbacks of the exit loop *)

Definition firmware_status_of (status : Z) : bbp_uefi_firmware_status :=
  reject status =? EFI_SUCCESS with BBP_UEFI_FIRMWARE_SUCCESS;
  reject status =? EFI_BUFFER_TOO_SMALL with BBP_UEFI_FIRMWARE_BUFFER_TOO_SMALL;
  reject status =? EFI_INVALID_PARAMETER with BBP_UEFI_FIRMWARE_INVALID_PARAMETER;
  BBP_UEFI_FIRMWARE_ERROR.

Definition firmware_get_map (w : machine F) (buffer : Z) (a : map_args) :
    machine F * bbp_uefi_firmware_status * map_args :=
  let '(f, m, status, a) := GetMemoryMap efi (mc_fw w) (mc_mem w) buffer a in
  (record_event [] f m w, firmware_status_of status, a).

Definition firmware_exit (w : machine F) (image_handle key : Z) :
    machine F * bbp_uefi_firmware_status :=
  let '(f, m, status) := ExitBootServices efi (mc_fw w) (mc_mem w) image_handle key in
  (record_event [] f m w,
   if status =? EFI_SUCCESS then BBP_UEFI_FIRMWARE_SUCCESS
   else if status =? EFI_INVALID_PARAMETER then BBP_UEFI_FIRMWARE_INVALID_PARAMETER
   else BBP_UEFI_FIRMWARE_ERROR).

Definition firmware_allocate (w : machine F) (size : Z) : machine F * Z :=
  let '(f, m, status, allocation) := AllocatePool efi (mc_fw w) (mc_mem w) EfiLoaderData size 0 in
  (record_event (if status =? EFI_SUCCESS then [Got (Pool allocation)] else []) f m w,
   if negb (status =? EFI_SUCCESS) then 0 else allocation).

Definition firmware_free (w : machine F) (allocation : Z) : machine F :=
  if negb (allocation =? 0) then
    let '(f, m, _) := FreePool efi (mc_fw w) (mc_mem w) allocation in
    record_event [Gave (Pool allocation)] f m w
  else w.

(** ** Memory geometry before the exit *)

(** One descriptor of the map; [false] is [goto failure]. *)
Definition geometry_ok (m : mem) (descriptor : Z) : option bool :=
  number_of_pages ← load64 m (descriptor + 24);
  reject (number_of_pages =? 0) || (UINT64_MAX / EFI_PAGE_SIZE <? number_of_pages) with Some false;
  let length := number_of_pages * EFI_PAGE_SIZE in
  physical_start ← load64 m (descriptor + 8);
  reject UINT64_MAX - length <? physical_start with Some false;
  let end_ := physical_start + length in
  type ← load32 m descriptor;
  Some (negb (negb (type =? EfiMemoryMappedIO) && negb (type =? EfiMemoryMappedIOPortSpace) &&
              negb (type =? EfiReservedMemoryType) && (BBP_IDENTITY_LIMIT <? end_))).

Fixpoint geometry_loop (m : mem) (descriptor descriptor_size : Z) (n : nat) : option bool :=
  match n with
  | O => Some true
  | S n =>
      ok ← geometry_ok m descriptor;
      check (ok : bool) else Some false;
      geometry_loop m (descriptor + descriptor_size) descriptor_size n
  end.

(** The label [failure]. *)
Definition preflight_failure (map : Z) : loader F bool :=
  _ ← when_do (negb (map =? 0)) (call_FreePool map);
  mret false.

(** The loop, with [attempts] iterations left. *)
Fixpoint preflight_loop (map capacity : Z) (attempts : nat) : loader F bool :=
  match attempts with
  | O => preflight_failure map
  | S attempts =>
      '(status, a) ← call_GetMemoryMap map (MapArgs capacity 0 0 0);
      if status =? EFI_BUFFER_TOO_SMALL then
        reject (descriptor_size a <? SIZEOF_DESCRIPTOR) || (SIZE_MAX / 8 <? descriptor_size a)
          with preflight_failure map;
        let slack := descriptor_size a * 8 in
        reject SIZE_MAX - slack <? map_size a with preflight_failure map;
        _ ← when_do (negb (map =? 0)) (call_FreePool map);
        let capacity := map_size a + slack in
        '(status, map) ← call_AllocatePool EfiLoaderData capacity 0;
        reject negb (status =? EFI_SUCCESS) with preflight_failure map;
        preflight_loop map capacity attempts
      else
        reject negb (status =? EFI_SUCCESS) || (descriptor_size a =? 0) ||
          negb (map_size a mod descriptor_size a =? 0) with preflight_failure map;
        ok ← peek (fun m => geometry_loop m map (descriptor_size a)
                              (Z.to_nat (map_size a / descriptor_size a)));
        check (ok : bool) else preflight_failure map;
        _ ← call_FreePool map;
        mret true
  end.

Definition preflight_memory_geometry : loader F bool := preflight_loop 0 0 3.

End Loader.

(** ** The kernel's header *)

Fixpoint range_loaded (segments : list bbp_elf64_segment_plan) (address end_ : Z) : bool :=
  match segments with
  | [] => false
  | segment :: segments =>
      let segment_end := wrap64 (s_physical_address segment + s_memory_size segment) in
      reject (s_physical_address segment <=? address) && (end_ <=? segment_end) with true;
      range_loaded segments address end_
  end.

Definition physical_range_loaded (plan : bbp_elf64_plan) (address size : Z) : bool :=
  reject (size =? 0) || (UINT64_MAX - size <? address) with false;
  range_loaded (planned plan) address (address + size).

(** The scan of one segment from [candidate], [n] places left: [None] is the
    return of NULL, otherwise the value of [found] afterwards. *)
Fixpoint find_in_segment (m : mem) (found candidate : Z) (n : nat) : option (option Z) :=
  match n with
  | O => Some (Some found)
  | S n =>
      same ← bytes_equal m candidate BBP_HEADER_MAGIC;
      if negb same then find_in_segment m found (candidate + 8) n
      else
        reject negb (found =? 0) with Some None;
        status ← bbp_verify_header m candidate;
        reject negb (bool_decide (status = BBP_OK)) with Some None;
        find_in_segment m candidate (candidate + 8) n
  end.

(** The number of places [offset <= file_size - sizeof(struct bbp_header)]. *)
Definition header_places (segment : bbp_elf64_segment_plan) : nat :=
  Z.to_nat ((s_file_size segment - SIZEOF_HEADER) / 8 + 1).

Fixpoint find_header_from (m : mem) (found : Z) (segments : list bbp_elf64_segment_plan) : option Z :=
  match segments with
  | [] => Some found
  | segment :: segments =>
      if s_file_size segment <? SIZEOF_HEADER then find_header_from m found segments
      else
        r ← find_in_segment m found (s_physical_address segment) (header_places segment);
        match r with
        | None => Some 0
        | Some found => find_header_from m found segments
        end
  end.

(** The address of the header, 0 for NULL. *)
Definition find_header (m : mem) (plan : bbp_elf64_plan) : option Z :=
  find_header_from m 0 (planned plan).

(** The virtual address of the first planned page, 0 when no segment has it. *)
Fixpoint actual_virtual_base (physical_base : Z) (segments : list bbp_elf64_segment_plan) : Z :=
  match segments with
  | [] => 0
  | segment :: segments =>
      if negb (s_page_count segment =? 0) && (s_page_base segment =? physical_base) then
        wrap64 (s_virtual_address segment - (s_physical_address segment - s_page_base segment))
      else actual_virtual_base physical_base segments
  end.

(** The bit of a request the loader can satisfy. *)
Definition request_bit (tag_id : Z) : Z :=
  if tag_id =? BBP_TAG_HHDM then 1
  else if tag_id =? BBP_TAG_MEMORY_MAP then 2
  else if tag_id =? BBP_TAG_KERNEL_ADDRESS then 4
  else 0.

(** The loop over the requests: [None] is a return of 0, otherwise the final
    [seen]. *)
Fixpoint check_requests (m : mem) (request seen : Z) (n : nat) : option (option Z) :=
  match n with
  | O => Some (Some seen)
  | S n =>
      reserved ← load64 m (request + 16);
      flags ← load64 m (request + 8);
      tag_id ← load64 m request;
      reject negb (reserved =? 0) || negb (Z.land flags (wrap64 (Z.lnot BBP_REQ_OPTIONAL)) =? 0)
        with Some None;
      let bit := request_bit tag_id in
      reject (bit =? 0) && (Z.land flags BBP_REQ_OPTIONAL =? 0) with Some None;
      reject negb (bit =? 0) && negb (Z.land seen bit =? 0) with Some None;
      check_requests m (request + 24) (Z.lor seen bit) n
  end.

Definition validate_header_contract (m : mem) (header : Z) (plan : bbp_elf64_plan) : option bool :=
  let actual := actual_virtual_base (pl_physical_base plan) (planned plan) in
  entry_point ← load64 m (header + 32);
  flags ← load64 m (header + 24);
  paging_mode ← load64 m (header + 40);
  kernel_virtual_base ← load64 m (header + 48);
  reserved0 ← load32 m (header + 60);
  request_count ← load32 m (header + 56);
  reject negb (entry_point =? pl_entry plan) ||
    negb (Z.land flags (wrap64 (Z.lnot BBP_SUPPORTED_HEADER_FLAGS)) =? 0) ||
    negb (paging_mode =? BBP_PAGING_4LEVEL) || (kernel_virtual_base =? 0) ||
    negb (kernel_virtual_base =? actual) || negb (reserved0 =? 0) ||
    (BBP_MAX_REQUESTS <? request_count) with Some false;
  requests ← load64 m (header + 64);
  reject (request_count =? 0) || negb (physical_range_loaded plan requests (request_count * 24))
    with Some false;
  seen ← check_requests m requests 0 (Z.to_nat request_count);
  match seen with
  | None => Some false
  | Some seen => Some (seen =? 7)
  end.
