(* ===== verification/LoaderMain.v ===== *)
(** * The handoff and the main function of the UEFI loader (bootloader/efi_main.c)

    [build_handoff] writes the three required tags into the arena after boot
    services are gone; [efi_main] composes all parts and ends in a failure that
    has released what it obtained, in a halt after the exit, or in the jump to
    the kernel. *)

From stdpp Require Import strings.
From S2P Require Import Prelude Memory Crc64 Abi KernelParser Builder ElfPlan UefiExit Paging Loader.

(** ** The memory map *)

Definition memory_type (type : Z) : Z :=
  if (type =? EfiLoaderCode) || (type =? EfiLoaderData) || (type =? EfiBootServicesCode) ||
     (type =? EfiBootServicesData) then BBP_MEM_BOOTLOADER_RECLAIM
  else if type =? EfiConventionalMemory then BBP_MEM_USABLE
  else if type =? EfiUnusableMemory then BBP_MEM_BAD_MEMORY
  else if type =? EfiACPIReclaimMemory then BBP_MEM_ACPI_RECLAIMABLE
  else if type =? EfiACPIMemoryNVS then BBP_MEM_ACPI_NVS
  else if (type =? EfiMemoryMappedIO) || (type =? EfiMemoryMappedIOPortSpace) then BBP_MEM_DEVICE_IO
  else if type =? EfiPersistentMemory then BBP_MEM_PERSISTENT
  else BBP_MEM_RESERVED.

Definition memory_attributes (attributes : Z) : Z :=
  let result := 0 in
  let result := if Z.land attributes EFI_MEMORY_RP =? 0
    then Z.lor result BBP_MEM_ATTR_READABLE else result in
  let result := if Z.land attributes (Z.lor EFI_MEMORY_WP EFI_MEMORY_RO) =? 0
    then Z.lor result BBP_MEM_ATTR_WRITABLE else result in
  let result := if Z.land attributes EFI_MEMORY_XP =? 0
    then Z.lor result BBP_MEM_ATTR_EXECUTABLE else result in
  let result := if negb (Z.land attributes (Z.lor EFI_MEMORY_WT EFI_MEMORY_WB) =? 0)
    then Z.lor result BBP_MEM_ATTR_CACHED else result in
  let result := if negb (Z.land attributes EFI_MEMORY_WC =? 0)
    then Z.lor result BBP_MEM_ATTR_WRITE_COMBINE else result in
  if negb (Z.land attributes (Z.lor EFI_MEMORY_UC EFI_MEMORY_UCE) =? 0)
  then Z.lor result BBP_MEM_ATTR_UNCACHED else result.

(** The loop over the descriptors, [n] left; [false] is a return of 0. *)
Fixpoint convert_map (m : mem) (plan : bbp_elf64_plan) (descriptor descriptor_size entry : Z) (n : nat) :
    option (mem * bool) :=
  match n with
  | O => Some (m, true)
  | S n =>
      number_of_pages ← load64 m (descriptor + 24);
      reject (number_of_pages =? 0) || (UINT64_MAX / EFI_PAGE_SIZE <? number_of_pages)
        with Some (m, false);
      let length := number_of_pages * EFI_PAGE_SIZE in
      physical_start ← load64 m (descriptor + 8);
      reject UINT64_MAX - length <? physical_start with Some (m, false);
      let end_ := physical_start + length in
      type ← load32 m descriptor;
      reject negb (type =? EfiMemoryMappedIO) && negb (type =? EfiMemoryMappedIOPortSpace) &&
        negb (type =? EfiReservedMemoryType) && (BBP_IDENTITY_LIMIT <? end_) with Some (m, false);
      m ← store64 m entry physical_start;
      m ← store64 m (entry + 8) length;
      m ← store32 m (entry + 16) (memory_type type);
      attribute ← load64 m (descriptor + 32);
      m ← store32 m (entry + 20) (memory_attributes attribute);
      m ← (if (physical_start <? pl_physical_end plan) && (pl_physical_base plan <? end_)
           then store32 m (entry + 16) BBP_MEM_KERNEL_AND_MODULES else Some m);
      convert_map m plan (descriptor + descriptor_size) descriptor_size
        (entry + sizeof bbp_memory_entry) n
  end.

(** ** The handoff *)

Definition bootloader_name : list byte := String.list_byte_of_string "BearBoot OVMF".
Definition bootloader_version : list byte := String.list_byte_of_string "Wave17-proof".

(** The local [struct bbp_builder builder], before its initialisation. *)
Definition handoff_builder : bbp_builder := Builder 0 0 0 0 0 0 0 0.

(** From the filling of the three tags on, with the builder that allocated
    them; [None] is a return of 0. *)
Definition fill_handoff (m : mem) (arena_address : Z) (plan : bbp_elf64_plan)
    (kernel_virtual_base : Z) (exit_result : bbp_uefi_exit_result) (count : Z) (b : bbp_builder)
    (hhdm map kernel : Z) : option (mem * option Z) :=
  let info := arena_address in
  m ← store64 m (hhdm + 32) BBP_HHDM_OFFSET;
  m ← store32 m (map + 32) (wrap32 count);
  m ← store32 m (map + 36) (sizeof bbp_memory_entry);
  '(m, ok) ← convert_map m plan (r_memory_map exit_result) (r_descriptor_size exit_result)
    (map + sizeof bbp_tag_memory_map) (Z.to_nat count);
  check (ok : bool) else Some (m, None);
  m ← store64 m (kernel + 32) (pl_physical_base plan);
  m ← store64 m (kernel + 40) kernel_virtual_base;
  m ← store_bytes m (info + 24) bootloader_name;
  m ← store_bytes m (info + 56) bootloader_version;
  m ← store16 m (info + 112) BBP_ARCH_X86_64;
  m ← store16 m (info + 114) 1;
  '(m, _, sealed) ← bbp_builder_finalize m (Some b) info arena_address
    (S (Z.to_nat BBP_BUILDER_MAX_TAGS));
  reject sealed =? 0 with Some (m, None);
  Some (m, Some arena_address).

(** The memory afterwards and [*info_address]; [None] is a return of 0. *)
Definition build_handoff (m : mem) (arena_address : Z) (plan : bbp_elf64_plan)
    (kernel_virtual_base : Z) (exit_result : bbp_uefi_exit_result) : option (mem * option Z) :=
  let info := arena_address in
  reject (r_memory_map_final exit_result =? 0) ||
    negb (r_descriptor_version exit_result =? 1) ||
    (r_descriptor_size exit_result <? SIZEOF_DESCRIPTOR) ||
    (r_memory_map_size exit_result =? 0) ||
    negb (r_memory_map_size exit_result mod r_descriptor_size exit_result =? 0)
    with Some (m, None);
  let count := r_memory_map_size exit_result / r_descriptor_size exit_result in
  reject (count =? 0) ||
    ((SIZE_MAX - sizeof bbp_tag_memory_map) / sizeof bbp_memory_entry <? count) with Some (m, None);
  let tag_size := sizeof bbp_tag_memory_map + count * sizeof bbp_memory_entry in
  '(m, builder) ← bbp_builder_init m (Some handoff_builder) (info + SIZEOF_INFO)
    (arena_address + SIZEOF_INFO) (BBP_ARENA_PAGES * EFI_PAGE_SIZE - SIZEOF_INFO);
  '(m, builder, hhdm) ← bbp_alloc_tag m builder BBP_TAG_HHDM 1 (sizeof bbp_tag_hhdm);
  '(m, builder, map) ← bbp_alloc_tag m builder BBP_TAG_MEMORY_MAP 1 tag_size;
  '(m, builder, kernel) ← bbp_alloc_tag m builder BBP_TAG_KERNEL_ADDRESS 1
    (sizeof bbp_tag_kernel_address);
  b ← builder;
  reject (hhdm =? 0) || (map =? 0) || (kernel =? 0) || negb (overflow b =? 0) with Some (m, None);
  fill_handoff m arena_address plan kernel_virtual_base exit_result count b hhdm map kernel.

(** ** The main function *)

(** How the program ends: it returns [EFI_LOAD_ERROR] after printing the reason,
    halts for ever after printing it, or jumps with these registers. *)
Inductive outcome :=
  | Failed_with (reason : string)
  | Halted_with (reason : string)
  | Jumped (cr3 rsp rdi rip : Z).

(** The local [plan], before it is set. *)
Definition local_plan : bbp_elf64_plan :=
  Elf64Plan 0 0 0 0 (replicate 16 (SegmentPlan 0 0 0 0 0 0 0 0 0)).

Definition exit_result_zero : bbp_uefi_exit_result := ExitResult 0 0 0 0 0 0 0.

Section Main.
Context {F : Type} (efi : efi_services F).

(** The label [cleanup] and the return; [loaded] is the plan if its segments
    are loaded. *)
Definition cleanup (tables_address stack_address arena_address : Z) (loaded : option bbp_elf64_plan)
    (kernel_file : Z) (failure_reason : string) : loader F outcome :=
  _ ← when_do (negb (tables_address =? 0)) (call_FreePages efi tables_address BBP_PAGE_TABLE_PAGES);
  _ ← when_do (negb (stack_address =? 0)) (call_FreePages efi stack_address BBP_STACK_PAGES);
  _ ← when_do (negb (arena_address =? 0)) (call_FreePages efi arena_address BBP_ARENA_PAGES);
  _ ← (match loaded with Some plan => free_segments efi plan | None => mret tt end);
  _ ← when_do (negb (kernel_file =? 0)) (call_FreePool efi kernel_file);
  mret (Failed_with failure_reason).

(** The three allocations, with the addresses as [cleanup] finds them. *)
Definition allocate_handoff : loader F (bool * Z * Z * Z) :=
  '(status, arena_address) ← allocate_low_pages efi BBP_ARENA_PAGES 0;
  reject negb (status =? EFI_SUCCESS) with mret (false, arena_address, 0, 0);
  '(status, stack_address) ← allocate_low_pages efi BBP_STACK_PAGES 0;
  reject negb (status =? EFI_SUCCESS) with mret (false, arena_address, stack_address, 0);
  '(status, tables_address) ← allocate_low_pages efi BBP_PAGE_TABLE_PAGES 0;
  mret (status =? EFI_SUCCESS, arena_address, stack_address, tables_address).

(** [bbp_uefi_exit_boot_services] with the loader's callbacks. *)
Definition exit_ops : bbp_uefi_exit_ops (machine F) :=
  ExitOps _ (firmware_get_map efi) (firmware_exit efi) (firmware_allocate efi) (firmware_free efi).

Definition exit_firmware (image : Z) : loader F (bbp_uefi_exit_status * bbp_uefi_exit_result) :=
  fun w =>
    let '(status, result, w) :=
      bbp_uefi_exit_boot_services exit_ops (World w []) image exit_result_zero in
    Some (fw w, (status, result)).

(** A function of memory that also returns a value. *)
Definition update {A} (f : mem -> option (mem * A)) : loader F A :=
  fun w => '(m, a) ← f (mc_mem w); Some (Machine (mc_fw w) m (mc_log w), a).

(** From the exit on. *)
Definition hand_over (image : Z) (plan : bbp_elf64_plan)
    (kernel_virtual_base arena_address stack_address tables_address pml4_address : Z) :
    loader F outcome :=
  '(exit_status, exit_result) ← exit_firmware image;
  reject negb (bool_decide (exit_status = BBP_UEFI_EXIT_OK))
    with cleanup tables_address stack_address arena_address (Some plan) 0 "ExitBootServices";
  info ← update (fun m => build_handoff m arena_address plan kernel_virtual_base exit_result);
  match info with
  | None => mret (Halted_with "final memory map handoff")
  | Some info_address =>
      let stack_top := Z.land (wrap64 (stack_address + BBP_STACK_PAGES * EFI_PAGE_SIZE))
        (wrap64 (Z.lnot 15)) in
      mret (Jumped pml4_address stack_top info_address (pl_entry plan))
  end.

(** From the verified header on, the file already freed. *)
Definition prepare (image loaded_image header : Z) (plan : bbp_elf64_plan) (kernel_virtual_base : Z) :
    loader F outcome :=
  let fail := cleanup 0 0 0 (Some plan) 0 in
  reject loaded_image =? 0 with fail "EFI image above identity map";
  image_base ← peek (fun m => load64 m (loaded_image + 64));
  reject BBP_IDENTITY_LIMIT <=? image_base with fail "EFI image above identity map";
  image_size ← peek (fun m => load64 m (loaded_image + 72));
  reject BBP_IDENTITY_LIMIT - image_base <? image_size with fail "EFI image above identity map";
  '(ok, arena_address, stack_address, tables_address) ← allocate_handoff;
  let fail := cleanup tables_address stack_address arena_address (Some plan) 0 in
  check (ok : bool) else fail "handoff allocations";
  flags ← peek (fun m => load64 m (header + 24));
  let unmap_null := negb (Z.land flags BBP_HF_UNMAP_NULL_PAGE =? 0) in
  ok ← preflight_memory_geometry efi;
  check (ok : bool) else fail "memory geometry exceeds 4 GiB contract";
  pml4 ← update (fun m =>
    '(m, _, pml4) ← build_page_tables m (PagePool tables_address 0 BBP_PAGE_TABLE_PAGES) plan
      false unmap_null;
    Some (m, pml4));
  match pml4 with
  | None => fail "page tables"
  | Some pml4_address =>
      hand_over image plan kernel_virtual_base arena_address stack_address tables_address
        pml4_address
  end.

(** [fuel] bounds the reads of the kernel file. *)
Definition efi_main (image system_table : Z) (fuel : nat) : loader F outcome :=
  reject system_table =? 0 with mret (Failed_with "system table");
  boot ← peek (fun m => load64 m (system_table + 96));
  reject boot =? 0 with mret (Failed_with "system table");
  '(status, result) ← read_kernel efi image fuel;
  match result with
  | None => mret (Failed_with "open \kernel.elf")
  | Some (kernel_file, kernel_file_size, loaded_image) =>
      '(status, plan) ← peek (fun m =>
        '(status, plan) ← bbp_elf64_plan_fn m kernel_file kernel_file_size (Some local_plan);
        plan ← plan;
        Some (status, plan));
      reject negb (bool_decide (status = BBP_ELF64_OK))
        with cleanup 0 0 0 None kernel_file "ELF64 plan";
      status ← load_segments efi kernel_file plan;
      reject negb (status =? EFI_SUCCESS) with cleanup 0 0 0 None kernel_file "PT_LOAD allocation";
      header ← peek (fun m => find_header m plan);
      valid ← (if header =? 0 then mret false else peek (fun m => validate_header_contract m header plan));
      check (valid : bool) else cleanup 0 0 0 (Some plan) kernel_file "Bear Header";
      kernel_virtual_base ← peek (fun m => load64 m (header + 48));
      _ ← call_FreePool efi kernel_file;
      prepare image loaded_image header plan kernel_virtual_base
  end.
End Main.
