(* ===== verification/LoaderMap.v ===== *)
(** * The firmware memory map in the loader

    The descriptors as values, the contract the loader checks them against
    before and after the exit, and the entries it writes for them into the
    memory-map tag. *)

From stdpp Require Import strings.
From S2P Require Import Prelude Memory Crc64 Abi KernelParser Builder Import ImportEmit ImportBodies ElfPlan UefiExit Paging Loader LoaderMain.

(** ** Descriptors *)

Record efi_descriptor := Descriptor {
  d_type : Z;
  d_start : Z;
  d_pages : Z;
  d_attribute : Z;
}.

Definition d_length (d : efi_descriptor) : Z := d_pages d * EFI_PAGE_SIZE.
Definition d_end (d : efi_descriptor) : Z := d_start d + d_length d.

(** The descriptor at [p], and the array of [n] at [p] with stride [size]. *)
Definition read_descriptor (m : mem) (p : Z) : option efi_descriptor :=
  type ← load32 m p;
  start ← load64 m (p + 8);
  pages ← load64 m (p + 24);
  attribute ← load64 m (p + 32);
  Some (Descriptor type start pages attribute).

Fixpoint read_descriptors (m : mem) (p size : Z) (n : nat) : option (list efi_descriptor) :=
  match n with
  | O => Some []
  | S n =>
      d ← read_descriptor m p;
      ds ← read_descriptors m (p + size) size n;
      Some (d :: ds)
  end.

(** A region that is not empty, does not wrap and, unless it is no memory at
    all, lies below 4 GiB. *)
Definition within_contract (d : efi_descriptor) : Prop :=
  0 < d_pages d /\ d_end d <= UINT64_MAX /\
  (d_type d = EfiMemoryMappedIO \/ d_type d = EfiMemoryMappedIOPortSpace \/
   d_type d = EfiReservedMemoryType \/ d_end d <= BBP_IDENTITY_LIMIT).

#[global] Instance within_contract_dec d : Decision (within_contract d).
Proof. unfold within_contract. apply _. Defined.

Definition descriptor_words (d : efi_descriptor) : Prop :=
  in_word 32 (d_type d) /\ in_word 64 (d_start d) /\ in_word 64 (d_pages d) /\ in_word 64 (d_attribute d).

Lemma read_descriptor_words m p d : read_descriptor m p = Some d -> descriptor_words d.
Proof.
  unfold read_descriptor. intros H. bind_inv. injection H as <-.
  repeat match goal with H : load32 _ _ = _ |- _ => apply load32_word in H | H : load64 _ _ = _ |- _ => apply load64_word in H end.
  done.
Qed.

Lemma read_descriptor_total m p : mapped m p 40 -> exists d, read_descriptor m p = Some d.
Proof.
  intros Hm. unfold read_descriptor, load32, load64.
  destruct (mapped_load_le m p 4) as (t & -> & _); [eapply mapped_sub; [exact Hm|lia|lia]|]. cbn [mbind option_bind].
  destruct (mapped_load_le m (p + 8) 8) as (s & -> & _); [eapply mapped_sub; [exact Hm|lia|lia]|]. cbn [mbind option_bind].
  destruct (mapped_load_le m (p + 24) 8) as (n & -> & _); [eapply mapped_sub; [exact Hm|lia|lia]|]. cbn [mbind option_bind].
  destruct (mapped_load_le m (p + 32) 8) as (a & -> & _); [eapply mapped_sub; [exact Hm|lia|lia]|]. by eexists.
Qed.

Lemma read_descriptors_total m size n : 40 <= size -> forall p,
  mapped m p (size * Z.of_nat n) -> exists ds, read_descriptors m p size n = Some ds /\ length ds = n.
Proof.
  intros Hs. induction n as [|n IH]; intros p Hm; cbn [read_descriptors]; [by exists []|].
  destruct (read_descriptor_total m p) as [d ->]; [eapply mapped_sub; [exact Hm|lia|nia]|]. cbn [mbind option_bind].
  destruct (IH (p + size)) as (ds & -> & Hl); [eapply mapped_sub; [exact Hm|lia|lia]|].
  exists (d :: ds). cbn [length]. by rewrite Hl.
Qed.

Lemma read_descriptor_same m m' p : same_on m m' p 40 -> read_descriptor m' p = read_descriptor m p.
Proof.
  intros Hs. unfold read_descriptor, load32, load64.
  rewrite (load_le_same_on m m' p 4), (load_le_same_on m m' (p + 8) 8), (load_le_same_on m m' (p + 24) 8),
    (load_le_same_on m m' (p + 32) 8) by (eapply same_on_sub; [exact Hs|lia|lia]). done.
Qed.

Lemma read_descriptors_same m m' size n : 40 <= size -> forall p,
  same_on m m' p (size * Z.of_nat n) -> read_descriptors m' p size n = read_descriptors m p size n.
Proof.
  intros Hsz. induction n as [|n IH]; intros p Hs; [done|]. cbn [read_descriptors].
  rewrite (read_descriptor_same m m') by (eapply same_on_sub; [exact Hs|lia|nia]).
  rewrite IH by (eapply same_on_sub; [exact Hs|lia|lia]). done.
Qed.

(** The guards of the loops test the contract. *)
Lemma contract_guards {A} (d : efi_descriptor) (x y : A) :
  descriptor_words d ->
  (if (d_pages d =? 0) || (UINT64_MAX / EFI_PAGE_SIZE <? d_pages d) then y
   else if UINT64_MAX - d_pages d * EFI_PAGE_SIZE <? d_start d then y
   else if negb (d_type d =? EfiMemoryMappedIO) && negb (d_type d =? EfiMemoryMappedIOPortSpace) &&
           negb (d_type d =? EfiReservedMemoryType) && (BBP_IDENTITY_LIMIT <? d_start d + d_pages d * EFI_PAGE_SIZE)
   then y else x) = if bool_decide (within_contract d) then x else y.
Proof.
  intros (_ & [? _] & [? _] & _). unfold within_contract, d_end, d_length, UINT64_MAX, EFI_PAGE_SIZE.
  change ((2 ^ 64 - 1) / 4096) with (2 ^ 52 - 1).
  repeat match goal with |- context [if ?c then y else _] => destruct c eqn:?G; bool_to_prop end; case_bool_decide; try done; exfalso; lia.
Qed.

(** ** The check before the exit *)

Lemma geometry_ok_spec m p d :
  read_descriptor m p = Some d -> geometry_ok m p = Some (bool_decide (within_contract d)).
Proof.
  intros H. pose proof (read_descriptor_words _ _ _ H) as Hw. pose proof (contract_guards d true false Hw) as Hg.
  replace (if bool_decide (within_contract d) then true else false) with (bool_decide (within_contract d)) in Hg by (by case_bool_decide).
  rewrite <- Hg. clear Hg. unfold read_descriptor in H. unfold geometry_ok. bind_inv. injection H as <-. cbn [d_pages d_start d_type].
  repeat match goal with H : ?l = Some _ |- context [?l] => rewrite H end. cbn [mbind option_bind].
  destruct (_ || _); [done|]. cbn [mbind option_bind]. destruct (_ <? _); [done|]. by destruct (_ && _).
Qed.

Lemma geometry_loop_spec m size n : forall p ds,
  read_descriptors m p size n = Some ds ->
  geometry_loop m p size n = Some (bool_decide (Forall within_contract ds)).
Proof.
  induction n as [|n IH]; intros p ds H; cbn [read_descriptors geometry_loop] in *.
  { injection H as <-. by rewrite bool_decide_eq_true_2 by constructor. }
  apply bind_Some in H as (d & Hd & H). apply bind_Some in H as (ds' & Hds & [= <-]).
  rewrite (geometry_ok_spec _ _ _ Hd). cbn [mbind option_bind]. case_bool_decide as Hc.
  - rewrite (IH _ _ Hds). f_equal. apply bool_decide_ext. rewrite Forall_cons. tauto.
  - by rewrite bool_decide_eq_false_2 by (rewrite Forall_cons; tauto).
Qed.

(** ** The entries *)

(** The kernel's own memory is marked, whatever the firmware says of it. *)
Definition handoff_type (plan : bbp_elf64_plan) (d : efi_descriptor) : Z :=
  if (d_start d <? pl_physical_end plan) && (pl_physical_base plan <? d_end d)
  then BBP_MEM_KERNEL_AND_MODULES else memory_type (d_type d).

Definition handoff_entry (plan : bbp_elf64_plan) (d : efi_descriptor) : list byte :=
  memory_entry_bytes (d_start d) (d_length d) (handoff_type plan d) (memory_attributes (d_attribute d)).

Lemma zlen_handoff_entry plan d : zlen (handoff_entry plan d) = 32.
Proof. done. Qed.

(** Overwriting the middle of a structure. *)
Lemma overwrite m a xs ys ys' zs p :
  bytes_at m a (xs ++ ys ++ zs) -> zlen ys' = zlen ys -> p = a + zlen xs ->
  exists m', store_bytes m p ys' = Some m' /\ bytes_at m' a (xs ++ ys' ++ zs) /\
    frame a (zlen (xs ++ ys ++ zs)) m m'.
Proof.
  intros Hat Hl ->. pose proof (zlen_nonneg xs). pose proof (zlen_nonneg zs). pose proof (zlen_nonneg ys).
  destruct (store_bytes_mapped m (a + zlen xs) ys') as [m' E].
  { apply bytes_at_mapped in Hat. rewrite !zlen_app in Hat. eapply mapped_sub; [exact Hat|lia|lia]. }
  exists m'. apply bytes_at_app in Hat as [Hx Hat]. apply bytes_at_app in Hat as [_ Hz]. split_and!; [done| |].
  - apply bytes_at_app. split; [by eapply (bytes_at_store _ _ _ _ _ _ E); [lia|]|]. apply bytes_at_app.
    split; [by eapply store_bytes_at|]. rewrite Hl. eapply (bytes_at_store _ _ _ _ _ _ E); [lia|done].
  - rewrite !zlen_app. eapply frame_weaken; [by eapply frame_store|lia|lia].
Qed.

(** One iteration of the conversion. *)
Definition put_entry (m : mem) (plan : bbp_elf64_plan) (d : efi_descriptor) (entry : Z) : option mem :=
  m ← store64 m entry (d_start d);
  m ← store64 m (entry + 8) (d_length d);
  m ← store32 m (entry + 16) (memory_type (d_type d));
  m ← store32 m (entry + 20) (memory_attributes (d_attribute d));
  if (d_start d <? pl_physical_end plan) && (pl_physical_base plan <? d_end d)
  then store32 m (entry + 16) BBP_MEM_KERNEL_AND_MODULES else Some m.

Lemma put_entry_spec m plan d e :
  bytes_at m e (replicate 32 x00) ->
  exists m', put_entry m plan d e = Some m' /\ bytes_at m' e (handoff_entry plan d) /\ frame e 32 m m'.
Proof.
  intros Hat. rewrite <- (app_nil_l (replicate 32 x00)) in Hat. unfold put_entry, store64, store32.
  destruct (fill m e [] 32 0 (le_encode 8 (d_start d)) e Hat) as (m1 & -> & H1 & F1);
    [rewrite length_le_encode; lia|autorewrite with zlen; lia|]. cbn [mbind option_bind].
  rewrite length_le_encode in H1. cbn [replicate app] in H1.
  destruct (fill m1 e _ _ 0 (le_encode 8 (d_length d)) (e + 8) H1) as (m2 & -> & H2 & F2);
    [rewrite length_le_encode; lia|autorewrite with zlen; lia|]. cbn [mbind option_bind].
  rewrite length_le_encode in H2. cbn [replicate app] in H2.
  destruct (fill m2 e _ _ 0 (le_encode 4 (memory_type (d_type d))) (e + 16) H2) as (m3 & -> & H3 & F3);
    [rewrite length_le_encode; lia|autorewrite with zlen; lia|]. cbn [mbind option_bind].
  rewrite length_le_encode in H3. cbn [replicate app] in H3.
  destruct (fill m3 e _ _ 0 (le_encode 4 (memory_attributes (d_attribute d))) (e + 20) H3) as (m4 & -> & H4 & F4);
    [rewrite length_le_encode; lia|autorewrite with zlen; lia|]. cbn [mbind option_bind].
  rewrite length_le_encode in H4. cbn [replicate app] in H4. autorewrite with zlen in F1, F2, F3, F4.
  assert (frame e 32 m m4) as F.
  { eapply frame_trans; [exact F1|]. eapply frame_trans; [exact F2|]. by eapply frame_trans. }
  unfold handoff_entry, handoff_type, memory_entry_bytes. destruct (_ && _).
  - rewrite <- !app_assoc in H4. rewrite (app_assoc (le_encode 8 _)) in H4.
    destruct (overwrite m4 e _ _ (le_encode 4 BBP_MEM_KERNEL_AND_MODULES) _ (e + 16) H4) as (m5 & -> & H5 & F5);
      [by autorewrite with zlen|autorewrite with zlen; lia|]. exists m5. autorewrite with zlen in F5.
    split_and!; [done|by rewrite <- !app_assoc in H5|by eapply frame_trans].
  - exists m4. split_and!; [done|by rewrite <- !app_assoc in H4|done].
Qed.

(** The conversion writes the entries of the descriptors before the first one
    that breaks the contract. *)
Lemma convert_step m plan p size e n d :
  read_descriptor m p = Some d -> bytes_at m e (replicate 32 x00) -> e + 32 <= p \/ p + 40 <= e ->
  convert_map m plan p size e (S n) =
    if bool_decide (within_contract d) then
      m ← put_entry m plan d e; convert_map m plan (p + size) size (e + 32) n
    else Some (m, false).
Proof.
  intros Hd Hat Hdis. pose proof (read_descriptor_words _ _ _ Hd) as Hw.
  rewrite <- (contract_guards d (m ← put_entry m plan d e; convert_map m plan (p + size) size (e + 32) n) (Some (m, false)) Hw).
  cbn [convert_map]. unfold put_entry, d_end, d_length. unfold read_descriptor in Hd. bind_inv. injection Hd as <-.
  cbn [d_pages d_start d_type d_attribute].
  repeat match goal with H : ?l = Some _ |- context [mbind _ ?l] => rewrite H; cbn [mbind option_bind] end.
  destruct (_ || _); [done|]. cbn [mbind option_bind]. destruct (_ <? _); [done|]. destruct (_ && _); [done|].
  change (sizeof bbp_memory_entry) with 32. unfold store64, store32, load64 in *.
  destruct (store_bytes m e _) as [m1|] eqn:E1; [|done]. cbn [mbind option_bind].
  destruct (store_bytes m1 (e + 8) _) as [m2|] eqn:E2; [|done]. cbn [mbind option_bind].
  destruct (store_bytes m2 (e + 16) _) as [m3|] eqn:E3; [|done]. cbn [mbind option_bind].
  assert (same_on m m3 (p + 32) 8) as Hs.
  { apply frame_store in E1, E2, E3. autorewrite with zlen in E1, E2, E3. intros x Hx.
    destruct E1 as [_ E1], E2 as [_ E2], E3 as [_ E3]. by rewrite E3, E2, E1 by lia. }
  rewrite (load_le_same_on m m3 _ 8 Hs).
  match goal with H : load_le m (p + 32) 8 = Some _ |- _ => rewrite H end. cbn [mbind option_bind].
  by destruct (store_bytes m3 _ _).
Qed.

Lemma convert_map_spec plan size a N : forall ds written m p e n,
  read_descriptors m p size n = Some ds -> 40 <= size ->
  a + N <= p \/ p + size * Z.of_nat n <= a ->
  bytes_at m a (written ++ replicate (32 * n) x00) ->
  zlen written + 32 * Z.of_nat n = N -> e = a + zlen written ->
  exists m' , convert_map m plan p size e n = Some (m', bool_decide (Forall within_contract ds)) /\
    frame a N m m' /\
    (Forall within_contract ds -> bytes_at m' a (written ++ concat (map (handoff_entry plan) ds))).
Proof.
  induction ds as [|d ds IH]; intros written m p e n Hds Hsz Hdis Hat HN ->.
  { destruct n as [|n]; [|cbn [read_descriptors] in Hds; by bind_inv]. exists m. cbn [convert_map].
    rewrite bool_decide_eq_true_2 by constructor. split_and!; [done|apply frame_refl|done]. }
  destruct n as [|n]; [done|]. cbn [read_descriptors] in Hds. apply bind_Some in Hds as (d' & Hd & Hds).
  apply bind_Some in Hds as (ds' & Hds & [= -> ->]). pose proof (zlen_nonneg written).
  replace (32 * S n)%nat with (32 + 32 * n)%nat in Hat by lia. rewrite replicate_add in Hat.
  pose proof Hat as Hz. apply bytes_at_app in Hz as [_ Hz]. apply bytes_at_app in Hz as [Hz _].
  rewrite (convert_step _ _ _ _ _ _ d) by (done || nia).
  destruct (bool_decide_reflect (within_contract d)) as [Hc|Hc].
  2: { exists m. rewrite bool_decide_eq_false_2 by (rewrite Forall_cons; tauto).
       split_and!; [done|apply frame_refl|]. intros Hall. apply Forall_cons in Hall as [? _]. done. }
  destruct (put_entry_spec m plan d _ Hz) as (m1 & -> & Hb1 & F1). cbn [mbind option_bind].
  destruct (IH (written ++ handoff_entry plan d) m1 (p + size) (a + zlen written + 32) n) as (m' & -> & F & Hb).
  - rewrite (read_descriptors_same m m1); [done|done|]. intros x Hx. apply F1. nia.
  - done.
  - nia.
  - rewrite <- app_assoc. apply bytes_at_app. split; [|apply bytes_at_app; split; [done|]].
    + apply bytes_at_app in Hat as [Hat _]. eapply frame_bytes_at; [exact F1|lia|done].
    + apply bytes_at_app in Hat as [_ Hat]. apply bytes_at_app in Hat as [_ Hat].
      rewrite zlen_replicate in Hat. eapply frame_bytes_at; [exact F1|rewrite zlen_handoff_entry; lia|done].
  - rewrite zlen_app, zlen_handoff_entry. lia.
  - rewrite zlen_app, zlen_handoff_entry. lia.
  - exists m'. split_and!.
    + do 2 f_equal. apply bool_decide_ext. rewrite Forall_cons. tauto.
    + eapply frame_trans; [eapply frame_weaken; [exact F1|lia|lia]|done].
    + rewrite Forall_cons. intros [_ Hall]. cbn [map concat]. rewrite app_assoc. by apply Hb.
Qed.
