(* ===== verification/LoaderHandoff.v ===== *)
(** * The handoff the loader builds

    [build_handoff_spec]: the function accepts a final memory map exactly when
    its descriptors keep the contract and its entries fit in the arena; the
    sealed arena is then the handoff of exactly three tags, read through the
    direct map the page tables give the kernel. *)

From stdpp Require Import strings.
From S2P Require Import Prelude Memory Crc64 Abi KernelParser KernelFacts Builder BuilderFacts Handoff Import ImportFacts ImportEmit ImportBodies Boot Port PortFacts PortParts PortOpen ElfPlan UefiExit Paging Loader LoaderMain LoaderMap.

(** ** The view of the kernel *)

(** Memory through the direct map. *)
Definition direct_view (m : mem) : mem := kmap (fun x => x + BBP_HHDM_OFFSET) m.

#[global] Instance direct_inj : Inj (=) (=) (fun x => x + BBP_HHDM_OFFSET).
Proof. intros x y H. lia. Qed.

Lemma direct_view_lookup m x : direct_view m !! (x + BBP_HHDM_OFFSET) = m !! x.
Proof. unfold direct_view. apply (lookup_kmap (fun x => x + BBP_HHDM_OFFSET)). Qed.

(** The arena after the INFO structure. *)
Definition ARENA_ROOM : Z := BBP_ARENA_PAGES * EFI_PAGE_SIZE - SIZEOF_INFO.

(** Pages below 4 GiB, as the loader asks for them. *)
Record low_pages (address pages : Z) : Prop := LowPages {
  lp_aligned : address mod EFI_PAGE_SIZE = 0;
  lp_range : 0 < address /\ address + pages * EFI_PAGE_SIZE <= BBP_IDENTITY_LIMIT;
}.

(** The same with page 0, which a firmware may return, too. *)
Record page_range (address pages : Z) : Prop := PageRange {
  pr_aligned : address mod EFI_PAGE_SIZE = 0;
  pr_range : 0 <= address /\ address + pages * EFI_PAGE_SIZE <= BBP_IDENTITY_LIMIT;
}.

Lemma low_page_range a n : low_pages a n <-> page_range a n /\ a <> 0.
Proof. split; [intros [? [? ?]]|intros [[? [? ?]] ?]]; repeat split; try done; lia. Qed.

Lemma arena_placed info :
  low_pages info BBP_ARENA_PAGES -> placed direct_view info ARENA_ROOM (info + 144) BBP_HHDM_OFFSET BBP_HHDM_OFFSET.
Proof.
  intros [Hal [H0 H1]]. unfold ARENA_ROOM, BBP_ARENA_PAGES, EFI_PAGE_SIZE, SIZEOF_INFO, BBP_HHDM_OFFSET, BBP_IDENTITY_LIMIT in *.
  split; try lia.
  - iconsts. lia.
  - split_and!; [lia| |lia]. apply Z.mod_divide in Hal as [k ->]; [|lia].
    replace (k * 4096 + 144) with ((k * 512 + 18) * 8) by lia. apply Z.mod_mul. lia.
  - intros m _ x Hx. apply direct_view_lookup.
Qed.

(** ** The tags *)

Definition handoff_map_item (plan : bbp_elf64_plan) (ds : list efi_descriptor) : item :=
  Item BBP_TAG_MEMORY_MAP [] (8 + 32 * zlen ds) (fun _ => memory_map_body (map (handoff_entry plan) ds)).

Definition handoff_items (plan : bbp_elf64_plan) (kernel_virtual_base : Z) (ds : list efi_descriptor) : list item :=
  [hhdm_item BBP_HHDM_OFFSET; handoff_map_item plan ds;
   kernel_address_item (pl_physical_base plan) kernel_virtual_base].

Lemma handoff_items_wf plan base ds : Forall item_wf (handoff_items plan base ds).
Proof.
  repeat constructor; try done; cbn [i_size handoff_map_item]; try (pose proof (zlen_nonneg ds); lia).
  apply (memory_map_item_wf (handoff_entry plan) ds (zlen_handoff_entry plan)).
Qed.

Lemma handoff_items_ids plan base ds : NoDup (map i_id (handoff_items plan base ds)).
Proof. cbn. repeat (constructor; [set_solver|]). constructor. Qed.

(** The most descriptors whose entries fit in the arena. *)
Definition MAX_DESCRIPTORS : Z := 32759.

Definition handoff_tags (n : Z) : list tagrec :=
  [Tag 0 BBP_TAG_HHDM 1 40; Tag 40 BBP_TAG_MEMORY_MAP 1 (40 + 32 * n);
   Tag (80 + 32 * n) BBP_TAG_KERNEL_ADDRESS 1 48].

Lemma rounded x : x mod 8 = 0 -> round_up 8 x = x.
Proof. apply round_up_id. lia. Qed.

Section Tags.
Context (A C P : Z) (src : mem -> Prop).
Context (Hsrc : forall m m', frame A C m m' -> src m -> src m').
Context (HC : C <= BBP_IMPORT_MAX_ARENA) (HP : P + C <= 2 ^ 48) (HA : A + C < 2 ^ 64).

Let ready := ready_for A C P src.

(** Writes that spare the headers of the tags and the unused part. *)
Lemma ready_keep m m' b ts :
  ready m b ts -> same_dom m m' -> (forall t, In t ts -> same_on m m' (A + t_off t) 24) ->
  same_on m m' (A + used b) (C - used b) -> src m' -> ready m' b ts.
Proof.
  intros [Hrep (Ea & Ep & Ec) Hb _] Hd Hh Hu Hs. pose proof Hrep as [? ? ? Hm ? ? Htags Hl ? ?]. split; [|done| |done].
  - split; try done; [by rewrite <- Hd|]. eapply linked_frame; [done|done|]. by rewrite Ea.
  - intros x Hx. rewrite Ea, Ec in Hx. rewrite Hu by lia. apply Hb. by rewrite Ea, Ec.
Qed.

(** The result of three allocations: all three succeed, or the builder is
    marked failed. *)
Lemma alloc_handoff m b n :
  ready m b [] -> used b = 0 -> tag_count b = 0 -> 0 <= n -> C = ARENA_ROOM -> 0 < A ->
  exists m' b' hhdm map kernel,
    ('(m, b, hhdm) ← bbp_alloc_tag m (Some b) BBP_TAG_HHDM 1 40;
     '(m, b, map) ← bbp_alloc_tag m b BBP_TAG_MEMORY_MAP 1 (40 + n * 32);
     '(m, b, kernel) ← bbp_alloc_tag m b BBP_TAG_KERNEL_ADDRESS 1 48;
     Some (m, b, hhdm, map, kernel)) = Some (m', Some b', hhdm, map, kernel) /\
    frame A C m m' /\
    if n <=? MAX_DESCRIPTORS then
      hhdm = A /\ map = A + 40 /\ kernel = A + (80 + 32 * n) /\
      ready m' b' (handoff_tags n) /\ used b' = 128 + 32 * n /\
      bytes_at m' (A + 32) (replicate 8 x00) /\
      bytes_at m' (A + 40 + 32) (replicate (8 + 32 * Z.to_nat n) x00) /\
      bytes_at m' (A + (80 + 32 * n) + 32) (replicate 16 x00)
    else kernel = 0.
Proof.
  intros Hr Hu Hc Hn EC HA0. subst ready. unfold ARENA_ROOM, BBP_ARENA_PAGES, EFI_PAGE_SIZE, SIZEOF_INFO in EC.
  replace (256 * 4096 - 144) with 1048432 in EC by lia.
  destruct (alloc_ready A C P src Hsrc HC HP HA m b [] BBP_TAG_HHDM 8 Hr) as (m1 & b1 & E1 & R1 & U1 & C1 & F1 & K1 & Z1);
    [lia|done|lia|lia|rewrite Hu, rounded by done; lia|]. rewrite Hu, rounded in E1, R1, U1, Z1 by done.
  cbn [t_off app] in *. change (32 + 8) with 40 in *. rewrite E1. cbn [mbind option_bind].
  replace (40 + n * 32) with (32 + (8 + 32 * n)) by lia.
  assert (round_up 8 (used b1) = 40) as Ru1 by (rewrite U1; done).
  destruct (Z.leb_spec (40 + (32 + (8 + 32 * n))) C) as [Hfit|Hfull].
  2: { erewrite (full_alloc m1 b1 _ BBP_TAG_MEMORY_MAP 1 (32 + (8 + 32 * n)));
         [|apply R1|by eapply (ready_plannable A C P src)|left; destruct (rf_place _ _ _ _ _ _ _ R1) as (_ & _ & ->); lia].
       cbn [mbind option_bind]. rewrite failed_alloc by done. cbn [mbind option_bind].
       do 5 eexists. split; [reflexivity|]. split; [done|]. unfold MAX_DESCRIPTORS. by replace (n <=? 32759) with false by lia. }
  destruct (alloc_ready A C P src Hsrc HC HP HA m1 b1 _ BBP_TAG_MEMORY_MAP (8 + 32 * n) R1)
    as (m2 & b2 & E2 & R2 & U2 & C2 & F2 & K2 & Z2); [lia|done|lia|lia|lia|].
  rewrite Ru1 in E2, R2, U2, Z2. cbn [t_off app] in *. rewrite E2. cbn [mbind option_bind].
  assert (round_up 8 (used b2) = 80 + 32 * n) as Ru2.
  { rewrite U2, rounded; [lia|]. replace (40 + (32 + (8 + 32 * n))) with ((10 + 4 * n) * 8) by lia. apply Z.mod_mul. lia. }
  unfold MAX_DESCRIPTORS. destruct (Z.leb_spec n 32759) as [Hmax|Hmax].
  2: { erewrite (full_alloc m2 b2 _ BBP_TAG_KERNEL_ADDRESS 1 48);
         [|apply R2|by eapply (ready_plannable A C P src)|left; destruct (rf_place _ _ _ _ _ _ _ R2) as (_ & _ & ->); lia].
       cbn [mbind option_bind]. do 5 eexists. split; [reflexivity|]. split; [by eapply frame_trans|done]. }
  destruct (alloc_ready A C P src Hsrc HC HP HA m2 b2 _ BBP_TAG_KERNEL_ADDRESS 16 R2)
    as (m3 & b3 & E3 & R3 & U3 & C3 & F3 & K3 & Z3); [lia|done|lia|lia|lia|].
  rewrite Ru2 in E3, R3, U3, Z3. change (32 + 16) with 48 in *. cbn [t_off app] in *. rewrite E3. cbn [mbind option_bind].
  do 5 eexists. split; [reflexivity|]. split; [by eapply frame_trans; [|eapply frame_trans]|].
  replace (32 + (8 + 32 * n)) with (40 + 32 * n) in * by lia.
  destruct (rf_place _ _ _ _ _ _ _ R1) as (Ea1 & _ & _), (rf_place _ _ _ _ _ _ _ R2) as (Ea2 & _ & _).
  split_and!; [lia|lia|done|exact R3|lia| | |done].
  - rewrite Z.add_0_r in Z1.
    eapply bytes_at_same_on; [|exact Z1]. rewrite zlen_replicate. intros x Hx. rewrite K3; [apply K2; [lia|]|lia|].
    + intros t [<-|[]]; cbn [t_off]; lia.
    + intros t [<-|[<-|[]]]; cbn [t_off]; lia.
  - eapply bytes_at_same_on; [|].
    2: { replace (8 + 32 * Z.to_nat n)%nat with (Z.to_nat (8 + 32 * n)) by lia. exact Z2. }
    rewrite zlen_replicate. intros x Hx. apply K3; [lia|]. intros t [<-|[<-|[]]]; cbn [t_off]; lia.
Qed.
End Tags.

(** ** The whole function *)

(** A final map the handoff can be built from, with its descriptors. *)
Record map_accepted (m : mem) (res : bbp_uefi_exit_result) (ds : list efi_descriptor) : Prop := MapAccepted {
  ma_final : r_memory_map_final res <> 0;
  ma_format : r_descriptor_version res = 1 /\ SIZEOF_DESCRIPTOR <= r_descriptor_size res;
  ma_size : r_memory_map_size res <> 0 /\ r_memory_map_size res mod r_descriptor_size res = 0;
  ma_read : read_descriptors m (r_memory_map res) (r_descriptor_size res)
    (Z.to_nat (r_memory_map_size res / r_descriptor_size res)) = Some ds;
  ma_count : zlen ds <= MAX_DESCRIPTORS;
  ma_contract : Forall within_contract ds;
}.

Lemma read_descriptors_length m size n : forall p ds, read_descriptors m p size n = Some ds -> length ds = n.
Proof.
  induction n as [|n IH]; intros p ds H; cbn [read_descriptors] in H; [by injection H as <-|].
  apply bind_Some in H as (d & _ & H). apply bind_Some in H as (ds' & Hd & [= <-]). cbn [length]. by rewrite (IH _ _ Hd).
Qed.

Lemma disjoint_order a n b k : 0 < n -> 0 < k -> disjoint_range a n b k -> a + n <= b \/ b + k <= a.
Proof. intros Hn Hk H. destruct (Z.le_gt_cases a b); [specialize (H b)|specialize (H a)]; lia. Qed.

(** Filling the bodies of the three tags: the conversion decides. *)
Lemma fill_bodies m A plan base res ds n :
  read_descriptors m (r_memory_map res) (r_descriptor_size res) (Z.to_nat n) = Some ds ->
  SIZEOF_DESCRIPTOR <= r_descriptor_size res -> 0 < n <= MAX_DESCRIPTORS ->
  A + ARENA_ROOM <= r_memory_map res \/ r_memory_map res + r_descriptor_size res * n <= A ->
  bytes_at m (A + 32) (replicate 8 x00) ->
  bytes_at m (A + 40 + 32) (replicate (8 + 32 * Z.to_nat n) x00) ->
  bytes_at m (A + (80 + 32 * n) + 32) (replicate 16 x00) ->
  exists m1 m2 m3 m4,
    store64 m (A + 32) BBP_HHDM_OFFSET = Some m1 /\ store32 m1 (A + 40 + 32) (wrap32 n) = Some m2 /\
    store32 m2 (A + 40 + 36) 32 = Some m3 /\
    convert_map m3 plan (r_memory_map res) (r_descriptor_size res) (A + 40 + 40) (Z.to_nat n) =
      Some (m4, bool_decide (Forall within_contract ds)) /\
    frame A (128 + 32 * n) m m4 /\
    (Forall within_contract ds -> exists m5 m6,
       store64 m4 (A + (80 + 32 * n) + 32) (pl_physical_base plan) = Some m5 /\
       store64 m5 (A + (80 + 32 * n) + 40) base = Some m6 /\
       frame A (128 + 32 * n) m m6 /\
       (forall t, In t (handoff_tags n) -> same_on m m6 (A + t_off t) 24) /\
       bytes_at m6 (A + 32) (hhdm_body BBP_HHDM_OFFSET) /\
       bytes_at m6 (A + 40 + 32) (memory_map_body (map (handoff_entry plan) ds)) /\
       bytes_at m6 (A + (80 + 32 * n) + 32) (kernel_address_body (pl_physical_base plan) base)).
Proof.
  intros Hds Hsz Hn Hdis Z1 Z2 Z3. pose proof (read_descriptors_length _ _ _ _ _ Hds) as Hlen.
  assert (zlen ds = n) as Hzl by (unfold zlen; lia).
  unfold ARENA_ROOM, BBP_ARENA_PAGES, EFI_PAGE_SIZE, SIZEOF_INFO, MAX_DESCRIPTORS, SIZEOF_DESCRIPTOR in *. unfold store64, store32.
  rewrite <- (app_nil_l (replicate 8 x00)) in Z1. rewrite <- (app_nil_l (replicate (_ + _) x00)) in Z2. rewrite <- (app_nil_l (replicate 16 x00)) in Z3.
  destruct (fill m (A + 32) [] 8 0 (le_encode 8 BBP_HHDM_OFFSET) (A + 32) Z1) as (m1 & E1 & B1 & F1);
    [done|autorewrite with zlen; lia|]. rewrite length_le_encode in B1. cbn [replicate app Nat.sub] in B1. rewrite app_nil_r in B1.
  autorewrite with zlen in F1.
  assert (bytes_at m1 (A + 40 + 32) ([] ++ replicate (8 + 32 * Z.to_nat n) x00)) as Z2'.
  { eapply frame_bytes_at; [exact F1|lia|done]. }
  destruct (fill m1 (A + 40 + 32) [] _ 0 (le_encode 4 (wrap32 n)) (A + 40 + 32) Z2') as (m2 & E2 & B2 & F2);
    [rewrite length_le_encode; lia|autorewrite with zlen; lia|]. autorewrite with zlen in F2.
  rewrite length_le_encode in B2.
  destruct (fill m2 (A + 40 + 32) _ _ 0 (le_encode 4 32) (A + 40 + 36) B2) as (m3 & E3 & B3 & F3);
    [rewrite length_le_encode; lia|autorewrite with zlen; lia|]. autorewrite with zlen in F3.
  rewrite length_le_encode in B3.
  replace (8 + 32 * Z.to_nat n - 0 - 4 - 0 - 4)%nat with (32 * Z.to_nat n)%nat in B3 by lia.
  cbn [replicate app] in B3.
  assert (frame A (128 + 32 * n) m m3) as Fa.
  { eapply frame_trans; [eapply frame_weaken; [exact F1|lia|lia]|].
    eapply frame_trans; [eapply frame_weaken; [exact F2|lia|lia]|eapply frame_weaken; [exact F3|lia|lia]]. }
  destruct (convert_map_spec plan (r_descriptor_size res) (A + 40 + 32) (8 + 32 * n) ds
    (le_encode 4 (wrap32 n) ++ le_encode 4 32) m3 (r_memory_map res)
    (A + 40 + 40) (Z.to_nat n)) as (m4 & E4 & F4 & B4); [|lia| |exact B3|autorewrite with zlen; lia..|].
  { rewrite (read_descriptors_same m m3); [done|lia|]. intros x Hx. apply Fa. nia. }
  { nia. }
  exists m1, m2, m3, m4. split_and!; try done.
  { eapply frame_trans; [exact Fa|]. eapply frame_weaken; [exact F4|lia|lia]. }
  intros Hall. specialize (B4 Hall).
  assert (bytes_at m4 (A + (80 + 32 * n) + 32) ([] ++ replicate 16 x00)) as Z3'.
  { eapply frame_bytes_at; [exact F4|lia|]. eapply frame_bytes_at; [exact F3|lia|].
    eapply frame_bytes_at; [exact F2|lia|]. eapply frame_bytes_at; [exact F1|lia|done]. }
  destruct (fill m4 _ [] 16 0 (le_encode 8 (pl_physical_base plan)) (A + (80 + 32 * n) + 32) Z3') as (m5 & E5 & B5 & F5);
    [rewrite length_le_encode; lia|autorewrite with zlen; lia|]. rewrite length_le_encode in B5.
  cbn [replicate app Nat.sub] in B5. autorewrite with zlen in F5.
  destruct (fill m5 _ _ 8 0 (le_encode 8 base) (A + (80 + 32 * n) + 40) B5) as (m6 & E6 & B6 & F6);
    [rewrite length_le_encode; lia|autorewrite with zlen; lia|]. rewrite length_le_encode in B6.
  cbn [replicate app Nat.sub] in B6. rewrite app_nil_r in B6. autorewrite with zlen in F6.
  exists m5, m6. split_and!; [done|done| | | | |done].
  - eapply frame_trans; [exact Fa|]. eapply frame_trans; [eapply frame_weaken; [exact F4|lia|lia]|].
    eapply frame_trans; [eapply frame_weaken; [exact F5|lia|lia]|eapply frame_weaken; [exact F6|lia|lia]].
  - intros t Hin x Hx. destruct F1 as [_ F1], F2 as [_ F2], F3 as [_ F3], F4 as [_ F4], F5 as [_ F5], F6 as [_ F6].
    destruct Hin as [<-|[<-|[<-|[]]]]; cbn [t_off] in Hx; by rewrite F6, F5, F4, F3, F2, F1 by lia.
  - unfold hhdm_body. eapply frame_bytes_at; [exact F6|autorewrite with zlen; lia|]. eapply frame_bytes_at; [exact F5|autorewrite with zlen; lia|].
    eapply frame_bytes_at; [exact F4|autorewrite with zlen; lia|]. eapply frame_bytes_at; [exact F3|autorewrite with zlen; lia|].
    by eapply frame_bytes_at; [exact F2|autorewrite with zlen; lia|].
  - unfold memory_map_body. assert (zlen (map (handoff_entry plan) ds) = n) as -> by (by rewrite zlen_map).
    rewrite wrap_small in B4 by (unfold in_word; lia). rewrite <- app_assoc in B4.
    assert (zlen (concat (map (handoff_entry plan) ds)) = 32 * n) as Hc
      by (rewrite (zlen_concat_map (handoff_entry plan) 32) by done; lia).
    eapply frame_bytes_at; [exact F6|autorewrite with zlen; lia|].
    by eapply frame_bytes_at; [exact F5|autorewrite with zlen; lia|].
Qed.

(** The fields of the INFO structure that the loader sets itself. *)
Lemma stamp_info m info :
  mapped m info 144 ->
  exists m1 m2 m3 m4,
    store_bytes m (info + 24) bootloader_name = Some m1 /\
    store_bytes m1 (info + 56) bootloader_version = Some m2 /\
    store16 m2 (info + 112) BBP_ARCH_X86_64 = Some m3 /\ store16 m3 (info + 114) 1 = Some m4 /\
    frame info 144 m m4.
Proof.
  intros Hm. unfold store16.
  assert (forall m a bs, mapped m info 144 -> info <= a -> a + zlen bs <= info + 144 ->
    exists m', store_bytes m a bs = Some m' /\ frame info 144 m m' /\ mapped m' info 144) as Hst.
  { intros m0 a bs Hm0 Ha He. destruct (store_bytes_mapped m0 a bs) as [m' E]; [eapply mapped_sub; [exact Hm0|lia|lia]|].
    exists m'. pose proof (frame_store _ _ _ _ E) as F. assert (frame info 144 m0 m') as F' by (eapply frame_weaken; [exact F|lia|lia]).
    split_and!; [done|done|by eapply frame_mapped]. }
  destruct (Hst m (info + 24) bootloader_name) as (m1 & E1 & F1 & M1); [done|lia|vm_compute zlen; lia|].
  destruct (Hst m1 (info + 56) bootloader_version) as (m2 & E2 & F2 & M2); [done|lia|vm_compute zlen; lia|].
  destruct (Hst m2 (info + 112) (le_encode 2 BBP_ARCH_X86_64)) as (m3 & E3 & F3 & M3); [done|lia|autorewrite with zlen; lia|].
  destruct (Hst m3 (info + 114) (le_encode 2 1)) as (m4 & E4 & F4 & M4); [done|lia|autorewrite with zlen; lia|].
  exists m1, m2, m3, m4. split_and!; try done. eapply frame_trans; [exact F1|]. eapply frame_trans; [exact F2|]. by eapply frame_trans.
Qed.

Definition handoff_context (info : Z) : bbp_kctx :=
  Kctx (info + BBP_HHDM_OFFSET) BBP_HHDM_OFFSET 1 (info + 144) (info + 144 + ARENA_ROOM).

(** What the kernel has after the jump: through the direct map its bounded
    initialiser accepts the handoff and finds exactly the three tags. *)
Definition handoff_delivered (m : mem) (info : Z) (plan : bbp_elf64_plan) (kernel_virtual_base : Z)
    (ds : list efi_descriptor) : Prop :=
  (forall cand k0,
     bbp_init_bounded (direct_view m) cand (Some k0) (info + BBP_HHDM_OFFSET) BBP_HHDM_OFFSET
       (info + 144) ARENA_ROOM = Some (Some (handoff_context info), BBP_OK)) /\
  opened (direct_view m) (handoff_context info) (handoff_items plan kernel_virtual_base ds).

(** The bodies are filled: seal the arena and open it. *)
Lemma seal_handoff m b info n plan base ds :
  low_pages info BBP_ARENA_PAGES -> mapped m info (BBP_ARENA_PAGES * EFI_PAGE_SIZE) -> zlen ds = n ->
  ready_for (info + 144) ARENA_ROOM (info + 144) (fun _ => True) m b (handoff_tags n) ->
  bytes_at m (info + 144 + 32) (hhdm_body BBP_HHDM_OFFSET) ->
  bytes_at m (info + 144 + 40 + 32) (memory_map_body (map (handoff_entry plan) ds)) ->
  bytes_at m (info + 144 + (80 + 32 * n) + 32) (kernel_address_body (pl_physical_base plan) base) ->
  exists m', bbp_builder_finalize m (Some b) info info (S (Z.to_nat BBP_BUILDER_MAX_TAGS)) = Some (m', Some b, info) /\
    frame info (BBP_ARENA_PAGES * EFI_PAGE_SIZE) m m' /\ handoff_delivered m' info plan base ds.
Proof.
  intros Hlow Hm Hn Hr B1 B2 B3. pose proof (arena_placed info Hlow) as Hpl.
  replace (BBP_ARENA_PAGES * EFI_PAGE_SIZE) with (144 + ARENA_ROOM) in * by done.
  destruct (rf_place _ _ _ _ _ _ _ Hr) as (Ea & _).
  assert (Forall2 (holds m b (handoff_tags n)) (handoff_items plan base ds) (handoff_tags n)) as Hh.
  { unfold handoff_items, handoff_tags. assert (forall it t, t_id t = i_id it -> t_ver t = 1 -> t_size t = 32 + i_size it ->
      i_blob it = [] -> bytes_at m (info + 144 + t_off t + 32) (i_body it 0) -> holds m b (handoff_tags n) it t) as H.
    { intros it t ? ? ? ? Hat. split_and!; try done. exists 0. rewrite Ea. auto. }
    repeat constructor; apply H; try done; cbn [t_off t_size i_size i_body hhdm_item handoff_map_item kernel_address_item]; try lia.
    by rewrite Z.add_0_r. }
  assert (forall cand k0, exists m',
    bbp_builder_finalize m (Some b) info info (S (Z.to_nat BBP_BUILDER_MAX_TAGS)) = Some (m', Some b, info) /\
    frame info (144 + ARENA_ROOM) m m' /\
    bbp_init_bounded (direct_view m') cand (Some k0) (info + BBP_HHDM_OFFSET) BBP_HHDM_OFFSET (info + 144) ARENA_ROOM =
      Some (Some (handoff_context info), BBP_OK) /\
    opened (direct_view m') (handoff_context info) (handoff_items plan base ds)) as Hopen.
  { intros cand k0. apply (ready_opens direct_view info ARENA_ROOM (info + 144) _ _ (fun _ => True) Hpl m b (handoff_tags n));
      [done|done|apply handoff_items_wf|apply handoff_items_ids|by left|done|bconsts; lia]. }
  destruct (Hopen (handoff_context info) (handoff_context info)) as (m' & E & F & _ & Hop).
  exists m'. split_and!; [done|done|]. split; [|done]. intros cand k0.
  destruct (Hopen cand k0) as (m'' & E' & _ & Hi & _). rewrite E in E'. by injection E' as <-.
Qed.

Lemma fill_handoff_spec m b info plan base res ds n :
  page_range info BBP_ARENA_PAGES -> mapped m info (BBP_ARENA_PAGES * EFI_PAGE_SIZE) ->
  read_descriptors m (r_memory_map res) (r_descriptor_size res) (Z.to_nat n) = Some ds ->
  SIZEOF_DESCRIPTOR <= r_descriptor_size res -> 0 < n <= MAX_DESCRIPTORS ->
  disjoint_range info (BBP_ARENA_PAGES * EFI_PAGE_SIZE) (r_memory_map res) (r_descriptor_size res * n) ->
  let A := info + 144 in
  ready_for A ARENA_ROOM A (fun _ => True) m b (handoff_tags n) -> used b = 128 + 32 * n ->
  bytes_at m (A + 32) (replicate 8 x00) ->
  bytes_at m (A + 40 + 32) (replicate (8 + 32 * Z.to_nat n) x00) ->
  bytes_at m (A + (80 + 32 * n) + 32) (replicate 16 x00) ->
  exists m' r,
    fill_handoff m info plan base res n b A (A + 40) (A + (80 + 32 * n)) = Some (m', r) /\
    frame info (BBP_ARENA_PAGES * EFI_PAGE_SIZE) m m' /\
    r = (if bool_decide (Forall within_contract ds /\ info <> 0) then Some info else None) /\
    (Forall within_contract ds -> info <> 0 -> handoff_delivered m' info plan base ds).
Proof.
  intros Hlow Hm Hds Hsz Hn Hdis A Hr Hu Z1 Z2 Z3. destruct (pr_range _ _ Hlow) as [Hi0 _].
  assert (zlen ds = n) as Hzl by (apply read_descriptors_length in Hds; unfold zlen; lia).
  assert (info + BBP_ARENA_PAGES * EFI_PAGE_SIZE = A + ARENA_ROOM) as Hroom by (unfold A, ARENA_ROOM, SIZEOF_INFO; lia).
  assert (128 + 32 * n <= ARENA_ROOM) as Hfit
    by (unfold MAX_DESCRIPTORS in *; change ARENA_ROOM with 1048432; lia).
  apply disjoint_order in Hdis; [|done|unfold SIZEOF_DESCRIPTOR in *; nia].
  destruct (fill_bodies m A plan base res ds n) as (m1 & m2 & m3 & m4 & E1 & E2 & E3 & E4 & F4 & Hok); try done; [lia|].
  unfold fill_handoff. change (sizeof bbp_memory_entry) with 32. change (sizeof bbp_tag_memory_map) with 40.
  rewrite E1. cbn [mbind option_bind]. rewrite E2. cbn [mbind option_bind]. rewrite E3. cbn [mbind option_bind].
  rewrite E4. cbn [mbind option_bind].
  assert (forall m', frame A (128 + 32 * n) m m' -> frame info (BBP_ARENA_PAGES * EFI_PAGE_SIZE) m m') as Hf.
  { intros m' F. eapply frame_weaken; [exact F|unfold A; lia|lia]. }
  case_bool_decide as Hc.
  2: { exists m4, None. split_and!; [done|by apply Hf| |done]. by rewrite bool_decide_eq_false_2 by (by intros [? _]). }
  destruct (Hok Hc) as (m5 & m6 & -> & E6 & F6 & H6 & B1 & B2 & B3). cbn [mbind option_bind]. rewrite E6. cbn [mbind option_bind].
  destruct (stamp_info m6 info) as (m7 & m8 & m9 & m10 & -> & E8 & E9 & E10 & F10).
  { eapply mapped_sub; [by eapply frame_mapped; [apply (Hf _ F6)|]|lia|unfold ARENA_ROOM in *; lia]. }
  cbn [mbind option_bind]. rewrite E8. cbn [mbind option_bind]. rewrite E9. cbn [mbind option_bind]. rewrite E10. cbn [mbind option_bind].
  assert (frame info (BBP_ARENA_PAGES * EFI_PAGE_SIZE) m m10) as F.
  { eapply frame_trans; [apply (Hf _ F6)|]. eapply frame_weaken; [exact F10|lia|unfold ARENA_ROOM, A in *; lia]. }
  destruct (Z.eqb_spec info 0) as [Ei|Hne].
  { unfold bbp_builder_finalize. rewrite (proj2 (Z.eqb_eq info 0) Ei). cbn [mbind option_bind]. exists m10, None.
    split_and!; [done|done| |done]. by rewrite bool_decide_eq_false_2 by (by intros [_ ?]). }
  destruct (seal_handoff m10 b info n plan base ds) as (m' & -> & F' & Hdel); try done.
  - by apply low_page_range.
  - eapply frame_mapped; [exact F10|]. by eapply frame_mapped; [apply (Hf _ F6)|].
  - eapply ready_keep; [exact Hr| | | |done].
    + destruct F6 as [D6 _], F10 as [D10 _]. by etrans.
    + intros t Ht x Hx. destruct F10 as [_ F10]. rewrite F10; [by apply (H6 t)|].
      destruct Ht as [<-|[<-|[<-|[]]]]; cbn [t_off] in Hx; unfold A in Hx; lia.
    + intros x Hx. destruct F10 as [_ F10], F6 as [_ F6]. rewrite F10, F6; [done|lia|unfold A in Hx; lia].
  - eapply frame_bytes_at; [exact F10|right; unfold A in *; lia|done].
  - eapply frame_bytes_at; [exact F10|right; unfold A in *; lia|done].
  - eapply frame_bytes_at; [exact F10|right; unfold A in *; lia|done].
  - cbn [mbind option_bind]. rewrite (proj2 (Z.eqb_neq info 0)) by lia. exists m', (Some info).
    split_and!; [done|by eapply frame_trans| |done]. by rewrite bool_decide_eq_true_2.
Qed.

Lemma build_handoff_spec m info plan base res :
  page_range info BBP_ARENA_PAGES -> mapped m info (BBP_ARENA_PAGES * EFI_PAGE_SIZE) ->
  0 <= r_memory_map_size res <= SIZE_MAX ->
  (SIZEOF_DESCRIPTOR <= r_descriptor_size res -> mapped m (r_memory_map res) (r_memory_map_size res)) ->
  disjoint_range info (BBP_ARENA_PAGES * EFI_PAGE_SIZE) (r_memory_map res) (r_memory_map_size res) ->
  exists m' r, build_handoff m info plan base res = Some (m', r) /\
    frame info (BBP_ARENA_PAGES * EFI_PAGE_SIZE) m m' /\
    match r with
    | Some i => i = info /\ info <> 0 /\ exists ds, map_accepted m res ds /\ handoff_delivered m' info plan base ds
    | None => info = 0 \/ forall ds, ~ map_accepted m res ds
    end.
Proof.
  intros Hlow Hm Hsz Hmm Hdis. pose proof Hlow as [Hal [Hi0 HA]]. unfold build_handoff.
  assert (0 < ARENA_ROOM <= BBP_IMPORT_MAX_ARENA /\ (info + 144) mod 8 = 0 /\ info + 144 + ARENA_ROOM <= 2 ^ 48) as (HC & Hal8 & HP2).
  { unfold ARENA_ROOM, BBP_ARENA_PAGES, EFI_PAGE_SIZE, SIZEOF_INFO, BBP_IDENTITY_LIMIT in *. split_and!; [iconsts; lia..| |lia].
    apply Z.mod_divide in Hal as [k ->]; [|lia].
    replace (k * 4096 + 144) with ((k * 512 + 18) * 8) by lia. apply Z.mod_mul. lia. }
  assert (forall m0 : mem, frame info (BBP_ARENA_PAGES * EFI_PAGE_SIZE) m m0 -> (forall ds, ~ map_accepted m res ds) ->
    exists m' r, Some (m0, @None Z) = Some (m', r) /\ frame info (BBP_ARENA_PAGES * EFI_PAGE_SIZE) m m' /\
      match r with
      | Some i => i = info /\ info <> 0 /\ exists ds, map_accepted m res ds /\ handoff_delivered m' info plan base ds
      | None => info = 0 \/ forall ds, ~ map_accepted m res ds
      end) as Hno by (intros m0 F Hnot; exists m0, None; auto).
  destruct (_ || _ || _ || _ || _) eqn:G.
  { apply Hno; [apply frame_refl|]. intros ds [? [? ?] [? ?] _ _ _]. unfold SIZEOF_DESCRIPTOR in *. bool_to_prop. lia. }
  assert (r_memory_map_final res <> 0 /\ r_descriptor_version res = 1 /\ 40 <= r_descriptor_size res /\
    r_memory_map_size res <> 0 /\ r_memory_map_size res mod r_descriptor_size res = 0) as (Gf & Gv & Gd & Gs & Gm).
  { unfold SIZEOF_DESCRIPTOR in *. bool_to_prop. lia. }
  clear G. set (n := r_memory_map_size res / r_descriptor_size res).
  assert (r_memory_map_size res = r_descriptor_size res * n) as Hmul by (unfold n; apply Z.div_exact; lia).
  assert (0 < n) as Hn by nia.
  destruct (read_descriptors_total m (r_descriptor_size res) (Z.to_nat n)) with (p := r_memory_map res) as (ds & Hds & Hlen).
  { lia. } { rewrite Z2Nat.id, <- Hmul by lia. by apply Hmm. }
  assert (zlen ds = n) as Hzl by (unfold zlen; lia).
  destruct (_ || _) eqn:G.
  { apply Hno; [apply frame_refl|]. intros ds' [_ _ _ Hr Hc _]. fold n in Hr. rewrite Hds in Hr. injection Hr as <-.
    unfold MAX_DESCRIPTORS in Hc. change ((SIZE_MAX - sizeof bbp_tag_memory_map) / sizeof bbp_memory_entry) with (2 ^ 59 - 2) in G.
    bool_to_prop. lia. }
  clear G. change (sizeof bbp_tag_memory_map) with 40. change (sizeof bbp_memory_entry) with 32.
  change (sizeof bbp_tag_hhdm) with 40. change (sizeof bbp_tag_kernel_address) with 48.
  change (BBP_ARENA_PAGES * EFI_PAGE_SIZE - SIZEOF_INFO) with ARENA_ROOM. unfold SIZEOF_INFO.
  destruct (init_ready_at (info + 144) ARENA_ROOM (info + 144) (fun _ => True) m) as (m0 & E0 & F0 & R0);
    [done|done|lia|done|done|lia|lia| |done|].
  { eapply mapped_sub; [exact Hm|lia|unfold ARENA_ROOM, SIZEOF_INFO; lia]. } unfold local_builder in E0. unfold handoff_builder. rewrite E0. cbn [mbind option_bind].
  destruct (alloc_handoff (info + 144) ARENA_ROOM (info + 144) (fun _ => True) ltac:(done) ltac:(lia) HP2 ltac:(lia) m0 _ n R0)
    as (m1 & b1 & hhdm & map & kernel & E1 & F1 & Hres); [done|done|lia|done|lia|].
  apply bind_Some in E1 as ([[ma ba] pa] & -> & E1). cbn [mbind option_bind].
  apply bind_Some in E1 as ([[mb bb] pb] & -> & E1). cbn [mbind option_bind].
  apply bind_Some in E1 as ([[mc bc] pc] & -> & E1). cbn [mbind option_bind]. injection E1 as -> -> -> -> ->. cbn [mbind option_bind].
  assert (frame info (BBP_ARENA_PAGES * EFI_PAGE_SIZE) m m1) as F.
  { eapply frame_weaken; [eapply frame_trans; [exact F0|exact F1]|lia|unfold ARENA_ROOM, SIZEOF_INFO; lia]. }
  destruct (Z.leb_spec n MAX_DESCRIPTORS) as [Hmax|Hmax].
  2: { rewrite Hres, orb_true_r. cbn [orb]. apply Hno; [done|]. intros ds' [_ _ _ Hr Hc _]. fold n in Hr.
       rewrite Hds in Hr. injection Hr as <-. lia. }
  destruct Hres as (-> & -> & -> & R1 & U1 & Z1 & Z2 & Z3). rewrite (br_ok _ _ _ (rf_rep _ _ _ _ _ _ _ R1)).
  replace (_ || _ || _ || _) with false by lia.
  destruct (fill_handoff_spec m1 b1 info plan base res ds n) as (m' & r & -> & F' & -> & Hok); try done.
  - by eapply frame_mapped.
  - rewrite (read_descriptors_same m m1); [done|lia|]. intros x Hx. apply F. intros Hx'. apply (Hdis x Hx'). lia.
  - by rewrite <- Hmul.
  - do 2 eexists. split_and!; [done|by eapply frame_trans|]. case_bool_decide as Hc.
    + destruct Hc as [Hc Hne]. split_and!; [done|done|]. exists ds. split; [|by apply Hok]. split; try done. lia.
    + destruct (Z.eq_dec info 0) as [|Hne]; [by left|]. right. intros ds' [_ _ _ Hr _ Hc']. fold n in Hr. rewrite Hds in Hr. injection Hr as <-.
      by apply Hc.
Qed.

(** ** A handoff *)

Lemma zeros_mapped a n : mapped (mem_of a (replicate n x00)) a (Z.of_nat n).
Proof. rewrite <- (zlen_replicate n x00). apply bytes_at_mapped, bytes_at_mem_of. Qed.

(** An arena at 1 MiB and a map of one conventional region that holds it. *)
Module HandoffSample.
Definition descriptor : list byte :=
  le_encode 4 EfiConventionalMemory ++ replicate 4 x00 ++ le_encode 8 0x100000 ++ replicate 8 x00 ++
  le_encode 8 512 ++ le_encode 8 (Z.lor EFI_MEMORY_WB EFI_MEMORY_UC) ++ replicate 8 x00.
Definition arena : mem := mem_of 0x100000 (replicate (Z.to_nat (BBP_ARENA_PAGES * EFI_PAGE_SIZE)) x00).
Definition memory : mem := mem_of 4096 descriptor ∪ arena.
Definition plan : bbp_elf64_plan := Elf64Plan 0xffffffff80200010 0x200000 0x201000 0 [].
Definition result : bbp_uefi_exit_result := ExitResult 4096 48 480 7 48 1 1.
Definition region : efi_descriptor := Descriptor EfiConventionalMemory 0x100000 512 9.

Lemma arena_low : low_pages 0x100000 BBP_ARENA_PAGES.
Proof. by split. Qed.

Lemma sample_arena_mapped : mapped memory 0x100000 (BBP_ARENA_PAGES * EFI_PAGE_SIZE).
Proof. intros x Hx. unfold memory, arena. apply lookup_union_is_Some. right. apply zeros_mapped. lia. Qed.

#[local] Opaque arena.

Lemma map_same : same_on (mem_of 4096 descriptor) memory 4096 48.
Proof.
  intros x Hx. unfold memory. assert (is_Some (mem_of 4096 descriptor !! x)) as [b Hb].
  { apply (bytes_at_mapped _ _ _ (bytes_at_mem_of 4096 descriptor)). exact Hx. }
  rewrite Hb. by apply lookup_union_Some_l.
Qed.

Lemma map_read : read_descriptors memory 4096 48 1 = Some [region].
Proof. rewrite (read_descriptors_same (mem_of 4096 descriptor)); [vm_compute; reflexivity|done|exact map_same]. Qed.

Lemma map_mapped : mapped memory 4096 48.
Proof. intros x Hx. rewrite (map_same x Hx). apply (bytes_at_mapped _ _ _ (bytes_at_mem_of 4096 descriptor)). exact Hx. Qed.

Lemma sample_accepted : map_accepted memory result [region].
Proof. split; [done|done|done|exact map_read|done|]. constructor; [|constructor]. split_and!; [done|done|]. do 3 right. done. Qed.
End HandoffSample.

(** C19: the handoff tells the kernel what the loader knows.  For an arena below
    4 GiB and the result of the exit, [build_handoff] returns, writes only the
    arena, and accepts exactly the final maps in the format of version 1 whose
    descriptors are at most 32759, not empty, do not wrap and, unless they are
    device or reserved ranges, end below 4 GiB.  What it then leaves in the
    arena is accepted by the kernel's bounded initialiser through the direct
    map, and lookup finds exactly three tags: the direct-map offset, one
    memory-map entry per descriptor in order with its range, its translated
    type and attributes (the kernel's own memory marked as such), and the
    kernel's physical and virtual base. *)
Theorem handoff_tells_machine (m : mem) (arena_address : Z) (plan : bbp_elf64_plan)
    (kernel_virtual_base : Z) (res : bbp_uefi_exit_result) :
  low_pages arena_address BBP_ARENA_PAGES ->
  mapped m arena_address (BBP_ARENA_PAGES * EFI_PAGE_SIZE) ->
  0 <= r_memory_map_size res <= SIZE_MAX ->
  (SIZEOF_DESCRIPTOR <= r_descriptor_size res -> mapped m (r_memory_map res) (r_memory_map_size res)) ->
  disjoint_range arena_address (BBP_ARENA_PAGES * EFI_PAGE_SIZE) (r_memory_map res) (r_memory_map_size res) ->
  exists m' r,
    build_handoff m arena_address plan kernel_virtual_base res = Some (m', r) /\
    frame arena_address (BBP_ARENA_PAGES * EFI_PAGE_SIZE) m m' /\
    match r with
    | Some info => info = arena_address /\
        exists ds, map_accepted m res ds /\ handoff_delivered m' info plan kernel_virtual_base ds
    | None => forall ds, ~ map_accepted m res ds
    end.
Proof.
  intros Hlow Hm Hsz Hmm Hdis.
  apply low_page_range in Hlow as [Hpages Hne].
  destruct (build_handoff_spec m arena_address plan kernel_virtual_base res Hpages Hm Hsz Hmm Hdis) as (m' & r & E & F & H).
  exists m', r. split_and!; [done|done|]. destruct r as [i|]; [|by destruct H]. destruct H as (-> & _ & H). done.
Qed.

Lemma handoff_tells_machine_witness :
  exists m', build_handoff HandoffSample.memory 0x100000 HandoffSample.plan 0xffffffff80200000 HandoffSample.result =
    Some (m', Some 0x100000) /\
    handoff_delivered m' 0x100000 HandoffSample.plan 0xffffffff80200000 [HandoffSample.region].
Proof.
  destruct (handoff_tells_machine HandoffSample.memory 0x100000 HandoffSample.plan 0xffffffff80200000
    HandoffSample.result) as (m' & r & E & _ & H).
  - exact HandoffSample.arena_low.
  - exact HandoffSample.sample_arena_mapped.
  - vm_compute. split; discriminate.
  - intros _. exact HandoffSample.map_mapped.
  - apply disjoint_range_intro. right. vm_compute. discriminate.
  - destruct r as [info|]; [|destruct (H _ HandoffSample.sample_accepted)]. destruct H as (-> & ds & Hacc & Hdel).
    pose proof (ma_read _ _ _ Hacc) as Hr.
    change (read_descriptors HandoffSample.memory 4096 48 1 = Some ds) in Hr.
    rewrite HandoffSample.map_read in Hr. injection Hr as <-.
    exists m'. split; [exact E|exact Hdel].
Defined.
