(* ===== verification/LoaderFind.v ===== *)
(** * The kernel's header

    [find_header] returns the header exactly when one place of the loaded
    segments carries the magic and that header verifies;
    [validate_header_contract] decides the contract between the header, the
    plan and what this loader can provide. *)

From stdpp Require Import strings.
From S2P Require Import Prelude Memory Crc64 Abi KernelParser KernelFacts ElfPlan Paging Loader.

(** ** The search *)

(** The places of a segment where a header may start. *)
Definition segment_places (s : bbp_elf64_segment_plan) : list Z :=
  if s_file_size s <? SIZEOF_HEADER then []
  else map (fun i => s_physical_address s + 8 * i) (seqZ 0 (Z.of_nat (header_places s))).

Definition header_candidates (segments : list bbp_elf64_segment_plan) : list Z :=
  concat (map segment_places segments).

Definition has_magic (m : mem) (c : Z) : bool :=
  bool_decide (load_bytes m c 16 = Some BBP_HEADER_MAGIC).

Definition verified (m : mem) (c : Z) : bool :=
  bool_decide (bbp_verify_header m c = Some BBP_OK).

(** The only place with the magic, if it holds a valid header. *)
Definition unique_header (m : mem) (cs : list Z) : Z :=
  match List.filter (has_magic m) cs with
  | [c] => if verified m c then c else 0
  | _ => 0
  end.

(** The loop over a list of places; [None] is the return of NULL. *)
Fixpoint scan (m : mem) (found : Z) (cs : list Z) : option Z :=
  match cs with
  | [] => Some found
  | c :: cs =>
      if has_magic m c then
        if negb (found =? 0) || negb (verified m c) then None else scan m c cs
      else scan m found cs
  end.

Lemma scan_app m cs ds : forall found, scan m found (cs ++ ds) = (found ← scan m found cs; scan m found ds).
Proof.
  induction cs as [|c cs IH]; intros found; [done|]. cbn [app scan].
  destruct (has_magic m c); [|apply IH]. destruct (_ || _); [done|apply IH].
Qed.

Lemma scan_found m cs found : found <> 0 ->
  scan m found cs = match List.filter (has_magic m) cs with [] => Some found | _ => None end.
Proof.
  intros Hf. induction cs as [|c cs IH]; [done|]. cbn [scan List.filter].
  destruct (has_magic m c); [|done]. by rewrite (proj2 (Z.eqb_neq _ _) Hf).
Qed.

Lemma scan_unique m cs : Forall (fun c => c <> 0) cs -> default 0 (scan m 0 cs) = unique_header m cs.
Proof.
  unfold unique_header. induction 1 as [|c cs Hc _ IH]; [done|]. cbn [scan List.filter].
  destruct (has_magic m c); [|done]. cbn [Z.eqb negb orb]. destruct (verified m c); cbn [negb].
  - rewrite scan_found by done. by destruct (List.filter _ cs).
  - by destruct (List.filter _ cs).
Qed.

Lemma verify_total m c : 0 < c -> mapped m c SIZEOF_HEADER ->
  exists st, bbp_verify_header m c = Some st /\ verified m c = bool_decide (st = BBP_OK).
Proof.
  intros Hc Hm. destruct (mapped_load m c 160) as [bs Hbs]; [done|].
  rewrite (bbp_verify_header_spec m c bs) by (done || lia). eexists. split; [done|].
  unfold verified. rewrite (bbp_verify_header_spec m c bs) by (done || lia). apply bool_decide_ext.
  split; [by intros [= ->]|by intros ->].
Qed.

Lemma magic_total m c : mapped m c SIZEOF_HEADER -> bytes_equal m c BBP_HEADER_MAGIC = Some (has_magic m c).
Proof.
  intros Hm. destruct (mapped_load m c 16) as [bs Hbs]; [eapply mapped_sub; [exact Hm|lia|unfold SIZEOF_HEADER; lia]|].
  rewrite (bytes_equal_spec m c BBP_HEADER_MAGIC bs Hbs). unfold has_magic. rewrite Hbs. f_equal. apply bool_decide_ext.
  split; [by intros ->|by intros [= ->]].
Qed.

Lemma find_in_segment_scan m n : forall found c,
  0 < c -> (forall i, 0 <= i < Z.of_nat n -> mapped m (c + 8 * i) SIZEOF_HEADER) ->
  find_in_segment m found c n = Some (scan m found (map (fun i => c + 8 * i) (seqZ 0 (Z.of_nat n)))).
Proof.
  induction n as [|n IH]; intros found c Hc Hm; [done|]. cbn [find_in_segment].
  rewrite seqZ_cons by lia. cbn [map scan]. rewrite Z.mul_0_r, Z.add_0_r.
  pose proof (Hm 0 ltac:(lia)) as H0. rewrite Z.mul_0_r, Z.add_0_r in H0.
  assert (map (fun i => c + 8 * i) (seqZ (Z.succ 0) (Z.pred (Z.of_nat (S n)))) =
    map (fun i => c + 8 + 8 * i) (seqZ 0 (Z.of_nat n))) as ->.
  { replace (Z.pred (Z.of_nat (S n))) with (Z.of_nat n) by lia. change (Z.succ 0) with (1 + 0).
    rewrite <- (fmap_add_seqZ 1 0 (Z.of_nat n)). unfold fmap. rewrite map_map. apply map_ext. intros i. lia. }
  assert (forall i, 0 <= i < Z.of_nat n -> mapped m (c + 8 + 8 * i) SIZEOF_HEADER) as Hm'.
  { intros i Hi. replace (c + 8 + 8 * i) with (c + 8 * (i + 1)) by lia. apply Hm. lia. }
  rewrite magic_total by done. cbn [mbind option_bind]. destruct (has_magic m c); cbn [negb]; [|by apply IH; [lia|]].
  destruct (found =? 0); cbn [negb orb]; [|done]. destruct (verify_total m c) as (st & -> & ->); [done|done|].
  cbn [mbind option_bind]. destruct (bool_decide _); cbn [negb]; [by apply IH; [lia|]|done].
Qed.

(** The file part of every segment that can hold a header is mapped. *)
Definition files_mapped (m : mem) (segments : list bbp_elf64_segment_plan) : Prop :=
  Forall (fun s => SIZEOF_HEADER <= s_file_size s ->
    0 < s_physical_address s /\ mapped m (s_physical_address s) (s_file_size s)) segments.

Lemma place_inside s i : SIZEOF_HEADER <= s_file_size s -> 0 <= i < Z.of_nat (header_places s) ->
  0 <= 8 * i /\ 8 * i + SIZEOF_HEADER <= s_file_size s.
Proof.
  unfold header_places, SIZEOF_HEADER. intros Hs Hi. pose proof (Z.mul_div_le (s_file_size s - 160) 8 ltac:(lia)).
  pose proof (Z.div_pos (s_file_size s - 160) 8 ltac:(lia) ltac:(lia)). lia.
Qed.

Lemma find_header_scan m segments : files_mapped m segments -> forall found,
  find_header_from m found segments = Some (default 0 (scan m found (header_candidates segments))).
Proof.
  unfold header_candidates. induction 1 as [|s segments Hs _ IH]; intros found; [done|].
  cbn [find_header_from map concat]. rewrite scan_app. unfold segment_places.
  destruct (Z.ltb_spec (s_file_size s) SIZEOF_HEADER) as [Hlt|Hge]; [apply IH|].
  destruct (Hs Hge) as [H0 Hm]. rewrite find_in_segment_scan; [|done|].
  2: { intros i Hi. pose proof (place_inside s i Hge Hi). eapply mapped_sub; [exact Hm|lia|lia]. }
  cbn [mbind option_bind]. destruct (scan m found _) as [f|]; [apply IH|done].
Qed.

Lemma candidate_of c segments : In c (header_candidates segments) ->
  exists s, In s segments /\ SIZEOF_HEADER <= s_file_size s /\
    s_physical_address s <= c /\ c + SIZEOF_HEADER <= s_physical_address s + s_file_size s.
Proof.
  unfold header_candidates. intros H. apply in_concat in H as (l & Hl & Hc). apply in_map_iff in Hl as (s & <- & Hs).
  unfold segment_places in Hc. destruct (Z.ltb_spec (s_file_size s) SIZEOF_HEADER) as [|Hge]; [done|].
  apply in_map_iff in Hc as (i & <- & Hi). apply list_elem_of_In, elem_of_seqZ in Hi.
  pose proof (place_inside s i Hge ltac:(lia)). exists s. split_and!; [done|done|lia|lia].
Qed.

Lemma find_header_spec m plan : files_mapped m (planned plan) ->
  find_header m plan = Some (unique_header m (header_candidates (planned plan))).
Proof.
  intros Hm. unfold find_header. rewrite find_header_scan by done. f_equal. apply scan_unique.
  apply List.Forall_forall. intros c Hc. destruct (candidate_of _ _ Hc) as (s & Hs & Hge & ? & _).
  unfold files_mapped in Hm. rewrite List.Forall_forall in Hm. destruct (Hm s Hs Hge). lia.
Qed.

Lemma unique_header_found m cs : unique_header m cs <> 0 ->
  In (unique_header m cs) cs /\ bbp_verify_header m (unique_header m cs) = Some BBP_OK /\
  (forall c, In c cs -> load_bytes m c 16 = Some BBP_HEADER_MAGIC -> c = unique_header m cs).
Proof.
  unfold unique_header. destruct (List.filter (has_magic m) cs) as [|h [|]] eqn:E; try done.
  destruct (verified m h) eqn:V; [|done]. intros _. assert (In h (List.filter (has_magic m) cs)) as Hin by (rewrite E; by left).
  apply filter_In in Hin as [Hin _]. split_and!; [done|by apply bool_decide_eq_true in V|].
  intros c Hc Hmag. assert (In c [h]) as [<-|[]]; [|done]. rewrite <- E. apply filter_In. split; [done|].
  by apply bool_decide_eq_true_2.
Qed.

(** ** The contract *)

(** Masking with the complement of one bit. *)
Lemma land_except_bit x k : 0 <= k < 64 -> in_word 64 x ->
  Z.land x (wrap64 (Z.lnot (2 ^ k))) = 0 <-> x = 0 \/ x = 2 ^ k.
Proof.
  intros Hk Hx.
  assert (forall i, 0 <= i -> Z.testbit (Z.land x (wrap64 (Z.lnot (2 ^ k)))) i = Z.testbit x i && negb (i =? k)) as Hbit.
  { intros i Hi. rewrite Z.land_spec. unfold wrap. destruct (Z.lt_ge_cases i 64) as [Hi'|Hi'].
    - rewrite Z.mod_pow2_bits_low, Z.lnot_spec, Z.pow2_bits_eqb by lia. by rewrite Z.eqb_sym.
    - rewrite Z.mod_pow2_bits_high by lia. rewrite (Z.bits_above_log2 x i); [done|unfold in_word in Hx; lia|].
      apply Z.lt_le_trans with 64; [|lia]. destruct (Z.eq_dec x 0) as [->|]; [done|]. apply Z.log2_lt_pow2; unfold in_word in Hx; lia. }
  split.
  - intros H0. assert (forall i, 0 <= i -> i <> k -> Z.testbit x i = false) as Hz.
    { intros i Hi Hne. specialize (Hbit i Hi). rewrite H0, Z.testbit_0_l, (proj2 (Z.eqb_neq _ _) Hne), andb_true_r in Hbit. done. }
    destruct (Z.testbit x k) eqn:Hb; [right|left]; apply Z.bits_inj_iff'; intros i Hi; rewrite ?Z.pow2_bits_eqb, ?Z.testbit_0_l by lia.
    + destruct (Z.eqb_spec k i) as [<-|Hne]; [done|]. by apply Hz.
    + destruct (Z.eq_dec i k) as [->|Hne]; [done|]. by apply Hz.
  - intros [-> | ->]; [done|]. apply Z.bits_inj_iff'. intros i Hi. rewrite Hbit, Z.testbit_0_l, Z.pow2_bits_eqb by lia.
    rewrite Z.eqb_sym. by destruct (i =? k).
Qed.

Record request := Request { rq_tag : Z; rq_flags : Z; rq_reserved : Z }.

Definition read_request (m : mem) (p : Z) : option request :=
  tag ← load64 m p; flags ← load64 m (p + 8); reserved ← load64 m (p + 16);
  Some (Request tag flags reserved).

Fixpoint read_requests (m : mem) (p : Z) (n : nat) : option (list request) :=
  match n with
  | O => Some []
  | S n => r ← read_request m p; rs ← read_requests m (p + 24) n; Some (r :: rs)
  end.

(** A request the loader may answer: well formed, and for one of its tags or
    optional. *)
Definition request_ok (r : request) : Prop :=
  rq_reserved r = 0 /\ (rq_flags r = 0 \/ rq_flags r = BBP_REQ_OPTIONAL) /\
  (request_bit (rq_tag r) = 0 -> rq_flags r = BBP_REQ_OPTIONAL).

Definition asked (bit : Z) (rs : list request) : Z :=
  zlen (List.filter (fun r => request_bit (rq_tag r) =? bit) rs).

(** All well formed, and each of the three tags asked for once. *)
Definition requests_ok (rs : list request) : Prop :=
  Forall request_ok rs /\ asked 1 rs = 1 /\ asked 2 rs = 1 /\ asked 4 rs = 1.

Lemma request_bit_cases id : request_bit id = 0 \/ request_bit id = 1 \/ request_bit id = 2 \/ request_bit id = 4.
Proof. unfold request_bit. repeat destruct (_ =? _); auto. Qed.

Lemma asked_cons bit r rs : asked bit (r :: rs) = (if request_bit (rq_tag r) =? bit then 1 else 0) + asked bit rs.
Proof. unfold asked. cbn [List.filter]. destruct (_ =? bit); [by rewrite zlen_cons|lia]. Qed.

Lemma asked_nonneg bit rs : 0 <= asked bit rs.
Proof. apply zlen_nonneg. Qed.

(** How often a bit has been asked for before. *)
Definition had (seen bit : Z) : Z := if Z.land seen bit =? 0 then 0 else 1.

Lemma had_step seen bit k : 0 <= seen < 8 -> k = 1 \/ k = 2 \/ k = 4 ->
  bit = 0 \/ bit = 1 \/ bit = 2 \/ bit = 4 -> (bit <> 0 -> Z.land seen bit = 0) ->
  had (Z.lor seen bit) k = had seen k + (if bit =? k then 1 else 0) /\ 0 <= Z.lor seen bit < 8.
Proof.
  intros Hs Hk Hb Hfree. assert (seen = 0 \/ seen = 1 \/ seen = 2 \/ seen = 3 \/ seen = 4 \/ seen = 5 \/ seen = 6 \/ seen = 7) as Hc by lia.
  repeat match goal with H : _ \/ _ |- _ => destruct H end; subst;
    first [vm_compute; tauto || intuition discriminate | exfalso; discriminate (Hfree ltac:(discriminate))].
Qed.

Lemma all_seen seen : 0 <= seen < 8 -> seen = 7 <-> had seen 1 = 1 /\ had seen 2 = 1 /\ had seen 4 = 1.
Proof.
  intros Hs. assert (seen = 0 \/ seen = 1 \/ seen = 2 \/ seen = 3 \/ seen = 4 \/ seen = 5 \/ seen = 6 \/ seen = 7) as Hc by lia.
  repeat match goal with H : _ \/ _ |- _ => destruct H end; subst; vm_compute; intuition discriminate.
Qed.

Lemma check_requests_spec m n : forall p seen rs,
  read_requests m p n = Some rs -> 0 <= seen < 8 ->
  exists r, check_requests m p seen n = Some r /\
    (r = Some 7 <-> Forall request_ok rs /\
       forall k, k = 1 \/ k = 2 \/ k = 4 -> had seen k + asked k rs = 1).
Proof.
  induction n as [|n IH]; intros p seen rs Hrs Hseen; cbn [read_requests check_requests] in *.
  { injection Hrs as <-. exists (Some seen). split; [done|].
    transitivity (seen = 7); [split; [intros Heq; by injection Heq|by intros ->]|]. rewrite all_seen by done. unfold asked. cbn [List.filter].
    rewrite zlen_nil. split.
    - intros (? & ? & ?). split; [constructor|]. intros k [-> | [-> | ->]]; lia.
    - intros [_ H]. pose proof (H 1). pose proof (H 2). pose proof (H 4). lia. }
  apply bind_Some in Hrs as (r & Hr & Hrs). apply bind_Some in Hrs as (rs' & Hrs & Heq). injection Heq as <-.
  unfold read_request in Hr. apply bind_Some in Hr as (tag & Ht & Hr). apply bind_Some in Hr as (flags & Hf & Hr).
  apply bind_Some in Hr as (reserved & Hres & Hr). injection Hr as <-. rewrite Hres, Hf, Ht. cbn [mbind option_bind].
  pose proof (load64_word _ _ _ Hf) as Wf. pose proof (land_except_bit flags 0 ltac:(lia) Wf) as Hmask.
  change (Z.lnot (2 ^ 0)) with (Z.lnot BBP_REQ_OPTIONAL) in Hmask. change (2 ^ 0) with BBP_REQ_OPTIONAL in Hmask.
  assert (forall P : Prop, ~ P -> exists r, Some (@None Z) = Some r /\ (r = Some 7 <-> P)) as Hbad.
  { intros P HP. exists None. split; [done|]. split; [done|tauto]. }
  set (bit := request_bit tag). pose proof (request_bit_cases tag) as Hbit. fold bit in Hbit.
  destruct (decide (reserved = 0 /\ (flags = 0 \/ flags = BBP_REQ_OPTIONAL))) as [[R0 Rf]|Hno].
  2: { replace (negb (reserved =? 0) || _) with true.
       - apply Hbad. rewrite Forall_cons. unfold request_ok. cbn [rq_reserved rq_flags]. intros [[(? & ? & _) _] _]. tauto.
       - destruct (Z.eqb_spec reserved 0); [|done]. destruct (Z.eqb_spec (Z.land flags (wrap64 (Z.lnot BBP_REQ_OPTIONAL))) 0); tauto. }
  replace (negb (reserved =? 0) || _) with false
    by (rewrite R0; cbn [Z.eqb negb orb]; symmetry; apply negb_false_iff, Z.eqb_eq; tauto).
  destruct ((bit =? 0) && _) eqn:G2.
  { apply Hbad. rewrite Forall_cons. unfold request_ok. cbn [rq_tag rq_flags]. fold bit. intros [[(_ & _ & Ho) _] _].
    bool_to_prop. rewrite Ho in * by done. done. }
  destruct (negb (bit =? 0) && _) eqn:G3.
  { apply Hbad. intros [_ Hall]. bool_to_prop. assert (bit = 1 \/ bit = 2 \/ bit = 4) as Hk by tauto.
    specialize (Hall bit Hk). rewrite asked_cons in Hall. cbn [rq_tag] in Hall. fold bit in Hall. rewrite Z.eqb_refl in Hall.
    pose proof (asked_nonneg bit rs'). unfold had in Hall. destruct (Z.eqb_spec (Z.land seen bit) 0); [done|lia]. }
  assert (bit <> 0 -> Z.land seen bit = 0) as Hfree.
  { intros Hne. rewrite (proj2 (Z.eqb_neq _ _) Hne) in G3. by apply negb_false_iff, Z.eqb_eq in G3. }
  destruct (IH (p + 24) (Z.lor seen bit) rs' Hrs) as (res & -> & Hiff).
  { by apply (had_step seen bit 1); auto. }
  exists res. split; [done|]. rewrite Hiff, Forall_cons. unfold request_ok at 2. cbn [rq_reserved rq_flags rq_tag]. fold bit.
  assert (bit = 0 -> flags = BBP_REQ_OPTIONAL) as Ho.
  { intros Hb0. rewrite Hb0 in G2. destruct Rf as [-> | ->]; done. }
  split.
  - intros [Hall Hk]. split; [tauto|]. intros k Hk'. rewrite asked_cons. cbn [rq_tag]. fold bit. specialize (Hk k Hk').
    destruct (had_step seen bit k Hseen Hk' Hbit Hfree) as [Hh _]. lia.
  - intros [[_ Hall] Hk]. split; [done|]. intros k Hk'. specialize (Hk k Hk'). rewrite asked_cons in Hk. cbn [rq_tag] in Hk. fold bit in Hk.
    destruct (had_step seen bit k Hseen Hk' Hbit Hfree) as [Hh _]. lia.
Qed.

(** ** Loaded ranges *)

Lemma range_loaded_spec segments a e :
  Forall (fun s => s_physical_address s + s_memory_size s < 2 ^ 64 /\ 0 <= s_physical_address s + s_memory_size s) segments ->
  range_loaded segments a e = true <->
  exists s, In s segments /\ s_physical_address s <= a /\ e <= s_physical_address s + s_memory_size s.
Proof.
  induction 1 as [|s segments Hs _ IH]; cbn [range_loaded]; [split; [done|by intros (? & [] & _)]|].
  rewrite wrap_small by (unfold in_word; lia). destruct (_ && _) eqn:G; bool_to_prop.
  - split; [intros _|done]. exists s. split_and!; [by left|done|done].
  - rewrite IH. split.
    + intros (t & Ht & Hr). exists t. split; [by right|done].
    + intros (t & [<-|Ht] & Hr); [|by exists t]. destruct Hr as [? ?]. destruct G as [G|G]; bool_to_prop; lia.
Qed.

(** ** The decision *)

(** What the loader requires of the header besides its own integrity. *)
Record header_contract (m : mem) (header : Z) (plan : bbp_elf64_plan) : Prop := HeaderContract {
  hc_entry : load64 m (header + 32) = Some (pl_entry plan);
  hc_flags : load64 m (header + 24) = Some 0 \/ load64 m (header + 24) = Some BBP_HF_UNMAP_NULL_PAGE;
  hc_paging : load64 m (header + 40) = Some BBP_PAGING_4LEVEL;
  hc_base : load64 m (header + 48) = Some (actual_virtual_base (pl_physical_base plan) (planned plan)) /\
    actual_virtual_base (pl_physical_base plan) (planned plan) <> 0;
  hc_reserved : load32 m (header + 60) = Some 0;
  hc_requests : exists n p rs,
    load32 m (header + 56) = Some n /\ 0 < n <= BBP_MAX_REQUESTS /\ load64 m (header + 64) = Some p /\
    physical_range_loaded plan p (n * 24) = true /\ read_requests m p (Z.to_nat n) = Some rs /\ requests_ok rs;
}.

Lemma read_requests_total m n : forall p, mapped m p (24 * Z.of_nat n) -> exists rs, read_requests m p n = Some rs.
Proof.
  induction n as [|n IH]; intros p Hm; cbn [read_requests]; [by exists []|]. unfold read_request, load64.
  destruct (mapped_load_le m p 8) as (t & -> & _); [eapply mapped_sub; [exact Hm|lia|lia]|]. cbn [mbind option_bind].
  destruct (mapped_load_le m (p + 8) 8) as (f & -> & _); [eapply mapped_sub; [exact Hm|lia|lia]|]. cbn [mbind option_bind].
  destruct (mapped_load_le m (p + 16) 8) as (r & -> & _); [eapply mapped_sub; [exact Hm|lia|lia]|]. cbn [mbind option_bind].
  destruct (IH (p + 24)) as [rs ->]; [eapply mapped_sub; [exact Hm|lia|lia]|]. by eexists.
Qed.

Lemma requests_checked m p n rs :
  read_requests m p n = Some rs ->
  exists r, check_requests m p 0 n = Some r /\ (r = Some 7 <-> requests_ok rs).
Proof.
  intros Hrs. destruct (check_requests_spec m n p 0 rs Hrs ltac:(lia)) as (r & E & Hiff). exists r. split; [done|].
  rewrite Hiff. unfold requests_ok. split.
  - intros [Hall Hk]. pose proof (Hk 1 ltac:(auto)). pose proof (Hk 2 ltac:(auto)). pose proof (Hk 4 ltac:(auto)).
    split_and!; [done|done..].
  - intros (Hall & H1 & H2 & H4). split; [done|]. intros k [-> | [-> | ->]]; done.
Qed.

Lemma validate_spec m header plan :
  mapped m header SIZEOF_HEADER ->
  (forall p n, physical_range_loaded plan p n = true -> mapped m p n) ->
  exists b, validate_header_contract m header plan = Some b /\ (b = true <-> header_contract m header plan).
Proof.
  intros Hm Hload. unfold validate_header_contract, SIZEOF_HEADER in *. set (actual := actual_virtual_base _ _).
  assert (forall P : Prop, ~ P -> exists b, Some false = Some b /\ (b = true <-> P)) as Hno
    by (intros P HP; exists false; split; [done|]; split; [done|tauto]).
  unfold load64, load32.
  destruct (mapped_load_le m (header + 32) 8) as (entry & E1 & _); [eapply mapped_sub; [exact Hm|lia|lia]|].
  destruct (mapped_load_le m (header + 24) 8) as (flags & E2 & W2); [eapply mapped_sub; [exact Hm|lia|lia]|].
  destruct (mapped_load_le m (header + 40) 8) as (paging & E3 & _); [eapply mapped_sub; [exact Hm|lia|lia]|].
  destruct (mapped_load_le m (header + 48) 8) as (base & E4 & _); [eapply mapped_sub; [exact Hm|lia|lia]|].
  destruct (mapped_load_le m (header + 60) 4) as (reserved & E5 & _); [eapply mapped_sub; [exact Hm|lia|lia]|].
  destruct (mapped_load_le m (header + 56) 4) as (n & E6 & W6); [eapply mapped_sub; [exact Hm|lia|lia]|].
  destruct (mapped_load_le m (header + 64) 8) as (p & E7 & _); [eapply mapped_sub; [exact Hm|lia|lia]|].
  rewrite E1, E2, E3, E4, E5, E6, E7. cbn [mbind option_bind].
  pose proof (land_except_bit flags 2 ltac:(lia) W2) as Hmask. unfold in_word in W6.
  change (Z.lnot (2 ^ 2)) with (Z.lnot BBP_SUPPORTED_HEADER_FLAGS) in Hmask. change (2 ^ 2) with BBP_HF_UNMAP_NULL_PAGE in Hmask.
  destruct (_ || _ || _ || _ || _ || _ || _) eqn:G.
  { apply Hno. intros [H1 H2 H3 [H4 H4'] H5 (n' & p' & rs & H6 & H7 & _)]. unfold load64, load32 in *. fold actual in H4, H4'.
    rewrite E1 in H1. rewrite E3 in H3. rewrite E4 in H4. rewrite E5 in H5. rewrite E6 in H6. simplify_eq.
    assert (Z.land flags (wrap64 (Z.lnot BBP_SUPPORTED_HEADER_FLAGS)) = 0) as Hf by (apply Hmask; rewrite E2 in H2; destruct H2 as [[= ->]|[= ->]]; auto).
    rewrite Hf, !Z.eqb_refl, (proj2 (Z.eqb_neq _ _) H4') in G. cbn [negb orb Z.eqb] in G. bool_to_prop. lia. }
  rewrite !orb_false_iff in G. destruct G as [[[[[[G1 G2] G3] G4] G4'] G5] G6]. bool_to_prop. subst.
  assert (forall Q : Prop, (exists n' p' rs, load32 m (header + 56) = Some n' /\ 0 < n' <= BBP_MAX_REQUESTS /\ load64 m (header + 64) = Some p' /\
    physical_range_loaded plan p' (n' * 24) = true /\ read_requests m p' (Z.to_nat n') = Some rs /\ requests_ok rs) -> header_contract m header plan) as Hyes.
  { intros _ Hreq. split; try done. unfold load64. apply Hmask in G2 as [-> | ->]; auto. }
  destruct (_ || _) eqn:G7.
  { apply Hno. intros [_ _ _ _ _ (n' & p' & rs & H6 & H7 & H8 & H9 & _)]. unfold load64, load32 in *. rewrite E6 in H6. rewrite E7 in H8.
    simplify_eq. rewrite H9, orb_false_r in G7. bool_to_prop. lia. }
  apply orb_false_iff in G7 as [G7 G8]. apply negb_false_iff in G8. bool_to_prop.
  destruct (read_requests_total m (Z.to_nat n) p) as [rs Hrs]; [apply Hload; rewrite Z2Nat.id by lia; by rewrite Z.mul_comm|].
  destruct (requests_checked m p (Z.to_nat n) rs Hrs) as (r & -> & Hiff). cbn [mbind option_bind].
  assert (r = Some 7 <-> header_contract m header plan) as Hfinal.
  { rewrite Hiff. split.
    - intros Hok. apply (Hyes True). exists n, p, rs. split_and!; done || lia.
    - intros [_ _ _ _ _ (n' & p' & rs' & H6 & _ & H8 & _ & H9 & H10)]. unfold load64, load32 in *. rewrite E6 in H6. rewrite E7 in H8.
      by simplify_eq. }
  destruct r as [seen|].
  - eexists. split; [done|]. rewrite <- Hfinal, Z.eqb_eq. split; [by intros ->|by intros [= ->]].
  - apply Hno. rewrite <- Hfinal. done.
Qed.
