(* ===== verification/LoaderLaws.v ===== *)
(** * What the loader relies on

    [Firmware] states what UEFI documents of the services the loader calls: the
    ranges a firmware has lent to its caller are not touched by it except where
    a call names an output buffer, an allocation is new, and the file reads as
    one sequence of bytes.  [runs c w Q] says that the program [c] neither
    faults nor runs out of fuel from [w] and ends in [Q]. *)

From stdpp Require Import strings gmap.
From S2P Require Import Prelude Memory Crc64 Abi KernelParser Builder ElfPlan UefiExit Paging Loader LoaderMain LoaderHandoff.

(** ** Ranges *)

Definition inside (r : Z * Z) (x : Z) : Prop := r.1 <= x < r.1 + r.2.

(** [(a, n)] is another block than those of [R]. *)
Definition fresh (R : gset (Z * Z)) (a n : Z) : Prop :=
  forall r, r ∈ R -> r.1 <> a /\ forall x, inside r x -> ~ inside (a, n) x.

(** [(a, n)] has no address of a block of [R]. *)
Definition clear (R : gset (Z * Z)) (a n : Z) : Prop :=
  forall r x, r ∈ R -> inside r x -> ~ inside (a, n) x.

(** Nothing becomes unmapped, and the blocks of [R] keep their contents outside
    [buffer]. *)
Definition undisturbed (R : gset (Z * Z)) (buffer : Z * Z) (m m' : mem) : Prop :=
  (forall x, is_Some (m !! x) -> is_Some (m' !! x)) /\
  (forall r x, r ∈ R -> inside r x -> ~ inside buffer x -> m' !! x = m !! x).

(** All blocks but the one at [p]. *)
Definition others (p : Z) (R : gset (Z * Z)) : gset (Z * Z) := filter (fun r => r.1 <> p) R.

Definition nowhere : Z * Z := (0, 0).

(** ** The firmware *)

(** [lent f] are the blocks the caller holds, [cursor f file] the position of an
    open file, [content] the bytes of [\kernel.elf]. *)
Class Firmware {F} (efi : efi_services F) (lent : F -> gset (Z * Z)) (cursor : F -> Z -> option Z)
    (content : list byte) : Prop := {
  fw_pages : forall f m kind memory pages address f' m' st out,
    AllocatePages efi f m kind memory pages address = (f', m', st, out) ->
    undisturbed (lent f) nowhere m m' /\ lent f ⊆ lent f' /\
    (st = EFI_SUCCESS -> 0 < pages ->
       (out, pages * EFI_PAGE_SIZE) ∈ lent f' /\ fresh (lent f) out (pages * EFI_PAGE_SIZE) /\
       mapped m' out (pages * EFI_PAGE_SIZE) /\ 0 <= out /\ out mod EFI_PAGE_SIZE = 0 /\
       (kind = AllocateMaxAddress -> out + pages * EFI_PAGE_SIZE - 1 <= address));
  fw_free_pages : forall f m address pages f' m' st,
    FreePages efi f m address pages = (f', m', st) ->
    undisturbed (others address (lent f)) nowhere m m' /\ others address (lent f) ⊆ lent f';
  fw_map : forall f m buffer a f' m' st a',
    GetMemoryMap efi f m buffer a = (f', m', st, a') ->
    undisturbed (lent f) (buffer, map_size a) m m' /\ lent f ⊆ lent f' /\
    0 <= map_size a' <= SIZE_MAX /\ 0 <= descriptor_size a' <= SIZE_MAX /\
    (st = EFI_SUCCESS -> map_size a' <= map_size a /\ SIZEOF_DESCRIPTOR <= descriptor_size a');
  fw_pool : forall f m memory size pointer f' m' st out,
    AllocatePool efi f m memory size pointer = (f', m', st, out) ->
    undisturbed (lent f) nowhere m m' /\ lent f ⊆ lent f' /\ cursor f' = cursor f /\
    (st = EFI_SUCCESS -> 0 < size ->
       (out, size) ∈ lent f' /\ fresh (lent f) out size /\ mapped m' out size /\ 0 < out);
  fw_free_pool : forall f m pointer f' m' st,
    FreePool efi f m pointer = (f', m', st) ->
    undisturbed (others pointer (lent f)) nowhere m m' /\ others pointer (lent f) ⊆ lent f';
  fw_protocol : forall f m handle guid interface f' m' st out,
    HandleProtocol efi f m handle guid interface = (f', m', st, out) ->
    undisturbed (lent f) nowhere m m' /\ lent f ⊆ lent f' /\
    (st = EFI_SUCCESS -> guid = BBP_EFI_LOADED_IMAGE_GUID -> 0 < out /\ mapped m' out 80);
  fw_exit : forall f m image key f' m' st,
    ExitBootServices efi f m image key = (f', m', st) ->
    undisturbed (lent f) nowhere m m' /\ lent f ⊆ lent f';
  fw_volume : forall f m filesystem root f' m' st out,
    OpenVolume efi f m filesystem root = (f', m', st, out) ->
    undisturbed (lent f) nowhere m m' /\ lent f ⊆ lent f';
  fw_open : forall f m root file path mode f' m' st out,
    FileOpen efi f m root file path mode = (f', m', st, out) ->
    undisturbed (lent f) nowhere m m' /\ lent f ⊆ lent f' /\
    (st = EFI_SUCCESS -> path = kernel_path -> cursor f' out = Some 0);
  fw_info : forall f m file guid size buffer f' m' st size',
    FileGetInfo efi f m file guid size buffer = (f', m', st, size') ->
    undisturbed (lent f) (buffer, size) m m' /\ lent f ⊆ lent f' /\ cursor f' = cursor f /\
    0 <= size' <= SIZE_MAX /\
    (st = EFI_SUCCESS -> guid = BBP_EFI_FILE_INFO_GUID -> is_Some (cursor f file) ->
     mapped m buffer size -> SIZEOF_FILE_INFO_PREFIX <= size -> load64 m' (buffer + 8) = Some (zlen content));
  fw_read : forall f m file amount buffer f' m' st n pos,
    FileRead efi f m file amount buffer = (f', m', st, n) -> cursor f file = Some pos ->
    undisturbed (lent f) (buffer, amount) m m' /\ lent f ⊆ lent f' /\
    (st = EFI_SUCCESS -> mapped m buffer amount ->
       0 <= n <= amount /\ pos + n <= zlen content /\ cursor f' file = Some (pos + n) /\
       bytes_at m' buffer (take (Z.to_nat n) (drop (Z.to_nat pos) content)));
  fw_close : forall f m file f' m',
    FileClose efi f m file = (f', m') -> undisturbed (lent f) nowhere m m' /\ lent f ⊆ lent f';
}.

(** FreePool refuses NULL, which is no block of the pool. *)
Class NullRefused {F} (efi : efi_services F) (lent : F -> gset (Z * Z)) : Prop :=
  fw_free_null : forall f m f' m' st,
    FreePool efi f m 0 = (f', m', st) -> undisturbed (lent f) nowhere m m' /\ lent f ⊆ lent f'.

(** UEFI lets AllocatePages return page 0, which the loader takes for none. *)
Definition gives_page_zero {F} (efi : efi_services F) : Prop :=
  exists f m memory n f' m',
    AllocatePages efi f m AllocateMaxAddress memory n (BBP_IDENTITY_LIMIT - 1) = (f', m', EFI_SUCCESS, 0).

(** ** Programs that run *)

Section Runs.
Context {F : Type}.

Definition runs {A} (c : loader F A) (w : machine F) (Q : A -> machine F -> Prop) : Prop :=
  exists w' a, c w = Some (w', a) /\ Q a w'.

Lemma runs_ret {A} (a : A) w (Q : A -> machine F -> Prop) : Q a w -> runs (mret a) w Q.
Proof. intros H. by exists w, a. Qed.

Lemma runs_bind {A B} (c : loader F A) (k : A -> loader F B) w Q P :
  runs c w P -> (forall a w', P a w' -> runs (k a) w' Q) -> runs (c ≫= k) w Q.
Proof.
  intros (w' & a & E & HP) Hk. destruct (Hk a w' HP) as (w'' & b & E' & HQ). exists w'', b. split; [|done].
  unfold mbind, loader_bind. by rewrite E.
Qed.

Lemma runs_conseq {A} (c : loader F A) w P Q :
  runs c w P -> (forall a w', P a w' -> Q a w') -> runs c w Q.
Proof. intros (w' & a & E & HP) H. exists w', a. auto. Qed.

(** A program has one run. *)
Lemma runs_and {A} (c : loader F A) w P Q :
  runs c w P -> runs c w Q -> runs c w (fun a w' => P a w' /\ Q a w').
Proof. intros (w1 & a & E & HP) (w2 & b & E2 & HQ). rewrite E in E2. injection E2 as <- <-. by exists w1, a. Qed.

Lemma runs_eq {A B} (c : loader F A) (k : A -> loader F B) w w' a Q :
  c w = Some (w', a) -> runs (k a) w' Q -> runs (c ≫= k) w Q.
Proof. intros E (w2 & b & E2 & H). exists w2, b. split; [|done]. unfold mbind, loader_bind. by rewrite E. Qed.

Lemma runs_peek {A B} (g : mem -> option A) (k : A -> loader F B) w a Q :
  g (mc_mem w) = Some a -> runs (k a) w Q -> runs (peek g ≫= k) w Q.
Proof. intros E (w' & b & E' & H). exists w', b. split; [|done]. unfold mbind, loader_bind, peek. by rewrite E. Qed.

Lemma runs_poke {B} g (k : unit -> loader F B) w m Q :
  g (mc_mem w) = Some m -> runs (k tt) (Machine (mc_fw w) m (mc_log w)) Q -> runs (poke g ≫= k) w Q.
Proof. intros E (w' & b & E' & H). exists w', b. split; [|done]. unfold mbind, loader_bind, poke. by rewrite E. Qed.

Lemma runs_update {A B} (g : mem -> option (mem * A)) (k : A -> loader F B) w m a Q :
  g (mc_mem w) = Some (m, a) -> runs (k a) (Machine (mc_fw w) m (mc_log w)) Q -> runs (update g ≫= k) w Q.
Proof. intros E (w' & b & E' & H). exists w', b. split; [|done]. unfold mbind, loader_bind, update. by rewrite E. Qed.
End Runs.

(** ** Holding blocks *)

Lemma undisturbed_refl R b m : undisturbed R b m m.
Proof. by split. Qed.

Lemma undisturbed_sub R R' b m m' : undisturbed R b m m' -> R' ⊆ R -> undisturbed R' b m m'.
Proof. intros [D H] Hs. split; [done|]. intros r x Hr. apply H. set_solver. Qed.

Lemma undisturbed_apart R b m m' : undisturbed R b m m' -> clear R b.1 b.2 -> undisturbed R nowhere m m'.
Proof.
  intros [D H] Hf. split; [done|]. intros r x Hr Hx _. apply (H r x Hr Hx). destruct b. by apply (Hf r).
Qed.

Lemma fresh_clear R a n : fresh R a n -> clear R a n.
Proof. intros H r x Hr. by apply (H r Hr). Qed.

Lemma clear_sub R R' a n : clear R a n -> R' ⊆ R -> clear R' a n.
Proof. intros H Hs r x Hr. apply H. set_solver. Qed.

Lemma clear_part R a n b k : clear R a n -> a <= b -> b + k <= a + n -> clear R b k.
Proof. intros H ? ? r x Hr Hx Hin. apply (H r x Hr Hx). unfold inside in *. cbn [fst snd] in *. lia. Qed.

Lemma clear_empty R a : clear R a 0.
Proof. intros r x _ _ H. unfold inside in H. cbn [fst snd] in H. lia. Qed.

Lemma fresh_sub R R' a n : fresh R a n -> R' ⊆ R -> fresh R' a n.
Proof. intros H Hs r Hr. apply H. set_solver. Qed.

Lemma others_fresh R a n : fresh R a n -> R ⊆ others a R.
Proof. intros H r Hr. apply elem_of_filter. split; [by apply (H r Hr)|done]. Qed.

Section Keeping.
Context {F : Type} (lent : F -> gset (Z * Z)).

(** The blocks of [R] are still lent, with the same contents. *)
Definition keeps (R : gset (Z * Z)) (w w' : machine F) : Prop :=
  R ⊆ lent (mc_fw w') /\ undisturbed R nowhere (mc_mem w) (mc_mem w').

Definition holds_blocks (R : gset (Z * Z)) (w : machine F) : Prop :=
  R ⊆ lent (mc_fw w).

Lemma keeps_trans R w1 w2 w3 : keeps R w1 w2 -> keeps R w2 w3 -> keeps R w1 w3.
Proof.
  intros [H1 [D1 S1]] [H2 [D2 S2]]. split; [done|]. split; [auto|]. intros r x Hr Hx Hb.
  rewrite (S2 r x Hr Hx Hb). by apply (S1 r x).
Qed.

Lemma keeps_sub R R' w w' : keeps R w w' -> R' ⊆ R -> keeps R' w w'.
Proof. intros [H1 H2] Hs. split; [set_solver|by eapply undisturbed_sub]. Qed.

Lemma keeps_holds R w w' : holds_blocks R w -> keeps R w w' -> holds_blocks R w'.
Proof. by intros _ [H _]. Qed.

Lemma keeps_mapped R w w' a n : keeps R w w' -> mapped (mc_mem w) a n -> mapped (mc_mem w') a n.
Proof. intros [_ [D _]] Hm x Hx. by apply D, Hm. Qed.

Lemma keeps_same R w w' a n b k :
  keeps R w w' -> (b, k) ∈ R -> b <= a -> a + n <= b + k -> same_on (mc_mem w) (mc_mem w') a n.
Proof.
  intros [_ [_ H]] Hin Ha He x Hx. apply (H (b, k) x Hin); [unfold inside; cbn; lia|].
  unfold inside, nowhere. cbn. lia.
Qed.

Lemma holds_nothing w : holds_blocks ∅ w.
Proof. intros r Hr. set_solver. Qed.

Lemma holds_union R R' w : holds_blocks R w -> holds_blocks R' w -> holds_blocks (R ∪ R') w.
Proof. unfold holds_blocks. set_solver. Qed.

Lemma fresh_nothing a n : fresh ∅ a n.
Proof. intros r Hr. set_solver. Qed.

Lemma keeps_refl w : keeps ∅ w w.
Proof. split; [set_solver|apply undisturbed_refl]. Qed.

(** [if (p) release(p);] keeps every other block. *)
Lemma runs_when R w (c : bool) action :
  holds_blocks R w -> (c = true -> runs action w (fun _ w' => keeps R w w')) ->
  runs (when_do c action) w (fun _ w' => keeps R w w').
Proof. intros H Ha. destruct c; [by apply Ha|]. apply runs_ret. split; [done|apply undisturbed_refl]. Qed.

End Keeping.

(** ** The services *)

Section Holding.
Context {F : Type} (efi : efi_services F) (lent : F -> gset (Z * Z)) (cursor : F -> Z -> option Z)
  (content : list byte) {Hfw : Firmware efi lent cursor content}.

Let keeps := keeps lent.
Let holds_blocks := holds_blocks lent.

Lemma runs_AllocatePages R w kind memory n address :
  holds_blocks R w -> 0 < n ->
  runs (call_AllocatePages efi kind memory n address) w (fun '(st, out) w' =>
    keeps R w w' /\
    (st = EFI_SUCCESS ->
       (out, n * EFI_PAGE_SIZE) ∈ lent (mc_fw w') /\ fresh R out (n * EFI_PAGE_SIZE) /\
       mapped (mc_mem w') out (n * EFI_PAGE_SIZE) /\ 0 <= out /\ out mod EFI_PAGE_SIZE = 0 /\
       (kind = AllocateMaxAddress -> out + n * EFI_PAGE_SIZE - 1 <= address))).
Proof.
  intros HR Hn. unfold runs, call_AllocatePages.
  destruct (AllocatePages _ _ _ _ _ _ _) as [[[f m] st] out] eqn:E. do 2 eexists. split; [done|].
  destruct (fw_pages _ _ _ _ _ _ _ _ _ _ E) as (Hu & Hs & Hok). cbn [mc_fw mc_mem record_event]. split.
  - split; [set_solver|by eapply undisturbed_sub].
  - intros Hst. destruct (Hok Hst Hn) as (? & ? & ? & ? & ? & ?). split_and!; try done. by eapply fresh_sub.
Qed.

Lemma runs_page_zero w memory n :
  runs (call_AllocatePages efi AllocateMaxAddress memory n (BBP_IDENTITY_LIMIT - 1)) w (fun '(st, out) _ =>
    st = EFI_SUCCESS -> out = 0 -> gives_page_zero efi).
Proof.
  unfold runs, call_AllocatePages. destruct (AllocatePages _ _ _ _ _ _ _) as [[[f m] st] out] eqn:E.
  do 2 eexists. split; [done|]. intros -> ->. by do 6 eexists.
Qed.

Lemma runs_FreePages R w address n :
  holds_blocks R w -> (forall r, r ∈ R -> r.1 <> address) ->
  runs (call_FreePages efi address n) w (fun _ w' => keeps R w w').
Proof.
  intros HR Hne. unfold runs, call_FreePages. destruct (FreePages _ _ _ _ _) as [[f m] st] eqn:E.
  do 2 eexists. split; [done|]. destruct (fw_free_pages _ _ _ _ _ _ _ E) as [Hu Hs].
  assert (R ⊆ others address (lent (mc_fw w))) as HR' by (intros r Hr; apply elem_of_filter; auto).
  split; [set_solver|by eapply undisturbed_sub].
Qed.

Lemma runs_AllocatePool R w memory n pointer :
  holds_blocks R w -> 0 < n ->
  runs (call_AllocatePool efi memory n pointer) w (fun '(st, out) w' =>
    keeps R w w' /\ cursor (mc_fw w') = cursor (mc_fw w) /\
    (st = EFI_SUCCESS ->
       (out, n) ∈ lent (mc_fw w') /\ fresh R out n /\ mapped (mc_mem w') out n /\ 0 < out)).
Proof.
  intros HR Hn. unfold runs, call_AllocatePool.
  destruct (AllocatePool _ _ _ _ _ _) as [[[f m] st] out] eqn:E. do 2 eexists. split; [done|].
  destruct (fw_pool _ _ _ _ _ _ _ _ _ E) as (Hu & Hs & Hc & Hok). cbn [mc_fw mc_mem record_event]. split_and!; try done.
  - split; [set_solver|by eapply undisturbed_sub].
  - intros Hst. destruct (Hok Hst Hn) as (? & ? & ? & ?). split_and!; try done. by eapply fresh_sub.
Qed.

Lemma runs_FreePool R w p :
  holds_blocks R w -> (forall r, r ∈ R -> r.1 <> p) -> runs (call_FreePool efi p) w (fun _ w' => keeps R w w').
Proof.
  intros HR Hne. unfold runs, call_FreePool. destruct (FreePool _ _ _ _) as [[f m] st] eqn:E.
  do 2 eexists. split; [done|]. destruct (fw_free_pool _ _ _ _ _ _ E) as [Hu Hs].
  assert (R ⊆ others p (lent (mc_fw w))) as HR' by (intros r Hr; apply elem_of_filter; auto).
  split; [set_solver|by eapply undisturbed_sub].
Qed.

Lemma runs_GetMemoryMap R w buffer a :
  holds_blocks R w -> clear R buffer (map_size a) ->
  runs (call_GetMemoryMap efi buffer a) w (fun '(st, a') w' =>
    keeps R w w' /\ (forall b, b ∈ lent (mc_fw w) -> b ∈ lent (mc_fw w')) /\
    0 <= map_size a' <= SIZE_MAX /\ 0 <= descriptor_size a' <= SIZE_MAX /\
    (st = EFI_SUCCESS -> map_size a' <= map_size a /\ SIZEOF_DESCRIPTOR <= descriptor_size a')).
Proof.
  intros HR Hf. unfold runs, call_GetMemoryMap. destruct (GetMemoryMap _ _ _ _ _) as [[[f m] st] a'] eqn:E.
  do 2 eexists. split; [done|]. destruct (fw_map _ _ _ _ _ _ _ _ E) as (Hu & Hs & ? & ? & ?).
  cbn [mc_fw mc_mem record_event]. split_and!; try done; try lia.
  split; [set_solver|]. eapply undisturbed_apart; [by eapply undisturbed_sub|done].
Qed.

Lemma runs_HandleProtocol R w handle guid interface :
  holds_blocks R w ->
  runs (call_HandleProtocol efi handle guid interface) w (fun '(st, out) w' =>
    keeps R w w' /\
    (st = EFI_SUCCESS -> guid = BBP_EFI_LOADED_IMAGE_GUID -> 0 < out /\ mapped (mc_mem w') out 80)).
Proof.
  intros HR. unfold runs, call_HandleProtocol. destruct (HandleProtocol _ _ _ _ _ _) as [[[f m] st] out] eqn:E.
  do 2 eexists. split; [done|]. destruct (fw_protocol _ _ _ _ _ _ _ _ _ E) as (Hu & Hs & Hok).
  split; [|done]. split; [set_solver|by eapply undisturbed_sub].
Qed.

Lemma runs_OpenVolume R w filesystem root :
  holds_blocks R w -> runs (call_OpenVolume efi filesystem root) w (fun _ w' => keeps R w w').
Proof.
  intros HR. unfold runs, call_OpenVolume. destruct (OpenVolume _ _ _ _ _) as [[[f m] st] out] eqn:E.
  do 2 eexists. split; [done|]. destruct (fw_volume _ _ _ _ _ _ _ _ E) as (Hu & Hs).
  split; [set_solver|by eapply undisturbed_sub].
Qed.

Lemma runs_Open R w root file path mode :
  holds_blocks R w ->
  runs (call_Open efi root file path mode) w (fun '(st, out) w' =>
    keeps R w w' /\ (st = EFI_SUCCESS -> path = kernel_path -> cursor (mc_fw w') out = Some 0)).
Proof.
  intros HR. unfold runs, call_Open. destruct (FileOpen _ _ _ _ _ _ _) as [[[f m] st] out] eqn:E.
  do 2 eexists. split; [done|]. destruct (fw_open _ _ _ _ _ _ _ _ _ _ E) as (Hu & Hs & Hok).
  split; [|done]. split; [set_solver|by eapply undisturbed_sub].
Qed.

Lemma runs_GetInfo R w file guid size buffer :
  holds_blocks R w -> clear R buffer size ->
  runs (call_GetInfo efi file guid size buffer) w (fun '(st, size') w' =>
    keeps R w w' /\ (forall b, b ∈ lent (mc_fw w) -> b ∈ lent (mc_fw w')) /\
    (forall a n, mapped (mc_mem w) a n -> mapped (mc_mem w') a n) /\
    cursor (mc_fw w') = cursor (mc_fw w) /\ 0 <= size' <= SIZE_MAX /\
    (st = EFI_SUCCESS -> guid = BBP_EFI_FILE_INFO_GUID -> is_Some (cursor (mc_fw w) file) ->
     mapped (mc_mem w) buffer size -> SIZEOF_FILE_INFO_PREFIX <= size ->
     load64 (mc_mem w') (buffer + 8) = Some (zlen content))).
Proof.
  intros HR Hf. unfold runs, call_GetInfo. destruct (FileGetInfo _ _ _ _ _ _ _) as [[[f m] st] size'] eqn:E.
  do 2 eexists. split; [done|]. destruct (fw_info _ _ _ _ _ _ _ _ _ _ E) as (Hu & Hs & Hc & Hsz & Hok).
  cbn [mc_fw mc_mem record_event]. split_and!; try done; try lia.
  - split; [set_solver|]. eapply undisturbed_apart; [by eapply undisturbed_sub|done].
  - intros a n Hm x Hx. by apply Hu, Hm.
Qed.

Lemma runs_Read R w file amount buffer pos :
  holds_blocks R w -> clear R buffer amount -> cursor (mc_fw w) file = Some pos -> mapped (mc_mem w) buffer amount ->
  runs (call_Read efi file amount buffer) w (fun '(st, n) w' =>
    keeps R w w' /\ (forall b, b ∈ lent (mc_fw w) -> b ∈ lent (mc_fw w')) /\
    undisturbed (lent (mc_fw w)) (buffer, amount) (mc_mem w) (mc_mem w') /\
    (st = EFI_SUCCESS ->
       0 <= n <= amount /\ pos + n <= zlen content /\ cursor (mc_fw w') file = Some (pos + n) /\
       bytes_at (mc_mem w') buffer (take (Z.to_nat n) (drop (Z.to_nat pos) content)))).
Proof.
  intros HR Hf Hp Hm. unfold runs, call_Read. destruct (FileRead _ _ _ _ _ _) as [[[f m] st] n] eqn:E.
  do 2 eexists. split; [done|]. destruct (fw_read _ _ _ _ _ _ _ _ _ _ E Hp) as (Hu & Hs & Hok).
  cbn [mc_fw mc_mem record_event]. split_and!; [|set_solver|done|by intros; apply Hok].
  split; [set_solver|]. eapply undisturbed_apart; [by eapply undisturbed_sub|done].
Qed.

Lemma runs_Close R w file : holds_blocks R w -> runs (call_Close efi file) w (fun _ w' => keeps R w w').
Proof.
  intros HR. unfold runs, call_Close. destruct (FileClose _ _ _ _) as [f m] eqn:E.
  do 2 eexists. split; [done|]. destruct (fw_close _ _ _ _ _ E) as (Hu & Hs).
  split; [set_solver|by eapply undisturbed_sub].
Qed.
End Holding.
