(* ===== verification/LoaderGrants.v ===== *)
(** * A firmware that grants what is asked

    [Firmware] says what the services do when they succeed; [Obliging] says of a
    machine that they succeed: the files are there, the memory the loader asks
    for is free, and the memory map of a machine below 4 GiB is delivered and
    still current when boot services are left.  The lemmas track what is left to
    be had; they say nothing when [happy] is false. *)

From stdpp Require Import strings gmap.
From S2P Require Import Prelude Memory Crc64 Abi KernelParser Builder ElfPlan UefiExit Paging Loader LoaderMain LoaderMap LoaderHandoff LoaderLaws.

(** What a firmware still has to give: the page ranges free at a given address,
    the bytes of other allocations, the size of its memory map; and the sizes of
    one descriptor and of the file's description. *)
Record supply (F : Type) := Supply {
  spare : F -> Z -> Z -> Prop;
  room : F -> Z;
  map_bytes : F -> Z;
  map_unit : Z;
  info_bytes : Z;
}.
Arguments Supply {F}.
Arguments spare {F}.
Arguments room {F}.
Arguments map_bytes {F}.
Arguments map_unit {F}.
Arguments info_bytes {F}.

(** A call that uses up at most [cost] bytes. *)
Definition serves {F} (s : supply F) (cost : Z) (f f' : F) : Prop :=
  (forall a n, spare s f a n -> spare s f' a n) /\ room s f - cost <= room s f'.

(** The loader itself lies below 4 GiB. *)
Definition image_low (m : mem) (loaded : Z) : Prop :=
  exists base size, load64 m (loaded + 64) = Some base /\ load64 m (loaded + 72) = Some size /\
    base < BBP_IDENTITY_LIMIT /\ base + size <= BBP_IDENTITY_LIMIT.

(** The memory map as the loader accepts it. *)
Definition map_delivered (m : mem) (buffer unit bytes : Z) : Prop :=
  exists ds, read_descriptors m buffer unit (Z.to_nat (bytes / unit)) = Some ds /\ Forall within_contract ds.

Definition MAP_LIMIT : Z := 65536.

Class Obliging {F} (efi : efi_services F) (lent : F -> gset (Z * Z)) (cursor : F -> Z -> option Z)
    (content : list byte) (s : supply F) : Prop := {
  ob_units : SIZEOF_DESCRIPTOR <= map_unit s <= EFI_PAGE_SIZE /\
    SIZEOF_FILE_INFO_PREFIX <= info_bytes s <= EFI_PAGE_SIZE;
  ob_map_bytes : forall f, 0 < map_bytes s f <= MAP_LIMIT /\ map_bytes s f mod map_unit s = 0;
  ob_address : forall f m memory n a f' m' st out,
    AllocatePages efi f m AllocateAddress memory n a = (f', m', st, out) -> 0 < n -> spare s f a n ->
    st = EFI_SUCCESS /\ out = a /\ room s f <= room s f' /\
    (forall b k, spare s f b k -> a + n * EFI_PAGE_SIZE <= b \/ b + k * EFI_PAGE_SIZE <= a -> spare s f' b k);
  ob_low : forall f m memory n f' m' st out,
    AllocatePages efi f m AllocateMaxAddress memory n (BBP_IDENTITY_LIMIT - 1) = (f', m', st, out) ->
    0 < n -> n * EFI_PAGE_SIZE <= room s f ->
    st = EFI_SUCCESS /\ out <> 0 /\ serves s (n * EFI_PAGE_SIZE) f f';
  ob_pool : forall f m memory size pointer f' m' st out,
    AllocatePool efi f m memory size pointer = (f', m', st, out) -> 0 < size -> size + EFI_PAGE_SIZE <= room s f ->
    st = EFI_SUCCESS /\ serves s (size + EFI_PAGE_SIZE) f f' /\ map_bytes s f' <= map_bytes s f + 2 * map_unit s;
  ob_free_pool : forall f m pointer f' m' st,
    FreePool efi f m pointer = (f', m', st) -> serves s 0 f f';
  ob_protocol : forall f m handle guid interface f' m' st out,
    HandleProtocol efi f m handle guid interface = (f', m', st, out) -> EFI_PAGE_SIZE <= room s f ->
    serves s EFI_PAGE_SIZE f f' /\ (guid = BBP_EFI_SIMPLE_FILE_SYSTEM_GUID -> st = EFI_SUCCESS) /\
    (guid = BBP_EFI_LOADED_IMAGE_GUID -> st = EFI_SUCCESS /\ (out, 80) ∈ lent f' /\ image_low m' out);
  ob_volume : forall f m filesystem root f' m' st out,
    OpenVolume efi f m filesystem root = (f', m', st, out) -> st = EFI_SUCCESS /\ serves s 0 f f';
  ob_open : forall f m root file mode f' m' st out,
    FileOpen efi f m root file kernel_path mode = (f', m', st, out) -> st = EFI_SUCCESS /\ serves s 0 f f';
  ob_info : forall f m file size buffer f' m' st size',
    FileGetInfo efi f m file BBP_EFI_FILE_INFO_GUID size buffer = (f', m', st, size') ->
    is_Some (cursor f file) -> mapped m buffer size ->
    serves s 0 f f' /\ size' = info_bytes s /\
    st = (if size <? info_bytes s then EFI_BUFFER_TOO_SMALL else EFI_SUCCESS);
  ob_read : forall f m file amount buffer f' m' st n pos,
    FileRead efi f m file amount buffer = (f', m', st, n) ->
    cursor f file = Some pos -> pos < zlen content -> 0 < amount -> mapped m buffer amount ->
    serves s 0 f f' /\ st = EFI_SUCCESS /\ n <> 0;
  ob_close : forall f m file f' m', FileClose efi f m file = (f', m') -> serves s 0 f f';
  ob_map : forall f m buffer a f' m' st a',
    GetMemoryMap efi f m buffer a = (f', m', st, a') -> mapped m buffer (map_size a) ->
    serves s 0 f f' /\ map_bytes s f' = map_bytes s f /\
    map_size a' = map_bytes s f /\ descriptor_size a' = map_unit s /\
    if map_size a <? map_bytes s f then st = EFI_BUFFER_TOO_SMALL
    else st = EFI_SUCCESS /\ descriptor_version a' = 1 /\ map_delivered m' buffer (map_unit s) (map_bytes s f);
  ob_exit : forall f m buffer a f1 m1 a1 m2 image f' m' st,
    GetMemoryMap efi f m buffer a = (f1, m1, EFI_SUCCESS, a1) ->
    ExitBootServices efi f1 m2 image (map_key a1) = (f', m', st) -> st = EFI_SUCCESS;
}.

Section Grants.
Context {F : Type} (efi : efi_services F) (lent : F -> gset (Z * Z)) (cursor : F -> Z -> option Z)
  (content : list byte) (s : supply F) (happy : bool).
Context (Hob : happy = true -> Obliging efi lent cursor content s).

(** The pages [S] and [c] more bytes can be had. *)
Definition offers (S : Z * Z -> Prop) (c : Z) (w : machine F) : Prop :=
  happy = true -> (forall r, S r -> spare s (mc_fw w) r.1 r.2) /\ c <= room s (mc_fw w).

Lemma offers_less S c c' w : offers S c w -> (happy = true -> c' <= c) -> offers S c' w.
Proof. intros H Hc Hh. destruct (H Hh). specialize (Hc Hh). split; [done|lia]. Qed.

Lemma offers_fewer (S S' : Z * Z -> Prop) c w : offers S c w -> (forall r, S' r -> S r) -> offers S' c w.
Proof. intros H Hs Hh. destruct (H Hh). auto. Qed.

Lemma serves_offers S c cost w f m log :
  (happy = true -> serves s cost (mc_fw w) f) -> offers S (c + cost) w -> offers S c (Machine f m log).
Proof.
  intros Hs Ho Hh. destruct (Hs Hh) as [Hp Hr], (Ho Hh) as [Hf Hc]. cbn [mc_fw]. split; [auto|lia].
Qed.

Lemma grants_pool S c w memory n pointer : 0 <= c -> 0 < n -> offers S (c + (n + EFI_PAGE_SIZE)) w ->
  runs (call_AllocatePool efi memory n pointer) w (fun '(st, _) w' =>
    offers S c w' /\ (happy = true -> st = EFI_SUCCESS /\
      map_bytes s (mc_fw w') <= map_bytes s (mc_fw w) + 2 * map_unit s)).
Proof using Hob.
  intros Hc Hn Ho. unfold runs, call_AllocatePool. destruct (AllocatePool _ _ _ _ _ _) as [[[f m] st] out] eqn:E.
  do 2 eexists. split; [done|]. assert (happy = true -> n + EFI_PAGE_SIZE <= room s (mc_fw w)) as Hr by (intros Hh; destruct (Ho Hh); lia).
  split; [|intros Hh; specialize (Hob Hh); by destruct (ob_pool _ _ _ _ _ _ _ _ _ E Hn (Hr Hh)) as (? & _ & ?)].
  eapply serves_offers; [|exact Ho]. intros Hh. specialize (Hob Hh). by apply (ob_pool _ _ _ _ _ _ _ _ _ E Hn (Hr Hh)).
Qed.

Lemma grants_address (S S' : Z * Z -> Prop) c w memory n a :
  0 < n -> S (a, n) ->
  (forall r, S' r -> S r /\ (a + n * EFI_PAGE_SIZE <= r.1 \/ r.1 + r.2 * EFI_PAGE_SIZE <= a)) ->
  offers S c w ->
  runs (call_AllocatePages efi AllocateAddress memory n a) w (fun '(st, out) w' =>
    offers S' c w' /\ (happy = true -> st = EFI_SUCCESS /\ out = a)).
Proof using Hob.
  intros Hn HS Hd Ho. unfold runs, call_AllocatePages. destruct (AllocatePages _ _ _ _ _ _ _) as [[[f m] st] out] eqn:E.
  do 2 eexists. split; [done|]. split; intros Hh; specialize (Hob Hh); destruct (Ho Hh) as [Hs Hr];
    destruct (ob_address _ _ _ _ _ _ _ _ _ E Hn (Hs _ HS)) as (? & ? & ? & Hkeep); [|done].
  cbn [mc_fw record_event]. split; [|lia]. intros r Hin. destruct (Hd r Hin). apply Hkeep; auto.
Qed.

Lemma grants_low S c w memory n : 0 <= c -> 0 < n -> offers S (c + n * EFI_PAGE_SIZE) w ->
  runs (call_AllocatePages efi AllocateMaxAddress memory n (BBP_IDENTITY_LIMIT - 1)) w (fun '(st, out) w' =>
    offers S c w' /\ (happy = true -> st = EFI_SUCCESS /\ out <> 0)).
Proof using Hob.
  intros Hc Hn Ho. unfold runs, call_AllocatePages. destruct (AllocatePages _ _ _ _ _ _ _) as [[[f m] st] out] eqn:E.
  do 2 eexists. split; [done|]. assert (happy = true -> n * EFI_PAGE_SIZE <= room s (mc_fw w)) as Hr by (intros Hh; destruct (Ho Hh); lia).
  split; [|intros Hh; specialize (Hob Hh); by destruct (ob_low _ _ _ _ _ _ _ _ E Hn (Hr Hh)) as (? & ? & _)].
  eapply serves_offers; [|exact Ho]. intros Hh. specialize (Hob Hh). by apply (ob_low _ _ _ _ _ _ _ _ E Hn (Hr Hh)).
Qed.

(** A call that uses up nothing. *)
Local Ltac free_of_charge Ho := eapply serves_offers; [|rewrite Z.add_0_r; exact Ho]; intros Hh; specialize (Hob Hh).

Lemma grants_free S c w p : offers S c w -> runs (call_FreePool efi p) w (fun _ w' => offers S c w').
Proof using Hob.
  intros Ho. unfold runs, call_FreePool. destruct (FreePool _ _ _ _) as [[f m] st] eqn:E. do 2 eexists. split; [done|].
  free_of_charge Ho. by eapply ob_free_pool.
Qed.

Lemma grants_when S c w (b : bool) action : offers S c w ->
  (b = true -> runs action w (fun _ w' => offers S c w')) -> runs (when_do b action) w (fun _ w' => offers S c w').
Proof. intros Ho Ha. destruct b; [by apply Ha|by apply runs_ret]. Qed.

Lemma grants_protocol S c w handle guid interface : 0 <= c -> offers S (c + EFI_PAGE_SIZE) w ->
  runs (call_HandleProtocol efi handle guid interface) w (fun '(st, out) w' =>
    offers S c w' /\ (happy = true -> guid = BBP_EFI_SIMPLE_FILE_SYSTEM_GUID -> st = EFI_SUCCESS) /\
    (happy = true -> guid = BBP_EFI_LOADED_IMAGE_GUID ->
     st = EFI_SUCCESS /\ (out, 80) ∈ lent (mc_fw w') /\ image_low (mc_mem w') out)).
Proof using Hob.
  intros Hc Ho. unfold runs, call_HandleProtocol. destruct (HandleProtocol _ _ _ _ _ _) as [[[f m] st] out] eqn:E.
  do 2 eexists. split; [done|]. assert (happy = true -> EFI_PAGE_SIZE <= room s (mc_fw w)) as Hr by (intros Hh; destruct (Ho Hh); lia).
  split; [eapply serves_offers; [|exact Ho]; intros Hh; specialize (Hob Hh); by apply (ob_protocol _ _ _ _ _ _ _ _ _ E (Hr Hh))|].
  split; intros Hh; specialize (Hob Hh); by apply (ob_protocol _ _ _ _ _ _ _ _ _ E (Hr Hh)).
Qed.

Lemma grants_volume S c w filesystem root : offers S c w ->
  runs (call_OpenVolume efi filesystem root) w (fun '(st, _) w' => offers S c w' /\ (happy = true -> st = EFI_SUCCESS)).
Proof using Hob.
  intros Ho. unfold runs, call_OpenVolume. destruct (OpenVolume _ _ _ _ _) as [[[f m] st] out] eqn:E.
  do 2 eexists. split; [done|]. split; [free_of_charge Ho; by eapply ob_volume|]. intros Hh. specialize (Hob Hh). by eapply ob_volume.
Qed.

Lemma grants_open S c w root file mode : offers S c w ->
  runs (call_Open efi root file kernel_path mode) w (fun '(st, _) w' => offers S c w' /\ (happy = true -> st = EFI_SUCCESS)).
Proof using Hob.
  intros Ho. unfold runs, call_Open. destruct (FileOpen _ _ _ _ _ _ _) as [[[f m] st] out] eqn:E.
  do 2 eexists. split; [done|]. split; [free_of_charge Ho; by eapply ob_open|]. intros Hh. specialize (Hob Hh). by eapply ob_open.
Qed.

Lemma grants_info S c w file size buffer : offers S c w -> is_Some (cursor (mc_fw w) file) -> mapped (mc_mem w) buffer size ->
  runs (call_GetInfo efi file BBP_EFI_FILE_INFO_GUID size buffer) w (fun '(st, size') w' =>
    offers S c w' /\ (happy = true -> size' = info_bytes s /\
      st = (if size <? info_bytes s then EFI_BUFFER_TOO_SMALL else EFI_SUCCESS))).
Proof using Hob.
  intros Ho Hcur Hm. unfold runs, call_GetInfo. destruct (FileGetInfo _ _ _ _ _ _ _) as [[[f m] st] size'] eqn:E.
  do 2 eexists. split; [done|]. split; [free_of_charge Ho; by eapply ob_info|]. intros Hh. specialize (Hob Hh).
  by destruct (ob_info _ _ _ _ _ _ _ _ _ E Hcur Hm).
Qed.

Lemma grants_read S c w file amount buffer pos : offers S c w -> cursor (mc_fw w) file = Some pos -> pos < zlen content ->
  0 < amount -> mapped (mc_mem w) buffer amount ->
  runs (call_Read efi file amount buffer) w (fun '(st, n) w' =>
    offers S c w' /\ (happy = true -> st = EFI_SUCCESS /\ n <> 0)).
Proof using Hob.
  intros Ho Hcur Hp Ha Hm. unfold runs, call_Read. destruct (FileRead _ _ _ _ _ _) as [[[f m] st] n] eqn:E.
  do 2 eexists. split; [done|]. split; [free_of_charge Ho; by eapply ob_read|]. intros Hh. specialize (Hob Hh).
  by destruct (ob_read _ _ _ _ _ _ _ _ _ _ E Hcur Hp Ha Hm).
Qed.

Lemma grants_close S c w file : offers S c w -> runs (call_Close efi file) w (fun _ w' => offers S c w').
Proof using Hob.
  intros Ho. unfold runs, call_Close. destruct (FileClose _ _ _ _) as [f m] eqn:E. do 2 eexists. split; [done|].
  free_of_charge Ho. by eapply ob_close.
Qed.
End Grants.
