(* ===== verification/LoaderRead.v ===== *)
(** * Reading the kernel

    On a lawful firmware reading ends after at most one call per byte, and what
    the loader holds afterwards is exactly the file. *)

From stdpp Require Import strings gmap.
From S2P Require Import Prelude Memory Crc64 Abi KernelParser Builder ElfPlan UefiExit Paging Loader LoaderMain LoaderHandoff LoaderLaws LoaderGrants.

(** One step of a program whose behaviour is known. *)
Tactic Notation "run" uconstr(rule) := eapply runs_bind; [eapply rule; try apply _|cbn beta].

(** The outermost guard of the program. *)
Ltac branch G := match goal with |- runs (if ?c then _ else _) _ _ => destruct c eqn:G end.

(** What the call does and what it grants. *)
Tactic Notation "run" uconstr(rule) "granting" uconstr(law) :=
  eapply runs_bind; [eapply runs_and; [eapply rule; try apply _|eapply law; try eassumption]|cbn beta].

Section Read.
Context {F : Type} (efi : efi_services F) (lent : F -> gset (Z * Z)) (cursor : F -> Z -> option Z)
  (content : list byte) {Hfw : Firmware efi lent cursor content}.
Context (s : supply F) (happy : bool) (Hob : happy = true -> Obliging efi lent cursor content s).

Let keeps := keeps lent.
Let holds_blocks := holds_blocks lent.
Let offers := offers s happy.

(** The blocks [I] and what the firmware offers outlive the reading. *)
Context (I : gset (Z * Z)) (S : Z * Z -> Prop) (c : Z) (Hc : 0 <= c).

(** ** The loop *)

(** The buffer holds what has been read, and the size is still in [info]. *)
Record reading (file info isz buffer done : Z) (w : machine F) : Prop := Reading {
  rd_cursor : cursor (mc_fw w) file = Some done;
  rd_size : load64 (mc_mem w) (info + 8) = Some (zlen content);
  rd_info : holds_blocks (I ∪ {[(info, isz)]}) w /\ SIZEOF_FILE_INFO_PREFIX <= isz;
  rd_buffer : (buffer, zlen content) ∈ lent (mc_fw w) /\ mapped (mc_mem w) buffer (zlen content);
  rd_apart : fresh (I ∪ {[(info, isz)]}) buffer (zlen content);
  rd_done : 0 <= done <= zlen content /\ bytes_at (mc_mem w) buffer (take (Z.to_nat done) content);
  rd_offers : offers S c w;
}.

Lemma runs_read_loop file info isz buffer : zlen content < 2 ^ 64 ->
  forall fuel done w, reading file info isz buffer done w -> zlen content - done <= Z.of_nat fuel ->
  runs (read_loop efi file info buffer done fuel) w (fun ok w' =>
    keeps I w w' /\ (if ok : bool then reading file info isz buffer (zlen content) w' else happy = false)).
Proof using Hob Hfw Hc.
  intros Hmax. induction fuel as [|fuel IH]; intros done w Hr Hfuel;
    pose proof Hr as [Hcur Hs [HR Hisz] [Hb Hm] Hf [Hd Hat] Ho]; cbn [read_loop]; (eapply runs_peek; [exact Hs|]).
  all: assert (keeps I w w) as Kr by (split; [unfold LoaderLaws.holds_blocks in HR; set_solver|apply undisturbed_refl]).
  { replace (done <? zlen content) with false by lia. apply runs_ret. split; [done|]. by replace (zlen content) with done by lia. }
  destruct (Z.ltb_spec done (zlen content)) as [Hlt|Hge]; [|apply runs_ret; split; [done|]; by replace (zlen content) with done by lia].
  unfold SIZEOF_FILE_INFO_PREFIX in Hisz.
  run (runs_Read efi lent cursor content (I ∪ {[(info, isz)]}) w file (zlen content - done) (buffer + done) done)
    granting (grants_read efi lent cursor content s happy Hob S c w file _ _ done).
  - exact HR.
  - eapply clear_part; [by apply fresh_clear|lia|lia].
  - done.
  - eapply mapped_sub; [exact Hm|lia|lia].
  - lia.
  - eapply mapped_sub; [exact Hm|lia|lia].
  - intros [st n] w2 [(K & Hl & Hu & Hok) [Ho2 Hgr]]. assert (keeps I w w2) as K0 by (eapply keeps_sub; [exact K|set_solver]).
    destruct (_ || _) eqn:G.
    { apply runs_ret. split; [done|]. apply not_true_is_false. intros Hh. destruct (Hgr Hh) as [-> Hn0].
      rewrite Z.eqb_refl in G. by apply Z.eqb_eq in G. }
    apply orb_false_iff in G as [G1 G2]. apply negb_false_iff, Z.eqb_eq in G1. apply Z.eqb_neq in G2.
    destruct (Hok G1) as (Hn & Hn' & Hcur' & Hat'). rewrite wrap_small by (unfold in_word; lia).
    eapply runs_conseq; [apply IH; [|lia]|intros ok w3 [K3 Hr3]; split; [by eapply keeps_trans|exact Hr3]].
    split; [done| | |split; [by apply Hl|]|done|split; [lia|]|done].
    + unfold load64. erewrite load_le_same_on; [exact Hs|]. apply (keeps_same lent _ _ _ _ _ info isz K); [set_solver|lia|lia].
    + split; [by eapply keeps_holds|done].
    + intros x Hx. apply Hu, Hm. lia.
    + rewrite Z2Nat.inj_add by lia. rewrite <- take_take_drop. apply bytes_at_app. split.
      * eapply bytes_at_same_on; [|exact Hat]. intros x Hx. destruct Hu as [_ Hu]. unfold zlen in Hx.
        apply (Hu (buffer, zlen content) x Hb); unfold inside; cbn; rewrite length_take in Hx; lia.
      * replace (zlen (take (Z.to_nat done) content)) with done; [done|]. unfold zlen in *. rewrite length_take. lia.
Qed.
(** ** The file *)

(** What a successful return of [read_file] and [read_kernel] delivers. *)
Definition file_read (b : Z) (w : machine F) : Prop :=
  (b, zlen content) ∈ lent (mc_fw w) /\ 0 < b /\ 64 <= zlen content <= BBP_MAX_KERNEL_FILE /\
  bytes_at (mc_mem w) b content.

(** The file, its description and the overhead of the pool. *)
Definition read_cost : Z := zlen content + 3 * EFI_PAGE_SIZE.


Context (Hlen : happy = true -> 64 <= zlen content <= BBP_MAX_KERNEL_FILE).

(** A file that was read, or a failure that an obliging firmware excludes. *)
Definition file_outcome (info buffer : Z) (res : option (Z * Z)) (w : machine F) : Prop :=
  match res with
  | Some (b, size) =>
      buffer = 0 /\ size = zlen content /\ file_read b w /\ info <> b /\ fresh I b (zlen content) /\
      (forall r, r ∈ I -> r.1 <> info) /\ offers S c w
  | None => happy = false
  end.

Lemma runs_read_file file fuel w :
  cursor (mc_fw w) file = Some 0 -> zlen content <= Z.of_nat fuel -> zlen content < 2 ^ 64 ->
  holds_blocks I w -> offers S (c + read_cost) w ->
  runs (read_file efi file fuel) w (fun '(st, info, buffer, res) w' =>
    keeps I w w' /\ file_outcome info buffer res w').
Proof using Hob Hfw Hc Hlen.
  intros Hcur Hfuel Hmax HI Ho. unfold read_file.
  assert (happy = true -> 24 <= info_bytes s <= 4096) as Hib by (intros Hh; specialize (Hob Hh); by apply ob_units).
  run (runs_GetInfo efi lent cursor content I w) granting (grants_info efi lent cursor content s happy Hob S _ w);
    [done|apply clear_empty|by rewrite Hcur|intros x Hx; lia|].
  intros [st isz] w1 [(K1 & _ & _ & C1 & Hisz & _) [O1 G1]].
  branch B1.
  { apply runs_ret. split; [done|]. apply not_true_is_false. intros Hh. destruct (G1 Hh) as [-> ->]. specialize (Hib Hh).
    replace (0 <? info_bytes s) with true in B1 by lia. rewrite Z.eqb_refl in B1. apply Z.ltb_lt in B1.
    unfold SIZEOF_FILE_INFO_PREFIX in B1. lia. }
  unfold SIZEOF_FILE_INFO_PREFIX in B1. apply orb_false_iff in B1 as [_ B1]. apply Z.ltb_ge in B1.
  assert (holds_blocks I w1) as HI1 by (by eapply keeps_holds).
  run (runs_AllocatePool efi lent cursor content I w1 _ isz)
    granting (grants_pool efi lent cursor content s happy Hob S (c + (zlen content + EFI_PAGE_SIZE)) w1); [done|lia| |lia| |].
  { unfold EFI_PAGE_SIZE. pose proof (zlen_nonneg content). lia. }
  { eapply offers_less; [exact O1|]. intros Hh. destruct (G1 Hh) as [-> _]. specialize (Hib Hh). unfold read_cost, EFI_PAGE_SIZE. lia. }
  intros [st2 info] w2 [(K2 & C2 & Hinfo) [O2 G2]]. apply (keeps_trans _ _ _ _ _ K1) in K2.
  destruct (Z.eqb_spec st2 EFI_SUCCESS) as [E2|N2]; cbn [negb].
  2: { apply runs_ret. split; [done|]. apply not_true_is_false. intros Hh. by destruct (G2 Hh) as [-> _]. }
  destruct (Hinfo E2) as (Hi & Fi & Mi & Hi0). clear Hinfo. assert (holds_blocks I w2) as HI2 by (apply (keeps_holds _ _ _ _ HI K2)).
  run (runs_GetInfo efi lent cursor content I w2 file _ isz info)
    granting (grants_info efi lent cursor content s happy Hob S _ w2); [done|by apply fresh_clear|by rewrite C2, C1, Hcur|].
  intros [st3 isz'] w3 [(K3 & L3 & M3 & C3 & _ & Hsize) [O3 G3]]. apply (keeps_trans _ _ _ _ _ K2) in K3.
  destruct (Z.eqb_spec st3 EFI_SUCCESS) as [E3|N3]; cbn [negb].
  2: { apply runs_ret. split; [done|]. apply not_true_is_false. intros Hh. destruct (G3 Hh) as [_ ->]. destruct (G1 Hh) as [-> _].
       by rewrite Z.ltb_irrefl in N3. }
  assert (load64 (mc_mem w3) (info + 8) = Some (zlen content)) as Hs.
  { apply Hsize; try done. by rewrite C2, C1, Hcur. }
  eapply runs_peek; [exact Hs|]. branch B2.
  { apply runs_ret. split; [done|]. apply not_true_is_false. intros Hh. specialize (Hlen Hh). unfold BBP_MAX_KERNEL_FILE, SIZE_MAX in *.
    bool_to_prop. lia. }
  assert (64 <= zlen content <= BBP_MAX_KERNEL_FILE) as Hfile by (bool_to_prop; lia).
  assert (holds_blocks (I ∪ {[(info, isz)]}) w3) as HI3.
  { apply holds_union; [apply (keeps_holds _ _ _ _ HI K3)|]. specialize (L3 _ Hi). unfold LoaderLaws.holds_blocks. set_solver. }
  run (runs_AllocatePool efi lent cursor content (I ∪ {[(info, isz)]}) w3 _ (zlen content))
    granting (grants_pool efi lent cursor content s happy Hob S c w3); [done|lia|lia|].
  intros [st4 buffer] w4 [(K4 & C4 & Hbuf) [O4 G4]].
  assert (keeps I w w4) as K4' by (eapply keeps_trans; [exact K3|eapply keeps_sub; [exact K4|set_solver]]).
  destruct (Z.eqb_spec st4 EFI_SUCCESS) as [E4|N4]; cbn [negb].
  2: { apply runs_ret. split; [done|]. apply not_true_is_false. intros Hh. by destruct (G4 Hh) as [-> _]. }
  destruct (Hbuf E4) as (Hb & Fb & Mb & Hb0). clear Hbuf.
  assert (reading file info isz buffer 0 w4) as Hr.
  { split; [by rewrite C4, C3, C2, C1| | |done|done| |done].
    - unfold load64. erewrite load_le_same_on; [exact Hs|]. apply (keeps_same lent _ _ _ _ _ info isz K4); [set_solver|lia|lia].
    - split; [by eapply keeps_holds|unfold SIZEOF_FILE_INFO_PREFIX; lia].
    - split; [lia|]. apply bytes_at_nil. }
  eapply runs_bind; [apply (runs_read_loop file info isz buffer Hmax fuel 0 w4 Hr); lia|]. cbn beta.
  intros ok w5 [K5 Hok]. apply (keeps_trans _ _ _ _ _ K4') in K5. destruct ok; [|by apply runs_ret].
  destruct Hok as [_ Hs' _ [Hb' _] Fb' [_ Hat] O5].
  eapply runs_peek; [exact Hs'|]. apply runs_ret. split; [done|]. cbn [file_outcome]. split_and!; try done.
  - split_and!; try done; try lia. by rewrite firstn_all2 in Hat by (unfold zlen; lia).
  - by destruct (Fb (info, isz) ltac:(set_solver)) as [Hne _].
  - eapply fresh_sub; [exact Fb|set_solver].
  - intros r Hr'. by apply (Fi r Hr').
Qed.
End Read.

(** ** The kernel *)

Lemma image_low_same m m' loaded : same_on m m' loaded 80 -> image_low m loaded -> image_low m' loaded.
Proof.
  intros Hs (base & size & Eb & Es & H). exists base, size. split_and!; [|..|apply H|apply H];
    unfold load64 in *; (erewrite load_le_same_on; [eassumption|]); intros x Hx; apply Hs; lia.
Qed.

(** The description of the loaded image, if it is known to stay. *)
Definition image_block (happy : bool) (loaded : Z) : gset (Z * Z) := if happy then {[(loaded, 80)]} else ∅.

Lemma in_image_block happy loaded r : r ∈ image_block happy loaded <-> happy = true /\ r = (loaded, 80).
Proof. unfold image_block. destruct happy; set_solver. Qed.

Section Kernel.
Context {F : Type} (efi : efi_services F) (lent : F -> gset (Z * Z)) (cursor : F -> Z -> option Z)
  (content : list byte) {Hfw : Firmware efi lent cursor content}.
Context (s : supply F) (happy : bool) (Hob : happy = true -> Obliging efi lent cursor content s).

(** The two protocols and the file. *)
Definition kernel_cost : Z := read_cost content + 2 * EFI_PAGE_SIZE.

Definition kernel_read (S : Z * Z -> Prop) (c : Z) (res : option (Z * Z * Z)) (w : machine F) : Prop :=
  match res with
  | Some (b, size, loaded) =>
      size = zlen content /\ file_read lent content b w /\ 0 < loaded /\ mapped (mc_mem w) loaded 80 /\
      offers s happy S c w /\ holds_blocks lent (image_block happy loaded) w /\
      fresh (image_block happy loaded) b (zlen content) /\ (happy = true -> image_low (mc_mem w) loaded)
  | None => happy = false
  end.

(** [if (p) release(p);], keeping the blocks of [R]. *)
Lemma release_step {B} R S c (b : bool) action (k : unit -> loader F B) w0 w Q :
  keeps lent R w0 w -> offers s happy S c w ->
  (b = true -> runs action w (fun _ w' => keeps lent R w w')) ->
  (b = true -> runs action w (fun _ w' => offers s happy S c w')) ->
  (forall w', keeps lent R w0 w' -> offers s happy S c w' -> runs (k tt) w' Q) ->
  runs (when_do b action ≫= k) w Q.
Proof.
  intros K O Hk Ho Hnext. eapply runs_bind; [apply runs_and; [by apply (runs_when lent R w), Hk; apply K|by apply (grants_when s happy S c)]|].
  intros [] w' [K' O']. apply Hnext; [by eapply keeps_trans|done].
Qed.

Lemma runs_read_kernel image fuel w S c :
  0 <= c -> (happy = true -> 64 <= zlen content <= BBP_MAX_KERNEL_FILE) ->
  zlen content <= Z.of_nat fuel -> zlen content < 2 ^ 64 -> offers s happy S (c + kernel_cost) w ->
  runs (read_kernel efi image fuel) w (fun '(_, res) w' => kernel_read S c res w').
Proof using Hob Hfw.
  intros Hc Hlen Hfuel Hmax Ho. unfold read_kernel.
  assert (0 <= c + read_cost content) as Hpos by (unfold read_cost, EFI_PAGE_SIZE; pose proof (zlen_nonneg content); lia).
  run (runs_HandleProtocol efi lent cursor content ∅ w)
    granting (grants_protocol efi lent cursor content s happy Hob S (c + read_cost content + EFI_PAGE_SIZE));
    [apply holds_nothing|unfold EFI_PAGE_SIZE; lia|eapply offers_less; [exact Ho|unfold kernel_cost, EFI_PAGE_SIZE; lia]|].
  intros [st loaded] w1 [[_ Hl] (O1 & _ & G1)].
  destruct (Z.eqb_spec st EFI_SUCCESS) as [E1|N1]; cbn [negb].
  2: { apply runs_ret, not_true_is_false. intros Hh. by destruct (G1 Hh eq_refl) as [-> _]. }
  destruct (Hl E1 eq_refl) as [Hl0 Ml]. destruct (mapped_load_le (mc_mem w1) (loaded + 24) 8) as (device & Hd & _).
  { eapply mapped_sub; [exact Ml|lia|lia]. }
  eapply runs_peek; [exact Hd|]. set (I := image_block happy loaded).
  assert (holds_blocks lent I w1) as HI1.
  { intros r [Hh ->]%in_image_block. by apply (G1 Hh). }
  run (runs_HandleProtocol efi lent cursor content I w1)
    granting (grants_protocol efi lent cursor content s happy Hob S (c + read_cost content)); [done|].
  intros [st2 filesystem] w2 [[K2 _] (O2 & G2 & _)].
  branch B2; [apply runs_ret, not_true_is_false; intros Hh; by rewrite (G2 Hh eq_refl) in B2|].
  run (runs_OpenVolume efi lent cursor content I w2) granting (grants_volume efi lent cursor content s happy Hob);
    [by eapply keeps_holds|].
  intros [st3 root] w3 [K3 [O3 G3]].
  branch B3; [apply runs_ret, not_true_is_false; intros Hh; by rewrite (G3 Hh) in B3|].
  apply (keeps_trans _ _ _ _ _ K2) in K3.
  run (runs_Open efi lent cursor content I w3) granting (grants_open efi lent cursor content s happy Hob);
    [apply (keeps_holds _ _ _ _ HI1 K3)|].
  intros [st4 file] w4 [[K4 Hopen] [O4 G4]]. apply (keeps_trans _ _ _ _ _ K3) in K4.
  eapply (runs_bind _ _ _ _ (fun '(_, info, buffer, res) w' => keeps lent I w4 w' /\
    file_outcome lent content s happy I S c info buffer res w')).
  { destruct (Z.eqb_spec st4 EFI_SUCCESS) as [E4|N4]; cbn [negb].
    - apply (runs_read_file efi lent cursor content s happy Hob); try done; [by apply Hopen|apply (keeps_holds _ _ _ _ HI1 K4)].
    - apply runs_ret. split; [split; [apply K4|apply undisturbed_refl]|]. apply not_true_is_false. intros Hh. by rewrite (G4 Hh) in N4. }
  intros [[[st5 info] buffer] res] w5 [K5 Hres].
  set (R := match res with Some (b, _) => I ∪ {[(b, zlen content)]} | None => ∅ end : gset (Z * Z)).
  assert (holds_blocks lent R w5 /\ (forall r, r ∈ R -> r.1 <> info) /\ (forall r, r ∈ R -> buffer <> 0 -> r.1 <> buffer) /\
    offers s happy S c w5) as (HR & Hinfo & Hbuf & O5).
  { unfold R. destruct res as [[b size]|]; cbn [file_outcome] in Hres.
    - destruct Hres as (-> & _ & (Hb & _) & Hne & _ & HIi & O5). split_and!; [|intros r [Hr | ->%elem_of_singleton]%elem_of_union|done|done].
      + apply holds_union; [apply K5|]. unfold holds_blocks. set_solver.
      + by apply HIi.
      + done.
    - split_and!; [apply holds_nothing|set_solver|set_solver|]. intros Hh. congruence. }
  assert (keeps lent R w5 w5) as K55 by (split; [done|apply undisturbed_refl]).
  eapply (release_step R S c); [exact K55|done|..].
  { intros _. by apply (runs_FreePool efi lent cursor content). } { intros _. by apply (grants_free efi lent cursor content s happy Hob). }
  intros w6 K6 O6. eapply (release_step R S c); [exact K6|done|..].
  { intros _. apply (runs_Close efi lent cursor content), K6. } { intros _. by apply (grants_close efi lent cursor content s happy Hob). }
  intros w7 K7 O7. eapply (release_step R S c); [exact K7|done|..].
  { intros _. apply (runs_Close efi lent cursor content), K7. } { intros _. by apply (grants_close efi lent cursor content s happy Hob). }
  intros w8 K8 O8. eapply (release_step R S c); [exact K8|done|..].
  { intros G. apply (runs_FreePool efi lent cursor content); [apply K8|]. intros r Hr. apply Hbuf; [done|]. by apply negb_true_iff, Z.eqb_neq in G. }
  { intros _. by apply (grants_free efi lent cursor content s happy Hob). }
  intros w9 K9 O9. apply runs_ret. destruct res as [[b size]|]; cbn [option_map kernel_read]; [|done].
  destruct Hres as (_ & -> & (Hb & ? & ? & Hat) & _ & Hfr & _). split_and!; try done.
  - split_and!; try lia; [apply K9; unfold R; set_solver|].
    eapply bytes_at_same_on; [|exact Hat]. apply (keeps_same lent R w5 w9 _ _ b (zlen content)); [done|unfold R; set_solver|lia|lia].
  - eapply keeps_mapped; [exact K9|]. eapply keeps_mapped; [exact K5|]. by eapply keeps_mapped.
  - intros r Hr. apply K9. unfold R. set_solver.
  - intros Hh. destruct (G1 Hh eq_refl) as (_ & _ & Hlow). assert ((loaded, 80) ∈ I) as HinI by (by apply in_image_block).
    eapply image_low_same; [|exact Hlow]. eapply same_on_trans; [by apply (keeps_same lent I w1 w4 _ _ loaded 80)|].
    eapply same_on_trans; [by apply (keeps_same lent I w4 w5 _ _ loaded 80)|].
    apply (keeps_same lent R w5 w9 _ _ loaded 80); [done|unfold R; set_solver|lia|lia].
Qed.
End Kernel.
