(* ===== verification/LoaderSegments.v ===== *)
(** * Loading the segments

    Loading either fails or leaves every segment's pages holding the file's
    bytes at the segment's place and zeros around them. *)

From stdpp Require Import strings gmap.
From S2P Require Import Prelude Memory Crc64 Abi KernelParser Builder ElfPlan UefiExit Paging Loader LoaderMain LoaderMap LoaderHandoff LoaderLaws LoaderGrants LoaderRead.

(** The pages of a loaded segment. *)
Definition segment_image (content : list byte) (s : bbp_elf64_segment_plan) : list byte :=
  replicate (Z.to_nat (s_physical_address s - s_page_base s)) x00 ++
  take (Z.to_nat (s_file_size s)) (drop (Z.to_nat (s_file_offset s)) content) ++
  replicate (Z.to_nat (page_end_of s - s_physical_address s - s_file_size s)) x00.

Definition segment_block (s : bbp_elf64_segment_plan) : Z * Z :=
  (s_page_base s, s_page_count s * EFI_PAGE_SIZE).

(** The pages the loader asks for. *)
Definition segment_pages (segments : list bbp_elf64_segment_plan) : list (Z * Z) :=
  map (fun s => (s_page_base s, s_page_count s)) (List.filter (fun s => negb (s_page_count s =? 0)) segments).

(** A segment that can be placed below 4 GiB, not at page 0. *)
Definition segment_low (s : bbp_elf64_segment_plan) : Prop :=
  s_page_count s <> 0 -> s_page_base s <> 0 /\ page_end_of s <= BBP_IDENTITY_LIMIT.

Section Segments.
Context {F : Type} (efi : efi_services F) (lent : F -> gset (Z * Z)) (cursor : F -> Z -> option Z)
  (content : list byte) {Hfw : Firmware efi lent cursor content}.

Let keeps := keeps lent.
Let holds_blocks := holds_blocks lent.

(** The segment is in memory, in pages of its own below 4 GiB. *)
Definition segment_loaded (R : gset (Z * Z)) (w : machine F) (s : bbp_elf64_segment_plan) : Prop :=
  s_page_count s <> 0 ->
  segment_block s ∈ lent (mc_fw w) /\ fresh R (s_page_base s) (s_page_count s * EFI_PAGE_SIZE) /\
  0 < s_page_base s /\ page_end_of s <= BBP_IDENTITY_LIMIT /\
  bytes_at (mc_mem w) (s_page_base s) (segment_image content s).

Lemma runs_release segments : forall w, runs (release_segments efi segments) w (fun _ _ => True).
Proof.
  induction segments as [|s segments IH]; intros w; cbn [release_segments]; [by apply runs_ret|].
  eapply runs_bind; [apply (runs_when lent ∅ w); [apply holds_nothing|intros _]|intros [] w' _; apply IH].
  apply (runs_FreePages efi lent cursor content); [apply holds_nothing|set_solver].
Qed.

Lemma segment_sizes s : segment_ok (zlen content) s -> s_page_count s <> 0 ->
  0 <= s_physical_address s - s_page_base s /\ 0 <= s_file_size s /\ 0 <= s_file_offset s /\
  s_file_offset s + s_file_size s <= zlen content /\ 0 < s_page_count s /\ 0 <= s_page_base s /\
  s_physical_address s + s_memory_size s <= page_end_of s /\ s_file_size s <= s_memory_size s /\
  page_end_of s = s_page_base s + s_page_count s * 4096 /\ page_end_of s < 2 ^ 49.
Proof.
  intros [[? ?] _ _ _ _ [? ?] (_ & ? & ?) [Hz Hp] (_ & ? & ? & _)] Hne. unfold ELF64_PHYSICAL_LIMIT, BBP_ELF64_PAGE_SIZE in *.
  destruct (Z.eq_dec (s_memory_size s) 0) as [E|E]; [by rewrite Hz in Hne|]. destruct (Hp E) as (? & ? & ?).
  unfold page_end_of, BBP_ELF64_PAGE_SIZE in *. split_and!; lia.
Qed.

Lemma zlen_segment_image s : segment_ok (zlen content) s -> s_page_count s <> 0 ->
  zlen (segment_image content s) = s_page_count s * EFI_PAGE_SIZE.
Proof.
  intros Hs Hne. destruct (segment_sizes s Hs Hne) as (? & ? & ? & ? & ? & ? & ? & ? & ? & ?).
  unfold segment_image. rewrite !zlen_app, !zlen_replicate.
  replace (zlen (take _ _)) with (s_file_size s); [unfold EFI_PAGE_SIZE; lia|].
  unfold zlen in *. rewrite length_take, length_drop. lia.
Qed.

(** Clearing the pages and copying the file part. *)
Lemma write_segment m image s :
  segment_ok (zlen content) s -> s_page_count s <> 0 -> bytes_at m image content ->
  mapped m (s_page_base s) (s_page_count s * EFI_PAGE_SIZE) ->
  (forall x, inside (image, zlen content) x -> ~ inside (segment_block s) x) ->
  exists m1 m2,
    mem_zero m (s_page_base s) (Z.to_nat (wrap64 (s_page_count s * EFI_PAGE_SIZE))) = Some m1 /\
    mem_copy m1 (s_physical_address s) (image + s_file_offset s) (Z.to_nat (s_file_size s)) = Some m2 /\
    frame (s_page_base s) (s_page_count s * EFI_PAGE_SIZE) m m2 /\
    bytes_at m2 (s_page_base s) (segment_image content s).
Proof.
  intros Hs Hne Hat Hm Hdis. destruct (segment_sizes s Hs Hne) as (? & ? & ? & ? & ? & ? & ? & ? & ? & ?).
  unfold segment_block, inside, EFI_PAGE_SIZE in *. cbn [fst snd] in Hdis.
  rewrite wrap_small by (unfold in_word; lia). set (n := Z.to_nat (s_page_count s * 4096)).
  destruct (store_bytes_mapped m (s_page_base s) (replicate n x00)) as [m1 E1]; [by rewrite zlen_replicate; unfold n; rewrite Z2Nat.id by lia|].
  pose proof (frame_store _ _ _ _ E1) as F1. rewrite zlen_replicate in F1. unfold n in F1. rewrite Z2Nat.id in F1 by lia.
  set (bs := take (Z.to_nat (s_file_size s)) (drop (Z.to_nat (s_file_offset s)) content)).
  assert (zlen bs = s_file_size s) as Hbs by (unfold bs, zlen in *; rewrite length_take, length_drop; lia).
  assert (bytes_at m1 (image + s_file_offset s) bs) as Hsrc.
  { apply bytes_at_take. replace (s_file_offset s) with (Z.of_nat (Z.to_nat (s_file_offset s))) at 1 by lia.
    apply bytes_at_drop; [unfold zlen in *; lia|]. eapply bytes_at_same_on; [|exact Hat].
    intros x Hx. apply F1. intros Hx'. by apply (Hdis x). }
  set (pre := Z.to_nat (s_physical_address s - s_page_base s)).
  set (post := Z.to_nat (page_end_of s - s_physical_address s - s_file_size s)).
  assert (bytes_at m1 (s_page_base s) (replicate pre x00 ++ replicate (length bs) x00 ++ replicate post x00)) as Hz.
  { apply store_bytes_at in E1. rewrite <- !replicate_add. unfold pre, post, n, zlen in *.
    replace (_ + _)%nat with (Z.to_nat (s_page_count s * 4096)) by lia. done. }
  destruct (overwrite m1 (s_page_base s) _ _ bs _ (s_physical_address s) Hz) as (m2 & E2 & Hat2 & F2).
  { by rewrite zlen_replicate. } { rewrite zlen_replicate. unfold pre. lia. }
  exists m1, m2. split_and!.
  - by rewrite mem_zero_store.
  - rewrite (mem_copy_store m1 _ _ _ bs); [done| |].
    + rewrite <- Hbs. unfold zlen. rewrite Nat2Z.id. by apply bytes_at_load.
    + intros x Hx Hx'. apply (Hdis x); lia.
  - eapply frame_trans; [exact F1|]. eapply frame_weaken; [exact F2|lia|]. rewrite !zlen_app, !zlen_replicate. unfold pre, post, zlen in *. lia.
  - exact Hat2.
Qed.

Lemma block_loaded R R' w w' s :
  R ⊆ R' -> s_page_count s <> 0 -> segment_block s ∈ R' -> keeps R' w w' ->
  fresh R (s_page_base s) (s_page_count s * EFI_PAGE_SIZE) ->
  0 < s_page_base s -> page_end_of s <= BBP_IDENTITY_LIMIT -> segment_ok (zlen content) s ->
  bytes_at (mc_mem w) (s_page_base s) (segment_image content s) -> segment_loaded R w' s.
Proof.
  intros HR Hne Hin Hk Hf H0 Hlim Hs Hat _. split_and!; try done; [destruct Hk as [Hk _]; set_solver|].
  eapply bytes_at_same_on; [|exact Hat]. rewrite zlen_segment_image by done.
  apply (keeps_same lent R' w w' _ _ (s_page_base s) (s_page_count s * EFI_PAGE_SIZE)); [done|done|lia|lia].
Qed.

Context (s : supply F) (happy : bool) (Hob : happy = true -> Obliging efi lent cursor content s).

Lemma runs_load_from image c : forall segments before R w,
  holds_blocks R w -> (image, zlen content) ∈ R -> bytes_at (mc_mem w) image content ->
  Forall (segment_ok (zlen content)) segments -> ForallOrdPairs pages_apart segments ->
  (happy = true -> Forall segment_low segments) -> offers s happy (fun r => In r (segment_pages segments)) c w ->
  runs (load_segments_from efi image before segments) w (fun st w' =>
    if st =? EFI_SUCCESS then keeps R w w' /\ Forall (segment_loaded R w') segments /\ offers s happy (fun _ => False) c w'
    else happy = false).
Proof using Hob Hfw.
  induction segments as [|g segments IH]; intros before R w HR Hin Hat Hok Hap Hlow Ho; cbn [load_segments_from].
  { apply runs_ret. cbn. split_and!; [|constructor|by eapply offers_fewer]. split; [apply HR|apply undisturbed_refl]. }
  apply Forall_cons in Hok as [Hs Hok]. inversion_clear Hap as [|? ? Hap1 Hap2].
  assert (happy = true -> segment_low g /\ Forall segment_low segments) as Hlow'.
  { intros Hh. specialize (Hlow Hh). by apply Forall_cons in Hlow. }
  assert (forall w st (Q : Z -> machine F -> Prop), (forall w', Q st w') ->
    runs (_ ← release_segments efi before; mret st) w Q) as Hfail.
  { intros w0 st Q HQ. eapply runs_bind; [apply runs_release|]. intros [] w' _. by apply runs_ret. }
  destruct (Z.eqb_spec (s_page_count g) 0) as [E0|Hne].
  { eapply runs_conseq; [apply (IH (g :: before)); try done|].
    - intros Hh. by apply Hlow'.
    - unfold segment_pages in Ho. cbn [List.filter] in Ho. by rewrite E0 in Ho.
    - intros st w'. cbn beta. destruct (st =? EFI_SUCCESS); [|done]. intros (? & ? & ?). split_and!; try done.
      constructor; [|done]. intros Hne. by rewrite E0 in Hne. }
  destruct (segment_sizes g Hs Hne) as (? & ? & ? & ? & Hpc & ? & ? & ? & Hend & ?).
  rewrite wrap_small by (unfold in_word, EFI_PAGE_SIZE; lia).
  branch G.
  { apply Hfail. intros w'. change (EFI_LOAD_ERROR =? EFI_SUCCESS) with false. apply not_true_is_false. intros Hh.
    destruct (Hlow' Hh) as [Hg _]. destruct (Hg Hne) as [? ?]. unfold EFI_PAGE_SIZE in *. rewrite <- Hend in G. bool_to_prop. lia. }
  unfold EFI_PAGE_SIZE in G. rewrite <- Hend in G. bool_to_prop.
  assert (segment_pages (g :: segments) = (s_page_base g, s_page_count g) :: segment_pages segments) as Epages.
  { unfold segment_pages. cbn [List.filter]. by rewrite (proj2 (Z.eqb_neq _ _) Hne). }
  run (runs_AllocatePages efi lent cursor content R w)
    granting (grants_address efi lent cursor content s happy Hob _ (fun r => In r (segment_pages segments)) c w);
    [done|lia|rewrite Epages; by left| |].
  { intros r Hr. rewrite Epages. split; [by right|]. apply in_map_iff in Hr as (t & <- & [Ht Hc]%filter_In). cbn [fst snd]. rewrite List.Forall_forall in Hap1.
    apply negb_true_iff, Z.eqb_neq in Hc. rewrite List.Forall_forall in Hok.
    destruct (segment_sizes t (Hok t Ht) Hc) as (_ & _ & _ & _ & _ & _ & _ & _ & Hend' & _).
    destruct (Hap1 t Ht) as [?|[?|[?|?]]]; unfold EFI_PAGE_SIZE; lia. }
  intros [st physical] w1 [[K1 Hgot] [O1 G1]].
  destruct (Z.eqb_spec st EFI_SUCCESS) as [Est|Nst]; cbn [negb].
  2: { apply Hfail. intros w'. rewrite (proj2 (Z.eqb_neq _ _) Nst). apply not_true_is_false. intros Hh. by destruct (G1 Hh). }
  destruct (Hgot Est) as (Hblk & Hfr & Hmap & _). destruct (Z.eqb_spec physical (s_page_base g)) as [->|Np]; cbn [negb].
  2: { run (runs_FreePages efi lent cursor content ∅ w1); [apply holds_nothing|set_solver|]. intros [] w2 _. apply Hfail. intros w'.
       change (EFI_LOAD_ERROR =? EFI_SUCCESS) with false. apply not_true_is_false. intros Hh. by destruct (G1 Hh). }
  pose proof (Hfr _ Hin) as [_ Hdis].
  destruct (write_segment (mc_mem w1) image g) as (m2 & m3 & E2 & E3 & F3 & Hat3); try done.
  { eapply bytes_at_same_on; [|exact Hat]. apply (keeps_same lent R w w1 _ _ image (zlen content)); [done|done|lia|lia]. }
  eapply runs_poke; [exact E2|]. eapply runs_poke; [exact E3|]. cbn [mc_fw mc_log].
  set (w3 := Machine (mc_fw w1) m3 _). assert (keeps R w w3) as K3.
  { eapply keeps_trans; [exact K1|]. split; [apply K1|]. cbn [mc_mem w3]. destruct F3 as [D3 F3]. split; [intros x; apply D3|].
    intros r x Hr Hx _. apply F3. destruct (Hfr r Hr) as [_ Hd]. apply (Hd x Hx). }
  set (R' := R ∪ {[segment_block g]}). eapply runs_conseq; [apply (IH (g :: before) R' w3); try done|].
  - unfold R', holds_blocks. apply holds_union; [apply K3|]. intros r ->%elem_of_singleton. exact Hblk.
  - set_solver.
  - eapply bytes_at_same_on; [|exact Hat]. apply (keeps_same lent R w w3 _ _ image (zlen content)); [done|done|lia|lia].
  - intros Hh. by apply Hlow'.
  - intros st' w'. cbn beta. destruct (st' =? EFI_SUCCESS); [|done]. intros (K' & Hl' & O').
    split_and!; [eapply keeps_trans; [exact K3|eapply keeps_sub; [exact K'|set_solver]]| |done]. constructor.
    + apply (block_loaded R R' w3); try done; [apply union_subseteq_l|by apply elem_of_union_r, elem_of_singleton|lia].
    + eapply Forall_impl; [exact Hl'|]. intros t Ht Htc. destruct (Ht Htc) as (? & Hft & ? & ? & ?). split_and!; try done.
      eapply fresh_sub; [exact Hft|set_solver].
Qed.
End Segments.
