(* ===== verification/LoaderServices.v ===== *)
(** * Allocating, checking the geometry and leaving boot services

    The parts of the loader between the kernel's header and the handoff keep
    every block the loader holds. *)

From stdpp Require Import strings gmap.
From S2P Require Import Prelude Memory Crc64 Abi KernelParser Builder ElfPlan UefiExit Paging Loader LoaderMain LoaderMap LoaderHandoff LoaderLaws LoaderGrants LoaderRead.

Section LowPages.
Context {F : Type} (efi : efi_services F) (lent : F -> gset (Z * Z)) (cursor : F -> Z -> option Z)
  (content : list byte) {Hfw : Firmware efi lent cursor content}.
Context (s : supply F) (happy : bool) (Hob : happy = true -> Obliging efi lent cursor content s).

Let keeps := keeps lent.
Let holds_blocks := holds_blocks lent.
Let offers := offers s happy.

(** ** Low pages *)

(** A block of zeroed pages below 4 GiB. *)
Definition zeroed (a n : Z) (w : machine F) : Prop :=
  page_range a n /\ (a, n * EFI_PAGE_SIZE) ∈ lent (mc_fw w) /\
  forall x, inside (a, n * EFI_PAGE_SIZE) x -> mc_mem w !! x = Some x00.

Lemma runs_low_pages R w n S c : holds_blocks R w -> 0 < n -> 0 <= c -> offers S (c + n * EFI_PAGE_SIZE) w ->
  runs (allocate_low_pages efi n 0) w (fun '(st, a) w' =>
    keeps R w w' /\
    if st =? EFI_SUCCESS then
      zeroed a n w' /\ fresh R a (n * EFI_PAGE_SIZE) /\ offers S c w' /\
      (happy = true -> a <> 0) /\ (a = 0 -> gives_page_zero efi)
    else happy = false).
Proof using Hob Hfw.
  intros HR Hn Hc Ho. unfold allocate_low_pages.
  eapply runs_bind; [eapply runs_and; [by apply (runs_AllocatePages efi lent cursor content R w)|
    eapply runs_and; [by apply (grants_low efi lent cursor content s happy Hob S c w)|apply runs_page_zero]]|cbn beta].
  intros [st a] w1 ([K1 Hgot] & [O1 G1] & Hzero). destruct (Z.eqb_spec st EFI_SUCCESS) as [Est|Nst].
  2: { apply runs_ret. split; [done|]. rewrite (proj2 (Z.eqb_neq _ _) Nst). apply not_true_is_false. intros Hh. by destruct (G1 Hh). }
  destruct (Hgot Est) as (Hin & Hf & Hm & H0 & Hal & Hmax). specialize (Hmax eq_refl). unfold EFI_PAGE_SIZE in *.
  destruct (store_bytes_mapped (mc_mem w1) a (replicate (Z.to_nat (n * 4096)) x00)) as [m2 E2].
  { rewrite zlen_replicate. eapply mapped_sub; [exact Hm|lia|lia]. }
  eapply runs_poke; [by rewrite mem_zero_store|]. apply runs_ret. cbn [mc_fw mc_mem mc_log]. rewrite (proj2 (Z.eqb_eq _ _) Est).
  pose proof (frame_store _ _ _ _ E2) as [D2 F2]. rewrite zlen_replicate in F2. split_and!.
  - eapply keeps_trans; [exact K1|]. split; [apply K1|]. cbn [mc_mem]. split; [intros x; apply D2|].
    intros r x Hr Hx _. apply F2. destruct (Hf r Hr) as [_ Hd]. intros Hx'. apply (Hd x Hx). unfold inside. cbn [fst snd]. lia.
  - split_and!; [split; [done|unfold EFI_PAGE_SIZE; lia]|done|]. cbn [mc_mem].
    intros x Hx. unfold inside, EFI_PAGE_SIZE in Hx. cbn [fst snd] in Hx. apply store_bytes_at in E2.
    replace x with (a + Z.of_nat (Z.to_nat (x - a))) by lia. apply E2, lookup_replicate. split; [done|lia].
  - done.
  - exact O1.
  - intros Hh. by apply G1.
  - by apply Hzero.
Qed.

End LowPages.

(** ** The geometry check *)

Section Geometry.
Context {F : Type} (efi : efi_services F) (lent : F -> gset (Z * Z)) (cursor : F -> Z -> option Z)
  (content : list byte) {Hfw : Firmware efi lent cursor content} {Hnull : NullRefused efi lent}.

Let keeps := keeps lent.
Let holds_blocks := holds_blocks lent.

(** A buffer for the map that is none of the blocks of [R]; NULL at first. *)
Definition map_buffer (R : gset (Z * Z)) (p capacity : Z) (w : machine F) : Prop :=
  clear R p capacity /\ (p <> 0 -> forall r, r ∈ R -> r.1 <> p) /\ mapped (mc_mem w) p capacity.

Lemma no_buffer R w : map_buffer R 0 0 w.
Proof. split_and!; [apply clear_empty|done|intros x Hx; lia]. Qed.

Lemma runs_free_map R w p :
  holds_blocks R w -> (p <> 0 -> forall r, r ∈ R -> r.1 <> p) -> runs (call_FreePool efi p) w (fun _ w' => keeps R w w').
Proof using Hfw Hnull.
  intros HR Hp. destruct (Z.eq_dec p 0) as [->|Hne]; [|apply (runs_FreePool efi lent cursor content); [done|by apply Hp]].
  unfold runs, call_FreePool. destruct (FreePool _ _ _ _) as [[f m] st] eqn:E. do 2 eexists. split; [done|].
  destruct (fw_free_null _ _ _ _ _ E) as [Hu Hs]. unfold LoaderLaws.holds_blocks in HR. split; [cbn [mc_fw record_event]; by etrans|]. by eapply undisturbed_sub.
Qed.

(** After a failure nothing is promised. *)
Lemma runs_preflight_failure w p : runs (preflight_failure efi p) w (fun ok _ => ok = false).
Proof using Hfw Hnull.
  unfold preflight_failure. eapply runs_bind; [apply (runs_when lent ∅ w); [apply holds_nothing|intros _]|].
  - apply (runs_FreePool efi lent cursor content); [apply holds_nothing|set_solver].
  - intros [] w' K. by apply runs_ret.
Qed.

Lemma map_readable m p capacity size dsize :
  mapped m p capacity -> 0 <= size <= capacity -> 40 <= dsize ->
  exists ds, read_descriptors m p dsize (Z.to_nat (size / dsize)) = Some ds.
Proof.
  intros Hm Hs Hd. pose proof (Z.mul_div_le size dsize ltac:(lia)). pose proof (Z.div_pos size dsize ltac:(lia) ltac:(lia)).
  destruct (read_descriptors_total m dsize (Z.to_nat (size / dsize)) Hd p) as (ds & E & _); [|by exists ds].
  rewrite Z2Nat.id by lia. eapply mapped_sub; [exact Hm|lia|lia].
Qed.

Lemma runs_preflight R attempts : forall p capacity w,
  holds_blocks R w -> map_buffer R p capacity w ->
  runs (preflight_loop efi p capacity attempts) w (fun ok w' => ok = true -> keeps R w w').
Proof using Hfw Hnull.
  assert (forall p w0 w, runs (preflight_failure efi p) w (fun ok w' => ok = true -> keeps R w0 w')) as Hfail.
  { intros p w0 w. eapply runs_conseq; [apply runs_preflight_failure|]. by intros ok w' ->. }
  induction attempts as [|attempts IH]; intros p capacity w HR (Hf & Hp & Hm); cbn [preflight_loop]; [apply Hfail|].
  run (runs_GetMemoryMap efi lent cursor content R w p (MapArgs capacity 0 0 0)); [done|done|].
  intros [st a] w1 (K1 & _ & Hsize & Hdsize & Hok). cbn [map_size] in *. pose proof (keeps_holds _ _ _ _ HR K1) as HR1.
  destruct (st =? EFI_BUFFER_TOO_SMALL).
  - branch G1; [apply Hfail|]. branch G2; [apply Hfail|]. unfold SIZEOF_DESCRIPTOR in *. bool_to_prop.
    eapply runs_bind; [apply (runs_when lent R w1); [done|intros _; by apply runs_free_map]|]. cbn beta. intros [] w2 K2.
    pose proof (keeps_holds _ _ _ _ HR1 K2) as HR2.
    run (runs_AllocatePool efi lent cursor content R w2); [done|lia|]. intros [st2 p'] w3 (K3 & _ & Hgot).
    pose proof (keeps_holds _ _ _ _ HR2 K3) as HR3.
    assert (keeps R w w3) as K by (eapply keeps_trans; [exact K1|by eapply keeps_trans]).
    destruct (Z.eqb_spec st2 EFI_SUCCESS) as [E2|]; cbn [negb]; [|apply Hfail].
    destruct (Hgot E2) as (_ & Hf' & Hm' & _). eapply runs_conseq.
    + apply IH; [done|]. split_and!; [by apply fresh_clear|intros _ r Hr; by apply (Hf' r Hr)|done].
    + intros b w' K' Hb. eapply keeps_trans; [exact K|by apply K'].
  - branch G; [apply Hfail|]. rewrite !orb_false_iff in G. destruct G as [[G _] _].
    apply negb_false_iff, Z.eqb_eq in G. destruct (Hok G) as [Hle Hds]. unfold SIZEOF_DESCRIPTOR in Hds.
    destruct (map_readable (mc_mem w1) p capacity (map_size a) (descriptor_size a)) as [ds Hread];
      [by eapply keeps_mapped|lia|lia|].
    eapply runs_peek; [by eapply geometry_loop_spec|]. destruct (bool_decide _); [|apply Hfail].
    eapply runs_bind; [by apply runs_free_map|]. cbn beta. intros [] w2 K2. apply runs_ret. intros _. by eapply keeps_trans.
Qed.

End Geometry.

(** ** Leaving boot services *)

Section Exit.
Context {F : Type} (efi : efi_services F) (lent : F -> gset (Z * Z)) (cursor : F -> Z -> option Z)
  (content : list byte) {Hfw : Firmware efi lent cursor content}.

Let keeps := keeps lent.
Let holds_blocks := holds_blocks lent.

(** The final map lies in a block of its own. *)
Definition final_map (R : gset (Z * Z)) (res : bbp_uefi_exit_result) (w : machine F) : Prop :=
  let block := (r_memory_map res, r_memory_map_capacity res) in
  block ∈ lent (mc_fw w) /\ fresh R (r_memory_map res) (r_memory_map_capacity res) /\
  mapped (mc_mem w) (r_memory_map res) (r_memory_map_capacity res) /\ 0 < r_memory_map res /\
  0 <= r_memory_map_size res <= r_memory_map_capacity res /\ r_memory_map_capacity res <= SIZE_MAX.

Lemma runs_free_buffer R w p capacity :
  holds_blocks R w -> fresh R p capacity -> runs (call_FreePool efi p) w (fun _ w' => keeps R w w').
Proof using Hfw. intros HR Hf. apply (runs_FreePool efi lent cursor content); [done|]. intros r Hr. apply (Hf r Hr). Qed.

Lemma free_keeps R w p capacity :
  holds_blocks R (fw w) -> fresh R p capacity -> keeps R (fw w) (fw (call_free (exit_ops efi) w p)).
Proof.
  intros HR Hf. unfold call_free. cbn [fw free exit_ops]. unfold firmware_free. destruct (negb _).
  - destruct (runs_free_buffer R (fw w) p capacity HR Hf) as (w' & [] & E & K). unfold call_FreePool in E.
    destruct (FreePool _ _ _ _) as [[f m] st]. injection E as <-. done.
  - split; [exact HR|apply undisturbed_refl].
Qed.

Lemma map_keeps R w p a w' st a' :
  holds_blocks R (fw w) -> clear R p (map_size a) ->
  call_get_memory_map (exit_ops efi) w p a = (w', st, a') ->
  keeps R (fw w) (fw w') /\ (forall b, b ∈ lent (mc_fw (fw w)) -> b ∈ lent (mc_fw (fw w'))) /\
  0 <= map_size a' <= SIZE_MAX /\ 0 <= descriptor_size a' <= SIZE_MAX.
Proof.
  intros HR Hf E. destruct (runs_GetMemoryMap efi lent cursor content R (fw w) p a HR Hf) as (w1 & [st1 a1] & E1 & K & L & ? & ? & _).
  unfold call_GetMemoryMap in E1. unfold call_get_memory_map in E. cbn [get_memory_map exit_ops] in E. unfold firmware_get_map in E.
  destruct (GetMemoryMap _ _ _ _ _) as [[[f m] s] a2]. injection E1 as <- <- <-. injection E as <- <- <-. done.
Qed.

Lemma exit_keeps R w h key w' st :
  holds_blocks R (fw w) -> call_exit_boot_services (exit_ops efi) w h key = (w', st) ->
  keeps R (fw w) (fw w') /\ (forall b, b ∈ lent (mc_fw (fw w)) -> b ∈ lent (mc_fw (fw w'))).
Proof.
  intros HR E. unfold LoaderLaws.holds_blocks in HR. unfold call_exit_boot_services in E. cbn [exit_boot_services exit_ops] in E. unfold firmware_exit in E.
  destruct (ExitBootServices _ _ _ _ _) as [[f m] s] eqn:E1. injection E as <- _.
  destruct (fw_exit _ _ _ _ _ _ _ E1) as [Hu Hs]. cbn [fw record_event mc_fw mc_mem]. split; [|set_solver].
  split; [cbn; set_solver|]. cbn [mc_mem]. by eapply undisturbed_sub.
Qed.

Lemma allocate_keeps R w n w' p :
  holds_blocks R (fw w) -> 0 < n -> call_allocate (exit_ops efi) w n = (w', p) ->
  keeps R (fw w) (fw w') /\
  (p <> 0 -> (p, n) ∈ lent (mc_fw (fw w')) /\ fresh R p n /\ mapped (mc_mem (fw w')) p n /\ 0 < p).
Proof.
  intros HR Hn E. destruct (runs_AllocatePool efi lent cursor content R (fw w) EfiLoaderData n 0 HR Hn) as (w1 & [st1 p1] & E1 & K & _ & Hok).
  unfold call_AllocatePool in E1. unfold call_allocate in E. cbn [allocate exit_ops] in E. unfold firmware_allocate in E.
  destruct (AllocatePool _ _ _ _ _ _) as [[[f m] s] p2]. injection E1 as <- <- <-. injection E as <- <-.
  cbn [fw record_event mc_fw mc_mem] in *. split; [done|]. intros Hp.
  destruct (Z.eqb_spec s EFI_SUCCESS) as [Es|Es]; cbn [negb] in *; [by apply Hok|done].
Qed.

(** The block that holds the map while the loop runs. *)
Definition loop_block (R : gset (Z * Z)) (p capacity : Z) (w : machine F) : Prop :=
  (p, capacity) ∈ lent (mc_fw w) /\ fresh R p capacity /\ mapped (mc_mem w) p capacity /\ 0 < p /\
  0 <= capacity <= SIZE_MAX.

Lemma loop_block_kept R p capacity w w' :
  loop_block R p capacity w -> keeps R w w' -> (forall b, b ∈ lent (mc_fw w) -> b ∈ lent (mc_fw w')) ->
  loop_block R p capacity w'.
Proof. intros (Hin & ? & Hm & ? & ?) K L. split_and!; try done; try lia; [by apply L|by eapply keeps_mapped]. Qed.

Lemma capacity_asked a cap : 0 <= map_size a -> 0 <= descriptor_size a ->
  map_capacity (map_size a) (descriptor_size a) = Some cap -> 0 < cap <= SIZE_MAX.
Proof.
  intros Hs Hd E. pose proof (map_capacity_asks a) as Ha. rewrite E in Ha. destruct Ha as (? & ? & ? & ?). lia.
Qed.

Lemma exit_loop_keeps R h n : forall w p capacity a before,
  holds_blocks R (fw w) -> loop_block R p capacity (fw w) ->
  let out := exit_loop (exit_ops efi) w h p capacity a before n in
  keeps R (fw w) (fw out.2) /\ (out.1.1 = BBP_UEFI_EXIT_OK -> final_map R out.1.2 (fw out.2)).
Proof.
  induction n as [|n IH]; intros w p capacity a0 before HR Hblk; cbn [exit_loop]; cbn zeta.
  { split; [|done]. destruct Hblk as (_ & Hf & _). by eapply free_keeps. }
  pose proof Hblk as (_ & Hf & _).
  destruct (call_get_memory_map _ _ _ _) as [[w1 st] a] eqn:E1. apply (map_keeps R) in E1 as (K1 & L1 & Hs & Hd); [|done|by apply fresh_clear].
  pose proof (keeps_holds _ _ _ _ HR K1) as HR1. pose proof (loop_block_kept _ _ _ _ _ Hblk K1 L1) as Hblk1.
  assert (forall w2, keeps R (fw w1) (fw w2) -> holds_blocks R (fw w2) -> keeps R (fw w) (fw (call_free (exit_ops efi) w2 p))) as Hgive.
  { intros w2 K2 HR2. eapply keeps_trans; [exact K1|]. eapply keeps_trans; [exact K2|]. by eapply free_keeps. }
  assert (keeps R (fw w1) (fw w1)) as Kr by (split; [apply HR1|apply undisturbed_refl]).
  case_bool_decide.
  - destruct (map_capacity _ _) as [cap'|] eqn:Ec; [|split; [by apply Hgive|done]].
    apply capacity_asked in Ec; [|lia|lia]. pose proof (free_keeps R w1 p capacity HR1 Hf) as K2.
    set (w2 := call_free (exit_ops efi) w1 p) in *. pose proof (keeps_holds _ _ _ _ HR1 K2) as HR2.
    destruct (call_allocate _ _ _) as [w3 p'] eqn:E3. apply (allocate_keeps R) in E3 as (K3 & Hgot); [|done|lia].
    assert (keeps R (fw w) (fw w3)) as K by (eapply keeps_trans; [exact K1|]; by eapply keeps_trans).
    destruct (Z.eqb_spec p' 0) as [|Hp]; [split; [done|done]|]. destruct (Hgot Hp) as (? & ? & ? & ?).
    destruct (IH w3 p' cap' a before) as [K4 H4]; [by eapply keeps_holds|split_and!; try done; lia|].
    split; [by eapply keeps_trans|done].
  - destruct (_ || _ || _) eqn:G; [split; [by apply Hgive|done]|].
    rewrite !orb_false_iff in G. destruct G as [[_ G1] G2]. apply Z.eqb_neq in G1. apply Z.ltb_ge in G2.
    destruct (call_exit_boot_services _ _ _ _) as [w2 st2] eqn:E2. apply (exit_keeps R) in E2 as [K2 L2]; [|done].
    pose proof (keeps_holds _ _ _ _ HR1 K2) as HR2. pose proof (loop_block_kept _ _ _ _ _ Hblk1 K2 L2) as Hblk2.
    assert (keeps R (fw w) (fw w2)) as K by (by eapply keeps_trans).
    case_bool_decide; [|case_bool_decide; cbn [negb]].
    + split; [done|]. intros _. destruct Hblk2 as (? & ? & ? & ? & ?). cbn [fst snd]. unfold final_map.
      cbn [r_memory_map r_memory_map_capacity r_memory_map_size]. split_and!; try done; lia.
    + destruct (IH w2 p capacity a before HR2 Hblk2) as [K4 H4]. split; [by eapply keeps_trans|done].
    + split; [by apply Hgive|done].
Qed.

Lemma runs_exit R w image : holds_blocks R w ->
  runs (exit_firmware efi image) w (fun '(st, res) w' =>
    keeps R w w' /\ (st = BBP_UEFI_EXIT_OK -> final_map R res w')).
Proof.
  intros HR. unfold runs, exit_firmware, bbp_uefi_exit_boot_services.
  destruct (call_get_memory_map _ _ _ _) as [[w1 st] a] eqn:E1.
  apply (map_keeps R) in E1 as (K1 & L1 & Hs & Hd); [|done|apply clear_empty]. cbn [fw] in *.
  pose proof (keeps_holds _ _ _ _ HR K1) as HR1.
  case_bool_decide; cbn [negb]; [|do 2 eexists; split; [done|]; done].
  destruct (map_capacity _ _) as [cap|] eqn:Ec; [|do 2 eexists; split; [done|]; done].
  apply capacity_asked in Ec; [|lia|lia].
  destruct (call_allocate _ _ _) as [w2 p] eqn:E2. apply (allocate_keeps R) in E2 as (K2 & Hgot); [|done|lia].
  assert (keeps R w (fw w2)) as K by (by eapply keeps_trans).
  destruct (Z.eqb_spec p 0) as [|Hp]; [do 2 eexists; split; [done|]; done|]. destruct (Hgot Hp) as (? & ? & ? & ?).
  destruct (exit_loop_keeps R image BBP_UEFI_EXIT_MAX_ATTEMPTS w2 p cap a exit_result_zero) as [K3 Hfin];
    [by eapply keeps_holds|split_and!; try done; lia|].
  destruct (exit_loop _ _ _ _ _ _ _ _) as [[st1 res] w3]. cbn [fst snd] in *. do 2 eexists. split; [done|].
  split; [by eapply keeps_trans|done].
Qed.
End Exit.

(** ** On an obliging firmware *)

(** The probe, the buffer with its slack, and the overhead of the pool. *)
Definition MAP_COST : Z := MAP_LIMIT + 9 * EFI_PAGE_SIZE.

Section Obliged.
Context {F : Type} (efi : efi_services F) (lent : F -> gset (Z * Z)) (cursor : F -> Z -> option Z)
  (content : list byte) (s : supply F).
Context {Hfw : Firmware efi lent cursor content} {Hob : Obliging efi lent cursor content s}.

(** Probing, allocating and fetching: the second answer is the map. *)
Record fetched (f f3 : F) (m3 : mem) (a1 a3 : map_args) (capacity p : Z) : Prop := Fetched {
  ft_asked : map_capacity (map_size a1) (descriptor_size a1) = Some capacity /\ capacity = map_size a1 + descriptor_size a1 * 8;
  ft_unit : SIZEOF_DESCRIPTOR <= descriptor_size a1 <= EFI_PAGE_SIZE /\ 0 <= map_size a1 <= MAP_LIMIT;
  ft_block : 0 < p /\ (p, capacity) ∈ lent f3;
  ft_size : 0 < map_size a3 <= MAP_LIMIT /\ map_size a3 <= capacity /\ map_size a3 mod descriptor_size a3 = 0;
  ft_format : descriptor_version a3 = 1 /\ descriptor_size a3 = descriptor_size a1;
  ft_map : map_delivered m3 p (descriptor_size a3) (map_size a3);
  ft_serves : serves s MAP_COST f f3;
}.

Lemma serves_trans c1 c2 f1 f2 f3 : serves s c1 f1 f2 -> serves s c2 f2 f3 -> serves s (c1 + c2) f1 f3.
Proof. intros [H1 R1] [H2 R2]. split; [auto|lia]. Qed.

Lemma map_probed f m f1 m1 st1 a1 :
  GetMemoryMap efi f m 0 (MapArgs 0 0 0 0) = (f1, m1, st1, a1) ->
  st1 = EFI_BUFFER_TOO_SMALL /\ map_size a1 = map_bytes s f1 /\ descriptor_size a1 = map_unit s /\ serves s 0 f f1.
Proof using Hob.
  intros E. destruct (ob_map _ _ _ _ _ _ _ _ E) as (Hs & Hb & Hm & Hd & Hst); [intros x Hx; cbn in Hx; lia|].
  destruct (ob_map_bytes f) as [Hpos _]. cbn [map_size] in Hst. rewrite (proj2 (Z.ltb_lt 0 _)) in Hst by lia.
  rewrite Hb. auto.
Qed.

Lemma map_fetched f m f1 m1 st1 a1 f2 m2 st2 p f3 m3 st3 a3 k d v :
  let capacity := map_size a1 + descriptor_size a1 * 8 in
  MAP_COST <= room s f ->
  GetMemoryMap efi f m 0 (MapArgs 0 0 0 0) = (f1, m1, st1, a1) ->
  AllocatePool efi f1 m1 EfiLoaderData capacity 0 = (f2, m2, st2, p) ->
  GetMemoryMap efi f2 m2 p (MapArgs capacity k d v) = (f3, m3, st3, a3) ->
  st2 = EFI_SUCCESS /\ st3 = EFI_SUCCESS /\ fetched f f3 m3 a1 a3 capacity p.
Proof using Hfw Hob.
  intros capacity Hroom E1 E2 E3. destruct (map_probed _ _ _ _ _ _ E1) as (_ & Hs1 & Hd1 & Sv1).
  destruct (@ob_units _ efi lent cursor content s _) as [Hu _]. pose proof (ob_map_bytes f1) as [Hb1 _].
  unfold MAP_COST, MAP_LIMIT, EFI_PAGE_SIZE, SIZEOF_DESCRIPTOR in *.
  assert (0 < capacity /\ capacity + 4096 <= room s f1) as [Hc0 Hc1].
  { destruct Sv1 as [_ Hr1]. unfold capacity. lia. }
  destruct (ob_pool _ _ _ _ _ _ _ _ _ E2 Hc0 Hc1) as (-> & Sv2 & Hgrow).
  destruct (fw_pool _ _ _ _ _ _ _ _ _ E2) as (_ & _ & _ & Hgot). destruct (Hgot eq_refl Hc0) as (Hin & _ & Hmap & Hp0).
  destruct (ob_map _ _ _ _ _ _ _ _ E3 Hmap) as (Sv3 & Hb3 & Hs3 & Hd3 & Hst3). cbn [map_size] in Hst3.
  rewrite (proj2 (Z.ltb_ge capacity _)) in Hst3 by (unfold capacity; lia). destruct Hst3 as (-> & Hver & Hdel).
  destruct (fw_map _ _ _ _ _ _ _ _ E3) as (_ & Hl3 & _). split_and!; try done.
  assert (map_capacity (map_size a1) (descriptor_size a1) = Some capacity) as Hcap.
  { unfold map_capacity, BBP_UEFI_EXIT_DESCRIPTOR_SLACK, capacity. change SIZE_MAX with 0xFFFFFFFFFFFFFFFF.
    change (0xFFFFFFFFFFFFFFFF / 8) with 0x1FFFFFFFFFFFFFFF.
    rewrite (proj2 (Z.eqb_neq _ 0)), (proj2 (Z.ltb_ge _ (descriptor_size a1))) by lia. cbn [orb].
    by rewrite (proj2 (Z.ltb_ge _ (map_size a1))) by lia. }
  pose proof (ob_map_bytes f2) as [Hb2 Hmod2]. unfold MAP_LIMIT in Hb2.
  split; unfold MAP_COST, MAP_LIMIT, EFI_PAGE_SIZE, SIZEOF_DESCRIPTOR; rewrite ?Hs3, ?Hd3; try done; try lia.
  - split; [done|]. by apply Hl3.
  - assert (serves s (0 + (capacity + 4096) + 0) f f3) as [Hsp Hr] by (eapply serves_trans; [eapply serves_trans; [exact Sv1|exact Sv2]|exact Sv3]).
    split; [done|]. unfold capacity in Hr. lia.
Qed.

(** The geometry check passes. *)
Lemma preflight_passes S c w : 0 <= c -> offers s true S (c + MAP_COST) w ->
  runs (preflight_memory_geometry efi) w (fun ok w' => ok = true /\ offers s true S c w').
Proof using Hfw Hob.
  intros Hc Ho. assert (MAP_COST <= room s (mc_fw w)) as Hroom by (destruct (Ho eq_refl); lia). 
  destruct (GetMemoryMap efi (mc_fw w) (mc_mem w) 0 (MapArgs 0 0 0 0)) as [[[f1 m1] st1] a1] eqn:E1.
  destruct (AllocatePool efi f1 m1 EfiLoaderData (map_size a1 + descriptor_size a1 * 8) 0) as [[[f2 m2] st2] p] eqn:E2.
  destruct (GetMemoryMap efi f2 m2 p (MapArgs (map_size a1 + descriptor_size a1 * 8) 0 0 0)) as [[[f3 m3] st3] a3] eqn:E3.
  destruct (map_probed _ _ _ _ _ _ E1) as (-> & _ & _ & _).
  destruct (map_fetched _ _ _ _ _ _ _ _ _ _ _ _ _ _ _ _ _ Hroom E1 E2 E3) as (-> & -> & Hf).
  destruct Hf as [_ [Hu Hm1] _ (Hm3 & _ & Hmod) [_ Hd] (ds & Hread & Hds) Hsv].
  unfold MAP_LIMIT, EFI_PAGE_SIZE, SIZEOF_DESCRIPTOR in Hu, Hm1, Hm3. unfold preflight_memory_geometry. cbn [preflight_loop].
  eapply runs_eq; [unfold call_GetMemoryMap; by rewrite E1|]. rewrite Z.eqb_refl. unfold SIZEOF_DESCRIPTOR.
  change (SIZE_MAX / 8) with 0x1FFFFFFFFFFFFFFF. change SIZE_MAX with 0xFFFFFFFFFFFFFFFF.
  rewrite (proj2 (Z.ltb_ge (descriptor_size a1) 40)), (proj2 (Z.ltb_ge _ (descriptor_size a1))) by lia. cbn [orb].
  rewrite (proj2 (Z.ltb_ge _ (map_size a1))) by lia. eapply runs_eq; [done|].
  eapply runs_eq; [unfold call_AllocatePool; cbn [mc_fw mc_mem record_event]; by rewrite E2|]. rewrite Z.eqb_refl. cbn [negb].
  eapply runs_eq; [unfold call_GetMemoryMap; cbn [mc_fw mc_mem record_event]; by rewrite E3|].
  cbn beta iota. change (EFI_SUCCESS =? EFI_BUFFER_TOO_SMALL) with false. rewrite Z.eqb_refl, Hmod, (proj2 (Z.eqb_neq (descriptor_size a3) 0)) by lia. cbn [negb orb Z.eqb].
  eapply runs_peek; [by apply geometry_loop_spec|]. rewrite bool_decide_eq_true_2 by done.
  eapply runs_bind; [apply (grants_free efi lent cursor content s true (fun _ => Hob) S c)|intros [] w' O; by apply runs_ret].
  eapply serves_offers; [|exact Ho]. done.
Qed.

(** Boot services are left at the first attempt, with a map to hand over. *)
Lemma exit_passes S c w image : 0 <= c -> offers s true S (c + MAP_COST) w ->
  runs (exit_firmware efi image) w (fun '(st, res) w' =>
    st = BBP_UEFI_EXIT_OK /\ exists ds, map_accepted (mc_mem w') res ds).
Proof using Hfw Hob.
  intros Hc Ho. assert (MAP_COST <= room s (mc_fw w)) as Hroom by (destruct (Ho eq_refl); lia).
  destruct (GetMemoryMap efi (mc_fw w) (mc_mem w) 0 (MapArgs 0 0 0 0)) as [[[f1 m1] st1] a1] eqn:E1.
  destruct (AllocatePool efi f1 m1 EfiLoaderData (map_size a1 + descriptor_size a1 * 8) 0) as [[[f2 m2] st2] p] eqn:E2.
  destruct (GetMemoryMap efi f2 m2 p (MapArgs (map_size a1 + descriptor_size a1 * 8) (map_key a1) (descriptor_size a1)
    (descriptor_version a1))) as [[[f3 m3] st3] a3] eqn:E3.
  destruct (map_probed _ _ _ _ _ _ E1) as (-> & _ & _ & _).
  destruct (map_fetched _ _ _ _ _ _ _ _ _ _ _ _ _ _ _ _ _ Hroom E1 E2 E3) as (-> & -> & Hf).
  destruct Hf as [[Hcap Ecap] [Hu Hm1] [Hp Hin] (Hm3 & Hle & Hmod) [Hver Hd] (ds & Hread & Hds) _].
  destruct (ExitBootServices efi f3 m3 image (map_key a3)) as [[f4 m4] st4] eqn:E4.
  pose proof (ob_exit _ _ _ _ _ _ _ _ _ _ _ _ E3 E4) as ->. destruct (fw_exit _ _ _ _ _ _ _ E4) as [[_ Hkeep] _].
  unfold runs, exit_firmware, bbp_uefi_exit_boot_services. assert (exists n, BBP_UEFI_EXIT_MAX_ATTEMPTS = Datatypes.S n) as [n ->] by (by eexists).
  unfold call_get_memory_map at 1. cbn [fw get_memory_map exit_ops]. unfold firmware_get_map at 1. rewrite E1.
  change (firmware_status_of EFI_BUFFER_TOO_SMALL) with BBP_UEFI_FIRMWARE_BUFFER_TOO_SMALL. rewrite bool_decide_eq_true_2 by done. cbn [negb].
  rewrite Hcap. unfold call_allocate at 1. cbn [fw allocate exit_ops]. unfold firmware_allocate at 1. cbn [mc_fw mc_mem record_event].
  rewrite E2, Z.eqb_refl. cbn [negb]. rewrite (proj2 (Z.eqb_neq p 0)) by lia. cbn [exit_loop].
  unfold call_get_memory_map at 1. cbn [fw get_memory_map exit_ops]. unfold firmware_get_map at 1. cbn [mc_fw mc_mem record_event]. rewrite E3.
  change (firmware_status_of EFI_SUCCESS) with BBP_UEFI_FIRMWARE_SUCCESS. rewrite bool_decide_eq_false_2 by done.
  rewrite (bool_decide_eq_true_2 (BBP_UEFI_FIRMWARE_SUCCESS = _)) by done. cbn [negb orb].
  unfold MAP_LIMIT, EFI_PAGE_SIZE, SIZEOF_DESCRIPTOR in Hu, Hm1, Hm3.
  rewrite (proj2 (Z.eqb_neq (descriptor_size a3) 0)), (proj2 (Z.ltb_ge _ (map_size a3))) by lia. cbn [orb].
  unfold call_exit_boot_services at 1. cbn [fw exit_boot_services exit_ops]. unfold firmware_exit at 1. cbn [mc_fw mc_mem record_event].
  rewrite E4, Z.eqb_refl, bool_decide_eq_true_2 by done. do 2 eexists. split; [done|]. split; [done|]. cbn [fw mc_mem record_event].
  exists ds. split; cbn [r_memory_map_final r_descriptor_version r_descriptor_size r_memory_map_size r_memory_map]; try done.
  - split; [done|unfold SIZEOF_DESCRIPTOR; lia].
  - split; [lia|done].
  - rewrite <- Hread. apply read_descriptors_same; [lia|]. intros x Hx. apply (Hkeep _ x Hin); [|unfold inside, nowhere; cbn [fst snd]; lia].
    unfold inside. cbn [fst snd]. pose proof (Z.mul_div_le (map_size a3) (descriptor_size a3) ltac:(lia)).
    rewrite Z2Nat.id in Hx by (apply Z.div_pos; lia). lia.
  - apply read_descriptors_length in Hread. unfold MAX_DESCRIPTORS, zlen. rewrite Hread, Z2Nat.id by (apply Z.div_pos; lia).
    etrans; [apply Z.div_le_compat_l with (q := 40); lia|]. apply Z.div_le_upper_bound; lia.
Qed.
End Obliged.
