(* ===== verification/LoaderKernel.v ===== *)
(** * The kernel in memory

    The bytes of the loaded segments are a function of the file, so what the
    loader found out about the header is true of every memory that holds them. *)

From stdpp Require Import strings gmap.
From S2P Require Import Prelude Memory Crc64 Abi KernelParser KernelFacts ElfPlan Paging Loader LoaderFind LoaderLaws LoaderSegments.

(** ** Reading the same bytes *)

Lemma unique_header_same m m' cs :
  (forall c, In c cs -> c <> 0 /\ same_on m m' c SIZEOF_HEADER /\ mapped m c SIZEOF_HEADER) ->
  unique_header m' cs = unique_header m cs.
Proof.
  intros Hcs. assert (forall c, In c cs -> has_magic m' c = has_magic m c /\ verified m' c = verified m c) as Hall.
  { intros c Hc. destruct (Hcs c Hc) as (Hne & Hsame & Hm). unfold SIZEOF_HEADER in *. unfold has_magic, verified.
    rewrite (load_bytes_same_on m m' c 16); [|intros x Hx; apply Hsame; lia]. split; [done|].
    destruct (mapped_load m c 160) as [bs Hbs]; [done|].
    rewrite (bbp_verify_header_spec m c bs), (bbp_verify_header_spec m' c bs); [done|lia| |lia|done].
    rewrite <- Hbs. by apply load_bytes_same_on. }
  unfold unique_header. assert (List.filter (has_magic m') cs = List.filter (has_magic m) cs) as ->.
  { apply filter_ext_in. intros c Hc. by apply Hall. }
  destruct (List.filter (has_magic m) cs) as [|h [|]] eqn:E; try done.
  destruct (Hall h) as [_ ->]; [|done]. assert (In h [h]) as Hin by (by left). rewrite <- E in Hin. by apply filter_In in Hin as [? _].
Qed.

Lemma read_requests_same m m' n : forall p,
  same_on m m' p (24 * Z.of_nat n) -> read_requests m' p n = read_requests m p n.
Proof.
  induction n as [|n IH]; intros p Hs; cbn [read_requests]; [done|]. unfold read_request, load64.
  rewrite IH, !(load_le_same_on m m') by (intros x Hx; apply Hs; lia). done.
Qed.

Lemma contract_same_on m m' header plan : same_on m m' header SIZEOF_HEADER ->
  (forall p n, 0 <= n -> physical_range_loaded plan p n = true -> same_on m m' p n) ->
  header_contract m header plan -> header_contract m' header plan.
Proof.
  intros Hs Hp Hc. unfold SIZEOF_HEADER in Hs.
  assert (forall o k, 0 <= o -> o + Z.of_nat k <= 160 -> load_le m' (header + o) k = load_le m (header + o) k) as Hl.
  { intros o k ? ?. apply load_le_same_on. intros x Hx. apply Hs. lia. }
  destruct Hc as [H1 H2 H3 H4 H5 (n & p & rs & Hn & ? & Hpp & Hr & Hrs & ?)]. unfold load64, load32 in *.
  constructor; unfold load64, load32; rewrite ?Hl by lia; try done.
  exists n, p, rs. split_and!; try done; try lia. rewrite <- Hrs. apply read_requests_same.
  rewrite Z2Nat.id, Z.mul_comm by lia. apply Hp; [lia|done].
Qed.

Section Kernel.
Context (content : list byte).

(** Every segment with pages lies below 4 GiB and holds its image. *)
Definition kernel_at (m : mem) (segs : list bbp_elf64_segment_plan) : Prop :=
  Forall (fun s => s_page_count s <> 0 ->
    0 < s_page_base s /\ page_end_of s <= BBP_IDENTITY_LIMIT /\
    bytes_at m (s_page_base s) (segment_image content s)) segs.

(** The blocks of the segments. *)
Definition kernel_blocks (segs : list bbp_elf64_segment_plan) : gset (Z * Z) :=
  list_to_set (map segment_block (List.filter (fun s => negb (s_page_count s =? 0)) segs)).

Lemma kernel_blocks_elem segs r : r ∈ kernel_blocks segs <->
  exists s, In s segs /\ s_page_count s <> 0 /\ r = segment_block s.
Proof.
  unfold kernel_blocks. rewrite elem_of_list_to_set, list_elem_of_In, in_map_iff. split.
  - intros (s & <- & Hs). apply filter_In in Hs as [Hs Hc]. exists s. split_and!; [done|by bool_to_prop|done].
  - intros (s & Hs & Hc & ->). exists s. split; [done|]. apply filter_In. split; [done|]. by apply negb_true_iff, Z.eqb_neq.
Qed.

Section Segments.
Context (segs : list bbp_elf64_segment_plan) (Hok : Forall (segment_ok (zlen content)) segs).

(** A part of a segment with pages. *)
Definition segment_part (a n : Z) : Prop :=
  exists s, In s segs /\ s_page_count s <> 0 /\ s_page_base s <= a /\ a + n <= page_end_of s.

Lemma part_sub a n b k : segment_part a n -> a <= b -> b + k <= a + n -> segment_part b k.
Proof. intros (s & ? & ? & ? & ?) ? ?. exists s. split_and!; [done|done|lia|lia]. Qed.

Lemma segment_block_end s : In s segs -> s_page_count s <> 0 ->
  zlen (segment_image content s) = page_end_of s - s_page_base s.
Proof using Hok.
  intros Hs Hc. rewrite List.Forall_forall in Hok. rewrite zlen_segment_image by auto.
  destruct (segment_sizes content s (Hok s Hs) Hc) as (? & ? & ? & ? & ? & ? & ? & ? & Hend & ?). unfold EFI_PAGE_SIZE. lia.
Qed.

Lemma part_image m a n : kernel_at m segs -> segment_part a n ->
  exists s, In s segs /\ bytes_at m (s_page_base s) (segment_image content s) /\
    s_page_base s <= a /\ a + n <= s_page_base s + zlen (segment_image content s) /\ 0 < s_page_base s.
Proof using Hok.
  intros Hk (s & Hs & Hc & ? & ?). unfold kernel_at in Hk. rewrite List.Forall_forall in Hk.
  destruct (Hk s Hs Hc) as (? & ? & ?). exists s. rewrite segment_block_end by done. split_and!; try done; lia.
Qed.

Lemma part_mapped m a n : kernel_at m segs -> segment_part a n -> mapped m a n.
Proof using Hok.
  intros Hk Hp. destruct (part_image m a n Hk Hp) as (s & _ & Hat & ? & ? & _).
  eapply mapped_sub; [by apply bytes_at_mapped|lia|lia].
Qed.

Lemma part_same m m' a n : kernel_at m segs -> kernel_at m' segs -> segment_part a n -> same_on m m' a n.
Proof using Hok.
  intros Hk Hk' (s & Hs & Hc & ? & ?) x Hx. pose proof (segment_block_end s Hs Hc) as Hz.
  unfold kernel_at in Hk, Hk'. rewrite List.Forall_forall in Hk, Hk'.
  destruct (Hk s Hs Hc) as (_ & _ & Hat), (Hk' s Hs Hc) as (_ & _ & Hat').
  destruct (lookup_lt_is_Some_2 (segment_image content s) (Z.to_nat (x - s_page_base s))) as [b Hb]; [unfold zlen in Hz; lia|].
  apply Hat in Hb as E. apply Hat' in Hb as E'. replace (s_page_base s + Z.of_nat (Z.to_nat (x - s_page_base s))) with x in * by lia.
  by rewrite E, E'.
Qed.

Lemma kernel_kept m m' : kernel_at m segs -> (forall r, r ∈ kernel_blocks segs -> same_on m m' r.1 r.2) -> kernel_at m' segs.
Proof using Hok.
  intros Hk Hsame. unfold kernel_at in *. rewrite List.Forall_forall in Hk |- *. intros s Hs Hc.
  destruct (Hk s Hs Hc) as (? & ? & Hat). split_and!; try done. eapply bytes_at_same_on; [|exact Hat].
  rewrite List.Forall_forall in Hok. rewrite zlen_segment_image by auto.
  apply (Hsame (segment_block s)). apply kernel_blocks_elem. by exists s.
Qed.

(** ** What the loader reads *)

Lemma file_part s : In s segs -> 0 < s_file_size s -> segment_part (s_physical_address s) (s_file_size s).
Proof using Hok.
  intros Hs Hf. rewrite List.Forall_forall in Hok. pose proof (Hok s Hs) as [[? ?] _ _ _ _ _ _ [Hz Hp] _].
  assert (s_page_count s <> 0) as Hc by (destruct (Hp ltac:(lia)); lia).
  destruct (segment_sizes content s (Hok s Hs) Hc) as (? & ? & ? & ? & ? & ? & ? & ? & ? & ?).
  exists s. split_and!; [done|done|lia|lia].
Qed.

Lemma kernel_files_mapped m : kernel_at m segs -> files_mapped m segs.
Proof using Hok.
  intros Hk. unfold files_mapped. apply List.Forall_forall. intros s Hs Hf. unfold SIZEOF_HEADER in Hf.
  pose proof (file_part s Hs ltac:(lia)) as Hp. split; [|by apply part_mapped].
  destruct (part_image m _ _ Hk Hp) as (t & _ & _ & ? & _ & ?). lia.
Qed.

Lemma candidate_part c : In c (header_candidates segs) -> segment_part c SIZEOF_HEADER.
Proof using Hok.
  intros Hc. destruct (candidate_of _ _ Hc) as (s & Hs & Hf & ? & ?). unfold SIZEOF_HEADER in *.
  eapply part_sub; [apply (file_part s Hs); lia|lia|lia].
Qed.

Lemma header_same m m' : kernel_at m segs -> kernel_at m' segs ->
  unique_header m' (header_candidates segs) = unique_header m (header_candidates segs).
Proof using Hok.
  intros Hk Hk'. apply unique_header_same. intros c Hc. pose proof (candidate_part c Hc) as Hp.
  destruct (part_image m _ _ Hk Hp) as (g & _ & _ & ? & _ & ?). split_and!; [lia|by apply part_same|by apply part_mapped].
Qed.
End Segments.

Lemma range_part plan a n : Forall (segment_ok (zlen content)) (planned plan) ->
  physical_range_loaded plan a n = true -> 0 <= n -> segment_part (planned plan) a n.
Proof.
  intros Hok H Hn. unfold physical_range_loaded in H. destruct (_ || _) eqn:G; [done|]. bool_to_prop.
  apply range_loaded_spec in H as (s & Hs & ? & ?).
  - rewrite List.Forall_forall in Hok. pose proof (Hok s Hs) as [? _ _ _ _ _ _ [_ Hp] _].
    assert (s_page_count s <> 0) as Hc by (destruct Hp; lia).
    destruct (segment_sizes content s (Hok s Hs) Hc) as (? & ? & ? & ? & ? & ? & ? & ? & ? & ?). exists s. split_and!; [done|done|lia|lia].
  - eapply Forall_impl; [exact Hok|]. intros s [? _ _ _ _ [? ?] _ _ (_ & _ & ? & _)]. unfold ELF64_PHYSICAL_LIMIT in *. lia.
Qed.

Lemma contract_same m m' header plan : Forall (segment_ok (zlen content)) (planned plan) ->
  kernel_at m (planned plan) -> kernel_at m' (planned plan) -> segment_part (planned plan) header SIZEOF_HEADER ->
  header_contract m header plan -> header_contract m' header plan.
Proof.
  intros Hok Hk Hk' Hh. apply contract_same_on; [by apply (part_same _ Hok m m')|].
  intros p n Hn Hr. apply (part_same _ Hok m m' _ _ Hk Hk'). by apply range_part.
Qed.
End Kernel.
