(* ===== verification/LoaderBoot.v ===== *)
(** * From power-on to the kernel

    The loader as a whole: on a firmware that keeps the laws it always ends, and
    when it jumps the machine is the one the protocol promises the kernel; if the
    firmware grants what is asked, only the file can keep it from jumping. *)

From stdpp Require Import strings gmap.
From S2P Require Import Prelude Memory Crc64 Abi KernelParser Builder ElfPlan UefiExit Paging PagingTables PagingMap PagingProps Loader LoaderMain LoaderMap LoaderHandoff LoaderFind LoaderLaws LoaderGrants LoaderRead LoaderSegments LoaderServices LoaderKernel.

(** ** The memory of the kernel *)

Definition apart (r s : Z * Z) : Prop := forall x, inside r x -> ~ inside s x.

Definition arena_block (a : Z) : Z * Z := (a, BBP_ARENA_PAGES * EFI_PAGE_SIZE).
Definition stack_block (a : Z) : Z * Z := (a, BBP_STACK_PAGES * EFI_PAGE_SIZE).
Definition tables_block (a : Z) : Z * Z := (a, BBP_PAGE_TABLE_PAGES * EFI_PAGE_SIZE).

(** The arena, the stack and the page tables lie below 4 GiB, apart from each
    other and from the kernel. *)
Record layout (arena stack tables : Z) (segs : list bbp_elf64_segment_plan) : Prop := Layout {
  ly_low : page_range arena BBP_ARENA_PAGES /\ page_range stack BBP_STACK_PAGES /\ page_range tables BBP_PAGE_TABLE_PAGES;
  ly_apart : ForallOrdPairs apart [arena_block arena; stack_block stack; tables_block tables];
  ly_kernel : forall r, r ∈ kernel_blocks segs ->
    Forall (apart r) [arena_block arena; stack_block stack; tables_block tables];
}.

Definition handoff_blocks (arena stack tables : Z) (segs : list bbp_elf64_segment_plan) : gset (Z * Z) :=
  kernel_blocks segs ∪ {[arena_block arena]} ∪ {[stack_block stack]} ∪ {[tables_block tables]}.

Lemma fresh_apart R a n r : fresh R a n -> r ∈ R -> apart r (a, n).
Proof. intros H Hr x Hx. by apply (H r Hr). Qed.

Lemma apart_flip r s : apart r s -> apart s r.
Proof. intros H x Hx Hx'. by apply (H x). Qed.

Lemma frame_same a n m m' r : frame a n m m' -> apart r (a, n) -> same_on m m' r.1 r.2.
Proof. intros [_ F] Ha x Hx. apply F. intros Hx'. by apply (Ha x). Qed.

(** The mask of the stack pointer keeps a page address. *)
Lemma stack_pointer a : page_range a BBP_STACK_PAGES ->
  Z.land (wrap64 (a + BBP_STACK_PAGES * EFI_PAGE_SIZE)) (wrap64 (Z.lnot 15)) = a + BBP_STACK_PAGES * EFI_PAGE_SIZE.
Proof.
  intros [Hal [H0 H1]]. unfold BBP_STACK_PAGES, EFI_PAGE_SIZE, BBP_IDENTITY_LIMIT in *.
  rewrite (wrap_small 64 (a + _)) by (unfold in_word; lia). change 15 with (2 ^ 4 - 1). rewrite land_wrap_lnot by (unfold in_word; lia).
  replace ((a + 16 * 4096) mod 2 ^ 4) with 0; [lia|]. apply Z.mod_divide in Hal as [k ->]; [|lia].
  replace (k * 4096 + 16 * 4096) with ((k * 256 + 4096) * 2 ^ 4) by lia. by rewrite Z.mod_mul.
Qed.

(** Two steps known as one. *)
Lemma runs_pair {F A B C} (c : loader F A) (d : A -> loader F B) (k : A -> B -> loader F C) w w' a b Q :
  (a ← c; b ← d a; mret (a, b)) w = Some (w', (a, b)) ->
  runs (k a b) w' Q -> runs (a ← c; b ← d a; k a b) w Q.
Proof.
  unfold runs, mbind, loader_bind, mret, loader_ret. destruct (c w) as [[w1 a1]|]; [|done].
  destruct (d a1 w1) as [[w2 b1]|]; [|done]. by intros [= -> -> ->].
Qed.

(** The header the loader goes on with. *)
Definition good_header (m : mem) (plan : bbp_elf64_plan) (header : Z) : Prop :=
  header <> 0 /\ unique_header m (header_candidates (planned plan)) = header /\ header_contract m header plan.

Section Boot.
Context {F : Type} (efi : efi_services F) (lent : F -> gset (Z * Z)) (cursor : F -> Z -> option Z)
  (content : list byte) {Hfw : Firmware efi lent cursor content} {Hnull : NullRefused efi lent}.
Context (s : supply F) (happy : bool) (Hob : happy = true -> Obliging efi lent cursor content s).

Let keeps := keeps lent.
Let holds_blocks := holds_blocks lent.
Let offers := offers s happy.

(** ** The promise *)

(** Boot services were left with the map [res], and no service ran since. *)
Definition left_firmware (image : Z) (w w' : machine F) (res : bbp_uefi_exit_result) : Prop :=
  exists w1, exit_firmware efi image w1 = Some (w, (BBP_UEFI_EXIT_OK, res)) /\ mc_fw w' = mc_fw w.

(** The plan the loader makes of the file, wherever it is. *)
Definition plan_of_file (plan : bbp_elf64_plan) : Prop :=
  exists m a, bytes_at m a content /\ plan_sound m a (zlen content) plan /\
    bbp_elf64_plan_fn m a (zlen content) (Some local_plan) = Some (BBP_ELF64_OK, Some plan).

(** What the kernel's file can be blamed for. *)
Inductive blamed : string -> Prop :=
  | blamed_plan m a status plan :
      a <> 0 -> bytes_at m a content -> bbp_elf64_plan_fn m a (zlen content) (Some local_plan) = Some (status, plan) ->
      status <> BBP_ELF64_OK -> blamed "ELF64 plan"
  | blamed_header plan :
      plan_of_file plan ->
      (forall m header, kernel_at content m (planned plan) -> ~ good_header m plan header) -> blamed "Bear Header"
  | blamed_tables plan m header flags :
      plan_of_file plan -> kernel_at content m (planned plan) -> good_header m plan header ->
      load64 m (header + 24) = Some flags ->
      ~ placeable (bool_decide (flags = BBP_HF_UNMAP_NULL_PAGE)) BBP_PAGE_TABLE_PAGES (planned plan) ->
      blamed "page tables".

(** Why the loader returns. *)
Inductive refused : string -> Prop :=
  | refused_by_file reason : blamed reason -> refused reason
  | refused_by_firmware reason :
      In reason ["system table"; "open \kernel.elf"; "PT_LOAD allocation"; "EFI image above identity map";
        "handoff allocations"; "memory geometry exceeds 4 GiB contract"; "ExitBootServices"] -> refused reason
  | refused_page_zero : gives_page_zero efi -> refused "page tables".

(** The machine at the jump. *)
Record booted (image : Z) (plan : bbp_elf64_plan) (header : Z) (w : machine F) (cr3 rsp rdi rip : Z) : Prop := Booted {
  bt_plan : plan_of_file plan;
  bt_entry : rip = pl_entry plan;
  bt_kernel : kernel_at content (mc_mem w) (planned plan);
  bt_header : good_header (mc_mem w) plan header;
  bt_layout : layout rdi (rsp - BBP_STACK_PAGES * EFI_PAGE_SIZE) cr3 (planned plan) /\ rdi <> 0 /\ cr3 <> 0;
  bt_stack : forall x, rsp - BBP_STACK_PAGES * EFI_PAGE_SIZE <= x < rsp -> mc_mem w !! x = Some x00;
  bt_space : forall flags, load64 (mc_mem w) (header + 24) = Some flags ->
    forall a, walk (mc_mem w) cr3 a =
      Some (boot_address_space false (bool_decide (flags = BBP_HF_UNMAP_NULL_PAGE)) (planned plan) a);
  bt_handoff : exists w0 res ds, left_firmware image w0 w res /\ map_accepted (mc_mem w0) res ds /\
    handoff_delivered (mc_mem w) rdi plan (actual_virtual_base (pl_physical_base plan) (planned plan)) ds;
}.

Definition ended (image : Z) (out : outcome) (w : machine F) : Prop :=
  match out with
  | Failed_with reason => refused reason
  | Halted_with _ => exists w0 res, left_firmware image w0 w res /\
      (gives_page_zero efi \/ forall ds, ~ map_accepted (mc_mem w0) res ds)
  | Jumped cr3 rsp rdi rip => exists plan header, booted image plan header w cr3 rsp rdi rip
  end.

(** The loader jumps unless the file is to blame. *)
Definition decided_by_file (out : outcome) : Prop :=
  match out with
  | Failed_with reason => blamed reason
  | Halted_with _ => False
  | Jumped _ _ _ _ => True
  end.

(** An end, as the file decides it if the firmware is obliging. *)
Definition settled (image : Z) (out : outcome) (w : machine F) : Prop :=
  ended image out w /\ (happy = true -> decided_by_file out).

(** ** Giving up *)

Lemma runs_drop w (c : bool) a n : runs (when_do c (call_FreePages efi a n)) w (fun _ _ => True).
Proof using Hfw Hnull Hob.
  eapply runs_conseq; [apply (runs_when lent ∅ w); [apply holds_nothing|intros _]|done].
  apply (runs_FreePages efi lent cursor content); [apply holds_nothing|set_solver].
Qed.

Lemma runs_cleanup image t g a loaded file reason w :
  refused reason -> (happy = true -> blamed reason) ->
  runs (cleanup efi t g a loaded file reason) w (settled image).
Proof using Hfw Hnull Hob.
  intros Hwhy Hfile. unfold cleanup. do 3 (eapply runs_bind; [apply runs_drop|intros [] ? _]).
  eapply (runs_bind _ _ _ _ (fun _ _ => True)).
  { destruct loaded; [eapply (runs_release efi lent cursor content)|by apply runs_ret]. }
  intros [] w4 _. eapply runs_bind; [eapply (runs_when lent ∅ w4); [apply holds_nothing|intros _]|].
  - apply (runs_FreePool efi lent cursor content); [apply holds_nothing|set_solver].
  - intros [] w5 _. by apply runs_ret.
Qed.

(** The file's fault. *)
Lemma runs_blame image t g a loaded file reason w :
  blamed reason -> runs (cleanup efi t g a loaded file reason) w (settled image).
Proof using Hfw Hnull Hob. intros H. apply runs_cleanup; [by apply refused_by_file|done]. Qed.

(** Not the file's fault, and excluded on an obliging firmware. *)
Ltac blame_firmware := apply runs_cleanup; [apply refused_by_firmware; cbn; tauto|intros Hyes; exfalso].

(** ** Leaving *)

(** The machine before the exit. *)
Record prepared (plan : bbp_elf64_plan) (header arena stack tables : Z) (w : machine F) : Prop := Prepared {
  pr_plan : plan_of_file plan;
  pr_kernel : kernel_at content (mc_mem w) (planned plan);
  pr_header : good_header (mc_mem w) plan header;
  pr_layout : layout arena stack tables (planned plan);
  pr_blocks : holds_blocks (handoff_blocks arena stack tables (planned plan)) w;
  pr_arena : mapped (mc_mem w) arena (BBP_ARENA_PAGES * EFI_PAGE_SIZE);
  pr_stack : forall x, inside (stack_block stack) x -> mc_mem w !! x = Some x00;
}.

Definition tables_ready (plan : bbp_elf64_plan) (header tables : Z) (w : machine F) : Prop :=
  forall m2, same_on (mc_mem w) m2 tables (BBP_PAGE_TABLE_PAGES * EFI_PAGE_SIZE) ->
  forall flags, load64 (mc_mem w) (header + 24) = Some flags ->
  forall a, walk m2 tables a =
    Some (boot_address_space false (bool_decide (flags = BBP_HF_UNMAP_NULL_PAGE)) (planned plan) a).

Lemma plan_segments plan : plan_of_file plan ->
  Forall (segment_ok (zlen content)) (planned plan).
Proof. intros (m & a & _ & (_ & Hs & _) & _). by apply ss_each in Hs. Qed.

(** What the kernel finds in its own memory depends on the file only. *)
Lemma header_moves plan header m m' :
  Forall (segment_ok (zlen content)) (planned plan) -> kernel_at content m (planned plan) ->
  kernel_at content m' (planned plan) -> good_header m plan header ->
  good_header m' plan header /\ load64 m' (header + 24) = load64 m (header + 24).
Proof.
  intros Hok Hk Hk' (H0 & Hu & Hc).
  destruct (unique_header_found m (header_candidates (planned plan))) as [Hin _]; [by rewrite Hu|]. rewrite Hu in Hin.
  pose proof (candidate_part content _ Hok header Hin) as Hp. split.
  - split_and!; [done|by rewrite (header_same content _ Hok m m')|by apply (contract_same content m m')].
  - apply load_le_same_on. apply (part_same content _ Hok m m' _ _ Hk Hk'). unfold SIZEOF_HEADER in Hp.
    eapply part_sub; [exact Hp|lia|lia].
Qed.

Lemma header_kept plan header m m' :
  Forall (segment_ok (zlen content)) (planned plan) -> kernel_at content m (planned plan) ->
  (forall r, r ∈ kernel_blocks (planned plan) -> same_on m m' r.1 r.2) -> good_header m plan header ->
  kernel_at content m' (planned plan) /\ good_header m' plan header /\
  load64 m' (header + 24) = load64 m (header + 24).
Proof.
  intros Hok Hk Hsame Hh. pose proof (kernel_kept content _ Hok m m' Hk Hsame) as Hk'. split; [done|].
  by apply header_moves.
Qed.

Lemma keeps_block R w w' r : keeps R w w' -> r ∈ R -> same_on (mc_mem w) (mc_mem w') r.1 r.2.
Proof. intros K Hr. destruct r as [a n]. apply (keeps_same lent R w w' _ _ a n); [done|done|cbn; lia|cbn; lia]. Qed.

Lemma runs_hand_over image plan header arena stack tables w :
  prepared plan header arena stack tables w -> tables_ready plan header tables w -> tables <> 0 ->
  (arena = 0 -> gives_page_zero efi) -> (happy = true -> arena <> 0) -> offers (fun _ => False) MAP_COST w ->
  runs (hand_over efi image plan (actual_virtual_base (pl_physical_base plan) (planned plan)) arena stack tables tables) w
    (settled image).
Proof using Hfw Hnull Hob.
  intros [Hplan Hk Hh Hl HR Hm Hz] Ht Ht0 Hzero Ha0 Ho. pose proof Hl as [(La & Ls & Lt) Hap Hker]. unfold hand_over.
  pose proof (plan_segments _ Hplan) as Hok.
  destruct (runs_exit efi lent cursor content _ w image HR) as (w1 & [st res] & E1 & K & Hfin). eapply runs_eq; [exact E1|].
  assert (happy = true -> st = BBP_UEFI_EXIT_OK /\ exists ds, map_accepted (mc_mem w1) res ds) as Hpass.
  { intros Hhappy. unfold offers in Ho. rewrite Hhappy in Ho. specialize (Hob Hhappy).
    destruct (exit_passes efi lent cursor content s (fun _ => False) 0 w image) as (w2 & [st2 res2] & E2 & H2); [lia|done|].
    rewrite E1 in E2. by injection E2 as <- <- <-. }
  cbn beta iota. case_bool_decide as Est; cbn [negb]; [|blame_firmware; by destruct (Hpass Hyes)]. subst st. destruct (Hfin eq_refl) as (_ & Hf & Mm & Hm0 & Hsz & Hcap).
  destruct (build_handoff_spec (mc_mem w1) arena plan (actual_virtual_base (pl_physical_base plan) (planned plan)) res)
    as (m' & r & E2 & Fr & Hr); [done|by eapply keeps_mapped|lia|intros _; eapply mapped_sub; [exact Mm|lia|lia]| |].
  { intros x Hx Hx'. apply (fresh_apart _ _ _ (arena_block arena) Hf) with x; [unfold handoff_blocks; set_solver|done|].
    unfold inside. cbn [fst snd]. lia. }
  eapply runs_update; [exact E2|]. destruct r as [info|]; apply runs_ret.
  2: { split; [|intros Hhappy; destruct (Hpass Hhappy) as (_ & ds & Hds); destruct Hr as [Hr|Hr]; [by apply Ha0|by apply (Hr ds)]].
       exists w1, res. split; [by exists w|]. destruct Hr as [Hr|Hr]; auto. }
  destruct Hr as (-> & Hne & ds & Hacc & Hdel). rewrite stack_pointer by done.
  assert (forall r, r ∈ handoff_blocks arena stack tables (planned plan) -> apart r (arena_block arena) ->
    same_on (mc_mem w) m' r.1 r.2) as Hsame.
  { intros r Hr Hra. eapply same_on_trans; [by eapply keeps_block|]. by eapply frame_same. }
  inversion_clear Hap as [|? ? Ha1 Ha2]. rewrite !Forall_cons in Ha1. destruct Ha1 as (As & At & _).
  destruct (header_kept plan header (mc_mem w) m') as (Hk' & Hh' & Hfl); try done.
  { intros r Hr. apply Hsame; [unfold handoff_blocks; set_solver|]. specialize (Hker r Hr). rewrite Forall_cons in Hker. by apply Hker. }
  split; [|done]. exists plan, header. cbn [mc_mem]. constructor; cbn [mc_mem]; try done.
  - split; [|done]. by replace (stack + _ - _) with stack by lia.
  - intros x Hx. rewrite (Hsame (stack_block stack)); [|unfold handoff_blocks; set_solver|by apply apart_flip|unfold stack_block; cbn [fst snd]; lia].
    apply Hz. unfold inside, stack_block. cbn [fst snd]. lia.
  - intros flags Hflags. apply (Ht m'); [|by rewrite <- Hfl].
    apply (Hsame (tables_block tables)); [unfold handoff_blocks; set_solver|by apply apart_flip].
  - exists w1, res, ds. split; [by exists w|done].
Qed.

(** ** Preparing *)

Lemma zeroed_kept R a n w w' : keeps R w w' -> (a, n * EFI_PAGE_SIZE) ∈ R -> zeroed lent a n w -> zeroed lent a n w'.
Proof.
  intros K Hin (Hlow & _ & Hz). split_and!; [done|by apply K|]. intros x Hx. rewrite (keeps_block _ _ _ _ K Hin x Hx). by apply Hz.
Qed.

Lemma holds_more R a n w w' : holds_blocks R w -> keeps R w w' -> zeroed lent a n w' ->
  holds_blocks (R ∪ {[(a, n * EFI_PAGE_SIZE)]}) w'.
Proof.
  intros HR K (_ & Hin & _). apply holds_union; [apply (keeps_holds _ _ _ _ HR K)|]. by intros r ->%elem_of_singleton.
Qed.

(** The three blocks, blank. *)
Definition blank_blocks (segs : list bbp_elf64_segment_plan) (arena stack tables : Z) (w : machine F) : Prop :=
  layout arena stack tables segs /\ holds_blocks (handoff_blocks arena stack tables segs) w /\
  zeroed lent arena BBP_ARENA_PAGES w /\ zeroed lent stack BBP_STACK_PAGES w /\ zeroed lent tables BBP_PAGE_TABLE_PAGES w.

Ltac pages := unfold BBP_ARENA_PAGES, BBP_STACK_PAGES, BBP_PAGE_TABLE_PAGES, EFI_PAGE_SIZE in *; lia.

(** The pages of the three blocks. *)
Definition HANDOFF_COST : Z := (BBP_ARENA_PAGES + BBP_STACK_PAGES + BBP_PAGE_TABLE_PAGES) * EFI_PAGE_SIZE.

Definition handoff_given (segs : list bbp_elf64_segment_plan) (c : Z) (ok : bool) (a g t : Z) (w : machine F) : Prop :=
  if ok then
    blank_blocks segs a g t w /\ offers (fun _ => False) c w /\ (happy = true -> a <> 0 /\ t <> 0) /\
    (a = 0 \/ t = 0 -> gives_page_zero efi)
  else happy = false.

Lemma runs_allocate_handoff segs w c : holds_blocks (kernel_blocks segs) w -> 0 <= c -> offers (fun _ => False) (c + HANDOFF_COST) w ->
  runs (allocate_handoff efi) w (fun '(ok, a, g, t) w' => keeps (kernel_blocks segs) w w' /\ handoff_given segs c ok a g t w').
Proof using Hfw Hnull Hob.
  intros HR Hc Ho. unfold allocate_handoff, HANDOFF_COST in *.
  eapply runs_bind; [apply (runs_low_pages efi lent cursor content s happy Hob _ w BBP_ARENA_PAGES (fun _ => False)
    (c + (BBP_STACK_PAGES + BBP_PAGE_TABLE_PAGES) * EFI_PAGE_SIZE) HR); [done|pages|eapply offers_less; [exact Ho|intros _; pages]]|].
  cbn beta. intros [st1 a] w1 [K1 H1]. destruct (st1 =? EFI_SUCCESS); cbn [negb]; [|by apply runs_ret]. destruct H1 as (Z1 & F1 & O1 & N1 & P1).
  pose proof (holds_more _ _ _ _ _ HR K1 Z1) as HR1.
  eapply runs_bind; [apply (runs_low_pages efi lent cursor content s happy Hob _ w1 BBP_STACK_PAGES (fun _ => False)
    (c + BBP_PAGE_TABLE_PAGES * EFI_PAGE_SIZE) HR1); [done|pages|eapply offers_less; [exact O1|intros _; pages]]|].
  cbn beta. intros [st2 g] w2 [K2 H2].
  assert (keeps (kernel_blocks segs) w w2) as K12 by (eapply keeps_trans; [exact K1|]; eapply keeps_sub; [exact K2|set_solver]).
  destruct (st2 =? EFI_SUCCESS); cbn [negb]; [|by apply runs_ret]. destruct H2 as (Z2 & F2 & O2 & _ & _).
  pose proof (holds_more _ _ _ _ _ HR1 K2 Z2) as HR2.
  eapply runs_bind; [by apply (runs_low_pages efi lent cursor content s happy Hob _ w2 BBP_PAGE_TABLE_PAGES (fun _ => False) c HR2)|].
  cbn beta. intros [st3 t] w3 [K3 H3].
  apply runs_ret. split; [eapply keeps_trans; [exact K12|]; eapply keeps_sub; [exact K3|set_solver]|]. unfold handoff_given.
  destruct (st3 =? EFI_SUCCESS); [|done]. destruct H3 as (Z3 & F3 & O3 & N3 & P3). pose proof (holds_more _ _ _ _ _ HR2 K3 Z3) as HR3.
  assert (zeroed lent a BBP_ARENA_PAGES w3) as Z1' by (eapply zeroed_kept; [exact K3|set_solver|]; eapply zeroed_kept; [exact K2|set_solver|done]).
  assert (zeroed lent g BBP_STACK_PAGES w3) as Z2' by (eapply zeroed_kept; [exact K3|set_solver|done]).
  split_and!; [|done|by intros Hh; split; [apply N1|apply N3]|by intros [?|?]; [apply P1|apply P3]].
  split_and!; [|exact HR3|done|done|done]. split; [split_and!; [apply Z1|apply Z2|apply Z3]| |].
  - repeat constructor; eapply fresh_apart; first [exact F2|exact F3|idtac]; set_solver.
  - intros r Hr. repeat constructor; eapply fresh_apart; [exact F1| |exact F2| |exact F3|]; set_solver.
Qed.

Lemma blank_kept segs a g t w w' : blank_blocks segs a g t w -> keeps (handoff_blocks a g t segs) w w' -> blank_blocks segs a g t w'.
Proof.
  intros (Hl & HR & Za & Zs & Zt) K. unfold handoff_blocks in *.
  split_and!; [done|by eapply keeps_holds|..]; (eapply zeroed_kept; [exact K| |done]; set_solver).
Qed.

Lemma blank_pool segs a g t w : blank_blocks segs a g t w -> t <> 0 -> pool_ok (mc_mem w) (PagePool t 0 BBP_PAGE_TABLE_PAGES).
Proof.
  intros (_ & _ & _ & _ & [Hal [H0 H1]] & _ & Hz) Ht. unfold inside, BBP_PAGE_TABLE_PAGES, EFI_PAGE_SIZE, BBP_IDENTITY_LIMIT in *. cbn [fst snd] in Hz.
  assert (forall x, t <= x < t + 4096 * 32 -> mc_mem w !! x = Some x00) as Hz' by (intros x Hx; apply Hz; lia).
  split; cbn [pool_base pool_used pool_count]; [split; [lia|done]|lia|lia| |].
  - intros x Hx. rewrite Hz' by done. by eexists.
  - intros x Hx. apply Hz'. lia.
Qed.

Lemma contract_flags m header plan : header_contract m header plan ->
  exists flags, load64 m (header + 24) = Some flags /\
    negb (Z.land flags BBP_HF_UNMAP_NULL_PAGE =? 0) = bool_decide (flags = BBP_HF_UNMAP_NULL_PAGE).
Proof. intros [_ [H|H] _ _ _ _]; by eexists. Qed.

(** The tables are written in their own block. *)
Lemma tables_written plan header arena stack tables w m' :
  plan_of_file plan ->
  kernel_at content (mc_mem w) (planned plan) ->
  good_header (mc_mem w) plan header ->
  blank_blocks (planned plan) arena stack tables w ->
  pool_frame (PagePool tables 0 BBP_PAGE_TABLE_PAGES) (mc_mem w) m' ->
  prepared plan header arena stack tables (Machine (mc_fw w) m' (mc_log w)) /\
  load64 m' (header + 24) = load64 (mc_mem w) (header + 24).
Proof.
  intros Hplan Hk Hh (Hl & HR & Za & Zs & _) Fr. unfold pool_frame in Fr. cbn [pool_base pool_count] in Fr.
  rewrite Z.mul_comm in Fr. change 4096 with EFI_PAGE_SIZE in Fr. pose proof Hl as [_ Hap Hker].
  inversion_clear Hap as [|? ? Ha1 Ha2]. rewrite !Forall_cons in Ha1. destruct Ha1 as (_ & At & _).
  inversion_clear Ha2 as [|? ? Hs1 _]. rewrite !Forall_cons in Hs1. destruct Hs1 as (Ast & _).
  destruct (header_kept plan header (mc_mem w) m') as (Hk' & Hh' & Hfl); try done.
  { by apply plan_segments. }
  { intros r Hr. eapply frame_same; [exact Fr|]. specialize (Hker r Hr). rewrite !Forall_cons in Hker. by apply Hker. }
  split; [|done]. constructor; cbn [mc_mem]; try done.
  - eapply frame_mapped; [exact Fr|]. intros x Hx. destruct Za as (_ & _ & Hz). rewrite Hz by done. by eexists.
  - intros x Hx. rewrite (frame_same _ _ _ _ _ Fr Ast x Hx). destruct Zs as (_ & _ & Hz). by apply Hz.
Qed.

(** No table fits at page 0. *)
Lemma tables_at_zero m n plan nx unmap : exists pool, build_page_tables m (PagePool 0 0 n) plan nx unmap = Some (m, pool, None).
Proof.
  unfold build_page_tables. unfold table_new at 1. cbn [pool_used pool_count pool_base]. destruct (0 =? n);
    (destruct (table_new _) as [p2 i]; destruct (table_new _) as [p3 h]; by eexists).
Qed.

Definition PREPARE_COST : Z := HANDOFF_COST + 2 * MAP_COST.

Lemma runs_prepare image loaded header plan w :
  plan_of_file plan ->
  kernel_at content (mc_mem w) (planned plan) ->
  good_header (mc_mem w) plan header ->
  holds_blocks (kernel_blocks (planned plan)) w -> 0 < loaded -> mapped (mc_mem w) loaded 80 ->
  (happy = true -> image_low (mc_mem w) loaded) -> offers (fun _ => False) PREPARE_COST w ->
  runs (prepare efi image loaded header plan (actual_virtual_base (pl_physical_base plan) (planned plan))) w (settled image).
Proof using Hfw Hnull Hob.
  intros Hplan Hk Hh HR Hl0 Hm Hlow Ho. unfold prepare. pose proof (plan_segments _ Hplan) as Hok.
  rewrite (proj2 (Z.eqb_neq loaded 0)) by lia. destruct (mapped_load_le (mc_mem w) (loaded + 64) 8) as (base & Eb & _); [eapply mapped_sub; [exact Hm|lia|lia]|].
  eapply runs_peek; [exact Eb|]. destruct (mapped_load_le (mc_mem w) (loaded + 72) 8) as (size & Es & _); [eapply mapped_sub; [exact Hm|lia|lia]|].
  assert (happy = true -> base < BBP_IDENTITY_LIMIT /\ base + size <= BBP_IDENTITY_LIMIT) as Hlow'.
  { intros Hyes. destruct (Hlow Hyes) as (base' & size' & Eb' & Es' & H). unfold load64 in Eb', Es'. rewrite Eb in Eb'. rewrite Es in Es'.
    by injection Eb' as <-; injection Es' as <-. }
  branch G1; [blame_firmware; destruct (Hlow' Hyes); bool_to_prop; lia|].
  eapply runs_peek; [exact Es|]. branch G2; [blame_firmware; destruct (Hlow' Hyes); bool_to_prop; lia|].
  eapply runs_bind; [apply (runs_allocate_handoff _ _ (2 * MAP_COST) HR); [done|eapply offers_less; [exact Ho|unfold PREPARE_COST; lia]]|].
  cbn beta. intros [[[ok arena] stack] tables] w1 [K1 Hgiven].
  destruct ok; cbn [negb handoff_given] in *; [|blame_firmware; congruence]. destruct Hgiven as (Hblank & O1 & Hne & Hzero).
  destruct (header_kept plan header (mc_mem w) (mc_mem w1)) as (Hk1 & Hh1 & Hfl1); try done.
  { intros r Hr. by eapply keeps_block. }
  destruct (contract_flags _ _ _ (proj2 (proj2 Hh1))) as (flags & Hfl & Hbit). eapply runs_peek; [exact Hfl|]. cbn zeta. rewrite Hbit.
  pose proof Hblank as (_ & HR1 & _).
  destruct (runs_preflight efi lent cursor content _ 3 0 0 w1 HR1 (no_buffer _ w1)) as (w2 & ok & E2 & K2). eapply runs_eq; [exact E2|].
  assert (happy = true -> ok = true /\ LoaderGrants.offers s happy (fun _ => False) MAP_COST w2) as Hpass.
  { intros Hyes. unfold offers in O1. rewrite Hyes in O1 |- *. specialize (Hob Hyes).
    destruct (preflight_passes efi lent cursor content s (fun _ => False) MAP_COST w1) as (w2' & ok' & E2' & H2'); [done|eapply offers_less; [exact O1|intros _; lia]|].
    unfold preflight_memory_geometry in E2'. rewrite E2 in E2'. by injection E2' as <- <-. }
  destruct ok; [|blame_firmware; by destruct (Hpass Hyes)]. specialize (K2 eq_refl). apply (blank_kept _ _ _ _ _ _ Hblank) in K2 as Hblank2.
  destruct (header_kept plan header (mc_mem w1) (mc_mem w2)) as (Hk2 & Hh2 & Hfl2); try done.
  { intros r Hr. eapply keeps_block; [exact K2|]. unfold handoff_blocks. set_solver. }
  destruct (Z.eq_dec tables 0) as [Et|Ht].
  { destruct (tables_at_zero (mc_mem w2) BBP_PAGE_TABLE_PAGES plan false (bool_decide (flags = BBP_HF_UNMAP_NULL_PAGE))) as [pool Epool].
    rewrite Et. eapply runs_update; [by rewrite Epool|]. apply runs_cleanup; [apply refused_page_zero; auto|]. intros Hyes. by destruct (Hne Hyes). }
  destruct (build_page_tables_spec (mc_mem w2) (PagePool tables 0 BBP_PAGE_TABLE_PAGES) plan false
    (bool_decide (flags = BBP_HF_UNMAP_NULL_PAGE)) (zlen content)) as (m' & pool' & r & E & Fr & Hno & Hyes);
    [by eapply blank_pool|done|done|done|].
  eapply runs_update; [by rewrite E|]. destruct r as [pml4|].
  2: { apply runs_blame, (blamed_tables plan (mc_mem w2) header flags); try done; [by rewrite Hfl2|by apply Hno]. }
  destruct (Hyes pml4 eq_refl) as (-> & _ & Hwalk). cbn [pool_base pool_count] in *.
  destruct (tables_written plan header arena stack tables w2 m') as (Hp & Hfl3); try done.
  apply (runs_hand_over image plan header); try done; [|by auto|by intros Hh'; apply Hne|by intros Hh'; apply Hpass].
  intros m2 Hs flags' Hflags'. cbn [mc_mem] in *.
  rewrite Hfl3, Hfl2, Hfl in Hflags'. injection Hflags' as <-. apply Hwalk.
  unfold BBP_PAGE_TABLE_PAGES, EFI_PAGE_SIZE in *. by rewrite Z.mul_comm.
Qed.

(** ** The whole program *)

(** The loaded segments are the kernel, in blocks other than those of [R]. *)
Lemma kernel_in_memory R segs w : Forall (segment_loaded lent content R w) segs ->
  kernel_at content (mc_mem w) segs /\ holds_blocks (kernel_blocks segs) w /\
  forall r b, r ∈ kernel_blocks segs -> b ∈ R -> r.1 <> b.1.
Proof.
  intros Hl. rewrite List.Forall_forall in Hl. split_and!.
  - apply List.Forall_forall. intros g Hg Hc. by destruct (Hl g Hg Hc) as (_ & _ & ? & ? & ?).
  - intros r (g & Hg & Hc & ->)%kernel_blocks_elem. by destruct (Hl g Hg Hc) as (? & _).
  - intros r b (g & Hg & Hc & ->)%kernel_blocks_elem Hb. destruct (Hl g Hg Hc) as (_ & Hf & _).
    destruct (Hf b Hb) as [Hne _]. cbn [segment_block fst] in *. congruence.
Qed.

Lemma runs_header plan (w : machine F) :
  Forall (segment_ok (zlen content)) (planned plan) -> kernel_at content (mc_mem w) (planned plan) ->
  runs (header ← peek (fun m => find_header m plan);
        valid ← (if header =? 0 then mret false else peek (fun m => validate_header_contract m header plan));
        mret (header, valid)) w (fun '(header, valid) w' =>
    w' = w /\ if (valid : bool) then good_header (mc_mem w) plan header
    else forall h, ~ good_header (mc_mem w) plan h).
Proof.
  intros Hok Hk. eapply runs_peek; [apply find_header_spec; by eapply kernel_files_mapped|].
  set (header := unique_header _ _). assert (forall h, good_header (mc_mem w) plan h -> h = header) as Honly by (by intros h (_ & <- & _)).
  destruct (Z.eqb_spec header 0) as [E0|Hne].
  { do 2 eexists. split; [done|]. split; [done|]. intros h Hh. pose proof (Honly h Hh). destruct Hh as [? _]. congruence. }
  destruct (unique_header_found (mc_mem w) _ Hne) as [Hin _]. pose proof (candidate_part content _ Hok _ Hin) as Hp.
  destruct (validate_spec (mc_mem w) header plan) as (v & E & Hiff).
  - by eapply part_mapped.
  - intros p n H. destruct (Z.le_gt_cases 0 n); [|intros x Hx; lia]. eapply part_mapped; [done|done|]. by eapply range_part.
  - eapply runs_peek; [exact E|]. apply runs_ret. split; [done|]. destruct v.
    + split_and!; [done|done|by apply Hiff].
    + intros h Hh. rewrite (Honly h Hh) in Hh. destruct Hh as (_ & _ & Hc). by apply Hiff in Hc.
Qed.

(** What a machine that boots has: a system table, a file of admissible size,
    the pages of its segments free, and room for the rest. *)
Record launch (system_table : Z) (w : machine F) : Prop := Launch {
  ln_table : system_table <> 0 /\ exists boot, load64 (mc_mem w) (system_table + 96) = Some boot /\ boot <> 0;
  ln_file : 64 <= zlen content <= BBP_MAX_KERNEL_FILE;
  ln_pages : forall plan, plan_of_file plan -> Forall segment_low (planned plan) /\
    forall r, In r (segment_pages (planned plan)) -> spare s (mc_fw w) r.1 r.2;
  ln_room : kernel_cost content + PREPARE_COST <= room s (mc_fw w);
}.

(** The pages of the plan. *)
Definition file_pages (r : Z * Z) : Prop := exists plan, plan_of_file plan /\ In r (segment_pages (planned plan)).

Lemma launch_offers system_table w : (happy = true -> launch system_table w) ->
  offers file_pages (PREPARE_COST + kernel_cost content) w.
Proof.
  intros Hl Hyes. destruct (Hl Hyes) as [_ _ Hp Hr]. split; [|lia]. intros r (plan & Hplan & Hin). by apply (Hp plan).
Qed.

Lemma runs_give_up image reason w :
  In reason ["system table"; "open \kernel.elf"]%string -> (happy = true -> False) ->
  runs (mret (Failed_with reason)) w (settled image).
Proof.
  intros Hin Hno. apply runs_ret. split; [|intros Hyes; by destruct (Hno Hyes)]. apply refused_by_firmware.
  destruct Hin as [<-|[<-|[]]]; cbn; tauto.
Qed.

Lemma runs_efi_main image system_table fuel w :
  (system_table <> 0 -> mapped (mc_mem w) (system_table + 96) 8) ->
  zlen content <= Z.of_nat fuel -> zlen content < 2 ^ 64 -> (happy = true -> launch system_table w) ->
  runs (efi_main efi image system_table fuel) w (settled image).
Proof using Hfw Hnull Hob.
  intros Hst Hfuel Hmax Hlaunch. unfold efi_main.
  branch G0; [apply runs_give_up; [by left|]; intros Hyes; destruct (Hlaunch Hyes) as [[Ht _] _ _ _]; by apply Z.eqb_eq in G0|].
  apply Z.eqb_neq in G0. destruct (mapped_load_le (mc_mem w) (system_table + 96) 8) as (boot & Eb & _); [by apply Hst|].
  eapply runs_peek; [exact Eb|].
  branch G1; [apply runs_give_up; [by left|]; intros Hyes; destruct (Hlaunch Hyes) as [(_ & boot' & Eb' & Hb) _ _ _];
    unfold load64 in Eb'; rewrite Eb in Eb'; injection Eb' as <-; by apply Z.eqb_eq in G1|].
  eapply runs_bind; [apply (runs_read_kernel efi lent cursor content s happy Hob image fuel w file_pages PREPARE_COST);
    [done|by intros Hyes; apply (Hlaunch Hyes)|done|done|by eapply launch_offers]|]. cbn beta.
  intros [st res] w1 Hres. destruct res as [[[b size] loaded]|]; cbn [kernel_read] in Hres; [|apply runs_give_up; [by right; left|congruence]].
  destruct Hres as (-> & (Hin & Hb0 & Hlen & Hat) & Hl0 & Hml & O1 & HI & Hfr & Hlow).
  destruct (plan_fn_spec (mc_mem w1) b (zlen content) local_plan) as (pst & plan & Ep & _ & Hsound);
    [done|by apply bytes_at_mapped|done|].
  eapply runs_peek; [by rewrite Ep|]. cbn beta iota. case_bool_decide as Est; cbn [negb]; [subst pst|].
  2: { eapply runs_blame, blamed_plan; [|done..]. lia. }
  assert (plan_of_file plan) as Hplan by (exists (mc_mem w1), b; auto).
  pose proof (plan_segments _ Hplan) as Hok. pose proof (Hsound eq_refl) as (_ & [_ _ Hap _] & _).
  set (I := image_block happy loaded) in *. set (R := {[(b, zlen content)]} ∪ I).
  eapply runs_bind; [apply (runs_load_from efi lent cursor content s happy Hob b PREPARE_COST (planned plan) [] R w1)|]; try done.
  { apply holds_union; [|done]. by intros r ->%elem_of_singleton. }
  { unfold R. set_solver. }
  { intros Hyes. by apply (ln_pages _ _ (Hlaunch Hyes)). }
  { eapply offers_fewer; [exact O1|]. intros r Hr. by exists plan. }
  cbn beta. intros lst w2 Hload. destruct (lst =? EFI_SUCCESS); cbn [negb]; [|blame_firmware; congruence].
  destruct Hload as (K2 & Hl & O2). destruct (kernel_in_memory _ _ _ Hl) as (Hk & HR & Hne).
  destruct (runs_header plan w2 Hok Hk) as (w3 & [header valid] & E3 & -> & Hv).
  apply (runs_pair _ _ _ _ _ _ _ _ E3). destruct valid.
  2: { apply runs_blame, (blamed_header plan); [done|]. intros m header' Hm Hh. apply (Hv header').
       by apply (header_moves plan header' m). }
  pose proof Hv as (_ & _ & [_ _ _ [Hbase _] _ _]). eapply runs_peek; [exact Hbase|].
  run (runs_FreePool efi lent cursor content (kernel_blocks (planned plan) ∪ I) w2 b)
    granting (grants_free efi lent cursor content s happy Hob).
  { apply holds_union; [done|]. intros r Hr. apply K2. unfold R. set_solver. }
  { intros r [Hr|Hr]%elem_of_union; [by apply (Hne r (b, zlen content) Hr); unfold R; set_solver|by apply (Hfr r Hr)]. }
  intros [] w4 [K4 O4]. destruct (header_kept plan header (mc_mem w2) (mc_mem w4)) as (Hk4 & Hh4 & _); try done.
  { intros r Hr. eapply keeps_block; [exact K4|set_solver]. }
  apply runs_prepare; try done.
  - intros r Hr. apply K4. set_solver.
  - eapply keeps_mapped; [exact K4|]. by eapply keeps_mapped.
  - intros Hyes. assert ((loaded, 80) ∈ I) as HinI by (by apply in_image_block).
    eapply image_low_same; [|by apply Hlow]. eapply same_on_trans.
    + apply (keeps_same lent R w1 w2 _ _ loaded 80); [done|unfold R; set_solver|lia|lia].
    + apply (keeps_same lent _ w2 w4 _ _ loaded 80 K4); [set_solver|lia|lia].
Qed.
End Boot.
