(* ===== verification/LoaderSample.v ===== *)
(** * A machine that boots

    A kernel file with a Bear Header and its three requests, and a firmware with
    free memory: the file is to blame for nothing, and the firmware keeps the
    laws and grants what the loader asks for. *)

From stdpp Require Import strings gmap.
From S2P Require Import Prelude Memory Crc64 Abi KernelParser Builder ElfPlan ElfMoves UefiExit Paging PagingProps Loader LoaderMain LoaderMap LoaderHandoff LoaderFind LoaderLaws LoaderGrants LoaderRead LoaderSegments LoaderServices LoaderKernel LoaderBoot.

(** ** The kernel *)

Module KernelSample.

(** One read-execute segment at 2 MiB for the top 2 GiB: the whole file. *)
Definition base : Z := 0xffffffff80200000.
Definition entry : Z := base + 352.

Definition header : list byte :=
  BBP_HEADER_MAGIC ++ le_encode 2 BBP_VERSION_MAJOR ++ le_encode 2 0 ++ le_encode 4 SIZEOF_HEADER ++
  le_encode 8 BBP_HF_UNMAP_NULL_PAGE ++ le_encode 8 entry ++ le_encode 8 BBP_PAGING_4LEVEL ++
  le_encode 8 base ++ le_encode 4 3 ++ le_encode 4 0 ++ le_encode 8 0x200118 ++
  replicate 80 x00 ++ le_encode 8 15560340343776914186.

Definition request (tag : Z) : list byte := le_encode 8 tag ++ replicate 16 x00.

(** File header, program header, Bear Header, requests, and a halt loop. *)
Definition bytes : list byte :=
  [x7f; x45; x4c; x46; x02; x01; x01; x00] ++ le_encode 8 0 ++
  le_encode 2 2 ++ le_encode 2 62 ++ le_encode 4 1 ++ le_encode 8 entry ++
  le_encode 8 64 ++ le_encode 8 0 ++ le_encode 4 0 ++ le_encode 2 64 ++
  le_encode 2 56 ++ le_encode 2 1 ++ le_encode 6 0 ++
  ElfSample.ph 5 0 base 0x200000 360 360 4096 ++
  header ++ request BBP_TAG_HHDM ++ request BBP_TAG_MEMORY_MAP ++ request BBP_TAG_KERNEL_ADDRESS ++
  [xf4; xeb; xfd; x00; x00; x00; x00; x00].

Definition text : bbp_elf64_segment_plan := SegmentPlan 0 360 360 base 0x200000 0x200000 1 4096 5.
Definition plan : bbp_elf64_plan :=
  Elf64Plan entry 0x200000 0x201000 1 (text :: replicate 15 (SegmentPlan 0 0 0 0 0 0 0 0 0)).

Lemma size_is : zlen bytes = 360.
Proof. reflexivity. Qed.

Lemma plan_is : bbp_elf64_plan_fn (mem_of 65536 bytes) 65536 360 (Some local_plan) = Some (BBP_ELF64_OK, Some plan).
Proof. vm_compute. reflexivity. Qed.

(** Wherever the file is, this is its plan. *)
Lemma plan_anywhere m a : a <> 0 -> bytes_at m a bytes ->
  bbp_elf64_plan_fn m a (zlen bytes) (Some local_plan) = Some (BBP_ELF64_OK, Some plan).
Proof. intros Ha Hat. rewrite size_is. by apply (plan_of_bytes m a 65536 bytes). Qed.

Lemma only_plan p : plan_of_file bytes p -> p = plan.
Proof.
  intros (m & a & Hat & _ & E). destruct (Z.eq_dec a 0) as [->|Ha]; [by vm_compute in E|].
  rewrite (plan_anywhere m a Ha Hat) in E. by injection E as <-.
Qed.

Lemma planned_is : planned plan = [text].
Proof. reflexivity. Qed.

(** *** The header *)

Definition at_place : mem := mem_of 0x200000 bytes.
Definition header_at : Z := 0x200078.

Lemma header_found : unique_header at_place (header_candidates (planned plan)) = header_at.
Proof. vm_compute. reflexivity. Qed.

Lemma header_valid : validate_header_contract at_place header_at plan = Some true.
Proof. vm_compute. reflexivity. Qed.

Lemma place_mapped : mapped at_place 0x200000 360.
Proof. apply (bytes_at_mapped _ _ bytes), bytes_at_mem_of. Qed.

(** The loaded segment starts with the file. *)
Definition loaded : mem := mem_of 0x200000 (segment_image bytes text).

Lemma loaded_kernel : kernel_at bytes loaded (planned plan).
Proof.
  rewrite planned_is. constructor; [|constructor]. intros _. split_and!; [done|done|]. apply bytes_at_mem_of.
Qed.

Lemma image_starts : segment_image bytes text = bytes ++ replicate 3736 x00.
Proof. unfold segment_image. cbn [text s_physical_address s_page_base s_file_size s_file_offset]. reflexivity. Qed.

Lemma prefix_at m a xs ys zs : bytes_at m a zs -> zs = xs ++ ys -> bytes_at m a xs.
Proof. intros H ->. by apply bytes_at_app in H as [H _]. Qed.

Lemma same_bytes m m' a bs : bytes_at m a bs -> bytes_at m' a bs -> same_on m m' a (zlen bs).
Proof.
  intros H H' x Hx. destruct (lookup_lt_is_Some_2 bs (Z.to_nat (x - a))) as [y Hy]; [unfold zlen in Hx; lia|].
  apply H in Hy as E. apply H' in Hy as E'. replace (a + Z.of_nat (Z.to_nat (x - a))) with x in * by lia. congruence.
Qed.

Lemma loaded_same : same_on at_place loaded 0x200000 360.
Proof.
  exact (same_bytes at_place loaded 0x200000 bytes (bytes_at_mem_of _ _)
    (prefix_at _ _ _ _ _ (bytes_at_mem_of 0x200000 (segment_image bytes text)) image_starts)).
Qed.

Lemma range_inside p n : 0 <= n -> physical_range_loaded plan p n = true -> 0x200000 <= p /\ p + n <= 0x200000 + 360.
Proof.
  intros Hn H. unfold physical_range_loaded in H. destruct (_ || _) eqn:G; [done|]. rewrite planned_is in H. cbn [range_loaded text] in H.
  change (wrap64 (s_physical_address text + s_memory_size text)) with (0x200000 + 360) in H. cbn [s_physical_address] in H.
  change (s_physical_address text) with 0x200000 in H. destruct (_ && _) eqn:E; [|done]. bool_to_prop. lia.
Qed.

Lemma header_good : good_header loaded plan header_at.
Proof.
  split_and!; [done| |].
  - rewrite (unique_header_same at_place loaded); [apply header_found|]. intros c Hc.
    destruct (candidate_of _ _ Hc) as (g & Hg & Hf & Hge & Hle). rewrite planned_is in Hg. destruct Hg as [<-|[]].
    cbn [text s_physical_address s_file_size] in *. unfold SIZEOF_HEADER in *.
    split_and!; [lia|intros x Hx; apply loaded_same; lia|eapply mapped_sub; [apply place_mapped|lia|lia]].
  - apply (contract_same_on at_place); [intros x Hx; apply loaded_same; unfold header_at, SIZEOF_HEADER in Hx; lia| |].
    + intros p n Hn Hr x Hx. apply range_inside in Hr; [|done]. apply loaded_same. lia.
    + destruct (validate_spec at_place header_at plan) as (b & E & Hb).
      * eapply mapped_sub; [apply place_mapped|unfold header_at; lia|unfold header_at, SIZEOF_HEADER; lia].
      * intros p n Hr. destruct (Z.le_gt_cases 0 n) as [Hn|]; [|intros x Hx; lia]. apply range_inside in Hr; [|done].
        eapply mapped_sub; [apply place_mapped|lia|lia].
      * rewrite header_valid in E. injection E as <-. by apply Hb.
Qed.

(** *** The address space *)

Lemma kernel_placeable unmap : placeable unmap BBP_PAGE_TABLE_PAGES (planned plan).
Proof.
  rewrite planned_is. split.
  - repeat constructor.
  - constructor; [|constructor]. intros a Ha. unfold in_virtual_pages in Ha. bool_to_prop.
    change (virtual_base text) with 0xffffffff80200000 in *. change (virtual_end text) with 0xffffffff80201000 in *.
    unfold direct_translation, BBP_IDENTITY_LIMIT, BBP_HHDM_OFFSET. replace (a <? 0x100000000) with false by lia.
    cbn [andb]. by replace ((0xffff800000000000 <=? a) && _) with false by lia.
  - vm_compute. discriminate.
Qed.

(** There is nothing to blame the file for. *)
Lemma faultless reason : ~ blamed bytes reason.
Proof.
  intros [m a status p Ha Hat E Hne|p Hp Hno|p m h flags Hp _ _ _ Hno].
  - rewrite (plan_anywhere m a Ha Hat) in E. by injection E as <- _.
  - rewrite (only_plan p Hp) in Hno. apply (Hno loaded header_at); [apply loaded_kernel|apply header_good].
  - rewrite (only_plan p Hp) in Hno. apply Hno, kernel_placeable.
Qed.
End KernelSample.

(** ** The firmware

    Requests for an address are served below 1 GiB where nothing was given yet;
    all others from ever higher pages between 1 and 2 GiB.  Nothing is reused.
    The only file is read 64 bytes at a time, and one region of memory is
    reported. *)

Module BumpFirmware.

Record state := State { next : Z; blocks : gset (Z * Z); position : Z }.

Definition FLOOR : Z := 0x40000000.
Definition CEILING : Z := 0x80000000.

(** The first free page. *)
Definition top (f : state) : Z := round_up 4096 (Z.max (next f) FLOOR).

Definition lent (f : state) : gset (Z * Z) :=
  filter (fun r => 0 < r.1 /\ 0 < r.2 /\ (r.1 + r.2 <= FLOOR \/ FLOOR <= r.1 /\ r.1 + r.2 <= top f)) (blocks f).

Definition kernel_handle : Z := 3.
Definition refuse : Z := 0x8000000000000009.

(** The pages at [a] are free. *)
Definition vacant (f : state) (a n : Z) : Prop :=
  0 < n /\ 0 < a /\ a mod EFI_PAGE_SIZE = 0 /\ a + n * EFI_PAGE_SIZE <= FLOOR /\
  set_Forall (fun r : Z * Z => r.1 + r.2 <= a \/ a + n * EFI_PAGE_SIZE <= r.1) (blocks f).

#[global] Instance vacant_dec f a n : Decision (vacant f a n).
Proof. unfold vacant. apply _. Defined.

(** The block at [a] with these bytes. *)
Definition give (f : state) (m : mem) (up a : Z) (bs : list byte) : state * mem :=
  (State up ({[(a, zlen bs)]} ∪ blocks f) (position f), mem_of a bs ∪ m).

Definition blank (n : Z) : list byte := replicate (Z.to_nat n) x00.

(** The description of the loader's image: 1 MiB at 256 MiB. *)
Definition image_info : list byte := replicate 64 x00 ++ le_encode 8 0x10000000 ++ le_encode 8 0x100000.

Section File.
Context (content : list byte).

Definition cursor (f : state) (file : Z) : option Z :=
  if (file =? kernel_handle) && (0 <=? position f) && (position f <=? zlen content) then Some (position f) else None.

Definition efi : efi_services state := EfiServices _
  (fun f m kind memory pages address =>
     if kind =? AllocateAddress then
       if decide (vacant f address pages) then (give f m (next f) address (blank (pages * EFI_PAGE_SIZE)), EFI_SUCCESS, address)
       else (f, m, refuse, address)
     else
       let n := pages * EFI_PAGE_SIZE in
       if (0 <? pages) && (top f + n <=? CEILING) && (top f + n - 1 <=? address)
       then (give f m (top f + n) (top f) (blank n), EFI_SUCCESS, top f) else (f, m, refuse, address))
  (fun f m _ _ => (f, m, EFI_SUCCESS))
  (fun f m buffer a =>
     if map_size a <? 48 then (f, m, EFI_BUFFER_TOO_SMALL, MapArgs 48 7 48 1)
     else match store_bytes m buffer HandoffSample.descriptor with
          | Some m => (f, m, EFI_SUCCESS, MapArgs 48 7 48 1)
          | None => (f, m, EFI_INVALID_PARAMETER, MapArgs 48 7 48 1)
          end)
  (fun f m _ size pointer =>
     if (0 <? size) && (top f + size <=? CEILING)
     then (give f m (top f + size) (top f) (blank size), EFI_SUCCESS, top f) else (f, m, refuse, pointer))
  (fun f m _ => (f, m, EFI_SUCCESS))
  (fun f m _ guid interface =>
     if bool_decide (guid = BBP_EFI_LOADED_IMAGE_GUID) then
       if top f + 80 <=? CEILING then (give f m (top f + 80) (top f) image_info, EFI_SUCCESS, top f)
       else (f, m, refuse, interface)
     else (f, m, EFI_SUCCESS, 1))
  (fun f m _ _ => (f, m, EFI_SUCCESS))
  (fun f m _ _ => (f, m, EFI_SUCCESS, 2))
  (fun f m _ _ _ _ => (State (next f) (blocks f) 0, m, EFI_SUCCESS, kernel_handle))
  (fun f m _ _ size buffer =>
     if size <? 96 then (f, m, EFI_BUFFER_TOO_SMALL, 96)
     else match store64 m (buffer + 8) (zlen content) with
          | Some m => (f, m, EFI_SUCCESS, 96)
          | None => (f, m, EFI_INVALID_PARAMETER, 96)
          end)
  (fun f m _ amount buffer =>
     let n := Z.min 64 (Z.min amount (zlen content - position f)) in
     if n <? 0 then (f, m, EFI_INVALID_PARAMETER, 0)
     else match store_bytes m buffer (take (Z.to_nat n) (drop (Z.to_nat (position f)) content)) with
     | Some m => (State (next f) (blocks f) (position f + n), m, EFI_SUCCESS, n)
     | None => (f, m, EFI_INVALID_PARAMETER, n)
     end)
  (fun f m _ => (f, m)).

(** *** The laws *)

Lemma lent_elem f r : r ∈ lent f <->
  (0 < r.1 /\ 0 < r.2 /\ (r.1 + r.2 <= FLOOR \/ FLOOR <= r.1 /\ r.1 + r.2 <= top f)) /\ r ∈ blocks f.
Proof. unfold lent. by rewrite elem_of_filter. Qed.

Lemma round_up_mono x y : x <= y -> round_up 4096 x <= round_up 4096 y.
Proof.
  intros H. unfold round_up. rewrite !Z.mod_eq by lia.
  pose proof (Z.div_le_mono (x + (4096 - 1)) (y + (4096 - 1)) 4096 ltac:(lia) ltac:(lia)). lia.
Qed.

Lemma top_is f : Z.max (next f) FLOOR <= top f < Z.max (next f) FLOOR + 4096 /\ top f mod 4096 = 0.
Proof. unfold top. split; [apply round_up_bounds; lia|apply round_up_mod; lia]. Qed.

(** A new block disturbs none. *)
Lemma give_law f m up a bs : next f <= up -> 0 < a -> 0 < zlen bs -> fresh (lent f) a (zlen bs) ->
  a + zlen bs <= FLOOR \/ FLOOR <= a /\ a + zlen bs <= up ->
  let '(f', m') := give f m up a bs in
  undisturbed (lent f) nowhere m m' /\ lent f ⊆ lent f' /\ (a, zlen bs) ∈ lent f' /\ bytes_at m' a bs.
Proof.
  intros Hup Ha Hn Hf Hin. unfold give. set (f' := State _ _ _).
  assert (next f <= next f' /\ top f <= top f' /\ up <= top f') as (_ & Htop & Hup').
  { pose proof (top_is f'). cbn [next f'] in *. split_and!; [done| |lia].
    unfold top. apply round_up_mono. change (next f') with up. lia. }
  split_and!.
  - split; [intros x Hx; apply lookup_union_is_Some; by right|]. intros r x Hr Hx _. apply lookup_union_r, mem_of_outside.
    intros Hx'. destruct (Hf r Hr) as [_ Hd]. by apply (Hd x Hx).
  - intros r Hr. rewrite lent_elem in *. destruct Hr as [(? & ? & ?) ?]. split; [lia|cbn [blocks f']; set_solver].
  - apply lent_elem. cbn [fst snd blocks f']. split; [lia|set_solver].
  - intros i b Hi. apply lookup_union_Some_l. by apply bytes_at_mem_of.
Qed.

Lemma top_fresh f n : fresh (lent f) (top f) n.
Proof.
  intros r [(? & ? & H) _]%lent_elem. pose proof (top_is f). split; [lia|]. unfold inside. cbn [fst snd]. lia.
Qed.

Lemma vacant_fresh f a n : vacant f a n -> fresh (lent f) a (n * EFI_PAGE_SIZE).
Proof.
  intros (? & ? & _ & _ & Hall) r [(? & ? & _) Hr]%lent_elem. specialize (Hall r Hr). cbn beta in Hall. unfold EFI_PAGE_SIZE in *.
  split; [lia|]. unfold inside. cbn [fst snd]. lia.
Qed.

Lemma zlen_blank n : 0 <= n -> zlen (blank n) = n.
Proof. intros H. unfold blank. rewrite zlen_replicate. lia. Qed.

(** The same at the first free page. *)
Lemma give_top f m bs : 0 < zlen bs ->
  let '(f', m') := give f m (top f + zlen bs) (top f) bs in
  undisturbed (lent f) nowhere m m' /\ lent f ⊆ lent f' /\ (top f, zlen bs) ∈ lent f' /\ bytes_at m' (top f) bs.
Proof.
  intros Hn. pose proof (top_is f). apply give_law; [lia|unfold FLOOR in *; lia|done|apply top_fresh|right; lia].
Qed.

(** A call that writes into the buffer it was given. *)
Lemma written R m a bs m' buffer size :
  store_bytes m a bs = Some m' -> buffer <= a -> a + zlen bs <= buffer + size -> undisturbed R (buffer, size) m m'.
Proof.
  intros H ? ?. destruct (frame_store _ _ _ _ H) as [D Hf]. split; [intros x; apply D|].
  intros r x _ _ Hx. apply Hf. unfold inside in Hx. cbn [fst snd] in Hx. lia.
Qed.

Lemma cursor_at f file pos : cursor f file = Some pos -> file = kernel_handle /\ pos = position f /\ 0 <= pos <= zlen content.
Proof. unfold cursor. destruct (_ && _ && _) eqn:G; [|done]. intros [= <-]. bool_to_prop. split_and!; lia. Qed.

Lemma quiet f m : undisturbed (lent f) nowhere m m /\ lent f ⊆ lent f.
Proof. split; [apply undisturbed_refl|done]. Qed.

Lemma quiet_others p f m : undisturbed (others p (lent f)) nowhere m m /\ others p (lent f) ⊆ lent f.
Proof. split; [apply undisturbed_refl|]. intros r Hr. by apply elem_of_filter in Hr as [_ ?]. Qed.

Lemma read_law f m file amount buffer f' m' st n pos :
  FileRead efi f m file amount buffer = (f', m', st, n) -> cursor f file = Some pos ->
  undisturbed (lent f) (buffer, amount) m m' /\ lent f ⊆ lent f' /\
  (st = EFI_SUCCESS -> mapped m buffer amount ->
     0 <= n <= amount /\ pos + n <= zlen content /\ cursor f' file = Some (pos + n) /\
     bytes_at m' buffer (take (Z.to_nat n) (drop (Z.to_nat pos) content))).
Proof.
  intros E (-> & -> & Hpos)%cursor_at. cbn [FileRead efi] in E. set (k := Z.min 64 _) in E.
  destruct (Z.ltb_spec k 0) as [|Hk]; [injection E as <- <- <- <-; split_and!; [apply undisturbed_refl|done|done]|].
  destruct (store_bytes _ _ _) as [m1|] eqn:Es; injection E as <- <- <- <-; [|split_and!; [apply undisturbed_refl|done|done]].
  assert (k <= amount /\ position f + k <= zlen content) as [? ?] by (unfold k; lia).
  assert (zlen (take (Z.to_nat k) (drop (Z.to_nat (position f)) content)) = k) as Hz
    by (unfold zlen in *; rewrite length_take, length_drop; lia).
  split_and!; [eapply written; [exact Es|lia|lia]|done|]. intros _ _. split_and!; try lia.
  - unfold cursor. cbn [position]. by replace (_ && _ && _) with true by (unfold kernel_handle; lia).
  - by eapply store_bytes_at.
Qed.

Lemma pages_law f m kind memory pages address f' m' st out :
  AllocatePages efi f m kind memory pages address = (f', m', st, out) ->
  undisturbed (lent f) nowhere m m' /\ lent f ⊆ lent f' /\
  (st = EFI_SUCCESS -> 0 < pages ->
     (out, pages * EFI_PAGE_SIZE) ∈ lent f' /\ fresh (lent f) out (pages * EFI_PAGE_SIZE) /\
     mapped m' out (pages * EFI_PAGE_SIZE) /\ 0 <= out /\ out mod EFI_PAGE_SIZE = 0 /\
     (kind = AllocateMaxAddress -> out + pages * EFI_PAGE_SIZE - 1 <= address)).
Proof.
  cbn [AllocatePages efi]. set (n := pages * EFI_PAGE_SIZE).
  assert (0 < pages -> zlen (blank n) = n) as Hz by (intros; apply zlen_blank; unfold n, EFI_PAGE_SIZE; lia).
  destruct (Z.eqb_spec kind AllocateAddress) as [Ek|Nk]; [destruct (decide _) as [Hv|]|destruct (_ && _ && _) eqn:G].
  - pose proof Hv as (Hp & Ha & Hal & Hfl & _). specialize (Hz Hp). intros [= <- <- <- <-].
    pose proof (give_law f m (next f) address (blank n)) as H. rewrite Hz in H. unfold give in H. rewrite Hz in H.
    destruct H as (Hu & Hl & Hin & Hat); [lia|done|unfold n, EFI_PAGE_SIZE; lia|by apply vacant_fresh|by left|].
    split_and!; [done|by rewrite Hz|]. intros _ _. split_and!; [by rewrite Hz|by apply vacant_fresh| |lia|done|].
    + apply bytes_at_mapped in Hat. by rewrite Hz in Hat.
    + intros Hk. by rewrite Hk in Ek.
  - intros [= <- <- <- <-]. split_and!; [apply quiet|done|done].
  - bool_to_prop. specialize (Hz ltac:(lia)). intros [= <- <- <- <-].
    pose proof (give_top f m (blank n)) as H'. unfold give in H'. rewrite Hz in H'.
    destruct H' as (Hu & Hl & Hin & Hat); [unfold n, EFI_PAGE_SIZE; lia|].
    pose proof (top_is f) as [? ?]. split_and!; [done|by rewrite Hz|]. intros _ _. split_and!; [by rewrite Hz|by apply top_fresh| |unfold FLOOR in *; lia|done|done].
    apply bytes_at_mapped in Hat. by rewrite Hz in Hat.
  - intros [= <- <- <- <-]. split_and!; [apply quiet|done|done].
Qed.

Context (Hsize : zlen content < 2 ^ 64).

#[global] Instance lawful : Firmware efi lent cursor content.
Proof.
  split; [exact pages_law| | | | | | | | | |exact read_law|];
    cbn [AllocatePages FreePages GetMemoryMap AllocatePool FreePool HandleProtocol ExitBootServices OpenVolume
      FileOpen FileGetInfo FileClose efi].
  - intros f m address pages f' m' st [= <- <- <-]. apply quiet_others.
  - intros f m buffer a f' m' st a'. destruct (Z.ltb_spec (map_size a) 48).
    { intros [= <- <- <- <-]. cbn [map_size descriptor_size]. split_and!; [apply undisturbed_refl|done|done..]. }
    destruct (store_bytes _ _ _) as [m1|] eqn:E; intros [= <- <- <- <-]; cbn [map_size descriptor_size];
      (split_and!; [|done|done..]); [|apply undisturbed_refl]. eapply written; [exact E|lia|]. change (zlen _) with 48. lia.
  - intros f m memory size pointer f' m' st out. destruct (_ && _) eqn:G; intros [= <- <- <- <-].
    2: { split_and!; [apply quiet|done|done|done]. }
    bool_to_prop. pose proof (zlen_blank size ltac:(lia)) as Hz. pose proof (give_top f m (blank size)) as H'. unfold give in H'.
    rewrite Hz in H'. destruct H' as (Hu & Hl & Hin & Hat); [lia|]. pose proof (top_is f) as [? _].
    split_and!; [done|by rewrite Hz|done|]. intros _ _. split_and!; [by rewrite Hz|apply top_fresh| |unfold FLOOR in *; lia].
    apply bytes_at_mapped in Hat. by rewrite Hz in Hat.
  - intros f m p f' m' st [= <- <- <-]. apply quiet_others.
  - intros f m handle guid interface f' m' st out. case_bool_decide as Hg; [destruct (_ <=? _) eqn:G|]; intros [= <- <- <- <-].
    + destruct (give_top f m image_info) as (Hu & Hl & Hin & Hat); [done|]. pose proof (top_is f) as [? _].
      split_and!; [done|done|]. intros _ _. split; [unfold FLOOR in *; lia|]. by apply bytes_at_mapped in Hat.
    + split_and!; [apply quiet|done|done].
    + split_and!; [apply quiet|done|]. by intros _ ->.
  - intros f m image key f' m' st [= <- <- <-]. apply quiet.
  - intros f m fs root f' m' st out [= <- <- <- <-]. apply quiet.
  - intros f m root file path mode f' m' st out [= <- <- <- <-]. split_and!; [apply undisturbed_refl|done|].
    intros _ _. unfold cursor. cbn [position]. pose proof (zlen_nonneg content). by replace (_ && _ && _) with true by (unfold kernel_handle; lia).
  - intros f m file guid size buffer f' m' st size'. destruct (Z.ltb_spec size 96).
    { intros [= <- <- <- <-]. by split_and!; try apply undisturbed_refl. }
    destruct (store64 _ _ _) as [m1|] eqn:E; intros [= <- <- <- <-];
      split_and!; try done; try apply undisturbed_refl.
    + eapply written; [exact E|lia|]. rewrite zlen_le_encode. lia.
    + intros _ _ _ _ _. pose proof (zlen_nonneg content). apply bytes_at_load_le; [unfold in_word; lia|]. by eapply store_bytes_at.
  - intros f m file f' m' [= <- <-]. apply quiet.
Qed.

#[global] Instance refuses_null : NullRefused efi lent.
Proof. intros f m f' m' st [= <- <- <-]. apply quiet. Qed.

(** *** What it has to give *)

Definition stock : supply state := Supply vacant (fun f => CEILING - top f) (fun _ => 48) 48 96.

Lemma serves_nothing f : serves stock 0 f f.
Proof. split; [done|lia]. Qed.

(** A block above the pages that are given by address. *)
Lemma serves_top f m bs cost : 0 <= zlen bs -> round_up 4096 (zlen bs) <= cost ->
  serves stock cost f (give f m (top f + zlen bs) (top f) bs).1.
Proof.
  intros Hn Hc. pose proof (top_is f) as [Ht Hal]. unfold give. cbn [fst]. split.
  - intros b k (Hk & Hb & Hmod & Hfl & Hall). split_and!; try done. cbn [blocks]. apply set_Forall_union; [|done].
    intros r ->%elem_of_singleton. right. cbn [fst]. lia.
  - cbn [room stock]. set (f' := State _ _ _). assert (top f' = round_up 4096 (top f + zlen bs)) as ->.
    { unfold top at 1. change (next f') with (top f + zlen bs). by rewrite Z.max_l by lia. }
    enough (round_up 4096 (top f + zlen bs) = top f + round_up 4096 (zlen bs)) by lia.
    unfold round_up. rewrite <- Z.add_assoc, (Z.add_mod (top f)), Hal, Z.add_0_l, Zmod_mod by lia. lia.
Qed.

(** A word of a block of bytes. *)
Lemma field_at m a bs n p v xs rest :
  bytes_at m a bs -> bs = xs ++ le_encode n v ++ rest -> in_word (8 * Z.of_nat n) v -> p = a + zlen xs ->
  load_le m p n = Some v.
Proof.
  intros Hat -> Hv ->. apply bytes_at_app in Hat as [_ Hat]. apply bytes_at_app in Hat as [Hat _]. by apply bytes_at_load_le.
Qed.

Lemma sample_descriptor_read m buffer : bytes_at m buffer HandoffSample.descriptor -> map_delivered m buffer 48 48.
Proof.
  intros Hat. exists [HandoffSample.region]. split.
  - change (Z.to_nat (48 / 48)) with 1%nat. cbn [read_descriptors]. unfold read_descriptor, load32, load64.
    rewrite (field_at _ _ _ 4 buffer 7 [] _ Hat eq_refl) by first [unfold in_word; lia|unfold zlen; cbn; lia]. cbn [mbind option_bind].
    rewrite (field_at _ _ _ 8 (buffer + 8) 0x100000 (take 8 HandoffSample.descriptor) _ Hat eq_refl) by first [unfold in_word; lia|unfold zlen; cbn; lia].
    cbn [mbind option_bind].
    rewrite (field_at _ _ _ 8 (buffer + 24) 512 (take 24 HandoffSample.descriptor) _ Hat eq_refl) by first [unfold in_word; lia|unfold zlen; cbn; lia].
    cbn [mbind option_bind].
    by rewrite (field_at _ _ _ 8 (buffer + 32) 9 (take 32 HandoffSample.descriptor) _ Hat eq_refl) by first [unfold in_word; lia|unfold zlen; cbn; lia].
  - constructor; [|constructor]. split_and!; [done|done|]. do 3 right. done.
Qed.

Lemma image_info_low m a : bytes_at m a image_info -> image_low m a.
Proof.
  intros Hat. exists 0x10000000, 0x100000. unfold load64. split_and!; [| |done|done].
  - by eapply (field_at _ _ _ 8 _ _ (replicate 64 x00) _ Hat eq_refl).
  - by eapply (field_at _ _ _ 8 _ _ (replicate 64 x00 ++ le_encode 8 0x10000000) [] Hat); [rewrite app_nil_r, <- app_assoc|..].
Qed.

#[global] Instance obliging : Obliging efi lent cursor content stock.
Proof.
  split; cbn [map_unit info_bytes map_bytes stock].
  - done.
  - done.
  - cbn [AllocatePages efi]. intros f m memory n a f' m' st out E Hn Hv. rewrite Z.eqb_refl, decide_True in E by done.
    injection E as <- <- <- <-. split_and!; [done|done|cbn [room stock]; unfold top; cbn [next]; lia|].
    intros b k (? & ? & ? & ? & Hall) Hd. split_and!; try done. cbn [blocks]. apply set_Forall_union; [|done].
    intros r ->%elem_of_singleton. cbn [fst snd]. rewrite zlen_blank by (unfold EFI_PAGE_SIZE; lia). lia.
  - cbn [AllocatePages efi]. intros f m memory n f' m' st out. change (AllocateMaxAddress =? AllocateAddress) with false.
    unfold EFI_PAGE_SIZE, BBP_IDENTITY_LIMIT, CEILING. intros E Hn Hr. change (room stock f) with (0x80000000 - top f) in Hr.
    replace (_ && _ && _) with true in E by lia. injection E as <- <- <- <-.
    pose proof (top_is f) as [? _]. split_and!; [done|unfold FLOOR in *; lia|].
    pose proof (serves_top f m (blank (n * 4096)) (n * 4096)) as H'. rewrite zlen_blank in H' by lia. unfold give in H'.
    rewrite zlen_blank in H' by lia. rewrite zlen_blank by lia. apply H'; [lia|]. rewrite round_up_id; [lia|lia|apply Z.mod_mul; lia].
  - cbn [AllocatePool efi]. unfold EFI_PAGE_SIZE. intros f m memory n pointer f' m' st out E Hn Hr. change (room stock f) with (CEILING - top f) in Hr.
    replace (_ && _) with true in E by (unfold CEILING in *; lia). injection E as <- <- <- <-. split_and!; [done| |lia].
    pose proof (serves_top f m (blank n) (n + 4096)) as H'. rewrite zlen_blank in H' by lia. unfold give in H'.
    rewrite zlen_blank in H' by lia. rewrite zlen_blank by lia. apply H'; [lia|]. pose proof (round_up_bounds 4096 n ltac:(lia)). lia.
  - intros f m p f' m' st [= <- <- <-]. apply serves_nothing.
  - cbn [HandleProtocol efi]. unfold EFI_PAGE_SIZE. intros f m handle guid interface f' m' st out E Hr. change (room stock f) with (CEILING - top f) in Hr.
    case_bool_decide as Hg.
    + rewrite (proj2 (Z.leb_le (top f + 80) CEILING)) in E by lia. injection E as <- <- <- <-.
      destruct (give_top f m image_info) as (_ & _ & Hin & Hat); [done|].
      split_and!; [|done|]. { by apply (serves_top f m image_info 4096). }
      intros _. split_and!; [done|exact Hin|by apply image_info_low].
    + injection E as <- <- <- <-. split_and!; [split; [done|lia]|done|done].
  - intros f m fs root f' m' st out [= <- <- <- <-]. split; [done|apply serves_nothing].
  - intros f m root file mode f' m' st out [= <- <- <- <-]. split; [done|]. split; [done|cbn [room stock]; unfold top; cbn [next]; lia].
  - cbn [FileGetInfo efi]. intros f m file size buffer f' m' st size' E _ Hm. destruct (Z.ltb_spec size 96) as [Hlt|Hge].
    { injection E as <- <- <- <-. split_and!; [apply serves_nothing|done|done]. }
    destruct (store_bytes_mapped m (buffer + 8) (le_encode 8 (zlen content))) as [m1 Es].
    { rewrite zlen_le_encode. eapply mapped_sub; [exact Hm|lia|lia]. }
    unfold store64 in E. rewrite Es in E. injection E as <- <- <- <-. split_and!; [apply serves_nothing|done|done].
  - cbn [FileRead efi]. intros f m file amount buffer f' m' st n pos E (-> & -> & Hpos)%cursor_at Hlt Ha Hm.
    set (k := Z.min 64 _) in E. assert (0 < k <= amount /\ position f + k <= zlen content) as [? ?] by (unfold k; lia).
    rewrite (proj2 (Z.ltb_ge k 0)) in E by lia.
    destruct (store_bytes_mapped m buffer (take (Z.to_nat k) (drop (Z.to_nat (position f)) content))) as [m1 Es].
    { eapply mapped_sub; [exact Hm|lia|]. unfold zlen. rewrite length_take. lia. }
    rewrite Es in E. injection E as <- <- <- <-. split_and!; [|done|lia]. split; [done|cbn [room stock]; unfold top; cbn [next]; lia].
  - intros f m file f' m' [= <- <-]. apply serves_nothing.
  - cbn [GetMemoryMap efi]. intros f m buffer a f' m' st a' E Hm. destruct (Z.ltb_spec (map_size a) 48) as [Hlt|Hge].
    { injection E as <- <- <- <-. split_and!; try done; apply serves_nothing. }
    destruct (store_bytes_mapped m buffer HandoffSample.descriptor) as [m1 Es].
    { change (zlen _) with 48. eapply mapped_sub; [exact Hm|lia|lia]. }
    rewrite Es in E. injection E as <- <- <- <-. split_and!; try done; try apply serves_nothing. by eapply sample_descriptor_read, store_bytes_at.
  - cbn [ExitBootServices efi]. intros. congruence.
Qed.
End File.

(** The machine the samples start from, with a system table. *)
Definition start : machine state := Machine (State FLOOR ∅ 0) (mem_of 4096 (replicate 96 x00 ++ le_encode 8 512)) [].

Lemma start_services : load64 (mc_mem start) (4096 + 96) = Some 512.
Proof. vm_compute. reflexivity. Qed.

Lemma start_table : mapped (mc_mem start) (4096 + 96) 8.
Proof. apply (load_mapped _ _ 8 (le_encode 8 512)). vm_compute. reflexivity. Qed.

(** The kernel of [KernelSample] can be booted. *)
Lemma start_launch : launch KernelSample.bytes stock 4096 start.
Proof.
  split.
  - split; [done|]. exists 512. split; [apply start_services|done].
  - done.
  - intros p ->%KernelSample.only_plan. rewrite KernelSample.planned_is. split.
    + constructor; [|constructor]. intros _. split; [done|]. vm_compute. discriminate.
    + intros r [<-|[]]. cbn [fst snd]. split_and!; [done|done|done|done|]. apply set_Forall_empty.
  - vm_compute. discriminate.
Qed.

(** The file of [ElfSample] is read. *)
Definition whole_file_read : bool :=
  match read_kernel (efi ElfSample.bytes) 1 176 start with
  | Some (_, (st, Some (b, size, loaded))) => (st =? 0) && (b =? 0x40002000) && (size =? 176) && (loaded =? 0x40000000)
  | _ => false
  end.

Lemma whole_file_read_true : whole_file_read = true.
Proof. vm_compute. reflexivity. Qed.

(** The loader jumps into the kernel of [KernelSample]. *)
Lemma sample_boots : exists w' cr3 rsp rdi rip,
  efi_main (efi KernelSample.bytes) 1 4096 360 start = Some (w', Jumped cr3 rsp rdi rip).
Proof.
  destruct (runs_efi_main (efi KernelSample.bytes) lent (cursor KernelSample.bytes) KernelSample.bytes
    (Hfw := lawful KernelSample.bytes eq_refl) (Hnull := refuses_null KernelSample.bytes) stock true
    (fun _ => obliging KernelSample.bytes) 1 4096 360 start (fun _ => start_table)) as (w' & out & E & _ & Hdec).
  { rewrite KernelSample.size_is. lia. } { rewrite KernelSample.size_is. lia. } { intros _. exact start_launch. }
  specialize (Hdec eq_refl). destruct out as [reason|reason|cr3 rsp rdi rip];
    [destruct (KernelSample.faultless _ Hdec)|destruct Hdec|by do 5 eexists].
Qed.

(** The file it reads is that kernel. *)
Lemma sample_read : exists w' st b loaded,
  read_kernel (efi KernelSample.bytes) 1 360 start = Some (w', (st, Some (b, 360, loaded))) /\
  b <> 0 /\ bytes_at (mc_mem w') b KernelSample.bytes.
Proof.
  destruct (runs_read_kernel (efi KernelSample.bytes) lent (cursor KernelSample.bytes) KernelSample.bytes
    (Hfw := lawful KernelSample.bytes eq_refl) stock true (fun _ => obliging KernelSample.bytes) 1 360 start
    (file_pages KernelSample.bytes) PREPARE_COST) as (w' & [st res] & E & H);
    [done|done|rewrite KernelSample.size_is; lia|rewrite KernelSample.size_is; lia| |].
  { apply (launch_offers KernelSample.bytes stock true 4096). intros _. exact start_launch. }
  destruct res as [[[b size] loaded]|]; [|done]. destruct H as (-> & (_ & Hb & _ & Hat) & _).
  exists w', st, b, loaded. split_and!; [exact E|lia|exact Hat].
Qed.
End BumpFirmware.
