(* ===== verification/LoaderLeak.v ===== *)
(** * What the loader holds

    [leaves c pre post] accounts for resources: a run of [c] that starts with
    [pre] ends with [post] of its result, whatever the firmware answers.  The
    main function returns holding nothing, and jumps holding exactly what the
    kernel needs. *)

From stdpp Require Import strings.
From S2P Require Import Prelude Memory Crc64 Abi KernelParser Builder ElfPlan UefiExit Paging Loader LoaderMain LoaderSample.

(** NULL is not a resource. *)
Definition real (r : resource) : bool :=
  match r with Pages a _ | Pool a | File a => negb (a =? 0) end.

Definition one_if (P : Prop) `{Decision P} : Z := if decide P then 1 else 0.

(** How many times a resource was obtained, was left behind by a failing call,
    and was given back. *)
Fixpoint obtained (r : resource) (es : list trace_event) : Z :=
  match es with
  | [] => 0
  | Got x :: es => one_if (x = r) + obtained r es
  | _ :: es => obtained r es
  end.

Fixpoint strayed (r : resource) (es : list trace_event) : Z :=
  match es with
  | [] => 0
  | Stray x :: es => one_if (x = r) + strayed r es
  | _ :: es => strayed r es
  end.

Fixpoint released (r : resource) (es : list trace_event) : Z :=
  match es with
  | [] => 0
  | Gave x :: es => one_if (x = r) + released r es
  | _ :: es => released r es
  end.

Definition tally (r : resource) (es : list trace_event) : Z := obtained r es + strayed r es - released r es.

Fixpoint amount (r : resource) (rs : list resource) : Z :=
  match rs with
  | [] => 0
  | x :: rs => one_if (x = r) + amount r rs
  end.

Lemma tally_app r xs ys : tally r (xs ++ ys) = tally r xs + tally r ys.
Proof.
  unfold tally. induction xs as [|[x|x|x] xs IH]; cbn [app obtained strayed released]; lia.
Qed.

Lemma tally_one r e : tally r [e] = match e with Got x | Stray x => one_if (x = r) | Gave x => - one_if (x = r) end.
Proof. unfold tally. destruct e; cbn [obtained strayed released]; lia. Qed.

Lemma amount_app r xs ys : amount r (xs ++ ys) = amount r xs + amount r ys.
Proof. induction xs as [|x xs IH]; cbn [app amount]; lia. Qed.

Lemma amount_reverse r xs : amount r (reverse xs) = amount r xs.
Proof.
  induction xs as [|x xs IH]; [done|]. rewrite reverse_cons, amount_app, IH. cbn [amount]. lia.
Qed.

Lemma one_if_unreal x r : real r = true -> real x = false -> one_if (x = r) = 0.
Proof. intros Hr Hx. unfold one_if. rewrite decide_False; [done|]. intros ->. congruence. Qed.

(** The pages of a list of segments. *)
Definition segment_resources (segments : list bbp_elf64_segment_plan) : list resource :=
  map (fun s => Pages (s_page_base s) (s_page_count s))
    (List.filter (fun s => negb (s_page_count s =? 0)) segments).

Section Leaves.
Context {F : Type} (efi : efi_services F).

Definition leaves {A} (c : loader F A) (pre : list resource) (post : A -> list resource) : Prop :=
  forall w w' a, c w = Some (w', a) -> forall r, real r = true ->
    tally r (mc_log w') + amount r pre = tally r (mc_log w) + amount r (post a).

(** ** Rules *)

Lemma leaves_conseq {A} (c : loader F A) pre post pre' post' :
  leaves c pre post ->
  (forall a r, real r = true -> amount r pre' - amount r (post' a) = amount r pre - amount r (post a)) ->
  leaves c pre' post'.
Proof. intros H Hd w w' a Hc r Hr. specialize (H w w' a Hc r Hr). specialize (Hd a r Hr). lia. Qed.

Lemma leaves_ret {A} (a : A) pre post :
  (forall r, real r = true -> amount r pre = amount r (post a)) -> leaves (mret a) pre post.
Proof. intros H w w' b [= <- <-] r Hr. by rewrite H. Qed.

Lemma leaves_bind {A B} (c : loader F A) (k : A -> loader F B) pre mid post :
  leaves c pre mid -> (forall a, leaves (k a) (mid a) post) -> leaves (c ≫= k) pre post.
Proof.
  intros Hc Hk w w' b Hb r Hr. unfold mbind, loader_bind in Hb.
  destruct (c w) as [[w1 a]|] eqn:E; [|done]. specialize (Hc _ _ _ E r Hr). specialize (Hk a _ _ _ Hb r Hr). lia.
Qed.

(** The first part only adds or removes, the rest is kept. *)
Lemma leaves_step {A B} (c : loader F A) (k : A -> loader F B) used given pre rest post :
  leaves c used given ->
  (forall r, real r = true -> amount r pre = amount r used + amount r rest) ->
  (forall a, leaves (k a) (given a ++ rest) post) -> leaves (c ≫= k) pre post.
Proof.
  intros Hc Hp Hk. eapply leaves_bind; [|exact Hk]. eapply leaves_conseq; [exact Hc|].
  intros a r Hr. rewrite amount_app, Hp by done. lia.
Qed.

Lemma leaves_peek {A} (f : mem -> option A) : leaves (peek f) [] (fun _ => []).
Proof. intros w w' a H r Hr. unfold peek in H. bind_inv. by injection H as <- <-. Qed.

Lemma leaves_poke f : leaves (poke f) [] (fun _ => []).
Proof. intros w w' a H r Hr. unfold poke in H. bind_inv. by injection H as <- <-. Qed.

Lemma leaves_update {A} (f : mem -> option (mem * A)) : leaves (update f) [] (fun _ => []).
Proof. intros w w' a H r Hr. unfold update in H. bind_inv. destruct v. by injection H as <- <-. Qed.

Lemma leaves_fuel {A} pre (post : A -> list resource) : leaves out_of_fuel pre post.
Proof. done. Qed.

(** ** Services *)

Tactic Notation "service" reference(c) :=
  intros w w' res H r Hr; unfold c in H; repeat case_match; injection H as <- <-;
  unfold record_event; cbn [mc_log]; rewrite tally_app; repeat case_match; rewrite ?tally_one; cbn [amount];
  subst; try change (tally r []) with 0; congruence || lia.

Lemma leaves_AllocatePages kind memory n address :
  leaves (call_AllocatePages efi kind memory n address) []
    (fun '(st, out) => if st =? EFI_SUCCESS then [Pages out n] else []).
Proof. service call_AllocatePages. Qed.

Lemma leaves_FreePages address n : leaves (call_FreePages efi address n) [Pages address n] (fun _ => []).
Proof. service call_FreePages. Qed.

(** The pointer has to be given back whether the call succeeded or not. *)
Lemma leaves_AllocatePool memory size p :
  leaves (call_AllocatePool efi memory size p) [] (fun '(st, out) => [Pool out]).
Proof. service call_AllocatePool. Qed.

Lemma leaves_FreePool p : leaves (call_FreePool efi p) [Pool p] (fun _ => []).
Proof. service call_FreePool. Qed.

Lemma leaves_GetMemoryMap b a : leaves (call_GetMemoryMap efi b a) [] (fun _ => []).
Proof. service call_GetMemoryMap. Qed.

Lemma leaves_HandleProtocol h g i : leaves (call_HandleProtocol efi h g i) [] (fun _ => []).
Proof. service call_HandleProtocol. Qed.

Lemma leaves_OpenVolume fs root :
  leaves (call_OpenVolume efi fs root) [] (fun '(st, out) => if st =? EFI_SUCCESS then [File out] else []).
Proof. service call_OpenVolume. Qed.

Lemma leaves_Open root file path mode :
  leaves (call_Open efi root file path mode) [] (fun '(st, out) => [File out]).
Proof. service call_Open. Qed.

Lemma leaves_GetInfo file g s b : leaves (call_GetInfo efi file g s b) [] (fun _ => []).
Proof. service call_GetInfo. Qed.

Lemma leaves_Read file n b : leaves (call_Read efi file n b) [] (fun _ => []).
Proof. service call_Read. Qed.

Lemma leaves_Close file : leaves (call_Close efi file) [File file] (fun _ => []).
Proof. service call_Close. Qed.

(** [if (p) release(p);] releases [p] in either case. *)
Lemma leaves_when (c : bool) action x :
  leaves action [x] (fun _ => []) -> (c = false -> real x = false) ->
  leaves (when_do c action) [x] (fun _ => []).
Proof.
  intros H Hx. destruct c; [done|]. apply leaves_ret. intros r Hr. cbn [amount].
  rewrite (one_if_unreal x r) by auto. lia.
Qed.
End Leaves.

(** Account for the rest by arithmetic on amounts. *)
Ltac amounts :=
  intros; cbn [amount app]; rewrite ?amount_app, ?amount_reverse; cbn [amount app]; lia.

(** The guard of a release is [real] itself. *)
Ltac unreal := exact (fun E => E).

(** One step of a program whose resource rule is known. *)
Tactic Notation "leaves_next" open_constr(rule) open_constr(rest) :=
  eapply (leaves_step _ _ _ _ _ rest); [eapply rule; try apply _|amounts|]; cbn beta.

(** ** The functions of the loader *)

Section Functions.
Context {F : Type} (efi : efi_services F).

Lemma leaves_low_pages n : leaves (allocate_low_pages efi n 0) [] (fun '(st, out) => [Pages out n]).
Proof.
  unfold allocate_low_pages. leaves_next leaves_AllocatePages (@nil resource). intros [st out].
  destruct (st =? EFI_SUCCESS).
  - leaves_next @leaves_poke [Pages out n]. intros []. apply leaves_ret. amounts.
  - apply leaves_ret. intros r Hr. cbn [amount app]. rewrite (one_if_unreal (Pages 0 n)) by done. lia.
Qed.

Lemma leaves_read_loop file info buffer fuel : forall done,
  leaves (read_loop efi file info buffer done fuel) [] (fun _ => []).
Proof.
  induction fuel as [|fuel IH]; intros done; cbn [read_loop];
    leaves_next @leaves_peek (@nil resource); intros size; (destruct (done <? size); [|by apply leaves_ret]).
  - apply leaves_fuel.
  - leaves_next leaves_Read (@nil resource). intros [st n]. destruct (_ || _); [by apply leaves_ret|apply IH].
Qed.

Definition file_result (res : Z * Z * Z * option (Z * Z)) : list resource :=
  let '(_, info, buffer, result) := res in
  [Pool info; Pool buffer; Pool (match result with Some (b, _) => b | None => 0 end)].

Lemma amount_null r (rs : list resource) : real r = true -> amount r (Pool 0 :: rs) = amount r rs.
Proof. intros Hr. cbn [amount]. rewrite (one_if_unreal (Pool 0)) by done. lia. Qed.

Ltac pools :=
  intros; cbn [amount app file_result]; rewrite ?(one_if_unreal (Pool 0)) by done; lia.

Lemma leaves_read_file file fuel : leaves (read_file efi file fuel) [] file_result.
Proof.
  unfold read_file. leaves_next leaves_GetInfo (@nil resource). intros [st size].
  destruct (_ || _); [apply leaves_ret; pools|]. leaves_next leaves_AllocatePool (@nil resource). intros [st1 info].
  destruct (negb _); [apply leaves_ret; pools|]. leaves_next leaves_GetInfo [Pool info]. intros [st2 size2].
  destruct (negb _); [apply leaves_ret; pools|]. leaves_next @leaves_peek [Pool info]. intros fsize.
  destruct (_ || _ || _); [apply leaves_ret; pools|]. leaves_next leaves_AllocatePool [Pool info]. intros [st3 buffer].
  destruct (negb _); [apply leaves_ret; pools|]. leaves_next leaves_read_loop [Pool info; Pool buffer].
  intros ok. destruct ok; [|apply leaves_ret; pools]. leaves_next @leaves_peek [Pool info; Pool buffer].
  intros fsize2. apply leaves_ret. pools.
Qed.

Definition kernel_result (res : Z * option (Z * Z * Z)) : list resource :=
  match res.2 with Some (b, _, _) => [Pool b] | None => [] end.


Lemma leaves_read_kernel image fuel : leaves (read_kernel efi image fuel) [] kernel_result.
Proof.
  unfold read_kernel. leaves_next leaves_HandleProtocol (@nil resource). intros [st loaded].
  destruct (negb _); [by apply leaves_ret|]. leaves_next @leaves_peek (@nil resource). intros device.
  leaves_next leaves_HandleProtocol (@nil resource). intros [st1 filesystem].
  destruct (negb _); [by apply leaves_ret|]. leaves_next leaves_OpenVolume (@nil resource). intros [st2 root].
  destruct (st2 =? EFI_SUCCESS); cbn [negb]; [|by apply leaves_ret].
  leaves_next leaves_Open [File root]. intros [st3 file].
  eapply (leaves_step _ _ [] file_result _ [File file; File root]); [|amounts|].
  { destruct (negb _); [apply leaves_ret; pools|apply leaves_read_file]. }
  intros [[[st4 info] buffer] result]. cbn [file_result].
  set (got := Pool (match result with Some (b, _) => b | None => 0 end)).
  eapply (leaves_step _ _ _ _ _ [Pool buffer; got; File file; File root]);
    [eapply leaves_when; [apply leaves_FreePool|unreal]|amounts|intros []].
  eapply (leaves_step _ _ _ _ _ [Pool buffer; got; File root]);
    [eapply leaves_when; [apply leaves_Close|unreal]|amounts|intros []].
  eapply (leaves_step _ _ _ _ _ [Pool buffer; got]);
    [eapply leaves_when; [apply leaves_Close|unreal]|amounts|intros []].
  eapply (leaves_step _ _ _ _ _ [got]);
    [eapply leaves_when; [apply leaves_FreePool|unreal]|amounts|intros []].
  apply leaves_ret. unfold kernel_result, got. destruct result as [[b s]|]; cbn [option_map snd]; pools.
Qed.

(** ** Segments *)

Lemma segment_resources_cons s segments :
  segment_resources (s :: segments) =
  (if s_page_count s =? 0 then [] else [Pages (s_page_base s) (s_page_count s)]) ++ segment_resources segments.
Proof. unfold segment_resources. cbn [List.filter]. by destruct (s_page_count s =? 0). Qed.

Lemma leaves_release segments :
  leaves (release_segments efi segments) (segment_resources segments) (fun _ => []).
Proof.
  induction segments as [|s segments IH]; cbn [release_segments]; [by apply leaves_ret|].
  rewrite segment_resources_cons. unfold when_do. destruct (s_page_count s =? 0) eqn:E; cbn [negb app].
  - eapply leaves_bind; [by apply (leaves_ret tt _ (fun _ => segment_resources segments))|]. intros []. apply IH.
  - leaves_next leaves_FreePages (segment_resources segments). intros []. apply IH.
Qed.

Lemma leaves_load_segments image : forall segments before,
  leaves (load_segments_from efi image before segments) (segment_resources before)
    (fun st => if st =? EFI_SUCCESS then segment_resources before ++ segment_resources segments else []).
Proof.
  assert (forall before (pre : list resource) st (post : Z -> list resource),
    st <> EFI_SUCCESS -> (forall r, real r = true -> amount r pre = amount r (segment_resources before)) ->
    (forall st, st <> EFI_SUCCESS -> post st = []) ->
    leaves (_ ← release_segments efi before; mret st) pre post) as Hfail.
  { intros before pre st post Hst Hpre Hpost. eapply (leaves_step _ _ _ _ _ []); [apply leaves_release| |].
    - intros r Hr. rewrite Hpre by done. cbn. lia.
    - intros []. apply leaves_ret. intros r Hr. by rewrite Hpost. }
  assert (forall st (l : list resource), st <> EFI_SUCCESS -> (if st =? EFI_SUCCESS then l else []) = []) as Hnil.
  { intros st l Hst. by rewrite (proj2 (Z.eqb_neq _ _) Hst). }
  induction segments as [|s segments IH]; intros before; cbn [load_segments_from].
  { apply leaves_ret. intros r _. rewrite app_nil_r. done. }
  destruct (s_page_count s =? 0) eqn:E.
  { eapply leaves_conseq; [apply (IH (s :: before))|]. intros st r Hr. rewrite !segment_resources_cons, E. cbn [app]. lia. }
  destruct (_ || _); [by apply Hfail; intros; rewrite ?Hnil|].
  leaves_next leaves_AllocatePages (segment_resources before). intros [st physical].
  destruct (Z.eqb_spec st EFI_SUCCESS) as [Hs|Hs]; cbn [negb app]; [|by apply Hfail; intros; rewrite ?Hnil].
  destruct (Z.eqb_spec physical (s_page_base s)) as [->|Hne]; cbn [negb].
  - leaves_next @leaves_poke (Pages (s_page_base s) (s_page_count s) :: segment_resources before). intros [].
    leaves_next @leaves_poke (Pages (s_page_base s) (s_page_count s) :: segment_resources before). intros [].
    cbn [app]. eapply leaves_conseq; [apply (IH (s :: before))|]. intros st1 r Hr. rewrite !segment_resources_cons, E.
    destruct (st1 =? EFI_SUCCESS); cbn [app amount]; rewrite ?amount_app; cbn [amount app]; lia.
  - leaves_next leaves_FreePages (segment_resources before). intros []. by apply Hfail; intros; rewrite ?Hnil.
Qed.

(** ** The geometry check *)

Lemma leaves_preflight_failure map : leaves (preflight_failure efi map) [Pool map] (fun _ => []).
Proof.
  unfold preflight_failure. eapply (leaves_step _ _ _ _ _ []);
    [eapply leaves_when; [apply leaves_FreePool|unreal]|amounts|intros []]. by apply leaves_ret.
Qed.

Lemma leaves_preflight attempts : forall map capacity,
  leaves (preflight_loop efi map capacity attempts) [Pool map] (fun _ => []).
Proof.
  induction attempts as [|attempts IH]; intros map capacity; cbn [preflight_loop]; [apply leaves_preflight_failure|].
  leaves_next leaves_GetMemoryMap [Pool map]. intros [st a]. cbn [app]. destruct (st =? EFI_BUFFER_TOO_SMALL).
  - destruct (_ || _); [apply leaves_preflight_failure|]. destruct (_ <? _); [apply leaves_preflight_failure|].
    eapply (leaves_step _ _ _ _ _ []); [eapply leaves_when; [apply leaves_FreePool|unreal]|amounts|intros []].
    leaves_next leaves_AllocatePool (@nil resource). intros [st1 map1]. cbn [app].
    destruct (negb _); [apply leaves_preflight_failure|apply IH].
  - destruct (_ || _ || _); [apply leaves_preflight_failure|]. leaves_next @leaves_peek [Pool map]. intros ok. cbn [app].
    destruct ok; [|apply leaves_preflight_failure]. leaves_next leaves_FreePool (@nil resource). intros []. by apply leaves_ret.
Qed.
End Functions.

(** ** The exit loop *)

Section Exit.
Context {F : Type} (efi : efi_services F).

(** What the loader holds of [r] in a world of the exit loop. *)
Definition held_of (r : resource) (w : world (machine F)) : Z := tally r (mc_log (fw w)).

Lemma get_map_held r w b a w' st a' :
  call_get_memory_map (exit_ops efi) w b a = (w', st, a') -> held_of r w' = held_of r w.
Proof.
  unfold call_get_memory_map, held_of. cbn [get_memory_map exit_ops]. unfold firmware_get_map.
  destruct (GetMemoryMap _ _ _ _ _) as [[[f m] s] a1]. intros [= <- <- <-]. cbn [fw record_event mc_log].
  by rewrite app_nil_r.
Qed.

Lemma exit_held r w h key w' st :
  call_exit_boot_services (exit_ops efi) w h key = (w', st) -> held_of r w' = held_of r w.
Proof.
  unfold call_exit_boot_services, held_of. cbn [exit_boot_services exit_ops]. unfold firmware_exit.
  destruct (ExitBootServices _ _ _ _ _) as [[f m] s]. intros [= <- <-]. cbn [fw record_event mc_log].
  by rewrite app_nil_r.
Qed.

Lemma allocate_held r w size w' p : real r = true ->
  call_allocate (exit_ops efi) w size = (w', p) -> held_of r w' = held_of r w + amount r [Pool p].
Proof.
  intros Hr. unfold call_allocate, held_of. cbn [allocate exit_ops]. unfold firmware_allocate.
  destruct (AllocatePool _ _ _ _ _ _) as [[[f m] s] out]. intros [= <- <-]. cbn [fw record_event mc_log].
  rewrite tally_app. destruct (s =? EFI_SUCCESS); cbn [negb amount]; [rewrite tally_one; lia|]. change (tally r []) with 0.
  rewrite (one_if_unreal (Pool 0)) by done. lia.
Qed.

Lemma free_held r w p : real r = true ->
  held_of r (call_free (exit_ops efi) w p) + amount r [Pool p] = held_of r w.
Proof.
  intros Hr. unfold call_free, held_of. cbn [free exit_ops fw]. unfold firmware_free.
  destruct (p =? 0) eqn:E; cbn [negb amount].
  - rewrite one_if_unreal by (done || cbn; by rewrite E). lia.
  - destruct (FreePool _ _ _ _) as [[f m] s]. cbn [record_event mc_log]. rewrite tally_app, tally_one. lia.
Qed.

Definition exit_resources (out : bbp_uefi_exit_status * bbp_uefi_exit_result) : list resource :=
  match out.1 with BBP_UEFI_EXIT_OK => [Pool (r_memory_map out.2)] | _ => [] end.

Lemma exit_loop_held r h n : real r = true -> forall w p cap a before,
  let out := exit_loop (exit_ops efi) w h p cap a before n in
  held_of r out.2 + amount r [Pool p] = held_of r w + amount r (exit_resources out.1).
Proof.
  intros Hr. induction n as [|n IH]; intros w p cap a before; cbn [exit_loop]; cbn zeta.
  { cbn [fst snd exit_resources]. pose proof (free_held r w p Hr). cbn [fst snd exit_resources amount r_memory_map] in *. lia. }
  destruct (call_get_memory_map _ _ _ _) as [[w1 st] a1] eqn:E1. apply (get_map_held r) in E1. case_bool_decide.
  - destruct (map_capacity _ _) as [cap'|].
    + pose proof (free_held r w1 p Hr) as Hf. set (w2 := call_free (exit_ops efi) w1 p) in *.
      destruct (call_allocate _ _ _) as [w3 p'] eqn:E3. apply (allocate_held r _ _ _ _ Hr) in E3.
      destruct (p' =? 0) eqn:Ep; [|specialize (IH w3 p' cap' a1 before); cbn zeta in IH; lia].
      cbn [fst snd exit_resources]. cbn [amount] in *.
      rewrite (one_if_unreal (Pool p')) in E3 by (done || cbn; by rewrite Ep). lia.
    + pose proof (free_held r w1 p Hr). cbn [fst snd exit_resources amount r_memory_map] in *. lia.
  - destruct (_ || _ || _); [pose proof (free_held r w1 p Hr); cbn [fst snd exit_resources amount r_memory_map] in *; lia|].
    destruct (call_exit_boot_services _ _ _ _) as [w2 st2] eqn:E2. apply (exit_held r) in E2.
    case_bool_decide; [cbn [fst snd exit_resources amount r_memory_map] in *; lia|]. case_bool_decide; cbn [negb].
    + specialize (IH w2 p cap a1 before). cbn zeta in IH. lia.
    + pose proof (free_held r w2 p Hr). cbn [fst snd exit_resources amount r_memory_map] in *. lia.
Qed.

Lemma leaves_exit image : leaves (exit_firmware efi image) [] exit_resources.
Proof.
  intros w w' out H r Hr. unfold exit_firmware, bbp_uefi_exit_boot_services in H.
  change (tally r (mc_log w)) with (held_of r (World w [])).
  destruct (call_get_memory_map _ _ _ _) as [[w1 st] a1] eqn:E1. apply (get_map_held r) in E1. rewrite <- E1. clear E1.
  case_bool_decide; cbn [negb] in H; [|injection H as <- <-; cbn [fst snd exit_resources amount]; unfold held_of; lia].
  destruct (map_capacity _ _) as [cap|]; [|injection H as <- <-; cbn [fst snd exit_resources amount]; unfold held_of; lia].
  destruct (call_allocate _ _ _) as [w2 p] eqn:E2. apply (allocate_held r _ _ _ _ Hr) in E2.
  destruct (p =? 0) eqn:Ep.
  - injection H as <- <-. cbn [amount] in *. rewrite (one_if_unreal (Pool p)) in E2 by (done || cbn; by rewrite Ep).
    cbn [fst snd exit_resources amount]. unfold held_of in *. lia.
  - pose proof (exit_loop_held r image BBP_UEFI_EXIT_MAX_ATTEMPTS Hr w2 p cap a1 exit_result_zero) as Hl. cbn zeta in Hl.
    destruct (exit_loop _ _ _ _ _ _ _ _) as [[st1 res] w3]. injection H as <- <-. cbn [fst snd] in Hl.
    unfold held_of in *. cbn [amount] in *. lia.
Qed.
End Exit.

(** ** The main function *)

Section Whole.
Context {F : Type} (efi : efi_services F).

Definition loaded_resources (loaded : option bbp_elf64_plan) : list resource :=
  match loaded with Some plan => segment_resources (planned plan) | None => [] end.

Lemma leaves_cleanup t s a loaded kernel_file reason :
  leaves (cleanup efi t s a loaded kernel_file reason)
    ([Pages t BBP_PAGE_TABLE_PAGES; Pages s BBP_STACK_PAGES; Pages a BBP_ARENA_PAGES; Pool kernel_file] ++
     loaded_resources loaded) (fun _ => []).
Proof.
  unfold cleanup. set (L := loaded_resources loaded).
  eapply (leaves_step _ _ _ _ _ ([Pages s BBP_STACK_PAGES; Pages a BBP_ARENA_PAGES; Pool kernel_file] ++ L));
    [eapply leaves_when; [apply leaves_FreePages|unreal]|amounts|intros []].
  eapply (leaves_step _ _ _ _ _ ([Pages a BBP_ARENA_PAGES; Pool kernel_file] ++ L));
    [eapply leaves_when; [apply leaves_FreePages|unreal]|amounts|intros []].
  eapply (leaves_step _ _ _ _ _ ([Pool kernel_file] ++ L));
    [eapply leaves_when; [apply leaves_FreePages|unreal]|amounts|intros []].
  eapply (leaves_step _ _ L (fun _ => []) _ [Pool kernel_file]); [|amounts|intros []].
  { unfold L. destruct loaded; [apply leaves_release|by apply leaves_ret]. }
  eapply (leaves_step _ _ _ _ _ []); [eapply leaves_when; [apply leaves_FreePool|unreal]|amounts|intros []].
  by apply leaves_ret.
Qed.

(** The same with what is left described by a relation. *)
Definition ends {A} (c : loader F A) (pre : list resource) (R : A -> list resource -> Prop) : Prop :=
  forall w w' a, c w = Some (w', a) -> exists rs, R a rs /\
    forall r, real r = true -> tally r (mc_log w') + amount r pre = tally r (mc_log w) + amount r rs.

Lemma ends_leaves {A} (c : loader F A) pre post (R : A -> list resource -> Prop) :
  leaves c pre post -> (forall a, R a (post a)) -> ends c pre R.
Proof. intros H HR w w' a Hc. exists (post a). split; [done|]. intros r Hr. by apply H. Qed.

Lemma ends_ret {A} (a : A) pre rs (R : A -> list resource -> Prop) :
  R a rs -> (forall r, real r = true -> amount r pre = amount r rs) -> ends (mret a) pre R.
Proof. intros HR Hp w w' b [= <- <-]. exists rs. split; [done|]. intros r Hr. by rewrite Hp. Qed.

Lemma ends_step {A B} (c : loader F A) (k : A -> loader F B) used given pre rest R :
  leaves c used given ->
  (forall r, real r = true -> amount r pre = amount r used + amount r rest) ->
  (forall a, ends (k a) (given a ++ rest) R) -> ends (c ≫= k) pre R.
Proof.
  intros Hc Hp Hk w w' b Hb. unfold mbind, loader_bind in Hb. destruct (c w) as [[w1 a]|] eqn:E; [|done].
  destruct (Hk a _ _ _ Hb) as (rs & HR & Ht). exists rs. split; [done|]. intros r Hr.
  specialize (Hc _ _ _ E r Hr). specialize (Ht r Hr). rewrite amount_app in Ht. specialize (Hp r Hr). lia.
Qed.

(** The plan of the file this run reads. *)
Definition kernel_plan (image : Z) (fuel : nat) (w : machine F) : option bbp_elf64_plan :=
  match read_kernel efi image fuel w with
  | Some (w1, (_, Some (kernel_file, size, _))) =>
      match bbp_elf64_plan_fn (mc_mem w1) kernel_file size (Some local_plan) with
      | Some (BBP_ELF64_OK, Some plan) => Some plan
      | _ => None
      end
  | _ => None
  end.

(** The final memory map, the three allocations and the segments of the plan. *)
Definition handed_over (memory_map tables_address stack_address arena_address : Z)
    (plan : bbp_elf64_plan) : list resource :=
  [Pool memory_map; Pages tables_address BBP_PAGE_TABLE_PAGES; Pages stack_address BBP_STACK_PAGES;
   Pages arena_address BBP_ARENA_PAGES] ++ segment_resources (planned plan).

(** A failure leaves nothing.  At the jump the tables are in CR3, the stack is
    below the stack pointer, the arena is the argument and the plan has the
    entry point. *)
Definition left_over (plan : option bbp_elf64_plan) (out : outcome) (rs : list resource) : Prop :=
  match out, plan with
  | Failed_with _, _ => rs = []
  | Halted_with _, Some plan => exists memory_map tables_address stack_address arena_address,
      rs = handed_over memory_map tables_address stack_address arena_address plan
  | Jumped cr3 rsp rdi rip, Some plan => exists memory_map tables_address stack_address,
      rs = handed_over memory_map tables_address stack_address rdi plan /\
      cr3 = wrap64 tables_address /\
      rsp = Z.land (wrap64 (stack_address + BBP_STACK_PAGES * EFI_PAGE_SIZE)) (wrap64 (Z.lnot 15)) /\
      rip = pl_entry plan
  | _, None => False
  end.

Ltac unreals := rewrite ?(one_if_unreal (Pool 0)), ?(one_if_unreal (Pages 0 _)) by done.

Lemma ends_fail p t s a loaded kernel_file reason pre :
  (forall r, real r = true -> amount r pre = amount r
    ([Pages t BBP_PAGE_TABLE_PAGES; Pages s BBP_STACK_PAGES; Pages a BBP_ARENA_PAGES; Pool kernel_file] ++
     loaded_resources loaded)) ->
  ends (cleanup efi t s a loaded kernel_file reason) pre (left_over p).
Proof.
  intros Hp w w' out H. pose proof (leaves_cleanup t s a loaded kernel_file reason w w' out H) as Hl.
  exists []. split; [|intros r Hr; rewrite Hp by done; by apply Hl].
  assert (out = Failed_with reason) as ->; [|done].
  unfold cleanup, mbind, loader_bind in H. repeat case_match; try done; by injection H.
Qed.

Lemma leaves_allocate_handoff :
  leaves (allocate_handoff efi) [] (fun '(_, a, s, t) => [Pages t BBP_PAGE_TABLE_PAGES; Pages s BBP_STACK_PAGES;
    Pages a BBP_ARENA_PAGES]).
Proof.
  unfold allocate_handoff. leaves_next leaves_low_pages (@nil resource). intros [st a].
  destruct (negb _); [apply leaves_ret; intros r Hr; cbn [amount app]; unreals; lia|].
  leaves_next leaves_low_pages [Pages a BBP_ARENA_PAGES]. intros [st1 s].
  destruct (negb _); [apply leaves_ret; intros r Hr; cbn [amount app]; unreals; lia|].
  leaves_next leaves_low_pages [Pages s BBP_STACK_PAGES; Pages a BBP_ARENA_PAGES]. intros [st2 t].
  apply leaves_ret. amounts.
Qed.

(** The tables start where their pages do. *)
Lemma tables_first m tables_address n plan nx unmap m' pool pml4 :
  build_page_tables m (PagePool tables_address 0 n) plan nx unmap = Some (m', pool, Some pml4) ->
  pml4 = wrap64 tables_address.
Proof.
  unfold build_page_tables. unfold table_new at 1. cbn [pool_used pool_count pool_base].
  destruct (0 =? n).
  { destruct (table_new _) as [p2 i]. destruct (table_new _) as [p3 h]. by intros [= ]. }
  rewrite Z.mul_0_l, Z.add_0_r. intros H. repeat (bind_inv || case_match); congruence.
Qed.

(** What [build_handoff] publishes is the arena. *)
Lemma handoff_is_arena m arena_address plan base res m' info :
  build_handoff m arena_address plan base res = Some (m', Some info) -> info = arena_address.
Proof. unfold build_handoff, fill_handoff. intros H. repeat (bind_inv || case_match); congruence. Qed.

Lemma ends_update {A B} (f : mem -> option (mem * A)) (k : A -> loader F B) pre R :
  (forall m m' a, f m = Some (m', a) -> ends (k a) pre R) -> ends (update f ≫= k) pre R.
Proof.
  intros Hk w w' b Hb. unfold mbind, loader_bind, update in Hb.
  destruct (f (mc_mem w)) as [[m' a]|] eqn:E; cbn in Hb; [|done]. exact (Hk _ _ _ E _ _ _ Hb).
Qed.

Lemma ends_hand_over image plan base arena_address stack_address tables_address pml4 :
  pml4 = wrap64 tables_address ->
  ends (hand_over efi image plan base arena_address stack_address tables_address pml4)
    ([Pages tables_address BBP_PAGE_TABLE_PAGES; Pages stack_address BBP_STACK_PAGES;
      Pages arena_address BBP_ARENA_PAGES] ++ segment_resources (planned plan)) (left_over (Some plan)).
Proof.
  intros Hpml. unfold hand_over. set (rest := [Pages tables_address _; _; _] ++ _).
  eapply (ends_step _ _ _ _ _ rest); [apply leaves_exit|amounts|]. intros [st res].
  case_bool_decide as Hst; cbn [negb].
  - subst st. apply ends_update. intros m m' info Hi. cbn [exit_resources fst snd app].
    destruct info as [info|]; [apply handoff_is_arena in Hi; subst info|];
      (eapply ends_ret; [by repeat eexists|done]).
  - apply ends_fail. intros r Hr. unfold rest, exit_resources. cbn [fst].
    destruct st; try done; rewrite !amount_app; cbn [amount loaded_resources]; unreals; lia.
Qed.

(** The main function.  Before the handoff allocations only the segments are
    held, with the file until the header is verified. *)
Lemma ends_prepare image loaded_image header plan base :
  ends (prepare efi image loaded_image header plan base) (segment_resources (planned plan)) (left_over (Some plan)).
Proof.
  unfold prepare. set (rest := segment_resources (planned plan)).
  assert (forall t s a reason pre,
    (forall r, real r = true -> amount r pre = amount r ([Pages t BBP_PAGE_TABLE_PAGES; Pages s BBP_STACK_PAGES;
       Pages a BBP_ARENA_PAGES] ++ rest)) ->
    ends (cleanup efi t s a (Some plan) 0 reason) pre (left_over (Some plan))) as Hfail.
  { intros t s a reason pre Hp. apply ends_fail. intros r Hr. rewrite Hp by done. rewrite !amount_app.
    cbn [amount loaded_resources]. unreals. fold rest. lia. }
  assert (forall reason, ends (cleanup efi 0 0 0 (Some plan) 0 reason) rest (left_over (Some plan))) as Hfail0.
  { intros reason. apply Hfail. intros r Hr. rewrite amount_app. cbn [amount]. unreals. lia. }
  destruct (loaded_image =? 0); [apply Hfail0|].
  eapply (ends_step _ _ _ _ _ rest); [apply leaves_peek|amounts|]. intros image_base. cbn [app].
  destruct (_ <=? _); [apply Hfail0|].
  eapply (ends_step _ _ _ _ _ rest); [apply leaves_peek|amounts|]. intros image_size. cbn [app].
  destruct (_ <? _); [apply Hfail0|].
  eapply (ends_step _ _ _ (fun '(_, a, s, t) => [Pages t BBP_PAGE_TABLE_PAGES; Pages s BBP_STACK_PAGES;
    Pages a BBP_ARENA_PAGES]) _ rest); [apply leaves_allocate_handoff|amounts|]. intros [[[ok a] s] t].
  set (held := [Pages t _; _; _] ++ rest). assert (forall reason, ends (cleanup efi t s a (Some plan) 0 reason) held (left_over (Some plan))) as Hfail1.
  { intros reason. by apply Hfail. }
  destruct ok; [|apply Hfail1].
  eapply (ends_step _ _ _ _ _ held); [apply leaves_peek|amounts|]. intros flags. cbn [app].
  eapply (ends_step _ _ [] (fun _ => []) _ held); [|amounts|].
  { eapply leaves_conseq; [apply (leaves_preflight efi 3 0 0)|]. intros b r Hr. cbn [amount]. unreals. lia. }
  intros ok. cbn [app]. destruct ok; [|apply Hfail1].
  apply ends_update. intros m m' pml4 Hb. destruct pml4 as [pml4|]; [|apply Hfail1].
  apply ends_hand_over. bind_inv. destruct v as [[m1 pool] pml]. simplify_eq. by eapply tables_first.
Qed.

(** From the plan on. *)
Lemma ends_planned image kernel_file loaded_image plan :
  ends (status ← load_segments efi kernel_file plan;
        reject negb (status =? EFI_SUCCESS) with cleanup efi 0 0 0 None kernel_file "PT_LOAD allocation";
        header ← peek (fun m => find_header m plan);
        valid ← (if header =? 0 then mret false else peek (fun m => validate_header_contract m header plan));
        check (valid : bool) else cleanup efi 0 0 0 (Some plan) kernel_file "Bear Header";
        kernel_virtual_base ← peek (fun m => load64 m (header + 48));
        _ ← call_FreePool efi kernel_file;
        prepare efi image loaded_image header plan kernel_virtual_base)
    [Pool kernel_file] (left_over (Some plan)).
Proof.
  eapply (ends_step _ _ _ _ _ [Pool kernel_file]); [apply (leaves_load_segments efi kernel_file (planned plan) [])| |].
  { intros r _. change (segment_resources []) with (@nil resource). cbn [amount]. lia. }
  intros st1. change (segment_resources []) with (@nil resource). cbn [app].
  destruct (st1 =? EFI_SUCCESS); cbn [negb app];
    [|apply ends_fail; intros r Hr; cbn [amount app loaded_resources]; unreals; lia].
  set (rest := segment_resources (planned plan)).
  eapply (ends_step _ _ _ _ _ (rest ++ [Pool kernel_file])); [apply leaves_peek|amounts|]. intros header. cbn [app].
  eapply (ends_step _ _ [] (fun _ => []) _ (rest ++ [Pool kernel_file])); [|amounts|].
  { destruct (header =? 0); [by apply leaves_ret|apply leaves_peek]. }
  intros valid. cbn [app]. destruct valid.
  2: { apply ends_fail. intros r Hr. rewrite !amount_app. cbn [amount app loaded_resources]. unreals. fold rest. lia. }
  eapply (ends_step _ _ _ _ _ (rest ++ [Pool kernel_file])); [apply leaves_peek|amounts|]. intros base. cbn [app].
  eapply (ends_step _ _ _ _ _ rest); [apply leaves_FreePool|amounts|]. intros []. cbn [app]. apply ends_prepare.
Qed.

Lemma main_releases image system_table fuel w w' out :
  efi_main efi image system_table fuel w = Some (w', out) ->
  exists rs, left_over (kernel_plan image fuel w) out rs /\
    forall r, real r = true -> tally r (mc_log w') = tally r (mc_log w) + amount r rs.
Proof.
  assert (forall reason, (mret (Failed_with reason) : loader F outcome) w = Some (w', out) -> exists rs,
    left_over (kernel_plan image fuel w) out rs /\
    forall r, real r = true -> tally r (mc_log w') = tally r (mc_log w) + amount r rs) as Hret.
  { intros reason [= <- <-]. exists []. split; [done|]. intros r _. cbn [amount]. lia. }
  unfold efi_main. destruct (system_table =? 0); [apply Hret|]. unfold mbind at 1, loader_bind, peek at 1.
  destruct (load64 _ _) as [boot|]; [|done]. cbn [mbind option_bind]. destruct (boot =? 0); [apply Hret|].
  unfold mbind at 1, loader_bind. destruct (read_kernel efi image fuel w) as [[w1 [st result]]|] eqn:Er; [|done].
  pose proof (leaves_read_kernel efi image fuel _ _ _ Er) as Hk.
  assert (forall p, kernel_plan image fuel w = p -> forall c, c w1 = Some (w', out) ->
    ends c (kernel_result (st, result)) (left_over p) -> exists rs, left_over (kernel_plan image fuel w) out rs /\
    forall r, real r = true -> tally r (mc_log w') = tally r (mc_log w) + amount r rs) as Hc.
  { intros p -> c E Hc. destruct (Hc _ _ _ E) as (rs & Hl & Ht). exists rs. split; [done|]. intros r Hr.
    specialize (Hk r Hr). specialize (Ht r Hr). cbn [amount] in Hk. lia. }
  destruct result as [[[kernel_file size] loaded_image]|].
  2: { intros E. eapply Hc; [done|exact E|]. by apply (ends_ret _ _ []). }
  unfold mbind at 1, loader_bind, peek at 1. intros E. cbn [kernel_result snd] in Hc.
  destruct (bbp_elf64_plan_fn _ _ _ _) as [[pst [plan|]]|] eqn:Ep; cbn [mbind option_bind] in E; [|done..].
  eapply Hc; [unfold kernel_plan; by rewrite Er, Ep|exact E|]. destruct pst; try apply ends_planned;
    (apply ends_fail; intros r Hr; cbn [amount app loaded_resources]; unreals; lia).
Qed.
End Whole.

(** ** A firmware *)

(** A bump allocator and one file of 64 zero bytes, which is no ELF image; the
    state is the next free address. *)
Module SmallFirmware.
Definition grant (f : Z) (m : mem) (size : Z) : Z * mem :=
  (f + round_up 4096 size, m ∪ mem_of f (replicate (Z.to_nat size) x00)).

Definition efi : efi_services Z := {|
  AllocatePages f m kind memory pages address :=
    let '(f', m') := grant f m (pages * 4096) in (f', m', EFI_SUCCESS, f);
  FreePages f m address pages := (f, m, EFI_SUCCESS);
  GetMemoryMap f m buffer a := (f, m, EFI_LOAD_ERROR, a);
  AllocatePool f m memory size pointer :=
    let '(f', m') := grant f m size in (f', m', EFI_SUCCESS, f);
  FreePool f m pointer := (f, m, EFI_SUCCESS);
  HandleProtocol f m handle guid interface := (f, m, EFI_SUCCESS, 4096);
  ExitBootServices f m image key := (f, m, EFI_LOAD_ERROR);
  OpenVolume f m filesystem root := (f, m, EFI_SUCCESS, 5000);
  FileOpen f m root file path mode := (f, m, EFI_SUCCESS, 6000);
  FileGetInfo f m file guid size buffer :=
    if buffer =? 0 then (f, m, EFI_BUFFER_TOO_SMALL, 24)
    else (f, default m (store64 m (buffer + 8) 64), EFI_SUCCESS, 24);
  FileRead f m file amount buffer := (f, m, EFI_SUCCESS, Z.min 40 amount);
  FileClose f m file := (f, m);
|}.

(** The system table at 4096 and the loaded-image protocol in one page. *)
Definition memory : mem := mem_of 4096 (replicate 96 x00 ++ le_encode 8 8192).

Definition run : option (machine Z * outcome) := efi_main efi 1 4096 2 (Machine 65536 memory []).

Lemma run_fails :
  match run with
  | Some (w, Failed_with reason) =>
      bool_decide (reason = "ELF64 plan"%string) && (length (mc_log w) =? 8)%nat &&
      (tally (Pool 69632) (take 5 (mc_log w)) =? 1)
  | _ => false
  end = true.
Proof. vm_compute. reflexivity. Qed.

(** The same with a pool that is exhausted and leaves a pointer the caller must
    not use. *)
Definition poor : efi_services Z := {|
  AllocatePages := AllocatePages efi;
  FreePages := FreePages efi;
  GetMemoryMap := GetMemoryMap efi;
  AllocatePool f m memory size pointer := (f, m, 0x8000000000000009, 0xdead0000);
  FreePool := FreePool efi;
  HandleProtocol := HandleProtocol efi;
  ExitBootServices := ExitBootServices efi;
  OpenVolume := OpenVolume efi;
  FileOpen := FileOpen efi;
  FileGetInfo := FileGetInfo efi;
  FileRead := FileRead efi;
  FileClose := FileClose efi;
|}.
End SmallFirmware.

(** The labels of the loader test pointers and not statuses: a pool block that
    was never obtained is given to FreePool. *)
Example stray_pointer_freed :
  match efi_main SmallFirmware.poor 1 4096 2 (Machine 65536 SmallFirmware.memory []) with
  | Some (w, _) =>
      (obtained (Pool 0xdead0000) (mc_log w) =? 0) && (released (Pool 0xdead0000) (mc_log w) =? 1)
  | None => false
  end = true.
Proof. vm_compute. reflexivity. Qed.

(** The plan of the kernel that [BumpFirmware] serves. *)
Lemma sample_plan :
  kernel_plan (BumpFirmware.efi KernelSample.bytes) 1 360 BumpFirmware.start = Some KernelSample.plan.
Proof.
  destruct BumpFirmware.sample_read as (w & st & b & loaded & E & Hb & Hat). unfold kernel_plan. rewrite E.
  pose proof (KernelSample.plan_anywhere _ _ Hb Hat) as Hp. rewrite KernelSample.size_is in Hp. by rewrite Hp.
Qed.


