(* ===== verification/LoaderProps.v ===== *)
(** * The loader's properties on a lawful firmware

    Reading the kernel ends with the whole file, and the loader as a whole jumps
    only into the machine it promises, and does jump when the firmware grants
    what it asks for and the file is not to blame. *)

From stdpp Require Import strings gmap.
From S2P Require Import Prelude Memory Crc64 Abi KernelParser Builder ElfPlan UefiExit Paging PagingProps Loader LoaderMain LoaderMap LoaderHandoff LoaderFind LoaderLaws LoaderGrants LoaderRead LoaderSegments LoaderServices LoaderKernel LoaderBoot LoaderSample.

(** A supply that promises nothing. *)
Definition unpromising {F} : supply F := Supply (fun _ _ _ => False) (fun _ => 0) (fun _ => 0) 0 0.

(** C20: reading the kernel always ends, with one call of the firmware per byte
    of the file as the only bound: on every lawful firmware, however few bytes
    each read delivers, the program returns, and a return that reports success
    has the whole file, of an admissible size, in one pool block of its own,
    and a readable description of the loaded image. *)
Theorem kernel_read_ends {F : Type} (efi : efi_services F) (lent : F -> gset (Z * Z))
    (cursor : F -> Z -> option Z) (content : list byte) (Hfw : Firmware efi lent cursor content)
    (image : Z) (fuel : nat) (w : machine F) :
  zlen content <= Z.of_nat fuel -> zlen content < 2 ^ 64 ->
  exists w' st res, read_kernel efi image fuel w = Some (w', (st, res)) /\
    match res with
    | Some (b, size, loaded) =>
        size = zlen content /\ 64 <= size <= BBP_MAX_KERNEL_FILE /\
        (b, size) ∈ lent (mc_fw w') /\ bytes_at (mc_mem w') b content /\ 0 < b /\
        0 < loaded /\ mapped (mc_mem w') loaded 80
    | None => True
    end.
Proof.
  intros Hfuel Hmax. destruct (runs_read_kernel efi lent cursor content unpromising false ltac:(done) image fuel w (fun _ => False) 0)
    as (w' & [st res] & E & H); [done|done|done|done|done|].
  exists w', st, res. split; [done|]. destruct res as [[[b size] loaded]|]; [|done].
  destruct H as (-> & (? & ? & ? & ?) & ? & ? & _). done.
Qed.

Lemma kernel_read_ends_witness :
  exists w' b, read_kernel (BumpFirmware.efi ElfSample.bytes) 1 176 BumpFirmware.start =
    Some (w', (EFI_SUCCESS, Some (b, 176, 0x40000000))) /\ bytes_at (mc_mem w') b ElfSample.bytes.
Proof.
  destruct (kernel_read_ends (BumpFirmware.efi ElfSample.bytes) BumpFirmware.lent (BumpFirmware.cursor ElfSample.bytes)
    ElfSample.bytes (BumpFirmware.lawful ElfSample.bytes eq_refl) 1 176 BumpFirmware.start) as (w' & st & res & E & H).
  - change (zlen ElfSample.bytes) with 176. lia.
  - change (zlen ElfSample.bytes) with 176. lia.
  - pose proof BumpFirmware.whole_file_read_true as Hr. unfold BumpFirmware.whole_file_read in Hr. rewrite E in Hr.
    destruct res as [[[b size] loaded]|]; [|discriminate Hr]. rewrite !andb_true_iff, !Z.eqb_eq in Hr.
    destruct Hr as (((-> & ->) & ->) & ->). destruct H as (_ & _ & _ & H & _). exists w', 0x40002000. split; [exact E|exact H].
Defined.

(** C3: the loader as a whole.  On every lawful firmware and for every kernel
    file the program neither faults nor loops for ever, and it jumps only into
    a machine that keeps the protocol's promise: the plan is the sound plan of
    the file; every segment's pages hold the file's bytes and zeros; the only
    header of the kernel verifies and its contract with the loader holds; the
    stack, the arena, the page tables and the kernel lie apart below 4 GiB and
    the stack is blank; the page tables translate every address as the header
    asks; boot services were left and no service was called since; and the
    INFO structure in the first argument delivers exactly the direct-map
    offset, the final memory map and the kernel's addresses.  It halts only
    when the final memory map cannot be accepted or the firmware gave page 0.
    And it does jump: if the firmware grants what is asked (the file is there,
    the pages of the segments are free, there is room for the rest, the memory
    map of a machine below 4 GiB is delivered and still current at the exit),
    the only other end is a return that blames the kernel for a file that has no
    plan, whose segments have no header keeping the contract, or that the page
    tables cannot place. *)
Theorem loader_boots_kernel {F : Type} (efi : efi_services F) (lent : F -> gset (Z * Z))
    (cursor : F -> Z -> option Z) (content : list byte) (Hfw : Firmware efi lent cursor content)
    (Hnull : NullRefused efi lent) (image system_table : Z) (fuel : nat) (w : machine F) :
  (system_table <> 0 -> mapped (mc_mem w) (system_table + 96) 8) ->
  zlen content <= Z.of_nat fuel -> zlen content < 2 ^ 64 ->
  exists w' out, efi_main efi image system_table fuel w = Some (w', out) /\
    ended efi content image out w' /\
    forall s, Obliging efi lent cursor content s -> launch content s system_table w -> decided_by_file content out.
Proof.
  intros Ht Hfuel Hmax.
  destruct (runs_efi_main efi lent cursor content unpromising false ltac:(done) image system_table fuel w Ht Hfuel Hmax ltac:(done))
    as (w' & out & E & Hend & _).
  exists w', out. split_and!; [done|done|]. intros s Hob Hl.
  destruct (runs_efi_main efi lent cursor content s true (fun _ => Hob) image system_table fuel w Ht Hfuel Hmax (fun _ => Hl))
    as (w2 & out2 & E2 & _ & Hdec).
  rewrite E in E2. injection E2 as <- <-. by apply Hdec.
Qed.

Lemma loader_boots_kernel_witness :
  exists w' cr3 rsp rdi header,
    efi_main (BumpFirmware.efi KernelSample.bytes) 1 4096 360 BumpFirmware.start =
      Some (w', Jumped cr3 rsp rdi KernelSample.entry) /\
    booted (BumpFirmware.efi KernelSample.bytes) KernelSample.bytes 1 KernelSample.plan header w' cr3 rsp rdi
      KernelSample.entry.
Proof.
  destruct (loader_boots_kernel (BumpFirmware.efi KernelSample.bytes) BumpFirmware.lent
    (BumpFirmware.cursor KernelSample.bytes) KernelSample.bytes (BumpFirmware.lawful KernelSample.bytes eq_refl)
    (BumpFirmware.refuses_null KernelSample.bytes) 1 4096 360 BumpFirmware.start) as (w' & out & E & Hend & Hdec).
  - intros _. exact BumpFirmware.start_table.
  - rewrite KernelSample.size_is. lia.
  - rewrite KernelSample.size_is. lia.
  - specialize (Hdec BumpFirmware.stock (BumpFirmware.obliging KernelSample.bytes) BumpFirmware.start_launch).
    destruct out as [reason|reason|cr3 rsp rdi rip]; [destruct (KernelSample.faultless _ Hdec)|destruct Hdec|].
    destruct Hend as (plan & header & Hb). pose proof (KernelSample.only_plan plan (bt_plan _ _ _ _ _ _ _ _ _ _ Hb)) as ->.
    pose proof (bt_entry _ _ _ _ _ _ _ _ _ _ Hb) as Hrip. cbn [pl_entry KernelSample.plan] in Hrip. subst rip.
    exists w', cr3, rsp, rdi, header. split; [exact E|exact Hb].
Defined.
